(* ===== verification/_CoqProject ===== *)
-Q . S2P
Prelude.v
MaxHeap.v
JsString.v
Regex.v
JsDate.v
TimeParser.v
Timezone.v
Stitcher.v
LineReaders.v
LogEntry.v
ParserEngine.v
Json.v
KWay.v
LogFiles.v
TypePipeline.v
Warmup.v
MergeDirectory.v
ReverseMerge.v
Manifest.v
ChunkWriter.v
PagedReader.v
LogFilter.v
Pagination.v
PaginationSpec.v
PaginationCache.v
Session.v
SessionSpec.v
Messages.v
Viewer.v
HostBridge.v
HostBridgeSpec.v
ViewerSpec.v
Panel.v
ViewerHost.v
UiBridge.v
Realtime.v
LogStores.v
Grid.v
GridSpec.v
Shell.v
Paths.v
Workflow.v
UnitFile.v
Device.v
Discovery.v
Patcher.v
Guard.v
Tasks.v
TasksSpec.v
Connection.v
Transfer.v
Git.v
UserData.v
Explorer.v
EdgePanel.v
EdgePanelSpec.v
EdgeLayout.v
Seeding.v
PanelHost.v
FilterDialog.v
Perf.v
Commands.v
PerfMonitor.v
Terminals.v
Flows.v
ViewerPanel.v
ViewerParts.v
HostRequests.v
TransferFlow.v
ExplorerStatus.v
Shared.v
PanelLayout.v
ConnectFlow.v
