(* ===== verification/Prelude.v ===== *)
(** * Homey EdgeTool: a verification of the extension

    Homey EdgeTool is an extension of VS Code for developers of a home-automation device.  It
    merges the rotated log files of a device into one log and shows it page by page in a web
    view; it connects to a device over adb or ssh, patches the unit file of the device's service,
    restarts it and transfers files; and it shows the workspace, the state of git and its own
    debug log in a side panel.  This library translates the TypeScript of these parts into
    executable definitions and proves what they do.  Paths below are relative to src/src.

    ** The parts and how they interact

    Log pipeline.  A session (core/sessions) lists the input files, runs the warm-up pass and the
    merge (core/logs/LogFileIntegration.ts), writes the merged entries to part files (ChunkWriter)
    with a manifest, and feeds the page service (PaginationService), which answers the bridge of
    the host (extension/messaging/hostWebviewBridge.ts); the viewer (webviewers/log-viewer) asks
    for pages by messages and paints them in a grid.
    - Prelude: generic lemmas and tactics; JsString, Regex, JsDate, Json: what the sources use of
      the language, with [Regex] a backtracking matcher and [Json] a printer and a parser;
    - TimeParser, Timezone, Stitcher: time headers and their correction (core/logs/time);
    - LineReaders, LogFiles, ParserEngine, TypePipeline: from the bytes of a directory to the
      corrected entries of a type; MaxHeap, KWay, Warmup, ReverseMerge, MergeDirectory: the merges;
    - LogEntry, Manifest, ChunkWriter, PagedReader: the stored form; LogStores: the smaller stores;
    - LogFilter, Pagination, PaginationSpec, PaginationCache: the page service, its abstract
      view and its cache; Session, SessionSpec, Realtime: the two kinds of session;
    - Messages, HostBridge, HostBridgeSpec, HostRequests, Panel, ViewerPanel: the host, with the
      life of its panel and its own requests; UiBridge, Viewer, ViewerSpec, Grid, GridSpec,
      FilterDialog, ViewerParts: the web view; ViewerHost: both sides composed.

    Device.  The task runners (core/tasks) are workflows over the patcher of the service file, the
    guard and the discovery of the service; every command goes through the connection manager.
    - Shell, UnitFile: command lines and sed scripts; Device: the device as an interface with
      laws, its programs, and the monad of the tasks with its Hoare rules;
    - Discovery, Patcher, Guard, Workflow, Tasks, TasksSpec: the tasks and what they do;
    - Connection, Transfer, TransferFlow, Git, Commands, ConnectFlow, Flows, Terminals: connections,
      files, git, update, the dialogs that connect a device, the commands that ask the user, and the two terminals.

    Side panel.  The provider (extension/panels) hosts the web view (webviewers/edge-panel), runs
    its buttons and its explorer requests, and forwards the log.
    - Paths, UserData, Seeding: paths, the settings file, the workspace and its seeds;
    - Explorer, ExplorerStatus, PanelHost: the host; EdgePanel, EdgePanelSpec, EdgeLayout,
      PanelLayout: the view;
    - Perf, PerfMonitor: the profiler and its monitor (extension/editors, webviewers/perf-monitor);
      Shared: store, loggers and modes.

    ** How the code is represented

    A string is the list of its UTF-16 code units, a byte an integer, a number an integer or a
    rational where the code divides; an array a list; a dictionary a finite map, or a list of
    pairs where the order counts.  A field that may be absent is an option, a call that may throw
    a [js_result].  Objects that are shared and changed (the nodes of the tree, the arrays of a
    capture, the rows of the warm-up buffer) live in an explicit store.  Handlers are functions
    from a state and an event to a state and messages; where handlers are interleaved at awaits
    (requests of the bridge, counts of the page service, overlapping appends, refreshes) the
    system is a step relation, and invariants are proved over every reachable state.

    ** What the theorems show

    - Completeness and order of the merges: no line is lost or doubled, batches are sorted, an
      abort leaves a prefix (KWay, Warmup, MergeDirectory, ReverseMerge, LineReaders, Timezone,
      Stitcher); what is stored is what was appended (ChunkWriter, Manifest, PagedReader).
    - Refinement: pages, filtered pages, totals and searches are functions of one list, whatever
      mode the service is in and whatever runs at the same time (PaginationSpec,
      PaginationCache); from the files to the screen (SessionSpec, ViewerHost, GridSpec).
    - Invariants of the viewer, of the host, of pending requests on either side, of the panels and
      their sessions and timers, of the tree of the panel, of the buttons and of the log
      (ViewerSpec, HostBridgeSpec, UiBridge, HostRequests, ViewerPanel, EdgePanelSpec, PanelHost).
    - What the parts of a view do to the store and to the saved preferences (FilterDialog,
      ViewerParts), and what a capture of the profiler reports (Perf, PerfMonitor).
    - Effects on a device: mount, unmount, toggle and restart, with the content of the service
      file, its backup, and the cases of failure (UnitFile, TasksSpec); uploads, downloads, exit
      codes and outputs (Transfer, TransferFlow, Connection); status and push of git (Git, Flows);
      what terminals write and when they close (Terminals).
    - Liveness and termination: requests are sent, refreshes come to rest and none is lost, waits
      end (GridSpec, Explorer, Device), year loops and retries end (Stitcher, Workflow).
    - Faults that modelling showed are stated as theorems or examples beside the others, for
      instance the loss of the parser's rules when the workspace is changed (Seeding).

    ** Bounds and fuel

    [Regex] needs no fuel.  The JSON parser and the loops over a file take fuel from the length
    of their input, and the round trips show that it is enough.  The k-way merges take the number
    of entries left; the year loop of [Stitcher] has a bound shown to suffice; [wait_until] of
    [Device] takes [wait_fuel], computed from timeout and interval, and is shown to end before;
    [copyDir] of [Seeding] takes the depth of the tree as a hypothesis of its theorem;
    [preorder] of [EdgePanel] takes the size of the heap.  Workflows take a bound on their
    number of steps, with a theorem that it suffices.

    ** Not modelled

    - HTML, styles, focus, the drawing of charts and the text of logs, stages and memory metrics; when React
      runs an effect; the optional copy of raw files; the build and bench scripts.
    - Third-party code: the editor, node, ssh2, adb, git, tar and the programs of the device are
      parameters with the laws that are relied on.  [DeviceLaws] is about command lines that
      arrive unchanged, as over ssh; adb replaces line ends in them.
    - Simplifications: the session awaits the handler of a batch (overlapping calls are treated in
      ChunkWriter); a page read is one step of the service; the flushes of a realtime session do
      not overlap; the answer to an unreadable part is left out; a step of a workflow that exceeds its timeout has done its work; symbolic links
      are not followed; members of an object keep the order in which they were set, also when
      they look like integers; clipping of dates at 8.64e15 ms is not reached. *)

From stdpp Require Import base list sorting strings.
From Stdlib Require Import ZArith Lia.

Declare Scope edge_scope.
Delimit Scope edge_scope with edge.
#[global] Open Scope Z_scope.

(** A JavaScript string: its sequence of UTF-16 code units. *)
Abbreviation str := (list Z).

(** Literals of the source, as code units. *)
Fixpoint js (s : string) : str :=
  match s with
  | EmptyString => []
  | String a s' => Z.of_N (Ascii.N_of_ascii a) :: js s'
  end.

(** ** Generic definitions *)

(** The order of every stored sequence of this program: newest first. *)
Definition desc_by {A} (key : A -> Z) (a b : A) : Prop := key b <= key a.

(** [Array.prototype.sort] with a consistent comparator: the language
    requires the sort to be stable, which fixes its result.  [cmp a b > 0]
    puts [b] before [a]. *)
Fixpoint sort_insert {A} (cmp : A -> A -> Z) (x : A) (l : list A) : list A :=
  match l with
  | [] => [x]
  | y :: l' => if cmp x y <=? 0 then x :: y :: l' else y :: sort_insert cmp x l'
  end.

Fixpoint array_sort {A} (cmp : A -> A -> Z) (l : list A) : list A :=
  match l with
  | [] => []
  | x :: l' => sort_insert cmp x (array_sort cmp l')
  end.

(** [a.slice(start, end)] for [0 <= start]; positions past the end are cut. *)
Definition slice {A} (a : list A) (start stop : Z) : list A :=
  take (Z.to_nat stop - Z.to_nat start) (drop (Z.to_nat start) a).

(** [a.length] *)
Definition zlen {A} (l : list A) : Z := Z.of_nat (length l).

(** The value of a field that may be [undefined], or a default ([x ?? d]). *)
Definition or_else {A} (o : option A) (d : A) : A :=
  match o with Some x => x | None => d end.

(** The truth value of a string or the test [l.length > 0]. *)
Definition nonempty {A} (l : list A) : bool :=
  match l with [] => false | _ :: _ => true end.

(** The outcome of a call that may throw. *)
Inductive js_result (A : Type) := Ok (a : A) | Throws.
Arguments Ok {A} _.
Arguments Throws {A}.

Definition res_bind {A B} (x : js_result A) (k : A -> js_result B) : js_result B :=
  match x with Ok a => k a | Throws => Throws end.

Notation "'let!' x := e 'in' k" := (res_bind e (fun x => k))
  (at level 10, x name, e at level 100, k at level 200) : edge_scope.

(** [try { x } catch { d }] *)
Definition catch {A} (x : js_result A) (d : A) : A :=
  match x with Ok a => a | Throws => d end.

(** A loop whose body may throw, over the elements of an array. *)
Fixpoint res_map {A B} (f : A -> js_result B) (l : list A) : js_result (list B) :=
  match l with
  | [] => Ok []
  | x :: l' => res_bind (f x) (fun y => res_bind (res_map f l') (fun ys => Ok (y :: ys)))
  end.

(** ** Automation *)

Create HintDb edge.

(** Split every integer comparison of the context and the goal. *)
Ltac zcases :=
  repeat match goal with
  | H : context [Z.leb ?a ?b] |- _ => destruct (Z.leb_spec a b)
  | H : context [Z.ltb ?a ?b] |- _ => destruct (Z.ltb_spec a b)
  | H : context [Z.eqb ?a ?b] |- _ => destruct (Z.eqb_spec a b)
  | |- context [Z.leb ?a ?b] => destruct (Z.leb_spec a b)
  | |- context [Z.ltb ?a ?b] => destruct (Z.ltb_spec a b)
  | |- context [Z.eqb ?a ?b] => destruct (Z.eqb_spec a b)
  end.

(** Close a goal about an order on keys. *)
Ltac order_by := unfold desc_by in *; simpl in *; try done; try lia.

(** ** Lists sorted newest first *)

#[export] Instance desc_by_trans {A} (key : A -> Z) : Transitive (desc_by key).
Proof. intros x y z; order_by. Qed.

#[export] Instance desc_by_refl {A} (key : A -> Z) : Reflexive (desc_by key).
Proof. intros x; order_by. Qed.

#[export] Instance desc_by_dec {A} (key : A -> Z) : RelDecision (desc_by key).
Proof. intros x y; unfold desc_by; apply _. Defined.

Lemma sort_insert_perm {A} (cmp : A -> A -> Z) x l :
  sort_insert cmp x l ≡ₚ x :: l.
Proof.
  induction l as [|y l IH]; simpl; [done|].
  destruct (cmp x y <=? 0); [done|]. rewrite IH. apply Permutation_swap.
Qed.

Lemma array_sort_perm {A} (cmp : A -> A -> Z) l : array_sort cmp l ≡ₚ l.
Proof.
  induction l as [|x l IH]; simpl; [done|]. by rewrite sort_insert_perm, IH.
Qed.

Lemma array_sort_length {A} (cmp : A -> A -> Z) l :
  length (array_sort cmp l) = length l.
Proof. by rewrite (array_sort_perm cmp l). Qed.

(** A comparator that refines a transitive relation sorts by it. *)
Section sorting.
Context {A : Type} (cmp : A -> A -> Z) (R : A -> A -> Prop).
Hypothesis cmp_le : forall a b, cmp a b <= 0 -> R a b.
Hypothesis cmp_gt : forall a b, 0 < cmp a b -> R b a.
Context `{!Transitive R}.

Lemma sort_insert_sorted x l :
  StronglySorted R l -> StronglySorted R (sort_insert cmp x l).
Proof.
  induction 1 as [|y l Hs IH Hy]; simpl; [by repeat constructor|].
  destruct (Z.leb_spec (cmp x y) 0) as [Hle|Hgt].
  - apply cmp_le in Hle. constructor; [by constructor|].
    constructor; [done|]. eapply Forall_impl; [exact Hy|]. intros; by etrans.
  - constructor; [done|]. rewrite sort_insert_perm.
    constructor; [by apply cmp_gt|done].
Qed.

Lemma array_sort_sorted l : StronglySorted R (array_sort cmp l).
Proof. induction l; simpl; [constructor|by apply sort_insert_sorted]. Qed.
End sorting.

Lemma array_sort_id {A} (cmp : A -> A -> Z) l :
  StronglySorted (fun a b => cmp a b <= 0) l -> array_sort cmp l = l.
Proof.
  induction 1 as [|x l Hs IH Hx]; simpl; [done|]. rewrite IH.
  destruct l as [|y l]; simpl; [done|].
  apply Forall_cons in Hx as [Hxy _]. by destruct (Z.leb_spec (cmp x y) 0); [|lia].
Qed.

Lemma sorted_desc_lookup {A} (key : A -> Z) (l : list A) i j x y :
  StronglySorted (desc_by key) l -> (i <= j)%nat ->
  l !! i = Some x -> l !! j = Some y -> key y <= key x.
Proof.
  intros Hs. revert i j. induction Hs as [|z l Hs IH Hz]; intros i j Hij Hi Hj; [done|].
  rewrite Forall_lookup in Hz.
  destruct i as [|i], j as [|j]; simpl in *; [simplify_eq; lia| |lia|].
  - simplify_eq. by apply (Hz j).
  - apply (IH i j); [lia|done..].
Qed.

Lemma zlen_app {A} (l1 l2 : list A) : zlen (l1 ++ l2) = zlen l1 + zlen l2.
Proof. unfold zlen. rewrite length_app. lia. Qed.

Lemma zlen_nonneg {A} (l : list A) : 0 <= zlen l.
Proof. unfold zlen. lia. Qed.

#[export] Hint Resolve zlen_nonneg : edge.

Lemma slice_all {A} (l : list A) : slice l 0 (zlen l) = l.
Proof.
  unfold slice, zlen. rewrite Nat2Z.id, Z2Nat.inj_0, drop_0, Nat.sub_0_r.
  by rewrite take_ge.
Qed.

Lemma slice_length {A} (l : list A) s e :
  0 <= s <= e -> e <= zlen l -> zlen (slice l s e) = e - s.
Proof.
  unfold slice, zlen. intros. rewrite length_take, length_drop. lia.
Qed.

Lemma slice_lookup {A} (l : list A) s e (i : nat) :
  0 <= s -> Z.of_nat i < e - s ->
  slice l s e !! i = l !! (Z.to_nat s + i)%nat.
Proof.
  intros. unfold slice. rewrite lookup_take_lt by lia. by rewrite lookup_drop.
Qed.

Lemma map_add_0 (l : list Z) : map (fun r => r + 0) l = l.
Proof. rewrite <- (map_id l) at 2. apply map_ext. intros; lia. Qed.

Lemma filter_none {A} (P : A -> Prop) `{!forall x, Decision (P x)} l :
  Forall (fun x => ~ P x) l -> filter P l = [].
Proof. induction 1 as [|x l Hx _ IH]; [done|]. by rewrite filter_cons_False. Qed.

Lemma filter_all {A} (P : A -> Prop) `{!forall x, Decision (P x)} l :
  Forall P l -> filter P l = l.
Proof. induction 1 as [|x l Hx _ IH]; [done|]. by rewrite filter_cons_True, IH. Qed.
