(* ===== verification/MaxHeap.v ===== *)
(** * The binary max-heap of the k-way merges

    [MaxHeap<T>] of src/core/logs/LogFileIntegration.ts.  The heap stores its
    items in one array; [push] appends and sifts up, [pop] moves the last item
    to the root and sifts down.  The comparator is an argument of the class:
    three different ones are used by the program.  The theorems need only that
    the comparator refines the order of an integer key (the class
    [CmpRefines]), not that it is transitive on ties. *)

From stdpp Require Import base list sorting.
From Stdlib Require Import ZArith Lia.
From S2P Require Import Prelude.

Section MaxHeap.
Context {T : Type} (cmp : T -> T -> Z).

(** [(i - 1) >> 1] *)
Definition heap_parent (i : nat) : nat := Nat.div2 (i - 1).

(** [[arr[p], arr[i]] = [arr[i], arr[p]]] *)
Definition swap (arr : list T) (p i : nat) : list T :=
  match arr !! p, arr !! i with
  | Some x, Some y => <[i := x]> (<[p := y]> arr)
  | _, _ => arr
  end.

(** [this.cmp(this.arr[a], this.arr[b])] for indices in range *)
Definition cmp_at (arr : list T) (a b : nat) : Z :=
  match arr !! a, arr !! b with
  | Some x, Some y => cmp x y
  | _, _ => 0
  end.

(** [up(i)]: one iteration per call; [i] at least halves, so [fuel = i] is
    enough. *)
Fixpoint heap_up (fuel : nat) (arr : list T) (i : nat) : list T :=
  match fuel with
  | O => arr
  | S fuel' =>
      if (0 <? i)%nat then
        let p := heap_parent i in
        if 0 <=? cmp_at arr p i then arr
        else heap_up fuel' (swap arr p i) p
      else arr
  end.

(** The index chosen by the body of [down]: the larger child, or [i]. *)
Definition heap_largest (arr : list T) (i : nat) : nat :=
  let n := length arr in
  let l := (i * 2 + 1)%nat in
  let r := (l + 1)%nat in
  let m := if (l <? n)%nat && (0 <? cmp_at arr l i) then l else i in
  if (r <? n)%nat && (0 <? cmp_at arr r m) then r else m.

(** [down(i)]: the index grows at each iteration, [fuel = length] is enough. *)
Fixpoint heap_down (fuel : nat) (arr : list T) (i : nat) : list T :=
  match fuel with
  | O => arr
  | S fuel' =>
      let m := heap_largest arr i in
      if (m =? i)%nat then arr
      else heap_down fuel' (swap arr i m) m
  end.

Definition heap_push (arr : list T) (v : T) : list T :=
  heap_up (length arr) (arr ++ [v]) (length arr).

Definition heap_pop (arr : list T) : option (T * list T) :=
  match arr with
  | [] => None
  | top :: _ =>
      match last arr with
      | None => None
      | Some lst =>
          match take (length arr - 1) arr with
          | [] => Some (top, [])
          | _ :: rest => Some (top, heap_down (length arr) (lst :: rest) 0)
          end
      end
  end.

Definition heap_is_empty (arr : list T) : bool := negb (nonempty arr).

(** Pushing a whole batch, as the merge loops do. *)
Definition heap_push_all (arr : list T) (vs : list T) : list T :=
  foldl heap_push arr vs.
End MaxHeap.

(** What a client promises of its comparator: it refines the order of a key
    (larger key first), whatever it does on ties. *)
Class CmpRefines {T} (cmp : T -> T -> Z) (key : T -> Z) : Prop := {
  cmp_pos : forall a b, 0 < cmp a b -> key b <= key a;
  cmp_neg : forall a b, cmp a b < 0 -> key a <= key b;
  cmp_zero : forall a b, cmp a b = 0 -> key a = key b;
}.

(** The heap order on keys: no item exceeds its parent. *)
Definition heap_ok {T} (key : T -> Z) (arr : list T) : Prop :=
  forall i x y, (0 < i)%nat ->
    arr !! heap_parent i = Some x -> arr !! i = Some y -> key y <= key x.

(** The heap order but for the edge above [i]. *)
Definition up_ok {T} (key : T -> Z) (arr : list T) (i : nat) : Prop :=
  (forall j x y, (0 < j)%nat -> j <> i ->
    arr !! heap_parent j = Some x -> arr !! j = Some y -> key y <= key x) /\
  (forall j x y, (0 < j)%nat -> (0 < i)%nat -> heap_parent j = i ->
    arr !! heap_parent i = Some x -> arr !! j = Some y -> key y <= key x).

(** The heap order but for the edges below [i]. *)
Definition down_ok {T} (key : T -> Z) (arr : list T) (i : nat) : Prop :=
  (forall j x y, (0 < j)%nat -> heap_parent j <> i ->
    arr !! heap_parent j = Some x -> arr !! j = Some y -> key y <= key x) /\
  (forall j x y, (0 < j)%nat -> (0 < i)%nat -> heap_parent j = i ->
    arr !! heap_parent i = Some x -> arr !! j = Some y -> key y <= key x).

Section proofs.
Context {T : Type} (cmp : T -> T -> Z) (key : T -> Z) `{!CmpRefines cmp key}.
Implicit Types arr : list T.

Lemma cmp_nonneg_key x y : 0 <= cmp x y -> key y <= key x.
Proof.
  intros H. destruct (Z_le_lt_eq_dec _ _ H) as [Hlt|Heq]; [by apply cmp_pos|].
  symmetry in Heq. apply (cmp_zero (key := key)) in Heq. lia.
Qed.

Lemma cmp_nonpos_key x y : cmp x y <= 0 -> key x <= key y.
Proof.
  intros H. destruct (Z_le_lt_eq_dec _ _ H) as [Hlt|Heq]; [by apply cmp_neg|].
  apply (cmp_zero (key := key)) in Heq. lia.
Qed.

Lemma parent_lt i : (0 < i)%nat -> (heap_parent i < i)%nat.
Proof. unfold heap_parent. rewrite Nat.div2_div. intros.
  pose proof (Nat.Div0.div_le_upper_bound (i-1) 2 (i-1)). lia. Qed.

Lemma parent_children i p :
  (0 < i)%nat -> heap_parent i = p -> i = (p * 2 + 1)%nat \/ i = (p * 2 + 2)%nat.
Proof.
  unfold heap_parent. intros Hi <-. rewrite Nat.div2_div.
  pose proof (Nat.div_mod_eq (i - 1) 2). pose proof (Nat.mod_upper_bound (i - 1) 2).
  lia.
Qed.

Lemma parent_left i : heap_parent (i * 2 + 1) = i.
Proof.
  unfold heap_parent. replace (i * 2 + 1 - 1)%nat with (2 * i)%nat by lia.
  apply Nat.div2_double.
Qed.

Lemma parent_right i : heap_parent (i * 2 + 2) = i.
Proof.
  unfold heap_parent. replace (i * 2 + 2 - 1)%nat with (S (2 * i)) by lia.
  apply Nat.div2_succ_double.
Qed.

Lemma swap_length arr p i : length (swap arr p i) = length arr.
Proof. unfold swap. by repeat case_match; rewrite ?length_insert. Qed.

Lemma swap_lookup arr p i x y j :
  arr !! p = Some x -> arr !! i = Some y ->
  swap arr p i !! j =
    if decide (j = i) then Some x else if decide (j = p) then Some y else arr !! j.
Proof.
  intros Hp Hi. unfold swap. rewrite Hp, Hi.
  apply lookup_lt_Some in Hp as Hp'. apply lookup_lt_Some in Hi as Hi'.
  repeat case_decide; subst.
  - apply list_lookup_insert_eq. by rewrite length_insert.
  - rewrite list_lookup_insert_ne by done. by apply list_lookup_insert_eq.
  - by rewrite !list_lookup_insert_ne.
Qed.

Lemma swap_perm arr p i : swap arr p i ≡ₚ arr.
Proof.
  unfold swap. destruct (arr !! p) as [x|] eqn:Hp; [|done].
  destruct (arr !! i) as [y|] eqn:Hi; [|done].
  by apply (Permutation_insert_swap arr p i).
Qed.

(** Sifting up: the edge above [i] is the only one that may be wrong. *)
Lemma up_step arr i x y :
  up_ok key arr i -> (0 < i)%nat ->
  arr !! heap_parent i = Some x -> arr !! i = Some y -> key x <= key y ->
  up_ok key (swap arr (heap_parent i) i) (heap_parent i).
Proof.
  intros [H1 H2] Hi Hp Hy Hle. pose proof (parent_lt i Hi) as Hlt.
  split.
  - intros j u v Hj Hji. rewrite !(swap_lookup arr _ _ x y) by done.
    pose proof (parent_lt j Hj).
    repeat case_decide; intros; simplify_eq; try lia; eauto with lia.
    transitivity (key x); [|done]. apply (H1 j); auto; congruence.
  - intros j u v Hj Hpi Hjp. rewrite !(swap_lookup arr _ _ x y) by done.
    pose proof (parent_lt (heap_parent i) Hpi).
    repeat case_decide; intros; simplify_eq; try lia.
    + apply (H1 (heap_parent i) u v); auto; lia.
    + transitivity (key x); [apply (H1 j x v); auto; congruence|].
      apply (H1 (heap_parent i) u x); auto; lia.
Qed.

Lemma heap_up_perm fuel arr i : heap_up cmp fuel arr i ≡ₚ arr.
Proof.
  revert arr i. induction fuel as [|fuel IH]; intros arr i; simpl; [done|].
  repeat case_match; try done. by rewrite IH, swap_perm.
Qed.

Lemma heap_up_ok fuel arr i :
  (i <= fuel)%nat -> (i < length arr)%nat -> up_ok key arr i ->
  heap_ok key (heap_up cmp fuel arr i).
Proof.
  revert arr i. induction fuel as [|fuel IH]; intros arr i Hf Hi Hok; simpl.
  - destruct Hok as [H1 _]. intros j x y Hj. apply H1; lia.
  - destruct (Nat.ltb_spec 0 i) as [Hpos|Hz].
    2: { destruct Hok as [H1 _]. intros j x y Hj. apply H1; lia. }
    pose proof (parent_lt i Hpos) as Hlt.
    destruct (lookup_lt_is_Some_2 arr i Hi) as [y Hy].
    destruct (lookup_lt_is_Some_2 arr (heap_parent i) ltac:(lia)) as [x Hx].
    unfold cmp_at. rewrite Hx, Hy.
    destruct (Z.leb_spec 0 (cmp x y)) as [Hc|Hc].
    + intros j u v Hj Hu Hv. destruct (decide (j = i)) as [->|Hne].
      * assert (u = x) as -> by congruence. assert (v = y) as -> by congruence.
        by apply cmp_nonneg_key.
      * destruct Hok as [H1 _]. by apply (H1 j).
    + apply IH; [lia|rewrite swap_length; lia|].
      eapply up_step; eauto. by apply cmp_neg.
Qed.

(** [push] keeps the heap order and adds exactly the new item. *)
Lemma heap_push_perm arr v : heap_push cmp arr v ≡ₚ v :: arr.
Proof. unfold heap_push. rewrite heap_up_perm. by rewrite Permutation_app_comm. Qed.

Lemma heap_push_ok arr v : heap_ok key arr -> heap_ok key (heap_push cmp arr v).
Proof.
  intros Hok. apply heap_up_ok; [done|rewrite length_app; simpl; lia|].
  split.
  - intros j x y Hj Hne Hx Hy.
    assert (j < length arr)%nat.
    { apply lookup_lt_Some in Hy. rewrite length_app in Hy; simpl in Hy. lia. }
    pose proof (parent_lt j Hj).
    rewrite lookup_app_l in Hx, Hy by lia. by apply (Hok j).
  - intros j x y Hj Hpos Hp Hx Hy. pose proof (parent_lt j Hj).
    apply lookup_lt_Some in Hy. rewrite length_app in Hy; simpl in Hy. lia.
Qed.

(** The child chosen by [down] dominates [i] and the other child. *)
Lemma largest_range arr i :
  (i < length arr)%nat ->
  heap_largest cmp arr i = i \/
  ((heap_largest cmp arr i = i * 2 + 1 \/ heap_largest cmp arr i = i * 2 + 2) /\
   heap_largest cmp arr i < length arr)%nat.
Proof.
  intros Hi. unfold heap_largest.
  destruct (Nat.ltb_spec (i*2+1) (length arr)), (Nat.ltb_spec (i*2+1+1) (length arr));
    simpl; repeat case_match; lia.
Qed.

Lemma cmp_at_pos arr a b x y :
  arr !! a = Some x -> arr !! b = Some y ->
  (0 <? cmp_at cmp arr a b) = true -> key y <= key x.
Proof. unfold cmp_at. intros -> ->. rewrite Z.ltb_lt. apply cmp_pos. Qed.

Lemma cmp_at_nonpos arr a b x y :
  arr !! a = Some x -> arr !! b = Some y ->
  (0 <? cmp_at cmp arr a b) = false -> key x <= key y.
Proof.
  unfold cmp_at. intros -> ->. rewrite Z.ltb_ge. apply cmp_nonpos_key. Qed.

Lemma largest_dominates arr i m j x y :
  heap_largest cmp arr i = m -> (i < length arr)%nat ->
  j = i \/ j = (i * 2 + 1)%nat \/ j = (i * 2 + 2)%nat ->
  arr !! m = Some x -> arr !! j = Some y -> key y <= key x.
Proof.
  intros Hm Hi Hj Hx Hy.
  destruct (lookup_lt_is_Some_2 arr i Hi) as [z Hz].
  pose proof (lookup_lt_Some _ _ _ Hy) as Hjl.
  unfold heap_largest in Hm.
  replace (i * 2 + 1 + 1)%nat with (i * 2 + 2)%nat in Hm by lia.
  set (l := (i * 2 + 1)%nat) in *. set (r := (i * 2 + 2)%nat) in *.
  destruct (Nat.ltb_spec l (length arr)) as [Hl|Hl];
  destruct (Nat.ltb_spec r (length arr)) as [Hr|Hr]; simpl in Hm; try (subst l r; lia).
  - destruct (lookup_lt_is_Some_2 arr l Hl) as [u Hu].
    destruct (lookup_lt_is_Some_2 arr r Hr) as [v Hv].
    destruct (0 <? cmp_at cmp arr l i) eqn:E1;
    match type of Hm with context [if ?b then _ else _] => destruct b eqn:E2 end; subst m;
    first [eapply cmp_at_pos in E1; [|eassumption..] | eapply cmp_at_nonpos in E1; [|eassumption..]];
    first [eapply cmp_at_pos in E2; [|eassumption..] | eapply cmp_at_nonpos in E2; [|eassumption..]];
    destruct Hj as [->|[->| ->]]; simplify_eq; lia.
  - destruct (lookup_lt_is_Some_2 arr l Hl) as [u Hu].
    destruct (0 <? cmp_at cmp arr l i) eqn:E1; subst m;
    first [eapply cmp_at_pos in E1; [|eassumption..] | eapply cmp_at_nonpos in E1; [|eassumption..]];
    destruct Hj as [->|[->| ->]]; simplify_eq; lia.
  - subst m. destruct Hj as [->|[->| ->]]; [simplify_eq; lia|lia..].
Qed.

Lemma down_step arr i m x y :
  down_ok key arr i -> heap_parent m = i -> (i < m)%nat -> (i < length arr)%nat ->
  heap_largest cmp arr i = m ->
  arr !! i = Some x -> arr !! m = Some y ->
  down_ok key (swap arr i m) m.
Proof.
  intros [H1 H2] Hpm Him Hi Hm Hx Hy.
  assert (forall j v, (0 < j)%nat -> heap_parent j = i -> arr !! j = Some v -> key v <= key y) as Hdom.
  { intros j v Hj Hp Hv. eapply (largest_dominates arr i m j); eauto.
    destruct (parent_children j i Hj Hp); auto. }
  assert (key x <= key y) as Hxy by (eapply (largest_dominates arr i m i); eauto).
  split.
  - intros j u v Hj Hne. rewrite !(swap_lookup arr _ _ x y) by done.
    pose proof (parent_lt j Hj).
    repeat case_decide; intros; simplify_eq; try lia; eauto with lia.
    apply (H2 (heap_largest cmp arr i)); auto; lia.
  - intros j u v Hj Hpos Hjm. rewrite Hpm. rewrite !(swap_lookup arr _ _ x y) by done.
    pose proof (parent_lt j Hj).
    repeat case_decide; intros; simplify_eq; try lia. apply (H1 j); auto; lia.
Qed.

Lemma heap_down_perm fuel arr i : heap_down cmp fuel arr i ≡ₚ arr.
Proof.
  revert arr i. induction fuel as [|fuel IH]; intros arr i; simpl; [done|].
  case_match; [done|]. by rewrite IH, swap_perm.
Qed.

Lemma heap_down_ok fuel arr i :
  (length arr <= fuel + i)%nat -> (i < length arr)%nat -> down_ok key arr i ->
  heap_ok key (heap_down cmp fuel arr i).
Proof.
  revert arr i. induction fuel as [|fuel IH]; intros arr i Hf Hi Hok; simpl; [lia|].
  set (m := heap_largest cmp arr i).
  destruct (lookup_lt_is_Some_2 arr i Hi) as [x Hx].
  destruct (largest_range arr i Hi) as [Hm|[Hm Hml]]; fold m in Hm.
  - rewrite Hm, Nat.eqb_refl. intros j u v Hj Hu Hv.
    destruct (decide (heap_parent j = i)) as [Hp|Hp].
    + rewrite Hp in Hu. eapply (largest_dominates arr i i j); eauto.
      destruct (parent_children j i Hj Hp); auto.
    + destruct Hok as [H1 _]. by apply (H1 j).
  - fold m in Hml. destruct (Nat.eqb_spec m i); [lia|].
    destruct (lookup_lt_is_Some_2 arr m Hml) as [y Hy].
    apply IH; rewrite ?swap_length; [lia|lia|].
    eapply (down_step arr i m x y); eauto; [|lia].
    destruct Hm as [->| ->]; [apply parent_left|apply parent_right].
Qed.

(** The root of a heap has the largest key. *)
Lemma heap_root_max arr x i y :
  heap_ok key arr -> arr !! 0%nat = Some x -> arr !! i = Some y -> key y <= key x.
Proof.
  intros Hok Hx. revert y. induction (lt_wf i) as [i _ IH]. intros y Hy.
  destruct (decide (i = 0%nat)) as [->|Hi]; [simplify_eq; lia|].
  pose proof (parent_lt i ltac:(lia)) as Hlt.
  pose proof (lookup_lt_Some _ _ _ Hy).
  destruct (lookup_lt_is_Some_2 arr (heap_parent i) ltac:(lia)) as [z Hz].
  transitivity (key z); [apply (Hok i z y); auto; lia|by apply (IH (heap_parent i))].
Qed.

Lemma heap_pop_perm arr top arr' :
  heap_pop cmp arr = Some (top, arr') -> arr ≡ₚ top :: arr'.
Proof.
  unfold heap_pop. destruct arr as [|t0 rest]; [done|].
  destruct (last (t0 :: rest)) as [lst|] eqn:El; [|done].
  apply last_Some in El as [init Ei]. rewrite Ei.
  rewrite length_app; simpl. replace (length init + 1 - 1)%nat with (length init) by lia.
  rewrite take_app_length. destruct init as [|h init']; [simpl in *; intros; by simplify_eq|].
  cbn [app] in *. intros; simplify_eq. rewrite heap_down_perm.
  apply perm_skip. by rewrite Permutation_app_comm.
Qed.

(** [pop] returns an item of largest key, and keeps the heap order. *)
Lemma heap_pop_ok arr top arr' :
  heap_ok key arr -> heap_pop cmp arr = Some (top, arr') ->
  heap_ok key arr' /\ Forall (fun y => key y <= key top) arr'.
Proof.
  intros Hok Hpop. pose proof (heap_pop_perm _ _ _ Hpop) as Hperm.
  assert (Forall (fun y => key y <= key top) arr) as Hmax.
  { rewrite Forall_lookup. intros i y Hy. unfold heap_pop in Hpop.
    destruct arr as [|t0 rest]; [done|].
    eapply heap_root_max; eauto. simpl. repeat case_match; simplify_eq; done. }
  split; [|rewrite Hperm in Hmax; by inversion Hmax].
  clear Hperm Hmax. unfold heap_pop in Hpop. destruct arr as [|t0 rest]; [done|].
  destruct (last (t0 :: rest)) as [lst|] eqn:El; [|done].
  apply last_Some in El as [init Ei]. rewrite Ei in Hpop, Hok.
  rewrite length_app in Hpop; simpl in Hpop.
  replace (length init + 1 - 1)%nat with (length init) in Hpop by lia.
  rewrite take_app_length in Hpop.
  destruct init as [|h init']; cbn [app length] in *; simplify_eq; [intros ???; done|].
  apply heap_down_ok; [simpl; lia..|]. split; [|lia].
  intros j x y Hj Hne Hx Hy. destruct j as [|j]; [lia|].
  destruct (heap_parent (S j)) as [|p] eqn:Ep; [lia|]. simpl in Hx, Hy.
  apply (Hok (S j) x y); [lia| |]; [rewrite Ep|]; simpl;
    rewrite lookup_app_l; try done; eauto using lookup_lt_Some.
Qed.

Lemma heap_pop_some arr : arr <> [] -> exists top arr', heap_pop cmp arr = Some (top, arr').
Proof.
  intros Hne. unfold heap_pop. destruct arr as [|t0 rest]; [done|].
  destruct (last (t0 :: rest)) eqn:El; [repeat case_match; eauto|].
  by apply last_None in El.
Qed.

Lemma heap_push_all_perm arr vs : heap_push_all cmp arr vs ≡ₚ arr ++ vs.
Proof.
  unfold heap_push_all. revert arr. induction vs as [|v vs IH]; intros arr; simpl.
  - by rewrite app_nil_r.
  - rewrite IH, heap_push_perm. apply Permutation_middle.
Qed.

Lemma heap_push_all_ok arr vs : heap_ok key arr -> heap_ok key (heap_push_all cmp arr vs).
Proof.
  unfold heap_push_all. revert arr. induction vs; intros arr Hok; simpl; [done|].
  by apply IHvs, heap_push_ok.
Qed.
End proofs.

Lemma heap_ok_nil {T} (key : T -> Z) : heap_ok key [].
Proof. intros i x y _ H. done. Qed.

#[export] Hint Resolve heap_ok_nil heap_push_ok heap_push_all_ok : edge.
