(* ===== verification/JsString.v ===== *)
(** * The string operations of the language that the sources use

    Strings are lists of UTF-16 code units.  Only what the modelled sources
    call is defined: [trim], [split], [includes], [startsWith], [indexOf],
    [padStart], [padEnd], [parseInt], number printing, [path.basename] (POSIX)
    and the UTF-8 decoding done by [Buffer.toString('utf8')].  Lower-casing
    outside ASCII depends on Unicode tables and is an argument of the
    components that use it. *)

From stdpp Require Import base list.
From Stdlib Require Import ZArith Lia.
From S2P Require Import Prelude.

(** ** Character classes *)

(** WhiteSpace and LineTerminator of ECMAScript: what [trim] and [\s] use. *)
Definition is_ws (c : Z) : bool :=
  ((9 <=? c) && (c <=? 13)) || (c =? 32) || (c =? 160) || (c =? 5760) ||
  ((8192 <=? c) && (c <=? 8202)) || (c =? 8232) || (c =? 8233) || (c =? 8239) ||
  (c =? 8287) || (c =? 12288) || (c =? 65279).

Definition is_digit (c : Z) : bool := (48 <=? c) && (c <=? 57).

Definition is_upper (c : Z) : bool := (65 <=? c) && (c <=? 90).

Definition is_lower (c : Z) : bool := (97 <=? c) && (c <=? 122).

(** [\w] *)
Definition is_word (c : Z) : bool := is_digit c || is_upper c || is_lower c || (c =? 95).

(** LF, CR, U+2028 and U+2029: what [.] does not match. *)
Definition is_line_term (c : Z) : bool :=
  (c =? 10) || (c =? 13) || (c =? 8232) || (c =? 8233).

Definition lower_unit (c : Z) : Z := if is_upper c then c + 32 else c.

(** [toLowerCase] on ASCII text *)
Definition ascii_lower (s : str) : str := map lower_unit s.

(** ** Searching and cutting *)

Fixpoint drop_while (p : Z -> bool) (s : str) : str :=
  match s with
  | [] => []
  | c :: t => if p c then drop_while p t else s
  end.

Definition trim_start (s : str) : str := drop_while is_ws s.

Definition trim_end (s : str) : str := rev (drop_while is_ws (rev s)).

Definition trim (s : str) : str := trim_end (trim_start s).

Fixpoint starts_with (p s : str) : bool :=
  match p, s with
  | [], _ => true
  | c :: p', d :: s' => (c =? d) && starts_with p' s'
  | _ :: _, [] => false
  end.

(** [s.includes(p)] *)
Fixpoint includes (s p : str) : bool :=
  starts_with p s || match s with [] => false | _ :: t => includes t p end.

(** [s.indexOf(c)] of one unit: the text before it and the text after it *)
Fixpoint cut_at (c : Z) (s : str) : option (str * str) :=
  match s with
  | [] => None
  | d :: t =>
      if d =? c then Some ([], t)
      else match cut_at c t with Some (a, b) => Some (d :: a, b) | None => None end
  end.

(** [s.split(c)] for a one-unit separator *)
Fixpoint split_on (c : Z) (s : str) : list str :=
  match s with
  | [] => [[]]
  | d :: t =>
      if d =? c then [] :: split_on c t
      else match split_on c t with
           | [] => [[d]]
           | w :: ws => (d :: w) :: ws
           end
  end.

(** [s.split(/\r?\n/)] *)
Fixpoint split_crlf (s : str) : list str :=
  match s with
  | [] => [[]]
  | d :: t =>
      let cont :=
        match split_crlf t with
        | [] => [[d]]
        | w :: ws => (d :: w) :: ws
        end in
      if d =? 10 then [] :: split_crlf t
      else if d =? 13 then
        match t with
        | e :: _ => if e =? 10 then split_crlf t else cont
        | [] => cont
        end
      else cont
  end.

(** [s.split(/\s+/g)]: maximal runs of whitespace separate. *)
Fixpoint split_ws_aux (in_sep : bool) (s : str) : list str :=
  match s with
  | [] => [[]]
  | d :: t =>
      if is_ws d then
        if in_sep then split_ws_aux true t else [] :: split_ws_aux true t
      else match split_ws_aux false t with
           | [] => [[d]]
           | w :: ws => (d :: w) :: ws
           end
  end.

Definition split_ws (s : str) : list str := split_ws_aux false s.

(** [parts.join(sep)] *)
Fixpoint join (sep : str) (l : list str) : str :=
  match l with
  | [] => []
  | [x] => x
  | x :: l' => x ++ sep ++ join sep l'
  end.

(** [s.replace(/\r$/, '')] *)
Definition strip_cr (s : str) : str :=
  match last s with
  | Some c => if c =? 13 then take (length s - 1) s else s
  | None => s
  end.

(** [s.replace(BOM_RE, '')]: a leading U+FEFF is removed. *)
Definition strip_bom (s : str) : str :=
  match s with
  | c :: t => if c =? 65279 then t else s
  | [] => []
  end.

(** ** Numbers in strings *)

(** The value of a run of decimal digits, most significant first. *)
Fixpoint digits_value (acc : Z) (s : str) : Z :=
  match s with
  | [] => acc
  | c :: t => digits_value (acc * 10 + (c - 48)) t
  end.

Fixpoint take_while (p : Z -> bool) (s : str) : str :=
  match s with
  | [] => []
  | c :: t => if p c then c :: take_while p t else []
  end.

(** [parseInt(s, 10)]; [None] is [NaN]. *)
Definition parse_int (s : str) : option Z :=
  let '(sgn, t) :=
    match trim_start s with
    | c :: t => if c =? 45 then (-1, t) else if c =? 43 then (1, t) else (1, c :: t)
    | [] => (1, [])
    end in
  match take_while is_digit t with
  | [] => None
  | ds => Some (sgn * digits_value 0 ds)
  end.

(** [String(n)] of a non-negative integer; a number below [2^k] has at most
    [k] decimal digits, so [log2 n + 1] steps are enough. *)
Fixpoint print_digits (fuel : nat) (n : Z) (acc : str) : str :=
  match fuel with
  | O => acc
  | S f =>
      let acc' := (48 + n mod 10) :: acc in
      if n <? 10 then acc' else print_digits f (n / 10) acc'
  end.

Definition print_nat (n : Z) : str := print_digits (Z.to_nat (Z.log2 n + 1)) n [].

Definition print_int (n : Z) : str :=
  if n <? 0 then 45 :: print_nat (- n) else print_nat n.

(** [s.padStart(n, c)] and [s.padEnd(n, c)] *)
Definition pad_start (n : nat) (c : Z) (s : str) : str := replicate (n - length s) c ++ s.

Definition pad_end (n : nat) (c : Z) (s : str) : str := s ++ replicate (n - length s) c.

(** ** Paths *)

(** [path.basename] (POSIX): the last component, trailing slashes ignored. *)
Definition basename (p : str) : str :=
  rev (take_while (fun c => negb (c =? 47)) (drop_while (fun c => c =? 47) (rev p))).

(** [path.join(dir, name)] for a directory without trailing slash *)
Definition path_join (dir name : str) : str := dir ++ 47 :: name.

(** ** UTF-8 *)

Definition is_cont (b : Z) : bool := (128 <=? b) && (b <=? 191).

(** The code units of a scalar value: one, or a surrogate pair. *)
Definition utf16_of (cp : Z) : str :=
  if cp <? 65536 then [cp]
  else [55296 + (cp - 65536) / 1024; 56320 + (cp - 65536) mod 1024].

(** [Buffer.toString('utf8')]: every maximal ill-formed part becomes U+FFFD. *)
Fixpoint utf8_decode (bs : list Z) : str :=
  match bs with
  | [] => []
  | b :: r1 =>
      if b <? 128 then b :: utf8_decode r1
      else if (194 <=? b) && (b <=? 223) then
        match r1 with
        | c :: r2 =>
            if is_cont c then ((b - 192) * 64 + (c - 128)) :: utf8_decode r2
            else 65533 :: utf8_decode r1
        | [] => [65533]
        end
      else if (224 <=? b) && (b <=? 239) then
        match r1 with
        | c :: r2 =>
            let lo := if b =? 224 then 160 else 128 in
            let hi := if b =? 237 then 159 else 191 in
            if (lo <=? c) && (c <=? hi) then
              match r2 with
              | d :: r3 =>
                  if is_cont d
                  then ((b - 224) * 4096 + (c - 128) * 64 + (d - 128)) :: utf8_decode r3
                  else 65533 :: utf8_decode r2
              | [] => [65533]
              end
            else 65533 :: utf8_decode r1
        | [] => [65533]
        end
      else if (240 <=? b) && (b <=? 244) then
        match r1 with
        | c :: r2 =>
            let lo := if b =? 240 then 144 else 128 in
            let hi := if b =? 244 then 143 else 191 in
            if (lo <=? c) && (c <=? hi) then
              match r2 with
              | d :: r3 =>
                  if is_cont d then
                    match r3 with
                    | e :: r4 =>
                        if is_cont e
                        then utf16_of ((b - 240) * 262144 + (c - 128) * 4096
                                       + (d - 128) * 64 + (e - 128)) ++ utf8_decode r4
                        else 65533 :: utf8_decode r3
                    | [] => [65533]
                    end
                  else 65533 :: utf8_decode r2
              | [] => [65533]
              end
            else 65533 :: utf8_decode r1
        | [] => [65533]
        end
      else 65533 :: utf8_decode r1
  end.

(** ** Lemmas *)

Lemma drop_while_idemp p s : drop_while p (drop_while p s) = drop_while p s.
Proof. induction s as [|c t IH]; simpl; [done|]. destruct (p c) eqn:E; simpl; rewrite ?E; auto. Qed.

Lemma drop_while_head p c t : p c = false -> drop_while p (c :: t) = c :: t.
Proof. simpl. by intros ->. Qed.

Lemma drop_while_app_head p s c t :
  p c = false -> exists s', drop_while p (s ++ c :: t) = s' ++ c :: t.
Proof.
  intros Hc. induction s as [|d s IH]; simpl; [exists []; by rewrite Hc|].
  destruct (p d); [done|]. by exists (d :: s).
Qed.

(** Trimming never removes a leading unit that is not whitespace. *)
Lemma trim_head c t : is_ws c = false -> exists t', trim (c :: t) = c :: t'.
Proof.
  intros Hc. unfold trim, trim_end, trim_start. rewrite drop_while_head by done.
  simpl. destruct (drop_while_app_head is_ws (rev t) c [] Hc) as [s' ->].
  rewrite rev_app_distr. simpl. eauto.
Qed.

Lemma drop_while_cases p s :
  drop_while p s = [] \/ exists c t, drop_while p s = c :: t /\ p c = false.
Proof.
  induction s as [|c t IH]; [by left|]. cbn. destruct (p c) eqn:E; [done|]. right. eauto.
Qed.

Lemma trim_trim s : trim (trim s) = trim s.
Proof.
  assert (Hs : drop_while is_ws (trim s) = trim s).
  { unfold trim, trim_start. destruct (drop_while_cases is_ws s) as [E|(c & t & E & Hc)]; rewrite E; [done|].
    destruct (trim_head c t Hc) as [t' Ht]. unfold trim, trim_start in Ht.
    rewrite drop_while_head in Ht by done. rewrite Ht. by apply drop_while_head. }
  unfold trim at 1, trim_start. rewrite Hs. unfold trim, trim_end.
  by rewrite rev_involutive, drop_while_idemp.
Qed.

Lemma cut_at_app c s rest :
  Forall (fun d => d <> c) s -> cut_at c (s ++ c :: rest) = Some (s, rest).
Proof.
  induction 1 as [|d s Hd _ IH]; simpl; [by rewrite Z.eqb_refl|].
  destruct (Z.eqb_spec d c); [done|]. by rewrite IH.
Qed.

Lemma starts_with_spec p s : starts_with p s = true <-> exists t, s = p ++ t.
Proof.
  revert s. induction p as [|c p IH]; intros s; simpl; [split; eauto|].
  destruct s as [|d s]; [split; [done|by intros [t Ht]]|].
  rewrite andb_true_iff, Z.eqb_eq, IH. split.
  - intros [-> [t ->]]. eauto.
  - intros [t Ht]. simplify_eq. eauto.
Qed.

Lemma includes_spec s p : includes s p = true <-> exists a b, s = a ++ p ++ b.
Proof.
  induction s as [|c s IH]; simpl; rewrite orb_true_iff, starts_with_spec.
  - split.
    + intros [[t Ht]|?]; [|done]. exists [], t. done.
    + intros (a & b & H). left. destruct a; [|done]. eauto.
  - rewrite IH. split.
    + intros [[t Ht]|(a & b & ->)]; [exists [], t; done|exists (c :: a), b; done].
    + intros ([|d a] & b & H); simplify_eq/=; [left; eauto|right; eauto].
Qed.

Lemma split_on_not_nil c s : split_on c s <> [].
Proof. destruct s as [|d t]; simpl; [done|]. repeat case_match; done. Qed.

(** Splitting at a separator and joining back is the identity. *)
Lemma join_split_on c s : join [c] (split_on c s) = s.
Proof.
  induction s as [|d t IH]; [done|]. cbn [split_on].
  destruct (Z.eqb_spec d c) as [->|Hd].
  - destruct (split_on c t) as [|w ws] eqn:E; [by apply split_on_not_nil in E|].
    cbn [join app] in *. destruct ws; simpl in *; by rewrite IH.
  - destruct (split_on c t) as [|w ws] eqn:E; [by apply split_on_not_nil in E|].
    destruct ws; cbn [join app] in *; by rewrite IH.
Qed.

Lemma split_on_app_sep c s t :
  split_on c (s ++ c :: t) = split_on c s ++ split_on c t.
Proof.
  induction s as [|d s IH]; cbn [split_on app]; [by rewrite Z.eqb_refl|].
  rewrite IH. destruct (Z.eqb_spec d c); [done|].
  destruct (split_on c s) eqn:E; [by apply split_on_not_nil in E|done].
Qed.

Lemma split_on_none c s : Forall (fun d => d <> c) s -> split_on c s = [s].
Proof.
  induction 1 as [|d s Hd _ IH]; simpl; [done|]. destruct (Z.eqb_spec d c); [done|].
  by rewrite IH.
Qed.

Lemma split_join c ws : ws <> [] -> Forall (Forall (fun d => d <> c)) ws -> split_on c (join [c] ws) = ws.
Proof.
  intros Hne Hw. induction Hw as [|w ws Hw Hws IH]; [done|]. destruct ws as [|w' ws].
  - by apply split_on_none.
  - change (join [c] (w :: w' :: ws)) with (w ++ c :: join [c] (w' :: ws)).
    by rewrite split_on_app_sep, (split_on_none c w Hw), IH.
Qed.

Lemma digits_value_app acc s t :
  digits_value acc (s ++ t) = digits_value (digits_value acc s) t.
Proof. revert acc. induction s; intros; simpl; auto. Qed.

Lemma digits_value_acc acc s :
  digits_value acc s = acc * 10 ^ zlen s + digits_value 0 s.
Proof.
  revert acc. induction s as [|c s IH]; intros acc; unfold zlen in *; cbn [digits_value length].
  - simpl. lia.
  - rewrite (IH (acc * 10 + (c - 48))), (IH (0 * 10 + (c - 48))).
    rewrite Nat2Z.inj_succ, Z.pow_succ_r by lia. lia.
Qed.

Lemma print_digits_spec fuel n acc :
  0 <= n -> n < 2 ^ Z.of_nat fuel -> (0 < fuel)%nat ->
  exists ds, print_digits fuel n acc = ds ++ acc /\ ds <> [] /\
    Forall (fun c => is_digit c = true) ds /\ digits_value 0 ds = n.
Proof.
  revert n acc. induction fuel as [|f IH]; intros n acc Hn Hlt Hf; [lia|].
  cbn [print_digits]. pose proof (Z.mod_pos_bound n 10). pose proof (Z.div_mod n 10).
  assert (is_digit (48 + n mod 10) = true) as Hd by (unfold is_digit; lia).
  destruct (Z.ltb_spec n 10) as [Hs|Hs].
  - exists [48 + n mod 10]. split_and!; auto. simpl. rewrite Z.mod_small by lia. lia.
  - rewrite Nat2Z.inj_succ, Z.pow_succ_r in Hlt by lia.
    assert (f <> 0%nat) by (intros ->; simpl in Hlt; lia).
    destruct (IH (n / 10) ((48 + n mod 10) :: acc)) as (ds & E & Hne & Hds & Hv); [lia..|].
    exists (ds ++ [48 + n mod 10]). rewrite E. split_and!.
    + by rewrite <- app_assoc.
    + intros H'. apply app_eq_nil in H' as [_ H']. done.
    + apply Forall_app; split; [done|]. by constructor.
    + rewrite digits_value_app, Hv. simpl. lia.
Qed.

Lemma print_nat_spec n :
  0 <= n -> print_nat n <> [] /\ Forall (fun c => is_digit c = true) (print_nat n) /\
    digits_value 0 (print_nat n) = n.
Proof.
  intros Hn. unfold print_nat.
  destruct (print_digits_spec (Z.to_nat (Z.log2 n + 1)) n []) as (ds & E & H1 & H2 & H3).
  - done.
  - rewrite Z2Nat.id by (pose proof (Z.log2_nonneg n); lia).
    destruct (decide (n = 0)) as [->|]; [done|].
    pose proof (Z.log2_spec n). replace (Z.log2 n + 1) with (Z.succ (Z.log2 n)) by lia. lia.
  - pose proof (Z.log2_nonneg n). lia.
  - rewrite E, app_nil_r. auto.
Qed.

Lemma take_while_all p s : Forall (fun c => p c = true) s -> take_while p s = s.
Proof. induction 1 as [|c s Hc _ IH]; simpl; [done|]. by rewrite Hc, IH. Qed.

Lemma digit_not_ws c : is_digit c = true -> is_ws c = false.
Proof. unfold is_digit, is_ws. intros. lia. Qed.

Lemma parse_int_digits s :
  s <> [] -> Forall (fun c => is_digit c = true) s -> parse_int s = Some (digits_value 0 s).
Proof.
  intros Hne Hs. unfold parse_int, trim_start.
  destruct s as [|c t]; [done|]. pose proof Hs as Hs'. apply Forall_cons in Hs' as [Hc _].
  rewrite drop_while_head by (by apply digit_not_ws).
  assert ((c =? 45) = false) as -> by (unfold is_digit in Hc; lia).
  assert ((c =? 43) = false) as -> by (unfold is_digit in Hc; lia).
  rewrite take_while_all by done. f_equal. lia.
Qed.

(** Printing a number, with any zero padding, and reading it back. *)
Lemma parse_int_padded n k :
  0 <= n -> parse_int (pad_start k 48 (print_nat n)) = Some n.
Proof.
  intros Hn. destruct (print_nat_spec n Hn) as (Hne & Hd & Hv).
  rewrite parse_int_digits.
  - f_equal. unfold pad_start. rewrite digits_value_app.
    assert (forall m, digits_value 0 (replicate m 48) = 0) as -> by (induction m; auto).
    done.
  - unfold pad_start. intros H. apply app_eq_nil in H as [_ H]. done.
  - unfold pad_start. apply Forall_app. split; [|done].
    apply Forall_replicate. done.
Qed.

(** ASCII bytes decode to themselves, alone or in front of anything. *)
Lemma utf8_decode_ascii_app bs rest :
  Forall (fun b => 0 <= b < 128) bs -> utf8_decode (bs ++ rest) = bs ++ utf8_decode rest.
Proof.
  induction 1 as [|b bs Hb _ IH]; [done|]. cbn [app utf8_decode].
  destruct (Z.ltb_spec b 128); [by rewrite IH|lia].
Qed.

Lemma utf8_decode_ascii bs : Forall (fun b => 0 <= b < 128) bs -> utf8_decode bs = bs.
Proof.
  intros H. rewrite <- (app_nil_r bs) at 1. rewrite utf8_decode_ascii_app by done.
  simpl. apply app_nil_r.
Qed.

(** Trimming a text whose first part begins and ends with units that are not
    whitespace only cuts the end of the second part. *)
Lemma trim_app_header a h z rest :
  is_ws a = false -> is_ws z = false ->
  exists rest1 rest2, trim ((a :: h ++ [z]) ++ rest) = (a :: h ++ [z]) ++ rest1 /\
    rest = rest1 ++ rest2 /\ Forall (fun c => is_ws c = true) rest2.
Proof.
  intros Ha Hz. unfold trim, trim_start, trim_end. cbn [app]. rewrite drop_while_head by done.
  change (a :: (h ++ [z]) ++ rest) with ((a :: h ++ [z]) ++ rest). rewrite rev_app_distr.
  assert (exists w r, rev rest = w ++ r /\ Forall (fun c => is_ws c = true) w /\
    drop_while is_ws (rev rest ++ rev (a :: h ++ [z])) = r ++ rev (a :: h ++ [z])) as (w & r & E & Hw & Hd).
  { induction (rev rest) as [|c l IH]; simpl.
    - exists [], []. split_and!; auto. rewrite rev_app_distr. simpl. by rewrite Hz.
    - destruct (is_ws c) eqn:Ec.
      + destruct IH as (w & r & -> & ? & ?). exists (c :: w), r. auto.
      + exists [], (c :: l). auto. }
  rewrite Hd, rev_app_distr, rev_involutive. exists (rev r), (rev w). split_and!; auto.
  - rewrite <- rev_app_distr, <- E. by rewrite rev_involutive.
  - by apply Forall_rev.
Qed.

Lemma split_crlf_not_nil s : split_crlf s <> [].
Proof.
  induction s as [|c t IH]; [done|]. cbn [split_crlf].
  destruct (split_crlf t); [done|]. destruct (c =? 10); [done|]. destruct (c =? 13); [|done].
  destruct t as [|e t]; [done|]. by destruct (e =? 10).
Qed.

Lemma last_not_nil {A} (l : list A) : l <> [] -> exists x, last l = Some x.
Proof. destruct (last l) eqn:E; [eauto|]. by apply last_None in E. Qed.

Fixpoint strip_init (ws : list str) : list str :=
  match ws with
  | [] => []
  | [w] => [w]
  | w :: ws' => strip_cr w :: strip_init ws'
  end.

Lemma strip_cr_cons c w : c <> 13 \/ w <> [] -> strip_cr (c :: w) = c :: strip_cr w.
Proof.
  unfold strip_cr. destruct w as [|e w].
  - intros [H|H]; [|done]. simpl. by destruct (Z.eqb_spec c 13).
  - intros _. rewrite last_cons_cons. destruct (last (e :: w)) as [x|]; [|done].
    destruct (x =? 13); [|done]. cbn [length take]. rewrite Nat.sub_succ, Nat.sub_0_r.
    by replace (S (length w) - 1)%nat with (length w) by lia.
Qed.

Lemma strip_init_cons c w ws :
  c <> 13 \/ w <> [] -> strip_init ((c :: w) :: ws) =
  match strip_init (w :: ws) with [] => [[c]] | v :: vs => (c :: v) :: vs end.
Proof. intros H. destruct ws as [|v ws]; cbn [strip_init]; [done|]. by rewrite strip_cr_cons. Qed.

(** Cutting at CRLF or LF is cutting at LF and dropping a CR before each cut. *)
Lemma split_crlf_spec s : split_crlf s = strip_init (split_on 10 s).
Proof.
  induction s as [|c t IH]; [done|]. cbn [split_crlf split_on]. rewrite IH.
  assert (Hnn := split_on_not_nil 10 t).
  destruct (Z.eqb_spec c 10) as [->|Hc]; [by destruct (split_on 10 t)|].
  destruct (Z.eqb_spec c 13) as [->|Hd].
  - destruct t as [|e t]; [done|]. cbn [split_on] in *. destruct (Z.eqb_spec e 10) as [->|He].
    + assert (Hnt := split_on_not_nil 10 t). by destruct (split_on 10 t).
    + destruct (split_on 10 t); rewrite (strip_init_cons 13) by (by right); done.
  - destruct (split_on 10 t) as [|w ws]; [done|]. rewrite strip_init_cons; [done|by left].
Qed.

Lemma strip_init_app ws vs : vs <> [] -> strip_init (ws ++ vs) = map strip_cr ws ++ strip_init vs.
Proof.
  intros Hv. induction ws as [|w ws IH]; [done|]. simpl. rewrite <- IH.
  destruct (ws ++ vs) eqn:E; [|done]. by apply app_eq_nil in E as [_ ->].
Qed.

(** Every text ends in a part without separator. *)
Lemma split_on_snoc c s :
  exists ws w, split_on c s = ws ++ [w] /\
    (forall t, split_on c (s ++ t) = ws ++ split_on c (w ++ t)).
Proof.
  induction s as [|d s (ws & w & E & Happ)]; [by exists [], []|]. cbn [split_on app].
  destruct (Z.eqb_spec d c) as [->|Hd].
  - exists ([] :: ws), w. rewrite E. split; [done|]. intros t. by rewrite Happ.
  - destruct ws as [|v ws].
    + exists [], (d :: w). rewrite E. split; [done|]. intros t. cbn [split_on app].
      rewrite Happ. by destruct (Z.eqb_spec d c).
    + exists ((d :: v) :: ws), w. rewrite E. split; [done|]. intros t. by rewrite Happ.
Qed.

(** Cutting at line ends can be resumed from the last, incomplete part, even
    when a chunk ends between a CR and its LF. *)
Lemma split_crlf_snoc s :
  exists ws w, split_crlf s = ws ++ [w] /\
    (forall t, split_crlf (s ++ t) = ws ++ split_crlf (w ++ t)).
Proof.
  destruct (split_on_snoc 10 s) as (ws & w & E & Happ).
  exists (map strip_cr ws), w. rewrite split_crlf_spec, E, strip_init_app by done.
  split; [done|]. intros t. rewrite !split_crlf_spec, Happ.
  by rewrite strip_init_app by apply split_on_not_nil.
Qed.

(** The last separator: what [lastIndexOf] finds. *)
Lemma cut_at_spec c s a b : cut_at c s = Some (a, b) -> s = a ++ c :: b /\ Forall (fun d => d <> c) a.
Proof.
  revert a. induction s as [|d s IH]; intros a; simpl; [done|].
  destruct (Z.eqb_spec d c) as [->|Hd]; [by intros [= <- <-]|].
  destruct (cut_at c s) as [[a' b']|] eqn:E; [|done]. intros [= <- <-].
  destruct (IH a' eq_refl) as [-> Ha]. split; [done|by constructor].
Qed.

Lemma cut_at_none c s : cut_at c s = None -> Forall (fun d => d <> c) s.
Proof.
  induction s as [|d s IH]; simpl; [constructor|]. destruct (Z.eqb_spec d c); [done|].
  destruct (cut_at c s) as [[]|]; [done|]. intros _. constructor; [done|by apply IH].
Qed.

Lemma utf8_decode_nonempty bs : bs <> [] -> utf8_decode bs <> [].
Proof.
  destruct bs as [|b bs]; [done|]. intros _. cbn [utf8_decode]. unfold utf16_of.
  repeat case_match; done.
Qed.

Lemma utf8_decode_length bs : (length (utf8_decode bs) <= length bs)%nat.
Proof.
  remember (length bs) as n eqn:En. revert bs En.
  induction (lt_wf n) as [n _ IH]. intros bs ->.
  assert (IH' : forall bs', (length bs' < length bs)%nat ->
    (length (utf8_decode bs') <= length bs')%nat) by eauto. clear IH.
  destruct bs as [|b r1]; [done|]. cbn [utf8_decode]. unfold utf16_of.
  repeat case_match; simplify_eq; cbn [length app];
    repeat match goal with
    | |- context [utf8_decode ?l] => unless (length (utf8_decode l) <= length l)%nat by assumption;
        assert (length (utf8_decode l) <= length l)%nat by (apply IH'; cbn [length]; lia)
    end; cbn [length] in *; lia.
Qed.
