(* ===== verification/Regex.v ===== *)
(** * Regular expressions of ECMAScript

    The backtracking matcher of the language, in continuation-passing style,
    for the constructs that the regular-expression literals of the sources
    use: character classes, sequence, alternation, greedy and lazy iteration,
    capture groups, [^], [$] and [\b] (no flag but [i] and [g]; without the
    [u] flag a pattern written in ASCII letters folds only ASCII letters, so
    [i] is a matter of the classes).  Each literal of the sources is written
    as a term of [re], and [exec] gives its match and its captures.

    The matcher needs no fuel: an iteration of a star must consume input, so
    the number of iterations is bounded by what is left of the text. *)

From stdpp Require Import base list.
From Stdlib Require Import ZArith Lia.
From S2P Require Import Prelude JsString.

Inductive re :=
| Eps
| Cls (p : Z -> bool)
| Sq (a b : re)
| Alt (a b : re)
| Star (greedy : bool) (a : re)
| Grp (n : nat) (a : re)
| Bol
| Eol
| WordB.

(** The matcher's state: the unit before the position, the text after it, and
    the captures set so far, latest first. *)
Record mst := Mst { m_prev : option Z; m_rest : str; m_caps : list (nat * str) }.

Definition is_word_opt (o : option Z) : bool :=
  match o with Some c => is_word c | None => false end.

Definition consumed (x y : mst) : str :=
  take (length (m_rest x) - length (m_rest y)) (m_rest x).

(** The iterations of a star whose body is matched by [m]; an iteration that
    consumes nothing is refused. *)
Fixpoint star_loop (m : mst -> (mst -> option mst) -> option mst) (greedy : bool)
    (k : mst -> option mst) (n : nat) (x : mst) : option mst :=
  match n with
  | O => k x
  | S n' =>
      let more := fun _ : unit =>
        m x (fun y =>
          if (length (m_rest y) <? length (m_rest x))%nat
          then star_loop m greedy k n' y else None) in
      if greedy
      then match more tt with Some z => Some z | None => k x end
      else match k x with Some z => Some z | None => more tt end
  end.

Fixpoint rmatch (r : re) (x : mst) (k : mst -> option mst) {struct r} : option mst :=
  match r with
  | Eps => k x
  | Cls p =>
      match m_rest x with
      | c :: t => if p c then k (Mst (Some c) t (m_caps x)) else None
      | [] => None
      end
  | Sq a b => rmatch a x (fun y => rmatch b y k)
  | Alt a b => match rmatch a x k with Some z => Some z | None => rmatch b x k end
  | Star greedy a => star_loop (rmatch a) greedy k (length (m_rest x)) x
  | Grp n a =>
      rmatch a x (fun y => k (Mst (m_prev y) (m_rest y) ((n, consumed x y) :: m_caps y)))
  | Bol => match m_prev x with None => k x | Some _ => None end
  | Eol => match m_rest x with [] => k x | _ :: _ => None end
  | WordB =>
      if xorb (is_word_opt (m_prev x)) (is_word_opt (head (m_rest x))) then k x else None
  end.

(** A match: where it starts, the text after it, its captures. *)
Record rx_match := RxMatch { rx_index : nat; rx_text : str; rx_rest : str; rx_caps : list (nat * str) }.

(** Try every start position from the left. *)
Fixpoint exec_from (r : re) (i : nat) (prev : option Z) (s : str) : option rx_match :=
  match rmatch r (Mst prev s []) (fun y => Some y) with
  | Some y => Some (RxMatch i (take (length s - length (m_rest y)) s) (m_rest y) (m_caps y))
  | None => match s with [] => None | c :: t => exec_from r (S i) (Some c) t end
  end.

(** [s.match(r)] / [r.exec(s)] *)
Definition exec (r : re) (s : str) : option rx_match := exec_from r 0 None s.

(** [r.test(s)] *)
Definition rx_test (r : re) (s : str) : bool :=
  match exec r s with Some _ => true | None => false end.

Fixpoint cap_lookup (n : nat) (l : list (nat * str)) : option str :=
  match l with
  | [] => None
  | (i, v) :: l' => if (i =? n)%nat then Some v else cap_lookup n l'
  end.

(** [m[n]]; [None] is [undefined]. *)
Definition cap (m : rx_match) (n : nat) : option str := cap_lookup n (rx_caps m).

(** [s.replace(r, '')] with the [g] flag, for an expression that never matches
    the empty text: every leftmost match is dropped.  [fuel = length s + 1]. *)
Fixpoint remove_all_from (fuel : nat) (r : re) (prev : option Z) (s : str) : str :=
  match fuel with
  | O => s
  | S f =>
      match exec_from r 0 prev s with
      | None => s
      | Some m =>
          take (rx_index m) s ++ remove_all_from f r (last (rx_text m)) (rx_rest m)
      end
  end.

Definition remove_all (r : re) (s : str) : str := remove_all_from (S (length s)) r None s.

(** ** Notation for the literals *)

Definition chr (c : Z) : re := Cls (Z.eqb c).

(** One ASCII letter of an expression with the [i] flag *)
Definition chr_i (c : Z) : re := Cls (fun d => lower_unit d =? lower_unit c).

Fixpoint sq (l : list re) : re :=
  match l with [] => Eps | [r] => r | r :: l' => Sq r (sq l') end.

Fixpoint alts (l : list re) : re :=
  match l with [] => Cls (fun _ => false) | [r] => r | r :: l' => Alt r (alts l') end.

Definition lit (s : str) : re := sq (map chr s).

Definition lit_i (s : str) : re := sq (map chr_i s).

Definition opt (r : re) : re := Alt r Eps.

Definition plus (r : re) : re := Sq r (Star true r).

Definition star (r : re) : re := Star true r.

(** [r{n}] *)
Fixpoint times (n : nat) (r : re) : re :=
  match n with O => Eps | S O => r | S n' => Sq r (times n' r) end.

(** [r{0,n}] (greedy) *)
Fixpoint upto (n : nat) (r : re) : re :=
  match n with O => Eps | S n' => opt (Sq r (upto n' r)) end.

Definition d : re := Cls is_digit.
Definition ws : re := Cls is_ws.
Definition dot : re := Cls (fun c => negb (is_line_term c)).

(** An expression without its groups matches the same texts. *)
Fixpoint erase (r : re) : re :=
  match r with
  | Sq a b => Sq (erase a) (erase b)
  | Alt a b => Alt (erase a) (erase b)
  | Star g a => Star g (erase a)
  | Grp _ a => erase a
  | _ => r
  end.

Definition same_pos (x y : mst) : Prop := m_prev x = m_prev y /\ m_rest x = m_rest y.

Definition opt_pos (o1 o2 : option mst) : Prop :=
  match o1, o2 with
  | Some x, Some y => same_pos x y
  | None, None => True
  | _, _ => False
  end.

(** ** Captures do not influence matching *)

Lemma opt_pos_case o1 o2 p1 p2 :
  opt_pos o1 o2 -> opt_pos p1 p2 ->
  opt_pos (match o1 with Some z => Some z | None => p1 end)
          (match o2 with Some z => Some z | None => p2 end).
Proof. destruct o1, o2; simpl; tauto. Qed.

Lemma rmatch_erase r : forall x y k1 k2,
  same_pos x y ->
  (forall x' y', same_pos x' y' -> opt_pos (k1 x') (k2 y')) ->
  opt_pos (rmatch r x k1) (rmatch (erase r) y k2).
Proof.
  induction r as [|p|a IHa b IHb|a IHa b IHb|g a IHa|n a IHa| | |];
    intros [px rx cx] [py ry cy] k1 k2 [Hp Hr] Hk; simpl in *; subst.
  - apply Hk. done.
  - destruct ry as [|c t]; [done|]. destruct (p c); [|done]. apply Hk. done.
  - apply IHa; [done|]. intros x' y' Hs. by apply IHb.
  - apply opt_pos_case; [by apply IHa|by apply IHb].
  - generalize (length ry) as n. intros n. revert py cx cy ry.
    induction n as [|n IHn]; intros py cx cy ry; simpl; [by apply Hk|].
    destruct g; (apply opt_pos_case; [|try by apply Hk]; try by apply Hk);
      (apply IHa; [done|]; intros [p1 r1 c1] [p2 r2 c2] [E1 E2]; simpl in *; subst;
       destruct (length r2 <? length ry)%nat; [apply IHn|done]).
  - apply IHa; [done|]. intros x' y' [E1 E2]. apply Hk. done.
  - destruct py; [done|]. by apply Hk.
  - destruct ry; [|done]. by apply Hk.
  - destruct (xorb _ _); [|done]. by apply Hk.
Qed.

Lemma exec_from_erase r i prev s :
  match exec_from r i prev s, exec_from (erase r) i prev s with
  | Some m1, Some m2 => rx_index m1 = rx_index m2 /\ rx_rest m1 = rx_rest m2
  | None, None => True
  | _, _ => False
  end.
Proof.
  revert i prev. induction s as [|c t IH]; intros i prev; simpl.
  - pose proof (rmatch_erase r (Mst prev [] []) (Mst prev [] []) (fun y => Some y) (fun y => Some y)
      ltac:(done) ltac:(done)) as H.
    destruct (rmatch r _ _), (rmatch (erase r) _ _); try done. by destruct H.
  - pose proof (rmatch_erase r (Mst prev (c::t) []) (Mst prev (c::t) []) (fun y => Some y) (fun y => Some y)
      ltac:(done) ltac:(done)) as H.
    destruct (rmatch r _ _), (rmatch (erase r) _ _); try done; [by destruct H|]. apply IH.
Qed.

(** Two literals that differ only in their groups accept the same texts. *)
Lemma rx_test_erase r1 r2 s : erase r1 = erase r2 -> rx_test r1 s = rx_test r2 s.
Proof.
  intros E. unfold rx_test, exec.
  pose proof (exec_from_erase r1 0 None s) as H1.
  pose proof (exec_from_erase r2 0 None s) as H2. rewrite E in H1.
  destruct (exec_from r1 _ _ _), (exec_from r2 _ _ _), (exec_from (erase r2) _ _ _); tauto.
Qed.

(** ** Anchored expressions *)

Lemma exec_from_bol r i c s : exec_from (Sq Bol r) i (Some c) s = None.
Proof. revert i c. induction s as [|e t IH]; intros i c; simpl; [done|]. apply IH. Qed.

(** An expression that starts with [^] is tried at the start only. *)
Lemma exec_anchored r s :
  exec (Sq Bol r) s =
  match rmatch r (Mst None s []) (fun y => Some y) with
  | Some y => Some (RxMatch 0 (take (length s - length (m_rest y)) s) (m_rest y) (m_caps y))
  | None => None
  end.
Proof.
  unfold exec. destruct s as [|c t]; simpl; [by destruct (rmatch r _ _)|].
  destruct (rmatch r _ _); [done|]. apply exec_from_bol.
Qed.

(** The equations of the matcher, for symbolic evaluation. *)
Lemma rm_eps x k : rmatch Eps x k = k x.
Proof. done. Qed.
Lemma rm_cls p c t pv cs k : p c = true -> rmatch (Cls p) (Mst pv (c :: t) cs) k = k (Mst (Some c) t cs).
Proof. simpl. by intros ->. Qed.
Lemma rm_cls_no p c t pv cs k : p c = false -> rmatch (Cls p) (Mst pv (c :: t) cs) k = None.
Proof. simpl. by intros ->. Qed.
Lemma rm_cls_nil p pv cs k : rmatch (Cls p) (Mst pv [] cs) k = None.
Proof. done. Qed.
Lemma rm_sq a b x k : rmatch (Sq a b) x k = rmatch a x (fun y => rmatch b y k).
Proof. done. Qed.
Lemma rm_alt a b x k :
  rmatch (Alt a b) x k = match rmatch a x k with Some z => Some z | None => rmatch b x k end.
Proof. done. Qed.
Lemma rm_grp n a x k :
  rmatch (Grp n a) x k =
  rmatch a x (fun y => k (Mst (m_prev y) (m_rest y) ((n, consumed x y) :: m_caps y))).
Proof. done. Qed.
Lemma rm_star g a x k :
  rmatch (Star g a) x k = star_loop (rmatch a) g k (length (m_rest x)) x.
Proof. done. Qed.
Lemma rm_eol pv cs k : rmatch Eol (Mst pv [] cs) k = k (Mst pv [] cs).
Proof. done. Qed.
Lemma rm_eol_no pv c t cs k : rmatch Eol (Mst pv (c :: t) cs) k = None.
Proof. done. Qed.

(** A greedy run of a class stops where the class stops, if the rest matches
    there. *)
Lemma rmatch_star_run p l t pv cs k z :
  Forall (fun c => p c = true) l ->
  match t with [] => True | c :: _ => p c = false end ->
  k (Mst (match last l with Some c => Some c | None => pv end) t cs) = Some z ->
  rmatch (Star true (Cls p)) (Mst pv (l ++ t) cs) k = Some z.
Proof.
  intros Hl Ht Hk. rewrite rm_star. cbn [m_rest]. rewrite length_app.
  assert (forall n pv, (length l <= n)%nat ->
    k (Mst (match last l with Some c => Some c | None => pv end) t cs) = Some z ->
    star_loop (rmatch (Cls p)) true k n (Mst pv (l ++ t) cs) = Some z) as Hgen.
  { clear Hk pv. induction Hl as [|c l Hc Hl IH]; intros n pv Hn Hk.
    - destruct n; simpl in *; [done|]. destruct t as [|c t]; simpl; [done|]. by rewrite Ht.
    - destruct n as [|n]; simpl in Hn; [lia|]. cbn [star_loop app].
      rewrite rm_cls by done. cbn [m_rest length].
      destruct (Nat.ltb_spec (length (l ++ t)) (S (length (l ++ t)))); [|lia].
      rewrite (IH n (Some c)); [done|lia|].
      destruct (last l) as [e|] eqn:El; rewrite last_cons, El in Hk; done. }
  apply Hgen; [lia|done].
Qed.

(** A run of a class after which nothing matches, however much of it is given
    back. *)
Lemma rmatch_star_none p l t pv cs k :
  Forall (fun c => p c = true) l ->
  match t with [] => True | c :: _ => p c = false end ->
  (forall l1 l2 pv', l = l1 ++ l2 -> k (Mst pv' (l2 ++ t) cs) = None) ->
  rmatch (Star true (Cls p)) (Mst pv (l ++ t) cs) k = None.
Proof.
  intros Hl Ht Hk. rewrite rm_star. cbn [m_rest]. generalize (length (l ++ t)) as n.
  revert pv. induction Hl as [|c l Hc Hl IH]; intros pv n.
  - specialize (Hk [] [] pv eq_refl). destruct n; simpl in *; [done|].
    destruct t as [|c t]; simpl; [done|]. by rewrite Ht.
  - pose proof (Hk [] (c :: l) pv eq_refl) as H0. cbn [app] in *.
    destruct n as [|n]; cbn [star_loop]; [done|].
    rewrite rm_cls by done. cbn [m_rest length].
    destruct (Nat.ltb_spec (length (l ++ t)) (S (length (l ++ t)))); [|lia].
    rewrite IH; [done|]. intros l1 l2 pv' ->. apply (Hk (c :: l1)). done.
Qed.

(** A run up to the end of the text. *)
Lemma rmatch_star_end p l pv cs k z :
  Forall (fun c => p c = true) l ->
  k (Mst (match last l with Some c => Some c | None => pv end) [] cs) = Some z ->
  rmatch (Star true (Cls p)) (Mst pv l cs) k = Some z.
Proof. intros Hl Hk. rewrite <- (app_nil_r l). by apply rmatch_star_run. Qed.

(** A lazy run takes as little as the rest allows. *)
Lemma rmatch_lazy_run p l t pv cs k z :
  Forall (fun c => p c = true) l ->
  (forall l1 l2 pv', l = l1 ++ l2 -> l2 <> [] -> k (Mst pv' (l2 ++ t) cs) = None) ->
  k (Mst (match last l with Some c => Some c | None => pv end) t cs) = Some z ->
  rmatch (Star false (Cls p)) (Mst pv (l ++ t) cs) k = Some z.
Proof.
  intros Hl Hno Hk. rewrite rm_star. cbn [m_rest]. rewrite length_app.
  assert (Hgen : forall n pv, (length l <= n)%nat ->
    k (Mst (match last l with Some c => Some c | None => pv end) t cs) = Some z ->
    star_loop (rmatch (Cls p)) false k n (Mst pv (l ++ t) cs) = Some z).
  { clear Hk pv. induction Hl as [|c l Hc Hl IH]; intros n pv Hn Hk.
    - destruct n; simpl in *; [done|]. by rewrite Hk.
    - destruct n as [|n]; simpl in Hn; [lia|]. cbn [star_loop].
      rewrite (Hno [] (c :: l)) by done. cbn [app]. rewrite rm_cls by done. cbn [m_rest length].
      destruct (Nat.ltb_spec (length (l ++ t)) (S (length (l ++ t)))); [|lia].
      apply IH; [|lia|].
      + intros l1 l2 pv' -> H2. by apply (Hno (c :: l1)).
      + destruct (last l) as [e|] eqn:El; rewrite last_cons, El in Hk; done. }
  apply Hgen; [lia|done].
Qed.

(** A greedy run gives back until the rest matches. *)
Lemma rmatch_star_back_at p l1 l2 t pv cs k z :
  Forall (fun c => p c = true) (l1 ++ l2) ->
  match t with [] => True | c :: _ => p c = false end ->
  (forall m1 m2 pv', l2 = m1 ++ m2 -> m1 <> [] -> k (Mst pv' (m2 ++ t) cs) = None) ->
  k (Mst (match last l1 with Some c => Some c | None => pv end) (l2 ++ t) cs) = Some z ->
  rmatch (Star true (Cls p)) (Mst pv (l1 ++ l2 ++ t) cs) k = Some z.
Proof.
  intros Hl Ht Hno Hk. rewrite rm_star. cbn [m_rest]. rewrite length_app.
  assert (Hgen : forall n pv, (length l1 <= n)%nat ->
    k (Mst (match last l1 with Some c => Some c | None => pv end) (l2 ++ t) cs) = Some z ->
    star_loop (rmatch (Cls p)) true k n (Mst pv (l1 ++ l2 ++ t) cs) = Some z).
  { clear Hk pv. induction l1 as [|c l1 IH]; intros n pv Hn Hk.
    - destruct n as [|n]; [exact Hk|]. cbn [app] in *.
      destruct l2 as [|c l2]; cbn [app star_loop].
      { destruct t as [|c t]; [rewrite rm_cls_nil; exact Hk|]. rewrite rm_cls_no by done. exact Hk. }
      apply Forall_cons in Hl as [Hc Hl]. rewrite rm_cls by done. cbn [m_rest length].
      destruct (Nat.ltb_spec (length (l2 ++ t)) (S (length (l2 ++ t)))); [|lia].
      enough (star_loop (rmatch (Cls p)) true k n (Mst (Some c) (l2 ++ t) cs) = None) as -> by done.
      assert (Hsub : forall m1 m2 pv', l2 = m1 ++ m2 -> k (Mst pv' (m2 ++ t) cs) = None).
      { intros m1 m2 pv' ->. by apply (Hno (c :: m1)). }
      clear -Hl Hsub Ht. revert n. generalize (Some c) as pv.
      induction Hl as [|e l2 He _ IHl]; intros pv n; cbn [app].
      + specialize (Hsub [] [] pv eq_refl). cbn [app] in Hsub. destruct n; [done|]. cbn [star_loop].
        destruct t as [|c' t]; [by rewrite rm_cls_nil|]. by rewrite rm_cls_no.
      + destruct n as [|n]; cbn [star_loop]; [by apply (Hsub [] (e :: l2))|].
        rewrite rm_cls by done. cbn [m_rest length].
        destruct (Nat.ltb_spec (length (l2 ++ t)) (S (length (l2 ++ t)))); [|lia].
        rewrite IHl by (intros m1 m2 pv' ->; by apply (Hsub (e :: m1))).
        by apply (Hsub [] (e :: l2)).
    - destruct n as [|n]; simpl in Hn; [lia|]. cbn [star_loop app].
      cbn [app] in Hl. apply Forall_cons in Hl as [Hc Hl].
      rewrite rm_cls by done. cbn [m_rest length].
      destruct (Nat.ltb_spec (length (l1 ++ l2 ++ t)) (S (length (l1 ++ l2 ++ t)))); [|lia].
      rewrite (IH Hl n (Some c)); [done|lia|].
      destruct (last l1) as [e|] eqn:El; rewrite last_cons, El in Hk; done. }
  apply Hgen; [lia|done].
Qed.

Lemma rmatch_star_back p l1 l2 pv cs k z :
  Forall (fun c => p c = true) (l1 ++ l2) ->
  (forall m1 m2 pv', l2 = m1 ++ m2 -> m1 <> [] -> k (Mst pv' m2 cs) = None) ->
  k (Mst (match last l1 with Some c => Some c | None => pv end) l2 cs) = Some z ->
  rmatch (Star true (Cls p)) (Mst pv (l1 ++ l2) cs) k = Some z.
Proof.
  intros Hl Hno Hk. rewrite <- (app_nil_r l2) at 1.
  apply rmatch_star_back_at; [done|done| |by rewrite app_nil_r].
  intros m1 m2 pv' E Hm. rewrite app_nil_r. by eapply Hno.
Qed.

(** ** What a match has consumed *)

(** The texts an expression can consume; assertions consume nothing. *)
Inductive den : re -> str -> Prop :=
| den_eps : den Eps []
| den_cls (p : Z -> bool) c : p c = true -> den (Cls p) [c]
| den_sq a b u v : den a u -> den b v -> den (Sq a b) (u ++ v)
| den_alt_l a b u : den a u -> den (Alt a b) u
| den_alt_r a b u : den b u -> den (Alt a b) u
| den_star_nil g a : den (Star g a) []
| den_star_cons g a u v : den a u -> den (Star g a) v -> den (Star g a) (u ++ v)
| den_grp n a u : den a u -> den (Grp n a) u
| den_bol : den Bol []
| den_eol : den Eol []
| den_wordb : den WordB [].

Lemma star_sound g a k :
  (forall x k z, rmatch a x k = Some z -> exists u y, m_rest x = u ++ m_rest y /\ den a u /\ k y = Some z) ->
  forall n x z, star_loop (rmatch a) g k n x = Some z ->
  exists u y, m_rest x = u ++ m_rest y /\ den (Star g a) u /\ k y = Some z.
Proof.
  intros Ha n. induction n as [|n IHn]; intros x z H; cbn [star_loop] in H.
  { exists [], x. by split_and!; [|constructor|]. }
  set (more := rmatch a x _) in H.
  assert (Hm : more = Some z -> exists u y, m_rest x = u ++ m_rest y /\ den (Star g a) u /\ k y = Some z).
  { intros Hz. destruct (Ha _ _ _ Hz) as (u & y & E1 & D1 & H1). destruct (_ <? _)%nat; [|done].
    destruct (IHn _ _ H1) as (v & w & E2 & D2 & H2). exists (u ++ v), w.
    split_and!; [by rewrite E1, E2, app_assoc|by constructor|done]. }
  destruct g.
  - destruct more as [z'|]; [by apply Hm|]. exists [], x. by split_and!; [|constructor|].
  - destruct (k x) as [z'|] eqn:E; [|by apply Hm]. exists [], x. split_and!; [done|constructor|congruence].
Qed.

(** The matcher consumes such a text and succeeds with its continuation. *)
Lemma rmatch_sound r : forall x k z,
  rmatch r x k = Some z -> exists u y, m_rest x = u ++ m_rest y /\ den r u /\ k y = Some z.
Proof.
  induction r as [|p|a IHa b IHb|a IHa b IHb|g a IHa|n a IHa| | |]; intros x k z H; cbn [rmatch] in H.
  - exists [], x. by split_and!; [|constructor|].
  - destruct (m_rest x) as [|c t] eqn:E; [done|]. destruct (p c) eqn:Ep; [|done].
    exists [c], (Mst (Some c) t (m_caps x)). by split_and!; [|constructor|].
  - destruct (IHa _ _ _ H) as (u & y & E1 & D1 & H1). destruct (IHb _ _ _ H1) as (v & w & E2 & D2 & H2).
    exists (u ++ v), w. split_and!; [by rewrite E1, E2, app_assoc|by constructor|done].
  - destruct (rmatch a x k) as [z'|] eqn:E; simplify_eq.
    + destruct (IHa _ _ _ E) as (u & y & ? & ? & ?). exists u, y. by split_and!; [|constructor|].
    + destruct (IHb _ _ _ H) as (u & y & ? & ? & ?). exists u, y. by split_and!; [|apply den_alt_r|].
  - by eapply star_sound.
  - destruct (IHa _ _ _ H) as (u & y & ? & ? & ?). exists u, (Mst (m_prev y) (m_rest y) ((n, consumed x y) :: m_caps y)).
    by split_and!; [|constructor|].
  - destruct (m_prev x); [done|]. exists [], x. by split_and!; [|constructor|].
  - destruct (m_rest x) eqn:E; [|done]. exists [], x. by split_and!; [|constructor|].
  - destruct (xorb _ _); [|done]. exists [], x. by split_and!; [|constructor|].
Qed.

(** A text before the first match is passed over. *)
Lemma exec_from_skip r s t i prev :
  (forall a c b pv, s = a ++ c :: b -> rmatch r (Mst pv ((c :: b) ++ t) []) (fun y => Some y) = None) ->
  exec_from r i prev (s ++ t) =
  exec_from r (i + length s) (match last s with Some c => Some c | None => prev end) t.
Proof.
  revert i prev. induction s as [|c s IH]; intros i prev H; cbn [app length].
  - by rewrite Nat.add_0_r.
  - cbn [exec_from]. assert (H0 := H [] c s prev eq_refl). cbn [app] in H0. rewrite H0.
    rewrite IH by (intros a e b pv ->; by apply (H (c :: a))).
    rewrite last_cons, Nat.add_succ_r. by destruct (last s).
Qed.

Lemma den_chr c u : den (chr c) u -> u = [c].
Proof. intros H. inversion H as [|p e Hp Ep| | | | | | | | |]; subst. by apply Z.eqb_eq in Hp as ->. Qed.

Lemma den_lit w u : den (lit w) u -> u = w.
Proof.
  unfold lit. revert u. induction w as [|c w IH]; intros u H; cbn [map sq] in H.
  - by inversion H.
  - destruct w as [|e w]; [by apply den_chr|].
    inversion H as [| |a b v1 v2 H1 H2| | | | | | | |]; subst. apply den_chr in H1 as ->.
    by rewrite (IH _ H2).
Qed.

Lemma den_star_cls g p u : den (Star g (Cls p)) u -> Forall (fun c => p c = true) u.
Proof.
  remember (Star g (Cls p)) as r eqn:E. induction 1; simplify_eq; [constructor|].
  apply Forall_app. split; [|by auto].
  match goal with H : den (Cls p) _ |- _ => inversion H; subst end. by repeat constructor.
Qed.

Lemma den_plus_cls p u : den (plus (Cls p)) u -> u <> [] /\ Forall (fun c => p c = true) u.
Proof.
  intros H. inversion H as [| |a b v1 v2 H1 H2| | | | | | | |]; subst. apply den_star_cls in H2.
  inversion H1; subst. split; [done|]. by constructor.
Qed.

(** ** Completeness *)

(** Expressions without assertions *)
Fixpoint unanchored (r : re) : bool :=
  match r with
  | Eps | Cls _ => true
  | Sq a b | Alt a b => unanchored a && unanchored b
  | Star _ a | Grp _ a => unanchored a
  | Bol | Eol | WordB => false
  end.

Lemma star_complete g a k t :
  (forall u x t' k', den a u -> m_rest x = u ++ t' -> (forall y, m_rest y = t' -> is_Some (k' y)) -> is_Some (rmatch a x k')) ->
  (forall y, m_rest y = t -> is_Some (k y)) ->
  forall u, den (Star g a) u -> forall n x, (length u <= n)%nat -> m_rest x = u ++ t -> is_Some (star_loop (rmatch a) g k n x).
Proof.
  intros Ha Hk u Hd. remember (Star g a) as r eqn:E. induction Hd as [| | | | |g' a'|g' a' u v Hu _ Hv IH| | | |]; simplify_eq; intros n x Hn Hx.
  - specialize (Hk x Hx). destruct n as [|n]; cbn [star_loop]; [done|]. destruct g; [|by destruct (k x); [|destruct Hk]].
    by destruct (rmatch a x _).
  - destruct u as [|c u]; [by apply IH|]. destruct n as [|n]; [cbn in Hn; lia|]. cbn [star_loop].
    assert (Hm : is_Some (rmatch a x (fun y => if (length (m_rest y) <? length (m_rest x))%nat then star_loop (rmatch a) g k n y else None))).
    { eapply (Ha (c :: u) x (v ++ t)); [done|by rewrite Hx, <- app_assoc|]. intros y Hy.
      replace (_ <? _)%nat with true; [|symmetry; apply Nat.ltb_lt; rewrite Hx, Hy, !length_app; cbn; lia].
      apply IH; [done| |done]. rewrite length_app in Hn. cbn in Hn. lia. }
    destruct g; [by destruct (rmatch a x _); [|destruct Hm]|]. by destruct (k x).
Qed.

(** A text that an expression can consume is found, whatever the continuation asks of the rest. *)
Lemma rmatch_complete r : unanchored r = true -> forall u x t k,
  den r u -> m_rest x = u ++ t -> (forall y, m_rest y = t -> is_Some (k y)) -> is_Some (rmatch r x k).
Proof.
  induction r as [|p|a IHa b IHb|a IHa b IHb|g a IHa|n a IHa| | |]; intros Hp u x t k Hd Hx Hk; cbn [rmatch unanchored] in *; try done.
  - inversion Hd; subst. by apply Hk.
  - inversion Hd as [|? c Hc| | | | | | | | |]; subst. rewrite Hx. cbn [app]. rewrite Hc. by apply Hk.
  - apply andb_true_iff in Hp as [H1 H2]. inversion Hd as [| |? ? v w Hv Hw| | | | | | | |]; subst.
    apply (IHa H1 v x (w ++ t)); [done|by rewrite Hx, app_assoc|]. intros y Hy. by apply (IHb H2 w y t).
  - apply andb_true_iff in Hp as [H1 H2]. inversion Hd as [| | |? ? ? Hu|? ? ? Hu| | | | | |]; subst.
    + destruct (IHa H1 u x t k Hu Hx Hk) as [z ->]. done.
    + destruct (rmatch a x k); [done|]. by apply (IHb H2 u x t).
  - apply (star_complete g a k t) with (u := u); [|done|done|rewrite Hx, length_app; lia|done].
    intros u' x' t' k'. by apply IHa.
  - inversion Hd; subst. apply (IHa Hp u x t); [done|done|]. intros y Hy. by apply Hk.
Qed.

(** An expression between [^] and [$] matches exactly the texts it can consume. *)
Lemma rx_test_whole r s : unanchored r = true -> rx_test (Sq Bol (Sq r Eol)) s = true <-> den r s.
Proof.
  intros Hr. unfold rx_test. rewrite exec_anchored, rm_sq. split.
  - destruct (rmatch r _ _) as [z|] eqn:E; [intros _|done]. apply rmatch_sound in E as (u & y & E & D & H).
    cbn [m_rest] in E. cbn [rmatch] in H. destruct (m_rest y); [|done]. by rewrite E, app_nil_r.
  - intros D. destruct (rmatch_complete r Hr s (Mst None s []) [] (fun y => rmatch Eol y (fun y0 => Some y0))) as [z ->]; [done| | |done].
    + by rewrite app_nil_r.
    + intros y Hy. cbn [rmatch]. by rewrite Hy.
Qed.

Lemma den_lit_self w : den (lit w) w.
Proof.
  unfold lit. induction w as [|c w IH]; [constructor|]. cbn [map sq]. destruct w as [|e w]; [constructor; apply Z.eqb_refl|].
  apply (den_sq _ _ [c]); [constructor; apply Z.eqb_refl|exact IH].
Qed.

Lemma den_sq_inv a b s : den (Sq a b) s <-> exists u v, s = u ++ v /\ den a u /\ den b v.
Proof. split; [inversion 1; subst; by eexists _, _|]. intros (u & v & -> & ? & ?). by constructor. Qed.

Lemma den_alt_inv a b s : den (Alt a b) s <-> den a s \/ den b s.
Proof. split; [inversion 1; auto|]. intros [?|?]; [by apply den_alt_l|by apply den_alt_r]. Qed.

Lemma den_eps_inv s : den Eps s <-> s = [].
Proof. split; [by inversion 1|]. intros ->. constructor. Qed.

Lemma den_plus_cls_iff p s : den (plus (Cls p)) s <-> s <> [] /\ Forall (fun c => p c = true) s.
Proof.
  split; [apply den_plus_cls|]. intros [Hn H]. destruct H as [|c s Hc H]; [done|]. apply (den_sq _ _ [c]); [by apply den_cls|].
  clear Hn. induction H as [|e s He _ IH]; [constructor|]. by apply (den_star_cons _ _ [e]); [apply den_cls|].
Qed.

Lemma den_alts l s : den (alts l) s <-> exists r, r ∈ l /\ den r s.
Proof.
  induction l as [|r l IH]; cbn [alts].
  - split; [by inversion 1|]. intros (? & H & _). by apply elem_of_nil in H.
  - destruct l as [|r' l].
    + split; [intros H; exists r; split; [by left|done]|]. intros (? & ->%list_elem_of_singleton & H). done.
    + rewrite den_alt_inv, IH. split.
      * intros [H|(q & Hq & H)]; [exists r; split; [by left|done]|exists q; split; [by right|done]].
      * intros (q & [->|Hq]%elem_of_cons & H); [by left|right; by exists q].
Qed.
