(* ===== verification/JsDate.v ===== *)
(** * Dates of the language

    [Date.UTC], the [getUTC...] accessors and [Date.parse] of the one format
    that the sources hand to it, after the definitions of ECMAScript (time
    values, MakeDay, MakeTime).  Time values are integers, in milliseconds
    since 1970; the clipping at 8.64e15 (years -271821 to 275760) is outside
    what the program produces and is not part of the definitions.  Two-digit
    years are read as 19xx, as [Date.UTC] does. *)

From stdpp Require Import base list.
From Stdlib Require Import ZArith Lia.
From S2P Require Import Prelude JsString Regex.

Definition ms_per_day : Z := 86400000.

(** DayFromYear *)
Definition day_from_year (y : Z) : Z :=
  365 * (y - 1970) + (y - 1969) / 4 - (y - 1901) / 100 + (y - 1601) / 400.

Definition is_leap (y : Z) : bool :=
  ((y mod 4 =? 0) && negb (y mod 100 =? 0)) || (y mod 400 =? 0).

(** Days of the year before month [m] (0 = January). *)
Definition month_start (leap : bool) (m : Z) : Z :=
  let l := if leap then 1 else 0 in
  if m =? 0 then 0 else if m =? 1 then 31 else if m =? 2 then 59 + l
  else if m =? 3 then 90 + l else if m =? 4 then 120 + l else if m =? 5 then 151 + l
  else if m =? 6 then 181 + l else if m =? 7 then 212 + l else if m =? 8 then 243 + l
  else if m =? 9 then 273 + l else if m =? 10 then 304 + l else 334 + l.

(** MakeDay: months and days out of range carry over. *)
Definition make_day (y m dt : Z) : Z :=
  let ym := y + m / 12 in
  day_from_year ym + month_start (is_leap ym) (m mod 12) + dt - 1.

(** MakeTime *)
Definition make_time (h mi s ms : Z) : Z := h * 3600000 + mi * 60000 + s * 1000 + ms.

(** MakeFullYear *)
Definition make_full_year (y : Z) : Z := if (0 <=? y) && (y <=? 99) then 1900 + y else y.

(** [Date.UTC(y, m, dt, h, mi, s, ms)] *)
Definition date_utc (y m dt h mi s ms : Z) : Z :=
  make_day (make_full_year y) m dt * ms_per_day + make_time h mi s ms.

Definition day_of (t : Z) : Z := t / ms_per_day.
Definition time_within_day (t : Z) : Z := t mod ms_per_day.

(** The year of a day: an estimate from the mean length of a year, which is
    off by one at most. *)
Definition year_from_day (n : Z) : Z :=
  let y := 1970 + n * 400 / 146097 in
  if n <? day_from_year y then y - 1
  else if day_from_year (y + 1) <=? n then y + 1 else y.

(** The month of a day of the year. *)
Definition month_from_yday (leap : bool) (d : Z) : Z :=
  let ms := month_start leap in
  if d <? ms 1 then 0 else if d <? ms 2 then 1 else if d <? ms 3 then 2
  else if d <? ms 4 then 3 else if d <? ms 5 then 4 else if d <? ms 6 then 5
  else if d <? ms 7 then 6 else if d <? ms 8 then 7 else if d <? ms 9 then 8
  else if d <? ms 10 then 9 else if d <? ms 11 then 10 else 11.

(** [getUTCFullYear], [getUTCMonth], [getUTCDate], [getUTCHours], ... *)
Definition utc_year (t : Z) : Z := year_from_day (day_of t).
Definition utc_yday (t : Z) : Z := day_of t - day_from_year (utc_year t).
Definition utc_month (t : Z) : Z := month_from_yday (is_leap (utc_year t)) (utc_yday t).
Definition utc_date (t : Z) : Z :=
  utc_yday t - month_start (is_leap (utc_year t)) (utc_month t) + 1.
Definition utc_hours (t : Z) : Z := time_within_day t / 3600000.
Definition utc_minutes (t : Z) : Z := time_within_day t / 60000 mod 60.
Definition utc_seconds (t : Z) : Z := time_within_day t / 1000 mod 60.
Definition utc_ms (t : Z) : Z := time_within_day t mod 1000.

(** The parts of [YYYY-MM-DDTHH:MM:SS(.s+)?(Z|+HH:MM|-HH:MM)] *)
Definition ISO_PARTS : re :=
  sq [Bol; Grp 1 (times 4 d); chr 45; Grp 2 (times 2 d); chr 45; Grp 3 (times 2 d); chr 84;
      Grp 4 (times 2 d); chr 58; Grp 5 (times 2 d); chr 58; Grp 6 (times 2 d);
      opt (Sq (chr 46) (Grp 7 (plus d)));
      Alt (chr 90) (sq [Grp 8 (Alt (chr 43) (chr 45)); Grp 9 (times 2 d); chr 58; Grp 10 (times 2 d)]);
      Eol].

(** Three digits of a fraction of a second, as milliseconds. *)
Definition frac_ms (o : option str) : Z :=
  match o with
  | None => 0
  | Some f => digits_value 0 (pad_end 3 48 (take 3 f))
  end.

(** [Date.parse] of a text in that format; [None] is [NaN].  The host accepts
    any day up to 31 in any month, and 24:00:00 as the end of a day. *)
Definition date_parse (s : str) : option Z :=
  match exec ISO_PARTS s with
  | None => None
  | Some m =>
      let num := fun n => match cap m n with Some v => digits_value 0 v | None => 0 end in
      let y := num 1%nat in let mo := num 2%nat in let dd := num 3%nat in
      let h := num 4%nat in let mi := num 5%nat in let sec := num 6%nat in
      let ms := frac_ms (cap m 7%nat) in
      let sign := match cap m 8%nat with
                  | Some v => if bool_decide (v = [45]) then -1 else 1
                  | None => 1 end in
      let off := sign * (num 9%nat * 60 + num 10%nat) * 60000 in
      if (1 <=? mo) && (mo <=? 12) && (1 <=? dd) && (dd <=? 31) && (mi <=? 59) && (sec <=? 59)
         && ((h <=? 23) || ((h =? 24) && (mi =? 0) && (sec =? 0) && (ms =? 0)))
         && (num 9%nat <=? 23) && (num 10%nat <=? 59)
      then Some (make_day y (mo - 1) dd * ms_per_day + make_time h mi sec ms - off)
      else None
  end.

(** ** The calendar *)

Lemma day_from_year_succ y :
  day_from_year (y + 1) = day_from_year y + (if is_leap y then 366 else 365).
Proof.
  unfold day_from_year, is_leap. zcases; simpl; Z.div_mod_to_equations; lia.
Qed.

Lemma year_length y :
  day_from_year y + 365 <= day_from_year (y + 1) <= day_from_year y + 366.
Proof. rewrite day_from_year_succ. destruct (is_leap y); lia. Qed.

Lemma day_from_year_mono y1 y2 : y1 <= y2 -> day_from_year y1 + 365 * (y2 - y1) <= day_from_year y2.
Proof. intros. unfold day_from_year. Z.div_mod_to_equations. lia. Qed.

(** The estimate is within a year of the truth. *)
Lemma year_estimate n :
  let y := 1970 + n * 400 / 146097 in
  day_from_year (y - 1) <= n < day_from_year (y + 2).
Proof. intros y. unfold y, day_from_year. Z.div_mod_to_equations. lia. Qed.

Lemma year_from_day_spec n :
  day_from_year (year_from_day n) <= n < day_from_year (year_from_day n + 1).
Proof.
  pose proof (year_estimate n) as H. unfold year_from_day. simpl in H.
  set (y := 1970 + n * 400 / 146097) in *.
  zcases; rewrite ?Z.sub_add; try replace (y + 1 + 1) with (y + 2) by lia; lia.
Qed.

Lemma year_from_day_unique n y :
  day_from_year y <= n < day_from_year (y + 1) -> year_from_day n = y.
Proof.
  intros H. pose proof (year_from_day_spec n) as H'. set (z := year_from_day n) in *.
  destruct (Z_lt_le_dec z y).
  - pose proof (day_from_year_mono (z + 1) y). lia.
  - destruct (Z_lt_le_dec y z); [|lia]. pose proof (day_from_year_mono (y + 1) z). lia.
Qed.

Lemma month_from_yday_spec (leap : bool) (x : Z) :
  0 <= x < (if leap then 366 else 365) ->
  0 <= month_from_yday leap x <= 11 /\
  month_start leap (month_from_yday leap x) <= x /\
  x - month_start leap (month_from_yday leap x) <= 30.
Proof.
  intros H. unfold month_from_yday.
  destruct leap; unfold month_start; simpl; zcases; simpl; lia.
Qed.

Lemma utc_yday_range t : 0 <= utc_yday t < (if is_leap (utc_year t) then 366 else 365).
Proof.
  unfold utc_yday, utc_year. pose proof (year_from_day_spec (day_of t)) as H.
  rewrite day_from_year_succ in H. lia.
Qed.

Lemma make_day_in_range y m dt :
  0 <= m <= 11 -> make_day y m dt = day_from_year y + month_start (is_leap y) m + dt - 1.
Proof. intros. unfold make_day. rewrite Z.div_small, Z.mod_small by lia. by rewrite Z.add_0_r. Qed.

Lemma time_parts t :
  make_time (utc_hours t) (utc_minutes t) (utc_seconds t) (utc_ms t) = time_within_day t.
Proof.
  unfold make_time, utc_hours, utc_minutes, utc_seconds, utc_ms, time_within_day, ms_per_day.
  Z.div_mod_to_equations. lia.
Qed.

(** A time value is rebuilt from its UTC fields. *)
Lemma make_day_fields t :
  make_day (utc_year t) (utc_month t) (utc_date t) * ms_per_day + time_within_day t = t.
Proof.
  pose proof (month_from_yday_spec _ _ (utc_yday_range t)) as (Hm & _).
  rewrite make_day_in_range by done.
  unfold utc_date. fold (utc_month t). unfold utc_yday, day_of, time_within_day.
  pose proof (Z.div_mod t ms_per_day). unfold ms_per_day in *. lia.
Qed.

Lemma make_full_year_id y : 100 <= y -> make_full_year y = y.
Proof.
  intros. unfold make_full_year. destruct (Z.leb_spec y 99); [lia|]. by rewrite andb_false_r.
Qed.

Lemma date_utc_fields t :
  100 <= utc_year t ->
  date_utc (utc_year t) (utc_month t) (utc_date t)
           (utc_hours t) (utc_minutes t) (utc_seconds t) (utc_ms t) = t.
Proof.
  intros Hy. unfold date_utc. rewrite make_full_year_id, time_parts by done.
  apply make_day_fields.
Qed.

(** The same day and time one year earlier is 365 or 366 days earlier, but for
    29 February, which moves to 1 March. *)
Lemma make_day_prev_year y m dt :
  0 <= m <= 11 ->
  make_day y m dt - 366 <= make_day (y - 1) m dt <= make_day y m dt - 365.
Proof.
  intros Hm. rewrite !make_day_in_range by done.
  pose proof (day_from_year_succ (y - 1)) as H. replace (y - 1 + 1) with y in H by lia.
  assert (is_leap (y - 1) = true -> is_leap y = false) as Hl.
  { unfold is_leap. zcases; simpl; try done; Z.div_mod_to_equations; lia. }
  destruct (is_leap (y - 1)) eqn:E1; [rewrite (Hl eq_refl) in * |];
    destruct (is_leap y) eqn:E2; unfold month_start; zcases; simpl; try lia.
Qed.

Lemma utc_fields_range t :
  0 <= utc_month t <= 11 /\ 1 <= utc_date t <= 31 /\ 0 <= utc_hours t <= 23 /\
  0 <= utc_minutes t <= 59 /\ 0 <= utc_seconds t <= 59 /\ 0 <= utc_ms t <= 999.
Proof.
  pose proof (month_from_yday_spec _ _ (utc_yday_range t)) as (Hm & H1 & H2).
  fold (utc_month t) in *. unfold utc_date.
  assert (0 <= time_within_day t < ms_per_day) by (apply Z.mod_pos_bound; done).
  unfold utc_hours, utc_minutes, utc_seconds, utc_ms, ms_per_day in *.
  split_and!; try lia; Z.div_mod_to_equations; lia.
Qed.

Lemma month_start_leap leap m :
  0 <= m -> month_start leap m = month_start false m + (if leap && (2 <=? m) then 1 else 0).
Proof. intros Hm. destruct leap; [|simpl; lia]. unfold month_start. simpl. zcases; lia. Qed.
