(* ===== verification/TimeParser.v ===== *)
(** * Time headers of log lines

    src/core/logs/time/TimeParser.ts: [parseTs], the extraction of the header
    token, the classification of formats without a year, and [guessLevel].
    [Date.parse] is [JsDate.date_parse].  The year of the host clock
    ([new Date().getFullYear()]) is the argument [now_year].  The timing
    wrapper [measureBlock] returns the value of its block and is left out. *)

From stdpp Require Import base list strings.
From Stdlib Require Import ZArith Lia.
From S2P Require Import Prelude JsString Regex JsDate.

(** ** The regular expressions *)

Definition frac : re := opt (Sq (chr 46) (plus d)).

Definition MONTHS : re :=
  alts [lit_i (js "Jan"); lit_i (js "Feb"); lit_i (js "Mar"); lit_i (js "Apr");
        lit_i (js "May"); lit_i (js "Jun"); lit_i (js "Jul"); lit_i (js "Aug");
        lit_i (js "Sep"); lit_i (js "Oct"); lit_i (js "Nov"); lit_i (js "Dec")].

Definition ZONE : re :=
  Alt (chr 90)
      (sq [Cls (fun c => (c =? 43) || (c =? 45)); times 2 d; chr 58; times 2 d]).

Definition ABS_BODY : re :=
  sq [times 4 d; chr 45; times 2 d; chr 45; times 2 d; chr 84;
      times 2 d; chr 58; times 2 d; chr 58; times 2 d; frac; ZONE].

Definition ABS_RX : re := sq [Bol; ABS_BODY; Eol].

Definition SP_OR_T : re := Cls (fun c => (c =? 32) || (c =? 84)).

Definition YMD_RX : re :=
  sq [Bol; Grp 1 (times 4 d); chr 45; Grp 2 (times 2 d); chr 45; Grp 3 (times 2 d); SP_OR_T;
      Grp 4 (times 2 d); chr 58; Grp 5 (times 2 d); chr 58; Grp 6 (times 2 d);
      opt (Sq (chr 46) (Grp 7 (plus d))); Eol].

(** [\d{1,2}] *)
Definition d12 : re := Sq d (opt d).

Definition MON_RX : re :=
  sq [Bol; Grp 1 MONTHS; plus ws; Grp 2 d12; plus ws;
      Grp 3 (times 2 d); chr 58; Grp 4 (times 2 d); chr 58; Grp 5 (times 2 d);
      opt (Sq (chr 46) (Grp 6 (plus d))); Eol].

(** The same expression in [isYearlessTimeToken] has fewer groups. *)
Definition MON_RX_TEST : re :=
  sq [Bol; Grp 1 MONTHS; plus ws; d12; plus ws;
      times 2 d; chr 58; times 2 d; chr 58; times 2 d; frac; Eol].

Definition MD_RX : re :=
  sq [Bol; Grp 1 d12; chr 45; Grp 2 d12; plus ws;
      Grp 3 (times 2 d); chr 58; Grp 4 (times 2 d); chr 58; Grp 5 (times 2 d);
      opt (Sq (chr 46) (Grp 6 (plus d))); Eol].

Definition ABS_PREFIX : re := sq [Bol; Grp 1 ABS_BODY].

Definition YMD_PREFIX : re :=
  sq [Bol; Grp 1 (sq [times 4 d; chr 45; times 2 d; chr 45; times 2 d; SP_OR_T;
                      times 2 d; chr 58; times 2 d; chr 58; times 2 d; frac])].

Definition MON_PREFIX : re :=
  sq [Bol; Grp 1 (sq [MONTHS; plus ws; d12; plus ws;
                      times 2 d; chr 58; times 2 d; chr 58; times 2 d; frac])].

Definition MD_PREFIX : re :=
  sq [Bol; Grp 1 (sq [d12; chr 45; d12; plus ws;
                      times 2 d; chr 58; times 2 d; chr 58; times 2 d; frac])].

(** ** Helpers *)

Definition toInt (s : option str) : Z :=
  Z.max 0 (or_else (parse_int (or_else s (js "0"))) 0).

Definition toMs3 (frac : option str) : Z :=
  match frac with
  | None => 0
  | Some f =>
      if nonempty f then or_else (parse_int (pad_end 3 48 (take 3 f))) 0 else 0
  end.

Definition month_names : list str :=
  map js ["jan"; "feb"; "mar"; "apr"; "may"; "jun";
          "jul"; "aug"; "sep"; "oct"; "nov"; "dec"]%string.

Fixpoint index_of (x : str) (l : list str) (i : Z) : Z :=
  match l with
  | [] => -1
  | y :: l' => if bool_decide (x = y) then i else index_of x l' (i + 1)
  end.

(** The callers pass the ASCII text matched by [MONTHS]. *)
Definition monthNameToIndex (m : str) : Z :=
  index_of (ascii_lower (take 3 m)) month_names 0.

(** ** The header token *)

Definition extractHeaderTimeToken (line : str) : option str :=
  let s := trim line in
  match s with
  | [] => None
  | c :: tl =>
      if c =? 91 then
        match cut_at 93 s with
        | Some (before, _) => Some (trim (drop 1 before))
        | None => None
        end
      else
        let first := fun o1 o2 : option rx_match => match o1 with Some m => Some m | None => o2 end in
        match first (exec ABS_PREFIX s) (first (exec YMD_PREFIX s)
                (first (exec MON_PREFIX s) (exec MD_PREFIX s))) with
        | Some m => Some (trim (or_else (cap m 1) []))
        | None =>
            match cut_at 32 s with
            | Some (before, _) => Some (trim before)
            | None => Some (trim s)
            end
        end
  end.

Definition isYearlessTimeToken (token : option str) : bool :=
  match token with
  | None => false
  | Some t =>
      if nonempty t then
        let s := trim t in
        if nonempty s then
          if rx_test ABS_RX s || rx_test YMD_RX s then false
          else rx_test MON_RX_TEST s || rx_test MD_RX s
        else false
      else false
  end.

(** ** [parseTs] *)

(** The interpretation of the token; [None] is [undefined]. *)
Definition parseToken (now_year : Z) (token : str) : option Z :=
  if rx_test ABS_RX token then date_parse token
  else
    match exec YMD_RX token with
    | Some m =>
        Some (date_utc (toInt (cap m 1)) (toInt (cap m 2) - 1) (toInt (cap m 3))
                (toInt (cap m 4)) (toInt (cap m 5)) (toInt (cap m 6)) (toMs3 (cap m 7)))
    | None =>
        let md_case :=
          match exec MD_RX token with
          | Some m =>
              Some (date_utc now_year (toInt (cap m 1) - 1) (toInt (cap m 2))
                      (toInt (cap m 3)) (toInt (cap m 4)) (toInt (cap m 5)) (toMs3 (cap m 6)))
          | None => None
          end in
        match exec MON_RX token with
        | Some m =>
            let month := monthNameToIndex (or_else (cap m 1) []) in
            if 0 <=? month then
              Some (date_utc now_year month (toInt (cap m 2))
                      (toInt (cap m 3)) (toInt (cap m 4)) (toInt (cap m 5)) (toMs3 (cap m 6)))
            else md_case
        | None => md_case
        end
    end.

Definition parseTs (now_year : Z) (line : str) : option Z :=
  match extractHeaderTimeToken line with
  | None => None
  | Some token => if nonempty token then parseToken now_year token else None
  end.

(** ** [guessLevel] *)

Inductive level := LvD | LvI | LvW | LvE.

Definition word_i (ws : list str) : re := sq [WordB; Grp 1 (alts (map lit_i ws)); WordB].

Definition ERR_RX : re := word_i [js "error"; js "err"; js "fail"; js "fatal"].
Definition WARN_RX : re := sq [WordB; lit_i (js "warn"); opt (Grp 1 (lit_i (js "ing"))); WordB].
Definition DBG_RX : re := word_i [js "debug"; js "trace"].

Definition guessLevel (line : str) : level :=
  if rx_test ERR_RX line then LvE
  else if rx_test WARN_RX line then LvW
  else if rx_test DBG_RX line then LvD
  else LvI.

(** ** Rendering, for the round-trip theorems *)

Definition d2 (n : Z) : str := [48 + n / 10; 48 + n mod 10].
Definition d3 (n : Z) : str := [48 + n / 100; 48 + n / 10 mod 10; 48 + n mod 10].
Definition d4 (n : Z) : str :=
  [48 + n / 1000; 48 + n / 100 mod 10; 48 + n / 10 mod 10; 48 + n mod 10].

(** [YYYY-MM-DD HH:MM:SS.mmm], with [sep] a space or a [T] *)
Definition render_ymd (sep : Z) (t : Z) : str :=
  d4 (utc_year t) ++ 45 :: d2 (utc_month t + 1) ++ 45 :: d2 (utc_date t) ++ sep ::
  d2 (utc_hours t) ++ 58 :: d2 (utc_minutes t) ++ 58 :: d2 (utc_seconds t) ++
  46 :: d3 (utc_ms t).

(** What may follow the header: nothing, or a space. *)
Definition header_end (rest : str) : Prop :=
  match rest with [] => True | c :: _ => c = 32 end.

Example parseTs_abs : parseTs 2024 (js "2024-03-01T09:00:00.250+09:00 boot") = Some 1709251200250.
Proof. vm_compute. reflexivity. Qed.

Example parseTs_mon : parseTs 2024 (js "[Mar  1 00:00:01.5] kernel: up") = Some 1709251201500.
Proof. vm_compute. reflexivity. Qed.

Example parseTs_md : parseTs 2024 (js "03-01 00:00:02 x") = Some 1709251202000.
Proof. vm_compute. reflexivity. Qed.

Example parseTs_body : parseTs 2024 (js "boot at 2024-03-01T09:00:00Z") = None.
Proof. vm_compute. reflexivity. Qed.

Example guessLevel_ex :
  map guessLevel [js "fatal: x"; js "Warning: x"; js "trace"; js "terror"] = [LvE; LvW; LvD; LvI].
Proof. vm_compute. reflexivity. Qed.

(** ** Only the header is read *)

Lemma extract_bracket tok rest :
  Forall (fun c => c <> 93) tok ->
  extractHeaderTimeToken (91 :: tok ++ 93 :: rest) = Some (trim tok).
Proof.
  intros Htok. unfold extractHeaderTimeToken.
  destruct (trim_app_header 91 tok 93 rest) as (r1 & r2 & E & _); [done..|].
  cbn [app] in E. rewrite <- app_assoc in E. cbn [app] in E. rewrite E.
  rewrite <- app_assoc. cbn [app]. rewrite Z.eqb_refl.
  change (91 :: tok ++ 93 :: r1) with ((91 :: tok) ++ 93 :: r1).
  rewrite cut_at_app by (constructor; [done|done]). done.
Qed.

(** a bracketed header decides the timestamp of a line alone: whatever
    follows the closing bracket, dates in the message included, is ignored. *)
Theorem parseTs_ignores_body now_year tok rest :
  Forall (fun c => c <> 93) tok ->
  parseTs now_year (91 :: tok ++ 93 :: rest) = parseTs now_year (91 :: tok ++ [93]).
Proof. intros H. unfold parseTs. by rewrite !extract_bracket. Qed.

Lemma parseTs_ignores_body_witness :
  parseTs 2024 (js "[03-01 00:00:02] seen 2030-01-01T00:00:00Z") = Some 1709251202000.
Proof.
  transitivity (parseTs 2024 (91 :: js "03-01 00:00:02" ++ [93])); [|vm_compute; reflexivity].
  apply (parseTs_ignores_body 2024 (js "03-01 00:00:02") (js " seen 2030-01-01T00:00:00Z")).
  repeat constructor; discriminate.
Defined.

(** ** Formats without a year *)

Lemma mon_test_groups s : rx_test MON_RX_TEST s = rx_test MON_RX s.
Proof. apply rx_test_erase. reflexivity. Qed.

Lemma exec_test r s : rx_test r s = false -> exec r s = None.
Proof. unfold rx_test. by destruct (exec r s). Qed.

Lemma trim_idemp s : trim (trim s) = trim s.
Proof.
  unfold trim, trim_start, trim_end.
  assert (forall l, drop_while is_ws l = l \/ exists c t, l = c :: t /\ is_ws c = true) as Hcase.
  { intros [|c t]; simpl; [auto|]. destruct (is_ws c) eqn:E; [right; eauto|auto]. }
  set (u := drop_while is_ws s).
  assert (drop_while is_ws u = u) as Hu by apply drop_while_idemp.
  assert (drop_while is_ws (rev (drop_while is_ws (rev u))) = rev (drop_while is_ws (rev u))) as ->.
  2: { by rewrite rev_involutive, drop_while_idemp. }
  destruct u as [|c t]; [done|].
  assert (is_ws c = false) as Hc.
  { simpl in Hu. destruct (is_ws c) eqn:E; [|done]. exfalso.
    assert (length (drop_while is_ws t) <= length t)%nat.
    { clear. induction t as [|x t IH]; simpl; [lia|]. destruct (is_ws x); simpl; lia. }
    rewrite Hu in H. simpl in H. lia. }
  simpl. destruct (drop_while_app_head is_ws (rev t) c [] Hc) as [s' ->].
  rewrite rev_app_distr. simpl. by rewrite Hc.
Qed.

Lemma extract_trimmed line t : extractHeaderTimeToken line = Some t -> trim t = t.
Proof.
  unfold extractHeaderTimeToken. intros H.
  repeat case_match; simplify_eq; apply trim_idemp.
Qed.

(** the classification used by the rollover correction is right: the year
    of the host clock influences [parseTs] only on lines whose header token
    [isYearlessTimeToken] accepts. *)
Theorem year_matters_only_if_yearless y1 y2 line :
  isYearlessTimeToken (extractHeaderTimeToken line) = false ->
  parseTs y1 line = parseTs y2 line.
Proof.
  unfold parseTs. destruct (extractHeaderTimeToken line) as [t|] eqn:E; [|done].
  unfold isYearlessTimeToken. rewrite (extract_trimmed _ _ E).
  destruct (nonempty t); [|done]. unfold parseToken.
  destruct (rx_test ABS_RX t); [done|]. simpl.
  destruct (rx_test YMD_RX t) eqn:Ey.
  - unfold rx_test in Ey. by destruct (exec YMD_RX t).
  - rewrite (exec_test _ _ Ey), mon_test_groups, orb_false_iff. intros [Em Ed].
    by rewrite (exec_test _ _ Em), (exec_test _ _ Ed).
Qed.

Lemma year_matters_only_if_yearless_witness :
  parseTs 1999 (js "2024-03-01 00:00:02 x") = parseTs 2024 (js "2024-03-01 00:00:02 x").
Proof. apply year_matters_only_if_yearless. vm_compute. reflexivity. Defined.

(** ** Reading back what was rendered *)

Lemma digit_units n : 0 <= n < 10 -> is_digit (48 + n) = true.
Proof. intros. unfold is_digit. lia. Qed.

Lemma digit_neqb c k : is_digit c = true -> is_digit k = false -> (k =? c) = false.
Proof. intros Hc Hk. destruct (Z.eqb_spec k c); congruence. Qed.

Lemma digit_no_sign c : is_digit c = true -> (c =? 43) || (c =? 45) = false.
Proof. unfold is_digit. lia. Qed.

(** Evaluate a match on a text whose digits are known to be digits. *)
Ltac rx_yes := solve [assumption | reflexivity].

Ltac rx_no :=
  solve [reflexivity | (eapply digit_neqb; [eassumption|reflexivity])
        | (cbv beta; eapply digit_no_sign; eassumption)].

Ltac rx_step :=
  first [rewrite rm_sq | rewrite rm_grp | rewrite rm_alt | rewrite rm_eps
        | rewrite rm_cls by rx_yes | rewrite rm_cls_no by rx_no | rewrite rm_cls_nil
        | rewrite rm_eol | rewrite rm_eol_no]; cbn beta; cbn [m_prev m_rest m_caps].

(** Compute a capture as soon as its group is closed (closed texts only). *)
Ltac rx_capture :=
  match goal with
  | |- context [consumed (Mst ?p ?r ?c) (Mst ?p' ?r' ?c')] =>
      let v := eval cbv in (take (length r - length r') r) in
      change (consumed (Mst p r c) (Mst p' r' c')) with v
  end.

Ltac rx_unfold :=
  cbn [sq times alts map js];
  unfold ABS_BODY, ZONE, SP_OR_T, frac, opt, plus, d12, d, chr, ws; cbn [sq times].

Ltac rx_run := rx_unfold; repeat rx_step.

Section ymd.
Context (a1 a2 a3 a4 b1 b2 c1 c2 sep h1 h2 m1 m2 s1 s2 f1 f2 f3 : Z).

Definition ymd_text : str :=
  [a1; a2; a3; a4; 45; b1; b2; 45; c1; c2; sep; h1; h2; 58; m1; m2; 58; s1; s2; 46; f1; f2; f3].

Hypothesis digits : Forall (fun c => is_digit c = true)
  [a1; a2; a3; a4; b1; b2; c1; c2; h1; h2; m1; m2; s1; s2; f1; f2; f3].
Hypothesis sep_ok : sep = 32 \/ sep = 84.

Lemma header_end_no_digit rest :
  header_end rest -> match rest with [] => True | c :: _ => is_digit c = false end.
Proof. destruct rest; simpl; [done|]. by intros ->. Qed.

Ltac ymd_start :=
  cbn [sq]; rewrite exec_anchored; unfold ymd_text;
  repeat match goal with H : Forall _ (_ :: _) |- _ => apply Forall_cons in H as [? H] end.

Lemma ymd_prefix rest :
  header_end rest ->
  exists rx, exec YMD_PREFIX (ymd_text ++ rest) = Some rx /\ cap rx 1 = Some ymd_text.
Proof.
  intros Hend. unfold YMD_PREFIX. ymd_start. cbn [app].
  destruct sep_ok as [-> | ->]; rx_run;
    (erewrite (rmatch_star_run is_digit [f2; f3] rest);
      [|by repeat constructor|by apply header_end_no_digit|reflexivity]);
    eexists; (split; [reflexivity|]); cbn; f_equal;
    replace (length rest - length rest)%nat with 0%nat by lia;
    repeat (rewrite Nat.sub_succ_l by lia); rewrite Nat.sub_diag; reflexivity.
Qed.

(** Without a zone the text is not absolute. *)
Lemma ymd_not_abs rest r :
  header_end rest -> r = sq [ABS_BODY] \/ r = sq [ABS_BODY; Eol] \/ r = Grp 1 ABS_BODY ->
  exec (Sq Bol r) (ymd_text ++ rest) = None.
Proof.
  intros Hend Hr. ymd_start. cbn [app].
  assert (forall k, rmatch ABS_BODY (Mst None (ymd_text ++ rest) []) k = None) as Hbody.
  { intros k. unfold ymd_text. cbn [app]. destruct sep_ok as [-> | ->]; rx_run; [done|].
    rewrite (rmatch_star_none is_digit [f2; f3] rest);
      [|by repeat constructor|by apply header_end_no_digit|].
    - rx_run. done.
    - intros l1 l2 pv E.
      destruct rest as [|c rest]; [|simpl in Hend; subst c];
      (destruct l1 as [|? [|? [|? ?]]]; cbn [app] in E; simplify_eq; cbn [app]; rx_run; done). }
  unfold ymd_text in Hbody. cbn [app] in Hbody.
  destruct Hr as [-> | [-> | ->]]; cbn [sq]; rewrite ?rm_sq, ?rm_grp, Hbody; done.
Qed.

Lemma ymd_parts :
  exists rx, exec YMD_RX ymd_text = Some rx /\
    cap rx 1 = Some [a1; a2; a3; a4] /\ cap rx 2 = Some [b1; b2] /\ cap rx 3 = Some [c1; c2] /\
    cap rx 4 = Some [h1; h2] /\ cap rx 5 = Some [m1; m2] /\ cap rx 6 = Some [s1; s2] /\
    cap rx 7 = Some [f1; f2; f3].
Proof.
  unfold YMD_RX. ymd_start.
  destruct sep_ok as [-> | ->]; rx_unfold; repeat (rx_step; try rx_capture);
    (erewrite (rmatch_star_end is_digit [f2; f3]); [|by repeat constructor|reflexivity]);
    eexists; (split; [reflexivity|]); split_and!; reflexivity.
Qed.

Lemma ymd_token rest :
  header_end rest -> extractHeaderTimeToken (ymd_text ++ rest) = Some ymd_text.
Proof.
  intros Hend. unfold extractHeaderTimeToken.
  assert (is_digit a1 = true /\ is_digit f3 = true) as [Ha Hf].
  { repeat match goal with H : Forall _ (_ :: _) |- _ => apply Forall_cons in H as [? H] end. done. }
  assert (forall r, exists r1 r2, trim (ymd_text ++ r) = ymd_text ++ r1 /\ r = r1 ++ r2) as Htrim.
  { intros r. destruct (trim_app_header a1
      [a2; a3; a4; 45; b1; b2; 45; c1; c2; sep; h1; h2; 58; m1; m2; 58; s1; s2; 46; f1; f2] f3 r)
      as (r1 & r2 & E & E2 & _); [by apply digit_not_ws..|]. eauto. }
  destruct (Htrim rest) as (r1 & r2 & E & Er). rewrite E.
  assert (header_end r1) as Hend1 by (subst rest; destruct r1; simpl in *; done).
  destruct (ymd_prefix r1 Hend1) as (rx & Erx & Hcap).
  assert (exec ABS_PREFIX (ymd_text ++ r1) = None) as Eabs.
  { apply (ymd_not_abs r1 (Grp 1 ABS_BODY)); auto. }
  destruct (Htrim []) as (q1 & q2 & Eq & Hq). symmetry in Hq. apply app_eq_nil in Hq as [-> ->].
  rewrite !app_nil_r in Eq.
  rewrite Eabs, Erx, Hcap. unfold ymd_text at 1. cbn [app or_else]. rewrite Eq.
  destruct (Z.eqb_spec a1 91); [|done]. unfold is_digit in Ha. lia.
Qed.
End ymd.

Lemma toInt_digits s :
  s <> [] -> Forall (fun c => is_digit c = true) s -> 0 <= digits_value 0 s ->
  toInt (Some s) = digits_value 0 s.
Proof. intros Hne Hd Hv. unfold toInt. simpl. rewrite parse_int_digits by done. simpl. lia. Qed.

Lemma d2_digits n : 0 <= n < 100 -> Forall (fun c => is_digit c = true) (d2 n).
Proof. intros. repeat constructor; apply digit_units; Z.div_mod_to_equations; lia. Qed.

Lemma toInt_d2 n : 0 <= n < 100 -> toInt (Some (d2 n)) = n.
Proof.
  intros. assert (digits_value 0 (d2 n) = n) as E by (simpl; Z.div_mod_to_equations; lia).
  rewrite toInt_digits; [done|done|by apply d2_digits|lia].
Qed.

Lemma d4_digits n : 0 <= n < 10000 -> Forall (fun c => is_digit c = true) (d4 n).
Proof. intros. repeat constructor; apply digit_units; Z.div_mod_to_equations; lia. Qed.

Lemma toInt_d4 n : 0 <= n < 10000 -> toInt (Some (d4 n)) = n.
Proof.
  intros. assert (digits_value 0 (d4 n) = n) as E by (simpl; Z.div_mod_to_equations; lia).
  rewrite toInt_digits; [done|done|by apply d4_digits|lia].
Qed.

Lemma d3_digits n : 0 <= n < 1000 -> Forall (fun c => is_digit c = true) (d3 n).
Proof. intros. repeat constructor; apply digit_units; Z.div_mod_to_equations; lia. Qed.

Lemma toMs3_d3 n : 0 <= n < 1000 -> toMs3 (Some (d3 n)) = n.
Proof.
  intros. assert (digits_value 0 (d3 n) = n) as E by (simpl; Z.div_mod_to_equations; lia).
  unfold toMs3. cbn [nonempty d3]. change (pad_end 3 48 (take 3 _)) with (d3 n).
  rewrite parse_int_digits by (done || by apply d3_digits). simpl or_else. done.
Qed.

(** reading a rendered timestamp gives it back: for every instant of the
    years 100 to 9999, a line that starts with its UTC date and time in
    milliseconds, separated by a space or a [T], has that instant as its
    timestamp, whatever the message after the header and the host year. *)
Theorem parseTs_render now_year sep t rest :
  sep = 32 \/ sep = 84 -> 100 <= utc_year t <= 9999 -> header_end rest ->
  parseTs now_year (render_ymd sep t ++ rest) = Some t.
Proof.
  intros Hsep Hy Hend. pose proof (utc_fields_range t) as (Hmo & Hd & Hh & Hmi & Hs & Hms).
  assert (Forall (fun c => is_digit c = true)
    (d4 (utc_year t) ++ d2 (utc_month t + 1) ++ d2 (utc_date t) ++ d2 (utc_hours t) ++
     d2 (utc_minutes t) ++ d2 (utc_seconds t) ++ d3 (utc_ms t))) as Hdig.
  { rewrite !Forall_app.
    split_and!; first [apply d4_digits|apply d2_digits|apply d3_digits]; lia. }
  unfold parseTs, render_ymd. cbn [d4 d2 d3 app] in Hdig |- *.
  pose proof (ymd_token _ _ _ _ _ _ _ _ _ _ _ _ _ _ _ _ _ _ Hdig Hsep rest Hend) as Htok.
  unfold ymd_text in Htok at 1. cbn [app] in Htok. rewrite Htok. clear Htok.
  unfold ymd_text at 1. cbn [nonempty]. unfold parseToken, rx_test.
  pose proof (ymd_not_abs _ _ _ _ _ _ _ _ _ _ _ _ _ _ _ _ _ _ Hdig Hsep [] (sq [ABS_BODY; Eol])
    I ltac:(auto)) as Habs.
  rewrite app_nil_r in Habs. unfold ABS_RX. cbn [sq] in Habs |- *. rewrite Habs.
  destruct (ymd_parts _ _ _ _ _ _ _ _ _ _ _ _ _ _ _ _ _ _ Hdig Hsep)
    as (rx & -> & -> & -> & -> & -> & -> & -> & ->).
  f_equal. fold (d4 (utc_year t)) (d2 (utc_month t + 1)) (d2 (utc_date t)) (d2 (utc_hours t))
    (d2 (utc_minutes t)) (d2 (utc_seconds t)) (d3 (utc_ms t)).
  rewrite toInt_d4, !toInt_d2, toMs3_d3 by lia.
  replace (utc_month t + 1 - 1) with (utc_month t) by lia.
  apply date_utc_fields. lia.
Qed.

Lemma parseTs_render_witness :
  parseTs 1999 (js "2024-02-29T23:59:59.999 leap") = Some 1709251199999.
Proof. apply (parseTs_render 1999 84 1709251199999 (js " leap")); vm_compute; auto; split; discriminate. Defined.
