(* ===== verification/Timezone.v ===== *)
(** * Timestamp correctors

    src/core/logs/time/TimezoneHeuristics.ts: [MonotonicCorrector], which every
    merge applies to the lines of one log type, newest first, and
    [TimezoneCorrector], which finds the segments where the clock of the device
    had jumped.  Both are state machines fed with one raw timestamp per line.
    Durations that the sources keep in hours ([diffMs / 3600000]) are kept in
    milliseconds; only their order and their rounding to hours are used. *)

From stdpp Require Import base list sorting.
From Stdlib Require Import ZArith Lia.
From S2P Require Import Prelude.

Definition hour : Z := 3600000.

Module Mono.

Definition SMALL_DELTA_MS : Z := 1500.

Record state := State {
  lastCorrected : option Z;
  clampCount : Z;
  shiftCount : Z;
  worstShift : Z;           (* worstShiftHours, in ms *)
  worstShiftAt : option Z;
  globalOffsetMs : Z;
  granularityMs : Z;
}.

(** [new MonotonicCorrector(label, granularityMs)] *)
Definition init (granularity : Z) : state := State None 0 0 0 None 0 granularity.

Definition adjust (s : state) (rawTs : Z) : state * Z :=
  let slotMs := Z.max 1 (granularityMs s) in
  let clamped := rawTs / slotMs * slotMs in
  let clamps := if clamped =? rawTs then clampCount s else clampCount s + 1 in
  let corrected := clamped + globalOffsetMs s in
  match lastCorrected s with
  | Some lc =>
      if lc <? corrected then
        let diffMs := corrected - lc in
        if diffMs <=? SMALL_DELTA_MS then
          (State (Some (lc - 1)) (clamps + 1) (shiftCount s) (worstShift s) (worstShiftAt s)
                 (globalOffsetMs s) (granularityMs s), lc - 1)
        else
          let worse := worstShift s <? diffMs in
          let off := globalOffsetMs s - diffMs in
          (State (Some (clamped + off)) clamps (shiftCount s + 1)
                 (if worse then diffMs else worstShift s)
                 (if worse then Some rawTs else worstShiftAt s)
                 off (granularityMs s), clamped + off)
      else
        (State (Some corrected) clamps (shiftCount s) (worstShift s) (worstShiftAt s)
               (globalOffsetMs s) (granularityMs s), corrected)
  | None =>
      (State (Some corrected) clamps (shiftCount s) (worstShift s) (worstShiftAt s)
             (globalOffsetMs s) (granularityMs s), corrected)
  end.

(** [summary()]: the counters are reset, the correction state is kept. *)
Definition summary (s : state) : state :=
  State (lastCorrected s) 0 0 0 None (globalOffsetMs s) (granularityMs s).

(** Feeding the lines of a type, as the merges do. *)
Fixpoint run (s : state) (raws : list Z) : state * list Z :=
  match raws with
  | [] => (s, [])
  | r :: rs =>
      let '(s1, c) := adjust s r in
      let '(s2, cs) := run s1 rs in
      (s2, c :: cs)
  end.

End Mono.

Module Tz.

Definition MAX_TZ_OFFSET_HOURS : Z := 14.
Definition MIN_JUMP_HOURS : Z := 3.
Definition MIN_RETURN_HOURS : Z := 1.

Record suspicion := Suspicion {
  startIndex : Z;
  firstJumpRawTs : Z;
  preJumpRawTs : Z;
  positive : bool;          (* direction *)
  jumpMs : Z;               (* hourDiff, in ms *)
}.

Record segment := Segment { seg_start : Z; seg_end : Z; deltaMs : Z }.

Record state := State {
  lastCorrected : option Z;
  lastRawTs : option Z;
  lastFeedTs : option Z;
  feedInc : Z;
  feedDec : Z;
  clampCount : Z;
  suspectedCount : Z;
  fixedCount : Z;
  worstJump : Z;
  worstJumpAt : option Z;
  suspected : option suspicion;
  retroSegments : list segment;
}.

Definition init : state := State None None None 0 0 0 0 0 0 None None [].

(** Has the clock come back: at least one hour from the jump, and past the
    line before the jump. *)
Definition returned (s : suspicion) (rawTs : Z) : bool :=
  let movedBackEnough :=
    if positive s then MIN_RETURN_HOURS * hour <=? firstJumpRawTs s - rawTs
    else MIN_RETURN_HOURS * hour <=? rawTs - firstJumpRawTs s in
  let crossedBaseline :=
    if positive s then rawTs <=? preJumpRawTs s else preJumpRawTs s <=? rawTs in
  movedBackEnough && crossedBaseline.

(** [Math.round(hourDiff)], within 1 and 14 *)
Definition roundedHours (s : suspicion) : Z :=
  Z.min MAX_TZ_OFFSET_HOURS (Z.max 1 ((jumpMs s + hour / 2) / hour)).

Definition segment_of (s : suspicion) (index : Z) : segment :=
  let sign := if positive s then -1 else 1 in
  Segment (startIndex s) (Z.max (startIndex s) (index - 1)) (sign * roundedHours s * hour).

(** Counting the direction of the feed. *)
Definition feed (st : state) (rawTs : Z) : state :=
  let inc := match lastFeedTs st with Some l => if l <? rawTs then 1 else 0 | None => 0 end in
  let dec := match lastFeedTs st with Some l => if rawTs <? l then 1 else 0 | None => 0 end in
  State (lastCorrected st) (lastRawTs st) (Some rawTs) (feedInc st + inc) (feedDec st + dec)
    (clampCount st) (suspectedCount st) (fixedCount st) (worstJump st) (worstJumpAt st)
    (suspected st) (retroSegments st).

(** Step 1: the end of a suspected segment is decided first. *)
Definition close_suspected (st : state) (rawTs index : Z) : state :=
  match suspected st with
  | Some s =>
      if returned s rawTs then
        State (lastCorrected st) (lastRawTs st) (lastFeedTs st) (feedInc st) (feedDec st)
          (clampCount st) (suspectedCount st) (fixedCount st + 1) (worstJump st) (worstJumpAt st)
          None (retroSegments st ++ [segment_of s index])
      else st
  | None => st
  end.

Definition set_last (st : state) (corrected rawTs : Z) : state :=
  State (Some corrected) (Some rawTs) (lastFeedTs st) (feedInc st) (feedDec st)
    (clampCount st) (suspectedCount st) (fixedCount st) (worstJump st) (worstJumpAt st)
    (suspected st) (retroSegments st).

(** Step 4: a jump of three hours or more opens a suspected segment, unless one
    is open. *)
Definition open_suspected (st : state) (prevRaw rawTs index : Z) : state :=
  match suspected st with
  | Some _ => st
  | None =>
      let diffMs := rawTs - prevRaw in
      let jump := Z.abs diffMs in
      let worse := worstJump st <? jump in
      State (lastCorrected st) (lastRawTs st) (lastFeedTs st) (feedInc st) (feedDec st)
        (clampCount st) (suspectedCount st + 1) (fixedCount st)
        (if worse then jump else worstJump st)
        (if worse then Some rawTs else worstJumpAt st)
        (Some (Suspicion index rawTs prevRaw (0 <? diffMs) jump))
        (retroSegments st)
  end.

(** Step 5: an outlier is put 1 ms below the previous line. *)
Definition clamp_line (st : state) (lastC rawTs : Z) : state * Z :=
  let clamped := lastC - 1 in
  (State (Some clamped) (Some rawTs) (lastFeedTs st) (feedInc st) (feedDec st)
     (clampCount st + 1) (suspectedCount st) (fixedCount st) (worstJump st) (worstJumpAt st)
     (suspected st) (retroSegments st), clamped).

Definition adjust (st0 : state) (rawTs index : Z) : state * Z :=
  let st := close_suspected (feed st0 rawTs) rawTs index in
  match lastCorrected st with
  | None => (set_last st rawTs rawTs, rawTs)
  | Some lc =>
      if rawTs <=? lc then (set_last st rawTs rawTs, rawTs)
      else
        match lastRawTs st with
        | Some lr =>
            if MIN_JUMP_HOURS * hour <=? Z.abs (rawTs - lr)
            then (set_last (open_suspected st lr rawTs index) rawTs rawTs, rawTs)
            else clamp_line st lc rawTs
        | None => clamp_line st lc rawTs
        end
  end.

(** [flushSummary()] resets the counters. *)
Definition flushSummary (st : state) : state :=
  State (lastCorrected st) (lastRawTs st) (lastFeedTs st) 0 0 0 0 0 0 None
    (suspected st) (retroSegments st).

(** [finalizeSuspected()]: an open segment is dropped. *)
Definition finalizeSuspected (st : state) : state * bool :=
  let had := match suspected st with Some _ => true | None => false end in
  (flushSummary
     (State (lastCorrected st) (lastRawTs st) (lastFeedTs st) (feedInc st) (feedDec st)
        (clampCount st) (suspectedCount st) (fixedCount st) (worstJump st) (worstJumpAt st)
        None (retroSegments st)), had).

Definition drainRetroSegments (st : state) : state * list segment :=
  (State (lastCorrected st) (lastRawTs st) (lastFeedTs st) (feedInc st) (feedDec st)
     (clampCount st) (suspectedCount st) (fixedCount st) (worstJump st) (worstJumpAt st)
     (suspected st) [], retroSegments st).

(** Feeding lines [index], [index + 1], ... *)
Fixpoint run (st : state) (index : Z) (raws : list Z) : state * list Z :=
  match raws with
  | [] => (st, [])
  | r :: rs =>
      let '(s1, c) := adjust st r index in
      let '(s2, cs) := run s1 (index + 1) rs in
      (s2, c :: cs)
  end.

End Tz.

(** ** [MonotonicCorrector] *)

Lemma mono_adjust_last s r : Mono.lastCorrected (Mono.adjust s r).1 = Some (Mono.adjust s r).2.
Proof. unfold Mono.adjust. repeat case_match; done. Qed.

Lemma mono_adjust_bound s r lc :
  Mono.lastCorrected s = Some lc -> (Mono.adjust s r).2 <= lc.
Proof. unfold Mono.adjust. intros ->. zcases; simpl; lia. Qed.

Lemma mono_run_cons s r rs :
  Mono.run s (r :: rs) =
  ((Mono.run (Mono.adjust s r).1 rs).1, (Mono.adjust s r).2 :: (Mono.run (Mono.adjust s r).1 rs).2).
Proof. simpl. destruct (Mono.adjust s r) as [s1 c]. simpl. by destruct (Mono.run s1 rs). Qed.

Lemma mono_run_below s rs lc :
  Mono.lastCorrected s = Some lc -> Forall (fun c => c <= lc) (Mono.run s rs).2.
Proof.
  revert s lc. induction rs as [|r rs IH]; intros s lc Hlc; [constructor|].
  rewrite mono_run_cons. simpl. pose proof (mono_adjust_bound s r lc Hlc).
  constructor; [done|]. eapply Forall_impl; [eapply IH, mono_adjust_last|]. simpl. lia.
Qed.

Lemma mono_run_sorted s rs : StronglySorted (desc_by id) (Mono.run s rs).2.
Proof.
  revert s. induction rs as [|r rs IH]; intros s; [constructor|].
  rewrite mono_run_cons. simpl. constructor; [apply IH|].
  apply mono_run_below. apply mono_adjust_last.
Qed.

Lemma mono_run_length s rs : length (Mono.run s rs).2 = length rs.
Proof. revert s. induction rs; intros s; [done|]. rewrite mono_run_cons. simpl. by rewrite IHrs. Qed.

Lemma mono_run_app s xs ys :
  Mono.run s (xs ++ ys) =
  ((Mono.run (Mono.run s xs).1 ys).1, (Mono.run s xs).2 ++ (Mono.run (Mono.run s xs).1 ys).2).
Proof.
  revert s. induction xs as [|x xs IH]; intros s; cbn [app].
  - simpl. by destruct (Mono.run s ys).
  - rewrite !mono_run_cons, IH. done.
Qed.

#[local] Arguments Mono.run : simpl never.
#[local] Arguments Mono.adjust : simpl never.

(** Within one run of lines that are already newest first, every line moves by
    the same offset. *)
Lemma mono_run_desc s rs off :
  Mono.granularityMs s = 1 -> Mono.globalOffsetMs s = off ->
  StronglySorted (desc_by id) rs ->
  (forall lc r, Mono.lastCorrected s = Some lc -> r ∈ rs -> r + off <= lc) ->
  (Mono.run s rs).2 = map (fun r => r + off) rs /\
  Mono.globalOffsetMs (Mono.run s rs).1 = off /\ Mono.granularityMs (Mono.run s rs).1 = 1 /\
  Mono.lastCorrected (Mono.run s rs).1 =
    match last rs with Some r => Some (r + off) | None => Mono.lastCorrected s end /\
  Mono.shiftCount (Mono.run s rs).1 = Mono.shiftCount s /\
  Mono.clampCount (Mono.run s rs).1 = Mono.clampCount s.
Proof.
  intros Hg Ho Hs. revert s Hg Ho. induction Hs as [|r rs Hs IH Hr]; intros s Hg Ho Hb; [done|].
  assert (Mono.adjust s r = (Mono.State (Some (r + off)) (Mono.clampCount s) (Mono.shiftCount s)
    (Mono.worstShift s) (Mono.worstShiftAt s) off 1, r + off)) as Hadj.
  { unfold Mono.adjust. rewrite Hg, Ho. simpl Z.max. rewrite Z.div_1_r, Z.mul_1_r, Z.eqb_refl.
    destruct (Mono.lastCorrected s) as [lc|] eqn:El; [|done].
    assert (r + off <= lc) by (apply Hb; [done|left]).
    by destruct (Z.ltb_spec lc (r + off)); [lia|]. }
  rewrite mono_run_cons, Hadj. simpl.
  destruct (IH (Mono.State (Some (r + off)) (Mono.clampCount s) (Mono.shiftCount s)
    (Mono.worstShift s) (Mono.worstShiftAt s) off 1)) as (E1 & E2 & E3 & E4 & E5 & E6); [done..| |].
  { simpl. intros lc r' [= <-] Hin. rewrite Forall_forall in Hr.
    specialize (Hr r' Hin). unfold desc_by, id in Hr. lia. }
  rewrite E1, E2, E3, E4, E5, E6. split_and!; auto. rewrite last_cons. by destruct (last rs).
Qed.

(** whatever timestamps the lines carry, the corrected ones are newest
    first: no line is later than the line before it. *)
Theorem mono_output_desc g rs : StronglySorted (desc_by id) (Mono.run (Mono.init g) rs).2.
Proof. apply mono_run_sorted. Qed.

(** on lines that are already newest first the corrector changes nothing
    and counts nothing. *)
Theorem mono_identity_on_desc rs :
  StronglySorted (desc_by id) rs ->
  (Mono.run (Mono.init 1) rs).2 = rs /\
  Mono.clampCount (Mono.run (Mono.init 1) rs).1 = 0 /\
  Mono.shiftCount (Mono.run (Mono.init 1) rs).1 = 0.
Proof.
  intros Hs. destruct (mono_run_desc (Mono.init 1) rs 0) as (E1 & _ & _ & _ & E5 & E6); [done..|].
  rewrite E1, E5, E6. split_and!; [apply map_add_0|done..].
Qed.

Lemma mono_identity_on_desc_witness : (Mono.run (Mono.init 1) [9; 7; 7; 2]).2 = [9; 7; 7; 2].
Proof.
  apply mono_identity_on_desc. repeat constructor; unfold desc_by, id; lia.
Defined.

(** one clock jump.  When the lines, newest first, jump to a later time by
    more than 1.5 s and are in order before and after it, the older part is
    moved as a block onto the last line of the newer part: its spacing is kept. *)
Theorem mono_one_jump xs x y ys :
  StronglySorted (desc_by id) (xs ++ [x]) -> StronglySorted (desc_by id) (y :: ys) ->
  Mono.SMALL_DELTA_MS < y - x ->
  (Mono.run (Mono.init 1) (xs ++ [x] ++ y :: ys)).2 =
    xs ++ [x] ++ map (fun r => r - (y - x)) (y :: ys).
Proof.
  intros H1 H2 Hj. rewrite app_assoc, mono_run_app.
  destruct (mono_run_desc (Mono.init 1) (xs ++ [x]) 0) as (E1 & E2 & E3 & E4 & _); [done..|].
  simpl. rewrite E1. rewrite last_snoc, Z.add_0_r in E4.
  set (s1 := (Mono.run (Mono.init 1) (xs ++ [x])).1) in *.
  rewrite mono_run_cons. simpl.
  assert ((Mono.adjust s1 y).2 = x /\ Mono.globalOffsetMs (Mono.adjust s1 y).1 = x - y /\
    Mono.granularityMs (Mono.adjust s1 y).1 = 1) as (A1 & A2 & A3).
  { unfold Mono.adjust. rewrite E4, E2, E3. simpl Z.max. rewrite Z.div_1_r, Z.mul_1_r, Z.add_0_r.
    unfold Mono.SMALL_DELTA_MS in *. zcases; simpl; lia. }
  pose proof (mono_adjust_last s1 y) as A4. rewrite A1 in A4.
  apply StronglySorted_inv in H2 as [H2 H2y].
  destruct (mono_run_desc (Mono.adjust s1 y).1 ys (x - y)) as (E & _); [done..| |].
  { intros lc r Hlc Hin. rewrite A4 in Hlc. simplify_eq. rewrite Forall_forall in H2y.
    specialize (H2y r Hin). unfold desc_by, id in H2y. lia. }
  rewrite E, A1, map_add_0, <- app_assoc. cbn [app map]. f_equal. f_equal. f_equal; [lia|].
  apply map_ext. intros; lia.
Qed.

Lemma mono_one_jump_witness :
  (Mono.run (Mono.init 1) [90; 50; 10050; 10020]).2 = [90; 50; 50; 20].
Proof.
  apply (mono_one_jump [90] 50 10050 [10020]);
    [repeat constructor; unfold desc_by, id; lia..|done].
Defined.

(** The offset only ever moves lines back in time. *)
Definition mono_inv (s : Mono.state) : Prop :=
  Mono.globalOffsetMs s <= 0 /\ 0 <= Mono.clampCount s /\ 0 <= Mono.shiftCount s /\
  0 <= Mono.worstShift s /\ (0 < Mono.worstShift s -> Mono.worstShift s > Mono.SMALL_DELTA_MS).

Lemma mono_adjust_inv s r :
  mono_inv s -> mono_inv (Mono.adjust s r).1 /\ (Mono.adjust s r).2 <= r.
Proof.
  intros (H1 & H2 & H3 & H4 & H5). unfold Mono.adjust, mono_inv, Mono.SMALL_DELTA_MS in *.
  assert (r / Z.max 1 (Mono.granularityMs s) * Z.max 1 (Mono.granularityMs s) <= r) as Hfl.
  { pose proof (Z.mul_div_le r (Z.max 1 (Mono.granularityMs s))). lia. }
  destruct (Mono.lastCorrected s) as [lc|]; zcases; simpl; split_and!; try lia.
Qed.

(** the corrector never moves a line forward in time, and its counters and
    offset keep their signs, whatever is fed to it. *)
Theorem mono_never_forward g rs :
  Forall2 (fun r c => c <= r) rs (Mono.run (Mono.init g) rs).2 /\
  mono_inv (Mono.run (Mono.init g) rs).1.
Proof.
  assert (mono_inv (Mono.init g)) as Hi by (repeat split; simpl; lia). revert Hi.
  generalize (Mono.init g) as s. induction rs as [|r rs IH]; intros s Hs; [by split|].
  destruct (mono_adjust_inv s r Hs) as [Hs' Hle].
  destruct (IH _ Hs') as [Hf Hi]. rewrite mono_run_cons. split; [by constructor|done].
Qed.

(** ** [TimezoneCorrector] *)

Definition seg_ok (n : Z) (g : Tz.segment) : Prop :=
  0 <= Tz.seg_start g <= Tz.seg_end g /\ Tz.seg_end g < n /\
  exists h, 1 <= h <= Tz.MAX_TZ_OFFSET_HOURS /\
    (Tz.deltaMs g = h * hour \/ Tz.deltaMs g = - h * hour).

(** What holds before line [n] is fed. *)
Record tz_inv (n : Z) (st : Tz.state) : Prop := {
  inv_segs : Forall (seg_ok n) (Tz.retroSegments st);
  inv_disjoint :
    StronglySorted (fun a b => Tz.seg_end a < Tz.seg_start b) (Tz.retroSegments st);
  inv_susp : forall s, Tz.suspected st = Some s ->
    0 <= Tz.startIndex s < n /\ Tz.MIN_JUMP_HOURS * hour <= Tz.jumpMs s /\
    Tz.jumpMs s = Z.abs (Tz.firstJumpRawTs s - Tz.preJumpRawTs s) /\
    Tz.positive s = (0 <? Tz.firstJumpRawTs s - Tz.preJumpRawTs s) /\
    Forall (fun g => Tz.seg_end g < Tz.startIndex s) (Tz.retroSegments st);
}.

Lemma roundedHours_range s : 1 <= Tz.roundedHours s <= Tz.MAX_TZ_OFFSET_HOURS.
Proof. unfold Tz.roundedHours, Tz.MAX_TZ_OFFSET_HOURS. lia. Qed.

Lemma seg_ok_mono n m g : n <= m -> seg_ok n g -> seg_ok m g.
Proof. intros ? (? & ? & ?). split_and!; auto; lia. Qed.

Lemma tz_close_inv n st raw :
  tz_inv n st -> tz_inv n (Tz.close_suspected st raw n).
Proof.
  intros Hinv. pose proof Hinv as [H1 H2 H3]. unfold Tz.close_suspected.
  destruct (Tz.suspected st) as [s|] eqn:Es; [|done].
  destruct (Tz.returned s raw); [|done].
  destruct (H3 s eq_refl) as (Hs1 & _ & _ & _ & Hs2).
  assert (Tz.seg_end (Tz.segment_of s n) = n - 1) as He by (simpl; lia).
  split; simpl; [| |done].
  - apply Forall_app. split; [done|]. constructor; [|done].
    pose proof (roundedHours_range s). split_and!; [simpl; lia..|].
    exists (Tz.roundedHours s). split; [done|]. simpl. destruct (Tz.positive s); lia.
  - apply StronglySorted_app_2; [|done|by repeat constructor].
    intros a b Ha Hb. apply list_elem_of_singleton in Hb as ->.
    rewrite Forall_forall in Hs2. by apply Hs2.
Qed.

Lemma tz_feed_inv n st raw : tz_inv n st -> tz_inv n (Tz.feed st raw).
Proof. intros [H1 H2 H3]. split; assumption. Qed.

Lemma tz_inv_weaken n m st : n <= m -> tz_inv n st -> tz_inv m st.
Proof.
  intros Hnm [H1 H2 H3]. split; [|done|].
  - eapply Forall_impl; [exact H1|]. intros; by eapply seg_ok_mono.
  - intros s Hs. destruct (H3 s Hs) as (? & ? & ? & ? & ?). split_and!; auto; lia.
Qed.

(** The invariant reads only the open segment and the closed ones. *)
Lemma tz_inv_ext n st st' :
  tz_inv n st -> Tz.suspected st' = Tz.suspected st ->
  Tz.retroSegments st' = Tz.retroSegments st -> tz_inv n st'.
Proof. intros [H1 H2 H3] Es Er. split; rewrite ?Er, ?Es; auto. Qed.

Lemma tz_open_inv n st lr raw :
  0 <= n -> Tz.MIN_JUMP_HOURS * hour <= Z.abs (raw - lr) ->
  tz_inv n st -> tz_inv (n + 1) (Tz.open_suspected st lr raw n).
Proof.
  intros Hn Hj Hinv. unfold Tz.open_suspected.
  destruct (Tz.suspected st) eqn:Es; [eapply tz_inv_weaken; [|done]; lia|].
  apply (tz_inv_weaken n (n + 1)) in Hinv as Hinv'; [|lia]. destruct Hinv as [H1 _ _].
  destruct Hinv' as [H1' H2' _]. split; [done|done|].
  intros s [= <-]. simpl. split_and!; try lia; try done.
  eapply Forall_impl; [exact H1|]. intros g (? & ? & _). lia.
Qed.

Lemma tz_adjust_inv n st raw :
  0 <= n -> tz_inv n st -> tz_inv (n + 1) (Tz.adjust st raw n).1.
Proof.
  intros Hn Hinv. unfold Tz.adjust.
  assert (tz_inv n (Tz.close_suspected (Tz.feed st raw) raw n)) as Hc
    by (by apply tz_close_inv, tz_feed_inv).
  set (st1 := Tz.close_suspected (Tz.feed st raw) raw n) in *.
  assert (tz_inv (n + 1) st1) as Hc' by (eapply tz_inv_weaken; [|done]; lia).
  destruct (Tz.lastCorrected st1) as [lc|]; [|by eapply tz_inv_ext].
  destruct (raw <=? lc); [by eapply tz_inv_ext|].
  destruct (Tz.lastRawTs st1) as [lr|]; [|by eapply tz_inv_ext].
  destruct (Z.leb_spec (Tz.MIN_JUMP_HOURS * hour) (Z.abs (raw - lr))); [|by eapply tz_inv_ext].
  eapply tz_inv_ext; [by eapply tz_open_inv|done..].
Qed.

Lemma tz_run_cons st i r rs :
  Tz.run st i (r :: rs) =
  ((Tz.run (Tz.adjust st r i).1 (i + 1) rs).1,
   (Tz.adjust st r i).2 :: (Tz.run (Tz.adjust st r i).1 (i + 1) rs).2).
Proof. simpl. destruct (Tz.adjust st r i) as [s1 c]. simpl. by destruct (Tz.run s1 (i + 1) rs). Qed.

Lemma tz_run_inv n st rs : 0 <= n -> tz_inv n st -> tz_inv (n + zlen rs) (Tz.run st n rs).1.
Proof.
  revert n st. induction rs as [|r rs IH]; intros n st Hn Hinv.
  - unfold zlen; simpl. by rewrite Z.add_0_r.
  - rewrite tz_run_cons. simpl. replace (n + zlen (r :: rs)) with (n + 1 + zlen rs).
    + apply IH; [lia|]. by apply tz_adjust_inv.
    + unfold zlen; simpl length. lia.
Qed.

Lemma tz_run_app st i xs ys :
  Tz.run st i (xs ++ ys) =
  ((Tz.run (Tz.run st i xs).1 (i + zlen xs) ys).1,
   (Tz.run st i xs).2 ++ (Tz.run (Tz.run st i xs).1 (i + zlen xs) ys).2).
Proof.
  revert st i. induction xs as [|x xs IH]; intros st i; cbn [app].
  - unfold zlen. simpl. rewrite Z.add_0_r. by destruct (Tz.run st i ys).
  - rewrite !tz_run_cons, IH. simpl. replace (i + 1 + zlen xs) with (i + zlen (x :: xs)); [done|].
    unfold zlen; simpl length. lia.
Qed.

#[local] Arguments Tz.run : simpl never.
#[local] Arguments Tz.adjust : simpl never.

(** for every feed, the segments to correct lie within the lines fed, do
    not overlap, come in order, and each shifts its lines by a whole number of
    hours between one and fourteen. *)
Theorem tz_segments_well_formed rs :
  Forall (seg_ok (zlen rs)) (Tz.retroSegments (Tz.run Tz.init 0 rs).1) /\
  StronglySorted (fun a b => Tz.seg_end a < Tz.seg_start b)
    (Tz.retroSegments (Tz.run Tz.init 0 rs).1).
Proof.
  assert (tz_inv 0 Tz.init) as Hi by (split; simpl; [constructor|constructor|done]).
  destruct (tz_run_inv 0 Tz.init rs ltac:(lia) Hi) as [H1 H2 _]. done.
Qed.

(** A line that continues the order, with no return from an open segment. *)
Lemma tz_adjust_step st raw i :
  match Tz.suspected st with Some s => Tz.returned s raw = false | None => True end ->
  match Tz.lastCorrected st with Some lc => raw <= lc | None => True end ->
  (Tz.adjust st raw i).2 = raw /\
  Tz.lastCorrected (Tz.adjust st raw i).1 = Some raw /\
  Tz.lastRawTs (Tz.adjust st raw i).1 = Some raw /\
  Tz.suspected (Tz.adjust st raw i).1 = Tz.suspected st /\
  Tz.retroSegments (Tz.adjust st raw i).1 = Tz.retroSegments st.
Proof.
  intros Hs Hl. unfold Tz.adjust, Tz.close_suspected. cbn [Tz.feed Tz.suspected].
  destruct (Tz.suspected st) as [s|] eqn:Es; [rewrite Hs|];
    cbn [Tz.feed Tz.lastCorrected Tz.lastRawTs];
    (destruct (Tz.lastCorrected st) as [lc|]; [destruct (Z.leb_spec raw lc); [|lia]|]);
    simpl; rewrite ?Es; done.
Qed.

Lemma tz_run_desc st rs i :
  StronglySorted (desc_by id) rs ->
  (forall r lc, r ∈ rs -> Tz.lastCorrected st = Some lc -> r <= lc) ->
  (forall r s, r ∈ rs -> Tz.suspected st = Some s -> Tz.returned s r = false) ->
  (Tz.run st i rs).2 = rs /\
  Tz.suspected (Tz.run st i rs).1 = Tz.suspected st /\
  Tz.retroSegments (Tz.run st i rs).1 = Tz.retroSegments st /\
  Tz.lastCorrected (Tz.run st i rs).1 =
    match last rs with Some r => Some r | None => Tz.lastCorrected st end /\
  Tz.lastRawTs (Tz.run st i rs).1 =
    match last rs with Some r => Some r | None => Tz.lastRawTs st end.
Proof.
  intros Hs. revert st i. induction Hs as [|r rs Hs IH Hr]; intros st i Hlc Hsu; [done|].
  rewrite tz_run_cons. simpl.
  destruct (tz_adjust_step st r i) as (A1 & A2 & A3 & A4 & A5).
  { destruct (Tz.suspected st) eqn:E; [|done]. eapply Hsu; [left|done]. }
  { destruct (Tz.lastCorrected st) eqn:E; [|done]. eapply Hlc; [left|done]. }
  rewrite Forall_forall in Hr.
  destruct (IH (Tz.adjust st r i).1 (i + 1)) as (B1 & B2 & B3 & B4 & B5).
  { intros r' lc Hin. rewrite A2. intros [= <-]. by apply Hr. }
  { intros r' s Hin. rewrite A4. intros. eapply Hsu; [by right|done]. }
  rewrite B1, B2, B3, B4, B5, A1, A2, A3, A4, A5, last_cons. by destruct (last rs).
Qed.

(** A jump opens a segment; the first line back below it closes it. *)
Lemma tz_adjust_jump st x y i :
  Tz.suspected st = None -> Tz.lastCorrected st = Some x -> Tz.lastRawTs st = Some x ->
  Tz.MIN_JUMP_HOURS * hour <= y - x ->
  (Tz.adjust st y i).2 = y /\
  Tz.lastCorrected (Tz.adjust st y i).1 = Some y /\
  Tz.suspected (Tz.adjust st y i).1 = Some (Tz.Suspicion i y x true (y - x)) /\
  Tz.retroSegments (Tz.adjust st y i).1 = Tz.retroSegments st.
Proof.
  intros Hs Hc Hr Hj. unfold Tz.MIN_JUMP_HOURS, hour in Hj.
  unfold Tz.adjust, Tz.close_suspected. cbn [Tz.feed Tz.suspected]. rewrite Hs.
  cbn [Tz.feed Tz.lastCorrected Tz.lastRawTs]. rewrite Hc, Hr.
  unfold Tz.MIN_JUMP_HOURS, hour.
  destruct (Z.leb_spec y x); [lia|]. destruct (Z.leb_spec (3 * 3600000) (Z.abs (y - x))); [|lia].
  unfold Tz.open_suspected. cbn [Tz.feed Tz.suspected]. rewrite Hs. simpl.
  split_and!; try done. do 2 f_equal; [|lia]. by destruct (Z.ltb_spec 0 (y - x)); [|lia].
Qed.

Lemma tz_adjust_return st s lc z i :
  Tz.suspected st = Some s -> Tz.returned s z = true ->
  Tz.lastCorrected st = Some lc -> z <= lc ->
  (Tz.adjust st z i).2 = z /\
  Tz.lastCorrected (Tz.adjust st z i).1 = Some z /\
  Tz.suspected (Tz.adjust st z i).1 = None /\
  Tz.retroSegments (Tz.adjust st z i).1 = Tz.retroSegments st ++ [Tz.segment_of s i].
Proof.
  intros Hs Hret Hc Hle. unfold Tz.adjust, Tz.close_suspected.
  cbn [Tz.feed Tz.suspected]. rewrite Hs, Hret. cbn [Tz.feed Tz.lastCorrected]. rewrite Hc.
  by destruct (Z.leb_spec z lc); [|lia].
Qed.


