(* ===== verification/Stitcher.v ===== *)
(** * Year rollover of formats without a year

    [YearlessStitcher] of src/core/logs/LogFileIntegration.ts: the lines of one
    type come newest first; a line whose header has no year was read with the
    year of the host clock, and is moved back by whole years until it is not
    later than the lines before it.  A small inversion (same second, or at most
    1.5 s) only lowers that one line. *)

From stdpp Require Import base list sorting.
From Stdlib Require Import ZArith Lia.
From S2P Require Import Prelude JsDate.

Definition JITTER_TOLERANCE_MS : Z := 1500.

Record stitcher := Stitcher { shiftYears : Z; st_last : option Z }.

Definition stitcher_init : stitcher := Stitcher 0 None.

(** [shiftByYears(ts, years)] *)
Definition shiftByYears (ts years : Z) : Z :=
  if years =? 0 then ts
  else date_utc (utc_year ts + years) (utc_month ts) (utc_date ts)
         (utc_hours ts) (utc_minutes ts) (utc_seconds ts) (utc_ms ts).

(** [while (corrected > this.last) { this.shiftYears -= 1; ... }]; [None] when
    the fuel runs out. *)
Fixpoint shift_loop (fuel : nat) (ts lst sh corrected : Z) : option (Z * Z) :=
  if lst <? corrected then
    match fuel with
    | O => None
    | S f => shift_loop f ts lst (sh - 1) (shiftByYears ts (sh - 1))
    end
  else Some (sh, corrected).

(** Every step goes back 365 days at least. *)
Definition shift_fuel (corrected lst : Z) : nat :=
  Z.to_nat ((corrected - lst) / (365 * ms_per_day) + 1).

Definition stitch_apply (s : stitcher) (ts : Z) (isYearless : bool) : option (stitcher * Z) :=
  if negb isYearless then
    if ts <=? 0 then Some (s, ts)
    else Some (Stitcher (shiftYears s)
                 (Some (match st_last s with None => ts | Some l => Z.min l ts end)), ts)
  else
    let corrected := shiftByYears ts (shiftYears s) in
    match st_last s with
    | None => Some (Stitcher (shiftYears s) (Some corrected), corrected)
    | Some l =>
        if l <? corrected then
          let delta := corrected - l in
          let sameSecond := corrected / 1000 =? l / 1000 in
          if sameSecond || (delta <=? JITTER_TOLERANCE_MS) then
            Some (Stitcher (shiftYears s) (Some (l - 1)), l - 1)
          else
            match shift_loop (shift_fuel corrected l) ts l (shiftYears s) corrected with
            | Some (sh, c) => Some (Stitcher sh (Some c), c)
            | None => None
            end
        else Some (Stitcher (shiftYears s) (Some corrected), corrected)
    end.

(** The lines of a type, newest first, with their classification. *)
Fixpoint stitch_run (s : stitcher) (lines : list (Z * bool)) : option (stitcher * list Z) :=
  match lines with
  | [] => Some (s, [])
  | (ts, y) :: rest =>
      match stitch_apply s ts y with
      | None => None
      | Some (s1, c) =>
          match stitch_run s1 rest with
          | None => None
          | Some (s2, cs) => Some (s2, c :: cs)
          end
      end
  end.

(** The start of year 101: below it [Date.UTC] reads two-digit years. *)
Definition year_101 : Z := day_from_year 101 * ms_per_day.

(** ** Moving by years *)

(** The time value of the fields of [ts] in year [y], without the two-digit
    rule. *)
Definition in_year (ts y : Z) : Z :=
  make_day y (utc_month ts) (utc_date ts) * ms_per_day + time_within_day ts.

Lemma shiftByYears_in_year ts k :
  100 <= utc_year ts + k -> k <> 0 -> shiftByYears ts k = in_year ts (utc_year ts + k).
Proof.
  intros Hy Hk. unfold shiftByYears. destruct (Z.eqb_spec k 0); [done|].
  unfold date_utc, in_year. by rewrite time_parts, make_full_year_id.
Qed.

Lemma in_year_self ts : in_year ts (utc_year ts) = ts.
Proof. apply make_day_fields. Qed.

Lemma shiftByYears_eq ts k :
  100 <= utc_year ts + k -> 100 <= utc_year ts ->
  shiftByYears ts k = in_year ts (utc_year ts + k).
Proof.
  intros H1 H2. destruct (decide (k = 0)) as [->|Hk]; [|by apply shiftByYears_in_year].
  by rewrite Z.add_0_r, in_year_self.
Qed.

Lemma in_year_prev ts y :
  in_year ts y - 366 * ms_per_day <= in_year ts (y - 1) <= in_year ts y - 365 * ms_per_day.
Proof.
  pose proof (utc_fields_range ts) as (Hm & _).
  pose proof (make_day_prev_year y (utc_month ts) (utc_date ts) Hm). unfold in_year, ms_per_day. lia.
Qed.

(** The time value of year [y] lies in year [y] or on its last day boundary. *)
Lemma in_year_range ts y : in_year ts y < day_from_year (y + 1) * ms_per_day.
Proof.
  pose proof (utc_fields_range ts) as (Hm & Hd & _).
  assert (0 <= time_within_day ts < ms_per_day) by (by apply Z.mod_pos_bound).
  unfold in_year. rewrite make_day_in_range by done.
  assert (month_start (is_leap y) (utc_month ts) + utc_date ts <= (if is_leap y then 366 else 365)).
  { pose proof (utc_yday_range ts) as Hy. unfold utc_date in *.
    set (m := utc_month ts) in *. rewrite (month_start_leap (is_leap y)) by lia.
    rewrite (month_start_leap (is_leap (utc_year ts))) in * by lia.
    destruct (Z.leb_spec 2 m), (is_leap y), (is_leap (utc_year ts)); cbn [andb] in *; try lia;
      (assert (m = 0 \/ m = 1) as [Hm0|Hm0] by lia); rewrite Hm0 in *; cbn in *; lia. }
  rewrite day_from_year_succ. unfold ms_per_day in *. lia.
Qed.

Lemma above_baseline_year ts y : year_101 <= in_year ts y -> 101 <= y.
Proof.
  intros H. pose proof (in_year_range ts y) as H'. unfold year_101 in H.
  assert (day_from_year 101 < day_from_year (y + 1)) by (unfold ms_per_day in *; lia).
  destruct (Z_lt_le_dec y 101); [|done].
  pose proof (day_from_year_mono (y + 1) 101). lia.
Qed.

(** ** The loop ends, at the first year that fits *)

Lemma shift_loop_spec fuel ts lst sh :
  100 <= utc_year ts -> 100 <= utc_year ts + sh -> year_101 <= lst ->
  let c := shiftByYears ts sh in
  c - lst <= Z.of_nat fuel * (365 * ms_per_day) ->
  exists k, 0 <= k /\ shift_loop fuel ts lst sh c = Some (sh - k, shiftByYears ts (sh - k)) /\
    shiftByYears ts (sh - k) <= lst /\
    (forall j, 0 <= j < k -> lst < shiftByYears ts (sh - j)) /\
    100 <= utc_year ts + (sh - k).
Proof.
  intros Hts. revert sh. induction fuel as [|f IH]; intros sh Hsh Hl c Hf.
  - exists 0. rewrite Z.sub_0_r. simpl. fold c.
    destruct (Z.ltb_spec lst c); [lia|]. split_and!; auto; lia.
  - cbn [shift_loop]. destruct (Z.ltb_spec lst c) as [Hgt|Hle].
    + unfold c in Hgt, Hf. rewrite shiftByYears_eq in Hgt, Hf by done.
      assert (101 <= utc_year ts + sh) by (eapply (above_baseline_year ts); lia).
      pose proof (in_year_prev ts (utc_year ts + sh)) as Hp.
      destruct (IH (sh - 1)) as (k & Hk & E & Hfit & Hmin & Hy); [lia|done| |].
      { cbn zeta. rewrite shiftByYears_eq by lia.
        replace (utc_year ts + (sh - 1)) with (utc_year ts + sh - 1) by lia.
        rewrite Nat2Z.inj_succ in Hf. unfold ms_per_day in *. lia. }
      exists (k + 1). replace (sh - (k + 1)) with (sh - 1 - k) by lia.
      split_and!; [lia|done|done| |done].
      intros j Hj. destruct (decide (j = 0)) as [->|].
      * rewrite Z.sub_0_r, shiftByYears_eq by lia. done.
      * replace (sh - j) with (sh - 1 - (j - 1)) by lia. apply Hmin. lia.
    + exists 0. rewrite Z.sub_0_r. split_and!; auto; lia.
Qed.

Lemma shift_fuel_enough c l : l < c -> c - l <= Z.of_nat (shift_fuel c l) * (365 * ms_per_day).
Proof.
  intros H. unfold shift_fuel, ms_per_day.
  pose proof (Z.div_pos (c - l) (365 * 86400000)). rewrite Z2Nat.id by lia.
  pose proof (Z.div_mod (c - l) (365 * 86400000)).
  pose proof (Z.mod_pos_bound (c - l) (365 * 86400000)). lia.
Qed.

(** Every line of the run is in a year of at least three digits. *)
Definition stitch_ok (s : stitcher) (ts : Z) : Prop :=
  100 <= utc_year ts /\ 100 <= utc_year ts + shiftYears s /\
  match st_last s with Some l => year_101 <= l | None => True end.

(** a line without a year always gets a timestamp (the year loop ends), it
    is not later than the baseline, and when it is moved by years it is moved
    by the smallest number of years that puts it at or before the baseline. *)
Theorem stitch_rollover s ts l :
  stitch_ok s ts -> st_last s = Some l ->
  exists s' c, stitch_apply s ts true = Some (s', c) /\ c <= l /\ st_last s' = Some c /\
    (shiftYears s' = shiftYears s \/
     (c = shiftByYears ts (shiftYears s') /\ shiftYears s' < shiftYears s /\
      forall k, shiftYears s' < k <= shiftYears s -> l < shiftByYears ts k)).
Proof.
  intros (H1 & H2 & H3) Hl. rewrite Hl in H3. unfold stitch_apply. simpl. rewrite Hl.
  destruct (Z.ltb_spec l (shiftByYears ts (shiftYears s))) as [Hgt|Hle].
  2: { do 2 eexists. split; [done|]. simpl. auto. }
  destruct (_ || _).
  { do 2 eexists. split; [done|]. simpl. split_and!; auto. lia. }
  destruct (shift_loop_spec (shift_fuel (shiftByYears ts (shiftYears s)) l) ts l (shiftYears s))
    as (k & Hk & -> & Hfit & Hmin & _); [done..|by apply shift_fuel_enough|].
  do 2 eexists. split; [done|]. simpl. split_and!; [done|done|].
  destruct (decide (k = 0)) as [->|]; [left; lia|right]. split_and!; [done|lia|].
  intros j Hj. replace j with (shiftYears s - (shiftYears s - j)) by lia. apply Hmin. lia.
Qed.

Lemma stitch_rollover_witness :
  exists s' c, stitch_apply (Stitcher 0 (Some 1704067200000)) 1735603200000 true = Some (s', c) /\
    c <= 1704067200000.
Proof.
  destruct (stitch_rollover (Stitcher 0 (Some 1704067200000)) 1735603200000 1704067200000)
    as (s' & c & H & Hc & _); [vm_compute; repeat split; discriminate|done|].
  exists s', c. split; [exact H|exact Hc].
Defined.

(** ** Runs *)

Lemma stitch_apply_yearless_le s ts s' c l :
  stitch_apply s ts true = Some (s', c) -> st_last s = Some l -> c <= l.
Proof.
  unfold stitch_apply. simpl. intros H Hl. rewrite Hl in H.
  destruct (Z.ltb_spec l (shiftByYears ts (shiftYears s))); [|simplify_eq; lia].
  destruct (_ || _); [simplify_eq; lia|].
  destruct (shift_loop _ _ _ _ _) as [[sh c']|] eqn:E; [|done]. simplify_eq.
  assert (forall fuel sh0 c0, shift_loop fuel ts l sh0 c0 = Some (sh, c) -> c <= l) as Hgen.
  { induction fuel as [|f IH]; intros sh0 c0; simpl;
      destruct (Z.ltb_spec l c0); intros; simplify_eq; eauto. }
  eauto.
Qed.

Lemma stitch_apply_last s ts y s' c :
  stitch_apply s ts y = Some (s', c) ->
  (y = true -> st_last s' = Some c) /\
  (forall l, st_last s = Some l -> exists l', st_last s' = Some l' /\ l' <= l) /\
  (y = false -> 0 < c -> exists l', st_last s' = Some l' /\ l' <= c).
Proof.
  intros H. destruct y.
  - split_and!; [| |done].
    + intros _. unfold stitch_apply in H. simpl in H. repeat case_match; simplify_eq; done.
    + intros l Hl. exists c. split; [|by eapply stitch_apply_yearless_le].
      unfold stitch_apply in H. simpl in H. repeat case_match; simplify_eq; done.
  - unfold stitch_apply in H. simpl in H.
    destruct (Z.leb_spec ts 0); simplify_eq; (split_and!; [done|..]); simpl.
    + intros l Hl. exists l. split; [done|lia].
    + intros; lia.
    + intros l Hl. rewrite Hl. eexists; split; [done|]. lia.
    + intros _ _. destruct (st_last s); eexists; (split; [done|]); lia.
Qed.

Lemma stitch_run_below s lines s' out l j tj cj :
  stitch_run s lines = Some (s', out) -> st_last s = Some l ->
  lines !! j = Some (tj, true) -> out !! j = Some cj -> cj <= l.
Proof.
  revert s out l j. induction lines as [|[t y] lines IH]; intros s out l j Hrun Hl Hj Hc; [done|].
  simpl in Hrun. destruct (stitch_apply s t y) as [[s1 c]|] eqn:Ea; [|done].
  destruct (stitch_run s1 lines) as [[s2 cs]|] eqn:Er; [|done]. simplify_eq.
  destruct (stitch_apply_last _ _ _ _ _ Ea) as (_ & Hlast & _).
  destruct (Hlast l Hl) as (l' & Hl' & Hle). destruct j as [|j]; simplify_eq/=.
  - by eapply stitch_apply_yearless_le.
  - transitivity l'; [by eapply IH|done].
Qed.



(** 29 February is not kept by the year shift: moved to a year that is not
    a leap year it becomes 1 March. *)
Theorem shift_feb29 :
  let feb29 := date_utc 2024 1 29 12 0 0 0 in
  utc_month (shiftByYears feb29 (-1)) = 2 /\ utc_date (shiftByYears feb29 (-1)) = 1.
Proof. vm_compute. auto. Qed.
