(* ===== verification/LineReaders.v ===== *)
(** * Line readers

    The readers of src/core/logs/LogFileIntegration.ts: [ReverseLineReader]
    reads a log file from its end in chunks of bytes and returns its lines last
    first; [ForwardLineReader] splits a stream of text chunks into lines as they
    arrive, while its consumer takes lines from a queue; [countLinesInFile]
    counts line ends in a stream of byte chunks.  A file is the list of its
    bytes; how the system cuts it into chunks is an argument. *)

From stdpp Require Import base list.
From Stdlib Require Import ZArith Lia.
From S2P Require Import Prelude JsString.

(** ** [ReverseLineReader] *)

Record rev_reader := RevReader {
  rr_open : bool;             (* fh !== null *)
  rr_pos : nat;
  rr_buffer : str;
  rr_bomStripped : bool;
}.

Section reverse.
Context (bytes : list Z) (chunkSize : nat).

(** [ReverseLineReader.open] *)
Definition rr_init : rev_reader := RevReader true (length bytes) [] false.

(** [s.lastIndexOf('\n')]: what is before and after the last line feed *)
Definition cut_last (s : str) : option (str * str) :=
  match cut_at 10 (reverse s) with
  | Some (a, b) => Some (reverse b, reverse a)
  | None => None
  end.

(** Reading the chunk that ends at [pos]. *)
Definition rr_read (st : rev_reader) : rev_reader :=
  let readSize := Nat.min chunkSize (rr_pos st) in
  let start := (rr_pos st - readSize)%nat in
  let chunk := utf8_decode (take readSize (drop start bytes)) in
  let strip := negb (rr_bomStripped st) && (start =? 0)%nat in
  RevReader (rr_open st) start
    ((if strip then strip_bom chunk else chunk) ++ rr_buffer st)
    (rr_bomStripped st || strip).

(** [nextLine()]; a read takes at least one byte and a line end leaves the
    buffer, so [rr_fuel] steps are enough. *)
Fixpoint rr_nextLine (fuel : nat) (st : rev_reader) : rev_reader * option str :=
  match fuel with
  | O => (st, None)
  | S f =>
      if negb (rr_open st) then (st, None)
      else
        match cut_last (rr_buffer st) with
        | Some (before, line) =>
            let st' := RevReader (rr_open st) (rr_pos st) before (rr_bomStripped st) in
            if nonempty line then (st', Some (strip_cr line)) else rr_nextLine f st'
        | None =>
            if (rr_pos st =? 0)%nat then
              if nonempty (rr_buffer st)
              then (RevReader (rr_open st) 0 [] (rr_bomStripped st), Some (strip_cr (rr_buffer st)))
              else (st, None)
            else rr_nextLine f (rr_read st)
        end
  end.

Definition rr_fuel (st : rev_reader) : nat := S (2 * rr_pos st + length (rr_buffer st)).

(** [while ((line = await rr.nextLine()) !== null)]: all lines, in order. *)
Fixpoint rr_readAll (fuel : nat) (st : rev_reader) : list str :=
  match fuel with
  | O => []
  | S f =>
      match rr_nextLine (rr_fuel st) st with
      | (_, None) => []
      | (st', Some line) => line :: rr_readAll f st'
      end
  end.

Definition rr_lines : list str := rr_readAll (S (length bytes)) rr_init.

(** No character of the file straddles the boundary of two chunks. *)
Definition chunk_aligned : Prop :=
  forall i, let p := (length bytes - i * chunkSize)%nat in
    let r := Nat.min chunkSize p in
    utf8_decode (take p bytes) =
    utf8_decode (take (p - r) bytes) ++ utf8_decode (take r (drop (p - r) bytes)).
End reverse.

Definition CHUNK_SIZE : nat := Z.to_nat 65536.

(** What a reader from the end should return for a text. *)
Definition reverse_lines (text : str) : list str :=
  rev (map strip_cr (filter (fun l => nonempty l = true) (split_on 10 text))).

(** ** [ForwardLineReader] *)

Record fwd_reader := FwdReader {
  fr_buffer : str;
  fr_queue : list str;
  fr_ended : bool;
  fr_errored : bool;
  fr_bomStripped : bool;
}.

Definition fr_init : fwd_reader := FwdReader [] [] false false false.

(** The [data] handler: complete lines go to the queue, the last part stays. *)
Definition fr_data (st : fwd_reader) (chunk : str) : fwd_reader :=
  let data := if fr_bomStripped st then chunk else strip_bom chunk in
  let parts := split_crlf (fr_buffer st ++ data) in
  FwdReader (or_else (last parts) [])
    (fr_queue st ++ filter (fun l => nonempty l = true) (take (length parts - 1) parts))
    (fr_ended st) (fr_errored st) true.

(** The [end] handler. *)
Definition fr_end (st : fwd_reader) : fwd_reader :=
  FwdReader (fr_buffer st)
    (if nonempty (fr_buffer st) then fr_queue st ++ [fr_buffer st] else fr_queue st)
    true (fr_errored st) (fr_bomStripped st).

(** The [error] handler. *)
Definition fr_error (st : fwd_reader) : fwd_reader :=
  FwdReader (fr_buffer st) (fr_queue st) (fr_ended st) true (fr_bomStripped st).

(** What [nextLines(n)] comes to when it runs: its result, an exception, or a
    wait for the next event of the stream with the lines taken so far. *)
Inductive pulled := Lines (out : list str) | Waiting (out : list str) | Thrown.

(** [nextLines(n)], called or resumed with [wanted] lines to go. *)
Fixpoint fr_nextLines (wanted : nat) (st : fwd_reader) (out : list str)
  : fwd_reader * pulled :=
  match wanted with
  | O => (st, Lines out)
  | S k =>
      match fr_queue st with
      | l :: q =>
          fr_nextLines k
            (FwdReader (fr_buffer st) q (fr_ended st) (fr_errored st) (fr_bomStripped st))
            (out ++ [l])
      | [] => if fr_errored st then (st, Thrown)
              else if fr_ended st then (st, Lines out) else (st, Waiting out)
      end
  end.

Definition pulled_lines (p : pulled) : list str :=
  match p with Lines out => out | Waiting out => out | Thrown => [] end.

(** The events of a session: the stream and its consumer, in any order. *)
Inductive fr_event := EvData (chunk : str) | EvEnd | EvTake (n : nat).

Fixpoint fr_run (st : fwd_reader) (evs : list fr_event) : fwd_reader * list str :=
  match evs with
  | [] => (st, [])
  | EvData c :: evs' => fr_run (fr_data st c) evs'
  | EvEnd :: evs' => fr_run (fr_end st) evs'
  | EvTake n :: evs' =>
      let '(st1, out) := fr_nextLines n st [] in
      let '(st2, rest) := fr_run st1 evs' in (st2, pulled_lines out ++ rest)
  end.

(** The chunks of a sequence of events, up to the end of the stream. *)
Fixpoint data_of (evs : list fr_event) : list str :=
  match evs with
  | EvData c :: evs' => c :: data_of evs'
  | EvTake _ :: evs' => data_of evs'
  | _ => []
  end.

(** The stream ends once, and nothing comes after it. *)
Fixpoint ends_once (evs : list fr_event) : bool :=
  match evs with
  | [] => false
  | EvData _ :: evs' => ends_once evs'
  | EvTake _ :: evs' => ends_once evs'
  | EvEnd :: evs' => forallb (fun e => match e with EvTake _ => true | _ => false end) evs'
  end.

Definition forward_lines (text : str) : list str :=
  filter (fun l => nonempty l = true) (split_crlf text).

(** Reading a whole file: the result of draining the queue after the end. *)
Definition fr_all (chunks : list str) : list str :=
  fr_queue (fr_end (foldl fr_data fr_init chunks)).

(** ** [countLinesInFile] *)

Record line_count := LineCount { lc_count : Z; lc_sawAny : bool; lc_endsWithLF : bool }.

Definition count_lf (buf : list Z) : Z := zlen (filter (fun b => b = 10) buf).

Definition lc_data (st : line_count) (buf : list Z) : line_count :=
  LineCount (lc_count st + count_lf buf) (lc_sawAny st || nonempty buf)
    (match last buf with Some b => b =? 10 | None => false end).

Definition countLinesInFile (chunks : list (list Z)) : Z :=
  let st := foldl lc_data (LineCount 0 false false) chunks in
  if lc_sawAny st && negb (lc_endsWithLF st) then lc_count st + 1 else lc_count st.

(** ** The reader from the end *)

Definition lf_lines (text : str) : list str :=
  filter (fun l => nonempty l = true) (split_on 10 text).

Lemma cut_last_some s a b :
  cut_last s = Some (a, b) -> s = a ++ 10 :: b /\ Forall (fun d => d <> 10) b.
Proof.
  unfold cut_last. destruct (cut_at 10 (reverse s)) as [[x y]|] eqn:E; [|done]. intros [= <- <-].
  apply cut_at_spec in E as [E Hx]. split; [|by apply Forall_reverse].
  rewrite <- (reverse_involutive s), E, reverse_app, reverse_cons. by rewrite <- app_assoc.
Qed.

Lemma cut_last_none s : cut_last s = None -> Forall (fun d => d <> 10) s.
Proof.
  unfold cut_last. destruct (cut_at 10 (reverse s)) as [[x y]|] eqn:E; [done|]. intros _.
  rewrite <- (reverse_involutive s). by apply Forall_reverse, cut_at_none.
Qed.

Lemma lf_lines_snoc s w :
  Forall (fun d => d <> 10) w ->
  lf_lines (s ++ 10 :: w) = lf_lines s ++ (if nonempty w then [w] else []).
Proof.
  intros Hw. unfold lf_lines. rewrite split_on_app_sep, filter_app, (split_on_none _ w) by done.
  by destruct w.
Qed.

Lemma lf_lines_one w :
  Forall (fun d => d <> 10) w -> lf_lines w = if nonempty w then [w] else [].
Proof. intros Hw. unfold lf_lines. rewrite split_on_none by done. by destruct w. Qed.

Lemma lf_lines_length text : (length (lf_lines text) <= length text)%nat.
Proof.
  induction text as [|c t IH]; [done|]. unfold lf_lines in *. cbn [split_on length].
  destruct (c =? 10); [rewrite filter_cons_False by done; lia|].
  destruct (split_on 10 t) as [|w ws]; [simpl; lia|].
  rewrite filter_cons_True by done. rewrite filter_cons in IH.
  destruct (decide (nonempty w = true)); simpl in *; lia.
Qed.

Section reverse_proofs.
Context (bytes : list Z) (chunkSize : nat).
Hypothesis chunk_pos : (0 < chunkSize)%nat.
Hypothesis aligned : chunk_aligned bytes chunkSize.

Definition rr_inv (st : rev_reader) : Prop :=
  rr_open st = true /\
  (exists i, rr_pos st = length bytes - i * chunkSize)%nat /\
  (rr_bomStripped st = true -> rr_pos st = 0%nat).

(** The text still to be returned. *)
Definition rr_rest (st : rev_reader) : str :=
  strip_bom (utf8_decode (take (rr_pos st) bytes)) ++ rr_buffer st.

Lemma strip_bom_app s t : s <> [] -> strip_bom (s ++ t) = strip_bom s ++ t.
Proof. destruct s as [|c s]; [done|]. simpl. by destruct (c =? 65279). Qed.

Lemma rr_read_spec st :
  rr_inv st -> rr_pos st <> 0%nat ->
  rr_inv (rr_read bytes chunkSize st) /\
  rr_rest (rr_read bytes chunkSize st) = rr_rest st /\
  (rr_fuel (rr_read bytes chunkSize st) < rr_fuel st)%nat.
Proof.
  intros (Ho & [i Hi] & Hb) Hp.
  assert (Hbom : rr_bomStripped st = false) by (destruct (rr_bomStripped st); naive_solver).
  assert (Ha := aligned i). cbv zeta in Ha. rewrite <- Hi in Ha.
  unfold rr_read. rewrite Hbom. cbn [negb andb orb].
  set (r := Nat.min chunkSize (rr_pos st)) in *.
  set (chunk := utf8_decode (take r (drop (rr_pos st - r) bytes))) in *.
  assert (Hr : (0 < r <= rr_pos st)%nat) by (unfold r; lia).
  assert (Hc : (length chunk <= r)%nat).
  { unfold chunk. rewrite utf8_decode_length, length_take. lia. }
  split; [|split].
  - split; [done|]. simpl. split; [exists (S i); unfold r; lia|].
    intros H. by apply Nat.eqb_eq in H.
  - unfold rr_rest. cbn [rr_pos rr_buffer]. rewrite Ha.
    destruct (Nat.eqb_spec (rr_pos st - r) 0) as [->|Hs]; [done|].
    rewrite strip_bom_app, <- app_assoc; [done|]. apply utf8_decode_nonempty.
    destruct bytes; [simpl in Hi; lia|]. by destruct (rr_pos st - r)%nat.
  - unfold rr_fuel. cbn [rr_pos rr_buffer]. rewrite length_app.
    assert (length (strip_bom chunk) <= length chunk)%nat.
    { destruct chunk as [|c t]; [done|]. simpl. destruct (c =? 65279); simpl; lia. }
    destruct (rr_pos st - r =? 0)%nat; lia.
Qed.

(** [nextLine] returns the last non-empty line of the text still to be
    returned, and what is before it stays to be returned. *)
Lemma rr_nextLine_spec fuel st :
  rr_inv st -> (rr_fuel st <= fuel)%nat ->
  match rr_nextLine bytes chunkSize fuel st with
  | (_, None) => lf_lines (rr_rest st) = []
  | (st', Some l) => rr_inv st' /\
      exists w, lf_lines (rr_rest st) = lf_lines (rr_rest st') ++ [w] /\ l = strip_cr w
  end.
Proof.
  revert st. induction fuel as [|f IH]; intros st Hinv Hf; [unfold rr_fuel in Hf; lia|].
  cbn [rr_nextLine]. rewrite (proj1 Hinv). cbn [negb].
  destruct (cut_last (rr_buffer st)) as [[a b]|] eqn:Ecut.
  - apply cut_last_some in Ecut as [Eb Hb].
    set (st' := RevReader true (rr_pos st) a (rr_bomStripped st)).
    assert (Hinv' : rr_inv st') by (destruct Hinv as (_ & Hp & Hs); done).
    assert (Hrest : lf_lines (rr_rest st) =
                    lf_lines (rr_rest st') ++ (if nonempty b then [b] else [])).
    { unfold rr_rest. rewrite Eb, app_assoc. by apply lf_lines_snoc. }
    destruct (nonempty b) eqn:Enb; [split; [done|]; by exists b|].
    rewrite Hrest, app_nil_r. apply IH; [done|].
    unfold rr_fuel in *. subst st'. cbn [rr_pos rr_buffer]. rewrite Eb, length_app in Hf.
    simpl in Hf. lia.
  - apply cut_last_none in Ecut. destruct (Nat.eqb_spec (rr_pos st) 0) as [Hp|Hp].
    + assert (Hrest : rr_rest st = rr_buffer st) by (unfold rr_rest; by rewrite Hp).
      rewrite Hrest, lf_lines_one by done.
      destruct (nonempty (rr_buffer st)); [|done]. split; [|by eexists].
      destruct Hinv as (_ & [i Hi] & _). split; [done|]. split; [exists i; simpl; lia|done].
    + destruct (rr_read_spec st Hinv Hp) as (Hinv' & <- & Hlt). apply IH; [done|lia].
Qed.

Lemma rr_readAll_spec fuel st :
  rr_inv st -> (length (lf_lines (rr_rest st)) < fuel)%nat ->
  rr_readAll bytes chunkSize fuel st = rev (map strip_cr (lf_lines (rr_rest st))).
Proof.
  revert st. induction fuel as [|f IH]; intros st Hinv Hf; [lia|]. cbn [rr_readAll].
  assert (Hn := rr_nextLine_spec (rr_fuel st) st Hinv ltac:(lia)).
  destruct (rr_nextLine bytes chunkSize (rr_fuel st) st) as [st' [l|]].
  - destruct Hn as (Hinv' & w & E & ->). rewrite E in Hf |- *.
    rewrite length_app in Hf. simpl in Hf.
    rewrite IH, map_app, rev_app_distr by (done || lia). done.
  - by rewrite Hn.
Qed.

Lemma rr_lines_spec :
  rr_lines bytes chunkSize = reverse_lines (strip_bom (utf8_decode bytes)).
Proof.
  assert (Hrest : rr_rest (rr_init bytes) = strip_bom (utf8_decode bytes)).
  { unfold rr_rest, rr_init. cbn [rr_pos rr_buffer]. by rewrite firstn_all, app_nil_r. }
  unfold rr_lines. rewrite rr_readAll_spec, Hrest; [done| |].
  - split; [done|]. split; [by exists 0%nat; simpl; lia|done].
  - rewrite Hrest. assert (H1 := utf8_decode_length bytes).
    assert (H2 := lf_lines_length (strip_bom (utf8_decode bytes))).
    destruct (utf8_decode bytes) as [|c t]; [simpl; lia|]. simpl in *.
    destruct (c =? 65279); simpl in *; lia.
Qed.
End reverse_proofs.

Lemma ascii_aligned bytes chunkSize :
  Forall (fun b => 0 <= b < 128) bytes -> chunk_aligned bytes chunkSize.
Proof.
  intros H i. cbv zeta. set (p := (length bytes - i * chunkSize)%nat).
  set (r := Nat.min chunkSize p).
  rewrite (utf8_decode_ascii (take (p - r) bytes)) by (by apply Forall_take).
  rewrite <- utf8_decode_ascii_app by (by apply Forall_take).
  f_equal. rewrite <- (take_drop (p - r) (take p bytes)).
  rewrite take_take, Nat.min_l by lia. f_equal.
  rewrite skipn_firstn_comm. f_equal. unfold r. lia.
Qed.

(** C36: the reader from the end returns exactly the non-empty lines of the file,
    last first, each without its carriage return and the first without a byte
    order mark, for every size of the chunks, provided that no character of the
    file straddles two chunks. *)
Theorem reverse_reader_lines bytes chunkSize :
  (0 < chunkSize)%nat -> chunk_aligned bytes chunkSize ->
  rr_lines bytes chunkSize = reverse_lines (strip_bom (utf8_decode bytes)).
Proof. apply rr_lines_spec. Qed.

Lemma reverse_reader_lines_witness :
  rr_lines [97; 13; 10; 98; 10; 10; 99] 3 = [[99]; [98]; [97]].
Proof.
  rewrite (reverse_reader_lines [97; 13; 10; 98; 10; 10; 99] 3); [reflexivity|lia|].
  apply ascii_aligned. repeat constructor; lia.
Defined.

(** A two-byte character whose bytes are in different chunks. *)
Definition straddling_file : list Z := [97; 195; 169] ++ replicate (CHUNK_SIZE - 1) 98.

(** the proviso is needed: the reader decodes each chunk on its own, so a
    character that straddles two chunks of 64 KiB is not returned as it is in
    the file; two replacement characters come in its place. *)
Theorem reverse_reader_straddling :
  map (take 4) (rr_lines straddling_file CHUNK_SIZE) = [[97; 65533; 65533; 98]] /\
  map (take 3) (reverse_lines (strip_bom (utf8_decode straddling_file))) = [[97; 233; 98]].
Proof. vm_compute. done. Qed.

(** ** The reader from the start *)

(** The state after the text [T] when the lines [D] have been taken. *)
Record fr_inv (st : fwd_reader) (T : str) (D : list str) : Prop := {
  fi_running : fr_errored st = false /\ fr_ended st = false;
  fi_parts : exists ws, split_crlf T = ws ++ [fr_buffer st] /\
    (forall t, split_crlf (T ++ t) = ws ++ split_crlf (fr_buffer st ++ t)) /\
    D ++ fr_queue st = filter (fun l => nonempty l = true) ws;
}.

Lemma fr_data_inv st T D c :
  fr_inv st T D ->
  fr_inv (fr_data st c) (T ++ if fr_bomStripped st then c else strip_bom c) D.
Proof.
  intros [Hr (ws & E & Happ & HD)]. unfold fr_data.
  set (data := if fr_bomStripped st then c else strip_bom c).
  destruct (split_crlf_snoc (fr_buffer st ++ data)) as (vs & v & Ev & Hv).
  assert (Hl : forall t, split_crlf ((T ++ data) ++ t) = (ws ++ vs) ++ split_crlf (v ++ t)).
  { intros t. by rewrite <- app_assoc, Happ, app_assoc, Hv, app_assoc. }
  rewrite Ev. constructor; [done|]. cbn [fr_buffer fr_queue]. exists (ws ++ vs).
  rewrite last_snoc. cbn [or_else]. split; [|split; [done|]].
  - by rewrite Happ, Ev, app_assoc.
  - rewrite length_app, Nat.add_sub, take_app_length, app_assoc, HD. by rewrite filter_app.
Qed.

Lemma fr_nextLines_spec n st out :
  fr_errored st = false ->
  exists st', fst (fr_nextLines n st out) = st' /\
    pulled_lines (snd (fr_nextLines n st out)) = out ++ take n (fr_queue st) /\
    fr_queue st' = drop n (fr_queue st) /\ fr_buffer st' = fr_buffer st /\
    fr_errored st' = false /\ fr_ended st' = fr_ended st /\ fr_bomStripped st' = fr_bomStripped st.
Proof.
  revert st out. induction n as [|n IH]; intros [b q e er bm] out Her; simpl in *.
  - eexists. split; [done|]. by rewrite app_nil_r, drop_0.
  - destruct q as [|l q].
    + rewrite Her. exists (FwdReader b [] e false bm). rewrite app_nil_r. by destruct e.
    + destruct (IH (FwdReader b q e er bm) (out ++ [l]) Her) as (st' & H).
      exists st'. simpl in H. by rewrite <- app_assoc in H.
Qed.

Lemma fr_take_inv n st T D :
  fr_inv st T D ->
  fr_inv (fst (fr_nextLines n st [])) T (D ++ pulled_lines (snd (fr_nextLines n st []))) /\
  fr_bomStripped (fst (fr_nextLines n st [])) = fr_bomStripped st.
Proof.
  intros [[He Hn] Hp].
  destruct (fr_nextLines_spec n st [] He) as (st' & -> & -> & Hq & Hb & He' & Hn' & Hm).
  split; [|done]. constructor; [by rewrite Hn'|]. rewrite Hb, Hq. simpl.
  destruct Hp as (ws & E & Happ & HD). exists ws. split; [done|]. split; [done|].
  by rewrite <- app_assoc, take_drop.
Qed.

Lemma fr_run_taking st evs :
  fr_errored st = false ->
  forallb (fun e => match e with EvTake _ => true | _ => false end) evs = true ->
  snd (fr_run st evs) ++ fr_queue (fst (fr_run st evs)) = fr_queue st.
Proof.
  revert st. induction evs as [|[c| |n] evs IH]; intros st He Hev; [done..|]. cbn [fr_run].
  destruct (fr_nextLines_spec n st [] He) as (st' & E & Ho & Hq & _ & He' & _).
  destruct (fr_nextLines n st []) as [st1 p]. cbn [fst snd] in *. subst st1.
  specialize (IH st' He' Hev). destruct (fr_run st' evs) as [st2 rest]. cbn [fst snd] in *.
  by rewrite Ho, <- app_assoc, IH, Hq, app_nil_l, take_drop.
Qed.

Lemma fr_run_spec st T D evs :
  fr_inv st T D -> fr_bomStripped st = true -> ends_once evs = true ->
  D ++ snd (fr_run st evs) ++ fr_queue (fst (fr_run st evs)) =
  forward_lines (T ++ mjoin (data_of evs)).
Proof.
  revert st T D. induction evs as [|[c| |n] evs IH]; intros st T D Hinv Hbom Hev; [done|..].
  - cbn [fr_run data_of mjoin list_join]. assert (Hd := fr_data_inv _ _ _ c Hinv).
    rewrite Hbom in Hd. rewrite (IH _ _ _ Hd eq_refl Hev). by rewrite <- app_assoc.
  - cbn [fr_run data_of mjoin list_join]. destruct Hinv as [[He Hn] (ws & E & _ & HD)].
    rewrite fr_run_taking by done. unfold forward_lines. rewrite app_nil_r, E, filter_app, <- HD.
    cbn [fr_end fr_queue]. by destruct (fr_buffer st); simpl; rewrite ?app_nil_r, ?app_assoc.
  - cbn [fr_run data_of]. destruct (fr_take_inv n st T D Hinv) as [Ht Hm].
    destruct (fr_nextLines n st []) as [st1 p]. cbn [fst snd] in *.
    rewrite Hbom in Hm. specialize (IH _ _ _ Ht Hm Hev).
    destruct (fr_run st1 evs) as [st2 rest]. cbn [fst snd] in *.
    by rewrite <- IH, <- !app_assoc.
Qed.

Lemma fr_run_init evs :
  Forall (fun c => c <> []) (data_of evs) -> ends_once evs = true ->
  snd (fr_run fr_init evs) ++ fr_queue (fst (fr_run fr_init evs)) =
  forward_lines (strip_bom (mjoin (data_of evs))).
Proof.
  induction evs as [|[c| |n] evs IH]; intros Hne Hev; [done|..].
  - cbn [fr_run data_of mjoin list_join ends_once] in *. apply Forall_cons in Hne as [Hc _].
    assert (Hinit : fr_inv fr_init [] []) by (constructor; [done|by exists []]).
    assert (Hd := fr_data_inv _ _ _ c Hinit). cbn [fr_bomStripped fr_init app] in Hd.
    assert (Hs := fr_run_spec _ _ _ _ Hd eq_refl Hev). rewrite app_nil_l in Hs.
    by rewrite Hs, strip_bom_app.
  - cbn [fr_run data_of mjoin list_join] in *. by rewrite fr_run_taking.
  - cbn [fr_run data_of] in *. assert (E : fr_nextLines n fr_init [] =
      (fr_init, if n is O then Lines [] else Waiting [])) by (by destruct n).
    rewrite E. specialize (IH Hne Hev). destruct (fr_run fr_init evs) as [st2 rest].
    by destruct n.
Qed.

(** whatever the sizes of the chunks and however the consumer's requests fall
    between them, the lines it has taken and the lines left in the queue after
    the end of the stream are, in order, the non-empty lines of the whole text,
    also when a chunk ends between a CR and its LF. *)
Theorem forward_reader_lines evs :
  Forall (fun c => c <> []) (data_of evs) -> ends_once evs = true ->
  let '(st, taken) := fr_run fr_init evs in
  taken ++ fr_queue st = forward_lines (strip_bom (mjoin (data_of evs))).
Proof.
  intros Hne Hev. assert (H := fr_run_init evs Hne Hev). by destruct (fr_run fr_init evs).
Qed.

Lemma forward_reader_lines_witness :
  let '(st, taken) := fr_run fr_init
    [EvTake 1; EvData [65279; 97; 13]; EvTake 5; EvData [10; 10; 98]; EvEnd; EvTake 1] in
  taken ++ fr_queue st = [[97]; [98]].
Proof.
  apply (forward_reader_lines
    [EvTake 1; EvData [65279; 97; 13]; EvTake 5; EvData [10; 10; 98]; EvEnd; EvTake 1]);
    [by repeat constructor|reflexivity].
Defined.

(** ** Counting lines *)

Definition lf_step (st : Z * bool) (b : Z) : Z * bool :=
  (fst st + (if b =? 10 then 1 else 0), b =? 10).

(** The lines of a text, a last one without line end included. *)
Definition lf_count (l : list Z) : Z :=
  let '(n, e) := foldl lf_step (0, true) l in if e then n else n + 1.

Lemma lf_scan n e (l : list Z) :
  foldl lf_step (n, e) l =
  (n + count_lf l, match last l with Some b => b =? 10 | None => e end).
Proof.
  revert n e. induction l as [|b l IH]; intros n e; cbn [foldl].
  - f_equal. unfold count_lf, zlen. simpl. lia.
  - unfold lf_step at 2. cbn [fst]. rewrite IH. f_equal.
    + unfold count_lf. rewrite filter_cons.
      destruct (Z.eqb_spec b 10); [rewrite decide_True by done|rewrite decide_False by done];
        unfold zlen; simpl; lia.
    + rewrite last_cons. by destruct (last l).
Qed.

Lemma lc_fold st chunks :
  Forall (fun c => c <> []) chunks -> chunks <> [] ->
  foldl lc_data st chunks =
  LineCount (fst (foldl lf_step (lc_count st, true) (mjoin chunks))) true
            (snd (foldl lf_step (0, true) (mjoin chunks))).
Proof.
  revert st. induction chunks as [|c cs IH]; intros st Hne Hcs; [done|].
  apply Forall_cons in Hne as [Hc Hne]. cbn [foldl mjoin list_join].
  rewrite !foldl_app, !lf_scan. destruct cs as [|c' cs].
  - simpl. unfold lc_data. f_equal.
    + unfold count_lf, zlen. simpl. lia.
    + by destruct c; destruct (lc_sawAny st).
    + by destruct (last_not_nil c Hc) as [x ->].
  - rewrite IH by done. rewrite !lf_scan. cbn [fst snd lc_data lc_count].
    f_equal. apply Forall_cons in Hne as [Hc' _]. simpl.
    assert (Hn : c' ++ mjoin cs <> []) by (by destruct c').
    by destruct (last_not_nil _ Hn) as [x ->].
Qed.

Lemma countLinesInFile_spec chunks :
  Forall (fun c => c <> []) chunks -> countLinesInFile chunks = lf_count (mjoin chunks).
Proof.
  intros Hne. unfold countLinesInFile. destruct chunks as [|c cs]; [done|].
  rewrite lc_fold by done. cbn [lc_sawAny lc_endsWithLF lc_count]. unfold lf_count.
  rewrite !lf_scan. cbn [fst snd andb]. by destruct (match last _ with Some _ => _ | None => _ end).
Qed.

Lemma lf_count_cons c t :
  lf_count (c :: t) =
  if c =? 10 then 1 + lf_count t else match t with [] => 1 | _ :: _ => lf_count t end.
Proof.
  unfold lf_count. cbn [foldl]. unfold lf_step at 2. rewrite !lf_scan. cbn [fst snd].
  destruct (c =? 10); [destruct (last t) as [b|]; [destruct (b =? 10)|]; lia|].
  destruct t as [|d t]; [done|]. destruct (last_not_nil (d :: t)) as [x ->]; [done|].
  destruct (x =? 10); lia.
Qed.

Lemma lf_lines_cons c t :
  c <> 10 ->
  zlen (lf_lines (c :: t)) =
  match t with
  | [] => 1
  | d :: t' => if d =? 10 then 1 + zlen (lf_lines t') else zlen (lf_lines t)
  end.
Proof.
  intros Hc. unfold lf_lines, zlen. cbn [split_on]. destruct (Z.eqb_spec c 10); [done|].
  destruct t as [|d t]; [done|]. cbn [split_on]. destruct (d =? 10).
  - rewrite filter_cons_True by done. simpl. lia.
  - by destruct (split_on 10 t).
Qed.

Lemma lf_lines_count_aux t :
  zlen (lf_lines t) <= lf_count t /\
  (forall c, c <> 10 -> zlen (lf_lines (c :: t)) <= lf_count (c :: t)).
Proof.
  induction t as [|d t [IH1 IH2]].
  - split; [done|]. intros c Hc. rewrite lf_lines_cons, lf_count_cons by done. by destruct (c =? 10).
  - assert (Hd : zlen (lf_lines (d :: t)) <= lf_count (d :: t)).
    { destruct (Z.eq_dec d 10) as [->|Hd]; [|by apply IH2].
      rewrite lf_count_cons, Z.eqb_refl. etrans; [|apply Z.add_le_mono_l, IH1].
      unfold zlen, lf_lines. cbn [split_on]. rewrite Z.eqb_refl, filter_cons_False by done. lia. }
    split; [done|]. intros c Hc. rewrite lf_lines_cons, lf_count_cons by done.
    destruct (Z.eqb_spec c 10); [done|]. destruct (Z.eqb_spec d 10) as [->|Hd']; [|done].
    rewrite lf_count_cons, Z.eqb_refl. lia.
Qed.

Lemma lf_skip n e x l : x <> 10 -> foldl lf_step (n, e) (x :: l) = foldl lf_step (n, false) l.
Proof.
  intros H. cbn [foldl]. unfold lf_step at 2. cbn [fst]. destruct (Z.eqb_spec x 10); [done|].
  by rewrite Z.add_0_r.
Qed.

Lemma utf16_skip n e cp l :
  128 <= cp -> foldl lf_step (n, e) (utf16_of cp ++ l) = foldl lf_step (n, false) l.
Proof.
  intros H. unfold utf16_of. destruct (Z.ltb_spec cp 65536); cbn [app].
  - apply lf_skip. lia.
  - assert (0 <= (cp - 65536) / 1024) by (apply Z.div_pos; lia).
    assert (0 <= (cp - 65536) mod 1024) by (apply Z.mod_pos_bound; lia).
    by rewrite !lf_skip by lia.
Qed.

(** Decoding keeps the line ends. *)
Lemma lf_scan_decode bs acc : foldl lf_step acc (utf8_decode bs) = foldl lf_step acc bs.
Proof.
  remember (length bs) as k eqn:Ek. revert bs acc Ek.
  induction (lt_wf k) as [k _ IH]. intros bs [n e] ->.
  assert (IH' : forall bs' acc', (length bs' < length bs)%nat ->
    foldl lf_step acc' (utf8_decode bs') = foldl lf_step acc' bs') by eauto. clear IH.
  destruct bs as [|b r1]; [done|]. cbn [utf8_decode]. unfold is_cont.
  destruct (Z.ltb_spec b 128); [cbn [foldl]; apply IH'; cbn [length]; lia|].
  repeat case_match; simplify_eq;
    repeat match goal with
    | H : andb _ _ = true |- _ => apply andb_prop in H as [?%Z.leb_le ?%Z.leb_le]
    | H : andb _ _ = false |- _ => clear H
    | H : (_ =? _) = true |- _ => apply Z.eqb_eq in H
    | H : (_ =? _) = false |- _ => apply Z.eqb_neq in H
    end;
    rewrite ?(utf16_skip n e) by lia; rewrite !(lf_skip n e) by lia;
    repeat first [done | apply IH'; cbn [length]; lia | rewrite (lf_skip n false) by lia].
Qed.

Lemma lf_count_decode bs : lf_count (utf8_decode bs) = lf_count bs.
Proof. unfold lf_count. by rewrite lf_scan_decode. Qed.

Lemma lf_count_strip_bom t : lf_count (strip_bom t) <= lf_count t.
Proof.
  destruct t as [|c t]; [done|]. cbn [strip_bom]. destruct (Z.eqb_spec c 65279) as [->|]; [|done].
  rewrite lf_count_cons. by destruct t.
Qed.

(** the count of a file's lines does not depend on how the stream cuts the
    file, and bounds the number of lines the reader from the end returns: the
    total announced before a merge is never below what is merged. *)
Theorem line_count_bounds_reader chunks chunkSize :
  Forall (fun c => c <> []) chunks -> (0 < chunkSize)%nat ->
  chunk_aligned (mjoin chunks) chunkSize ->
  countLinesInFile chunks = lf_count (mjoin chunks) /\
  zlen (rr_lines (mjoin chunks) chunkSize) <= countLinesInFile chunks.
Proof.
  intros Hne Hc Ha. rewrite countLinesInFile_spec by done. split; [done|].
  rewrite rr_lines_spec by done. unfold reverse_lines, zlen.
  rewrite length_rev, length_map, <- lf_count_decode.
  etrans; [apply lf_lines_count_aux|apply lf_count_strip_bom].
Qed.

Lemma line_count_bounds_reader_witness :
  countLinesInFile [[97; 10]; [10; 98]] = 3 /\ zlen (rr_lines [97; 10; 10; 98] 2) <= 3.
Proof.
  apply (line_count_bounds_reader [[97; 10]; [10; 98]] 2);
    [by repeat constructor|lia|apply ascii_aligned; repeat constructor; lia].
Defined.
