(* ===== verification/LogEntry.v ===== *)
(** * Log entries

    [LogEntry] and [ParsedPayload] of src/shared/ipc/messages.ts: the record
    that every part of the log pipeline passes on.  A field that may be absent
    or [null] is an option. *)

From stdpp Require Import base list.
From Stdlib Require Import ZArith.
From S2P Require Import Prelude JsString TimeParser.

(** [ParsedPayload]: the fields a parser rule has captured. *)
Record ParsedPayload := Parsed {
  p_time : option str;
  p_process : option str;
  p_pid : option str;
  p_message : option str;
}.

(** [LogEntry]; [e_type] is the constant ['system'] in every entry the file
    pipeline makes, and is not kept. *)
Record LogEntry := Entry {
  e_id : Z;
  e_idx : option Z;
  e_ts : Z;
  e_level : level;
  e_source : str;
  e_file : str;
  e_path : str;
  e_text : str;
  e_parsed : option ParsedPayload;
  e_fRank : option Z;
  e_rev : option Z;
}.

Definition set_ts (e : LogEntry) (ts : Z) : LogEntry :=
  Entry (e_id e) (e_idx e) ts (e_level e) (e_source e) (e_file e) (e_path e) (e_text e)
    (e_parsed e) (e_fRank e) (e_rev e).

Definition set_text (e : LogEntry) (text : str) : LogEntry :=
  Entry (e_id e) (e_idx e) (e_ts e) (e_level e) (e_source e) (e_file e) (e_path e) text
    (e_parsed e) (e_fRank e) (e_rev e).

Definition set_idx (e : LogEntry) (idx : option Z) : LogEntry :=
  Entry (e_id e) idx (e_ts e) (e_level e) (e_source e) (e_file e) (e_path e) (e_text e)
    (e_parsed e) (e_fRank e) (e_rev e).

Definition set_file (e : LogEntry) (file : str) : LogEntry :=
  Entry (e_id e) (e_idx e) (e_ts e) (e_level e) (e_source e) file (e_path e) (e_text e)
    (e_parsed e) (e_fRank e) (e_rev e).

#[export] Instance level_eq_dec : EqDecision level.
Proof. solve_decision. Defined.

#[export] Instance ParsedPayload_eq_dec : EqDecision ParsedPayload.
Proof. solve_decision. Defined.

#[export] Instance LogEntry_eq_dec : EqDecision LogEntry.
Proof. solve_decision. Defined.

(** [!!s] of a string field that may be absent *)
Definition truthy (o : option str) : bool := match o with Some s => nonempty s | None => false end.

Lemma set_ts_id e : set_ts e (e_ts e) = e.
Proof. by destruct e. Qed.

Lemma set_ts_ts e t : e_ts (set_ts e t) = t.
Proof. done. Qed.

#[export] Hint Rewrite @set_ts_id @set_ts_ts : edge.
