(* ===== verification/ParserEngine.v ===== *)
(** * The parser engine

    src/core/logs/ParserEngine.ts: compiling a parser configuration, choosing
    the rule of a file by its name, the preflight that decides from a sample of
    its lines whether a file is parsed, and making a log entry of a line; and
    [restoreFullTextIfNeeded] of src/core/logs/LogFileIntegration.ts, which
    rebuilds the line from the parsed fields.

    Expressions that come from the configuration are objects of the language's
    [RegExp]; the class [RegExpEngine] is what the source uses of it. *)

From stdpp Require Import base list strings.
From Stdlib Require Import ZArith Lia.
From S2P Require Import Prelude JsString Regex TimeParser LogEntry LineReaders.

(** [new RegExp(pattern, i ? 'i' : '')], which may throw, and [exec]: [None]
    when there is no match, otherwise the named groups in the order of the
    pattern (none when the pattern names no group). *)
Class RegExpEngine := {
  regexp : Type;
  new_RegExp : str -> bool -> option regexp;
  rx_groups : regexp -> str -> option (list (str * option str));
}.

Section engine.
Context `{RE : RegExpEngine}.

Definition re_test (r : regexp) (s : str) : bool :=
  match rx_groups r s with Some _ => true | None => false end.

Definition or_throw {A} (o : option A) : js_result A :=
  match o with Some a => Ok a | None => Throws end.

(** ** Configuration *)

Record ParserFieldRegex := FieldRegex {
  rs_time : option str; rs_process : option str; rs_pid : option str; rs_message : option str }.

Record ParserRule := Rule {
  r_file : option str; r_need : option bool; r_regex : option ParserFieldRegex }.

Record RequirementFields := ReqFields {
  rq_time : option bool; rq_process : option bool; rq_pid : option bool;
  rq_message : option bool }.

(** [min_match_ratio] is the quotient of two integers. *)
Record ParserPreflight := Preflight {
  pf_sample_lines : option Z;
  pf_min_match_ratio : option (Z * Z);
  pf_hard_skip : option (list str) }.

Record ParserConfig := Config {
  c_version : option Z;
  c_fields : option RequirementFields;
  c_preflight : option ParserPreflight;
  c_memory_mode_threshold : option Z;    (* configure.memory_mode_threshold *)
  c_parser : list ParserRule }.

Record RuleRegexes := RuleRx {
  rx_time : option regexp; rx_process : option regexp; rx_pid : option regexp;
  rx_message : option regexp }.

Record CompiledRule := CRule { fileRegexes : list regexp; cr_regex : RuleRegexes }.

Record Requirements := Req {
  need_time : bool; need_process : bool; need_pid : bool; need_message : bool }.

Record CompiledParser := CParser {
  cp_version : Z;
  requirements : Requirements;
  sample_lines : Z;
  min_match_ratio : Z * Z;
  hardSkip : list regexp;
  rules : list CompiledRule }.

(** ** File descriptors *)

(** [[.*+?^${}()|[\]\\]] *)
Definition is_meta (c : Z) : bool :=
  existsb (Z.eqb c) [46; 42; 43; 63; 94; 36; 123; 125; 40; 41; 124; 91; 93; 92].

Definition escapeRe (s : str) : str :=
  flat_map (fun c => if is_meta c then [92; c] else [c]) s.

(** [/^(.+)\.\{([^}]+)\}$/] *)
Definition DESCRIPTOR_RX : re :=
  sq [Bol; Grp 1 (plus dot); chr 46; chr 123; Grp 2 (plus (Cls (fun c => negb (c =? 125))));
      chr 125; Eol].

(** [/^:\d+$/] and [/^\d+$/] *)
Definition UPTO_RX : re := sq [Bol; chr 58; plus d; Eol].
Definition DIGITS_RX : re := sq [Bol; plus d; Eol].

(** [Array.from({length: k}, (_, i) => String(i + 1)).join('|')] *)
Definition numbers_upto (k : Z) : str :=
  join [124] (map (fun i => print_nat (Z.of_nat i + 1)) (seq 0 (Z.to_nat k))).

(** The pattern of a descriptor [<base>.{spec}]; [base] is escaped already. *)
Definition descriptor_pattern (base spec : str) : option str :=
  if bool_decide (spec = js "n") then Some (js "^" ++ base ++ js "(?:\.\d+)?$")
  else if rx_test UPTO_RX spec then
    let k := or_else (parse_int (drop 1 spec)) 0 in
    if k =? 0 then Some (js "^" ++ base ++ js "$")
    else Some (js "^" ++ base ++ js "(?:\.(?:" ++ numbers_upto k ++ js "))?$")
  else if rx_test DIGITS_RX spec then
    let k := or_else (parse_int spec) 0 in
    if k =? 0 then Some (js "^" ++ base ++ js "$")
    else Some (js "^" ++ base ++ js "\." ++ print_nat k ++ js "$")
  else None.

Definition option_to_array {A} (o : option A) : list A :=
  match o with Some x => [x] | None => [] end.

(** A literal name is compiled outside any [try]. *)
Definition fileDescriptorToRegexes (token : str) : js_result (list regexp) :=
  let t := trim token in
  if negb (nonempty t) then Ok []
  else if starts_with (js "^") t then Ok (option_to_array (new_RegExp t true))
  else
    match exec DESCRIPTOR_RX t with
    | None => res_bind (or_throw (new_RegExp (js "^" ++ escapeRe t ++ js "$") true))
                (fun rx => Ok [rx])
    | Some m =>
        let base := escapeRe (or_else (cap m 1) []) in
        let spec := trim (or_else (cap m 2) []) in
        match descriptor_pattern base spec with
        | None => Ok []
        | Some pattern => Ok (option_to_array (new_RegExp pattern true))
        end
    end.

(** ** [compileParserConfig] *)

(** [src ? new RegExp(src) : undefined] *)
Definition compile_field (src : option str) : js_result (option regexp) :=
  match src with
  | Some s => if nonempty s then res_bind (or_throw (new_RegExp s false)) (fun r => Ok (Some r))
              else Ok None
  | None => Ok None
  end.

Definition compile_regexes (src : ParserFieldRegex) : js_result RuleRegexes :=
  (let! t := compile_field (rs_time src) in
   let! pr := compile_field (rs_process src) in
   let! pi := compile_field (rs_pid src) in
   let! m := compile_field (rs_message src) in
   Ok (RuleRx t pr pi m))%edge.

(** One round of the loop over the rules: a rule that is not needed or names no
    usable file is left out. *)
Definition compile_rule (r : ParserRule) : js_result (option CompiledRule) :=
  if bool_decide (r_need r = Some false) then Ok None
  else
    (let! fileRegexes :=
       match r_file r with
       | Some f => if nonempty f then fileDescriptorToRegexes f else Ok []
       | None => Ok []
       end in
     match fileRegexes with
     | [] => Ok None
     | _ :: _ =>
         let! rx := compile_regexes (or_else (r_regex r) (FieldRegex None None None None)) in
         Ok (Some (CRule fileRegexes rx))
     end)%edge.

Definition compile_hardSkip (p : str) : js_result regexp :=
  match new_RegExp p true with
  | Some r => Ok r
  | None => or_throw (new_RegExp (js "a^") false)
  end.

Definition compile_requirements (f : option RequirementFields) : Requirements :=
  let f := or_else f (ReqFields None None None None) in
  Req (or_else (rq_time f) false) (or_else (rq_process f) false)
      (or_else (rq_pid f) false) (or_else (rq_message f) true).

Definition compileParserConfig (cfg : ParserConfig) : js_result (option CompiledParser) :=
  match c_parser cfg with
  | [] => Ok None
  | _ :: _ =>
      let pf := or_else (c_preflight cfg) (Preflight None None None) in
      (let! hs := res_map compile_hardSkip (or_else (pf_hard_skip pf) []) in
       let! rs := res_map compile_rule (c_parser cfg) in
       match omap id rs with
       | [] => Ok None
       | rs' =>
           Ok (Some (CParser (or_else (c_version cfg) 1)
                 (compile_requirements (c_fields cfg))
                 (or_else (pf_sample_lines pf) 200)
                 (or_else (pf_min_match_ratio pf) (4, 5))
                 hs rs'))
       end)%edge
  end.

(** [getMemoryModeThresholdFromParser] *)
Definition getMemoryModeThresholdFromParser (cfg : option ParserConfig) : option Z :=
  match cfg with
  | Some c => match c_memory_mode_threshold c with
              | Some n => if 0 <? n then Some n else None
              | None => None
              end
  | None => None
  end.

(** ** Matching and extraction *)

(** [relOrAbsPath.replace(/\\/g, '/')] *)
Definition to_posix (p : str) : str := map (fun c => if c =? 92 then 47 else c) p.

Definition after_last_slash (p : str) : str :=
  reverse (take_while (fun c => negb (c =? 47)) (reverse p)).

Definition matchRuleForPath (relOrAbsPath : str) (cp : CompiledParser) : option CompiledRule :=
  let base := after_last_slash (to_posix relOrAbsPath) in
  list_find (fun r => existsb (fun rx => re_test rx base) (fileRegexes r) = true) (rules cp)
    ≫= fun p => Some (snd p).

Fixpoint assoc (k : str) (l : list (str * option str)) : option (option str) :=
  match l with
  | [] => None
  | (k', v) :: l' => if bool_decide (k = k') then Some v else assoc k l'
  end.

Definition applyCompiledOne (rx : option regexp) (line wantKey : str) : option str :=
  match rx with
  | None => None
  | Some r =>
      match rx_groups r line with
      | None => None
      | Some [] => None
      | Some ((k0, v0) :: gs) =>
          match assoc wantKey ((k0, v0) :: gs) with Some v => v | None => v0 end
      end
  end.

(** A text in square brackets, the text captured. *)
Definition BRACKETED_RX : re := sq [Bol; chr 91; Grp 1 (star dot); chr 93; Eol].

Definition normalizeTimeToken (s : option str) : option str :=
  match s with
  | Some v =>
      if negb (nonempty v) then s
      else let t := trim v in
           match exec BRACKETED_RX t with
           | Some m => Some (or_else (cap m 1) [])
           | None => Some t
           end
  | None => None
  end.

(** The expression of [stripAnsi]: an escape unit, punctuation, numbers of at most
    four digits with semicolons between them, and a final unit. *)
Definition ANSI_RX : re :=
  sq [Cls (fun c => (c =? 27) || (c =? 155));
      star (Cls (fun c => existsb (Z.eqb c) [91; 93; 40; 41; 35; 59; 63]));
      opt (sq [d; upto 3 d; star (Sq (chr 59) (upto 4 d))]);
      Cls (fun c => is_digit c || ((65 <=? c) && (c <=? 80)) || ((82 <=? c) && (c <=? 84))
                    || (c =? 90) || (c =? 99) || ((102 <=? c) && (c <=? 110))
                    || existsb (Z.eqb c) [116; 113; 114; 121; 61; 62; 60; 126])].

Definition stripAnsi (s : option str) : option str :=
  match s with Some v => Some (if nonempty v then remove_all ANSI_RX v else v) | None => None end.

(** [ParsedFields] and [extractFieldsByCompiledRule] *)
Definition extractFieldsByCompiledRule (line : str) (regex : RuleRegexes) : ParsedPayload :=
  let sanitized := strip_bom line in
  Parsed (normalizeTimeToken (applyCompiledOne (rx_time regex) sanitized (js "time")))
         (applyCompiledOne (rx_process regex) sanitized (js "process"))
         (applyCompiledOne (rx_pid regex) sanitized (js "pid"))
         (stripAnsi (applyCompiledOne (rx_message regex) sanitized (js "message"))).

Definition isLineMatchByRequirements (line : str) (rule : CompiledRule) (need : Requirements)
  : bool :=
  let f := extractFieldsByCompiledRule line (cr_regex rule) in
  if need_time need && negb (truthy (p_time f)) then false
  else if need_process need && negb (truthy (p_process f)) then false
  else if need_pid need && negb (truthy (p_pid f)) then false
  else if need_message need && negb (truthy (p_message f)) then false
  else if negb (need_time need) && negb (need_process need) && negb (need_pid need)
          && negb (need_message need) then truthy (p_message f)
  else true.

(** ** The sample *)

Record sampler := Sampler {
  sm_out : list str; sm_residual : str; sm_finished : bool; sm_bomStripped : bool }.

(** The loop over the complete lines of a chunk; it stops when the sample is
    full. *)
Fixpoint sample_parts (maxLines : nat) (parts : list str) (st : sampler) : sampler :=
  match parts with
  | [] => st
  | p :: parts' =>
      let p := if sm_bomStripped st then p else strip_bom p in
      let out := if nonempty p then sm_out st ++ [p] else sm_out st in
      let full := (maxLines <=? length out)%nat in
      let st' := Sampler out (sm_residual st) full true in
      if full then st' else sample_parts maxLines parts' st'
  end.

Definition sample_data (maxLines : nat) (st : sampler) (chunk : str) : sampler :=
  if sm_finished st then st
  else
    let parts := split_crlf (sm_residual st ++ chunk) in
    sample_parts maxLines (take (length parts - 1) parts)
      (Sampler (sm_out st) (or_else (last parts) []) false (sm_bomStripped st)).

Definition sample_end (maxLines : nat) (st : sampler) : sampler :=
  if sm_finished st then st
  else
    let out :=
      if nonempty (sm_residual st) && (length (sm_out st) <? maxLines)%nat
      then sm_out st ++ [if sm_bomStripped st then sm_residual st else strip_bom (sm_residual st)]
      else sm_out st in
    Sampler out (sm_residual st) true true.

Definition readSampleLines (chunks : list str) (maxLines : nat) : list str :=
  let st := sample_end maxLines (foldl (sample_data maxLines) (Sampler [] [] false false) chunks) in
  take maxLines (sm_out st).

(** ** [shouldUseParserForFile] *)

(** A file as a stream: its chunks of text, or an error. *)
Definition shouldUseParserForFile (file : js_result (list str)) (filePath relPath : str)
    (cp : CompiledParser) : js_result bool :=
  match matchRuleForPath (if nonempty relPath then relPath else filePath) cp with
  | None => Ok false
  | Some rule =>
      (let! chunks := file in
       let sample := readSampleLines chunks (Z.to_nat (Z.max 1 (sample_lines cp))) in
       if negb (nonempty sample) then Ok false
       else if existsb (fun line => existsb (fun rx => re_test rx line) (hardSkip cp)) sample
       then Ok false
       else
         let matched :=
           zlen (filter (fun l => isLineMatchByRequirements l rule (requirements cp) = true) sample) in
         Ok (fst (min_match_ratio cp) * zlen sample <=? matched * snd (min_match_ratio cp)))%edge
  end.

(** ** Entries *)

(** [isParsedHeaderAllMissing] *)
Definition isParsedHeaderAllMissing (parsed : option ParsedPayload) : bool :=
  let p := or_else parsed (Parsed None None None None) in
  let has := fun o : option str => nonempty (trim (or_else o [])) in
  negb (has (p_time p)) && negb (has (p_process p)) && negb (has (p_pid p)).

Definition bracket (s : str) : str := js "[" ++ s ++ js "]".

(** [lineToEntryWithParser]; [now] is [Date.now()] and [now_year] its year. *)
Definition lineToEntryWithParser (now now_year : Z) (filePath line : str)
    (cp : option CompiledParser) (fallbackTs fileRank revIdx : option Z) : LogEntry :=
  let bn := basename filePath in
  let ts := or_else (parseTs now_year line) (or_else fallbackTs 0) in
  let plain := Entry now None ts (guessLevel line) bn bn filePath line None fileRank revIdx in
  match cp with
  | None => plain
  | Some cp =>
      match matchRuleForPath bn cp with
      | None => plain
      | Some rule =>
          let fields := extractFieldsByCompiledRule line (cr_regex rule) in
          let ts' :=
            if truthy (p_time fields)
            then or_else (parseTs now_year (bracket (or_else (p_time fields) []))) ts else ts in
          let text := if truthy (p_message fields) then or_else (p_message fields) [] else line in
          Entry now None ts' (guessLevel (or_else (p_message fields) line)) bn bn filePath text
            (Some fields) fileRank revIdx
      end
  end.

(** [restoreFullTextIfNeeded] of LogFileIntegration.ts *)
Definition restore_text (p : ParsedPayload) (e_text : str) : str :=
  let time := trim (or_else (p_time p) []) in
  let proc := trim (or_else (p_process p) []) in
  let pid := trim (or_else (p_pid p) []) in
  bracket time ++ js " " ++ proc ++ (if nonempty pid then bracket pid else []) ++ js ": "
    ++ or_else (p_message p) e_text.

Definition restoreFullTextIfNeeded (now_year : Z) (e : LogEntry) (preserve : bool) : LogEntry :=
  if negb preserve then e
  else
    match e_parsed e with
    | None => e
    | Some p =>
        let time := trim (or_else (p_time p) []) in
        let proc := trim (or_else (p_process p) []) in
        if negb (nonempty time) || negb (nonempty proc) then e
        else
          let full := restore_text p (e_text e) in
          let t := match parseTs now_year (bracket time) with
                   | Some t => Some t
                   | None => parseTs now_year full
                   end in
          set_text (match t with Some t => set_ts e t | None => e end) full
    end.
End engine.

(** ** The sample is the first lines of the text *)

Definition fix_bom (parts : list str) : list str :=
  match parts with [] => [] | p :: ps => strip_bom p :: ps end.

Lemma strip_cr_head c w x y : strip_cr (c :: w) = x :: y -> x = c.
Proof.
  unfold strip_cr. destruct (last (c :: w)) as [z|]; [|by intros [= -> _]].
  destruct (z =? 13); [|by intros [= -> _]]. destruct w; simpl; [done|]. by intros [= -> _].
Qed.

Lemma split_crlf_bom T : split_crlf (strip_bom T) = fix_bom (split_crlf T).
Proof.
  destruct T as [|c T]; [done|]. cbn [strip_bom]. destruct (Z.eqb_spec c 65279) as [->|Hc].
  - cbn [split_crlf]. change (65279 =? 10) with false. change (65279 =? 13) with false.
    cbv iota. assert (H := split_crlf_not_nil T). by destruct (split_crlf T).
  - assert (H := split_crlf_spec (c :: T)). cbn [split_on] in H. rewrite H.
    destruct (c =? 10).
    + assert (Hn := split_on_not_nil 10 T). by destruct (split_on 10 T).
    + assert (Hn := split_on_not_nil 10 T). destruct (split_on 10 T) as [|w ws]; [done|].
      destruct ws as [|v ws]; cbn [strip_init fix_bom strip_bom].
      * by destruct (Z.eqb_spec c 65279).
      * f_equal. destruct (strip_cr (c :: w)) as [|x y] eqn:E; [done|]. cbn [strip_bom].
        assert (x = c) as ->; [|by destruct (Z.eqb_spec c 65279)].
        by apply strip_cr_head in E.
Qed.

#[local] Abbreviation ne_lines := (filter (fun l : str => nonempty l = true)).

Lemma sample_parts_spec maxLines parts out residual bom :
  (length out < maxLines)%nat -> (bom = false -> parts = [] \/ out = []) ->
  let ps := if bom then parts else fix_bom parts in
  sample_parts maxLines parts (Sampler out residual false bom) =
  if (length (out ++ ne_lines ps) <? maxLines)%nat
  then Sampler (out ++ ne_lines ps) residual false (bom || nonempty parts)
  else Sampler (take maxLines (out ++ ne_lines ps)) residual true true.
Proof.
  revert out bom. induction parts as [|p parts IH]; intros out bom Hout Hbom; cbv zeta.
  - cbn [sample_parts fix_bom]. rewrite orb_false_r.
    replace (if bom then [] else []) with (@nil str) by (by destruct bom).
    rewrite app_nil_r. destruct (Nat.ltb_spec (length out) maxLines); [done|lia].
  - cbn [sample_parts sm_bomStripped sm_out sm_residual].
    replace (if bom then p :: parts else fix_bom (p :: parts))
      with ((if bom then p else strip_bom p) :: parts) by (by destruct bom).
    set (q := if bom then p else strip_bom p).
    replace (out ++ ne_lines (q :: parts))
      with ((if nonempty q then out ++ [q] else out) ++ ne_lines parts); last first.
    { rewrite filter_cons. destruct (nonempty q); [|by rewrite decide_False].
      rewrite decide_True by done. by rewrite <- app_assoc. }
    set (out' := if nonempty q then out ++ [q] else out).
    assert (Hlen : (length out' <= S (length out))%nat).
    { unfold out'. destruct (nonempty q); rewrite ?length_app; simpl; lia. }
    destruct (Nat.leb_spec maxLines (length out')) as [Hfull|Hmore].
    + assert (length out' = maxLines) by lia.
      destruct (Nat.ltb_spec (length (out' ++ ne_lines parts)) maxLines) as [Hlt|_].
      { rewrite length_app in Hlt. lia. }
      f_equal. subst maxLines. by rewrite take_app_length.
    + rewrite IH by done. cbv zeta. cbn [orb nonempty]. by rewrite orb_true_r.
Qed.

Record sample_inv (maxLines : nat) (T : str) (st : sampler) : Prop := {
  si_ws : exists ws w, split_crlf T = ws ++ [w] /\
    (forall t, split_crlf (T ++ t) = ws ++ split_crlf (w ++ t)) /\
    if sm_finished st
    then (maxLines <= length (ne_lines (fix_bom ws)))%nat /\
         sm_out st = take maxLines (ne_lines (fix_bom ws))
    else (length (ne_lines (fix_bom ws)) < maxLines)%nat /\
         sm_out st = ne_lines (fix_bom ws) /\ sm_residual st = w /\
         sm_bomStripped st = nonempty ws;
}.

Lemma fix_bom_app ws vs : ws <> [] -> fix_bom (ws ++ vs) = fix_bom ws ++ vs.
Proof. by destruct ws. Qed.

Lemma sample_data_inv maxLines T st c :
  (0 < maxLines)%nat -> sample_inv maxLines T st ->
  sample_inv maxLines (T ++ c) (sample_data maxLines st c).
Proof.
  intros Hmax [(ws & w & E & Happ & Hst)]. constructor. unfold sample_data.
  destruct (split_crlf_snoc (w ++ c)) as (vs & v & Ev & Hv).
  exists (ws ++ vs), v. split; [by rewrite Happ, Ev, app_assoc|].
  split; [intros t; by rewrite <- app_assoc, Happ, app_assoc, Hv, app_assoc|].
  destruct st as [out res fin bom]. cbn [sm_finished sm_out sm_residual sm_bomStripped] in *.
  destruct fin.
  - destruct Hst as [Hlen Hout]. destruct ws as [|p ws]; [simpl in Hlen; lia|].
    rewrite fix_bom_app, filter_app by done. split; [rewrite length_app; lia|].
    cbn [sm_out]. by rewrite take_app_le by lia.
  - destruct Hst as (Hlen & -> & -> & ->). rewrite Ev, length_app, Nat.add_sub, take_app_length.
    rewrite last_snoc. cbn [or_else].
    rewrite sample_parts_spec by (done || (intros; right; by destruct ws)). cbv zeta.
    replace (ne_lines (fix_bom ws) ++ ne_lines (if nonempty ws then vs else fix_bom vs))
      with (ne_lines (fix_bom (ws ++ vs))); last first.
    { destruct ws; [done|]. by rewrite fix_bom_app, filter_app. }
    destruct (Nat.ltb_spec (length (ne_lines (fix_bom (ws ++ vs)))) maxLines); simpl; [|done].
    split; [done|]. split; [done|]. split; [done|]. by destruct ws.
Qed.

(** however the stream cuts a file, the preflight's sample is the first
    non-empty lines of the file, up to the number asked for; the one file for
    which it is not consists of a byte order mark alone. *)
Theorem sample_is_first_lines chunks maxLines :
  (0 < maxLines)%nat -> mjoin chunks <> [65279] ->
  readSampleLines chunks maxLines =
  take maxLines (forward_lines (strip_bom (mjoin chunks))).
Proof.
  intros Hmax Hbom. unfold readSampleLines.
  assert (Hinv : forall T st, sample_inv maxLines T st ->
    sample_inv maxLines (T ++ mjoin chunks) (foldl (sample_data maxLines) st chunks)).
  { clear Hbom. induction chunks as [|c cs IH]; intros T st H; [by rewrite app_nil_r|].
    cbn [foldl mjoin list_join]. rewrite app_assoc. by apply IH, sample_data_inv. }
  destruct (Hinv [] (Sampler [] [] false false)) as [(ws & w & E & _ & Hst)].
  { constructor. by exists [], []. }
  rewrite app_nil_l in E. unfold forward_lines. rewrite split_crlf_bom, E.
  destruct (foldl _ _ _) as [out res fin bom]. unfold sample_end.
  cbn [sm_finished sm_out sm_residual sm_bomStripped] in *. destruct fin; cbn [sm_out].
  - destruct Hst as [Hlen ->]. destruct ws as [|p ws]; [simpl in Hlen; lia|].
    rewrite fix_bom_app, filter_app by done. by rewrite take_take, Nat.min_id, take_app_le by lia.
  - destruct Hst as (Hlen & -> & -> & ->). destruct (Nat.ltb_spec (length (ne_lines (fix_bom ws))) maxLines);
      [|lia]. rewrite andb_true_r. f_equal. destruct ws as [|p ws].
    + assert (Hw : mjoin chunks = w).
      { assert (H' := split_crlf_spec (mjoin chunks)). rewrite E in H'.
        assert (J := join_split_on 10 (mjoin chunks)).
        destruct (split_on 10 (mjoin chunks)) as [|x [|y l]]; [done| |by destruct l].
        simpl in H', J. by injection H' as ->. }
      cbn [fix_bom app]. destruct w as [|x w]; [done|]. cbn [nonempty app].
      rewrite filter_cons_True; [done|]. cbn [strip_bom].
      destruct (Z.eqb_spec x 65279) as [->|]; [|done]. by destruct w.
    + rewrite fix_bom_app, filter_app by done. cbn [nonempty]. by destruct w; rewrite ?app_nil_r.
Qed.

Lemma sample_is_first_lines_witness :
  readSampleLines [[65279; 97; 13]; [10; 10; 98; 10; 99]] 2 = [[97]; [98]].
Proof.
  rewrite (sample_is_first_lines [[65279; 97; 13]; [10; 10; 98; 10; 99]] 2);
    [reflexivity|lia|done].
Defined.
