(* ===== verification/Json.v ===== *)
(** * JSON

    What the sources use of [JSON.stringify] and [JSON.parse]: values whose
    numbers are integers, printed without spaces, and the parser of the language
    (white space, all escapes, the last of two equal keys wins).  Then the form
    in which a [LogEntry] is written to a line of a file.

    [JsonCodec] is the interface the clients use, [JsonLaws] what they rely on;
    both are discharged here.  A lone surrogate is escaped, as the language
    prescribes, so the text of a value is always well-formed UTF-16 and survives
    the UTF-8 file it is written to. *)

From stdpp Require Import base list strings.
From Stdlib Require Import ZArith Lia.
From S2P Require Import Prelude JsString TimeParser LogEntry.

Inductive json :=
| JNull
| JBool (b : bool)
| JNum (n : Z)
| JStr (s : str)
| JArr (l : list json)
| JObj (l : list (str * json)).

(** ** Printing *)

Definition hex_digit (n : Z) : Z := if n <? 10 then 48 + n else 87 + n.

(** [\uXXXX] *)
Definition u_escape (c : Z) : str :=
  [92; 117; hex_digit (c / 4096); hex_digit (c / 256 mod 16); hex_digit (c / 16 mod 16);
   hex_digit (c mod 16)].

Definition is_high (c : Z) : bool := (55296 <=? c) && (c <=? 56319).
Definition is_low (c : Z) : bool := (56320 <=? c) && (c <=? 57343).

Fixpoint escape (s : str) : str :=
  match s with
  | [] => []
  | c :: t =>
      if c =? 34 then 92 :: 34 :: escape t
      else if c =? 92 then 92 :: 92 :: escape t
      else if c =? 8 then 92 :: 98 :: escape t
      else if c =? 9 then 92 :: 116 :: escape t
      else if c =? 10 then 92 :: 110 :: escape t
      else if c =? 12 then 92 :: 102 :: escape t
      else if c =? 13 then 92 :: 114 :: escape t
      else if (0 <=? c) && (c <? 32) then u_escape c ++ escape t
      else if is_high c then
        match t with
        | d :: t' => if is_low d then c :: d :: escape t' else u_escape c ++ escape t
        | [] => u_escape c
        end
      else if is_low c then u_escape c ++ escape t
      else c :: escape t
  end.

Definition quote (s : str) : str := 34 :: escape s ++ [34].

Fixpoint print_json (v : json) : str :=
  match v with
  | JNull => js "null"
  | JBool b => if b then js "true" else js "false"
  | JNum n => print_int n
  | JStr s => quote s
  | JArr l =>
      91 :: (fix go (first : bool) (l : list json) : str :=
               match l with
               | [] => [93]
               | x :: l' => (if first then [] else [44]) ++ print_json x ++ go false l'
               end) true l
  | JObj l =>
      123 :: (fix go (first : bool) (l : list (str * json)) : str :=
                match l with
                | [] => [125]
                | (k, x) :: l' =>
                    (if first then [] else [44]) ++ quote k ++ 58 :: print_json x ++ go false l'
                end) true l
  end.

(** The rest of an array or an object after its first bracket. *)
Fixpoint print_items (first : bool) (l : list json) : str :=
  match l with
  | [] => [93]
  | x :: l' => (if first then [] else [44]) ++ print_json x ++ print_items false l'
  end.

Fixpoint print_members (first : bool) (l : list (str * json)) : str :=
  match l with
  | [] => [125]
  | (k, x) :: l' =>
      (if first then [] else [44]) ++ quote k ++ 58 :: print_json x ++ print_members false l'
  end.

(** ** Parsing *)

Definition json_ws (c : Z) : bool := existsb (Z.eqb c) [9; 10; 13; 32].

Definition skip_ws (s : str) : str := drop_while json_ws s.

Definition unhex (c : Z) : option Z :=
  if is_digit c then Some (c - 48)
  else if (97 <=? c) && (c <=? 102) then Some (c - 87)
  else if (65 <=? c) && (c <=? 70) then Some (c - 55)
  else None.

Definition unhex4 (a b c d : Z) : option Z :=
  match unhex a, unhex b, unhex c, unhex d with
  | Some a, Some b, Some c, Some d => Some (a * 4096 + b * 256 + c * 16 + d)
  | _, _, _, _ => None
  end.

(** What follows a backslash, but [u]. *)
Definition unescape (e : Z) : option Z :=
  if e =? 34 then Some 34 else if e =? 92 then Some 92 else if e =? 47 then Some 47
  else if e =? 98 then Some 8 else if e =? 102 then Some 12 else if e =? 110 then Some 10
  else if e =? 114 then Some 13 else if e =? 116 then Some 9 else None.

Definition cons_fst (c : Z) (o : option (str * str)) : option (str * str) :=
  match o with Some (s, r) => Some (c :: s, r) | None => None end.

(** The units of a string up to its closing quote. *)
Fixpoint parse_units (s : str) : option (str * str) :=
  match s with
  | [] => None
  | c :: r =>
      if c =? 34 then Some ([], r)
      else if c =? 92 then
        match r with
        | e :: r1 =>
            if e =? 117 then
              match r1 with
              | h1 :: h2 :: h3 :: h4 :: r2 =>
                  match unhex4 h1 h2 h3 h4 with
                  | Some u => cons_fst u (parse_units r2)
                  | None => None
                  end
              | _ => None
              end
            else match unescape e with
                 | Some u => cons_fst u (parse_units r1)
                 | None => None
                 end
        | [] => None
        end
      else if (0 <=? c) && (c <? 32) then None
      else cons_fst c (parse_units r)
  end.

Definition strip_prefix (p s : str) : option str :=
  if starts_with p s then Some (drop (length p) s) else None.

(** A number without fraction and exponent; no superfluous leading zero. *)
Definition parse_number (s : str) : option (Z * str) :=
  let '(sgn, t) := match s with c :: t => if c =? 45 then (-1, t) else (1, s) | [] => (1, s) end in
  let ds := take_while is_digit t in
  let rest := drop (length ds) t in
  match ds with
  | [] => None
  | d0 :: ds' =>
      if (d0 =? 48) && nonempty ds' then None
      else match rest with
           | c :: _ => if existsb (Z.eqb c) [46; 101; 69] then None
                       else Some (sgn * digits_value 0 ds, rest)
           | [] => Some (sgn * digits_value 0 ds, rest)
           end
  end.

(** A value at the head of the text; [fuel] bounds the depth plus the number of
    the members read. *)
Fixpoint parse_value (fuel : nat) (s : str) : option (json * str) :=
  match fuel with
  | O => None
  | S f =>
      match skip_ws s with
      | [] => None
      | c :: r =>
          if c =? 34 then
            match parse_units r with Some (u, r') => Some (JStr u, r') | None => None end
          else if c =? 91 then
            match skip_ws r with
            | e :: r' => if e =? 93 then Some (JArr [], r') else parse_items f [] r
            | [] => None
            end
          else if c =? 123 then
            match skip_ws r with
            | e :: r' => if e =? 125 then Some (JObj [], r') else parse_members f [] r
            | [] => None
            end
          else match strip_prefix (js "null") (c :: r) with
               | Some r' => Some (JNull, r')
               | None =>
                   match strip_prefix (js "true") (c :: r) with
                   | Some r' => Some (JBool true, r')
                   | None =>
                       match strip_prefix (js "false") (c :: r) with
                       | Some r' => Some (JBool false, r')
                       | None =>
                           match parse_number (c :: r) with
                           | Some (n, r') => Some (JNum n, r')
                           | None => None
                           end
                       end
                   end
               end
      end
  end
with parse_items (fuel : nat) (acc : list json) (s : str) : option (json * str) :=
  match fuel with
  | O => None
  | S f =>
      match parse_value f s with
      | Some (v, r) =>
          match skip_ws r with
          | c :: r' =>
              if c =? 44 then parse_items f (acc ++ [v]) r'
              else if c =? 93 then Some (JArr (acc ++ [v]), r') else None
          | [] => None
          end
      | None => None
      end
  end
with parse_members (fuel : nat) (acc : list (str * json)) (s : str) : option (json * str) :=
  match fuel with
  | O => None
  | S f =>
      match skip_ws s with
      | c :: r =>
          if c =? 34 then
            match parse_units r with
            | Some (k, r1) =>
                match skip_ws r1 with
                | c1 :: r2 =>
                    if c1 =? 58 then
                      match parse_value f r2 with
                      | Some (v, r3) =>
                          match skip_ws r3 with
                          | c2 :: r4 =>
                              if c2 =? 44 then parse_members f (acc ++ [(k, v)]) r4
                              else if c2 =? 125 then Some (JObj (acc ++ [(k, v)]), r4) else None
                          | [] => None
                          end
                      | None => None
                      end
                    else None
                | [] => None
                end
            | None => None
            end
          else None
      | [] => None
      end
  end.

(** [JSON.parse]: one value and nothing after it but white space.  A nested value
    or a further member takes at least one unit of the text, so twice its length
    is fuel enough. *)
Definition JSON_parse (s : str) : option json :=
  match parse_value (S (2 * length s)) s with
  | Some (v, r) => if nonempty (skip_ws r) then None else Some v
  | None => None
  end.

(** ** Entries *)

Definition level_name (l : level) : str :=
  match l with LvD => js "D" | LvI => js "I" | LvW => js "W" | LvE => js "E" end.

Definition level_of (s : str) : option level :=
  if bool_decide (s = js "D") then Some LvD
  else if bool_decide (s = js "I") then Some LvI
  else if bool_decide (s = js "W") then Some LvW
  else if bool_decide (s = js "E") then Some LvE
  else None.

Definition str_or_null (o : option str) : json :=
  match o with Some s => JStr s | None => JNull end.

Definition parsed_to_json (p : ParsedPayload) : json :=
  JObj [(js "time", str_or_null (p_time p)); (js "process", str_or_null (p_process p));
        (js "pid", str_or_null (p_pid p)); (js "message", str_or_null (p_message p))].

(** A field that is left out when it is [undefined]. *)
Definition opt_field {A} (k : string) (f : A -> json) (o : option A) : list (str * json) :=
  match o with Some x => [(js k, f x)] | None => [] end.

(** The fields in the order in which [lineToEntryWithParser] sets them. *)
Definition entry_to_json (e : LogEntry) : json :=
  JObj ([(js "id", JNum (e_id e)); (js "ts", JNum (e_ts e));
         (js "level", JStr (level_name (e_level e))); (js "type", JStr (js "system"));
         (js "source", JStr (e_source e)); (js "file", JStr (e_file e));
         (js "path", JStr (e_path e)); (js "text", JStr (e_text e))]
        ++ opt_field "parsed" parsed_to_json (e_parsed e)
        ++ opt_field "_fRank" JNum (e_fRank e) ++ opt_field "_rev" JNum (e_rev e)
        ++ opt_field "idx" JNum (e_idx e)).

(** [obj[k]]: the last member of that name. *)
Fixpoint jget (k : str) (l : list (str * json)) : option json :=
  match l with
  | [] => None
  | (k', v) :: l' =>
      match jget k l' with
      | Some v' => Some v'
      | None => if bool_decide (k = k') then Some v else None
      end
  end.

Definition get_str (k : string) (l : list (str * json)) : option str :=
  match jget (js k) l with Some (JStr s) => Some s | _ => None end.

Definition get_num (k : string) (l : list (str * json)) : option Z :=
  match jget (js k) l with Some (JNum n) => Some n | _ => None end.

Definition parsed_of_json (v : json) : option ParsedPayload :=
  match v with
  | JObj l => Some (Parsed (get_str "time" l) (get_str "process" l) (get_str "pid" l)
                      (get_str "message" l))
  | _ => None
  end.

(** An object with the fields every entry has; the names of older files may be
    missing. *)
Definition entry_of_json (v : json) : option LogEntry :=
  match v with
  | JObj l =>
      match get_num "id" l, get_num "ts" l, get_str "level" l, get_str "text" l with
      | Some id, Some ts, Some lv, Some text =>
          match level_of lv with
          | Some lv =>
              Some (Entry id (get_num "idx" l) ts lv (or_else (get_str "source" l) [])
                      (or_else (get_str "file" l) []) (or_else (get_str "path" l) []) text
                      (jget (js "parsed") l ≫= parsed_of_json)
                      (get_num "_fRank" l) (get_num "_rev" l))
          | None => None
          end
      | _, _, _, _ => None
      end
  | _ => None
  end.

(** The strings of an entry, in any order *)
Definition parsed_strings (p : ParsedPayload) : list str :=
  map (fun o => or_else o []) [p_time p; p_process p; p_pid p; p_message p].

Definition entry_strings (e : LogEntry) : list str :=
  [e_source e; e_file e; e_path e; e_text e] ++
  match e_parsed e with Some p => parsed_strings p | None => [] end.

(** A text without the separators U+2028 and U+2029, which JSON leaves as they are *)
Definition sep_free (s : str) : Prop := Forall (fun c => c <> 8232 /\ c <> 8233) s.

(** A text without line ends *)
Definition line_safe (s : str) : Prop :=
  Forall (fun c => c <> 10 /\ c <> 13 /\ c <> 8232 /\ c <> 8233) s.

(** ** The interface of the clients *)

Class JsonCodec := {
  stringify : LogEntry -> str;
  json_parse : str -> option LogEntry;
}.

Class JsonLaws `{JsonCodec} : Prop := {
  parse_stringify : forall e, json_parse (stringify e) = Some e;
  stringify_line : forall e, Forall (fun c => c <> 10 /\ c <> 13) (stringify e);
  stringify_brace : forall e, exists t, stringify e = 123 :: t;
  stringify_close : forall e, exists t, stringify e = t ++ [125];
  stringify_safe : forall e, Forall sep_free (entry_strings e) -> line_safe (stringify e);
}.

#[export] Instance json_codec : JsonCodec := {
  stringify e := print_json (entry_to_json e);
  json_parse s := JSON_parse s ≫= entry_of_json;
}.

(** ** Strings round trip *)

Lemma unhex_digit n : 0 <= n < 16 -> unhex (hex_digit n) = Some n.
Proof.
  intros H. unfold unhex, hex_digit, is_digit. destruct (Z.ltb_spec n 10).
  - destruct (Z.leb_spec 48 (48 + n)), (Z.leb_spec (48 + n) 57); try lia. simpl. f_equal. lia.
  - destruct (Z.leb_spec 48 (87 + n)), (Z.leb_spec (87 + n) 57); try lia. simpl.
    destruct (Z.leb_spec 97 (87 + n)), (Z.leb_spec (87 + n) 102); try lia. simpl. f_equal. lia.
Qed.

Lemma parse_units_u c r :
  0 <= c < 65536 -> parse_units (u_escape c ++ r) = cons_fst c (parse_units r).
Proof.
  intros H. unfold u_escape. cbn [app parse_units].
  change (92 =? 34) with false. change (92 =? 92) with true. change (117 =? 117) with true.
  cbv iota. unfold unhex4.
  rewrite !unhex_digit by first [apply Z.mod_pos_bound; lia | Z.to_euclidean_division_equations; lia].
  do 2 f_equal. Z.to_euclidean_division_equations. lia.
Qed.

Lemma parse_units_raw c r :
  c <> 34 -> c <> 92 -> ((0 <=? c) && (c <? 32)) = false ->
  parse_units (c :: r) = cons_fst c (parse_units r).
Proof.
  intros H1 H2 H3. cbn [parse_units].
  destruct (Z.eqb_spec c 34); [done|]. destruct (Z.eqb_spec c 92); [done|]. by rewrite H3.
Qed.

Lemma is_high_range c : is_high c = true -> 55296 <= c <= 56319.
Proof. unfold is_high. intros [?%Z.leb_le ?%Z.leb_le]%andb_prop. lia. Qed.

Lemma is_low_range c : is_low c = true -> 56320 <= c <= 57343.
Proof. unfold is_low. intros [?%Z.leb_le ?%Z.leb_le]%andb_prop. lia. Qed.

Lemma parse_units_escape s r : parse_units (escape s ++ 34 :: r) = Some (s, r).
Proof.
  remember (length s) as n eqn:En. revert s En. induction (lt_wf n) as [n _ IH]. intros s ->.
  assert (IH' : forall s', (length s' < length s)%nat ->
    parse_units (escape s' ++ 34 :: r) = Some (s', r)) by eauto. clear IH.
  destruct s as [|c t]; [done|].
  assert (Ht := IH' t ltac:(simpl; lia)). cbn [escape].
  repeat match goal with
  | |- context [if c =? ?k then _ else _] =>
      destruct (Z.eqb_spec c k) as [->|]; [cbn [app parse_units]; simpl; by rewrite Ht|]
  end.
  destruct ((0 <=? c) && (c <? 32)) eqn:Ec.
  { rewrite <- app_assoc, parse_units_u, Ht; [done|].
    apply andb_prop in Ec as [?%Z.leb_le ?%Z.ltb_lt]. lia. }
  destruct (is_high c) eqn:Eh.
  - apply is_high_range in Eh. destruct t as [|d t].
    + rewrite parse_units_u by lia. done.
    + destruct (is_low d) eqn:El.
      * apply is_low_range in El. cbn [app]. rewrite parse_units_raw by (done || lia).
        rewrite parse_units_raw; [|lia|lia|destruct (Z.ltb_spec d 32); [lia|apply andb_false_r]].
        rewrite IH'; [done|simpl; lia].
      * rewrite <- app_assoc, parse_units_u, Ht by lia. done.
  - destruct (is_low c) eqn:El.
    + apply is_low_range in El. rewrite <- app_assoc, parse_units_u, Ht by lia. done.
    + cbn [app]. rewrite parse_units_raw, Ht by done. done.
Qed.

(** ** Numbers round trip *)

(** What may follow a number. *)
Definition num_end (rest : str) : Prop :=
  match rest with
  | c :: _ => is_digit c = false /\ existsb (Z.eqb c) [46; 101; 69] = false
  | [] => True
  end.

Lemma print_digits_lead fuel n acc :
  0 < n -> n < 2 ^ Z.of_nat fuel -> head (print_digits fuel n acc) <> Some 48.
Proof.
  revert n acc. induction fuel as [|f IH]; intros n acc Hn Hlt; [simpl in Hlt; lia|].
  cbn [print_digits]. destruct (Z.ltb_spec n 10).
  - rewrite Z.mod_small by lia. simpl. intros [= E]. lia.
  - apply IH; [Z.to_euclidean_division_equations; lia|].
    rewrite Nat2Z.inj_succ, Z.pow_succ_r in Hlt by lia. Z.to_euclidean_division_equations. lia.
Qed.

Lemma print_nat_lead n : 0 < n -> head (print_nat n) <> Some 48.
Proof.
  intros Hn. apply print_digits_lead; [done|].
  rewrite Z2Nat.id by (pose proof (Z.log2_nonneg n); lia).
  pose proof (Z.log2_spec n). replace (Z.log2 n + 1) with (Z.succ (Z.log2 n)) by lia. lia.
Qed.

Lemma take_while_stop p s rest :
  Forall (fun c => p c = true) s -> match rest with c :: _ => p c = false | [] => True end ->
  take_while p (s ++ rest) = s.
Proof.
  intros Hs Hr. induction Hs as [|c s Hc _ IH]; simpl; [|by rewrite Hc, IH].
  destruct rest; simpl; [done|]. by rewrite Hr.
Qed.

Lemma parse_number_nat sgn_text sgn n rest :
  0 <= n -> num_end rest ->
  (sgn_text = [45] /\ sgn = -1 \/ sgn_text = [] /\ sgn = 1) ->
  parse_number (sgn_text ++ print_nat n ++ rest) = Some (sgn * n, rest).
Proof.
  intros Hn Hrest Hsgn. destruct (print_nat_spec n Hn) as (Hne & Hd & Hv).
  unfold parse_number.
  assert (Es : match sgn_text ++ print_nat n ++ rest with
    | c :: t => if c =? 45 then (-1, t) else (1, sgn_text ++ print_nat n ++ rest)
    | [] => (1, sgn_text ++ print_nat n ++ rest)
    end = (sgn, print_nat n ++ rest)).
  { destruct Hsgn as [[-> ->]|[-> ->]]; [done|]. cbn [app].
    destruct (print_nat n) as [|c t] eqn:E; [done|]. cbn [app].
    apply Forall_cons in Hd as [Hc _]. destruct (Z.eqb_spec c 45) as [->|]; [done|done]. }
  rewrite Es. rewrite take_while_stop; [|done|destruct rest; [done|by destruct Hrest]].
  rewrite drop_app_length. destruct (print_nat n) as [|c t] eqn:E; [done|].
  assert (Hlead : (c =? 48) && nonempty t = false).
  { destruct (decide (n = 0)) as [->|]; [by injection E as <- <-|].
    assert (H := print_nat_lead n ltac:(lia)). rewrite E in H.
    destruct (Z.eqb_spec c 48) as [->|]; [done|done]. }
  rewrite Hlead, Hv. destruct rest as [|x r]; [done|]. destruct Hrest as [_ ->]. done.
Qed.

Lemma parse_number_int n rest :
  num_end rest -> parse_number (print_int n ++ rest) = Some (n, rest).
Proof.
  intros Hrest. unfold print_int. destruct (Z.ltb_spec n 0).
  - change (45 :: print_nat (- n)) with ([45] ++ print_nat (- n)). rewrite <- app_assoc.
    rewrite (parse_number_nat [45] (-1)) by (lia || done || auto). do 2 f_equal. lia.
  - assert (H1 := parse_number_nat [] 1 n rest). cbn [app] in H1.
    rewrite H1 by (lia || done || auto). do 2 f_equal. lia.
Qed.

(** ** Values round trip *)

Section json_induction.
Context (P : json -> Prop).
Hypothesis Hnull : P JNull.
Hypothesis Hbool : forall b, P (JBool b).
Hypothesis Hnum : forall n, P (JNum n).
Hypothesis Hstr : forall s, P (JStr s).
Hypothesis Harr : forall l, Forall P l -> P (JArr l).
Hypothesis Hobj : forall l, Forall (fun p => P (snd p)) l -> P (JObj l).

Fixpoint json_nested_ind (v : json) : P v :=
  match v with
  | JNull => Hnull
  | JBool b => Hbool b
  | JNum n => Hnum n
  | JStr s => Hstr s
  | JArr l => Harr l ((fix go l := match l return Forall P l with
      | [] => Forall_nil_2 _
      | x :: l' => Forall_cons_2 _ _ _ (json_nested_ind x) (go l') end) l)
  | JObj l => Hobj l ((fix go l := match l return Forall (fun p => P (snd p)) l with
      | [] => Forall_nil_2 _
      | p :: l' => Forall_cons_2 _ _ _ (json_nested_ind (snd p)) (go l') end) l)
  end.
End json_induction.

Fixpoint jsize (v : json) : nat :=
  match v with
  | JArr l => S ((fix go l := match l with [] => O | x :: l' => S (jsize x + go l') end) l)
  | JObj l => S ((fix go l := match l with [] => O | p :: l' => S (jsize (snd p) + go l') end) l)
  | _ => 1
  end.

Fixpoint items_size (l : list json) : nat :=
  match l with [] => O | x :: l' => S (jsize x + items_size l') end.

Fixpoint members_size (l : list (str * json)) : nat :=
  match l with [] => O | p :: l' => S (jsize (snd p) + members_size l') end.

Lemma jsize_arr l : jsize (JArr l) = S (items_size l).
Proof. done. Qed.

Lemma jsize_obj l : jsize (JObj l) = S (members_size l).
Proof. done. Qed.

Lemma print_arr l : print_json (JArr l) = 91 :: print_items true l.
Proof. done. Qed.

Lemma print_obj l : print_json (JObj l) = 123 :: print_members true l.
Proof. done. Qed.

Lemma print_int_head n :
  exists c t, print_int n = c :: t /\ (c = 45 \/ is_digit c = true).
Proof.
  unfold print_int. destruct (Z.ltb_spec n 0); [eauto|].
  destruct (print_nat_spec n) as (Hne & Hd & _); [lia|].
  destruct (print_nat n) as [|c t]; [done|]. apply Forall_cons in Hd as [Hc _]. eauto.
Qed.

(** A value starts with a unit that is no white space and closes nothing. *)
Lemma print_json_head v :
  exists c t, print_json v = c :: t /\ json_ws c = false /\ c <> 93 /\ c <> 125.
Proof.
  destruct v as [|[]|n|s|l|l]; try (by do 2 eexists). cbn [print_json].
  destruct (print_int_head n) as (c & t & -> & Hc). exists c, t. split; [done|].
  destruct Hc as [->|Hc]; [done|]. unfold is_digit in Hc. unfold json_ws. cbn [existsb].
  repeat split; lia.
Qed.

Lemma skip_ws_head c t : json_ws c = false -> skip_ws (c :: t) = c :: t.
Proof. intros H. unfold skip_ws. simpl. by rewrite H. Qed.

Lemma skip_ws_print v rest : skip_ws (print_json v ++ rest) = print_json v ++ rest.
Proof.
  destruct (print_json_head v) as (c & t & -> & Hw & _). by apply skip_ws_head.
Qed.

Lemma strip_prefix_no k p c t : k <> c -> strip_prefix (k :: p) (c :: t) = None.
Proof. intros H. unfold strip_prefix. simpl. by destruct (Z.eqb_spec k c). Qed.

Lemma parse_value_num f n rest :
  num_end rest -> parse_value (S f) (print_json (JNum n) ++ rest) = Some (JNum n, rest).
Proof.
  intros Hr. cbn [parse_value]. rewrite skip_ws_print. cbn [print_json].
  assert (Hn := parse_number_int n rest Hr).
  destruct (print_int_head n) as (c & t & E & Hc). rewrite E in *. cbn [app] in *.
  assert (Hc' : c = 45 \/ 48 <= c <= 57).
  { destruct Hc as [|Hc]; [by left|right]. unfold is_digit in Hc. lia. }
  clear Hc. change (js "null") with [110; 117; 108; 108].
  change (js "true") with [116; 114; 117; 101]. change (js "false") with [102; 97; 108; 115; 101].
  rewrite !strip_prefix_no by lia. rewrite Hn.
  destruct (Z.eqb_spec c 34); [lia|]. destruct (Z.eqb_spec c 91); [lia|].
  destruct (Z.eqb_spec c 123); [lia|done].
Qed.

Definition reads (v : json) : Prop := forall fuel rest,
  (jsize v < fuel)%nat -> num_end rest ->
  parse_value fuel (print_json v ++ rest) = Some (v, rest).

Lemma parse_items_print l acc fuel rest :
  Forall reads l -> l <> [] -> (items_size l < fuel)%nat ->
  parse_items fuel acc (print_items true l ++ rest) = Some (JArr (acc ++ l), rest).
Proof.
  intros Hl. revert acc fuel. induction Hl as [|x l Hx Hl IH]; intros acc fuel Hne Hf; [done|].
  destruct fuel as [|f]; [lia|]. cbn [items_size] in Hf.
  cbn [parse_items print_items]. rewrite app_nil_l, <- app_assoc.
  rewrite Hx; [|lia|by destruct l]. destruct l as [|y l].
  - done.
  - change (print_items false (y :: l) ++ rest) with (44 :: print_items true (y :: l) ++ rest).
    rewrite skip_ws_head by done. change (44 =? 44) with true. cbv iota.
    rewrite IH by (done || lia). by rewrite <- app_assoc.
Qed.

Lemma parse_members_print l acc fuel rest :
  Forall (fun p => reads (snd p)) l -> l <> [] -> (members_size l < fuel)%nat ->
  parse_members fuel acc (print_members true l ++ rest) = Some (JObj (acc ++ l), rest).
Proof.
  intros Hl. revert acc fuel. induction Hl as [|[k x] l Hx Hl IH]; intros acc fuel Hne Hf; [done|].
  destruct fuel as [|f]; [lia|]. cbn [members_size snd] in *.
  cbn [parse_members print_members]. unfold quote. cbn [app].
  rewrite skip_ws_head by done. change (34 =? 34) with true. cbv iota.
  rewrite <- !app_assoc. cbn [app]. rewrite parse_units_escape.
  rewrite skip_ws_head by done. change (58 =? 58) with true. cbv iota.
  rewrite <- app_assoc, Hx; [|lia|by destruct l as [|[]]]. destruct l as [|[k' y] l].
  - done.
  - change (print_members false ((k', y) :: l) ++ rest)
      with (44 :: print_members true ((k', y) :: l) ++ rest).
    rewrite skip_ws_head by done. change (44 =? 44) with true. cbv iota.
    rewrite IH by (done || lia). by rewrite <- app_assoc.
Qed.

Lemma parse_print v : reads v.
Proof.
  induction v as [|b|n|s|l IH|l IH] using json_nested_ind; intros [|f] rest Hf Hr; try lia.
  - done.
  - by destruct b.
  - by apply parse_value_num.
  - cbn [parse_value print_json]. unfold quote. cbn [app]. rewrite skip_ws_head by done.
    change (34 =? 34) with true. cbv iota. rewrite <- app_assoc. cbn [app].
    by rewrite parse_units_escape.
  - rewrite jsize_arr in Hf. rewrite print_arr. cbn [parse_value app].
    rewrite skip_ws_head by done. change (91 =? 34) with false. change (91 =? 91) with true.
    cbv iota. destruct l as [|x l]; [done|].
    assert (Hi := parse_items_print (x :: l) [] f rest IH ltac:(done) ltac:(lia)).
    cbn [print_items] in *. rewrite app_nil_l, <- app_assoc in *. rewrite skip_ws_print.
    destruct (print_json_head x) as (c & t & E & _ & Hc & _). rewrite E in *. cbn [app] in *.
    destruct (Z.eqb_spec c 93); [done|]. exact Hi.
  - rewrite jsize_obj in Hf. rewrite print_obj. cbn [parse_value app].
    rewrite skip_ws_head by done. change (123 =? 34) with false. change (123 =? 91) with false.
    change (123 =? 123) with true. cbv iota. destruct l as [|[k x] l]; [done|].
    assert (Hm := parse_members_print ((k, x) :: l) [] f rest IH ltac:(done) ltac:(lia)).
    cbn [print_members] in *. unfold quote in *. cbn [app] in *.
    rewrite skip_ws_head by done. exact Hm.
Qed.

Lemma print_json_size v : (S (jsize v) <= 2 * length (print_json v))%nat.
Proof.
  induction v as [|b|n|s|l IH|l IH] using json_nested_ind.
  - simpl. lia.
  - destruct b; simpl; lia.
  - destruct (print_json_head (JNum n)) as (c & t & -> & _). simpl. lia.
  - simpl. lia.
  - rewrite jsize_arr, print_arr. cbn [length].
    assert (H : forall b, (items_size l <= 2 * length (print_items b l))%nat); [|specialize (H true); lia].
    induction IH as [|x l Hx _ IHl]; intros b; simpl; [lia|]. specialize (IHl false).
    rewrite !length_app. destruct b; simpl in *; lia.
  - rewrite jsize_obj, print_obj. cbn [length].
    assert (H : forall b, (members_size l <= 2 * length (print_members b l))%nat);
      [|specialize (H true); lia].
    induction IH as [|[k x] l Hx _ IHl]; intros b; cbn [members_size print_members snd] in *; [simpl; lia|].
    specialize (IHl false). rewrite !length_app. cbn [length]. rewrite length_app.
    destruct b; simpl in *; lia.
Qed.

(** parsing the text of a value gives the value back, for every value: all
    strings, also those with control units, quotes and lone surrogates. *)
Theorem json_roundtrip v : JSON_parse (print_json v) = Some v.
Proof.
  unfold JSON_parse. assert (H := print_json_size v).
  assert (Hp := parse_print v (S (2 * length (print_json v))) [] ltac:(lia) I).
  rewrite app_nil_r in Hp. by rewrite Hp.
Qed.

(** ** Entries round trip, one to a line *)

Lemma level_roundtrip l : level_of (level_name l) = Some l.
Proof. by destruct l. Qed.

Lemma parsed_roundtrip p : parsed_of_json (parsed_to_json p) = Some p.
Proof. destruct p as [[] [] [] []]; reflexivity. Qed.

Lemma entry_roundtrip e : entry_of_json (entry_to_json e) = Some e.
Proof.
  destruct e as [id idx ts lv src file path text parsed fr rev].
  destruct lv, idx, parsed as [[[] [] [] []]|], fr, rev; reflexivity.
Qed.

Lemma print_int_avoids c n : c <> 45 -> is_digit c = false -> Forall (fun d => d <> c) (print_int n).
Proof.
  intros Hm Hc. assert (Hd : forall m, 0 <= m -> Forall (fun d => d <> c) (print_nat m)).
  { intros m Hm'. destruct (print_nat_spec m Hm') as (_ & Hf & _).
    eapply Forall_impl; [exact Hf|]. intros d Hd ->. congruence. }
  unfold print_int. destruct (Z.ltb_spec n 0); [constructor; [done|]|]; apply Hd; lia.
Qed.

Lemma print_int_inj a b : print_int a = print_int b -> a = b.
Proof.
  intros E. assert (H1 := parse_number_int a [] I). assert (H2 := parse_number_int b [] I).
  rewrite E in H1. congruence.
Qed.

Lemma print_int_line n : Forall (fun c => c <> 10 /\ c <> 13) (print_int n).
Proof. apply Forall_and. split; by apply print_int_avoids. Qed.

Lemma hex_digit_line n : 0 <= n -> hex_digit n <> 10 /\ hex_digit n <> 13.
Proof. intros Hn. unfold hex_digit. destruct (n <? 10); lia. Qed.

Lemma escape_line s : Forall (fun c => c <> 10 /\ c <> 13) (escape s).
Proof.
  assert (Hu : forall c, 0 <= c -> Forall (fun c => c <> 10 /\ c <> 13) (u_escape c)).
  { intros c Hc. unfold u_escape.
    repeat constructor; try lia; apply hex_digit_line;
      first [apply Z.mod_pos_bound; lia | apply Z.div_pos; lia]. }
  remember (length s) as n eqn:En. revert s En. induction (lt_wf n) as [n _ IH]. intros s ->.
  assert (IH' : forall s', (length s' < length s)%nat ->
    Forall (fun c => c <> 10 /\ c <> 13) (escape s')) by eauto. clear IH.
  destruct s as [|c t]; [constructor|].
  assert (Ht := IH' t ltac:(simpl; lia)). cbn [escape].
  repeat match goal with
  | |- context [if c =? ?k then _ else _] =>
      destruct (Z.eqb_spec c k) as [->|]; [constructor; [lia|constructor; [lia|done]]|]
  end.
  destruct ((0 <=? c) && (c <? 32)) eqn:Ec.
  { apply Forall_app. split; [apply Hu; lia|done]. }
  destruct (is_high c) eqn:Eh.
  - apply is_high_range in Eh. destruct t as [|d t]; [apply Hu; lia|].
    destruct (is_low d) eqn:El; [|apply Forall_app; split; [apply Hu; lia|done]].
    apply is_low_range in El. constructor; [lia|]. constructor; [lia|]. apply IH'. simpl. lia.
  - destruct (is_low c) eqn:El; [|by constructor].
    apply is_low_range in El. apply Forall_app. split; [apply Hu; lia|done].
Qed.

Lemma print_json_line v : Forall (fun c => c <> 10 /\ c <> 13) (print_json v).
Proof.
  assert (Hq : forall s, Forall (fun c => c <> 10 /\ c <> 13) (quote s)).
  { intros s. unfold quote. constructor; [lia|]. apply Forall_app. split; [apply escape_line|].
    by repeat constructor. }
  induction v as [|b|n|s|l IH|l IH] using json_nested_ind.
  - by repeat constructor.
  - destruct b; by repeat constructor.
  - apply print_int_line.
  - apply Hq.
  - rewrite print_arr. constructor; [lia|]. generalize true as b.
    induction IH as [|x l Hx _ IHl]; intros b; cbn [print_items]; [by repeat constructor|].
    apply Forall_app. split; [destruct b; by repeat constructor|]. by apply Forall_app.
  - rewrite print_obj. constructor; [lia|]. generalize true as b.
    induction IH as [|[k x] l Hx _ IHl]; intros b; cbn [print_members]; [by repeat constructor|].
    apply Forall_app. split; [destruct b; by repeat constructor|].
    apply Forall_app. split; [apply Hq|]. constructor; [lia|]. by apply Forall_app.
Qed.

(** The strings of a value *)
Fixpoint json_strings (v : json) : list str :=
  match v with
  | JStr s => [s]
  | JArr l => (fix go l := match l with [] => [] | x :: l' => json_strings x ++ go l' end) l
  | JObj l => (fix go l := match l with [] => [] | (k, x) :: l' => k :: json_strings x ++ go l' end) l
  | _ => []
  end.

Fixpoint items_strings (l : list json) : list str :=
  match l with [] => [] | x :: l' => json_strings x ++ items_strings l' end.

Fixpoint members_strings (l : list (str * json)) : list str :=
  match l with [] => [] | (k, x) :: l' => k :: json_strings x ++ members_strings l' end.

Section units.
Context (P : Z -> Prop).
Hypothesis P_ascii : forall c, 0 <= c < 128 -> P c.

Lemma u_escape_units c : 0 <= c < 65536 -> Forall P (u_escape c).
Proof.
  intros Hc. assert (Hd : forall n, 0 <= n < 16 -> P (hex_digit n)).
  { intros n Hn. apply P_ascii. unfold hex_digit. destruct (n <? 10); lia. }
  unfold u_escape. repeat constructor; try (apply P_ascii; lia); apply Hd;
    first [apply Z.mod_pos_bound; lia | Z.to_euclidean_division_equations; lia].
Qed.

Lemma escape_units s : Forall P s -> Forall P (escape s).
Proof.
  remember (length s) as n eqn:En. revert s En. induction (lt_wf n) as [n _ IH]. intros s -> Hs.
  assert (IH' : forall s', (length s' < length s)%nat -> Forall P s' -> Forall P (escape s')) by eauto.
  clear IH. destruct s as [|c t]; [constructor|]. apply Forall_cons in Hs as [Hc Ht].
  assert (Ht' := IH' t ltac:(simpl; lia) Ht). cbn [escape].
  repeat match goal with
  | |- context [if c =? ?k then _ else _] =>
      destruct (Z.eqb_spec c k) as [->|];
        [constructor; [apply P_ascii; lia|constructor; [apply P_ascii; lia|done]]|]
  end.
  destruct ((0 <=? c) && (c <? 32)) eqn:Ec.
  { apply Forall_app. split; [apply u_escape_units; lia|done]. }
  destruct (is_high c) eqn:Eh.
  - apply is_high_range in Eh. destruct t as [|d t]; [apply u_escape_units; lia|].
    destruct (is_low d) eqn:El; [|apply Forall_app; split; [apply u_escape_units; lia|done]].
    apply Forall_cons in Ht as [Hd Ht]. constructor; [done|]. constructor; [done|].
    apply IH'; [simpl; lia|done].
  - destruct (is_low c) eqn:El; [|by constructor].
    apply is_low_range in El. apply Forall_app. split; [apply u_escape_units; lia|done].
Qed.

Lemma quote_units s : Forall P s -> Forall P (quote s).
Proof.
  intros H. unfold quote. constructor; [apply P_ascii; lia|]. apply Forall_app.
  split; [by apply escape_units|]. constructor; [apply P_ascii; lia|constructor].
Qed.

Lemma ascii_units l : Forall (fun c => 0 <= c < 128) l -> Forall P l.
Proof. intros H. eapply Forall_impl; [exact H|]. exact P_ascii. Qed.

Lemma print_json_units v : Forall (Forall P) (json_strings v) -> Forall P (print_json v).
Proof.
  induction v as [|b|n|s|l IH|l IH] using json_nested_ind; intros Hs.
  - by apply ascii_units; repeat constructor.
  - apply ascii_units. by destruct b; repeat constructor.
  - apply ascii_units. cbn [print_json].
    assert (Hd : forall m, 0 <= m -> Forall (fun c => 0 <= c < 128) (print_nat m)).
    { intros m Hm. destruct (print_nat_spec m Hm) as (_ & Hf & _).
      eapply Forall_impl; [exact Hf|]. intros c Hc. unfold is_digit in Hc. lia. }
    unfold print_int. destruct (Z.ltb_spec n 0); [constructor; [lia|]|]; apply Hd; lia.
  - apply quote_units. by apply Forall_cons in Hs as [Hs _].
  - change (json_strings (JArr l)) with (items_strings l) in Hs.
    rewrite print_arr. constructor; [apply P_ascii; lia|]. generalize true as b.
    induction IH as [|x l Hx _ IHl]; intros b; cbn [print_items items_strings] in *.
    { apply ascii_units. by repeat constructor. }
    apply Forall_app in Hs as [Hs1 Hs2]. repeat (apply Forall_app; split); auto.
    apply ascii_units. by destruct b; repeat constructor.
  - change (json_strings (JObj l)) with (members_strings l) in Hs.
    rewrite print_obj. constructor; [apply P_ascii; lia|]. generalize true as b.
    induction IH as [|[k x] l Hx _ IHl]; intros b; cbn [print_members members_strings snd] in *.
    { apply ascii_units. by repeat constructor. }
    apply Forall_cons in Hs as [Hk Hs]. apply Forall_app in Hs as [Hs1 Hs2].
    repeat (apply Forall_app; split); [|by apply quote_units|].
    { apply ascii_units. by destruct b; repeat constructor. }
    constructor; [apply P_ascii; lia|]. apply Forall_app. auto.
Qed.
End units.

Lemma members_strings_app l1 l2 : members_strings (l1 ++ l2) = members_strings l1 ++ members_strings l2.
Proof.
  induction l1 as [|[k x] l IH]; [done|]. cbn [app members_strings]. by rewrite IH, <- app_assoc.
Qed.

Ltac const_free := apply (bool_decide_unpack _); vm_compute; exact I.

Lemma parsed_json_strings p :
  Forall sep_free (parsed_strings p) -> Forall sep_free (json_strings (parsed_to_json p)).
Proof.
  destruct p as [t pr i m]. unfold parsed_strings. cbn [map p_time p_process p_pid p_message].
  intros H. do 4 (apply Forall_cons in H as [? H]).
  assert (Ho : forall o, sep_free (or_else o []) -> Forall sep_free (json_strings (str_or_null o))).
  { intros [x|] Hx; [by repeat constructor|constructor]. }
  change (json_strings (parsed_to_json _)) with (members_strings
    [(js "time", str_or_null t); (js "process", str_or_null pr); (js "pid", str_or_null i);
     (js "message", str_or_null m)]). cbn [members_strings].
  repeat (constructor; [const_free|apply Forall_app; split; [by apply Ho|]]). constructor.
Qed.

Lemma entry_json_strings e :
  Forall sep_free (entry_strings e) -> Forall sep_free (json_strings (entry_to_json e)).
Proof.
  unfold entry_strings. intros H. do 4 (apply Forall_cons in H as [? H]).
  assert (Hn : forall k o, sep_free (js k) -> Forall sep_free (members_strings (opt_field k JNum o))).
  { intros k [x|] Hk; repeat constructor. done. }
  assert (Hp : Forall sep_free (members_strings (opt_field "parsed" parsed_to_json (e_parsed e)))).
  { destruct (e_parsed e) as [p|]; [|constructor]. cbn [opt_field members_strings app].
    constructor; [const_free|]. apply Forall_app. split; [by apply parsed_json_strings|constructor]. }
  unfold entry_to_json. match goal with |- Forall _ (json_strings (JObj ?l)) =>
    change (json_strings (JObj l)) with (members_strings l) end.
  rewrite !members_strings_app. repeat (apply Forall_app; split); try (apply Hn; const_free); [|done].
  cbn [members_strings json_strings app].
  repeat (constructor; [first [done|const_free|destruct (e_level e); const_free]|]). constructor.
Qed.

Lemma print_members_close b l : exists t, print_members b l = t ++ [125].
Proof.
  revert b. induction l as [|[k x] l IH]; intros b; cbn [print_members]; [by exists []|].
  destruct (IH false) as [t ->].
  exists ((if b then [] else [44]) ++ quote k ++ 58 :: print_json x ++ t).
  by rewrite <- !app_assoc, <- app_comm_cons, <- !app_assoc.
Qed.

#[export] Instance json_laws : JsonLaws.
Proof.
  constructor.
  - intros e. unfold json_parse, stringify, json_codec.
    assert (H := parse_print (entry_to_json e) (S (2 * length (print_json (entry_to_json e)))) []).
    assert (Hs := print_json_size (entry_to_json e)). rewrite app_nil_r in H.
    unfold JSON_parse. rewrite H; [|lia|done]. cbn [skip_ws drop_while nonempty mbind option_bind].
    apply entry_roundtrip.
  - intros e. apply print_json_line.
  - intros e. unfold stringify, json_codec, entry_to_json. rewrite print_obj. by eexists.
  - intros e. unfold stringify, json_codec, entry_to_json. rewrite print_obj.
    destruct (print_members_close true ([(js "id", JNum (e_id e)); (js "ts", JNum (e_ts e));
         (js "level", JStr (level_name (e_level e))); (js "type", JStr (js "system"));
         (js "source", JStr (e_source e)); (js "file", JStr (e_file e));
         (js "path", JStr (e_path e)); (js "text", JStr (e_text e))]
        ++ opt_field "parsed" parsed_to_json (e_parsed e)
        ++ opt_field "_fRank" JNum (e_fRank e) ++ opt_field "_rev" JNum (e_rev e)
        ++ opt_field "idx" JNum (e_idx e))) as [t ->].
    by exists (123 :: t).
  - intros e He. apply entry_json_strings in He. apply print_json_units in He; [|intros; lia].
    assert (Hl := print_json_line (entry_to_json e)). unfold line_safe, stringify, json_codec.
    rewrite Forall_forall in He, Hl |- *. intros c Hc. specialize (He c Hc). specialize (Hl c Hc). tauto.
Qed.
