(* ===== verification/KWay.v ===== *)
(** * The k-way merge

    The last phase of [mergeDirectory] in src/core/logs/LogFileIntegration.ts:
    the entries of every type are in a file of JSON lines, newest first;
    [MergedCursor] reads such a file forward in batches of 100 lines, and a
    [MaxHeap] keyed by the timestamp gives the entries of all types newest
    first, which go out in batches.

    The merge is proved against the interface [JsonCodec] and its laws. *)

From stdpp Require Import base list sorting.
From Stdlib Require Import ZArith Lia.
From S2P Require Import Prelude JsString MaxHeap TimeParser LogEntry LineReaders Json.

(** What the callbacks of [mergeDirectory] receive. *)
Inductive merge_mode := ModeFile | ModeMemory.

Inductive merge_event :=
| EvBatch (logs : list LogEntry)
| EvWarmupBatch (logs : list LogEntry)
| EvProgress (done total : option Z) (active : bool)
| EvFinalize (mode : merge_mode) (total : Z).

Definition batch_of (ev : merge_event) : list LogEntry :=
  match ev with EvBatch logs => logs | _ => [] end.

(** All that [onBatch] has received. *)
Definition batches (evs : list merge_event) : list LogEntry := evs ≫= batch_of.

Record HeapItem := Item { hi_ts : Z; hi_entry : LogEntry; hi_typeKey : str; hi_seq : Z }.

(** [MergedCursor]: the lines its reader has still to give, in order; its checks
    of the order only write to the log. *)
Record MergedCursor := Cursor {
  mc_typeKey : str;
  mc_lines : list str;
  mc_seq : Z;
  mc_isExhausted : bool;
}.

Section kway.
Context `{J : JsonCodec} (localeCompare : str -> str -> Z).

(** Entries of older files have no [file]: it is taken from the path. *)
Definition parse_line (line : str) : option LogEntry :=
  match json_parse line with
  | Some e =>
      Some (if nonempty (e_file e) then e
            else set_file e (basename (if nonempty (e_path e) then e_path e else e_source e)))
  | None => None
  end.

(** [nextBatch(size)] *)
Definition nextBatch (size : nat) (c : MergedCursor) : MergedCursor * list LogEntry :=
  if mc_isExhausted c then (c, [])
  else
    match take size (mc_lines c) with
    | [] => (Cursor (mc_typeKey c) [] (mc_seq c) true, [])
    | lines => (Cursor (mc_typeKey c) (drop size (mc_lines c)) (mc_seq c) false,
                omap parse_line lines)
    end.

(** The comparator of the heap. *)
Definition merge_cmp (a b : HeapItem) : Z :=
  if negb (hi_ts a =? hi_ts b) then hi_ts a - hi_ts b
  else
    let aRank := or_else (e_fRank (hi_entry a)) 9999 in
    let bRank := or_else (e_fRank (hi_entry b)) 9999 in
    if negb (aRank =? bRank) then bRank - aRank
    else
      let aFile := e_file (hi_entry a) in
      let bFile := e_file (hi_entry b) in
      if negb (bool_decide (aFile = bFile)) then localeCompare bFile aFile
      else
        let aRev := or_else (e_rev (hi_entry a)) 9999 in
        let bRev := or_else (e_rev (hi_entry b)) 9999 in
        if negb (aRev =? bRev) then bRev - aRev
        else if negb (bool_decide (hi_typeKey a = hi_typeKey b))
        then localeCompare (hi_typeKey b) (hi_typeKey a)
        else hi_seq b - hi_seq a.

(** [for (const item of batch) heap.push({ ...item, typeKey, seq: cursor.seq++ })] *)
Fixpoint push_batch (heap : list HeapItem) (c : MergedCursor) (batch : list LogEntry)
  : list HeapItem * MergedCursor :=
  match batch with
  | [] => (heap, c)
  | e :: batch' =>
      push_batch (heap_push merge_cmp heap (Item (e_ts e) e (mc_typeKey c) (mc_seq c)))
        (Cursor (mc_typeKey c) (mc_lines c) (mc_seq c + 1) (mc_isExhausted c)) batch'
  end.

Definition BATCH_LINES : nat := 100.

(** Read a batch of a cursor and push it. *)
Definition refill (heap : list HeapItem) (c : MergedCursor) : list HeapItem * MergedCursor :=
  let '(c', batch) := nextBatch BATCH_LINES c in push_batch heap c' batch.

Fixpoint kway_init (heap : list HeapItem) (cursors : list MergedCursor)
  : list HeapItem * list MergedCursor :=
  match cursors with
  | [] => (heap, [])
  | c :: cs =>
      let '(heap1, c1) := refill heap c in
      let '(heap2, cs2) := kway_init heap1 cs in (heap2, c1 :: cs2)
  end.

(** [const cursor = cursors.get(typeKey); if (!cursor.isExhausted) ...] *)
Fixpoint refill_type (heap : list HeapItem) (typeKey : str) (cursors : list MergedCursor)
  : list HeapItem * list MergedCursor :=
  match cursors with
  | [] => (heap, [])
  | c :: cs =>
      if bool_decide (mc_typeKey c = typeKey) then
        if mc_isExhausted c then (heap, c :: cs)
        else let '(heap', c') := refill heap c in (heap', c' :: cs)
      else let '(heap', cs') := refill_type heap typeKey cs in (heap', c :: cs')
  end.

Record kstate := KState {
  k_heap : list HeapItem;
  k_cursors : list MergedCursor;
  k_out : list LogEntry;            (* outBatch *)
  k_emitted : Z;
  k_last : option Z;                (* lastEmittedTs; None is +Infinity *)
  k_violations : Z;
}.

(** One round of [while (!heap.isEmpty())]. *)
Definition kway_step (batchSize : Z) (total : option Z) (top : HeapItem) (heap : list HeapItem)
    (st : kstate) : kstate * list merge_event :=
  let out := k_out st ++ [hi_entry top] in
  let violations :=
    match k_last st with
    | Some l => if l <? hi_ts top then k_violations st + 1 else k_violations st
    | None => k_violations st
    end in
  let full := batchSize <=? zlen out in
  let emitted := if full then k_emitted st + zlen out else k_emitted st in
  let '(heap', cursors') := refill_type heap (hi_typeKey top) (k_cursors st) in
  (KState heap' cursors' (if full then [] else out) emitted (Some (hi_ts top)) violations,
   if full then [EvBatch out; EvProgress (Some emitted) total true] else []).

(** The loop; [aborted n] is the abort signal at the [n]-th round. *)
Fixpoint kway_loop (fuel : nat) (aborted : nat -> bool) (n : nat) (batchSize : Z)
    (total : option Z) (st : kstate) : kstate * nat * list merge_event :=
  match fuel with
  | O => (st, n, [])
  | S f =>
      match heap_pop merge_cmp (k_heap st) with
      | None => (st, n, [])
      | Some (top, heap) =>
          if aborted n then (st, n, [])
          else
            let '(st1, evs1) := kway_step batchSize total top heap st in
            let '(st2, n2, evs2) := kway_loop f aborted (S n) batchSize total st1 in
            (st2, n2, evs1 ++ evs2)
      end
  end.

(** After the loop: the last, partial batch, and the final signals. *)
Definition kway_finish (aborted : bool) (total : option Z) (st : kstate) : list merge_event :=
  let last_batch := negb aborted && nonempty (k_out st) in
  let emitted := if last_batch then k_emitted st + zlen (k_out st) else k_emitted st in
  (if last_batch then [EvBatch (k_out st); EvProgress (Some emitted) total true] else []) ++
  [EvFinalize ModeFile emitted] ++
  (if 0 <? emitted then [EvProgress (Some emitted) total false] else []).

(** Every line of the files is pushed and popped at most once. *)
Definition kway_fuel (cursors : list MergedCursor) : nat :=
  S (length (cursors ≫= mc_lines)).

Definition kway (aborted : nat -> bool) (batchSize : Z) (total : option Z)
    (cursors : list MergedCursor) : list merge_event :=
  let '(heap, cursors1) := kway_init [] cursors in
  let '(st, n, evs) :=
    kway_loop (kway_fuel cursors) aborted 0 batchSize total
      (KState heap cursors1 [] 0 None 0) in
  evs ++ kway_finish (aborted n) total st.

(** A file of JSON lines, and the cursor on it. *)
Definition jsonl (es : list LogEntry) : str := es ≫= fun e => stringify e ++ [10].

Definition open_cursor (typeKey : str) (text : str) : MergedCursor :=
  Cursor typeKey (forward_lines (strip_bom text)) 0 false.
End kway.

(** ** The loop keeps every entry and the order *)

Section proofs.
Context `{J : JsonCodec} (localeCompare : str -> str -> Z).

#[local] Abbreviation cmp := (merge_cmp localeCompare).

#[export] Instance merge_cmp_refines : CmpRefines cmp hi_ts.
Proof.
  constructor; intros a b; unfold merge_cmp;
    destruct (Z.eqb_spec (hi_ts a) (hi_ts b)); cbn [negb]; lia.
Qed.

(** The entries a cursor has still to give. *)
Definition rem (c : MergedCursor) : list LogEntry := omap parse_line (mc_lines c).

Record cursor_ok (c : MergedCursor) : Prop := {
  co_parse : Forall (fun l => is_Some (parse_line l)) (mc_lines c);
  co_desc : StronglySorted (desc_by e_ts) (rem c);
  co_exhausted : mc_isExhausted c = true -> mc_lines c = [];
}.

Definition item_ok (it : HeapItem) : Prop := hi_ts it = e_ts (hi_entry it).

(** A cursor with entries left has one in the heap that is not older. *)
Definition covered (heap : list HeapItem) (c : MergedCursor) : Prop :=
  rem c = [] \/
  exists it, it ∈ heap /\ hi_typeKey it = mc_typeKey c /\
    Forall (fun e => e_ts e <= hi_ts it) (rem c).

Lemma rem_nil c : cursor_ok c -> rem c = [] -> mc_lines c = [].
Proof.
  intros [Hp _ _]. unfold rem. destruct (mc_lines c) as [|l ls]; [done|].
  apply Forall_cons in Hp as [[e He] _]. simpl. by rewrite He.
Qed.

Lemma nextBatch_spec size c c' b :
  (0 < size)%nat -> cursor_ok c -> nextBatch size c = (c', b) ->
  cursor_ok c' /\ mc_typeKey c' = mc_typeKey c /\ rem c = b ++ rem c' /\
  (b = [] -> rem c' = []).
Proof.
  intros Hs Hc. assert (Hc' := Hc). destruct Hc' as [Hp Hd Hx]. unfold nextBatch.
  destruct (mc_isExhausted c) eqn:Ee.
  { intros [= <- <-]. split_and!; try done. intros _. unfold rem. by rewrite Hx. }
  destruct (take size (mc_lines c)) as [|l ls] eqn:Et.
  { assert (El : mc_lines c = []) by (destruct (mc_lines c); [done|destruct size; [lia|done]]).
    intros [= <- <-]. unfold rem. rewrite El.
    split_and!; [|done..]. by repeat constructor. }
  intros [= <- <-]. assert (Er : rem c = omap parse_line (l :: ls) ++
    omap parse_line (drop size (mc_lines c))).
  { unfold rem. by rewrite <- (take_drop size (mc_lines c)) at 1; rewrite Et, omap_app. }
  split_and!; [|done|done|].
  - constructor; cbn [mc_lines mc_isExhausted]; [by apply Forall_drop| |done].
    rewrite Er in Hd. by apply StronglySorted_app in Hd as (_ & _ & Hd).
  - rewrite <- (take_drop size (mc_lines c)), Et in Hp.
    apply Forall_app in Hp as [[[e He] _]%Forall_cons _]. simpl. by rewrite He.
Qed.

Lemma push_batch_spec heap c b heap' c' :
  heap_ok hi_ts heap -> Forall item_ok heap -> push_batch localeCompare heap c b = (heap', c') ->
  heap_ok hi_ts heap' /\ Forall item_ok heap' /\
  map hi_entry heap' ≡ₚ map hi_entry heap ++ b /\
  (forall it, it ∈ heap -> it ∈ heap') /\
  (forall e, e ∈ b -> exists it, it ∈ heap' /\ hi_typeKey it = mc_typeKey c /\ hi_ts it = e_ts e) /\
  mc_typeKey c' = mc_typeKey c /\ mc_lines c' = mc_lines c /\ mc_isExhausted c' = mc_isExhausted c.
Proof.
  revert heap c. induction b as [|e b IH]; intros heap c Hok Hit; cbn [push_batch].
  { intros [= <- <-]. rewrite app_nil_r. split_and!; try done. by intros e ?%elem_of_nil. }
  set (it := Item (e_ts e) e (mc_typeKey c) (mc_seq c)).
  assert (Hperm := heap_push_perm cmp heap it).
  intros Hp. apply IH in Hp as (H1 & H2 & H3 & H4 & H5 & H6 & H7 & H8); last first.
  { rewrite Hperm. by constructor. }
  { by apply (heap_push_ok cmp hi_ts). }
  split_and!; try done.
  - rewrite H3, Hperm. simpl. apply Permutation_middle.
  - intros x Hx. apply H4. rewrite Hperm. by right.
  - intros x [->|Hx]%elem_of_cons; [|by apply H5].
    exists it. split_and!; [|done..]. apply H4. rewrite Hperm. by left.
Qed.

Lemma refill_spec heap c heap' c' :
  heap_ok hi_ts heap -> Forall item_ok heap -> cursor_ok c ->
  refill localeCompare heap c = (heap', c') ->
  heap_ok hi_ts heap' /\ Forall item_ok heap' /\ cursor_ok c' /\
  mc_typeKey c' = mc_typeKey c /\ covered heap' c' /\ (forall it, it ∈ heap -> it ∈ heap') /\
  map hi_entry heap' ++ rem c' ≡ₚ map hi_entry heap ++ rem c.
Proof.
  intros Hok Hit Hc. unfold refill. destruct (nextBatch BATCH_LINES c) as [c1 b] eqn:En.
  apply nextBatch_spec in En as (Hc1 & Hk1 & Hr & Hb); [|unfold BATCH_LINES; lia|done].
  intros Hp. apply push_batch_spec in Hp as (H1 & H2 & H3 & H4 & H5 & H6 & H7 & H8); [|done..].
  assert (Hrem : rem c' = rem c1) by (unfold rem; by rewrite H7).
  split_and!; [done|done| |congruence| |done|].
  - destruct Hc1 as [Hp1 Hd1 Hx1]. constructor; rewrite ?H7, ?H8, ?Hrem; done.
  - unfold covered. rewrite Hrem. destruct b as [|e b]; [left; by apply Hb|right].
    destruct (H5 e) as (it & Hin & Hk & Hts); [by left|].
    exists it. split_and!; [done|congruence|]. rewrite Hts.
    destruct Hc as [_ Hd _]. rewrite Hr in Hd. cbn [app] in Hd.
    inversion Hd as [|? ? _ Hall]; subst. by apply Forall_app in Hall as [_ Hall].
  - by rewrite H3, Hrem, Hr, app_assoc.
Qed.

Lemma covered_mono heap heap' c :
  (forall it, it ∈ heap -> it ∈ heap') -> covered heap c -> covered heap' c.
Proof. intros Hs [H|(it & Hi & H)]; [by left|right; exists it; auto]. Qed.

Lemma refill_type_spec key cursors heap heap' cursors' :
  heap_ok hi_ts heap -> Forall item_ok heap -> Forall cursor_ok cursors ->
  NoDup (map mc_typeKey cursors) ->
  Forall (fun c => mc_typeKey c = key \/ covered heap c) cursors ->
  refill_type localeCompare heap key cursors = (heap', cursors') ->
  heap_ok hi_ts heap' /\ Forall item_ok heap' /\ Forall cursor_ok cursors' /\
  map mc_typeKey cursors' = map mc_typeKey cursors /\ Forall (covered heap') cursors' /\
  (forall it, it ∈ heap -> it ∈ heap') /\
  map hi_entry heap' ++ (cursors' ≫= rem) ≡ₚ map hi_entry heap ++ (cursors ≫= rem).
Proof.
  revert heap' cursors'. induction cursors as [|c cs IH];
    intros heap' cursors' Hok Hit Hc Hnd Hcov; cbn [refill_type].
  { intros [= <- <-]. by split_and!. }
  apply Forall_cons in Hc as [Hc Hcs]. apply Forall_cons in Hcov as [Hcv Hcvs].
  apply NoDup_cons in Hnd as [Hni Hnd]. case_bool_decide as Ek.
  - assert (Hothers : Forall (covered heap) cs).
    { apply Forall_forall. intros x Hx. rewrite Forall_forall in Hcvs.
      destruct (Hcvs x Hx) as [Hk|]; [|done]. destruct Hni. rewrite Ek, <- Hk.
      by apply list_elem_of_fmap_2. }
    destruct (mc_isExhausted c) eqn:Ex.
    + intros [= <- <-]. split_and!; try done; constructor; try done.
      left. unfold rem. by rewrite (co_exhausted _ Hc).
    + destruct (refill localeCompare heap c) as [h c1] eqn:Er. intros [= <- <-].
      apply refill_spec in Er as (H1 & H2 & H3 & H4 & H5 & H6 & H7); [|done..].
      split_and!; try done.
      * by constructor.
      * simpl. by rewrite H4.
      * constructor; [done|]. eapply Forall_impl; [exact Hothers|]. intros x. by apply covered_mono.
      * cbn [mbind list_bind]. rewrite app_assoc, H7. by rewrite <- app_assoc.
  - destruct (refill_type localeCompare heap key cs) as [h cs1] eqn:Er. intros [= <- <-].
    destruct (IH h cs1) as (H1 & H2 & H3 & H4 & H5 & H6 & H7); [done..|].
    destruct Hcv as [|Hcv]; [done|].
    split_and!; try done.
    + by constructor.
    + simpl. by rewrite H4.
    + constructor; [by eapply covered_mono|done].
    + cbn [mbind list_bind]. rewrite (Permutation_app_comm (rem c)), app_assoc, H7.
      rewrite <- app_assoc. by rewrite (Permutation_app_comm (rem c)).
Qed.

Lemma kway_init_spec heap cursors heap' cursors' :
  heap_ok hi_ts heap -> Forall item_ok heap -> Forall cursor_ok cursors ->
  kway_init localeCompare heap cursors = (heap', cursors') ->
  heap_ok hi_ts heap' /\ Forall item_ok heap' /\ Forall cursor_ok cursors' /\
  map mc_typeKey cursors' = map mc_typeKey cursors /\ Forall (covered heap') cursors' /\
  (forall it, it ∈ heap -> it ∈ heap') /\
  map hi_entry heap' ++ (cursors' ≫= rem) ≡ₚ map hi_entry heap ++ (cursors ≫= rem).
Proof.
  revert heap heap' cursors'. induction cursors as [|c cs IH];
    intros heap heap' cursors' Hok Hit Hc; cbn [kway_init].
  { intros [= <- <-]. by split_and!. }
  apply Forall_cons in Hc as [Hc Hcs].
  destruct (refill localeCompare heap c) as [h1 c1] eqn:Er.
  apply refill_spec in Er as (H1 & H2 & H3 & H4 & H5 & H6 & H7); [|done..].
  destruct (kway_init localeCompare h1 cs) as [h2 cs2] eqn:Ei. intros [= <- <-].
  apply IH in Ei as (G1 & G2 & G3 & G4 & G5 & G6 & G7); [|done..].
  split_and!; try done.
  - by constructor.
  - simpl. by rewrite H4, G4.
  - constructor; [by eapply covered_mono|done].
  - auto.
  - cbn [mbind list_bind]. rewrite (Permutation_app_comm (rem c1)), app_assoc, G7.
    rewrite <- app_assoc, (Permutation_app_comm (cs ≫= rem)), app_assoc, H7.
    by rewrite <- app_assoc.
Qed.

(** The state of the loop when the entries [E] have left the heap. *)
Record kinv (All E : list LogEntry) (st : kstate) : Prop := {
  ki_heap : heap_ok hi_ts (k_heap st);
  ki_items : Forall item_ok (k_heap st);
  ki_cursors : Forall cursor_ok (k_cursors st);
  ki_keys : NoDup (map mc_typeKey (k_cursors st));
  ki_covered : Forall (covered (k_heap st)) (k_cursors st);
  ki_all : E ++ map hi_entry (k_heap st) ++ (k_cursors st ≫= rem) ≡ₚ All;
  ki_desc : StronglySorted (desc_by e_ts) E;
  ki_below : forall x y, x ∈ E -> y ∈ map hi_entry (k_heap st) ++ (k_cursors st ≫= rem) ->
    e_ts y <= e_ts x;
  ki_last : k_last st = e_ts <$> last E;
  ki_noviolation : k_violations st = 0;
}.

Lemma below_top heap top heap' cursors y :
  heap_ok hi_ts heap -> Forall item_ok heap -> Forall (covered heap) cursors ->
  heap_pop cmp heap = Some (top, heap') ->
  y ∈ map hi_entry heap' ++ (cursors ≫= rem) -> e_ts y <= hi_ts top.
Proof.
  intros Hok Hit Hcov Hpop Hy.
  assert (Hperm := heap_pop_perm cmp _ _ _ Hpop).
  destruct (heap_pop_ok cmp hi_ts _ _ _ Hok Hpop) as [_ Hmax].
  rewrite Forall_forall in Hmax. rewrite Forall_forall in Hit. rewrite Forall_forall in Hcov.
  assert (Hle : forall it, it ∈ heap -> hi_ts it <= hi_ts top).
  { intros it. rewrite Hperm. intros [->|Hi]%elem_of_cons; [lia|by apply Hmax]. }
  apply elem_of_app in Hy as [Hy|Hy].
  - apply list_elem_of_fmap_1 in Hy as (it & -> & Hi).
    assert (Hih : it ∈ heap) by (rewrite Hperm; by right).
    rewrite <- (Hit it Hih). by apply Hmax.
  - apply list_elem_of_bind in Hy as (c & Hy & Hc).
    destruct (Hcov c Hc) as [E|(it & Hi & _ & Hall)]; [by rewrite E in Hy; apply elem_of_nil in Hy|].
    rewrite Forall_forall in Hall. specialize (Hall y Hy). specialize (Hle it Hi). lia.
Qed.

Lemma sorted_snoc E (x : LogEntry) :
  StronglySorted (desc_by e_ts) E -> (forall y, y ∈ E -> e_ts x <= e_ts y) ->
  StronglySorted (desc_by e_ts) (E ++ [x]).
Proof.
  intros Hs Hb. apply StronglySorted_app. split_and!; [|done|by repeat constructor].
  intros a b Ha ->%list_elem_of_singleton. by apply Hb.
Qed.

Lemma kway_step_inv All E st top heap bs total :
  kinv All E st -> heap_pop cmp (k_heap st) = Some (top, heap) ->
  kinv All (E ++ [hi_entry top]) (fst (kway_step localeCompare bs total top heap st)).
Proof.
  intros [H1 H2 H3 H4 H5 H6 H7 H8 H9 H10] Hpop.
  assert (Hperm := heap_pop_perm cmp _ _ _ Hpop).
  assert (Htop : hi_ts top = e_ts (hi_entry top)).
  { rewrite Forall_forall in H2. apply H2. rewrite Hperm. by left. }
  assert (Hit : Forall item_ok heap) by (rewrite Hperm in H2; by apply Forall_cons in H2 as [_ H2]).
  destruct (heap_pop_ok cmp hi_ts _ _ _ H1 Hpop) as [Hok _].
  assert (Hcov : Forall (fun c => mc_typeKey c = hi_typeKey top \/ covered heap c) (k_cursors st)).
  { eapply Forall_impl; [exact H5|]. intros c [Hn|(it & Hi & Hk & Hall)]; [by right; left|].
    rewrite Hperm in Hi. apply elem_of_cons in Hi as [->|Hi]; [by left|right; right; eauto]. }
  assert (Htopin : hi_entry top ∈ map hi_entry (k_heap st) ++ (k_cursors st ≫= rem)).
  { rewrite Hperm. simpl. by left. }
  unfold kway_step. destruct (refill_type localeCompare heap (hi_typeKey top) (k_cursors st))
    as [h' cs'] eqn:Er.
  apply refill_type_spec in Er as (G1 & G2 & G3 & G4 & G5 & G6 & G7); [|done..].
  constructor; cbn [fst k_heap k_cursors k_last k_violations]; try done.
  - by rewrite G4.
  - rewrite <- app_assoc, G7, <- H6, Hperm. done.
  - apply sorted_snoc; [done|]. intros y Hy. by apply H8.
  - intros x y Hx Hy. rewrite G7 in Hy.
    assert (Hyt : e_ts y <= hi_ts top) by (by apply (below_top (k_heap st) top heap (k_cursors st))).
    apply elem_of_app in Hx as [Hx| ->%list_elem_of_singleton]; [|lia].
    specialize (H8 x (hi_entry top) Hx Htopin). lia.
  - by rewrite last_snoc, Htop.
  - rewrite H9, H10. destruct (last E) as [x|] eqn:El; [|done]. cbn [fmap option_fmap option_map].
    destruct (Z.ltb_spec (e_ts x) (hi_ts top)) as [Hlt|]; [|done].
    apply last_Some_elem_of in El. specialize (H8 x (hi_entry top) El Htopin). lia.
Qed.

Lemma kway_step_batches bs total top heap st :
  batches (snd (kway_step localeCompare bs total top heap st)) ++
    k_out (fst (kway_step localeCompare bs total top heap st)) = k_out st ++ [hi_entry top].
Proof.
  unfold kway_step. destruct (refill_type _ _ _ _). cbn [fst snd k_out].
  destruct (bs <=? zlen (k_out st ++ [hi_entry top])); [|done].
  unfold batches. simpl. by rewrite !app_nil_r.
Qed.

Lemma batches_app evs1 evs2 : batches (evs1 ++ evs2) = batches evs1 ++ batches evs2.
Proof. apply bind_app. Qed.

(** Without abort the loop empties the heap; what it has put out is what has
    left the heap, in that order. *)
Lemma kway_loop_spec All E st fuel aborted n bs total :
  (forall i, aborted i = false) -> kinv All E st -> (length All < fuel + length E)%nat ->
  let '(st', n', evs) := kway_loop localeCompare fuel aborted n bs total st in
  exists E', kinv All (E ++ E') st' /\ k_heap st' = [] /\
    batches evs ++ k_out st' = k_out st ++ E'.
Proof.
  intros Hab. revert E st n. induction fuel as [|f IH]; intros E st n Hinv Hf.
  { exfalso. assert (Hl := ki_all _ _ _ Hinv). apply Permutation_length in Hl.
    rewrite length_app in Hl. lia. }
  cbn [kway_loop]. destruct (heap_pop cmp (k_heap st)) as [[top heap]|] eqn:Hpop.
  - rewrite Hab. assert (Hs := kway_step_inv _ _ _ _ _ bs total Hinv Hpop).
    assert (Hb := kway_step_batches bs total top heap st).
    destruct (kway_step localeCompare bs total top heap st) as [st1 evs1]. cbn [fst snd] in *.
    specialize (IH (E ++ [hi_entry top]) st1 (S n) Hs).
    destruct (kway_loop localeCompare f aborted (S n) bs total st1) as [[st2 n2] evs2].
    destruct IH as (E' & Hi & Hh & Ho); [rewrite length_app; simpl; lia|].
    exists (hi_entry top :: E'). rewrite <- app_assoc in Hi. split_and!; [done|done|].
    by rewrite batches_app, <- app_assoc, Ho, app_assoc, Hb, <- app_assoc.
  - exists []. rewrite !app_nil_r. split_and!; [done| |done].
    destruct (k_heap st) eqn:Eh; [done|]. exfalso.
    destruct (heap_pop_some cmp (k_heap st)) as (t & a & Hp); [by rewrite Eh|].
    rewrite Eh in Hp. congruence.
Qed.

Lemma kinv_done All E st : kinv All E st -> k_heap st = [] -> E ≡ₚ All.
Proof.
  intros Hi Hh. rewrite <- (ki_all _ _ _ Hi), Hh.
  assert (Hr : k_cursors st ≫= rem = []); [|by rewrite Hr; simpl; rewrite app_nil_r].
  assert (Hc := ki_covered _ _ _ Hi). rewrite Hh in Hc.
  induction Hc as [|c cs Hc _ IH]; [done|]. cbn [mbind list_bind].
  destruct Hc as [->|(it & Hn & _)]; [done|by apply elem_of_nil in Hn].
Qed.

Lemma kway_finish_batches total st :
  batches (kway_finish false total st) = k_out st.
Proof.
  unfold kway_finish. cbn [negb andb]. rewrite !batches_app.
  destruct (k_out st) eqn:Eo; cbn [nonempty]; unfold batches; simpl; rewrite ?app_nil_r.
  - by destruct (0 <? k_emitted st).
  - destruct (0 <? _); simpl; by rewrite app_nil_r.
Qed.

Lemma rem_length c : cursor_ok c -> length (rem c) = length (mc_lines c).
Proof.
  intros [Hp _ _]. unfold rem. induction Hp as [|l ls [e He] _ IH]; [done|].
  cbn [omap list_omap]. rewrite He. cbn [length]. by rewrite IH.
Qed.

Lemma kway_fuel_enough cursors :
  Forall cursor_ok cursors -> (length (cursors ≫= rem) < kway_fuel cursors)%nat.
Proof.
  unfold kway_fuel. induction 1 as [|c cs Hc _ IH]; [simpl; lia|]. cbn [mbind list_bind] in *.
  rewrite !length_app, rem_length by done. lia.
Qed.

Lemma kway_spec aborted bs total cursors :
  (forall i, aborted i = false) -> Forall cursor_ok cursors ->
  NoDup (map mc_typeKey cursors) ->
  let out := batches (kway localeCompare aborted bs total cursors) in
  out ≡ₚ cursors ≫= rem /\ StronglySorted (desc_by e_ts) out.
Proof.
  intros Hab Hc Hnd. cbv zeta. unfold kway.
  destruct (kway_init localeCompare [] cursors) as [heap cs1] eqn:Ei.
  apply kway_init_spec in Ei as (H1 & H2 & H3 & H4 & H5 & _ & H7);
    [|apply heap_ok_nil|done|done].
  assert (Hinv : kinv (cursors ≫= rem) [] (KState heap cs1 [] 0 None 0)).
  { constructor; cbn [k_heap k_cursors k_last k_violations]; try done.
    - by rewrite H4.
    - constructor.
    - by intros x y ?%elem_of_nil. }
  assert (Hl := kway_loop_spec _ _ _ (kway_fuel cursors) aborted 0 bs total Hab Hinv).
  destruct (kway_loop localeCompare (kway_fuel cursors) aborted 0 bs total _) as [[st n] evs].
  destruct Hl as (E & Hi & Hh & Ho).
  { simpl. rewrite Nat.add_0_r. by apply kway_fuel_enough. }
  rewrite Hab, batches_app, kway_finish_batches, Ho. simpl in *.
  split; [by apply (kinv_done _ _ st)|by destruct Hi].
Qed.
End proofs.

(** ** Abort *)

Section abort.
Context `{J : JsonCodec} (localeCompare : str -> str -> Z).

Lemma kway_loop_prefix fuel aborted n bs total st :
  let '(_, _, evs) := kway_loop localeCompare fuel aborted n bs total st in
  let '(_, _, full) := kway_loop localeCompare fuel (fun _ => false) n bs total st in
  evs `prefix_of` full.
Proof.
  revert n st. induction fuel as [|f IH]; intros n st; cbn [kway_loop]; [done|].
  destruct (heap_pop _ (k_heap st)) as [[top heap]|]; [|done].
  destruct (kway_step localeCompare bs total top heap st) as [st1 evs1].
  specialize (IH (S n) st1).
  destruct (kway_loop localeCompare f (fun _ => false) (S n) bs total st1) as [[st3 n3] evs3].
  destruct (aborted n); [apply prefix_nil|].
  destruct (kway_loop localeCompare f aborted (S n) bs total st1) as [[st2 n2] evs2].
  by apply prefix_app.
Qed.

Lemma kway_loop_ext fuel a b n bs total st :
  (forall i, a i = b i) ->
  kway_loop localeCompare fuel a n bs total st = kway_loop localeCompare fuel b n bs total st.
Proof.
  intros Hab. revert n st. induction fuel as [|f IH]; intros n st; cbn [kway_loop]; [done|].
  destruct (heap_pop _ (k_heap st)) as [[top heap]|]; [|done]. rewrite Hab.
  destruct (b n); [done|]. destruct (kway_step localeCompare bs total top heap st) as [st1 evs1].
  by rewrite IH.
Qed.

Lemma kway_ext a b bs total cursors :
  (forall i, a i = b i) -> kway localeCompare a bs total cursors = kway localeCompare b bs total cursors.
Proof.
  intros Hab. unfold kway. destruct (kway_init localeCompare [] cursors) as [heap cs].
  rewrite (kway_loop_ext _ a b) by done.
  destruct (kway_loop _ _ b _ _ _ _) as [[st n] evs]. by rewrite Hab.
Qed.

(** The batches that leave the loop are full. *)
Lemma kway_loop_sizes fuel aborted n bs total st :
  1 <= bs -> zlen (k_out st) < bs ->
  let '(st', _, evs) := kway_loop localeCompare fuel aborted n bs total st in
  zlen (k_out st') < bs /\
  Forall (fun ev => match ev with EvBatch logs => zlen logs = bs | _ => True end) evs.
Proof.
  intros Hbs. revert n st. induction fuel as [|f IH]; intros n st Hout; cbn [kway_loop]; [done|].
  destruct (heap_pop _ (k_heap st)) as [[top heap]|]; [|done].
  destruct (aborted n); [done|].
  unfold kway_step. destruct (refill_type _ _ _ _) as [h' cs'].
  assert (Hz : zlen (k_out st ++ [hi_entry top]) = zlen (k_out st) + 1) by (by rewrite zlen_app).
  destruct (Z.leb_spec bs (zlen (k_out st ++ [hi_entry top]))) as [Hfull|Hmore].
  - match goal with |- context [kway_loop _ f aborted (S n) bs total ?x] =>
      specialize (IH (S n) x ltac:(cbn [k_out]; unfold zlen; simpl; lia));
      destruct (kway_loop localeCompare f aborted (S n) bs total x) as [[st2 n2] evs2] end.
    destruct IH as [IH1 IH2]. split; [done|]. simpl. constructor; [lia|]. by constructor.
  - match goal with |- context [kway_loop _ f aborted (S n) bs total ?x] =>
      specialize (IH (S n) x ltac:(cbn [k_out]; lia));
      destruct (kway_loop localeCompare f aborted (S n) bs total x) as [[st2 n2] evs2] end.
    done.
Qed.
End abort.

(** ** Files of JSON lines *)

Section json_lines.
Context `{JL : JsonLaws}.

Lemma forward_lines_cons l t :
  Forall (fun c => c <> 10 /\ c <> 13) l -> l <> [] ->
  forward_lines (l ++ 10 :: t) = l :: forward_lines t.
Proof.
  intros Hl Hne. unfold forward_lines. rewrite !split_crlf_spec, split_on_app_sep.
  rewrite (split_on_none 10 l) by (eapply Forall_impl; [exact Hl|]; by intros c []).
  rewrite strip_init_app by apply split_on_not_nil. cbn [map app].
  assert (Es : strip_cr l = l).
  { unfold strip_cr. destruct (last l) as [x|] eqn:El; [|done].
    apply last_Some_elem_of in El. rewrite Forall_forall in Hl.
    destruct (Z.eqb_spec x 13) as [->|]; [|done]. by destruct (Hl 13 El). }
  rewrite Es, filter_cons_True by (by destruct l). done.
Qed.

Lemma jsonl_lines es : forward_lines (strip_bom (jsonl es)) = map stringify es.
Proof.
  assert (Hb : strip_bom (jsonl es) = jsonl es).
  { destruct es as [|e es]; [done|]. unfold jsonl. cbn [mbind list_bind].
    by destruct (stringify_brace e) as [t ->]. }
  rewrite Hb. induction es as [|e es IH]; [done|]. unfold jsonl in *. cbn [mbind list_bind map].
  rewrite <- app_assoc. cbn [app].
  rewrite forward_lines_cons; [| apply stringify_line |].
  - f_equal. apply IH. destruct es as [|e' es]; [done|]. cbn [mbind list_bind].
    by destruct (stringify_brace e') as [t ->].
  - by destruct (stringify_brace e) as [t ->].
Qed.

(** A cursor on the file of entries that are newest first gives them back. *)
Lemma open_cursor_ok key es :
  Forall (fun e => e_file e <> []) es -> StronglySorted (desc_by e_ts) es ->
  cursor_ok (open_cursor key (jsonl es)) /\ rem (open_cursor key (jsonl es)) = es.
Proof.
  intros Hf Hs.
  assert (Hp : forall e, e_file e <> [] -> parse_line (stringify e) = Some e).
  { intros e He. unfold parse_line. rewrite parse_stringify. by destruct (e_file e). }
  assert (Hr : rem (open_cursor key (jsonl es)) = es).
  { unfold rem, open_cursor. cbn [mc_lines]. rewrite jsonl_lines.
    clear Hs. induction Hf as [|e es He _ IH]; [done|]. cbn [map omap list_omap].
    by rewrite (Hp e He), IH. }
  split; [|done]. constructor; [|by rewrite Hr|done].
  unfold open_cursor. cbn [mc_lines]. rewrite jsonl_lines.
  apply Forall_map. eapply Forall_impl; [exact Hf|]. intros e He. rewrite (Hp e He). by eexists.
Qed.
End json_lines.

Lemma kway_types `{JL : JsonLaws} localeCompare bs total (types : list (str * list LogEntry)) :
  NoDup (map fst types) ->
  Forall (fun p => StronglySorted (desc_by e_ts) (snd p)) types ->
  Forall (fun p => Forall (fun e => e_file e <> []) (snd p)) types ->
  let cursors := map (fun p => open_cursor (fst p) (jsonl (snd p))) types in
  let out := batches (kway localeCompare (fun _ => false) bs total cursors) in
  out ≡ₚ types ≫= snd /\ StronglySorted (desc_by e_ts) out.
Proof.
  intros Hnd Hs Hf. cbv zeta.
  assert (Hc : Forall (fun p => cursor_ok (open_cursor (fst p) (jsonl (snd p))) /\
                          rem (open_cursor (fst p) (jsonl (snd p))) = snd p) types).
  { rewrite Forall_forall in Hs. rewrite Forall_forall in Hf. apply Forall_forall.
    intros p Hp. apply open_cursor_ok; auto. }
  set (cursors := map _ types).
  assert (Hrem : cursors ≫= rem = types ≫= snd).
  { unfold cursors. clear -Hc. induction Hc as [|p ps [_ Hr] _ IH]; [done|].
    cbn [map mbind list_bind]. by rewrite Hr, IH. }
  rewrite <- Hrem. apply kway_spec; [done| |].
  - unfold cursors. apply Forall_map. eapply Forall_impl; [exact Hc|]. by intros p [].
  - unfold cursors. rewrite map_map. by rewrite (map_ext _ fst) by done.
Qed.

(** C5: the merge of files of JSON lines that are each newest first puts out
    every entry of every file exactly once, and puts them out newest first over
    all files, whatever the tie-breaking comparison of names is; the run ends
    with the heap empty. *)
Theorem kway_merges `{JL : JsonLaws} localeCompare bs total (types : list (str * list LogEntry)) :
  NoDup (map fst types) ->
  Forall (fun p => StronglySorted (desc_by e_ts) (snd p)) types ->
  Forall (fun p => Forall (fun e => e_file e <> []) (snd p)) types ->
  let cursors := map (fun p => open_cursor (fst p) (jsonl (snd p))) types in
  let out := batches (kway localeCompare (fun _ => false) bs total cursors) in
  out ≡ₚ types ≫= snd /\ StronglySorted (desc_by e_ts) out.
Proof. apply kway_types. Qed.

Definition plain_entry (ts : Z) (file text : str) : LogEntry :=
  Entry 0 None ts LvI file file file text None (Some 0) (Some 0).

Definition two_types : list (str * list LogEntry) :=
  [([97], [plain_entry 5 [97] [120]; plain_entry 3 [97] [121]]);
   ([98], [plain_entry 4 [98] [122]; plain_entry 1 [98] [119]])].

Lemma kway_merges_witness :
  let out := batches (kway (fun _ _ => 0) (fun _ => false) 2 None
    (map (fun p => open_cursor (fst p) (jsonl (snd p))) two_types)) in
  out ≡ₚ two_types ≫= snd /\ StronglySorted (desc_by e_ts) out /\ map e_ts out = [5; 4; 3; 1].
Proof.
  destruct (kway_merges (fun _ _ => 0) 2 None two_types) as [H1 H2].
  - by apply (bool_decide_unpack _).
  - repeat constructor; unfold desc_by; simpl; lia.
  - by repeat constructor.
  - split; [exact H1|]. split; [exact H2|]. vm_compute. reflexivity.
Defined.

(** an abort at any round cuts the events short and adds none: what has been
    put out before is a prefix of what the whole merge puts out, and the partial
    batch that was being filled is not put out. *)
Theorem kway_abort_prefix `{J : JsonCodec} localeCompare fuel aborted bs total st :
  let '(st1, n1, evs) := kway_loop localeCompare fuel aborted 0 bs total st in
  let '(_, _, full) := kway_loop localeCompare fuel (fun _ => false) 0 bs total st in
  evs `prefix_of` full /\ batches (kway_finish true total st1) = [].
Proof.
  assert (H := kway_loop_prefix localeCompare fuel aborted 0 bs total st).
  destruct (kway_loop localeCompare fuel aborted 0 bs total st) as [[st1 n1] evs].
  destruct (kway_loop _ _ (fun _ => false) _ _ _ _) as [[st2 n2] evs2].
  split; [done|]. unfold kway_finish. simpl. by destruct (0 <? k_emitted st1).
Qed.

(** with a batch size of at least one, every batch that leaves the loop holds
    exactly that many entries, and what remains for the last batch is less. *)
Theorem kway_batch_sizes `{J : JsonCodec} localeCompare fuel aborted bs total heap cursors :
  1 <= bs ->
  let '(st, _, evs) :=
    kway_loop localeCompare fuel aborted 0 bs total (KState heap cursors [] 0 None 0) in
  zlen (k_out st) < bs /\
  Forall (fun ev => match ev with EvBatch logs => zlen logs = bs | _ => True end) evs.
Proof. intros Hbs. apply kway_loop_sizes; [done|]. unfold zlen. simpl. lia. Qed.

Lemma kway_batch_sizes_witness :
  let '(st, _, evs) :=
    kway_loop (fun _ _ => 0) 9 (fun _ => false) 0 2 None
      (KState (heap_push_all (merge_cmp (fun _ _ => 0)) []
                 (map (fun t => Item t (plain_entry t [97] [120]) [97] t) [5; 3; 9]))
         [] [] 0 None 0) in
  zlen (k_out st) < 2 /\
  Forall (fun ev => match ev with EvBatch logs => zlen logs = 2 | _ => True end) evs.
Proof. apply (kway_batch_sizes (fun _ _ => 0) 9). lia. Defined.
