(* ===== verification/LogFiles.v ===== *)
(** * Input files

    The part of src/core/logs/LogFileIntegration.ts that finds the input files of
    a directory and puts them in order: [walk] and [listInputLogFiles] with the
    white list of names, [countTotalLinesInDir], the rotation number of a name,
    the key of its type, and the grouping by type. *)

From stdpp Require Import base list sorting strings.
From Stdlib Require Import ZArith Lia.
From S2P Require Import Prelude JsString Regex LineReaders LogEntry ParserEngine.

(** What [lstat] says of a name of a directory. *)
Inductive dirent := DFile (bytes : list Z) | DDir | DOther | DStatFails.

(** A directory: its names in the order of [readdir], or an error. *)
Definition directory := option (list (str * dirent)).

(** ** Rotation numbers and type keys *)

(** A name with a numeric suffix, [^(...)\.(\d+)$] with a greedy first part. *)
Definition SUFFIX_RX : re := sq [Bol; Grp 1 (star dot); chr 46; Grp 2 (plus d); Eol].

Definition numberSuffix (name : str) : Z :=
  match exec SUFFIX_RX (basename name) with
  | Some m => or_else (parse_int (or_else (cap m 2) [])) 0
  | None => -1
  end.

Definition compareLogOrderDesc (a b : str) : Z :=
  numberSuffix (basename a) - numberSuffix (basename b).

Definition compareLogOrderAsc (a b : str) : Z := - compareLogOrderDesc a b.

(** [^(.+?)(?:\.(\d+))?$]: the first part is lazy. *)
Definition TYPE_RX : re :=
  sq [Bol; Grp 1 (Sq dot (Star false dot)); opt (Sq (chr 46) (Grp 2 (plus d))); Eol].

Definition typeKeyOf (name : str) : str :=
  let bn := basename name in
  match exec TYPE_RX bn with Some m => or_else (cap m 1) [] | None => bn end.

(** [groupByType]: a [Map] in the order of first insertion. *)
Fixpoint group_insert (k f : str) (mp : list (str * list str)) : list (str * list str) :=
  match mp with
  | [] => [(k, [f])]
  | (k', v) :: mp' =>
      if bool_decide (k = k') then (k', v ++ [f]) :: mp' else (k', v) :: group_insert k f mp'
  end.

Definition groupByType (files : list str) : list (str * list str) :=
  foldl (fun mp f => group_insert (typeKeyOf f) f mp) [] files.

(** ** The white list *)

Section whitelist.
Context `{RE : RegExpEngine}.

Definition nameTokenToRegex (token : str) : js_result (option regexp) :=
  if negb (nonempty token) then Ok None
  else
    let t := trim token in
    if starts_with (js "^") t then Ok (new_RegExp t true)
    else res_bind (or_throw (new_RegExp (js "^" ++ escapeRe t ++ js "$") true))
           (fun rx => Ok (Some rx)).

Definition compileWhitelistPathRegexes (globs : list str) : js_result (list regexp) :=
  res_bind (res_map nameTokenToRegex globs) (fun l => Ok (omap id l)).

Definition pathMatchesWhitelist (relPath : str) (allow : list regexp) : bool :=
  let bn := basename (to_posix relPath) in existsb (fun rx => re_test rx bn) allow.

(** [/\.log(\.\d+)?$/i] and [/\.txt$/i] *)
Definition LOG_RX : re :=
  sq [chr 46; lit_i (js "log"); opt (Grp 1 (Sq (chr 46) (plus d))); Eol].
Definition TXT_RX : re := sq [chr 46; lit_i (js "txt"); Eol].

Definition isLogLike (bn : str) : bool := rx_test LOG_RX bn || rx_test TXT_RX bn.

(** The body of the loop of [walk]: whether a name is kept. *)
Definition walk_keeps (allow : list regexp) (name : str) (ent : dirent) : bool :=
  match ent with
  | DFile _ =>
      if nonempty allow then pathMatchesWhitelist name allow else isLogLike (basename name)
  | _ => false
  end.

(** [listInputLogFiles(dir, allow)]; an unreadable directory has no files. *)
Definition listInputLogFiles (dir : directory) (allow : list regexp) : list str :=
  map fst (filter (fun p => walk_keeps allow (fst p) (snd p) = true) (or_else dir [])).
End whitelist.

(** The bytes of a file of the directory. *)
Fixpoint dir_lookup (name : str) (l : list (str * dirent)) : option (list Z) :=
  match l with
  | [] => None
  | (n, ent) :: l' =>
      if bool_decide (name = n)
      then match ent with DFile b => Some b | _ => None end
      else dir_lookup name l'
  end.

Definition file_bytes (dir : directory) (name : str) : list Z :=
  or_else (dir_lookup name (or_else dir [])) [].

(** [countTotalLinesInDir]; the chunks of the streams are an argument. *)
Definition countTotalLinesInDir `{RE : RegExpEngine} (chunks : list Z -> list (list Z))
    (dir : directory) (allow : list regexp) : Z :=
  foldl (fun total name => total + countLinesInFile (chunks (file_bytes dir name))) 0
    (array_sort compareLogOrderDesc (listInputLogFiles dir allow)).

(** ** Grouping *)

Lemma group_insert_keys k f mp :
  map fst (group_insert k f mp) =
  if bool_decide (k ∈ map fst mp) then map fst mp else map fst mp ++ [k].
Proof.
  induction mp as [|[k' v] mp IH]; [done|]. cbn [group_insert map fst].
  destruct (bool_decide_reflect (k = k')) as [->|Hk].
  - rewrite bool_decide_true by (by left). done.
  - cbn [map fst]. rewrite IH. destruct (bool_decide_reflect (k ∈ map fst mp)) as [Hin|Hn].
    + rewrite bool_decide_true by (by right). done.
    + rewrite bool_decide_false; [done|]. by intros [->|?]%elem_of_cons.
Qed.

Lemma group_insert_nodup k f mp : NoDup (map fst mp) -> NoDup (map fst (group_insert k f mp)).
Proof.
  intros H. rewrite group_insert_keys. case_bool_decide as Hk; [done|].
  apply NoDup_app. split_and!; [done| |apply NoDup_singleton].
  by intros x Hx ->%list_elem_of_singleton.
Qed.

Lemma group_insert_out k f mp : k ∉ map fst mp -> group_insert k f mp = mp ++ [(k, [f])].
Proof.
  induction mp as [|[k' v] mp IH]; [done|]. cbn [group_insert map fst].
  intros Hk. rewrite not_elem_of_cons in Hk. destruct Hk as [Hk Hn].
  rewrite bool_decide_false by done. by rewrite IH.
Qed.

Lemma group_insert_in k f mp :
  NoDup (map fst mp) -> k ∈ map fst mp ->
  group_insert k f mp =
  map (fun p => if bool_decide (k = fst p) then (fst p, snd p ++ [f]) else p) mp.
Proof.
  induction mp as [|[k' v] mp IH]; cbn [group_insert map fst snd]; [by intros _ ?%elem_of_nil|].
  intros [Hni Hnd]%NoDup_cons Hk. destruct (bool_decide_reflect (k = k')) as [->|Hne].
  - f_equal. rewrite <- (map_id mp) at 1. apply map_ext_in. intros p Hp.
    rewrite bool_decide_false; [done|]. intros ->. apply Hni. apply list_elem_of_fmap_2.
    by apply list_elem_of_In.
  - apply elem_of_cons in Hk as [->|Hk]; [done|]. by rewrite IH.
Qed.

Lemma group_insert_perm k f mp : group_insert k f mp ≫= snd ≡ₚ f :: (mp ≫= snd).
Proof.
  induction mp as [|[k' v] mp IH]; [done|]. cbn [group_insert].
  case_bool_decide; cbn [mbind list_bind snd].
  - rewrite <- app_assoc. cbn [app]. symmetry. apply Permutation_middle.
  - rewrite IH. symmetry. apply Permutation_middle.
Qed.

(** A group holds the files of its key, in the order of the list. *)
Definition groups_ok (files : list str) (mp : list (str * list str)) : Prop :=
  NoDup (map fst mp) /\
  (forall k, k ∈ map fst mp <-> exists f, f ∈ files /\ typeKeyOf f = k) /\
  Forall (fun p => snd p = filter (fun f => typeKeyOf f = fst p) files) mp /\
  mp ≫= snd ≡ₚ files.

Lemma groups_ok_snoc files mp f :
  groups_ok files mp -> groups_ok (files ++ [f]) (group_insert (typeKeyOf f) f mp).
Proof.
  intros (Hnd & Hkeys & Hv & Hp). split_and!.
  - by apply group_insert_nodup.
  - intros k. rewrite group_insert_keys. case_bool_decide as Hin.
    + rewrite Hkeys. split.
      * intros (x & Hx & Ek). exists x. rewrite elem_of_app. auto.
      * intros (x & [Hx| ->%list_elem_of_singleton]%elem_of_app & <-); [eauto|]. by apply Hkeys.
    + rewrite elem_of_app, list_elem_of_singleton, Hkeys. split.
      * intros [(x & Hx & Ek)| ->]; [exists x|exists f]; rewrite elem_of_app; [auto|].
        split; [right; by left|done].
      * intros (x & [Hx| ->%list_elem_of_singleton]%elem_of_app & <-); [left; eauto|by right].
  - destruct (decide (typeKeyOf f ∈ map fst mp)) as [Hin|Hout].
    + rewrite group_insert_in by done. apply Forall_map. eapply Forall_impl; [exact Hv|].
      intros [k v]. cbn [fst snd]. intros ->. rewrite filter_app, filter_cons.
      case_bool_decide as E; cbn [fst snd].
      * by rewrite decide_True.
      * rewrite decide_False by done. by rewrite app_nil_r.
    + rewrite group_insert_out by done. apply Forall_app. split.
      * rewrite Forall_forall in Hv |- *. intros [k v] Hkv. rewrite (Hv _ Hkv). cbn [fst].
        rewrite filter_app, filter_cons, decide_False, app_nil_r; [done|]. intros E.
        apply Hout. rewrite E. by apply (list_elem_of_fmap_2 fst _ (k, v)).
      * constructor; [|constructor]. cbn [fst snd]. rewrite filter_app.
        rewrite filter_none; [by rewrite filter_cons_True|].
        apply Forall_forall. intros x Hx E. apply Hout, Hkeys. eauto.
  - rewrite group_insert_perm, Hp. apply Permutation_cons_append.
Qed.

Lemma groupByType_ok files : groups_ok files (groupByType files).
Proof.
  unfold groupByType. assert (H : forall done mp, groups_ok done mp ->
    groups_ok (done ++ files) (foldl (fun mp f => group_insert (typeKeyOf f) f mp) mp files)).
  { induction files as [|f fs IH]; intros dn mp Hok; simpl; [by rewrite app_nil_r|].
    change (f :: fs) with ([f] ++ fs). rewrite app_assoc. by apply IH, groups_ok_snoc. }
  apply (H []). split_and!; [constructor| |constructor|done].
  intros k. split; [by intros ?%elem_of_nil|by intros (f & ?%elem_of_nil & _)].
Qed.

(** grouping by type loses no file and duplicates none; the keys are distinct,
    and the group of a key is exactly the files of that key in their order. *)
Theorem groupByType_partition files :
  groupByType files ≫= snd ≡ₚ files /\ NoDup (map fst (groupByType files)) /\
  Forall (fun p => snd p = filter (fun f => typeKeyOf f = fst p) files) (groupByType files).
Proof. destruct (groupByType_ok files) as (H1 & _ & H3 & H4). auto. Qed.

(** ** Rotated names *)

(** [\.(\d+)$] at the head of a text *)
Definition DOT_DIGITS : re := sq [chr 46; Grp 2 (plus d); Eol].

Definition all_digits (s : str) : Prop := s <> [] /\ Forall (fun c => is_digit c = true) s.

Lemma digits_then_end pv cs ds :
  all_digits ds ->
  exists y, rmatch DOT_DIGITS (Mst pv (46 :: ds) cs) (fun y => Some y) = Some y /\
    m_caps y = (2%nat, ds) :: cs.
Proof.
  intros [Hne Hd]. destruct ds as [|c ds]; [done|]. apply Forall_cons in Hd as [Hc Hd].
  unfold DOT_DIGITS, sq. rewrite rm_sq. unfold chr. rewrite rm_cls by done.
  rewrite rm_sq, rm_grp. unfold plus. rewrite rm_sq. unfold Regex.d. rewrite rm_cls by done.
  erewrite rmatch_star_end; [|done|]; cycle 1.
  { cbn [m_prev m_rest m_caps]. rewrite rm_eol. reflexivity. }
  eexists. split; [reflexivity|]. cbn [m_caps consumed m_rest]. unfold consumed.
  do 2 f_equal. cbn [m_rest]. rewrite Nat.sub_0_r. apply firstn_all.
Qed.

Lemma not_digits_then_end pv cs l k :
  (forall ds, l = 46 :: ds -> ~ all_digits ds) ->
  rmatch DOT_DIGITS (Mst pv l cs) k = None.
Proof.
  intros Hno. unfold DOT_DIGITS, sq. rewrite rm_sq. unfold chr.
  destruct l as [|c l]; [done|]. destruct (Z.eqb_spec 46 c) as [<-|Hc]; [|by rewrite rm_cls_no by lia].
  rewrite rm_cls by done. rewrite rm_sq, rm_grp. unfold plus. rewrite rm_sq. unfold Regex.d.
  destruct l as [|c l]; [done|]. destruct (is_digit c) eqn:Hc; [|by rewrite rm_cls_no].
  rewrite rm_cls by done.
  assert (Hsplit : exists ds t, l = ds ++ t /\ Forall (fun c => is_digit c = true) ds /\
    match t with [] => False | e :: _ => is_digit e = false end).
  { clear -Hno Hc. assert (Hl : ~ Forall (fun c => is_digit c = true) l).
    { intros H. apply (Hno (c :: l)); [done|]. split; [done|]. by constructor. }
    clear -Hl. induction l as [|e l IH]; [by destruct Hl|].
    destruct (is_digit e) eqn:He.
    - destruct IH as (ds & t & -> & Hd & Ht); [intros H; by apply Hl; constructor|].
      exists (e :: ds), t. split_and!; [done|by constructor|done].
    - exists [], (e :: l). done. }
  destruct Hsplit as (ds & t & -> & Hd & Ht). destruct t as [|e t]; [done|].
  apply rmatch_star_none; [done|done|]. intros l1 l2 pv' _. cbn [m_rest m_prev m_caps].
  destruct l2; [apply rm_eol_no|]. cbn [app]. apply rm_eol_no.
Qed.

Lemma basename_id name : Forall (fun c => c <> 47) name -> basename name = name.
Proof.
  intros H. unfold basename.
  assert (Hr : Forall (fun c => c <> 47) (rev name)) by (by apply Forall_rev).
  assert (Hd : drop_while (fun c => c =? 47) (rev name) = rev name).
  { destruct Hr as [|c l Hc]; [done|]. simpl. by destruct (Z.eqb_spec c 47). }
  rewrite Hd, take_while_all; [apply rev_involutive|].
  eapply Forall_impl; [exact Hr|]. intros c Hc. by destruct (Z.eqb_spec c 47).
Qed.

(** A file name: no slash, no line terminator. *)
Definition name_ok (s : str) : Prop := Forall (fun c => c <> 47 /\ is_line_term c = false) s.

Lemma name_dots s : name_ok s -> Forall (fun c => negb (is_line_term c) = true) s.
Proof. intros H. eapply Forall_impl; [exact H|]. by intros c [_ ->]. Qed.

Lemma name_basename s : name_ok s -> basename s = s.
Proof. intros H. apply basename_id. eapply Forall_impl; [exact H|]. by intros c []. Qed.

Lemma digit_not_dot c : is_digit c = true -> c <> 46.
Proof. unfold is_digit. lia. Qed.

(** A proper tail of a base before a dot and digits is not a dot and digits. *)
Lemma tail_not_suffix l2 ds es :
  l2 <> [] -> all_digits es -> l2 ++ 46 :: ds <> 46 :: es.
Proof.
  destruct l2 as [|c l2]; [done|]. intros _ [_ Hes] [= _ <-].
  apply Forall_app in Hes as [_ [H _]%Forall_cons]. done.
Qed.

Lemma opt_suffix_end x k :
  rmatch (Sq (opt (Sq (chr 46) (Grp 2 (plus Regex.d)))) Eol) x k =
  match rmatch DOT_DIGITS x k with Some z => Some z | None => rmatch Eol x k end.
Proof. done. Qed.

Lemma typeKeyOf_spec base suffix :
  name_ok (base ++ suffix) -> base <> [] ->
  (suffix = [] /\ (forall b ds, base = b ++ 46 :: ds -> b <> [] -> ~ all_digits ds) \/
   exists ds, suffix = 46 :: ds /\ all_digits ds) ->
  typeKeyOf (base ++ suffix) = base.
Proof.
  intros Hname Hne Hsuf. unfold typeKeyOf. rewrite name_basename by done.
  unfold TYPE_RX, sq. rewrite exec_anchored. destruct base as [|c base]; [done|].
  cbn [app] in *. assert (Hdots := name_dots _ Hname).
  apply Forall_cons in Hdots as [Hc Hdots]. apply Forall_app in Hdots as [Hb _].
  rewrite rm_sq, rm_grp, rm_sq. unfold dot. rewrite rm_cls by done.
  match goal with |- context [rmatch (Star false _) _ ?k] => set (K := k) end.
  assert (Hno : forall l1 l2 pv', base = l1 ++ l2 -> l2 <> [] ->
    K (Mst pv' (l2 ++ suffix) []) = None).
  { intros l1 l2 pv' -> Hl2. unfold K. cbn [m_prev m_rest m_caps]. rewrite opt_suffix_end.
    rewrite not_digits_then_end.
    - destruct l2; [done|]. apply rm_eol_no.
    - intros es E Hes. destruct Hsuf as [[-> Hn]|(ds & -> & Hds)].
      + rewrite app_nil_r in E. subst l2. by apply (Hn (c :: l1) es).
      + by apply (tail_not_suffix l2 ds es). }
  assert (Hyes : exists y, K (Mst (match last base with Some e => Some e | None => Some c end)
    suffix []) = Some y /\ cap_lookup 1 (m_caps y) = Some (c :: base)).
  { assert (Hcons : forall pv, consumed (Mst None (c :: base ++ suffix) [])
      (Mst pv suffix []) = c :: base).
    { intros pv. unfold consumed. cbn [m_rest length]. rewrite length_app.
      replace (S (length base + length suffix) - length suffix)%nat with (S (length base)) by lia.
      cbn [take]. by rewrite take_app_length. }
    unfold K. cbn [m_prev m_rest m_caps]. rewrite Hcons, opt_suffix_end.
    destruct Hsuf as [[-> _]|(ds & -> & Hds)].
    - rewrite not_digits_then_end by done. rewrite rm_eol. by eexists.
    - edestruct digits_then_end as (y & Ey & Hy); [exact Hds|]. rewrite Ey.
      exists y. split; [done|]. by rewrite Hy. }
  destruct Hyes as (y & Ey & Hy).
  rewrite (rmatch_lazy_run _ base suffix _ [] K y Hb Hno Ey).
  unfold cap. cbn [rx_caps]. by rewrite Hy.
Qed.

Lemma numberSuffix_suffix base ds :
  name_ok (base ++ 46 :: ds) -> all_digits ds ->
  numberSuffix (base ++ 46 :: ds) = digits_value 0 ds.
Proof.
  intros Hname Hds. unfold numberSuffix. rewrite name_basename by done.
  unfold SUFFIX_RX, sq. rewrite exec_anchored, rm_sq, rm_grp. unfold star, dot.
  match goal with |- context [rmatch (Star true _) _ ?k] => set (K := k) end.
  assert (HK : forall y, K y = rmatch DOT_DIGITS (Mst (m_prev y) (m_rest y)
    ((1%nat, consumed (Mst None (base ++ 46 :: ds) []) y) :: m_caps y)) (fun y => Some y)) by done.
  destruct (digits_then_end (match last base with Some e => Some e | None => None end)
    [(1%nat, consumed (Mst None (base ++ 46 :: ds) [])
        (Mst (match last base with Some e => Some e | None => None end) (46 :: ds) []))] ds Hds)
    as (y & Ey & Hy).
  rewrite (rmatch_star_back _ base (46 :: ds) None [] K y).
  - unfold cap. cbn [rx_caps]. rewrite Hy. cbn [cap_lookup Nat.eqb or_else].
    destruct Hds as [Hne Hd]. by rewrite parse_int_digits.
  - by apply name_dots.
  - intros m1 m2 pv' E Hm1. rewrite HK. cbn [m_prev m_rest m_caps].
    apply not_digits_then_end. intros es ->. destruct m1 as [|x m1]; [done|].
    injection E as _ E. destruct Hds as [_ Hd]. rewrite E in Hd.
    apply Forall_app in Hd as [_ [Hx _]%Forall_cons]. done.
  - by rewrite HK.
Qed.

Lemma numberSuffix_none name :
  name_ok name -> (forall b ds, name = b ++ 46 :: ds -> ~ all_digits ds) ->
  numberSuffix name = -1.
Proof.
  intros Hname Hno. unfold numberSuffix. rewrite name_basename by done.
  unfold SUFFIX_RX, sq. rewrite exec_anchored, rm_sq, rm_grp. unfold star, dot.
  match goal with |- context [rmatch (Star true (Cls ?p)) _ ?k] =>
    assert (E : rmatch (Star true (Cls p)) (Mst None (name ++ []) []) k = None) end.
  { apply rmatch_star_none; [by apply name_dots|done|].
    intros l1 l2 pv' ->. rewrite app_nil_r. cbn [m_prev m_rest m_caps].
    apply not_digits_then_end. intros ds ->. by apply (Hno l1). }
  rewrite app_nil_r in E. by rewrite E.
Qed.

Lemma digits_value_nonneg acc ds :
  0 <= acc -> Forall (fun c => is_digit c = true) ds -> 0 <= digits_value acc ds.
Proof.
  intros Ha Hd. revert acc Ha. induction Hd as [|c ds Hc _ IH]; intros acc Ha; simpl; [done|].
  apply IH. unfold is_digit in Hc. lia.
Qed.

(** The name ends in a dot and digits. *)
Definition has_rotation (name : str) : bool :=
  existsb (fun i => match drop i name with
                    | c :: ds => (c =? 46) && nonempty ds && forallb is_digit ds
                    | [] => false
                    end) (seq 0 (length name)).

Lemma has_rotation_false name :
  has_rotation name = false -> forall b ds, name = b ++ 46 :: ds -> ~ all_digits ds.
Proof.
  intros H b ds -> [Hne Hd]. apply not_true_iff_false in H. apply H.
  apply existsb_exists. exists (length b). split.
  - apply in_seq. rewrite length_app. simpl. lia.
  - rewrite drop_app_length. simpl. destruct ds as [|c ds]; [done|]. cbn [nonempty].
    apply forallb_forall. intros x Hx. rewrite Forall_forall in Hd. apply Hd.
    by apply list_elem_of_In.
Qed.

(** a rotated log file [base.N] has the type of its base and the rotation
    number N, and the unrotated file [base] has the same type and the number -1:
    so all rotations of a log are of one type, and in the order of
    [compareLogOrderDesc] the unrotated file comes first and then [base.1],
    [base.2], and so on by number. *)
Theorem rotation_names base ds es :
  name_ok base -> base <> [] -> has_rotation base = false ->
  all_digits ds -> all_digits es ->
  typeKeyOf base = base /\ typeKeyOf (base ++ 46 :: ds) = base /\
  compareLogOrderDesc base (base ++ 46 :: ds) < 0 /\
  compareLogOrderDesc (base ++ 46 :: ds) (base ++ 46 :: es) =
    digits_value 0 ds - digits_value 0 es.
Proof.
  intros Hb Hne Hrot Hds Hes. assert (Hno := has_rotation_false _ Hrot).
  assert (Hn : forall xs, all_digits xs -> name_ok (base ++ 46 :: xs)).
  { intros xs [_ Hxs]. apply Forall_app. split; [done|]. constructor; [done|].
    eapply Forall_impl; [exact Hxs|]. intros c Hc. unfold is_digit, is_line_term in *. lia. }
  unfold compareLogOrderDesc. rewrite !name_basename by auto.
  rewrite !numberSuffix_suffix by auto. rewrite numberSuffix_none by done. split_and!.
  - rewrite <- (app_nil_r base) at 1. apply typeKeyOf_spec; rewrite ?app_nil_r; [done..|].
    left. split; [done|]. intros b xs E _. by apply (Hno b).
  - apply typeKeyOf_spec; [auto|done|eauto].
  - enough (0 <= digits_value 0 ds) by lia. destruct Hds as [_ Hd].
    by apply digits_value_nonneg.
  - done.
Qed.

Lemma rotation_names_witness :
  typeKeyOf (js "system.log") = js "system.log" /\
  typeKeyOf (js "system.log.2") = js "system.log" /\
  compareLogOrderDesc (js "system.log") (js "system.log.2") < 0 /\
  compareLogOrderDesc (js "system.log.2") (js "system.log.10") = 2 - 10.
Proof.
  apply (rotation_names (js "system.log") (js "2") (js "10")); try done;
    repeat constructor; done.
Defined.
