(* ===== verification/TypePipeline.v ===== *)
(** * The entries of one type

    The middle phase of [mergeDirectory] in src/core/logs/LogFileIntegration.ts:
    the files of a type are read newest first, each from its end, every line
    becomes an entry, the years of formats without a year are stitched, the
    timestamps are made to descend, and the result is sorted.

    The bytes of a file reach the preflight of the parser as a stream; [stream]
    gives its chunks of text. *)

From stdpp Require Import base list sorting strings.
From Stdlib Require Import ZArith Lia.
From S2P Require Import Prelude JsString TimeParser Timezone Stitcher LineReaders LogEntry.
From S2P Require Import ParserEngine LogFiles.

Section load.
Context `{RE : RegExpEngine}.
Context (now now_year : Z) (stream : list Z -> js_result (list str)).
Context (dirPath : str) (dir : directory).

(** The parser gate of a file; an error of the preflight switches it off. *)
Definition use_parser (cp : option CompiledParser) (fullPath rel : str) (bytes : list Z) : bool :=
  match cp with
  | None => false
  | Some cp => catch (shouldUseParserForFile (stream bytes) fullPath rel cp) false
  end.

(** The loop over the lines of a file: [revIdx] counts every line, a line that
    the parser finds no header in is dropped, and the last positive timestamp is
    the fallback of the next line. *)
Fixpoint load_lines (useParser : bool) (cp : option CompiledParser) (fullPath : str)
    (fileIdx revIdx : Z) (prevTs : option Z) (preserve : bool) (lines : list str)
  : list LogEntry :=
  match lines with
  | [] => []
  | line :: rest =>
      let entry := lineToEntryWithParser now now_year fullPath line
                     (if useParser then cp else None) prevTs (Some fileIdx) (Some revIdx) in
      if useParser && isParsedHeaderAllMissing (e_parsed entry)
      then load_lines useParser cp fullPath fileIdx (revIdx + 1) prevTs preserve rest
      else
        let prevTs' := if 0 <? e_ts entry then Some (e_ts entry) else prevTs in
        restoreFullTextIfNeeded now_year entry preserve
          :: load_lines useParser cp fullPath fileIdx (revIdx + 1) prevTs' preserve rest
  end.

Definition load_file (cp : option CompiledParser) (preserve : bool) (fileIdx : Z) (name : str)
  : list LogEntry :=
  let fullPath := path_join dirPath name in
  let bytes := file_bytes dir name in
  load_lines (use_parser cp fullPath (to_posix name) bytes) cp fullPath fileIdx 0 None preserve
    (rr_lines bytes CHUNK_SIZE).

Fixpoint load_files (cp : option CompiledParser) (preserve : bool) (fileIdx : Z)
    (names : list str) : list LogEntry :=
  match names with
  | [] => []
  | n :: ns => load_file cp preserve fileIdx n ++ load_files cp preserve (fileIdx + 1) ns
  end.

(** Newest file first: the base, then its rotations. *)
Definition load_type (cp : option CompiledParser) (preserve : bool) (fileList : list str)
  : list LogEntry :=
  load_files cp preserve 0 (array_sort compareLogOrderDesc fileList).
End load.

(** ** Correction of the timestamps *)

Definition is_yearless (e : LogEntry) : bool :=
  match extractHeaderTimeToken (e_text e) with
  | Some tok => if nonempty tok then isYearlessTimeToken (Some tok) else false
  | None => false
  end.

Fixpoint set_all (es : list LogEntry) (ts : list Z) : list LogEntry :=
  match es, ts with
  | e :: es', t :: ts' => set_ts e t :: set_all es' ts'
  | _, _ => []
  end.

(** [yearlessStitcher.apply] over the entries; [None] if its loop does not end. *)
Definition stitch_entries (es : list LogEntry) : option (list LogEntry) :=
  match stitch_run stitcher_init (map (fun e => (e_ts e, is_yearless e)) es) with
  | Some (_, ts) => Some (set_all es ts)
  | None => None
  end.

(** [new MonotonicCorrector(typeKey, 1)] over the entries *)
Definition monotone_entries (es : list LogEntry) : list LogEntry :=
  set_all es (snd (Mono.run (Mono.init 1) (map e_ts es))).

Definition sort_desc (es : list LogEntry) : list LogEntry :=
  array_sort (fun a b => e_ts b - e_ts a) es.

Definition correct_entries (es : list LogEntry) : option (list LogEntry) :=
  match stitch_entries es with
  | Some es1 => Some (sort_desc (monotone_entries es1))
  | None => None
  end.

(** [countDescInversions] and [tsRange], the probes of the order *)
Fixpoint countDescInversions (l : list Z) : Z :=
  match l with
  | a :: l' => match l' with
               | b :: _ => (if a <? b then 1 else 0) + countDescInversions l'
               | [] => 0
               end
  | [] => 0
  end.

Definition tsRange (l : list Z) : option (Z * Z) :=
  match l with
  | [] => None
  | a :: l' => Some (foldl (fun p t => (Z.max (fst p) t, Z.min (snd p) t)) (a, a) l')
  end.

(** ** The correction changes timestamps only *)

Definition same_but_ts (a b : LogEntry) : Prop := set_ts a 0 = set_ts b 0.

#[export] Instance same_but_ts_equiv : Equivalence same_but_ts.
Proof. unfold same_but_ts. split; [by intros ?|by intros ?? ->|by intros ??? -> ->]. Qed.

#[export] Instance e_text_proper : Proper (same_but_ts ==> eq) e_text.
Proof. intros a b H. by apply (f_equal e_text) in H. Qed.

#[export] Instance e_file_proper : Proper (same_but_ts ==> eq) e_file.
Proof. intros a b H. by apply (f_equal e_file) in H. Qed.

Lemma set_all_same es ts :
  length ts = length es -> Forall2 same_but_ts es (set_all es ts) /\ map e_ts (set_all es ts) = ts.
Proof.
  revert ts. induction es as [|e es IH]; intros [|t ts] Hl; try done; simpl in *.
  destruct (IH ts) as [H1 H2]; [lia|]. split; [|by rewrite H2].
  constructor; [|done]. by destruct e.
Qed.

Lemma stitch_run_length s lines s' out :
  stitch_run s lines = Some (s', out) -> length out = length lines.
Proof.
  revert s s' out. induction lines as [|[t y] lines IH]; intros s s' out; cbn [stitch_run].
  - by intros [= <- <-].
  - destruct (stitch_apply s t y) as [[s1 c]|]; [|done].
    destruct (stitch_run s1 lines) as [[s2 cs]|] eqn:E; [|done]. intros [= <- <-].
    simpl. f_equal. by eapply IH.
Qed.

Lemma stitch_entries_same es es1 : stitch_entries es = Some es1 -> Forall2 same_but_ts es es1.
Proof.
  unfold stitch_entries. destruct (stitch_run _ _) as [[s ts]|] eqn:E; [|done].
  intros [= <-]. apply stitch_run_length in E. rewrite length_map in E. by apply set_all_same.
Qed.

Lemma monotone_entries_same es :
  Forall2 same_but_ts es (monotone_entries es) /\
  StronglySorted (desc_by e_ts) (monotone_entries es).
Proof.
  unfold monotone_entries. assert (Hl := mono_run_length (Mono.init 1) (map e_ts es)).
  rewrite length_map in Hl. destruct (set_all_same es _ Hl) as [H1 H2]. split; [done|].
  assert (Hs := mono_run_sorted (Mono.init 1) (map e_ts es)). rewrite <- H2 in Hs.
  revert Hs. generalize (set_all es (Mono.run (Mono.init 1) (map e_ts es)).2) as l. clear.
  induction l as [|e l IH]; intros Hs; [constructor|]. inversion Hs as [|? ? Hs' Hall]; subst.
  constructor; [by apply IH|]. by rewrite Forall_map in Hall.
Qed.

Lemma sort_desc_id es : StronglySorted (desc_by e_ts) es -> sort_desc es = es.
Proof.
  intros H. apply array_sort_id. induction H as [|e l _ IH Hall]; constructor; [done|].
  eapply Forall_impl; [exact Hall|]. unfold desc_by. intros x Hx. simpl in *. lia.
Qed.

Lemma correct_entries_spec es es' :
  correct_entries es = Some es' ->
  StronglySorted (desc_by e_ts) es' /\ Forall2 same_but_ts es es'.
Proof.
  unfold correct_entries. destruct (stitch_entries es) as [es1|] eqn:E; [|done]. intros [= <-].
  destruct (monotone_entries_same es1) as [H1 H2]. rewrite sort_desc_id by done.
  split; [done|]. apply stitch_entries_same in E. by transitivity es1.
Qed.

(** A format with a year in every header needs no stitching. *)
Lemma stitch_run_yearful s lines :
  Forall (fun p => snd p = false) lines ->
  exists s', stitch_run s lines = Some (s', map fst lines).
Proof.
  intros H. revert s. induction H as [|[t y] lines Hy _ IH]; intros s; cbn [stitch_run]; [by eexists|].
  cbn [snd] in Hy. subst y. unfold stitch_apply. cbn [negb].
  destruct (t <=? 0); [destruct (IH s) as [s' ->]; by eexists|].
  match goal with |- context [stitch_run ?x lines] => destruct (IH x) as [s' ->] end. by eexists.
Qed.

Lemma set_all_id es : set_all es (map e_ts es) = es.
Proof. induction es as [|e es IH]; [done|]. simpl. by rewrite IH, set_ts_id. Qed.

Lemma correct_entries_yearful es :
  Forall (fun e => is_yearless e = false) es ->
  correct_entries es = Some (sort_desc (monotone_entries es)).
Proof.
  intros H. unfold correct_entries, stitch_entries.
  destruct (stitch_run_yearful stitcher_init (map (fun e => (e_ts e, is_yearless e)) es))
    as [s' ->]; [by apply Forall_map|].
  rewrite map_map. cbn [fst]. by rewrite set_all_id.
Qed.

Lemma inversions_desc l : StronglySorted (desc_by id) l -> countDescInversions l = 0.
Proof.
  induction 1 as [|a l Hs IH Hall]; [done|]. destruct l as [|b l]; [done|].
  change (countDescInversions (a :: b :: l))
    with ((if a <? b then 1 else 0) + countDescInversions (b :: l)).
  apply Forall_cons in Hall as [Hb _]. unfold desc_by, id in Hb. rewrite IH.
  by destruct (Z.ltb_spec a b); [lia|].
Qed.

(** the correction of the entries of a type returns the same entries in the
    same order (only timestamps change, so the final sort moves nothing), newest
    first; so the probe that counts inversions before the file is written finds
    none. *)
Theorem correct_entries_desc es es' :
  correct_entries es = Some es' ->
  Forall2 same_but_ts es es' /\ StronglySorted (desc_by e_ts) es' /\
  countDescInversions (map e_ts es') = 0.
Proof.
  intros H. destruct (correct_entries_spec _ _ H) as [H1 H2]. split_and!; [done|done|].
  apply inversions_desc. clear -H1. induction H1 as [|e l _ IH Hall]; constructor; [done|].
  by apply Forall_map.
Qed.

(** when the headers of a type carry their year and its lines descend already,
    the correction is the identity. *)
Theorem correct_entries_id es :
  Forall (fun e => is_yearless e = false) es -> StronglySorted (desc_by e_ts) es ->
  correct_entries es = Some es.
Proof.
  intros Hy Hs. rewrite correct_entries_yearful by done. f_equal.
  assert (Hm : monotone_entries es = es); [|rewrite Hm; by apply sort_desc_id].
  unfold monotone_entries. destruct (mono_run_desc (Mono.init 1) (map e_ts es) 0) as [E _]; try done.
  - clear -Hs. induction Hs as [|e l _ IH Hall]; constructor; [done|]. by apply Forall_map.
  - rewrite E, map_add_0. apply set_all_id.
Qed.

(** A year turn: a January line of the new year, then December lines. *)
Definition line_entry (now_year : Z) (text : str) : LogEntry :=
  Entry 0 None (or_else (parseTs now_year text) 0) (guessLevel text) [97] [97] [97] text None
    (Some 0) (Some 0).

Definition year_turn : list LogEntry :=
  map (line_entry 2024)
    [js "[Jan  1 00:00:05.000] a: x"; js "[Dec 31 23:59:58.000] a: y";
     js "[Dec 31 23:59:50.000] a: z"].

Definition year_turn_corrected : list LogEntry :=
  set_all year_turn [1704067205000; 1704067198000; 1704067190000].

Lemma correct_entries_desc_witness :
  Forall2 same_but_ts year_turn year_turn_corrected /\
  StronglySorted (desc_by e_ts) year_turn_corrected /\
  countDescInversions (map e_ts year_turn_corrected) = 0.
Proof. apply (correct_entries_desc year_turn). vm_compute. reflexivity. Defined.

Definition yearful_lines : list LogEntry :=
  map (line_entry 2024)
    [js "[2024-01-01T00:00:05.000] a: x"; js "[2023-12-31T23:59:58.000] a: y"].

Lemma correct_entries_id_witness : correct_entries yearful_lines = Some yearful_lines.
Proof.
  apply (correct_entries_id yearful_lines).
  - repeat constructor.
  - repeat constructor; unfold desc_by; vm_compute; discriminate.
Defined.

(** ** Loading loses no line *)

Section load_proofs.
Context `{RE : RegExpEngine}.
Context (now now_year : Z) (stream : list Z -> js_result (list str)).
Context (dirPath : str) (dir : directory).

Lemma load_lines_plain cp fullPath fileIdx revIdx prevTs preserve lines :
  map e_text (load_lines now now_year false cp fullPath fileIdx revIdx prevTs preserve lines)
  = lines.
Proof.
  revert revIdx prevTs. induction lines as [|l ls IH]; intros revIdx prevTs; [done|].
  cbn [load_lines andb map]. rewrite IH. f_equal.
  unfold restoreFullTextIfNeeded. by destruct preserve.
Qed.

Lemma restore_meta e preserve :
  e_file (restoreFullTextIfNeeded now_year e preserve) = e_file e /\
  e_fRank (restoreFullTextIfNeeded now_year e preserve) = e_fRank e /\
  e_rev (restoreFullTextIfNeeded now_year e preserve) = e_rev e.
Proof. unfold restoreFullTextIfNeeded. by repeat case_match. Qed.

Lemma lineToEntry_meta fullPath line cp prev fr rv :
  let e := lineToEntryWithParser now now_year fullPath line cp prev fr rv in
  e_file e = basename fullPath /\ e_fRank e = fr /\ e_rev e = rv.
Proof. cbv zeta. unfold lineToEntryWithParser. by repeat case_match. Qed.

(** Every entry carries the rank of its file and the number of its line. *)
Lemma load_lines_meta useParser cp fullPath fileIdx revIdx prevTs preserve lines :
  Forall (fun e => e_file e = basename fullPath /\ e_fRank e = Some fileIdx /\
            exists r, e_rev e = Some r /\ revIdx <= r < revIdx + zlen lines)
    (load_lines now now_year useParser cp fullPath fileIdx revIdx prevTs preserve lines).
Proof.
  revert revIdx prevTs. induction lines as [|l ls IH]; intros revIdx prevTs; [constructor|].
  assert (Hz : zlen (l :: ls) = zlen ls + 1) by (unfold zlen; simpl; lia).
  assert (Hnn := zlen_nonneg ls).
  assert (Hrest : forall pv, Forall (fun e => e_file e = basename fullPath /\
      e_fRank e = Some fileIdx /\ exists r, e_rev e = Some r /\ revIdx <= r < revIdx + zlen (l :: ls))
    (load_lines now now_year useParser cp fullPath fileIdx (revIdx + 1) pv preserve ls)).
  { intros pv. eapply Forall_impl; [apply (IH (revIdx + 1) pv)|].
    intros e (H1 & H2 & r & H3 & H4). split_and!; [done|done|]. exists r. split; [done|lia]. }
  cbn [load_lines]. case_match; [apply Hrest|]. constructor; [|apply Hrest].
  destruct (restore_meta (lineToEntryWithParser now now_year fullPath l
    (if useParser then cp else None) prevTs (Some fileIdx) (Some revIdx)) preserve) as (-> & -> & ->).
  destruct (lineToEntry_meta fullPath l (if useParser then cp else None) prevTs
    (Some fileIdx) (Some revIdx)) as (-> & -> & ->).
  split_and!; [done|done|]. exists revIdx. split; [done|lia].
Qed.
End load_proofs.
