(* ===== verification/Warmup.v ===== *)
(** * The warm-up pass

    [warmupTailPrepass] of src/core/logs/LogFileIntegration.ts: before the merge,
    the newest lines of every type are collected into memory, up to a target.
    The target is divided evenly over the types, types that run out leave their
    share to the others, the timestamps are corrected per type, and a heap gives
    the newest entries over all types.

    A [TypeTailWalker] goes through the files of a type, newest first, each with a
    reader from the end; the reader is represented by the lines it has still to
    give ([rr_lines]).  [aborted n] is the abort signal at its [n]-th check. *)

From stdpp Require Import base list sorting strings.
From Stdlib Require Import ZArith Lia.
From S2P Require Import Prelude JsString MaxHeap TimeParser LineReaders LogEntry ParserEngine.
From S2P Require Import LogFiles TypePipeline.

(** A walker with the buffer and the fallback timestamp of its type. *)
Record walker := Walker {
  w_key : str;
  w_files : list str;                 (* files.slice(idx) *)
  w_cur : option (list str);          (* rr *)
  w_useParser : bool;                 (* useParserForCurrentFile *)
  w_exhausted : bool;
  w_buffer : list LogEntry;           (* buffers.get(typeKey) *)
  w_prevTs : option Z;                (* prevTsMap.get(typeKey) *)
}.

(** A line of [next], with its file and the parser gate of the file *)
Record tail_line := TailLine { tl_line : str; tl_file : str; tl_useParser : bool }.

Record WarmupResult := WarmResult {
  wr_logs : list LogEntry;
  wr_fullyCovered : bool;
  wr_perType : list (str * (Z * bool));
}.

Record WarmItem := WItem { wi_ts : Z; wi_entry : LogEntry; wi_typeKey : str; wi_idx : nat }.

Definition CHUNK : Z := 64.

Section warmup.
Context `{RE : RegExpEngine}.
Context (now now_year : Z) (stream : list Z -> js_result (list str)).
Context (dirPath : str) (dir : directory) (cp : option CompiledParser).
Context (aborted : nat -> bool).

Definition file_lines (name : str) : list str := rr_lines (file_bytes dir name) CHUNK_SIZE.

(** The gate of a file, by its base name. *)
Definition warm_gate (name : str) : bool :=
  let fp := path_join dirPath name in
  use_parser stream cp fp (to_posix (basename fp)) (file_bytes dir name).

(** Skip the files that cannot be opened. *)
Fixpoint open_next (files : list str) : list str :=
  match files with
  | [] => []
  | f :: fs =>
      match dir_lookup f (or_else dir []) with Some _ => f :: fs | None => open_next fs end
  end.

Definition ensureReader (w : walker) : walker :=
  match w_cur w with
  | Some _ => w
  | None =>
      match open_next (w_files w) with
      | [] => Walker (w_key w) [] None (w_useParser w) true (w_buffer w) (w_prevTs w)
      | f :: fs => Walker (w_key w) (f :: fs) (Some (file_lines f)) (warm_gate f)
                     (w_exhausted w) (w_buffer w) (w_prevTs w)
      end
  end.

(** The loop of [next(n)]: a round takes a line or leaves a file. *)
Fixpoint walker_loop (fuel : nat) (n : Z) (w : walker) (out : list tail_line)
  : walker * list tail_line :=
  match fuel with
  | O => (w, out)
  | S f =>
      if (n <=? zlen out) || w_exhausted w then (w, out)
      else
        match w_cur w with
        | None => (Walker (w_key w) (w_files w) None (w_useParser w) true (w_buffer w) (w_prevTs w),
                   out)
        | Some [] =>
            walker_loop f n
              (ensureReader (Walker (w_key w) (drop 1 (w_files w)) None (w_useParser w)
                               (w_exhausted w) (w_buffer w) (w_prevTs w))) out
        | Some (line :: ls) =>
            walker_loop f n
              (Walker (w_key w) (w_files w) (Some ls) (w_useParser w) (w_exhausted w)
                 (w_buffer w) (w_prevTs w))
              (out ++ [TailLine line (or_else (head (w_files w)) []) (w_useParser w)])
        end
  end.

(** The lines a walker has still to give. *)
Definition walker_rest (w : walker) : nat :=
  match w_cur w with
  | Some ls => length ls + sum_list (map (fun f => length (file_lines f)) (drop 1 (w_files w)))
  | None => sum_list (map (fun f => length (file_lines f)) (w_files w))
  end.

Definition walker_next (n : Z) (w : walker) : walker * list tail_line :=
  if w_exhausted w then (w, [])
  else
    let w1 := ensureReader w in
    walker_loop (S (walker_rest w1 + length (w_files w1))) n w1 [].

(** [toEntry] *)
Definition toEntry (l : tail_line) (fallbackTs : option Z) : LogEntry :=
  restoreFullTextIfNeeded now_year
    (lineToEntryWithParser now now_year (path_join dirPath (tl_file l)) (tl_line l)
       (if tl_useParser l then cp else None) fallbackTs None None) true.

(** The loop over the lines of a round of [batchRead]. *)
Fixpoint absorb (part : list tail_line) (w : walker) : walker * Z :=
  match part with
  | [] => (w, 0)
  | l :: part' =>
      let e := toEntry l (w_prevTs w) in
      if tl_useParser l && isParsedHeaderAllMissing (e_parsed e) then absorb part' w
      else
        let '(w', pushed) :=
          absorb part' (Walker (w_key w) (w_files w) (w_cur w) (w_useParser w) (w_exhausted w)
                          (w_buffer w ++ [e]) (Some (e_ts e))) in
        (w', pushed + 1)
  end.

Fixpoint batch_loop (fuel : nat) (need got : Z) (tick : nat) (w : walker) : walker * Z * nat :=
  match fuel with
  | O => (w, got, tick)
  | S f =>
      if (need <=? got) || w_exhausted w then (w, got, tick)
      else if aborted tick then (w, got, S tick)
      else
        let '(w1, part) := walker_next (Z.min CHUNK (need - got)) w in
        match part with
        | [] => (w1, got, S tick)
        | _ :: _ =>
            let '(w2, pushed) := absorb part w1 in
            batch_loop f need (got + pushed) (S tick) w2
        end
  end.

(** [batchRead(typeKey, need)]: every round takes a line at least. *)
Definition batchRead (need : Z) (tick : nat) (w : walker) : walker * Z * nat :=
  if need <=? 0 then (w, 0, tick) else batch_loop (S (walker_rest w)) need 0 tick w.

(** ** Shares *)

Definition min_cap (want : Z) (cap : option Z) : Z :=
  match cap with Some c => Z.min want c | None => want end.

(** [alloc]: the shares of the types in order. *)
Fixpoint alloc (base rem : Z) (cap : option Z) (n : nat) : list Z :=
  match n with
  | O => []
  | S n' => min_cap (base + (if 0 <? rem then 1 else 0)) cap
            :: alloc base (if 0 <? rem then rem - 1 else rem) cap n'
  end.

(** First pass: every type reads its share. *)
Fixpoint first_pass (shares : list Z) (tick : nat) (ws : list walker)
  : list walker * Z * nat :=
  match shares, ws with
  | want :: shares', w :: ws' =>
      let '(w1, got, tick1) := batchRead want tick w in
      let '(ws2, total, tick2) := first_pass shares' tick1 ws' in
      (w1 :: ws2, got + total, tick2)
  | _, _ => (ws, 0, tick)
  end.

Definition MAX_SAFE_INTEGER : Z := 9007199254740991.

Definition room_of (cap : option Z) (w : walker) : Z :=
  Z.max 0 (or_else cap MAX_SAFE_INTEGER - zlen (w_buffer w)).

(** [room()]: the positions of the types that can give more, with their room. *)
Fixpoint room_from (cap : option Z) (i : nat) (ws : list walker) : list (nat * Z) :=
  match ws with
  | [] => []
  | w :: ws' =>
      if negb (w_exhausted w) && (0 <? room_of cap w)
      then (i, room_of cap w) :: room_from cap (S i) ws' else room_from cap (S i) ws'
  end.

Definition room (cap : option Z) (ws : list walker) : list (nat * Z) := room_from cap 0 ws.

(** Second pass: round robin over the types with room. *)
Fixpoint redistribute (fuel : nat) (cap : option Z) (deficit total : Z) (i tick : nat)
    (lastProgress : Z) (ws : list walker) : list walker * Z * nat :=
  match fuel with
  | O => (ws, total, tick)
  | S f =>
      let slots := room cap ws in
      if (deficit <=? 0) || negb (nonempty slots) then (ws, total, tick)
      else if aborted tick then (ws, total, S tick)
      else
        match slots !! (i mod length slots)%nat with
        | None => (ws, total, S tick)
        | Some (k, r) =>
            match ws !! k with
            | None => (ws, total, S tick)
            | Some w =>
                let take := Z.min (Z.min CHUNK r) deficit in
                let '(w1, got, tick1) := batchRead take (S tick) w in
                let ws1 := <[k := w1]> ws in
                let total1 := total + got in
                if (total1 =? lastProgress) && forallb w_exhausted ws1
                then (ws1, total1, tick1)
                else redistribute f cap (deficit - got) total1 (S i) tick1 total1 ws1
            end
        end
  end.

Definition collect (target : Z) (cap : option Z) (tick : nat) (ws : list walker)
  : list walker * Z * nat :=
  let T := zlen ws in
  let '(ws1, total, tick1) :=
    first_pass (alloc (target / T) (target mod T) cap (length ws)) tick ws in
  let deficit := Z.max 0 (target - total) in
  redistribute (Z.to_nat deficit + length ws) cap deficit total 0 tick1 total ws1.

(** ** The merge of the buffers *)

(** Code unit order, [a < b] on strings *)
Fixpoint str_lt (a b : str) : bool :=
  match a, b with
  | _, [] => false
  | [], _ :: _ => true
  | x :: a', y :: b' => (x <? y) || ((x =? y) && str_lt a' b')
  end.

Definition warm_cmp (a b : WarmItem) : Z :=
  if negb (wi_ts a =? wi_ts b) then wi_ts a - wi_ts b
  else if negb (bool_decide (wi_typeKey a = wi_typeKey b))
  then (if str_lt (wi_typeKey a) (wi_typeKey b) then -1 else 1)
  else Z.of_nat (wi_idx b) - Z.of_nat (wi_idx a).

Definition push_at (buffers : list (str * list LogEntry)) (heap : list WarmItem)
    (key : str) (idx : nat) : list WarmItem :=
  match list_find (fun p => fst p = key) buffers with
  | Some (_, (_, arr)) =>
      match arr !! idx with
      | Some e => heap_push warm_cmp heap (WItem (e_ts e) e key idx)
      | None => heap
      end
  | None => heap
  end.

Fixpoint warm_loop (fuel : nat) (target : Z) (tick : nat) (buffers : list (str * list LogEntry))
    (heap : list WarmItem) (out : list LogEntry) : list LogEntry :=
  match fuel with
  | O => out
  | S f =>
      match heap_pop warm_cmp heap with
      | None => out
      | Some (top, heap1) =>
          if target <=? zlen out then out
          else if aborted tick then out
          else warm_loop f target (S tick) buffers
                 (push_at buffers heap1 (wi_typeKey top) (S (wi_idx top)))
                 (out ++ [wi_entry top])
      end
  end.

Definition warm_kway (target : Z) (tick : nat) (buffers : list (str * list LogEntry))
  : list LogEntry :=
  let heap := foldl (fun h p => push_at buffers h (fst p) 0) [] buffers in
  warm_loop (S (length (buffers ≫= snd))) target tick buffers heap [].

(** An entry without a file name takes it from its path. *)
Definition fill_file (e : LogEntry) : LogEntry :=
  if nonempty (e_file e) then e
  else set_file e (basename (if nonempty (e_path e) then e_path e else e_source e)).

(** Correction of every buffer; [None] if a year loop does not end. *)
Fixpoint correct_buffers (ws : list walker) : option (list (str * list LogEntry)) :=
  match ws with
  | [] => Some []
  | w :: ws' =>
      match correct_entries (w_buffer w), correct_buffers ws' with
      | Some es, Some rest => Some ((w_key w, map fill_file es) :: rest)
      | _, _ => None
      end
  end.

Definition new_walker (p : str * list str) : walker :=
  Walker (fst p) (array_sort compareLogOrderDesc (snd p)) None false false [] None.

(** [warmupTailPrepass], after the options have been read: [target] is at least 1
    and [names] is what [listInputLogFiles] returns. *)
Definition warmupTailPrepass (target : Z) (cap : option Z) (names : list str)
  : option WarmupResult :=
  if aborted 0 then Some (WarmResult [] false [])
  else
    match names with
    | [] => Some (WarmResult [] true [])
    | _ :: _ =>
        let ws0 := map new_walker (groupByType names) in
        let '(ws, total, tick) := collect target cap 1 ws0 in
        let covered := forallb w_exhausted ws in
        if total =? 0 then Some (WarmResult [] covered [])
        else
          match correct_buffers ws with
          | None => None
          | Some buffers =>
              Some (WarmResult (warm_kway target tick buffers) covered
                      (map (fun w => (w_key w, (zlen (w_buffer w), w_exhausted w))) ws))
          end
    end.
End warmup.

(** [target] and [perTypeCap] from the options *)
Definition warm_target (threshold fromParser : option Z) : Z :=
  Z.max 1 (or_else threshold (or_else fromParser 10000)).

Definition warm_cap (limit : option Z) : option Z :=
  match limit with Some n => Some (Z.max 1 n) | None => None end.

(** ** A walker gives the lines of its files in order *)

Section walker_proofs.
Context `{RE : RegExpEngine}.
Context (now now_year : Z) (stream : list Z -> js_result (list str)).
Context (dirPath : str) (dir : directory) (cp : option CompiledParser).

#[local] Abbreviation lines_of := (file_lines dir).
#[local] Abbreviation gate_of := (warm_gate stream dirPath dir cp).
#[local] Abbreviation ensure := (ensureReader stream dirPath dir cp).
#[local] Abbreviation wloop := (walker_loop stream dirPath dir cp).
#[local] Abbreviation wnext := (walker_next stream dirPath dir cp).

Definition openable (f : str) : Prop := is_Some (dir_lookup f (or_else dir [])).

Definition tag (f : str) (gate : bool) (ls : list str) : list tail_line :=
  map (fun l => TailLine l f gate) ls.

Definition pending_of (files : list str) : list tail_line :=
  files ≫= fun f => tag f (gate_of f) (lines_of f).

(** What a walker has still to give. *)
Definition pending (w : walker) : list tail_line :=
  if w_exhausted w then []
  else match w_cur w with
       | Some ls => tag (or_else (head (w_files w)) []) (w_useParser w) ls
                    ++ pending_of (drop 1 (w_files w))
       | None => pending_of (w_files w)
       end.

Record walker_ok (w : walker) : Prop := {
  wo_open : Forall openable (w_files w);
  wo_cur : w_cur w <> None -> w_files w <> [] /\ w_exhausted w = false;
}.

(** Only the position of the walker differs. *)
Definition same_store (w w' : walker) : Prop :=
  w_key w' = w_key w /\ w_buffer w' = w_buffer w /\ w_prevTs w' = w_prevTs w.

#[local] Instance same_store_trans : Transitive same_store.
Proof. intros a b c (H1 & H2 & H3) (H4 & H5 & H6). repeat split; congruence. Qed.

Lemma open_next_id files : Forall openable files -> open_next dir files = files.
Proof. destruct 1 as [|f fs [b Hb] _]; [done|]. cbn [open_next]. by rewrite Hb. Qed.

Lemma ensure_spec w :
  walker_ok w -> w_exhausted w = false ->
  walker_ok (ensure w) /\ same_store w (ensure w) /\ pending (ensure w) = pending w /\
  w_files (ensure w) = w_files w /\ (w_exhausted (ensure w) = true \/ w_cur (ensure w) <> None).
Proof.
  intros Hw Hx. assert (Hw' := Hw). destruct Hw' as [Ho Hc]. unfold ensureReader.
  destruct (w_cur w) as [ls|] eqn:Ec.
  { split_and!; try done. right. by rewrite Ec. }
  rewrite open_next_id by done. destruct (w_files w) as [|f fs] eqn:Ef.
  - split_and!; try done; [|by left].
    unfold pending. cbn [w_exhausted w_cur w_files]. by rewrite Ec, Ef, Hx.
  - split_and!; try done; [|by right]. unfold pending. cbn [w_exhausted w_cur w_files w_useParser].
    by rewrite Ec, Ef, Hx.
Qed.

Lemma walker_loop_spec fuel n w out :
  walker_ok w -> (w_exhausted w = true \/ w_cur w <> None) ->
  (length (pending w) + length (w_files w) < fuel)%nat -> zlen out <= n ->
  let need := Z.to_nat (n - zlen out) in
  let '(w', out') := wloop fuel n w out in
  walker_ok w' /\ same_store w w' /\ out' = out ++ take need (pending w) /\
  pending w' = drop need (pending w) /\ (zlen out' < n -> w_exhausted w' = true).
Proof.
  revert w out. induction fuel as [|f IH]; intros w out Hw Hcur Hf Hn; [lia|]. cbv zeta.
  cbn [walker_loop]. destruct (Z.leb_spec n (zlen out)) as [Hdone|Hmore]; cbn [orb].
  { replace (Z.to_nat (n - zlen out)) with 0%nat by lia. rewrite drop_0. simpl.
    rewrite app_nil_r. split_and!; try done. lia. }
  destruct (w_exhausted w) eqn:Ex.
  { assert (Hp : pending w = []) by (unfold pending; by rewrite Ex).
    rewrite Hp, take_nil, drop_nil, app_nil_r. by split_and!. }
  destruct (w_cur w) as [[|line ls]|] eqn:Ec; [| |by destruct Hcur].
  - set (w1 := Walker (w_key w) (drop 1 (w_files w)) None (w_useParser w) false (w_buffer w)
      (w_prevTs w)).
    assert (Hw1 : walker_ok w1).
    { constructor; [|done]. apply Forall_drop, Hw. }
    assert (Hp : pending w = pending w1) by (unfold pending; by rewrite Ex, Ec).
    destruct (ensure_spec w1 Hw1 eq_refl) as (H1 & H2 & H3 & H4 & H5).
    rewrite Hp in *. rewrite <- H3 in *.
    assert (Hfiles : (length (w_files (ensure w1)) < length (w_files w))%nat).
    { rewrite H4. unfold w1. cbn [w_files]. rewrite length_drop.
      destruct (wo_cur w Hw) as [Hne _]; [by rewrite Ec|]. destruct (w_files w); [done|]. simpl. lia. }
    specialize (IH (ensure w1) out H1 H5 ltac:(lia) Hn). cbv zeta in IH.
    destruct (wloop f n (ensure w1) out) as [w' out'].
    destruct IH as (G1 & G2 & G3 & G4 & G5). split_and!; try done.
    transitivity w1; [done|]. by transitivity (ensure w1).
  - set (w1 := Walker (w_key w) (w_files w) (Some ls) (w_useParser w) false (w_buffer w)
      (w_prevTs w)).
    set (l := TailLine line (or_else (head (w_files w)) []) (w_useParser w)).
    assert (Hw1 : walker_ok w1).
    { destruct Hw as [Ho Hc]. constructor; [done|]. intros _. rewrite Ec in Hc. by destruct Hc. }
    assert (Hp : pending w = l :: pending w1) by (unfold pending; by rewrite Ex, Ec).
    assert (Hz : zlen (out ++ [l]) = zlen out + 1) by (by rewrite zlen_app).
    specialize (IH w1 (out ++ [l]) Hw1 ltac:(by right)). rewrite Hp in *. cbn [length] in Hf.
    specialize (IH ltac:(unfold w1 at 2; cbn [w_files]; lia) ltac:(lia)). cbv zeta in IH.
    destruct (wloop f n w1 (out ++ [l])) as [w' out'].
    destruct IH as (G1 & G2 & G3 & G4 & G5). rewrite Hz in *.
    replace (Z.to_nat (n - zlen out)) with (S (Z.to_nat (n - (zlen out + 1)))) by lia.
    cbn [take drop]. rewrite <- app_assoc in G3. by split_and!.
Qed.

Lemma pending_length w :
  walker_ok w -> (length (pending w) <= walker_rest dir w)%nat.
Proof.
  intros _. unfold pending, walker_rest. destruct (w_exhausted w); [simpl; lia|].
  assert (H : forall fs, length (pending_of fs) =
    sum_list (map (fun f => length (file_lines dir f)) fs)).
  { induction fs as [|f fs IH]; [done|]. unfold pending_of, tag in *. cbn [mbind list_bind map].
    rewrite length_app, length_map, IH. done. }
  destruct (w_cur w); rewrite ?length_app, H; unfold tag; rewrite ?length_map; lia.
Qed.

Lemma walker_next_spec n w :
  walker_ok w -> 0 <= n ->
  let '(w', out) := wnext n w in
  walker_ok w' /\ same_store w w' /\ out = take (Z.to_nat n) (pending w) /\
  pending w' = drop (Z.to_nat n) (pending w) /\
  (zlen out < n -> w_exhausted w' = true).
Proof.
  intros Hw Hn. unfold walker_next. destruct (w_exhausted w) eqn:Ex.
  { assert (Hp : pending w = []) by (unfold pending; by rewrite Ex).
    rewrite Hp, take_nil, drop_nil. by split_and!. }
  destruct (ensure_spec w Hw Ex) as (H1 & H2 & H3 & _ & H5).
  assert (Hl := pending_length _ H1).
  assert (IH := walker_loop_spec (S (walker_rest dir (ensure w) + length (w_files (ensure w)))) n
    (ensure w) [] H1 H5 ltac:(lia) Hn). cbv zeta in IH.
  destruct (wloop _ n (ensure w) []) as [w' out]. destruct IH as (G1 & G2 & G3 & G4 & G5).
  change (zlen (@nil tail_line)) with 0 in *. rewrite Z.sub_0_r, H3 in *.
  split_and!; try done. by transitivity (ensure w).
Qed.

(** ** Entries of a sequence of lines *)

Fixpoint entries_of (prev : option Z) (ls : list tail_line) : list LogEntry * option Z :=
  match ls with
  | [] => ([], prev)
  | l :: ls' =>
      let e := toEntry now now_year dirPath cp l prev in
      if tl_useParser l && isParsedHeaderAllMissing (e_parsed e) then entries_of prev ls'
      else let '(es, p) := entries_of (Some (e_ts e)) ls' in (e :: es, p)
  end.

Lemma entries_of_app prev l1 l2 :
  entries_of prev (l1 ++ l2) =
  ((entries_of prev l1).1 ++ (entries_of (entries_of prev l1).2 l2).1,
   (entries_of (entries_of prev l1).2 l2).2).
Proof.
  revert prev. induction l1 as [|l l1 IH]; intros prev; cbn [app entries_of].
  { cbn [fst snd app]. by destruct (entries_of prev l2). }
  case_match; [apply IH|]. rewrite IH.
  by destruct (entries_of (Some _) l1).
Qed.

Lemma entries_of_length prev ls : (length (entries_of prev ls).1 <= length ls)%nat.
Proof.
  revert prev. induction ls as [|l ls IH]; intros prev; cbn [entries_of]; [done|].
  case_match; cbn [length]; [specialize (IH prev); lia|].
  specialize (IH (Some (e_ts (toEntry now now_year dirPath cp l prev)))).
  destruct (entries_of (Some _) ls). simpl in *. lia.
Qed.

Definition store (w : walker) (es : list LogEntry) (prev : option Z) : walker :=
  Walker (w_key w) (w_files w) (w_cur w) (w_useParser w) (w_exhausted w) es prev.

Lemma absorb_spec part w :
  absorb now now_year dirPath cp part w =
  (store w (w_buffer w ++ (entries_of (w_prevTs w) part).1) (entries_of (w_prevTs w) part).2,
   zlen (entries_of (w_prevTs w) part).1).
Proof.
  revert w. induction part as [|l part IH]; intros w; cbn [absorb entries_of].
  { simpl. rewrite app_nil_r. by destruct w. }
  case_match; [apply IH|]. rewrite IH. cbn [w_buffer w_prevTs].
  destruct (entries_of (Some (e_ts (toEntry now now_year dirPath cp l (w_prevTs w)))) part) as [es p].
  cbn [fst snd]. unfold store. cbn [w_key w_files w_cur w_useParser w_exhausted].
  rewrite <- app_assoc. cbn [app]. f_equal. unfold zlen. simpl. lia.
Qed.

(** The state of a type: of its lines [L] a part has been read, and the buffer
    holds the entries of that part. *)
Record traced (L : list tail_line) (w : walker) : Prop := {
  tr_ok : walker_ok w;
  tr_read : exists pre, L = pre ++ pending w /\
    (w_buffer w, w_prevTs w) = entries_of None pre;
}.

Lemma batch_loop_spec L fuel need got tick w :
  traced L w -> (length (pending w) < fuel)%nat -> 0 <= got <= need ->
  let '(w', got', _) :=
    batch_loop now now_year stream dirPath dir cp (fun _ => false) fuel need got tick w in
  traced L w' /\ w_key w' = w_key w /\ got <= got' <= need /\
  zlen (w_buffer w') = zlen (w_buffer w) + (got' - got) /\
  (got' = need \/ w_exhausted w' = true) /\
  (w_exhausted w = true -> w_exhausted w' = true).
Proof.
  revert got tick w. induction fuel as [|f IH]; intros got tick w Ht Hf Hg; [lia|].
  cbn [batch_loop]. destruct (Z.leb_spec need got) as [Hd|Hm]; cbn [orb].
  { split_and!; try done; lia. }
  destruct (w_exhausted w) eqn:Ex.
  { split_and!; try done; try lia. by right. }
  set (n := Z.min CHUNK (need - got)). assert (Hn : 0 < n) by (unfold n, CHUNK; lia).
  destruct Ht as [Hw (pre & HL & Hbuf)].
  assert (Hs := walker_next_spec n w Hw ltac:(lia)).
  destruct (wnext n w) as [w1 part] eqn:En.
  destruct Hs as (H1 & (K1 & K2 & K3) & Hpart & Hpend & Hexh).
  destruct part as [|l part'] eqn:Epart.
  { split_and!; try done; try lia.
    - constructor; [done|]. exists pre. rewrite K2, K3, Hpend. split; [|done].
      rewrite HL at 1. f_equal. destruct (pending w); [by rewrite drop_nil|].
      destruct (Z.to_nat n) eqn:Ez; [lia|done].
    - rewrite K2. lia.
    - right. apply Hexh. unfold zlen. simpl. lia. }
  rewrite <- Epart in *. rewrite absorb_spec.
  set (es := (entries_of (w_prevTs w1) part).1). set (w2 := store w1 _ _).
  assert (Hlen : (length part <= Z.to_nat n)%nat) by (rewrite Hpart; rewrite length_take; lia).
  assert (Hes : zlen es <= n).
  { assert (H := entries_of_length (w_prevTs w1) part). fold es in H. unfold zlen. lia. }
  assert (Ht2 : traced L w2).
  { constructor.
    - destruct H1 as [Ho Hc]. by constructor.
    - exists (pre ++ part). split.
      + rewrite HL at 1. rewrite <- app_assoc. f_equal. rewrite Hpart.
        change (pending w2) with (pending w1). rewrite Hpend. by rewrite take_drop.
      + rewrite entries_of_app. rewrite <- Hbuf. cbn [fst snd w2 store w_buffer w_prevTs].
        unfold w2, store. cbn [w_buffer w_prevTs]. rewrite K2, K3. unfold es. by rewrite K3. }
  assert (Hlt : (length (pending w2) < f)%nat).
  { change (pending w2) with (pending w1). rewrite Hpend, length_drop.
    assert (length part > 0)%nat by (rewrite Epart; simpl; lia).
    rewrite Hpart, length_take in H. lia. }
  assert (Hnn := zlen_nonneg es).
  specialize (IH (got + zlen es) (S tick) w2 Ht2 Hlt ltac:(unfold n in *; lia)).
  destruct (batch_loop now now_year stream dirPath dir cp (fun _ => false) f need (got + zlen es)
    (S tick) w2) as [[w' got'] tick'].
  destruct IH as (G1 & G2 & G3 & G4 & G5 & G6).
  assert (Hb2 : zlen (w_buffer w2) = zlen (w_buffer w) + zlen es).
  { unfold w2, store. cbn [w_buffer]. rewrite K2, zlen_app. done. }
  split_and!; try done; try lia. by rewrite G2.
Qed.

Lemma batchRead_spec L need tick w :
  traced L w -> 0 <= need ->
  let '(w', got, _) :=
    batchRead now now_year stream dirPath dir cp (fun _ => false) need tick w in
  traced L w' /\ w_key w' = w_key w /\ 0 <= got <= need /\
  zlen (w_buffer w') = zlen (w_buffer w) + got /\
  (got = need \/ w_exhausted w' = true) /\ (w_exhausted w = true -> w_exhausted w' = true).
Proof.
  intros Ht Hn. unfold batchRead. destruct (Z.leb_spec need 0).
  { split_and!; try done; lia. }
  assert (Hl := pending_length w (tr_ok _ _ Ht)).
  assert (H' := batch_loop_spec L (S (walker_rest dir w)) need 0 tick w Ht ltac:(lia) ltac:(lia)).
  destruct (batch_loop _ _ _ _ _ _ _ _ _ _ _ _) as [[w' got] tick'].
  destruct H' as (G1 & G2 & G3 & G4 & G5 & G6). split_and!; try done; lia.
Qed.
End walker_proofs.

(** ** The collection reaches its target or reads everything *)

Section collect_proofs.
Context `{RE : RegExpEngine}.
Context (now now_year : Z) (stream : list Z -> js_result (list str)).
Context (dirPath : str) (dir : directory) (cp : option CompiledParser).

#[local] Abbreviation tr := (traced now now_year stream dirPath dir cp).
#[local] Abbreviation read := (batchRead now now_year stream dirPath dir cp (fun _ => false)).
#[local] Abbreviation pass1 := (first_pass now now_year stream dirPath dir cp (fun _ => false)).
#[local] Abbreviation pass2 := (redistribute now now_year stream dirPath dir cp (fun _ => false)).

Definition bufsum (ws : list walker) : Z := zlen (ws ≫= w_buffer).

Definition active (ws : list walker) : nat := length (filter (fun w => w_exhausted w = false) ws).

Lemma bufsum_cons w ws : bufsum (w :: ws) = zlen (w_buffer w) + bufsum ws.
Proof. unfold bufsum. cbn [mbind list_bind]. apply zlen_app. Qed.

Lemma active_cons w ws :
  active (w :: ws) = ((if w_exhausted w then 0 else 1) + active ws)%nat.
Proof.
  unfold active. rewrite filter_cons. destruct (w_exhausted w); [by rewrite decide_False|].
  by rewrite decide_True.
Qed.

Lemma insert_stats k w w1 ws :
  ws !! k = Some w -> w_key w1 = w_key w ->
  map w_key (<[k := w1]> ws) = map w_key ws /\
  bufsum (<[k := w1]> ws) = bufsum ws + (zlen (w_buffer w1) - zlen (w_buffer w)) /\
  (active (<[k := w1]> ws) + (if w_exhausted w then 0 else 1) =
   active ws + (if w_exhausted w1 then 0 else 1))%nat.
Proof.
  intros Hk Hkey. revert k Hk. induction ws as [|x ws IH]; intros [|k] Hk; try done.
  - injection Hk as ->. change (<[0%nat := w1]> (w :: ws)) with (w1 :: ws).
    cbn [map]. rewrite !bufsum_cons, !active_cons.
    split_and!; [by rewrite Hkey|lia|lia].
  - destruct (IH k Hk) as (H1 & H2 & H3).
    change (<[S k := w1]> (x :: ws)) with (x :: <[k := w1]> ws).
    cbn [map]. rewrite !bufsum_cons, !active_cons. split_and!; [by rewrite H1|lia|lia].
Qed.

Lemma traced_insert Ls ws k w w1 :
  Forall2 tr Ls ws -> ws !! k = Some w -> (forall L, tr L w -> tr L w1) ->
  Forall2 tr Ls (<[k := w1]> ws).
Proof.
  intros H. revert k. induction H as [|L x Ls ws Hx Hs IH]; intros [|k] Hk Hup; try done.
  - injection Hk as ->. constructor; auto.
  - constructor; [done|]. by apply IH.
Qed.

Lemma first_pass_spec shares Ls ws tick :
  Forall2 tr Ls ws -> length shares = length ws -> Forall (Z.le 0) shares ->
  let '(ws', total, _) := pass1 shares tick ws in
  Forall2 tr Ls ws' /\ map w_key ws' = map w_key ws /\
  bufsum ws' = bufsum ws + total /\ 0 <= total <= foldr Z.add 0 shares.
Proof.
  intros H. revert shares tick. induction H as [|L w Ls ws Hw Hs IH]; intros [|want shares] tick Hl Hp;
    try done; cbn [first_pass].
  apply Forall_cons in Hp as [Hwant Hp].
  assert (Hr := batchRead_spec now now_year stream dirPath dir cp L want tick w Hw Hwant).
  destruct (read want tick w) as [[w1 got] tick1].
  destruct Hr as (R1 & R2 & R3 & R4 & _).
  specialize (IH shares tick1 ltac:(simpl in Hl; lia) Hp).
  destruct (pass1 shares tick1 ws) as [[ws2 total] tick2].
  destruct IH as (I1 & I2 & I3 & I4). cbn [map foldr]. rewrite !bufsum_cons.
  split_and!; [by constructor|congruence|lia|lia|lia].
Qed.

Lemma room_from_spec cap i ws k r :
  (k, r) ∈ room_from cap i ws ->
  exists w, (i <= k)%nat /\ ws !! (k - i)%nat = Some w /\ w_exhausted w = false /\
    r = room_of cap w /\ 0 < r.
Proof.
  revert i. induction ws as [|w ws IH]; intros i; cbn [room_from]; [by intros ?%elem_of_nil|].
  assert (Hrest : (k, r) ∈ room_from cap (S i) ws -> exists w0, (i <= k)%nat /\
    (w :: ws) !! (k - i)%nat = Some w0 /\ w_exhausted w0 = false /\ r = room_of cap w0 /\ 0 < r).
  { intros (w0 & H1 & H2 & H3)%IH. exists w0. split; [lia|]. split; [|done].
    replace (k - i)%nat with (S (k - S i)) by lia. done. }
  destruct (negb (w_exhausted w) && (0 <? room_of cap w)) eqn:E; [|done].
  intros [[= -> ->]|Hin]%elem_of_cons; [|by apply Hrest].
  apply andb_prop in E as [E1 E2]. exists w. rewrite Nat.sub_diag.
  split_and!; [lia|done|by destruct (w_exhausted w)|done|by apply Z.ltb_lt].
Qed.

Lemma room_from_nil i ws :
  bufsum ws < MAX_SAFE_INTEGER -> room_from None i ws = [] -> forallb w_exhausted ws = true.
Proof.
  revert i. induction ws as [|w ws IH]; intros i Hb; [done|]. cbn [room_from forallb].
  rewrite bufsum_cons in Hb. assert (H1 := zlen_nonneg (w_buffer w)).
  assert (H2 : 0 <= bufsum ws) by apply zlen_nonneg.
  assert (Hroom : (0 <? room_of None w) = true).
  { apply Z.ltb_lt. unfold room_of. simpl. lia. }
  rewrite Hroom, andb_true_r. destruct (w_exhausted w); [|done]. cbn [negb andb].
  intros H. apply (IH (S i)); [lia|done].
Qed.

Lemma active_zero ws : active ws = 0%nat -> forallb w_exhausted ws = true.
Proof.
  induction ws as [|w ws IH]; [done|]. rewrite active_cons. cbn [forallb].
  destruct (w_exhausted w); [auto|lia].
Qed.

Lemma redistribute_spec Ls target fuel deficit total i tick lastP ws :
  Forall2 tr Ls ws -> total = bufsum ws -> total + deficit = target -> 0 <= deficit ->
  target < MAX_SAFE_INTEGER -> (Z.to_nat deficit + active ws <= fuel)%nat ->
  let '(ws', total', _) := pass2 fuel None deficit total i tick lastP ws in
  Forall2 tr Ls ws' /\ map w_key ws' = map w_key ws /\ total' = bufsum ws' /\
  total' <= target /\ (total' = target \/ forallb w_exhausted ws' = true).
Proof.
  revert deficit total i tick lastP ws.
  induction fuel as [|f IH]; intros deficit total i tick lastP ws Ht Htot Hsum Hd Hmax Hf.
  { cbn [redistribute]. split_and!; try done; lia. }
  cbn [redistribute]. destruct (Z.leb_spec deficit 0) as [Hz|Hpos]; cbn [orb].
  { split_and!; try done; lia. }
  destruct (room None ws) as [|s0 slots] eqn:Er; cbn [nonempty negb].
  { split_and!; try done; [lia|]. right. apply (room_from_nil 0); [lia|done]. }
  destruct (lookup_lt_is_Some_2 (s0 :: slots) (i mod length (s0 :: slots))) as [[k r] Hslot].
  { apply Nat.mod_upper_bound. simpl. lia. }
  rewrite Hslot. assert (Hin : (k, r) ∈ room None ws).
  { rewrite Er. by eapply list_elem_of_lookup_2. }
  apply room_from_spec in Hin as (w & _ & Hk & Hx & _ & Hr). rewrite Nat.sub_0_r in Hk.
  rewrite Hk. set (tk := Z.min (Z.min CHUNK r) deficit).
  assert (Htk : 0 < tk <= deficit) by (unfold tk, CHUNK; lia).
  assert (Hrd : forall L, tr L w -> _) by
    (intros L HL; exact (batchRead_spec now now_year stream dirPath dir cp L tk (S tick) w HL
       ltac:(lia))).
  destruct (read tk (S tick) w) as [[w1 got] tick1].
  assert (Hw : exists L, tr L w).
  { apply (Forall2_lookup_r _ _ _ _ _ Ht) in Hk as (L & _ & HL). eauto. }
  destruct Hw as [L HL]. destruct (Hrd L HL) as (_ & Hkey & Hgot & Hbuf & Hend & _).
  destruct (insert_stats k w w1 ws Hk Hkey) as (S1 & S2 & S3).
  assert (Ht1 : Forall2 tr Ls (<[k := w1]> ws)).
  { eapply traced_insert; [done|done|]. intros L' HL'. by destruct (Hrd L' HL'). }
  destruct ((total + got =? lastP) && forallb w_exhausted (<[k := w1]> ws)) eqn:Estop.
  { apply andb_prop in Estop as [_ Estop]. split_and!; try done; [lia|lia|by right]. }
  rewrite Hx in S3.
  specialize (IH (deficit - got) (total + got) (S i) tick1 (total + got) (<[k := w1]> ws) Ht1
    ltac:(lia) ltac:(lia) ltac:(lia) Hmax).
  destruct (pass2 f None (deficit - got) (total + got) (S i) tick1 (total + got) (<[k := w1]> ws))
    as [[ws' total'] tick'].
  destruct IH as (I1 & I2 & I3 & I4 & I5).
  { destruct Hend as [->|Hex]; [destruct (w_exhausted w1); lia|rewrite Hex in S3; lia]. }
  split_and!; try done. congruence.
Qed.

Lemma alloc_spec base rem n :
  0 <= base -> 0 <= rem <= Z.of_nat n ->
  length (alloc base rem None n) = n /\ Forall (Z.le 0) (alloc base rem None n) /\
  foldr Z.add 0 (alloc base rem None n) = base * Z.of_nat n + rem.
Proof.
  intros Hb. revert rem. induction n as [|n IH]; intros rem Hr; cbn [alloc].
  { split_and!; [done|constructor|simpl; lia]. }
  destruct (IH (if 0 <? rem then rem - 1 else rem)) as (H1 & H2 & H3).
  { destruct (Z.ltb_spec 0 rem); lia. }
  cbn [min_cap length foldr]. rewrite H1, H3.
  split_and!; [done|constructor; [destruct (0 <? rem); lia|done]|].
  destruct (Z.ltb_spec 0 rem); lia.
Qed.

Lemma active_length ws : (active ws <= length ws)%nat.
Proof. unfold active. apply length_filter. Qed.

Lemma collect_spec Ls target tick ws :
  Forall2 tr Ls ws -> ws <> [] -> bufsum ws = 0 -> 1 <= target < MAX_SAFE_INTEGER ->
  let '(ws', total, _) :=
    collect now now_year stream dirPath dir cp (fun _ => false) target None tick ws in
  Forall2 tr Ls ws' /\ map w_key ws' = map w_key ws /\ total = bufsum ws' /\
  total <= target /\ (total = target \/ forallb w_exhausted ws' = true).
Proof.
  intros Ht Hne Hb0 Htar. unfold collect.
  assert (HT : 0 < zlen ws) by (destruct ws; [done|unfold zlen; simpl; lia]).
  destruct (alloc_spec (target / zlen ws) (target mod zlen ws) (length ws)) as (A1 & A2 & A3).
  { apply Z.div_pos; lia. }
  { assert (H := Z.mod_pos_bound target (zlen ws) HT). unfold zlen in *. lia. }
  assert (Hsum : foldr Z.add 0 (alloc (target / zlen ws) (target mod zlen ws) None (length ws))
    = target).
  { rewrite A3. fold (zlen ws). rewrite Z.mul_comm. symmetry. apply Z.div_mod. lia. }
  assert (H1 := first_pass_spec _ Ls ws tick Ht A1 A2).
  destruct (pass1 _ tick ws) as [[ws1 total] tick1]. destruct H1 as (F1 & F2 & F3 & F4).
  rewrite Hsum in F4. replace (Z.max 0 (target - total)) with (target - total) by lia.
  assert (Hlen : length ws1 = length ws).
  { rewrite <- (length_map w_key ws1), F2. apply length_map. }
  assert (H2 := redistribute_spec Ls target (Z.to_nat (target - total) + length ws) (target - total)
    total 0 tick1 total ws1 F1 ltac:(lia) ltac:(lia) ltac:(lia) ltac:(lia)).
  assert (Ha := active_length ws1).
  destruct (pass2 _ None (target - total) total 0 tick1 total ws1) as [[ws' total'] tick'].
  destruct H2 as (G1 & G2 & G3 & G4 & G5); [lia|]. split_and!; try done. congruence.
Qed.
End collect_proofs.

(** ** The merge of the buffers *)

#[export] Instance warm_cmp_refines : CmpRefines warm_cmp wi_ts.
Proof.
  constructor; intros a b; unfold warm_cmp;
    destruct (Z.eqb_spec (wi_ts a) (wi_ts b)); cbn [negb]; lia.
Qed.

Section warm_kway_proofs.
Context (buffers : list (str * list LogEntry)).
Hypothesis keys_nodup : NoDup (map fst buffers).
Hypothesis arrs_desc : Forall (fun p => StronglySorted (desc_by e_ts) (snd p)) buffers.

Definition arr_of (key : str) : list LogEntry :=
  match list_find (fun p => fst p = key) buffers with Some (_, (_, arr)) => arr | None => [] end.

Definition rest_of (it : WarmItem) : list LogEntry := drop (wi_idx it) (arr_of (wi_typeKey it)).

Definition witem_ok (it : WarmItem) : Prop :=
  arr_of (wi_typeKey it) !! wi_idx it = Some (wi_entry it) /\ wi_ts it = e_ts (wi_entry it).

Lemma arr_of_desc key : StronglySorted (desc_by e_ts) (arr_of key).
Proof.
  unfold arr_of. destruct (list_find _ buffers) as [[i [k arr]]|] eqn:E; [|constructor].
  apply list_find_Some in E as (E & _ & _). apply list_elem_of_lookup_2 in E.
  rewrite Forall_forall in arrs_desc. apply (arrs_desc _ E).
Qed.

Lemma arr_of_elem p : p ∈ buffers -> arr_of (fst p) = snd p.
Proof.
  intros Hp. unfold arr_of. destruct (list_find _ buffers) as [[i [k arr]]|] eqn:E.
  - apply list_find_Some in E as (E & Hk & _). cbn [fst] in Hk.
    apply list_elem_of_lookup_1 in Hp as [j Hj].
    assert (i = j) as <-; [|rewrite E in Hj; by injection Hj as <-].
    apply (NoDup_lookup (map fst buffers) i j (fst p)); [done| |].
    + rewrite list_lookup_fmap, E. simpl. by rewrite Hk.
    + by rewrite list_lookup_fmap, Hj.
  - apply list_find_None in E. rewrite Forall_forall in E. by destruct (E p Hp).
Qed.

Lemma push_at_spec heap key idx :
  heap_ok wi_ts heap -> Forall witem_ok heap ->
  let heap' := push_at buffers heap key idx in
  heap_ok wi_ts heap' /\ Forall witem_ok heap' /\
  heap' ≫= rest_of ≡ₚ (heap ≫= rest_of) ++ drop idx (arr_of key).
Proof.
  intros Hok Hit. cbv zeta. unfold push_at.
  assert (Ha : arr_of key = match list_find (fun p => fst p = key) buffers with
    | Some (_, (_, arr)) => arr | None => [] end) by done.
  destruct (list_find _ buffers) as [[i [k arr]]|]; cbv iota in Ha.
  - rewrite <- Ha. destruct (arr_of key !! idx) as [e|] eqn:E.
    + set (it := WItem (e_ts e) e key idx).
      assert (Hp := heap_push_perm warm_cmp heap it).
      split_and!; [by apply (heap_push_ok warm_cmp wi_ts)|rewrite Hp; by constructor|].
      rewrite Hp. cbn [mbind list_bind]. apply Permutation_app_comm.
    + apply lookup_ge_None in E. rewrite drop_ge by done. rewrite app_nil_r. done.
  - rewrite Ha, drop_nil, app_nil_r. done.
Qed.

Record winv (All E : list LogEntry) (heap : list WarmItem) : Prop := {
  wi_heap : heap_ok wi_ts heap;
  wi_items : Forall witem_ok heap;
  wi_all : E ++ (heap ≫= rest_of) ≡ₚ All;
  wi_desc : StronglySorted (desc_by e_ts) E;
  wi_below : forall x y, x ∈ E -> y ∈ heap ≫= rest_of -> e_ts y <= e_ts x;
}.

Lemma rest_of_top it : witem_ok it ->
  rest_of it = wi_entry it :: drop (S (wi_idx it)) (arr_of (wi_typeKey it)).
Proof. intros [H _]. unfold rest_of. by apply drop_S. Qed.

Lemma rest_below it y : witem_ok it -> y ∈ rest_of it -> e_ts y <= wi_ts it.
Proof.
  intros Hit Hy. assert (Hs := arr_of_desc (wi_typeKey it)).
  rewrite <- (take_drop (wi_idx it) (arr_of (wi_typeKey it))) in Hs. fold (rest_of it) in Hs.
  apply StronglySorted_app in Hs as (_ & _ & Hs). rewrite rest_of_top in Hs, Hy by done.
  destruct Hit as [_ ->]. inversion Hs as [|? ? _ Hall]; subst. rewrite Forall_forall in Hall.
  apply elem_of_cons in Hy as [->|Hy]; [lia|]. by apply Hall.
Qed.

Lemma winv_step All E heap top heap1 :
  winv All E heap -> heap_pop warm_cmp heap = Some (top, heap1) ->
  winv All (E ++ [wi_entry top]) (push_at buffers heap1 (wi_typeKey top) (S (wi_idx top))).
Proof.
  intros [H1 H2 H3 H4 H5] Hpop.
  assert (Hperm := heap_pop_perm warm_cmp _ _ _ Hpop).
  destruct (heap_pop_ok warm_cmp wi_ts _ _ _ H1 Hpop) as [Hok Hmax].
  rewrite Hperm in H2. apply Forall_cons in H2 as [Htop Hit].
  destruct (push_at_spec heap1 (wi_typeKey top) (S (wi_idx top)) Hok Hit) as (P1 & P2 & P3).
  assert (Hrest : heap ≫= rest_of ≡ₚ wi_entry top ::
    (push_at buffers heap1 (wi_typeKey top) (S (wi_idx top)) ≫= rest_of)).
  { rewrite Hperm, P3. cbn [mbind list_bind]. rewrite (rest_of_top top Htop). cbn [app].
    constructor. apply Permutation_app_comm. }
  assert (Hall : forall y, y ∈ heap ≫= rest_of -> e_ts y <= wi_ts top).
  { intros y Hy. apply list_elem_of_bind in Hy as (it & Hy & Hi).
    rewrite Hperm in Hi. rewrite Forall_forall in Hit. rewrite Forall_forall in Hmax.
    apply elem_of_cons in Hi as [->|Hi]; [by apply rest_below|].
    assert (e_ts y <= wi_ts it) by (apply rest_below; auto). specialize (Hmax it Hi). lia. }
  constructor; [done|done| | |].
  - rewrite <- H3, Hrest, <- app_assoc. done.
  - apply StronglySorted_app. split_and!; [|done|by repeat constructor].
    intros a b Ha ->%list_elem_of_singleton. apply H5; [done|]. rewrite Hrest. by left.
  - intros x y Hx Hy. assert (Hy' : y ∈ heap ≫= rest_of) by (rewrite Hrest; by right).
    apply elem_of_app in Hx as [Hx| ->%list_elem_of_singleton]; [by apply H5|].
    destruct Htop as [_ <-]. by apply Hall.
Qed.

Lemma warm_loop_spec All fuel target tick heap out :
  winv All out heap -> zlen out <= target -> (length All < fuel + length out)%nat ->
  exists rest, warm_loop (fun _ => false) fuel target tick buffers heap out ++ rest ≡ₚ All /\
    StronglySorted (desc_by e_ts)
      (warm_loop (fun _ => false) fuel target tick buffers heap out) /\
    (forall x y, x ∈ warm_loop (fun _ => false) fuel target tick buffers heap out -> y ∈ rest ->
       e_ts y <= e_ts x) /\
    zlen (warm_loop (fun _ => false) fuel target tick buffers heap out) <= target /\
    (zlen (warm_loop (fun _ => false) fuel target tick buffers heap out) = target \/ rest = []).
Proof.
  revert tick heap out. induction fuel as [|f IH]; intros tick heap out Hinv Ht Hf.
  { exfalso. assert (Hl := wi_all _ _ _ Hinv). apply Permutation_length in Hl.
    rewrite length_app in Hl. lia. }
  cbn [warm_loop]. destruct (heap_pop warm_cmp heap) as [[top heap1]|] eqn:Hpop.
  - destruct (Z.leb_spec target (zlen out)).
    { exists (heap ≫= rest_of). destruct Hinv. split_and!; try done. left. lia. }
    apply IH; [by eapply winv_step|rewrite zlen_app; change (zlen [wi_entry top]) with 1; lia|].
    rewrite length_app. simpl. lia.
  - assert (heap = []) as ->.
    { destruct heap as [|x h]; [done|]. destruct (heap_pop_some warm_cmp (x :: h)) as (t & a & Hp); [done|].
      congruence. }
    exists []. destruct Hinv as [_ _ H3 H4 _]. simpl in H3.
    split_and!; try done; [by intros ? ? _ ?%elem_of_nil|by right].
Qed.

Lemma warm_init_spec ps heap :
  (forall p, p ∈ ps -> p ∈ buffers) -> heap_ok wi_ts heap -> Forall witem_ok heap ->
  let heap' := foldl (fun h p => push_at buffers h (fst p) 0) heap ps in
  heap_ok wi_ts heap' /\ Forall witem_ok heap' /\
  heap' ≫= rest_of ≡ₚ (heap ≫= rest_of) ++ (ps ≫= snd).
Proof.
  revert heap. induction ps as [|p ps IH]; intros heap Hin Hok Hit; cbv zeta; cbn [foldl].
  { simpl. by rewrite app_nil_r. }
  destruct (push_at_spec heap (fst p) 0 Hok Hit) as (P1 & P2 & P3).
  destruct (IH (push_at buffers heap (fst p) 0)) as (I1 & I2 & I3);
    [intros q Hq; apply Hin; by right|done..|].
  split_and!; [done..|]. rewrite I3, P3, drop_0, arr_of_elem by (apply Hin; by left).
  cbn [mbind list_bind]. by rewrite app_assoc.
Qed.

Lemma warm_kway_spec target tick :
  0 <= target ->
  exists rest, warm_kway (fun _ => false) target tick buffers ++ rest ≡ₚ buffers ≫= snd /\
    StronglySorted (desc_by e_ts) (warm_kway (fun _ => false) target tick buffers) /\
    (forall x y, x ∈ warm_kway (fun _ => false) target tick buffers -> y ∈ rest ->
       e_ts y <= e_ts x) /\
    zlen (warm_kway (fun _ => false) target tick buffers) <= target /\
    (zlen (warm_kway (fun _ => false) target tick buffers) = target \/ rest = []).
Proof.
  intros Ht. unfold warm_kway.
  destruct (warm_init_spec buffers []) as (I1 & I2 & I3); [done|apply heap_ok_nil|constructor|].
  apply warm_loop_spec; [|done|simpl; lia].
  constructor; [done|done|by rewrite I3|constructor|by intros ? ? ?%elem_of_nil].
Qed.
End warm_kway_proofs.

(** ** The whole pass *)

Section pass_proofs.
Context `{RE : RegExpEngine}.
Context (now now_year : Z) (stream : list Z -> js_result (list str)).
Context (dirPath : str) (dir : directory) (cp : option CompiledParser).

#[local] Abbreviation tr := (traced now now_year stream dirPath dir cp).

(** The lines of every type, newest first, and the valid entries of lines. *)
Definition type_lines (names : list str) : list (list tail_line) :=
  map (fun p => pending_of stream dirPath dir cp (array_sort compareLogOrderDesc (snd p)))
    (groupByType names).

Definition valid_entries (L : list tail_line) : list LogEntry :=
  (entries_of now now_year dirPath cp None L).1.

Lemma traced_prefix L w : tr L w -> exists pre, pre `prefix_of` L /\ w_buffer w = valid_entries pre.
Proof.
  intros [_ (pre & -> & E)]. exists pre. split; [by eexists|]. unfold valid_entries. by rewrite <- E.
Qed.

Lemma traced_buffer L w : tr L w -> w_buffer w `prefix_of` valid_entries L.
Proof.
  intros [_ (pre & -> & E)]. unfold valid_entries. rewrite entries_of_app. cbn [fst].
  rewrite <- E. cbn [fst snd]. by eexists.
Qed.

Lemma traced_exhausted L w : tr L w -> w_exhausted w = true -> w_buffer w = valid_entries L.
Proof.
  intros [_ (pre & -> & E)] Hx. unfold pending. rewrite Hx, app_nil_r.
  unfold valid_entries. by rewrite <- E.
Qed.

Lemma fill_file_ts e : e_ts (fill_file e) = e_ts e /\ e_text (fill_file e) = e_text e.
Proof. unfold fill_file. by destruct (nonempty (e_file e)). Qed.

Lemma same_texts es es' : Forall2 same_but_ts es es' -> map e_text es' = map e_text es.
Proof. induction 1 as [|a b es es' Hab _ IH]; [done|]. simpl. by rewrite IH, Hab. Qed.

Lemma sorted_map_ts (f : LogEntry -> LogEntry) es :
  (forall e, e_ts (f e) = e_ts e) -> StronglySorted (desc_by e_ts) es ->
  StronglySorted (desc_by e_ts) (map f es).
Proof.
  intros Hf. induction 1 as [|e es _ IH Hall]; [constructor|]. constructor; [done|].
  apply Forall_map. eapply Forall_impl; [exact Hall|]. unfold desc_by. intros x. by rewrite !Hf.
Qed.

Lemma correct_buffers_spec ws :
  Forall (fun w => is_Some (correct_entries (w_buffer w))) ws ->
  exists bs, correct_buffers ws = Some bs /\ map fst bs = map w_key ws /\
    Forall (fun p => StronglySorted (desc_by e_ts) (snd p)) bs /\
    map e_text (bs ≫= snd) = map e_text (ws ≫= w_buffer).
Proof.
  induction 1 as [|w ws [es Hes] _ (bs & IH & Hk & Hs & Ht)]; [by exists []|].
  cbn [correct_buffers]. rewrite Hes, IH.
  destruct (correct_entries_spec _ _ Hes) as [H1 H2].
  eexists. split; [done|]. cbn [map fst snd mbind list_bind]. rewrite Hk.
  split_and!; [done| |].
  - constructor; [|done]. cbn [snd]. apply sorted_map_ts; [|done]. intros e. apply fill_file_ts.
  - rewrite !map_app, Ht. f_equal. rewrite map_map. rewrite <- (same_texts _ _ H2).
    apply map_ext. intros e. apply fill_file_ts.
Qed.

Lemma prefixes_full {A B C} (full : A -> list C) (got : B -> list C) Ls ws :
  Forall2 (fun L w => got w `prefix_of` full L) Ls ws ->
  zlen (Ls ≫= full) <= zlen (ws ≫= got) -> ws ≫= got = Ls ≫= full.
Proof.
  induction 1 as [|L w Ls ws Hp Hs IH]; [done|]. cbn [mbind list_bind]. rewrite !zlen_app.
  assert (Hrest : zlen (ws ≫= got) <= zlen (Ls ≫= full)).
  { clear -Hs. induction Hs as [|L w Ls ws Hp _ IH]; [done|]. cbn [mbind list_bind].
    rewrite !zlen_app. apply prefix_length in Hp. unfold zlen in *. lia. }
  intros Hz. assert (Hl := prefix_length _ _ Hp).
  rewrite IH by (unfold zlen in *; lia). f_equal. destruct Hp as [k Hk]. rewrite Hk in *.
  destruct k as [|c k]; [by rewrite app_nil_r|]. rewrite zlen_app in Hz.
  unfold zlen in *. simpl in *. lia.
Qed.

Lemma group_files names : Forall (fun p => Forall (fun f => f ∈ names) (snd p)) (groupByType names).
Proof.
  destruct (groupByType_ok names) as (_ & _ & Hv & _). eapply Forall_impl; [exact Hv|].
  intros p ->. apply Forall_forall. intros f Hf. by apply list_elem_of_filter in Hf as [_ ?].
Qed.

Lemma new_walkers_traced names :
  Forall (openable dir) names ->
  Forall2 tr (type_lines names) (map new_walker (groupByType names)) /\
  bufsum (map new_walker (groupByType names)) = 0.
Proof.
  intros Ho. assert (Hg := group_files names). unfold type_lines.
  rewrite Forall_forall in Ho.
  induction Hg as [|p ps Hp _ [IH1 IH2]]; [by split|]. cbn [map]. split.
  - constructor; [|done]. constructor; [|by exists []]. constructor; [|done].
    cbn [new_walker w_files]. rewrite array_sort_perm. eapply Forall_impl; [exact Hp|]. auto.
  - rewrite bufsum_cons, IH2. done.
Qed.
Lemma warm_result Ls ws target tick :
  Forall2 tr Ls ws -> NoDup (map w_key ws) -> bufsum ws <= target ->
  (forall L pre, L ∈ Ls -> pre `prefix_of` L -> is_Some (correct_entries (valid_entries pre))) ->
  exists bs, correct_buffers ws = Some bs /\
    StronglySorted (desc_by e_ts) (warm_kway (fun _ => false) target tick bs) /\
    zlen (warm_kway (fun _ => false) target tick bs) = bufsum ws /\
    map e_text (warm_kway (fun _ => false) target tick bs) ≡ₚ map e_text (ws ≫= w_buffer).
Proof.
  intros Htr Hnd Hle Hcorr.
  assert (Hc : Forall (fun w => is_Some (correct_entries (w_buffer w))) ws).
  { clear -Htr Hcorr. induction Htr as [|L w Ls ws Hw _ IH]; constructor.
    - destruct (traced_prefix L w Hw) as (pre & Hp & ->). apply (Hcorr L); [by left|done].
    - apply IH. intros L' pre HL'. apply Hcorr. by right. }
  destruct (correct_buffers_spec ws Hc) as (bs & Hbs & Hk & Hs & Htx). exists bs.
  rewrite <- Hk in Hnd.
  assert (Hlen : zlen (bs ≫= snd) = bufsum ws).
  { unfold bufsum, zlen. rewrite <- (length_map e_text (bs ≫= snd)), Htx. by rewrite length_map. }
  destruct (warm_kway_spec bs Hnd Hs target tick) as (rest & P1 & P2 & _ & P4 & P5).
  { rewrite <- Hlen in Hle. assert (H := zlen_nonneg (bs ≫= snd)). lia. }
  assert (Hrest : rest = []).
  { destruct P5 as [P5|]; [|done]. apply Permutation_length in P1. rewrite length_app in P1.
    unfold zlen in *. destruct rest; [done|]. simpl in P1. lia. }
  subst rest. rewrite app_nil_r in P1. split_and!; [done|done| |].
  - rewrite <- Hlen. unfold zlen. by rewrite P1.
  - by rewrite P1, Htx.
Qed.

Lemma all_covered Ls ws target :
  Forall2 tr Ls ws -> (bufsum ws = target \/ forallb w_exhausted ws = true) ->
  (forallb w_exhausted ws = true \/ zlen (Ls ≫= valid_entries) <= target) ->
  ws ≫= w_buffer = Ls ≫= valid_entries.
Proof.
  intros Htr Hend Hcov.
  assert (Hex : forallb w_exhausted ws = true -> ws ≫= w_buffer = Ls ≫= valid_entries).
  { clear -Htr. induction Htr as [|L w Ls ws Hw _ IH]; [done|]. cbn [forallb mbind list_bind].
    intros [Hx Hxs]%andb_prop. by rewrite (traced_exhausted L w Hw Hx), IH. }
  destruct Hcov as [Hx|Hz]; [auto|]. destruct Hend as [Ht|Hx]; [|auto].
  apply (prefixes_full valid_entries w_buffer); [|unfold bufsum in Ht; lia].
  eapply Forall2_impl; [exact Htr|]. apply traced_buffer.
Qed.
End pass_proofs.

Lemma warmup_spec `{RE : RegExpEngine} now now_year stream dirPath dir cp target names :
  let Ls := type_lines stream dirPath dir cp names in
  let valid := valid_entries now now_year dirPath cp in
  names <> [] -> Forall (openable dir) names -> 1 <= target < MAX_SAFE_INTEGER ->
  (forall L pre, L ∈ Ls -> pre `prefix_of` L -> is_Some (correct_entries (valid pre))) ->
  exists r, warmupTailPrepass now now_year stream dirPath dir cp (fun _ => false) target None names
            = Some r /\
    StronglySorted (desc_by e_ts) (wr_logs r) /\ zlen (wr_logs r) <= target /\
    (zlen (wr_logs r) = target \/ wr_fullyCovered r = true) /\
    (wr_fullyCovered r = true \/ zlen (Ls ≫= valid) <= target ->
     map e_text (wr_logs r) ≡ₚ map e_text (Ls ≫= valid)).
Proof.
  cbv zeta. intros Hne Ho Ht Hcorr. unfold warmupTailPrepass.
  destruct (new_walkers_traced now now_year stream dirPath dir cp names Ho) as [Htr Hb0].
  set (Ls := type_lines stream dirPath dir cp names) in *.
  set (ws0 := map new_walker (groupByType names)) in *.
  assert (Hkeys : map w_key ws0 = map fst (groupByType names)).
  { unfold ws0. rewrite map_map. done. }
  assert (Hws0 : ws0 <> []).
  { intros E. apply (f_equal (map w_key)) in E. rewrite Hkeys in E.
    destruct (groupByType_ok names) as (_ & Hk & _). destruct names as [|n ns]; [done|].
    assert (Hin : typeKeyOf n ∈ map fst (groupByType (n :: ns))).
    { apply Hk. exists n. split; [by left|done]. }
    rewrite E in Hin. by apply elem_of_nil in Hin. }
  assert (Hcol := collect_spec now now_year stream dirPath dir cp Ls target 1 ws0 Htr Hws0 Hb0 Ht).
  destruct (collect now now_year stream dirPath dir cp (fun _ => false) target None 1 ws0)
    as [[ws total] tick].
  destruct Hcol as (C1 & C2 & C3 & C4 & C5).
  assert (Hnd : NoDup (map w_key ws)) by (rewrite C2, Hkeys; apply groupByType_ok).
  destruct (warm_result now now_year stream dirPath dir cp Ls ws target tick C1 Hnd ltac:(lia) Hcorr)
    as (bs & Hbs & W1 & W2 & W3).
  assert (Hall := all_covered now now_year stream dirPath dir cp Ls ws target C1
    ltac:(rewrite <- C3; exact C5)).
  destruct names as [|n ns]; [done|]. clear Hne. cbv beta iota.
  destruct (Z.eqb_spec total 0) as [Hz|Hz].
  - eexists. split; [done|]. cbn [wr_logs wr_fullyCovered].
    split_and!; [constructor|unfold zlen; simpl; lia|right; destruct C5; [lia|done]|].
    intros Hcov. rewrite <- (Hall Hcov).
    assert (Hnil : ws ≫= w_buffer = []); [|by rewrite Hnil].
    apply length_zero_iff_nil. unfold bufsum, zlen in C3. lia.
  - rewrite Hbs. eexists. split; [done|]. cbn [wr_logs wr_fullyCovered]. rewrite W2.
    split_and!; [done|lia|by rewrite <- C3|]. intros Hcov. by rewrite W3, (Hall Hcov).
Qed.

(** C24: the warm-up pass ends; what it returns is newest first and never more than
    the target; it stops short of the target only when all files have been read;
    and when it reports that everything is covered, or when the target is at least
    the number of valid lines, the returned entries are exactly those of all valid
    lines of all files, so that nothing is lost when the merge is skipped. *)
Theorem warmup_covers `{RE : RegExpEngine} now now_year stream dirPath dir cp target names :
  let Ls := type_lines stream dirPath dir cp names in
  let valid := valid_entries now now_year dirPath cp in
  names <> [] -> Forall (openable dir) names -> 1 <= target < MAX_SAFE_INTEGER ->
  (forall L pre, L ∈ Ls -> pre `prefix_of` L -> is_Some (correct_entries (valid pre))) ->
  exists r, warmupTailPrepass now now_year stream dirPath dir cp (fun _ => false) target None names
            = Some r /\
    StronglySorted (desc_by e_ts) (wr_logs r) /\ zlen (wr_logs r) <= target /\
    (zlen (wr_logs r) = target \/ wr_fullyCovered r = true) /\
    (wr_fullyCovered r = true \/ zlen (Ls ≫= valid) <= target ->
     map e_text (wr_logs r) ≡ₚ map e_text (Ls ≫= valid)).
Proof. apply warmup_spec. Qed.

Lemma toEntry_plain `{RE : RegExpEngine} now now_year dirPath l prev :
  let e := toEntry now now_year dirPath None l prev in
  e_text e = tl_line l /\ e_parsed e = None.
Proof. cbv zeta. unfold toEntry, lineToEntryWithParser. by destruct (tl_useParser l). Qed.

(** Without a parser every line is an entry. *)
Lemma valid_entries_plain `{RE : RegExpEngine} now now_year dirPath L :
  Forall (fun l => tl_useParser l = false) L ->
  map e_text (valid_entries now now_year dirPath None L) = map tl_line L.
Proof.
  unfold valid_entries. generalize (@None Z) as prev. intros prev H. revert prev.
  induction H as [|l L Hl _ IH]; intros prev; [done|]. cbn [entries_of map]. rewrite Hl.
  cbn [andb]. specialize (IH (Some (e_ts (toEntry now now_year dirPath None l prev)))).
  destruct (entries_of now now_year dirPath None (Some _) L) as [es p]. cbn [fst map] in *.
  rewrite IH. by destruct (toEntry_plain now now_year dirPath l prev) as [-> _].
Qed.

Definition line_yearless (text : str) : bool :=
  match extractHeaderTimeToken text with
  | Some tok => if nonempty tok then isYearlessTimeToken (Some tok) else false
  | None => false
  end.

(** Lines whose headers carry their year need no stitching. *)
Lemma yearful_corrected `{RE : RegExpEngine} now now_year dirPath (Ls : list (list tail_line)) :
  forallb (forallb (fun l => negb (tl_useParser l) && negb (line_yearless (tl_line l)))) Ls = true ->
  forall L pre, L ∈ Ls -> pre `prefix_of` L ->
  is_Some (correct_entries (valid_entries now now_year dirPath None pre)).
Proof.
  intros H L pre HL [suf ->]. rewrite forallb_forall in H.
  apply list_elem_of_In, H in HL. rewrite forallb_app in HL. apply andb_prop in HL as [HL _].
  rewrite forallb_forall in HL.
  assert (Hpre : Forall (fun l => tl_useParser l = false /\ line_yearless (tl_line l) = false) pre).
  { apply Forall_forall. intros l Hl. apply list_elem_of_In, HL, andb_prop in Hl as [H1 H2].
    by destruct (tl_useParser l), (line_yearless (tl_line l)). }
  rewrite correct_entries_yearful; [by eexists|].
  assert (Ht := valid_entries_plain now now_year dirPath pre).
  assert (Hf : Forall (fun t => line_yearless t = false)
    (map e_text (valid_entries now now_year dirPath None pre))).
  { rewrite Ht; [apply Forall_map|]; eapply Forall_impl; [exact Hpre| |exact Hpre|]; by intros l []. }
  by rewrite Forall_map in Hf.
Qed.

(** A directory with two types, one of them rotated. *)
Definition sample_dir : directory := Some
  [(js "a.log", DFile (js "[2024-05-02T10:00:00.000] p: two"));
   (js "a.log.1", DFile (js "[2024-05-01T10:00:00.000] p: one"));
   (js "b.txt", DFile (js "[2024-05-01T12:00:00.000] q: mid"))].

Definition no_engine : RegExpEngine :=
  {| regexp := unit; new_RegExp := fun _ _ => None; rx_groups := fun _ _ => None |}.

Lemma warmup_covers_witness :
  exists r, @warmupTailPrepass no_engine 0 2024 (fun b => Ok [b]) (js "/d") sample_dir None
              (fun _ => false) 9 None [js "a.log"; js "a.log.1"; js "b.txt"] = Some r /\
    StronglySorted (desc_by e_ts) (wr_logs r) /\ zlen (wr_logs r) <= 9 /\
    (zlen (wr_logs r) = 9 \/ wr_fullyCovered r = true).
Proof.
  destruct (@warmup_covers no_engine 0 2024 (fun b => Ok [b]) (js "/d") sample_dir None 9
    [js "a.log"; js "a.log.1"; js "b.txt"]) as (r & H1 & H2 & H3 & H4 & _).
  - done.
  - repeat constructor; by eexists.
  - unfold MAX_SAFE_INTEGER. lia.
  - apply yearful_corrected. vm_compute. reflexivity.
  - exists r. split; [exact H1|]. split; [exact H2|]. split; [exact H3|exact H4].
Defined.
