(* ===== verification/MergeDirectory.v ===== *)
(** * Merging a directory

    [mergeDirectory] of src/core/logs/LogFileIntegration.ts: the estimate of the
    number of lines, the warm-up pass and the decision to finish in memory; then
    the forward merge of raw files ([reverse]) or the standard path: the entries
    of every type go to a file of JSON lines, and the files are merged.

    The callbacks are the events of [KWay]; the texts of [onStage] are not kept.
    The abort signal is asked at successive checks in the warm-up pass, between
    the types, and in the merge loops. *)

From stdpp Require Import base list sorting strings.
From Stdlib Require Import ZArith Lia.
From S2P Require Import Prelude JsString Regex MaxHeap TimeParser LineReaders LogEntry Json.
From S2P Require Import ParserEngine KWay LogFiles TypePipeline Warmup.

Definition DEFAULT_BATCH_SIZE : Z := 200.
Definition DEFAULT_MEMORY_MODE_THRESHOLD : Z := 10000.

Record MergeOptions := Options {
  o_reverse : bool;
  o_batchSize : option Z;
  o_warmup : bool;
  o_warmupPerTypeLimit : option Z;
  o_memory_mode_threshold : option Z;
  o_whitelistGlobs : list str;
  o_parser : option ParserConfig;
  o_preserveFullText : bool;
  o_hasWarmupCallback : bool;          (* onWarmupBatch is given *)
}.

(** A run ends with its events, rejects, or stays in a year loop for ever. *)
Inductive merge_outcome :=
| Finished (evs : list merge_event)
| Rejected
| Diverges.

Record signals := Signals {
  sig_warm : nat -> bool;
  sig_types : nat -> bool;
  sig_kway : nat -> bool;
}.

(** ** The files between the phases *)

Definition jsonl_name (typeKey : str) : str := typeKey ++ js ".jsonl".

(** [/\.jsonl$/i] *)
Definition JSONL_RX : re := sq [chr 46; lit_i (js "jsonl"); Eol].

(** [name.replace(/\.jsonl$/i, '')] *)
Definition typeKeyFromJsonl (name : str) : str :=
  match exec JSONL_RX name with Some m => take (rx_index m) name | None => name end.

(** [results.sort()]: by code units *)
Definition name_cmp (a b : str) : Z := if str_lt a b then -1 else if str_lt b a then 1 else 0.

(** [listMergedJsonlFiles]: the names in the directory that end in [.jsonl] *)
Definition listMergedJsonlFiles (names : list str) : list str :=
  array_sort name_cmp (filter (fun n => rx_test JSONL_RX n = true) names).

(** The text of a file written by the earlier phase. *)
Fixpoint file_text (name : str) (files : list (str * str)) : str :=
  match files with
  | [] => []
  | (n, t) :: files' => if bool_decide (name = n) then t else file_text name files'
  end.

Section merge.
Context `{RE : RegExpEngine} `{J : JsonCodec}.
Context (localeCompare : str -> str -> Z).
Context (now now_year : Z).
Context (stream : list Z -> js_result (list str)) (chunks : list Z -> list (list Z)).
Context (dirPath : str) (dir : directory).

(** ** The standard path *)

(** The loop over the types: each writes its file, if it has entries. *)
Fixpoint type_files (aborted : nat -> bool) (i : nat) (cp : option CompiledParser)
    (preserve : bool) (groups : list (str * list str)) : option (list (str * str)) :=
  match groups with
  | [] => Some []
  | (typeKey, fileList) :: groups' =>
      if aborted i then Some []
      else
        match correct_entries (load_type now now_year stream dirPath dir cp preserve fileList),
              type_files aborted (S i) cp preserve groups' with
        | Some es, Some rest =>
            Some (match es with [] => rest | _ :: _ => (jsonl_name typeKey, jsonl es) :: rest end)
        | _, _ => None
        end
  end.

Definition open_cursors (files : list (str * str)) : list MergedCursor :=
  map (fun n => open_cursor (typeKeyFromJsonl n) (file_text n files))
    (listMergedJsonlFiles (map fst files)).

Definition merge_standard (sg : signals) (opts : MergeOptions) (cp : option CompiledParser)
    (batchSize : Z) (total : option Z) (files : list str) : option (list merge_event) :=
  match type_files (sig_types sg) 0 cp (o_preserveFullText opts) (groupByType files) with
  | None => None
  | Some written => Some (kway localeCompare (sig_kway sg) batchSize total (open_cursors written))
  end.

(** ** The forward merge of raw files *)

(** [FileForwardCursor]: the lines its reader has still to give *)
Record FileForwardCursor := FCursor {
  fc_path : str;
  fc_rank : Z;
  fc_lines : list str;
  fc_useParser : bool;
  fc_seq : Z;
  fc_prevTs : option Z;
}.

Definition fc_create (cp : option CompiledParser) (rank : Z) (name : str) : FileForwardCursor :=
  let full := path_join dirPath name in
  let bytes := file_bytes dir name in
  FCursor full rank (forward_lines (strip_bom (utf8_decode bytes)))
    (use_parser stream cp full (to_posix (basename full)) bytes) 0 None.

(** [next()]: lines without header are skipped; a line is taken in every round. *)
Fixpoint fc_next (cp : option CompiledParser) (lines : list str) (c : FileForwardCursor)
  : option (LogEntry * FileForwardCursor) :=
  match lines with
  | [] => None
  | line :: rest =>
      let e := lineToEntryWithParser now now_year (fc_path c) line
                 (if fc_useParser c then cp else None) (fc_prevTs c) (Some (fc_rank c))
                 (Some (fc_seq c)) in
      if fc_useParser c && isParsedHeaderAllMissing (e_parsed e)
      then fc_next cp rest (FCursor (fc_path c) (fc_rank c) rest (fc_useParser c) (fc_seq c + 1)
                              (fc_prevTs c))
      else
        let e' := restoreFullTextIfNeeded now_year e true in
        Some (e', FCursor (fc_path c) (fc_rank c) rest (fc_useParser c) (fc_seq c + 1)
                    (if 0 <? e_ts e' then Some (e_ts e') else fc_prevTs c))
  end.

(** A heap item with its cursor *)
Record RevHeapItem := RItem {
  ri_ts : Z; ri_entry : LogEntry; ri_cursor : FileForwardCursor; ri_seq : Z }.

Definition rev_cmp (a b : RevHeapItem) : Z :=
  if negb (ri_ts a =? ri_ts b) then ri_ts b - ri_ts a
  else
    let aRank := or_else (e_fRank (ri_entry a)) 9999 in
    let bRank := or_else (e_fRank (ri_entry b)) 9999 in
    if negb (aRank =? bRank) then bRank - aRank
    else
      let aFile := e_file (ri_entry a) in
      let bFile := e_file (ri_entry b) in
      if negb (bool_decide (aFile = bFile)) then localeCompare bFile aFile
      else
        let aRev := or_else (e_rev (ri_entry a)) 9999 in
        let bRev := or_else (e_rev (ri_entry b)) 9999 in
        if negb (aRev =? bRev) then bRev - aRev else ri_seq b - ri_seq a.

(** [const next = await cursor.next(); if (next) heap.push(...)] *)
Definition rev_push (cp : option CompiledParser) (heap : list RevHeapItem)
    (c : FileForwardCursor) (seq : Z) : list RevHeapItem :=
  match fc_next cp (fc_lines c) c with
  | Some (e, c') => heap_push rev_cmp heap (RItem (e_ts e) e c' seq)
  | None => heap
  end.

Fixpoint rev_loop (fuel : nat) (aborted : nat -> bool) (n : nat) (batchSize : Z)
    (cp : option CompiledParser) (heap : list RevHeapItem) (out : list LogEntry)
  : list LogEntry * nat * list merge_event :=
  match fuel with
  | O => (out, n, [])
  | S f =>
      match heap_pop rev_cmp heap with
      | None => (out, n, [])
      | Some (top, heap1) =>
          if aborted n then (out, n, [])
          else
            let out1 := out ++ [ri_entry top] in
            let full := batchSize <=? zlen out1 in
            let '(out2, n2, evs) :=
              rev_loop f aborted (S n) batchSize cp
                (rev_push cp heap1 (ri_cursor top) (ri_seq top + 1)) (if full then [] else out1) in
            (out2, n2, (if full then [EvBatch out1] else []) ++ evs)
      end
  end.

(** The files by type key, the oldest rotation of a type first. *)
Definition reverse_order (files : list str) : list str :=
  let grouped := groupByType files in
  array_sort name_cmp (map fst grouped) ≫= fun k =>
    match list_find (fun p => fst p = k) grouped with
    | Some (_, (_, fs)) => array_sort compareLogOrderAsc fs
    | None => []
    end.

Fixpoint fc_create_all (cp : option CompiledParser) (rank : Z) (names : list str)
  : list FileForwardCursor :=
  match names with
  | [] => []
  | n :: ns => fc_create cp rank n :: fc_create_all cp (rank + 1) ns
  end.

Definition rev_fuel (cursors : list FileForwardCursor) : nat := S (length (cursors ≫= fc_lines)).

Definition merge_reverse (sg : signals) (cp : option CompiledParser) (batchSize : Z)
    (files : list str) : list merge_event :=
  let cursors := fc_create_all cp 0 (reverse_order files) in
  let heap := foldl (fun h c => rev_push cp h c 0) [] cursors in
  let '(out, n, evs) := rev_loop (rev_fuel cursors) (sig_kway sg) 0 batchSize cp heap [] in
  evs ++ (if negb (sig_kway sg n) && nonempty out then [EvBatch out] else []).

(** ** The decision *)

(** What the warm-up pass puts out. *)
Definition warm_events (opts : MergeOptions) (warmLogs : list LogEntry) : list merge_event :=
  match warmLogs with
  | [] => []
  | _ :: _ =>
      (if o_hasWarmupCallback opts then [EvWarmupBatch warmLogs] else []) ++
      (if o_warmup opts
       then let initial := slice warmLogs 0 DEFAULT_BATCH_SIZE in
            [EvBatch initial; EvProgress (Some (zlen initial)) None true]
       else [])
  end.

(** What ends a run in memory. *)
Definition skip_events (opts : MergeOptions) (warmLogs : list LogEntry) (doneTotal : Z)
  : list merge_event :=
  EvProgress (Some doneTotal) (Some doneTotal) false ::
  (if nonempty warmLogs && negb (o_warmup opts)
   then (if o_hasWarmupCallback opts then [EvWarmupBatch warmLogs] else []) ++
        [EvBatch (slice warmLogs 0 DEFAULT_BATCH_SIZE)]
   else []) ++
  [EvFinalize ModeMemory doneTotal].

Definition should_skip (preEstimate : option Z) (threshold : Z) (warmFullyCovered : bool)
    (warmLogs : list LogEntry) : bool :=
  match preEstimate with Some n => n <=? threshold | None => false end
  || (warmFullyCovered && (zlen warmLogs <=? threshold)).

(** [mergeDirectory]; [count_fails] when the estimate throws. *)
Definition mergeDirectory (sg : signals) (count_fails : bool) (opts : MergeOptions)
  : merge_outcome :=
  let batchSize := Z.max 1 (or_else (o_batchSize opts) DEFAULT_BATCH_SIZE) in
  match (match o_parser opts with Some p => compileParserConfig p | None => Ok None end),
        compileWhitelistPathRegexes (o_whitelistGlobs opts) with
  | Ok cp, Ok allow =>
      let files := listInputLogFiles dir allow in
      let preEstimate :=
        if count_fails then None else Some (Z.max 0 (countTotalLinesInDir chunks dir allow)) in
      let totalEstimated :=
        match preEstimate with Some n => if 0 <? n then Some n else None | None => None end in
      let threshold := or_else (o_memory_mode_threshold opts)
        (or_else (getMemoryModeThresholdFromParser (o_parser opts)) DEFAULT_MEMORY_MODE_THRESHOLD) in
      let run_warmup := o_warmup opts || match preEstimate with Some _ => false | None => true end in
      match (if run_warmup
             then warmupTailPrepass now now_year stream dirPath dir cp (sig_warm sg)
                    (warm_target (Some threshold) None) (warm_cap (o_warmupPerTypeLimit opts)) files
             else Some (WarmResult [] false [])) with
      | None => Diverges
      | Some warm =>
          let evs0 :=
            match totalEstimated with Some n => [EvProgress None (Some n) true] | None => [] end ++
            (if run_warmup then warm_events opts (wr_logs warm) else []) in
          if should_skip preEstimate threshold (wr_fullyCovered warm) (wr_logs warm) then
            Finished (evs0 ++ skip_events opts (wr_logs warm)
                                (or_else preEstimate (zlen (wr_logs warm))))
          else if negb (nonempty files) then Finished evs0
          else if o_reverse opts then Finished (evs0 ++ merge_reverse sg cp batchSize files)
          else
            match merge_standard sg opts cp batchSize totalEstimated files with
            | Some evs => Finished (evs0 ++ evs)
            | None => Diverges
            end
      end
  | _, _ => Rejected
  end.
End merge.

(** ** Names of the files between the phases *)

Lemma jsonl_match_length prev s y :
  rmatch JSONL_RX (Mst prev s []) (fun y => Some y) = Some y -> length s = 6%nat.
Proof.
  unfold JSONL_RX, lit_i, lit, chr_i, chr. cbn [js map sq].
  destruct s as [|a [|b [|c [|d [|e [|f [|g t]]]]]]]; cbn [rmatch m_rest];
    repeat case_match; done.
Qed.

Lemma jsonl_match prev : exists y,
  rmatch JSONL_RX (Mst prev (js ".jsonl") []) (fun y => Some y) = Some y.
Proof. eexists. reflexivity. Qed.

Lemma jsonl_exec k i prev :
  exists m, exec_from JSONL_RX i prev (k ++ js ".jsonl") = Some m /\
    rx_index m = (i + length k)%nat.
Proof.
  revert i prev. induction k as [|c k IH]; intros i prev.
  - destruct (jsonl_match prev) as [y Hy]. cbn [app].
    change (js ".jsonl") with [46; 106; 115; 111; 110; 108] in *. cbn [exec_from]. rewrite Hy.
    eexists. split; [done|]. simpl. lia.
  - cbn [app exec_from]. destruct (rmatch JSONL_RX _ _) as [y|] eqn:Hy.
    { apply jsonl_match_length in Hy. cbn [length] in Hy. rewrite length_app in Hy. simpl in Hy. lia. }
    destruct (IH (S i) (Some c)) as (m & -> & Hm). exists m. split; [done|]. simpl. lia.
Qed.

Lemma typeKeyFromJsonl_name k : typeKeyFromJsonl (jsonl_name k) = k.
Proof.
  unfold typeKeyFromJsonl, jsonl_name, exec.
  destruct (jsonl_exec k 0 None) as (m & -> & ->). simpl. apply take_app_length.
Qed.

Lemma jsonl_name_test k : rx_test JSONL_RX (jsonl_name k) = true.
Proof. unfold rx_test, exec, jsonl_name. by destruct (jsonl_exec k 0 None) as (m & -> & _). Qed.

Lemma jsonl_name_inj k1 k2 : jsonl_name k1 = jsonl_name k2 -> k1 = k2.
Proof.
  intros H. by rewrite <- (typeKeyFromJsonl_name k1), <- (typeKeyFromJsonl_name k2), H.
Qed.

Lemma basename_join d n :
  n <> [] -> Forall (fun c => c <> 47) n -> basename (path_join d n) = n.
Proof.
  intros Hne Hn. unfold basename, path_join.
  rewrite rev_app_distr. cbn [rev]. rewrite <- app_assoc. cbn [app].
  assert (Hr : Forall (fun c => c <> 47) (rev n)) by (by apply Forall_rev).
  assert (Hrn : rev n <> []).
  { intros E. apply Hne. by rewrite <- (rev_involutive n), E. }
  assert (Hd : drop_while (fun c => c =? 47) (rev n ++ 47 :: rev d) = rev n ++ 47 :: rev d).
  { destruct Hr as [|c l Hc]; [done|]. simpl. by destruct (Z.eqb_spec c 47). }
  rewrite Hd, (take_while_stop (fun c => negb (c =? 47)) (rev n) (47 :: rev d)); [apply rev_involutive| |done].
  eapply Forall_impl; [exact Hr|]. intros c Hc. by destruct (Z.eqb_spec c 47).
Qed.

(** ** The standard path is complete *)

Definition no_ts (e : LogEntry) : LogEntry := set_ts e 0.

Definition file_name_ok (n : str) : Prop := n <> [] /\ Forall (fun c => c <> 47) n.

Section standard.
Context `{RE : RegExpEngine} {J : JsonCodec} {JL : JsonLaws}.
Context (localeCompare : str -> str -> Z).
Context (now now_year : Z).
Context (stream : list Z -> js_result (list str)).
Context (dirPath : str) (dir : directory).

#[local] Abbreviation load := (load_type now now_year stream dirPath dir).

Lemma load_files_file cp preserve i names :
  Forall file_name_ok names ->
  Forall (fun e => e_file e <> []) (load_files now now_year stream dirPath dir cp preserve i names).
Proof.
  intros H. revert i. induction H as [|n ns [Hne Hn] _ IH]; intros i; cbn [load_files]; [constructor|].
  apply Forall_app. split; [|apply IH]. unfold load_file.
  eapply Forall_impl; [apply load_lines_meta|]. intros e (-> & _). by rewrite basename_join.
Qed.

Lemma load_type_file cp preserve names :
  Forall file_name_ok names -> Forall (fun e => e_file e <> []) (load cp preserve names).
Proof. intros H. apply load_files_file. by rewrite array_sort_perm. Qed.

Lemma same_no_ts es es' : Forall2 same_but_ts es es' -> map no_ts es' = map no_ts es.
Proof.
  induction 1 as [|a b es es' Hab _ IH]; [done|]. cbn [map]. rewrite IH.
  f_equal. symmetry. exact Hab.
Qed.

Lemma same_files es es' :
  Forall2 same_but_ts es es' -> Forall (fun e => e_file e <> []) es ->
  Forall (fun e => e_file e <> []) es'.
Proof.
  induction 1 as [|a b es es' Hab _ IH]; intros Hf; [constructor|].
  apply Forall_cons in Hf as [Ha Hf]. constructor; [by rewrite <- Hab|auto].
Qed.

Lemma type_files_spec i cp preserve groups :
  NoDup (map fst groups) -> Forall (fun p => Forall file_name_ok (snd p)) groups ->
  Forall (fun p => is_Some (correct_entries (load cp preserve (snd p)))) groups ->
  exists ts : list (str * list LogEntry),
    type_files now now_year stream dirPath dir (fun _ => false) i cp preserve groups =
      Some (map (fun p => (jsonl_name (fst p), jsonl (snd p))) ts) /\
    map fst ts `sublist_of` map fst groups /\
    Forall (fun p => StronglySorted (desc_by e_ts) (snd p)) ts /\
    Forall (fun p => Forall (fun e => e_file e <> []) (snd p)) ts /\
    map no_ts (ts ≫= snd) = map no_ts (groups ≫= fun p => load cp preserve (snd p)).
Proof.
  intros Hnd Hf Hc. revert i. induction groups as [|[k fs] groups IH]; intros i.
  { exists []. by split_and!. }
  apply Forall_cons in Hf as [Hf Hfs]. apply Forall_cons in Hc as [[es Hes] Hcs].
  apply NoDup_cons in Hnd as [_ Hnd]. cbn [snd] in *.
  destruct (IH Hnd Hfs Hcs (S i)) as (ts & E & Hsub & Hs & Hff & Hno).
  destruct (correct_entries_spec _ _ Hes) as [H1 H2].
  assert (Hn := same_no_ts _ _ H2).
  cbn [type_files]. rewrite Hes, E. destruct (nonempty es) eqn:Ee; cycle 1.
  - destruct es as [|e0 es0]; [|done]. exists ts. cbn [map fst snd mbind list_bind]. split_and!; try done; [by apply sublist_cons|].
    rewrite map_app, <- Hn. done.
  - exists ((k, es) :: ts). cbn [map fst snd mbind list_bind]. split_and!.
    + by destruct es.
    + by apply sublist_skip.
    + by constructor.
    + constructor; [|done]. cbn [snd]. eapply same_files; [exact H2|]. by apply load_type_file.
    + by rewrite !map_app, Hn, Hno.
Qed.

Lemma file_text_elem (ts : list (str * list LogEntry)) p :
  NoDup (map fst ts) -> p ∈ ts ->
  file_text (jsonl_name (fst p)) (map (fun q => (jsonl_name (fst q), jsonl (snd q))) ts) =
  jsonl (snd p).
Proof.
  induction ts as [|q ts IH]; [by intros _ ?%elem_of_nil|]. cbn [map file_text fst].
  intros [Hni Hnd]%NoDup_cons [->|Hp]%elem_of_cons.
  - by rewrite bool_decide_true.
  - rewrite bool_decide_false; [by apply IH|]. intros E%jsonl_name_inj. apply Hni.
    rewrite <- E. by apply list_elem_of_fmap_2.
Qed.

Lemma open_cursors_spec (ts : list (str * list LogEntry)) :
  NoDup (map fst ts) ->
  exists ts', ts' ≡ₚ ts /\
    open_cursors (map (fun q => (jsonl_name (fst q), jsonl (snd q))) ts) =
    map (fun p => open_cursor (fst p) (jsonl (snd p))) ts'.
Proof.
  intros Hnd. unfold open_cursors, listMergedJsonlFiles. rewrite map_map. cbn [fst].
  assert (Hfil : filter (fun n => rx_test JSONL_RX n = true) (map (fun x => jsonl_name (fst x)) ts)
    = map (fun x => jsonl_name (fst x)) ts).
  { apply filter_all, Forall_map, Forall_forall. intros x _. apply jsonl_name_test. }
  rewrite Hfil.
  assert (Hp := array_sort_perm name_cmp (map (fun x => jsonl_name (fst x)) ts)).
  apply Permutation_map_inv in Hp as (ts' & E & Hp). exists ts'. split; [done|].
  rewrite E, map_map. apply map_ext_in. intros q Hq. rewrite typeKeyFromJsonl_name.
  f_equal. apply file_text_elem; [done|]. rewrite Hp. by apply list_elem_of_In.
Qed.

Lemma groups_names files :
  Forall file_name_ok files ->
  Forall (fun p => Forall file_name_ok (snd p)) (groupByType files).
Proof.
  intros H. eapply Forall_impl; [apply group_files|]. intros p Hp.
  eapply Forall_impl; [exact Hp|]. rewrite Forall_forall in H. auto.
Qed.

Lemma merge_standard_spec opts cp batchSize total files sg :
  (forall i, sig_types sg i = false) -> (forall i, sig_kway sg i = false) ->
  Forall file_name_ok files ->
  Forall (fun p => is_Some (correct_entries (load cp (o_preserveFullText opts) (snd p))))
    (groupByType files) ->
  exists evs, merge_standard localeCompare now now_year stream dirPath dir sg opts cp batchSize total
                files = Some evs /\
    StronglySorted (desc_by e_ts) (batches evs) /\
    map no_ts (batches evs) ≡ₚ
    map no_ts (groupByType files ≫= fun p => load cp (o_preserveFullText opts) (snd p)).
Proof.
  intros Hst Hsk Hf Hc. unfold merge_standard.
  assert (Hnd : NoDup (map fst (groupByType files))) by apply groupByType_ok.
  destruct (type_files_spec 0 cp (o_preserveFullText opts) (groupByType files) Hnd
    (groups_names files Hf) Hc) as (ts & E & Hsub & Hs & Hff & Hno).
  assert (Hext : forall a b i groups, (forall j, a j = b j) ->
    type_files now now_year stream dirPath dir a i cp (o_preserveFullText opts) groups =
    type_files now now_year stream dirPath dir b i cp (o_preserveFullText opts) groups).
  { intros a b i groups Hab. revert i. induction groups as [|[k fs] gs IH]; intros i; [done|].
    cbn [type_files]. by rewrite Hab, IH. }
  rewrite (Hext _ (fun _ => false)) by done. rewrite E. eexists. split; [done|].
  assert (Hnts : NoDup (map fst ts)) by (by eapply sublist_NoDup).
  destruct (open_cursors_spec ts Hnts) as (ts' & Hp & ->).
  assert (Hk : forall a, (forall i, a i = false) ->
    kway localeCompare a batchSize total (map (fun p => open_cursor (fst p) (jsonl (snd p))) ts') =
    kway localeCompare (fun _ => false) batchSize total
      (map (fun p => open_cursor (fst p) (jsonl (snd p))) ts')).
  { intros a Ha. apply kway_ext. done. }
  rewrite Hk by done.
  destruct (kway_types localeCompare batchSize total ts') as [K1 K2].
  - by rewrite Hp.
  - by rewrite Hp.
  - by rewrite Hp.
  - split; [exact K2|]. rewrite K1, Hp, Hno. done.
Qed.
End standard.

(** ** Whole runs *)

Definition never : signals := Signals (fun _ => false) (fun _ => false) (fun _ => false).

(** The threshold of the decision. *)
Definition threshold_of (opts : MergeOptions) : Z :=
  or_else (o_memory_mode_threshold opts)
    (or_else (getMemoryModeThresholdFromParser (o_parser opts)) DEFAULT_MEMORY_MODE_THRESHOLD).

Lemma aligned_lines dir files :
  Forall (fun f => chunk_aligned (file_bytes dir f) CHUNK_SIZE) files ->
  files ≫= file_lines dir =
  files ≫= fun f => reverse_lines (strip_bom (utf8_decode (file_bytes dir f))).
Proof.
  induction 1 as [|f fs Hf _ IH]; [done|]. cbn [mbind list_bind]. rewrite IH.
  f_equal. unfold file_lines. apply rr_lines_spec; [unfold CHUNK_SIZE; lia|done].
Qed.

Lemma plain_file_lines `{RE : RegExpEngine} now now_year stream dirPath dir preserve i names :
  map e_text (load_files now now_year stream dirPath dir None preserve i names) =
  names ≫= file_lines dir.
Proof.
  revert i. induction names as [|n ns IH]; intros i; [done|]. cbn [load_files mbind list_bind].
  rewrite map_app, IH. f_equal. unfold load_file. cbn [use_parser]. apply load_lines_plain.
Qed.

Lemma bind_perm {A B} (f : A -> list B) l1 l2 : l1 ≡ₚ l2 -> l1 ≫= f ≡ₚ l2 ≫= f.
Proof. intros H. by rewrite H. Qed.

(** The texts of all types are the lines of all files. *)
Lemma plain_group_texts `{RE : RegExpEngine} now now_year stream dirPath dir preserve files :
  map e_text (groupByType files ≫= fun p =>
    load_type now now_year stream dirPath dir None preserve (snd p)) ≡ₚ files ≫= file_lines dir.
Proof.
  destruct (groupByType_ok files) as (_ & _ & _ & Hp).
  rewrite <- (bind_perm (file_lines dir) _ _ Hp). clear Hp.
  induction (groupByType files) as [|p ps IH]; [done|]. cbn [mbind list_bind].
  rewrite map_app, IH, bind_app. apply Permutation_app_tail.
  unfold load_type. rewrite plain_file_lines. apply bind_perm, array_sort_perm.
Qed.

Lemma no_ts_texts l1 l2 : map no_ts l1 ≡ₚ map no_ts l2 -> map e_text l1 ≡ₚ map e_text l2.
Proof.
  intros H. apply (Permutation_map e_text) in H. rewrite !map_map in H. exact H.
Qed.

Lemma plain_is_yearless `{RE : RegExpEngine} now now_year stream dirPath dir preserve names :
  Forall (fun f => Forall (fun l => line_yearless l = false) (file_lines dir f)) names ->
  Forall (fun e => is_yearless e = false)
    (load_type now now_year stream dirPath dir None preserve names).
Proof.
  intros H. assert (Ht := plain_file_lines now now_year stream dirPath dir preserve 0
    (array_sort compareLogOrderDesc names)).
  assert (Hf : Forall (fun t => line_yearless t = false)
    (map e_text (load_type now now_year stream dirPath dir None preserve names))).
  { unfold load_type. rewrite Ht. apply Forall_forall. intros t Ht'.
    apply list_elem_of_bind in Ht' as (f & Htf & Hf). rewrite array_sort_perm in Hf.
    rewrite Forall_forall in H. specialize (H f Hf). rewrite Forall_forall in H. auto. }
  by rewrite Forall_map in Hf.
Qed.

Lemma plain_corrected `{RE : RegExpEngine} now now_year stream dirPath dir preserve files :
  Forall (fun f => Forall (fun l => line_yearless l = false) (file_lines dir f)) files ->
  Forall (fun p => is_Some (correct_entries
    (load_type now now_year stream dirPath dir None preserve (snd p)))) (groupByType files).
Proof.
  intros H. eapply Forall_impl; [apply group_files|]. intros p Hp.
  rewrite correct_entries_yearful; [by eexists|]. apply plain_is_yearless.
  eapply Forall_impl; [exact Hp|]. rewrite Forall_forall in H. auto.
Qed.

Lemma mergeDirectory_standard `{RE : RegExpEngine} {J : JsonCodec} {JL : JsonLaws}
    localeCompare now now_year stream chunks dirPath dir opts cp allow :
  o_reverse opts = false -> o_warmup opts = false ->
  (match o_parser opts with Some p => compileParserConfig p | None => Ok None end) = Ok cp ->
  compileWhitelistPathRegexes (o_whitelistGlobs opts) = Ok allow ->
  let files := listInputLogFiles dir allow in
  files <> [] -> threshold_of opts < countTotalLinesInDir chunks dir allow -> 0 <= threshold_of opts ->
  Forall file_name_ok files ->
  Forall (fun p => is_Some (correct_entries
    (load_type now now_year stream dirPath dir cp (o_preserveFullText opts) (snd p))))
    (groupByType files) ->
  exists evs, mergeDirectory localeCompare now now_year stream chunks dirPath dir never false opts
              = Finished evs /\
    StronglySorted (desc_by e_ts) (batches evs) /\
    map no_ts (batches evs) ≡ₚ
    map no_ts (groupByType files ≫= fun p =>
      load_type now now_year stream dirPath dir cp (o_preserveFullText opts) (snd p)).
Proof.
  intros Hrev Hwarm Hcp Hal. cbv zeta. intros Hne Hthr Hpos Hnames Hcorr.
  unfold mergeDirectory. rewrite Hcp, Hal. fold (threshold_of opts). rewrite Hwarm. cbn [orb].
  cbn [wr_logs wr_fullyCovered]. unfold should_skip.
  destruct (Z.leb_spec (Z.max 0 (countTotalLinesInDir chunks dir allow)) (threshold_of opts)); [lia|].
  cbn [orb andb].
  assert (Hn : nonempty (listInputLogFiles dir allow) = true) by (by destruct (listInputLogFiles dir allow)).
  rewrite Hn, Hrev. cbn [negb].
  match goal with |- context [merge_standard _ _ _ _ _ _ never opts cp ?bs ?tot _] =>
    destruct (merge_standard_spec localeCompare now now_year stream dirPath dir opts cp bs tot
      (listInputLogFiles dir allow) never) as (evs & E & Hs & Hp); [done..|] end.
  rewrite E. eexists. split; [done|]. rewrite !batches_app.
  assert (H0 : forall o, batches (match o with
    | Some n => [EvProgress None (Some n) true] | None => [] end) = []) by (by intros []).
  rewrite H0. done.
Qed.


Lemma sample_names_ok : Forall file_name_ok [js "a.log"; js "a.log.1"; js "b.txt"].
Proof.
  repeat constructor; vm_compute; discriminate.
Qed.

Lemma sample_aligned :
  Forall (fun f => chunk_aligned (file_bytes sample_dir f) CHUNK_SIZE)
    [js "a.log"; js "a.log.1"; js "b.txt"].
Proof.
  repeat constructor; apply ascii_aligned; apply (bool_decide_unpack _); vm_compute; exact I.
Qed.

Lemma sample_yearful :
  Forall (fun f => Forall (fun l => line_yearless l = false) (file_lines sample_dir f))
    [js "a.log"; js "a.log.1"; js "b.txt"].
Proof.
  assert (H : forallb (fun f => forallb (fun l => negb (line_yearless l)) (file_lines sample_dir f))
    [js "a.log"; js "a.log.1"; js "b.txt"] = true) by (vm_compute; reflexivity).
  rewrite forallb_forall in H. apply Forall_forall. intros f Hf%list_elem_of_In%H.
  rewrite forallb_forall in Hf. apply Forall_forall. intros l Hl%list_elem_of_In%Hf.
  by destruct (line_yearless l).
Qed.

Definition plain_options (threshold : Z) (warmup : bool) : MergeOptions :=
  Options false None warmup None (Some threshold) [] None true true.


(** ** A run in memory loses nothing *)

Lemma dir_lookup_elem n b l : NoDup (map fst l) -> (n, DFile b) ∈ l -> dir_lookup n l = Some b.
Proof.
  induction l as [|[m ent] l IH]; [by intros _ ?%elem_of_nil|]. cbn [map fst dir_lookup].
  intros [Hni Hnd]%NoDup_cons [[= <- <-]|Hin]%elem_of_cons; [by rewrite bool_decide_true|].
  rewrite bool_decide_false; [by apply IH|]. intros ->. apply Hni.
  by apply (list_elem_of_fmap_2 fst _ (m, DFile b)).
Qed.

Lemma listed_openable `{RE : RegExpEngine} entries allow :
  NoDup (map fst entries) -> Forall (openable (Some entries)) (listInputLogFiles (Some entries) allow).
Proof.
  intros Hnd. apply Forall_forall. intros n Hn. unfold listInputLogFiles in Hn. cbn [or_else] in Hn.
  apply list_elem_of_fmap in Hn as ([m ent] & -> & Hin). cbn [fst].
  apply list_elem_of_filter in Hin as [Hk Hin]. cbn [fst snd] in Hk.
  unfold openable. cbn [or_else]. destruct ent as [b| | |]; [|done..].
  rewrite (dir_lookup_elem m b); [by eexists|done|done].
Qed.

(** The stream of a file cuts its bytes into non-empty chunks. *)
Definition chunking (chunks : list Z -> list (list Z)) : Prop :=
  forall b, mjoin (chunks b) = b /\ Forall (fun c => c <> []) (chunks b).

Lemma count_bounds_lines `{RE : RegExpEngine} chunks dir allow :
  chunking chunks ->
  Forall (fun f => chunk_aligned (file_bytes dir f) CHUNK_SIZE) (listInputLogFiles dir allow) ->
  zlen (listInputLogFiles dir allow ≫= file_lines dir) <= countTotalLinesInDir chunks dir allow.
Proof.
  intros Hch Hal. unfold countTotalLinesInDir.
  assert (Hp := array_sort_perm compareLogOrderDesc (listInputLogFiles dir allow)).
  rewrite <- Hp in Hal. unfold zlen. rewrite <- (bind_perm (file_lines dir) _ _ Hp).
  fold (zlen (array_sort compareLogOrderDesc (listInputLogFiles dir allow) ≫= file_lines dir)).
  clear Hp. enough (H : forall acc l, Forall (fun f => chunk_aligned (file_bytes dir f) CHUNK_SIZE) l ->
    acc + zlen (l ≫= file_lines dir) <=
    foldl (fun total name => total + countLinesInFile (chunks (file_bytes dir name))) acc l).
  { apply (H 0) in Hal. lia. }
  clear Hal. intros acc l Hl. revert acc. induction Hl as [|f fs Hf _ IH]; intros acc.
  { simpl. unfold zlen. simpl. lia. }
  cbn [mbind list_bind foldl]. rewrite zlen_app.
  etrans; [|apply IH]. enough (zlen (file_lines dir f) <= countLinesInFile (chunks (file_bytes dir f))) by lia.
  destruct (Hch (file_bytes dir f)) as [Hj Hne].
  rewrite countLinesInFile_spec by done. rewrite Hj. unfold file_lines.
  rewrite rr_lines_spec by (done || (unfold CHUNK_SIZE; lia)).
  unfold reverse_lines, zlen. rewrite length_rev, length_map, <- lf_count_decode.
  etrans; [apply lf_lines_count_aux|apply lf_count_strip_bom].
Qed.

Lemma pending_plain `{RE : RegExpEngine} stream dirPath dir names :
  Forall (fun l => tl_useParser l = false) (pending_of stream dirPath dir None names) /\
  map tl_line (pending_of stream dirPath dir None names) = names ≫= file_lines dir.
Proof.
  induction names as [|n ns [IH1 IH2]]; [by split; [constructor|]|].
  unfold pending_of in *. cbn [mbind list_bind]. split.
  - apply Forall_app. split; [|done]. unfold tag. by apply Forall_map, Forall_forall.
  - rewrite map_app, IH2. f_equal. unfold tag. rewrite map_map. apply map_id.
Qed.

Lemma plain_type_lines `{RE : RegExpEngine} now now_year stream dirPath dir files :
  map e_text (type_lines stream dirPath dir None files ≫= valid_entries now now_year dirPath None)
  ≡ₚ files ≫= file_lines dir.
Proof.
  destruct (groupByType_ok files) as (_ & _ & _ & Hp).
  rewrite <- (bind_perm (file_lines dir) _ _ Hp). clear Hp. unfold type_lines.
  induction (groupByType files) as [|p ps IH]; [done|]. cbn [map mbind list_bind].
  rewrite map_app, IH, bind_app. apply Permutation_app_tail.
  destruct (pending_plain stream dirPath dir (array_sort compareLogOrderDesc (snd p))) as [H1 H2].
  rewrite valid_entries_plain by done. rewrite H2. apply bind_perm, array_sort_perm.
Qed.

Lemma plain_warm_corrected `{RE : RegExpEngine} now now_year stream dirPath dir files :
  Forall (fun f => Forall (fun l => line_yearless l = false) (file_lines dir f)) files ->
  forall L pre, L ∈ type_lines stream dirPath dir None files -> pre `prefix_of` L ->
  is_Some (correct_entries (valid_entries now now_year dirPath None pre)).
Proof.
  intros Hy. apply yearful_corrected. apply forallb_forall. intros L HL.
  apply list_elem_of_In in HL. unfold type_lines in HL.
  apply list_elem_of_fmap in HL as (p & -> & Hp).
  assert (Hg := group_files files). rewrite Forall_forall in Hg. specialize (Hg p Hp).
  rewrite Forall_forall in Hg. rewrite Forall_forall in Hy.
  destruct (pending_plain stream dirPath dir (array_sort compareLogOrderDesc (snd p))) as [H1 H2].
  apply forallb_forall. intros l Hl%list_elem_of_In. rewrite Forall_forall in H1.
  rewrite (H1 l Hl). cbn [negb andb].
  assert (Hin : tl_line l ∈ array_sort compareLogOrderDesc (snd p) ≫= file_lines dir).
  { rewrite <- H2. by apply list_elem_of_fmap_2. }
  apply list_elem_of_bind in Hin as (f & Hlf & Hf). rewrite array_sort_perm in Hf.
  specialize (Hy f (Hg f Hf)). rewrite Forall_forall in Hy. by rewrite (Hy _ Hlf).
Qed.



(** without the warm-up pass a run that ends in memory delivers nothing: when
    the estimate is within the threshold and [warmup] was not asked for, no pass
    reads any line, and neither [onBatch] nor [onWarmupBatch] is called. *)
Theorem memory_mode_without_warmup `{RE : RegExpEngine} {J : JsonCodec}
    localeCompare now now_year stream chunks dirPath dir sg opts cp allow :
  o_warmup opts = false ->
  (match o_parser opts with Some p => compileParserConfig p | None => Ok None end) = Ok cp ->
  compileWhitelistPathRegexes (o_whitelistGlobs opts) = Ok allow ->
  0 <= countTotalLinesInDir chunks dir allow <= threshold_of opts ->
  exists evs, mergeDirectory localeCompare now now_year stream chunks dirPath dir sg false opts
              = Finished evs /\
    batches evs = [] /\ (forall logs, EvWarmupBatch logs ∉ evs) /\
    EvFinalize ModeMemory (countTotalLinesInDir chunks dir allow) ∈ evs.
Proof.
  intros Hw Hcp Hal Hthr. unfold mergeDirectory. rewrite Hcp, Hal. fold (threshold_of opts).
  rewrite Hw. cbn [orb]. cbn [wr_logs wr_fullyCovered]. unfold should_skip.
  replace (Z.max 0 (countTotalLinesInDir chunks dir allow))
    with (countTotalLinesInDir chunks dir allow) by lia.
  destruct (Z.leb_spec (countTotalLinesInDir chunks dir allow) (threshold_of opts)); [|lia].
  cbn [orb]. eexists. split; [done|]. unfold skip_events. cbn [nonempty andb or_else app].
  destruct (0 <? countTotalLinesInDir chunks dir allow); cbn [app].
  - split_and!; [done| |by right; right; left].
    intros logs Hin. repeat (apply elem_of_cons in Hin as [Hin|Hin]; [done|]).
    by apply elem_of_nil in Hin.
  - split_and!; [done| |by right; left].
    intros logs Hin. repeat (apply elem_of_cons in Hin as [Hin|Hin]; [done|]).
    by apply elem_of_nil in Hin.
Qed.

Lemma memory_mode_without_warmup_witness :
  exists evs, @mergeDirectory no_engine json_codec (fun _ _ => 0) 0 2024 (fun b => Ok [b])
      (fun b => [b]) (js "/d") sample_dir never false (plain_options 100 false) = Finished evs /\
    batches evs = [] /\ (forall logs, EvWarmupBatch logs ∉ evs) /\
    EvFinalize ModeMemory 3 ∈ evs.
Proof.
  apply (@memory_mode_without_warmup no_engine json_codec (fun _ _ => 0) 0 2024 (fun b => Ok [b])
    (fun b => [b]) (js "/d") sample_dir never (plain_options 100 false) None []); try done.
Defined.
