(* ===== verification/ReverseMerge.v ===== *)
(** * The forward merge of raw files

    The path that [mergeDirectory] of src/core/logs/LogFileIntegration.ts takes
    when [reverse] is set: one [FileForwardCursor] per file and one heap with
    the next entry of each cursor, smallest time first.  Each pop pulls the next
    entry of the same cursor. *)

From stdpp Require Import base list sorting strings.
From Stdlib Require Import ZArith Lia.
From S2P Require Import Prelude JsString Regex MaxHeap TimeParser LineReaders LogEntry Json.
From S2P Require Import ParserEngine KWay LogFiles TypePipeline Warmup MergeDirectory.

(** Oldest first. *)
Definition asc_by {A} (key : A -> Z) (a b : A) : Prop := key a <= key b.

Section reverse.
Context `{RE : RegExpEngine}.
Context (localeCompare : str -> str -> Z) (now now_year : Z) (cp : option CompiledParser).
Abbreviation fc_next := (fc_next now now_year cp).
Abbreviation rev_cmp := (rev_cmp localeCompare).
Abbreviation rev_push := (rev_push localeCompare now now_year cp).
Abbreviation rev_loop := (rev_loop localeCompare now now_year).

(** All entries of a file in the order of its lines: a line without header gives
    none, and the time of the last entry with a time is passed on. *)
Fixpoint fc_entries (lines : list str) (path : str) (rank : Z) (parsed : bool) (seq : Z)
    (prevTs : option Z) : list LogEntry :=
  match lines with
  | [] => []
  | line :: rest =>
      let e := lineToEntryWithParser now now_year path line (if parsed then cp else None) prevTs
                 (Some rank) (Some seq) in
      if parsed && isParsedHeaderAllMissing (e_parsed e)
      then fc_entries rest path rank parsed (seq + 1) prevTs
      else
        let e' := restoreFullTextIfNeeded now_year e true in
        e' :: fc_entries rest path rank parsed (seq + 1)
                (if 0 <? e_ts e' then Some (e_ts e') else prevTs)
  end.

Definition fc_rem (c : FileForwardCursor) : list LogEntry :=
  fc_entries (fc_lines c) (fc_path c) (fc_rank c) (fc_useParser c) (fc_seq c) (fc_prevTs c).

#[local] Instance rev_cmp_refines : CmpRefines rev_cmp (fun i => - ri_ts i).
Proof.
  constructor; intros a b; unfold MergeDirectory.rev_cmp;
    destruct (Z.eqb_spec (ri_ts a) (ri_ts b)); cbn [negb]; lia.
Qed.

Lemma fc_next_spec lines c :
  fc_lines c = lines ->
  match fc_next lines c with
  | None => fc_rem c = []
  | Some (e, c') => fc_rem c = e :: fc_rem c'
  end.
Proof.
  revert c. induction lines as [|l ls IH]; intros c Hc; cbn [MergeDirectory.fc_next].
  - unfold fc_rem. by rewrite Hc.
  - destruct (_ && _) eqn:E.
    + specialize (IH (FCursor (fc_path c) (fc_rank c) ls (fc_useParser c) (fc_seq c + 1)
                        (fc_prevTs c)) eq_refl).
      unfold fc_rem at 1 3. rewrite Hc. cbn [fc_entries]. rewrite E. exact IH.
    + unfold fc_rem at 1. rewrite Hc. cbn [fc_entries]. rewrite E. done.
Qed.

(** What an item of the heap stands for. *)
Definition item_rem (i : RevHeapItem) : list LogEntry := ri_entry i :: fc_rem (ri_cursor i).

Definition item_ok (i : RevHeapItem) : Prop :=
  ri_ts i = e_ts (ri_entry i) /\ StronglySorted (asc_by e_ts) (item_rem i).

Lemma rev_push_perm heap c seq :
  rev_push heap c seq ≫= item_rem ≡ₚ fc_rem c ++ (heap ≫= item_rem).
Proof.
  unfold MergeDirectory.rev_push. assert (H := fc_next_spec _ c eq_refl).
  destruct (fc_next (fc_lines c) c) as [[e c']|]; [|by rewrite H].
  rewrite (bind_perm item_rem _ _ (heap_push_perm rev_cmp heap _)).
  cbn [mbind list_bind]. unfold item_rem at 1. cbn [ri_entry ri_cursor]. by rewrite H.
Qed.

Lemma rev_push_items heap c seq :
  Forall item_ok heap -> StronglySorted (asc_by e_ts) (fc_rem c) ->
  Forall item_ok (rev_push heap c seq).
Proof.
  intros Hh Hc. unfold MergeDirectory.rev_push. assert (H := fc_next_spec _ c eq_refl).
  destruct (fc_next (fc_lines c) c) as [[e c']|]; [|done].
  rewrite heap_push_perm. constructor; [|done]. split; [done|].
  unfold item_rem. cbn [ri_entry ri_cursor]. by rewrite <- H.
Qed.

Lemma rev_push_heap heap c seq :
  heap_ok (fun i => - ri_ts i) heap -> heap_ok (fun i => - ri_ts i) (rev_push heap c seq).
Proof.
  intros H. unfold MergeDirectory.rev_push. destruct (fc_next (fc_lines c) c) as [[e c']|]; [|done].
  by apply (heap_push_ok rev_cmp (fun i => - ri_ts i)).
Qed.

(** The loop puts out everything, whatever the order of the entries. *)
Lemma rev_loop_perm bs heap out n fuel :
  (length (heap ≫= item_rem) < fuel)%nat ->
  let '(out', _, evs) := rev_loop fuel (fun _ => false) n bs cp heap out in
  batches evs ++ out' ≡ₚ out ++ (heap ≫= item_rem).
Proof.
  revert heap out n. induction fuel as [|f IH]; intros heap out n Hf; [lia|].
  cbn [MergeDirectory.rev_loop]. destruct (heap_pop rev_cmp heap) as [[top heap1]|] eqn:E.
  2: { destruct heap as [|x h]; [by rewrite app_nil_r|].
       destruct (heap_pop_some rev_cmp (x :: h)) as (? & ? & ?); [done|congruence]. }
  apply heap_pop_perm in E. assert (Hb := bind_perm item_rem _ _ E). cbn [mbind list_bind] in Hb.
  assert (Hp := rev_push_perm heap1 (ri_cursor top) (ri_seq top + 1)).
  assert (Hl : length (rev_push heap1 (ri_cursor top) (ri_seq top + 1) ≫= item_rem) =
    (length (heap ≫= item_rem) - 1)%nat).
  { rewrite Hp, Hb. unfold item_rem at 2. simpl. rewrite !length_app. lia. }
  assert (Hpos : (0 < length (heap ≫= item_rem))%nat) by (rewrite Hb; simpl; lia).
  set (full := bs <=? zlen (out ++ [ri_entry top])).
  specialize (IH (rev_push heap1 (ri_cursor top) (ri_seq top + 1))
    (if full then [] else out ++ [ri_entry top]) (S n) ltac:(lia)).
  destruct (rev_loop f _ (S n) _ _ _ _) as [[out2 n2] evs].
  rewrite batches_app, <- app_assoc, IH, Hp, Hb. unfold item_rem at 2.
  rewrite app_assoc. cbn [app]. rewrite <- !app_assoc.
  destruct full; cbn [batches mbind list_bind batch_of app]; rewrite ?app_nil_r, <- ?app_assoc;
    done.
Qed.

(** With every file in order, so is the output. *)
Lemma rev_loop_sorted bs heap out n fuel :
  Forall item_ok heap -> heap_ok (fun i => - ri_ts i) heap ->
  (length (heap ≫= item_rem) < fuel)%nat ->
  let '(out', _, evs) := rev_loop fuel (fun _ => false) n bs cp heap out in
  exists rest, batches evs ++ out' = out ++ rest /\ StronglySorted (asc_by e_ts) rest.
Proof.
  revert heap out n. induction fuel as [|f IH]; intros heap out n Hi Hh Hf; [lia|].
  cbn [MergeDirectory.rev_loop]. destruct (heap_pop rev_cmp heap) as [[top heap1]|] eqn:E.
  2: { exists []. by rewrite app_nil_r; split; [|constructor]. }
  destruct (heap_pop_ok rev_cmp (fun i => - ri_ts i) heap top heap1 Hh E) as [Hh1 Hmin].
  apply heap_pop_perm in E. assert (Hb := bind_perm item_rem _ _ E). cbn [mbind list_bind] in Hb.
  rewrite E in Hi. apply Forall_cons in Hi as [[Hts Htop] Hi].
  set (heap2 := rev_push heap1 (ri_cursor top) (ri_seq top + 1)).
  assert (Hp := rev_push_perm heap1 (ri_cursor top) (ri_seq top + 1)). fold heap2 in Hp.
  assert (Hl : (length (heap2 ≫= item_rem) < f)%nat).
  { rewrite Hp. rewrite Hb in Hf. unfold item_rem at 1 in Hf. simpl in Hf.
    rewrite !length_app in *. lia. }
  set (full := bs <=? zlen (out ++ [ri_entry top])).
  apply StronglySorted_inv in Htop as [Hrest Hall].
  assert (Hi2 : Forall item_ok heap2) by (by apply rev_push_items).
  assert (Hh2 : heap_ok (fun i => - ri_ts i) heap2) by (by apply rev_push_heap).
  specialize (IH heap2 (if full then [] else out ++ [ri_entry top]) (S n) Hi2 Hh2 Hl).
  assert (HP := rev_loop_perm bs heap2 (if full then [] else out ++ [ri_entry top]) (S n) f Hl).
  destruct (rev_loop f _ (S n) _ _ _ _) as [[out2 n2] evs].
  destruct IH as (rest & Heq & Hs). exists (ri_entry top :: rest). split.
  - rewrite batches_app, <- app_assoc, Heq.
    destruct full; cbn [batches mbind list_bind batch_of app]; rewrite ?app_nil_r, <- ?app_assoc;
      done.
  - constructor; [done|]. rewrite Heq in HP. apply Permutation_app_inv_l in HP.
    rewrite HP, Hp. apply Forall_app. split; [done|].
    clear -Hi Hmin Hts. induction Hi as [|i h [Hti Hsi] _ IH]; cbn [mbind list_bind]; [constructor|].
    apply Forall_cons in Hmin as [Hm Hmin]. apply Forall_app. split; [|by apply IH].
    apply StronglySorted_inv in Hsi as [_ Hsi]. unfold item_rem.
    constructor; unfold asc_by in *; [lia|].
    eapply Forall_impl; [exact Hsi|]. simpl. intros; lia.
Qed.

Lemma rev_init cursors heap :
  foldl (fun h c => rev_push h c 0) heap cursors ≫= item_rem ≡ₚ
  (heap ≫= item_rem) ++ (cursors ≫= fc_rem).
Proof.
  revert heap. induction cursors as [|c cs IH]; intros heap; cbn [foldl mbind list_bind].
  - by rewrite app_nil_r.
  - rewrite IH, rev_push_perm. rewrite <- app_assoc, (Permutation_app_comm (fc_rem c)), <- app_assoc.
    apply Permutation_app_head, Permutation_app_comm.
Qed.

Lemma rev_init_ok cursors heap :
  Forall item_ok heap -> heap_ok (fun i => - ri_ts i) heap ->
  Forall (fun c => StronglySorted (asc_by e_ts) (fc_rem c)) cursors ->
  let h := foldl (fun h c => rev_push h c 0) heap cursors in
  Forall item_ok h /\ heap_ok (fun i => - ri_ts i) h.
Proof.
  revert heap. induction cursors as [|c cs IH]; intros heap Hi Hh Hc; cbn [foldl]; [done|].
  apply Forall_cons in Hc as [Hc Hcs]. apply IH; [by apply rev_push_items|by apply rev_push_heap|done].
Qed.

Lemma fc_entries_length lines path rank parsed seq prevTs :
  (length (fc_entries lines path rank parsed seq prevTs) <= length lines)%nat.
Proof.
  revert seq prevTs. induction lines as [|l ls IH]; intros seq prevTs; cbn [fc_entries]; [done|].
  case_match; simpl; [specialize (IH (seq + 1) prevTs); lia|]. by apply le_n_S.
Qed.

Lemma rems_length cursors : (length (cursors ≫= fc_rem) <= length (cursors ≫= fc_lines))%nat.
Proof.
  induction cursors as [|c cs IH]; cbn [mbind list_bind]; [done|]. rewrite !length_app.
  assert (H := fc_entries_length (fc_lines c) (fc_path c) (fc_rank c) (fc_useParser c) (fc_seq c)
    (fc_prevTs c)). fold (fc_rem c) in H. lia.
Qed.
End reverse.

(** ** The files in the order of the cursors *)

Lemma reverse_order_perm files : reverse_order files ≡ₚ files.
Proof.
  destruct (groupByType_ok files) as (Hk & _ & _ & Hf). rewrite <- Hf at 2.
  unfold reverse_order. rewrite (bind_perm _ _ _ (array_sort_perm name_cmp _)).
  clear Hf. set (g := groupByType files) in *. clearbody g.
  assert (H : forall g', (forall p, p ∈ g' -> p ∈ g) ->
    (map fst g' ≫= fun k => match list_find (fun p => fst p = k) g with
      | Some (_, (_, fs)) => array_sort compareLogOrderAsc fs | None => [] end) ≡ₚ g' ≫= snd).
  { induction g' as [|[k fs] g' IH]; intros Hin; cbn [map mbind list_bind]; [done|].
    rewrite IH by (intros p Hp; apply Hin; by right). apply Permutation_app_tail.
    assert (Hg : (k, fs) ∈ g) by (apply Hin; by left). clear -Hk Hg.
    destruct (list_find (fun p : str * list str => fst p = fst (k, fs)) g) as [[i [k' fs']]|] eqn:E.
    - apply list_find_Some in E as (Hl & Hkk & _). cbn [fst snd] in *. subst k'.
      apply list_elem_of_lookup in Hg as [j Hj].
      assert (i = j) as ->.
      { apply (NoDup_lookup (map fst g) i j k Hk); change (map fst g) with (fst <$> g);
          rewrite list_lookup_fmap; [by rewrite Hl|by rewrite Hj]. }
      rewrite Hj in Hl. simplify_eq. apply array_sort_perm.
    - apply list_find_None in E. rewrite Forall_forall in E. by destruct (E _ Hg). }
  apply H. done.
Qed.

Section texts.
Context `{RE : RegExpEngine}.
Context (now now_year : Z) (stream : list Z -> js_result (list str)) (dirPath : str) (dir : directory).

Lemma fc_entries_plain lines path rank seq prevTs :
  map e_text (fc_entries now now_year None lines path rank false seq prevTs) = lines.
Proof.
  revert seq prevTs. induction lines as [|l ls IH]; intros seq prevTs; cbn [fc_entries andb map]; [done|].
  by rewrite IH.
Qed.

Lemma fc_create_all_texts rank names :
  map e_text (fc_create_all stream dirPath dir None rank names ≫= fc_rem now now_year None) =
  names ≫= fun f => forward_lines (strip_bom (utf8_decode (file_bytes dir f))).
Proof.
  revert rank. induction names as [|n ns IH]; intros rank; cbn [fc_create_all mbind list_bind map]; [done|].
  rewrite map_app, IH. f_equal. apply fc_entries_plain.
Qed.
End texts.

Lemma merge_reverse_spec `{RE : RegExpEngine} localeCompare now now_year stream dirPath dir
    cp bs files :
  let cursors := fc_create_all stream dirPath dir cp 0 (reverse_order files) in
  let out := batches (merge_reverse localeCompare now now_year stream dirPath dir never cp bs files) in
  out ≡ₚ cursors ≫= fc_rem now now_year cp /\
  (Forall (fun c => StronglySorted (asc_by e_ts) (fc_rem now now_year cp c)) cursors ->
   StronglySorted (asc_by e_ts) out).
Proof.
  cbv zeta. unfold merge_reverse.
  set (cs := fc_create_all stream dirPath dir cp 0 (reverse_order files)).
  set (h := foldl _ [] cs).
  assert (Hp : h ≫= item_rem now now_year cp ≡ₚ cs ≫= fc_rem now now_year cp)
    by apply (rev_init localeCompare now now_year cp cs []).
  assert (Hl : (length (h ≫= item_rem now now_year cp) < rev_fuel cs)%nat).
  { rewrite Hp. assert (H := rems_length now now_year cp cs). unfold rev_fuel. lia. }
  assert (HP := rev_loop_perm localeCompare now now_year cp bs h [] 0 _ Hl).
  assert (HS := rev_loop_sorted localeCompare now now_year cp bs h [] 0 (rev_fuel cs)).
  change (sig_kway never) with (fun _ : nat => false) in *.
  destruct (rev_loop _ _ _ (rev_fuel cs) _ 0 bs cp h []) as [[out n] evs].
  assert (Hout : batches (evs ++ (if negb false && nonempty out then [EvBatch out] else [])) =
    batches evs ++ out).
  { rewrite batches_app. destruct out; cbn; by rewrite ?app_nil_r. }
  rewrite Hout. split; [by rewrite HP|]. intros Hs.
  destruct (rev_init_ok localeCompare now now_year cp cs [] ltac:(constructor) (heap_ok_nil _) Hs)
    as [Hi Hh].
  destruct (HS Hi Hh Hl) as (rest & Heq & Hr). by rewrite Heq.
Qed.


Definition reverse_options : MergeOptions :=
  Options true None false None (Some 1) [] None true true.

