(* ===== verification/Manifest.v ===== *)
(** * The manifest of a merged log

    src/core/logs/ManifestTypes.ts and src/core/logs/ManifestWriter.ts: the list of
    the part files with the range of lines each holds, kept sorted by the first
    line, saved as an indented JSON file and checked when it is read again.

    Numbers are integers.  A listed chunk has its three fields, as [addChunk]
    writes them; the model reads a list with other elements without them. *)

From stdpp Require Import base list sorting strings.
From Stdlib Require Import ZArith Lia.
From S2P Require Import Prelude JsString Regex TimeParser Json.

Record LogChunkMeta := Chunk { c_file : str; c_lines : Z; c_start : Z }.

Record LogManifest := Manifest {
  m_createdAt : str;
  m_totalLines : option Z;
  m_mergedLines : Z;
  m_chunkCount : Z;
  m_chunks : list LogChunkMeta;
}.

(** ** The text: [JSON.stringify(v, null, 2)] *)

Definition nl (ind : nat) : str := 10 :: replicate ind 32.

Fixpoint print_pretty (ind : nat) (v : json) : str :=
  match v with
  | JArr ((_ :: _) as l) =>
      91 :: (fix go (first : bool) (l : list json) : str :=
               match l with
               | [] => nl ind ++ [93]
               | x :: l' =>
                   (if first then [] else [44]) ++ nl (2 + ind) ++ print_pretty (2 + ind) x
                     ++ go false l'
               end) true l
  | JObj ((_ :: _) as l) =>
      123 :: (fix go (first : bool) (l : list (str * json)) : str :=
                match l with
                | [] => nl ind ++ [125]
                | (k, x) :: l' =>
                    (if first then [] else [44]) ++ nl (2 + ind) ++ quote k ++
                      58 :: 32 :: print_pretty (2 + ind) x ++ go false l'
                end) true l
  | _ => print_json v
  end.

(** The rest of an array or an object after its bracket. *)
Definition pretty_items (ind : nat) : bool -> list json -> str :=
  fix go (first : bool) (l : list json) : str :=
    match l with
    | [] => nl ind ++ [93]
    | x :: l' =>
        (if first then [] else [44]) ++ nl (2 + ind) ++ print_pretty (2 + ind) x ++ go false l'
    end.

Definition pretty_members (ind : nat) : bool -> list (str * json) -> str :=
  fix go (first : bool) (l : list (str * json)) : str :=
    match l with
    | [] => nl ind ++ [125]
    | (k, x) :: l' =>
        (if first then [] else [44]) ++ nl (2 + ind) ++ quote k ++
          58 :: 32 :: print_pretty (2 + ind) x ++ go false l'
    end.

Definition chunk_to_json (c : LogChunkMeta) : json :=
  JObj [(js "file", JStr (c_file c)); (js "lines", JNum (c_lines c)); (js "start", JNum (c_start c))].

(** The fields in the order of the constructor; [totalLines] is set later. *)
Definition manifest_to_json (m : LogManifest) : json :=
  JObj ([(js "version", JNum 1); (js "createdAt", JStr (m_createdAt m));
         (js "mergedLines", JNum (m_mergedLines m)); (js "chunkCount", JNum (m_chunkCount m));
         (js "chunks", JArr (map chunk_to_json (m_chunks m)))]
        ++ opt_field "totalLines" JNum (m_totalLines m)).

Definition manifest_text (m : LogManifest) : str := print_pretty 0 (manifest_to_json m).

(** ** Reading *)

Definition is_num (o : option json) : bool := match o with Some (JNum _) => true | _ => false end.
Definition is_str (o : option json) : bool := match o with Some (JStr _) => true | _ => false end.
Definition is_arr (o : option json) : bool := match o with Some (JArr _) => true | _ => false end.

Definition isLogManifest (x : json) : bool :=
  match x with
  | JObj l =>
      match jget (js "version") l with Some (JNum v) => v =? 1 | _ => false end &&
      is_str (jget (js "createdAt") l) && is_num (jget (js "mergedLines") l) &&
      is_num (jget (js "chunkCount") l) && is_arr (jget (js "chunks") l)
  | _ => false
  end.

Definition chunk_of_json (v : json) : option LogChunkMeta :=
  match v with
  | JObj l =>
      match get_str "file" l, get_num "lines" l, get_num "start" l with
      | Some f, Some n, Some s => Some (Chunk f n s)
      | _, _, _ => None
      end
  | _ => None
  end.

(** The value a checked manifest stands for. *)
Definition manifest_of_json (x : json) : LogManifest :=
  match x with
  | JObj l =>
      Manifest (or_else (get_str "createdAt" l) []) (get_num "totalLines" l)
        (or_else (get_num "mergedLines" l) 0) (or_else (get_num "chunkCount" l) 0)
        (match jget (js "chunks") l with Some (JArr a) => omap chunk_of_json a | _ => [] end)
  | _ => Manifest [] None 0 0 []
  end.

(** [chunks.sort((a, b) => a.start - b.start)] *)
Definition start_cmp (a b : LogChunkMeta) : Z := c_start a - c_start b.

(** The end of the last chunk. *)
Definition chunks_end (l : list LogChunkMeta) : Z :=
  match last l with Some c => c_start c + c_lines c | None => 0 end.

(** ** ManifestWriter *)

Definition manifest_new (createdAt : str) : LogManifest := Manifest createdAt None 0 0 [].

Definition chunk_valid (c : LogChunkMeta) : bool :=
  nonempty (trim (c_file c)) && (0 <? c_lines c).

(** What [loadOrCreate] makes of a manifest it finds. *)
Definition reconcile (m : LogManifest) : LogManifest :=
  let chunks := array_sort start_cmp (filter (fun c => chunk_valid c = true) (m_chunks m)) in
  let merged := chunks_end chunks in
  Manifest (m_createdAt m)
    (match m_totalLines m with Some t => Some (if t <? merged then merged else t) | None => None end)
    merged (zlen chunks) chunks.

(** [loadOrCreate(outDir)]: [file] is the text of [manifest.json] if it can be
    read, [now] the time of creation. *)
Definition loadOrCreate (now : str) (file : option str) : LogManifest :=
  match file ≫= JSON_parse with
  | Some j => if isLogManifest j then reconcile (manifest_of_json j) else manifest_new now
  | None => manifest_new now
  end.

Definition setTotal (m : LogManifest) (total : option Z) : LogManifest :=
  match total with
  | Some t => Manifest (m_createdAt m) (Some t) (m_mergedLines m) (m_chunkCount m) (m_chunks m)
  | None => m
  end.

Definition addChunk (m : LogManifest) (file : str) (lines start : Z) : LogManifest :=
  if negb (nonempty file) || negb (nonempty (trim file)) || negb (0 <? lines) then m
  else
    let start := if 0 <=? start then start else 0 in
    let chunks := array_sort start_cmp (m_chunks m ++ [Chunk file lines start]) in
    Manifest (m_createdAt m) (m_totalLines m) (chunks_end chunks) (zlen chunks) chunks.

(** [/part-(\d+)\.ndjson$/i] *)
Definition PART_RX : re := sq [lit_i (js "part-"); Grp 1 (plus d); chr 46; lit_i (js "ndjson"); Eol].

Definition part_number (r : re) (file : str) : option Z :=
  match exec r file with Some m => cap m 1 ≫= parse_int | None => None end.

Definition nextPartIndexFrom (m : LogManifest) : Z :=
  foldl Z.max 0 (map (fun c => or_else (part_number PART_RX (c_file c)) 0) (m_chunks m)).

(** ** Indented JSON parses back *)

Lemma pretty_arr ind x l : print_pretty ind (JArr (x :: l)) = 91 :: pretty_items ind true (x :: l).
Proof. done. Qed.

Lemma pretty_obj ind p l :
  print_pretty ind (JObj (p :: l)) = 123 :: pretty_members ind true (p :: l).
Proof. done. Qed.

Lemma skip_ws_nl n s : skip_ws (nl n ++ s) = skip_ws s.
Proof. unfold nl, skip_ws. simpl. induction n; simpl; [done|exact IHn]. Qed.

Lemma pretty_items_cons ind b x l :
  pretty_items ind b (x :: l) =
  (if b then [] else [44]) ++ nl (2 + ind) ++ print_pretty (2 + ind) x ++ pretty_items ind false l.
Proof. done. Qed.

Lemma pretty_members_cons ind b k x l :
  pretty_members ind b ((k, x) :: l) =
  (if b then [] else [44]) ++ nl (2 + ind) ++ quote k ++
    58 :: 32 :: print_pretty (2 + ind) x ++ pretty_members ind false l.
Proof. done. Qed.

Lemma skip_ws_space s : skip_ws (32 :: s) = skip_ws s.
Proof. done. Qed.

Lemma parse_value_ws fuel s t : skip_ws s = skip_ws t -> parse_value fuel s = parse_value fuel t.
Proof. intros H. destruct fuel as [|f]; [done|]. cbn [parse_value]. by rewrite H. Qed.

Lemma print_pretty_head ind v :
  exists c t, print_pretty ind v = c :: t /\ json_ws c = false /\ c <> 93 /\ c <> 125.
Proof.
  destruct (print_json_head v) as (c & t & E & Hw & H1 & H2).
  destruct v as [|b|n|s|[|x l]|[|p l]]; try (cbn [print_pretty]; by exists c, t);
    do 2 eexists; (split; [reflexivity|done]).
Qed.

Lemma skip_ws_pretty ind v rest : skip_ws (print_pretty ind v ++ rest) = print_pretty ind v ++ rest.
Proof. destruct (print_pretty_head ind v) as (c & t & -> & Hw & _). by apply skip_ws_head. Qed.

Definition reads_pretty (v : json) : Prop := forall ind fuel rest,
  (jsize v < fuel)%nat -> num_end rest ->
  parse_value fuel (print_pretty ind v ++ rest) = Some (v, rest).

Lemma nl_num_end n rest : num_end (nl n ++ rest).
Proof. done. Qed.

Lemma skip_ws_close n c rest : json_ws c = false -> skip_ws ((nl n ++ [c]) ++ rest) = c :: rest.
Proof. intros H. rewrite <- app_assoc, skip_ws_nl. by apply skip_ws_head. Qed.

Lemma parse_items_pretty l ind acc fuel rest :
  Forall reads_pretty l -> l <> [] -> (items_size l < fuel)%nat ->
  parse_items fuel acc (pretty_items ind true l ++ rest) = Some (JArr (acc ++ l), rest).
Proof.
  intros Hl. revert acc fuel. induction Hl as [|x l Hx Hl IH]; intros acc fuel Hne Hf; [done|].
  destruct fuel as [|f]; [lia|]. cbn [items_size] in Hf.
  cbn [parse_items]. rewrite pretty_items_cons, app_nil_l, <- !app_assoc.
  rewrite (parse_value_ws f _ _ (skip_ws_nl _ _)).
  rewrite Hx; [|lia|by destruct l]. destruct l as [|y l].
  - change (pretty_items ind false []) with (nl ind ++ [93]). by rewrite skip_ws_close.
  - change (pretty_items ind false (y :: l) ++ rest)
      with (44 :: pretty_items ind true (y :: l) ++ rest).
    rewrite skip_ws_head by done. change (44 =? 44) with true. cbv iota.
    rewrite IH by (done || lia). by rewrite <- app_assoc.
Qed.

Lemma parse_members_pretty l ind acc fuel rest :
  Forall (fun p => reads_pretty (snd p)) l -> l <> [] -> (members_size l < fuel)%nat ->
  parse_members fuel acc (pretty_members ind true l ++ rest) = Some (JObj (acc ++ l), rest).
Proof.
  intros Hl. revert acc fuel. induction Hl as [|[k x] l Hx Hl IH]; intros acc fuel Hne Hf; [done|].
  destruct fuel as [|f]; [lia|]. cbn [members_size snd] in *.
  cbn [parse_members]. rewrite pretty_members_cons, app_nil_l, <- app_assoc, skip_ws_nl.
  unfold quote. cbn [app].
  rewrite skip_ws_head by done. change (34 =? 34) with true. cbv iota.
  rewrite <- !app_assoc. cbn [app]. rewrite parse_units_escape.
  rewrite skip_ws_head by done. change (58 =? 58) with true. cbv iota.
  rewrite (parse_value_ws f (32 :: _) _ (skip_ws_space _)).
  rewrite <- app_assoc, Hx; [|lia|by destruct l as [|[]]]. destruct l as [|[k' y] l].
  - change (pretty_members ind false []) with (nl ind ++ [125]). by rewrite skip_ws_close.
  - change (pretty_members ind false ((k', y) :: l) ++ rest)
      with (44 :: pretty_members ind true ((k', y) :: l) ++ rest).
    rewrite skip_ws_head by done. change (44 =? 44) with true. cbv iota.
    rewrite IH by (done || lia). by rewrite <- app_assoc.
Qed.

Lemma parse_pretty v : reads_pretty v.
Proof.
  induction v as [|b|n|s|l IH|l IH] using json_nested_ind; intros ind fuel rest Hf Hr;
    try (apply parse_print; done).
  - destruct l as [|x l]; [by apply parse_print|]. destruct fuel as [|f]; [lia|].
    rewrite jsize_arr in Hf. rewrite pretty_arr. cbn [parse_value app].
    rewrite skip_ws_head by done. change (91 =? 34) with false. change (91 =? 91) with true.
    cbv iota.
    assert (Hi := parse_items_pretty (x :: l) ind [] f rest IH ltac:(done) ltac:(lia)).
    rewrite pretty_items_cons, app_nil_l, <- !app_assoc in *. rewrite skip_ws_nl, skip_ws_pretty.
    destruct (print_pretty_head (2 + ind) x) as (c & t & E & _ & Hc & _). rewrite E in *.
    cbn [app] in *. destruct (Z.eqb_spec c 93); [done|]. exact Hi.
  - destruct l as [|[k x] l]; [by apply parse_print|]. destruct fuel as [|f]; [lia|].
    rewrite jsize_obj in Hf. rewrite pretty_obj. cbn [parse_value app].
    rewrite skip_ws_head by done. change (123 =? 34) with false. change (123 =? 91) with false.
    change (123 =? 123) with true. cbv iota.
    assert (Hm := parse_members_pretty ((k, x) :: l) ind [] f rest IH ltac:(done) ltac:(lia)).
    rewrite pretty_members_cons, app_nil_l, <- !app_assoc in *. rewrite skip_ws_nl.
    unfold quote in *. cbn [app] in *. rewrite skip_ws_head by done. exact Hm.
Qed.

Lemma pretty_length ind v : (length (print_json v) <= length (print_pretty ind v))%nat.
Proof.
  revert ind. induction v as [|b|n|s|l IH|l IH] using json_nested_ind; intros ind; try done.
  - destruct l as [|x0 l0]; [done|]. rewrite pretty_arr, print_arr. cbn [length]. apply le_n_S.
    generalize true. induction IH as [|x l Hx _ IHl]; intros b.
    + change (pretty_items ind b []) with (nl ind ++ [93]). simpl. rewrite length_app. simpl. lia.
    + rewrite pretty_items_cons. cbn [print_items]. rewrite !length_app.
      specialize (Hx (2 + ind)%nat). specialize (IHl false). lia.
  - destruct l as [|x0 l0]; [done|]. rewrite pretty_obj, print_obj. cbn [length]. apply le_n_S.
    generalize true. induction IH as [|[k x] l Hx _ IHl]; intros b.
    + change (pretty_members ind b []) with (nl ind ++ [125]). simpl. rewrite length_app. simpl. lia.
    + rewrite pretty_members_cons. cbn [print_members]. rewrite !length_app. cbn [length].
      rewrite !length_app. specialize (Hx (2 + ind)%nat). cbn [snd] in Hx. specialize (IHl false). lia.
Qed.

Lemma JSON_parse_pretty v : JSON_parse (print_pretty 0 v) = Some v.
Proof.
  unfold JSON_parse. assert (H1 := print_json_size v). assert (H2 := pretty_length 0%nat v).
  assert (Hp := parse_pretty v 0%nat (S (2 * length (print_pretty 0 v))) [] ltac:(lia) I).
  rewrite app_nil_r in Hp. by rewrite Hp.
Qed.

(** ** The invariant *)

(** The chunks tile the lines from [from] on without gap or overlap. *)
Fixpoint tiles (from : Z) (l : list LogChunkMeta) : Prop :=
  match l with
  | [] => True
  | c :: l' => c_start c = from /\ chunk_valid c = true /\ tiles (from + c_lines c) l'
  end.

Record manifest_ok (m : LogManifest) : Prop := {
  mo_valid : Forall (fun c => chunk_valid c = true /\ 0 <= c_start c) (m_chunks m);
  mo_sorted : StronglySorted (fun a b => start_cmp a b <= 0) (m_chunks m);
  mo_count : m_chunkCount m = zlen (m_chunks m);
  mo_merged : m_mergedLines m = chunks_end (m_chunks m);
}.

Definition lines_of (l : list LogChunkMeta) : Z := foldr (fun c n => c_lines c + n) 0 l.

#[export] Instance start_cmp_trans : Transitive (fun a b => start_cmp a b <= 0).
Proof. intros a b c; unfold start_cmp; lia. Qed.

Lemma start_sorted l : StronglySorted (fun a b => start_cmp a b <= 0) (array_sort start_cmp l).
Proof. apply array_sort_sorted; [done|unfold start_cmp; lia|apply _]. Qed.

Lemma manifest_of_to m : manifest_of_json (manifest_to_json m) = m.
Proof.
  assert (H : forall l, omap chunk_of_json (map chunk_to_json l) = l).
  { induction l as [|[f n s] l IH]; [done|]. cbn [map]. change (omap chunk_of_json
      (chunk_to_json (Chunk f n s) :: map chunk_to_json l)) with
      (Chunk f n s :: omap chunk_of_json (map chunk_to_json l)). by rewrite IH. }
  destruct m as [at_ [t|] mg ct cs].
  - change (manifest_of_json _) with
      (Manifest at_ (Some t) mg ct (omap chunk_of_json (map chunk_to_json cs))). by rewrite H.
  - change (manifest_of_json _) with
      (Manifest at_ None mg ct (omap chunk_of_json (map chunk_to_json cs))). by rewrite H.
Qed.

Lemma isLogManifest_to m : isLogManifest (manifest_to_json m) = true.
Proof. by destruct m as [at_ [t|] mg ct cs]. Qed.

Lemma load_saved now m : loadOrCreate now (Some (manifest_text m)) = reconcile m.
Proof.
  unfold loadOrCreate, manifest_text. cbn [mbind option_bind].
  by rewrite JSON_parse_pretty, isLogManifest_to, manifest_of_to.
Qed.

Lemma reconcile_id m :
  manifest_ok m -> match m_totalLines m with Some t => m_mergedLines m <= t | None => True end ->
  reconcile m = m.
Proof.
  intros [Hv Hs Hc Hm] Ht. destruct m as [at_ tot mg ct cs]. unfold reconcile. simpl in *.
  rewrite filter_all by (eapply Forall_impl; [exact Hv|]; by intros c [? _]).
  rewrite array_sort_id by done. rewrite <- Hm, <- Hc. f_equal.
  destruct tot as [t|]; [|done]. by destruct (Z.ltb_spec t mg); [lia|].
Qed.

(** a manifest survives its file: what [save] writes, [loadOrCreate] reads back
    unchanged, whatever the names of the parts, as long as the manifest is in the
    state its writer keeps it in and the total is no less than the stored lines. *)
Theorem manifest_save_load now m :
  manifest_ok m -> match m_totalLines m with Some t => m_mergedLines m <= t | None => True end ->
  loadOrCreate now (Some (manifest_text m)) = m.
Proof. intros. rewrite load_saved. by apply reconcile_id. Qed.

Lemma manifest_save_load_witness :
  let m := addChunk (setTotal (manifest_new (js "now")) (Some 10)) (js "part-000001.ndjson") 7 0 in
  loadOrCreate (js "later") (Some (manifest_text m)) = m.
Proof.
  apply manifest_save_load; [|vm_compute; discriminate].
  split; try reflexivity; repeat constructor; try reflexivity; vm_compute; discriminate.
Defined.

(** adding a chunk keeps the manifest valid, sorted and counted, wherever the
    chunk starts; a chunk without a name or without lines changes nothing. *)
Theorem addChunk_keeps_ok m file lines start :
  manifest_ok m -> manifest_ok (addChunk m file lines start).
Proof.
  intros H. unfold addChunk. destruct (_ || _) eqn:E; [done|].
  apply orb_false_elim in E as [E E3]. apply orb_false_elim in E as [_ E2].
  split; cbn [m_chunks m_chunkCount m_mergedLines]; try done; [|apply start_sorted].
  rewrite array_sort_perm. apply Forall_app. split; [apply H|]. repeat constructor.
  - unfold chunk_valid. cbn [c_file c_lines]. destruct (nonempty (trim file)), (0 <? lines); done.
  - cbn [c_start]. destruct (Z.leb_spec 0 start); lia.
Qed.

Lemma addChunk_keeps_ok_witness :
  manifest_ok (addChunk (manifest_new (js "now")) (js "part-000001.ndjson") 7 (-3)).
Proof.
  apply addChunk_keeps_ok. split; try reflexivity; constructor.
Defined.

(** ** Chunks appended at the end *)

Lemma lines_of_app l1 l2 : lines_of (l1 ++ l2) = lines_of l1 + lines_of l2.
Proof. induction l1 as [|c l IH]; [done|]. cbn [app lines_of foldr] in *. unfold lines_of in *. lia. Qed.

Lemma tiles_app from l1 l2 : tiles from (l1 ++ l2) <-> tiles from l1 /\ tiles (from + lines_of l1) l2.
Proof.
  revert from. induction l1 as [|c l IH]; intros from; cbn [tiles lines_of app foldr].
  - rewrite Z.add_0_r. tauto.
  - rewrite IH. fold (lines_of l). rewrite Z.add_assoc. tauto.
Qed.

Lemma valid_lines c : chunk_valid c = true -> 0 < c_lines c.
Proof. unfold chunk_valid. intros [_ ?%Z.ltb_lt]%andb_prop. done. Qed.

Lemma tiles_nonneg from l : tiles from l -> 0 <= lines_of l.
Proof.
  revert from. induction l as [|c l IH]; intros from; cbn [tiles]; [done|].
  intros (_ & V & T). apply valid_lines in V. apply IH in T. unfold lines_of in *. simpl. lia.
Qed.

Lemma tiles_starts from l : tiles from l -> Forall (fun c => from <= c_start c) l.
Proof.
  revert from. induction l as [|c l IH]; intros from; cbn [tiles]; [constructor|].
  intros (E & V & T). apply valid_lines in V. constructor; [lia|].
  eapply Forall_impl; [exact (IH _ T)|]. simpl. lia.
Qed.

Lemma tiles_sorted from l : tiles from l -> StronglySorted (fun a b => start_cmp a b <= 0) l.
Proof.
  revert from. induction l as [|c l IH]; intros from; cbn [tiles]; [constructor|].
  intros (E & V & T). apply valid_lines in V. constructor; [by eapply IH|].
  eapply Forall_impl; [exact (tiles_starts _ _ T)|]. unfold start_cmp. simpl. lia.
Qed.

Lemma tiles_end from l : tiles from l -> l <> [] -> chunks_end l = from + lines_of l.
Proof.
  revert from. induction l as [|c l IH]; intros from T Hne; [done|]. destruct T as (E & V & T).
  destruct l as [|c' l].
  - unfold chunks_end. cbn [last lines_of foldr]. lia.
  - specialize (IH _ T ltac:(done)). unfold chunks_end in *. cbn [last lines_of foldr] in *. lia.
Qed.

Definition tiled (m : LogManifest) : Prop :=
  tiles 0 (m_chunks m) /\ m_chunkCount m = zlen (m_chunks m) /\
  m_mergedLines m = lines_of (m_chunks m).

Lemma addChunk_end m file lines :
  tiled m -> chunk_valid (Chunk file lines 0) = true ->
  addChunk m file lines (m_mergedLines m) =
    Manifest (m_createdAt m) (m_totalLines m) (m_mergedLines m + lines) (m_chunkCount m + 1)
      (m_chunks m ++ [Chunk file lines (m_mergedLines m)]) /\
  tiled (addChunk m file lines (m_mergedLines m)).
Proof.
  intros (T & C & M) V. assert (H0 := tiles_nonneg _ _ T). rewrite <- M in H0.
  set (c := Chunk file lines (m_mergedLines m)).
  assert (T' : tiles 0 (m_chunks m ++ [c])).
  { apply tiles_app. split; [done|]. cbn [tiles]. split; [by rewrite <- M|]. done. }
  assert (Eq : addChunk m file lines (m_mergedLines m) =
    Manifest (m_createdAt m) (m_totalLines m) (m_mergedLines m + lines) (m_chunkCount m + 1)
      (m_chunks m ++ [c])).
  { unfold addChunk. unfold chunk_valid in V. cbn [c_file c_lines] in V.
    apply andb_prop in V as [V1 V2]. rewrite V1, V2.
    destruct file as [|f0 file]; [done|]. cbn [nonempty negb orb].
    destruct (Z.leb_spec 0 (m_mergedLines m)); [|lia]. fold c.
    rewrite (array_sort_id _ _ (tiles_sorted _ _ T')).
    rewrite (tiles_end 0) by (done || by destruct (m_chunks m)).
    rewrite zlen_app, C, lines_of_app, <- M. f_equal; unfold lines_of, zlen; simpl; lia. }
  split; [exact Eq|]. rewrite Eq. split_and!; cbn [m_chunks m_chunkCount m_mergedLines]; [done| |].
  - rewrite zlen_app, C. done.
  - rewrite lines_of_app, <- M. unfold lines_of. simpl. lia.
Qed.
