(* ===== verification/ChunkWriter.v ===== *)
(** * The part files of a merged log

    src/core/logs/ChunkWriter.ts.  Entries are collected in a buffer; when the
    buffer has [chunkMaxLines] entries it goes to the next part file, written
    under a temporary name and renamed, with further numbers tried when the
    rename fails.  The number starts after the largest part in the directory.

    The directory is a map from names to texts; the temporary files are not kept,
    since no reader looks at them.  What the file system answers is the future
    part of the [world]: the outcomes of the coming renames and of the coming
    writes, success when the list is used up. *)

From stdpp Require Import base list sorting strings gmap.
From Stdlib Require Import ZArith Lia.
From S2P Require Import Prelude JsString Regex TimeParser LogEntry Json KWay LogFiles Manifest.

Inductive rename_code := RnOk | EEXIST | ENOENT | EPERM | EBUSY | EOther.

Record world := World {
  w_files : gmap str str;
  w_renames : list rename_code;
  w_writes : list bool;
}.

Record ChunkWriteResult := CResult { cr_file : str; cr_lines : Z }.

Record ChunkWriter := CW {
  currentIndex : Z;
  currentBuffer : list LogEntry;
  writtenThisChunk : Z;
  fsIndexInitialized : bool;
}.

Definition new_ChunkWriter (startIndex : Z) : ChunkWriter := CW startIndex [] 0 false.

Definition MAX_ATTEMPTS : nat := Z.to_nat 10000.

(** [`part-${String(n).padStart(6, '0')}.ndjson`] *)
Definition part_name (n : Z) : str := js "part-" ++ pad_start 6 48 (print_nat n) ++ js ".ndjson".

(** [/^part-(\d{6})\.ndjson$/i] *)
Definition PART6_RX : re :=
  sq [Bol; lit_i (js "part-"); Grp 1 (times 6 d); chr 46; lit_i (js "ndjson"); Eol].

(** The next answers of the file system *)
Definition next_rename (w : world) : rename_code * world :=
  match w_renames w with
  | [] => (RnOk, w)
  | r :: rs => (r, World (w_files w) rs (w_writes w))
  end.

Definition next_write (w : world) : bool * world :=
  match w_writes w with
  | [] => (true, w)
  | b :: bs => (b, World (w_files w) (w_renames w) bs)
  end.

Definition put_file (name text : str) (w : world) : world :=
  World (<[name := text]> (w_files w)) (w_renames w) (w_writes w).

(** Step 1 of a flush: the largest number of a part in the directory. *)
Definition recover_index (cw : ChunkWriter) (w : world) : Z :=
  if fsIndexInitialized cw then currentIndex cw
  else foldl (fun maxIdx nm => match part_number PART6_RX nm with
                               | Some n => Z.max maxIdx n | None => maxIdx end)
         (currentIndex cw) (map fst (map_to_list (w_files w))).

(** Step 3: rename until a name is taken.  Gives the index reached. *)
Fixpoint alloc_part (attempts : nat) (index : Z) (text : str) (w : world)
  : world * Z * js_result str :=
  match attempts with
  | O => (w, index, Throws)
  | S a =>
      let partName := part_name (index + 1) in
      let '(code, w1) := next_rename w in
      match code with
      | RnOk => (put_file partName text w1, index, Ok partName)
      | EEXIST | EPERM | EBUSY => alloc_part a (index + 1) text w1
      | ENOENT =>
          let '(ok, w2) := next_write w1 in
          if ok then alloc_part a index text w2 else (w2, index, Throws)
      | EOther => (w1, index, Throws)
      end
  end.

Section writer.
Context {J : JsonCodec}.
Context (chunkMaxLines : Z).

Definition part_text (buf : list LogEntry) : str := join [10] (map stringify buf) ++ [10].

(** [run] of [flushChunk], once its turn in the chain has come *)
Definition flushChunk (cw : ChunkWriter) (w : world)
  : ChunkWriter * world * js_result ChunkWriteResult :=
  let index := recover_index cw w in
  let buf := currentBuffer cw in
  let lines := zlen buf in
  if lines =? 0 then (CW index [] 0 true, w, Ok (CResult [] 0))
  else
    let '(ok, w1) := next_write w in
    if negb ok then (CW index [] 0 true, w1, Throws)
    else
      match alloc_part MAX_ATTEMPTS index (part_text buf) w1 with
      | (w2, index2, Ok partName) => (CW (index2 + 1) [] 0 true, w2, Ok (CResult partName lines))
      | (w2, index2, Throws) => (CW index2 [] 0 true, w2, Throws)
      end.

(** [this.currentBuffer.push(e); this.writtenThisChunk++] *)
Definition push_entry (cw : ChunkWriter) (e : LogEntry) : ChunkWriter :=
  CW (currentIndex cw) (currentBuffer cw ++ [e]) (writtenThisChunk cw + 1) (fsIndexInitialized cw).

(** One call at a time: every call is awaited before the next. *)
Fixpoint appendBatch (cw : ChunkWriter) (w : world) (entries : list LogEntry)
  : ChunkWriter * world * js_result (list ChunkWriteResult) :=
  match entries with
  | [] => (cw, w, Ok [])
  | e :: es =>
      let cw1 := push_entry cw e in
      if chunkMaxLines <=? writtenThisChunk cw1 then
        match flushChunk cw1 w with
        | (cw2, w2, Ok r) =>
            let '(cw3, w3, rs) := appendBatch cw2 w2 es in
            (cw3, w3, match rs with
                      | Ok rs => Ok (if 0 <? cr_lines r then r :: rs else rs)
                      | Throws => Throws
                      end)
        | (cw2, w2, Throws) => (cw2, w2, Throws)
        end
      else appendBatch cw1 w es
  end.

(** Awaited calls one after the other, with all their results. *)
Fixpoint append_all (cw : ChunkWriter) (w : world) (batches : list (list LogEntry))
  : ChunkWriter * world * js_result (list ChunkWriteResult) :=
  match batches with
  | [] => (cw, w, Ok [])
  | b :: bs =>
      match appendBatch cw w b with
      | (cw1, w1, Ok rs) =>
          match append_all cw1 w1 bs with
          | (cw2, w2, Ok rs2) => (cw2, w2, Ok (rs ++ rs2))
          | (cw2, w2, Throws) => (cw2, w2, Throws)
          end
      | (cw1, w1, Throws) => (cw1, w1, Throws)
      end
  end.

Definition flushRemainder (cw : ChunkWriter) (w : world)
  : ChunkWriter * world * js_result (option ChunkWriteResult) :=
  if negb (nonempty (currentBuffer cw)) then (cw, w, Ok None)
  else
    match flushChunk cw w with
    | (cw', w', Ok r) => (cw', w', Ok (Some r))
    | (cw', w', Throws) => (cw', w', Throws)
    end.
End writer.

(** ** Overlapping calls

    [flushChunk] puts its work at the end of a chain of promises; the call of
    [appendBatch] that reached the limit goes on when its own link is done, and
    other calls may start at any time.  A state has the calls that wait for a
    link (with the entries they have still to push), the link that has taken its
    snapshot, and the calls whose link is done. *)

Record overlap := Overlap {
  ov_buffer : list LogEntry;
  ov_written : Z;
  ov_queue : list (list LogEntry);
  ov_running : option (list LogEntry * list LogEntry);
  ov_ready : list (list LogEntry);
  ov_parts : list (list LogEntry);
}.

Definition overlap_init : overlap := Overlap [] 0 [] None [] [].

(** The loop of [appendBatch] up to its next [await]: the buffer, the counter and,
    if the call has to wait, what is left of its batch. *)
Fixpoint push_until_full (max : Z) (buf : list LogEntry) (written : Z) (es : list LogEntry)
  : list LogEntry * Z * option (list LogEntry) :=
  match es with
  | [] => (buf, written, None)
  | e :: es' =>
      if max <=? written + 1 then (buf ++ [e], written + 1, Some es')
      else push_until_full max (buf ++ [e]) (written + 1) es'
  end.

Definition run_call (max : Z) (es : list LogEntry) (s : overlap) : overlap :=
  let '(buf, written, rest) := push_until_full max (ov_buffer s) (ov_written s) es in
  Overlap buf written (ov_queue s ++ match rest with Some r => [r] | None => [] end)
    (ov_running s) (ov_ready s) (ov_parts s).

(** The label has the batch of the call that starts, if the step is one. *)
Inductive overlap_step (max : Z) : overlap -> list (list LogEntry) -> overlap -> Prop :=
| step_call es s : overlap_step max s [es] (run_call max es s)
| step_snapshot buf written rest queue ready parts :
    overlap_step max (Overlap buf written (rest :: queue) None ready parts) []
      (Overlap [] 0 queue (Some (buf, rest)) ready parts)
| step_done buf written queue snap rest ready parts :
    overlap_step max (Overlap buf written queue (Some (snap, rest)) ready parts) []
      (Overlap buf written queue None (ready ++ [rest])
         (parts ++ if nonempty snap then [snap] else []))
| step_resume buf written queue running rest ready parts :
    overlap_step max (Overlap buf written queue running (rest :: ready) parts) []
      (run_call max rest (Overlap buf written queue running ready parts)).

(** The states after calls with the given batches, in the order of the calls. *)
Inductive overlap_run (max : Z) : list (list LogEntry) -> overlap -> Prop :=
| run_init : overlap_run max [] overlap_init
| run_step calls s lb s' :
    overlap_run max calls s -> overlap_step max s lb s' ->
    overlap_run max (calls ++ lb) s'.

(** No call waits. *)
Definition quiet (s : overlap) : Prop := ov_queue s = [] /\ ov_running s = None /\ ov_ready s = [].

(** Everything the state still knows of. *)
Definition ov_all (s : overlap) : list LogEntry :=
  concat (ov_parts s) ++ match ov_running s with Some (b, r) => b ++ r | None => [] end ++
  ov_buffer s ++ concat (ov_ready s) ++ concat (ov_queue s).

(** ** Names of parts *)

Lemma print_nat_inj m n : 0 <= m -> 0 <= n -> print_nat m = print_nat n -> m = n.
Proof.
  intros Hm Hn E. destruct (print_nat_spec m Hm) as (_ & _ & Vm).
  destruct (print_nat_spec n Hn) as (_ & _ & Vn). congruence.
Qed.

Lemma digits_value_zeros k s : digits_value 0 (replicate k 48 ++ s) = digits_value 0 s.
Proof. induction k; simpl; [done|]. exact IHk. Qed.

Lemma part_name_inj m n : 0 <= m -> 0 <= n -> part_name m = part_name n -> m = n.
Proof.
  intros Hm Hn E. unfold part_name in E. apply app_inv_head in E. apply app_inv_tail in E.
  apply (f_equal (digits_value 0)) in E. unfold pad_start in E. rewrite !digits_value_zeros in E.
  destruct (print_nat_spec m Hm) as (_ & _ & Vm), (print_nat_spec n Hn) as (_ & _ & Vn). congruence.
Qed.

Lemma part_name_valid n l : 0 < l -> chunk_valid (Chunk (part_name n) l 0) = true.
Proof.
  intros Hl. unfold chunk_valid. cbn [c_file c_lines].
  destruct (trim_head 112 (js "art-" ++ pad_start 6 48 (print_nat n) ++ js ".ndjson")) as [t Ht]; [done|].
  change (112 :: js "art-" ++ pad_start 6 48 (print_nat n) ++ js ".ndjson") with (part_name n) in Ht.
  rewrite Ht. cbn [nonempty andb]. by apply Z.ltb_lt.
Qed.

Lemma print_digits_length fuel n acc (k : nat) :
  0 <= n < 10 ^ Z.of_nat k -> (0 < k)%nat -> n < 2 ^ Z.of_nat fuel ->
  (length (print_digits fuel n acc) <= k + length acc)%nat.
Proof.
  revert n acc k. induction fuel as [|f IH]; intros n acc k Hn Hk Hf; cbn [print_digits]; [lia|].
  destruct (Z.ltb_spec n 10); [simpl; lia|].
  destruct k as [|[|k]]; [lia|change (10 ^ Z.of_nat 1) with 10 in Hn; lia|].
  rewrite Nat2Z.inj_succ, Z.pow_succ_r in Hn, Hf by lia.
  etrans; [apply (IH _ _ (S k))|simpl; lia]; [|lia|]; Z.to_euclidean_division_equations; lia.
Qed.

Lemma print_nat_length n : 0 <= n < 1000000 -> (length (print_nat n) <= 6)%nat.
Proof.
  intros H. unfold print_nat. etrans; [apply (print_digits_length _ _ _ 6)|simpl; lia]; [done|lia|].
  assert (L := Z.log2_nonneg n). rewrite Z2Nat.id by lia. destruct (decide (n = 0)) as [->|]; [done|].
  destruct (Z.log2_spec n); [lia|]. done.
Qed.

Lemma six_digits n :
  0 <= n < 1000000 -> exists a b c d e f, pad_start 6 48 (print_nat n) = [a; b; c; d; e; f] /\
    Forall (fun x => is_digit x = true) [a; b; c; d; e; f] /\ digits_value 0 [a; b; c; d; e; f] = n.
Proof.
  intros H. assert (L := print_nat_length n H). destruct (print_nat_spec n) as (Hne & Hd & Hv); [lia|].
  assert (Hp : Forall (fun x => is_digit x = true) (pad_start 6 48 (print_nat n))).
  { apply Forall_app. split; [|done]. by apply Forall_replicate. }
  assert (Hl : length (pad_start 6 48 (print_nat n)) = 6%nat).
  { unfold pad_start. rewrite length_app, length_replicate. lia. }
  assert (Hval : digits_value 0 (pad_start 6 48 (print_nat n)) = n)
    by (unfold pad_start; by rewrite digits_value_zeros).
  destruct (pad_start 6 48 (print_nat n)) as [|a [|b [|c [|e [|f [|g [|h t]]]]]]]; try done.
  by exists a, b, c, e, f, g.
Qed.

Lemma part6_number n : 0 <= n < 1000000 -> part_number PART6_RX (part_name n) = Some n.
Proof.
  intros H. destruct (six_digits n H) as (a & b & c & e & f & g & E & Hd & Hv).
  unfold part_number, part_name. rewrite E. unfold PART6_RX.
  rewrite <- Hv. clear E Hv H. unfold sq at 1. rewrite exec_anchored.
  rewrite !Forall_cons in Hd. destruct Hd as (Ha & Hb & Hc & He & Hf & Hg & _).
  assert (Hm : exists y, rmatch (sq [lit_i (js "part-"); Grp 1 (times 6 d); chr 46; lit_i (js "ndjson"); Eol])
    (Mst None (js "part-" ++ [a; b; c; e; f; g] ++ js ".ndjson") []) (fun y => Some y) = Some y /\
    cap_lookup 1 (m_caps y) = Some [a; b; c; e; f; g]).
  { unfold lit_i, sq, times, d, chr_i, chr. cbn [js map app]. cbn [rmatch m_rest m_prev m_caps].
    vm_compute lower_unit. simpl. rewrite Ha, Hb, Hc, He, Hf, Hg. simpl. eexists. split; reflexivity. }
  destruct Hm as (y & Ey & Hy). unfold sq in Ey. rewrite Ey. unfold cap. cbn [rx_caps]. rewrite Hy.
  cbn [mbind option_bind]. apply parse_int_digits; [done|]. by repeat constructor.
Qed.

(** ** The file system behaves *)

(** Renames fail less than [attempts] times and with codes that are retried;
    writes succeed. *)
Record calm (attempts : nat) (w : world) : Prop := {
  calm_codes : Forall (fun r => r <> EOther) (w_renames w);
  calm_few : (length (w_renames w) < attempts)%nat;
  calm_writes : Forall (fun b => b = true) (w_writes w);
}.

(** No part has a larger number. *)
Definition parts_below (i : Z) (files : gmap str str) : Prop :=
  forall k, 0 <= k -> is_Some (files !! part_name k) -> k <= i.

Lemma next_write_calm a w :
  calm a w -> exists w', next_write w = (true, w') /\ calm a w' /\ w_files w' = w_files w.
Proof.
  intros Hc. unfold next_write. destruct (w_writes w) as [|b bs] eqn:E; [by exists w|].
  destruct Hc as [H1 H2 H3]. rewrite E in H3.
  apply Forall_cons in H3 as [-> H3]. eexists. split; [done|]. split; [|done]. by constructor.
Qed.

Lemma calm_tail a w r rs :
  calm (S a) w -> w_renames w = r :: rs -> calm a (World (w_files w) rs (w_writes w)).
Proof.
  intros [H1 H2 H3] E. rewrite E in *. apply Forall_cons in H1 as [_ H1].
  constructor; simpl in *; [done|lia|done].
Qed.

Lemma calm_weaken a w : calm a w -> calm (S a) w.
Proof. intros []. constructor; [done|lia|done]. Qed.

Lemma alloc_part_calm a i text w :
  calm a w ->
  exists i' w', alloc_part a i text w = (w', i', Ok (part_name (i' + 1))) /\ i <= i' /\
    w_files w' = <[part_name (i' + 1) := text]> (w_files w) /\ calm a w'.
Proof.
  revert i w. induction a as [|a IH]; intros i w Hc; [destruct Hc; lia|]. cbn [alloc_part].
  unfold next_rename. destruct (w_renames w) as [|r rs] eqn:E.
  { eexists i, _. split; [done|]. split; [lia|]. split; [done|]. destruct Hc as [H1 H2 H3]. by constructor. }
  assert (Ht := calm_tail a w r rs Hc E). destruct Hc as [H1 _ _]. rewrite E in H1.
  apply Forall_cons in H1 as [Hr _].
  assert (Hgo : forall j w1, i <= j -> calm a w1 -> w_files w1 = w_files w ->
    exists i' w', alloc_part a j text w1 = (w', i', Ok (part_name (i' + 1))) /\ i <= i' /\
      w_files w' = <[part_name (i' + 1) := text]> (w_files w) /\ calm (S a) w').
  { intros j w1 Hj Hw1 Hf. destruct (IH j w1 Hw1) as (i' & w' & E' & Hi' & Hf' & Hc').
    exists i', w'. rewrite <- Hf. split_and!; [done|lia|done|by apply calm_weaken]. }
  destruct r; try (apply Hgo; [lia|done|done]); [| |done].
  - eexists i, _. split; [done|]. split; [lia|]. split; [done|]. apply calm_weaken.
    destruct Ht as [A B C]. by constructor.
  - destruct (next_write_calm a _ Ht) as (w2 & E2 & Hw2 & Hf2). rewrite E2.
    by apply Hgo; [lia| |rewrite Hf2].
Qed.

Lemma recover_mono cw w : currentIndex cw <= recover_index cw w.
Proof.
  unfold recover_index. destruct (fsIndexInitialized cw); [done|].
  generalize (currentIndex cw) as i. induction (map fst (map_to_list (w_files w))) as [|nm l IH];
    intros i; simpl; [done|].
  destruct (part_number PART6_RX nm) as [n|]; [|apply IH]. etrans; [|apply IH]. lia.
Qed.

(** After the first look at the directory no part has a larger number. *)
Lemma recover_below cw w :
  fsIndexInitialized cw = false -> parts_below 999999 (w_files w) ->
  parts_below (recover_index cw w) (w_files w).
Proof.
  intros Hi Hk k Hk0 Hin. assert (Hk6 := Hk k Hk0 Hin). destruct Hin as [t Ht].
  unfold recover_index. rewrite Hi.
  assert (Hmem : part_name k ∈ map fst (map_to_list (w_files w))).
  { change (part_name k ∈ (map_to_list (w_files w)).*1). apply list_elem_of_fmap.
    exists (part_name k, t). split; [done|]. by apply elem_of_map_to_list. }
  generalize (currentIndex cw) as i. revert Hmem.
  set (f := fun (maxIdx : Z) (nm : str) =>
    match part_number PART6_RX nm with Some n => Z.max maxIdx n | None => maxIdx end).
  assert (Hmono : forall l i, i <= foldl f i l).
  { induction l as [|nm l IH]; intros i; simpl; [done|]. etrans; [|apply IH].
    unfold f. destruct (part_number PART6_RX nm); lia. }
  induction (map fst (map_to_list (w_files w))) as [|nm l IH]; intros Hmem i;
    [by apply elem_of_nil in Hmem|].
  apply elem_of_cons in Hmem as [<-|Hmem]; [|by apply IH].
  simpl. etrans; [|apply Hmono]. unfold f. rewrite part6_number by lia. lia.
Qed.

(** ** One call at a time *)

Section spec.
Context {J : JsonCodec}.
Context (chunkMaxLines : Z).
Abbreviation appendBatch := (appendBatch chunkMaxLines).

Record writer_ok (cw : ChunkWriter) (w : world) : Prop := {
  wo_written : writtenThisChunk cw = zlen (currentBuffer cw);
  wo_index : 0 <= currentIndex cw;
  wo_below : parts_below (if fsIndexInitialized cw then currentIndex cw else 999999) (w_files w);
  wo_calm : calm MAX_ATTEMPTS w;
}.

(** The part file [r] holds exactly the entries [buf]. *)
Definition holds (files : gmap str str) (r : ChunkWriteResult) (buf : list LogEntry) : Prop :=
  files !! cr_file r = Some (part_text buf) /\ cr_lines r = zlen buf /\ buf <> [] /\
  exists n, 0 <= n /\ cr_file r = part_name n.

Lemma flush_spec cw w :
  writer_ok cw w -> currentBuffer cw <> [] ->
  exists n w', flushChunk cw w =
      (CW n [] 0 true, w', Ok (CResult (part_name n) (zlen (currentBuffer cw)))) /\
    writer_ok (CW n [] 0 true) w' /\
    w_files w !! part_name n = None /\ 0 <= n /\
    w_files w' = <[part_name n := part_text (currentBuffer cw)]> (w_files w).
Proof.
  intros [H1 H2 H3 H4] Hne. unfold flushChunk.
  assert (Hz : (zlen (currentBuffer cw) =? 0) = false).
  { apply Z.eqb_neq. unfold zlen. destruct (currentBuffer cw); [done|]. simpl. lia. }
  rewrite Hz. destruct (next_write_calm _ w H4) as (w1 & -> & Hc1 & Hf1). cbn [negb].
  destruct (alloc_part_calm MAX_ATTEMPTS (recover_index cw w) (part_text (currentBuffer cw)) w1 Hc1)
    as (i & w2 & -> & Hi & Hf2 & Hc2).
  assert (Hmono := recover_mono cw w).
  assert (Hb : parts_below (recover_index cw w) (w_files w)).
  { destruct (fsIndexInitialized cw) eqn:E; [|by apply recover_below].
    unfold recover_index. by rewrite E. }
  exists (i + 1), w2. rewrite Hf1 in Hf2. split_and!; [done| | |lia|done].
  - constructor; cbn [writtenThisChunk currentBuffer currentIndex fsIndexInitialized];
      [done|lia| |done].
    intros k Hk0 Hin. rewrite Hf2 in Hin. destruct (decide (k = i + 1)) as [->|Hne']; [lia|].
    rewrite lookup_insert_ne in Hin.
    + specialize (Hb k Hk0 Hin). lia.
    + intros E. apply part_name_inj in E; lia.
  - destruct (w_files w !! part_name (i + 1)) eqn:E; [|done].
    assert (Hle : i + 1 <= recover_index cw w) by (apply Hb; [lia|by rewrite E]). lia.
Qed.

Lemma holds_preserved (f f' : gmap str str) r b : f ⊆ f' -> holds f r b -> holds f' r b.
Proof. intros Hs (H1 & H2). split; [by eapply lookup_weaken|done]. Qed.

(** The batches of parts are full, in order, and hold all entries but the last
    incomplete chunk, which stays in the buffer; nothing else is touched. *)
Lemma appendBatch_spec cw w entries :
  0 < chunkMaxLines -> writer_ok cw w -> zlen (currentBuffer cw) < chunkMaxLines ->
  exists cw' w' rs bufs, appendBatch cw w entries = (cw', w', Ok rs) /\
    writer_ok cw' w' /\ zlen (currentBuffer cw') < chunkMaxLines /\
    Forall2 (holds (w_files w')) rs bufs /\ w_files w ⊆ w_files w' /\
    Forall (fun b => zlen b = chunkMaxLines) bufs /\
    concat bufs ++ currentBuffer cw' = currentBuffer cw ++ entries.
Proof.
  intros Hmax. revert cw w. induction entries as [|e es IH]; intros cw w Hok Hlt; cbn [ChunkWriter.appendBatch].
  { exists cw, w, [], []. split_and!; try done. by rewrite app_nil_r. }
  set (cw1 := push_entry cw e).
  assert (Hok1 : writer_ok cw1 w).
  { destruct Hok as [H1 H2 H3 H4]. constructor; [|done..].
    unfold cw1, push_entry. cbn [writtenThisChunk currentBuffer]. rewrite H1, zlen_app. done. }
  assert (Hw1 : writtenThisChunk cw1 = zlen (currentBuffer cw) + 1).
  { destruct Hok1 as [H1 _ _ _]. rewrite H1. unfold cw1, push_entry. cbn [currentBuffer].
    by rewrite zlen_app. }
  destruct (Z.leb_spec chunkMaxLines (writtenThisChunk cw1)) as [Hfull|Hfull].
  - destruct (flush_spec cw1 w Hok1) as (n & w2 & -> & Hok2 & Hnew & Hn & Hf2).
    { unfold cw1, push_entry. cbn [currentBuffer]. by destruct (currentBuffer cw). }
    destruct (IH (CW n [] 0 true) w2 Hok2) as (cw' & w' & rs & bufs & -> & Hok' & Hlt' & Hh & Hs & Hfl & Hcat);
      [done|].
    assert (Hsub : w_files w ⊆ w_files w2) by (rewrite Hf2; by apply insert_subseteq).
    assert (Hpos : (0 <? cr_lines (CResult (part_name n) (zlen (currentBuffer cw1)))) = true).
    { cbn [cr_lines]. apply Z.ltb_lt. destruct Hok1 as [<- _ _ _]. lia. }
    rewrite Hpos. eexists cw', w', _, (currentBuffer cw1 :: bufs). split; [done|].
    split_and!; [done|done| |by etrans| |].
    + constructor; [|done]. eapply holds_preserved; [exact Hs|]. split_and!; [|done| |by exists n].
      * cbn [cr_file]. rewrite Hf2. apply lookup_insert_eq.
      * unfold cw1, push_entry. cbn [currentBuffer]. by destruct (currentBuffer cw).
    + constructor; [|done]. destruct Hok1 as [<- _ _ _]. lia.
    + cbn [concat]. rewrite <- app_assoc, Hcat. cbn [currentBuffer app].
      unfold cw1, push_entry. cbn [currentBuffer]. by rewrite <- app_assoc.
  - destruct (IH cw1 w Hok1) as (cw' & w' & rs & bufs & -> & Hok' & Hlt' & Hh & Hs & Hfl & Hcat).
    { destruct Hok1 as [<- _ _ _]. lia. }
    exists cw', w', rs, bufs. split_and!; try done. rewrite Hcat. unfold cw1, push_entry.
    cbn [currentBuffer]. by rewrite <- app_assoc.
Qed.
End spec.

Section claims.
Context {J : JsonCodec}.
Context (chunkMaxLines : Z).

Lemma append_all_spec cw w batches :
  0 < chunkMaxLines -> writer_ok cw w -> zlen (currentBuffer cw) < chunkMaxLines ->
  exists cw' w' rs bufs, append_all chunkMaxLines cw w batches = (cw', w', Ok rs) /\
    writer_ok cw' w' /\ zlen (currentBuffer cw') < chunkMaxLines /\
    Forall2 (holds (w_files w')) rs bufs /\ w_files w ⊆ w_files w' /\
    Forall (fun b => zlen b = chunkMaxLines) bufs /\
    concat bufs ++ currentBuffer cw' = currentBuffer cw ++ concat batches.
Proof.
  intros Hmax. revert cw w. induction batches as [|b bs IH]; intros cw w Hok Hlt; cbn [append_all].
  { exists cw, w, [], []. split_and!; try done. by rewrite app_nil_r. }
  destruct (appendBatch_spec chunkMaxLines cw w b Hmax Hok Hlt)
    as (cw1 & w1 & rs1 & bufs1 & -> & Hok1 & Hlt1 & Hh1 & Hs1 & Hf1 & Hc1).
  destruct (IH cw1 w1 Hok1 Hlt1) as (cw2 & w2 & rs2 & bufs2 & -> & Hok2 & Hlt2 & Hh2 & Hs2 & Hf2 & Hc2).
  exists cw2, w2, (rs1 ++ rs2), (bufs1 ++ bufs2). split_and!; try done.
  - apply Forall2_app; [|done]. eapply Forall2_impl; [exact Hh1|]. intros r l.
    by apply holds_preserved.
  - by etrans.
  - by apply Forall_app.
  - cbn [concat]. rewrite concat_app, <- app_assoc, Hc2, !app_assoc, Hc1. done.
Qed.

Lemma fresh_writer startIndex w :
  0 <= startIndex -> parts_below 999999 (w_files w) -> calm MAX_ATTEMPTS w ->
  writer_ok (new_ChunkWriter startIndex) w.
Proof. intros. by constructor. Qed.

(** C7: batches that are awaited one after the other reach the disk completely and
    in order, although renames may fail and be tried again: the part files, in the
    order in which they are reported, hold the entries of all batches; all parts
    but the last have exactly [chunkMaxLines] lines, and no file that was in the
    directory is changed. *)
Theorem chunk_writer_complete startIndex w batches :
  0 < chunkMaxLines -> 0 <= startIndex -> parts_below 999999 (w_files w) ->
  calm MAX_ATTEMPTS w ->
  exists cw1 w1 rs cw2 w2 last bufs tail,
    append_all chunkMaxLines (new_ChunkWriter startIndex) w batches = (cw1, w1, Ok rs) /\
    flushRemainder cw1 w1 = (cw2, w2, Ok last) /\
    Forall2 (holds (w_files w2)) (rs ++ option_list last) (bufs ++ tail) /\
    Forall (fun b => zlen b = chunkMaxLines) bufs /\ zlen tail <= 1 /\
    Forall (fun b => zlen b < chunkMaxLines) tail /\
    concat (bufs ++ tail) = concat batches /\ w_files w ⊆ w_files w2.
Proof.
  intros Hmax Hst Hb Hc.
  destruct (append_all_spec (new_ChunkWriter startIndex) w batches Hmax)
    as (cw1 & w1 & rs & bufs & E1 & Hok1 & Hlt1 & Hh1 & Hs1 & Hf1 & Hc1);
    [by apply fresh_writer|done|].
  unfold flushRemainder. destruct (currentBuffer cw1) as [|e es] eqn:Eb.
  - exists cw1, w1, rs, cw1, w1, None, bufs, []. rewrite Eb. cbn [nonempty negb option_list].
    rewrite !app_nil_r in *. split_and!; try done.
  - destruct (flush_spec cw1 w1 Hok1) as (n & w2 & E2 & Hok2 & Hnew & Hn & Hf2); [by rewrite Eb|].
    exists cw1, w1, rs, (CW n [] 0 true), w2,
      (Some (CResult (part_name n) (zlen (e :: es)))), bufs, [e :: es].
    rewrite Eb in *. cbn [nonempty negb]. rewrite E2.
    assert (Hsub : w_files w1 ⊆ w_files w2) by (rewrite Hf2; by apply insert_subseteq).
    split_and!; try done.
    + apply Forall2_app.
      * eapply Forall2_impl; [exact Hh1|]. intros r l. by apply holds_preserved.
      * constructor; [|constructor]. split_and!; [|done..|by exists n].
        cbn [cr_file]. rewrite Hf2. apply lookup_insert_eq.
    + by repeat constructor.
    + rewrite concat_app. simpl. by rewrite app_nil_r.
    + by etrans.
Qed.
End claims.

Definition plain_entry (n : Z) : LogEntry := Entry n None n LvI [] [] [] [48 + n] None None None.

Lemma chunk_writer_complete_witness :
  let w := World {[part_name 3 := js "old"]} [EEXIST; ENOENT] [] in
  let batches := [[plain_entry 5]; [plain_entry 4; plain_entry 3]] in
  exists cw1 w1 rs cw2 w2 last bufs tail,
    append_all 2 (new_ChunkWriter 0) w batches = (cw1, w1, Ok rs) /\
    flushRemainder cw1 w1 = (cw2, w2, Ok last) /\
    Forall2 (holds (w_files w2)) (rs ++ option_list last) (bufs ++ tail) /\
    Forall (fun b => zlen b = 2) bufs /\ zlen tail <= 1 /\
    Forall (fun b => zlen b < 2) tail /\
    concat (bufs ++ tail) = concat batches /\ w_files w ⊆ w_files w2.
Proof.
  intros w batches. apply (@chunk_writer_complete json_codec 2 0 w batches); try lia.
  - intros k Hk [t Ht]. unfold w in Ht. cbn [w_files] in Ht. apply lookup_singleton_Some in Ht as [E _].
    apply part_name_inj in E; lia.
  - constructor; [by repeat constructor|unfold MAX_ATTEMPTS; simpl; lia|constructor].
Defined.

(** ** Overlapping calls lose nothing but the order *)

Lemma push_until_full_all max buf written es :
  let '(buf', _, rest) := push_until_full max buf written es in
  buf' ++ or_else rest [] = buf ++ es.
Proof.
  revert buf written. induction es as [|e es IH]; intros buf written; cbn [push_until_full]; [done|].
  destruct (max <=? written + 1); [cbn [or_else]; by rewrite <- app_assoc|].
  specialize (IH (buf ++ [e]) (written + 1)).
  destruct (push_until_full max (buf ++ [e]) (written + 1) es) as [[b w] r]. rewrite IH.
  by rewrite <- app_assoc.
Qed.

Lemma run_call_all max es s : ov_all (run_call max es s) ≡ₚ ov_all s ++ es.
Proof.
  unfold run_call. assert (H := push_until_full_all max (ov_buffer s) (ov_written s) es).
  destruct (push_until_full max (ov_buffer s) (ov_written s) es) as [[b w] r].
  unfold ov_all. cbn [ov_parts ov_running ov_buffer ov_ready ov_queue].
  assert (Hq : concat (ov_queue s ++ match r with Some r => [r] | None => [] end) =
    concat (ov_queue s) ++ or_else r []).
  { rewrite concat_app. destruct r; simpl; by rewrite ?app_nil_r. }
  rewrite Hq. transitivity (concat (ov_parts s) ++ match ov_running s with
    | Some (b0, r0) => b0 ++ r0 | None => [] end ++ (b ++ or_else r []) ++ concat (ov_ready s) ++
    concat (ov_queue s)); [solve_Permutation|]. rewrite H. solve_Permutation.
Qed.

Lemma overlap_step_all max s lb s' :
  overlap_step max s lb s' -> ov_all s' ≡ₚ ov_all s ++ concat lb.
Proof.
  destruct 1 as [es s|buf written rest queue ready parts|buf written queue snap rest ready parts
    |buf written queue running rest ready parts].
  - rewrite run_call_all. simpl. by rewrite app_nil_r.
  - unfold ov_all. cbn [ov_parts ov_running ov_buffer ov_ready ov_queue concat]. solve_Permutation.
  - unfold ov_all. cbn [ov_parts ov_running ov_buffer ov_ready ov_queue concat].
    assert (Hp : concat (parts ++ (if nonempty snap then [snap] else [])) = concat parts ++ snap).
    { rewrite concat_app. by destruct snap; simpl; rewrite ?app_nil_r. }
    rewrite Hp, concat_app. simpl. rewrite !app_nil_r. solve_Permutation.
  - rewrite run_call_all. unfold ov_all.
    cbn [ov_parts ov_running ov_buffer ov_ready ov_queue concat]. solve_Permutation.
Qed.

(** whatever calls of [appendBatch] overlap and however the file operations are
    ordered, no entry is lost and none is written twice: what is in the parts, in the
    link that writes, in the buffer and with the waiting calls is always a
    rearrangement of all entries passed so far. *)
Theorem overlap_nothing_lost max calls s :
  overlap_run max calls s -> ov_all s ≡ₚ concat calls.
Proof.
  induction 1 as [|calls s lb s' _ IH Hs]; [done|].
  rewrite (overlap_step_all _ _ _ _ Hs), IH. by rewrite concat_app.
Qed.

(** Two further calls start before the link of a full chunk takes its snapshot. *)
Definition reordered_run : overlap :=
  Overlap [] 0 [] None []
    [[plain_entry 6; plain_entry 5; plain_entry 4; plain_entry 2]; [plain_entry 3; plain_entry 1]].

Definition three_calls : list (list LogEntry) :=
  [[plain_entry 6; plain_entry 5]; [plain_entry 4; plain_entry 3]; [plain_entry 2; plain_entry 1]].

(** A run of the model as a function, for concrete states. *)
Inductive overlap_act := ActCall (es : list LogEntry) | ActSnapshot | ActDone | ActResume.

Definition overlap_do (max : Z) (a : overlap_act) (s : overlap) : option overlap :=
  match a, s with
  | ActCall es, _ => Some (run_call max es s)
  | ActSnapshot, Overlap buf written (rest :: queue) None ready parts =>
      Some (Overlap [] 0 queue (Some (buf, rest)) ready parts)
  | ActDone, Overlap buf written queue (Some (snap, rest)) ready parts =>
      Some (Overlap buf written queue None (ready ++ [rest])
              (parts ++ if nonempty snap then [snap] else []))
  | ActResume, Overlap buf written queue running (rest :: ready) parts =>
      Some (run_call max rest (Overlap buf written queue running ready parts))
  | _, _ => None
  end.

Fixpoint overlap_exec (max : Z) (acts : list overlap_act) (s : overlap) : option overlap :=
  match acts with
  | [] => Some s
  | a :: acts' => overlap_do max a s ≫= overlap_exec max acts'
  end.

Definition act_calls (a : overlap_act) : list (list LogEntry) :=
  match a with ActCall es => [es] | _ => [] end.

Lemma overlap_exec_run max acts calls s s' :
  overlap_run max calls s -> overlap_exec max acts s = Some s' ->
  overlap_run max (calls ++ (acts ≫= act_calls)) s'.
Proof.
  revert calls s. induction acts as [|a acts IH]; intros calls s H E.
  { injection E as <-. cbn [mbind list_bind]. by rewrite app_nil_r. }
  cbn [overlap_exec mbind list_bind] in *. destruct (overlap_do max a s) as [s1|] eqn:Ea; [|done].
  cbn [option_bind] in E. rewrite app_assoc. apply (IH _ s1); [|done].
  eapply run_step; [exact H|]. clear H E IH.
  destruct a, s as [buf written [|rest queue] [[snap r]|] [|rd ready] parts]; simplify_eq/=;
    constructor.
Qed.

Definition reordering : list overlap_act :=
  map ActCall three_calls ++
  [ActSnapshot; ActDone; ActSnapshot; ActDone; ActSnapshot; ActDone;
   ActResume; ActResume; ActResume; ActSnapshot; ActDone; ActResume].

(** calls that overlap can be stored out of order, and a part can get more than
    [chunkMaxLines] lines: three batches of two lines, newest first, with a limit of
    two, end in the parts 6 5 4 2 and 3 1 when the second and the third call start
    before the first flush has taken its snapshot. *)
Theorem overlap_can_reorder :
  exists s, overlap_run 2 three_calls s /\ quiet s /\ ov_buffer s = [] /\
    concat (ov_parts s) <> concat three_calls /\
    Exists (fun part => 2 < zlen part) (ov_parts s).
Proof.
  assert (E : overlap_exec 2 reordering overlap_init = Some reordered_run) by (vm_compute; reflexivity).
  exists reordered_run. split_and!; [|done|done|discriminate|by left].
  exact (overlap_exec_run 2 reordering [] overlap_init _ (run_init 2) E).
Qed.

Lemma overlap_nothing_lost_witness : ov_all reordered_run ≡ₚ concat three_calls.
Proof.
  assert (E : overlap_exec 2 reordering overlap_init = Some reordered_run) by (vm_compute; reflexivity).
  apply (overlap_nothing_lost 2).
  exact (overlap_exec_run 2 reordering [] overlap_init _ (run_init 2) E).
Defined.
