(* ===== verification/PagedReader.v ===== *)
(** * Reading ranges of a merged log

    src/core/logs/PagedReader.ts: the manifest is opened, sorted and its number of
    stored lines corrected; a range of lines is read from the chunks that overlap
    it, each part file line by line.

    [node:readline] is behind the class [LineSplitter]: of the documented line
    ends ([\n], [\r\n], [\r]) the theorems need only that texts without any line
    end, each followed by [\n], come back.  Newer versions also split at U+2028
    and U+2029, which JSON does not escape, so these count as line ends here. *)

From stdpp Require Import base list sorting strings gmap.
From Stdlib Require Import ZArith Lia.
From S2P Require Import Prelude JsString Regex TimeParser LogEntry Json KWay Manifest ChunkWriter.

Class LineSplitter := readline : str -> list str.

Class LineSplitterLaws `{LineSplitter} : Prop :=
  readline_lines : forall ls, Forall line_safe ls -> readline (ls ≫= fun l => l ++ [10]) = ls.

(** ** Opening *)

(** [open(manifestDir)]: [file] is the text of [manifest.json], if it can be read *)
Definition open_manifest (file : option str) : js_result LogManifest :=
  match file ≫= JSON_parse with
  | Some json =>
      if negb (isLogManifest json) then Throws
      else
        let m := manifest_of_json json in
        let chunks := array_sort start_cmp (m_chunks m) in
        Ok (Manifest (m_createdAt m) (m_totalLines m)
              (if nonempty chunks then chunks_end chunks else m_mergedLines m)
              (m_chunkCount m) chunks)
  | None => Throws
  end.

Definition getTotalLines (m : LogManifest) : option Z :=
  if 0 <? m_mergedLines m then Some (m_mergedLines m) else m_totalLines m.

(** [Math.ceil(total / Math.max(1, pageSize))] for an integer page size *)
Definition getPageCount (m : LogManifest) (pageSize : Z) : Z :=
  let total := or_else (getTotalLines m) 0 in
  if total <=? 0 then 0 else - ((- total) / Z.max 1 pageSize).

(** ** Reading *)

Section reading.
Context {J : JsonCodec} {LS : LineSplitter}.
Context (files : gmap str str).

(** [safeParseJson(String(line || '').trim())], nothing for an empty line *)
Definition read_line (line : str) : list LogEntry :=
  let trimmed := trim line in
  if nonempty trimmed then option_list (json_parse trimmed) else [].

(** The loop over the lines; the abort signal is asked after every line. *)
Fixpoint slice_loop (aborted : nat -> bool) (n : nat) (idx startLine endLineExcl : Z)
    (lines : list str) : list LogEntry :=
  match lines with
  | [] => []
  | line :: rest =>
      if endLineExcl <=? idx then []
      else
        (if startLine <=? idx then read_line line else []) ++
        (if aborted n then [] else slice_loop aborted (S n) (idx + 1) startLine endLineExcl rest)
  end.

(** [_readChunkSlice]: a part that is missing has no lines. *)
Definition readChunkSlice (aborted : nat -> bool) (file : str) (startLine endLineExcl : Z)
  : list LogEntry :=
  match files !! file with
  | None => []
  | Some text => slice_loop aborted 0 0 startLine endLineExcl (readline text)
  end.

(** The loop over the chunks; the signal is asked anew for each. *)
Fixpoint range_loop (aborted : nat -> bool) (chunks : list LogChunkMeta) (start endExcl need : Z)
    (out : list LogEntry) : list LogEntry :=
  match chunks with
  | [] => out
  | c :: cs =>
      let cStart := c_start c in
      let cEndExcl := c_start c + c_lines c in
      if (cEndExcl <=? start) || (endExcl <=? cStart)
      then range_loop aborted cs start endExcl need out
      else
        let takeFrom := Z.max 0 (start - cStart) in
        let takeToExcl := Z.min (c_lines c) (endExcl - cStart) in
        let out1 := out ++ readChunkSlice aborted (c_file c) takeFrom takeToExcl in
        if need <=? zlen out1 then out1 else range_loop aborted cs start endExcl need out1
  end.

Definition readLineRange (m : LogManifest) (aborted : nat -> bool) (start endExcl : Z)
  : list LogEntry :=
  if endExcl <=? start then []
  else
    let need := endExcl - start in
    let out := range_loop aborted (m_chunks m) start endExcl need [] in
    if need <? zlen out then slice out 0 need else out.

Definition readPage (m : LogManifest) (pageIndex pageSize : Z) : list LogEntry :=
  let size := Z.max 1 pageSize in
  let start := pageIndex * size in
  readLineRange m (fun _ => false) start (start + size).
End reading.

(** ** A splitter: [\n], [\r\n], [\r], and the two separators of newer versions *)

Fixpoint split_eol (cur : str) (s : str) : list str :=
  match s with
  | [] => if nonempty cur then [rev cur] else []
  | c :: t =>
      if c =? 10 then rev cur :: split_eol [] t
      else if c =? 13 then
        rev cur :: match t with
                   | e :: t' => if e =? 10 then split_eol [] t' else split_eol [] t
                   | [] => []
                   end
      else if (c =? 8232) || (c =? 8233) then rev cur :: split_eol [] t
      else split_eol (c :: cur) t
  end.

#[export] Instance node_splitter : LineSplitter := split_eol [].

Lemma split_eol_line cur l rest :
  line_safe l -> split_eol cur (l ++ 10 :: rest) = (rev cur ++ l) :: split_eol [] rest.
Proof.
  intros Hl. revert cur. induction Hl as [|c l (H1 & H2 & H3 & H4) _ IH]; intros cur; cbn [app split_eol].
  - by rewrite app_nil_r.
  - destruct (Z.eqb_spec c 10); [done|]. destruct (Z.eqb_spec c 13); [done|].
    destruct (Z.eqb_spec c 8232); [done|]. destruct (Z.eqb_spec c 8233); [done|]. cbn [orb].
    rewrite IH. simpl. by rewrite <- app_assoc.
Qed.

#[export] Instance node_splitter_laws : LineSplitterLaws.
Proof.
  intros ls Hls. unfold readline, node_splitter.
  induction Hls as [|l ls Hl _ IH]; [done|]. cbn [mbind list_bind].
  rewrite <- app_assoc. cbn [app]. rewrite split_eol_line by done. by rewrite IH.
Qed.

(** ** Slices *)

Lemma slice_app {A} (a b : list A) s e :
  slice (a ++ b) s e = slice a s e ++ slice b (s - zlen a) (e - zlen a).
Proof.
  unfold slice, zlen. rewrite drop_app, take_app, length_drop. do 2 f_equal; [lia|].
  f_equal. lia.
Qed.

Lemma slice_empty {A} (l : list A) s e : e <= s -> slice l s e = [].
Proof. intros H. unfold slice. by replace (Z.to_nat e - Z.to_nat s)%nat with 0%nat by lia. Qed.

Lemma slice_neg {A} (l : list A) s e : e <= 0 -> slice l s e = [].
Proof. intros H. unfold slice. by replace (Z.to_nat e - Z.to_nat s)%nat with 0%nat by lia. Qed.

Lemma slice_past {A} (l : list A) s e : zlen l <= s -> slice l s e = [].
Proof. intros H. unfold slice, zlen in *. rewrite drop_ge by lia. apply take_nil. Qed.

Lemma slice_clamp {A} (l : list A) s e : slice l (Z.max 0 s) (Z.min (zlen l) e) = slice l s e.
Proof.
  unfold slice, zlen. replace (Z.to_nat (Z.max 0 s)) with (Z.to_nat s) by lia.
  destruct (Z.le_gt_cases e (Z.of_nat (length l))); [f_equal; lia|].
  rewrite !take_ge; [done|rewrite length_drop; lia..].
Qed.

Lemma slice_zlen {A} (l : list A) s e :
  0 <= s -> zlen (slice l s e) = Z.max 0 (Z.min e (zlen l) - s).
Proof. intros H. unfold slice, zlen. rewrite length_take, length_drop. lia. Qed.

Lemma slice_cons {A} (x : A) l s e :
  slice (x :: l) s e =
  (if (s <=? 0) && (0 <? e) then [x] else []) ++ slice l (s - 1) (e - 1).
Proof.
  change (x :: l) with ([x] ++ l). rewrite slice_app. change (zlen [x]) with 1. f_equal.
  unfold slice. destruct (Z.leb_spec s 0), (Z.ltb_spec 0 e); cbn [andb].
  - replace (Z.to_nat s) with 0%nat by lia. rewrite drop_0. by rewrite take_ge by (simpl; lia).
  - by replace (Z.to_nat e - Z.to_nat s)%nat with 0%nat by lia.
  - rewrite drop_ge by (simpl; lia). apply take_nil.
  - by replace (Z.to_nat e - Z.to_nat s)%nat with 0%nat by lia.
Qed.

Lemma slice_glue {A} (l : list A) a b c :
  0 <= a <= b -> b <= c -> slice l a b ++ slice l b c = slice l a c.
Proof.
  intros H1 H2. unfold slice.
  replace (Z.to_nat c - Z.to_nat a)%nat
    with ((Z.to_nat b - Z.to_nat a) + (Z.to_nat c - Z.to_nat b))%nat by lia.
  rewrite <- take_take_drop, drop_drop. do 3 f_equal. lia.
Qed.

Lemma slice_to_end {A} (l : list A) e : zlen l <= e -> slice l 0 e = l.
Proof.
  intros H. unfold slice, zlen in *. rewrite Z2Nat.inj_0, drop_0. apply take_ge. lia.
Qed.

(** Slices of equal size, one after the other. *)
Lemma slice_pages {A} (l : list A) k c :
  0 <= k -> 0 <= c -> (seqZ 0 c ≫= fun i => slice l (i * k) (i * k + k)) = slice l 0 (c * k).
Proof.
  intros Hk Hc. rewrite <- (Z2Nat.id c) by done. induction (Z.to_nat c) as [|n IH].
  { rewrite slice_empty by lia. done. }
  rewrite seqZ_S, bind_app, IH. cbn [mbind list_bind]. rewrite app_nil_r, slice_glue by nia.
  f_equal. lia.
Qed.

Lemma ceil_div n k : 0 < k -> n <= - ((- n) / k) * k /\ (- ((- n) / k) - 1) * k < n.
Proof.
  intros Hk. assert (H1 := Z.div_mod (- n) k ltac:(lia)). assert (H2 := Z.mod_pos_bound (- n) k Hk).
  set (q := - n / k) in *. clearbody q. nia.
Qed.

Lemma zlen_pos {A} (l : list A) : l <> [] -> 0 < zlen l.
Proof. unfold zlen. destruct l; [done|]. simpl. lia. Qed.

Lemma zlen_nil_iff {A} (l : list A) : 0 < zlen l <-> l <> [].
Proof. split; [|apply zlen_pos]. intros H ->. done. Qed.

Lemma list_bind_ext_in {A B} (f g : A -> list B) l :
  (forall x, x ∈ l -> f x = g x) -> l ≫= f = l ≫= g.
Proof.
  induction l as [|x l IH]; intros H; cbn [mbind list_bind]; [done|].
  rewrite H by (by left). f_equal. apply IH. intros y Hy. apply H. by right.
Qed.

(** ** Ranges of a complete store *)

Section spec.
Context {J : JsonCodec} {JL : JsonLaws} {LS : LineSplitter} {LL : LineSplitterLaws}.
Context (files : gmap str str).

(** The chunk [c] is on disk and holds [buf]. *)
Definition stored (c : LogChunkMeta) (buf : list LogEntry) : Prop :=
  files !! c_file c = Some (part_text buf) /\ c_lines c = zlen buf /\ buf <> [] /\
  Forall (fun e => line_safe (stringify e)) buf.

(** The manifest [m] describes a store of the entries [es]. *)
Definition store_of (m : LogManifest) (es : list LogEntry) : Prop :=
  tiled m /\ exists bufs, Forall2 stored (m_chunks m) bufs /\ concat bufs = es.

Lemma part_text_lines buf :
  buf <> [] -> part_text buf = map stringify buf ≫= fun l => l ++ [10].
Proof.
  unfold part_text. induction buf as [|e buf IH]; [done|]. intros _. destruct buf as [|e' buf].
  { cbn [map join mbind list_bind]. by rewrite app_nil_r. }
  specialize (IH ltac:(done)). cbn [map join mbind list_bind] in *. rewrite <- IH.
  by rewrite <- !app_assoc.
Qed.

Lemma trim_braced t : trim (123 :: t ++ [125]) = 123 :: t ++ [125].
Proof.
  unfold trim, trim_start. rewrite drop_while_head by done. unfold trim_end.
  rewrite app_comm_cons, rev_app_distr. change (rev [125] ++ rev (123 :: t)) with (125 :: rev (123 :: t)).
  rewrite drop_while_head by done. change (125 :: rev (123 :: t)) with (rev [125] ++ rev (123 :: t)).
  by rewrite <- rev_app_distr, rev_involutive.
Qed.

Lemma read_stringify e : read_line (stringify e) = [e].
Proof.
  unfold read_line. assert (Ht : trim (stringify e) = stringify e).
  { destruct (stringify_brace e) as [t Et], (stringify_close e) as [u Eu].
    rewrite Et in Eu |- *. destruct u as [|c u]; [done|]. injection Eu as <- ->. apply trim_braced. }
  rewrite Ht, parse_stringify. by destruct (stringify_brace e) as [t ->].
Qed.

Lemma slice_loop_entries n idx s e buf :
  slice_loop (fun _ => false) n idx s e (map stringify buf) = slice buf (s - idx) (e - idx).
Proof.
  revert n idx. induction buf as [|x buf IH]; intros n idx; cbn [map slice_loop].
  { unfold slice. by rewrite drop_nil, take_nil. }
  rewrite IH, slice_cons, read_stringify.
  destruct (Z.leb_spec e idx).
  - destruct (Z.ltb_spec 0 (e - idx)); [lia|]. rewrite andb_false_r. cbn [app].
    rewrite slice_neg by lia. done.
  - destruct (Z.ltb_spec 0 (e - idx)); [|lia]. rewrite andb_true_r.
    replace (s - idx - 1) with (s - (idx + 1)) by lia. replace (e - idx - 1) with (e - (idx + 1)) by lia.
    f_equal. by destruct (Z.leb_spec s idx), (Z.leb_spec (s - idx) 0); try lia.
Qed.

Lemma readChunkSlice_stored c buf s e :
  stored c buf -> readChunkSlice files (fun _ => false) (c_file c) s e = slice buf s e.
Proof.
  intros (Hf & _ & Hne & Hsafe). unfold readChunkSlice. rewrite Hf, part_text_lines by done.
  rewrite readline_lines.
  - rewrite slice_loop_entries. by rewrite !Z.sub_0_r.
  - clear -Hsafe. induction Hsafe; constructor; done.
Qed.

Lemma range_loop_tiles chunks bufs from s e out :
  tiles from chunks -> Forall2 stored chunks bufs -> s < e ->
  (from < e -> zlen out = Z.max 0 (from - s)) ->
  range_loop files (fun _ => false) chunks s e (e - s) out =
  out ++ slice (concat bufs) (s - from) (e - from).
Proof.
  intros Ht Hst Hse. revert from out Ht.
  induction Hst as [|c b chunks bufs Hc _ IH]; intros from out Ht Hout; cbn [range_loop concat].
  { unfold slice. by rewrite drop_nil, take_nil, app_nil_r. }
  destruct Ht as (Hfrom & Hv & Ht). apply valid_lines in Hv.
  assert (Hlen : c_lines c = zlen b) by apply Hc. rewrite Hfrom.
  rewrite slice_app, <- Hlen.
  replace (s - from - c_lines c) with (s - (from + c_lines c)) by lia.
  replace (e - from - c_lines c) with (e - (from + c_lines c)) by lia.
  destruct (Z.leb_spec (from + c_lines c) s).
  { cbn [orb]. rewrite (slice_past b) by lia. cbn [app]. apply IH; [done|]. intros.
    rewrite Hout by lia. lia. }
  destruct (Z.leb_spec e from).
  { cbn [orb]. rewrite (slice_neg b) by lia. cbn [app]. apply IH; [done|]. lia. }
  cbn [orb]. rewrite (readChunkSlice_stored _ _ _ _ Hc), Hlen, slice_clamp, <- Hlen.
  assert (Hpick : zlen (slice b (s - from) (e - from)) =
    Z.min (e - from) (zlen b) - Z.max 0 (s - from)).
  { rewrite <- (slice_clamp b (s - from)), slice_zlen by lia. lia. }
  destruct (Z.leb_spec (e - s) (zlen (out ++ slice b (s - from) (e - from)))) as [Hfull|Hless].
  - rewrite (slice_neg (concat bufs)); [by rewrite app_nil_r|].
    rewrite zlen_app, Hout, Hpick in Hfull by lia. lia.
  - rewrite (IH (from + c_lines c)); [by rewrite <- app_assoc|done|]. intros.
    rewrite zlen_app, Hout, Hpick by lia. lia.
Qed.

Lemma readLineRange_store m es s e :
  store_of m es -> 0 <= s -> readLineRange files m (fun _ => false) s e = slice es s e.
Proof.
  intros [[Ht _] (bufs & Hst & <-)] Hs. unfold readLineRange.
  destruct (Z.leb_spec e s); [by rewrite slice_empty|].
  rewrite (range_loop_tiles _ bufs 0 s e []) by (done || lia || (intros; change (zlen []) with 0; lia)).
  rewrite !Z.sub_0_r. cbn [app].
  destruct (Z.ltb_spec (e - s) (zlen (slice (concat bufs) s e))) as [Hl|]; [|done].
  rewrite slice_zlen in Hl by lia. lia.
Qed.

Lemma store_lines m es : store_of m es -> m_mergedLines m = zlen es.
Proof.
  intros [(_ & _ & Hm) (bufs & Hst & <-)]. rewrite Hm. clear -Hst.
  induction Hst as [|c b cs bs Hc _ IH]; [done|]. cbn [concat lines_of foldr].
  rewrite zlen_app, <- IH. unfold lines_of. destruct Hc as (_ & -> & _). done.
Qed.

Lemma open_saved m :
  tiled m -> open_manifest (Some (manifest_text m)) = Ok m.
Proof.
  intros (Ht & Hc & Hm). unfold open_manifest, manifest_text. cbn [mbind option_bind].
  rewrite JSON_parse_pretty, isLogManifest_to, manifest_of_to. cbn [negb].
  rewrite (array_sort_id _ _ (tiles_sorted _ _ Ht)).
  destruct m as [at_ tot mg ct cs]. cbn [m_chunks m_mergedLines m_createdAt m_totalLines m_chunkCount] in *.
  f_equal. f_equal. destruct cs as [|c cs]; [done|]. cbn [nonempty].
  rewrite (tiles_end 0) by done. rewrite Hm. done.
Qed.
End spec.

(** C27: a page of a complete store is the slice of the stored sequence: reading the
    lines from [s] to [e] gives exactly the entries at these positions, across any
    number of parts, and a page past the end has what there is. *)
Theorem readLineRange_slice {J : JsonCodec} {JL : JsonLaws} {LS : LineSplitter}
    {LL : LineSplitterLaws} files m es s e :
  store_of files m es -> 0 <= s -> readLineRange files m (fun _ => false) s e = slice es s e.
Proof. apply readLineRange_store. Qed.

(** the pages partition a store that is not empty: the pages of any size, one after
    the other, are the stored sequence, and [getPageCount] is the number of the pages
    that have entries. *)
Theorem pages_partition {J : JsonCodec} {JL : JsonLaws} {LS : LineSplitter}
    {LL : LineSplitterLaws} files m es size :
  store_of files m es -> es <> [] ->
  (seqZ 0 (getPageCount m size) ≫= fun i => readPage files m i size) = es /\
  forall i, 0 <= i -> readPage files m i size <> [] <-> i < getPageCount m size.
Proof.
  intros Hst Hne. assert (Hn := store_lines _ _ _ Hst). assert (Hpos := zlen_pos es Hne).
  assert (Hc : getPageCount m size = - ((- zlen es) / Z.max 1 size)).
  { unfold getPageCount, getTotalLines. rewrite Hn. destruct (Z.ltb_spec 0 (zlen es)); [|lia].
    cbn [or_else]. by destruct (Z.leb_spec (zlen es) 0); [lia|]. }
  rewrite Hc. set (k := Z.max 1 size). assert (Hk : 0 < k) by lia.
  destruct (ceil_div (zlen es) k Hk) as [Hc1 Hc2]. set (c := - ((- zlen es) / k)) in *.
  assert (Hp : forall i, 0 <= i -> readPage files m i size = slice es (i * k) (i * k + k)).
  { intros i Hi. unfold readPage. fold k. apply readLineRange_store; [done|]. nia. }
  clearbody c k. assert (Hc0 : 0 < c) by nia.
  split.
  - transitivity (seqZ 0 c ≫= fun i => slice es (i * k) (i * k + k)).
    + apply list_bind_ext_in. intros i Hi%elem_of_seqZ. apply Hp. lia.
    + rewrite slice_pages by lia. by apply slice_to_end.
  - intros i Hi. rewrite Hp by done. assert (0 <= i * k) by nia.
    rewrite <- zlen_nil_iff, slice_zlen by done. split; intros H1; nia.
Qed.

Definition sample_manifest : LogManifest :=
  addChunk (addChunk (manifest_new (js "now")) (part_name 1) 2 0) (part_name 2) 1 2.

Definition sample_files : gmap str str :=
  {[ part_name 1 := part_text [plain_entry 3; plain_entry 2]; part_name 2 := part_text [plain_entry 1] ]}.

Lemma sample_store : store_of sample_files sample_manifest [plain_entry 3; plain_entry 2; plain_entry 1].
Proof.
  split; [split_and!; vm_compute; try done; auto|].
  exists [[plain_entry 3; plain_entry 2]; [plain_entry 1]]. split; [|done].
  assert (Hsafe : forall n, 1 <= n <= 3 -> line_safe (stringify (plain_entry n))).
  { intros n Hn. assert (Hcases : n = 1 \/ n = 2 \/ n = 3) by lia.
    destruct_or! Hcases; subst n; apply (bool_decide_unpack _); vm_compute; exact I. }
  assert (Hst : forall n buf, sample_files !! part_name n = Some (part_text buf) -> buf <> [] ->
    Forall (fun e => line_safe (stringify e)) buf -> forall st,
    stored sample_files (Chunk (part_name n) (zlen buf) st) buf) by done.
  constructor; [|constructor; [|constructor]].
  - apply (Hst 1 [plain_entry 3; plain_entry 2]); [apply lookup_insert_eq|done|].
    constructor; [apply Hsafe; lia|]. constructor; [apply Hsafe; lia|constructor].
  - apply (Hst 2 [plain_entry 1]); [|done|].
    + unfold sample_files. rewrite lookup_insert_ne; [apply lookup_singleton_eq|].
      intros E. apply part_name_inj in E; lia.
    + constructor; [apply Hsafe; lia|constructor].
Qed.

Lemma readLineRange_slice_witness :
  readLineRange sample_files sample_manifest (fun _ => false) 1 3 = [plain_entry 2; plain_entry 1].
Proof.
  apply (readLineRange_slice sample_files sample_manifest
    [plain_entry 3; plain_entry 2; plain_entry 1] 1 3); [apply sample_store|lia].
Defined.

Lemma pages_partition_witness :
  (seqZ 0 (getPageCount sample_manifest 2) ≫= fun i => readPage sample_files sample_manifest i 2) =
    [plain_entry 3; plain_entry 2; plain_entry 1] /\
  forall i, 0 <= i -> readPage sample_files sample_manifest i 2 <> [] <->
    i < getPageCount sample_manifest 2.
Proof. apply pages_partition; [apply sample_store|done]. Defined.
