(* ===== verification/LogFilter.v ===== *)
(** * The filter of the pages

    The filter part of src/core/logs/PaginationService.ts: a query of a field is a
    list of alternatives separated by commas, each a list of words that must all
    occur; the fields process, pid and message are taken from the text of an entry.

    [toLowerCase] is an argument [lower]: only its use on both sides matters. *)

From stdpp Require Import base list strings.
From Stdlib Require Import ZArith Lia.
From S2P Require Import Prelude JsString Regex TimeParser LogEntry Json ParserEngine.

(** A filter with its fields as strings; an absent field is empty. *)
Record log_filter := Filter { f_pid : str; f_src : str; f_proc : str; f_msg : str }.

(** What a caller passes: any field may be left out. *)
Record filter_arg := FilterArg {
  fa_pid : option str; fa_src : option str; fa_proc : option str; fa_msg : option str }.

#[export] Instance log_filter_eq_dec : EqDecision log_filter.
Proof. solve_decision. Defined.

Definition normalizeFilter (f : option filter_arg) : option log_filter :=
  let s v := trim (or_else v []) in
  let norm := Filter (s (f ≫= fa_pid)) (s (f ≫= fa_src)) (s (f ≫= fa_proc)) (s (f ≫= fa_msg)) in
  if nonempty (f_pid norm) || nonempty (f_src norm) || nonempty (f_proc norm) || nonempty (f_msg norm)
  then Some norm else None.

Definition filter_json (f : log_filter) : json :=
  JObj [(js "pid", JStr (f_pid f)); (js "src", JStr (f_src f));
        (js "proc", JStr (f_proc f)); (js "msg", JStr (f_msg f))].

(** [JSON.stringify(filter)] *)
Definition filter_key (f : log_filter) : str := print_json (filter_json f).

(** [timeMatch] of [parseLine]: a text in brackets, white space, the rest of the line *)
Definition TIME_LINE_RX : re :=
  sq [Bol; chr 91; Grp 1 (plus (Cls (fun c => negb (c =? 93)))); chr 93; plus ws; Grp 2 (star dot); Eol].

(** [procMatch] of [parseLine]: a name, digits in brackets, a colon, the rest of the line *)
Definition PROC_LINE_RX : re :=
  sq [Bol; Grp 1 (plus (Cls (fun c => negb (is_ws c || (c =? 58))))); chr 91; Grp 2 (plus d); chr 93;
      chr 58; star ws; Grp 3 (star dot); Eol].

Record line_parts := LineParts { lp_proc : str; lp_pid : str; lp_msg : str }.

Definition parseLine (line : str) : line_parts :=
  let rest := match exec TIME_LINE_RX line with Some m => or_else (cap m 2) [] | None => line end in
  match exec PROC_LINE_RX rest with
  | Some m => LineParts (or_else (cap m 1) []) (or_else (cap m 2) []) (or_else (cap m 3) [])
  | None => LineParts [] [] rest
  end.

Section filter.
Context (lower : str -> str).

Definition parseGroups (q : str) : list (list str) :=
  let s := lower q in
  if negb (nonempty (trim s)) then []
  else
    map (fun g => filter (fun t => nonempty t = true) (map trim (split_ws g)))
      (filter (fun g => nonempty g = true) (map trim (split_on 44 s))).

Definition matchTextByGroups (haystack q : str) : bool :=
  let groups := parseGroups q in
  if negb (nonempty groups) then true
  else
    let s := lower haystack in
    existsb (fun andTokens => forallb (fun tok => includes s tok) andTokens) groups.

Definition matchAnyCandidateByGroups (candidates : list str) (q : str) : bool :=
  let groups := parseGroups q in
  if negb (nonempty groups) then true
  else
    let cands := filter (fun c => nonempty c = true) (map lower candidates) in
    if negb (nonempty cands) then false
    else existsb (fun andTokens =>
           existsb (fun c => forallb (fun tok => includes c tok) andTokens) cands) groups.

Definition matchesFilter (fl : option log_filter) (e : LogEntry) : bool :=
  match fl with
  | None => true
  | Some f =>
      let parsed := parseLine (e_text e) in
      let has s := nonempty (trim s) in
      if has (f_msg f) && negb (matchTextByGroups (lp_msg parsed) (f_msg f)) then false
      else if has (f_proc f) && negb (matchTextByGroups (lp_proc parsed) (f_proc f)) then false
      else if has (f_pid f) && negb (matchTextByGroups (lp_pid parsed) (f_pid f)) then false
      else if has (f_src f) && negb (matchAnyCandidateByGroups [lower (e_file e)] (f_src f)) then false
      else true
  end.
End filter.

(** ** A normalised filter is its own key *)

Lemma filter_json_inj f g : filter_json f = filter_json g -> f = g.
Proof.
  set (get := fun j => match j with
    | JObj [(_, JStr a); (_, JStr b); (_, JStr c); (_, JStr e)] => Filter a b c e
    | _ => Filter [] [] [] [] end).
  assert (H : forall f, get (filter_json f) = f) by (by intros []).
  intros E. by rewrite <- (H f), <- (H g), E.
Qed.

Lemma filter_key_inj f g rest1 rest2 :
  num_end rest1 -> num_end rest2 -> filter_key f ++ rest1 = filter_key g ++ rest2 ->
  f = g /\ rest1 = rest2.
Proof.
  intros H1 H2 E. unfold filter_key in E.
  assert (P1 := parse_print (filter_json f) 10%nat rest1 ltac:(simpl; lia) H1).
  assert (P2 := parse_print (filter_json g) 10%nat rest2 ltac:(simpl; lia) H2).
  rewrite E, P2 in P1. apply (f_equal (fun o => match o with Some p => p | None => (JNull, []) end)) in P1.
  split; [apply filter_json_inj; exact (eq_sym (f_equal fst P1))|exact (eq_sym (f_equal snd P1))].
Qed.

(** ** The fields of a line in the standard form *)

Definition standard_line (time proc pid msg : str) : str :=
  bracket time ++ js " " ++ proc ++ bracket pid ++ js ": " ++ msg.

Record standard_parts (time proc pid msg : str) : Prop := {
  sp_time : time <> [] /\ Forall (fun c => c <> 93) time;
  sp_proc : proc <> [] /\ Forall (fun c => is_ws c = false /\ c <> 58) proc;
  sp_pid : pid <> [] /\ Forall (fun c => is_digit c = true) pid;
  sp_msg : Forall (fun c => is_line_term c = false) msg /\
           match msg with c :: _ => is_ws c = false | [] => True end;
}.

Lemma line_term_ws c : is_ws c = false -> is_line_term c = false.
Proof. unfold is_ws, is_line_term. simpl. intros. lia. Qed.

Lemma dots s : Forall (fun c => is_line_term c = false) s ->
  Forall (fun c => negb (is_line_term c) = true) s.
Proof. intros H. eapply Forall_impl; [exact H|]. intros c. by intros ->. Qed.

Lemma consumed_app pv1 l t cs1 pv2 cs2 :
  consumed (Mst pv1 (l ++ t) cs1) (Mst pv2 t cs2) = l.
Proof.
  unfold consumed. cbn [m_rest]. rewrite length_app.
  replace (length l + length t - length t)%nat with (length l) by lia. apply take_app_length.
Qed.

Lemma consumed_all pv1 l cs1 pv2 cs2 : consumed (Mst pv1 l cs1) (Mst pv2 [] cs2) = l.
Proof. unfold consumed. cbn [m_rest length]. rewrite Nat.sub_0_r. apply firstn_all. Qed.

Lemma time_line time rest :
  time <> [] -> Forall (fun c => c <> 93) time ->
  Forall (fun c => is_line_term c = false) rest ->
  match rest with c :: _ => is_ws c = false | [] => True end ->
  exists m, exec TIME_LINE_RX (bracket time ++ js " " ++ rest) = Some m /\ cap m 2 = Some rest.
Proof.
  intros Hne Ht Hr Hh. destruct time as [|c time]; [done|]. apply Forall_cons in Ht as [Hc Ht].
  unfold TIME_LINE_RX, bracket. cbn [js app]. rewrite <- app_assoc. cbn [app].
  unfold sq. rewrite exec_anchored. unfold chr, plus, ws, dot, star.
  rewrite rm_sq, rm_cls by done. rewrite rm_sq, rm_grp, rm_sq, rm_cls by (by destruct (Z.eqb_spec c 93)).
  erewrite rmatch_star_run; [|eapply Forall_impl; [exact Ht|]; intros x Hx; by destruct (Z.eqb_spec x 93)
    |done|]; cycle 1.
  { cbn [m_prev m_rest m_caps]. rewrite rm_sq, rm_cls by done.
    rewrite !rm_sq, rm_cls by done.
    apply (rmatch_star_run is_ws [] rest); [constructor|done|]. cbn [last].
    rewrite rm_sq, rm_grp. eapply rmatch_star_end; [by apply dots|].
    cbn [m_prev m_rest m_caps]. rewrite rm_eol. reflexivity. }
  eexists. split; [reflexivity|]. unfold cap. cbn [rx_caps m_caps cap_lookup]. simpl.
  by rewrite consumed_all.
Qed.

Lemma proc_line proc pid msg :
  proc <> [] -> Forall (fun c => is_ws c = false /\ c <> 58) proc ->
  pid <> [] -> Forall (fun c => is_digit c = true) pid ->
  Forall (fun c => is_line_term c = false) msg ->
  match msg with c :: _ => is_ws c = false | [] => True end ->
  exists m, exec PROC_LINE_RX (proc ++ bracket pid ++ js ": " ++ msg) = Some m /\
    cap m 1 = Some proc /\ cap m 2 = Some pid /\ cap m 3 = Some msg.
Proof.
  intros Hp1 Hp2 Hd1 Hd2 Hm1 Hm2.
  destruct proc as [|c proc]; [done|]. apply Forall_cons in Hp2 as [[Hc1 Hc2] Hp2].
  destruct pid as [|d0 pid]; [done|]. apply Forall_cons in Hd2 as [Hd0 Hd2].
  set (P := fun c => negb (is_ws c || (c =? 58))).
  assert (HP : forall c, is_ws c = false -> c <> 58 -> P c = true).
  { intros x H1 H2. unfold P. rewrite H1. by destruct (Z.eqb_spec x 58). }
  assert (HPd : forall c, is_digit c = true -> P c = true).
  { intros x H1. apply HP; [by apply digit_not_ws|]. intros ->. done. }
  unfold PROC_LINE_RX. unfold sq at 1. rewrite exec_anchored. cbn [app].
  set (tail := js ": " ++ msg). unfold plus at 1. fold P.
  rewrite rm_sq, rm_grp, rm_sq, rm_cls by (by apply HP).
  erewrite (rmatch_star_back_at P proc (bracket (d0 :: pid)) tail); cycle 1.
  - apply Forall_app. split; [eapply Forall_impl; [exact Hp2|]; intros x []; by apply HP|].
    unfold bracket. cbn [js app]. constructor; [by apply HP|]. constructor; [by apply HPd|].
    apply Forall_app. split; [by eapply Forall_impl|]. repeat constructor; by apply HP.
  - done.
  - intros m1 m2 pv' E Hne. cbn [m_prev m_rest m_caps]. rewrite rm_sq. unfold chr.
    destruct m1 as [|x m1]; [done|]. unfold bracket in E. cbn [js app] in E. injection E as _ E.
    assert (Hh : match m2 ++ tail with y :: _ => y <> 91 | [] => False end).
    { assert (Hall : Forall (fun y => y <> 91) (d0 :: pid ++ [93])).
      { constructor; [by intros ->|]. apply Forall_app. split; [|by repeat constructor].
        eapply Forall_impl; [exact Hd2|]. by intros y Hy ->. }
      change (d0 :: pid ++ [93] = m1 ++ m2) in E. rewrite E in Hall.
      apply Forall_app in Hall as [_ Hall]. destruct m2 as [|y m2]; [done|].
      by apply Forall_cons in Hall as [? _]. }
    destruct (m2 ++ tail) as [|y t]; [done|]. rewrite rm_cls_no; [done|]. by destruct (Z.eqb_spec 91 y).
  - cbn [m_prev m_rest m_caps]. unfold chr, plus, star, dot, Regex.d, ws. rewrite rm_sq.
    unfold bracket. cbn [js app]. rewrite rm_cls by done. rewrite rm_sq, rm_grp, rm_sq, rm_cls by done.
    rewrite <- app_assoc. eapply rmatch_star_run; [exact Hd2|done|]. cbn [m_prev m_rest m_caps app].
    rewrite rm_sq, rm_cls by done. unfold tail. cbn [js app].
    rewrite rm_sq, rm_cls by done. rewrite rm_sq.
    change (32 :: msg) with ([32] ++ msg). eapply (rmatch_star_run is_ws [32] msg); [by repeat constructor|done|].
    cbn [last]. rewrite rm_sq, rm_grp. eapply rmatch_star_end; [by apply dots|].
    cbn [m_prev m_rest m_caps]. rewrite rm_eol. reflexivity.
  - eexists. split; [reflexivity|]. unfold cap. cbn [rx_caps m_caps cap_lookup Nat.eqb].
    rewrite consumed_all. split_and!; [| |done]; f_equal.
    + exact (consumed_app _ (c :: proc) (91 :: d0 :: pid ++ 93 :: tail) _ _ _).
    + exact (consumed_app _ (d0 :: pid) (93 :: tail) _ _ _).
Qed.

Lemma standard_line_parts time proc pid msg :
  standard_parts time proc pid msg ->
  parseLine (standard_line time proc pid msg) = LineParts proc pid msg.
Proof.
  intros [[T1 T2] [P1 P2] [D1 D2] [M1 M2]]. unfold parseLine, standard_line.
  destruct (time_line time (proc ++ bracket pid ++ js ": " ++ msg)) as (m & -> & ->); [done|done| | |].
  - apply Forall_app. split.
    { eapply Forall_impl; [exact P2|]. intros c [Hc _]. by apply line_term_ws. }
    apply Forall_app. split; [|by repeat constructor].
    unfold bracket. repeat (apply Forall_app; split); try by repeat constructor.
    eapply Forall_impl; [exact D2|]. intros c Hc. by apply line_term_ws, digit_not_ws.
  - destruct proc as [|c proc]; [done|]. apply Forall_cons in P2 as [[Hc _] _]. done.
  - cbn [or_else]. destruct (proc_line proc pid msg) as (m' & -> & -> & -> & ->); done.
Qed.

(** the filter sees the fields that the parser wrote: on a line in the form that
    [restoreFullTextIfNeeded] gives an entry, [time] in brackets, then process, pid
    in brackets, colon and message, the line splits into exactly that process, pid
    and message, whatever brackets and colons the message has. *)
Theorem parseLine_standard time proc pid msg :
  standard_parts time proc pid msg ->
  parseLine (standard_line time proc pid msg) = LineParts proc pid msg.
Proof. apply standard_line_parts. Qed.

Lemma parseLine_standard_witness :
  parseLine (js "[May  1 10:00:00] wlan[42]: deauth [7]: x") =
  LineParts (js "wlan") (js "42") (js "deauth [7]: x").
Proof.
  apply (parseLine_standard (js "May  1 10:00:00") (js "wlan") (js "42") (js "deauth [7]: x")).
  split; split; try discriminate; try reflexivity;
    apply (bool_decide_unpack _); vm_compute; exact I.
Defined.
