(* ===== verification/Pagination.v ===== *)
(** * The pages of the viewer

    [PaginationService] of src/core/logs/PaginationService.ts: the one place the
    viewer reads from.  While a merge runs it serves the warm-up buffer, then the
    part files; a filter restricts both.  The store is newest first, pages are
    numbered oldest first from 1.

    The state is explicit.  The rows of the warm-up buffer are shared: reading a
    page writes the numbers into the objects of the buffer, so a read gives a new
    buffer too.  [_fileIdx] is kept beside an entry.  Reads of the disk take its
    contents as an argument; an operation is atomic here, and the interleaving of
    the one that caches a result across reads is treated separately.

    The log output is left out, and [pendingWarned] with it. *)

From stdpp Require Import base list sorting strings gmap.
From Stdlib Require Import ZArith Lia.
From S2P Require Import Prelude JsString Regex TimeParser LogEntry Json ParserEngine Manifest.
From S2P Require Import ChunkWriter PagedReader LogFilter.

Record row := Row { r_entry : LogEntry; r_fileIdx : option Z }.

(** What is in a directory: the text of its manifest and the part files. *)
Record dir_state := DirState { d_manifest : option str; d_parts : gmap str str }.

Record pagination := Pag {
  manifestDir : option str;
  reader : option (str * LogManifest);
  version : Z;
  warmActive : bool;
  warmBuffer : list row;
  warmTotal : Z;
  pfilter : option log_filter;
  filteredTotalCache : option Z;
  filteredCacheKey : option str;
}.

Definition pagination_init : pagination := Pag None None 0 false [] 0 None None None.

(** ** State changes *)

Definition bump (p : pagination) : pagination :=
  Pag (manifestDir p) (reader p) (version p + 1) (warmActive p) (warmBuffer p) (warmTotal p)
    (pfilter p) (filteredTotalCache p) (filteredCacheKey p).

Definition invalidateFilterCache (p : pagination) : pagination :=
  Pag (manifestDir p) (reader p) (version p) (warmActive p) (warmBuffer p) (warmTotal p)
    (pfilter p) None None.

Definition with_reader (p : pagination) (dir : str) (m : LogManifest) : pagination :=
  Pag (Some dir) (Some (dir, m)) (version p) (warmActive p) (warmBuffer p) (warmTotal p)
    (pfilter p) (filteredTotalCache p) (filteredCacheKey p).

Definition with_warm (p : pagination) (active : bool) (buf : list row) (total : Z) : pagination :=
  Pag (manifestDir p) (reader p) (version p) active buf total
    (pfilter p) (filteredTotalCache p) (filteredCacheKey p).

Definition with_buffer (p : pagination) (buf : list row) : pagination :=
  with_warm p (warmActive p) buf (warmTotal p).

Definition with_cache (p : pagination) (key : str) (total : Z) : pagination :=
  Pag (manifestDir p) (reader p) (version p) (warmActive p) (warmBuffer p) (warmTotal p)
    (pfilter p) (Some total) (Some key).

Definition with_filter (p : pagination) (f : option log_filter) : pagination :=
  Pag (manifestDir p) (reader p) (version p) (warmActive p) (warmBuffer p) (warmTotal p)
    f (filteredTotalCache p) (filteredCacheKey p).

(** ** Opening and switching *)

Definition setManifestDir (fs : str -> dir_state) (dir : str) (p : pagination)
  : pagination * js_result unit :=
  if bool_decide (manifestDir p = Some dir) then (p, Ok tt)
  else
    match open_manifest (d_manifest (fs dir)) with
    | Ok m => (invalidateFilterCache (bump (with_reader p dir m)), Ok tt)
    | Throws => (p, Throws)
    end.

Definition clearWarmup (p : pagination) : pagination :=
  if warmActive p then bump (with_warm p false [] 0) else p.

Definition reload (fs : str -> dir_state) (p : pagination) : pagination * js_result unit :=
  match manifestDir p with
  | None => (p, Ok tt)
  | Some dir =>
      let p1 := clearWarmup p in
      match open_manifest (d_manifest (fs dir)) with
      | Ok m => (invalidateFilterCache (bump (with_reader p1 dir m)), Ok tt)
      | Throws => (p1, Throws)
      end
  end.

Definition seedWarmupBuffer (entries : list LogEntry) (virtualTotal : Z) (p : pagination)
  : pagination :=
  let buf := map (fun e => Row e None) entries in
  bump (with_warm p (nonempty buf) buf (Z.max (zlen buf) virtualTotal)).

(** ** Totals and filter *)

Definition getWarmTotal (p : pagination) : Z :=
  if warmTotal p =? 0 then zlen (warmBuffer p) else warmTotal p.

Definition getFileTotal (p : pagination) : option Z :=
  match reader p with Some (_, m) => Some (m_mergedLines m) | None => None end.

Definition isFilterActive (p : pagination) : bool :=
  match pfilter p with
  | Some f => existsb (fun v => nonempty (trim v)) [f_pid f; f_src f; f_proc f; f_msg f]
  | None => false
  end.

Definition setFilter (f : option filter_arg) (p : pagination) : pagination :=
  let norm := normalizeFilter f in
  let prevKey := filter_key <$> pfilter p in
  let nextKey := filter_key <$> norm in
  let p1 := with_filter p norm in
  if bool_decide (prevKey = nextKey) then p1 else bump (invalidateFilterCache p1).

(** [`${baseKey}@v${this.version}${this.warmActive ? ':warm' : ':file'}`] *)
Definition cache_key (f : log_filter) (version : Z) (warm : bool) : str :=
  filter_key f ++ js "@v" ++ print_int version ++ (if warm then js ":warm" else js ":file").

Definition mapAscToDescRange (total s e : Z) : Z * Z :=
  (Z.max 0 (total - e), Z.min total (total - s + 1)).

(** [z | 0] *)
Definition to_int32 (z : Z) : Z :=
  let m := z mod 2 ^ 32 in if m <? 2 ^ 31 then m else m - 2 ^ 32.

Definition set_row_idx (r : row) (idx : Z) : row := Row (set_idx (r_entry r) (Some idx)) (r_fileIdx r).

(** A number in the space of a filter; the number of the file is kept once. *)
Definition refile_row (r : row) (idx : Z) : row :=
  Row (set_idx (r_entry r) (Some idx))
    (match r_fileIdx r with Some n => Some n | None => e_idx (r_entry r) end).

Definition fresh_rows (es : list LogEntry) : list row := map (fun e => Row e None) es.

(** [for (let i...) rows[i].idx = s + i] *)
Definition number_rows (s : Z) (rows : list row) : list row :=
  imap (fun i r => set_row_idx r (s + Z.of_nat i)) rows.

Definition reindexFiltered (rows : list row) (startIdx : Z) : list row :=
  imap (fun i r => refile_row r (startIdx + Z.of_nat i)) rows.

(** The rows of the buffer at the positions from [ps] to [pe], numbered from the
    last one on. *)
Definition number_range (buf : list row) (ps pe s : Z) : list row :=
  imap (fun i r => if (ps <=? Z.of_nat i) && (Z.of_nat i <? pe)
                   then set_row_idx r (s + (pe - 1 - Z.of_nat i)) else r) buf.

Definition warm_slice (p : pagination) (s e : Z) : pagination * list row :=
  let '(physStart, physEndExcl) := mapAscToDescRange (zlen (warmBuffer p)) s e in
  let buf := number_range (warmBuffer p) physStart physEndExcl s in
  (with_buffer p buf, rev (slice buf physStart physEndExcl)).

Definition FILTER_WINDOW : Z := 2000.
Definition TOTAL_WINDOW : Z := 5000.
Definition SEARCH_WINDOW : Z := 4000.

(** ** Reading *)

Section reading.
Context {J : JsonCodec} {LS : LineSplitter} `{RE : RegExpEngine}.
Context (lower : str -> str).

Definition row_matches (p : pagination) (r : row) : bool := matchesFilter lower (pfilter p) (r_entry r).

Definition read_range (fs : str -> dir_state) (rd : str * LogManifest) (from toExcl : Z)
  : list LogEntry :=
  readLineRange (d_parts (fs (fst rd))) (snd rd) (fun _ => false) from toExcl.

(** The loop over the rows of a window, oldest first: [v] counts the matches. *)
Fixpoint scan_window (mt : LogEntry -> bool) (want startIdx : Z) (rows : list LogEntry) (v : Z)
    (out : list LogEntry) : Z * list LogEntry :=
  match rows with
  | [] => (v, out)
  | e :: es =>
      if negb (mt e) then scan_window mt want startIdx es v out
      else if v + 1 <? startIdx then scan_window mt want startIdx es (v + 1) out
      else
        let out1 := out ++ [e] in
        if want <=? zlen out1 then (v + 1, out1) else scan_window mt want startIdx es (v + 1) out1
  end.

(** The windows from the oldest line on; every round moves [tail] down. *)
Fixpoint filtered_loop (fuel : nat) (rr : Z -> Z -> list LogEntry) (mt : LogEntry -> bool)
    (want startIdx tail v : Z) (out : list LogEntry) : list LogEntry :=
  match fuel with
  | O => out
  | S f =>
      if (0 <? tail) && (zlen out <? want) then
        let from := Z.max 0 (tail - FILTER_WINDOW) in
        let '(v1, out1) := scan_window mt want startIdx (rev (rr from tail)) v out in
        filtered_loop f rr mt want startIdx (tail - FILTER_WINDOW) v1 out1
      else out
  end.

(** The rows of the buffer, oldest first, with the numbers of the matches from
    [s0] to [s0 + want] in the space of the filter. *)
Fixpoint refile_matches (mt : row -> bool) (s0 want startIdx k : Z) (rows : list row) : list row :=
  match rows with
  | [] => []
  | r :: rs =>
      if mt r then
        (if (s0 <=? k) && (k <? s0 + want) then refile_row r (startIdx + (k - s0)) else r)
          :: refile_matches mt s0 want startIdx (k + 1) rs
      else r :: refile_matches mt s0 want startIdx k rs
  end.

Definition readRangeFiltered (fs : str -> dir_state) (p : pagination) (startIdx endIdx : Z)
  : pagination * list row :=
  if endIdx <? startIdx then (p, [])
  else
    let want := Z.max 0 (endIdx - startIdx + 1) in
    if warmActive p then
      let s0 := Z.max 0 (startIdx - 1) in
      let asc := refile_matches (row_matches p) s0 want startIdx 0 (rev (warmBuffer p)) in
      (with_buffer p (rev asc),
       slice (filter (fun r => row_matches p r = true) asc) s0 (s0 + want))
    else
      match reader p with
      | None => (p, [])
      | Some rd =>
          let total := m_mergedLines (snd rd) in
          if total <=? 0 then (p, [])
          else
            let out := filtered_loop (Z.to_nat total) (read_range fs rd)
                         (matchesFilter lower (pfilter p)) want startIdx total 0 [] in
            (p, reindexFiltered (fresh_rows out) startIdx)
      end.

Definition file_range (fs : str -> dir_state) (p : pagination) (startIdx endIdx : Z)
  : pagination * list row :=
  match reader p with
  | None => (p, [])
  | Some rd =>
      if endIdx <? startIdx then (p, [])
      else
        let reportedTotal := or_else (getTotalLines (snd rd)) 0 in
        let total := if 0 <? m_mergedLines (snd rd) then m_mergedLines (snd rd) else reportedTotal in
        if total <=? 0 then (p, [])
        else
          let s := Z.max 1 (Z.min total startIdx) in
          let e := Z.max 1 (Z.min total endIdx) in
          if e <? s then (p, [])
          else
            let '(physStart, physEndExcl) := mapAscToDescRange total s e in
            if physEndExcl <=? physStart then (p, [])
            else (p, number_rows s (fresh_rows (rev (read_range fs rd physStart physEndExcl))))
  end.

Definition readRangeByIdx (fs : str -> dir_state) (p : pagination) (startIdx endIdx : Z)
  : pagination * list row :=
  if isFilterActive p then readRangeFiltered fs p startIdx endIdx
  else if warmActive p then
    if (endIdx <? startIdx) || (endIdx <=? 0) then (p, [])
    else
      let N := zlen (warmBuffer p) in
      if N =? 0 then
        match reader p with None => (p, []) | Some _ => file_range fs p startIdx endIdx end
      else if (N <? startIdx) && (N <? endIdx) then
        match reader p with
        | Some _ => file_range fs p startIdx endIdx
        | None =>
            let win := Z.max 1 (to_int32 (endIdx - startIdx + 1)) in
            warm_slice p (Z.max 1 (N - win + 1)) N
        end
      else warm_slice p (Z.max 1 (Z.min N startIdx)) (Z.max 1 (Z.min N endIdx))
  else file_range fs p startIdx endIdx.

(** ** The number of matches *)

Fixpoint count_loop (fuel : nat) (rr : Z -> Z -> list LogEntry) (mt : LogEntry -> bool)
    (from total cnt : Z) : Z :=
  match fuel with
  | O => cnt
  | S f =>
      if from <? total then
        let part := rr from (Z.min total (from + TOTAL_WINDOW)) in
        count_loop f rr mt (from + TOTAL_WINDOW) total
          (cnt + zlen (filter (fun e => mt e = true) part))
      else cnt
  end.

Definition getFilteredTotal (fs : str -> dir_state) (p : pagination) : pagination * Z :=
  match pfilter p with
  | None => (p, if warmActive p then getWarmTotal p else or_else (getFileTotal p) 0)
  | Some f =>
      let key := cache_key f (version p) (warmActive p) in
      let compute :=
        if warmActive p then
          let total := zlen (filter (fun r => row_matches p r = true) (warmBuffer p)) in
          (with_cache p key total, total)
        else
          match reader p with
          | None => (p, 0)
          | Some rd =>
              let totalLines := m_mergedLines (snd rd) in
              let cnt := count_loop (Z.to_nat totalLines) (read_range fs rd)
                           (matchesFilter lower (pfilter p)) 0 totalLines 0 in
              (with_cache p key cnt, cnt)
          end in
      match filteredTotalCache p with
      | Some n => if bool_decide (filteredCacheKey p = Some key) then (p, n) else compute
      | None => compute
      end
  end.

(** ** Search *)

Record search_opts := SearchOpts { so_regex : bool; so_range : option (Z * Z); so_top : option Z }.

Record hit := Hit { h_idx : Z; h_text : str }.

Definition inRange (o : search_opts) (k : Z) : bool :=
  match so_range o with
  | None => true
  | Some (a, b) => (Z.max 1 a <=? k) && (k <=? Z.max 1 b)
  end.

Definition wantMore (o : search_opts) (hits : list hit) : bool :=
  match so_top o with
  | None => true
  | Some t => (t =? 0) || (zlen hits <? t)
  end.

(** The loop over the rows of a window, oldest first *)
Fixpoint search_window (o : search_opts) (mt : LogEntry -> bool) (test : str -> bool)
    (rows : list LogEntry) (v : Z) (hits : list hit) : Z * list hit :=
  match rows with
  | [] => (v, hits)
  | e :: es =>
      if negb (mt e) then search_window o mt test es v hits
      else if negb (inRange o (v + 1)) then search_window o mt test es (v + 1) hits
      else if test (e_text e) then
        let hits1 := hits ++ [Hit (v + 1) (e_text e)] in
        if negb (wantMore o hits1) then (v + 1, hits1) else search_window o mt test es (v + 1) hits1
      else search_window o mt test es (v + 1) hits
  end.

Fixpoint search_loop (fuel : nat) (o : search_opts) (rr : Z -> Z -> list LogEntry)
    (mt : LogEntry -> bool) (test : str -> bool) (tail v : Z) (hits : list hit) : list hit :=
  match fuel with
  | O => hits
  | S f =>
      if (0 <? tail) && wantMore o hits then
        let from := Z.max 0 (tail - SEARCH_WINDOW) in
        let '(v1, hits1) := search_window o mt test (rev (rr from tail)) v hits in
        search_loop f o rr mt test (tail - SEARCH_WINDOW) v1 hits1
      else hits
  end.

(** [test]: every text matches an empty query *)
Definition search_test (q : str) (rx : option regexp) (txt : str) : bool :=
  if negb (nonempty q) then true
  else match rx with Some r => re_test r txt | None => includes (lower txt) (lower q) end.

(** A query that is no valid expression throws. *)
Definition searchAll (fs : str -> dir_state) (p : pagination) (q : str) (o : search_opts)
  : js_result (list hit) :=
  let compiled :=
    if so_regex o && nonempty q then
      match new_RegExp q true with Some r => Ok (Some r) | None => Throws end
    else Ok None in
  match compiled with
  | Throws => Throws
  | Ok rx =>
      let test := search_test q rx in
      if warmActive p then
        let asc := rev (map r_entry (filter (fun r => row_matches p r = true) (warmBuffer p))) in
        Ok (snd (search_window o (fun _ => true) test asc 0 []))
      else
        match reader p with
        | None => Ok []
        | Some rd =>
            let total := m_mergedLines (snd rd) in
            if total <=? 0 then Ok []
            else Ok (search_loop (Z.to_nat total) o (read_range fs rd)
                       (matchesFilter lower (pfilter p)) test total 0 [])
        end
  end.
End reading.
