(* ===== verification/PaginationSpec.v ===== *)
(** * What the pages show

    The abstract view of [PaginationService]: one list of entries, oldest first.
    A service [serves] a list either from its warm-up buffer or from a complete
    store; the operations that read are then functions of that list alone, so the
    viewer sees no difference between the two modes. *)

From stdpp Require Import base list sorting strings gmap.
From Stdlib Require Import ZArith Lia.
From S2P Require Import Prelude JsString Regex TimeParser LogEntry Json ParserEngine Manifest.
From S2P Require Import ChunkWriter PagedReader LogFilter Pagination Warmup.

(** An entry without its number, which every read sets anew. *)
Definition bare (e : LogEntry) : LogEntry := set_idx e None.

Definition number_entries (s : Z) (es : list LogEntry) : list LogEntry :=
  imap (fun i e => set_idx e (Some (s + Z.of_nat i))) es.

(** The page from [s] to [e] of a list, both cut to the list. *)
Definition page (asc : list LogEntry) (s e : Z) : list LogEntry :=
  if e <? s then []
  else
    let n := zlen asc in
    let s' := Z.max 1 (Z.min n s) in
    let e' := Z.max 1 (Z.min n e) in
    number_entries s' (slice asc (s' - 1) e').

(** The page from [s] to [e] of the matching entries. *)
Definition filtered_page (mt : LogEntry -> bool) (asc : list LogEntry) (s e : Z) : list LogEntry :=
  if e <? s then []
  else
    let s0 := Z.max 0 (s - 1) in
    number_entries s (slice (filter (fun x => mt x = true) asc) s0 (s0 + (e - s + 1))).

(** The numbers a search is asked for: a range is cut to numbers from 1 on. *)
Definition in_window (o : search_opts) (k : Z) : bool :=
  match so_range o with
  | None => true
  | Some (a, b) => bool_decide (Z.max 1 a <= k <= Z.max 1 b)
  end.

(** All hits in the order of the list, with the number of the matching entry. *)
Fixpoint hits_of (o : search_opts) (mt : LogEntry -> bool) (test : str -> bool) (v : Z)
    (asc : list LogEntry) : list hit :=
  match asc with
  | [] => []
  | e :: es =>
      if mt e then
        (if in_window o (v + 1) && test (e_text e) then [Hit (v + 1) (e_text e)] else [])
          ++ hits_of o mt test (v + 1) es
      else hits_of o mt test v es
  end.

(** [top] cuts the list, if it is given and not zero. *)
Definition cut_hits (o : search_opts) (hs : list hit) : list hit :=
  match so_top o with
  | Some t => if t =? 0 then hs else take (Z.to_nat t) hs
  | None => hs
  end.

(** ** Lists *)

Lemma rev_lookup {A} (l : list A) (i : nat) :
  (i < length l)%nat -> rev l !! i = l !! (length l - S i)%nat.
Proof.
  intros H. rewrite rev_alt. change (rev_append l []) with (reverse l). by apply reverse_lookup.
Qed.

Lemma slice_lookup_all {A} (l : list A) s e (i : nat) :
  0 <= s -> slice l s e !! i = if Z.of_nat i <? e - s then l !! (Z.to_nat s + i)%nat else None.
Proof.
  intros Hs. destruct (Z.ltb_spec (Z.of_nat i) (e - s)); [by apply slice_lookup|].
  unfold slice. apply lookup_take_ge. lia.
Qed.

Lemma slice_rev {A} (l : list A) a b :
  0 <= a -> a <= b <= zlen l -> slice (rev l) a b = rev (slice l (zlen l - b) (zlen l - a)).
Proof.
  intros Ha Hb. apply list_eq. intros i. rewrite slice_lookup_all by done.
  assert (Hlen : length (slice l (zlen l - b) (zlen l - a)) = Z.to_nat (b - a)).
  { assert (H := slice_zlen l (zlen l - b) (zlen l - a) ltac:(lia)). unfold zlen in H at 1. lia. }
  unfold zlen in *. destruct (Z.ltb_spec (Z.of_nat i) (b - a)).
  - rewrite !rev_lookup by lia. rewrite Hlen, slice_lookup_all by lia.
    destruct (Z.ltb_spec (Z.of_nat (Z.to_nat (b - a) - S i)) (Z.of_nat (length l) - a - (Z.of_nat (length l) - b))); [|lia].
    f_equal. lia.
  - symmetry. apply lookup_ge_None. rewrite length_rev, Hlen. lia.
Qed.

Lemma rev_slice {A} (l : list A) a b :
  0 <= a -> a <= b <= zlen l -> rev (slice l a b) = slice (rev l) (zlen l - b) (zlen l - a).
Proof.
  intros Ha Hb. rewrite slice_rev by lia.
  replace (zlen l - (zlen l - a)) with a by lia. by replace (zlen l - (zlen l - b)) with b by lia.
Qed.

Lemma slice_nil {A} s e : slice (@nil A) s e = [].
Proof. unfold slice. by rewrite drop_nil, take_nil. Qed.

Lemma zlen_rev {A} (l : list A) : zlen (rev l) = zlen l.
Proof. unfold zlen. by rewrite length_rev. Qed.

Lemma zlen_map {A B} (f : A -> B) l : zlen (map f l) = zlen l.
Proof. unfold zlen. by rewrite length_map. Qed.

Lemma map_slice {A B} (f : A -> B) l s e : map f (slice l s e) = slice (map f l) s e.
Proof. unfold slice. by rewrite skipn_map, firstn_map. Qed.

Lemma map_lookup {A B} (f : A -> B) l (i : nat) : map f l !! i = f <$> l !! i.
Proof. apply list_lookup_fmap. Qed.

Lemma number_bare s es : number_entries s (map bare es) = number_entries s es.
Proof.
  unfold number_entries. apply list_eq. intros i. rewrite !list_lookup_imap, map_lookup.
  by destruct (es !! i).
Qed.

Lemma zlen_number s es : zlen (number_entries s es) = zlen es.
Proof. unfold number_entries, zlen. by rewrite length_imap. Qed.

Lemma page_nonempty asc s e : 1 <= s <= e -> s <= zlen asc -> page asc s e <> [].
Proof.
  intros Hs Hn E. unfold page in E. destruct (Z.ltb_spec e s); [lia|]. cbv zeta in E.
  apply (f_equal zlen) in E. rewrite zlen_number, slice_length in E by lia. unfold zlen in E at 3. cbn in E. lia.
Qed.

Lemma filter_map {A B} (f : A -> B) (mt : B -> bool) l :
  filter (fun x => mt x = true) (map f l) = map f (filter (fun x => mt (f x) = true) l).
Proof.
  induction l as [|x l IH]; [done|]. cbn [map]. rewrite !filter_cons.
  repeat case_decide; try done. cbn [map]. by rewrite IH.
Qed.

Lemma filter_rev {A} (mt : A -> bool) l :
  filter (fun x => mt x = true) (rev l) = rev (filter (fun x => mt x = true) l).
Proof.
  induction l as [|x l IH]; [done|]. cbn [rev]. rewrite filter_app, IH, !filter_cons.
  case_decide; cbn [rev]; [done|]. by rewrite app_nil_r.
Qed.

(** ** The loops over windows *)

Section windows.
Context (es : list LogEntry) (rr : Z -> Z -> list LogEntry).
Hypothesis Hrr : forall a b, 0 <= a -> rr a b = slice es a b.

(** The part of the reversed list that starts [tail] before its end. *)
Definition from_tail (tail : Z) : list LogEntry := slice (rev es) (zlen es - tail) (zlen es).

Lemma from_tail_neg tail : tail <= 0 -> from_tail tail = [].
Proof. intros H. apply slice_past. rewrite zlen_rev. lia. Qed.

Lemma from_tail_all : from_tail (zlen es) = rev es.
Proof. unfold from_tail. rewrite Z.sub_diag, slice_to_end; [done|]. rewrite zlen_rev. lia. Qed.

Lemma from_tail_split tail w :
  0 < tail <= zlen es -> 0 < w ->
  from_tail tail = rev (rr (Z.max 0 (tail - w)) tail) ++ from_tail (tail - w).
Proof.
  intros Ht Hw. rewrite Hrr by lia. rewrite rev_slice by lia. unfold from_tail.
  destruct (Z.le_gt_cases 0 (tail - w)).
  - rewrite Z.max_r by lia. symmetry. apply slice_glue; lia.
  - rewrite Z.max_l by lia. rewrite (slice_past (rev es) (zlen es - (tail - w))) by (rewrite zlen_rev; lia).
    rewrite app_nil_r. f_equal. lia.
Qed.

Lemma scan_window_app mt want s a b v out :
  zlen out < want ->
  scan_window mt want s (a ++ b) v out =
  let '(v1, out1) := scan_window mt want s a v out in
  if zlen out1 <? want then scan_window mt want s b v1 out1 else (v1, out1).
Proof.
  revert v out. induction a as [|e a IH]; intros v out Hlt; cbn [app scan_window].
  { by destruct (Z.ltb_spec (zlen out) want); [|lia]. }
  destruct (negb (mt e)); [by apply IH|]. destruct (v + 1 <? s); [by apply IH|].
  destruct (Z.leb_spec want (zlen (out ++ [e]))) as [H|H]; [|by apply IH].
  by destruct (Z.ltb_spec (zlen (out ++ [e])) want); [lia|].
Qed.

Lemma filtered_loop_scan mt want s fuel tail v out :
  (Z.to_nat tail <= fuel)%nat -> tail <= zlen es -> zlen out < want ->
  filtered_loop fuel rr mt want s tail v out = snd (scan_window mt want s (from_tail tail) v out).
Proof.
  revert tail v out. induction fuel as [|f IH]; intros tail v out Hf Ht Hlt; cbn [filtered_loop].
  { by rewrite from_tail_neg by lia. }
  destruct (Z.ltb_spec 0 tail); [|cbn [andb]; by rewrite from_tail_neg].
  destruct (Z.ltb_spec (zlen out) want); [|lia]. cbn [andb].
  rewrite (from_tail_split tail FILTER_WINDOW) by (unfold FILTER_WINDOW; lia).
  rewrite scan_window_app by done.
  destruct (scan_window mt want s (rev (rr (Z.max 0 (tail - FILTER_WINDOW)) tail)) v out) as [v1 out1].
  destruct (Z.ltb_spec (zlen out1) want).
  - apply IH; unfold FILTER_WINDOW; lia.
  - destruct f; cbn [filtered_loop]; [done|].
    destruct (Z.ltb_spec (zlen out1) want); [lia|]. by rewrite andb_false_r.
Qed.

Lemma scan_window_slice mt want s rows seen :
  0 < want -> let s0 := Z.max 0 (s - 1) in
  zlen (slice seen s0 (s0 + want)) < want ->
  snd (scan_window mt want s rows (zlen seen) (slice seen s0 (s0 + want))) =
  slice (seen ++ filter (fun x => mt x = true) rows) s0 (s0 + want).
Proof.
  intros Hw s0. revert seen. induction rows as [|e rows IH]; intros seen Hlt; cbn [scan_window].
  { by rewrite app_nil_r. }
  rewrite filter_cons. destruct (mt e) eqn:Em; cbn [negb].
  2: { rewrite decide_False by done. by apply IH. }
  rewrite decide_True by done.
  replace (zlen seen + 1) with (zlen (seen ++ [e])) by (by rewrite zlen_app).
  change (e :: filter (fun x => mt x = true) rows) with ([e] ++ filter (fun x => mt x = true) rows).
  rewrite app_assoc.
  assert (Hs : slice (seen ++ [e]) s0 (s0 + want) =
    slice seen s0 (s0 + want) ++ if zlen (seen ++ [e]) <? s then [] else [e]).
  { assert (Hl := Hlt). assert (Hnn := zlen_nonneg seen). rewrite slice_zlen in Hl by lia.
    rewrite slice_app. f_equal. rewrite zlen_app. change (zlen [e]) with 1.
    rewrite slice_cons. rewrite slice_nil, app_nil_r.
    destruct (Z.ltb_spec (zlen seen + 1) s), (Z.leb_spec (s0 - zlen seen) 0),
      (Z.ltb_spec 0 (s0 + want - zlen seen)); cbn [andb]; try done; lia. }
  destruct (Z.ltb_spec (zlen (seen ++ [e])) s) as [Hv|Hv].
  - rewrite app_nil_r in Hs. rewrite <- Hs in Hlt |- *. by apply IH.
  - rewrite <- Hs. destruct (Z.leb_spec want (zlen (slice (seen ++ [e]) s0 (s0 + want)))) as [Hf|Hf].
    + cbn [snd]. rewrite (slice_app (seen ++ [e])). rewrite (slice_neg (filter _ rows)); [by rewrite app_nil_r|].
      rewrite slice_zlen in Hf by lia. lia.
    + by apply IH.
Qed.

Lemma filtered_loop_spec mt want s :
  0 < want -> let s0 := Z.max 0 (s - 1) in
  filtered_loop (Z.to_nat (zlen es)) rr mt want s (zlen es) 0 [] =
  slice (filter (fun x => mt x = true) (rev es)) s0 (s0 + want).
Proof.
  intros Hw s0. rewrite filtered_loop_scan by (done || lia). rewrite from_tail_all.
  assert (Hn : slice (@nil LogEntry) s0 (s0 + want) = []) by apply slice_nil.
  assert (H := scan_window_slice mt want s (rev es) [] Hw). cbv zeta in H. fold s0 in H.
  rewrite Hn in H. apply H. done.
Qed.

Lemma count_loop_spec mt fuel from cnt :
  0 <= from -> (Z.to_nat (zlen es - from) <= fuel)%nat ->
  count_loop fuel rr mt from (zlen es) cnt =
  cnt + zlen (filter (fun x => mt x = true) (slice es from (zlen es))).
Proof.
  revert from cnt. induction fuel as [|f IH]; intros from cnt Hfrom Hf; cbn [count_loop].
  { rewrite slice_past by lia. change (zlen (filter _ [])) with 0. lia. }
  destruct (Z.ltb_spec from (zlen es)).
  2: { rewrite slice_past by lia. change (zlen (filter _ [])) with 0. lia. }
  rewrite IH by (unfold TOTAL_WINDOW; lia). rewrite Hrr by done.
  destruct (Z.le_gt_cases (from + TOTAL_WINDOW) (zlen es)).
  - rewrite Z.min_r by done.
    rewrite <- (slice_glue es from (from + TOTAL_WINDOW) (zlen es)) by (unfold TOTAL_WINDOW in *; lia).
    rewrite filter_app, zlen_app. lia.
  - rewrite Z.min_l by lia. rewrite (slice_past es (from + TOTAL_WINDOW)) by lia.
    change (zlen (filter _ [])) with 0. lia.
Qed.
End windows.

(** ** The search *)

Lemma search_window_app o mt test a b v hits :
  wantMore o hits = true ->
  search_window o mt test (a ++ b) v hits =
  let '(v1, hits1) := search_window o mt test a v hits in
  if wantMore o hits1 then search_window o mt test b v1 hits1 else (v1, hits1).
Proof.
  revert v hits. induction a as [|e a IH]; intros v hits Hm; cbn [app search_window]; [by rewrite Hm|].
  destruct (negb (mt e)); [by apply IH|]. destruct (negb (inRange o (v + 1))); [by apply IH|].
  destruct (test (e_text e)); [|by apply IH].
  destruct (wantMore o (hits ++ [Hit (v + 1) (e_text e)])) eqn:E; cbn [negb]; [by apply IH|].
  by rewrite E.
Qed.

Lemma search_loop_scan es rr o mt test fuel tail v hits :
  (forall a b, 0 <= a -> rr a b = slice es a b) ->
  (Z.to_nat tail <= fuel)%nat -> tail <= zlen es -> wantMore o hits = true ->
  search_loop fuel o rr mt test tail v hits =
  snd (search_window o mt test (from_tail es tail) v hits).
Proof.
  intros Hrr. revert tail v hits. induction fuel as [|f IH]; intros tail v hits Hf Ht Hm; cbn [search_loop].
  { by rewrite from_tail_neg by lia. }
  destruct (Z.ltb_spec 0 tail); [|cbn [andb]; by rewrite from_tail_neg].
  rewrite Hm. cbn [andb].
  rewrite (from_tail_split es rr Hrr tail SEARCH_WINDOW) by (unfold SEARCH_WINDOW; lia).
  rewrite search_window_app by done.
  destruct (search_window o mt test (rev (rr (Z.max 0 (tail - SEARCH_WINDOW)) tail)) v hits) as [v1 hits1].
  destruct (wantMore o hits1) eqn:E.
  - apply IH; [unfold SEARCH_WINDOW; lia|unfold SEARCH_WINDOW; lia|done].
  - destruct f; cbn [search_loop]; [done|]. by rewrite E, andb_false_r.
Qed.

Lemma cut_full o hits more :
  wantMore o hits = false -> match so_top o with Some t => 0 <= t | None => True end ->
  (forall h hs, hits = hs ++ [h] -> wantMore o hs = true) -> hits <> [] ->
  cut_hits o (hits ++ more) = hits.
Proof.
  unfold wantMore, cut_hits. destruct (so_top o) as [t|]; [|done]. intros Hf Ht Hprev Hne.
  destruct (Z.eqb_spec t 0); [done|]. cbn [orb] in *.
  destruct (exists_last Hne) as (hs & h & E). specialize (Hprev h hs E).
  assert (zlen hits = zlen hs + 1) by (by rewrite E, zlen_app). unfold zlen in *.
  apply take_app_length'. lia.
Qed.

Lemma inRange_window o k : inRange o k = in_window o k.
Proof.
  unfold inRange, in_window. destruct (so_range o) as [[a b]|]; [|done].
  case_bool_decide as H; lia.
Qed.

Lemma cut_all o hits : wantMore o hits = true -> cut_hits o hits = hits.
Proof.
  unfold wantMore, cut_hits. destruct (so_top o) as [t|]; [|done].
  destruct (Z.eqb_spec t 0); [done|]. cbn [orb]. intros H%Z.ltb_lt. unfold zlen in H. apply take_ge. lia.
Qed.

Lemma search_window_spec o mt test rows v hits :
  match so_top o with Some t => 0 <= t | None => True end -> wantMore o hits = true ->
  snd (search_window o mt test rows v hits) = cut_hits o (hits ++ hits_of o mt test v rows).
Proof.
  intros Ht. revert v hits. induction rows as [|e rows IH]; intros v hits Hm;
    cbn [search_window hits_of].
  { by rewrite app_nil_r, cut_all. }
  destruct (mt e); cbn [negb]; [|by apply IH].
  rewrite inRange_window. destruct (in_window o (v + 1)); cbn [negb andb]; [|by apply IH].
  destruct (test (e_text e)); [|by apply IH].
  rewrite app_assoc. destruct (wantMore o (hits ++ [Hit (v + 1) (e_text e)])) eqn:E; cbn [negb].
  - by apply IH.
  - cbn [snd]. symmetry. apply cut_full; [done|done| |by destruct hits].
    intros h hs Eq. apply app_inj_tail in Eq as [<- _]. done.
Qed.

Lemma hits_of_filter o mt test v rows :
  hits_of o (fun _ => true) test v (filter (fun x => mt x = true) rows) = hits_of o mt test v rows.
Proof.
  revert v. induction rows as [|e rows IH]; intros v; [done|]. rewrite filter_cons. cbn [hits_of].
  destruct (mt e); [rewrite decide_True by done|rewrite decide_False by done; apply IH].
  cbn [hits_of]. by rewrite IH.
Qed.

(** Numbers do not matter to the search. *)
Lemma hits_of_bare o mt test v rows :
  (forall e, mt (bare e) = mt e) -> hits_of o mt test v (map bare rows) = hits_of o mt test v rows.
Proof.
  intros Hb. revert v. induction rows as [|e rows IH]; intros v; [done|]. cbn [map hits_of].
  rewrite Hb, !IH. done.
Qed.

Lemma wantMore_nil o : match so_top o with Some t => 0 <= t | None => True end -> wantMore o [] = true.
Proof.
  unfold wantMore. destruct (so_top o) as [t|]; [|done]. intros H.
  destruct (Z.eqb_spec t 0); [done|]. cbn [orb]. apply Z.ltb_lt. unfold zlen. simpl. lia.
Qed.

(** ** The service *)

Section service.
Context {J : JsonCodec} {JL : JsonLaws} {LS : LineSplitter} {LL : LineSplitterLaws}.
Context `{RE : RegExpEngine}.
Context (lower : str -> str) (fs : str -> dir_state).

(** The service shows the list [asc], oldest first. *)
Definition serves (p : pagination) (asc : list LogEntry) : Prop :=
  if warmActive p then warmBuffer p <> [] /\ map (fun r => bare (r_entry r)) (rev (warmBuffer p)) = asc
  else exists rd es, reader p = Some rd /\ store_of (d_parts (fs (fst rd))) (snd rd) es /\
         map bare (rev es) = asc.

Lemma read_range_store rd es a b :
  store_of (d_parts (fs (fst rd))) (snd rd) es -> 0 <= a -> read_range fs rd a b = slice es a b.
Proof. intros Hst Ha. unfold read_range. by apply readLineRange_store. Qed.

Lemma match_bare f e : matchesFilter lower f (bare e) = matchesFilter lower f e.
Proof. by destruct f. Qed.

Lemma fresh_rows_entries es : map r_entry (fresh_rows es) = es.
Proof. unfold fresh_rows. rewrite map_map. cbn [r_entry]. apply map_id. Qed.

Lemma number_rows_entries s rows : map r_entry (number_rows s rows) = number_entries s (map r_entry rows).
Proof.
  unfold number_rows, number_entries. apply list_eq. intros i.
  rewrite map_lookup, !list_lookup_imap, map_lookup. by destruct (rows !! i).
Qed.

Lemma reindex_entries s rows : map r_entry (reindexFiltered rows s) = number_entries s (map r_entry rows).
Proof.
  unfold reindexFiltered, number_entries. apply list_eq. intros i.
  rewrite map_lookup, !list_lookup_imap, map_lookup. by destruct (rows !! i).
Qed.

(** *** A page of the store *)

Lemma file_range_page p rd es s e :
  reader p = Some rd -> store_of (d_parts (fs (fst rd))) (snd rd) es -> es <> [] ->
  file_range fs p s e = (p, snd (file_range fs p s e)) /\
  map r_entry (snd (file_range fs p s e)) = page (map bare (rev es)) s e.
Proof.
  intros Hr Hst Hne. assert (Hn := store_lines _ _ _ Hst). assert (Hpos := zlen_pos es Hne).
  unfold file_range, page. rewrite Hr. rewrite zlen_map, zlen_rev.
  destruct (Z.ltb_spec e s); [done|]. rewrite Hn.
  destruct (Z.ltb_spec 0 (zlen es)); [|lia]. destruct (Z.leb_spec (zlen es) 0); [lia|].
  set (s' := Z.max 1 (Z.min (zlen es) s)). set (e' := Z.max 1 (Z.min (zlen es) e)).
  assert (Hs : 1 <= s' <= e' /\ e' <= zlen es) by lia.
  destruct (Z.ltb_spec e' s'); [lia|]. unfold mapAscToDescRange.
  destruct (Z.leb_spec (Z.min (zlen es) (zlen es - s' + 1)) (Z.max 0 (zlen es - e'))); [lia|].
  split; [done|]. cbn [snd]. rewrite number_rows_entries, fresh_rows_entries.
  rewrite (read_range_store _ _ _ _ Hst) by lia. rewrite rev_slice by lia.
  rewrite <- map_slice, number_bare. do 2 f_equal; lia.
Qed.

(** *** A page of the buffer *)

Lemma warm_slice_page p s e :
  1 <= s <= e -> e <= zlen (warmBuffer p) ->
  map r_entry (snd (warm_slice p s e)) =
  number_entries s (slice (map (fun r => bare (r_entry r)) (rev (warmBuffer p))) (s - 1) e).
Proof.
  intros Hs He. unfold warm_slice, mapAscToDescRange. cbn [snd].
  set (N := zlen (warmBuffer p)). replace (Z.max 0 (N - e)) with (N - e) by lia.
  replace (Z.min N (N - s + 1)) with (N - s + 1) by lia.
  set (buf := number_range (warmBuffer p) (N - e) (N - s + 1) s).
  assert (Hlen : zlen buf = N) by (unfold buf, number_range, zlen; by rewrite length_imap).
  rewrite rev_slice by lia. rewrite Hlen.
  replace (N - (N - s + 1)) with (s - 1) by lia. replace (N - (N - e)) with e by lia.
  rewrite map_slice. apply list_eq. intros i. unfold number_entries.
  rewrite list_lookup_imap, !slice_lookup_all by lia.
  destruct (Z.ltb_spec (Z.of_nat i) (e - (s - 1))); [|done].
  rewrite !map_lookup. set (k := (Z.to_nat (s - 1) + i)%nat).
  assert (Hk : (k < length (warmBuffer p))%nat) by (unfold N, zlen in *; lia).
  assert (Hl : length buf = length (warmBuffer p)) by (unfold zlen in *; lia).
  rewrite !rev_lookup by lia. rewrite Hl. unfold buf, number_range. rewrite list_lookup_imap.
  destruct (warmBuffer p !! (length (warmBuffer p) - S k)%nat) as [r|]; [|done]. cbn [fmap option_fmap option_map].
  assert (Hpos : ((N - e <=? Z.of_nat (length (warmBuffer p) - S k)) &&
    (Z.of_nat (length (warmBuffer p) - S k) <? N - s + 1)) = true).
  { apply andb_true_intro. split; [apply Z.leb_le|apply Z.ltb_lt]; unfold N, zlen in *; lia. }
  rewrite Hpos. cbn [set_row_idx r_entry]. f_equal. unfold bare. cbn.
  unfold set_idx. cbn. f_equal. f_equal. unfold N, zlen in *. lia.
Qed.

Lemma number_range_bare buf ps pe s :
  map (fun r => bare (r_entry r)) (number_range buf ps pe s) = map (fun r => bare (r_entry r)) buf.
Proof.
  apply list_eq. intros i. rewrite !map_lookup. unfold number_range. rewrite list_lookup_imap.
  destruct (buf !! i); [|done]. cbn [fmap option_fmap option_map]. by destruct (_ && _).
Qed.

Lemma number_range_nil buf ps pe s : number_range buf ps pe s <> [] <-> buf <> [].
Proof. unfold number_range. destruct buf; [done|]. by rewrite imap_cons. Qed.

(** Reading a page leaves what the service shows as it is. *)
Lemma warm_slice_serves p s e asc :
  warmActive p = true -> serves p asc -> serves (fst (warm_slice p s e)) asc.
Proof.
  unfold serves. intros Hw. unfold warm_slice, mapAscToDescRange. cbn [fst with_buffer with_warm warmActive].
  rewrite Hw. cbn [warmBuffer]. intros [Hne Hm]. split; [by apply number_range_nil|].
  etrans; [|exact Hm]. rewrite !map_rev. f_equal. apply number_range_bare.
Qed.

Lemma readRangeByIdx_page p asc s e :
  serves p asc -> asc <> [] -> isFilterActive p = false -> 1 <= e -> s <= zlen asc ->
  map r_entry (snd (readRangeByIdx lower fs p s e)) = page asc s e /\
  serves (fst (readRangeByIdx lower fs p s e)) asc.
Proof.
  intros Hsv Hne Hf He Hs. unfold readRangeByIdx. rewrite Hf. destruct (warmActive p) eqn:Hw.
  - assert (Hsv' := Hsv). unfold serves in Hsv'. rewrite Hw in Hsv'. destruct Hsv' as [Hb Hasc].
    assert (Hz : zlen asc = zlen (warmBuffer p)) by (by rewrite <- Hasc, zlen_map, zlen_rev).
    assert (Hpos := zlen_pos _ Hb). destruct (Z.leb_spec e 0); [lia|].
    destruct (Z.ltb_spec e s) as [Hlt|Hle]; cbn [orb].
    { unfold page. by destruct (Z.ltb_spec e s); [|lia]. }
    destruct (Z.eqb_spec (zlen (warmBuffer p)) 0); [lia|].
    destruct (Z.ltb_spec (zlen (warmBuffer p)) s); [lia|]. cbn [andb].
    split; [|by apply warm_slice_serves]. rewrite warm_slice_page by lia. unfold page.
    destruct (Z.ltb_spec e s); [lia|]. by rewrite Hasc, Hz.
  - assert (Hsv' := Hsv). unfold serves in Hsv'. rewrite Hw in Hsv'.
    destruct Hsv' as (rd & es & Hr & Hst & Hasc).
    destruct (file_range_page p rd es s e Hr Hst) as [Hfst Hpg].
    { intros ->. by subst asc. }
    split; [by rewrite Hpg, Hasc|]. by rewrite Hfst.
Qed.

(** *** Pages of the matches *)

Lemma refile_bare mt s0 want st k rows :
  map (fun r => bare (r_entry r)) (refile_matches mt s0 want st k rows) =
  map (fun r => bare (r_entry r)) rows.
Proof.
  revert k. induction rows as [|r rows IH]; intros k; [done|]. cbn [refile_matches].
  destruct (mt r); cbn [map]; rewrite IH; [|done]. by destruct (_ && _).
Qed.

Lemma refile_filter p s0 want st k rows :
  filter (fun r => row_matches lower p r = true) (refile_matches (row_matches lower p) s0 want st k rows) =
  imap (fun i r => if (s0 <=? k + Z.of_nat i) && (k + Z.of_nat i <? s0 + want)
                   then refile_row r (st + (k + Z.of_nat i - s0)) else r)
    (filter (fun r => row_matches lower p r = true) rows).
Proof.
  revert k. induction rows as [|r rows IH]; intros k; [done|]. cbn [refile_matches].
  assert (Hm : forall i, row_matches lower p (refile_row r i) = row_matches lower p r).
  { intros i. unfold row_matches. by destruct (pfilter p). }
  destruct (row_matches lower p r) eqn:E.
  - rewrite (filter_cons_True _ r) by done. rewrite imap_cons. rewrite Z.add_0_r.
    rewrite filter_cons_True by (case_match; [by rewrite Hm|done]). f_equal. rewrite IH.
    apply imap_ext. intros i x _. cbn. by replace (k + 1 + Z.of_nat i) with (k + Z.of_nat (S i)) by lia.
  - rewrite !filter_cons_False by (by rewrite E). apply IH.
Qed.

Lemma warm_filtered p s0 want st :
  0 <= s0 ->
  map r_entry (slice (filter (fun r => row_matches lower p r = true)
    (refile_matches (row_matches lower p) s0 want st 0 (rev (warmBuffer p)))) s0 (s0 + want)) =
  number_entries st (slice (filter (fun x => matchesFilter lower (pfilter p) x = true)
    (map (fun r => bare (r_entry r)) (rev (warmBuffer p)))) s0 (s0 + want)).
Proof.
  intros Hs0. rewrite refile_filter.
  assert (Hf : filter (fun x => matchesFilter lower (pfilter p) x = true)
      (map (fun r => bare (r_entry r)) (rev (warmBuffer p))) =
    map (fun r => bare (r_entry r)) (filter (fun r => row_matches lower p r = true) (rev (warmBuffer p)))).
  { rewrite (filter_map (fun r => bare (r_entry r)) (matchesFilter lower (pfilter p))). done. }
  rewrite Hf. apply list_eq. intros i. unfold number_entries.
  rewrite map_lookup, list_lookup_imap, !slice_lookup_all, map_lookup by done.
  destruct (Z.ltb_spec (Z.of_nat i) (s0 + want - s0)); [|done].
  rewrite list_lookup_imap.
  destruct (filter _ (rev (warmBuffer p)) !! (Z.to_nat s0 + i)%nat) as [r|]; [|done]. cbn [fmap option_fmap option_map].
  destruct (Z.leb_spec s0 (0 + Z.of_nat (Z.to_nat s0 + i))); [|lia].
  destruct (Z.ltb_spec (0 + Z.of_nat (Z.to_nat s0 + i)) (s0 + want)); [|lia]. cbn.
  unfold set_idx, bare. cbn. do 3 f_equal. lia.
Qed.

Lemma readRangeFiltered_page p asc s e :
  serves p asc ->
  map r_entry (snd (readRangeFiltered lower fs p s e)) =
    filtered_page (matchesFilter lower (pfilter p)) asc s e /\
  serves (fst (readRangeFiltered lower fs p s e)) asc.
Proof.
  intros Hsv. unfold readRangeFiltered, filtered_page. destruct (Z.ltb_spec e s); [done|].
  replace (Z.max 0 (e - s + 1)) with (e - s + 1) by lia.
  assert (Hsv' := Hsv). unfold serves in Hsv'. destruct (warmActive p) eqn:Hw.
  - destruct Hsv' as [Hb Hasc]. cbn [fst snd]. split.
    + rewrite warm_filtered by lia. by rewrite Hasc.
    + unfold serves. cbn [with_buffer with_warm warmActive warmBuffer]. rewrite Hw, rev_involutive.
      split; [|by rewrite refile_bare].
      intros E. apply (f_equal (map (fun r => bare (r_entry r)))) in E.
      rewrite map_rev, refile_bare, map_rev, rev_involutive in E. by destruct (warmBuffer p).
  - destruct Hsv' as (rd & es & Hr & Hst & Hasc). rewrite Hr. rewrite (store_lines _ _ _ Hst).
    destruct (Z.leb_spec (zlen es) 0).
    { split; [|done]. assert (es = []) as ->.
      { destruct es; [done|]. unfold zlen in *. simpl in *. lia. }
      subst asc. cbn [map rev]. change (filter _ []) with (@nil LogEntry). by rewrite slice_nil. }
    cbn [fst snd]. split; [|done]. rewrite reindex_entries, fresh_rows_entries.
    rewrite (filtered_loop_spec es _ (fun a b Ha => read_range_store rd es a b Hst Ha)) by lia.
    subst asc. rewrite (filter_map bare (matchesFilter lower (pfilter p))), <- map_slice, number_bare.
    done.
Qed.

(** *** The number of matches and the search *)

Definition match_count (p : pagination) (asc : list LogEntry) : Z :=
  zlen (filter (fun x => matchesFilter lower (pfilter p) x = true) asc).

Lemma count_warm p asc :
  serves p asc -> warmActive p = true ->
  zlen (filter (fun r => row_matches lower p r = true) (warmBuffer p)) = match_count p asc.
Proof.
  unfold serves, match_count. intros Hsv Hw. rewrite Hw in Hsv. destruct Hsv as [_ <-].
  rewrite (filter_map (fun r => bare (r_entry r)) (matchesFilter lower (pfilter p))), zlen_map.
  rewrite (filter_rev (fun r => matchesFilter lower (pfilter p) (bare (r_entry r)))), zlen_rev.
  done.
Qed.

Lemma count_file p asc rd es :
  reader p = Some rd -> store_of (d_parts (fs (fst rd))) (snd rd) es -> map bare (rev es) = asc ->
  count_loop (Z.to_nat (m_mergedLines (snd rd))) (read_range fs rd) (matchesFilter lower (pfilter p)) 0
    (m_mergedLines (snd rd)) 0 = match_count p asc.
Proof.
  intros Hr Hst <-. rewrite (store_lines _ _ _ Hst).
  rewrite (count_loop_spec es _ (fun a b Ha => read_range_store rd es a b Hst Ha)) by lia.
  rewrite slice_all. unfold match_count.
  rewrite (filter_map bare (matchesFilter lower (pfilter p))), zlen_map.
  rewrite (filter_rev (fun r => matchesFilter lower (pfilter p) (bare r))), zlen_rev.
  done.
Qed.

Lemma searchAll_hits p asc q o rx :
  serves p asc -> match so_top o with Some t => 0 <= t | None => True end ->
  (if so_regex o && nonempty q then match new_RegExp q true with Some r => Ok (Some r) | None => Throws end
   else Ok None) = Ok rx ->
  searchAll lower fs p q o =
  Ok (cut_hits o (hits_of o (matchesFilter lower (pfilter p)) (search_test lower q rx) 0 asc)).
Proof.
  intros Hsv Ht Hrx. unfold searchAll. rewrite Hrx. assert (Hsv' := Hsv). unfold serves in Hsv'.
  assert (Hmb := match_bare (pfilter p)). destruct (warmActive p) eqn:Hw.
  - destruct Hsv' as [_ Hasc]. rewrite search_window_spec by (done || by apply wantMore_nil).
    cbn [app]. do 2 f_equal. subst asc.
    rewrite <- (hits_of_filter o (matchesFilter lower (pfilter p))).
    rewrite (filter_map (fun r => bare (r_entry r)) (matchesFilter lower (pfilter p))).
    rewrite <- (map_map r_entry bare), hits_of_bare by done.
    rewrite (filter_rev (fun r => matchesFilter lower (pfilter p) (bare (r_entry r)))), map_rev.
    done.
  - destruct Hsv' as (rd & es & Hr & Hst & Hasc). rewrite Hr, (store_lines _ _ _ Hst).
    destruct (Z.leb_spec (zlen es) 0).
    { assert (es = []) as ->.
      { destruct es; [done|]. unfold zlen in *. simpl in *. lia. }
      subst asc. cbn [rev map hits_of]. unfold cut_hits. destruct (so_top o) as [t|]; [|done].
      by destruct (t =? 0); rewrite ?take_nil. }
    rewrite (search_loop_scan es) by
      first [lia | by apply wantMore_nil | intros a b Ha; by apply read_range_store].
    rewrite from_tail_all, search_window_spec by (done || by apply wantMore_nil). cbn [app].
    subst asc. by rewrite hits_of_bare.
Qed.
End service.

(** ** The contract of the service *)

Section contract.
Context {J : JsonCodec} {JL : JsonLaws} {LS : LineSplitter} {LL : LineSplitterLaws}.
Context `{RE : RegExpEngine}.
Context (lower : str -> str) (fs : str -> dir_state).

(** C4: a page is the same from memory and from disk: a service that shows a list
    answers a request for the rows [s] to [e] that touches the list with exactly these
    rows, oldest first, numbered with their positions; whether the list is in the
    warm-up buffer (newest first, shared with earlier answers) or in part files does
    not matter, and the answer changes nothing that is shown. *)
Theorem page_refinement p asc s e :
  serves fs p asc -> asc <> [] -> isFilterActive p = false -> 1 <= e -> s <= zlen asc ->
  map r_entry (snd (readRangeByIdx lower fs p s e)) = page asc s e /\
  serves fs (fst (readRangeByIdx lower fs p s e)) asc.
Proof. apply readRangeByIdx_page. Qed.

(** C9: with a filter, a page is the page of the matching entries: the scan in windows
    of 2000 lines from the oldest end, with its early exits, gives the same rows as
    filtering the whole list, in both modes. *)
Theorem filtered_page_refinement p asc s e :
  serves fs p asc -> isFilterActive p = true ->
  map r_entry (snd (readRangeByIdx lower fs p s e)) =
    filtered_page (matchesFilter lower (pfilter p)) asc s e /\
  serves fs (fst (readRangeByIdx lower fs p s e)) asc.
Proof.
  intros Hsv Hf. unfold readRangeByIdx. rewrite Hf. by apply readRangeFiltered_page.
Qed.

(** C10: a search gives the hits of the whole list in order, cut to [top]: the scan in
    windows of 4000 lines, with its early exit, is the search through the list of
    matching entries, each hit with its number among them, in both modes. *)
Theorem search_refinement p asc q o rx :
  serves fs p asc -> match so_top o with Some t => 0 <= t | None => True end ->
  (if so_regex o && nonempty q then match new_RegExp q true with Some r => Ok (Some r) | None => Throws end
   else Ok None) = Ok rx ->
  searchAll lower fs p q o =
  Ok (cut_hits o (hits_of o (matchesFilter lower (pfilter p)) (search_test lower q rx) 0 asc)).
Proof. apply searchAll_hits. Qed.
End contract.

Definition sample_disk (dir : str) : dir_state :=
  DirState (Some (manifest_text sample_manifest)) sample_files.

Definition sample_service : pagination :=
  fst (setManifestDir sample_disk (js "/out") pagination_init).

Lemma sample_service_reader :
  sample_service = Pag (Some (js "/out")) (Some (js "/out", sample_manifest)) 1 false [] 0 None None None.
Proof.
  unfold sample_service, setManifestDir, sample_disk. cbn [d_manifest pagination_init manifestDir].
  rewrite bool_decide_eq_false_2 by done. rewrite open_saved; [done|].
  split_and!; vm_compute; try done; auto.
Qed.

Definition three_entries : list LogEntry := [plain_entry 1; plain_entry 2; plain_entry 3].

Lemma sample_serves f :
  serves sample_disk (with_filter sample_service f) three_entries.
Proof.
  rewrite sample_service_reader. exists (js "/out", sample_manifest),
    [plain_entry 3; plain_entry 2; plain_entry 1]. split_and!; [done|exact sample_store|done].
Qed.

Lemma page_refinement_witness :
  map r_entry (snd (readRangeByIdx ascii_lower sample_disk (with_filter sample_service None) 2 9)) =
    page three_entries 2 9 /\
  serves sample_disk (fst (readRangeByIdx ascii_lower sample_disk
    (with_filter sample_service None) 2 9)) three_entries.
Proof.
  apply page_refinement; [apply sample_serves|done|done|lia|vm_compute; discriminate].
Defined.

Definition msg_filter (m : str) : option log_filter := Some (Filter [] [] [] m).

Lemma filtered_page_refinement_witness :
  let p := with_filter sample_service (msg_filter (js "3 , 1")) in
  map r_entry (snd (readRangeByIdx ascii_lower sample_disk p 2 2)) =
    filtered_page (matchesFilter ascii_lower (pfilter p)) three_entries 2 2 /\
  serves sample_disk (fst (readRangeByIdx ascii_lower sample_disk p 2 2)) three_entries.
Proof.
  intros p. apply filtered_page_refinement; [apply sample_serves|].
  unfold p. rewrite sample_service_reader. vm_compute. reflexivity.
Defined.

Lemma search_refinement_witness :
  let p := with_filter sample_service None in
  searchAll (RE := no_engine) ascii_lower sample_disk p (js "2") (SearchOpts false None (Some 5)) =
  Ok [Hit 2 (js "2")].
Proof.
  intros p.
  assert (H := @search_refinement _ _ _ _ no_engine ascii_lower sample_disk p three_entries (js "2")
    (SearchOpts false None (Some 5)) None (sample_serves None) ltac:(cbn; lia) eq_refl).
  rewrite H. unfold p. rewrite sample_service_reader. vm_compute. reflexivity.
Defined.
