(* ===== verification/PaginationCache.v ===== *)
(** * The version and the cached total of the pages

    [PaginationService] answers requests while its data changes.  Its version is
    part of the key of the cached number of matches, and is sent along with the
    pages.  The number of matches of a store is counted window by window, with an
    [await] at each: here any other operation may come in between, and the disk may
    grow.  The system is a step relation; a count in progress is a [flight]. *)

From stdpp Require Import base list sorting strings gmap.
From Stdlib Require Import ZArith Lia.
From S2P Require Import Prelude JsString Regex TimeParser LogEntry Json ParserEngine Manifest.
From S2P Require Import ChunkWriter PagedReader LogFilter Pagination PaginationSpec Warmup.

Section cache.
Context {J : JsonCodec} {JL : JsonLaws} {LS : LineSplitter} {LL : LineSplitterLaws}.
Context (lower : str -> str).

(** An operation that runs without interruption *)
Inductive pag_op (fs : str -> dir_state) (p : pagination) : pagination -> Prop :=
| op_setDir dir : pag_op fs p (fst (setManifestDir fs dir p))
| op_reload : pag_op fs p (fst (reload fs p))
| op_seed es n : pag_op fs p (seedWarmupBuffer es n p)
| op_clear : pag_op fs p (clearWarmup p)
| op_filter f : pag_op fs p (setFilter f p)
| op_read s e : pag_op fs p (fst (readRangeByIdx lower fs p s e))
| op_total_warm : warmActive p = true -> pag_op fs p (fst (getFilteredTotal lower fs p)).

Record flight := Flight {
  fl_filter : log_filter; fl_version : Z; fl_total : Z; fl_from : Z; fl_cnt : Z }.

Record sys := Sys { sy_disk : str -> dir_state; sy_p : pagination; sy_flights : list flight }.

(** Part files are only added. *)
Definition grows (fs fs' : str -> dir_state) : Prop :=
  forall dir, d_parts (fs dir) ⊆ d_parts (fs' dir).

(** The parts of a manifest are on disk before the manifest is saved. *)
Definition consistent (fs : str -> dir_state) : Prop :=
  forall dir m, open_manifest (d_manifest (fs dir)) = Ok m -> exists es, store_of (d_parts (fs dir)) m es.

Inductive sys_step : sys -> sys -> Prop :=
| step_disk fs fs' p fl : grows fs fs' -> consistent fs' -> sys_step (Sys fs p fl) (Sys fs' p fl)
| step_op fs p fl p' : pag_op fs p p' -> sys_step (Sys fs p fl) (Sys fs p' fl)
| step_count fs p fl f rd :
    pfilter p = Some f -> warmActive p = false -> reader p = Some rd ->
    sys_step (Sys fs p fl) (Sys fs p (Flight f (version p) (m_mergedLines (snd rd)) 0 0 :: fl))
| step_window fs p fl1 x fl2 rd :
    fl_from x < fl_total x -> reader p = Some rd ->
    sys_step (Sys fs p (fl1 ++ x :: fl2))
      (Sys fs p (fl1 ++ Flight (fl_filter x) (fl_version x) (fl_total x) (fl_from x + TOTAL_WINDOW)
        (fl_cnt x + zlen (filter (fun e => matchesFilter lower (pfilter p) e = true)
           (read_range fs rd (fl_from x) (Z.min (fl_total x) (fl_from x + TOTAL_WINDOW))))) :: fl2))
| step_finish fs p fl1 x fl2 :
    fl_total x <= fl_from x ->
    sys_step (Sys fs p (fl1 ++ x :: fl2))
      (Sys fs (with_cache p (cache_key (fl_filter x) (fl_version x) false) (fl_cnt x)) (fl1 ++ fl2)).

Inductive reachable : sys -> Prop :=
| reach_init fs : consistent fs -> reachable (Sys fs pagination_init [])
| reach_step s s' : reachable s -> sys_step s s' -> reachable s'.

(** What the pages depend on *)
Definition view (p : pagination) :=
  (pfilter p, warmActive p, warmTotal p, map (fun r => bare (r_entry r)) (warmBuffer p),
   reader p, manifestDir p).

(** ** The version *)

Lemma filter_key_eq (o1 o2 : option log_filter) :
  filter_key <$> o1 = filter_key <$> o2 -> o1 = o2.
Proof.
  destruct o1 as [f|], o2 as [g|]; try done. intros E. apply (inj Some) in E. f_equal.
  destruct (filter_key_inj f g [] []) as [? _]; [done|done|by rewrite E|done].
Qed.

Lemma read_view fs p s e : view (fst (readRangeByIdx lower fs p s e)) = view p /\
  version (fst (readRangeByIdx lower fs p s e)) = version p /\
  filteredCacheKey (fst (readRangeByIdx lower fs p s e)) = filteredCacheKey p /\
  filteredTotalCache (fst (readRangeByIdx lower fs p s e)) = filteredTotalCache p.
Proof.
  assert (Hslice : forall a b, view (fst (warm_slice p a b)) = view p /\
    version (fst (warm_slice p a b)) = version p /\
    filteredCacheKey (fst (warm_slice p a b)) = filteredCacheKey p /\
    filteredTotalCache (fst (warm_slice p a b)) = filteredTotalCache p).
  { intros a b. unfold warm_slice, mapAscToDescRange. split_and!; [|done..].
    unfold view. cbn [fst with_buffer with_warm pfilter warmActive warmTotal warmBuffer reader manifestDir].
    by rewrite number_range_bare. }
  assert (Hfile : fst (file_range fs p s e) = p).
  { unfold file_range, mapAscToDescRange. by repeat case_match. }
  unfold readRangeByIdx. destruct (isFilterActive p).
  - unfold readRangeFiltered. destruct (e <? s); [done|]. destruct (warmActive p) eqn:Hw.
    + split_and!; [|done..]. unfold view.
      cbn [fst with_buffer with_warm pfilter warmActive warmTotal warmBuffer reader manifestDir].
      by rewrite map_rev, refile_bare, map_rev, rev_involutive.
    + by repeat case_match.
  - destruct (warmActive p); [|by rewrite Hfile].
    destruct ((e <? s) || (e <=? 0)); [done|]. destruct (zlen (warmBuffer p) =? 0).
    { destruct (reader p); [by rewrite Hfile|done]. }
    destruct ((zlen (warmBuffer p) <? s) && (zlen (warmBuffer p) <? e)); [|apply Hslice].
    destruct (reader p); [by rewrite Hfile|apply Hslice].
Qed.

(** One operation: the version never falls, and if it stays, so does the view. *)
Lemma op_version fs p p' :
  pag_op fs p p' ->
  version p <= version p' /\ (version p' = version p -> view p' = view p).
Proof.
  assert (Hclear : version p <= version (clearWarmup p) /\
    (version (clearWarmup p) = version p -> view (clearWarmup p) = view p)).
  { unfold clearWarmup. destruct (warmActive p); [|done]. split; cbn; [lia|lia]. }
  destruct 1 as [dir| |es n| |f|s e|Hw].
  - unfold setManifestDir. case_bool_decide; [done|]. destruct (open_manifest _); [|done].
    cbn. split; lia.
  - unfold reload. destruct (manifestDir p) as [dir|]; [|done].
    destruct (open_manifest _); [|exact Hclear]. cbn. split; lia.
  - cbn. split; lia.
  - exact Hclear.
  - unfold setFilter. case_bool_decide as E; [|cbn; split; lia]. split; [done|]. intros _.
    apply filter_key_eq in E. unfold view, with_filter. cbn. by rewrite <- E.
  - destruct (read_view fs p s e) as (Hv & Hn & _). rewrite Hn, Hv. split; [lia|done].
  - unfold getFilteredTotal. destruct (pfilter p); [|done]. rewrite Hw. by repeat case_match.
Qed.

(** ** Stores *)

Lemma store_mono files files' m es : files ⊆ files' -> store_of files m es -> store_of files' m es.
Proof.
  intros Hs [Ht (bufs & Hst & Hc)]. split; [done|]. exists bufs. split; [|done].
  eapply Forall2_impl; [exact Hst|]. intros c b (H1 & H2). split; [by eapply lookup_weaken|done].
Qed.

Lemma store_unique files m es1 es2 : store_of files m es1 -> store_of files m es2 -> es1 = es2.
Proof.
  intros H1 H2. assert (L1 := store_lines _ _ _ H1). assert (L2 := store_lines _ _ _ H2).
  assert (R1 := readLineRange_store files m es1 0 (zlen es1) H1 ltac:(lia)).
  assert (R2 := readLineRange_store files m es2 0 (zlen es1) H2 ltac:(lia)).
  rewrite slice_all in R1. rewrite R1 in R2. rewrite R2. apply slice_to_end. lia.
Qed.

Definition reader_ok (fs : str -> dir_state) (p : pagination) : Prop :=
  forall rd, reader p = Some rd -> exists es, store_of (d_parts (fs (fst rd))) (snd rd) es.

Lemma serves_shrink fs fs' p asc :
  grows fs fs' -> reader_ok fs p -> serves fs' p asc -> serves fs p asc.
Proof.
  unfold serves. intros Hg Hok. destruct (warmActive p); [done|].
  intros (rd & es & Hr & Hst & Hasc). destruct (Hok rd Hr) as [es0 H0].
  exists rd, es0. split_and!; [done|done|]. rewrite <- Hasc. do 2 f_equal.
  eapply store_unique; [|exact Hst]. eapply store_mono; [apply Hg|done].
Qed.

Lemma serves_view fs p p' asc : view p' = view p -> serves fs p' asc -> serves fs p asc.
Proof.
  unfold view, serves. intros E. injection E as _ E2 _ E4 E5 _. rewrite E2, E5.
  destruct (warmActive p); [|done]. intros [Hne Hasc]. split.
  - intros Hb. rewrite Hb in E4. cbn in E4. by destruct (warmBuffer p').
  - rewrite map_rev, <- E4, <- map_rev. done.
Qed.

Lemma count_view p p' asc : view p' = view p -> match_count lower p' asc = match_count lower p asc.
Proof. unfold view, match_count. intros E. injection E as -> _ _ _ _ _. done. Qed.

(** ** Keys *)

Lemma cache_key_inj f v w f' v' w' :
  cache_key f v w = cache_key f' v' w' -> f = f' /\ v = v' /\ w = w'.
Proof.
  intros E. unfold cache_key in E. apply filter_key_inj in E as [-> E]; [|done|done].
  apply app_inv_head in E.
  assert (P1 := parse_number_int v (if w then js ":warm" else js ":file") ltac:(by destruct w)).
  assert (P2 := parse_number_int v' (if w' then js ":warm" else js ":file") ltac:(by destruct w')).
  rewrite E, P2 in P1. injection P1 as -> Ew. by destruct w, w'.
Qed.

(** ** The invariant *)

Definition cache_inv (fs : str -> dir_state) (p : pagination) : Prop :=
  forall key n, filteredCacheKey p = Some key -> filteredTotalCache p = Some n ->
  exists f v w, key = cache_key f v w /\ v <= version p /\
    (v = version p -> forall asc, serves fs p asc -> n = match_count lower p asc).

Definition flight_inv (fs : str -> dir_state) (p : pagination) (x : flight) : Prop :=
  fl_version x <= version p /\ 0 <= fl_from x /\
  (fl_version x = version p ->
   warmActive p = false /\ exists rd, reader p = Some rd /\ fl_total x = m_mergedLines (snd rd) /\
     forall es, store_of (d_parts (fs (fst rd))) (snd rd) es ->
     fl_cnt x = zlen (filter (fun e => matchesFilter lower (pfilter p) e = true)
                        (slice es 0 (Z.min (fl_from x) (fl_total x))))).

Record sys_inv (s : sys) : Prop := {
  si_disk : consistent (sy_disk s);
  si_reader : reader_ok (sy_disk s) (sy_p s);
  si_cache : cache_inv (sy_disk s) (sy_p s);
  si_flights : Forall (flight_inv (sy_disk s) (sy_p s)) (sy_flights s);
}.

(** What an operation does to the reader *)
Lemma op_reader fs p p' : consistent fs -> reader_ok fs p -> pag_op fs p p' -> reader_ok fs p'.
Proof.
  intros Hc Hok. assert (Hsame : reader p' = reader p -> reader_ok fs p').
  { unfold reader_ok. by intros ->. }
  assert (Hclear : reader (clearWarmup p) = reader p) by (unfold clearWarmup; by destruct (warmActive p)).
  destruct 1 as [dir| |es n| |f|s e|Hw]; try (by apply Hsame).
  - unfold setManifestDir. case_bool_decide; [exact Hok|].
    destruct (open_manifest (d_manifest (fs dir))) as [m|] eqn:E; [|exact Hok].
    intros rd [= <-]. by apply (Hc dir).
  - unfold reload. destruct (manifestDir p) as [dir|]; [|exact Hok].
    destruct (open_manifest (d_manifest (fs dir))) as [m|] eqn:E.
    2: { unfold reader_ok. cbn [fst]. by rewrite Hclear. }
    intros rd [= <-]. by apply (Hc dir).
  - apply Hsame. unfold setFilter. by case_bool_decide.
  - apply Hsame. destruct (read_view fs p s e) as [Hv _]. unfold view in Hv. by injection Hv.
  - apply Hsame. unfold getFilteredTotal. rewrite Hw. by repeat case_match.
Qed.

(** What an operation does to the cache: it is kept, cleared, or set to the number
    of matches in the buffer. *)
Lemma op_cache fs p p' :
  pag_op fs p p' ->
  (filteredCacheKey p' = filteredCacheKey p /\ filteredTotalCache p' = filteredTotalCache p) \/
  filteredCacheKey p' = None \/
  (view p' = view p /\ version p' = version p /\
   (exists f, filteredCacheKey p' = Some (cache_key f (version p) true)) /\
   forall asc, serves fs p asc -> filteredTotalCache p' = Some (match_count lower p asc)) .
Proof.
  assert (Hclear : filteredCacheKey (clearWarmup p) = filteredCacheKey p /\
    filteredTotalCache (clearWarmup p) = filteredTotalCache p)
    by (unfold clearWarmup; by destruct (warmActive p)).
  destruct 1 as [dir| |es n| |f|s e|Hw].
  - unfold setManifestDir. case_bool_decide; [by left|]. destruct (open_manifest _); [by right; left|by left].
  - unfold reload. destruct (manifestDir p) as [dir|]; [|by left].
    destruct (open_manifest _); [by right; left|by left].
  - by left.
  - by left.
  - unfold setFilter. case_bool_decide; [by left|by right; left].
  - left. by destruct (read_view fs p s e) as (_ & _ & H1 & H2).
  - unfold getFilteredTotal. destruct (pfilter p) as [f|] eqn:Ef; [|by left]. rewrite Hw.
    assert (Hset : forall asc, serves fs p asc ->
      Some (zlen (filter (fun r => row_matches lower p r = true) (warmBuffer p))) =
      Some (match_count lower p asc)) by (intros asc Hsv; f_equal; by apply (count_warm lower fs)).
    destruct (filteredTotalCache p) eqn:Ec; [case_bool_decide; [by left|]|]; right; right;
      (split_and!; [done|done|by exists f|exact Hset]).
Qed.

Lemma inv_disk fs fs' p fl :
  sys_inv (Sys fs p fl) -> grows fs fs' -> consistent fs' -> sys_inv (Sys fs' p fl).
Proof.
  intros [H1 H2 H3 H4] Hg Hc. cbn [sy_disk sy_p sy_flights] in *.
  constructor; cbn [sy_disk sy_p sy_flights]; [done| | |].
  - intros rd Hr. destruct (H2 rd Hr) as [es Hes]. exists es. eapply store_mono; [apply Hg|done].
  - intros key n Hk Hn. destruct (H3 key n Hk Hn) as (f & v & w & -> & Hv & Hcnt).
    exists f, v, w. split_and!; [done|done|]. intros E asc Hsv. apply (Hcnt E).
    by eapply serves_shrink.
  - eapply Forall_impl; [exact H4|]. intros x (Hv & Hf & Hcnt). split_and!; [done|done|].
    intros E. destruct (Hcnt E) as (Hw & rd & Hr & Ht & Hes). split; [done|]. exists rd.
    split_and!; [done|done|]. intros es Hst. destruct (H2 rd Hr) as [es0 H0].
    assert (es = es0) as -> by (eapply store_unique; [exact Hst|]; eapply store_mono; [apply Hg|done]).
    by apply Hes.
Qed.

Lemma inv_op fs p p' fl : sys_inv (Sys fs p fl) -> pag_op fs p p' -> sys_inv (Sys fs p' fl).
Proof.
  intros [H1 H2 H3 H4] Hop. cbn [sy_disk sy_p sy_flights] in *.
  destruct (op_version fs p p' Hop) as [Hle Hsame].
  constructor; cbn [sy_disk sy_p sy_flights]; [done|by eapply op_reader| |].
  - intros key n Hk Hn. destruct (op_cache fs p p' Hop) as [[K N]|[K|(Hv & Hver & [f K] & Hset)]].
    + rewrite K in Hk. rewrite N in Hn. destruct (H3 key n Hk Hn) as (f & v & w & -> & Hv & Hcnt).
      exists f, v, w. split_and!; [done|lia|]. intros E asc Hsv.
      assert (Hview := Hsame ltac:(lia)). rewrite (count_view p p') by done.
      apply Hcnt; [lia|]. by eapply serves_view.
    + by rewrite K in Hk.
    + rewrite K in Hk. injection Hk as <-. exists f, (version p), true. split_and!; [done|lia|].
      intros _ asc Hsv. rewrite (count_view p p') by done.
      rewrite (Hset asc (serves_view fs p p' asc Hv Hsv)) in Hn. by injection Hn.
  - eapply Forall_impl; [exact H4|]. intros x (Hv & Hf & Hcnt). split_and!; [lia|done|].
    intros E. assert (Hview := Hsame ltac:(lia)). destruct (Hcnt ltac:(lia)) as (Hw & rd & Hr & Hrest).
    unfold view in Hview. injection Hview as -> -> _ _ -> _. split; [done|]. by exists rd.
Qed.

Lemma inv_count fs p fl f rd :
  sys_inv (Sys fs p fl) -> pfilter p = Some f -> warmActive p = false -> reader p = Some rd ->
  sys_inv (Sys fs p (Flight f (version p) (m_mergedLines (snd rd)) 0 0 :: fl)).
Proof.
  intros [H1 H2 H3 H4] Hf Hw Hr. constructor; [done..|]. cbn [sy_disk sy_p sy_flights] in *.
  constructor; [|done]. split_and!; cbn [fl_version fl_from]; [lia|lia|]. intros _.
  split; [done|]. exists rd. split_and!; [done|done|]. intros es _. cbn [fl_cnt fl_total fl_from].
  rewrite slice_neg by lia. done.
Qed.

Lemma flight_window fs p x rd :
  flight_inv fs p x -> fl_from x < fl_total x -> reader p = Some rd ->
  flight_inv fs p (Flight (fl_filter x) (fl_version x) (fl_total x) (fl_from x + TOTAL_WINDOW)
    (fl_cnt x + zlen (filter (fun e => matchesFilter lower (pfilter p) e = true)
       (read_range fs rd (fl_from x) (Z.min (fl_total x) (fl_from x + TOTAL_WINDOW)))))).
Proof.
  intros (Hv & Hf & Hcnt) Hlt Hr. split_and!; cbn [fl_version fl_from]; [done|unfold TOTAL_WINDOW; lia|].
  intros E. destruct (Hcnt E) as (Hw & rd' & Hr' & Ht & Hes). rewrite Hr in Hr'. injection Hr' as <-.
  split; [done|]. exists rd. split_and!; [done|done|]. cbn [fl_cnt fl_total fl_from]. intros es Hst.
  rewrite (Hes es Hst), (read_range_store fs rd es) by done. rewrite <- zlen_app, <- filter_app.
  rewrite (Z.min_l (fl_from x)) by lia. rewrite Z.min_comm.
  rewrite slice_glue; [done|lia|unfold TOTAL_WINDOW; lia].
Qed.

Lemma inv_finish fs p fl1 x fl2 :
  sys_inv (Sys fs p (fl1 ++ x :: fl2)) -> fl_total x <= fl_from x ->
  sys_inv (Sys fs (with_cache p (cache_key (fl_filter x) (fl_version x) false) (fl_cnt x)) (fl1 ++ fl2)).
Proof.
  intros [H1 H2 H3 H4] Hend. cbn [sy_disk sy_p sy_flights] in *.
  apply Forall_app in H4 as [Hfl1 Hfl2]. apply Forall_cons in Hfl2 as [(Hv & Hf & Hcnt) Hfl2].
  constructor; cbn [sy_disk sy_p sy_flights]; [done|exact H2| |by apply Forall_app].
  intros key n [= <-] [= <-]. exists (fl_filter x), (fl_version x), false.
  split_and!; [done|done|]. intros E asc Hsv. destruct (Hcnt E) as (Hw & rd & Hr & Ht & Hes).
  change (match_count lower (with_cache p _ _) asc) with (match_count lower p asc).
  change (serves fs (with_cache p _ _) asc) with (serves fs p asc) in Hsv.
  unfold serves in Hsv. rewrite Hw in Hsv. destruct Hsv as (rd' & es & Hr' & Hst & <-).
  rewrite Hr in Hr'. injection Hr' as <-. rewrite (Hes es Hst), Z.min_r by done.
  rewrite Ht, (store_lines _ _ _ Hst), slice_all. unfold match_count.
  rewrite (filter_map bare (matchesFilter lower (pfilter p))), zlen_map.
  rewrite (filter_rev (fun r => matchesFilter lower (pfilter p) (bare r))), zlen_rev. done.
Qed.

Lemma reachable_inv s : reachable s -> sys_inv s.
Proof.
  induction 1 as [fs Hc|s s' _ IH Hstep].
  { constructor; [done|by intros rd|by intros key n|constructor]. }
  destruct Hstep as [fs fs' p fl Hg Hc|fs p fl p' Hop|fs p fl f rd Hf Hw Hr|fs p fl1 x fl2 rd Hlt Hr
    |fs p fl1 x fl2 Hend].
  - by eapply inv_disk.
  - by eapply inv_op.
  - by apply inv_count.
  - destruct IH as [H1 H2 H3 H4]. constructor; [done..|]. cbn [sy_disk sy_p sy_flights] in *.
    apply Forall_app in H4 as [H4 H5]. apply Forall_cons in H5 as [H5 H6].
    apply Forall_app. split; [done|]. constructor; [by apply flight_window|done].
  - by apply inv_finish.
Qed.

Lemma total_exact fs p asc f :
  cache_inv fs p -> serves fs p asc -> pfilter p = Some f ->
  snd (getFilteredTotal lower fs p) = match_count lower p asc.
Proof.
  intros H3 Hsv Hf. unfold getFilteredTotal. rewrite Hf.
  assert (Hcomp : forall q : pagination * Z, q = (if warmActive p then
      (with_cache p (cache_key f (version p) (warmActive p))
         (zlen (filter (fun r => row_matches lower p r = true) (warmBuffer p))),
       zlen (filter (fun r => row_matches lower p r = true) (warmBuffer p)))
    else match reader p with
      | Some rd => (with_cache p (cache_key f (version p) (warmActive p))
          (count_loop (Z.to_nat (m_mergedLines (snd rd))) (read_range fs rd)
             (matchesFilter lower (pfilter p)) 0 (m_mergedLines (snd rd)) 0),
          count_loop (Z.to_nat (m_mergedLines (snd rd))) (read_range fs rd)
             (matchesFilter lower (pfilter p)) 0 (m_mergedLines (snd rd)) 0)
      | None => (p, 0) end) -> snd q = match_count lower p asc).
  { intros q ->. destruct (warmActive p) eqn:Hw; cbn [snd]; [by apply (count_warm lower fs)|].
    assert (Hsv' := Hsv). unfold serves in Hsv'. rewrite Hw in Hsv'.
    destruct Hsv' as (rd & es & Hr & Hst & Hasc). rewrite Hr. cbn [snd]. by eapply count_file. }
  rewrite <- Hf. destruct (filteredTotalCache p) as [n|] eqn:En; [|by apply Hcomp].
  case_bool_decide as Ek; [|by apply Hcomp]. cbn [snd].
  destruct (H3 _ n Ek En) as (f' & v & w & Eq & _ & Hcnt).
  apply cache_key_inj in Eq as (_ & Hv & _). by apply Hcnt.
Qed.


(** a version identifies the data: no operation lowers the version, and an operation
    that leaves it as it is changes neither the filter, nor the mode, the buffer, the
    reader or the total that the pages are made of. *)
Theorem version_identifies_view fs p p' :
  pag_op fs p p' -> version p <= version p' /\ (version p' = version p -> view p' = view p).
Proof. apply op_version. Qed.
End cache.

Lemma sample_tiled : tiled sample_manifest.
Proof. split_and!; vm_compute; try done; auto. Qed.

Lemma sample_consistent : consistent sample_disk.
Proof.
  intros dir m. unfold sample_disk. cbn [d_manifest d_parts]. rewrite open_saved by exact sample_tiled.
  intros [= <-]. eexists. exact sample_store.
Qed.

(** A filter that is set while the store is open, a count of it, and its end *)
Definition counted_service : pagination :=
  with_cache (setFilter (Some (FilterArg None None None (Some (js "3 , 1")))) sample_service)
    (cache_key (Filter [] [] [] (js "3 , 1")) 2 false) 2.

Lemma counted_reachable : reachable ascii_lower (Sys sample_disk counted_service []).
Proof.
  assert (H0 := reach_init ascii_lower sample_disk sample_consistent).
  assert (H1 := reach_step _ _ _ H0 (step_op _ _ _ _ _ (op_setDir ascii_lower sample_disk _ (js "/out")))).
  assert (H2 := reach_step _ _ _ H1 (step_op _ _ _ _ _ (op_filter ascii_lower sample_disk _
    (Some (FilterArg None None None (Some (js "3 , 1"))))))).
  fold sample_service in H2. clear H0 H1. unfold counted_service. rewrite sample_service_reader in *.
  set (p2 := setFilter _ _) in *.
  assert (H3 : reachable ascii_lower (Sys sample_disk p2
    [Flight (Filter [] [] [] (js "3 , 1")) (version p2) (m_mergedLines sample_manifest) 0 0])).
  { eapply reach_step; [exact H2|].
    apply (step_count ascii_lower sample_disk p2 [] _ (js "/out", sample_manifest)); reflexivity. }
  eapply reach_step in H3; [|eapply (step_window ascii_lower sample_disk p2 [] _ [] (js "/out", sample_manifest));
    [vm_compute; reflexivity|reflexivity]].
  eapply reach_step in H3; [|eapply (step_finish ascii_lower sample_disk p2 [] _ []); vm_compute; discriminate].
  cbn [app fl_filter fl_version fl_cnt fl_from fl_total] in H3.
  rewrite (read_range_store sample_disk (js "/out", sample_manifest) _ _ _ sample_store) in H3 by lia. exact H3.
Qed.


Lemma version_identifies_view_witness :
  let p' := seedWarmupBuffer three_entries 3 pagination_init in
  version pagination_init <= version p' /\
  (version p' = version pagination_init -> view p' = view pagination_init).
Proof.
  intros p'. apply (version_identifies_view ascii_lower sample_disk pagination_init p').
  apply op_seed.
Defined.
