(* ===== verification/Session.v ===== *)
(** * The file-merge session

    [LogSessionManager] of src/core/sessions/LogSessionManager.ts for a directory of
    files, and [HybridLogBuffer]: the warm-up pass fills the pages first; then the
    merge runs, and its batches go to the part files, the manifest and, once, to the
    viewer; at the end the pages switch to the part files.

    The events of [mergeDirectory] are handled one after the other, each handler to
    its end; [ChunkWriter] treats calls that overlap.  Saving the manifest succeeds
    here; the time-based throttling of progress messages is a function of
    its own, and the session's events carry the messages before it. *)

From stdpp Require Import base list sorting strings gmap.
From Stdlib Require Import ZArith Lia.
From S2P Require Import Prelude JsString Regex MaxHeap TimeParser LineReaders LogEntry Json.
From S2P Require Import ParserEngine KWay LogFiles TypePipeline Warmup MergeDirectory Manifest.
From S2P Require Import ChunkWriter PagedReader LogFilter Pagination PaginationSpec.

Definition REALTIME_BUFFER_MAX : Z := 1000.
Definition MERGED_CHUNK_MAX_LINES : Z := 5000.
Definition LOG_WINDOW_SIZE : Z := 200.

(** ** HybridLogBuffer *)

(** [add]: the oldest entry leaves when there are too many. *)
Definition hb_add (hb : list LogEntry) (e : LogEntry) : list LogEntry :=
  let hb1 := hb ++ [e] in
  if REALTIME_BUFFER_MAX <? zlen hb1 then tail hb1 else hb1.

Definition hb_addBatch (hb : list LogEntry) (es : list LogEntry) : list LogEntry :=
  foldl hb_add hb es.

(** [snapshot(count)] is [slice(-count)]; [-0] is the start. *)
Definition hb_snapshot (hb : list LogEntry) (count : Z) : list LogEntry :=
  if count =? 0 then hb else slice hb (Z.max 0 (zlen hb - count)) (zlen hb).

(** ** Progress *)

Record progress := Progress {
  pr_inc : option Z; pr_done : option Z; pr_total : option Z; pr_active : bool; pr_reset : bool }.

Record throttle := Throttle { th_lastUpdate : Z; th_lastPercent : Z }.

(** [Math.round(done / total * 100)] *)
Definition percent_of (done total : Z) : Z := (200 * done + total) / (2 * total).

(** [throttledOnProgress]: [Some] when the message is passed on. *)
Definition throttledOnProgress (now : Z) (t : throttle) (cur : progress) : throttle * option progress :=
  let newPercent :=
    match pr_total cur with
    | Some n => if n =? 0 then 0 else percent_of (or_else (pr_done cur) 0) n
    | None => 0
    end in
  if (1 <=? Z.abs (newPercent - th_lastPercent t)) || (250 <? now - th_lastUpdate t) ||
     negb (pr_active cur)
  then (Throttle now newPercent, Some cur)
  else (t, None).

(** ** The session *)

Inductive session_event :=
| SBatch (rows : list row) (total : option Z) (seq version : Z)  (* and the version of the pages then *)
| SProgress (throttled : bool) (p : progress)
| SRefresh (total : option Z) (version : Z) (warm : bool)
| SSaved (chunkCount : Z) (total : option Z) (merged : Z).

Record session := Session {
  s_pag : pagination;
  s_hb : list LogEntry;
  s_cw : ChunkWriter;
  s_world : world;               (* the part files of outDir *)
  s_mfile : option str;          (* the text of outDir/manifest.json *)
  s_manifest : LogManifest;
  s_mergedSoFar : Z;
  s_sentInitial : bool;
  s_initialBuffer : list LogEntry;
  s_paginationOpened : bool;
  s_progressDone : Z;
  s_skippedToMemory : bool;
  s_seq : Z;
  s_out : list session_event;
}.

Section session.
Context `{RE : RegExpEngine} {J : JsonCodec} {LS : LineSplitter}.
Context (lower : str -> str).
Context (outDir : str) (elsewhere : str -> dir_state).
Context (total : option Z).       (* the estimate of the number of lines *)

(** The disk as the pages see it *)
Definition session_disk (s : session) (dir : str) : dir_state :=
  if bool_decide (dir = outDir) then DirState (s_mfile s) (w_files (s_world s)) else elsewhere dir.

Definition emit (ev : session_event) (s : session) : session :=
  Session (s_pag s) (s_hb s) (s_cw s) (s_world s) (s_mfile s) (s_manifest s) (s_mergedSoFar s)
    (s_sentInitial s) (s_initialBuffer s) (s_paginationOpened s) (s_progressDone s)
    (s_skippedToMemory s) (s_seq s) (s_out s ++ [ev]).

Definition with_pag (p : pagination) (s : session) : session :=
  Session p (s_hb s) (s_cw s) (s_world s) (s_mfile s) (s_manifest s) (s_mergedSoFar s)
    (s_sentInitial s) (s_initialBuffer s) (s_paginationOpened s) (s_progressDone s)
    (s_skippedToMemory s) (s_seq s) (s_out s).

(** [opts.onBatch(rows, total, ++seq)] *)
Definition deliver (rows : list row) (t : option Z) (s : session) : session :=
  Session (s_pag s) (s_hb s) (s_cw s) (s_world s) (s_mfile s) (s_manifest s) (s_mergedSoFar s)
    (s_sentInitial s) (s_initialBuffer s) (s_paginationOpened s) (s_progressDone s)
    (s_skippedToMemory s) (s_seq s + 1) (s_out s ++ [SBatch rows t (s_seq s + 1) (version (s_pag s))]).

Definition with_progressDone (n : Z) (s : session) : session :=
  Session (s_pag s) (s_hb s) (s_cw s) (s_world s) (s_mfile s) (s_manifest s) (s_mergedSoFar s)
    (s_sentInitial s) (s_initialBuffer s) (s_paginationOpened s) n
    (s_skippedToMemory s) (s_seq s) (s_out s).

Definition with_skipped (s : session) : session :=
  Session (s_pag s) (s_hb s) (s_cw s) (s_world s) (s_mfile s) (s_manifest s) (s_mergedSoFar s)
    (s_sentInitial s) (s_initialBuffer s) (s_paginationOpened s) (s_progressDone s)
    true (s_seq s) (s_out s).

Definition with_opened (s : session) : session :=
  Session (s_pag s) (s_hb s) (s_cw s) (s_world s) (s_mfile s) (s_manifest s) (s_mergedSoFar s)
    (s_sentInitial s) (s_initialBuffer s) true (s_progressDone s)
    (s_skippedToMemory s) (s_seq s) (s_out s).

Definition with_hb (hb : list LogEntry) (s : session) : session :=
  Session (s_pag s) hb (s_cw s) (s_world s) (s_mfile s) (s_manifest s) (s_mergedSoFar s)
    (s_sentInitial s) (s_initialBuffer s) (s_paginationOpened s) (s_progressDone s)
    (s_skippedToMemory s) (s_seq s) (s_out s).

Definition with_initial (sent : bool) (buf : list LogEntry) (s : session) : session :=
  Session (s_pag s) (s_hb s) (s_cw s) (s_world s) (s_mfile s) (s_manifest s) (s_mergedSoFar s)
    sent buf (s_paginationOpened s) (s_progressDone s)
    (s_skippedToMemory s) (s_seq s) (s_out s).

Definition with_store (cw : ChunkWriter) (w : world) (m : LogManifest) (merged : Z) (s : session)
  : session :=
  Session (s_pag s) (s_hb s) cw w (s_mfile s) m merged
    (s_sentInitial s) (s_initialBuffer s) (s_paginationOpened s) (s_progressDone s)
    (s_skippedToMemory s) (s_seq s) (s_out s).

(** [manifest.save()] *)
Definition save_manifest (s : session) : session :=
  Session (s_pag s) (s_hb s) (s_cw s) (s_world s) (Some (manifest_text (s_manifest s)))
    (s_manifest s) (s_mergedSoFar s)
    (s_sentInitial s) (s_initialBuffer s) (s_paginationOpened s) (s_progressDone s)
    (s_skippedToMemory s) (s_seq s) (s_out s).

(** [for (const p of parts) { manifest.addChunk(...); mergedSoFar += p.lines }] *)
Fixpoint add_parts (parts : list ChunkWriteResult) (m : LogManifest) (merged : Z) : LogManifest * Z :=
  match parts with
  | [] => (m, merged)
  | r :: rs => add_parts rs (addChunk m (cr_file r) (cr_lines r) merged) (merged + cr_lines r)
  end.

(** *** The handlers of the events *)

(** Step 2 of [onBatch]: the first window of entries, once *)
Definition send_initial (logs : list LogEntry) (s : session) : session :=
  if negb (s_sentInitial s) && negb (warmActive (s_pag s)) then
    let buf := s_initialBuffer s ++ logs in
    if LOG_WINDOW_SIZE <=? zlen buf then
      with_initial true buf
        (deliver (fresh_rows (rev (slice buf 0 LOG_WINDOW_SIZE))) total s)
    else with_initial false buf s
  else s.

Definition onBatch (logs : list LogEntry) (s : session) : session :=
  let s1 := send_initial logs (with_hb (hb_addBatch (s_hb s) logs) s) in
  match appendBatch MERGED_CHUNK_MAX_LINES (s_cw s1) (s_world s1) logs with
  | (cw, w, Throws) => with_store cw w (s_manifest s1) (s_mergedSoFar s1) s1
  | (cw, w, Ok createdParts) =>
      let '(m, merged) := add_parts createdParts (s_manifest s1) (s_mergedSoFar s1) in
      let s2 := save_manifest (with_store cw w m merged s1) in
      let s3 :=
        if negb (s_paginationOpened s2) && (0 <? m_chunkCount m)
        then with_opened (with_pag (fst (setManifestDir (session_disk s2) outDir (s_pag s2))) s2)
        else s2 in
      let done := s_progressDone s3 + zlen logs in
      emit (SProgress true (Progress (Some (zlen logs)) (Some done) total true false))
        (with_progressDone done s3)
  end.

Definition onProgress (done t : option Z) (active : bool) (s : session) : session :=
  let nextDone := match done with
                  | Some d => if 0 <=? d then d else s_progressDone s
                  | None => s_progressDone s
                  end in
  emit (SProgress true (Progress (Some (nextDone - s_progressDone s)) (Some nextDone)
          (match t with Some n => Some n | None => total end) active false))
    (with_progressDone nextDone s).

Definition onWarmupBatch (logs : list LogEntry) (s : session) : session :=
  if negb (warmActive (s_pag s)) && nonempty logs
  then with_pag (seedWarmupBuffer logs (zlen logs) (s_pag s)) s else s.

Definition onFinalize (mode : merge_mode) (t : Z) (s : session) : session :=
  match mode with
  | ModeMemory =>
      let s1 := with_skipped s in
      emit (SRefresh (Some t) (version (s_pag s1)) true)
        (emit (SProgress false (Progress None (Some t) (Some t) false false)) s1)
  | ModeFile => s
  end.

Definition handle (ev : merge_event) (s : session) : session :=
  match ev with
  | EvBatch logs => onBatch logs s
  | EvWarmupBatch logs => onWarmupBatch logs s
  | EvProgress done t active => onProgress done t active s
  | EvFinalize mode t => onFinalize mode t s
  end.

(** *** The phases *)

(** The last page of a list of [n] rows *)
Definition last_page (n : Z) (s : session) : session * list row :=
  let endIdx := Z.max 1 n in
  let startIdx := Z.max 1 (endIdx - LOG_WINDOW_SIZE + 1) in
  let '(p, rows) := readRangeByIdx lower (session_disk s) (s_pag s) startIdx endIdx in
  (with_pag p s, rows).

(** T0: what follows a warm-up pass *)
Definition warm_phase (warmLogs : list LogEntry) (s : session) : session :=
  if negb (nonempty warmLogs) then s
  else
    let totalWarm := zlen warmLogs in
    let s1 := with_hb (hb_addBatch (s_hb s) warmLogs)
                (with_pag (seedWarmupBuffer warmLogs totalWarm (s_pag s)) s) in
    let '(s2, lastPage) := last_page totalWarm s1 in
    let s3 := if nonempty lastPage then deliver lastPage (Some totalWarm) s2 else s2 in
    emit (SProgress true (Progress (Some (totalWarm - s_progressDone s3)) (Some totalWarm) total true false))
      (with_progressDone totalWarm s3).

(** T1: the writer and the manifest of a directory without a manifest *)
Definition prepare (now : str) (s : session) : session :=
  let m := setTotal (loadOrCreate now (s_mfile s)) (Some (or_else total 0)) in
  save_manifest (with_store (new_ChunkWriter (m_chunkCount m)) (s_world s) m (m_mergedLines m) s).

(** The remainder, the switch to the part files and the last page *)
Definition finalize (s : session) : session :=
  let '(cw, w, res) := flushRemainder (s_cw s) (s_world s) in
  match res with
  | Throws => with_store cw w (s_manifest s) (s_mergedSoFar s) s
  | Ok remainder =>
      let s1 := match remainder with
                | Some r =>
                    save_manifest (with_store cw w
                      (addChunk (s_manifest s) (cr_file r) (cr_lines r) (s_mergedSoFar s))
                      (s_mergedSoFar s + cr_lines r) s)
                | None => with_store cw w (s_manifest s) (s_mergedSoFar s) s
                end in
      let s3 :=
        if s_paginationOpened s1 then with_pag (fst (reload (session_disk s1) (s_pag s1))) s1
        else
          match setManifestDir (session_disk s1) outDir (s_pag s1) with
          | (p, Throws) => with_pag p s1
          | (p, Ok _) => with_opened (with_pag (fst (reload (session_disk s1) p)) s1)
          end in
      let m := s_manifest s3 in
      let '(s4, freshTail) := last_page (m_mergedLines m) s3 in
      let s5 := if nonempty freshTail then deliver freshTail (Some (m_mergedLines m)) s4 else s4 in
      emit (SRefresh (Some (m_mergedLines m)) (version (s_pag s5)) false)
        (emit (SSaved (m_chunkCount m) (m_totalLines m) (m_mergedLines m))
          (emit (SProgress false (Progress None (Some (m_mergedLines m))
                   (match m_totalLines m with Some t => Some t | None => total end) false false)) s5))
  end.

(** The session after the warm-up result and the events of the merge are known *)
Definition run_session (now : str) (warmLogs : list LogEntry) (evs : list merge_event) (s : session)
  : session :=
  let s0 := emit (SProgress false (Progress None (Some 0) total true true)) (with_progressDone 0 s) in
  let s1 := prepare now (warm_phase warmLogs s0) in
  let s2 := foldl (fun s ev => handle ev s) s1 evs in
  if s_skippedToMemory s2 then s2 else finalize s2.
End session.

(** ** The whole session *)

Inductive session_outcome :=
| SessionDone (s : session)
| SessionRejected
| SessionDiverges.

(** The options [startFileMergeSession] passes to [mergeDirectory] *)
Definition session_options (globs : list str) (parser : option ParserConfig) : MergeOptions :=
  Options false (Some DEFAULT_BATCH_SIZE) false None None globs parser true true.

Section start.
Context `{RE : RegExpEngine} {J : JsonCodec} {LS : LineSplitter}.
Context (lower : str -> str) (localeCompare : str -> str -> Z) (now now_year : Z).
Context (stream : list Z -> js_result (list str)) (chunks : list Z -> list (list Z)).

(** [startFileMergeSession]: the session starts in the state [s] of the service and of
    the output directory; [now_iso] is the time as a text. *)
Definition startFileMergeSession (dirPath : str) (dir : directory) (sg : signals)
    (count_fails warmupEnabled : bool) (globs : list str) (parser : option ParserConfig)
    (outDir : str) (elsewhere : str -> dir_state) (now_iso : str) (s : session) : session_outcome :=
  let compiled := match parser with Some p => compileParserConfig p | None => Ok None end in
  let allowed := compileWhitelistPathRegexes globs in
  let total := match allowed with
               | Ok allow => if count_fails then None else Some (countTotalLinesInDir chunks dir allow)
               | Throws => None
               end in
  let threshold := or_else (getMemoryModeThresholdFromParser parser) DEFAULT_MEMORY_MODE_THRESHOLD in
  let warm :=
    if warmupEnabled then
      match compiled, allowed with
      | Ok cp, Ok allow =>
          warmupTailPrepass now now_year stream dirPath dir cp (sig_warm sg)
            (warm_target (Some threshold) None) (warm_cap None) (listInputLogFiles dir allow)
      | _, _ => Some (WarmResult [] false [])
      end
    else Some (WarmResult [] false []) in
  match warm, compiled with
  | None, _ => SessionDiverges
  | _, Throws => SessionRejected
  | Some w, Ok _ =>
      match mergeDirectory localeCompare now now_year stream chunks dirPath dir sg count_fails
              (session_options globs parser) with
      | Finished evs => SessionDone (run_session lower outDir elsewhere total now_iso (wr_logs w) evs s)
      | Rejected => SessionRejected
      | Diverges => SessionDiverges
      end
  end.
End start.

(** ** The buffer of the latest entries *)

Lemma hb_addBatch_spec hb es :
  zlen hb <= REALTIME_BUFFER_MAX ->
  exists k, hb_addBatch hb es = drop k (hb ++ es) /\ zlen (hb_addBatch hb es) <= REALTIME_BUFFER_MAX /\
    (k = 0%nat \/ zlen (hb_addBatch hb es) = REALTIME_BUFFER_MAX).
Proof.
  revert hb. induction es as [|e es IH]; intros hb Hhb; cbn [hb_addBatch foldl].
  { exists 0%nat. rewrite app_nil_r, drop_0. auto. }
  assert (Ha : hb_add hb e = if REALTIME_BUFFER_MAX <? zlen (hb ++ [e]) then tail (hb ++ [e])
    else hb ++ [e]) by done.
  rewrite Ha. clear Ha. destruct (Z.ltb_spec REALTIME_BUFFER_MAX (zlen (hb ++ [e]))) as [Hlt|Hle].
  - rewrite zlen_app in Hlt. change (zlen [e]) with 1 in Hlt.
    assert (Hz : zlen (tail (hb ++ [e])) = REALTIME_BUFFER_MAX).
    { unfold zlen in *. destruct hb as [|x hb]; simpl in *; [unfold REALTIME_BUFFER_MAX in *; lia|].
      rewrite length_app. simpl. lia. }
    destruct (IH (tail (hb ++ [e]))) as (k & E & H1 & H2); [lia|]. exists (S k).
    unfold hb_addBatch in *. split_and!; [|done|].
    + rewrite E. destruct hb as [|x hb]; simpl; [done|]. by rewrite <- app_assoc.
    + right. destruct H2 as [->|H2]; [|done]. rewrite E, drop_0, zlen_app in H1 |- *.
      rewrite Hz in H1 |- *. assert (H0 := zlen_nonneg es). lia.
  - destruct (IH (hb ++ [e]) Hle) as (k & E & H1 & H2). exists k. unfold hb_addBatch in *.
    split_and!; [|done|done]. rewrite E. by rewrite <- app_assoc.
Qed.

(** the in-memory buffer is the last thousand entries: after any batches it holds a
    suffix of everything added, at most [REALTIME_BUFFER_MAX] entries, and all of it
    unless it is full. *)
Theorem hybrid_buffer_suffix batches :
  let hb := foldl hb_addBatch [] batches in
  hb = drop (length (concat batches) - length hb) (concat batches) /\
  zlen hb <= REALTIME_BUFFER_MAX /\
  (hb = concat batches \/ zlen hb = REALTIME_BUFFER_MAX).
Proof.
  cbv zeta. assert (Hf : foldl hb_addBatch [] batches = hb_addBatch [] (concat batches)).
  { generalize (@nil LogEntry) as acc. induction batches as [|b bs IH]; intros acc; simpl; [done|].
    rewrite IH. unfold hb_addBatch. by rewrite foldl_app. }
  rewrite Hf. destruct (hb_addBatch_spec [] (concat batches)) as (k & E & H1 & H2); [done|].
  cbn [app] in E. split_and!; [|done|].
  - rewrite E at 1. rewrite E, length_drop. set (l := concat batches). clearbody l. clear.
    destruct (Nat.le_gt_cases k (length l)); [f_equal; lia|]. rewrite !drop_ge by lia. done.
  - destruct H2 as [->|H2]; [left; by rewrite E, drop_0|by right].
Qed.
