(* ===== verification/SessionSpec.v ===== *)
(** * What a file-merge session leaves behind

    The invariant of the session's store, and the theorem that ties the components
    together: the pages of the viewer after the session are the merged entries. *)

From stdpp Require Import base list sorting strings gmap.
From Stdlib Require Import ZArith Lia.
From S2P Require Import Prelude JsString Regex MaxHeap TimeParser LineReaders LogEntry Json.
From S2P Require Import ParserEngine KWay LogFiles TypePipeline Warmup MergeDirectory Manifest.
From S2P Require Import ChunkWriter PagedReader LogFilter Pagination PaginationSpec.
From S2P Require Import PaginationCache Session.

Section spec.
Context {J : JsonCodec} {JL : JsonLaws} {LS : LineSplitter} {LL : LineSplitterLaws}.
Context (lower : str -> str).
Context (outDir : str) (elsewhere : str -> dir_state) (total : option Z).
Abbreviation disk := (session_disk outDir elsewhere).

Definition safe (es : list LogEntry) : Prop := Forall (fun e => line_safe (stringify e)) es.

(** The store and the buffer of the session hold [es]. *)
Record store_inv (s : session) (es : list LogEntry) : Prop := {
  sv_writer : writer_ok (s_cw s) (s_world s);
  sv_room : zlen (currentBuffer (s_cw s)) < MERGED_CHUNK_MAX_LINES;
  sv_tiled : tiled (s_manifest s);
  sv_merged : s_mergedSoFar s = m_mergedLines (s_manifest s);
  sv_saved : s_mfile s = Some (manifest_text (s_manifest s));
  sv_chunks : exists bufs, Forall2 (stored (w_files (s_world s))) (m_chunks (s_manifest s)) bufs /\
    concat bufs ++ currentBuffer (s_cw s) = es;
  sv_opened : s_paginationOpened s = true -> manifestDir (s_pag s) = Some outDir;
}.

(** The parts that were just written become chunks at the end. *)
Lemma add_parts_spec files rs bufs m :
  Forall2 (holds files) rs bufs -> Forall safe bufs -> tiled m ->
  exists m', add_parts rs m (m_mergedLines m) = (m', m_mergedLines m') /\ tiled m' /\
    exists new, m_chunks m' = m_chunks m ++ new /\ Forall2 (stored files) new bufs.
Proof.
  intros Hh. revert m. induction Hh as [|r b rs bufs Hr _ IH]; intros m Hs Ht; cbn [add_parts].
  { exists m. split_and!; [done|done|]. exists []. by rewrite app_nil_r. }
  apply Forall_cons in Hs as [Hb Hs]. destruct Hr as (Hf & Hl & Hne & n & Hn & Hname).
  assert (Hv : chunk_valid (Chunk (cr_file r) (cr_lines r) 0) = true).
  { rewrite Hname. apply part_name_valid. rewrite Hl. by apply zlen_pos. }
  destruct (addChunk_end m (cr_file r) (cr_lines r) Ht Hv) as [Eq Ht'].
  destruct (IH _ Hs Ht') as (m' & E & Hm' & new & Hc & Hst).
  rewrite Eq in E at 2. cbn [m_mergedLines] in E. exists m'. split_and!; [done|done|].
  exists (Chunk (cr_file r) (cr_lines r) (m_mergedLines m) :: new). split.
  - rewrite Hc, Eq. cbn [m_chunks]. by rewrite <- app_assoc.
  - constructor; [|done]. split_and!; done.
Qed.

Lemma stored_mono files files' c b : files ⊆ files' -> stored files c b -> stored files' c b.
Proof. intros Hs (H1 & H2). split; [by eapply lookup_weaken|done]. Qed.

Lemma safe_concat bufs : safe (concat bufs) -> Forall safe bufs.
Proof.
  unfold safe. induction bufs as [|b bs IH]; simpl; [constructor|].
  intros H. apply Forall_app in H as [H1 H2]. constructor; [done|by apply IH].
Qed.

Lemma send_initial_store logs s es :
  store_inv s es -> store_inv (send_initial total logs (with_hb (hb_addBatch (s_hb s) logs) s)) es.
Proof.
  intros [H1 H2 H3 H4 H5 H6 H7]. unfold send_initial.
  destruct (_ && _); [destruct (LOG_WINDOW_SIZE <=? _)|]; constructor; done.
Qed.

Lemma send_initial_skip logs s :
  s_skippedToMemory (send_initial total logs s) = s_skippedToMemory s.
Proof. unfold send_initial. destruct (_ && _); [destruct (LOG_WINDOW_SIZE <=? _)|]; done. Qed.

(** Opening the directory of the session *)
Lemma open_session s p :
  tiled (s_manifest s) -> s_mfile s = Some (manifest_text (s_manifest s)) ->
  exists p', setManifestDir (disk s) outDir p = (p', Ok tt) /\ manifestDir p' = Some outDir.
Proof.
  intros Ht Hm. unfold setManifestDir. case_bool_decide as E; [by exists p|].
  unfold session_disk. rewrite bool_decide_eq_true_2 by done. cbn [d_manifest].
  rewrite Hm, open_saved by done. by eexists.
Qed.

Lemma onBatch_store logs s es :
  store_inv s es -> safe (es ++ logs) ->
  store_inv (onBatch outDir elsewhere total logs s) (es ++ logs) /\
  s_skippedToMemory (onBatch outDir elsewhere total logs s) = s_skippedToMemory s.
Proof.
  intros Hinv Hsafe. apply (send_initial_store logs) in Hinv. unfold onBatch.
  set (s1 := send_initial total logs (with_hb (hb_addBatch (s_hb s) logs) s)) in *.
  assert (Hskip : s_skippedToMemory s1 = s_skippedToMemory s)
    by (unfold s1; by rewrite send_initial_skip).
  rewrite <- Hskip. clearbody s1. clear Hskip s. destruct Hinv as [H1 H2 H3 H4 H5 (bufs0 & H6 & H6') H7].
  destruct (appendBatch_spec MERGED_CHUNK_MAX_LINES (s_cw s1) (s_world s1) logs ltac:(unfold MERGED_CHUNK_MAX_LINES; lia) H1 H2)
    as (cw & w & rs & bufs & -> & Hok & Hlt & Hh & Hsub & _ & Hcat).
  assert (Hall : concat (bufs0 ++ bufs) ++ currentBuffer cw = es ++ logs).
  { by rewrite concat_app, <- app_assoc, Hcat, app_assoc, H6'. }
  assert (Hsb : Forall safe bufs).
  { rewrite <- Hall in Hsafe. apply Forall_app in Hsafe as [Hsafe _]. apply safe_concat in Hsafe.
    by apply Forall_app in Hsafe as [_ ?]. }
  destruct (add_parts_spec (w_files w) rs bufs (s_manifest s1) Hh Hsb H3) as (m & E & Hm & new & Hc & Hst).
  rewrite H4, E. set (s2 := save_manifest (with_store cw w m (m_mergedLines m) s1)).
  assert (Hinv2 : store_inv s2 (es ++ logs)).
  { constructor; try done. exists (bufs0 ++ bufs). split; [|done].
    unfold s2. cbn [save_manifest with_store s_manifest s_world]. rewrite Hc.
    apply Forall2_app; [|done]. eapply Forall2_impl; [exact H6|]. intros c b. by apply stored_mono. }
  destruct (negb (s_paginationOpened s2) && (0 <? m_chunkCount m)).
  - destruct (open_session s2 (s_pag s2)) as (p' & E' & Hdir); [done|done|].
    rewrite E'. destruct Hinv2 as [I1 I2 I3 I4 I5 I6 I7]. split; [|done]. constructor; done.
  - destruct Hinv2 as [I1 I2 I3 I4 I5 I6 I7]. split; [|done]. constructor; done.
Qed.

Lemma handle_store ev s es :
  store_inv s es -> safe (es ++ batch_of ev) -> (forall t, ev <> EvFinalize ModeMemory t) ->
  store_inv (handle outDir elsewhere total ev s) (es ++ batch_of ev) /\
  s_skippedToMemory (handle outDir elsewhere total ev s) = s_skippedToMemory s.
Proof.
  intros Hinv Hsafe Hno. destruct ev as [logs|logs|d t a|[|] t]; cbn [handle batch_of] in *.
  - by apply onBatch_store.
  - rewrite app_nil_r. unfold onWarmupBatch. destruct (_ && _); [|done].
    destruct Hinv as [I1 I2 I3 I4 I5 I6 I7]. split; [|done]. constructor; done.
  - rewrite app_nil_r. destruct Hinv as [I1 I2 I3 I4 I5 I6 I7]. split; [|done]. constructor; done.
  - rewrite app_nil_r. done.
  - by destruct (Hno t).
Qed.

Lemma handle_all_store evs s es :
  store_inv s es -> safe (es ++ batches evs) ->
  Forall (fun ev => forall t, ev <> EvFinalize ModeMemory t) evs ->
  let s' := foldl (fun s ev => handle outDir elsewhere total ev s) s evs in
  store_inv s' (es ++ batches evs) /\ s_skippedToMemory s' = s_skippedToMemory s.
Proof.
  cbv zeta. revert s es. induction evs as [|ev evs IH]; intros s es Hinv Hsafe Hno.
  { cbn. by rewrite app_nil_r. }
  apply Forall_cons in Hno as [Hev Hno]. cbn [foldl].
  change (batches (ev :: evs)) with (batch_of ev ++ batches evs) in *. rewrite app_assoc in *.
  destruct (handle_store ev s es Hinv) as [H1 H2]; [|done|].
  { unfold safe in *. by apply Forall_app in Hsafe as [? _]. }
  destruct (IH _ _ H1 Hsafe Hno) as [H3 H4]. split; [done|]. by rewrite H4.
Qed.

(** *** The end of a session *)

(** After the remainder is written the store is complete. *)
Lemma remainder_store s es :
  store_inv s es -> safe es ->
  exists cw w r, flushRemainder (s_cw s) (s_world s) = (cw, w, Ok r) /\
    let s1 := match r with
              | Some r => save_manifest (with_store cw w
                  (addChunk (s_manifest s) (cr_file r) (cr_lines r) (s_mergedSoFar s))
                  (s_mergedSoFar s + cr_lines r) s)
              | None => with_store cw w (s_manifest s) (s_mergedSoFar s) s
              end in
    store_of (w_files (s_world s1)) (s_manifest s1) es /\
    s_mfile s1 = Some (manifest_text (s_manifest s1)) /\
    s_pag s1 = s_pag s /\ s_paginationOpened s1 = s_paginationOpened s /\
    s_mergedSoFar s1 = m_mergedLines (s_manifest s1).
Proof.
  intros [H1 H2 H3 H4 H5 (bufs & H6 & H6') H7] Hsafe. unfold flushRemainder.
  destruct (currentBuffer (s_cw s)) as [|e0 es0] eqn:Eb.
  { exists (s_cw s), (s_world s), None. split; [done|]. cbv zeta.
    rewrite app_nil_r in H6'. split_and!; [|done..]. split; [done|]. by exists bufs. }
  cbn [nonempty negb]. destruct (flush_spec (s_cw s) (s_world s) H1) as (n & w & -> & _ & Hnew & Hn & Hf);
    [by rewrite Eb|].
  eexists _, w, (Some _). split; [done|]. cbv zeta. rewrite Eb in *. cbn [cr_file cr_lines] in *.
  assert (Hv : chunk_valid (Chunk (part_name n) (zlen (e0 :: es0)) 0) = true)
    by (apply part_name_valid; by apply zlen_pos).
  rewrite H4. destruct (addChunk_end (s_manifest s) (part_name n) (zlen (e0 :: es0)) H3 Hv) as [Eq Ht'].
  split_and!; [|done|done|done|
    cbn [save_manifest with_store s_mergedSoFar s_manifest]; by rewrite Eq]. split; [exact Ht'|]. exists (bufs ++ [e0 :: es0]). split.
  - cbn [save_manifest with_store s_manifest s_world]. rewrite Eq. cbn [m_chunks].
    apply Forall2_app.
    + eapply Forall2_impl; [exact H6|]. intros c b. apply stored_mono. rewrite Hf. by apply insert_subseteq.
    + constructor; [|constructor]. split_and!; [|done|done|].
      * cbn [c_file]. rewrite Hf. apply lookup_insert_eq.
      * rewrite <- H6' in Hsafe. by apply Forall_app in Hsafe as [_ ?].
  - rewrite concat_app. simpl. by rewrite app_nil_r.
Qed.

Lemma reload_serves s p es :
  store_of (w_files (s_world s)) (s_manifest s) es -> s_mfile s = Some (manifest_text (s_manifest s)) ->
  manifestDir p = Some outDir ->
  serves (disk s) (fst (reload (disk s) p)) (map bare (rev es)).
Proof.
  intros Hst Hm Hd. assert (Hst' := Hst). destruct Hst' as [Ht _]. unfold reload. rewrite Hd.
  assert (Ho : open_manifest (d_manifest (disk s outDir)) = Ok (s_manifest s)).
  { unfold session_disk. rewrite bool_decide_eq_true_2 by done. cbn [d_manifest].
    by rewrite Hm, open_saved. }
  rewrite Ho. unfold serves.
  assert (Hw : warmActive (clearWarmup p) = false) by (unfold clearWarmup; by destruct (warmActive p) eqn:?).
  cbn [fst invalidateFilterCache bump with_reader warmActive reader]. rewrite Hw.
  exists (outDir, s_manifest s), es. split_and!; [done| |done]. cbn [fst snd].
  unfold session_disk. by rewrite bool_decide_eq_true_2.
Qed.

Lemma finalize_serves s es :
  store_inv s es -> safe es ->
  let s' := finalize lower outDir elsewhere total s in
  serves (disk s') (s_pag s') (map bare (rev es)) /\ m_mergedLines (s_manifest s') = zlen es /\
  last (s_out s') = Some (SRefresh (Some (zlen es)) (version (s_pag s')) false).
Proof.
  cbv zeta. intros Hinv Hsafe. unfold finalize.
  destruct (remainder_store s es Hinv Hsafe) as (cw & w & r & -> & Hst & Hm & Hp & Hop & _).
  set (s1 := match r with Some r => _ | None => _ end) in *. clearbody s1.
  assert (Hn := store_lines _ _ _ Hst). assert (Ht := Hst). destruct Ht as [Ht _].
  match goal with |- context [last_page lower outDir elsewhere _ ?x] => set (s3 := x) end.
  assert (H3 : serves (disk s1) (s_pag s3) (map bare (rev es)) /\ s_world s3 = s_world s1 /\
    s_mfile s3 = s_mfile s1 /\ s_manifest s3 = s_manifest s1).
  { unfold s3. destruct (s_paginationOpened s1) eqn:Eo.
    - split_and!; [|done..]. apply reload_serves; [done|done|].
      rewrite Hp. apply (sv_opened s es Hinv). by rewrite <- Hop.
    - destruct (open_session s1 (s_pag s1) Ht Hm) as (p' & E & Hd). rewrite E.
      split_and!; [|done..]. by apply reload_serves. }
  clearbody s3. destruct H3 as (Hsv & Hw3 & Hf3 & Hm3).
  assert (Hdisk : forall x, s_world x = s_world s3 -> s_mfile x = s_mfile s3 ->
    serves (disk x) (s_pag x) (map bare (rev es)) <-> serves (disk s1) (s_pag x) (map bare (rev es))).
  { intros x Hwx Hfx. assert (Hd : forall dir, disk x dir = disk s1 dir).
    { intros dir. unfold session_disk. by rewrite Hwx, Hfx, Hw3, Hf3. }
    unfold serves. destruct (warmActive (s_pag x)); [done|].
    split; intros (rd & e & ? & ? & ?); exists rd, e; rewrite Hd in *; done. }
  unfold last_page.
  match goal with |- context [readRangeByIdx lower ?d ?q ?a ?b] =>
    assert (Hv := read_view lower d q a b); destruct (readRangeByIdx lower d q a b) as [p4 rows] end.
  cbn [fst] in Hv. destruct Hv as (Hv & _). rewrite Hm3, Hn.
  set (s5 := if nonempty rows then _ else _).
  assert (H5 : s_pag s5 = p4 /\ s_world s5 = s_world s3 /\ s_mfile s5 = s_mfile s3 /\
    s_manifest s5 = s_manifest s3) by (unfold s5; by destruct (nonempty rows)).
  clearbody s5. destruct H5 as (Hp5 & Hw5 & Hf5 & Hm5).
  split_and!; [apply Hdisk; [done|done|]|cbn [emit s_manifest]; by rewrite Hm5, Hm3, Hn
    |cbn [emit s_out s_pag]; by rewrite last_snoc].
  cbn [emit s_pag]. rewrite Hp5. apply (serves_view _ p4 (s_pag s3)); [by rewrite Hv|done].
Qed.

(** *** The beginning of a session *)

Lemma warm_phase_frame logs s :
  let s' := warm_phase lower outDir elsewhere total logs s in
  s_world s' = s_world s /\ s_mfile s' = s_mfile s /\ s_paginationOpened s' = s_paginationOpened s /\
  s_skippedToMemory s' = s_skippedToMemory s.
Proof.
  cbv zeta. unfold warm_phase, last_page. destruct (nonempty logs); cbn [negb]; [|done].
  destruct (readRangeByIdx _ _ _ _ _) as [p rows]. by destruct (nonempty rows).
Qed.

Lemma prepare_store now s :
  s_mfile s = None -> parts_below 999999 (w_files (s_world s)) -> calm MAX_ATTEMPTS (s_world s) ->
  s_paginationOpened s = false -> store_inv (prepare total now s) [].
Proof.
  intros Hm Hb Hc Ho. unfold prepare. rewrite Hm. change (loadOrCreate now None) with (manifest_new now).
  constructor; try done.
  - by exists [].
  - cbn. rewrite Ho. done.
Qed.

(** A session starts with a directory without manifest. *)
Record fresh_session (s : session) : Prop := {
  fs_manifest : s_mfile s = None;
  fs_parts : parts_below 999999 (w_files (s_world s));
  fs_calm : calm MAX_ATTEMPTS (s_world s);
  fs_opened : s_paginationOpened s = false;
  fs_skipped : s_skippedToMemory s = false;
}.

Lemma run_session_serves now warmLogs evs s :
  fresh_session s -> safe (batches evs) ->
  Forall (fun ev => forall t, ev <> EvFinalize ModeMemory t) evs ->
  let s' := run_session lower outDir elsewhere total now warmLogs evs s in
  serves (disk s') (s_pag s') (map bare (rev (batches evs))) /\
  m_mergedLines (s_manifest s') = zlen (batches evs) /\
  last (s_out s') = Some (SRefresh (Some (zlen (batches evs))) (version (s_pag s')) false).
Proof.
  intros [H1 H2 H3 H4 H5] Hsafe Hno. cbv zeta. unfold run_session.
  set (s0 := emit _ _). destruct (warm_phase_frame warmLogs s0) as (W1 & W2 & W3 & W4).
  set (s1 := prepare total now (warm_phase lower outDir elsewhere total warmLogs s0)).
  assert (Hi : store_inv s1 []).
  { apply prepare_store; [by rewrite W2|by rewrite W1|by rewrite W1|by rewrite W3]. }
  assert (Hk : s_skippedToMemory s1 = false).
  { unfold s1, prepare. cbn [save_manifest with_store s_skippedToMemory]. by rewrite W4. }
  destruct (handle_all_store evs s1 [] Hi Hsafe Hno) as [Hinv Hskip].
  cbn [app] in Hinv. rewrite Hskip, Hk. by apply finalize_serves.
Qed.

(** *** The filter of the service *)

Lemma setManifestDir_filter fs dir p : pfilter (fst (setManifestDir fs dir p)) = pfilter p.
Proof. unfold setManifestDir. by repeat case_match. Qed.

Lemma reload_filter fs p : pfilter (fst (reload fs p)) = pfilter p.
Proof. unfold reload, clearWarmup. by repeat case_match. Qed.

Lemma last_page_filter n s : pfilter (s_pag (fst (last_page lower outDir elsewhere n s))) = pfilter (s_pag s).
Proof.
  unfold last_page.
  assert (Hv := read_view lower (disk s) (s_pag s) (Z.max 1 (Z.max 1 n - LOG_WINDOW_SIZE + 1)) (Z.max 1 n)).
  destruct (readRangeByIdx _ _ _ _ _) as [p rows]. cbn [fst] in Hv. destruct Hv as [Hv _]. by injection Hv.
Qed.

Lemma handle_filter ev s :
  pfilter (s_pag (handle outDir elsewhere total ev s)) = pfilter (s_pag s).
Proof.
  destruct ev as [logs|logs|d t a|[|] t]; cbn [handle]; try done.
  - unfold onBatch. set (s1 := send_initial _ _ _).
    assert (H1 : s_pag s1 = s_pag s) by (unfold s1, send_initial; by repeat case_match).
    clearbody s1. rewrite <- H1. destruct (appendBatch _ _ _ _) as [[cw w] [parts|]]; [|done].
    destruct (add_parts _ _ _) as [m merged]. destruct (_ && _); [|done].
    cbn [emit with_progressDone s_pag with_opened with_pag]. by rewrite setManifestDir_filter.
  - unfold onWarmupBatch. by destruct (_ && _).
Qed.

Lemma run_session_filter now warmLogs evs s :
  pfilter (s_pag (run_session lower outDir elsewhere total now warmLogs evs s)) = pfilter (s_pag s).
Proof.
  unfold run_session. set (s0 := emit _ _). set (s1 := prepare _ _ _).
  assert (H1 : pfilter (s_pag s1) = pfilter (s_pag s)).
  { unfold s1, prepare. cbn [save_manifest with_store s_pag]. unfold warm_phase.
    destruct (negb _); [done|]. set (sw := with_hb _ _).
    assert (Hl := last_page_filter (zlen warmLogs) sw). destruct (last_page _ _ _ _ sw) as [s2 pg].
    cbn [fst] in Hl. by destruct (nonempty pg). }
  rewrite <- H1. clearbody s1. clear s0 H1.
  assert (H2 : pfilter (s_pag (foldl (fun s ev => handle outDir elsewhere total ev s) s1 evs)) = pfilter (s_pag s1)).
  { revert s1. induction evs as [|ev evs IH]; intros s1; [done|]. cbn [foldl]. by rewrite IH, handle_filter. }
  rewrite <- H2. set (s2 := foldl _ _ _). clearbody s2. clear.
  destruct (s_skippedToMemory s2); [done|]. unfold finalize.
  destruct (flushRemainder _ _) as [[cw w] [r|]]; [|done].
  set (s3 := match r with Some r => _ | None => _ end).
  assert (H3 : s_pag s3 = s_pag s2) by (unfold s3; by destruct r). rewrite <- H3. clearbody s3. clear H3.
  match goal with |- context [last_page lower outDir elsewhere ?n ?x] =>
    assert (Hl := last_page_filter n x); assert (H4 : pfilter (s_pag x) = pfilter (s_pag s3));
    [|set (s4 := x) in *] end.
  { destruct (s_paginationOpened s3); [cbn [with_pag s_pag]; apply reload_filter|].
    assert (Hd := setManifestDir_filter (disk s3) outDir (s_pag s3)).
    destruct (setManifestDir _ _ _) as [p [u|]]; cbn [fst] in Hd; [|done].
    cbn [with_opened with_pag s_pag]. by rewrite reload_filter. }
  clearbody s4. destruct (last_page _ _ _ _ s4) as [s5 pg]. cbn [fst] in Hl.
  rewrite <- H4, <- Hl. by destruct (nonempty pg).
Qed.
End spec.

(** ** The merge as the session calls it *)

Definition no_memory (evs : list merge_event) : Prop :=
  Forall (fun ev => forall t, ev <> EvFinalize ModeMemory t) evs.

Lemma kway_no_memory {J : JsonCodec} localeCompare aborted bs total cursors :
  no_memory (kway localeCompare aborted bs total cursors).
Proof.
  unfold kway. destruct (kway_init _ _ _) as [heap cs].
  assert (Hloop : forall fuel n st,
    no_memory (snd (kway_loop localeCompare fuel aborted n bs total st))).
  { induction fuel as [|f IH]; intros n st; cbn [kway_loop]; [constructor|].
    destruct (heap_pop _ _) as [[top h]|]; [|constructor]. destruct (aborted n); [constructor|].
    destruct (kway_step _ _ _ _ _ _) as [st1 evs1] eqn:E1. specialize (IH (S n) st1).
    destruct (kway_loop _ f aborted (S n) bs total st1) as [[st2 n2] evs2].
    apply Forall_app. split; [|exact IH]. unfold kway_step in E1.
    destruct (refill_type _ _ _ _) as [h' c']. injection E1 as _ <-.
    destruct (_ <=? _); repeat constructor; done. }
  specialize (Hloop (kway_fuel cursors) 0%nat (KState heap cs [] 0 None 0)).
  destruct (kway_loop _ _ _ _ _ _ _) as [[st n] evs]. apply Forall_app. split; [exact Hloop|].
  unfold kway_finish. repeat (apply Forall_app; split).
  - destruct (_ && _); repeat constructor; done.
  - repeat constructor; done.
  - destruct (_ <? _); repeat constructor; done.
Qed.

Lemma merge_no_memory `{RE : RegExpEngine} {J : JsonCodec} localeCompare now now_year stream chunks
    dirPath dir opts cp allow evs :
  o_reverse opts = false -> o_warmup opts = false ->
  (match o_parser opts with Some p => compileParserConfig p | None => Ok None end) = Ok cp ->
  compileWhitelistPathRegexes (o_whitelistGlobs opts) = Ok allow ->
  0 <= threshold_of opts < countTotalLinesInDir chunks dir allow ->
  mergeDirectory localeCompare now now_year stream chunks dirPath dir never false opts = Finished evs ->
  no_memory evs.
Proof.
  intros Hrev Hwarm Hcp Hal Hthr. unfold mergeDirectory. rewrite Hcp, Hal. fold (threshold_of opts).
  rewrite Hwarm. cbn [orb wr_logs wr_fullyCovered]. unfold should_skip.
  destruct (Z.leb_spec (Z.max 0 (countTotalLinesInDir chunks dir allow)) (threshold_of opts)); [lia|].
  cbn [orb andb]. rewrite Hrev.
  assert (H0 : forall o, no_memory (match o with
    | Some n => [EvProgress None (Some n) true] | None => [] end ++ [])).
  { intros [n|]; repeat constructor; done. }
  destruct (nonempty (listInputLogFiles dir allow)); cbn [negb].
  - unfold merge_standard. destruct (type_files _ _ _ _ _ _ _ _ _ _) as [written|]; [|done].
    intros [= <-]. apply Forall_app. split; [apply H0|apply kway_no_memory].
  - intros [= <-]. apply H0.
Qed.

(** ** The strings of the entries of plain files *)

Lemma take_while_incl p s c : c ∈ take_while p s -> c ∈ s.
Proof.
  induction s as [|d s IH]; simpl; [done|]. destruct (p d); [|by intros ?%elem_of_nil].
  intros [->|H]%elem_of_cons; [by left|right; auto].
Qed.

Lemma drop_while_incl p s c : c ∈ drop_while p s -> c ∈ s.
Proof. induction s as [|d s IH]; simpl; [done|]. destruct (p d); [|done]. right; auto. Qed.

Lemma basename_free p : sep_free p -> sep_free (basename p).
Proof.
  unfold sep_free, basename. rewrite !Forall_forall. intros H c Hc. apply H.
  apply list_elem_of_In in Hc. apply in_rev, list_elem_of_In in Hc.
  apply take_while_incl, drop_while_incl in Hc.
  apply list_elem_of_In in Hc. by apply list_elem_of_In, in_rev.
Qed.

Definition entry_free (e : LogEntry) : Prop := Forall sep_free (entry_strings e).

Lemma load_lines_free `{RE : RegExpEngine} now now_year cp fullPath fileIdx revIdx prevTs preserve lines :
  sep_free fullPath -> Forall sep_free lines ->
  Forall entry_free (load_lines now now_year false cp fullPath fileIdx revIdx prevTs preserve lines).
Proof.
  intros Hp Hl. revert revIdx prevTs. induction Hl as [|l ls Hl _ IH]; intros revIdx prevTs;
    cbn [load_lines andb]; [constructor|]. constructor; [|apply IH].
  assert (Hb := basename_free _ Hp).
  unfold restoreFullTextIfNeeded. destruct preserve; cbn [negb]; repeat constructor; done.
Qed.

Lemma load_type_free `{RE : RegExpEngine} now now_year stream dirPath dir preserve names :
  Forall (fun f => sep_free (path_join dirPath f) /\ Forall sep_free (file_lines dir f)) names ->
  Forall entry_free (load_type now now_year stream dirPath dir None preserve names).
Proof.
  intros H. unfold load_type. rewrite <- (array_sort_perm compareLogOrderDesc names) in H.
  generalize 0 as i. induction H as [|n ns [Hp Hl] _ IH]; intros i; cbn [load_files]; [constructor|].
  apply Forall_app. split; [|apply IH]. unfold load_file. cbn [use_parser]. by apply load_lines_free.
Qed.

Lemma free_no_ts l1 l2 :
  map no_ts l1 ≡ₚ map no_ts l2 -> Forall entry_free l2 -> Forall entry_free l1.
Proof.
  intros Hp H. assert (Hm : forall l, Forall entry_free l <-> Forall entry_free (map no_ts l)).
  { intros l. induction l as [|e l IH]; [done|]. cbn [map]. rewrite !Forall_cons, IH. done. }
  rewrite Hm in H |- *. by rewrite Hp.
Qed.

Lemma sorted_rev {A} (R : A -> A -> Prop) l :
  StronglySorted R l -> StronglySorted (fun a b => R b a) (rev l).
Proof.
  induction 1 as [|x l Hs IH Hx]; cbn [rev]; [constructor|].
  assert (Hg : forall (l' : list A), StronglySorted (fun a b => R b a) l' -> Forall (R x) l' ->
    StronglySorted (fun a b => R b a) (l' ++ [x])).
  { induction 1 as [|y l' Hs' IH' Hy]; intros Hf; cbn [app]; [by repeat constructor|].
    apply Forall_cons in Hf as [Hxy Hf]. constructor; [by apply IH'|].
    apply Forall_app. split; [done|]. by repeat constructor. }
  apply Hg; [done|]. rewrite Forall_forall in Hx |- *. intros y Hy. apply Hx.
  apply list_elem_of_In in Hy. by apply list_elem_of_In, in_rev.
Qed.

Lemma map_sorted {A B} (R : B -> B -> Prop) (f : A -> B) l :
  StronglySorted (fun a b => R (f a) (f b)) l -> StronglySorted R (map f l).
Proof.
  induction 1 as [|x l Hs IH Hx]; cbn [map]; [constructor|]. constructor; [done|].
  by apply Forall_map.
Qed.

Lemma session_serves `{RE : RegExpEngine} {J : JsonCodec} {JL : JsonLaws}
    {LS : LineSplitter} {LL : LineSplitterLaws} lower localeCompare now now_year stream chunks
    dirPath entries globs parser allow outDir elsewhere now_iso s :
  let dir := Some entries in
  (match parser with Some p => compileParserConfig p | None => Ok None end) = Ok None ->
  compileWhitelistPathRegexes globs = Ok allow ->
  let files := listInputLogFiles dir allow in
  files <> [] -> NoDup (map fst entries) ->
  let threshold := threshold_of (session_options globs parser) in
  threshold < countTotalLinesInDir chunks dir allow -> threshold < MAX_SAFE_INTEGER ->
  Forall file_name_ok files ->
  Forall (fun f => chunk_aligned (file_bytes dir f) CHUNK_SIZE) files ->
  Forall (fun f => Forall (fun l => line_yearless l = false) (file_lines dir f)) files ->
  Forall (fun f => sep_free (path_join dirPath f) /\ Forall sep_free (file_lines dir f)) files ->
  fresh_session s ->
  exists s' asc,
    startFileMergeSession lower localeCompare now now_year stream chunks dirPath dir never false true
      globs parser outDir elsewhere now_iso s = SessionDone s' /\
    serves (session_disk outDir elsewhere s') (s_pag s') asc /\
    StronglySorted (fun a b => e_ts a <= e_ts b) asc /\
    map e_text asc ≡ₚ
      (files ≫= fun f => reverse_lines (strip_bom (utf8_decode (file_bytes dir f)))) /\
    last (s_out s') = Some (SRefresh (Some (zlen asc)) (version (s_pag s')) false) /\
    pfilter (s_pag s') = pfilter (s_pag s).
Proof.
  cbv zeta. intros Hpar Hal Hne Hnd Hcount Hmax Hnames Hali Hyear Hfree Hfresh.
  set (dir := Some entries) in *. set (files := listInputLogFiles dir allow) in *.
  assert (Hpos : 1 <= threshold_of (session_options globs parser)).
  { unfold threshold_of. cbn [session_options o_memory_mode_threshold o_parser or_else].
    unfold getMemoryModeThresholdFromParser. repeat case_match; cbn [or_else]; try done. lia. }
  destruct (warmup_spec now now_year stream dirPath dir None (threshold_of (session_options globs parser))
    files) as (wr & Ew & _); [done|by apply listed_openable|done|by apply plain_warm_corrected|].
  destruct (mergeDirectory_standard localeCompare now now_year stream chunks dirPath dir
    (session_options globs parser) None allow) as (evs & Em & Hsort & Hperm);
    [done|done|done|done|done|done|lia|done|by apply plain_corrected|].
  assert (Hmem : no_memory evs).
  { eapply merge_no_memory; [..|exact Em]; try done. lia. }
  assert (Hsafe : safe (batches evs)).
  { apply free_no_ts in Hperm.
    - eapply Forall_impl; [exact Hperm|]. intros e. apply stringify_safe.
    - clear -Hfree. apply Forall_forall. intros e He. apply list_elem_of_bind in He as (p & He & Hp).
      revert e He. apply Forall_forall. apply load_type_free.
      assert (Hg := group_files files). rewrite Forall_forall in Hg. rewrite Forall_forall in Hfree.
      specialize (Hg p Hp). eapply Forall_impl; [exact Hg|]. auto. }
  unfold startFileMergeSession. rewrite Hpar, Hal.
  change (or_else (getMemoryModeThresholdFromParser parser) DEFAULT_MEMORY_MODE_THRESHOLD)
    with (threshold_of (session_options globs parser)).
  replace (warm_target (Some (threshold_of (session_options globs parser))) None)
    with (threshold_of (session_options globs parser)) by (unfold warm_target; cbn [or_else]; lia).
  change (warm_cap None) with (@None Z). cbn [sig_warm never]. fold files. rewrite Ew, Em.
  eexists _, (map bare (rev (batches evs))). split; [done|].
  destruct (run_session_serves lower outDir elsewhere (Some (countTotalLinesInDir chunks dir allow))
    now_iso (wr_logs wr) evs s Hfresh Hsafe Hmem) as (Hsv & _ & Hlast).
  split_and!; [exact Hsv| | | |apply run_session_filter].
  - apply map_sorted. apply sorted_rev in Hsort. exact Hsort.
  - assert (Hb : map e_text (map bare (rev (batches evs))) = map e_text (rev (batches evs)))
      by (by rewrite map_map).
    rewrite Hb, map_rev, <- Permutation_rev. apply no_ts_texts in Hperm.
    rewrite Hperm, plain_group_texts. by rewrite <- (aligned_lines dir files Hali).
  - rewrite Hlast, zlen_map, zlen_rev. done.
Qed.

(** a file-merge session shows every line of the directory, in the order of time.
    For a directory with more lines than the memory threshold whose files need no parser
    and have years in their headers, started on an output directory without manifest and with a disk
    that lets each rename succeed after finitely many attempts, the session ends; the
    pages then come from the part files, and what they show, oldest first, is exactly
    the non-empty lines of all files; the viewer is told that total and the version of
    the pages.  Warm-up, merging, chunking, manifest, reader and pages are all in
    between. *)
Theorem session_shows_all_lines `{RE : RegExpEngine} {J : JsonCodec} {JL : JsonLaws}
    {LS : LineSplitter} {LL : LineSplitterLaws} lower localeCompare now now_year stream chunks
    dirPath entries globs parser allow outDir elsewhere now_iso s :
  let dir := Some entries in
  (match parser with Some p => compileParserConfig p | None => Ok None end) = Ok None ->
  compileWhitelistPathRegexes globs = Ok allow ->
  let files := listInputLogFiles dir allow in
  files <> [] -> NoDup (map fst entries) ->
  let threshold := threshold_of (session_options globs parser) in
  threshold < countTotalLinesInDir chunks dir allow -> threshold < MAX_SAFE_INTEGER ->
  Forall file_name_ok files ->
  Forall (fun f => chunk_aligned (file_bytes dir f) CHUNK_SIZE) files ->
  Forall (fun f => Forall (fun l => line_yearless l = false) (file_lines dir f)) files ->
  Forall (fun f => sep_free (path_join dirPath f) /\ Forall sep_free (file_lines dir f)) files ->
  fresh_session s ->
  exists s' asc,
    startFileMergeSession lower localeCompare now now_year stream chunks dirPath dir never false true
      globs parser outDir elsewhere now_iso s = SessionDone s' /\
    serves (session_disk outDir elsewhere s') (s_pag s') asc /\
    StronglySorted (fun a b => e_ts a <= e_ts b) asc /\
    map e_text asc ≡ₚ
      (files ≫= fun f => reverse_lines (strip_bom (utf8_decode (file_bytes dir f)))) /\
    last (s_out s') = Some (SRefresh (Some (zlen asc)) (version (s_pag s')) false).
Proof.
  cbv zeta. intros. edestruct (session_serves lower localeCompare now now_year stream chunks dirPath entries
    globs parser allow outDir elsewhere now_iso s) as (s' & asc & Hs & Hsv & Hsort & Hperm & Hlast & _); [done..|].
  by exists s', asc.
Qed.

Definition empty_session : session :=
  Session pagination_init [] (new_ChunkWriter 0) (World ∅ [EEXIST] []) None (manifest_new (js "now"))
    0 false [] false 0 false 0 [].

Lemma empty_session_fresh : fresh_session empty_session.
Proof.
  constructor; try done.
  - intros k _ [t Ht]. cbn in Ht. by rewrite lookup_empty in Ht.
  - constructor; [by repeat constructor|unfold MAX_ATTEMPTS; simpl; lia|constructor].
Qed.

Definition sep_freeb (s : str) : bool := forallb (fun c => negb (c =? 8232) && negb (c =? 8233)) s.

Lemma sep_freeb_spec s : sep_freeb s = true -> sep_free s.
Proof.
  unfold sep_freeb, sep_free. rewrite forallb_forall. intros H. apply Forall_forall.
  intros c Hc%list_elem_of_In%H. lia.
Qed.

Lemma sample_free :
  Forall (fun f => sep_free (path_join (js "/d") f) /\ Forall sep_free (file_lines sample_dir f))
    [js "a.log"; js "a.log.1"; js "b.txt"].
Proof.
  assert (H : forallb (fun f => sep_freeb (path_join (js "/d") f) &&
    forallb sep_freeb (file_lines sample_dir f)) [js "a.log"; js "a.log.1"; js "b.txt"] = true)
    by (vm_compute; reflexivity).
  rewrite forallb_forall in H. apply Forall_forall. intros f Hf%list_elem_of_In%H.
  apply andb_prop in Hf as [H1 H2]. split; [by apply sep_freeb_spec|].
  rewrite forallb_forall in H2. apply Forall_forall. intros l Hl%list_elem_of_In%H2. by apply sep_freeb_spec.
Qed.

Lemma session_shows_all_lines_witness :
  exists s' asc,
    startFileMergeSession (RE := no_engine) ascii_lower (fun _ _ => 0) 0 2024 (fun b => Ok [b])
      (fun b => [b]) (js "/d") sample_dir never false true [] (Some (Config None None None (Some 1) []))
      (js "/out") (fun _ => DirState None ∅) (js "now") empty_session = SessionDone s' /\
    serves (session_disk (js "/out") (fun _ => DirState None ∅) s') (s_pag s') asc /\
    StronglySorted (fun a b => e_ts a <= e_ts b) asc /\
    map e_text asc ≡ₚ
      [js "[2024-05-02T10:00:00.000] p: two"; js "[2024-05-01T10:00:00.000] p: one";
       js "[2024-05-01T12:00:00.000] q: mid"] /\
    last (s_out s') = Some (SRefresh (Some (zlen asc)) (version (s_pag s')) false).
Proof.
  apply (@session_shows_all_lines no_engine json_codec json_laws node_splitter node_splitter_laws
    ascii_lower (fun _ _ => 0) 0 2024 (fun b => Ok [b]) (fun b => [b]) (js "/d") (or_else sample_dir [])
    [] (Some (Config None None None (Some 1) [])) [] (js "/out")
    (fun _ => DirState None ∅) (js "now") empty_session); try done.
  - apply (bool_decide_unpack _). vm_compute. exact I.
  - exact sample_names_ok.
  - exact sample_aligned.
  - exact sample_yearful.
  - exact sample_free.
  - exact empty_session_fresh.
Defined.
