(* ===== verification/Messages.v ===== *)
(** * Messages between the extension and its web views

    The types [H2W] and [W2H] of src/shared/ipc/messages.ts, one constructor per message
    type.  A payload the source types as [any] is a JSON value; a field that may be absent
    is an option.  The messages the bridge sends outside these types (casts to [any]) are
    constructors too, at the end of each type. *)

From stdpp Require Import base list.
From Stdlib Require Import ZArith.
From S2P Require Import Prelude JsString LogEntry Json LogFilter Pagination.

(** [kind] of a stage message *)
Inductive stage_kind := KStart | KDone | KInfo.

(** [BufferMetrics] with the memory figures of the process *)
Record metrics := Metrics { mt_realtime : Z; mt_rss : Z; mt_heapUsed : Z }.

(** The payload of [prefs.data] and [prefs.save]: the preferences the viewer knows *)
Record viewer_prefs := ViewerPrefs {
  vp_showTime : option bool;
  vp_showProc : option bool;
  vp_showPid : option bool;
  vp_showSrc : option bool;
  vp_showMsg : option bool;
  vp_bookmarksOpen : option bool;
}.

(** The payload of [merge.progress] *)
Record progress_args := ProgressArgs {
  pa_inc : option Z;
  pa_total : option Z;
  pa_done : option Z;
  pa_active : option bool;
  pa_reset : bool;
}.

(** The payload of [error] *)
Record error_info := ErrorInfo { er_code : str; er_message : str; er_inReplyTo : option str }.

(** The items of a folder *)
Inductive item_kind := ItemFile | ItemFolder.
Record folder_item := FolderItem { fi_name : str; fi_kind : item_kind }.

Inductive mode := ModeNormal | ModeDebug.

(** Host to web view *)
Inductive h2w :=
| LogsBatch (logs : list LogEntry) (total seq version : option Z)
| PageResponse (startIdx endIdx : Z) (logs : list LogEntry) (version : option Z)
| LogsState (warm : bool) (total version : option Z) (manifestDir : option str)
| MetricsUpdate (m : metrics)
| ConnectionStatus (connected : bool) (host : str)
| UpdateAvailable (version : str)
| ButtonsSet (sections : json)
| ButtonsLock (ids : list str)
| ButtonsUnlock (ids : list str)
| UiToggleMode (toggle : option bool) (m : option mode)
| HostError (e : error_info)
| PerfUpdateData (data : json)
| PerfCaptureStarted
| PerfCaptureStopped (result : json) (htmlReport exportHtml : str)
| PerfMonitoringStarted
| PerfMonitoringStopped
| ExplorerListResult (path : str) (items : list folder_item)
| ExplorerOk (op path : str)
| ExplorerError (op message : str)
| ExplorerRootChanged
| ExplorerFsChanged (path : str)
| AppendLog (text : str)
| InitState (state : json)
| SetUpdateVisible (visible : bool)
| HToggleExplorer
| HToggleLogs
| DebugLogPage (lines : list str) (cursor total : Z)
| DebugLogCleared
| DebugLogCopied (bytes lines : option Z)
| MergeSaved (outDir manifestPath : str) (chunkCount : Z) (total : option Z) (merged : Z)
| MergeProgress (p : progress_args)
| MergeStage (text : str) (kind : stage_kind)
| PrefsData (p : viewer_prefs)
| Ack (inReplyTo : option str)
| GitStatusResponse (status : json)
| GitStatusError (message : str)
| LogsRefresh (total version : option Z) (warm : bool)
| SearchResults (hits : list hit) (q : option str)
| MemoryUsage (rssMB heapUsedMB : option Z)
| LogsSearchResult (hits : list hit)
| BookmarksData.

(** [mode] of a jump *)
Inductive jump_mode := JumpTop | JumpBottom | JumpCenter.

(** Web view to host *)
Inductive w2h :=
| ViewerReady
| UiReady
| UiLog (level text source : str)
| SavePanelState (state : json)
| StartRealtime (filter : option str)
| StartFileMerge (dir : str)
| LoggingStop
| PageRequest (startIdx endIdx : option Z)
| FilterSet (f : option filter_arg)
| SearchQuery (q : str) (o : search_opts)
| SearchClear
| CommandRun (name : str) (args : list str)
| ButtonClick (id : str)
| PerfMeasure (name : str)
| PerfStartCapture
| PrefsLoad
| PrefsSave (p : viewer_prefs)
| PerfStopCapture
| PerfStartMonitoring
| PerfStopMonitoring
| PerfExportJson
| PerfExportHtmlReport (html : str)
| WorkspaceEnsure
| ExplorerList (path : str)
| ExplorerRefresh (path : str)
| ExplorerOpen (path : str)
| ExplorerCreateFile (path : str)
| ExplorerCreateFolder (path : str)
| ExplorerDelete (path : str) (recursive useTrash : bool)
| GitStatusRequest
| WToggleExplorer
| WToggleLogs
| RequestButtons
| PerfReady
| DebugLogLoadOlder (limit : option Z)
| DebugLogClear
| DebugLogCopy
| LogsSearch (query : str) (caseSensitive regex : bool) (abortKey : option str)
| BookmarksLoad
| BookmarksSave
| BookmarksToggle
| BookmarksClear
| LogsFollow
| LogsJump (idx : option Z) (m : jump_mode)
| LogsCapacity (capacity : option Z)
| WAck (inReplyTo : option str)
| WError (e : error_info).
