(* ===== verification/Viewer.v ===== *)
(** * The log viewer

    The state of the log viewer's web view and everything that changes it: the store of
    src/webviewers/log-viewer/react/store.ts, and the message handler with its gates of
    ipc.ts.  [receive] is the handler of a message from the host; it gives the new state
    and the messages it posts.  Log texts and time measurements are left out. *)

From stdpp Require Import base list sorting strings gmap.
From Stdlib Require Import ZArith Lia.
From S2P Require Import Prelude JsString Regex TimeParser LogEntry Json LogFilter Pagination.
From S2P Require Import Messages.

(** ** Data *)

(** [LogRow]; an absent [bookmarked] is false. *)
Record LogRow := LRow {
  lr_id : Z;
  lr_idx : option Z;
  lr_time : str;
  lr_proc : str;
  lr_pid : str;
  lr_msg : str;
  lr_src : str;
  lr_raw : str;
  lr_bookmarked : bool;
}.

Record BookmarkItem := Bookmark { bm_idx : Z; bm_time : str; bm_msg : str; bm_src : str }.

Inductive ColumnId := ColTime | ColProc | ColPid | ColSrc | ColMsg.

#[export] Instance ColumnId_eq_dec : EqDecision ColumnId.
Proof. solve_decision. Defined.

(** [HighlightRule]; the colours are c1 to c12. *)
Record HighlightRule := Highlight { hl_text : str; hl_color : option Z }.

Inductive merge_display := MemoryDisplay | HybridDisplay.

(** The fields of [Model], grouped: the rows, *)
Record view := View {
  v_rows : list LogRow;
  v_nextId : Z;
  v_totalRows : Z;
  v_windowStart : Z;
  v_selectedRowId : option Z;
  v_pendingJumpIdx : option Z;
  v_bookmarks : gmap Z BookmarkItem;
  v_follow : bool;
  v_newSincePause : Z;
}.

(** the search pane, *)
Record search_pane := SearchPane { sp_query : str; sp_open : bool; sp_hits : list hit }.

(** the progress bar, *)
Record merge_bar := MergeBar {
  mb_active : bool;
  mb_done : Z;
  mb_total : Z;
  mb_stage : str;
  mb_mode : merge_display;
}.

(** and what the user has set. *)
Record settings := Settings {
  st_showCols : ColumnId -> bool;
  st_colW : ColumnId -> Z;
  st_highlights : list HighlightRule;
  st_showBookmarks : bool;
  st_filter : log_filter;
  st_hostMemMB : option Z;
  st_webMemMB : option Z;
}.

(** The variables of the module ipc.ts *)
Record gates := Gates {
  g_sessionVersion : option Z;
  g_allowEstimatedTotal : bool;
  g_mergeActive : bool;
  g_readyForFilter : bool;
  g_pendingFilter : option log_filter;
  g_fastMemory : bool;
}.

Record viewer := Viewer {
  vw : view;
  vs : search_pane;
  vm : merge_bar;
  vt : settings;
  vg : gates;
}.

Definition LOG_OVERSCAN : Z := 40.
Definition LOG_ROW_HEIGHT : Z := 22.

(** [windowSize] of the model, which no action changes *)
Definition windowSize : Z := Z.max 200 (LOG_OVERSCAN * 2 + 128).

Definition empty_filter : log_filter := Filter [] [] [] [].

Definition initial_colW (c : ColumnId) : Z :=
  match c with ColTime => 160 | ColProc => 160 | ColPid => 80 | ColSrc => 180 | ColMsg => 0 end.

Definition viewer_init : viewer :=
  Viewer (View [] 1 0 1 None None ∅ true 0) (SearchPane [] false [])
    (MergeBar false 0 0 [] MemoryDisplay)
    (Settings (fun _ => true) initial_colW [] false empty_filter None None)
    (Gates None true false false None false).

Definition with_view (w : view) (s : viewer) : viewer := Viewer w (vs s) (vm s) (vt s) (vg s).
Definition with_search (p : search_pane) (s : viewer) : viewer := Viewer (vw s) p (vm s) (vt s) (vg s).
Definition with_bar (b : merge_bar) (s : viewer) : viewer := Viewer (vw s) (vs s) b (vt s) (vg s).
Definition with_settings (t : settings) (s : viewer) : viewer := Viewer (vw s) (vs s) (vm s) t (vg s).
Definition with_gates (g : gates) (s : viewer) : viewer := Viewer (vw s) (vs s) (vm s) (vt s) g.

(** ** The actions of the store *)

(** [Math.max(0, n | 0)] *)
Definition nat32 (n : Z) : Z := Z.max 0 (to_int32 n).

Definition setTotalRows (total : Z) (s : viewer) : viewer :=
  let w := vw s in
  with_view (View (v_rows w) (v_nextId w) (nat32 total) (v_windowStart w) (v_selectedRowId w)
    (v_pendingJumpIdx w) (v_bookmarks w) (v_follow w) (v_newSincePause w)) s.

Definition set_bookmarked (b : bool) (r : LogRow) : LogRow :=
  LRow (lr_id r) (lr_idx r) (lr_time r) (lr_proc r) (lr_pid r) (lr_msg r) (lr_src r) (lr_raw r) b.

(** A row is marked when its number has a bookmark; the number 0 counts as none. *)
Definition restore_bookmark (bm : gmap Z BookmarkItem) (r : LogRow) : LogRow :=
  match lr_idx r with
  | Some k => if negb (k =? 0) && bool_decide (is_Some (bm !! k)) then set_bookmarked true r else r
  | None => r
  end.

Definition has_idx (k : Z) (r : LogRow) : bool := bool_decide (lr_idx r = Some k).

Definition receiveRows (startIdx : Z) (rows : list LogRow) (s : viewer) : viewer :=
  let w := vw s in
  let maxIdInBatch := foldl (fun m r => Z.max m (lr_id r)) 0 rows in
  let rowsWithBm := map (restore_bookmark (v_bookmarks w)) rows in
  let selected :=
    match v_pendingJumpIdx w with
    | Some j => match List.find (has_idx j) rowsWithBm with
                | Some hit => if j =? 0 then v_selectedRowId w else Some (lr_id hit)
                | None => v_selectedRowId w
                end
    | None => v_selectedRowId w
    end in
  with_view (View rowsWithBm (Z.max (v_nextId w) (maxIdInBatch + 1)) (v_totalRows w)
    (Z.max 1 (to_int32 startIdx)) selected (v_pendingJumpIdx w) (v_bookmarks w) (v_follow w)
    (v_newSincePause w)) s.

Definition toggleColumn (col : ColumnId) (on : bool) (s : viewer) : viewer :=
  let t := vt s in
  with_settings (Settings (fun c => if decide (c = col) then on else st_showCols t c) (st_colW t)
    (st_highlights t) (st_showBookmarks t) (st_filter t) (st_hostMemMB t) (st_webMemMB t)) s.

Definition setHighlights (rules : list HighlightRule) (s : viewer) : viewer :=
  let t := vt s in
  let norm := map (fun r => Highlight (trim (hl_text r)) (Some (or_else (hl_color r) 1)))
                (slice (filter (fun r => nonempty (trim (hl_text r)) = true) rules) 0 5) in
  with_settings (Settings (st_showCols t) (st_colW t) norm (st_showBookmarks t) (st_filter t)
    (st_hostMemMB t) (st_webMemMB t)) s.

Definition setSearch (q : str) (s : viewer) : viewer :=
  let t := trim q in
  if nonempty t then with_search (SearchPane t (sp_open (vs s)) (sp_hits (vs s))) s
  else with_search (SearchPane [] false []) s.

Definition closeSearch (s : viewer) : viewer := with_search (SearchPane [] false []) s.

Definition openSearchPanel (s : viewer) : viewer :=
  with_search (SearchPane (sp_query (vs s)) true (sp_hits (vs s))) s.

Definition setSearchResults (hits : list hit) (q : option str) (s : viewer) : viewer :=
  if negb (sp_open (vs s)) && negb (nonempty (trim (sp_query (vs s)))) then s
  else with_search (SearchPane (or_else q (sp_query (vs s))) true hits) s.

Definition toggleBookmarkByIdx (globalIdx : Z) (s : viewer) : viewer :=
  let w := vw s in
  let bookmarks :=
    match v_bookmarks w !! globalIdx with
    | Some _ => delete globalIdx (v_bookmarks w)
    | None =>
        match List.find (has_idx globalIdx) (v_rows w) with
        | Some row => <[globalIdx := Bookmark globalIdx (lr_time row) (lr_msg row) (lr_src row)]>
                        (v_bookmarks w)
        | None => v_bookmarks w
        end
    end in
  let rows := map (fun r => if has_idx globalIdx r
                            then set_bookmarked (bool_decide (is_Some (bookmarks !! globalIdx))) r
                            else r) (v_rows w) in
  with_view (View rows (v_nextId w) (v_totalRows w) (v_windowStart w) (v_selectedRowId w)
    (v_pendingJumpIdx w) bookmarks (v_follow w) (v_newSincePause w)) s.

Definition toggleBookmark (rowId : Z) (s : viewer) : viewer :=
  match List.find (fun r => lr_id r =? rowId) (v_rows (vw s)) ≫= lr_idx with
  | Some idx => if idx <=? 0 then s else toggleBookmarkByIdx idx s
  | None => s
  end.

Definition setBookmarksPane (open : bool) (s : viewer) : viewer :=
  let t := vt s in
  with_settings (Settings (st_showCols t) (st_colW t) (st_highlights t) open (st_filter t)
    (st_hostMemMB t) (st_webMemMB t)) s.

Definition toggleBookmarksPane (s : viewer) : viewer :=
  setBookmarksPane (negb (st_showBookmarks (vt s))) s.

Definition jumpToRow (rowId : Z) (s : viewer) : viewer :=
  let w := vw s in
  with_view (View (v_rows w) (v_nextId w) (v_totalRows w) (v_windowStart w) (Some rowId)
    (v_pendingJumpIdx w) (v_bookmarks w) (v_follow w) (v_newSincePause w)) s.

Definition jumpToIdx (idx : Z) (s : viewer) : viewer :=
  let w := vw s in
  with_view (View (v_rows w) (v_nextId w) (v_totalRows w) (v_windowStart w) (v_selectedRowId w)
    (Some (Z.max 1 (to_int32 idx))) (v_bookmarks w) false (v_newSincePause w)) s.

Definition resizeColumn (col : ColumnId) (dx : Z) (s : viewer) : viewer :=
  let t := vt s in
  let old := if st_colW t col =? 0 then 120 else st_colW t col in
  with_settings (Settings (st_showCols t)
    (fun c => if decide (c = col) then Z.max 60 (old + dx) else st_colW t c)
    (st_highlights t) (st_showBookmarks t) (st_filter t) (st_hostMemMB t) (st_webMemMB t)) s.

(** The counter at the end of a stage text: spaces, digits over digits in parentheses *)
Definition COUNTER_RX : re :=
  sq [star ws; chr 40; plus d; chr 47; plus d; chr 41; star ws; Eol].

Definition stripCounterSuffix (t : str) : str :=
  trim (match exec COUNTER_RX t with
        | Some m => take (rx_index m) t ++ rx_rest m
        | None => t
        end).

Definition computeStageText (base : str) : str := stripCounterSuffix base.

(** The stage text of a finished merge *)
Definition STAGE_DONE : str := [48337; 54633; 32; 50756; 47308].

Definition mergeProgress (p : progress_args) (s : viewer) : viewer :=
  let cur := vm s in
  let t := match pa_total p with Some n => Z.max 0 n | None => mb_total cur end in
  let base := if pa_reset p then 0 else mb_done cur in
  let doneVal := match pa_done p with
                 | Some n => Z.max 0 n
                 | None => Z.max 0 (base + or_else (pa_inc p) 0)
                 end in
  let act := if (0 <? t) && (t <=? doneVal) then false else or_else (pa_active p) (mb_active cur) in
  let stage := if act then computeStageText (mb_stage cur) else STAGE_DONE in
  with_bar (MergeBar act doneVal t stage (mb_mode cur)) s.

Definition setMergeStage (text : str) (s : viewer) : viewer :=
  let b := vm s in
  with_bar (MergeBar (mb_active b) (mb_done b) (mb_total b) (computeStageText text) (mb_mode b)) s.

Definition setMergeMode (mode : merge_display) (s : viewer) : viewer :=
  let b := vm s in with_bar (MergeBar (mb_active b) (mb_done b) (mb_total b) (mb_stage b) mode) s.

Definition set_filter (f : log_filter) (s : viewer) : viewer :=
  let t := vt s in
  with_settings (Settings (st_showCols t) (st_colW t) (st_highlights t) (st_showBookmarks t) f
    (st_hostMemMB t) (st_webMemMB t)) s.

(** A field of the filter *)
Inductive filter_field := FPid | FSrc | FProc | FMsg.

Definition setFilterField (k : filter_field) (v : str) (s : viewer) : viewer :=
  let f := st_filter (vt s) in
  set_filter (match k with
              | FPid => Filter v (f_src f) (f_proc f) (f_msg f)
              | FSrc => Filter (f_pid f) v (f_proc f) (f_msg f)
              | FProc => Filter (f_pid f) (f_src f) v (f_msg f)
              | FMsg => Filter (f_pid f) (f_src f) (f_proc f) v
              end) s.

Definition setFollow (follow : bool) (s : viewer) : viewer :=
  let w := vw s in
  with_view (View (v_rows w) (v_nextId w) (v_totalRows w) (v_windowStart w) (v_selectedRowId w)
    (v_pendingJumpIdx w) (v_bookmarks w) follow (v_newSincePause w)) s.

Definition set_newSincePause (n : Z) (s : viewer) : viewer :=
  let w := vw s in
  with_view (View (v_rows w) (v_nextId w) (v_totalRows w) (v_windowStart w) (v_selectedRowId w)
    (v_pendingJumpIdx w) (v_bookmarks w) (v_follow w) n) s.

Definition incNewSincePause (s : viewer) : viewer := set_newSincePause (v_newSincePause (vw s) + 1) s.

Definition clearNewSincePause (s : viewer) : viewer := set_newSincePause 0 s.

Definition setHostMemMB (mb : option Z) (s : viewer) : viewer :=
  let t := vt s in
  with_settings (Settings (st_showCols t) (st_colW t) (st_highlights t) (st_showBookmarks t)
    (st_filter t) (nat32 <$> mb) (st_webMemMB t)) s.

Definition setWebMemMB (mb : option Z) (s : viewer) : viewer :=
  let t := vt s in
  with_settings (Settings (st_showCols t) (st_colW t) (st_highlights t) (st_showBookmarks t)
    (st_filter t) (st_hostMemMB t) (nat32 <$> mb)) s.

(** ** The module ipc.ts *)

Definition updateSessionVersion (next : option Z) (s : viewer) : viewer :=
  let g := vg s in
  match next with
  | Some v => with_gates (Gates (Some v) (g_allowEstimatedTotal g) (g_mergeActive g)
                (g_readyForFilter g) (g_pendingFilter g) (g_fastMemory g)) s
  | None => s
  end.

Definition set_allowEstimates (b : bool) (s : viewer) : viewer :=
  let g := vg s in
  with_gates (Gates (g_sessionVersion g) b (g_mergeActive g) (g_readyForFilter g)
    (g_pendingFilter g) (g_fastMemory g)) s.

Definition disallowEstimates (s : viewer) : viewer := set_allowEstimates false s.

Definition set_mergeActive (b : bool) (s : viewer) : viewer :=
  let g := vg s in
  with_gates (Gates (g_sessionVersion g) (g_allowEstimatedTotal g) b (g_readyForFilter g)
    (g_pendingFilter g) (g_fastMemory g)) s.

Definition setWebMemPeriod (fast : bool) (s : viewer) : viewer :=
  let g := vg s in
  with_gates (Gates (g_sessionVersion g) (g_allowEstimatedTotal g) (g_mergeActive g)
    (g_readyForFilter g) (g_pendingFilter g) fast) s.

(** [normalizeFilter] of ipc.ts: every field trimmed *)
Definition normalize_fields (f : log_filter) : log_filter :=
  Filter (trim (f_pid f)) (trim (f_src f)) (trim (f_proc f)) (trim (f_msg f)).

Definition isEmptyFilter (f : log_filter) : bool :=
  negb (nonempty (trim (f_pid f))) && negb (nonempty (trim (f_src f))) &&
  negb (nonempty (trim (f_proc f))) && negb (nonempty (trim (f_msg f))).

(** The argument the host receives *)
Definition filter_payload (f : log_filter) : filter_arg :=
  FilterArg (Some (f_pid f)) (Some (f_src f)) (Some (f_proc f)) (Some (f_msg f)).

Definition flushFilter (next : log_filter) : w2h :=
  FilterSet (if isEmptyFilter next then None else Some (filter_payload next)).

Definition setReadyForFilter (s : viewer) : viewer * list w2h :=
  let g := vg s in
  if g_readyForFilter g then (s, [])
  else (with_gates (Gates (g_sessionVersion g) (g_allowEstimatedTotal g) (g_mergeActive g) true None
          (g_fastMemory g)) s,
        match g_pendingFilter g with Some f => [flushFilter f] | None => [] end).

Definition postFilterUpdate (f : log_filter) (s : viewer) : viewer * list w2h :=
  let next := normalize_fields f in
  let g := vg s in
  if g_readyForFilter g then (s, [flushFilter next])
  else (with_gates (Gates (g_sessionVersion g) (g_allowEstimatedTotal g) (g_mergeActive g) false
          (Some next) (g_fastMemory g)) s, []).

Definition applyFilter (next : log_filter) (s : viewer) : viewer * list w2h :=
  postFilterUpdate next (set_filter next s).

Definition resetFilters (s : viewer) : viewer * list w2h := applyFilter empty_filter s.

(** [basename] of ipc.ts cuts at slashes of both kinds. *)
Definition after_unit (c : Z) (s : str) : str :=
  match rev (split_on c s) with x :: _ => x | [] => [] end.

Definition file_basename (p : str) : str := after_unit 92 (after_unit 47 p).

Definition pickSrcName (e : LogEntry) : str :=
  file_basename (if nonempty (e_file e) then e_file e else e_path e).

(** [time] of [parseLine]; the other parts are those of the host's [parseLine]. *)
Definition parse_time (line : str) : str :=
  match exec TIME_LINE_RX line with Some m => or_else (cap m 1) [] | None => [] end.

Definition row_of (id : Z) (e : LogEntry) : LogRow :=
  let p := parseLine (e_text e) in
  LRow id (e_idx e) (parse_time (e_text e)) (lp_proc p) (lp_pid p) (lp_msg p) (pickSrcName e)
    (e_text e) false.

(** [(a, b) => (a.idx ?? 0) - (b.idx ?? 0)] *)
Definition idx_cmp (a b : LogEntry) : Z := or_else (e_idx a) 0 - or_else (e_idx b) 0.

(** The rows of a message: sorted by number, then given ids in that order *)
Definition rows_of (baseId : Z) (logs : list LogEntry) : list LogRow :=
  imap (fun i e => row_of (baseId + Z.of_nat i) e) (array_sort idx_cmp logs).

(** [rows.length && typeof rows[0].idx === 'number' ? rows[0].idx : 1] *)
Definition start_of (rows : list LogRow) : Z :=
  match rows with r :: _ => or_else (lr_idx r) 1 | [] => 1 end.

Definition show_logs (logs : list LogEntry) (s : viewer) : viewer :=
  let rows := rows_of (v_nextId (vw s)) logs in receiveRows (start_of rows) rows s.

Definition on_prefs (p : viewer_prefs) (s : viewer) : viewer :=
  let col c o s := match o with Some b => toggleColumn c b s | None => s end in
  let s1 := col ColMsg (vp_showMsg p) (col ColSrc (vp_showSrc p) (col ColPid (vp_showPid p)
              (col ColProc (vp_showProc p) (col ColTime (vp_showTime p) s)))) in
  match vp_bookmarksOpen p with
  | Some want => setBookmarksPane (want && negb (bool_decide (v_bookmarks (vw s1) = ∅))) s1
  | None => s1
  end.

Definition on_batch (logs : list LogEntry) (total version : option Z) (s : viewer)
  : viewer * list w2h :=
  let s1 := match total with Some t => setTotalRows t s | None => s end in
  let s2 := show_logs logs (updateSessionVersion version s1) in
  let s3 := if negb (v_follow (vw s2)) && nonempty logs then incNewSincePause s2 else s2 in
  let '(s4, posts) := setReadyForFilter s3 in
  (disallowEstimates s4, posts).

(** The range around an anchor: half a window before it, cut to the rows there are *)
Definition window_range (total anchorIdx : Z) : Z * Z :=
  let half := windowSize / 2 in
  let startIdx := Z.max 1 (anchorIdx - half) in
  let endIdx := Z.min total (startIdx + windowSize - 1) in
  (if endIdx - startIdx + 1 <? windowSize then Z.max 1 (endIdx - windowSize + 1) else startIdx,
   endIdx).

(** The row a refresh keeps in the window *)
Definition refresh_anchor (total : Z) (w : view) : Z :=
  match v_pendingJumpIdx w with
  | Some j => if 0 <? j then j
              else if v_follow w then Z.max 1 total
              else Z.max 1 (Z.min (v_windowStart w + windowSize / 2) (Z.max 1 total))
  | None => if v_follow w then Z.max 1 total
            else Z.max 1 (Z.min (v_windowStart w + windowSize / 2) (Z.max 1 total))
  end.

Definition on_refresh (total version : option Z) (warm : bool) (s : viewer) : viewer * list w2h :=
  let t := or_else total 0 in
  let s1 := updateSessionVersion version s in
  let s2 := if warm then s1 else disallowEstimates s1 in
  let s3 := mergeProgress (ProgressArgs None (Some t) (Some t) (Some false) false) (setTotalRows t s2) in
  let '(s4, posts) := setReadyForFilter s3 in
  let s5 := setWebMemPeriod false s4 in
  let '(startIdx, endIdx) := window_range t (refresh_anchor t (vw s5)) in
  let s6 := receiveRows startIdx [] s5 in
  let s7 := setMergeStage STAGE_DONE
              (setMergeMode (if warm then MemoryDisplay else HybridDisplay) s6) in
  (s7, posts ++ [PageRequest (Some startIdx) (Some endIdx)]).

(** A page with another version than the current one is dropped. *)
Definition on_page (logs : list LogEntry) (version : option Z) (s : viewer) : viewer :=
  match version, g_sessionVersion (vg s) with
  | Some v, Some cur => if v =? cur then show_logs logs s else s
  | Some v, None => show_logs logs (updateSessionVersion (Some v) s)
  | None, _ => show_logs logs s
  end.

Definition on_progress (p : progress_args) (s : viewer) : viewer :=
  let isCloseSignal :=
    bool_decide (pa_active p = Some false) ||
    match pa_total p, pa_done p with
    | Some t, Some dn => negb (t =? 0) && (t <=? dn)
    | _, _ => false
    end in
  let opened := bool_decide (pa_active p = Some true) in
  let s1 := if opened then set_mergeActive true s else s in
  let s2 := if isCloseSignal then set_mergeActive false s1 else s1 in
  let s3 := setWebMemPeriod (g_mergeActive (vg s2)) s2 in
  if negb (g_mergeActive (vg s3)) && negb opened && negb isCloseSignal then s3
  else
    let s4 := mergeProgress p s3 in
    match pa_total p with
    | Some t =>
        if g_allowEstimatedTotal (vg s4) &&
           ((v_totalRows (vw s4) =? 0) || (v_totalRows (vw s4) <? t))
        then setTotalRows t s4 else s4
    | None => s4
    end.

(** The texts that announce a merge of files *)
Definition MERGE_FILES_START : str := [54028; 51068; 32; 48337; 54633; 51012; 32; 49884; 51089].
Definition LOG_MERGE_START : str := [47196; 44536; 48337; 54633; 32; 49884; 51089].
Definition SORTING_RX : re := sq [lit [47196; 44536; 47484]; star ws; lit [51221; 47148; 51473]; Eol].

Definition isHybridSignal (text : str) : bool :=
  let t := trim text in
  bool_decide (t = MERGE_FILES_START) || bool_decide (t = LOG_MERGE_START) || rx_test SORTING_RX t.

Definition on_stage (text : str) (kind : stage_kind) (s : viewer) : viewer :=
  let s1 := setMergeStage text s in
  let s2 := match kind with
            | KStart => setWebMemPeriod true (set_allowEstimates true (set_mergeActive true s1))
            | KDone => setWebMemPeriod false (disallowEstimates (set_mergeActive false s1))
            | KInfo => s1
            end in
  if isHybridSignal text then setMergeMode HybridDisplay s2 else s2.

Definition on_saved (total : option Z) (merged : Z) (s : viewer) : viewer :=
  let s1 := disallowEstimates s in
  let t := or_else total merged in
  let s2 := setTotalRows t
              (mergeProgress (ProgressArgs None (Some t) (Some t) (Some false) false) s1) in
  setWebMemPeriod false (setMergeStage STAGE_DONE (set_mergeActive false s2)).

Definition receive (m : h2w) (s : viewer) : viewer * list w2h :=
  match m with
  | MemoryUsage rss heap =>
      (setHostMemMB (match rss with Some n => Some n | None => heap end) s, [])
  | LogsState _ total version _ =>
      let '(s1, posts) := setReadyForFilter (updateSessionVersion version s) in
      (match total with Some t => setTotalRows t s1 | None => s1 end, posts)
  | PrefsData p => (on_prefs p s, [])
  | LogsBatch logs total _ version => on_batch logs total version s
  | LogsRefresh total version warm => on_refresh total version warm s
  | PageResponse _ _ logs version => (on_page logs version s, [])
  | MergeProgress p => (on_progress p s, [])
  | MergeStage text kind => (on_stage text kind s, [])
  | MergeSaved _ _ _ total merged => (on_saved total merged s, [])
  | SearchResults hits q => (setSearchResults hits q s, [])
  | _ => (s, [])
  end.

(** [setupIpc]: the first messages of a viewer, and its mode *)
Definition setupIpc (s : viewer) : viewer * list w2h :=
  (setMergeMode MemoryDisplay s, [PrefsLoad; ViewerReady]).
