(* ===== verification/HostBridge.v ===== *)
(** * The host's side of the viewer

    [HostWebviewBridge] of src/extension/messaging/hostWebviewBridge.ts: what the host
    answers to the messages of the log viewer, and its throttled progress reports.  A
    handler runs until it awaits the page service; what it does after that is a [task],
    resumed later, possibly after other messages and after changes of the service; a read of
    the service itself is one step.  [serve] runs a message without interruption.  Throttled log texts are left out, and
    so are the handlers other modules register. *)

From stdpp Require Import base list sorting strings gmap.
From Stdlib Require Import ZArith Lia.
From S2P Require Import Prelude JsString Regex TimeParser LogEntry Json ParserEngine Manifest.
From S2P Require Import ChunkWriter PagedReader LogFilter Pagination Session Messages.

(** ** Progress reports *)

(** The fields from [progressLatest] to [progressTimer] *)
Record ticker := Ticker {
  tk_done : option Z;
  tk_total : option Z;
  tk_active : option bool;
  tk_incAcc : Z;
  tk_resetPending : bool;
  tk_lastSentKey : str;
  tk_running : bool;
}.

Definition ticker_init : ticker := Ticker None None None 0 false [] false.

(** [onProgress] of the merge reporter *)
Definition report (a : progress_args) (t : ticker) : ticker :=
  Ticker
    (match pa_done a with Some n => Some (Z.max 0 (to_int32 n)) | None => tk_done t end)
    (match pa_total a with Some n => Some (Z.max 0 (to_int32 n)) | None => tk_total t end)
    (match pa_active a with Some b => Some b | None => tk_active t end)
    (match pa_inc a with Some n => tk_incAcc t + Z.max 0 (to_int32 n) | None => tk_incAcc t end)
    (pa_reset a || tk_resetPending t)
    (tk_lastSentKey t)
    true.

Definition print_opt (o : option Z) : str := match o with Some n => print_int n | None => [] end.

Definition print_bool (b : bool) : str := if b then js "true" else js "false".

(** What the ticker compares with the last message *)
Definition ticker_key (t : ticker) : str :=
  join [124] [print_opt (tk_done t); print_opt (tk_total t);
              match tk_active t with Some b => print_bool b | None => [] end;
              print_int (tk_incAcc t); if tk_resetPending t then [82] else []].

(** The message of a tick *)
Definition ticker_payload (t : ticker) : progress_args :=
  ProgressArgs (if tk_incAcc t =? 0 then None else Some (tk_incAcc t)) (tk_total t) (tk_done t)
    (tk_active t) (tk_resetPending t).

(** The callback of [setInterval], every 100 ms *)
Definition tick (t : ticker) : ticker * list h2w :=
  if negb (tk_running t) then (t, [])
  else
    let k := ticker_key t in
    if bool_decide (k = tk_lastSentKey t) then (t, [])
    else (Ticker (tk_done t) (tk_total t) (tk_active t) 0 false k
            (negb (bool_decide (tk_active t = Some false))),
          [MergeProgress (ticker_payload t)]).

(** ** The bridge *)

(** The service and the fields of the bridge; [b_pendings] has the abort controller of
    every key, [b_aborted] the controllers that are aborted. *)
Record host := Host {
  h_pag : pagination;
  b_seq : Z;
  b_kickedOnce : bool;
  b_searchHits : list hit;
  b_pendings : gmap str Z;
  b_aborted : gset Z;
  b_controllers : Z;
  b_ticker : ticker;
}.

Definition with_service (p : pagination) (h : host) : host :=
  Host p (b_seq h) (b_kickedOnce h) (b_searchHits h) (b_pendings h) (b_aborted h)
    (b_controllers h) (b_ticker h).

Definition with_seq (n : Z) (h : host) : host :=
  Host (h_pag h) n (b_kickedOnce h) (b_searchHits h) (b_pendings h) (b_aborted h)
    (b_controllers h) (b_ticker h).

Definition with_kicked (h : host) : host :=
  Host (h_pag h) (b_seq h) true (b_searchHits h) (b_pendings h) (b_aborted h)
    (b_controllers h) (b_ticker h).

Definition with_hits (hits : list hit) (h : host) : host :=
  Host (h_pag h) (b_seq h) (b_kickedOnce h) hits (b_pendings h) (b_aborted h)
    (b_controllers h) (b_ticker h).

Definition with_aborts (p : gmap str Z) (a : gset Z) (n : Z) (h : host) : host :=
  Host (h_pag h) (b_seq h) (b_kickedOnce h) (b_searchHits h) p a n (b_ticker h).

Definition with_ticker (t : ticker) (h : host) : host :=
  Host (h_pag h) (b_seq h) (b_kickedOnce h) (b_searchHits h) (b_pendings h) (b_aborted h)
    (b_controllers h) t.

(** [abort(abortKey)] *)
Definition abort (key : str) (h : host) : host :=
  match b_pendings h !! key with
  | Some c => with_aborts (delete key (b_pendings h)) ({[c]} ∪ b_aborted h) (b_controllers h) h
  | None => h
  end.

(** [registerAbort(abortKey, controller)] *)
Definition registerAbort (key : str) (c : Z) (h : host) : host :=
  let h1 := abort key h in
  with_aborts (<[key := c]> (b_pendings h1)) (b_aborted h1) (b_controllers h1) h1.

(** The errors a handler answers with *)
Definition error_msg (code message : str) (id : option str) : h2w :=
  HostError (ErrorInfo code message id).

(** [Number(n) || d] for a number that may be absent *)
Definition number_or (n : option Z) (d : Z) : Z :=
  match n with Some z => if z =? 0 then d else z | None => d end.

(** What a handler does after an [await] *)
Inductive task :=
| TPage (startIdx endIdx : Z) (rows : list row)
| TFilterTotal (warm : bool) (total : Z)
| TFilterHead (warm : bool) (total : Z) (head : list row)
| TSearch (q : str) (res : js_result (list hit)) (id : option str)
| TKick (warm : bool) (total : Z)
| TJump (idx : Z) (m : jump_mode) (total : Z) (id : option str)
| TScan (test : str -> bool) (total idx : Z) (hits : list hit) (controller : Z)
| TScanned (test : str -> bool) (total idx : Z) (hits : list hit) (controller : Z) (page : list row).

(** The window a jump asks for *)
Definition jump_range (m : jump_mode) (idx total : Z) : Z * Z :=
  match m with
  | JumpTop =>
      let startIdx := Z.max 1 idx in (startIdx, Z.min total (startIdx + LOG_WINDOW_SIZE - 1))
  | JumpBottom =>
      let endIdx := Z.min total idx in (Z.max 1 (endIdx - LOG_WINDOW_SIZE + 1), endIdx)
  | JumpCenter =>
      let startIdx := Z.max 1 (idx - LOG_WINDOW_SIZE / 2) in
      let endIdx := Z.min total (startIdx + LOG_WINDOW_SIZE - 1) in
      (if endIdx - startIdx + 1 <? LOG_WINDOW_SIZE
       then Z.max 1 (endIdx - LOG_WINDOW_SIZE + 1) else startIdx, endIdx)
  end.

Section bridge.
Context {J : JsonCodec} {LS : LineSplitter} `{RE : RegExpEngine}.
Context (lower : str -> str) (fs : str -> dir_state).
Context (readUserPrefs : option (viewer_prefs + str)) (writeUserPrefs : option (viewer_prefs -> option str)).

(** A call of the service, with what it returns *)
Definition read_rows (startIdx endIdx : Z) (h : host) : host * list row :=
  let '(p, rows) := readRangeByIdx lower fs (h_pag h) startIdx endIdx in (with_service p h, rows).

Definition filtered_total (h : host) : host * Z :=
  let '(p, n) := getFilteredTotal lower fs (h_pag h) in (with_service p h, n).

Definition service_version (h : host) : option Z := Some (version (h_pag h)).

(** The test of [logs.search] on the text of a row *)
Definition scan_test (query : str) (caseSensitive : bool) (rx : option regexp) (text : str) : bool :=
  match rx with
  | Some r => re_test r text
  | None => if caseSensitive then includes text query else includes (lower text) (lower query)
  end.

(** The head of the loop of [logs.search]: read the next row, or answer *)
Definition scan_next (test : str -> bool) (total idx : Z) (hits : list hit) (c : Z) (h : host)
  : host * list h2w * option task :=
  if (idx <=? total) && negb (bool_decide (c ∈ b_aborted h)) then
    let '(h1, page) := read_rows idx idx h in (h1, [], Some (TScanned test total idx hits c page))
  else if bool_decide (c ∈ b_aborted h) then (h, [], None)
  else (with_hits hits h, [LogsSearchResult hits], None).

Definition scan_row (test : str -> bool) (idx : Z) (page : list row) (hits : list hit) : list hit :=
  match page with
  | [] => hits
  | r :: _ =>
      let text := level_name (e_level (r_entry r)) ++ [32] ++ e_text (r_entry r) in
      if test text then hits ++ [Hit idx text] else hits
  end.

(** *** Handlers up to their first [await] *)

Definition outcome : Type := host * list h2w * option task.

(** [kickIfReady] *)
Definition kickIfReady (h : host) : outcome :=
  let '(h1, total) := filtered_total h in (h1, [], Some (TKick (warmActive (h_pag h)) total)).

(** logs.page.request *)
Definition page_request (startIdx endIdx : option Z) (h : host) : outcome :=
  let s := number_or startIdx 1 in
  let e := number_or endIdx s in
  let '(h1, rows) := read_rows s e h in (h1, [], Some (TPage s e rows)).

(** logs.filter.set *)
Definition filter_set (f : option filter_arg) (h : host) : outcome :=
  let warm := warmActive (h_pag h) in
  let h1 := with_service (setFilter f (h_pag h)) h in
  let '(h2, total) := filtered_total h1 in (h2, [], Some (TFilterTotal warm total)).

(** search.query *)
Definition search_query (q : str) (o : search_opts) (id : option str) (h : host) : outcome :=
  let q' := trim q in (h, [], Some (TSearch q' (searchAll lower fs (h_pag h) q' o) id)).

(** search.clear *)
Definition search_clear (h : host) : outcome := (with_hits [] h, [SearchResults [] (Some [])], None).

(** prefs.load *)
Definition prefs_load (id : option str) : h2w :=
  match readUserPrefs with
  | Some (inl prefs) => PrefsData prefs
  | Some (inr message) => error_msg (js "HOST_ERROR") message id
  | None => error_msg (js "HOST_ERROR") (js "readUserPrefs not provided") id
  end.

(** prefs.save *)
Definition prefs_save (p : viewer_prefs) (id : option str) : h2w :=
  match writeUserPrefs with
  | Some save => match save p with
                 | None => Ack id
                 | Some message => error_msg (js "HOST_ERROR") message id
                 end
  | None => error_msg (js "HOST_ERROR") (js "writeUserPrefs not provided") id
  end.

(** logs.search; the text of a [RegExp] error is left out. *)
Definition logs_search (query : str) (caseSensitive regex : bool) (abortKey : option str)
    (id : option str) (h : host) : outcome :=
  if negb (nonempty query) then
    (h, [error_msg (js "SEARCH_ERROR") (js "Invalid search request: query required") id], None)
  else
    let c := b_controllers h in
    let h1 := with_aborts (b_pendings h) (b_aborted h) (c + 1) h in
    let h2 := match abortKey with
              | Some k => if nonempty k then registerAbort k c h1 else h1
              | None => h1
              end in
    match (if regex then match new_RegExp query (negb caseSensitive) with
                         | Some r => Ok (Some r) | None => Throws end
           else Ok None) with
    | Throws => (h2, [error_msg (js "INVALID_REGEX") [] id], None)
    | Ok rx =>
        let '(h3, total) := filtered_total h2 in
        (h3, [], Some (TScan (scan_test query caseSensitive rx) total 1 [] c))
    end.

(** logs.jump *)
Definition logs_jump (idx : option Z) (m : jump_mode) (id : option str) (h : host) : outcome :=
  match idx with
  | None => (h, [error_msg (js "HOST_ERROR") (js "Invalid jump request: idx required") id], None)
  | Some i => let '(h1, total) := filtered_total h in (h1, [], Some (TJump i m total id))
  end.

(** logs.capacity *)
Definition logs_capacity (capacity : option Z) (id : option str) : h2w :=
  let invalid := error_msg (js "HOST_ERROR") (js "Invalid capacity: must be positive number") id in
  match capacity with
  | Some c => if c <? 1 then invalid else Ack id
  | None => invalid
  end.

Definition start (m : w2h) (id : option str) (h : host) : outcome :=
  match m with
  | ViewerReady => kickIfReady h
  | PageRequest startIdx endIdx => page_request startIdx endIdx h
  | FilterSet f => filter_set f h
  | SearchQuery q o => search_query q o id h
  | SearchClear => search_clear h
  | PrefsLoad => (h, [prefs_load id], None)
  | PrefsSave p => (h, [prefs_save p id], None)
  | LogsSearch query caseSensitive regex abortKey => logs_search query caseSensitive regex abortKey id h
  | BookmarksLoad => (h, [BookmarksData], None)
  | BookmarksSave | BookmarksToggle | BookmarksClear | LogsFollow => (h, [Ack id], None)
  | LogsJump idx m => logs_jump idx m id h
  | LogsCapacity capacity => (h, [logs_capacity capacity id], None)
  | _ => (h, [], None)
  end.

(** *** Handlers from one [await] to the next *)

(** The version is read when the rows are there. *)
Definition page_reply (s e : Z) (rows : list row) (h : host) : outcome :=
  (h, [PageResponse s e (map r_entry rows) (service_version h)], None).

Definition filter_total_reply (warm : bool) (total : Z) (h : host) : outcome :=
  if 0 <? total then
    let '(h1, head) := read_rows (Z.max 1 (total - LOG_WINDOW_SIZE + 1)) (Z.max 1 total) h in
    (h1, [], Some (TFilterHead warm total head))
  else (h, [], Some (TFilterHead warm total [])).

Definition filter_head_reply (warm : bool) (total : Z) (head : list row) (h : host) : outcome :=
  let v := service_version h in
  let n := b_seq h + 1 in
  (with_seq n h,
   [LogsBatch (map r_entry head) (Some total) (Some n) v;
    LogsState warm (Some total) v (manifestDir (h_pag h));
    LogsRefresh (Some total) v warm], None).

Definition search_reply (q : str) (res : js_result (list hit)) (id : option str) (h : host) : outcome :=
  match res with
  | Ok hits => (with_hits hits h, [SearchResults hits (Some q)], None)
  | Throws => (h, [error_msg (js "SEARCH_ERROR") [] id], None)
  end.

Definition kick_reply (warm : bool) (total : Z) (h : host) : outcome :=
  let v := service_version h in
  let dir := manifestDir (h_pag h) in
  let st := LogsState warm (Some total) v dir in
  if negb (b_kickedOnce h) && (warm || match dir with Some d => nonempty d | None => false end)
  then (with_kicked h, [st; LogsRefresh (Some total) v warm], None)
  else (h, [st], None).

Definition jump_reply (idx : Z) (m : jump_mode) (total : Z) (id : option str) (h : host) : outcome :=
  if (idx <? 1) || (total <? idx) then
    (h, [error_msg (js "HOST_ERROR")
           (js "Index out of range: " ++ print_int idx ++ js ", total: " ++ print_int total) id], None)
  else
    let '(s, e) := jump_range m idx total in
    let '(h1, page) := read_rows s e h in (h1, [], Some (TPage s e page)).

Definition resume (k : task) (h : host) : outcome :=
  match k with
  | TPage s e rows => page_reply s e rows h
  | TFilterTotal warm total => filter_total_reply warm total h
  | TFilterHead warm total head => filter_head_reply warm total head h
  | TSearch q res id => search_reply q res id h
  | TKick warm total => kick_reply warm total h
  | TJump idx m total id => jump_reply idx m total id h
  | TScan test total idx hits c => scan_next test total idx hits c h
  | TScanned test total idx hits c page => scan_next test total (idx + 1) (scan_row test idx page hits) c h
  end.

(** Resume a task until it ends; a scan resumes once per row. *)
Fixpoint finish (fuel : nat) (k : option task) (h : host) : host * list h2w :=
  match fuel, k with
  | S f, Some t =>
      let '(h1, out, k1) := resume t h in
      let '(h2, out2) := finish f k1 h1 in (h2, out ++ out2)
  | _, _ => (h, [])
  end.

(** The resumptions a task needs *)
Definition task_fuel (k : option task) : nat :=
  match k with
  | Some (TScan _ total idx _ _) => 2 + Z.to_nat (total - idx + 1)
  | Some (TScanned _ total idx _ _ _) => 2 + Z.to_nat (total - idx)
  | _ => 3
  end.

(** A message handled without interruption *)
Definition serve (m : w2h) (id : option str) (h : host) : host * list h2w :=
  let '(h1, out, k) := start m id h in
  let '(h2, out2) := finish (task_fuel k) k h1 in (h2, out ++ out2).
End bridge.

(** [dispose] *)
Definition dispose (h : host) : host :=
  Host (h_pag h) (b_seq h) false (b_searchHits h) ∅
    (list_to_set (map snd (map_to_list (b_pendings h))) ∪ b_aborted h) (b_controllers h)
    (let t := b_ticker h in
     Ticker (tk_done t) (tk_total t) (tk_active t) (tk_incAcc t) (tk_resetPending t)
       (tk_lastSentKey t) false).

Definition host_init (p : pagination) : host := Host p 0 false [] ∅ ∅ 0 ticker_init.
