(* ===== verification/HostBridgeSpec.v ===== *)
(** * What the host answers

    The answers of [HostWebviewBridge] against the list of entries the service shows: the
    rows of a page, the totals, jumps, the scan of a search, and the progress reports. *)

From stdpp Require Import base list sorting strings gmap.
From Stdlib Require Import ZArith Lia.
From S2P Require Import Prelude JsString Regex TimeParser LogEntry Json ParserEngine Manifest.
From S2P Require Import ChunkWriter PagedReader LogFilter Pagination PaginationSpec PaginationCache Warmup.
From S2P Require Import Session Messages HostBridge.

(** The entries the filter of the service lets through *)
Definition listed (lower : str -> str) (p : pagination) (asc : list LogEntry) : list LogEntry :=
  filter (fun e => matchesFilter lower (pfilter p) e = true) asc.

(** ** The host *)

Section host.
Context {J : JsonCodec} {JL : JsonLaws} {LS : LineSplitter} {LL : LineSplitterLaws}.
Context `{RE : RegExpEngine}.
Context (lower : str -> str) (fs : str -> dir_state).
Context (prefs : option (viewer_prefs + str)) (save : option (viewer_prefs -> option str)).

Lemma total_view p :
  PaginationCache.view (fst (getFilteredTotal lower fs p)) = PaginationCache.view p /\
  version (fst (getFilteredTotal lower fs p)) = version p.
Proof. unfold getFilteredTotal. repeat case_match; done. Qed.

Lemma view_filter p p' : PaginationCache.view p' = PaginationCache.view p -> pfilter p' = pfilter p.
Proof. by intros [= ->]. Qed.

(** A filter the service keeps is active. *)
Lemma normalized_active f p g :
  pfilter p = normalizeFilter f -> normalizeFilter f = Some g -> isFilterActive p = true.
Proof.
  unfold isFilterActive. intros -> Hn. rewrite Hn. unfold normalizeFilter in Hn.
  destruct (_ || _) eqn:E in Hn; [|done]. injection Hn as <-.
  cbn [f_pid f_src f_proc f_msg existsb] in *.
  rewrite !trim_trim. rewrite orb_false_r. by rewrite <- !orb_assoc in E.
Qed.

Lemma listed_all p asc : pfilter p = None -> listed lower p asc = asc.
Proof.
  intros Hp. unfold listed. rewrite Hp. induction asc as [|e asc IH]; [done|].
  rewrite filter_cons_True by done. by rewrite IH.
Qed.

Lemma setFilter_filter f p : pfilter (setFilter f p) = normalizeFilter f.
Proof. unfold setFilter. by case_bool_decide. Qed.

(** The rows of a request inside the list *)
Lemma read_listed f h asc a b :
  serves fs (h_pag h) asc -> pfilter (h_pag h) = normalizeFilter f ->
  1 <= a <= b -> b <= zlen (listed lower (h_pag h) asc) ->
  map r_entry (snd (read_rows lower fs a b h)) =
    number_entries a (slice (listed lower (h_pag h) asc) (a - 1) b).
Proof.
  intros Hsv Hf Hab Hb. unfold read_rows.
  destruct (readRangeByIdx lower fs (h_pag h) a b) as [p' rows] eqn:E. cbn [snd].
  change rows with (snd (p', rows)). rewrite <- E.
  destruct (normalizeFilter f) as [g|] eqn:Hn.
  - unfold readRangeByIdx. rewrite (normalized_active f _ g) by congruence.
    rewrite (proj1 (readRangeFiltered_page lower fs (h_pag h) asc a b Hsv)).
    unfold filtered_page, listed. destruct (Z.ltb_spec b a); [lia|].
    replace (Z.max 0 (a - 1) + (b - a + 1)) with b by lia. by replace (Z.max 0 (a - 1)) with (a - 1) by lia.
  - rewrite listed_all in * by done.
    rewrite (proj1 (readRangeByIdx_page lower fs (h_pag h) asc a b Hsv
      ltac:(by intros ->; unfold zlen in Hb; cbn in Hb; lia)
      ltac:(by unfold isFilterActive; rewrite Hf) ltac:(lia) ltac:(lia))).
    unfold page. destruct (Z.ltb_spec b a); [lia|]. cbv zeta.
    replace (Z.max 1 (Z.min (zlen asc) a)) with a by lia.
    by replace (Z.max 1 (Z.min (zlen asc) b)) with b by lia.
Qed.

(** A filter without matches gives no rows. *)
Lemma read_no_match f h asc a b :
  serves fs (h_pag h) asc -> asc <> [] -> pfilter (h_pag h) = normalizeFilter f ->
  listed lower (h_pag h) asc = [] -> map r_entry (snd (read_rows lower fs a b h)) = [].
Proof.
  intros Hsv Hne Hf Hl. unfold read_rows.
  destruct (readRangeByIdx lower fs (h_pag h) a b) as [p' rows] eqn:E. cbn [snd].
  change rows with (snd (p', rows)). rewrite <- E.
  destruct (normalizeFilter f) as [g|] eqn:Hn; [|by rewrite listed_all in Hl].
  unfold readRangeByIdx. rewrite (normalized_active f _ g) by congruence.
  rewrite (proj1 (readRangeFiltered_page lower fs (h_pag h) asc a b Hsv)).
  unfold filtered_page. unfold listed in Hl. rewrite Hl, slice_nil. by destruct (b <? a).
Qed.

(** The total of the service *)
Lemma total_listed f p asc :
  cache_inv lower fs p -> serves fs p asc -> pfilter p = normalizeFilter f ->
  (warmActive p = true -> getWarmTotal p = zlen asc) ->
  snd (getFilteredTotal lower fs p) = zlen (listed lower p asc).
Proof.
  intros Hc Hsv Hf Hw. destruct (normalizeFilter f) as [g|] eqn:Hn.
  - by rewrite (total_exact lower fs p asc g).
  - rewrite listed_all by done. unfold getFilteredTotal. rewrite Hf. cbn [snd].
    unfold serves in Hsv. destruct (warmActive p); [by apply Hw|].
    destruct Hsv as (rd & es & Hr & Hst & <-). unfold getFileTotal. rewrite Hr. destruct rd as [d m].
    cbn. rewrite zlen_map, zlen_rev. by apply (store_lines _ _ _ Hst).
Qed.

(** *** Answers *)

Lemma serve_page a b id h :
  1 <= a ->
  let e := number_or (Some b) a in
  serve lower fs prefs save (PageRequest (Some a) (Some b)) id h =
  (fst (read_rows lower fs a e h),
   [PageResponse a e (map r_entry (snd (read_rows lower fs a e h))) (Some (version (h_pag h)))]).
Proof.
  intros Ha e. unfold serve, start, page_request. replace (number_or (Some a) 1) with a
    by (unfold number_or; zcases; lia). fold e.
  assert (Hv := read_view lower fs (h_pag h) a e). unfold read_rows.
  destruct (readRangeByIdx lower fs (h_pag h) a e) as [p' rows]. cbn [fst snd] in *.
  cbn. unfold service_version. cbn. by rewrite (proj1 (proj2 Hv)).
Qed.

Lemma read_rows_view a b h :
  PaginationCache.view (h_pag (fst (read_rows lower fs a b h))) = PaginationCache.view (h_pag h) /\
  version (h_pag (fst (read_rows lower fs a b h))) = version (h_pag h).
Proof.
  unfold read_rows. destruct (read_view lower fs (h_pag h) a b) as (H1 & H2 & _).
  by destruct (readRangeByIdx _ _ _ _ _).
Qed.

(** What the host says after a filter was set *)
Lemma serve_filter f id h :
  let p := setFilter f (h_pag h) in
  let total := snd (getFilteredTotal lower fs p) in
  exists h' head,
    serve lower fs prefs save (FilterSet f) id h =
      (h', [LogsBatch head (Some total) (Some (b_seq h + 1)) (Some (version p));
            LogsState (warmActive (h_pag h)) (Some total) (Some (version p)) (manifestDir p);
            LogsRefresh (Some total) (Some (version p)) (warmActive (h_pag h))]) /\
    PaginationCache.view (h_pag h') = PaginationCache.view p /\ version (h_pag h') = version p.
Proof.
  intros p total. unfold serve, start, filter_set, filtered_total. cbn [with_service h_pag]. fold p.
  destruct (total_view p) as [H1 H2]. subst total.
  destruct (getFilteredTotal lower fs p) as [p1 total]. cbn [fst snd] in *.
  assert (Hm : manifestDir p1 = manifestDir p) by (unfold PaginationCache.view in H1; congruence).
  rewrite <- Hm, <- H2. rewrite <- H1. clearbody p. clear H1 H2 Hm.
  cbn [task_fuel finish resume].
  unfold filter_total_reply, filter_head_reply, kick_reply, jump_reply, page_reply. destruct (0 <? total).
  - set (h1 := with_service p1 _). set (a := Z.max 1 _). set (b := Z.max 1 total).
    destruct (read_rows_view a b h1) as [H3 H4]. destruct (read_rows lower fs a b h1) as [h2 head] eqn:E.
    cbn [fst] in *. cbn [finish resume app].
    unfold filter_head_reply, service_version. subst h1. cbn [h_pag with_service] in *.
    assert (Hs : b_seq h2 = b_seq h).
    { unfold read_rows in E. destruct (readRangeByIdx _ _ _ _ _). by injection E as <- _. }
    exists (with_seq (b_seq h2 + 1) h2), (map r_entry head). cbn [with_seq h_pag].
    rewrite H4, Hs. split_and!; [|done|done].
    assert (Hm : manifestDir (h_pag h2) = manifestDir p1)
      by (unfold PaginationCache.view in H3; congruence).
    by rewrite Hm.
  - eexists _, []. cbn [finish resume app map]. split; [reflexivity|].
    by split.
Qed.

(** What the host says to a viewer that is ready: the state, and once a request to load *)
Lemma serve_ready id h :
  b_kickedOnce h = false ->
  (warmActive (h_pag h) || match manifestDir (h_pag h) with Some d => nonempty d | None => false end) = true ->
  let total := snd (getFilteredTotal lower fs (h_pag h)) in
  let v := Some (version (h_pag h)) in
  exists h',
    serve lower fs prefs save ViewerReady id h =
      (h', [LogsState (warmActive (h_pag h)) (Some total) v (manifestDir (h_pag h));
            LogsRefresh (Some total) v (warmActive (h_pag h))]) /\
    PaginationCache.view (h_pag h') = PaginationCache.view (h_pag h) /\
    version (h_pag h') = version (h_pag h).
Proof.
  intros Hk Hd total v. unfold serve, start, kickIfReady, filtered_total.
  destruct (total_view (h_pag h)) as [H1 H2]. subst total v.
  destruct (getFilteredTotal lower fs (h_pag h)) as [p1 total]. cbn [fst snd] in *.
  cbn [task_fuel finish resume].
  unfold filter_total_reply, filter_head_reply, kick_reply, jump_reply, page_reply. unfold service_version. cbn [with_service h_pag b_kickedOnce].
  assert (Hm : manifestDir p1 = manifestDir (h_pag h)) by (unfold PaginationCache.view in H1; congruence).
  rewrite Hk, H2, Hm, Hd. cbn [negb andb]. eexists. split; [reflexivity|]. by split.
Qed.
End host.


(** Abort controllers are numbered in the order they are made. *)
Record host_ok (h : host) : Prop := {
  ho_aborted : forall c, c ∈ b_aborted h -> c < b_controllers h;
  ho_pending : map_Forall (fun _ c => c < b_controllers h) (b_pendings h);
  ho_seq : 0 <= b_seq h;
}.

(** ** Jumps *)

(** The window of a jump lies in the list, holds the row jumped to, and is a full window
    unless the list ends. *)
Lemma jump_range_ok m idx total :
  1 <= idx <= total ->
  let '(s, e) := jump_range m idx total in
  1 <= s /\ s <= idx <= e /\ e <= total /\ e - s + 1 <= LOG_WINDOW_SIZE /\
  match m with
  | JumpTop => s = idx
  | JumpBottom => e = idx
  | JumpCenter => e - s + 1 = Z.min LOG_WINDOW_SIZE total
  end.
Proof.
  intros Hi. destruct m; unfold jump_range; change LOG_WINDOW_SIZE with 200; change (200 / 2) with 100;
    cbv zeta; zcases; lia.
Qed.

Section answers.
Context {J : JsonCodec} {JL : JsonLaws} {LS : LineSplitter} {LL : LineSplitterLaws}.
Context `{RE : RegExpEngine}.
Context (lower : str -> str) (fs : str -> dir_state).
Context (prefs : option (viewer_prefs + str)) (save : option (viewer_prefs -> option str)).

(** What the host knows when the service shows [asc] *)
Record shows (f : option filter_arg) (h : host) (asc : list LogEntry) : Prop := {
  sh_cache : cache_inv lower fs (h_pag h);
  sh_serves : serves fs (h_pag h) asc;
  sh_filter : pfilter (h_pag h) = normalizeFilter f;
  sh_warm : warmActive (h_pag h) = true -> getWarmTotal (h_pag h) = zlen asc;
}.

Lemma shows_total f h asc :
  shows f h asc -> snd (getFilteredTotal lower fs (h_pag h)) = zlen (listed lower (h_pag h) asc).
Proof. intros []. by eapply total_listed. Qed.

(** A request to jump is answered with a window of the list around the row, numbered, or,
    when there is no such row, with an error. *)
Theorem jump_answer f h asc idx m id :
  shows f h asc ->
  let l := listed lower (h_pag h) asc in
  snd (serve lower fs prefs save (LogsJump (Some idx) m) id h) =
  if (1 <=? idx) && (idx <=? zlen l) then
    let '(s, e) := jump_range m idx (zlen l) in
    [PageResponse s e (number_entries s (slice l (s - 1) e)) (Some (version (h_pag h)))]
  else
    [error_msg (js "HOST_ERROR")
       (js "Index out of range: " ++ print_int idx ++ js ", total: " ++ print_int (zlen l)) id].
Proof.
  intros Hsh l. assert (Ht := shows_total f h asc Hsh). destruct Hsh as [Hc Hsv Hf Hw].
  unfold serve, start, logs_jump, filtered_total.
  destruct (total_view lower fs (h_pag h)) as [Hv Hver].
  destruct (getFilteredTotal lower fs (h_pag h)) as [p1 total]. cbn [fst snd] in *. subst total. fold l.
  cbn [task_fuel finish resume].
  unfold filter_total_reply, filter_head_reply, kick_reply, jump_reply, page_reply.
  destruct (Z.ltb_spec idx 1), (Z.leb_spec 1 idx); try lia; [done|].
  destruct (Z.ltb_spec (zlen l) idx), (Z.leb_spec idx (zlen l)); try lia; [done|]. cbn [orb andb].
  assert (Hr := jump_range_ok m idx (zlen l) ltac:(lia)).
  destruct (jump_range m idx (zlen l)) as [s e]. destruct Hr as (Hs1 & Hs2 & Hs3 & _).
  set (h1 := with_service p1 h).
  assert (Hf1 : pfilter (h_pag h1) = pfilter (h_pag h)) by exact (view_filter _ _ Hv).
  assert (Hsv1 : serves fs (h_pag h1) asc) by (by apply (serves_view fs p1 (h_pag h))).
  assert (Hl : listed lower (h_pag h1) asc = l) by (unfold listed, l; by rewrite Hf1).
  assert (E := read_listed lower fs f h1 asc s e Hsv1 ltac:(by rewrite Hf1) ltac:(lia)
    ltac:(rewrite Hl; lia)).
  destruct (read_rows_view lower fs s e h1) as [_ E2].
  destruct (read_rows lower fs s e h1) as [h2 rows]. cbn [fst snd finish resume app] in *. unfold page_reply.
  unfold service_version. by rewrite E, E2, Hl, <- Hver.
Qed.

(** ** The scan of [logs.search] *)

(** The text a row is searched by *)
Definition scan_text (e : LogEntry) : str := level_name (e_level e) ++ [32] ++ e_text e.

(** The hits of a list whose first entry has the number [k] *)
Fixpoint scan_hits (test : str -> bool) (k : Z) (l : list LogEntry) : list hit :=
  match l with
  | [] => []
  | e :: l' => (if test (scan_text e) then [Hit k (scan_text e)] else []) ++ scan_hits test (k + 1) l'
  end.

Lemma read_rows_aborted a b h : b_aborted (fst (read_rows lower fs a b h)) = b_aborted h.
Proof. unfold read_rows. by destruct (readRangeByIdx _ _ _ _ _). Qed.

Lemma slice_one {A} (l : list A) k x : 1 <= k -> l !! Z.to_nat (k - 1) = Some x -> slice l (k - 1) k = [x].
Proof.
  intros Hk Hx. unfold slice. rewrite (drop_S l x) by done.
  replace (Z.to_nat k - Z.to_nat (k - 1))%nat with 1%nat by lia. done.
Qed.

(** One row of the scan *)
Lemma scan_row_one f h asc test idx hits e (l := listed lower (h_pag h) asc) :
  serves fs (h_pag h) asc -> pfilter (h_pag h) = normalizeFilter f -> 1 <= idx ->
  l !! Z.to_nat (idx - 1) = Some e ->
  scan_row test idx (snd (read_rows lower fs idx idx h)) hits =
    hits ++ (if test (scan_text e) then [Hit idx (scan_text e)] else []).
Proof.
  intros Hsv Hf Hi He. assert (Hlt := lookup_lt_Some _ _ _ He).
  assert (E := read_listed lower fs f h asc idx idx Hsv Hf ltac:(lia) ltac:(fold l; unfold zlen; lia)).
  fold l in E. rewrite (slice_one l idx e Hi He) in E.
  destruct (snd (read_rows lower fs idx idx h)) as [|r rs]; [done|].
  cbn [map] in E. unfold number_entries in E. cbn in E. injection E as Hr _.
  unfold scan_row. rewrite Hr. unfold scan_text. cbn. destruct (test _); [done|]. by rewrite app_nil_r.
Qed.

Lemma finish_some fuel t h :
  finish lower fs (S fuel) (Some t) h =
  let '(h1, out, k1) := resume lower fs t h in
  let '(h2, out2) := finish lower fs fuel k1 h1 in (h2, out ++ out2).
Proof. done. Qed.

Lemma scan_next_hits f asc test c (n : nat) : forall idx hits h (l := listed lower (h_pag h) asc),
  serves fs (h_pag h) asc -> pfilter (h_pag h) = normalizeFilter f -> c ∉ b_aborted h ->
  1 <= idx -> zlen l - idx + 1 = Z.of_nat n ->
  let '(h1, out, k) := scan_next lower fs test (zlen l) idx hits c h in
  let '(h2, out2) := finish lower fs (1 + n) k h1 in
  out ++ out2 = [LogsSearchResult (hits ++ scan_hits test idx (drop (Z.to_nat (idx - 1)) l))] /\
  b_searchHits h2 = hits ++ scan_hits test idx (drop (Z.to_nat (idx - 1)) l).
Proof.
  induction n as [|n IH]; intros idx hits h l Hsv Hf Hc Hi Hn; unfold scan_next;
    rewrite (bool_decide_eq_false_2 (c ∈ b_aborted h)) by done; cbn [negb].
  - destruct (Z.leb_spec idx (zlen l)); [lia|]. cbn [andb finish app].
    rewrite drop_ge by (unfold zlen in *; lia). cbn [scan_hits]. by rewrite app_nil_r.
  - destruct (Z.leb_spec idx (zlen l)); [|lia]. cbn [andb].
    destruct (l !! Z.to_nat (idx - 1)) as [e|] eqn:He; [|apply lookup_ge_None in He; unfold zlen in *; lia].
    assert (Er := scan_row_one f h asc test idx hits e Hsv Hf Hi He).
    destruct (read_rows_view lower fs idx idx h) as [Hv _].
    assert (Ha := read_rows_aborted idx idx h).
    destruct (read_rows lower fs idx idx h) as [h1 page]. cbn [fst snd] in *. cbn [Nat.add]. rewrite finish_some. cbn [resume].
    assert (Hl : listed lower (h_pag h1) asc = l) by (unfold listed, l; by rewrite (view_filter _ _ Hv)).
    specialize (IH (idx + 1) (scan_row test idx page hits) h1).
    cbv zeta in IH. rewrite Hl in IH.
    assert (IH' := IH ltac:(by apply (serves_view fs (h_pag h1) (h_pag h))) ltac:(by rewrite (view_filter _ _ Hv))
      ltac:(by rewrite Ha) ltac:(lia) ltac:(lia)). clear IH.
    destruct (scan_next _ _ _ _ _ _ _ h1) as [[h2 out] k]. cbn [Nat.add] in IH'.
    destruct (finish _ _ (S n) k h2) as [h3 out3]. rewrite app_nil_l. rewrite (drop_S l e) by done. cbn [scan_hits].
    rewrite Er in IH'. replace (Z.to_nat (idx + 1 - 1)) with (S (Z.to_nat (idx - 1))) in IH' by lia.
    by rewrite (app_assoc hits).
Qed.

(** C28: [logs.search] answers with every row of the list the viewer sees whose level and text
    match, in order, with its number: the loop that reads the list row by row ends, and is
    the scan of the whole list. *)
Theorem logs_search_answer f h asc query (caseSensitive regex : bool) abortKey id rx :
  shows f h asc -> nonempty query = true ->
  (if regex then match new_RegExp query (negb caseSensitive) with Some r => Ok (Some r) | None => Throws end
   else Ok None) = Ok rx ->
  host_ok h ->
  snd (serve lower fs prefs save (LogsSearch query caseSensitive regex abortKey) id h) =
  [LogsSearchResult (scan_hits (scan_test lower query caseSensitive rx) 1 (listed lower (h_pag h) asc))].
Proof.
  intros Hsh Hq Hrx Hok. assert (Ht := shows_total f h asc Hsh). destruct Hsh as [Hca Hsv Hf Hw].
  unfold serve, start, logs_search. rewrite Hq, Hrx. cbn [negb]. set (c := b_controllers h) in *.
  set (h2 := match abortKey with Some k => _ | None => _ end).
  assert (H2 : h_pag h2 = h_pag h /\ c ∉ b_aborted h2).
  { assert (Hc : c ∉ b_aborted h) by (intros Hc; apply (ho_aborted h Hok) in Hc; subst c; lia).
    subst h2. destruct abortKey as [k|]; [|done]. destruct (nonempty k); [|done].
    unfold registerAbort, abort. cbn [with_aborts b_pendings].
    destruct (b_pendings h !! k) as [c'|] eqn:Ek; [|done]. cbn. split; [done|].
    rewrite elem_of_union, elem_of_singleton. intros [E|E]; [|done].
    apply (map_Forall_lookup_1 _ _ _ _ (ho_pending h Hok)) in Ek. subst c. lia. }
  clearbody h2. destruct H2 as [H2 H2c]. unfold filtered_total. rewrite H2.
  destruct (total_view lower fs (h_pag h)) as [Hv Hver].
  destruct (getFilteredTotal lower fs (h_pag h)) as [p1 total]. cbn [fst snd] in *. subst total.
  set (l := listed lower (h_pag h) asc). cbn [task_fuel Nat.add]. rewrite finish_some. cbn [resume].
  set (h3 := with_service p1 h2).
  assert (Hf3 : pfilter (h_pag h3) = pfilter (h_pag h)) by exact (view_filter _ _ Hv).
  assert (Hl : listed lower (h_pag h3) asc = l) by (unfold listed, l; by rewrite Hf3).
  assert (H := scan_next_hits f asc (scan_test lower query caseSensitive rx) c (Z.to_nat (zlen l)) 1 [] h3).
  cbv zeta in H. rewrite Hl in H.
  assert (Hz := zlen_nonneg l).
  assert (H' := H ltac:(by apply (serves_view fs p1 (h_pag h))) ltac:(by rewrite Hf3) H2c
    ltac:(lia) ltac:(lia)). clear H.
  destruct (scan_next _ _ _ _ _ _ _ h3) as [[h4 out] k]. replace (zlen l - 1 + 1) with (zlen l) by lia.
  cbn [Nat.add] in H'. destruct (finish _ _ (S _) k h4) as [h5 out5]. cbn [snd app]. by destruct H' as [H' _].
Qed.

(** A new search with the key of a running one ends that one: whatever happened since, the
    old scan stops at its next row and sends nothing. *)
Theorem superseded_search h q1 c1 r1 key id1 k h1 out1 id2 q2 c2 r2 h2 out2 k2 :
  nonempty key = true -> nonempty q2 = true ->
  start lower fs prefs save (LogsSearch q1 c1 r1 (Some key)) id1 h = (h1, out1, Some k) ->
  start lower fs prefs save (LogsSearch q2 c2 r2 (Some key)) id2 h1 = (h2, out2, k2) ->
  forall h3, b_aborted h2 ⊆ b_aborted h3 -> resume lower fs k h3 = (h3, [], None).
Proof.
  intros Hk Hq2 H1 H2 h3 Hsub. unfold start, logs_search in H1. destruct (nonempty q1); [|done]. cbn [negb] in H1.
  rewrite Hk in H1. destruct (if r1 then _ else _) as [rx|]; [|done].
  set (g := registerAbort _ _ _) in H1. destruct (filtered_total lower fs g) as [g3 total] eqn:Eg.
  injection H1 as <- <- <-. cbn [resume]. unfold scan_next.
  assert (Hp : b_pendings g3 !! key = Some (b_controllers h)).
  { unfold filtered_total in Eg. destruct (getFilteredTotal _ _ _). injection Eg as <- _. cbn.
    unfold g, registerAbort. cbn. apply lookup_insert_eq. }
  assert (Hab : b_controllers h ∈ b_aborted h2).
  { unfold start, logs_search in H2. rewrite Hq2, Hk in H2. cbn [negb] in H2.
    set (g4 := registerAbort _ _ _) in H2. assert (Hr : b_controllers h ∈ b_aborted g4).
    { unfold g4, registerAbort, abort. cbn. rewrite Hp. cbn. set_solver. }
    clearbody g4. destruct (if r2 then _ else _); [|by simplify_eq]. unfold filtered_total in H2.
    destruct (getFilteredTotal lower fs (h_pag g4)). by simplify_eq. }
  rewrite (bool_decide_eq_true_2 (b_controllers h ∈ b_aborted h3)) by set_solver.
  by rewrite andb_false_r.
Qed.
End answers.

(** ** Progress reports *)

Inductive ticker_op := Report (a : progress_args) | Tick.

(** The messages the viewer gets from reports and ticks *)
Fixpoint run_ticker (ops : list ticker_op) (t : ticker) : ticker * list progress_args :=
  match ops with
  | [] => (t, [])
  | Report a :: ops' => run_ticker ops' (report a t)
  | Tick :: ops' =>
      let '(t1, out) := tick t in
      let '(t2, sent) := run_ticker ops' t1 in
      (t2, omap (fun m => match m with MergeProgress p => Some p | _ => None end) out ++ sent)
  end.

Definition sum_inc (l : list progress_args) : Z :=
  foldr (fun p n => or_else (pa_inc p) 0 + n) 0 l.

(** The increments the reports ask for, as the bridge reads them *)
Definition asked (ops : list ticker_op) : Z :=
  foldr (fun op n => match op with
                     | Report a => match pa_inc a with Some i => Z.max 0 (to_int32 i) | None => 0 end + n
                     | Tick => n
                     end) 0 ops.

Lemma sum_inc_app l1 l2 : sum_inc (l1 ++ l2) = sum_inc l1 + sum_inc l2.
Proof. induction l1 as [|p l IH]; [done|]. unfold sum_inc in *. cbn [app foldr]. lia. Qed.

(** The progress is never lost: what the messages add up to, with what still waits for the
    next tick, is what the reports asked for. *)
Theorem ticker_conserves ops t :
  let '(t', sent) := run_ticker ops t in sum_inc sent + tk_incAcc t' = tk_incAcc t + asked ops.
Proof.
  revert t. induction ops as [|[a|] ops IH]; intros t; cbn [run_ticker asked foldr].
  - cbn. lia.
  - specialize (IH (report a t)). destruct (run_ticker ops (report a t)) as [t' sent].
    rewrite IH. cbn [report tk_incAcc]. fold (asked ops). destruct (pa_inc a); lia.
  - fold (asked ops). unfold tick. destruct (negb (tk_running t)); [|case_bool_decide].
    + specialize (IH t). by destruct (run_ticker ops t) as [t' sent].
    + specialize (IH t). by destruct (run_ticker ops t) as [t' sent].
    + match goal with |- context [run_ticker ops ?x] => specialize (IH x); destruct (run_ticker ops x) as [t' sent] end.
      cbn [omap list_omap]. rewrite sum_inc_app. cbn [tk_incAcc] in IH.
      unfold sum_inc at 1, ticker_payload. cbn [foldr pa_inc]. destruct (Z.eqb_spec (tk_incAcc t) 0); cbn [or_else]; lia.
Qed.

(** *** The key *)

Lemma print_opt_inj a b : print_opt a = print_opt b -> a = b.
Proof.
  destruct a as [a|], b as [b|]; cbn; [by intros ->%print_int_inj| | |done];
    intros E; [destruct (print_int_head a) as (c & l & El & _)|destruct (print_int_head b) as (c & l & El & _)];
    congruence.
Qed.

Lemma ticker_key_inj t1 t2 :
  ticker_key t1 = ticker_key t2 ->
  tk_done t1 = tk_done t2 /\ tk_total t1 = tk_total t2 /\ tk_active t1 = tk_active t2 /\
  tk_incAcc t1 = tk_incAcc t2 /\ tk_resetPending t1 = tk_resetPending t2.
Proof.
  intros E. apply (f_equal (split_on 124)) in E. unfold ticker_key in E.
  assert (Hf : forall t, Forall (Forall (fun d => d <> 124)) [print_opt (tk_done t); print_opt (tk_total t);
    match tk_active t with Some b => print_bool b | None => [] end; print_int (tk_incAcc t);
    if tk_resetPending t then [82] else []]).
  { intros t. assert (Ho : forall o, Forall (fun d => d <> 124) (print_opt o))
      by (intros [n|]; [by apply print_int_avoids|constructor]).
    repeat constructor; [apply Ho|apply Ho| |by apply print_int_avoids|].
    - destruct (tk_active t) as [[|]|]; cbv; repeat constructor; lia.
    - destruct (tk_resetPending t); repeat constructor; lia. }
  rewrite !split_join in E by done. injection E as E1 E2 E3 E4 E5.
  split_and!; [by apply print_opt_inj|by apply print_opt_inj| |by apply print_int_inj|].
  - destruct (tk_active t1) as [[|]|], (tk_active t2) as [[|]|]; done.
  - by destruct (tk_resetPending t1), (tk_resetPending t2).
Qed.

Lemma ticker_key_some t : ticker_key t <> [].
Proof. unfold ticker_key. cbn [join]. by destruct (print_opt (tk_done t)). Qed.

(** The last key belongs to the last message. *)
Definition ticker_inv (t : ticker) (sent : option progress_args) : Prop :=
  (tk_lastSentKey t = [] /\ sent = None) \/
  exists t0, sent = Some (ticker_payload t0) /\ tk_lastSentKey t = ticker_key t0.

Lemma run_ticker_inv ops t prev :
  ticker_inv t (last prev) -> ticker_inv (fst (run_ticker ops t)) (last (prev ++ snd (run_ticker ops t))).
Proof.
  revert t prev. induction ops as [|[a|] ops IH]; intros t prev Hi; cbn [run_ticker].
  - cbn. by rewrite app_nil_r.
  - by apply IH.
  - unfold tick. destruct (negb (tk_running t)); [|case_bool_decide].
    + specialize (IH t prev Hi). by destruct (run_ticker ops t).
    + specialize (IH t prev Hi). by destruct (run_ticker ops t).
    + match goal with |- context [run_ticker ops ?x] => specialize (IH x (prev ++ [ticker_payload t])) end.
      rewrite last_snoc in IH. specialize (IH ltac:(right; by exists t)).
      destruct (run_ticker ops _) as [t' sent]. cbn [fst snd omap list_omap] in *.
      by rewrite <- app_assoc in IH.
Qed.

Lemma payload_inj t1 t2 : ticker_key t1 = ticker_key t2 -> ticker_payload t1 = ticker_payload t2.
Proof. intros (H1 & H2 & H3 & H4 & H5)%ticker_key_inj. unfold ticker_payload. by rewrite H1, H2, H3, H4, H5. Qed.

(** The throttle keeps back only repetitions.  After any reports and ticks, a running
    ticker at its next tick either sends the current state, and stops exactly when the merge
    is no longer active, or the last message it sent already says the same. *)
Theorem ticker_sends_news ops :
  let '(t, sent) := run_ticker ops ticker_init in
  tk_running t = true ->
  (snd (tick t) = [MergeProgress (ticker_payload t)] /\
   (tk_running (fst (tick t)) = false <-> tk_active t = Some false)) \/
  (tick t = (t, []) /\ last sent = Some (ticker_payload t)).
Proof.
  assert (Hi := run_ticker_inv ops ticker_init [] ltac:(by left)).
  destruct (run_ticker ops ticker_init) as [t sent]. cbn [fst snd app] in Hi. intros Hr.
  unfold tick. rewrite Hr. cbn [negb]. case_bool_decide as Ek.
  - right. split; [done|]. destruct Hi as [[E _]|(t0 & -> & E)].
    + rewrite E in Ek. by apply ticker_key_some in Ek.
    + f_equal. apply payload_inj. congruence.
  - left. split; [done|]. cbn [fst tk_running]. by case_bool_decide.
Qed.

(** A final report that repeats the last message starts the ticker again, and it then never
    stops: the tick returns before it looks at [active]. *)
Example ticker_keeps_running :
  let fin := ProgressArgs None (Some 5) (Some 5) (Some false) false in
  let t := fst (run_ticker [Report fin; Tick; Report fin] ticker_init) in
  tk_running t = true /\ forall n, run_ticker (repeat Tick n) t = (t, []).
Proof.
  cbv zeta. split; [by vm_compute|]. intros n. match goal with |- run_ticker _ ?x = _ => set (t := x) end.
  assert (Ht : tick t = (t, [])) by (subst t; by vm_compute).
  clearbody t. induction n as [|n IH]; [done|]. cbn [repeat run_ticker]. rewrite Ht, IH. done.
Qed.

(** ** The invariant of the bridge *)

Lemma abort_ok key h : host_ok h -> host_ok (abort key h).
Proof.
  intros [H1 H2 H3]. unfold abort. destruct (b_pendings h !! key) as [c|] eqn:E; [|done].
  split; cbn; [|by apply map_Forall_delete|done].
  intros c'. rewrite elem_of_union, elem_of_singleton. intros [->|Hc]; [|by apply H1].
  by apply (map_Forall_lookup_1 _ _ _ _ H2 E).
Qed.

Lemma registerAbort_ok key c h : host_ok h -> c < b_controllers h -> host_ok (registerAbort key c h).
Proof.
  intros Hh Hc. unfold registerAbort. assert (Hn : b_controllers (abort key h) = b_controllers h).
  { unfold abort. by destruct (b_pendings h !! key). }
  destruct (abort_ok key h Hh) as [H1 H2 H3]. split; cbn; [done| |done].
  apply map_Forall_insert_2; [|done]. by rewrite Hn.
Qed.

Section invariant.
Context {J : JsonCodec} {LS : LineSplitter} `{RE : RegExpEngine}.
Context (lower : str -> str) (fs : str -> dir_state).
Context (prefs : option (viewer_prefs + str)) (save : option (viewer_prefs -> option str)).

Lemma service_ok p h : host_ok h -> host_ok (with_service p h).
Proof. by intros []. Qed.

Lemma read_rows_ok a b h : host_ok h -> host_ok (fst (read_rows lower fs a b h)).
Proof. unfold read_rows. destruct (readRangeByIdx _ _ _ _ _). apply service_ok. Qed.

Lemma filtered_total_ok h : host_ok h -> host_ok (fst (filtered_total lower fs h)).
Proof. unfold filtered_total. destruct (getFilteredTotal _ _ _). apply service_ok. Qed.

Lemma start_ok m id h : host_ok h -> host_ok (fst (fst (start lower fs prefs save m id h))).
Proof.
  intros Hh. destruct m; try done; cbn [start];
    unfold kickIfReady, page_request, filter_set, logs_search, logs_jump.
  - assert (H := filtered_total_ok h Hh). by destruct (filtered_total _ _ _).
  - match goal with |- context [read_rows lower fs ?a ?b h] => assert (H := read_rows_ok a b h Hh) end.
    by destruct (read_rows _ _ _ _ _).
  - match goal with |- context [filtered_total lower fs ?x] => assert (H := filtered_total_ok x (service_ok _ _ Hh)) end.
    by destruct (filtered_total _ _ _).
  - by destruct Hh.
  - destruct (nonempty query); [|done]. cbn [negb].
    set (h2 := match abortKey with Some k => _ | None => _ end).
    assert (H2 : host_ok h2).
    { assert (H1 : host_ok (with_aborts (b_pendings h) (b_aborted h) (b_controllers h + 1) h)).
      { destruct Hh as [H1 H2 H3]. split; cbn; [|eapply map_Forall_impl; [exact H2|]|done].
        - intros c Hc. specialize (H1 c Hc). lia.
        - intros k c Hc. cbn in Hc. lia. }
      subst h2. destruct abortKey as [k|]; [|done]. destruct (nonempty k); [|done].
      apply registerAbort_ok; [done|]. cbn. lia. }
    clearbody h2. destruct (if regex then _ else _); [|done].
    assert (H := filtered_total_ok h2 H2). by destruct (filtered_total _ _ _).
  - destruct idx; [|done]. assert (H := filtered_total_ok h Hh). by destruct (filtered_total _ _ _).
Qed.

Lemma resume_ok k h : host_ok h -> host_ok (fst (fst (resume lower fs k h))).
Proof.
  intros Hh. assert (Hr := fun a b => read_rows_ok a b h Hh).
  assert (Hscan : forall test total idx hits c,
    host_ok (fst (fst (scan_next lower fs test total idx hits c h)))).
  { intros test total idx hits c. unfold scan_next. destruct (_ && _).
    - specialize (Hr idx idx). by destruct (read_rows _ _ _ _ _).
    - destruct (bool_decide _); [done|]. by destruct Hh. }
  destruct k; cbn [resume]; try done;
    unfold filter_total_reply, filter_head_reply, search_reply, kick_reply, jump_reply.
  - destruct (0 <? total); [|done].
    match goal with |- context [read_rows lower fs ?a ?b h] => specialize (Hr a b) end.
    by destruct (read_rows _ _ _ _ _).
  - destruct Hh as [H1 H2 H3]. split; cbn; [done|done|lia].
  - destruct res; [by destruct Hh|done].
  - destruct (_ && _); [by destruct Hh|done].
  - destruct (_ || _); [done|]. destruct (jump_range _ _ _) as [s e].
    specialize (Hr s e). by destruct (read_rows _ _ _ _ _).
Qed.

(** Everything that can happen to the bridge *)
Inductive host_step : host -> host -> Prop :=
| host_start m id h : host_step h (fst (fst (start lower fs prefs save m id h)))
| host_resume k h : host_step h (fst (fst (resume lower fs k h)))
| host_abort key h : host_step h (abort key h)
| host_service p h : host_step h (with_service p h)
| host_report a h : host_step h (with_ticker (report a (b_ticker h)) h)
| host_tick h : host_step h (with_ticker (fst (tick (b_ticker h))) h)
| host_dispose h : host_step h (dispose h).

Lemma dispose_ok h : host_ok h -> host_ok (dispose h).
Proof.
  intros [H1 H2 H3]. split; cbn; [|apply map_Forall_empty|done].
  intros c. rewrite elem_of_union, elem_of_list_to_set, list_elem_of_fmap.
  intros [([k c'] & -> & Hk)|Hc]; [|by apply H1]. apply elem_of_map_to_list in Hk. cbn.
  by apply (map_Forall_lookup_1 _ _ _ _ H2 Hk).
Qed.

(** In every state the bridge can reach, with handlers interleaved at every [await] and the
    service changed in between, the controllers of running searches and those aborted are
    older than the next one: a search that starts is never aborted already. *)
Theorem host_invariant p h : rtc host_step (host_init p) h -> host_ok h.
Proof.
  intros Hr. assert (Hi : host_ok (host_init p)) by (split; cbn; [set_solver|apply map_Forall_empty|lia]).
  revert Hi. induction Hr as [h|h1 h2 h3 Hs _ IH]; [done|]. intros Hi. apply IH. clear IH.
  destruct Hs; auto using start_ok, resume_ok, abort_ok, service_ok, dispose_ok; by destruct Hi.
Qed.
End invariant.

(** ** Examples *)

Definition two_line_host : host := host_init counted_service.

Lemma sample_shows :
  shows ascii_lower sample_disk (Some (FilterArg None None None (Some (js "3 , 1")))) two_line_host
    three_entries.
Proof.
  split.
  - apply (si_cache _ _ (reachable_inv _ _ counted_reachable)).
  - unfold two_line_host, counted_service. rewrite sample_service_reader.
    exists (js "/out", sample_manifest), [plain_entry 3; plain_entry 2; plain_entry 1].
    split_and!; [done|exact sample_store|done].
  - unfold two_line_host, counted_service. rewrite sample_service_reader. by vm_compute.
  - by cbn.
Qed.

Lemma init_host_ok p : host_ok (host_init p).
Proof. split; cbn; [set_solver|apply map_Forall_empty|lia]. Qed.

Lemma jump_answer_witness :
  snd (serve (RE := no_engine) ascii_lower sample_disk None None (LogsJump (Some 2) JumpCenter) None two_line_host) =
    [PageResponse 1 2 (number_entries 1 [plain_entry 1; plain_entry 3]) (Some 2)].
Proof.
  rewrite (jump_answer (RE := no_engine) ascii_lower sample_disk None None _ _ _ 2 JumpCenter None sample_shows).
  unfold two_line_host, counted_service. rewrite sample_service_reader. vm_compute. reflexivity.
Defined.

Lemma logs_search_answer_witness :
  snd (serve (RE := no_engine) ascii_lower sample_disk None None (LogsSearch (js "3") false false (Some (js "k")))
    None two_line_host) = [LogsSearchResult [Hit 2 (js "I 3")]].
Proof.
  rewrite (logs_search_answer (RE := no_engine) ascii_lower sample_disk None None _ _ _ (js "3") false false
    (Some (js "k")) None None sample_shows eq_refl eq_refl (init_host_ok _)).
  unfold two_line_host, counted_service. rewrite sample_service_reader. vm_compute. reflexivity.
Defined.

Lemma superseded_search_witness :
  exists h1 k h2 k2,
    start (RE := no_engine) ascii_lower sample_disk None None (LogsSearch (js "3") false false (Some (js "k")))
      None (host_init pagination_init) = (h1, [], Some k) /\
    start (RE := no_engine) ascii_lower sample_disk None None (LogsSearch (js "1") false false (Some (js "k")))
      None h1 = (h2, [], k2) /\
    resume ascii_lower sample_disk k h2 = (h2, [], None).
Proof.
  eexists _, _, _, _. split; [reflexivity|]. split; [reflexivity|].
  exact (superseded_search (RE := no_engine) ascii_lower sample_disk None None (host_init pagination_init)
    (js "3") false false (js "k") None _ _ _ None (js "1") false false _ _ _ eq_refl eq_refl eq_refl eq_refl
    _ (reflexivity _)).
Defined.

Lemma host_invariant_witness :
  let h := fst (fst (start (RE := no_engine) ascii_lower sample_disk None None
    (LogsSearch (js "3") false false (Some (js "k"))) None (host_init pagination_init))) in
  host_ok (abort (js "k") h) /\ b_aborted (abort (js "k") h) = {[0]}.
Proof.
  split; [|by vm_compute].
  apply (host_invariant (RE := no_engine) ascii_lower sample_disk None None pagination_init).
  eapply rtc_l; [apply host_start|]. eapply rtc_l; [apply host_abort|]. apply rtc_refl.
Defined.
