(* ===== verification/ViewerSpec.v ===== *)
(** * What the viewer keeps true

    The invariant of the viewer's state over every message and every user action, the
    range a refresh asks for, and the gates for filters and search results. *)

From stdpp Require Import base list sorting strings gmap.
From Stdlib Require Import ZArith Lia.
From S2P Require Import Prelude JsString Regex TimeParser LogEntry Json LogFilter Pagination.
From S2P Require Import Messages Viewer.

Create HintDb viewer.

(** ** The state machine *)

(** What a user does in the viewer *)
Inductive user_action :=
| UToggleColumn (c : ColumnId) (on : bool)
| UHighlights (rules : list HighlightRule)
| USearch (q : str)
| UCloseSearch
| UOpenSearch
| UBookmarkRow (rowId : Z)
| UBookmarkIdx (idx : Z)
| UBookmarksPane
| UJumpRow (rowId : Z)
| UJumpIdx (idx : Z)
| UResize (c : ColumnId) (dx : Z)
| UFilterField (k : filter_field) (v : str)
| UApplyFilter (f : log_filter)
| UFollow (b : bool)
| UClearNew
| UWebMemory (mb : option Z).

Definition act (a : user_action) (s : viewer) : viewer * list w2h :=
  match a with
  | UToggleColumn c on => (toggleColumn c on s, [])
  | UHighlights rules => (setHighlights rules s, [])
  | USearch q => (setSearch q s, [])
  | UCloseSearch => (closeSearch s, [])
  | UOpenSearch => (openSearchPanel s, [])
  | UBookmarkRow i => (toggleBookmark i s, [])
  | UBookmarkIdx i => (toggleBookmarkByIdx i s, [])
  | UBookmarksPane => (toggleBookmarksPane s, [])
  | UJumpRow i => (jumpToRow i s, [])
  | UJumpIdx i => (jumpToIdx i s, [])
  | UResize c dx => (resizeColumn c dx s, [])
  | UFilterField k v => (setFilterField k v s, [])
  | UApplyFilter f => applyFilter f s
  | UFollow b => (setFollow b s, [])
  | UClearNew => (clearNewSincePause s, [])
  | UWebMemory mb => (setWebMemMB mb s, [])
  end.

Inductive viewer_reachable : viewer -> Prop :=
| reach_init : viewer_reachable (fst (setupIpc viewer_init))
| reach_receive s m : viewer_reachable s -> viewer_reachable (fst (receive m s))
| reach_act s a : viewer_reachable s -> viewer_reachable (fst (act a s)).

(** ** The invariant *)

(** The bookmark flag of a row agrees with the map of bookmarks. *)
Definition mark_ok (bm : gmap Z BookmarkItem) (r : LogRow) : Prop :=
  forall k, lr_idx r = Some k -> k <> 0 -> lr_bookmarked r = bool_decide (is_Some (bm !! k)).

Definition row_key (r : LogRow) : Z := or_else (lr_idx r) 0.

Record view_ok (w : view) : Prop := {
  vo_ids : exists base, 1 <= base /\ base + zlen (v_rows w) <= v_nextId w /\
             map lr_id (v_rows w) = seqZ base (zlen (v_rows w));
  vo_sorted : StronglySorted (fun a b => row_key a <= row_key b) (v_rows w);
  vo_marks : Forall (mark_ok (v_bookmarks w)) (v_rows w);
  vo_keys : map_Forall (fun k b => bm_idx b = k) (v_bookmarks w);
  vo_total : 0 <= v_totalRows w;
  vo_start : 1 <= v_windowStart w;
  vo_new : 0 <= v_newSincePause w;
}.

Record bar_ok (b : merge_bar) : Prop := {
  bo_total : 0 <= mb_total b;
  bo_done : 0 <= mb_done b;
  bo_active : mb_active b = true -> mb_total b = 0 \/ mb_done b < mb_total b;
}.

Record settings_ok (t : settings) : Prop := {
  so_width : forall c, c <> ColMsg -> 60 <= st_colW t c;
  so_rules : (length (st_highlights t) <= 5)%nat;
  so_texts : Forall (fun r => hl_text r <> [] /\ trim (hl_text r) = hl_text r /\ is_Some (hl_color r))
               (st_highlights t);
}.

Record viewer_ok (s : viewer) : Prop := {
  ok_view : view_ok (vw s);
  ok_bar : bar_ok (vm s);
  ok_settings : settings_ok (vt s);
}.

(** ** Rows *)

Lemma rows_of_ids base logs : map lr_id (rows_of base logs) = seqZ base (zlen logs).
Proof.
  apply list_eq. intros i. unfold rows_of. rewrite list_lookup_fmap, list_lookup_imap.
  destruct (array_sort idx_cmp logs !! i) as [e|] eqn:E.
  - apply lookup_lt_Some in E as Hlt. rewrite array_sort_length in Hlt. cbn.
    rewrite lookup_seqZ_lt by (unfold zlen; lia). done.
  - apply lookup_ge_None in E as Hge. rewrite array_sort_length in Hge. cbn.
    symmetry. apply lookup_seqZ_ge. unfold zlen. lia.
Qed.

Lemma rows_of_length base logs : zlen (rows_of base logs) = zlen logs.
Proof. unfold rows_of, zlen. by rewrite length_imap, array_sort_length. Qed.

Lemma sorted_imap {A B} (R : A -> A -> Prop) (S : B -> B -> Prop) (f : nat -> A -> B) l :
  (forall i j a b, R a b -> S (f i a) (f j b)) -> StronglySorted R l -> StronglySorted S (imap f l).
Proof.
  intros Hf Hs. revert f Hf. induction Hs as [|x l Hs IH Hx]; intros f Hf; [constructor|].
  rewrite imap_cons. constructor; [apply IH; intros; by apply Hf|].
  apply Forall_lookup. intros i y Hy. rewrite list_lookup_imap in Hy.
  destruct (l !! i) as [a|] eqn:E; [|done]. cbn in Hy. simplify_eq.
  apply Hf. by apply (proj1 (Forall_lookup _ _) Hx i).
Qed.

Definition entry_key (e : LogEntry) : Z := or_else (e_idx e) 0.

Lemma sort_by_idx logs : StronglySorted (fun a b => entry_key a <= entry_key b) (array_sort idx_cmp logs).
Proof.
  apply array_sort_sorted; unfold idx_cmp, entry_key; [lia|lia|]. intros a b c; lia.
Qed.

Lemma rows_of_sorted base logs :
  StronglySorted (fun a b => row_key a <= row_key b) (rows_of base logs).
Proof. eapply sorted_imap; [|apply sort_by_idx]. done. Qed.

Lemma rows_of_unmarked base logs : Forall (fun r => lr_bookmarked r = false) (rows_of base logs).
Proof.
  apply Forall_lookup. intros i r Hr. unfold rows_of in Hr. rewrite list_lookup_imap in Hr.
  destruct (array_sort idx_cmp logs !! i); [|done]. cbn in Hr. by simplify_eq.
Qed.

Lemma restore_fields bm r :
  lr_id (restore_bookmark bm r) = lr_id r /\ lr_idx (restore_bookmark bm r) = lr_idx r /\
  lr_raw (restore_bookmark bm r) = lr_raw r.
Proof. unfold restore_bookmark. destruct (lr_idx r) eqn:E; [|done]. by destruct (_ && _). Qed.

Lemma restore_mark bm r : lr_bookmarked r = false -> mark_ok bm (restore_bookmark bm r).
Proof.
  intros Hr k Hk Hk0. rewrite (proj1 (proj2 (restore_fields bm r))) in Hk.
  unfold restore_bookmark. rewrite Hk. rewrite (proj2 (Z.eqb_neq k 0)) by done. cbn [negb andb].
  case_bool_decide; [done|]. by rewrite Hr.
Qed.

Lemma sorted_map {A} (R : A -> A -> Prop) (f : A -> A) l :
  (forall a b, R a b -> R (f a) (f b)) -> StronglySorted R l -> StronglySorted R (map f l).
Proof.
  intros Hf. induction 1 as [|x l Hs IH Hx]; [constructor|]. cbn. constructor; [done|].
  apply Forall_fmap. eapply Forall_impl; [exact Hx|]. intros; by apply Hf.
Qed.

Lemma max_id_bound rows base :
  map lr_id rows = seqZ base (zlen rows) -> 1 <= base ->
  foldl (fun m r => Z.max m (lr_id r)) 0 rows = if nonempty rows then base + zlen rows - 1 else 0.
Proof.
  intros Hids Hb. induction rows as [|r rows IH] using rev_ind; [done|].
  rewrite foldl_app, zlen_app in *. change (zlen [r]) with 1 in *. cbn [foldl].
  rewrite map_app, seqZ_app in Hids by (unfold zlen; lia). cbn [map] in Hids.
  apply app_inj_2 in Hids as [H1 H2]; [|done]. rewrite seqZ_cons in H2 by lia.
  injection H2 as Hr. rewrite IH by done. rewrite Hr.
  destruct rows as [|r' rows]; cbn; unfold zlen; cbn [length]; lia.
Qed.

(** ** Every operation keeps the invariant *)

Lemma receiveRows_view startIdx rows s :
  view_ok (vw s) -> map lr_id rows = seqZ (v_nextId (vw s)) (zlen rows) ->
  StronglySorted (fun a b => row_key a <= row_key b) rows ->
  Forall (fun r => lr_bookmarked r = false) rows ->
  view_ok (vw (receiveRows startIdx rows s)).
Proof.
  intros [Hids _ _ Hkeys Htot _ Hnew] Hb Hsorted Hun. destruct Hids as (b0 & Hb0 & Hn & _).
  assert (Hz := zlen_nonneg (v_rows (vw s))).
  unfold receiveRows. cbn [vw with_view]. split; cbn; try lia; try done.
  - exists (v_nextId (vw s)). unfold zlen in *. rewrite length_map. split_and!; [lia| |].
    + rewrite (max_id_bound rows (v_nextId (vw s))) by (unfold zlen; first [done|lia]).
      destruct rows; cbn [nonempty length] in *; unfold zlen; cbn [length]; lia.
    + rewrite <- Hb. rewrite map_map. apply map_ext. intros r. by apply restore_fields.
  - apply sorted_map; [|done]. intros a c. unfold row_key.
    by rewrite !(proj1 (proj2 (restore_fields _ _))).
  - apply Forall_fmap. eapply Forall_impl; [exact Hun|]. intros r Hr. by apply restore_mark.
Qed.

Lemma show_logs_view logs s : view_ok (vw s) -> view_ok (vw (show_logs logs s)).
Proof.
  intros Hok. unfold show_logs. apply receiveRows_view; [done| | |].
  - by rewrite rows_of_ids, rows_of_length.
  - apply rows_of_sorted.
  - apply rows_of_unmarked.
Qed.

Lemma clear_rows_view startIdx s : view_ok (vw s) -> view_ok (vw (receiveRows startIdx [] s)).
Proof.
  intros Hok. apply receiveRows_view; [done|done|constructor|constructor].
Qed.

Lemma set_bookmarked_fields b r :
  lr_id (set_bookmarked b r) = lr_id r /\ lr_idx (set_bookmarked b r) = lr_idx r.
Proof. done. Qed.

Lemma toggle_view k s : view_ok (vw s) -> view_ok (vw (toggleBookmarkByIdx k s)).
Proof.
  intros [Hids Hsorted Hmarks Hkeys Htot Hst Hnew]. unfold toggleBookmarkByIdx. cbn [vw with_view].
  set (bm := match v_bookmarks (vw s) !! k with Some _ => _ | None => _ end).
  assert (Hbm : forall j, j <> k -> bm !! j = v_bookmarks (vw s) !! j).
  { intros j Hj. unfold bm. destruct (v_bookmarks (vw s) !! k); [by apply lookup_delete_ne|].
    destruct (List.find _ _); [by apply lookup_insert_ne|done]. }
  split; cbn; try done.
  - destruct Hids as (base & H1 & H2 & H3). exists base. unfold zlen in *. rewrite length_map.
    split_and!; [done..|]. rewrite <- H3, map_map. apply map_ext. intros r. by destruct (has_idx k r).
  - apply sorted_map; [|done]. intros a c. unfold row_key. by destruct (has_idx k a), (has_idx k c).
  - apply Forall_fmap. eapply Forall_impl; [exact Hmarks|]. intros r Hr j Hj Hj0.
    unfold has_idx in *. case_bool_decide as E; cbn in *.
    + rewrite Hj in E. by simplify_eq.
    + rewrite (Hr j Hj Hj0), Hbm; [done|]. intros ->. by apply E.
  - unfold bm. destruct (v_bookmarks (vw s) !! k); [by apply map_Forall_delete|].
    destruct (List.find _ _); [|done]. by apply map_Forall_insert_2.
Qed.

Lemma mergeProgress_bar p s : bar_ok (vm s) -> bar_ok (vm (mergeProgress p s)).
Proof.
  intros [Ht Hd _]. unfold mergeProgress. cbn [vm with_bar].
  set (t := match pa_total p with Some n => _ | None => _ end).
  set (dn := match pa_done p with Some n => _ | None => _ end).
  assert (0 <= t) by (subst t; destruct (pa_total p); lia).
  assert (0 <= dn) by (subst dn; destruct (pa_done p); lia).
  split; cbn; [done|done|]. zcases; cbn; [done|..]; lia.
Qed.

Lemma setHighlights_ok rules s : settings_ok (vt s) -> settings_ok (vt (setHighlights rules s)).
Proof.
  intros [Hw _ _]. unfold setHighlights. split; cbn; [done| |].
  - rewrite length_map. unfold slice. rewrite length_take. lia.
  - apply Forall_fmap. unfold slice. apply Forall_take, Forall_drop, Forall_forall. intros r.
    rewrite list_elem_of_filter. intros [Hr _]. cbn. split_and!; [|apply trim_trim|done].
    by destruct (trim (hl_text r)).
Qed.

Lemma resizeColumn_ok c dx s : settings_ok (vt s) -> settings_ok (vt (resizeColumn c dx s)).
Proof.
  intros [Hw Hr Ht]. unfold resizeColumn. split; cbn; [|done|done].
  intros c' Hc. case_decide; [lia|by apply Hw].
Qed.

Lemma setTotalRows_ok t s : viewer_ok s -> viewer_ok (setTotalRows t s).
Proof.
  intros [[] Hb Hs]. split; [|done..]. unfold setTotalRows, nat32. split; cbn; try done. lia.
Qed.

Lemma gates_ok g s : viewer_ok s -> viewer_ok (with_gates g s).
Proof. by intros []. Qed.

Lemma search_ok p s : viewer_ok s -> viewer_ok (with_search p s).
Proof. by intros []. Qed.

Lemma mergeProgress_ok p s : viewer_ok s -> viewer_ok (mergeProgress p s).
Proof. intros []. split; [done|by apply mergeProgress_bar|done]. Qed.

Lemma setMergeStage_ok t s : viewer_ok s -> viewer_ok (setMergeStage t s).
Proof. by intros [? [] ?]. Qed.

Lemma setMergeMode_ok m s : viewer_ok s -> viewer_ok (setMergeMode m s).
Proof. by intros [? [] ?]. Qed.

Lemma show_logs_ok logs s : viewer_ok s -> viewer_ok (show_logs logs s).
Proof. intros []. split; [by apply show_logs_view|done..]. Qed.

Lemma clear_rows_ok i s : viewer_ok s -> viewer_ok (receiveRows i [] s).
Proof. intros []. split; [by apply clear_rows_view|done..]. Qed.

Lemma version_ok v s : viewer_ok s -> viewer_ok (updateSessionVersion v s).
Proof. destruct v; [apply gates_ok|done]. Qed.

Lemma ready_ok s : viewer_ok s -> viewer_ok (fst (setReadyForFilter s)).
Proof. unfold setReadyForFilter. destruct (g_readyForFilter (vg s)); [done|apply gates_ok]. Qed.

Lemma toggleColumn_ok c b s : viewer_ok s -> viewer_ok (toggleColumn c b s).
Proof. by intros [? ? []]. Qed.

Lemma setBookmarksPane_ok b s : viewer_ok s -> viewer_ok (setBookmarksPane b s).
Proof. by intros [? ? []]. Qed.

Lemma set_filter_ok f s : viewer_ok s -> viewer_ok (set_filter f s).
Proof. by intros [? ? []]. Qed.

Lemma toggle_ok k s : viewer_ok s -> viewer_ok (toggleBookmarkByIdx k s).
Proof. intros []. split; [by apply toggle_view|done..]. Qed.

#[export] Hint Resolve setTotalRows_ok gates_ok search_ok mergeProgress_ok setMergeStage_ok
  setMergeMode_ok show_logs_ok clear_rows_ok version_ok ready_ok toggleColumn_ok
  setBookmarksPane_ok set_filter_ok toggle_ok : viewer.

Lemma on_prefs_ok p s : viewer_ok s -> viewer_ok (on_prefs p s).
Proof.
  intros Hs. unfold on_prefs. destruct p as [[?|] [?|] [?|] [?|] [?|] [?|]]; cbn [vp_showTime
    vp_showProc vp_showPid vp_showSrc vp_showMsg vp_bookmarksOpen]; auto 10 with viewer.
Qed.

Lemma on_batch_ok logs t v s : viewer_ok s -> viewer_ok (fst (on_batch logs t v s)).
Proof.
  intros Hs. unfold on_batch.
  set (s2 := show_logs logs _). assert (H2 : viewer_ok s2) by (subst s2; destruct t; auto with viewer).
  clearbody s2.
  set (s3 := if negb (v_follow (vw s2)) && nonempty logs then incNewSincePause s2 else s2).
  assert (H3 : viewer_ok s3).
  { subst s3. destruct (_ && _); [|done]. destruct H2 as [[] Hb Ht]. split; [|done..].
    split; cbn; try done. lia. }
  assert (H4 := ready_ok s3 H3). destruct (setReadyForFilter s3) as [s4 posts]. by apply gates_ok.
Qed.

Lemma on_refresh_ok t v w s : viewer_ok s -> viewer_ok (fst (on_refresh t v w s)).
Proof.
  intros Hs. unfold on_refresh.
  set (s3 := mergeProgress _ _). assert (H3 : viewer_ok s3).
  { subst s3. unfold disallowEstimates, set_allowEstimates. destruct w; auto with viewer. }
  assert (H4 := ready_ok s3 H3). destruct (setReadyForFilter s3) as [s4 posts]. cbn [fst] in H4.
  destruct (window_range _ _) as [a b]. cbn [fst].
  apply setMergeStage_ok, setMergeMode_ok, clear_rows_ok. by apply gates_ok.
Qed.

Lemma on_progress_ok p s : viewer_ok s -> viewer_ok (on_progress p s).
Proof.
  intros Hs. unfold on_progress.
  set (s3 := setWebMemPeriod _ _). assert (H3 : viewer_ok s3).
  { subst s3. apply gates_ok. repeat case_match; auto using gates_ok; by repeat apply gates_ok. }
  destruct (_ && _ && _); [done|]. destruct (pa_total p); auto with viewer.
  destruct (_ && _); auto with viewer.
Qed.

Lemma receive_ok m s : viewer_ok s -> viewer_ok (fst (receive m s)).
Proof.
  intros Hs. destruct m; cbn [receive fst]; try done.
  - by apply on_batch_ok.
  - unfold on_page. repeat case_match; auto with viewer.
  - assert (H := ready_ok _ (version_ok version s Hs)).
    destruct (setReadyForFilter _). cbn [fst] in *. destruct total; auto with viewer.
  - unfold on_saved. apply gates_ok, setMergeStage_ok, gates_ok, setTotalRows_ok, mergeProgress_ok.
    by apply gates_ok.
  - by apply on_progress_ok.
  - unfold on_stage. assert (H : viewer_ok (setMergeStage text s)) by auto with viewer.
    destruct kind, (isHybridSignal text); auto with viewer; try apply setMergeMode_ok;
      by repeat apply gates_ok.
  - by apply on_prefs_ok.
  - by apply on_refresh_ok.
  - unfold setSearchResults. destruct (_ && _); auto with viewer.
  - destruct Hs as [? ? []]. split; [done..|]. by split.
Qed.

Lemma act_ok a s : viewer_ok s -> viewer_ok (fst (act a s)).
Proof.
  intros Hs. destruct a; cbn [act fst]; auto with viewer.
  - destruct Hs. split; [done..|]. by apply setHighlights_ok.
  - unfold setSearch. destruct (nonempty _); auto with viewer.
  - by apply search_ok.
  - by apply search_ok.
  - unfold toggleBookmark. repeat case_match; auto with viewer.
  - unfold toggleBookmarksPane. auto with viewer.
  - by destruct Hs as [[] ? ?].
  - by destruct Hs as [[] ? ?].
  - destruct Hs. split; [done..|]. by apply resizeColumn_ok.
  - unfold setFilterField. auto with viewer.
  - unfold applyFilter, postFilterUpdate. destruct (g_readyForFilter _); cbn [fst]; auto with viewer.
  - by destruct Hs as [[] ? ?].
  - by destruct Hs as [[] ? ?].
  - by destruct Hs as [? ? []].
Qed.

Lemma init_ok : viewer_ok viewer_init.
Proof.
  split; split; cbn; try done; try lia; try constructor; try (by apply map_Forall_empty).
  - exists 1. split_and!; [lia|by cbn|done].
  - intros [] Hc; cbn; try lia; done.
Qed.

(** C14: The invariant of the viewer: in every state reached by messages of the host and
    actions of the user, the rows have consecutive ids below the next free one and are
    sorted by number, a row shows a bookmark exactly when its number has one, the totals
    are not negative, the progress bar is active only while the merge is not complete, no
    column is narrower than 60 pixels and there are at most five highlights, with trimmed
    texts. *)
Theorem viewer_invariant s : viewer_reachable s -> viewer_ok s.
Proof.
  induction 1 as [|s m _ IH|s a _ IH]; [|by apply receive_ok|by apply act_ok].
  apply setMergeMode_ok, init_ok.
Qed.

(** ** Ranges *)

(** The range a refresh asks for is a full window of existing rows around the anchor, or
    all rows when there are fewer than a window. *)
Theorem window_range_ok total anchor :
  1 <= total -> 1 <= anchor ->
  let '(s, e) := window_range total anchor in
  1 <= s /\ s <= e <= total /\ e - s + 1 = Z.min windowSize total /\ s <= Z.min anchor total <= e.
Proof.
  intros Ht Ha. unfold window_range. change windowSize with 208. change (208 / 2) with 104. cbv zeta.
  zcases; lia.
Qed.

(** ** Filters *)

Fixpoint post_all (fs : list log_filter) (s : viewer) : viewer * list w2h :=
  match fs with
  | [] => (s, [])
  | f :: fs' =>
      let '(s1, out1) := applyFilter f s in
      let '(s2, out2) := post_all fs' s1 in (s2, out1 ++ out2)
  end.

Lemma post_all_ready fs s :
  g_readyForFilter (vg s) = true ->
  snd (post_all fs s) = map (fun f => flushFilter (normalize_fields f)) fs /\
  g_readyForFilter (vg (fst (post_all fs s))) = true.
Proof.
  revert s. induction fs as [|f fs IH]; intros s Hr; [done|]. cbn [post_all].
  unfold applyFilter, postFilterUpdate. cbn [set_filter with_settings vg]. rewrite Hr.
  destruct (IH (set_filter f s) Hr) as [H1 H2]. destruct (post_all fs _). cbn in *. by rewrite H1.
Qed.

Lemma post_all_waiting fs s :
  g_readyForFilter (vg s) = false ->
  snd (post_all fs s) = [] /\
  g_readyForFilter (vg (fst (post_all fs s))) = false /\
  g_pendingFilter (vg (fst (post_all fs s))) =
    match last fs with Some f => Some (normalize_fields f) | None => g_pendingFilter (vg s) end.
Proof.
  revert s. induction fs as [|f fs IH]; intros s Hr; [done|]. cbn [post_all].
  unfold applyFilter, postFilterUpdate. cbn [set_filter with_settings vg]. rewrite Hr.
  edestruct (IH (with_gates (Gates (g_sessionVersion (vg s)) (g_allowEstimatedTotal (vg s))
    (g_mergeActive (vg s)) false (Some (normalize_fields f)) (g_fastMemory (vg s))) (set_filter f s)))
    as (H1 & H2 & H3); [done|].
  destruct (post_all fs _). cbn in *. rewrite H1. split_and!; [done..|]. rewrite H3.
  rewrite last_cons. by destruct (last fs).
Qed.

(** A filter that is set before the host has answered is held back; only the last one is
    sent, once, with the first sign of the host, and every later one is sent at once. *)
Theorem filter_gate fs1 fs2 total version warm dir s :
  g_readyForFilter (vg s) = false -> g_pendingFilter (vg s) = None ->
  let '(s1, out1) := post_all fs1 s in
  let '(s2, out2) := receive (LogsState warm total version dir) s1 in
  let '(s3, out3) := post_all fs2 s2 in
  out1 = [] /\
  out2 = match last fs1 with Some f => [flushFilter (normalize_fields f)] | None => [] end /\
  out3 = map (fun f => flushFilter (normalize_fields f)) fs2.
Proof.
  intros Hr Hp. destruct (post_all_waiting fs1 s Hr) as (H1 & H2 & H3).
  destruct (post_all fs1 s) as [s1 out1]. cbn [fst snd] in *. cbn [receive].
  unfold setReadyForFilter.
  assert (E : g_readyForFilter (vg (updateSessionVersion version s1)) = false) by (by destruct version).
  assert (E' : g_pendingFilter (vg (updateSessionVersion version s1)) = g_pendingFilter (vg s1))
    by (by destruct version).
  rewrite E, E', H3.
  set (s2 := match total with Some t => _ | None => _ end).
  destruct (post_all_ready fs2 s2) as [H4 _]; [by destruct total|].
  destruct (post_all fs2 s2). cbn in H4. split_and!; [done| |done].
  destruct (last fs1); [done|]. by rewrite Hp.
Qed.

(** ** Search results *)

(** Results that arrive after the search pane was closed do not open it again. *)
Lemma late_results_ignored hits q s : setSearchResults hits q (closeSearch s) = closeSearch s.
Proof. done. Qed.

(** ** Examples *)

Lemma viewer_invariant_witness :
  let s := fst (act (UBookmarkIdx 1) (fst (receive (PageResponse 1 1
    [Entry 0 (Some 1) 0 LvI [] [] [] (js "a") None None None] None) (fst (setupIpc viewer_init))))) in
  viewer_ok s /\ map lr_bookmarked (v_rows (vw s)) = [true].
Proof.
  split; [|by vm_compute]. apply viewer_invariant. apply reach_act, reach_receive, reach_init.
Defined.

Lemma window_range_ok_witness :
  let '(s, e) := window_range 1000 500 in
  1 <= s /\ s <= e <= 1000 /\ e - s + 1 = Z.min windowSize 1000 /\ s <= Z.min 500 1000 <= e.
Proof. apply (window_range_ok 1000 500); lia. Defined.

Definition only (msg : str) : log_filter := Filter [] [] [] msg.

Lemma filter_gate_witness :
  let '(s1, out1) := post_all [only (js "a"); only (js " b ")] viewer_init in
  let '(s2, out2) := receive (LogsState true (Some 3) (Some 1) None) s1 in
  let '(s3, out3) := post_all [only (js "c")] s2 in
  out1 = [] /\ out2 = [flushFilter (only (js "b"))] /\ out3 = [flushFilter (only (js "c"))].
Proof.
  exact (filter_gate [only (js "a"); only (js " b ")] [only (js "c")] (Some 3) (Some 1) true None
    viewer_init eq_refl eq_refl).
Defined.
