(* ===== verification/Panel.v ===== *)
(** * The panel of the log viewer

    [LogViewerPanelManager] of src/extension/panels/LogViewerPanelManager.ts: what it passes
    from a session to the bridge, how often it samples the memory, and where it looks for
    the workspace.  Creating the VS Code panel and its HTML is not modelled. *)

From stdpp Require Import base list strings gmap.
From Stdlib Require Import ZArith Lia.
From S2P Require Import Prelude JsString Regex LogEntry Json Pagination Session Messages HostBridge.

(** The fields of the manager that a merge uses; the memory is sampled every two seconds
    ([pn_fast]) or every minute. *)
Record panel := Panel {
  pn_fast : bool;
  pn_initialSent : bool;
  pn_progAcc : Z;
  pn_progDoneAcc : Z;
  pn_progTotal : option Z;
  pn_progLastLogMs : Z;
}.

Definition PROG_LINES_THRESHOLD : Z := 1000.
Definition PROG_LOG_INTERVAL_MS : Z := 800.

Section panel.
Context (rssMB heapUsedMB : Z).     (* what [process.memoryUsage()] says *)
Context (outDir : str).

(** [_postMemOnce] *)
Definition postMemOnce : h2w := MemoryUsage (Some rssMB) (Some heapUsedMB).

(** [_setMemPeriod]: a change of the period samples at once. *)
Definition setMemPeriod (fast : bool) (p : panel) : panel * list h2w :=
  if eqb (pn_fast p) fast then (p, [])
  else (Panel fast (pn_initialSent p) (pn_progAcc p) (pn_progDoneAcc p) (pn_progTotal p)
          (pn_progLastLogMs p), [postMemOnce]).

(** The start of [startFileMerge] *)
Definition start_merge (p : panel) : panel * list h2w :=
  setMemPeriod true (Panel (pn_fast p) false 0 0 None 0).

(** [onProgress] of [startFileMerge]: the counters of the sampled log line *)
Definition on_session_progress (now : Z) (a : progress) (p : panel) : panel * list h2w :=
  if pr_active a then
    let '(p1, out) := setMemPeriod true p in
    let total := match pr_total a with Some t => Some t | None => pn_progTotal p1 end in
    let add := or_else (pr_inc a) 0 in
    let acc := pn_progAcc p1 + add in
    let doneAcc := pn_progDoneAcc p1 + add in
    if (PROG_LINES_THRESHOLD <=? acc) && (PROG_LOG_INTERVAL_MS <=? now - pn_progLastLogMs p1)
    then (Panel (pn_fast p1) (pn_initialSent p1) 0 doneAcc total now, out)
    else (Panel (pn_fast p1) (pn_initialSent p1) acc doneAcc total (pn_progLastLogMs p1), out)
  else
    let '(p1, out) := setMemPeriod false p in
    (Panel (pn_fast p1) (pn_initialSent p1) 0 0 None 0, out).

(** The arguments the bridge's reporter gets *)
Definition progress_of (a : progress) : progress_args :=
  ProgressArgs (pr_inc a) (pr_total a) (pr_done a) (Some (pr_active a)) (pr_reset a).

(** The callbacks [startFileMerge] gives to the session: what goes to the viewer at once, and
    the progress reports that wait for the ticker *)
Definition relay (now : Z) (ev : session_event) (st : panel * ticker)
  : (panel * ticker) * list h2w :=
  let '(p, t) := st in
  match ev with
  | SBatch rows total seq version =>
      if pn_initialSent p then (st, [])
      else ((Panel (pn_fast p) true (pn_progAcc p) (pn_progDoneAcc p) (pn_progTotal p)
               (pn_progLastLogMs p), t),
            [LogsBatch (map r_entry rows) total (Some seq) (Some version)])
  | SProgress _ a =>
      let '(p1, out) := on_session_progress now a p in ((p1, report (progress_of a) t), out)
  | SRefresh total version warm =>
      let '(p1, out) := setMemPeriod false p in
      ((p1, t), LogsRefresh total (Some version) warm :: out)
  | SSaved chunkCount total merged =>
      (st, [MergeSaved outDir (path_join outDir (js "manifest.json")) chunkCount total merged])
  end.

Fixpoint relay_all (evs : list (Z * session_event)) (st : panel * ticker)
  : (panel * ticker) * list h2w :=
  match evs with
  | [] => (st, [])
  | (now, ev) :: evs' =>
      let '(st1, out1) := relay now ev st in
      let '(st2, out2) := relay_all evs' st1 in (st2, out1 ++ out2)
  end.

(** The text of the stage that ends a skipped merge: three words with white space between *)
Definition SKIP_RX : re :=
  sq [lit [51221; 49885]; star ws; lit [48337; 54633]; star ws; lit [49828; 53429]].

(** [_handleStageAndMaybeWarmRefresh] *)
Definition handleStage (text : str) (kind : stage_kind) (pag : pagination) (p : panel)
  : panel * list h2w :=
  match kind with
  | KDone =>
      if rx_test SKIP_RX text then
        let '(p1, out) := setMemPeriod false p in
        (p1, LogsRefresh (Some (getWarmTotal pag)) (Some (version pag)) true :: out)
      else (p, [])
  | _ => (p, [])
  end.
End panel.

(** [_resolveWorkspaceRoot]: the user data, the folders of the window, the setting, the last
    session.  A user data file that cannot be read counts as none. *)
Definition resolveWorkspaceRoot (userdata : option str) (folders : list str) (cfg last : option str)
  : option str :=
  let trimmed o := match o with
                   | Some p => if nonempty (trim p) then Some (trim p) else None
                   | None => None
                   end in
  match trimmed userdata with
  | Some p => Some p
  | None =>
      match folders with
      | p :: _ => Some p
      | [] => match trimmed cfg with Some p => Some p | None => trimmed last end
      end
  end.

(** ** What the viewer gets *)

(** The batches among the messages *)
Definition is_batch (m : h2w) : bool := match m with LogsBatch _ _ _ _ => true | _ => false end.

Lemma setMemPeriod_frame rss heap fast p :
  pn_initialSent (fst (setMemPeriod rss heap fast p)) = pn_initialSent p /\
  pn_fast (fst (setMemPeriod rss heap fast p)) = fast /\
  filter (fun m => is_batch m = true) (snd (setMemPeriod rss heap fast p)) = [].
Proof.
  unfold setMemPeriod. destruct (eqb (pn_fast p) fast) eqn:E; [|done].
  apply eqb_prop in E. by split_and!.
Qed.

Lemma relay_sent rss heap outDir now ev st :
  pn_initialSent (fst st) = true ->
  pn_initialSent (fst (fst (relay rss heap outDir now ev st))) = true /\
  filter (fun m => is_batch m = true) (snd (relay rss heap outDir now ev st)) = [].
Proof.
  destruct st as [p t]. cbn [fst]. intros Hp. destruct ev as [rows tot sq v|th a|tot v wm|c tot mg]; cbn [relay].
  - by rewrite Hp.
  - assert (Hf := setMemPeriod_frame rss heap (pr_active a) p). unfold on_session_progress.
    destruct (pr_active a), (setMemPeriod rss heap _ p) as [p1 out]; cbn [fst snd] in Hf;
      destruct Hf as (H1 & _ & H2); [destruct (_ && _)|]; cbn; split; congruence.
  - assert (Hf := setMemPeriod_frame rss heap false p).
    destruct (setMemPeriod rss heap false p) as [p1 out]. destruct Hf as (H1 & _ & H2). cbn in *.
    split; [congruence|done].
  - done.
Qed.

Lemma relay_all_sent rss heap outDir evs st :
  pn_initialSent (fst st) = true ->
  filter (fun m => is_batch m = true) (snd (relay_all rss heap outDir evs st)) = [].
Proof.
  revert st. induction evs as [|[now ev] evs IH]; intros st Hst; [done|]. cbn [relay_all].
  destruct (relay_sent rss heap outDir now ev st Hst) as [H1 H2].
  destruct (relay _ _ _ _ _ st) as [st1 out1]. cbn [fst snd] in *. specialize (IH st1 H1).
  destruct (relay_all _ _ _ evs st1) as [st2 out2]. cbn [snd] in *. by rewrite filter_app, H2, IH.
Qed.

(** The first batch of a merge is the only one the viewer gets, with its total, number and
    version; everything after it comes as pages. *)
Theorem panel_one_batch rss heap outDir now pre rows total seq version post p t :
  pn_initialSent p = false ->
  Forall (fun x => match snd x with SBatch _ _ _ _ => False | _ => True end) pre ->
  filter (fun m => is_batch m = true)
    (snd (relay_all rss heap outDir (pre ++ (now, SBatch rows total seq version) :: post) (p, t))) =
  [LogsBatch (map r_entry rows) total (Some seq) (Some version)].
Proof.
  intros Hp Hpre. revert p t Hp. induction Hpre as [|[n ev] pre Hev _ IH]; intros p t Hp;
    cbn [app relay_all].
  - cbn [relay]. rewrite Hp.
    assert (H := relay_all_sent rss heap outDir post
      (Panel (pn_fast p) true (pn_progAcc p) (pn_progDoneAcc p) (pn_progTotal p) (pn_progLastLogMs p), t) eq_refl).
    destruct (relay_all _ _ _ post _) as [st2 out2]. cbn [snd] in *. cbn. by f_equal.
  - destruct ev as [rows' tot sq v|th a|tot v wm|c tot mg]; [done| | |]; cbn [relay].
    + assert (Hf := setMemPeriod_frame rss heap (pr_active a) p). unfold on_session_progress.
      destruct (pr_active a), (setMemPeriod rss heap _ p) as [p1 out]; cbn [fst snd] in Hf;
        destruct Hf as (H1 & _ & H2); [destruct (_ && _)|];
        (match goal with |- context [relay_all _ _ _ _ (?q, ?tk)] =>
           assert (Hi := IH q tk ltac:(cbn; congruence)) end;
         destruct (relay_all _ _ _ _ _) as [st2 out2]; cbn [snd] in *; by rewrite filter_app, H2).
    + assert (Hf := setMemPeriod_frame rss heap false p).
      destruct (setMemPeriod rss heap false p) as [p1 out]. destruct Hf as (H1 & _ & H2). cbn [fst snd] in *.
      assert (Hi := IH p1 t ltac:(congruence)). destruct (relay_all _ _ _ _ _) as [st2 out2].
      cbn [snd] in *. rewrite filter_app. change (filter _ (LogsRefresh tot (Some v) wm :: out))
        with (filter (fun m => is_batch m = true) out). by rewrite H2.
    + assert (Hi := IH p t Hp). destruct (relay_all _ _ _ _ _) as [st2 out2]. cbn [snd] in *.
      by rewrite filter_app, Hi.
Qed.

Lemma panel_one_batch_witness :
  filter (fun m => is_batch m = true)
    (snd (relay_all 1 1 (js "/o")
       ([(0, SProgress false (Progress None (Some 0) (Some 5) true true))] ++
        (1, SBatch [] (Some 5) 1 2) :: [(2, SBatch [] (Some 5) 2 2); (3, SRefresh (Some 5) 3 false)])
       (Panel false false 0 0 None 0, ticker_init))) =
  [LogsBatch [] (Some 5) (Some 1) (Some 2)].
Proof. apply panel_one_batch; [done|by repeat constructor]. Defined.
