(* ===== verification/ViewerHost.v ===== *)
(** * Host and viewer together

    The messages of [HostWebviewBridge] and of the viewer composed: what the viewer shows
    once a filter or the first greeting has gone to the host and the page it asked for has
    come back; and what can go wrong when messages are interleaved. *)

From stdpp Require Import base list sorting strings gmap.
From Stdlib Require Import ZArith Lia.
From S2P Require Import Prelude JsString Regex TimeParser LogEntry Json ParserEngine Manifest.
From S2P Require Import ChunkWriter PagedReader LogFilter Pagination PaginationSpec PaginationCache Warmup.
From S2P Require Import LineReaders LogFiles TypePipeline MergeDirectory Session SessionSpec.
From S2P Require Import Messages Viewer HostBridge HostBridgeSpec ViewerSpec Panel.

(** ** The rounds *)

Fixpoint receive_all (ms : list h2w) (s : viewer) : viewer * list w2h :=
  match ms with
  | [] => (s, [])
  | m :: ms' =>
      let '(s1, out1) := receive m s in
      let '(s2, out2) := receive_all ms' s1 in (s2, out1 ++ out2)
  end.

Section rounds.
Context {J : JsonCodec} {LS : LineSplitter} `{RE : RegExpEngine}.
Context (lower : str -> str) (fs : str -> dir_state).
Context (prefs : option (viewer_prefs + str)) (save : option (viewer_prefs -> option str)).

Fixpoint serve_all (ms : list w2h) (h : host) : host * list h2w :=
  match ms with
  | [] => (h, [])
  | m :: ms' =>
      let '(h1, out1) := serve lower fs prefs save m None h in
      let '(h2, out2) := serve_all ms' h1 in (h2, out1 ++ out2)
  end.

(** The host handles messages, the viewer its answers, and the host what the viewer asks
    for then. *)
Definition round (ms : list w2h) (h : host) (s : viewer) : host * viewer :=
  let '(h1, out) := serve_all ms h in
  let '(s1, posts) := receive_all out s in
  let '(h2, out2) := serve_all posts h1 in
  (h2, fst (receive_all out2 s1)).
End rounds.

(** The viewer shows a window of a list: the total is the length of the list, there is a
    full window of rows (or the whole list), and row [i] of the window is the entry at the
    place of the list that its number says, with its text. *)
Record displays (w : view) (l : list LogEntry) : Prop := {
  di_total : v_totalRows w = zlen l;
  di_count : zlen (v_rows w) = Z.min windowSize (zlen l);
  di_rows : forall (i : nat) r, v_rows w !! i = Some r ->
    lr_idx r = Some (v_windowStart w + Z.of_nat i) /\
    exists e, l !! (Z.to_nat (v_windowStart w - 1) + i)%nat = Some e /\ lr_raw r = e_text e;
}.

(** The number of the row a refresh must bring into view: the one jumped to, else the newest
    while the view follows *)
Definition target (w : view) (total : Z) : option Z :=
  let tail := if v_follow w then Some total else None in
  match v_pendingJumpIdx w with
  | Some j => if 0 <? j then Some (Z.min j total) else tail
  | None => tail
  end.

(** ** Numbers and rows *)

Lemma to_int32_small z : 0 <= z < 2 ^ 31 -> to_int32 z = z.
Proof.
  intros H. unfold to_int32. cbv zeta. rewrite Z.mod_small by lia. zcases; lia.
Qed.

Lemma number_sorted a l : StronglySorted (fun x y => idx_cmp x y <= 0) (number_entries a l).
Proof.
  unfold number_entries. revert a. induction l as [|e l IH]; intros a; [constructor|].
  rewrite imap_cons. constructor.
  - erewrite imap_ext; [apply (IH (a + 1))|]. intros i x _. cbn. do 2 f_equal. lia.
  - apply Forall_lookup. intros i x Hx. rewrite list_lookup_imap in Hx.
    destruct (l !! i); [|done]. cbn in Hx. simplify_eq. unfold idx_cmp. cbn. lia.
Qed.

Lemma rows_of_numbered base a l (i : nat) :
  rows_of base (number_entries a l) !! i =
  (fun e => row_of (base + Z.of_nat i) (set_idx e (Some (a + Z.of_nat i)))) <$> l !! i.
Proof.
  unfold rows_of. rewrite array_sort_id by apply number_sorted.
  unfold number_entries. rewrite !list_lookup_imap. by destruct (l !! i).
Qed.

(** What [receiveRows] shows of a numbered page *)
Lemma show_page a l s :
  1 <= a < 2 ^ 31 ->
  let w := vw (show_logs (number_entries a l) s) in
  v_totalRows w = v_totalRows (vw s) /\ (l <> [] -> v_windowStart w = a) /\
  zlen (v_rows w) = zlen l /\
  (forall (i : nat) r, v_rows w !! i = Some r ->
     lr_idx r = Some (a + Z.of_nat i) /\ exists e, l !! i = Some e /\ lr_raw r = e_text e).
Proof.
  intros Ha. unfold show_logs, receiveRows. cbn [vw with_view v_totalRows v_windowStart v_rows].
  split_and!; [done| | |].
  - intros Hl. destruct l as [|e l]; [done|].
    assert (E := rows_of_numbered (v_nextId (vw s)) a (e :: l) 0).
    destruct (rows_of _ _) as [|r rs]; [done|]. cbn in E. apply (inj Some) in E. subst r.
    cbn. rewrite to_int32_small by lia. lia.
  - rewrite zlen_map, rows_of_length. unfold number_entries, zlen. by rewrite length_imap.
  - intros i r. rewrite map_lookup, rows_of_numbered. destruct (l !! i) as [e|]; [|done].
    cbn [fmap option_fmap option_map]. intros [= <-].
    destruct (restore_fields (v_bookmarks (vw s)) (row_of (v_nextId (vw s) + Z.of_nat i)
      (set_idx e (Some (a + Z.of_nat i))))) as (_ & H1 & H2).
    rewrite H1, H2. split; [done|]. by exists e.
Qed.

(** ** The viewer *)

(** A viewer without a filter that waits to be sent *)
Definition settled (s : viewer) : Prop :=
  g_readyForFilter (vg s) = true \/ g_pendingFilter (vg s) = None.

Lemma settled_ready s :
  settled s -> snd (setReadyForFilter s) = [] /\ settled (fst (setReadyForFilter s)) /\
  vw (fst (setReadyForFilter s)) = vw s.
Proof.
  unfold settled, setReadyForFilter. intros [Hr|Hp].
  - rewrite Hr. by auto.
  - destruct (g_readyForFilter (vg s)); [by auto|]. rewrite Hp. cbn. by auto.
Qed.

Lemma refresh_anchor_pos total w : 1 <= refresh_anchor total w.
Proof. unfold refresh_anchor. repeat case_match; zcases; lia. Qed.

(** A request to load sets total and version and asks for one page. *)
Lemma refresh_asks t v warm s :
  settled s -> 0 <= t < 2 ^ 31 ->
  exists s1, receive (LogsRefresh (Some t) (Some v) warm) s =
    (s1, [PageRequest (Some (fst (window_range t (refresh_anchor t (vw s)))))
            (Some (snd (window_range t (refresh_anchor t (vw s)))))]) /\
  v_totalRows (vw s1) = t /\ g_sessionVersion (vg s1) = Some v /\
  v_pendingJumpIdx (vw s1) = v_pendingJumpIdx (vw s) /\ v_follow (vw s1) = v_follow (vw s) /\
  settled s1.
Proof.
  intros Hs Ht. cbn [receive]. unfold on_refresh. cbn [or_else].
  set (s3 := mergeProgress _ _).
  assert (H3 : settled s3 /\ g_sessionVersion (vg s3) = Some v /\
    vw s3 = vw (setTotalRows t s)) by (subst s3; by destruct warm).
  clearbody s3. destruct H3 as (H3 & Hv & Hw).
  assert (Hv' : g_sessionVersion (vg (fst (setReadyForFilter s3))) = Some v).
  { unfold setReadyForFilter. by destruct (g_readyForFilter (vg s3)). }
  destruct (settled_ready s3 H3) as (H4 & H5 & H6). destruct (setReadyForFilter s3) as [s4 posts].
  cbn [fst snd] in *. subst posts.
  replace (refresh_anchor t (vw (setWebMemPeriod false s4))) with (refresh_anchor t (vw s))
    by (change (vw (setWebMemPeriod false s4)) with (vw s4); by rewrite H6, Hw).
  destruct (window_range t _) as [a b]. cbn [fst snd].
  eexists. split; [reflexivity|].
  cbn [vw vg setMergeStage setMergeMode with_bar receiveRows with_view v_totalRows v_pendingJumpIdx
    v_follow setWebMemPeriod with_gates g_sessionVersion g_readyForFilter g_pendingFilter].
  rewrite H6, Hw, Hv'. unfold settled in *.
  cbn [vw vg setMergeStage setMergeMode with_bar receiveRows with_view v_totalRows v_pendingJumpIdx
    v_follow setWebMemPeriod with_gates g_sessionVersion g_readyForFilter g_pendingFilter setTotalRows].
  split_and!; try done. unfold nat32. rewrite to_int32_small by lia. lia.
Qed.

(** ** Both *)

Section together.
Context {J : JsonCodec} {JL : JsonLaws} {LS : LineSplitter} {LL : LineSplitterLaws}.
Context `{RE : RegExpEngine}.
Context (lower : str -> str) (fs : str -> dir_state).
Context (prefs : option (viewer_prefs + str)) (save : option (viewer_prefs -> option str)).

(** A page of the current version is shown. *)
Lemma page_shown a b l s v (Hv : g_sessionVersion (vg s) = Some v) :
  1 <= a <= b -> b <= zlen l -> zlen l < 2 ^ 31 -> v_totalRows (vw s) = zlen l ->
  b - a + 1 = Z.min windowSize (zlen l) ->
  let w := vw (on_page (number_entries a (slice l (a - 1) b)) (Some v) s) in
  displays w l /\ forall k, a <= k <= b -> exists r, r ∈ v_rows w /\ lr_idx r = Some k.
Proof.
  intros Ha Hb Hl Ht Hwin. unfold on_page. rewrite Hv, Z.eqb_refl.
  destruct (show_page a (slice l (a - 1) b) s) as (H1 & H2 & H3 & H4); [lia|].
  set (w := vw (show_logs _ s)) in *. cbv zeta.
  assert (Hlen : zlen (slice l (a - 1) b) = b - a + 1).
  { rewrite slice_length by lia. lia. }
  assert (Hst : v_windowStart w = a).
  { apply H2. intros E. rewrite E in Hlen. unfold zlen in Hlen. cbn in Hlen. lia. }
  split; [split|].
  - by rewrite H1.
  - by rewrite H3, Hlen.
  - intros i r Hr. destruct (H4 i r Hr) as (Hi & e & He & Hraw). rewrite Hst. split; [done|].
    exists e. split; [|done]. rewrite slice_lookup_all in He by lia.
    by destruct (Z.of_nat i <? b - (a - 1)).
  - intros k Hk. destruct (v_rows w !! Z.to_nat (k - a)) as [r|] eqn:Er.
    + exists r. split; [by eapply list_elem_of_lookup_2|]. destruct (H4 _ _ Er) as [-> _]. f_equal. lia.
    + apply lookup_ge_None in Er. unfold zlen in H3, Hlen. lia.
Qed.

Lemma refresh_shows f h asc warm s (l := listed lower (h_pag h) asc) :
  serves fs (h_pag h) asc -> asc <> [] -> zlen asc < 2 ^ 31 -> pfilter (h_pag h) = normalizeFilter f ->
  settled s ->
  let '(s1, posts) := receive (LogsRefresh (Some (zlen l)) (Some (version (h_pag h))) warm) s in
  let '(h2, out) := serve_all lower fs prefs save posts h in
  forall s2, vw s2 = vw s1 -> vg s2 = vg s1 ->
  let w := vw (fst (receive_all out s2)) in
  displays w l /\
  forall k, target (vw s) (zlen l) = Some k -> 1 <= k -> exists r, r ∈ v_rows w /\ lr_idx r = Some k.
Proof.
  intros Hsv Hne Hmax Hf Hset. assert (Hl : 0 <= zlen l <= zlen asc).
  { unfold l, listed, zlen. assert (H := length_filter (fun e => matchesFilter lower (pfilter (h_pag h)) e = true) asc). lia. }
  destruct (refresh_asks (zlen l) (version (h_pag h)) warm s Hset ltac:(lia))
    as (s1 & -> & Ht & Hv & Hj & Hfo & _).
  destruct (Z.eq_dec (zlen l) 0) as [E0|E0].
  - assert (El : l = []) by (destruct l; [done|unfold zlen in E0; cbn in E0; lia]).
    rewrite E0. unfold window_range. change windowSize with 208. change (208 / 2) with 104.
    assert (Ha := refresh_anchor_pos 0 (vw s)). cbv zeta.
    replace (Z.min 0 _) with 0 by lia. rewrite (proj2 (Z.ltb_lt _ 208)) by lia.
    change (Z.max 1 (0 - 208 + 1)) with 1. cbn [fst snd serve_all].
    rewrite serve_page by lia. change (number_or (Some 0) 1) with 1.
    rewrite (read_no_match lower fs f h asc) by done. intros s2 E1 E2. rewrite <- E2 in Hv. rewrite <- E1 in Ht. cbn [receive_all receive fst app].
    unfold on_page. rewrite Hv, Z.eqb_refl. rewrite El. split.
    + split; [|done|done]. change (v_totalRows (vw s2) = 0). by rewrite Ht.
    + unfold target. intros k Hk Hk1. repeat case_match; simplify_eq; lia.
  - assert (Hr := window_range_ok (zlen l) (refresh_anchor (zlen l) (vw s)) ltac:(lia) (refresh_anchor_pos _ _)).
    destruct (window_range _ _) as [a b]. cbn [fst snd]. destruct Hr as (Ha & Hb & Hwin & Hanc).
    cbn [serve_all]. rewrite serve_page by lia.
    replace (number_or (Some b) a) with b by (unfold number_or; zcases; lia).
    rewrite (read_listed lower fs f h asc); [|done|done|lia|fold l; lia]. fold l.
    intros s2 E1 E2. rewrite <- E2 in Hv. rewrite <- E1 in Ht. cbn [receive_all receive fst app].
    destruct (page_shown a b l s2 _ Hv) as [H1 H2]; [lia..|done|done|]. split; [done|].
    intros k Hk Hk1. apply H2. unfold target, refresh_anchor in *.
    repeat case_match; simplify_eq; lia.
Qed.
(** The messages that come before a request to load change nothing that matters to it. *)
Lemma quiet_message m s :
  settled s -> match m with LogsBatch _ _ _ _ | LogsState _ _ _ _ => True | _ => False end ->
  snd (receive m s) = [] /\ settled (fst (receive m s)) /\
  forall t, target (vw (fst (receive m s))) t = target (vw s) t.
Proof.
  intros Hs Hm. destruct m; try done; cbn [receive].
  - unfold on_batch. set (s2 := show_logs _ _).
    set (s3 := if negb (v_follow (vw s2)) && nonempty logs then incNewSincePause s2 else s2).
    assert (H3 : settled s3 /\ forall t, target (vw s3) t = target (vw s) t).
    { subst s3 s2. destruct total, version, (_ && _); done. }
    clearbody s3. destruct H3 as [H3 Hg]. destruct (settled_ready s3 H3) as (E1 & E2 & E3).
    destruct (setReadyForFilter s3) as [s4 posts]. cbn [fst snd] in *. split_and!; [done|done|].
    intros t. rewrite <- Hg, <- E3. done.
  - assert (H1 : settled (updateSessionVersion version s)) by (by destruct version).
    destruct (settled_ready _ H1) as (E1 & E2 & E3).
    assert (Hv : vw (updateSessionVersion version s) = vw s) by (by destruct version).
    destruct (setReadyForFilter _) as [s1 posts]. cbn [fst snd] in *. rewrite Hv in E3.
    split_and!; [done|by destruct total|]. intros t. rewrite <- E3. by destruct total.
Qed.

(** What the user's filter means *)
Lemma user_filter_norm f :
  exists a, flushFilter (normalize_fields f) = FilterSet a /\
    normalizeFilter a = if isEmptyFilter f then None else Some (normalize_fields f).
Proof.
  eexists. split; [reflexivity|]. unfold isEmptyFilter, normalize_fields. cbn [f_pid f_src f_proc f_msg].
  rewrite !trim_trim.
  destruct (negb _ && _ && _ && _) eqn:E; [done|].
  unfold normalizeFilter, filter_payload. cbn [f_pid f_src f_proc f_msg fa_pid fa_src fa_proc fa_msg
    mbind option_bind or_else]. rewrite !trim_trim.
  destruct (nonempty (trim (f_pid f))), (nonempty (trim (f_src f))), (nonempty (trim (f_proc f))),
    (nonempty (trim (f_msg f))); done.
Qed.

(** A round that ends with a request to load *)
Lemma round_shows f h1 asc pre warm s (l := listed lower (h_pag h1) asc) :
  Forall (fun m => match m with LogsBatch _ _ _ _ | LogsState _ _ _ _ => True | _ => False end) pre ->
  serves fs (h_pag h1) asc -> asc <> [] -> zlen asc < 2 ^ 31 -> pfilter (h_pag h1) = normalizeFilter f ->
  settled s ->
  let '(s1, posts) := receive_all (pre ++ [LogsRefresh (Some (zlen l)) (Some (version (h_pag h1))) warm]) s in
  let '(h2, out) := serve_all lower fs prefs save posts h1 in
  let w := vw (fst (receive_all out s1)) in
  displays w l /\
  forall k, target (vw s) (zlen l) = Some k -> 1 <= k -> exists r, r ∈ v_rows w /\ lr_idx r = Some k.
Proof.
  intros Hpre Hsv Hne Hmax Hf. revert s. induction Hpre as [|m pre Hm _ IH]; intros s Hs; cbn [app receive_all].
  - assert (H := refresh_shows f h1 asc warm s Hsv Hne Hmax Hf Hs). fold l in H.
    destruct (receive _ s) as [s1 posts]. rewrite app_nil_r.
    destruct (serve_all _ _ _ _ posts h1). by apply H.
  - destruct (quiet_message m s Hs Hm) as (E1 & E2 & E3). destruct (receive m s) as [s1 out1].
    cbn [fst snd] in *. subst out1. specialize (IH s1 E2). rewrite E3 in IH.
    destruct (receive_all _ s1). exact IH.
Qed.

(** C3: From a filter in the form to the screen.  In every state the service can reach, when
    the user applies a filter and the messages go back and forth, the viewer then shows
    exactly the entries that match the trimmed fields: the total is their number, the rows
    are a full window of them (or all of them), each row with the number and the text of
    its entry, and the newest match is among the rows while the view follows, or the row
    jumped to while a jump is pending. *)
Theorem user_filter_shows fl h s asc f :
  reachable lower (Sys fs (h_pag h) fl) -> serves fs (h_pag h) asc -> asc <> [] -> zlen asc < 2 ^ 31 ->
  (warmActive (h_pag h) = true -> getWarmTotal (h_pag h) = zlen asc) ->
  g_readyForFilter (vg s) = true ->
  let l := filter (fun e => matchesFilter lower
             (if isEmptyFilter f then None else Some (normalize_fields f)) e = true) asc in
  let '(s0, posts) := applyFilter f s in
  let w := vw (snd (round lower fs prefs save posts h s0)) in
  displays w l /\
  forall k, target (vw s) (zlen l) = Some k -> 1 <= k -> exists r, r ∈ v_rows w /\ lr_idx r = Some k.
Proof.
  intros Hre Hsv Hne Hmax Hwt Hready l. unfold applyFilter, postFilterUpdate.
  change (vg (set_filter f s)) with (vg s). rewrite Hready.
  destruct (user_filter_norm f) as (a & -> & Hn).
  set (s0 := set_filter f s). unfold round. cbn [serve_all].
  destruct (serve_filter lower fs prefs save a None h) as (h1 & head & -> & Hview & Hver).
  rewrite app_nil_r. set (p := setFilter a (h_pag h)) in *.
  assert (Hre1 : reachable lower (Sys fs p fl)).
  { eapply PaginationCache.reach_step; [exact Hre|]. apply step_op, op_filter. }
  assert (Hsvp : serves fs p asc) by (unfold p, setFilter; by case_bool_decide).
  assert (Hfp : pfilter p = normalizeFilter a) by apply setFilter_filter.
  assert (Hsv1 : serves fs (h_pag h1) asc) by (by apply (serves_view fs (h_pag h1) p)).
  assert (Hf1 : pfilter (h_pag h1) = normalizeFilter a) by (by rewrite (view_filter _ _ Hview)).
  assert (Hl : listed lower (h_pag h1) asc = l) by (unfold listed; by rewrite Hf1, Hn).
  rewrite (total_listed lower fs a p asc); [|apply (si_cache _ _ (reachable_inv _ _ Hre1))|done|done|].
  2:{ unfold p, setFilter. by case_bool_decide. }
  assert (Hlp : listed lower p asc = l) by (unfold listed; by rewrite Hfp, Hn).
  rewrite Hlp, <- Hver.
  assert (H := round_shows a h1 asc [LogsBatch head (Some (zlen l)) (Some (b_seq h + 1)) (Some (version (h_pag h1)));
    LogsState (warmActive (h_pag h)) (Some (zlen l)) (Some (version (h_pag h1))) (manifestDir p)]
    (warmActive (h_pag h)) s0 ltac:(by repeat constructor) Hsv1 Hne Hmax Hf1 ltac:(by left)).
  rewrite Hl in H. cbn [app] in H. destruct (receive_all _ s0) as [s1 posts].
  destruct (serve_all _ _ _ _ posts h1) as [h2 out]. exact H.
Qed.

(** Opening the viewer on finished data.  A viewer that says it is ready to a host that has
    not loaded one yet, with a store or a warm-up buffer, then shows what the service shows,
    from the newest entry back. *)
Theorem viewer_ready_shows fl h s asc f :
  reachable lower (Sys fs (h_pag h) fl) -> serves fs (h_pag h) asc -> asc <> [] -> zlen asc < 2 ^ 31 ->
  (warmActive (h_pag h) = true -> getWarmTotal (h_pag h) = zlen asc) ->
  pfilter (h_pag h) = normalizeFilter f -> settled s -> b_kickedOnce h = false ->
  (warmActive (h_pag h) || match manifestDir (h_pag h) with Some d => nonempty d | None => false end) = true ->
  let l := listed lower (h_pag h) asc in
  let w := vw (snd (round lower fs prefs save [ViewerReady] h s)) in
  displays w l /\
  forall k, target (vw s) (zlen l) = Some k -> 1 <= k -> exists r, r ∈ v_rows w /\ lr_idx r = Some k.
Proof.
  intros Hre Hsv Hne Hmax Hwt Hf Hs Hk Hd l. unfold round. cbn [serve_all].
  destruct (serve_ready lower fs prefs save None h Hk Hd) as (h1 & -> & Hview & Hver).
  rewrite app_nil_r.
  rewrite (total_listed lower fs f (h_pag h) asc); [|apply (si_cache _ _ (reachable_inv _ _ Hre))|done..].
  fold l. assert (Hsv1 : serves fs (h_pag h1) asc) by (by apply (serves_view fs (h_pag h1) (h_pag h))).
  assert (Hf1 := view_filter _ _ Hview).
  assert (Hl : listed lower (h_pag h1) asc = l) by (unfold listed; by rewrite Hf1).
  rewrite <- Hver.
  assert (H := round_shows f h1 asc [LogsState (warmActive (h_pag h)) (Some (zlen l))
    (Some (version (h_pag h1))) (manifestDir (h_pag h))] (warmActive (h_pag h)) s
    ltac:(by repeat constructor) Hsv1 Hne Hmax ltac:(congruence) Hs).
  rewrite Hl in H. cbn [app] in H. destruct (receive_all _ s) as [s1 posts].
  destruct (serve_all _ _ _ _ posts h1) as [h2 out]. exact H.
Qed.
End together.


(** ** Examples *)

Definition ready_viewer : viewer := fst (setReadyForFilter viewer_init).

Lemma counted_serves : serves sample_disk counted_service three_entries.
Proof.
  unfold counted_service. rewrite sample_service_reader.
  exists (js "/out", sample_manifest), [plain_entry 3; plain_entry 2; plain_entry 1].
  split_and!; [done|exact sample_store|done].
Qed.

Lemma user_filter_shows_witness :
  let '(v, posts) := applyFilter (only (js " 2 ")) ready_viewer in
  let w := vw (snd (round (RE := no_engine) ascii_lower sample_disk None None posts
                     (host_init counted_service) v)) in
  displays w [plain_entry 2] /\ exists r, r ∈ v_rows w /\ lr_idx r = Some 1.
Proof.
  assert (H := user_filter_shows (RE := no_engine) ascii_lower sample_disk None None []
    (host_init counted_service) ready_viewer three_entries (only (js " 2 ")) counted_reachable
    counted_serves ltac:(done) ltac:(by vm_compute) ltac:(by cbn) eq_refl).
  cbv zeta in H. replace (filter _ three_entries) with [plain_entry 2] in H by (by vm_compute).
  destruct (applyFilter _ ready_viewer) as [v posts]. destruct H as [H1 H2].
  split; [exact H1|]. by apply H2.
Defined.

Lemma viewer_ready_shows_witness :
  let w := vw (snd (round (RE := no_engine) ascii_lower sample_disk None None [ViewerReady]
                     (host_init counted_service) (fst (setupIpc viewer_init)))) in
  displays w [plain_entry 1; plain_entry 3] /\ exists r, r ∈ v_rows w /\ lr_idx r = Some 2.
Proof.
  assert (Hp : counted_service = counted_service) by done. unfold counted_service in Hp at 2.
  rewrite sample_service_reader in Hp.
  assert (H := viewer_ready_shows (RE := no_engine) ascii_lower sample_disk None None []
    (host_init counted_service) (fst (setupIpc viewer_init)) three_entries
    (Some (FilterArg None None None (Some (js "3 , 1")))) counted_reachable
    counted_serves ltac:(done) ltac:(by vm_compute) ltac:(by cbn) ltac:(by rewrite Hp)
    ltac:(by right) eq_refl ltac:(by rewrite Hp)).
  cbv zeta in H. replace (listed _ _ _) with [plain_entry 1; plain_entry 3] in H.
  - destruct H as [H1 H2]. split; [exact H1|]. by apply H2.
  - rewrite Hp. by vm_compute.
Defined.


(** *** A page that comes too late *)

(** A page is read, the user sets a filter, and the answer to the page leaves after it *)
Definition late_page (h : host) (v : viewer) (f : log_filter) : viewer :=
  let '(h1, _, k) := start (RE := no_engine) ascii_lower sample_disk None None
                       (PageRequest (Some 1) (Some 3)) None h in
  let '(v1, posts) := applyFilter f v in
  let '(h2, out1) := serve_all (RE := no_engine) ascii_lower sample_disk None None posts h1 in
  let '(v2, posts2) := receive_all out1 v1 in
  let '(h3, out2) := serve_all (RE := no_engine) ascii_lower sample_disk None None posts2 h2 in
  let '(v3, _) := receive_all out2 v2 in
  let '(h4, out3) := finish ascii_lower sample_disk 3 k h3 in
  fst (receive_all out3 v3).

(** The version of a page is read after its rows ([await] in between), so rows of the list
    without the filter carry the version of the filter and are shown: the viewer has one row
    by its total, and shows the three rows of the old list. *)
Example late_page_shown :
  let w := vw (late_page (host_init sample_service) ready_viewer (only (js "2"))) in
  v_totalRows w = 1 /\ map lr_raw (v_rows w) = [js "1"; js "2"; js "3"].
Proof. rewrite sample_service_reader. vm_compute. by split. Qed.

(** *** Bookmarks and filters *)

(** A bookmark is kept by the number of its row, and the number counts the matches of the
    filter: the bookmark set on the text 2 under a filter is on the text 1 without it. *)
Example bookmark_moves :
  let v1 := fst (receive (PageResponse 1 1 (number_entries 1 [plain_entry 2]) None) ready_viewer) in
  let v2 := toggleBookmarkByIdx 1 v1 in
  let v3 := fst (receive (PageResponse 1 3 (number_entries 1 three_entries) None) v2) in
  map (fun r => (lr_raw r, lr_bookmarked r)) (v_rows (vw v2)) = [(js "2", true)] /\
  map (fun r => (lr_raw r, lr_bookmarked r)) (v_rows (vw v3)) =
    [(js "1", true); (js "2", false); (js "3", false)].
Proof. vm_compute. by split. Qed.
