(* ===== verification/UiBridge.v ===== *)
(** * Requests of a web view

    [makeBridge] of src/extension/messaging/bridge.ts: requests that wait for an answer of
    the host, a newer request, a timeout or the end of the view.  The state is what the
    closure keeps; [br_settled] lists the promises that were settled, in order.  The
    profiler around the handlers is left out. *)

From stdpp Require Import base list strings gmap.
From Stdlib Require Import ZArith Lia.
From S2P Require Import Prelude JsString Json.

(** How a promise ends *)
Inductive settlement :=
| Resolved (payload : json)
| Rejected (payload : json)
| Superseded
| TimedOut
| Unloaded.

(** A value of [pend]; its timer is identified by the request. *)
Record Pending := Waiting { pd_abortKey : option str; pd_timeoutMs : Z }.

Record bridge := Bridge {
  br_seq : Z;
  br_pend : list (str * Pending);          (* a [Map], in the order of insertion *)
  br_byAbortKey : gmap str str;
  br_settled : list (str * settlement);
  br_posted : list (option str * str * json * option str);  (* id, type, payload, abortKey *)
}.

Definition bridge_init : bridge := Bridge 0 [] ∅ [] [].

Definition DEFAULT_TIMEOUT_MS : Z := 15000.

(** [pend.get(id)] *)
Definition pend_get (id : str) (l : list (str * Pending)) : option Pending :=
  snd <$> List.find (fun x => bool_decide (fst x = id)) l.

(** [pend.delete(id)] *)
Definition pend_delete (id : str) (l : list (str * Pending)) : list (str * Pending) :=
  filter (fun x => fst x <> id) l.

(** [cleanupPending] *)
Definition cleanupPending (id : str) (b : bridge) : bridge :=
  match pend_get id (br_pend b) with
  | None => b
  | Some p =>
      let byKey := match pd_abortKey p with
                   | Some k => if nonempty k && bool_decide (br_byAbortKey b !! k = Some id)
                               then delete k (br_byAbortKey b) else br_byAbortKey b
                   | None => br_byAbortKey b
                   end in
      Bridge (br_seq b) (pend_delete id (br_pend b)) byKey (br_settled b) (br_posted b)
  end.

(** Settle the promise of a request and clean up, when it is still waiting. *)
Definition settle (id : str) (r : settlement) (b : bridge) : bridge :=
  match pend_get id (br_pend b) with
  | None => b
  | Some _ =>
      cleanupPending id (Bridge (br_seq b) (br_pend b) (br_byAbortKey b)
        (br_settled b ++ [(id, r)]) (br_posted b))
  end.

(** The listener of messages; an empty [inReplyTo] counts as none. *)
Inductive answer := AnswerAck (inReplyTo : str) (payload : json) | AnswerError (inReplyTo : str) (payload : json).

Definition on_message (a : answer) (b : bridge) : bridge :=
  match a with
  | AnswerError id payload => if nonempty id then settle id (Rejected payload) b else b
  | AnswerAck id payload => if nonempty id then settle id (Resolved payload) b else b
  end.

(** The listener of the unload event *)
Definition unload (b : bridge) : bridge :=
  foldl (fun b x => settle (fst x) Unloaded b) b (br_pend b).

Definition post (type : str) (payload : json) (abortKey : option str) (b : bridge) : bridge :=
  Bridge (br_seq b) (br_pend b) (br_byAbortKey b) (br_settled b)
    (br_posted b ++ [(None, type, payload, abortKey)]).

(** [`req_${Date.now()}_${++seq}`] *)
Definition request_id (now seq : Z) : str := js "req_" ++ print_int now ++ 95 :: print_int seq.

(** [payload.__timeoutMs] of an object *)
Definition timeout_of (payload : json) : Z :=
  match payload with
  | JObj fields =>
      match List.find (fun x => bool_decide (fst x = js "__timeoutMs")) fields with
      | Some (_, JNum n) => if 0 <? n then n else DEFAULT_TIMEOUT_MS
      | _ => DEFAULT_TIMEOUT_MS
      end
  | _ => DEFAULT_TIMEOUT_MS
  end.

(** [request] *)
Definition request (now : Z) (type : str) (payload : json) (abortKey : option str) (b : bridge) : bridge :=
  let seq := br_seq b + 1 in
  let id := request_id now seq in
  let b1 := Bridge seq (br_pend b) (br_byAbortKey b) (br_settled b) (br_posted b) in
  let b2 := match abortKey with
            | Some k =>
                if nonempty k then
                  let b' := match br_byAbortKey b1 !! k with
                            | Some prev => settle prev Superseded b1
                            | None => b1
                            end in
                  Bridge (br_seq b') (br_pend b') (<[k := id]> (br_byAbortKey b')) (br_settled b')
                    (br_posted b')
                else b1
            | None => b1
            end in
  Bridge (br_seq b2) (br_pend b2 ++ [(id, Waiting abortKey (timeout_of payload))])
    (br_byAbortKey b2) (br_settled b2) (br_posted b2 ++ [(Some id, type, payload, abortKey)]).

(** The timer of a request *)
Definition timeout (id : str) (b : bridge) : bridge := settle id TimedOut b.

(** Everything that can happen *)
Inductive bridge_step : bridge -> bridge -> Prop :=
| step_post type payload key b : bridge_step b (post type payload key b)
| step_request now type payload key b : bridge_step b (request now type payload key b)
| step_message a b : bridge_step b (on_message a b)
| step_timeout id b : bridge_step b (timeout id b)
| step_unload b : bridge_step b (unload b).

(** ** Ids *)

Lemma request_id_inj n1 s1 n2 s2 : request_id n1 s1 = request_id n2 s2 -> s1 = s2.
Proof.
  unfold request_id. intros E. apply app_inv_head in E. apply (f_equal (split_on 95)) in E.
  rewrite !split_on_app_sep in E.
  assert (H : forall n, split_on 95 (print_int n) = [print_int n]).
  { intros n. by apply split_on_none, print_int_avoids. }
  rewrite !H in E. injection E as _ E. by apply print_int_inj.
Qed.

(** ** Every promise is settled once *)

(** The ids of the requests that were sent *)
Definition issued (b : bridge) : list str := omap (fun x => fst (fst (fst x))) (br_posted b).

Record bridge_ok (b : bridge) : Prop := {
  bo_issued : issued b ≡ₚ map fst (br_pend b) ++ map fst (br_settled b);
  bo_nodup : NoDup (issued b);
  bo_ids : Forall (fun id => exists now s, id = request_id now s /\ s <= br_seq b) (issued b);
  bo_keys : forall k id, br_byAbortKey b !! k = Some id <->
              nonempty k = true /\ exists t, (id, Waiting (Some k) t) ∈ br_pend b;
}.

Lemma pend_get_Some id l p : NoDup (map fst l) -> pend_get id l = Some p <-> (id, p) ∈ l.
Proof.
  intros Hnd. unfold pend_get. split.
  - intros E. destruct (List.find _ l) as [[i q]|] eqn:Ef; [|done]. cbn in E. simplify_eq.
    apply find_some in Ef as [Hin He]. apply bool_decide_eq_true in He. cbn in He. subst.
    by apply list_elem_of_In.
  - intros Hin. induction l as [|[i q] l IH]; [by apply elem_of_nil in Hin|].
    cbn [map] in Hnd. apply NoDup_cons in Hnd as [Hni Hnd]. cbn [List.find fst].
    case_bool_decide as Ei.
    + subst. apply elem_of_cons in Hin as [[= ->]|Hin]; [done|].
      exfalso. apply Hni. apply list_elem_of_fmap. by exists (id, p).
    + apply elem_of_cons in Hin as [[= -> ->]|Hin]; [done|]. by apply IH.
Qed.

Lemma pend_get_None id l : pend_get id l = None -> id ∉ map fst l.
Proof.
  unfold pend_get. intros E Hin. apply list_elem_of_fmap in Hin as ([i q] & -> & Hin).
  destruct (List.find _ l) as [x|] eqn:Ef; [done|].
  apply list_elem_of_In, (find_none _ _ Ef) in Hin. by rewrite bool_decide_eq_true_2 in Hin.
Qed.

Lemma pend_delete_perm id p l :
  NoDup (map fst l) -> (id, p) ∈ l -> l ≡ₚ (id, p) :: pend_delete id l.
Proof.
  intros Hnd Hin. apply elem_of_Permutation in Hin as [k Hk]. rewrite Hk at 1. constructor.
  rewrite Hk in Hnd. cbn [map] in Hnd. apply NoDup_cons in Hnd as [Hni _].
  unfold pend_delete. rewrite Hk, filter_cons_False by (cbn; by intros H).
  symmetry. rewrite filter_all; [done|]. apply Forall_forall. intros x Hx Ei.
  apply Hni. apply list_elem_of_fmap. by exists x.
Qed.

Lemma ok_pend_nodup b : bridge_ok b -> NoDup (map fst (br_pend b)).
Proof. intros [H1 H2 _ _]. rewrite H1 in H2. by apply NoDup_app in H2 as [? _]. Qed.

Lemma settle_ok id r b : bridge_ok b -> bridge_ok (settle id r b).
Proof.
  intros Hok. assert (Hnd := ok_pend_nodup b Hok). destruct Hok as [H1 H2 H3 H4].
  unfold settle, cleanupPending. cbn [br_pend br_byAbortKey br_seq br_settled br_posted].
  destruct (pend_get id (br_pend b)) as [p|] eqn:Ep; [|by split].
  apply pend_get_Some in Ep; [|done]. assert (Hp := Permutation_map fst (pend_delete_perm id p _ Hnd Ep)).
  split; unfold issued in *; cbn [br_pend br_byAbortKey br_seq br_settled br_posted].
  - rewrite H1, Hp, map_app. cbn [map fst]. by rewrite app_assoc, <- Permutation_cons_append.
  - done.
  - done.
  - intros k i.
    assert (Hsub : forall t, (i, Waiting (Some k) t) ∈ pend_delete id (br_pend b) <->
      (i, Waiting (Some k) t) ∈ br_pend b /\ i <> id).
    { intros t. unfold pend_delete. rewrite list_elem_of_filter. cbn. tauto. }
    setoid_rewrite Hsub. destruct p as [[kp|] tp]; cbn [pd_abortKey].
    + destruct (nonempty kp && bool_decide (br_byAbortKey b !! kp = Some id)) eqn:Eb.
      * apply andb_prop in Eb as [Ek Eb]. apply bool_decide_eq_true in Eb. rewrite lookup_delete_Some, H4.
        split.
        -- intros [Hk (Hne & t & Ht)]. split; [done|]. exists t. split; [done|]. intros ->.
           apply Hk. apply (pend_get_Some id _ _ Hnd) in Ht. apply (pend_get_Some id _ _ Hnd) in Ep. congruence.
        -- intros (Hne & t & Ht & Hi). split; [|eauto]. intros ->.
           assert (Hk : br_byAbortKey b !! k = Some i) by (apply H4; eauto). congruence.
      * rewrite H4. split; [|intros (? & t & ? & ?); eauto].
        intros (Hne & t & Ht). split; [done|]. exists t. split; [done|]. intros ->.
        apply (pend_get_Some id _ _ Hnd) in Ht. apply (pend_get_Some id _ _ Hnd) in Ep.
        assert (kp = k) as -> by congruence. rewrite Hne in Eb. cbn in Eb.
        apply bool_decide_eq_false in Eb. apply Eb, H4. split; [done|]. exists tp.
        by apply (pend_get_Some id _ _ Hnd).
    + rewrite H4. split; [|intros (? & t & ? & ?); eauto].
      intros (Hne & t & Ht). split; [done|]. exists t. split; [done|]. intros ->.
      apply (pend_get_Some id _ _ Hnd) in Ht. apply (pend_get_Some id _ _ Hnd) in Ep. congruence.
Qed.

(** A new request joins those that wait. *)
Lemma add_pending_ok now type payload key byKey b (id := request_id now (br_seq b)) :
  bridge_ok b -> id ∉ issued b ->
  (forall k i, byKey !! k = Some i <-> nonempty k = true /\
     exists t, (i, Waiting (Some k) t) ∈ br_pend b ++ [(id, Waiting key (timeout_of payload))]) ->
  bridge_ok (Bridge (br_seq b) (br_pend b ++ [(id, Waiting key (timeout_of payload))]) byKey
    (br_settled b) (br_posted b ++ [(Some id, type, payload, key)])).
Proof.
  intros [G1 G2 G3 _] Hni Hk.
  set (b' := Bridge _ _ _ _ _). assert (Hi : issued b' = issued b ++ [id])
    by (unfold b', issued; cbn; by rewrite omap_app).
  split; rewrite ?Hi; cbn [b' br_pend br_settled br_seq br_byAbortKey].
  - rewrite G1, map_app. cbn. rewrite <- !app_assoc. apply Permutation_app_head.
    by rewrite <- Permutation_cons_append.
  - apply NoDup_app. split_and!; [done| |apply NoDup_singleton]. intros x Hx ->%list_elem_of_singleton. done.
  - apply Forall_app. split; [done|]. constructor; [|constructor]. by exists now, (br_seq b).
  - exact Hk.
Qed.

Lemma settle_frame id r b :
  br_posted (settle id r b) = br_posted b /\ br_seq (settle id r b) = br_seq b.
Proof.
  unfold settle, cleanupPending. destruct (pend_get id (br_pend b)) eqn:E; [|done].
  cbn [br_pend]. by rewrite E.
Qed.

Lemma settle_pend id r b x :
  NoDup (map fst (br_pend b)) -> id ∈ map fst (br_pend b) ->
  x ∈ br_pend (settle id r b) -> x ∈ br_pend b /\ fst x <> id.
Proof.
  intros Hnd Hid Hx. apply list_elem_of_fmap in Hid as ([i p] & -> & Hp). cbn [fst] in *.
  apply (pend_get_Some i _ _ Hnd) in Hp. unfold settle, cleanupPending in Hx.
  rewrite Hp in Hx. cbn [br_pend] in Hx. rewrite Hp in Hx. cbn [br_pend] in Hx.
  unfold pend_delete in Hx. apply list_elem_of_filter in Hx as [? ?]. done.
Qed.

(** The request of the same key no longer waits when a new one comes. *)
Lemma supersede_free k b t i :
  bridge_ok b -> nonempty k = true ->
  (i, Waiting (Some k) t) ∉ br_pend (match br_byAbortKey b !! k with
                                     | Some prev => settle prev Superseded b | None => b end).
Proof.
  intros Hok Hk. destruct (br_byAbortKey b !! k) as [prev|] eqn:Epr; intros Hin.
  - destruct (proj1 (bo_keys b Hok k prev) Epr) as (_ & t0 & Ht0).
    apply settle_pend in Hin as [Hi Hne]; [|by apply ok_pend_nodup|apply list_elem_of_fmap; by eexists (_, _)].
    assert (br_byAbortKey b !! k = Some i) by (apply (bo_keys b Hok); eauto). cbn in Hne. congruence.
  - assert (br_byAbortKey b !! k = Some i) by (apply (bo_keys b Hok); eauto). congruence.
Qed.

Lemma request_ok now type payload key b : bridge_ok b -> bridge_ok (request now type payload key b).
Proof.
  intros Hok. unfold request. set (b1 := Bridge (br_seq b + 1) _ _ _ _).
  assert (H1 : bridge_ok b1).
  { destruct Hok as [H1 H2 H3 H4]. split; [done|done| |done]. eapply Forall_impl; [exact H3|].
    intros i (n & s & -> & Hs). exists n, s. split; [done|]. cbn. lia. }
  assert (Hnew : forall b', br_posted b' = br_posted b1 -> request_id now (br_seq b + 1) ∉ issued b').
  { intros b' Hp Hin. unfold issued in Hin. rewrite Hp in Hin. destruct Hok as [_ _ H3 _].
    rewrite Forall_forall in H3. destruct (H3 _ Hin) as (n & s & Heq & Hs). apply request_id_inj in Heq. lia. }
  assert (Hplain : match key with Some k => nonempty k = false | None => True end ->
    bridge_ok (Bridge (br_seq b1) (br_pend b1 ++ [(request_id now (br_seq b + 1), Waiting key (timeout_of payload))])
      (br_byAbortKey b1) (br_settled b1) (br_posted b1 ++ [(Some (request_id now (br_seq b + 1)), type, payload, key)]))).
  { intros Hkey. apply add_pending_ok; [done|by apply Hnew|]. intros k i. rewrite (bo_keys b1 H1).
    setoid_rewrite elem_of_app. setoid_rewrite list_elem_of_singleton. split; [intros (? & t & ?); eauto|].
    intros (Hne & t & [Ht|[= _ Ekey _]]); [eauto|]. rewrite <- Ekey in Hkey. congruence. }
  destruct key as [k|]; [destruct (nonempty k) eqn:Ek|]; [|by apply Hplain..].
  assert (Hfree := fun t i => supersede_free k b1 t i H1 Ek).
  set (b' := match br_byAbortKey b1 !! k with Some prev => _ | None => _ end) in *.
  assert (Hb' : bridge_ok b' /\ br_posted b' = br_posted b1 /\ br_seq b' = br_seq b1).
  { subst b'. destruct (br_byAbortKey b1 !! k); [|done]. split; [by apply settle_ok|apply settle_frame]. }
  clearbody b'. destruct Hb' as (Hb & Hp & Hq). cbn [br_seq br_pend br_byAbortKey br_settled br_posted].
  change (br_seq b + 1) with (br_seq b1). rewrite <- Hq. apply add_pending_ok; [done|rewrite Hq; by apply Hnew|].
  intros k' i. rewrite lookup_insert_Some, (bo_keys b' Hb).
  setoid_rewrite elem_of_app. setoid_rewrite list_elem_of_singleton. split.
  - intros [[-> ->]|[Hk (Hne & t & Ht)]]; (split; [done|]; eauto).
  - intros (Hne & t & [Ht|[= -> <- _]]); [|by left]. right. split; [|eauto]. intros ->. by apply Hfree in Ht.
Qed.

Lemma unload_ok_all (l : list (str * Pending)) b : bridge_ok b -> bridge_ok (foldl (fun b x => settle (fst x) Unloaded b) b l).
Proof. revert b. induction l as [|x l IH]; intros b Hb; [done|]. cbn. by apply IH, settle_ok. Qed.

Lemma reachable_ok b : rtc bridge_step bridge_init b -> bridge_ok b.
Proof.
  intros Hr. assert (Hi : bridge_ok bridge_init).
  { split; cbn; [done|constructor|constructor|]. intros k id. rewrite lookup_empty. split; [done|].
    by intros (_ & t & ?%elem_of_nil). }
  revert Hi. induction Hr as [b|b1 b2 b3 Hs _ IH]; [done|]. intros Hi. apply IH. clear IH.
  destruct Hs as [type payload key b|now type payload key b|[id pl|id pl] b|id b|b].
  - destruct Hi as [H1 H2 H3 H4]. unfold post. split; unfold issued in *; cbn; [..|done];
      by rewrite omap_app, app_nil_r.
  - by apply request_ok.
  - cbn. destruct (nonempty id); [by apply settle_ok|done].
  - cbn. destruct (nonempty id); [by apply settle_ok|done].
  - by apply settle_ok.
  - by apply unload_ok_all.
Qed.

(** C13: Every request ends once: whatever answers, timeouts, newer requests and unloads come in
    whatever order, the requests that were sent are exactly those that still wait together
    with those that were settled, and no request is in both or settled twice. *)
Theorem settled_exactly_once b :
  rtc bridge_step bridge_init b ->
  issued b ≡ₚ map fst (br_pend b) ++ map fst (br_settled b) /\
  NoDup (map fst (br_pend b) ++ map fst (br_settled b)).
Proof. intros Hok%reachable_ok. destruct Hok as [H1 H2 _ _]. split; [done|]. by rewrite <- H1. Qed.

(** At most one request waits for each abort key, and the key leads to it. *)
Theorem one_waiting_per_key b k id1 t1 id2 t2 :
  rtc bridge_step bridge_init b -> nonempty k = true ->
  (id1, Waiting (Some k) t1) ∈ br_pend b -> (id2, Waiting (Some k) t2) ∈ br_pend b -> id1 = id2.
Proof.
  intros Hok%reachable_ok Hk H1 H2.
  assert (br_byAbortKey b !! k = Some id1) by (apply (bo_keys b Hok); eauto).
  assert (br_byAbortKey b !! k = Some id2) by (apply (bo_keys b Hok); eauto). congruence.
Qed.

(** When the view goes away, every request that waits is rejected. *)
Theorem unload_settles_all b :
  rtc bridge_step bridge_init b ->
  br_pend (unload b) = [] /\
  br_settled (unload b) = br_settled b ++ map (fun x => (fst x, Unloaded)) (br_pend b).
Proof.
  intros Hok%reachable_ok. apply ok_pend_nodup in Hok. unfold unload.
  remember (br_pend b) as l eqn:El. revert b El. induction l as [|[id p] l IH]; intros b El.
  - cbn. by rewrite app_nil_r.
  - cbn [foldl map fst]. apply NoDup_cons in Hok as [Hni Hnd].
    assert (Eg : pend_get id ((id, p) :: l) = Some p) by (unfold pend_get; cbn; by rewrite bool_decide_eq_true_2).
    assert (Es : br_pend (settle id Unloaded b) = l /\ br_settled (settle id Unloaded b) = br_settled b ++ [(id, Unloaded)]).
    { unfold settle, cleanupPending. rewrite <- El, Eg. cbn [br_pend br_settled]. rewrite Eg. cbn [br_pend br_settled].
      split; [|done]. unfold pend_delete. rewrite filter_cons_False by (cbn; tauto).
      apply filter_all. apply Forall_forall. intros x Hx E. apply Hni. apply list_elem_of_fmap. by exists x. }
    destruct Es as [E1 E2]. destruct (IH Hnd (settle id Unloaded b)) as [H1 H2]; [done|].
    split; [done|]. rewrite H2, E2. by rewrite <- app_assoc.
Qed.

(** ** Examples *)

(** Two searches with one key, a third request, an answer, a timeout *)
Definition busy_bridge : bridge :=
  timeout (request_id 7 3)
    (on_message (AnswerAck (request_id 6 2) JNull)
      (request 7 (js "c") JNull None
        (request 6 (js "b") JNull (Some (js "k")) (request 5 (js "a") JNull (Some (js "k")) bridge_init)))).

Lemma busy_reachable : rtc bridge_step bridge_init busy_bridge.
Proof. repeat (eapply rtc_r; [|constructor]). apply rtc_refl. Qed.

Lemma settled_exactly_once_witness :
  br_settled busy_bridge =
    [(request_id 5 1, Superseded); (request_id 6 2, Resolved JNull); (request_id 7 3, TimedOut)] /\
  NoDup (map fst (br_pend busy_bridge) ++ map fst (br_settled busy_bridge)).
Proof. split; [by vm_compute|]. apply (settled_exactly_once busy_bridge busy_reachable). Defined.

Lemma one_waiting_per_key_witness :
  let b := request 6 (js "b") JNull (Some (js "k")) (request 5 (js "a") JNull (Some (js "k")) bridge_init) in
  forall id, (id, Waiting (Some (js "k")) 15000) ∈ br_pend b -> id = request_id 6 2.
Proof.
  intros b id H. apply (one_waiting_per_key b (js "k") id 15000 (request_id 6 2) 15000);
    [|reflexivity|exact H|].
  - repeat (eapply rtc_r; [|constructor]). apply rtc_refl.
  - vm_compute. left.
Defined.

Lemma unload_settles_all_witness :
  let b := request 5 (js "a") JNull None bridge_init in
  br_settled (unload b) = [(request_id 5 1, Unloaded)].
Proof.
  intros b. destruct (unload_settles_all b) as [_ H]; [|exact H].
  eapply rtc_r; [apply rtc_refl|constructor].
Defined.
