(* ===== verification/Realtime.v ===== *)
(** * Realtime sessions

    [startRealtimeSession] of src/core/sessions/LogSessionManager.ts: lines of a device are
    collected and, on a timer, appended to the part files, the manifest and the pages.  The
    store of the session is that of [Session]; a flush runs to its end before the next one.
    Connecting and the command that is streamed are not modelled: the lines are inputs.  A
    line has neither file nor path; they are empty texts here. *)

From stdpp Require Import base list sorting strings gmap.
From Stdlib Require Import ZArith Lia.
From S2P Require Import Prelude JsString Regex TimeParser LogEntry Json ParserEngine Manifest.
From S2P Require Import ChunkWriter PagedReader LogFilter Pagination PaginationSpec PaginationCache.
From S2P Require Import Session SessionSpec Messages HostBridge Viewer.

Record realtime := Realtime {
  rt_s : session;               (* store, pages and callbacks *)
  rt_pending : list LogEntry;
  rt_timer : bool;              (* [rtFlushTimer] is set *)
}.

(** [readBooleanEnv] on the value of the variable *)
Definition readBooleanEnv (lower : str -> str) (v : option str) (fallback : bool) : bool :=
  match v with
  | None => fallback
  | Some v => let s := lower (trim v) in
              bool_decide (s = js "1") || bool_decide (s = js "true") || bool_decide (s = js "yes") ||
              bool_decide (s = js "on")
  end.

(** [prepareCleanOutputDir]: a directory that already has a manifest is left alone; [stamp]
    is the time as digits. *)
Definition prepareCleanOutputDir (base stamp : str) (has_manifest : bool) : str :=
  if has_manifest then base ++ 45 :: stamp else base.

Section realtime.
Context {J : JsonCodec} {LS : LineSplitter}.
Context (lower : str -> str) (outDir : str) (elsewhere : str -> dir_state) (sourceType : str).

Definition with_rt (s : session) (r : realtime) : realtime := Realtime s (rt_pending r) (rt_timer r).

(** The callback of the stream *)
Definition onLine (now : Z) (line : str) (r : realtime) : realtime :=
  Realtime (rt_s r)
    (rt_pending r ++ [Entry now None now LvI sourceType [] [] line None None None]) true.

(** Step 3 of [doFlush]: open the pages once, reload them when there is a new part *)
Definition open_pages (new_parts : bool) (s : session) : session :=
  if negb (s_paginationOpened s) then
    match setManifestDir (session_disk outDir elsewhere s) outDir (s_pag s) with
    | (p, Throws) => with_pag p s
    | (p, Ok _) =>
        let s1 := with_opened (with_pag p s) in
        emit (SRefresh (Some (s_mergedSoFar s1)) (version (s_pag s1)) false) s1
    end
  else if new_parts then with_pag (fst (reload (session_disk outDir elsewhere s) (s_pag s))) s
  else s.

(** Step 4: the window at the end *)
Definition push_page (s : session) : session :=
  let total := s_mergedSoFar s in
  let '(s1, rows) := last_page lower outDir elsewhere total s in
  if nonempty rows then deliver rows (Some total) s1 else s1.

(** [doFlush]; [false] when it throws *)
Definition doFlush (r : realtime) : realtime * bool :=
  match rt_pending r with
  | [] => (r, true)
  | batch =>
      let s0 := with_hb (hb_addBatch (s_hb (rt_s r)) batch) (rt_s r) in
      match appendBatch MERGED_CHUNK_MAX_LINES (s_cw s0) (s_world s0) batch with
      | (cw, w, Throws) =>
          (Realtime (with_store cw w (s_manifest s0) (s_mergedSoFar s0) s0) [] (rt_timer r), false)
      | (cw, w, Ok parts) =>
          let '(m, merged) := add_parts parts (s_manifest s0) (s_mergedSoFar s0) in
          let s1 := save_manifest (with_store cw w (setTotal m (Some merged)) merged s0) in
          let s2 := push_page (open_pages (nonempty parts) s1) in
          (Realtime s2 [] (rt_timer r), true)
      end
  end.

(** The timer of [schedulePulse] *)
Definition pulse (r : realtime) : realtime :=
  let '(r1, _) := doFlush (Realtime (rt_s r) (rt_pending r) false) in
  Realtime (rt_s r1) (rt_pending r1) (nonempty (rt_pending r1)).

(** What follows the end of the stream *)
Definition rt_end (r : realtime) : realtime :=
  let '(r1, ok) := doFlush r in
  let r2 :=
    if negb ok then r1
    else
      let s := rt_s r1 in
      match flushRemainder (s_cw s) (s_world s) with
      | (cw, w, Throws) => with_rt (with_store cw w (s_manifest s) (s_mergedSoFar s) s) r1
      | (cw, w, Ok rem) =>
          match rem with
          | Some c =>
              let merged := s_mergedSoFar s + cr_lines c in
              let m := setTotal (addChunk (s_manifest s) (cr_file c) (cr_lines c) (s_mergedSoFar s))
                         (Some merged) in
              let s1 := save_manifest (with_store cw w m merged s) in
              match reload (session_disk outDir elsewhere s1) (s_pag s1) with
              | (p, Throws) => with_rt (with_pag p s1) r1
              | (p, Ok _) => with_rt (push_page (with_pag p s1)) r1
              end
          | None => with_rt (push_page (with_store cw w (s_manifest s) (s_mergedSoFar s) s)) r1
          end
      end in
  Realtime (rt_s r2) (rt_pending r2) false.

(** [stopAll] clears the timer and ends the stream. *)
Definition stopAll (r : realtime) : realtime := rt_end (Realtime (rt_s r) (rt_pending r) false).

(** What the device and the timer do *)
Inductive rt_event := Line (now : Z) (text : str) | Pulse.

Definition rt_step (r : realtime) (e : rt_event) : realtime :=
  match e with
  | Line now text => onLine now text r
  | Pulse => if rt_timer r then pulse r else r
  end.

(** The session: the writer and the manifest of an empty directory, then the stream *)
Definition rt_start (now : str) (s : session) : realtime :=
  let m := loadOrCreate now (s_mfile s) in
  Realtime (with_store (new_ChunkWriter (m_chunkCount m)) (s_world s) m (m_mergedLines m) s) [] false.

Definition startRealtimeSession (now : str) (events : list rt_event) (s : session) : realtime :=
  rt_end (foldl rt_step (rt_start now s) events).

(** The entries of the lines *)
Definition line_entries (events : list rt_event) : list LogEntry :=
  omap (fun e => match e with
                 | Line now text => Some (Entry now None now LvI sourceType [] [] text None None None)
                 | Pulse => None
                 end) events.
End realtime.

(** [onBatch] of [startRealtime] in LogViewerPanelManager.ts: the entries alone *)
Definition relay_realtime (ev : session_event) : list h2w :=
  match ev with SBatch rows _ _ _ => [LogsBatch (map r_entry rows) None None None] | _ => [] end.

(** ** The store *)

Section spec.
Context {J : JsonCodec} {JL : JsonLaws} {LS : LineSplitter} {LL : LineSplitterLaws}.
Context (lower : str -> str) (outDir : str) (elsewhere : str -> dir_state) (sourceType : str).
Abbreviation rtdisk := (session_disk outDir elsewhere).

(** The pages are those of the saved manifest. *)
Record pages_open (s : session) : Prop := {
  po_saved : s_mfile s = Some (manifest_text (s_manifest s));
  po_dir : manifestDir (s_pag s) = Some outDir;
  po_reader : reader (s_pag s) = Some (outDir, s_manifest s);
  po_file : warmActive (s_pag s) = false;
  po_total : m_totalLines (s_manifest s) = Some (s_mergedSoFar s);
}.

(** [bufs] are in parts, the rest waits in the writer. *)
Record rt_inv (s : session) (bufs : list (list LogEntry)) : Prop := {
  ri_writer : writer_ok (s_cw s) (s_world s);
  ri_room : zlen (currentBuffer (s_cw s)) < MERGED_CHUNK_MAX_LINES;
  ri_tiled : tiled (s_manifest s);
  ri_merged : s_mergedSoFar s = m_mergedLines (s_manifest s);
  ri_chunks : Forall2 (stored (w_files (s_world s))) (m_chunks (s_manifest s)) bufs;
  ri_filter : pfilter (s_pag s) = None;
  ri_pages : if s_paginationOpened s then pages_open s
             else bufs = [] /\ currentBuffer (s_cw s) = [] /\ manifestDir (s_pag s) <> Some outDir /\
                  warmActive (s_pag s) = false;
}.

Lemma tiled_setTotal m t : tiled m -> tiled (setTotal m t).
Proof. by destruct t. Qed.

Lemma setTotal_same m t : m_totalLines m = Some t -> setTotal m (Some t) = m.
Proof. destruct m. cbn. by intros ->. Qed.

Lemma push_page_frame s :
  let s' := push_page lower outDir elsewhere s in
  s_cw s' = s_cw s /\ s_world s' = s_world s /\ s_manifest s' = s_manifest s /\ s_mfile s' = s_mfile s /\
  s_mergedSoFar s' = s_mergedSoFar s /\ s_paginationOpened s' = s_paginationOpened s /\
  PaginationCache.view (s_pag s') = PaginationCache.view (s_pag s).
Proof.
  cbv zeta. unfold push_page, last_page.
  match goal with |- context [readRangeByIdx lower ?d ?q ?a ?b] =>
    assert (Hv := read_view lower d q a b); destruct (readRangeByIdx lower d q a b) as [p rows] end.
  cbn [fst] in Hv. destruct Hv as [Hv _]. destruct (nonempty rows); by split_and!.
Qed.

Lemma push_page_inv s bufs : rt_inv s bufs -> rt_inv (push_page lower outDir elsewhere s) bufs.
Proof.
  intros [H1 H2 H3 H4 H5 H6 H7]. destruct (push_page_frame s) as (E1 & E2 & E3 & E4 & E5 & E6 & E7).
  set (s' := push_page _ _ _ s) in *. clearbody s'.
  injection E7 as V1 V2 V3 V4 V5 V6.
  constructor; rewrite ?E1, ?E2, ?E3, ?E5, ?E6, ?V1; try done.
  destruct (s_paginationOpened s); [|by rewrite V6, V2].
  destruct H7 as [P1 P2 P3 P4 P5]. constructor; congruence.
Qed.

(** Opening or reloading the pages after the manifest was saved *)
Lemma open_pages_inv new_parts s bufs :
  writer_ok (s_cw s) (s_world s) -> zlen (currentBuffer (s_cw s)) < MERGED_CHUNK_MAX_LINES ->
  tiled (s_manifest s) -> s_mergedSoFar s = m_mergedLines (s_manifest s) ->
  Forall2 (stored (w_files (s_world s))) (m_chunks (s_manifest s)) bufs ->
  pfilter (s_pag s) = None -> s_mfile s = Some (manifest_text (s_manifest s)) ->
  m_totalLines (s_manifest s) = Some (s_mergedSoFar s) -> warmActive (s_pag s) = false ->
  (if s_paginationOpened s
   then manifestDir (s_pag s) = Some outDir /\
        (new_parts = false -> reader (s_pag s) = Some (outDir, s_manifest s))
   else manifestDir (s_pag s) <> Some outDir) ->
  rt_inv (open_pages outDir elsewhere new_parts s) bufs /\
  s_paginationOpened (open_pages outDir elsewhere new_parts s) = true.
Proof.
  intros H1 H2 H3 H4 H5 H6 H7 H8 H9 H10. unfold open_pages.
  assert (Ho : open_manifest (d_manifest (rtdisk s outDir)) = Ok (s_manifest s)).
  { unfold session_disk. rewrite bool_decide_eq_true_2 by done. cbn [d_manifest]. by rewrite H7, open_saved. }
  destruct (s_paginationOpened s) eqn:Eo; cbn [negb].
  - destruct H10 as [Hd Hr]. destruct new_parts.
    + unfold reload. rewrite Hd, Ho.
      assert (Hw : warmActive (clearWarmup (s_pag s)) = false /\ pfilter (clearWarmup (s_pag s)) = pfilter (s_pag s))
        by (unfold clearWarmup; by rewrite H9).
      destruct Hw as [Hw Hf]. split; [|done].
      constructor; cbn [fst with_pag s_cw s_world s_manifest s_mfile s_mergedSoFar s_pag s_paginationOpened
        invalidateFilterCache bump with_reader pfilter]; try done; [congruence|]. rewrite Eo. by constructor.
    + split; [|done]. constructor; try done. rewrite Eo. constructor; auto.
  - unfold setManifestDir. rewrite bool_decide_eq_false_2 by done. rewrite Ho.
    split; [|done]. by constructor.
Qed.

Lemma doFlush_inv r bufs :
  rt_inv (rt_s r) bufs ->
  safe (concat bufs ++ currentBuffer (s_cw (rt_s r)) ++ rt_pending r) ->
  exists new, rt_inv (rt_s (fst (doFlush lower outDir elsewhere r))) (bufs ++ new) /\
    snd (doFlush lower outDir elsewhere r) = true /\
    rt_pending (fst (doFlush lower outDir elsewhere r)) = [] /\
    Forall (fun b => zlen b = MERGED_CHUNK_MAX_LINES) new /\
    concat (bufs ++ new) ++ currentBuffer (s_cw (rt_s (fst (doFlush lower outDir elsewhere r)))) =
      concat bufs ++ currentBuffer (s_cw (rt_s r)) ++ rt_pending r /\
    (rt_pending r <> [] -> s_paginationOpened (rt_s (fst (doFlush lower outDir elsewhere r))) = true).
Proof.
  intros [H1 H2 H3 H4 H5 H6 H7] Hsafe. unfold doFlush.
  destruct (rt_pending r) as [|e es] eqn:Ep.
  { exists []. rewrite !app_nil_r. cbn [fst snd]. rewrite Ep. by split_and!. }
  remember (e :: es) as batch eqn:Eb. assert (Hne : batch <> []) by (by subst).
  clear Eb Ep. set (s0 := with_hb _ (rt_s r)).
  destruct (appendBatch_spec MERGED_CHUNK_MAX_LINES (s_cw s0) (s_world s0) batch
    ltac:(unfold MERGED_CHUNK_MAX_LINES; lia) H1 H2) as (cw & w & rs & new & -> & Hok & Hlt & Hh & Hsub & Hsz & Hcat).
  rewrite app_assoc in Hsafe. assert (Hall : concat (bufs ++ new) ++ currentBuffer cw =
    concat bufs ++ currentBuffer (s_cw (rt_s r)) ++ batch)
    by (by rewrite concat_app, <- app_assoc, Hcat).
  assert (Hsb : Forall safe new).
  { rewrite <- app_assoc, <- Hall, concat_app in Hsafe. unfold safe in Hsafe. rewrite !Forall_app in Hsafe.
    apply safe_concat. by destruct Hsafe as [[_ ?] _]. }
  destruct (add_parts_spec (w_files w) rs new (s_manifest s0) Hh Hsb H3) as (m & E & Hm & nc & Hc & Hst).
  change (s_mergedSoFar s0) with (s_mergedSoFar (rt_s r)). rewrite H4. change (s_manifest (rt_s r)) with (s_manifest s0).
  rewrite E. set (s1 := save_manifest _). exists new.
  assert (Hnc : nonempty rs = false -> new = [] /\ m = s_manifest s0).
  { destruct rs; [|done]. intros _. inversion Hh. subst. split; [done|]. cbn in E. by injection E as <-. }
  destruct (open_pages_inv (nonempty rs) s1 (bufs ++ new)) as [Hi Hopen].
  - done.
  - done.
  - by apply tiled_setTotal.
  - done.
  - unfold s1. cbn. rewrite Hc. apply Forall2_app; [|done]. eapply Forall2_impl; [exact H5|].
    intros c b. by apply stored_mono.
  - done.
  - done.
  - done.
  - unfold s1. cbn. destruct (s_paginationOpened (rt_s r)); [by destruct H7|by destruct H7 as (_ & _ & _ & ?)].
  - unfold s1. cbn [save_manifest with_store with_hb s0 s_paginationOpened s_pag s_manifest].
    destruct (s_paginationOpened (rt_s r)) eqn:Eo; [|by destruct H7 as (_ & _ & ? & _)].
    destruct H7 as [P1 P2 P3 P4 P5]. split; [done|]. intros Hn. destruct (Hnc Hn) as [_ ->]. rewrite P3.
    f_equal. f_equal. change (s_manifest s0) with (s_manifest (rt_s r)). rewrite <- H4.
    by rewrite setTotal_same.
  - apply push_page_inv in Hi. destruct (push_page_frame (open_pages outDir elsewhere (nonempty rs) s1))
      as (E1 & _ & _ & _ & _ & E6 & _). cbn [fst snd rt_s rt_pending].
    split; [exact Hi|]. split; [reflexivity|]. split; [reflexivity|]. split; [exact Hsz|].
    split; [|intros _; rewrite E6; exact Hopen].
    rewrite E1. assert (Ecw : s_cw (open_pages outDir elsewhere (nonempty rs) s1) = cw).
    { unfold open_pages. repeat case_match; done. }
    rewrite Ecw. exact Hall.
Qed.

(** ** The session *)

(** After the lines [es] *)
Definition rt_seen (r : realtime) (es : list LogEntry) : Prop :=
  exists bufs, rt_inv (rt_s r) bufs /\ Forall (fun b => zlen b = MERGED_CHUNK_MAX_LINES) bufs /\
    concat bufs ++ currentBuffer (s_cw (rt_s r)) ++ rt_pending r = es.

Lemma flush_seen r es :
  rt_seen r es -> safe es ->
  rt_seen (fst (doFlush lower outDir elsewhere r)) es /\ snd (doFlush lower outDir elsewhere r) = true /\
  rt_pending (fst (doFlush lower outDir elsewhere r)) = [] /\
  (rt_pending r <> [] -> s_paginationOpened (rt_s (fst (doFlush lower outDir elsewhere r))) = true).
Proof.
  intros (bufs & Hi & Hsz & Hes) Hsafe. rewrite <- Hes in Hsafe.
  destruct (doFlush_inv r bufs Hi Hsafe) as (new & Hi' & Hok & Hp & Hsz' & Hcat & Hop).
  split; [|by split_and!]. exists (bufs ++ new). split; [exact Hi'|]. split; [by apply Forall_app|].
  rewrite Hp, app_nil_r. by rewrite Hcat.
Qed.

Lemma pulse_seen r es : rt_seen r es -> safe es -> rt_seen (pulse lower outDir elsewhere r) es.
Proof.
  intros Hs Hsafe. unfold pulse.
  destruct (flush_seen (Realtime (rt_s r) (rt_pending r) false) es Hs Hsafe) as ((bufs & Hi & Hsz & Hes) & _).
  destruct (doFlush _ _ _ _) as [r1 ok]. by exists bufs.
Qed.

Lemma seen_all r es events :
  rt_seen r es -> safe (es ++ line_entries sourceType events) ->
  rt_seen (foldl (rt_step lower outDir elsewhere sourceType) r events) (es ++ line_entries sourceType events).
Proof.
  revert r es. induction events as [|[now text|] events IH]; intros r es Hs Hsafe; cbn [foldl].
  - cbn in *. by rewrite app_nil_r.
  - change (line_entries sourceType (Line now text :: events)) with
      ([Entry now None now LvI sourceType [] [] text None None None] ++ line_entries sourceType events) in *.
    rewrite app_assoc in *. apply IH; [|done]. destruct Hs as (bufs & Hi & Hsz & Hes). exists bufs.
    split; [exact Hi|]. split; [done|]. cbn [rt_step onLine rt_s rt_pending]. by rewrite <- Hes, <- !app_assoc.
  - change (line_entries sourceType (Pulse :: events)) with (line_entries sourceType events) in *.
    apply IH; [|done]. cbn [rt_step]. destruct (rt_timer r); [|done]. apply pulse_seen; [done|].
    unfold safe in *. by apply Forall_app in Hsafe as [? _].
Qed.

(** What a session starts with: an output directory without manifest that is not yet the
    one of the pages, no warm-up data, no filter *)
Record fresh_realtime (s : session) : Prop := {
  fr_manifest : s_mfile s = None;
  fr_parts : parts_below 999999 (w_files (s_world s));
  fr_calm : calm MAX_ATTEMPTS (s_world s);
  fr_opened : s_paginationOpened s = false;
  fr_dir : manifestDir (s_pag s) <> Some outDir;
  fr_warm : warmActive (s_pag s) = false;
  fr_filter : pfilter (s_pag s) = None;
}.

Lemma start_seen now s : fresh_realtime s -> rt_seen (rt_start now s) [].
Proof.
  intros [H1 H2 H3 H4 H5 H6 H7]. unfold rt_start. rewrite H1.
  change (loadOrCreate now None) with (manifest_new now). exists []. split; [|by split; [constructor|]].
  constructor; try done. cbn. by rewrite H4.
Qed.

(** The window that is pushed *)
Lemma push_page_rows s asc :
  serves (rtdisk s) (s_pag s) asc -> asc <> [] -> pfilter (s_pag s) = None -> s_mergedSoFar s = zlen asc ->
  exists rows, last (s_out (push_page lower outDir elsewhere s)) =
      Some (SBatch rows (Some (zlen asc)) (s_seq s + 1) (version (s_pag s))) /\
    map r_entry rows = page asc (Z.max 1 (zlen asc - LOG_WINDOW_SIZE + 1)) (zlen asc) /\
    serves (rtdisk s) (s_pag (push_page lower outDir elsewhere s)) asc.
Proof.
  intros Hsv Hne Hf Hm. assert (Hpos := zlen_pos asc Hne). unfold push_page, last_page. rewrite Hm.
  replace (Z.max 1 (zlen asc)) with (zlen asc) by lia. set (a := Z.max 1 _).
  destruct (readRangeByIdx_page lower (rtdisk s) (s_pag s) asc a (zlen asc) Hsv Hne
    ltac:(by unfold isFilterActive; rewrite Hf) ltac:(lia) ltac:(unfold a, LOG_WINDOW_SIZE; lia)) as [Hr Hs'].
  assert (Hv := read_view lower (rtdisk s) (s_pag s) a (zlen asc)).
  destruct (readRangeByIdx _ _ _ a _) as [p rows]. cbn [fst snd] in *.
  assert (Hn : rows <> []).
  { intros ->. symmetry in Hr. revert Hr. apply page_nonempty; unfold a, LOG_WINDOW_SIZE; lia. }
  destruct rows as [|r0 rows]; [done|]. cbn [nonempty]. exists (r0 :: rows).
  cbn [deliver s_out with_pag s_seq s_pag]. rewrite last_snoc. split_and!; [|done|done].
  do 2 f_equal. by destruct Hv as (_ & -> & _).
Qed.

Lemma store_setTotal files m t es : store_of files m es -> store_of files (setTotal m t) es.
Proof. by destruct t. Qed.

Lemma reload_result s p es :
  store_of (w_files (s_world s)) (s_manifest s) es -> s_mfile s = Some (manifest_text (s_manifest s)) ->
  manifestDir p = Some outDir ->
  exists p', reload (rtdisk s) p = (p', Ok tt) /\ serves (rtdisk s) p' (map bare (rev es)) /\
    pfilter p' = pfilter p.
Proof.
  intros Hst Hm Hd. assert (H := reload_serves outDir elsewhere s p es Hst Hm Hd).
  assert (Hf := reload_filter (rtdisk s) p). destruct Hst as [Ht _].
  assert (Ho : open_manifest (d_manifest (rtdisk s outDir)) = Ok (s_manifest s)).
  { unfold session_disk. rewrite bool_decide_eq_true_2 by done. cbn [d_manifest]. by rewrite Hm, open_saved. }
  unfold reload in *. rewrite Hd, Ho in *. eexists. split; [reflexivity|]. by split.
Qed.

(** Open pages show the store of their manifest. *)
Lemma open_serves s es :
  pages_open s -> store_of (w_files (s_world s)) (s_manifest s) es ->
  serves (rtdisk s) (s_pag s) (map bare (rev es)).
Proof.
  intros [P1 P2 P3 P4 P5] Hst. unfold serves. rewrite P4.
  exists (outDir, s_manifest s), es. split_and!; [done| |done]. cbn [fst snd].
  unfold session_disk. by rewrite bool_decide_eq_true_2.
Qed.

Lemma inv_store s bufs :
  rt_inv s bufs -> pages_open s -> store_inv outDir s (concat bufs ++ currentBuffer (s_cw s)).
Proof.
  intros [H1 H2 H3 H4 H5 H6 H7] [P1 P2 P3 P4 P5]. constructor; try done. by exists bufs.
Qed.

(** The result of a session of the lines [es] *)
Definition rt_result (s : session) (es : list LogEntry) : Prop :=
  exists rows sq v, last (s_out s) = Some (SBatch rows (Some (zlen es)) sq v) /\
    map r_entry rows = page (map bare (rev es)) (Z.max 1 (zlen es - LOG_WINDOW_SIZE + 1)) (zlen es) /\
    serves (rtdisk s) (s_pag s) (map bare (rev es)).

Lemma push_result s es :
  serves (rtdisk s) (s_pag s) (map bare (rev es)) -> es <> [] -> pfilter (s_pag s) = None ->
  s_mergedSoFar s = zlen es -> rt_result (push_page lower outDir elsewhere s) es.
Proof.
  intros Hsv Hne Hf Hm. assert (Hz : zlen (map bare (rev es)) = zlen es) by (by rewrite zlen_map, zlen_rev).
  assert (Hne' : map bare (rev es) <> []).
  { intros E. rewrite E in Hz. by apply zlen_pos in Hne; unfold zlen in Hz at 1; cbn in Hz; lia. }
  destruct (push_page_rows s (map bare (rev es)) Hsv Hne' Hf) as (rows & H1 & H2 & H3); [by rewrite Hz|].
  rewrite Hz in *. destruct (push_page_frame s) as (_ & E2 & _ & E4 & _).
  eexists rows, _, _. split; [exact H1|]. split; [exact H2|].
  assert (Hd : forall dir, rtdisk (push_page lower outDir elsewhere s) dir = rtdisk s dir)
    by (intros dir; unfold session_disk; case_bool_decide; [by rewrite E2, E4|done]).
  unfold serves in H3 |- *. destruct (warmActive (s_pag (push_page _ _ _ s))); [done|]. destruct H3 as (rd & e & ? & ? & ?).
  exists rd, e. by rewrite Hd.
Qed.

(** The entries of the lines are safe to store and carry no number. *)
Lemma line_entries_spec events (es := line_entries sourceType events) :
  map bare es = es /\
  (Forall sep_free (map e_text es) -> sep_free sourceType -> safe es).
Proof.
  assert (Hall : Forall (fun e => bare e = e /\ entry_strings e = [sourceType; []; []; e_text e]) es).
  { apply Forall_forall. intros e He. subst es. unfold line_entries in He.
    apply list_elem_of_omap in He as ([now text|] & _ & [= <-]). done. }
  clearbody es. split.
  - induction Hall as [|e l [He _] _ IH]; [done|]. cbn. by rewrite He, IH.
  - intros Hf Hs. unfold safe. apply Forall_forall. intros e He. apply stringify_safe.
    rewrite Forall_forall in Hall. destruct (Hall e He) as [_ ->]. rewrite Forall_fmap, Forall_forall in Hf.
    repeat constructor; [done|by constructor..|by apply Hf].
Qed.

(** The last window of a reversed list *)
Lemma last_window_reversed (es : list LogEntry) :
  es <> [] ->
  map e_text (page (rev es) (Z.max 1 (zlen es - LOG_WINDOW_SIZE + 1)) (zlen es)) =
  map e_text (rev (take 200 es)).
Proof.
  intros Hne. assert (Hp := zlen_pos es Hne). unfold page. rewrite zlen_rev. change LOG_WINDOW_SIZE with 200.
  destruct (Z.ltb_spec (zlen es) (Z.max 1 (zlen es - 200 + 1))); [lia|]. cbv zeta.
  replace (Z.max 1 (Z.min (zlen es) (Z.max 1 (zlen es - 200 + 1)))) with (Z.max 1 (zlen es - 199)) by lia.
  replace (Z.max 1 (Z.min (zlen es) (zlen es))) with (zlen es) by lia.
  rewrite slice_rev by lia.
  replace (slice es (zlen es - zlen es) (zlen es - (Z.max 1 (zlen es - 199) - 1))) with (take 200 es).
  - unfold number_entries. apply list_eq. intros i. rewrite !map_lookup, list_lookup_imap.
    by destruct (rev (take 200 es) !! i).
  - unfold slice. rewrite Z.sub_diag. change (Z.to_nat 0) with 0%nat. rewrite Nat.sub_0_r, drop_0.
    destruct (Z.le_gt_cases (zlen es) 199).
    + rewrite (take_ge es 200) by (unfold zlen in *; lia). rewrite take_ge by (unfold zlen in *; lia). done.
    + f_equal. lia.
Qed.

Lemma end_result r es :
  rt_seen r es -> safe es -> es <> [] ->
  rt_result (rt_s (rt_end lower outDir elsewhere r)) es /\ rt_pending (rt_end lower outDir elsewhere r) = [].
Proof.
  intros Hs Hsafe Hne. unfold rt_end.
  destruct (flush_seen r es Hs Hsafe) as ((bufs & Hi & _ & Hes) & Hok & Hp & Hop).
  assert (Hopen : s_paginationOpened (rt_s (fst (doFlush lower outDir elsewhere r))) = true).
  { destruct (rt_pending r) as [|e0 l0] eqn:Ep; [|by apply Hop].
    destruct (s_paginationOpened (rt_s (fst (doFlush lower outDir elsewhere r)))) eqn:Eo; [done|].
    exfalso. destruct Hs as (bufs0 & Hi0 & _ & Hes0). unfold doFlush in Eo. rewrite Ep in Eo. cbn [fst] in Eo.
    assert (Hw := ri_pages _ _ Hi0). rewrite Eo in Hw. destruct Hw as (-> & Hb & _).
    rewrite Ep, Hb in Hes0. by subst es. }
  destruct (doFlush lower outDir elsewhere r) as [r1 ok]. cbn [fst snd] in *. subst ok. cbn [negb].
  rewrite Hp, app_nil_r in Hes. assert (Hpo := ri_pages _ _ Hi). rewrite Hopen in Hpo.
  assert (Hinv := inv_store (rt_s r1) bufs Hi Hpo). rewrite Hes in Hinv.
  assert (Hf := ri_filter _ _ Hi).
  destruct (remainder_store outDir (rt_s r1) es Hinv Hsafe) as (cw & w & rem & Er & Hst & Hm & _ & _ & Hmg).
  rewrite Er. destruct rem as [c|].
  - set (s1 := save_manifest (with_store cw w (setTotal _ _) _ _)).
    assert (Hst1 : store_of (w_files (s_world s1)) (s_manifest s1) es) by (by apply store_setTotal).
    destruct (reload_result s1 (s_pag s1) es Hst1 eq_refl (po_dir _ Hpo)) as (p' & -> & Hsv & Hf').
    cbn [with_rt rt_s rt_pending]. split; [|done]. apply push_result; [exact Hsv|done| |].
    + cbn [with_pag s_pag]. by rewrite Hf'.
    + rewrite <- (store_lines _ _ _ Hst). exact Hmg.
  - cbn [with_rt rt_s rt_pending]. split; [|done]. apply push_result; [|done|done|].
    + apply open_serves; [|done]. by destruct Hpo.
    + rewrite <- (store_lines _ _ _ Hst). exact Hmg.
Qed.


(** *** Small sessions *)

Definition no_batch (s : session) : Prop :=
  Forall (fun ev => match ev with SBatch _ _ _ _ => False | _ => True end) (s_out s).

(** What a flush adds to the callbacks: at most the announcement of the pages, and a page *)
Lemma doFlush_shape r :
  s_out (rt_s (fst (doFlush lower outDir elsewhere r))) = s_out (rt_s r) \/
  exists s1, rt_s (fst (doFlush lower outDir elsewhere r)) = push_page lower outDir elsewhere s1 /\
    (no_batch (rt_s r) -> no_batch s1).
Proof.
  unfold doFlush. destruct (rt_pending r) as [|e es]; [by left|].
  destruct (appendBatch _ _ _ _) as [[cw w] [parts|]]; [|by left].
  destruct (add_parts _ _ _) as [m merged]. right. eexists. split; [reflexivity|]. unfold no_batch, open_pages.
  intros Hn. destruct (negb _).
  - destruct (setManifestDir _ _ _) as [p [u|]]; cbn [emit s_out]; [|done].
    apply Forall_app. by split; [|repeat constructor].
  - by destruct (nonempty parts).
Qed.

(** An empty store has no page. *)
Lemma push_page_empty s :
  pages_open (push_page lower outDir elsewhere s) -> m_chunks (s_manifest s) = [] -> tiled (s_manifest s) ->
  s_mergedSoFar s = m_mergedLines (s_manifest s) -> pfilter (s_pag s) = None ->
  s_out (push_page lower outDir elsewhere s) = s_out s.
Proof.
  intros [P1 P2 P3 P4 P5] Hc (_ & _ & Hml) Hm Hf.
  destruct (push_page_frame s) as (_ & _ & E3 & _ & E5 & _ & E7). injection E7 as _ V2 _ _ V5 _.
  rewrite E3 in P3, P5. rewrite E5 in P5. rewrite V5 in P3. rewrite V2 in P4. rewrite Hc in Hml. cbn in Hml.
  unfold push_page, last_page, readRangeByIdx. unfold isFilterActive. rewrite Hf, P4. unfold file_range.
  rewrite P3. cbn [snd]. unfold getTotalLines. rewrite P5, Hm, Hml. cbn [or_else]. reflexivity.
Qed.

Lemma small_no_parts bufs (rest : list LogEntry) :
  Forall (fun b => zlen b = MERGED_CHUNK_MAX_LINES) bufs ->
  zlen (concat bufs ++ rest) < MERGED_CHUNK_MAX_LINES -> bufs = [].
Proof.
  intros Hb Hl. destruct Hb as [|b bs Hb Hbs]; [done|]. cbn [concat] in Hl.
  rewrite <- app_assoc, zlen_app, Hb in Hl. assert (H := zlen_nonneg (concat bs ++ rest)). lia.
Qed.

Lemma flush_silent r es :
  rt_seen r es -> safe es -> zlen es < MERGED_CHUNK_MAX_LINES -> no_batch (rt_s r) ->
  no_batch (rt_s (fst (doFlush lower outDir elsewhere r))).
Proof.
  intros Hs Hsafe Hlt Hn. destruct (flush_seen r es Hs Hsafe) as ((bufs & Hi & Hsz & Hes) & _ & _ & Hop).
  assert (Hnil : bufs = []) by (eapply small_no_parts; [exact Hsz|by rewrite Hes]). subst bufs.
  destruct (rt_pending r) as [|e0 l0] eqn:Ep; [unfold doFlush; by rewrite Ep|]. specialize (Hop ltac:(done)).
  destruct (doFlush_shape r) as [E|(s1 & E & Hs1)]; [unfold no_batch; by rewrite E|].
  rewrite E in *. destruct Hi as [_ _ H3 H4 H5 H6 H7].
  destruct (push_page_frame s1) as (_ & _ & E3 & _ & E5 & E6 & E7). injection E7 as V1 _ _ _ _ _.
  rewrite Hop in H7.
  unfold no_batch. rewrite push_page_empty; [by apply Hs1|done| |by rewrite <- E3|congruence|congruence].
  rewrite E3 in H5. by inversion H5.
Qed.

Lemma silent_all r es events :
  rt_seen r es -> safe (es ++ line_entries sourceType events) ->
  zlen (es ++ line_entries sourceType events) < MERGED_CHUNK_MAX_LINES -> no_batch (rt_s r) ->
  no_batch (rt_s (foldl (rt_step lower outDir elsewhere sourceType) r events)).
Proof.
  revert r es. induction events as [|[now text|] events IH]; intros r es Hs Hsafe Hlt Hn; cbn [foldl]; [done| |].
  - change (line_entries sourceType (Line now text :: events)) with
      ([Entry now None now LvI sourceType [] [] text None None None] ++ line_entries sourceType events) in *.
    rewrite app_assoc in *. eapply IH; [|done|done|done]. destruct Hs as (bufs & Hi & Hsz & Hes). exists bufs.
    split; [exact Hi|]. split; [done|]. cbn [rt_step onLine rt_s rt_pending]. by rewrite <- Hes, <- !app_assoc.
  - change (line_entries sourceType (Pulse :: events)) with (line_entries sourceType events) in *.
    assert (Hse : safe es) by (unfold safe in *; by apply Forall_app in Hsafe as [? _]).
    cbn [rt_step]. destruct (rt_timer r); [|by eapply IH].
    eapply IH; [by apply pulse_seen|done|done|]. unfold pulse.
    assert (H := flush_silent (Realtime (rt_s r) (rt_pending r) false) es Hs Hse
      ltac:(rewrite zlen_app in Hlt; assert (H0 := zlen_nonneg (line_entries sourceType events)); lia) Hn).
    by destruct (doFlush _ _ _ _).
Qed.

(** The view of a running session stays empty: as long as fewer than 5000 lines have come,
    whatever the timer did, no page has been pushed, because lines in the buffer of the
    writer are in no part. *)
Theorem realtime_silent now events s :
  fresh_realtime s -> no_batch s ->
  Forall sep_free (map e_text (line_entries sourceType events)) -> sep_free sourceType ->
  zlen (line_entries sourceType events) < 5000 ->
  no_batch (rt_s (foldl (rt_step lower outDir elsewhere sourceType) (rt_start now s) events)).
Proof.
  intros Hfr Hn Hfree Hsrc Hlt. destruct (line_entries_spec events) as [_ Hs].
  apply (silent_all (rt_start now s) [] events); [by apply start_seen|by apply Hs|done|done].
Qed.
End spec.

(** *** What the panel makes of it *)

(** The batches of a realtime session reach the viewer without their total: a viewer that
    has none keeps showing a list of no rows. *)
Theorem realtime_total_unknown ev s :
  let s' := foldl (fun s m => fst (receive m s)) s (relay_realtime ev) in
  v_totalRows (vw s') = v_totalRows (vw s).
Proof.
  destruct ev as [rows total sq v| | |]; try done. cbn [relay_realtime foldl receive].
  unfold on_batch. set (s2 := show_logs _ _).
  assert (H2 : v_totalRows (vw s2) = v_totalRows (vw s)) by done.
  destruct (_ && _); unfold setReadyForFilter; by destruct (g_readyForFilter _).
Qed.

(** ** Examples *)

Lemma empty_session_realtime : fresh_realtime (js "/rt") empty_session.
Proof.
  destruct empty_session_fresh as [H1 H2 H3 H4 H5]. by constructor.
Qed.


Lemma realtime_silent_witness :
  no_batch (rt_s (foldl (rt_step ascii_lower (js "/rt") (fun _ => DirState None ∅) (js "ADB"))
    (rt_start (js "now") empty_session) [Line 1 (js "a"); Pulse; Line 2 (js "b"); Pulse])).
Proof.
  apply (realtime_silent ascii_lower (js "/rt") (fun _ => DirState None ∅) (js "ADB") (js "now")
    [Line 1 (js "a"); Pulse; Line 2 (js "b"); Pulse] empty_session empty_session_realtime);
    [by constructor|by repeat constructor|by repeat constructor|by vm_compute].
Defined.
