(* ===== verification/LogStores.v ===== *)
(** * The smaller stores and tools of the log files

    src/core/logs/LogFileStorage.ts ([Storage]): entries appended to a file, one JSON text a
    line, and read back from a stream by their time.
    src/core/logs/IndexedLogStore.ts ([Index]): the runs of lines of one file in a merge.
    src/core/logs/Sanitizer.ts ([Sanitize]): the cleaning of chunks and lines.
    src/core/logs/LogSearch.ts ([Search]): the search over entries in memory.

    [toLowerCase] and [normalize('NFC')] are arguments; a [RegExp] of the user is behind
    [RegExpEngine]. *)

From stdpp Require Import base list strings.
From Stdlib Require Import ZArith Lia.
From S2P Require Import Prelude JsString Regex TimeParser LogEntry Json ParserEngine LogFilter.

(** ** LogFileStorage *)

Module Storage.
Section storage.
Context `{JC : JsonCodec}.

(** [append]: what the file holds afterwards, with and without [flush] *)
Definition append (content : str) (e : LogEntry) : str := content ++ stringify e ++ [10].

(** The events of a read stream *)
Inductive stream_event := Data (chunk : str) | End | StreamError.

(** The promise of [range]: waiting for events, waiting on a stream that was destroyed, or
    settled.  A destroyed stream emits neither ['data'] nor ['end']. *)
Inductive range_status := Reading | Destroyed | Settled (r : js_result (list LogEntry)).

Record range_state := RangeState { rg_residual : str; rg_out : list LogEntry; rg_status : range_status }.

Definition range_init : range_state := RangeState [] [] Reading.

Section range.
Context (fromTs toTs : Z) (limit : option Z).

(** [out.length >= limit]; no limit is [Infinity]. *)
Definition full (out : list LogEntry) : bool :=
  match limit with Some n => n <=? zlen out | None => false end.

(** [safeParseJson] and the test of the time *)
Definition entry_in (line : str) : option LogEntry :=
  match json_parse line with
  | Some e => if (fromTs <=? e_ts e) && (e_ts e <=? toTs) then Some e else None
  | None => None
  end.

(** The loop over the complete lines, and whether it closed the stream *)
Fixpoint range_lines (lines : list str) (out : list LogEntry) : list LogEntry * bool :=
  match lines with
  | [] => (out, false)
  | line :: rest =>
      if full out then (out, false)
      else if negb (nonempty (trim line)) then range_lines rest out
      else match entry_in line with
           | Some e => let out' := out ++ [e] in
                       if full out' then (out', true) else range_lines rest out'
           | None => range_lines rest out
           end
  end.

(** The handlers of ['data'], ['end'] and ['error'] *)
Definition on_event (st : range_state) (ev : stream_event) : range_state :=
  match rg_status st, ev with
  | Reading, Data chunk =>
      if full (rg_out st) then st
      else
        let parts := split_crlf (rg_residual st ++ chunk) in
        let residual := or_else (last parts) [] in
        let '(out, closed) := range_lines (take (length parts - 1) parts) (rg_out st) in
        RangeState residual out (if closed then Destroyed else Reading)
  | Reading, End =>
      let out := if negb (full (rg_out st)) && nonempty (trim (rg_residual st))
                 then match entry_in (rg_residual st) with Some e => rg_out st ++ [e] | None => rg_out st end
                 else rg_out st in
      RangeState (rg_residual st) out (Settled (Ok out))
  | Reading, StreamError => RangeState (rg_residual st) (rg_out st) (Settled Throws)
  | _, _ => st
  end.

(** [range], after the events of the stream *)
Definition range (evs : list stream_event) : range_state := fold_left on_event evs range_init.
End range.
End storage.
End Storage.

(** ** IndexedLogStore *)

Module Index.

Record FileSeg := Seg { sg_name : str; sg_from : Z; sg_lines : Z }.

(** [cur] is a reference to an element of [segments]. *)
Record index_store := IndexStore { ix_segments : list FileSeg; ix_total : Z; ix_cur : option nat }.

Definition plan_segments (plan : list (str * Z)) : list FileSeg * Z :=
  fold_left (fun '(segs, from) '(name, lines) => (segs ++ [Seg name from lines], from + lines))
    plan ([], 0).

(** [begin] *)
Definition begin (plan : option (list (str * Z))) : index_store :=
  match plan with
  | Some ((_ :: _) as p) =>
      let '(segs, from) := plan_segments p in
      IndexStore segs from (Some (length segs - 1)%nat)
  | _ => IndexStore [] 0 None
  end.

(** The name of the file of an entry *)
Definition name_of (e : LogEntry) : str :=
  let name := if nonempty (trim (e_file e)) then Some (e_file e)
              else if nonempty (e_path e) then Some (basename (e_path e)) else None in
  match name with
  | Some ((_ :: _) as n) => n
  | _ => if nonempty (e_source e) then e_source e else js "unknown"
  end.

Definition add_line (s : FileSeg) : FileSeg := Seg (sg_name s) (sg_from s) (sg_lines s + 1).

(** One round of the loop of [onBatch] *)
Definition on_entry (st : index_store) (e : LogEntry) : index_store :=
  let name := name_of e in
  let total := ix_total st + 1 in
  let segs := ix_segments st in
  let same i := match segs !! i with Some s => bool_decide (sg_name s = name) | None => false end in
  let '(segs', cur) :=
    if match ix_cur st with Some i => same i | None => false end then (segs, ix_cur st)
    else if negb (nonempty segs) || negb (same (length segs - 1)%nat)
         then (segs ++ [Seg name (total - 1) 0], Some (length segs))
         else (segs, Some (length segs - 1)%nat) in
  IndexStore (match cur with Some i => alter add_line i segs' | None => segs' end) total cur.

(** [onBatch] *)
Definition index_batch (st : index_store) (logs : list LogEntry) : index_store := fold_left on_entry logs st.

(** The object [writeIndex] writes *)
Definition writeIndex (st : index_store) : Z * list FileSeg :=
  (if negb (ix_total st =? 0) then ix_total st
   else fold_left (fun a s => a + sg_lines s) (ix_segments st) 0, ix_segments st).
End Index.

(** ** Sanitizer *)

Module Sanitize.

Record SanitizeOptions := Options {
  so_stripBOMAtStart : bool; so_stripTrailingCR : bool; so_stripAnsi : bool;
  so_dropControlExceptTab : bool; so_normalizeNbsp : bool; so_dropIntralineBOM : bool;
  so_unicodeNFC : bool }.

Definition DEFAULT_SANITIZE : SanitizeOptions := Options true true false false false true false.

Definition CTRL_EXCEPT_TAB (c : Z) : bool :=
  ((0 <=? c) && (c <=? 8)) || (c =? 11) || (c =? 12) || ((14 <=? c) && (c <=? 31)) || (c =? 127).

Definition stripBomStart (s : str) : str := strip_bom s.
(** [stripAnsi] *)
Definition sanitize_ansi (s : str) : str := remove_all ANSI_RX s.
Definition dropControlExceptTab (s : str) : str := remove_all (Cls CTRL_EXCEPT_TAB) s.
Definition normalizeNbsp (s : str) : str := map (fun c => if c =? 160 then 32 else c) s.
Definition dropIntralineBOM (s : str) : str := remove_all (chr 65279) s.

Section sanitize.
Context (nfc : str -> str).

Definition when (b : bool) (f : str -> str) (s : str) : str := if b then f s else s.

Definition sanitizeLine (o : SanitizeOptions) (line : str) : str :=
  when (so_unicodeNFC o) nfc
    (when (so_stripAnsi o) sanitize_ansi
      (when (so_normalizeNbsp o) normalizeNbsp
        (when (so_dropControlExceptTab o) dropControlExceptTab
          (when (so_dropIntralineBOM o) dropIntralineBOM
            (when (so_stripTrailingCR o) strip_cr line))))).

Definition sanitizeChunkBeforeSplit (o : SanitizeOptions) (isFirstChunk : bool) (chunk : str) : str :=
  when (so_unicodeNFC o) nfc
    (when (so_normalizeNbsp o) normalizeNbsp
      (when (so_dropControlExceptTab o) dropControlExceptTab
        (when (so_dropIntralineBOM o) dropIntralineBOM
          (when (isFirstChunk && so_stripBOMAtStart o) stripBomStart chunk)))).
End sanitize.
End Sanitize.

(** ** LogSearch *)

Module Search.

Record SearchQuery := Query {
  sq_q : option str; sq_regex : bool; sq_range : option (Z * Z); sq_top : option Z;
  sq_pid : option str; sq_file : option str; sq_process : option str; sq_message : option str }.

(** [procMatch] of [parseLine]: here the text in the brackets need not be a number. *)
Definition PROC_ANY_RX : re :=
  sq [Bol; Grp 1 (plus (Cls (fun c => negb (is_ws c || (c =? 58))))); chr 91;
      Grp 2 (plus (Cls (fun c => negb (c =? 93)))); chr 93; chr 58; star ws; Grp 3 (star dot); Eol].

Definition parseLine_any (line : str) : line_parts :=
  let rest := match exec TIME_LINE_RX line with Some m => or_else (cap m 2) [] | None => line end in
  match exec PROC_ANY_RX rest with
  | Some m => LineParts (or_else (cap m 1) []) (or_else (cap m 2) []) (or_else (cap m 3) [])
  | None => LineParts [] [] rest
  end.

Section search.
Context `{RE : RegExpEngine} (lower : str -> str).

Definition norm (s : option str) : str :=
  match s with
  | Some s => if nonempty s && nonempty (trim s) then lower (trim s) else []
  | None => []
  end.

Definition primaryText (e : LogEntry) : str := lower (or_else (e_parsed e ≫= p_message) (e_text e)).

Record entry_fields := Fields {
  ef_proc : str; ef_pid : str; ef_msg : str; ef_file : str; ef_path : str; ef_source : str }.

Definition extractFields (e : LogEntry) : entry_fields :=
  let rest proc pid msg :=
    Fields (lower proc) (lower pid) (lower msg) (lower (e_file e)) (lower (e_path e)) (lower (e_source e)) in
  let fallback := parseLine_any (e_text e) in
  match e_parsed e with
  | Some p =>
      if truthy (p_process p) || truthy (p_pid p) || truthy (p_message p) || truthy (p_time p)
      then rest (or_else (p_process p) []) (or_else (p_pid p) []) (or_else (p_message p) (e_text e))
      else rest (lp_proc fallback) (lp_pid fallback) (lp_msg fallback)
  | None => rest (lp_proc fallback) (lp_pid fallback) (lp_msg fallback)
  end.

(** The test of the fields *)
Definition fields_ok (q : SearchQuery) (e : LogEntry) : bool :=
  let wantPid := norm (sq_pid q) in let wantFile := norm (sq_file q) in
  let wantProc := norm (sq_process q) in let wantMsg := norm (sq_message q) in
  let f := extractFields e in
  (if nonempty wantPid then includes (ef_pid f) wantPid else true) &&
  (if nonempty wantFile
   then existsb (fun s => includes s wantFile) (map lower [ef_file f; ef_path f; ef_source f]) else true) &&
  (if nonempty wantProc then includes (ef_proc f) wantProc else true) &&
  (if nonempty wantMsg then includes (ef_msg f) wantMsg else true).

(** [out.slice(0, top)]; a negative number counts from the end. *)
Definition slice_top {A} (l : list A) (n : Z) : list A :=
  take (Z.to_nat (if n <? 0 then zlen l + n else n)) l.

Definition search (entries : list LogEntry) (q : SearchQuery) : js_result (list LogEntry) :=
  let ranged := match sq_range q with
                | Some (a, b) => filter (fun e => (a <=? e_ts e) && (e_ts e <=? b) = true) entries
                | None => entries
                end in
  res_bind
    (match sq_q q with
     | Some ((_ :: _) as s) =>
         if sq_regex q
         then match new_RegExp s true with
              | Some r => Ok (filter (fun e => re_test r (primaryText e) = true) ranged)
              | None => Throws
              end
         else Ok (filter (fun e => includes (primaryText e) (lower s) = true) ranged)
     | _ => Ok ranged
     end)
    (fun found =>
       let out := if nonempty (norm (sq_pid q)) || nonempty (norm (sq_file q))
                     || nonempty (norm (sq_process q)) || nonempty (norm (sq_message q))
                  then filter (fun e => fields_ok q e = true) found else found in
       Ok (match sq_top q with Some n => if n =? 0 then out else slice_top out n | None => out end)).
End search.
End Search.

(** ** A stored file is read back *)

Section storage_facts.
Import Storage.
Context `{JC : JsonCodec} {JL : JsonLaws} (fromTs toTs : Z) (limit : option Z).

(** The entries of lines that the reader takes *)
Definition found (lines : list str) : list LogEntry :=
  omap (fun l => if nonempty (trim l) then entry_in fromTs toTs l else None) lines.

Lemma found_app l1 l2 : found (l1 ++ l2) = found l1 ++ found l2.
Proof. apply omap_app. Qed.

(** Whether [n] entries are below the limit *)
Definition below (l : list LogEntry) : Prop := full limit l = false.

Lemma below_app l1 l2 : below (l1 ++ l2) -> below l1.
Proof.
  unfold below, full. destruct limit as [n|]; [|done].
  rewrite !Z.leb_gt. unfold zlen. rewrite length_app. lia.
Qed.

Lemma range_lines_below lines out :
  below (out ++ found lines) ->
  range_lines fromTs toTs limit lines out = (out ++ found lines, false).
Proof.
  revert out. induction lines as [|l lines IH]; intros out Hb; cbn [range_lines].
  - by rewrite app_nil_r.
  - assert (H := below_app _ _ Hb). unfold below in H. rewrite H. unfold found in *.
    cbn [omap list_omap] in *. destruct (nonempty (trim l)); cbn [negb]; [|by apply IH].
    destruct (entry_in fromTs toTs l) as [e|]; [|by apply IH].
    rewrite cons_middle, app_assoc in Hb. assert (He := below_app _ _ Hb). unfold below in He.
    rewrite He, IH by done. by rewrite <- app_assoc.
Qed.

(** Once the limit is reached the stream is destroyed. *)
Lemma range_lines_full lines out :
  below out -> ~ below (out ++ found lines) ->
  exists out', range_lines fromTs toTs limit lines out = (out', true).
Proof.
  revert out. induction lines as [|l lines IH]; intros out Hb Hf; cbn [range_lines].
  - by rewrite app_nil_r in Hf.
  - unfold below in Hb. rewrite Hb. unfold found in Hf. cbn [omap list_omap] in Hf.
    destruct (nonempty (trim l)); cbn [negb]; [|by apply IH].
    destruct (entry_in fromTs toTs l) as [e|]; [|by apply IH].
    destruct (full limit (out ++ [e])) eqn:E; [by eexists|].
    apply IH; [done|]. by rewrite <- app_assoc.
Qed.

(** The state after the text [T]: the complete lines are taken. *)
Definition range_inv (T : str) (st : range_state) : Prop :=
  rg_status st = Reading /\ exists ws, split_crlf T = ws ++ [rg_residual st] /\
    (forall t, split_crlf (T ++ t) = ws ++ split_crlf (rg_residual st ++ t)) /\
    rg_out st = found ws.

(** The complete lines of a text *)
Definition complete_lines (text : str) : list str :=
  take (length (split_crlf text) - 1) (split_crlf text).

Lemma on_data T st c :
  range_inv T st -> below (rg_out st) ->
  (below (found (complete_lines (T ++ c))) ->
   range_inv (T ++ c) (on_event fromTs toTs limit st (Data c))) /\
  (~ below (found (complete_lines (T ++ c))) ->
   rg_status (on_event fromTs toTs limit st (Data c)) = Destroyed).
Proof.
  intros (Hr & ws & E & Happ & Ho) Hb. unfold on_event, complete_lines. rewrite Hr.
  unfold below in Hb. rewrite Hb.
  destruct (split_crlf_snoc (rg_residual st ++ c)) as (vs & v & Ev & Hv).
  rewrite Happ, Ev, app_assoc, last_snoc, !length_app, !Nat.add_sub, take_app_length.
  cbn [or_else]. rewrite <- length_app, take_app_length, found_app, <- Ho. split; intros H.
  - rewrite range_lines_below by done. split; [done|]. exists (ws ++ vs).
    cbn [rg_residual rg_out]. split_and!; [by rewrite Happ, Ev, app_assoc| |by rewrite found_app, Ho].
    intros t. by rewrite <- !app_assoc, Happ, app_assoc, Hv.
  - destruct (range_lines_full vs (rg_out st) Hb H) as (out' & ->). done.
Qed.

Lemma destroyed_stays evs st :
  rg_status st = Destroyed -> rg_status (fold_left (on_event fromTs toTs limit) evs st) = Destroyed.
Proof.
  revert st. induction evs as [|ev evs IH]; intros st H; [done|]. cbn [fold_left]. apply IH.
  unfold on_event. by rewrite H.
Qed.

(** The entries found in a longer text start with those of a shorter one. *)
Lemma found_prefix T c :
  exists l, found (complete_lines (T ++ c)) = found (complete_lines T) ++ l.
Proof.
  destruct (split_crlf_snoc T) as (ws & w & E & Happ).
  destruct (split_crlf_snoc (w ++ c)) as (vs & v & Ev & _).
  unfold complete_lines. rewrite Happ, E, Ev, app_assoc, !length_app, !Nat.add_sub.
  rewrite <- length_app, !take_app_length, found_app. by eexists.
Qed.

Lemma inv_found T st : range_inv T st -> rg_out st = found (complete_lines T).
Proof.
  intros (_ & ws & E & _ & ->). unfold complete_lines.
  by rewrite E, length_app, Nat.add_sub, take_app_length.
Qed.

Lemma range_data chunks T st :
  range_inv T st -> below (rg_out st) ->
  let st' := fold_left (on_event fromTs toTs limit) (map Data chunks) st in
  (below (found (complete_lines (T ++ mjoin chunks))) -> range_inv (T ++ mjoin chunks) st') /\
  (~ below (found (complete_lines (T ++ mjoin chunks))) -> rg_status st' = Destroyed).
Proof.
  revert T st. induction chunks as [|c chunks IH]; intros T st Hi Hb; cbn [map fold_left mjoin list_join].
  - rewrite app_nil_r. split; [done|]. by rewrite <- (inv_found _ _ Hi).
  - rewrite app_assoc. destruct (on_data T st c Hi Hb) as [H1 H2].
    destruct (decide (full limit (found (complete_lines (T ++ c))) = false)) as [Hc|Hc].
    + specialize (H1 Hc). apply IH; [done|]. by rewrite (inv_found _ _ H1).
    + specialize (H2 Hc). split; intros H; [exfalso|by apply destroyed_stays].
      destruct (found_prefix (T ++ c) (mjoin chunks)) as (l & El).
      change (below (found (complete_lines ((T ++ c) ++ mjoin chunks)))) in H. rewrite El in H.
      by apply below_app in H.
Qed.

Lemma init_inv : range_inv [] range_init.
Proof. by split; [done|exists []]. Qed.

Lemma split_complete text :
  split_crlf text = complete_lines text ++ [or_else (last (split_crlf text)) []].
Proof.
  destruct (split_crlf_snoc text) as (ws & w & E & _). unfold complete_lines.
  by rewrite E, last_snoc, length_app, Nat.add_sub, take_app_length.
Qed.

Lemma inv_residual T st : range_inv T st -> rg_residual st = or_else (last (split_crlf T)) [].
Proof. intros (_ & ws & E & _). by rewrite E, last_snoc. Qed.

(** However the stream is cut, a query whose limit is not reached before the last line is
    answered with the entries of the period, in the order of the file. *)
Theorem range_settles chunks :
  below (found (complete_lines (mjoin chunks))) ->
  rg_status (range fromTs toTs limit (map Data chunks ++ [End]))
    = Settled (Ok (found (split_crlf (mjoin chunks)))).
Proof.
  intros H. unfold range. rewrite fold_left_app. cbn [fold_left].
  assert (Hn : below (rg_out range_init)).
  { apply (below_app _ (found (complete_lines (mjoin chunks)))). exact H. }
  destruct (range_data chunks [] range_init init_inv Hn) as [H1 _]. specialize (H1 H).
  revert H1. generalize (fold_left (on_event fromTs toTs limit) (map Data chunks) range_init).
  intros st Hi. cbn [app] in Hi. unfold on_event. destruct Hi as [Hr Hi']. rewrite Hr.
  assert (Hi := conj Hr Hi' : range_inv _ _). assert (Ho := inv_found _ _ Hi). assert (Hres := inv_residual _ _ Hi).
  rewrite split_complete, found_app, <- Ho, <- Hres. rewrite <- Ho in H. unfold below in H. rewrite H.
  unfold found. cbn [negb andb omap list_omap].
  destruct (nonempty _); [|by rewrite app_nil_r]. by destruct (entry_in _ _ _); rewrite ?app_nil_r.
Qed.

(** When the limit is reached before the last line, the stream is destroyed and the promise
    is settled by no later event: the caller waits for ever. *)
Theorem range_limit_hangs chunks evs :
  full limit [] = false ->
  full limit (found (complete_lines (mjoin chunks))) = true ->
  rg_status (range fromTs toTs limit (map Data chunks ++ evs)) = Destroyed.
Proof.
  intros H0 H. unfold range. rewrite fold_left_app. apply destroyed_stays.
  destruct (range_data chunks [] range_init init_inv H0) as [_ H1]. apply H1.
  unfold below. cbn [app]. by rewrite H.
Qed.

Lemma stringify_entry e :
  fromTs <= e_ts e <= toTs ->
  (if nonempty (trim (stringify e)) then entry_in fromTs toTs (stringify e) else None) = Some e.
Proof.
  intros Ht. destruct (stringify_brace e) as (t & E).
  destruct (trim_head 123 t eq_refl) as (t' & E'). rewrite E, E'. cbn [nonempty].
  unfold entry_in. rewrite <- E, parse_stringify.
  destruct (Z.leb_spec fromTs (e_ts e)), (Z.leb_spec (e_ts e) toTs); cbn [andb]; lia || done.
Qed.

Lemma stringify_outside e :
  ~ (fromTs <= e_ts e <= toTs) ->
  (if nonempty (trim (stringify e)) then entry_in fromTs toTs (stringify e) else None) = None.
Proof.
  intros Ht. unfold entry_in. rewrite parse_stringify.
  destruct (Z.leb_spec fromTs (e_ts e)), (Z.leb_spec (e_ts e) toTs); cbn [andb];
    try lia; by destruct (nonempty _).
Qed.

Lemma split_line l t :
  Forall (fun c => c <> 10 /\ c <> 13) l -> split_crlf (l ++ 10 :: t) = l :: split_crlf t.
Proof.
  intros H. rewrite !split_crlf_spec, split_on_app_sep, split_on_none, strip_init_app.
  - cbn [map app]. f_equal. destruct (last l) as [x|] eqn:E; [|by apply last_None in E as ->].
    apply last_Some in E as (l' & ->). unfold strip_cr. rewrite last_snoc.
    apply Forall_app in H as [_ H]. apply Forall_inv in H.
    by destruct (Z.eqb_spec x 13) as [->|]; [destruct H|].
  - apply split_on_not_nil.
  - eapply Forall_impl; [done|]. by intros c [].
Qed.

Lemma append_lines es t :
  split_crlf (fold_left append es [] ++ t) = map stringify es ++ split_crlf t.
Proof.
  revert t. induction es as [|e es IH] using rev_ind; intros t; [done|].
  rewrite fold_left_app, map_app. cbn [fold_left]. unfold append at 1.
  rewrite <- !app_assoc, IH. cbn [app map]. by rewrite split_line by apply stringify_line.
Qed.

(** What was appended is read back: however the file is cut into chunks, the entries of the
    period come back in the order they were appended. *)
Theorem storage_roundtrip es chunks :
  limit = None -> mjoin chunks = fold_left append es [] ->
  rg_status (range fromTs toTs limit (map Data chunks ++ [End]))
    = Settled (Ok (filter (fun e => fromTs <= e_ts e <= toTs) es)).
Proof.
  intros Hl E. rewrite range_settles by (unfold below, full; by rewrite Hl).
  rewrite E, <- (app_nil_r (fold_left _ _ _)), append_lines, found_app. do 2 f_equal.
  cbn. rewrite app_nil_r. clear E. induction es as [|e es IH]; [done|].
  rewrite map_cons, filter_cons. unfold found in *. cbn [omap list_omap]. rewrite IH.
  case_decide as Hd; [by rewrite stringify_entry|by rewrite stringify_outside].
Qed.
End storage_facts.

(** ** The index lists the runs of the merged list *)

Section index_facts.
Import Index.

(** The lines the segments stand for, by file *)
Definition expand (segs : list FileSeg) : list str :=
  mjoin (map (fun s => replicate (Z.to_nat (sg_lines s)) (sg_name s)) segs).

(** The segments follow each other without gap from [from] on, none is empty, and two
    neighbours are of different files. *)
Fixpoint tiles (from : Z) (segs : list FileSeg) : Prop :=
  match segs with
  | [] => True
  | s :: rest =>
      sg_from s = from /\ 0 < sg_lines s /\ tiles (from + sg_lines s) rest /\
      match rest with t :: _ => sg_name s <> sg_name t | [] => True end
  end.

Record index_ok (names : list str) (st : index_store) : Prop := {
  io_lines : expand (ix_segments st) = names;
  io_tiles : tiles 0 (ix_segments st);
  io_total : ix_total st = zlen names;
  io_cur : ix_cur st = match ix_segments st with [] => None | _ => Some (length (ix_segments st) - 1)%nat end;
}.

Lemma expand_app l1 l2 : expand (l1 ++ l2) = expand l1 ++ expand l2.
Proof. unfold expand. by rewrite map_app, join_app. Qed.

Lemma tiles_snoc_line from l s :
  tiles from (l ++ [s]) -> tiles from (l ++ [add_line s]).
Proof.
  revert from. induction l as [|x l IH]; intros from; cbn [app tiles].
  - intros (? & ? & _ & _). cbn. split_and!; done || lia.
  - intros (? & ? & H & Hn). split_and!; [done..|by apply IH|]. by destruct l.
Qed.

Lemma tiles_snoc_new from l n :
  tiles from l -> (forall s, last l = Some s -> sg_name s <> n) ->
  tiles from (l ++ [Seg n (from + zlen (expand l)) 1]).
Proof.
  revert from. induction l as [|x l IH]; intros from; cbn [app tiles].
  - intros _ _. unfold zlen. cbn. split_and!; done || lia.
  - intros (? & ? & H & Hn) Hl.
    assert (E : zlen (expand (x :: l)) = sg_lines x + zlen (expand l)).
    { rewrite (expand_app [x] l : expand (x :: l) = _). unfold zlen.
      rewrite length_app. unfold expand at 1. cbn. rewrite app_nil_r, length_replicate. lia. }
    rewrite E, Z.add_assoc. split_and!; [done..| |].
    + apply IH; [done|]. intros s Hs. apply Hl. by rewrite last_cons, Hs.
    + destruct l as [|y l]; [by apply (Hl x)|done].
Qed.

Lemma expand_last l s :
  0 < sg_lines s -> expand (l ++ [add_line s]) = expand (l ++ [s]) ++ [sg_name s].
Proof.
  intros H. rewrite !expand_app, <- app_assoc. f_equal. unfold expand, add_line. cbn.
  rewrite Z2Nat.inj_add, !app_nil_r by lia. by rewrite Nat.add_1_r, replicate_S_end.
Qed.

Lemma tiles_last from l s : tiles from (l ++ [s]) -> 0 < sg_lines s.
Proof.
  revert from. induction l as [|x l IH]; intros from; cbn [app tiles]; [by intros (_ & ? & _)|].
  intros (_ & _ & H & _). by apply IH in H.
Qed.

Lemma on_entry_last l s total e :
  on_entry (IndexStore (l ++ [s]) total (Some (length l))) e =
  if bool_decide (sg_name s = name_of e)
  then IndexStore (l ++ [add_line s]) (total + 1) (Some (length l))
  else IndexStore ((l ++ [s]) ++ [Seg (name_of e) total 1]) (total + 1) (Some (length (l ++ [s]))).
Proof.
  unfold on_entry. cbn [ix_segments ix_total ix_cur].
  assert (Hs : (l ++ [s]) !! length l = Some s) by (by apply list_lookup_middle).
  rewrite length_app, Nat.add_sub, Hs. case_bool_decide as E.
  - cbv beta iota. by rewrite alter_app_r_alt, Nat.sub_diag by lia.
  - cbn [negb]. rewrite orb_true_r. cbv beta iota.
    rewrite (alter_app_r_alt _ (l ++ [s])), length_app, Nat.sub_diag by (rewrite length_app; lia).
    cbn [alter list_alter]. unfold add_line. cbn. by rewrite Z.add_simpl_r.
Qed.

Lemma on_entry_ok names st e : index_ok names st -> index_ok (names ++ [name_of e]) (on_entry st e).
Proof.
  intros [Hl Ht Htot Hcur]. destruct st as [segs total cur]. cbn [ix_segments ix_total ix_cur] in Hl, Ht, Htot, Hcur.
  assert (Hz : zlen (names ++ [name_of e]) = total + 1).
  { subst total. unfold zlen. rewrite length_app. simpl. lia. }
  destruct (decide (segs = [])) as [->|Hne].
  { subst cur. cbn in Hl. subst names total. constructor; cbn; done || lia. }
  destruct (exists_last Hne) as (l & s & ->). replace cur with (Some (length l)).
  2:{ subst cur. rewrite length_app, Nat.add_sub. by destruct l. }
  rewrite on_entry_last. case_bool_decide as En; constructor; cbn [ix_segments ix_total ix_cur]; try done.
  - by rewrite expand_last, Hl, En by (by eapply tiles_last).
  - by apply tiles_snoc_line.
  - rewrite length_app, Nat.add_sub. by destruct l.
  - by rewrite expand_app, Hl.
  - rewrite Htot, <- Hl. apply (tiles_snoc_new 0); [done|]. intros s' Hs. rewrite last_snoc in Hs. by simplify_eq.
  - rewrite (length_app (l ++ [s])), Nat.add_sub. by destruct l.
Qed.

(** The segments of a merge are exactly the runs of lines of one file, whatever the batches:
    they follow each other without gap, neighbours differ, their lengths add up to the
    total, and the index file holds that total. *)
Theorem index_runs batches :
  let st := fold_left index_batch batches (begin None) in
  expand (ix_segments st) = map name_of (mjoin batches) /\ tiles 0 (ix_segments st) /\
  writeIndex st = (zlen (mjoin batches), ix_segments st).
Proof.
  set (st := fold_left _ _ _).
  assert (H : index_ok (map name_of (mjoin batches)) st).
  { subst st. change (map name_of (mjoin batches)) with ([] ++ map name_of (mjoin batches)).
    assert (H0 : index_ok [] (begin None)) by done. revert H0. generalize (begin None) ([] : list str).
    assert (Hb : forall logs st names, index_ok names st -> index_ok (names ++ map name_of logs) (index_batch st logs)).
    { induction logs as [|e logs IH]; intros st names H0; cbn; [by rewrite app_nil_r|].
      rewrite cons_middle, app_assoc. by apply IH, on_entry_ok. }
    induction batches as [|b batches IH]; intros st names H0; cbn; [by rewrite app_nil_r|].
    rewrite map_app, app_assoc. by apply IH, Hb. }
  destruct H as [Hl Ht Htot _]. split_and!; [done..|]. unfold writeIndex.
  destruct (Z.eqb_spec (ix_total st) 0) as [E|E]; cbn [negb]; f_equal.
  - rewrite Htot in E. assert (Hn : map name_of (mjoin batches) = []) by (by apply length_zero_iff_nil; unfold zlen in E; lia).
    apply map_eq_nil in Hn. rewrite Hn in *. cbn in Hl.
    destruct (ix_segments st) as [|s l]; [done|]. destruct Ht as (_ & Hp & _). unfold expand in Hl.
    cbn in Hl. apply app_eq_nil in Hl as [Hl _]. apply (f_equal length) in Hl.
    rewrite length_replicate in Hl. simpl in Hl. lia.
  - rewrite Htot. unfold zlen. by rewrite length_map.
Qed.

(** A plan is not what the batches are checked against: its lines are counted, and the lines
    of the batches are counted again. *)
Example plan_counts_twice :
  let e := Entry 1 None 0 LvI [] (js "a.log") [] (js "x") None None None in
  let st := index_batch (begin (Some [(js "a.log", 2); (js "b.log", 1)])) [e; e] in
  ix_total st = 5 /\ map sg_name (ix_segments st) = [js "a.log"; js "b.log"; js "a.log"].
Proof. vm_compute. by split. Qed.
End index_facts.

(** ** Cleaning early is cleaning late *)

Section sanitize_facts.
Import Sanitize.
Context (nfc : str -> str).

Lemma exec_from_cls p s : forall i prev,
  exec_from (Cls p) i prev s =
  match s with
  | [] => None
  | c :: t => if p c then Some (RxMatch i [c] t []) else exec_from (Cls p) (S i) (Some c) t
  end.
Proof.
  destruct s as [|c t]; intros i prev; [done|]. cbn [exec_from rmatch m_rest m_caps].
  destruct (p c); [|done]. cbn [m_rest m_caps length]. do 2 f_equal.
  by rewrite Nat.sub_succ_l, Nat.sub_diag by lia.
Qed.

Lemma exec_from_shift p s : forall i prev,
  exec_from (Cls p) (S i) prev s =
  (fun m => RxMatch (S (rx_index m)) (rx_text m) (rx_rest m) (rx_caps m)) <$> exec_from (Cls p) i prev s.
Proof.
  induction s as [|c t IH]; intros i prev; [done|].
  rewrite (exec_from_cls p (c :: t) (S i)), (exec_from_cls p (c :: t) i). destruct (p c); [done|apply IH].
Qed.

(** Dropping every match of a class of units is a filter. *)
Lemma remove_all_cls p s : remove_all (Cls p) s = filter (fun c => p c = false) s.
Proof.
  unfold remove_all. generalize (@None Z).
  assert (H : forall f s prev, (length s < f)%nat ->
    remove_all_from f (Cls p) prev s = filter (fun c => p c = false) s); [|intros; apply H; lia].
  clear s. intros f s. revert f. induction s as [|c t IH]; intros [|f] prev Hf; simpl in Hf; try lia; [done|].
  cbn [remove_all_from]. rewrite exec_from_cls, filter_cons. destruct (p c) eqn:E.
  - rewrite decide_False by congruence. cbn [rx_index rx_rest rx_text take app]. apply IH. lia.
  - rewrite decide_True by done. rewrite exec_from_shift.
    specialize (IH (S f) (Some c) ltac:(lia)). cbn [remove_all_from] in IH.
    destruct (exec_from (Cls p) 0 (Some c) t) as [m|]; cbn [fmap option_fmap option_map] in *; [|by rewrite <- IH].
    cbn [rx_index rx_text rx_rest take app]. by rewrite IH.
Qed.

(** What the cleaning of a chunk and of a line share *)
Definition clean (o : SanitizeOptions) (s : str) : str :=
  when (so_normalizeNbsp o) normalizeNbsp
    (when (so_dropControlExceptTab o) dropControlExceptTab (when (so_dropIntralineBOM o) dropIntralineBOM s)).

(** [clean] drops some units and replaces others, one by one. *)
Definition clean_unit (o : SanitizeOptions) (c : Z) : option Z :=
  if so_dropIntralineBOM o && (65279 =? c) then None
  else if so_dropControlExceptTab o && CTRL_EXCEPT_TAB c then None
  else if so_normalizeNbsp o && (c =? 160) then Some 32 else Some c.

Lemma omap_filter (p : Z -> bool) (s : str) :
  filter (fun c => p c = false) s = omap (fun c => if p c then None else Some c) s.
Proof.
  induction s as [|c s IH]; [done|]. rewrite filter_cons. cbn [omap list_omap]. rewrite <- IH.
  destruct (p c); case_decide; congruence.
Qed.

Lemma omap_omap (f g : Z -> option Z) (s : str) : omap g (omap f s) = omap (fun c => f c ≫= g) s.
Proof.
  induction s as [|c s IH]; [done|]. cbn [omap list_omap].
  destruct (f c) as [d|]; cbn [omap list_omap mbind option_bind]; by rewrite IH.
Qed.

Lemma omap_map (f : Z -> Z) (s : str) : map f s = omap (fun c => Some (f c)) s.
Proof. induction s as [|c s IH]; [done|]. cbn [map omap list_omap]. by rewrite IH. Qed.

Lemma omap_id (s : str) : omap Some s = s.
Proof. induction s as [|c s IH]; [done|]. cbn [omap list_omap]. by rewrite IH. Qed.

Lemma omap_ext_all (f g : Z -> option Z) (s : str) : (forall c, f c = g c) -> omap f s = omap g s.
Proof. intros H. induction s as [|c s IH]; [done|]. cbn [omap list_omap]. by rewrite H, IH. Qed.

Lemma clean_omap o s : clean o s = omap (clean_unit o) s.
Proof.
  unfold clean, clean_unit, dropIntralineBOM, dropControlExceptTab, normalizeNbsp, chr.
  destruct o as [? ? ? [] [] [] ?];
    cbn [when so_dropIntralineBOM so_dropControlExceptTab so_normalizeNbsp andb];
    rewrite ?remove_all_cls, ?omap_filter, ?omap_map, ?omap_omap; try by rewrite omap_id.
  all: apply omap_ext_all; intros c;
    destruct (65279 =? c); cbn [mbind option_bind]; try done;
    destruct (CTRL_EXCEPT_TAB c); cbn [mbind option_bind]; try done; by destruct (c =? 160).
Qed.

Lemma clean_idemp o s : clean o (clean o s) = clean o s.
Proof.
  rewrite !clean_omap. induction s as [|c s IH]; [done|]. cbn [omap list_omap].
  destruct (clean_unit o c) as [d|] eqn:E; [|done]. cbn [omap list_omap]. rewrite IH.
  replace (clean_unit o d) with (Some d); [done|]. revert E. unfold clean_unit.
  destruct (_ && _) eqn:E1; [done|]. destruct (_ && CTRL_EXCEPT_TAB c) eqn:E2; [done|].
  destruct (so_normalizeNbsp o && (c =? 160)) eqn:E3; intros [= <-].
  - unfold CTRL_EXCEPT_TAB. cbn. by rewrite !andb_false_r.
  - by rewrite E1, E2, E3.
Qed.

Lemma clean_split o s : split_on 10 (clean o s) = map (clean o) (split_on 10 s).
Proof.
  rewrite clean_omap. induction s as [|c s IH]; cbn [omap list_omap split_on map].
  { by rewrite clean_omap. }
  assert (H10 : clean_unit o 10 = Some 10) by (by destruct o as [? ? ? [] [] [] ?]).
  destruct (Z.eqb_spec c 10) as [->|Hc].
  - rewrite H10. cbn [split_on map]. rewrite IH, clean_omap. done.
  - destruct (split_on 10 s) as [|w ws] eqn:E; [by apply split_on_not_nil in E|].
    cbn [map] in *. rewrite !clean_omap in *. cbn [omap list_omap].
    destruct (clean_unit o c) as [d|] eqn:Ed; [|done]. cbn [split_on]. rewrite IH.
    destruct (Z.eqb_spec d 10) as [->|]; [exfalso|done]. revert Ed. unfold clean_unit.
    repeat case_match; congruence.
Qed.

(** Cleaning a chunk before it is cut into lines is safe: the cleaned lines are the same as
    when the chunk had not been cleaned, as long as a trailing CR is not to be removed. *)
Theorem early_cleaning_safe o chunk :
  so_unicodeNFC o = false -> so_stripTrailingCR o = false ->
  map (sanitizeLine nfc o) (split_on 10 (sanitizeChunkBeforeSplit nfc o false chunk))
    = map (sanitizeLine nfc o) (split_on 10 chunk).
Proof.
  intros Hn Hc. assert (E : sanitizeChunkBeforeSplit nfc o false chunk = clean o chunk).
  { unfold sanitizeChunkBeforeSplit. by rewrite Hn. }
  assert (Hl : forall l, sanitizeLine nfc o l = when (so_stripAnsi o) sanitize_ansi (clean o l)).
  { intros l. unfold sanitizeLine. by rewrite Hn, Hc. }
  rewrite E, clean_split, map_map. apply map_ext. intros l. by rewrite !Hl, clean_idemp.
Qed.

(** A trailing CR is looked for before the other units are dropped: cleaned late, a line that
    ends in CR and U+FEFF keeps its CR; cleaned early, it loses both. *)
Example trailing_cr_kept :
  let chunk := js "a" ++ [13; 65279; 10] in
  map (sanitizeLine nfc DEFAULT_SANITIZE) (split_on 10 chunk) = [js "a" ++ [13]; []] /\
  map (sanitizeLine nfc DEFAULT_SANITIZE)
      (split_on 10 (sanitizeChunkBeforeSplit nfc DEFAULT_SANITIZE false chunk)) = [js "a"; []].
Proof. by vm_compute. Qed.
End sanitize_facts.

(** ** A search is one pass *)

Section search_facts.
Import Search.
Context `{RE : RegExpEngine} (lower : str -> str).

(** The period and the text of a query as one test; [None] when its expression is malformed *)
Definition query_test (q : SearchQuery) : option (LogEntry -> bool) :=
  let in_period e := match sq_range q with Some (a, b) => (a <=? e_ts e) && (e_ts e <=? b) | None => true end in
  match sq_q q with
  | Some ((_ :: _) as s) =>
      if sq_regex q
      then (fun r e => in_period e && re_test r (primaryText lower e)) <$> new_RegExp s true
      else Some (fun e => in_period e && includes (primaryText lower e) (lower s))
  | _ => Some in_period
  end.

Lemma filter_and (p1 p2 : LogEntry -> bool) (l : list LogEntry) :
  filter (fun e => p2 e = true) (filter (fun e => p1 e = true) l) = filter (fun e => p1 e && p2 e = true) l.
Proof.
  rewrite list_filter_filter. apply list_filter_iff. intros e. rewrite andb_true_iff. tauto.
Qed.

Lemma filter_every (l : list LogEntry) : filter (fun _ => true = true) l = l.
Proof. induction l as [|e l IH]; [done|]. rewrite filter_cons. by rewrite decide_True, IH. Qed.

Lemma fields_ok_blank q e :
  nonempty (norm lower (sq_pid q)) || nonempty (norm lower (sq_file q))
  || nonempty (norm lower (sq_process q)) || nonempty (norm lower (sq_message q)) = false ->
  fields_ok lower q e = true.
Proof. intros H. unfold fields_ok. by repeat (apply orb_false_iff in H as [H ->]); rewrite H. Qed.

(** The successive passes of a search select exactly the entries that pass every test, in
    their order, cut to the requested number; a malformed expression throws. *)
Theorem search_one_pass entries q :
  search lower entries q =
  match query_test q with
  | Some t =>
      let hits := filter (fun e => t e && fields_ok lower q e = true) entries in
      Ok (match sq_top q with Some n => if n =? 0 then hits else slice_top hits n | None => hits end)
  | None => Throws
  end.
Proof.
  unfold search, query_test.
  set (guard := nonempty _ || _ || _ || _). 
  set (in_period := fun e : LogEntry =>
         match sq_range q with Some (a, b) => (a <=? e_ts e) && (e_ts e <=? b) | None => true end).
  assert (Hr : (match sq_range q with
                | Some (a, b) => filter (fun e => (a <=? e_ts e) && (e_ts e <=? b) = true) entries
                | None => entries end) = filter (fun e => in_period e = true) entries).
  { subst in_period. destruct (sq_range q) as [[a b]|]; [done|]. by rewrite filter_every. }
  assert (Hf : forall t, (if guard then filter (fun e => fields_ok lower q e = true) (filter (fun e => t e = true) entries)
                          else filter (fun e => t e = true) entries)
                         = filter (fun e => t e && fields_ok lower q e = true) entries).
  { intros t. destruct guard eqn:E; [apply filter_and|]. apply list_filter_iff. intros e.
    by rewrite fields_ok_blank, andb_true_r. }
  rewrite Hr. destruct (sq_q q) as [[|c s]|]; cbn [res_bind]; [by rewrite Hf| |by rewrite Hf].
  destruct (sq_regex q); [destruct (new_RegExp _ _) as [r|]; [|done]|];
    cbn [res_bind fmap option_fmap option_map].
  - by rewrite (filter_and in_period), (Hf (fun e => in_period e && re_test r (primaryText lower e))).
  - by rewrite (filter_and in_period), (Hf (fun e => in_period e && includes (primaryText lower e) (lower (c :: s)))).
Qed.
End search_facts.

Section witnesses.
Import Storage.

Definition stored (n : Z) : LogEntry := Entry n None n LvI (js "s") (js "a.log") (js "/a.log") (js "x") None None None.

(** Three entries, cut in the middle of a line *)
Definition stored_text : str := fold_left append [stored 1; stored 2; stored 3] [].
Definition stored_chunks : list str := [take 20 stored_text; drop 20 stored_text].

Lemma range_settles_witness :
  rg_status (range 2 3 (Some 5) (map Data stored_chunks ++ [End])) = Settled (Ok (found 2 3 (split_crlf (mjoin stored_chunks)))).
Proof. apply (range_settles 2 3 (Some 5) stored_chunks). by vm_compute. Defined.

Lemma range_limit_hangs_witness :
  rg_status (range 0 9 (Some 2) (map Data stored_chunks ++ [End])) = Destroyed.
Proof. apply (range_limit_hangs 0 9 (Some 2) stored_chunks [End]); by vm_compute. Defined.

Lemma storage_roundtrip_witness :
  rg_status (range 2 3 None (map Data stored_chunks ++ [End]))
    = Settled (Ok (filter (fun e => 2 <= e_ts e <= 3) [stored 1; stored 2; stored 3])).
Proof. apply (storage_roundtrip 2 3 None [stored 1; stored 2; stored 3] stored_chunks); [done|by vm_compute]. Defined.

Lemma early_cleaning_safe_witness :
  let o := Sanitize.Options true false true true true true false in
  map (Sanitize.sanitizeLine id o) (split_on 10 (Sanitize.sanitizeChunkBeforeSplit id o false [97; 65279; 10; 160; 7]))
    = map (Sanitize.sanitizeLine id o) (split_on 10 [97; 65279; 10; 160; 7]).
Proof. by apply early_cleaning_safe. Defined.
End witnesses.
