(* ===== verification/Grid.v ===== *)
(** * The grid of the log viewer

    src/webviewers/log-viewer/react/components/Grid.tsx and the column template of
    GridHeader.tsx: the handler of scroll events, the timers that hold back page requests,
    the effects that ask for pages after a jump, a refresh or new lines, the rows that are
    painted, and the highlighting of a cell.  [grid] holds what the component keeps in its
    references.  An effect is the body React runs after a change; when React runs it is not
    modelled.  Sizes are whole pixels, times whole milliseconds; log texts and time
    measurements are left out. *)

From stdpp Require Import base list strings gmap.
From Stdlib Require Import ZArith Lia.
From S2P Require Import Prelude JsString Regex TimeParser LogEntry Json LogFilter Pagination.
From S2P Require Import Messages Viewer.

Definition BASE_DEBOUNCE_MS : Z := 48.
Definition DRAG_DEBOUNCE_MS : Z := 80.
Definition MAX_WAIT_MS : Z := 240.
Definition DRAG_RPS_THRESHOLD : Z := 120.
Definition DRAG_IDLE_MS : Z := 140.
Definition AUTO_PAUSE_TOLERANCE_ROWS : Z := 2.

(** The references of the component; a timer is the time it fires at. *)
Record grid := Grid {
  gr_lastReq : option (Z * Z);
  gr_pending : option (Z * Z);
  gr_debounce : option Z;
  gr_maxWait : option Z;
  gr_sample : option (Z * Z);       (* top, time *)
  gr_dragUntil : Z;
  gr_ignoreScroll : bool;
  gr_windowChange : Z;
}.

Definition grid_init : grid := Grid None None None None None 0 false 0.

(** What the handlers read of the page: the scrolled element and the top of the list in it *)
Record geometry := Geometry { ge_top : Z; ge_client : Z; ge_height : Z; ge_header : Z }.

(** ** The request timers *)

Definition with_request (last pending : option (Z * Z)) (debounce maxWait : option Z) (g : grid) : grid :=
  Grid last pending debounce maxWait (gr_sample g) (gr_dragUntil g) (gr_ignoreScroll g) (gr_windowChange g).

Definition flushScheduledRequest (g : grid) : grid * list w2h :=
  match gr_pending g with
  | None => (g, [])
  | Some (s, e) =>
      if bool_decide (gr_lastReq g = Some (s, e))
      then (with_request (gr_lastReq g) None (gr_debounce g) (gr_maxWait g) g, [])
      else (with_request (Some (s, e)) None None None g, [PageRequest (Some s) (Some e)])
  end.

Definition schedulePageRequest (now startIdx endIdx delayMs : Z) (isDragging : bool) (g : grid) : grid :=
  if bool_decide (gr_pending g = Some (startIdx, endIdx)) then g
  else with_request (gr_lastReq g) (Some (startIdx, endIdx)) (Some (now + Z.max 0 delayMs))
         (if isDragging then Some (now + MAX_WAIT_MS) else None) g.

(** The two timers *)
Definition fire_debounce (g : grid) : grid * list w2h :=
  flushScheduledRequest (with_request (gr_lastReq g) (gr_pending g) None (gr_maxWait g) g).

Definition fire_maxWait (g : grid) : grid * list w2h :=
  flushScheduledRequest (with_request (gr_lastReq g) (gr_pending g) (gr_debounce g) None g).

Definition due (now : Z) (t : option Z) : bool := match t with Some t => t <=? now | None => false end.

(** The timers that are due at a time, the earlier one first *)
Definition advance (now : Z) (g : grid) : grid * list w2h :=
  let debounce g := if due now (gr_debounce g) then fire_debounce g else (g, []) in
  let maxWait g := if due now (gr_maxWait g) then fire_maxWait g else (g, []) in
  let both f1 f2 g := let '(g1, out1) := f1 g in let '(g2, out2) := f2 g1 in (g2, out1 ++ out2) in
  match gr_debounce g, gr_maxWait g with
  | Some d, Some w => if d <=? w then both debounce maxWait g else both maxWait debounce g
  | _, _ => both debounce maxWait g
  end.

(** ** Scrolling *)

(** The number of rows that fit *)
Definition capacity (ge : geometry) : Z :=
  Z.max 1 (Z.max 0 (ge_client ge - ge_header ge) / Z.max 1 LOG_ROW_HEIGHT).

(** The number of the first row in view *)
Definition est_start (ge : geometry) : Z :=
  Z.max 0 (ge_top ge - ge_header ge) / Z.max 1 LOG_ROW_HEIGHT + 1.

Definition request_size (ge : geometry) : Z :=
  Z.max (capacity ge) (Z.min windowSize (capacity ge + LOG_OVERSCAN)).

(** The range the handler wants, [None] when it leaves the window as it is *)
Definition scroll_range (ge : geometry) (w : view) : option (Z * Z) :=
  let requestSize := request_size ge in
  let maxStart := Z.max 1 (v_totalRows w - requestSize + 1) in
  let halfOver := LOG_OVERSCAN / 2 in
  let desiredStart := Z.min (Z.max 1 (est_start ge - halfOver)) maxStart in
  let diff := desiredStart - v_windowStart w in
  if (Z.abs diff <? Z.max 10 halfOver) && (0 <=? diff) then None
  else Some (desiredStart, Z.min (v_totalRows w) (desiredStart + requestSize - 1)).

(** [rowsPerSec >= DRAG_RPS_THRESHOLD] *)
Definition fast (ge : geometry) (now top t : Z) : bool :=
  DRAG_RPS_THRESHOLD * Z.max 1 LOG_ROW_HEIGHT * Z.max 1 (now - t) <=? 1000 * Z.abs (ge_top ge - top).

Definition nearBottom (ge : geometry) : bool :=
  2 * ge_height ge - LOG_ROW_HEIGHT * (2 * AUTO_PAUSE_TOLERANCE_ROWS + 1)
    <=? 2 * (ge_top ge + ge_client ge).

(** [onScroll]; [now] is [performance.now()], [date] is [Date.now()]. *)
Definition onScroll (ge : geometry) (now date : Z) (s : viewer) (g : grid) : viewer * grid :=
  if gr_ignoreScroll g || (date - gr_windowChange g <? 100) then (s, g)
  else
    match scroll_range ge (vw s) with
    | None => (s, g)
    | Some (startIdx, endIdx) =>
        let until := match gr_sample g with
                     | Some (top, t) => if fast ge now top t then now + DRAG_IDLE_MS else gr_dragUntil g
                     | None => gr_dragUntil g
                     end in
        let g1 := Grid (gr_lastReq g) (gr_pending g) (gr_debounce g) (gr_maxWait g)
                    (Some (ge_top ge, now)) until (gr_ignoreScroll g) (gr_windowChange g) in
        let isDragging := now <? until in
        let g2 := schedulePageRequest now startIdx endIdx
                    (if isDragging then DRAG_DEBOUNCE_MS else BASE_DEBOUNCE_MS) isDragging g1 in
        (if v_follow (vw s) && negb (nearBottom ge) then setFollow false s else s, g2)
    end.

(** ** Effects *)

(** Setting [scrollTop] from the program: scroll events are ignored until the next frame. *)
Definition programmatic (date : Z) (g : grid) : grid :=
  Grid (gr_lastReq g) (gr_pending g) (gr_debounce g) (gr_maxWait g) (gr_sample g) (gr_dragUntil g) true date.

(** The callback of [requestAnimationFrame] *)
Definition next_frame (g : grid) : grid :=
  Grid (gr_lastReq g) (gr_pending g) (gr_debounce g) (gr_maxWait g) (gr_sample g) (gr_dragUntil g) false
    (gr_windowChange g).

(** [el.scrollTop = Math.max(0, Math.min(target, el.scrollHeight - el.clientHeight))] *)
Definition scroll_to (target : Z) (ge : geometry) : geometry :=
  Geometry (Z.max 0 (Z.min target (ge_height ge - ge_client ge))) (ge_client ge) (ge_height ge) (ge_header ge).

(** The first row in view after a jump to the middle *)
Definition view_start (ge : geometry) (total idx : Z) : Z :=
  let cap := capacity ge in
  Z.max 1 (Z.min (Z.max 1 (total - cap + 1)) (idx - (cap - 1) / 2)).

(** Where a jump scrolls to *)
Definition jump_target (ge : geometry) (total idx : Z) : Z :=
  let rowH := Z.max 1 LOG_ROW_HEIGHT in
  let cap := capacity ge in
  let centerOffset := (cap - 1) / 2 in
  let centerTopIdx := 1 + centerOffset in
  let centerBottomIdx := Z.max 1 (total - cap + 1 + centerOffset) in
  if idx <? centerTopIdx then ge_header ge
  else if centerBottomIdx <? idx then ge_header ge + total * rowH - ge_client ge
  else ge_header ge + (view_start ge total idx - 1) * rowH.

(** The page a jump asks for *)
Definition jump_request (total idx : Z) : Z * Z :=
  let half := windowSize / 2 in
  let reqStart := Z.max 1 (Z.min (Z.max 1 (total - windowSize + 1)) (idx - half)) in
  (reqStart, Z.min total (reqStart + windowSize - 1)).

(** The effect of a pending jump *)
Definition jump_effect (ge : geometry) (date : Z) (w : view) (g : grid) : geometry * grid * list w2h :=
  match v_pendingJumpIdx w with
  | Some idx =>
      if idx =? 0 then (ge, g, [])
      else
        let '(a, b) := jump_request (v_totalRows w) idx in
        (scroll_to (jump_target ge (v_totalRows w) idx) ge, programmatic date g,
         [PageRequest (Some a) (Some b)])
  | None => (ge, g, [])
  end.

(** The effect that ends a jump when the row has come *)
Definition jump_resolve (w : view) : view :=
  match v_pendingJumpIdx w with
  | Some target =>
      if target =? 0 then w
      else
        match List.find (fun r => bool_decide (lr_idx r = Some target)) (v_rows w) with
        | Some r => View (v_rows w) (v_nextId w) (v_totalRows w) (v_windowStart w) (Some (lr_id r)) None
                      (v_bookmarks w) (v_follow w) (v_newSincePause w)
        | None => w
        end
  | None => w
  end.

Definition scrollToBottom (ge : geometry) (date : Z) (w : view) (g : grid) : geometry * grid :=
  let hasRows := nonempty (v_rows w) in
  let endIdx := if hasRows then v_windowStart w + zlen (v_rows w) - 1 else Z.max 1 (v_totalRows w) in
  if negb hasRows && (endIdx <=? 0) then (ge, g)
  else (scroll_to (ge_header ge + endIdx * Z.max 1 LOG_ROW_HEIGHT - ge_client ge) ge, programmatic date g).

(** The effect after a refresh: a total, but no rows *)
Definition refresh_effect (now : Z) (w : view) (g : grid) : grid :=
  if (0 <? v_totalRows w) && negb (nonempty (v_rows w))
  then
    let startIdx := Z.max 1 (Z.min (Z.max 1 (v_windowStart w)) (Z.max 1 (v_totalRows w - windowSize + 1))) in
    let endIdx := Z.min (v_totalRows w) (startIdx + windowSize - 1) in
    schedulePageRequest now startIdx endIdx BASE_DEBOUNCE_MS false g
  else g.

(** The effect that keeps the newest line in view *)
Definition follow_effect (ge : geometry) (date : Z) (w : view) (g : grid) : geometry * grid * list w2h :=
  if negb (v_follow w) || match v_pendingJumpIdx w with Some j => negb (j =? 0) | None => false end
  then (ge, g, [])
  else if negb (nonempty (v_rows w)) then (ge, g, [])
  else
    let total := v_totalRows w in
    let endIdx := v_windowStart w + zlen (v_rows w) - 1 in
    let atTail := (0 <? total) && (total - 1 <=? endIdx) in
    let tailEnd := Z.max 1 total in
    let '(g1, out) := if negb atTail && (0 <? total)
                      then (programmatic date g,
                            [PageRequest (Some (Z.max 1 (tailEnd - windowSize + 1))) (Some tailEnd)])
                      else (g, []) in
    let '(ge2, g2) := scrollToBottom ge date w g1 in (ge2, g2, out).

(** The effect that stays at the bottom while lines come in *)
Definition stick_effect (ge : geometry) (date : Z) (w : view) (g : grid) : geometry * grid :=
  if v_follow w && nonempty (v_rows w) then scrollToBottom ge date w g else (ge, g).

(** ** Painting *)

(** The row painted for a virtual item, [None] for a placeholder *)
Definition paint (w : view) (index : Z) : option LogRow :=
  let offset := index - Z.max 0 (v_windowStart w - 1) in
  if (0 <=? offset) && (offset <? zlen (v_rows w)) then v_rows w !! Z.to_nat offset else None.

Definition px (n : Z) : str := print_int n ++ js "px".

(** The track of a column *)
Definition track (t : settings) (c : ColumnId) : str :=
  if negb (st_showCols t c) then js "0px"
  else match c with ColMsg => js "1fr" | _ => px (st_colW t c) end.

(** The last track that is not ['0px'] becomes ['1fr']. *)
Fixpoint widen_first (l : list str) : list str :=
  match l with
  | [] => []
  | t :: rest => if bool_decide (t = js "0px") then t :: widen_first rest else js "1fr" :: rest
  end.

Definition widen_last (tracks : list str) : list str := rev (widen_first (rev tracks)).

(** The tracks of the rows *)
Definition grid_tracks (t : settings) : list str :=
  let tracks := map (track t) [ColTime; ColProc; ColPid; ColSrc; ColMsg] in
  let tracks := if negb (st_showCols t ColMsg) then widen_last tracks else tracks in
  if existsb (fun x => negb (bool_decide (x = js "0px"))) tracks then tracks
  else match tracks with [] => [js "1fr"] | _ :: rest => js "1fr" :: rest end.

Definition gridCols (t : settings) : str :=
  js "var(--col-bm-w) var(--col-idx-w) " ++ join [32] (grid_tracks t).

(** [buildGridTemplate] of the header *)
Definition buildGridTemplate (t : settings) : str :=
  let push c v := if st_showCols t c then v else js "0px" in
  let tracks := [push ColTime (px (st_colW t ColTime)); push ColProc (px (st_colW t ColProc));
                 push ColPid (px (st_colW t ColPid)); push ColSrc (px (st_colW t ColSrc));
                 push ColMsg (js "1fr")] in
  let tracks := if negb (st_showCols t ColMsg) then widen_last tracks else tracks in
  let tracks := if existsb (fun x => negb (bool_decide (x = js "0px"))) tracks then tracks
                else js "1fr" :: drop 1 tracks in
  js "var(--col-bm-w) var(--col-idx-w) " ++ join [32] tracks.

Definition lastVisibleCol (t : settings) : option ColumnId :=
  let show := st_showCols t in
  if show ColMsg then Some ColMsg else if show ColSrc then Some ColSrc
  else if show ColPid then Some ColPid else if show ColProc then Some ColProc
  else if show ColTime then Some ColTime else None.

Definition idxWidthPx (total : Z) : Z :=
  let digits := Z.max 2 (zlen (print_int (Z.max 1 total))) in
  Z.min 120 (Z.max 48 (14 + digits * 8)).

(** ** Highlighting *)

(** [escapeHtml]: the three replacements, one after the other *)
Definition replace_unit (c : Z) (by_ : str) (s : str) : str :=
  s ≫= fun d => if d =? c then by_ else [d].

Definition escapeHtml (s : str) : str :=
  replace_unit 62 (js "&gt;") (replace_unit 60 (js "&lt;") (replace_unit 38 (js "&amp;") s)).

Section highlight.
(** How the flag [i] identifies units *)
Context (canon : Z -> Z).

(** Whether a text starts with a word, and what is left *)
Fixpoint match_word (word s : str) : option str :=
  match word, s with
  | [], _ => Some s
  | c :: word', d :: s' => if canon c =? canon d then match_word word' s' else None
  | _ :: _, [] => None
  end.

Definition mark (cls m : str) : str :=
  js "<mark class=" ++ [34] ++ cls ++ [34; 62] ++ m ++ js "</mark>".

(** [html.replace(re, ...)] for the escaped text of a word that is not empty; [n] units at
    most are read. *)
Fixpoint mark_all (n : nat) (cls word s : str) : str :=
  match n, s with
  | S n', c :: s' =>
      match match_word word s with
      | Some rest => mark cls (take (length s - length rest) s) ++ mark_all n' cls word rest
      | None => c :: mark_all n' cls word s'
      end
  | _, _ => s
  end.

Definition rule_class (r : HighlightRule) : str :=
  match hl_color r with Some c => js "hl-c" ++ print_int c | None => [] end.

(** One round of the loop over the rules *)
Definition apply_rule (html : str) (r : HighlightRule) : str :=
  let word := trim (hl_text r) in
  if negb (nonempty word) then html else mark_all (length html) (rule_class r) word html.

(** [hi]: plain text without rules, otherwise HTML *)
Definition hi (text : str) (rules : list HighlightRule) : str + str :=
  match rules with
  | [] => inl text
  | _ => inr (fold_left apply_rule rules (escapeHtml text))
  end.
End highlight.
