(* ===== verification/GridSpec.v ===== *)
(** * What the grid asks for and shows

    The page requests of the grid: the latest one is always sent, no two in a row are the
    same, and a drag holds them back for as long as it lasts.  The rows in view are among the
    requested or the loaded ones, and painted with their own numbers once the host has
    answered.  Jumps, columns and highlighting. *)

From stdpp Require Import base list strings gmap.
From Stdlib Require Import ZArith Lia.
From S2P Require Import Prelude JsString Regex TimeParser LogEntry Json ParserEngine Manifest.
From S2P Require Import ChunkWriter PagedReader LogFilter Pagination PaginationSpec PaginationCache Warmup.
From S2P Require Import Messages Viewer HostBridge HostBridgeSpec ViewerSpec ViewerHost Grid.

(** ** The request timers *)

(** A request the handlers make: its time, its range, and whether the user drags *)
Record wish := Wish { wi_time : Z; wi_start : Z; wi_end : Z; wi_drag : bool }.

Definition wish_delay (x : wish) : Z := if wi_drag x then DRAG_DEBOUNCE_MS else BASE_DEBOUNCE_MS.

(** The timers that are due run before a request is made. *)
Definition wish_step (x : wish) (g : grid) : grid * list w2h :=
  let '(g1, out) := advance (wi_time x) g in
  (schedulePageRequest (wi_time x) (wi_start x) (wi_end x) (wish_delay x) (wi_drag x) g1, out).

Fixpoint run_wishes (l : list wish) (g : grid) : grid * list w2h :=
  match l with
  | [] => (g, [])
  | x :: rest =>
      let '(g1, out1) := wish_step x g in
      let '(g2, out2) := run_wishes rest g1 in (g2, out1 ++ out2)
  end.

Definition sends (r : option (Z * Z)) : option w2h :=
  match r with Some (a, b) => Some (PageRequest (Some a) (Some b)) | None => None end.

(** No two neighbours of a list are the same. *)
Fixpoint stutter_free {A} (prev : option A) (l : list A) : Prop :=
  match l with
  | [] => True
  | x :: rest => prev <> Some x /\ stutter_free (Some x) rest
  end.

(** What a piece of the run keeps: from [g] the messages [out] are sent and [g'] reached. *)
Record sched_ok (g g' : grid) (out : list w2h) : Prop := {
  so_last : sends (gr_lastReq g') = match last out with Some m => Some m | None => sends (gr_lastReq g) end;
  so_fresh : stutter_free (sends (gr_lastReq g)) out;
}.

Lemma stutter_app {A} (p : option A) l1 l2 :
  stutter_free p l1 -> stutter_free (match last l1 with Some x => Some x | None => p end) l2 ->
  stutter_free p (l1 ++ l2).
Proof.
  revert p. induction l1 as [|x l1 IH]; intros p; [done|]. intros [H1 H2] H. split; [done|].
  apply IH; [done|]. rewrite last_cons in H. by destruct (last l1).
Qed.

Lemma sched_app g1 g2 g3 out1 out2 :
  sched_ok g1 g2 out1 -> sched_ok g2 g3 out2 -> sched_ok g1 g3 (out1 ++ out2).
Proof.
  intros [L1 F1] [L2 F2]. constructor.
  - rewrite L2, last_app. destruct (last out2); [done|]. by rewrite L1.
  - apply stutter_app; [done|]. rewrite L1 in F2. by destruct (last out1).
Qed.

Lemma sched_nil g g' : gr_lastReq g' = gr_lastReq g -> sched_ok g g' [].
Proof. intros E. constructor; [by rewrite E|done]. Qed.

Lemma flush_ok g : sched_ok g (fst (flushScheduledRequest g)) (snd (flushScheduledRequest g)).
Proof.
  unfold flushScheduledRequest. destruct (gr_pending g) as [[a b]|]; [|by apply sched_nil].
  case_bool_decide as E; [by apply sched_nil|]. constructor; [done|]. split; [|done].
  destruct (gr_lastReq g) as [[a' b']|]; [|done]. cbn. intros [= -> ->]. done.
Qed.

Lemma sched_from g0 g g' out : gr_lastReq g = gr_lastReq g0 -> sched_ok g g' out -> sched_ok g0 g' out.
Proof. intros E [L F]. rewrite E in L, F. by constructor. Qed.

(** The timers one by one *)
Definition debounce_due (now : Z) (g : grid) : grid * list w2h :=
  if due now (gr_debounce g) then fire_debounce g else (g, []).
Definition maxWait_due (now : Z) (g : grid) : grid * list w2h :=
  if due now (gr_maxWait g) then fire_maxWait g else (g, []).
Definition both (f1 f2 : grid -> grid * list w2h) (g : grid) : grid * list w2h :=
  let '(g1, out1) := f1 g in let '(g2, out2) := f2 g1 in (g2, out1 ++ out2).

Lemma advance_cases now g :
  advance now g = both (debounce_due now) (maxWait_due now) g \/
  (advance now g = both (maxWait_due now) (debounce_due now) g /\
   exists d w, gr_debounce g = Some d /\ gr_maxWait g = Some w /\ w < d).
Proof.
  unfold advance. destruct (gr_debounce g) as [d|] eqn:Ed, (gr_maxWait g) as [w|] eqn:Ew;
    try (left; unfold both, debounce_due, maxWait_due; by rewrite ?Ed, ?Ew).
  destruct (Z.leb_spec d w) as [H|H].
  - left. unfold both, debounce_due, maxWait_due. by rewrite Ed.
  - right. split; [|by exists d, w]. unfold both, debounce_due, maxWait_due. by rewrite Ew.
Qed.

Lemma both_ok f1 f2 g :
  (forall g, sched_ok g (fst (f1 g)) (snd (f1 g))) -> (forall g, sched_ok g (fst (f2 g)) (snd (f2 g))) ->
  sched_ok g (fst (both f1 f2 g)) (snd (both f1 f2 g)).
Proof.
  intros H1 H2. unfold both. specialize (H1 g). destruct (f1 g) as [g1 out1]. specialize (H2 g1).
  destruct (f2 g1) as [g2 out2]. by eapply sched_app.
Qed.

Lemma debounce_ok now g : sched_ok g (fst (debounce_due now g)) (snd (debounce_due now g)).
Proof.
  unfold debounce_due. destruct (due _ _); [|by apply sched_nil]. by eapply sched_from, flush_ok.
Qed.

Lemma maxWait_ok now g : sched_ok g (fst (maxWait_due now g)) (snd (maxWait_due now g)).
Proof.
  unfold maxWait_due. destruct (due _ _); [|by apply sched_nil]. by eapply sched_from, flush_ok.
Qed.

Lemma advance_ok now g : sched_ok g (fst (advance now g)) (snd (advance now g)).
Proof.
  destruct (advance_cases now g) as [->|[-> _]]; apply both_ok; auto using debounce_ok, maxWait_ok.
Qed.

Lemma schedule_last now a b delay drag g :
  gr_lastReq (schedulePageRequest now a b delay drag g) = gr_lastReq g.
Proof. unfold schedulePageRequest. by case_bool_decide. Qed.

Lemma wish_ok x g : sched_ok g (fst (wish_step x g)) (snd (wish_step x g)).
Proof.
  unfold wish_step. assert (H := advance_ok (wi_time x) g). destruct (advance _ g) as [g1 out].
  cbn [fst snd] in *. rewrite <- (app_nil_r out). eapply sched_app; [done|].
  apply sched_nil, schedule_last.
Qed.

Lemma run_ok l g : sched_ok g (fst (run_wishes l g)) (snd (run_wishes l g)).
Proof.
  revert g. induction l as [|x l IH]; intros g; cbn [run_wishes]; [by apply sched_nil|].
  assert (H := wish_ok x g). destruct (wish_step x g) as [g1 out1]. specialize (IH g1).
  destruct (run_wishes l g1) as [g2 out2]. by eapply sched_app.
Qed.

(** *** A request that waits has a timer *)

Definition timer_inv (now : Z) (g : grid) : Prop :=
  match gr_pending g with
  | Some _ => exists d, gr_debounce g = Some d /\ d <= now + DRAG_DEBOUNCE_MS
  | None => True
  end.

Lemma flush_pending g : gr_pending (fst (flushScheduledRequest g)) = None.
Proof.
  unfold flushScheduledRequest. destruct (gr_pending g) as [[a b]|] eqn:E; [|done].
  by case_bool_decide.
Qed.

Lemma flush_sends g a b :
  gr_pending g = Some (a, b) -> gr_lastReq (fst (flushScheduledRequest g)) = Some (a, b).
Proof. intros E. unfold flushScheduledRequest. rewrite E. by case_bool_decide. Qed.

Lemma flush_none g : gr_pending g = None -> flushScheduledRequest g = (g, []).
Proof. intros E. unfold flushScheduledRequest. by rewrite E. Qed.

Lemma debounce_none now g : gr_pending g = None -> gr_pending (fst (debounce_due now g)) = None.
Proof. intros H. unfold debounce_due. destruct (due _ _); [apply flush_pending|done]. Qed.

Lemma maxWait_none now g : gr_pending g = None -> gr_pending (fst (maxWait_due now g)) = None.
Proof. intros H. unfold maxWait_due. destruct (due _ _); [apply flush_pending|done]. Qed.

Lemma both_none f1 f2 g :
  (forall g, gr_pending g = None -> gr_pending (fst (f2 g)) = None) ->
  gr_pending (fst (f1 g)) = None -> gr_pending (fst (both f1 f2 g)) = None.
Proof. intros H2 H1. unfold both. destruct (f1 g) as [g1 o1]. cbn [fst] in H1. apply H2 in H1. by destruct (f2 g1). Qed.

(** Time either takes the waiting request or leaves everything as it is. *)
Lemma advance_pending now g :
  gr_pending (fst (advance now g)) = None \/
  (advance now g = (g, []) /\ due now (gr_debounce g) = false /\ due now (gr_maxWait g) = false).
Proof.
  destruct (due now (gr_debounce g)) eqn:Dd, (due now (gr_maxWait g)) eqn:Dm.
  4:{ right. split; [|done]. destruct (advance_cases now g) as [->|[-> _]];
      unfold both, debounce_due, maxWait_due; by rewrite ?Dd, ?Dm, ?Dd, ?Dm. }
  all: left; destruct (advance_cases now g) as [->|[-> (d & w & Ed & Ew & Hw)]].
  all: try (rewrite Ed, Ew in *; cbn in Dd, Dm; lia).
  all: try (apply both_none; [by auto using debounce_none, maxWait_none|];
    unfold debounce_due, maxWait_due; rewrite ?Dd, ?Dm; apply flush_pending).
  all: unfold both, debounce_due, maxWait_due; rewrite Dd, Dm; unfold fire_maxWait;
    match goal with |- context [flushScheduledRequest ?x] => assert (H := flush_pending x) end;
    by destruct (flushScheduledRequest _).
Qed.

Lemma debounce_keeps now g : gr_pending g = None -> gr_lastReq (fst (debounce_due now g)) = gr_lastReq g.
Proof. intros H. unfold debounce_due. destruct (due _ _); [|done]. unfold fire_debounce. by rewrite flush_none. Qed.

Lemma maxWait_keeps now g : gr_pending g = None -> gr_lastReq (fst (maxWait_due now g)) = gr_lastReq g.
Proof. intros H. unfold maxWait_due. destruct (due _ _); [|done]. unfold fire_maxWait. by rewrite flush_none. Qed.

Lemma advance_takes now g a b :
  gr_pending g = Some (a, b) -> due now (gr_debounce g) = true ->
  gr_lastReq (fst (advance now g)) = Some (a, b).
Proof.
  intros Hp Hd. destruct (advance_cases now g) as [->|[-> _]]; unfold both.
  - unfold debounce_due. rewrite Hd. unfold fire_debounce.
    set (g0 := with_request _ _ _ _ _). assert (H1 := flush_sends g0 a b Hp). assert (H2 := flush_pending g0).
    destruct (flushScheduledRequest g0) as [g1 o1]. cbn [fst] in *. rewrite <- (maxWait_keeps now g1 H2) in H1.
    by destruct (maxWait_due now g1).
  - unfold maxWait_due. destruct (due now (gr_maxWait g)).
    + unfold fire_maxWait. set (g0 := with_request _ _ _ _ _).
      assert (H1 := flush_sends g0 a b Hp). assert (H2 := flush_pending g0).
      destruct (flushScheduledRequest g0) as [g1 o1]. cbn [fst] in *. rewrite <- (debounce_keeps now g1 H2) in H1.
      by destruct (debounce_due now g1).
    + unfold debounce_due. rewrite Hd. unfold fire_debounce. set (g0 := with_request _ _ _ _ _).
      assert (H1 := flush_sends g0 a b Hp). by destruct (flushScheduledRequest g0).
Qed.

Lemma advance_timer now now' g : now <= now' -> timer_inv now g -> timer_inv now' (fst (advance now' g)).
Proof.
  intros Hn Hi. unfold timer_inv. destruct (advance_pending now' g) as [->|[-> _]]; [done|].
  cbn [fst]. unfold timer_inv in Hi. destruct (gr_pending g); [|done]. destruct Hi as (d & E & Hd).
  exists d. split; [done|lia].
Qed.

Lemma wish_timer x now g :
  now <= wi_time x -> timer_inv now g ->
  timer_inv (wi_time x) (fst (wish_step x g)) /\
  gr_pending (fst (wish_step x g)) = Some (wi_start x, wi_end x).
Proof.
  intros Hn Hi. unfold wish_step. assert (H := advance_timer _ (wi_time x) g Hn Hi).
  destruct (advance _ g) as [g1 out]. cbn [fst] in *. unfold schedulePageRequest.
  case_bool_decide as E; [done|]. split; [|done].
  exists (wi_time x + Z.max 0 (wish_delay x)). split; [done|]. unfold wish_delay.
  unfold BASE_DEBOUNCE_MS, DRAG_DEBOUNCE_MS. destruct (wi_drag x); lia.
Qed.

(** The wishes come in the order of time. *)
Fixpoint timely (now : Z) (l : list wish) : Prop :=
  match l with [] => True | x :: rest => now <= wi_time x /\ timely (wi_time x) rest end.

Lemma run_timer l x now g :
  timely now (l ++ [x]) -> timer_inv now g ->
  timer_inv (wi_time x) (fst (run_wishes (l ++ [x]) g)) /\
  gr_pending (fst (run_wishes (l ++ [x]) g)) = Some (wi_start x, wi_end x).
Proof.
  revert now g. induction l as [|y l IH]; intros now g [Hn Ht] Hi; cbn [app run_wishes].
  - assert (H := wish_timer x now g Hn Hi). by destruct (wish_step x g).
  - destruct (wish_timer y now g Hn Hi) as [H _]. destruct (wish_step y g) as [g1 o1].
    specialize (IH _ g1 Ht H). by destruct (run_wishes _ g1).
Qed.

(** C29: The requests the grid posts for a sequence of scroll and refresh requests: none repeats
    the one before it, and 80 ms after the last request, if not before, that request is the
    last one posted and nothing waits any more. *)
Theorem scheduler_sends_latest l x :
  timely 0 (l ++ [x]) ->
  let '(g, out) := run_wishes (l ++ [x]) grid_init in
  let '(g', out') := advance (wi_time x + DRAG_DEBOUNCE_MS) g in
  last (out ++ out') = Some (PageRequest (Some (wi_start x)) (Some (wi_end x))) /\
  stutter_free None (out ++ out') /\ gr_pending g' = None.
Proof.
  intros Ht. destruct (run_timer l x 0 grid_init Ht I) as [Hi Hp].
  assert (H1 := run_ok (l ++ [x]) grid_init). destruct (run_wishes _ _) as [g out]. cbn [fst snd] in *.
  unfold timer_inv in Hi. rewrite Hp in Hi. destruct Hi as (d & Ed & Hd).
  assert (Hdue : due (wi_time x + DRAG_DEBOUNCE_MS) (gr_debounce g) = true).
  { rewrite Ed. cbn [due]. by apply Z.leb_le. }
  assert (H2 := advance_ok (wi_time x + DRAG_DEBOUNCE_MS) g).
  assert (H3 := advance_takes _ g _ _ Hp Hdue).
  assert (H4 := advance_pending (wi_time x + DRAG_DEBOUNCE_MS) g).
  destruct (advance _ g) as [g' out']. cbn [fst snd] in *.
  destruct (sched_app _ _ _ _ _ H1 H2) as [HL HF]. rewrite H3 in HL. split_and!; [|done|].
  - by destruct (last (out ++ out')).
  - destruct H4 as [H4|(_ & H4 & _)]; [done|congruence].
Qed.

Lemma scheduler_sends_latest_witness :
  let l := [Wish 0 1 80 false; Wish 10 20 100 true; Wish 95 20 100 false] in
  let '(g, out) := run_wishes (l ++ [Wish 100 1 80 false]) grid_init in
  let '(g', out') := advance (100 + DRAG_DEBOUNCE_MS) g in
  last (out ++ out') = Some (PageRequest (Some 1) (Some 80)) /\
  stutter_free None (out ++ out') /\ gr_pending g' = None.
Proof.
  apply (scheduler_sends_latest [Wish 0 1 80 false; Wish 10 20 100 true; Wish 95 20 100 false] (Wish 100 1 80 false)).
  cbn. lia.
Defined.

(** A drag of the scroll bar: every request comes less than 80 ms after the one before it
    and is for another range. *)
Fixpoint dragging (now : Z) (prev : Z * Z) (l : list wish) : Prop :=
  match l with
  | [] => True
  | x :: rest => now <= wi_time x < now + DRAG_DEBOUNCE_MS /\ wi_drag x = true /\
      prev <> (wi_start x, wi_end x) /\ dragging (wi_time x) (wi_start x, wi_end x) rest
  end.

(** However long a drag lasts, no request is posted during it: the timer that should bound
    the wait is started again with every request, like the other one. *)
Theorem drag_sends_nothing g x l :
  gr_pending g = None -> wi_drag x = true ->
  dragging (wi_time x) (wi_start x, wi_end x) l ->
  snd (run_wishes l (fst (wish_step x g))) = [].
Proof.
  intros Hp Hx Hl.
  assert (H : let g1 := fst (wish_step x g) in gr_pending g1 = Some (wi_start x, wi_end x) /\
    gr_debounce g1 = Some (wi_time x + DRAG_DEBOUNCE_MS) /\ gr_maxWait g1 = Some (wi_time x + MAX_WAIT_MS)).
  { unfold wish_step. assert (Ha : gr_pending (fst (advance (wi_time x) g)) = None).
    { by destruct (advance_pending (wi_time x) g) as [?|[-> _]]. }
    destruct (advance _ g) as [g1 out]. cbn [fst] in *. unfold schedulePageRequest, wish_delay.
    rewrite Hx, bool_decide_eq_false_2 by congruence. done. }
  revert H. generalize (fst (wish_step x g)). clear Hp g. revert x Hx Hl.
  induction l as [|y l IH]; intros x Hx Hl g (Hp & Hd & Hm); [done|].
  destruct Hl as (Hy & Hdr & Hne & Hl). cbn [run_wishes]. unfold wish_step.
  assert (Ha : advance (wi_time y) g = (g, [])).
  { assert (D1 : due (wi_time y) (gr_debounce g) = false) by (rewrite Hd; cbn [due]; apply Z.leb_gt; lia).
    assert (D2 : due (wi_time y) (gr_maxWait g) = false).
    { rewrite Hm. cbn [due]. apply Z.leb_gt. unfold MAX_WAIT_MS. unfold DRAG_DEBOUNCE_MS in Hy. lia. }
    destruct (advance_cases (wi_time y) g) as [->|[-> _]]; unfold both, debounce_due, maxWait_due;
      by rewrite ?D1, ?D2, ?D1, ?D2. }
  rewrite Ha. specialize (IH y Hdr Hl (schedulePageRequest (wi_time y) (wi_start y) (wi_end y)
    (wish_delay y) (wi_drag y) g)).
  assert (Hs : schedulePageRequest (wi_time y) (wi_start y) (wi_end y) (wish_delay y) (wi_drag y) g =
    with_request (gr_lastReq g) (Some (wi_start y, wi_end y)) (Some (wi_time y + DRAG_DEBOUNCE_MS))
      (Some (wi_time y + MAX_WAIT_MS)) g).
  { unfold schedulePageRequest, wish_delay. rewrite Hdr, bool_decide_eq_false_2 by congruence. done. }
  rewrite Hs in *. specialize (IH ltac:(done)). by destruct (run_wishes l _).
Qed.

(** A second of dragging in steps of 50 ms *)
Definition long_drag : list wish :=
  map (fun k => Wish (50 * k) (100 * k) (100 * k + 80) true) (seqZ 1 20).

Lemma drag_sends_nothing_witness :
  snd (run_wishes long_drag (fst (wish_step (Wish 0 1 80 true) grid_init))) = [].
Proof.
  apply (drag_sends_nothing grid_init (Wish 0 1 80 true) long_drag); [done|done|].
  vm_compute. repeat split; congruence.
Defined.

(** ** The rows in view are asked for *)

(** The rows of a list of [total] rows that are in view, the one cut off at the bottom
    included *)
Definition in_view_est (ge : geometry) (total k : Z) : Prop :=
  est_start ge <= k <= est_start ge + capacity ge /\ k <= total.

Lemma est_start_pos ge : 1 <= est_start ge.
Proof.
  unfold est_start. assert (0 <= Z.max 0 (ge_top ge - ge_header ge) / Z.max 1 LOG_ROW_HEIGHT); [|lia].
  apply Z.div_pos; unfold LOG_ROW_HEIGHT; lia.
Qed.

Lemma capacity_pos ge : 1 <= capacity ge.
Proof. unfold capacity. lia. Qed.

Lemma request_size_eq ge : request_size ge = Z.max (capacity ge) (Z.min 208 (capacity ge + 40)).
Proof. done. Qed.

(** When the handler asks for a page, the page is a range of the list and holds every row in
    view; when it does not, and the loaded window has the size of a request, the window
    holds every row in view, unless the view is so near the end that the request would be
    for the last rows. *)
Theorem scroll_covers ge w k :
  0 < v_totalRows w -> 1 <= v_windowStart w -> capacity ge <= windowSize - LOG_OVERSCAN ->
  in_view_est ge (v_totalRows w) k ->
  match scroll_range ge w with
  | Some (a, b) => 1 <= a <= b /\ b <= v_totalRows w /\ b - a < request_size ge /\
      (est_start ge <= v_totalRows w -> a <= k <= b)
  | None =>
      est_start ge - LOG_OVERSCAN / 2 <= v_totalRows w - request_size ge + 1 \/
        v_totalRows w <= request_size ge ->
      v_windowStart w <= k <= v_windowStart w + request_size ge - 1
  end.
Proof.
  intros Ht Hw Hc [Hk Hk']. unfold scroll_range. rewrite request_size_eq.
  assert (He := est_start_pos ge). assert (Hp := capacity_pos ge).
  change LOG_OVERSCAN with 40 in *. change windowSize with 208 in *. change (40 / 2) with 20 in *.
  set (e := est_start ge) in *. set (c := capacity ge) in *. clearbody e c. cbv zeta.
  destruct (Z.ltb_spec (Z.abs (Z.min (Z.max 1 (e - 20)) (Z.max 1 (v_totalRows w - Z.max c (Z.min 208 (c + 40)) + 1)) - v_windowStart w)) (Z.max 10 20)) as [H1|H1];
  destruct (Z.leb_spec 0 (Z.min (Z.max 1 (e - 20)) (Z.max 1 (v_totalRows w - Z.max c (Z.min 208 (c + 40)) + 1)) - v_windowStart w)) as [H2|H2];
    cbn [andb]; lia.
Qed.

Lemma scroll_covers_witness :
  let ge := Geometry 5028 628 22028 28 in
  let w := View [] 1 1000 1 None None ∅ false 0 in
  match scroll_range ge w with
  | Some (a, b) => 1 <= a <= b /\ b <= 1000 /\ b - a < request_size ge /\
      (est_start ge <= 1000 -> a <= 230 <= b)
  | None =>
      est_start ge - LOG_OVERSCAN / 2 <= 1000 - request_size ge + 1 \/ 1000 <= request_size ge ->
      1 <= 230 <= 1 + request_size ge - 1
  end.
Proof.
  apply (scroll_covers (Geometry 5028 628 22028 28) (View [] 1 1000 1 None None ∅ false 0) 230).
  all: vm_compute; by repeat split.
Defined.

(** Near the end the small move is not made: with 300 lines, 27 rows on the screen and the
    67 rows 229 to 295 loaded, scrolling to the very end asks for nothing, and the rows 296
    to 300 are painted as placeholders. *)
Example last_rows_missing :
  let row k := LRow k (Some k) [] [] [] [] [] [] false in
  let w := View (map row (seqZ 229 67)) 1 300 229 None None ∅ false 0 in
  let ge := Geometry 6000 628 6628 28 in
  est_start ge = 272 /\ capacity ge = 27 /\ scroll_range ge w = None /\
  map (paint w) [294; 295; 296; 299] = [Some (row 295); None; None; None].
Proof. vm_compute. by split. Qed.

(** ** Jumps *)

(** The header sticks to the top of the scrolled element, over the list: a row is in view
    when it is below the header and above the bottom. *)
Definition in_view (ge : geometry) (k : Z) : Prop :=
  ge_top ge <= (k - 1) * LOG_ROW_HEIGHT /\ k * LOG_ROW_HEIGHT <= ge_top ge + ge_client ge - ge_header ge.

(** A jump asks for a window around its row, within the list. *)
Lemma jump_request_ok total idx :
  1 <= idx <= total ->
  let '(a, b) := jump_request total idx in
  1 <= a <= idx /\ idx <= b <= total /\ b - a + 1 = Z.min windowSize total.
Proof. intros H. unfold jump_request. change windowSize with 208. change (208 / 2) with 104. lia. Qed.

Lemma capacity_fits ge :
  ge_header ge + LOG_ROW_HEIGHT <= ge_client ge ->
  LOG_ROW_HEIGHT * capacity ge <= ge_client ge - ge_header ge < LOG_ROW_HEIGHT * (capacity ge + 1).
Proof.
  unfold capacity, LOG_ROW_HEIGHT. intros H. change (Z.max 1 22) with 22.
  assert (Hm := Z.mul_div_le (Z.max 0 (ge_client ge - ge_header ge)) 22 ltac:(lia)).
  assert (Hs := Z.mul_succ_div_gt (Z.max 0 (ge_client ge - ge_header ge)) 22 ltac:(lia)).
  lia.
Qed.

(** The effect of a jump to a row that can be brought to the middle, or to one of the last
    rows, scrolls the row into view and asks for a full window around it, which then holds
    the row. *)
Theorem jump_shows_row ge date w g idx :
  v_pendingJumpIdx w = Some idx -> 1 + (capacity ge - 1) / 2 <= idx <= v_totalRows w ->
  0 <= ge_header ge <= LOG_ROW_HEIGHT * ((capacity ge - 1) / 2) ->
  ge_header ge + LOG_ROW_HEIGHT <= ge_client ge <= ge_height ge ->
  ge_height ge = ge_header ge + v_totalRows w * LOG_ROW_HEIGHT ->
  let '(ge', g', out) := jump_effect ge date w g in
  in_view ge' idx /\ gr_ignoreScroll g' = true /\
  exists a b, out = [PageRequest (Some a) (Some b)] /\ a <= idx <= b /\
    b - a + 1 = Z.min windowSize (v_totalRows w).
Proof.
  intros Hj Hi Hh Hc Ht. assert (Hcap := capacity_fits ge ltac:(lia)). assert (Hp := capacity_pos ge).
  assert (Hq : 2 * ((capacity ge - 1) / 2) <= capacity ge - 1) by (apply Z.mul_div_le; lia).
  assert (Hq' : 0 <= (capacity ge - 1) / 2) by (apply Z.div_pos; lia).
  unfold jump_effect. rewrite Hj. destruct (Z.eqb_spec idx 0) as [|_]; [lia|].
  assert (Hr := jump_request_ok (v_totalRows w) idx ltac:(lia)).
  destruct (jump_request _ _) as [a b]. split_and!; [|done|].
  - unfold in_view, jump_target, scroll_to, view_start. cbn [ge_top ge_client ge_header].
    change LOG_ROW_HEIGHT with 22 in *. change (Z.max 1 22) with 22.
    set (q := (capacity ge - 1) / 2) in *. set (c := capacity ge) in *. clearbody q c.
    destruct (Z.ltb_spec idx (1 + q)); [lia|].
    destruct (Z.ltb_spec (Z.max 1 (v_totalRows w - c + 1 + q)) idx); lia.
  - exists a, b. split; [done|]. lia.
Qed.

Lemma jump_shows_row_witness :
  let ge := Geometry 0 628 22028 28 in
  let '(ge', g', out) := jump_effect ge 0 (View [] 1 1000 1 None (Some 500) ∅ false 0) grid_init in
  in_view ge' 500 /\ gr_ignoreScroll g' = true /\
  exists a b, out = [PageRequest (Some a) (Some b)] /\ a <= 500 <= b /\
    b - a + 1 = Z.min windowSize 1000.
Proof.
  apply (jump_shows_row (Geometry 0 628 22028 28) 0 (View [] 1 1000 1 None (Some 500) ∅ false 0) grid_init 500).
  all: vm_compute; by repeat split.
Defined.

(** A jump to the first row scrolls by the height of the header, so that the header, which
    stays on top, covers it. *)
Example first_row_hidden :
  let ge := Geometry 0 628 22028 28 in
  let w := View [] 1 1000 1 None (Some 1) ∅ false 0 in
  let '(ge', _, _) := jump_effect ge 0 w grid_init in
  in_view ge 1 /\ ge_top ge' = 28 /\ ~ in_view ge' 1.
Proof. vm_compute. split_and!; try done. intros [H _]. by apply H. Qed.

(** The row of a jump is selected once its page has come. *)
Lemma jump_resolve_done w idx r :
  v_pendingJumpIdx w = Some idx -> idx <> 0 -> r ∈ v_rows w -> lr_idx r = Some idx ->
  exists r', r' ∈ v_rows w /\ lr_idx r' = Some idx /\
    v_selectedRowId (jump_resolve w) = Some (lr_id r') /\ v_pendingJumpIdx (jump_resolve w) = None.
Proof.
  intros Hj H0 Hr Hi. unfold jump_resolve. rewrite Hj. destruct (Z.eqb_spec idx 0); [done|].
  destruct (List.find _ _) as [r'|] eqn:E.
  - apply List.find_some in E as [H1 H2]. apply bool_decide_eq_true in H2.
    exists r'. split; [by apply list_elem_of_In|done].
  - apply list_elem_of_In in Hr. apply (List.find_none _ _ E) in Hr.
    by apply bool_decide_eq_false in Hr.
Qed.

(** ** The newest lines *)

(** While the view follows, an effect that finds the newest line missing asks for the last
    window, and the page it gets ends with the newest line. *)
Lemma follow_asks_tail ge date w g :
  v_follow w = true -> v_pendingJumpIdx w = None -> v_rows w <> [] -> 0 < v_totalRows w ->
  v_windowStart w + zlen (v_rows w) - 1 < v_totalRows w - 1 ->
  snd (follow_effect ge date w g) =
  [PageRequest (Some (Z.max 1 (v_totalRows w - windowSize + 1))) (Some (v_totalRows w))].
Proof.
  intros Hf Hj Hr Ht He. unfold follow_effect. rewrite Hf, Hj. cbn [negb orb].
  destruct (v_rows w) as [|r rs] eqn:E; [done|]. rewrite <- E in *. assert (Hn : nonempty (v_rows w) = true) by (by rewrite E).
  rewrite Hn. cbn [negb].
  destruct (Z.ltb_spec 0 (v_totalRows w)); [|lia].
  destruct (Z.leb_spec (v_totalRows w - 1) (v_windowStart w + zlen (v_rows w) - 1)); [lia|].
  cbn [andb negb]. destruct (scrollToBottom _ _ _ _). cbn [snd].
  by replace (Z.max 1 (v_totalRows w)) with (v_totalRows w) by lia.
Qed.

(** ** Painting *)

Lemma paint_window w k r :
  1 <= v_windowStart w -> v_windowStart w <= k < v_windowStart w + zlen (v_rows w) ->
  v_rows w !! Z.to_nat (k - v_windowStart w) = Some r -> paint w (k - 1) = Some r.
Proof.
  intros Hw Hk Hr. unfold paint. replace (Z.max 0 (v_windowStart w - 1)) with (v_windowStart w - 1) by lia.
  destruct (Z.leb_spec 0 (k - 1 - (v_windowStart w - 1))), (Z.ltb_spec (k - 1 - (v_windowStart w - 1)) (zlen (v_rows w))); try lia.
  cbn [andb]. by replace (k - 1 - (v_windowStart w - 1)) with (k - v_windowStart w) by lia.
Qed.

(** A waiting request that is new is posted once when its timer fires. *)
Lemma advance_posts now g a b :
  gr_pending g = Some (a, b) -> due now (gr_debounce g) = true -> gr_lastReq g <> Some (a, b) ->
  snd (advance now g) = [PageRequest (Some a) (Some b)].
Proof.
  intros Hp Hd Hl. destruct (advance_cases now g) as [->|[-> _]]; unfold both, debounce_due, maxWait_due.
  - rewrite Hd. unfold fire_debounce, flushScheduledRequest. cbn [gr_pending with_request gr_lastReq].
    by rewrite Hp, bool_decide_eq_false_2 by done.
  - destruct (due now (gr_maxWait g)).
    + unfold fire_maxWait, flushScheduledRequest. cbn [gr_pending with_request gr_lastReq].
      by rewrite Hp, bool_decide_eq_false_2 by done.
    + rewrite Hd. unfold fire_debounce, flushScheduledRequest. cbn [gr_pending with_request gr_lastReq].
      by rewrite Hp, bool_decide_eq_false_2 by done.
Qed.

Lemma onScroll_schedules ge now date s g a b :
  gr_ignoreScroll g = false -> gr_windowChange g + 100 <= date -> gr_pending g = None ->
  scroll_range ge (vw s) = Some (a, b) ->
  let '(s1, g1) := onScroll ge now date s g in
  vg s1 = vg s /\ v_totalRows (vw s1) = v_totalRows (vw s) /\
  gr_pending g1 = Some (a, b) /\ gr_lastReq g1 = gr_lastReq g /\
  due (now + DRAG_DEBOUNCE_MS) (gr_debounce g1) = true.
Proof.
  intros Hi Hd Hp Hr. unfold onScroll. rewrite Hi, Hr.
  destruct (Z.ltb_spec (date - gr_windowChange g) 100); [lia|]. cbn [orb].
  set (until := match gr_sample g with
                | Some (top, t) => if fast ge now top t then now + DRAG_IDLE_MS else gr_dragUntil g
                | None => gr_dragUntil g end). clearbody until.
  unfold schedulePageRequest. cbn [gr_pending]. rewrite Hp, bool_decide_eq_false_2 by done.
  cbn [gr_pending gr_lastReq gr_debounce with_request due]. split_and!; try done; [by destruct (_ && _)..|].
  unfold DRAG_DEBOUNCE_MS, BASE_DEBOUNCE_MS. destruct (now <? until); apply Z.leb_le; lia.
Qed.

Section scrolling.
Context {J : JsonCodec} {JL : JsonLaws} {LS : LineSplitter} {LL : LineSplitterLaws}.
Context `{RE : RegExpEngine}.
Context (lower : str -> str) (fs : str -> dir_state).
Context (prefs : option (viewer_prefs + str)) (save : option (viewer_prefs -> option str)).

(** The rows of a page of the current version are painted at their places. *)
Lemma page_painted a b l s v k :
  g_sessionVersion (vg s) = Some v -> 1 <= a <= k -> k <= b <= zlen l -> zlen l < 2 ^ 31 ->
  let w := vw (on_page (number_entries a (slice l (a - 1) b)) (Some v) s) in
  exists r e, paint w (k - 1) = Some r /\ lr_idx r = Some k /\
    l !! Z.to_nat (k - 1) = Some e /\ lr_raw r = e_text e.
Proof.
  intros Hv Ha Hb Hl. unfold on_page. rewrite Hv, Z.eqb_refl.
  destruct (show_page a (slice l (a - 1) b) s) as (_ & H2 & H3 & H4); [lia|].
  set (w := vw (show_logs _ s)) in *. cbv zeta.
  assert (Hlen : zlen (slice l (a - 1) b) = b - a + 1) by (rewrite slice_length by lia; lia).
  assert (Hst : v_windowStart w = a).
  { apply H2. intros E. rewrite E in Hlen. unfold zlen in Hlen. cbn in Hlen. lia. }
  destruct (v_rows w !! Z.to_nat (k - a)) as [r|] eqn:Er.
  2:{ apply lookup_ge_None in Er. unfold zlen in H3, Hlen. lia. }
  destruct (H4 _ _ Er) as (Hi & e & He & Hraw). exists r, e. split_and!; [|rewrite Hi; f_equal; lia| |done].
  - apply paint_window; rewrite ?Hst; [lia|lia|done].
  - rewrite slice_lookup_all in He by lia. destruct (Z.ltb_spec (Z.of_nat (Z.to_nat (k - a))) (b - (a - 1))); [|lia].
    rewrite <- He. f_equal. lia.
Qed.

(** C8: From a scroll to the screen: when the handler asks for a range it has not asked for last
    and the timers, the host and the viewer do their parts, every row in view is then
    painted with its number and the text of the entry that the service lists there. *)
Theorem scroll_paints ge now date s g h f asc a b k :
  serves fs (h_pag h) asc -> asc <> [] -> zlen asc < 2 ^ 31 -> pfilter (h_pag h) = normalizeFilter f ->
  let l := listed lower (h_pag h) asc in
  v_totalRows (vw s) = zlen l -> g_sessionVersion (vg s) = Some (version (h_pag h)) ->
  1 <= v_windowStart (vw s) -> capacity ge <= windowSize - LOG_OVERSCAN ->
  gr_ignoreScroll g = false -> gr_windowChange g + 100 <= date -> gr_pending g = None ->
  scroll_range ge (vw s) = Some (a, b) -> gr_lastReq g <> Some (a, b) ->
  in_view_est ge (zlen l) k ->
  let '(s1, g1) := onScroll ge now date s g in
  let '(g2, posts) := advance (now + DRAG_DEBOUNCE_MS) g1 in
  let '(h2, out) := serve_all lower fs prefs save posts h in
  let w := vw (fst (receive_all out s1)) in
  exists r e, paint w (k - 1) = Some r /\ lr_idx r = Some k /\
    l !! Z.to_nat (k - 1) = Some e /\ lr_raw r = e_text e.
Proof.
  intros Hsv Hne Hmax Hf l Ht Hv Hw Hc Hi Hd Hp Hr Hl Hk.
  assert (Hz : 0 <= zlen l <= zlen asc).
  { unfold l, listed, zlen. assert (H := length_filter (fun e => matchesFilter lower (pfilter (h_pag h)) e = true) asc). lia. }
  assert (Hek := est_start_pos ge). destruct Hk as [Hk1 Hk2].
  assert (Hs := onScroll_schedules ge now date s g a b Hi Hd Hp Hr).
  destruct (onScroll ge now date s g) as [s1 g1]. destruct Hs as (Hvg & Htot & Hp1 & Hl1 & Hdue).
  assert (Hposts := advance_posts _ g1 a b Hp1 Hdue ltac:(congruence)).
  destruct (advance _ g1) as [g2 posts]. cbn [snd] in Hposts. subst posts.
  assert (Hcov := scroll_covers ge (vw s) k ltac:(lia) Hw Hc ltac:(split; lia)).
  rewrite Hr in Hcov. destruct Hcov as (Ha & Hb & _ & Hkk). specialize (Hkk ltac:(lia)).
  cbn [serve_all]. rewrite serve_page by lia.
  replace (number_or (Some b) a) with b by (unfold number_or; zcases; lia).
  rewrite (read_listed lower fs f h asc); [|done|done|lia|fold l; lia]. fold l.
  cbn [receive_all receive fst app]. apply page_painted; [by rewrite Hvg|lia|lia|lia].
Qed.
End scrolling.

(** A viewer that was left at row 5 of a list of which two rows are left *)
Definition stale_viewer : viewer :=
  with_gates (Gates (Some (version counted_service)) false false true None false)
    (with_view (View [] 1 2 5 None None ∅ true 0) viewer_init).

Lemma scroll_paints_witness :
  let ge := Geometry 0 628 628 28 in
  let '(s1, g1) := onScroll ge 1000 1000 stale_viewer grid_init in
  let '(g2, posts) := advance (1000 + DRAG_DEBOUNCE_MS) g1 in
  let '(h2, out) := serve_all (RE := no_engine) ascii_lower sample_disk None None posts (host_init counted_service) in
  let w := vw (fst (receive_all out s1)) in
  exists r e, paint w 1 = Some r /\ lr_idx r = Some 2 /\
    [plain_entry 1; plain_entry 3] !! 1%nat = Some e /\ lr_raw r = e_text e.
Proof.
  assert (Hp : counted_service = counted_service) by done. unfold counted_service in Hp at 2.
  rewrite sample_service_reader in Hp.
  assert (Hl : listed ascii_lower counted_service three_entries = [plain_entry 1; plain_entry 3])
    by (rewrite Hp; by vm_compute).
  assert (H := scroll_paints (RE := no_engine) ascii_lower sample_disk None None
    (Geometry 0 628 628 28) 1000 1000 stale_viewer grid_init (host_init counted_service)
    (Some (FilterArg None None None (Some (js "3 , 1")))) three_entries 1 2 2
    counted_serves ltac:(done) ltac:(by vm_compute) ltac:(by rewrite Hp)).
  cbv zeta in H. change (h_pag (host_init counted_service)) with counted_service in H. rewrite Hl in H.
  apply H; [reflexivity|reflexivity| | |reflexivity| |reflexivity|reflexivity|discriminate| ];
    vm_compute; repeat split; discriminate.
Defined.

(** A page asked for by a jump is not remembered as the last request.  With 1000 lines: the
    user scrolls to the end, jumps to row 500, and scrolls to the end again.  The request for
    the last rows is then taken for a repetition and dropped, and the rows in view stay
    placeholders. *)
Example scroll_back_blank :
  let row k := LRow k (Some k) [] [] [] [] [] [] false in
  let shown a n := with_view (View (map row (seqZ a n)) 1 1000 a None None ∅ false 0) viewer_init in
  let jumping := View (map row (seqZ 934 67)) 1 1000 934 None (Some 500) ∅ false 0 in
  let bottom := Geometry 21400 628 22028 28 in
  let '(_, g1) := onScroll bottom 1000 1000 (shown 1 67) grid_init in
  let '(g2, posts2) := advance 1100 g1 in
  let '(_, g3, posts3) := jump_effect bottom 1200 jumping g2 in
  let '(_, g4) := onScroll bottom 3000 3000 (shown 396 208) (next_frame g3) in
  let '(g5, posts5) := advance 4000 g4 in
  posts2 = [PageRequest (Some 934) (Some 1000)] /\ posts3 = [PageRequest (Some 396) (Some 603)] /\
  scroll_range bottom (vw (shown 396 208)) = Some (934, 1000) /\ posts5 = [] /\
  gr_pending g5 = None /\ paint (vw (shown 396 208)) 999 = None.
Proof. vm_compute. by repeat split. Qed.

(** ** Columns *)

(** The header and the rows use the same columns. *)
Theorem header_matches_rows t : buildGridTemplate t = gridCols t.
Proof.
  unfold buildGridTemplate, gridCols, grid_tracks, track. cbn [map].
  destruct (st_showCols t ColTime), (st_showCols t ColProc), (st_showCols t ColPid),
    (st_showCols t ColSrc), (st_showCols t ColMsg); cbn [negb]; try done;
    match goal with |- context [existsb ?f ?l] => destruct (existsb f l) end; try done;
    match goal with |- context [widen_last ?l] => by destruct (widen_last l) end.
Qed.

(** The place of a column *)
Definition column_index (c : ColumnId) : nat :=
  match c with ColTime => 0 | ColProc => 1 | ColPid => 2 | ColSrc => 3 | ColMsg => 4 end.

Lemma px_zero n : px n = js "0px" -> n = 0.
Proof.
  unfold px. intros E. change (js "0px") with (js "0" ++ js "px") in E.
  apply app_inv_tail in E. by apply (print_int_inj n 0).
Qed.

Lemma px_not_fr n : px n <> js "1fr".
Proof.
  unfold px. intros E. change (js "1fr") with (js "1" ++ js "fr") in E.
  by apply app_inj_2 in E as [_ E].
Qed.

(** Exactly one column takes the remaining width: the last one that is shown, or the first
    when none is, as long as no column that is shown has width 0. *)
Theorem one_flexible_column t :
  (forall c, c <> ColMsg -> st_showCols t c = true -> st_colW t c <> 0) ->
  forall i, grid_tracks t !! i = Some (js "1fr") <->
    i = column_index (or_else (lastVisibleCol t) ColTime).
Proof.
  intros Hw i. unfold grid_tracks, lastVisibleCol, track. cbn [map].
  assert (H0 : forall c, c <> ColMsg -> st_showCols t c = true -> bool_decide (px (st_colW t c) = js "0px") = false).
  { intros c Hc Hs. apply bool_decide_eq_false. intros E. by apply (Hw c Hc Hs), px_zero. }
  assert (Z0 : bool_decide (js "0px" = js "0px") = true) by done.
  destruct (st_showCols t ColTime) eqn:E1, (st_showCols t ColProc) eqn:E2, (st_showCols t ColPid) eqn:E3,
    (st_showCols t ColSrc) eqn:E4, (st_showCols t ColMsg) eqn:E5; cbn [negb];
    unfold widen_last; cbn [rev app widen_first existsb or_else column_index];
    rewrite ?Z0; cbn [negb orb]; rewrite ?H0 by done; cbn [negb orb rev app existsb];
    rewrite ?Z0, ?H0 by done; cbn [negb orb].
  all: destruct i as [|[|[|[|[|i]]]]]; cbn; split; intros H; try done;
    try (injection H; intros; exfalso; by eapply px_not_fr); try (by apply (inj Some) in H; apply px_not_fr in H).
Qed.

Lemma one_flexible_column_witness :
  let t := vt (toggleColumn ColMsg false viewer_init) in
  grid_tracks t !! 3%nat = Some (js "1fr") <-> 3%nat = column_index (or_else (lastVisibleCol t) ColTime).
Proof.
  apply (one_flexible_column (vt (toggleColumn ColMsg false viewer_init))). by intros [] ? ?.
Defined.

(** ** Highlighting *)

(** The text a browser shows for markup with the entities of [escapeHtml]: [None] inside a
    tag, [Some n] when [n] units of an entity are still to be left out *)
Fixpoint html_text_in (mode : option nat) (s : str) : str :=
  match s with
  | [] => []
  | c :: t =>
      match mode with
      | None => html_text_in (if c =? 62 then Some 0%nat else None) t
      | Some (S n) => html_text_in (Some n) t
      | Some O =>
          if c =? 60 then html_text_in None t
          else if starts_with (js "&amp;") s then 38 :: html_text_in (Some 4%nat) t
          else if starts_with (js "&lt;") s then 60 :: html_text_in (Some 3%nat) t
          else if starts_with (js "&gt;") s then 62 :: html_text_in (Some 3%nat) t
          else c :: html_text_in (Some 0%nat) t
      end
  end.

Definition html_text (s : str) : str := html_text_in (Some 0%nat) s.

Definition plain (c : Z) : Prop := c <> 38 /\ c <> 60 /\ c <> 62.

Lemma html_text_plain c t : plain c -> html_text (c :: t) = c :: html_text t.
Proof.
  intros (H1 & H2 & H3). unfold html_text. cbn [html_text_in].
  assert (E : forall w, starts_with (38 :: w) (c :: t) = false).
  { intros w. cbn [starts_with]. by destruct (Z.eqb_spec 38 c); [lia|]. }
  rewrite (E (js "amp;") : starts_with (js "&amp;") _ = _), (E (js "lt;") : starts_with (js "&lt;") _ = _),
    (E (js "gt;") : starts_with (js "&gt;") _ = _).
  by destruct (Z.eqb_spec c 60).
Qed.

Lemma html_text_app s t : Forall plain s -> html_text (s ++ t) = s ++ html_text t.
Proof. induction 1 as [|c s Hc _ IH]; [done|]. cbn [app]. by rewrite html_text_plain, IH. Qed.

Lemma escape_unit c : plain c -> escapeHtml [c] = [c].
Proof.
  intros (H1 & H2 & H3). unfold escapeHtml, replace_unit. cbn.
  destruct (Z.eqb_spec c 38); [done|]. cbn. destruct (Z.eqb_spec c 60); [done|]. cbn.
  by destruct (Z.eqb_spec c 62).
Qed.

Lemma escape_cons c s : escapeHtml (c :: s) = escapeHtml [c] ++ escapeHtml s.
Proof. unfold escapeHtml, replace_unit. by rewrite <- !bind_app. Qed.

Lemma escape_plain s : Forall plain s -> escapeHtml s = s.
Proof. induction 1 as [|c s Hc _ IH]; [done|]. by rewrite escape_cons, escape_unit, IH. Qed.

(** Escaping hides nothing and adds nothing: the escaped text is shown as the text. *)
Theorem escaped_text_shown s : html_text (escapeHtml s) = s.
Proof.
  induction s as [|c s IH]; [done|]. rewrite escape_cons.
  destruct (decide (c = 38)) as [->|]; [exact (f_equal (cons 38) IH)|].
  destruct (decide (c = 60)) as [->|]; [exact (f_equal (cons 60) IH)|].
  destruct (decide (c = 62)) as [->|]; [exact (f_equal (cons 62) IH)|].
  rewrite escape_unit by done. cbn [app]. by rewrite html_text_plain, IH.
Qed.

Section highlighting.
Context (canon : Z -> Z).

Lemma match_word_suffix word s rest :
  match_word canon word s = Some rest -> take (length s - length rest) s ++ rest = s.
Proof.
  intros H. assert (Hs : exists p, s = p ++ rest).
  { revert s H. induction word as [|c word IH]; intros s H; cbn in H.
    - destruct s; simplify_eq; by exists [].
    - destruct s as [|d s]; [done|]. destruct (canon c =? canon d); [|done].
      destruct (IH s H) as (p & ->). by exists (d :: p). }
  destruct Hs as (p & ->). rewrite length_app, Nat.add_sub, take_app_length. done.
Qed.

Lemma html_text_skip s t :
  Forall (fun c => c <> 62) s -> html_text_in None (s ++ 62 :: t) = html_text t.
Proof.
  induction 1 as [|c s Hc _ IH]; [done|]. cbn [app html_text_in]. by destruct (Z.eqb_spec c 62).
Qed.

Lemma html_text_mark cls m t :
  Forall (fun c => c <> 62) cls -> Forall plain m ->
  html_text (mark cls m ++ t) = m ++ html_text t.
Proof.
  intros Hc Hm. unfold mark. rewrite <- !app_assoc. 
  change (html_text_in None (js "mark class=" ++ [34] ++ cls ++ [34] ++ 62 :: m ++ js "</mark>" ++ t)
    = m ++ html_text t).
  replace (js "mark class=" ++ _) with
    ((js "mark class=" ++ [34] ++ cls ++ [34]) ++ 62 :: m ++ js "</mark>" ++ t) by (by rewrite <- !app_assoc).
  rewrite html_text_skip, html_text_app; [done|done|].
  repeat (apply Forall_app; split); [|by repeat constructor|done|by repeat constructor]. by repeat constructor.
Qed.

Lemma mark_all_text n cls word s :
  Forall (fun c => c <> 62) cls -> Forall plain s -> html_text (mark_all canon n cls word s) = s.
Proof.
  intros Hc. revert s. induction n as [|n IH]; intros s Hs; cbn [mark_all].
  - rewrite <- (app_nil_r s) at 1. by rewrite html_text_app, app_nil_r.
  - destruct s as [|c s]; [done|]. destruct (match_word canon word (c :: s)) as [rest|] eqn:E.
    + assert (Es := match_word_suffix _ _ _ E). rewrite <- Es in Hs. apply Forall_app in Hs as [H1 H2].
      by rewrite html_text_mark, IH.
    + apply Forall_cons in Hs as [H1 H2]. by rewrite html_text_plain, IH.
Qed.

(** With one rule the reader sees the text of the cell, if it has none of the characters that
    are escaped. *)
Theorem highlight_shows_text text r :
  Forall plain text -> exists html, hi canon text [r] = inr html /\ html_text html = text.
Proof.
  intros Ht. eexists. split; [reflexivity|]. cbn [fold_left]. rewrite escape_plain by done.
  unfold apply_rule. destruct (nonempty (trim (hl_text r))); cbn [negb].
  - apply mark_all_text; [|done]. unfold rule_class. destruct (hl_color r) as [c|]; [|constructor].
    apply Forall_app. split; [by repeat constructor|]. by apply print_int_avoids.
  - rewrite <- (app_nil_r text) at 1. by rewrite html_text_app, app_nil_r.
Qed.
End highlighting.

Lemma highlight_shows_text_witness :
  exists html, hi lower_unit (js "An error") [Highlight (js " ERR ") (Some 3)] = inr html /\
    html_text html = js "An error".
Proof. apply (highlight_shows_text lower_unit (js "An error") (Highlight (js " ERR ") (Some 3))). by repeat constructor. Defined.

(** A rule also matches inside an entity, and a later rule inside the markup of an earlier
    one: the reader then sees pieces of markup. *)
Example highlight_breaks_text :
  (exists html, hi lower_unit (js "a&b") [Highlight (js "amp") None] = inr html /\
     html_text html = js "a&amp;b") /\
  (exists html, hi lower_unit (js "x") [Highlight (js "x") None; Highlight (js "a") None] = inr html /\
     html_text html <> js "x").
Proof. split; eexists; (split; [reflexivity|]); [by vm_compute|by vm_compute]. Qed.
