(* ===== verification/Shell.v ===== *)
(** * Command lines

    How src/core/service/ServiceFilePatcher.ts, src/core/tasks/guards/HostStateGuard.ts and
    src/core/connection/adbClient.ts build the command lines they send to a device, and how
    the exit code comes back from adb.  [sh_words] states the quoting rules of a POSIX shell
    for a command without operators and expansions; the theorems say what the shell reads. *)

From stdpp Require Import base list strings.
From Stdlib Require Import ZArith Lia.
From S2P Require Import Prelude JsString Regex.

(** ** Quoting *)

(** [s.replace(/c/g, w)] *)
Definition replace_all (c : Z) (w s : str) : str := s ≫= fun d => if d =? c then w else [d].

(** The units of [q]: a quote becomes quote, backslash, quote, quote. *)
Definition quote_escape : str := [39; 92; 39; 39].

(** [q] *)
Definition q (s : str) : str := [39] ++ replace_all 39 quote_escape s ++ [39].

(** [esc] *)
Definition esc (s : str) : str := replace_all 92 [92; 92] s.

(** A backslash before each double quote, dollar, backquote and backslash *)
Definition dq_special (c : Z) : bool := existsb (Z.eqb c) [34; 36; 96; 92].
Definition dq_escape (s : str) : str := s ≫= fun c => if dq_special c then [92; c] else [c].

(** [HostStateGuard.runShArgs] *)
Definition sh_args (script : str) (args : list str) : str :=
  let tail := join [32] (map q args) in
  js "sh -lc " ++ q script ++ [32] ++ (if nonempty tail then js " _ " ++ tail else []).

(** The command of [run] in [insertAfterExecStart] *)
Definition sh_dq (cmd : str) : str := js "sh -lc " ++ [34] ++ dq_escape cmd ++ [34].

(** The command lines of [ServiceFilePatcher] that quote inside quotes *)
Definition sh_cp (a b : str) : str := js "sh -lc 'cp -p " ++ q a ++ [32] ++ q b ++ [39].
Definition sh_mv (a b : str) : str := js "sh -lc 'mv -f " ++ q a ++ [32] ++ q b ++ [39].
Definition sh_restart (unit_ : str) : str :=
  js "sh -lc 'SYSTEMD_PAGER= systemctl restart --no-pager --no-ask-password " ++ q unit_ ++ [39].

(** [contains]: the expression and the file are arguments of the script. *)
Definition sh_contains (markerRe file : str) : str :=
  js "sh -lc 'grep -E " ++ [34] ++ js "$1" ++ [34; 32; 34] ++ js "$2" ++ [34] ++
  js " >/dev/null 2>&1' _ " ++ q markerRe ++ [32] ++ q file.

(** ** adb *)

(** A command that is a shell already: [sh -c] or [sh -lc] with a quoted script *)
Definition SH_RX : re :=
  sq [Bol; star ws; lit (js "sh"); plus ws; chr 45; opt (chr 108); chr 99; plus ws;
      Cls (fun c => (c =? 39) || (c =? 34))].

Definition exit_trailer : str :=
  js "; printf " ++ [34; 92] ++ js "n__EDGE_CODE:%d" ++ [34] ++ js " $?".

Definition flatten (cmd : str) : str := trim (replace_all 10 [32] (replace_all 13 [] cmd)).

Definition wrapWithExitCode (cmd : str) : str :=
  let flat := flatten cmd in
  if rx_test SH_RX flat then flat ++ exit_trailer
  else js "sh -c '" ++ replace_all 39 quote_escape flat ++ exit_trailer ++ [39].

(** [/\n__EDGE_CODE:(\d+)\s*$/] *)
Definition CODE_RX : re :=
  sq [chr 10; lit (js "__EDGE_CODE:"); Grp 1 (plus d); star ws; Eol].

(** The end of [adbShell]: the exit code and the output *)
Definition adb_result (out : str) : option Z * str :=
  match exec CODE_RX out with
  | Some m => (Some (digits_value 0 (or_else (cap m 1) [])), take (rx_index m) out ++ rx_rest m)
  | None => (None, out)
  end.

(** ** What a shell reads *)

(** The units that mean something outside quotes *)
Definition sh_special (c : Z) : bool :=
  existsb (Z.eqb c) (js "|&;<>()$*?[]#~{}!" ++ [10; 96]).

Definition sh_blank (c : Z) : bool := (c =? 32) || (c =? 9).

Inductive sh_mode := Bare | InSingle | InDouble.

(** The words of a command: [cur] is the word being read, [None] between words.  [None] when
    a quote is not closed or a unit outside single quotes asks for an operator or an
    expansion. *)
Fixpoint sh_lex (mode : sh_mode) (cur : option str) (s : str) : option (list str) :=
  let flush (o : option (list str)) := match cur with Some w => (fun ws => w :: ws) <$> o | None => o end in
  let add c := Some (or_else cur [] ++ [c]) in
  match mode, s with
  | Bare, [] => Some (match cur with Some w => [w] | None => [] end)
  | _, [] => None
  | InSingle, c :: t => if c =? 39 then sh_lex Bare cur t else sh_lex InSingle (add c) t
  | InDouble, c :: t =>
      if c =? 34 then sh_lex Bare cur t
      else if c =? 92 then
        match t with
        | e :: t' => sh_lex InDouble (Some (or_else cur [] ++ (if dq_special e then [e] else [92; e]))) t'
        | [] => None
        end
      else if (c =? 36) || (c =? 96) then None
      else sh_lex InDouble (add c) t
  | Bare, c :: t =>
      if sh_blank c then flush (sh_lex Bare None t)
      else if c =? 39 then sh_lex InSingle (Some (or_else cur [])) t
      else if c =? 34 then sh_lex InDouble (Some (or_else cur [])) t
      else if c =? 92 then match t with e :: t' => sh_lex Bare (add e) t' | [] => None end
      else if sh_special c then None
      else sh_lex Bare (add c) t
  end.

Definition sh_words (s : str) : option (list str) := sh_lex Bare None s.

(** A unit that stands for itself outside quotes *)
Definition bare_unit (c : Z) : Prop :=
  sh_special c = false /\ sh_blank c = false /\ c <> 39 /\ c <> 34 /\ c <> 92.

(** ** Reading what was quoted *)

Lemma lex_bare_unit c cur t :
  bare_unit c -> sh_lex Bare cur (c :: t) = sh_lex Bare (Some (or_else cur [] ++ [c])) t.
Proof.
  intros (H1 & H2 & H3 & H4 & H5). cbn [sh_lex]. rewrite H2, H1.
  by destruct (Z.eqb_spec c 39), (Z.eqb_spec c 34), (Z.eqb_spec c 92).
Qed.

Lemma lex_bare w cur t :
  Forall bare_unit w -> sh_lex Bare (Some cur) (w ++ t) = sh_lex Bare (Some (cur ++ w)) t.
Proof.
  intros H. revert cur. induction H as [|c w Hc _ IH]; intros cur; [by rewrite app_nil_r|].
  cbn [app]. rewrite lex_bare_unit by done. cbn [or_else]. rewrite IH. by rewrite <- app_assoc.
Qed.

Lemma lex_blank cur t : sh_lex Bare (Some cur) (32 :: t) = (fun ws => cur :: ws) <$> sh_lex Bare None t.
Proof. done. Qed.

Lemma lex_skip t : sh_lex Bare None (32 :: t) = sh_lex Bare None t.
Proof. done. Qed.

(** A word of bare units at the start of a command *)
Lemma lex_word c w t :
  Forall bare_unit (c :: w) ->
  sh_lex Bare None ((c :: w) ++ 32 :: t) = (fun ws => (c :: w) :: ws) <$> sh_lex Bare None t.
Proof.
  intros [Hc Hw]%Forall_cons. cbn [app]. rewrite lex_bare_unit by done. cbn [or_else app].
  by rewrite (lex_bare w [c]).
Qed.

(** The inside of [q] *)
Lemma lex_quoted s cur t :
  sh_lex InSingle (Some cur) (replace_all 39 quote_escape s ++ 39 :: t) = sh_lex Bare (Some (cur ++ s)) t.
Proof.
  revert cur. induction s as [|c s IH]; intros cur; [by rewrite app_nil_r|].
  unfold replace_all in *. rewrite bind_cons, <- app_assoc. destruct (Z.eqb_spec c 39) as [->|Hc].
  - cbn [app quote_escape sh_lex]. change (39 =? 39) with true. cbn [or_else].
    change (sh_lex InSingle (Some (cur ++ [39])) ((s ≫= fun d => if d =? 39 then quote_escape else [d]) ++ 39 :: t)
      = sh_lex Bare (Some (cur ++ 39 :: s)) t).
    rewrite IH. by rewrite <- app_assoc.
  - cbn [app sh_lex]. destruct (Z.eqb_spec c 39); [done|]. cbn [or_else]. rewrite IH. by rewrite <- app_assoc.
Qed.

Lemma lex_q s cur t : sh_lex Bare cur (q s ++ t) = sh_lex Bare (Some (or_else cur [] ++ s)) t.
Proof.
  unfold q. rewrite <- !app_assoc. cbn [app sh_lex sh_blank Z.eqb Pos.eqb orb]. apply lex_quoted.
Qed.

Lemma lex_dq s cur t :
  sh_lex InDouble (Some cur) (dq_escape s ++ 34 :: t) = sh_lex Bare (Some (cur ++ s)) t.
Proof.
  revert cur. induction s as [|c s IH]; intros cur; [by rewrite app_nil_r|].
  unfold dq_escape in *. rewrite bind_cons, <- app_assoc. destruct (dq_special c) eqn:E.
  - cbn [app sh_lex]. change (92 =? 34) with false. change (92 =? 92) with true. cbn iota. rewrite E.
    cbn [or_else]. rewrite IH. by rewrite <- app_assoc.
  - cbn [app sh_lex]. unfold dq_special in E. cbn [existsb] in E. rewrite !orb_false_iff in E.
    destruct E as (E1 & E2 & E3 & E4 & _). rewrite E1, E2, E3, E4. cbn [orb or_else].
    rewrite IH. by rewrite <- app_assoc.
Qed.

(** Quoted arguments after a script *)
Lemma lex_args args cur :
  sh_lex Bare cur (join [32] (map q args)) =
  match args with
  | [] => sh_lex Bare cur []
  | a :: rest => Some ((or_else cur [] ++ a) :: rest)
  end.
Proof.
  revert cur. induction args as [|a args IH]; intros cur; [done|]. cbn [map join].
  destruct args as [|b args].
  - cbn [map]. rewrite <- (app_nil_r (q a)), lex_q. done.
  - cbn [map]. rewrite lex_q. cbn [app]. rewrite lex_blank.
    change (q b :: map q args) with (map q (b :: args)). rewrite IH. done.
Qed.

Lemma q_nonempty s : nonempty (q s) = true.
Proof. done. Qed.

(** Every command line starts like this. *)
Lemma lex_sh_lc t :
  sh_lex Bare None (js "sh -lc " ++ t) = (fun ws => [js "sh"; js "-lc"] ++ ws) <$> sh_lex Bare None t.
Proof.
  change (sh_lex Bare None (js "sh -lc " ++ t)) with
    ((fun ws => js "sh" :: ws) <$> ((fun ws => js "-lc" :: ws) <$> sh_lex Bare None t)).
  by destruct (sh_lex Bare None t).
Qed.

(** A script and its arguments reach the device as they are, whatever characters they hold:
    the shell that gets the command line starts [sh -lc] with the script, and the arguments
    follow after the name. *)
Theorem sh_args_exact script args :
  sh_words (sh_args script args) =
  Some ([js "sh"; js "-lc"; script] ++ match args with [] => [] | _ => js "_" :: args end).
Proof.
  unfold sh_words, sh_args. rewrite lex_sh_lc, lex_q. cbn [or_else app]. rewrite lex_blank.
  destruct args as [|a args]; [done|].
  replace (nonempty (join [32] (map q (a :: args)))) with true by (cbn [map join]; by destruct (map q args)).
  change (sh_lex Bare None (js " _ " ++ join [32] (map q (a :: args)))) with
    ((fun ws => js "_" :: ws) <$> sh_lex Bare None (join [32] (map q (a :: args)))).
  by rewrite lex_args.
Qed.

(** A command line in double quotes is passed on as it is. *)
Theorem sh_dq_exact cmd : sh_words (sh_dq cmd) = Some [js "sh"; js "-lc"; cmd].
Proof.
  unfold sh_words, sh_dq. rewrite lex_sh_lc.
  change (sh_lex Bare None ([34] ++ dq_escape cmd ++ [34])) with (sh_lex InDouble (Some []) (dq_escape cmd ++ [34])).
  by rewrite lex_dq.
Qed.

(** The test for a line passes its expression and its file as they are. *)
Theorem sh_contains_exact markerRe file :
  sh_words (sh_contains markerRe file) =
  Some [js "sh"; js "-lc"; js "grep -E " ++ [34] ++ js "$1" ++ [34; 32; 34] ++ js "$2" ++ [34] ++ js " >/dev/null 2>&1";
        js "_"; markerRe; file].
Proof.
  unfold sh_words, sh_contains.
  set (script := js "grep -E " ++ [34] ++ js "$1" ++ [34; 32; 34] ++ js "$2" ++ [34] ++ js " >/dev/null 2>&1").
  change (js "sh -lc 'grep -E " ++ _) with
    (js "sh -lc " ++ q script ++ js " _ " ++ q markerRe ++ [32] ++ q file).
  rewrite lex_sh_lc, lex_q. cbn [or_else app].
  change (sh_lex Bare (Some script) (js " _ " ++ q markerRe ++ 32 :: q file)) with
    ((fun ws => script :: ws) <$> ((fun ws => js "_" :: ws) <$> sh_lex Bare None (q markerRe ++ 32 :: q file))).
  rewrite lex_q. cbn [or_else app]. rewrite lex_blank.
  by rewrite <- (app_nil_r (q file)), lex_q.
Qed.

(** Quotes inside quotes cancel: the names stand bare in the script.  They are read back as
    words as long as they hold no blank and no special unit, *)
Theorem sh_cp_bare a b :
  Forall bare_unit a -> Forall bare_unit b ->
  sh_words (sh_cp a b) = Some [js "sh"; js "-lc"; js "cp -p " ++ a ++ [32] ++ b] /\
  (a <> [] -> b <> [] -> sh_words (js "cp -p " ++ a ++ [32] ++ b) = Some [js "cp"; js "-p"; a; b]).
Proof.
  intros Ha Hb. split.
  - unfold sh_words, sh_cp.
    assert (Hq : forall w, Forall bare_unit w -> q w = [39] ++ w ++ [39]).
    { intros w Hw. unfold q. f_equal. f_equal. unfold replace_all. induction Hw as [|c w (_ & _ & Hc & _) _ IH]; [done|].
      rewrite bind_cons, IH. by destruct (Z.eqb_spec c 39). }
    rewrite !Hq, <- !app_assoc by done.
    change (js "sh -lc 'cp -p " ++ _) with
      (js "sh -lc " ++ js "'cp -p '" ++ a ++ js "' '" ++ b ++ js "''").
    rewrite lex_sh_lc.
    change (sh_lex Bare None (js "'cp -p '" ++ a ++ js "' '" ++ b ++ js "''")) with
      (sh_lex Bare (Some (js "cp -p ")) (a ++ js "' '" ++ b ++ js "''")).
    rewrite lex_bare by done.
    change (sh_lex Bare (Some (js "cp -p " ++ a)) (js "' '" ++ b ++ js "''")) with
      (sh_lex Bare (Some ((js "cp -p " ++ a) ++ [32])) (b ++ js "''")).
    rewrite lex_bare by done. cbn [js app sh_lex]. by rewrite <- !app_assoc.
  - intros Hna Hnb. unfold sh_words.
    change (sh_lex Bare None (js "cp -p " ++ a ++ [32] ++ b)) with
      ((fun ws => js "cp" :: ws) <$> ((fun ws => js "-p" :: ws) <$> sh_lex Bare None (a ++ [32] ++ b))).
    destruct a as [|ca a]; [done|]. destruct b as [|cb b]; [done|].
    change ([32] ++ cb :: b) with (32 :: cb :: b). rewrite (lex_word ca a) by done. apply Forall_cons in Hb as [Hcb Hb].
    rewrite lex_bare_unit by done. cbn [or_else app]. rewrite <- (app_nil_r b), lex_bare by done.
    cbn. by rewrite app_nil_r.
Qed.

Lemma sh_cp_bare_witness :
  sh_words (sh_cp (js "/lib/a.service") (js "/tmp/w")) = Some [js "sh"; js "-lc"; js "cp -p /lib/a.service /tmp/w"].
Proof.
  apply (sh_cp_bare (js "/lib/a.service") (js "/tmp/w")); repeat constructor; done.
Defined.

(** but a blank in a name ends the script, and the rest of the command becomes arguments
    that nothing reads; a semicolon ends the command. *)
Example sh_cp_blank :
  sh_words (sh_cp (js "/my lib/a.service") (js "/tmp/w")) =
    Some [js "sh"; js "-lc"; js "cp -p /my"; js "lib/a.service /tmp/w"] /\
  sh_words (sh_cp (js "/lib/a;b") (js "/tmp/w")) = None.
Proof. by split; vm_compute. Qed.

(** ** adb *)

Definition code_mark : str := js "__EDGE_CODE:".

(** Where the expression for the exit code matches *)
Lemma code_shape s pv z :
  rmatch CODE_RX (Mst pv s []) (fun y => Some y) = Some z ->
  exists D W, s = 10 :: code_mark ++ D ++ W /\ D <> [] /\ Forall (fun c => is_digit c = true) D /\
    Forall (fun c => is_ws c = true) W.
Proof.
  unfold CODE_RX. cbn [sq]. rewrite rm_sq. intros H.
  apply rmatch_sound in H as (u1 & y1 & E1 & D1 & H). rewrite rm_sq in H.
  apply rmatch_sound in H as (u2 & y2 & E2 & D2 & H). rewrite rm_sq in H.
  apply rmatch_sound in H as (u3 & y3 & E3 & D3 & H). rewrite rm_sq in H.
  apply rmatch_sound in H as (u4 & y4 & E4 & D4 & H).
  apply den_chr in D1 as ->. apply den_lit in D2 as ->. apply den_star_cls in D4.
  inversion D3 as [| | | | | | |n a u D5| | |]; subst. apply den_plus_cls in D5 as [Hn Hd].
  cbn [rmatch] in H. destruct (m_rest y4) eqn:E5; [|done]. rewrite app_nil_r in E4.
  exists u3, u4. split_and!; try done. cbn [m_rest] in E1. by rewrite E1, E2, E3, E4.
Qed.

(** A proper suffix that is the mark of the exit code cannot lie in such a text. *)
Lemma code_not_before b c t D W :
  c :: b ++ 10 :: code_mark ++ t = 10 :: code_mark ++ D ++ W ->
  Forall (fun c => is_digit c = true) D -> Forall (fun c => is_ws c = true) W -> False.
Proof.
  intros E HD HW.
  assert (HDW : Forall (fun c => is_digit c = true \/ is_ws c = true) (D ++ W)).
  { apply Forall_app. split; (eapply Forall_impl; [done|]; cbn; tauto). }
  clear HD HW. generalize dependent (D ++ W). intros l El Hl. injection El as -> E.
  change code_mark with [95; 95; 69; 68; 71; 69; 95; 67; 79; 68; 69; 58] in E. cbn [app] in E.
  do 12 (destruct b as [|? b]; cbn [app] in E; [discriminate E|injection E as -> E]).
  rewrite <- E in Hl. apply Forall_app in Hl as [_ Hl]. apply Forall_cons in Hl as [_ Hl].
  apply Forall_cons in Hl as [Hl _]. by destruct Hl.
Qed.

(** The exit code comes back: whatever a command prints, even text that looks like the mark
    of an exit code, its output and its code are told apart, with or without white space
    after the code. *)
Theorem adb_result_exact out n W :
  0 <= n -> Forall (fun c => is_ws c = true) W ->
  adb_result (out ++ 10 :: code_mark ++ print_nat n ++ W) = (Some n, out).
Proof.
  intros Hn HW. destruct (print_nat_spec n Hn) as (Hne & Hd & Hv).
  unfold adb_result, exec. rewrite exec_from_skip.
  - cbn [Nat.add]. set (pv := match last out with Some c => Some c | None => None end).
    assert (E : rmatch CODE_RX (Mst pv (10 :: code_mark ++ print_nat n ++ W) []) (fun y => Some y) =
      Some (Mst (match last W with Some c => Some c | None => last (print_nat n) end) [] [(1%nat, print_nat n)])).
    { destruct (print_nat n) as [|c ds] eqn:En; [done|]. apply Forall_cons in Hd as [Hc Hd].
      unfold CODE_RX. cbn [sq]. rewrite rm_sq. unfold chr. rewrite rm_cls by done. rewrite rm_sq.
      unfold lit, code_mark. cbn [map js sq app]. repeat (rewrite rm_sq; unfold chr at 1; rewrite rm_cls by done).
      unfold chr at 1. rewrite rm_cls, rm_sq, rm_grp by done. unfold plus, d. rewrite rm_sq, rm_cls by done.
      apply rmatch_star_run; [done| |].
      { destruct W as [|e W]; [done|]. apply Forall_cons in HW as [He _].
        destruct (is_digit e) eqn:Ed; [|done]. apply digit_not_ws in Ed. congruence. }
      cbn [m_prev m_rest m_caps]. unfold consumed. cbn [m_rest].
      replace (take _ _) with (c :: ds).
      2:{ cbn [length]. rewrite length_app. replace (S (length ds + length W) - length W)%nat with (S (length ds)) by lia.
          cbn [take]. by rewrite take_app_length. }
      rewrite rm_sq. unfold star, ws. apply rmatch_star_end; [done|]. cbn [rmatch m_rest]. do 3 f_equal.
      rewrite last_cons. by destruct (last W), (last ds). }
    cbn [exec_from]. rewrite E. cbn [m_rest m_caps rx_index rx_rest rx_caps cap cap_lookup Nat.eqb or_else].
    cbn. rewrite Hv, app_nil_r. by rewrite take_app_length.
  - intros a c b pv ->. destruct (rmatch _ _ _) as [z|] eqn:E; [exfalso|done].
    apply code_shape in E as (D & W' & E & HnD & HD & HW'). cbn [app] in E.
    by apply (code_not_before b c (print_nat n ++ W) D W' E HD HW').
Qed.

Lemma adb_result_exact_witness :
  adb_result (js "x" ++ [10] ++ js "__EDGE_CODE:9 " ++ 10 :: code_mark ++ print_nat 7 ++ [10]) =
    (Some 7, js "x" ++ [10] ++ js "__EDGE_CODE:9 ").
Proof. apply (adb_result_exact (js "x" ++ [10] ++ js "__EDGE_CODE:9 ") 7 [10]); [lia|by repeat constructor]. Defined.

(** adb gets one line: the line ends of a command become blanks. *)
Lemma flatten_no_newline cmd : Forall (fun c => c <> 10 /\ c <> 13) (flatten cmd).
Proof.
  assert (H : Forall (fun c => c <> 10 /\ c <> 13) (replace_all 10 [32] (replace_all 13 [] cmd))).
  { induction cmd as [|c s IH]; [constructor|]. unfold replace_all in *. rewrite bind_cons, bind_app.
    apply Forall_app. split; [|done]. destruct (Z.eqb_spec c 13); [constructor|]. cbn.
    destruct (Z.eqb_spec c 10); cbn; repeat constructor; lia. }
  revert H. unfold flatten. generalize (replace_all 10 [32] (replace_all 13 [] cmd)). intros s H.
  assert (Hd : forall u, Forall (fun c => c <> 10 /\ c <> 13) u -> Forall (fun c => c <> 10 /\ c <> 13) (drop_while is_ws u)).
  { intros u. induction 1 as [|c u Hc Hu IH]; cbn [drop_while]; [constructor|].
    destruct (is_ws c); [done|]. by constructor. }
  unfold trim, trim_end, trim_start. apply Forall_rev, Hd, Forall_rev, Hd, H.
Qed.

(** A command that is not a shell already is given to one as it is, after the line ends are
    gone, with the mark of its exit code. *)
Theorem adb_wrap_exact cmd :
  rx_test SH_RX (flatten cmd) = false ->
  sh_words (wrapWithExitCode cmd) = Some [js "sh"; js "-c"; flatten cmd ++ exit_trailer].
Proof.
  intros H. unfold wrapWithExitCode. rewrite H.
  assert (E : js "sh -c '" ++ replace_all 39 quote_escape (flatten cmd) ++ exit_trailer ++ [39] =
    js "sh -c " ++ q (flatten cmd ++ exit_trailer)).
  { change (js "sh -c '") with (js "sh -c " ++ [39]). unfold q, replace_all. rewrite bind_app, <- !app_assoc. done. }
  rewrite E. unfold sh_words.
  change (sh_lex Bare None (js "sh -c " ++ q (flatten cmd ++ exit_trailer))) with
    ((fun ws => js "sh" :: ws) <$> ((fun ws => js "-c" :: ws) <$> sh_lex Bare None (q (flatten cmd ++ exit_trailer)))).
  by rewrite <- (app_nil_r (q _)), lex_q.
Qed.

Lemma adb_wrap_exact_witness :
  sh_words (wrapWithExitCode (js "echo 'a' | wc")) =
    Some [js "sh"; js "-c"; js "echo 'a' | wc" ++ exit_trailer].
Proof. apply (adb_wrap_exact (js "echo 'a' | wc")). by vm_compute. Defined.
