(* ===== verification/Paths.v ===== *)
(** * Paths

    node:path on POSIX systems, and the path helpers of src/shared/utils.ts. *)

From stdpp Require Import base list strings.
From Stdlib Require Import ZArith Lia.
From S2P Require Import Prelude JsString Shell.

(** ** node:path *)

(** [normalizeString] of path.posix on the segments; [acc] has the last segment first. *)
Fixpoint normalize_segments (above : bool) (acc : list str) (segs : list str) : list str :=
  match segs with
  | [] => rev acc
  | x :: rest =>
      if bool_decide (x = []) || bool_decide (x = js ".") then normalize_segments above acc rest
      else if bool_decide (x = js "..") then
        match acc with
        | p :: acc' =>
            if bool_decide (p = js "..") then normalize_segments above (x :: acc) rest
            else normalize_segments above acc' rest
        | [] => normalize_segments above (if above then [x] else []) rest
        end
      else normalize_segments above (x :: acc) rest
  end.

Definition ends_with_slash (p : str) : bool := bool_decide (last p = Some 47).

Definition is_absolute (p : str) : bool := starts_with [47] p.

Definition posix_normalize (p : str) : str :=
  match p with
  | [] => js "."
  | _ =>
      let absolute := is_absolute p in
      let trailing := ends_with_slash p in
      let body := join [47] (normalize_segments (negb absolute) [] (split_on 47 p)) in
      match body with
      | [] => if absolute then [47] else if trailing then js "./" else js "."
      | _ => (if absolute then [47] else []) ++ body ++ (if trailing then [47] else [])
      end
  end.

(** [path.posix.join(a, b)] for two arguments that are not empty *)
Definition posix_join (a b : str) : str := posix_normalize (a ++ [47] ++ b).

(** The segments of [path.resolve(base, p)] for an absolute [base] *)
Definition resolve_segments (base p : str) : list str :=
  normalize_segments false [] (if is_absolute p then split_on 47 p else split_on 47 base ++ split_on 47 p).

(** [path.relative(from, to)] on segments *)
Fixpoint relative_segments (from to : list str) : list str :=
  match from, to with
  | a :: from', b :: to' => if bool_decide (a = b) then relative_segments from' to' else map (fun _ => js "..") from ++ to
  | _, _ => map (fun _ => js "..") from ++ to
  end.

Definition path_relative (from to : str) : str :=
  join [47] (relative_segments (resolve_segments from []) (resolve_segments from to)).

(** The text after the last slash, and before it *)
Fixpoint cut_last (c : Z) (s : str) : option (str * str) :=
  match s with
  | [] => None
  | x :: t =>
      match cut_last c t with
      | Some (a, b) => Some (x :: a, b)
      | None => if x =? c then Some ([], t) else None
      end
  end.

(** [path.posix.dirname] and [path.posix.basename] of a path that does not end in a slash *)
Definition posix_dirname (p : str) : str :=
  match cut_last 47 p with
  | None => js "."
  | Some ([], _) => [47]
  | Some (a, _) => a
  end.

Definition posix_basename (p : str) : str := match cut_last 47 p with Some (_, b) => b | None => p end.

(** ** src/shared/utils.ts *)

Definition toPosix (p : str) : str := replace_all 92 [47] p.

(** [s.replace(/\/+/g, '/')] *)
Fixpoint squeeze (s : str) : str :=
  match s with
  | [] => []
  | c :: t =>
      match t with
      | e :: _ => if (c =? 47) && (e =? 47) then squeeze t else c :: squeeze t
      | [] => [c]
      end
  end.

Definition posixJoin (parts : list str) : str := squeeze (join [47] (List.filter nonempty parts)).

Definition is_slash (c : Z) : bool := c =? 47.

(** [s.replace(/\/+$/, '')] and [s.replace(/^\/+/, '')] *)
Definition drop_slashes_end (s : str) : str := rev (drop_while is_slash (rev s)).
Definition drop_slashes (s : str) : str := drop_while is_slash s.

Definition relFromBase (baseFsPath fsPath : str) : str :=
  let base := drop_slashes_end (toPosix baseFsPath) in
  let full := toPosix fsPath in
  drop_slashes (if starts_with base full then drop (length base) full else full).

Definition parentDir (rel : str) : str :=
  match cut_last 47 (toPosix rel) with Some (a, _) => a | None => [] end.

Definition clamp (n a b : Z) : Z := Z.max a (Z.min b n).

(** ** Lemmas *)

Lemma cut_last_spec c s a b : cut_last c s = Some (a, b) -> s = a ++ c :: b /\ Forall (fun d => d <> c) b.
Proof.
  revert a b. induction s as [|x t IH]; intros a b H; cbn [cut_last] in H; [done|].
  destruct (cut_last c t) as [[a' b']|] eqn:E.
  - simplify_eq. destruct (IH a' b eq_refl) as [-> Hb]. done.
  - destruct (Z.eqb_spec x c) as [->|]; [|done]. simplify_eq. split; [done|]. clear IH. revert E.
    induction b as [|y b IH]; intros E; [constructor|]. cbn [cut_last] in E. destruct (cut_last c b) as [[? ?]|]; [done|].
    destruct (Z.eqb_spec y c); [done|]. constructor; [done|]. by apply IH.
Qed.

Lemma cut_last_absent c s : cut_last c s = None <-> Forall (fun d => d <> c) s.
Proof.
  split.
  - induction s as [|x t IH]; intros E; [constructor|]. cbn [cut_last] in E. destruct (cut_last c t) as [[? ?]|]; [done|].
    destruct (Z.eqb_spec x c); [done|]. constructor; [done|]. by apply IH.
  - induction 1 as [|x t Hx _ IH]; [done|]. cbn [cut_last]. rewrite IH. by destruct (Z.eqb_spec x c).
Qed.

Lemma cut_last_app c a b : Forall (fun d => d <> c) b -> cut_last c (a ++ c :: b) = Some (a, b).
Proof.
  intros Hb. induction a as [|x a IH]; cbn [app cut_last].
  - apply cut_last_absent in Hb. by rewrite Hb, Z.eqb_refl.
  - by rewrite IH.
Qed.

(** A path without empty and dot segments *)
Definition clean_segment (x : str) : Prop := x <> [] /\ x <> js "." /\ x <> js "..".

Lemma clean_not_special x : clean_segment x ->
  bool_decide (x = []) = false /\ bool_decide (x = js ".") = false /\ bool_decide (x = js "..") = false.
Proof. intros (H1 & H2 & H3). by rewrite !bool_decide_false. Qed.

Lemma normalize_clean above acc segs : Forall clean_segment segs -> normalize_segments above acc segs = rev acc ++ segs.
Proof.
  intros H. revert acc. induction H as [|x segs Hx _ IH]; intros acc; cbn [normalize_segments]; [by rewrite app_nil_r|].
  destruct (clean_not_special x Hx) as (-> & -> & ->). cbn [orb]. rewrite IH. cbn [rev]. by rewrite <- app_assoc.
Qed.

(** Normal segments of an absolute path never leave the root. *)
Lemma normalize_result_clean acc segs :
  Forall clean_segment acc -> Forall clean_segment (normalize_segments false acc segs).
Proof.
  revert acc. induction segs as [|x segs IH]; intros acc Ha; cbn [normalize_segments]; [by apply Forall_rev|].
  case_bool_decide; [by apply IH|]. case_bool_decide; [by apply IH|]. cbn [orb]. case_bool_decide.
  - destruct Ha as [|p acc [? [? ?]] Ha]; [by apply IH|]. rewrite bool_decide_false by done. by apply IH.
  - apply IH. by constructor.
Qed.

Lemma relative_below from to rest : to = from ++ rest -> relative_segments from to = rest.
Proof.
  intros ->. induction from as [|a from IH]; cbn [relative_segments app]; [by destruct rest|].
  rewrite bool_decide_true by done. exact IH.
Qed.

Lemma relative_cases from to :
  (exists rest, to = from ++ rest /\ relative_segments from to = rest) \/
  (exists t, relative_segments from to = js ".." :: t).
Proof.
  revert to. induction from as [|a from IH]; intros to; cbn [relative_segments].
  - left. by exists to; destruct to.
  - destruct to as [|b to]; [right; cbn; eauto|]. case_bool_decide as E; [|right; cbn; eauto]. subst b.
    destruct (IH to) as [(rest & -> & H)|(t & H)]; [left; by exists rest|right; eauto].
Qed.

(** ** Theorems *)

(** The workspace and the relative path of a file in it give the file's path back, and its
    directory is the one that is refreshed; *)
Theorem relFromBase_inside base rel :
  rel <> [] -> Forall (fun c => c <> 92) (base ++ rel) -> starts_with [47] rel = false -> last base <> Some 47 ->
  relFromBase base (base ++ 47 :: rel) = rel.
Proof.
  intros Hr Hb Hs Hl. unfold relFromBase, toPosix.
  assert (Hno : forall s, Forall (fun c => c <> 92) s -> replace_all 92 [47] s = s).
  { intros s H. unfold replace_all. induction H as [|d s Hd _ IH]; [done|]. rewrite bind_cons, IH. by destruct (Z.eqb_spec d 92). }
  apply Forall_app in Hb as [Hb1 Hb2]. rewrite !Hno; [|by apply Forall_app; split; [|constructor]|done].
  assert (Hd : drop_slashes_end base = base).
  { unfold drop_slashes_end. destruct base as [|c base _] using rev_ind; [done|]. rewrite rev_app_distr. cbn [rev app].
    rewrite last_snoc in Hl. rewrite drop_while_head; [|unfold is_slash; destruct (Z.eqb_spec c 47); congruence].
    cbn [rev]. by rewrite rev_involutive. }
  rewrite Hd. replace (starts_with base (base ++ 47 :: rel)) with true by (symmetry; apply starts_with_spec; by eexists).
  rewrite drop_app_length. unfold drop_slashes. cbn [drop_while is_slash]. change (is_slash 47) with true. cbn iota.
  destruct rel as [|c rel]; [done|]. cbn [starts_with] in Hs. rewrite drop_while_head; [done|].
  unfold is_slash. rewrite Z.eqb_sym. destruct (47 =? c); [|done]. by destruct rel.
Qed.

Lemma relFromBase_inside_witness :
  relFromBase (js "/home/u/workspace") (js "/home/u/workspace" ++ 47 :: js "raw/a.log") = js "raw/a.log".
Proof. apply relFromBase_inside; [done|by repeat constructor|done|done]. Defined.

(** but a directory beside the workspace whose name begins like it is taken for a part of it. *)
Example relFromBase_sibling :
  relFromBase (js "/home/u/workspace") (js "/home/u/workspace-old/a.log") = js "-old/a.log".
Proof. by vm_compute. Qed.
