(* ===== verification/Workflow.v ===== *)
(** * The workflow engine

    src/core/tasks/workflow/workflowEngine.ts: a list of named steps run in order, with
    retries, jumps and a policy for errors.  A step works on a state of any type; what the
    engine uses of it is the clock.  A step that takes longer than its timeout counts as
    failed; its work is then taken as done. *)

From stdpp Require Import base list strings.
From Stdlib Require Import ZArith Lia.
From S2P Require Import Prelude JsString.

(** A state with a clock *)
Class Timed (W : Type) := {
  clock : W -> Z;
  sleep : Z -> W -> W;
}.

Inductive StepResult := StepOk | StepRetry | StepFail | StepSkip.

Section engine.
Context {W : Type} `{TS : Timed W}.

Record Step := MkStep {
  sp_name : str;
  sp_timeoutMs : option Z;
  sp_maxIterations : option Z;
  sp_run : W -> W * js_result StepResult;
  sp_next : option (StepResult -> W -> option str);
  sp_continue : bool;            (* [onErrorPolicy === 'continue'] *)
}.

(** A step with the defaults *)
Definition plain_step (name : str) (run : W -> W * js_result StepResult) : Step :=
  MkStep name None None run None false.

Definition withTimeout (t : option Z) (run : W -> W * js_result StepResult) (s : W)
  : W * js_result StepResult :=
  let '(s1, r) := run s in
  match t with
  | Some t => if (0 <? t) && (t <? clock s1 - clock s) then (s1, Throws) else (s1, r)
  | None => (s1, r)
  end.

(** [max] *)
Definition max_iterations (st : Step) : Z := Z.max 1 (or_else (sp_maxIterations st) 1).

(** The inner loop: [left] attempts remain, [iter] is the number of this one. *)
Fixpoint attempts (st : Step) (left : nat) (iter : Z) (s : W) : W * js_result StepResult :=
  match left with
  | O => (s, Throws)
  | S left' =>
      match withTimeout (sp_timeoutMs st) (sp_run st) s with
      | (s1, Throws) => (s1, Throws)
      | (s1, Ok StepRetry) =>
          if max_iterations st <=? iter then (s1, Throws)
          else attempts st left' (iter + 1) (sleep (1000 * Z.min iter 3) s1)
      | (s1, Ok StepFail) => (s1, Throws)
      | (s1, Ok r) => (s1, Ok r)
      end
  end.

Definition run_step (st : Step) (s : W) : W * js_result StepResult :=
  attempts st (Z.to_nat (max_iterations st)) 1 s.

(** [index.get(name)]: the last step of a name *)
Fixpoint index_of (name : str) (i : nat) (steps : list Step) : option nat :=
  match steps with
  | [] => None
  | st :: rest =>
      match index_of name (i + 1) rest with
      | Some j => Some j
      | None => if decide (sp_name st = name) then Some i else None
      end
  end.

(** Where the loop goes on after step [i] *)
Definition next_index (steps : list Step) (st : Step) (i : nat) (r : StepResult) (s : W) : nat :=
  match sp_next st with
  | Some f =>
      match f r s with
      | Some name => or_else (index_of name 0 steps) (i + 1)%nat
      | None => (i + 1)%nat
      end
  | None => (i + 1)%nat
  end.

(** The outer loop; [None] when the fuel ends. *)
Fixpoint run_from (steps : list Step) (fuel : nat) (i : nat) (s : W) : option (W * js_result unit) :=
  match fuel with
  | O => None
  | S fuel' =>
      match steps !! i with
      | None => Some (s, Ok tt)
      | Some st =>
          match run_step st s with
          | (s1, Ok r) => run_from steps fuel' (next_index steps st i r s1) s1
          | (s1, Throws) => if sp_continue st then run_from steps fuel' (i + 1) s1 else Some (s1, Throws)
          end
      end
  end.

(** [runAll] *)
Definition runAll (steps : list Step) (start : option str) (fuel : nat) (s : W) : option (W * js_result unit) :=
  let i := match start with Some name => or_else (index_of name 0 steps) 0%nat | None => 0%nat end in
  run_from steps fuel i s.
End engine.
Arguments Step W : clear implicits.

(** ** Workflows without jumps *)

Section linear.
Context {W : Type} `{TS : Timed W}.

(** The steps one after the other; an error ends the run unless its step says otherwise. *)
Fixpoint in_order (steps : list (Step W)) (s : W) : W * js_result unit :=
  match steps with
  | [] => (s, Ok tt)
  | st :: rest =>
      match run_step st s with
      | (s1, Ok _) => in_order rest s1
      | (s1, Throws) => if sp_continue st then in_order rest s1 else (s1, Throws)
      end
  end.

Definition no_jumps (steps : list (Step W)) : Prop := Forall (fun st => sp_next st = None) steps.

Lemma run_from_in_order steps pre fuel s :
  no_jumps (pre ++ steps) -> (length steps < fuel)%nat ->
  run_from (pre ++ steps) fuel (length pre) s = Some (in_order steps s).
Proof.
  revert pre fuel s. induction steps as [|st steps IH]; intros pre [|fuel] s Hn Hf; simpl in Hf; try lia.
  - cbn [run_from]. rewrite app_nil_r. by rewrite (lookup_ge_None_2 pre) by lia.
  - cbn [run_from in_order]. rewrite list_lookup_middle by done.
    assert (Hnx : sp_next st = None) by (apply Forall_app in Hn as [_ Hn]; by apply Forall_cons in Hn as [Hn _]).
    assert (Hl : (length pre + 1)%nat = length (pre ++ [st])) by (rewrite length_app; simpl; lia).
    rewrite (cons_middle st pre steps), app_assoc in Hn |- *.
    destruct (run_step st s) as [s1 [r|]].
    + unfold next_index. rewrite Hnx, Hl. apply IH; [done|lia].
    + destruct (sp_continue st); [|done]. rewrite Hl. apply IH; [done|lia].
Qed.

(** A workflow without jumps always ends, and runs its steps in order, each after the one
    before it has succeeded or may fail; the first other failure ends it, and nothing after
    it is run. *)
Theorem workflow_in_order steps s :
  no_jumps steps -> runAll steps None (S (length steps)) s = Some (in_order steps s).
Proof. intros Hn. unfold runAll. apply (run_from_in_order steps [] _ s Hn). lia. Qed.

(** Steps before a failure that ends the run *)
Lemma in_order_app l1 l2 s :
  in_order (l1 ++ l2) s =
  match in_order l1 s with (s1, Ok _) => in_order l2 s1 | (s1, Throws) => (s1, Throws) end.
Proof.
  revert s. induction l1 as [|st l1 IH]; intros s; [done|]. cbn [app in_order].
  destruct (run_step st s) as [s1 [r|]]; [apply IH|]. destruct (sp_continue st); [apply IH|done].
Qed.

Lemma run_plain_step name run s :
  run_step (plain_step name run) s =
  match run s with
  | (s1, Ok StepOk) => (s1, Ok StepOk)
  | (s1, Ok StepSkip) => (s1, Ok StepSkip)
  | (s1, _) => (s1, Throws)
  end.
Proof.
  unfold run_step. change (Z.to_nat _) with 1%nat. cbn [attempts]. unfold withTimeout. cbn [plain_step sp_timeoutMs sp_run].
  destruct (run s) as [s1 [[]|]]; done.
Qed.

(** A step that keeps asking for a retry is run as often as it may, with the pauses between
    the attempts, and then fails. *)
Fixpoint attempt_states (st : Step W) (n : nat) (iter : Z) (s : W) : W :=
  match n with
  | O => s
  | S O => fst (sp_run st s)
  | S n' => attempt_states st n' (iter + 1) (sleep (1000 * Z.min iter 3) (fst (sp_run st s)))
  end.

Theorem retry_exhausts st s :
  sp_timeoutMs st = None -> (forall s, snd (sp_run st s) = Ok StepRetry) ->
  run_step st s = (attempt_states st (Z.to_nat (max_iterations st)) 1 s, Throws).
Proof.
  intros Ht Hr. unfold run_step.
  assert (H : forall n iter s, iter + Z.of_nat n = max_iterations st + 1 -> 1 <= iter -> (0 < n)%nat ->
    attempts st n iter s = (attempt_states st n iter s, Throws)).
  { induction n as [|n IH]; intros iter s0 Hn Hi Hp; [lia|]. cbn [attempts attempt_states].
    unfold withTimeout. rewrite Ht. assert (E := Hr s0). destruct (sp_run st s0) as [s1 r]. cbn in E. subst r.
    cbn [fst]. destruct n as [|n].
    - destruct (Z.leb_spec (max_iterations st) iter); [done|lia].
    - destruct (Z.leb_spec (max_iterations st) iter); [lia|]. apply IH; lia. }
  apply H; unfold max_iterations; lia.
Qed.
End linear.
