(* ===== verification/UnitFile.v ===== *)
(** * Changes of a unit file

    What the sed scripts of src/core/service/ServiceFilePatcher.ts do to the lines of a
    systemd unit file: [sed_insert] and [fix_eol] for [insertAfterExecStart], [sed_delete]
    for [deleteByRegexPatterns], and the expressions that look for a line.  A pattern is a
    text without characters that mean something in an expression, as all patterns of the
    task runners are. *)

From stdpp Require Import base list strings.
From Stdlib Require Import ZArith Lia.
From S2P Require Import Prelude JsString Regex.

(** [[:space:]] *)
Definition posix_space (c : Z) : bool := (c =? 32) || ((9 <=? c) && (c <=? 13)).
Definition sp : re := Cls posix_space.

(** [/^[[:space:]]*ExecStart=/] *)
Definition EXEC_RX : re := sq [Bol; star sp; lit (js "ExecStart=")].

(** [/[[:space:]]\\[[:space:]]*$/] *)
Definition CONT_RX : re := sq [sp; chr 92; star sp; Eol].

Definition exec_start (l : str) : bool := rx_test EXEC_RX l.
Definition continued (l : str) : bool := rx_test CONT_RX l.

(** [sed1]: a line that starts the command and does not go on gets a backslash. *)
Definition sed_continue (l : str) : str := if continued l then l else l ++ [32; 92].

(** The line that is added, as it stands in the file *)
Definition appended (line : str) : str := [32] ++ line ++ [32; 92].

(** The script [sed1], [sedA], [appendLine] *)
Definition sed_insert (line : str) (ls : list str) : list str :=
  ls ≫= fun l => if exec_start l then [sed_continue l; appended line] else [l].

Definition drop_trailing (p : Z -> bool) (s : str) : str := rev (drop_while p (rev s)).

(** [s/\\[[:space:]]*$/\\/]: no white space after a last backslash *)
Definition fix_eol (l : str) : str :=
  let t := drop_trailing posix_space l in
  if bool_decide (last t = Some 92) then t else l.

(** The file after [insertAfterExecStart] *)
Definition insert_line (line : str) (ls : list str) : list str := map fix_eol (sed_insert line ls).

(** [sed -E -i -e '/p/d' ...] *)
Definition has_pattern (patterns : list str) (l : str) : bool := existsb (fun p => includes l p) patterns.
Definition sed_delete (patterns : list str) (ls : list str) : list str :=
  filter (fun l => has_pattern patterns l = false) ls.

(** [buildMarkerRegex]: the line with a backslash at its end *)
Definition marker_rx (line : str) : re :=
  sq [Bol; star sp; lit line; star sp; chr 92; star sp; Eol].

(** [buildContainsRegex]: [String.raw] keeps all four backslashes, which is an expression for
    two of them. *)
Definition contains_rx (line : str) : re :=
  sq [Bol; star sp; lit line; star sp; opt (lit [92; 92]); star sp; Eol].

(** [grep -E]: some line matches *)
Definition grep (r : re) (ls : list str) : bool := existsb (rx_test r) ls.

(** ** What systemd reads *)

(** A line that ends in a backslash goes on with the next one. *)
Definition goes_on (l : str) : bool := bool_decide (last l = Some 92).

(** The lines of a unit file, grouped into the lines systemd reads *)
Fixpoint logical_lines (ls : list str) : list (list str) :=
  match ls with
  | [] => []
  | l :: rest =>
      if goes_on l
      then match logical_lines rest with [] => [[l]] | g :: gs => (l :: g) :: gs end
      else [l] :: logical_lines rest
  end.

(** ** Lemmas *)

Lemma drop_trailing_snoc p s c : p c = false -> drop_trailing p (s ++ [c]) = s ++ [c].
Proof. intros H. unfold drop_trailing. rewrite rev_app_distr. cbn. rewrite H. cbn. by rewrite rev_involutive. Qed.

Lemma drop_trailing_app p s w :
  Forall (fun c => p c = true) w -> drop_trailing p (s ++ w) = drop_trailing p s.
Proof.
  intros Hw. unfold drop_trailing. rewrite rev_app_distr. f_equal.
  apply Forall_rev in Hw. induction Hw as [|c w' Hc _ IH]; [done|]. cbn. by rewrite Hc.
Qed.

Lemma fix_eol_slash s : fix_eol (s ++ [92]) = s ++ [92].
Proof. unfold fix_eol. by rewrite drop_trailing_snoc, last_snoc, bool_decide_eq_true_2 by done. Qed.

Lemma fix_eol_appended line : fix_eol (appended line) = appended line.
Proof. unfold appended. change [32; 92] with ([32] ++ [92]). rewrite !app_assoc. apply fix_eol_slash. Qed.

Lemma goes_on_appended line : goes_on (appended line) = true.
Proof.
  unfold appended, goes_on. change [32; 92] with ([32] ++ [92]). rewrite !app_assoc, last_snoc.
  by apply bool_decide_eq_true_2.
Qed.

(** A line that the script takes for continued, once the white space at its end is gone *)
Lemma continued_goes_on l : continued l = true -> fix_eol l = l -> goes_on l = true.
Proof.
  unfold continued, rx_test, exec. intros Hc Hf.
  assert (H : exists a W, l = (a ++ [92]) ++ W /\ Forall (fun c => posix_space c = true) W).
  { destruct (exec_from CONT_RX 0 None l) as [m|] eqn:E; [clear Hc|done].
    revert E. generalize 0%nat (@None Z). clear Hf. induction l as [|c l IH]; intros i pv E; cbn [exec_from] in E.
    - done.
    - destruct (rmatch CONT_RX _ _) as [z|] eqn:Em.
      + unfold CONT_RX in Em. cbn [sq] in Em. rewrite rm_sq in Em.
        apply rmatch_sound in Em as (u1 & y1 & E1 & D1 & Em). rewrite rm_sq in Em.
        apply rmatch_sound in Em as (u2 & y2 & E2 & D2 & Em). rewrite rm_sq in Em.
        apply rmatch_sound in Em as (u3 & y3 & E3 & D3 & Em). cbn [rmatch] in Em.
        destruct (m_rest y3) eqn:E4; [|done]. apply den_chr in D2 as ->. apply den_star_cls in D3.
        exists u1, u3. split; [|done]. cbn [m_rest] in E1. by rewrite E1, E2, E3, app_nil_r, <- app_assoc.
      + destruct (IH _ _ E) as (a & W & -> & HW). by exists (c :: a), W. }
  destruct H as (a & W & -> & HW). unfold fix_eol in Hf.
  rewrite drop_trailing_app, drop_trailing_snoc, last_snoc, bool_decide_eq_true_2 in Hf by done.
  unfold goes_on. rewrite <- Hf, last_snoc. by apply bool_decide_eq_true_2.
Qed.

(** A file whose continued lines end in their backslash, and whose commands go on *)
Definition tidy (l : str) : Prop := fix_eol l = l /\ (exec_start l = true -> continued l = true).

(** In a tidy file the change only adds the line after each start of a command. *)
Lemma insert_line_tidy line ls :
  Forall tidy ls ->
  insert_line line ls = ls ≫= fun l => if exec_start l then [l; appended line] else [l].
Proof.
  unfold insert_line, sed_insert. induction 1 as [|l ls [Hf Hc] _ IH]; [done|].
  rewrite !bind_cons, map_app, IH. f_equal. destruct (exec_start l); cbn [map].
  - unfold sed_continue. by rewrite Hc, Hf, fix_eol_appended by done.
  - by rewrite Hf.
Qed.

(** ** Inserting and deleting *)

(** Deleting the lines with the mark undoes the insertion: a tidy file without the mark comes
    back as it was. *)
Theorem delete_insert line mark ls :
  Forall tidy ls -> includes line mark = true -> has_pattern [mark] <$> ls = (fun _ => false) <$> ls ->
  sed_delete [mark] (insert_line line ls) = ls.
Proof.
  intros Ht Hm Hn. rewrite insert_line_tidy by done. clear Ht.
  assert (Ha : has_pattern [mark] (appended line) = true).
  { unfold has_pattern. cbn [existsb]. rewrite orb_false_r. apply includes_spec in Hm as (a & b & ->). apply includes_spec.
    exists ([32] ++ a), (b ++ [32; 92]). unfold appended. by rewrite <- !app_assoc. }
  unfold sed_delete. induction ls as [|l ls IH]; [done|]. cbn [fmap list_fmap] in Hn. simplify_eq.
  rewrite bind_cons, filter_app, IH by done.
  destruct (exec_start l); rewrite !filter_cons, ?filter_nil, ?decide_True by done; [|done].
  by rewrite decide_False by congruence.
Qed.

Definition sample_unit : list str :=
  [js "[Service]"; js "ExecStart=/usr/bin/docker run " ++ [92]; js "  --name homey"; js "Restart=always"].

Definition app_volume : str := js "--volume=" ++ [34] ++ js "homey-app:/app:rw" ++ [34].

Lemma sample_tidy : Forall tidy sample_unit.
Proof. repeat constructor; intros; by vm_compute. Qed.

Lemma delete_insert_witness :
  sed_delete [js "homey-app"] (insert_line app_volume sample_unit) = sample_unit.
Proof. apply (delete_insert app_volume (js "homey-app") sample_unit sample_tidy); by vm_compute. Defined.

(** ** What systemd reads of a changed file *)

(** In a tidy file the new line becomes part of the command: systemd reads the same lines as
    before, with the addition after each start of a command. *)
Theorem insert_logical line ls :
  Forall tidy ls ->
  logical_lines (insert_line line ls) = map (insert_line line) (logical_lines ls).
Proof.
  intros Ht. assert (Hg : Forall (Forall tidy) (logical_lines ls)).
  { induction Ht as [|l ls Hl _ IH]; cbn [logical_lines]; [constructor|].
    assert (H1 : Forall tidy [l]) by (constructor; [done|constructor]).
    destruct (goes_on l); [|by constructor]. destruct (logical_lines ls) as [|g gs]; [by constructor|].
    apply Forall_cons in IH as [H2 H3]. constructor; [by constructor|done]. }
  rewrite insert_line_tidy by done.
  set (f := fun l => if exec_start l then [l; appended line] else [l]).
  replace (map (insert_line line) (logical_lines ls)) with (map (mbind f) (logical_lines ls)).
  2:{ apply map_ext_Forall. eapply Forall_impl; [exact Hg|]. intros g Hgg. by rewrite insert_line_tidy. }
  clear Hg. induction Ht as [|l ls [Hf Hc] _ IH]; [done|]. rewrite bind_cons. cbn [logical_lines].
  destruct (exec_start l) eqn:E.
  - assert (Hl : f l = [l; appended line]) by (unfold f; by rewrite E). rewrite Hl. cbn [app logical_lines].
    rewrite (continued_goes_on l) by auto. rewrite goes_on_appended, IH.
    destruct (logical_lines ls) as [|g gs]; cbn [map]; rewrite bind_cons, Hl; done.
  - assert (Hl : f l = [l]) by (unfold f; by rewrite E). rewrite Hl. cbn [app logical_lines]. rewrite IH.
    destruct (goes_on l), (logical_lines ls) as [|g gs]; cbn [map]; rewrite bind_cons, Hl; done.
Qed.

Lemma insert_logical_witness :
  logical_lines (insert_line app_volume sample_unit) = map (insert_line app_volume) (logical_lines sample_unit).
Proof. apply (insert_logical app_volume sample_unit sample_tidy). Defined.

(** A command on one line does not go on: the added line ends in a backslash all the same,
    and takes the next line of the file with it. *)
Example one_line_command_swallows :
  let ls := [js "[Service]"; js "ExecStart=/usr/bin/docker run homey"; js "Restart=always"] in
  logical_lines ls = [[js "[Service]"]; [js "ExecStart=/usr/bin/docker run homey"]; [js "Restart=always"]] /\
  logical_lines (insert_line app_volume ls) =
    [[js "[Service]"];
     [js "ExecStart=/usr/bin/docker run homey " ++ [92]; appended app_volume; js "Restart=always"]].
Proof. by split; vm_compute. Qed.

(** After the line is deleted again, the next line of the file is still taken. *)
Example delete_leaves_backslash :
  let ls := [js "[Service]"; js "ExecStart=/usr/bin/docker run homey"; js "Restart=always"] in
  sed_delete [js "homey-app"] (insert_line app_volume ls) =
    [js "[Service]"; js "ExecStart=/usr/bin/docker run homey " ++ [92]; js "Restart=always"].
Proof. by vm_compute. Qed.

(** The expression of the test before an insertion allows two backslashes at the end, not
    one: it does not find the line that was inserted. *)
Example contains_misses_inserted :
  let ls := insert_line app_volume sample_unit in
  grep (contains_rx app_volume) ls = false /\ grep (marker_rx app_volume) ls = true.
Proof. by split; vm_compute. Qed.

(** ** Finding a line *)

Lemma rm_lit w t pv cs k :
  w <> [] -> rmatch (lit w) (Mst pv (w ++ t) cs) k = k (Mst (last w) t cs).
Proof.
  unfold lit. revert pv. induction w as [|c w IH]; intros pv H; [done|].
  destruct w as [|e w].
  - cbn [map sq app]. unfold chr. by rewrite rm_cls by apply Z.eqb_refl.
  - change (sq (map chr (c :: e :: w))) with (Sq (chr c) (sq (map chr (e :: w)))).
    rewrite rm_sq. unfold chr at 1. cbn [app]. rewrite rm_cls by apply Z.eqb_refl.
    change (e :: w ++ t) with ((e :: w) ++ t). by rewrite IH.
Qed.

(** A line that can be searched for: it does not start with white space. *)
Definition searchable (line : str) : Prop :=
  match line with [] => False | c :: _ => posix_space c = false end.

Lemma marker_matches line : searchable line -> rx_test (marker_rx line) (appended line) = true.
Proof.
  intros Hs. unfold rx_test, marker_rx.
  change (sq [Bol; star sp; lit line; star sp; chr 92; star sp; Eol]) with
    (Sq Bol (Sq (star sp) (Sq (lit line) (Sq (star sp) (Sq (chr 92) (Sq (star sp) Eol)))))).
  rewrite exec_anchored.
  assert (E : exists z, rmatch (Sq (star sp) (Sq (lit line) (Sq (star sp) (Sq (chr 92) (Sq (star sp) Eol)))))
    (Mst None (appended line) []) (fun y => Some y) = Some z).
  { eexists. rewrite rm_sq. unfold appended. unfold star at 1, sp at 1.
    apply rmatch_star_run; [by repeat constructor|by destruct line|]. cbn [last].
    rewrite rm_sq, rm_lit by (by destruct line). rewrite rm_sq. unfold star at 1, sp at 1.
    apply (rmatch_star_run posix_space [32] [92]); [by repeat constructor|done|].
    rewrite rm_sq. unfold chr. rewrite rm_cls by done. rewrite rm_sq. unfold star, sp.
    apply (rmatch_star_end posix_space []); [constructor|]. cbn [rmatch m_rest]. reflexivity. }
  destruct E as (z & ->). done.
Qed.

Lemma exec_start_bind line ls :
  existsb exec_start ls = true -> appended line ∈ sed_insert line ls.
Proof.
  unfold sed_insert. induction ls as [|l ls IH]; [done|]. cbn [existsb]. rewrite bind_cons.
  destruct (exec_start l); cbn [orb app]; intros H; [right; by left|right; by apply IH].
Qed.

(** The inserted line is found when the file starts a command. *)
Lemma marker_found line ls :
  searchable line -> existsb exec_start ls = true -> grep (marker_rx line) (insert_line line ls) = true.
Proof.
  intros Hs He. unfold grep. apply existsb_exists. exists (appended line). split; [|by apply marker_matches].
  apply list_elem_of_In. unfold insert_line. apply list_elem_of_fmap. exists (appended line).
  split; [by rewrite fix_eol_appended|by apply exec_start_bind].
Qed.

Lemma test_anchored_sound a b l w :
  rx_test (Sq Bol (Sq (star a) (Sq (lit w) b))) l = true -> includes l w = true.
Proof.
  unfold rx_test. rewrite exec_anchored. rewrite rm_sq.
  destruct (rmatch (star a) _ _) as [z|] eqn:E; [intros _|done].
  apply rmatch_sound in E as (u1 & y1 & E1 & D1 & E). rewrite rm_sq in E.
  apply rmatch_sound in E as (u2 & y2 & E2 & D2 & E). apply den_lit in D2 as ->.
  apply includes_spec. exists u1, (m_rest y2). cbn [m_rest] in E1. by rewrite E1, E2.
Qed.

(** A file without a mark has no line with it. *)
Lemma contains_rx_no line mark ls :
  includes line mark = true -> existsb (has_pattern [mark]) ls = false -> grep (contains_rx line) ls = false.
Proof.
  intros Hm Hn. unfold grep. apply not_true_iff_false. intros (l & Hin & Hl)%existsb_exists.
  apply (test_anchored_sound sp (Sq (star sp) (Sq (opt (lit [92; 92])) (Sq (star sp) Eol)))) in Hl.
  assert (Ht : existsb (has_pattern [mark]) ls = true); [|congruence].
  apply existsb_exists. exists l. split; [done|]. unfold has_pattern. cbn [existsb]. rewrite orb_false_r.
  apply includes_spec in Hm as (a & b & ->). apply includes_spec in Hl as (c & e & ->).
  apply includes_spec. exists (c ++ a), (b ++ e). by rewrite <- !app_assoc.
Qed.

(** ** Marks *)

(** A mark holds neither white space nor a backslash. *)
Definition mark_ok (mark : str) : Prop := mark <> [] /\ Forall (fun c => posix_space c = false /\ c <> 92) mark.

Lemma includes_snoc x c mark : mark <> [] -> c ∉ mark -> includes (x ++ [c]) mark = includes x mark.
Proof.
  intros Hn Hc. apply eq_true_iff_eq. rewrite !includes_spec. split.
  - intros (a & b & E). destruct b as [|d b _] using rev_ind.
    + rewrite app_nil_r in E. exfalso. apply Hc. destruct mark as [|d mark _] using rev_ind; [done|].
      rewrite app_assoc in E. apply app_inj_tail in E as [_ ->]. apply elem_of_app. right. by left.
    + rewrite !app_assoc in E. apply app_inj_tail in E as [-> ->]. exists a, b. by rewrite <- app_assoc.
  - intros (a & b & ->). exists a, (b ++ [c]). by rewrite <- !app_assoc.
Qed.

Lemma includes_clean x t mark :
  mark_ok mark -> Forall (fun c => posix_space c = true \/ c = 92) t -> includes (x ++ t) mark = includes x mark.
Proof.
  intros [Hn Hm] Ht. induction t as [|c t IH] using rev_ind; [by rewrite app_nil_r|].
  apply Forall_app in Ht as [Ht Hc]. apply Forall_cons in Hc as [Hc _]. rewrite app_assoc, includes_snoc; [by apply IH|done|].
  intros Hin. rewrite Forall_forall in Hm. apply Hm in Hin as [H1 H2]. destruct Hc; congruence.
Qed.

Lemma drop_trailing_split p s : exists t, s = drop_trailing p s ++ t /\ Forall (fun c => p c = true) t.
Proof.
  induction s as [|c s IH] using rev_ind; [by exists []|]. unfold drop_trailing. rewrite rev_app_distr. cbn [rev app drop_while].
  destruct (p c) eqn:E.
  - destruct IH as (t & IH & Ht). exists (t ++ [c]). split; [|by apply Forall_app; split; [|repeat constructor]].
    rewrite app_assoc. f_equal. exact IH.
  - exists []. split; [|constructor]. by rewrite app_nil_r; cbn [rev]; rewrite rev_involutive.
Qed.

Lemma fix_eol_split l : exists t, l = fix_eol l ++ t /\ Forall (fun c => posix_space c = true) t.
Proof.
  unfold fix_eol. destruct (drop_trailing_split posix_space l) as (t & E & Ht).
  case_bool_decide; [by exists t|]. exists []. by rewrite app_nil_r.
Qed.

(** Neither script adds or removes a mark on a line. *)
Lemma mark_fix_eol mark l : mark_ok mark -> includes (fix_eol l) mark = includes l mark.
Proof.
  intros Hm. destruct (fix_eol_split l) as (t & E & Ht). rewrite E at 2. symmetry. apply includes_clean; [done|].
  eapply Forall_impl; [exact Ht|]. by left.
Qed.

Lemma mark_continue mark l : mark_ok mark -> includes (sed_continue l) mark = includes l mark.
Proof.
  intros Hm. unfold sed_continue. destruct (continued l); [done|]. apply includes_clean; [done|].
  constructor; [by left|]. constructor; [by right|constructor].
Qed.

Lemma mark_appended mark line : mark_ok mark -> includes (appended line) mark = includes line mark.
Proof.
  intros Hm. unfold appended. rewrite app_assoc, includes_clean; [|done|constructor; [by left|constructor; [by right|constructor]]].
  cbn [app includes]. destruct Hm as [Hn Hm]. destruct mark as [|c mark]; [done|]. cbn [starts_with].
  apply Forall_cons in Hm as [[Hc _] _]. destruct (Z.eqb_spec c 32) as [->|]; done.
Qed.

(** A mark is in the new file when it was in the old one, or when the line has it and the file
    starts a command. *)
Lemma marked_insert mark line ls :
  mark_ok mark ->
  existsb (has_pattern [mark]) (insert_line line ls) =
  existsb (has_pattern [mark]) ls || (existsb exec_start ls && includes line mark).
Proof.
  intros Hm. unfold insert_line, sed_insert, has_pattern. induction ls as [|l ls IH]; [done|].
  rewrite bind_cons, map_app, existsb_app, IH. cbn [existsb]. rewrite !orb_false_r.
  destruct (exec_start l); cbn [map existsb orb andb]; rewrite !orb_false_r, !mark_fix_eol by done.
  - rewrite mark_continue, mark_appended by done.
    by destruct (includes l mark), (includes line mark), (existsb _ ls), (existsb exec_start ls).
  - by rewrite orb_assoc.
Qed.

(** The line that starts a command still does. *)
Lemma exec_start_spec l :
  exec_start l = true <-> exists u rest, l = u ++ js "ExecStart=" ++ rest /\ Forall (fun c => posix_space c = true) u.
Proof.
  unfold exec_start, rx_test, EXEC_RX.
  change (sq [Bol; star sp; lit (js "ExecStart=")]) with (Sq Bol (Sq (star sp) (lit (js "ExecStart=")))).
  rewrite exec_anchored, rm_sq. split.
  - destruct (rmatch _ _ _) as [z|] eqn:E; [intros _|done].
    apply rmatch_sound in E as (u1 & y1 & E1 & D1 & E). apply rmatch_sound in E as (u2 & y2 & E2 & D2 & _).
    apply den_lit in D2 as ->. apply den_star_cls in D1. cbn [m_rest] in E1. exists u1, (m_rest y2). by rewrite E1, E2.
  - intros (u & rest & -> & Hu).
    assert (E : exists z, rmatch (star sp) (Mst None (u ++ js "ExecStart=" ++ rest) [])
      (fun y => rmatch (lit (js "ExecStart=")) y (fun y0 => Some y0)) = Some z).
    { eexists. apply rmatch_star_run; [done|done|]. by rewrite rm_lit. }
    by destruct E as (z & ->).
Qed.

Lemma exec_start_prefix x t :
  Forall (fun c => posix_space c = true) t -> exec_start (x ++ t) = true -> exec_start x = true.
Proof.
  intros Ht H. apply exec_start_spec in H as (u & rest & E & Hu). apply exec_start_spec. exists u.
  revert rest E. induction t as [|c t IH] using rev_ind; intros rest E; [exists rest; by rewrite app_nil_r in E|].
  apply Forall_app in Ht as [Ht Hc]. apply Forall_cons in Hc as [Hc _].
  destruct rest as [|d rest _] using rev_ind.
  - exfalso. rewrite app_nil_r in E. change (js "ExecStart=") with (js "ExecStart" ++ [61]) in E.
    rewrite !app_assoc in E. apply app_inj_tail in E as [_ ->]. done.
  - rewrite !app_assoc in E. apply app_inj_tail in E as [E _]. apply (IH Ht rest). by rewrite E, <- app_assoc.
Qed.

Lemma exec_start_insert line ls :
  existsb exec_start ls = true -> existsb exec_start (insert_line line ls) = true.
Proof.
  intros (l & Hin & Hl)%existsb_exists. apply existsb_exists. exists (fix_eol (sed_continue l)). split.
  - unfold insert_line. apply in_map. apply list_elem_of_In. unfold sed_insert. apply list_elem_of_bind. exists l.
    rewrite Hl. split; [by left|]. by apply list_elem_of_In.
  - destruct (fix_eol_split (sed_continue l)) as (t & E & Ht). apply (exec_start_prefix _ t); [done|]. rewrite <- E.
    unfold sed_continue. destruct (continued l); [done|]. apply exec_start_spec in Hl as (u & rest & -> & Hu).
    apply exec_start_spec. exists u, (rest ++ [32; 92]). by rewrite <- !app_assoc.
Qed.

(** Without a start of a command nothing is inserted. *)
Lemma insert_no_exec line ls : existsb exec_start ls = false -> insert_line line ls = map fix_eol ls.
Proof.
  unfold insert_line, sed_insert. induction ls as [|l ls IH]; [done|]. cbn [existsb]. intros [Hl H]%orb_false_iff.
  rewrite bind_cons, Hl. cbn [app map]. by rewrite IH.
Qed.

Lemma marker_absent line mark ls :
  mark_ok mark -> includes line mark = true -> existsb exec_start ls = false -> existsb (has_pattern [mark]) ls = false ->
  grep (marker_rx line) (insert_line line ls) = false.
Proof.
  intros Hk Hm He Hn. unfold grep. apply not_true_iff_false. intros (l & Hin & Hl)%existsb_exists.
  apply (test_anchored_sound sp (Sq (star sp) (Sq (chr 92) (Sq (star sp) Eol)))) in Hl.
  assert (Ht : existsb (has_pattern [mark]) (insert_line line ls) = true).
  { apply existsb_exists. exists l. split; [done|]. unfold has_pattern. cbn [existsb]. rewrite orb_false_r.
    apply includes_spec in Hm as (a & b & ->). apply includes_spec in Hl as (c & e & ->).
    apply includes_spec. exists (c ++ a), (b ++ e). by rewrite <- !app_assoc. }
  rewrite marked_insert, Hn, He in Ht by done. done.
Qed.

(** [grep] for a literal text *)
Lemma rx_test_lit w l : w <> [] -> rx_test (lit w) l = includes l w.
Proof.
  intros Hw. unfold rx_test, exec. generalize 0%nat (@None Z). induction l as [|c l IH]; intros i pv; cbn [exec_from includes].
  - destruct (rmatch _ _ _) as [z|] eqn:E; [|by destruct w].
    apply rmatch_sound in E as (u & y & E & D1 & _). apply den_lit in D1 as ->. cbn in E.
    symmetry in E. apply app_eq_nil in E as [-> _]. done.
  - destruct (starts_with w (c :: l)) eqn:Ew.
    + apply starts_with_spec in Ew as (t & ->). by rewrite rm_lit.
    + destruct (rmatch _ _ _) as [z|] eqn:E; [|apply IH].
      apply rmatch_sound in E as (u & y & E & D1 & _). apply den_lit in D1 as ->. cbn [m_rest] in E.
      exfalso. assert (starts_with w (c :: l) = true) by (apply starts_with_spec; by eexists). congruence.
Qed.

Lemma grep_lit w ls : w <> [] -> grep (lit w) ls = existsb (has_pattern [w]) ls.
Proof.
  intros Hw. unfold grep, has_pattern. induction ls as [|l ls IH]; [done|]. cbn [existsb].
  by rewrite IH, rx_test_lit, orb_false_r.
Qed.
