(* ===== verification/Device.v ===== *)
(** * Devices and the commands sent to them

    The command lines of src/core/service, src/core/tasks and src/core/state, each with the
    text that the source builds, and the monad in which the tasks run: the state of the
    device, the work directory of the patcher, the shared data of the workflow and the user
    configuration; a call may throw.

    A device is a parameter ([Device]): it runs a command and gives an exit code and an
    output, or the call throws.  [effect] and [answer] state what the programs that the
    commands start do (cp, mv, rm, sed, grep, sha256sum, systemctl, docker) on the files, the
    containers, the volumes and the units of a device; [DeviceLaws] says that a healthy device
    behaves so, for the command lines whose names the shell reads back ([cmd_ok]). *)

From stdpp Require Import base list gmap strings.
From Stdlib Require Import ZArith Lia.
From S2P Require Import Prelude JsString Regex Shell UnitFile Workflow.

(** ** Texts *)

(** The double quote *)
Definition dquote : str := [34].

(** The search expressions of the source *)
Inductive pattern :=
  | PRaw (s : str)            (* an expression as it is *)
  | PToken (token : str)      (* [tokenToRegex] *)
  | PMarker (line : str)      (* [buildMarkerRegex] *)
  | PContains (line : str).   (* [buildContainsRegex] *)

(** The units that an expression gives a meaning to *)
Definition rx_special (c : Z) : bool := existsb (Z.eqb c) (js ".*+?^${}()|[]" ++ [92]).

(** [s.replace(/[.*+?^${}()|[\]\\]/g, '\\$&')] *)
Definition tokenToRegex (token : str) : str := token ≫= fun c => if rx_special c then [92; c] else [c].

(** [regexQuote]: double quotes too *)
Definition regexQuote (s : str) : str := replace_all 34 [92; 34] (tokenToRegex s).

Definition buildMarkerRegex (line : str) : str :=
  js "^[[:space:]]*" ++ regexQuote line ++ js "[[:space:]]*\\[[:space:]]*$".

Definition buildContainsRegex (line : str) : str :=
  js "^[[:space:]]*" ++ regexQuote line ++ js "[[:space:]]*(\\\\)?[[:space:]]*$".

Definition pattern_text (p : pattern) : str :=
  match p with
  | PRaw s => s
  | PToken t => tokenToRegex t
  | PMarker line => buildMarkerRegex line
  | PContains line => buildContainsRegex line
  end.

(** What the expressions match; [PRaw] for an expression without special units. *)
Definition pattern_re (p : pattern) : re :=
  match p with
  | PRaw s => lit s
  | PToken t => lit t
  | PMarker line => marker_rx line
  | PContains line => contains_rx line
  end.

(** The commands that [insertAfterExecStart] runs one by one *)
Inductive edit_command :=
  | WriteSed (content : list str) (script : str)
  | StatFile (file : str)
  | GrepBefore (file : str)
  | ApplySed (script file tmp : str)
  | FixEol (tmp : str)
  | CheckTmp (tmp : str)
  | GrepAfter (tmp : str)
  | VerifyMarker (p : pattern) (tmp : str)
  | Replace (tmp file : str).

Definition edit_text (c : edit_command) : str :=
  match c with
  | WriteSed content script => js "printf %s " ++ q (content ≫= fun l => l ++ [10]) ++ js " > " ++ q script
  | StatFile file => js "ls -l " ++ q file ++ js " 2>&1 || true"
  | GrepBefore file => js "grep -n '^[[:space:]]*ExecStart=' " ++ q file ++ js " 2>&1 || true"
  | ApplySed script file tmp => js "sed -f " ++ q script ++ [32] ++ q file ++ js " > " ++ q tmp
  | FixEol tmp => js "sed -E -i 's/\\[[:space:]]*$/\\/' " ++ q tmp
  | CheckTmp tmp =>
      js "[ -s " ++ q tmp ++ js " ] || { echo " ++ dquote ++ js "[SvcPatcher][ERROR] tmp empty" ++ dquote ++
      js " >&2; exit 31; }"
  | GrepAfter tmp => js "grep -nA2 '^[[:space:]]*ExecStart=' " ++ q tmp ++ js " 2>&1 || true"
  | VerifyMarker p tmp => js "grep -E " ++ q (pattern_text p) ++ [32] ++ q tmp ++ js " >/dev/null"
  | Replace tmp file => js "mv -f " ++ q tmp ++ [32] ++ q file
  end.

(** The commands *)
Inductive command :=
  | Id
  | FragmentPath (unit_ : str)
  | MakeDir (dir : str)
  | CopyKeep (a b : str)
  | MoveFile (a b : str)
  | RemoveDir (dir : str)
  | CopyForce (a b : str)
  | Edit (c : edit_command)
  | RemoveTmp (script tmp : str)
  | SedDelete (patterns : list str) (file : str)
  | DaemonReload
  | RestartUnit (unit_ : str)
  | Contains (p : pattern) (file : str)
  | HashFile (file : str)
  | Remount (root : str)
  | ShowUnit (unit_ : str)
  | IsActive (unit_ : str)
  | ContainersLike (match_ : str)
  | StopContainers (match_ : str)
  | VolumeNames
  | VolumeRm (v : str)
  | GrepLines (patterns : list str) (file : str)
  | ListUnits
  | FirstUnit
  | TestFile (path : str).

(** The scripts of [HostStateGuard] that take the expression as an argument *)
Definition ps_script : str :=
  js "docker ps -a --format " ++ dquote ++ js "{{.Names}}" ++ dquote ++ js " | grep -E " ++
  dquote ++ js "$1" ++ dquote ++ js " 2>/dev/null || true".

Definition xargs_script (verb : str) : str :=
  js "[ -z " ++ dquote ++ js "$names" ++ dquote ++ js " ] || echo " ++ dquote ++ js "$names" ++ dquote ++
  js " | xargs -n1 -I{} docker " ++ verb ++ [32] ++ dquote ++ js "{}" ++ dquote ++ js " >/dev/null 2>&1 || true".

Definition stop_script : str :=
  join (js " ; ") [js "names=$(" ++ ps_script ++ js ")"; xargs_script (js "stop"); xargs_script (js "rm")].

Definition units_script : str :=
  js "SYSTEMD_PAGER= systemctl list-units --type=service --all --no-legend --plain --no-pager 2>/dev/null | grep -E " ++
  dquote ++ js "^homey-(pro|bridge).*\.service" ++ dquote ++ js " | sed -E " ++ dquote ++ js "s/[[:space:]].*$//" ++ dquote.

Definition cmd_text (c : command) : str :=
  match c with
  | Id => js "sh -lc 'id >/dev/null'"
  | FragmentPath u =>
      js "sh -lc 'systemctl show -p FragmentPath " ++ dquote ++ u ++ dquote ++ js " 2>/dev/null | cut -d= -f2'"
  | MakeDir d => js "sh -lc 'mkdir -p " ++ q d ++ js " && chmod 700 " ++ q d ++ [39]
  | CopyKeep a b => sh_cp a b
  | MoveFile a b => sh_mv a b
  | RemoveDir d => js "sh -lc 'rm -rf " ++ q d ++ [39]
  | CopyForce a b => js "sh -lc " ++ q (js "cp -f " ++ dquote ++ a ++ dquote ++ [32] ++ dquote ++ b ++ dquote)
  | Edit c => sh_dq (edit_text c)
  | RemoveTmp script tmp => js "sh -lc " ++ q (js "rm -f " ++ script ++ [32] ++ tmp ++ js " 2>/dev/null || true")
  | SedDelete ps f =>
      js "sh -lc " ++ q (js "sed -E -i " ++ join [32] (map (fun rx => js "-e " ++ q ([47] ++ rx ++ js "/d")) ps) ++
                         [32] ++ q f)
  | DaemonReload => js "sh -lc 'systemctl daemon-reload'"
  | RestartUnit u => sh_restart u
  | Contains p f => sh_contains (pattern_text p) f
  | HashFile f =>
      js "sh -lc 'if command -v sha256sum >/dev/null 2>&1; then sha256sum " ++ q f ++ js " | cut -d" ++ dquote ++ [32] ++
      dquote ++ js " -f1; else md5sum " ++ q f ++ js " | cut -d" ++ dquote ++ [32] ++ dquote ++ js " -f1; fi'"
  | Remount r => js "sh -lc 'mount -o remount,rw " ++ r ++ js " || true'"
  | ShowUnit u =>
      js "sh -lc " ++
      q (js "SYSTEMD_PAGER= systemctl show -p ActiveState -p SubState -p ExecMainPID " ++ q u ++ js " 2>/dev/null")
  | IsActive u => js "sh -lc 'systemctl is-active " ++ q u ++ js " 2>/dev/null || true'"
  | ContainersLike m => sh_args ps_script [m]
  | StopContainers m => sh_args stop_script [m]
  | VolumeNames =>
      js "sh -lc 'docker volume ls --format " ++ dquote ++ js "{{.Name}}" ++ dquote ++ js " 2>/dev/null || true'"
  | VolumeRm v => js "sh -lc 'docker volume rm " ++ q v ++ js " >/dev/null 2>&1 || true'"
  | GrepLines ps f =>
      js "sh -lc 'grep -nE " ++ join [32] (map (fun p => js "-e " ++ q p) ps) ++ js " -- " ++ q f ++
      js " 2>/dev/null || true'"
  | ListUnits => js "sh -lc '" ++ units_script ++ js " || true'"
  | FirstUnit => js "sh -lc " ++ q (units_script ++ js " | head -n1")
  | TestFile p => js "sh -lc 'if [ -f " ++ dquote ++ p ++ dquote ++ js " ]; then echo OK; else echo NO; fi'"
  end.

(** ** What the commands do *)

(** What the tasks can see of a device: its files as lists of lines, the names of its
    containers and volumes, and the states of its units. *)
Record Machine := MkMachine {
  m_files : gmap str (list str);
  m_containers : list str;
  m_volumes : list str;
  m_unit : str -> str * str * str;      (* ActiveState, SubState, ExecMainPID *)
}.

(** The programs of a device whose results the tasks only compare or hand on *)
Class Programs := {
  hash_of : list str -> str;                        (* sha256sum or md5sum *)
  run_sed : list str -> list str -> list str;       (* sed -f *)
  restarted : str -> Machine -> list str * list str * (str -> str * str * str);
                                                    (* the containers, volumes and units then *)
  volume_used : list str -> str -> bool;            (* by one of the containers *)
  fragment : str -> str;                            (* FragmentPath *)
  service_units : list str;                         (* list-units | grep | sed *)
}.

(** The script of [insertAfterExecStart] *)
Definition sed1 : str := js "/^[[:space:]]*ExecStart=/ { /[[:space:]]\\[[:space:]]*$/! s~$~ \\~ }".
Definition sedA : str := js "/^[[:space:]]*ExecStart=/ a\".
Definition appendLine (line : str) : str := [32] ++ esc line ++ js " \\".
Definition sedContent (line : str) : list str := [sed1; sedA; appendLine line].

(** Lines as a program prints them *)
Definition lines_text (ls : list str) : str := ls ≫= fun l => l ++ [10].

(** [grep -n] *)
Definition numbered_lines (keep : str -> bool) (ls : list str) : list str :=
  map (fun nl => print_nat (Z.of_nat nl.1) ++ [58] ++ nl.2)
    (List.filter (fun nl => keep nl.2) (combine (seq 1 (length ls)) ls)).

Definition on_files (f : gmap str (list str) -> gmap str (list str)) (m : Machine) : Machine :=
  MkMachine (f (m_files m)) (m_containers m) (m_volumes m) (m_unit m).

Definition copy_file (a b : str) (fs : gmap str (list str)) : gmap str (list str) :=
  match fs !! a with Some ls => <[b := ls]> fs | None => fs end.

Definition move_file (a b : str) (fs : gmap str (list str)) : gmap str (list str) :=
  match fs !! a with Some ls => <[b := ls]> (delete a fs) | None => fs end.

Definition update_file (a : str) (f : list str -> list str) (fs : gmap str (list str)) : gmap str (list str) :=
  match fs !! a with Some ls => <[a := f ls]> fs | None => fs end.

Definition remove_dir (dir : str) (fs : gmap str (list str)) : gmap str (list str) :=
  filter (fun kv => starts_with (dir ++ [47]) kv.1 = false) fs.

Definition like (match_ : str) (name : str) : bool := rx_test (lit match_) name.

Section machine.
Context `{PG : Programs}.

Definition edit_effect (c : edit_command) (fs : gmap str (list str)) : gmap str (list str) :=
  match c with
  | WriteSed content script => <[script := content]> fs
  | ApplySed script file tmp =>
      match fs !! script, fs !! file with
      | Some s, Some ls => <[tmp := run_sed s ls]> fs
      | _, _ => <[tmp := []]> fs
      end
  | FixEol tmp => update_file tmp (map fix_eol) fs
  | Replace tmp file => move_file tmp file fs
  | _ => fs
  end.

Definition exists_file (f : str) (fs : gmap str (list str)) : bool :=
  match fs !! f with Some _ => true | None => false end.

Definition has_line (p : pattern) (f : str) (fs : gmap str (list str)) : bool :=
  match fs !! f with Some ls => grep (pattern_re p) ls | None => false end.

Definition ok_if (b : bool) (code : Z) : Z := if b then 0 else code.

Definition edit_code (c : edit_command) (fs : gmap str (list str)) : Z :=
  match c with
  | ApplySed script file _ => ok_if (exists_file script fs && exists_file file fs) 1
  | FixEol tmp => ok_if (exists_file tmp fs) 1
  | CheckTmp tmp => ok_if (match fs !! tmp with Some (_ :: _) => true | _ => false end) 31
  | VerifyMarker p tmp => ok_if (has_line p tmp fs) 1
  | Replace tmp _ => ok_if (exists_file tmp fs) 1
  | _ => 0
  end.

Definition effect (c : command) (m : Machine) : Machine :=
  match c with
  | CopyKeep a b | CopyForce a b => on_files (copy_file a b) m
  | MoveFile a b => on_files (move_file a b) m
  | RemoveDir d => on_files (remove_dir d) m
  | Edit c => on_files (edit_effect c) m
  | RemoveTmp script tmp => on_files (fun fs => delete script (delete tmp fs)) m
  | SedDelete ps f => on_files (update_file f (sed_delete ps)) m
  | RestartUnit u => let '(cs, vs, us) := restarted u m in MkMachine (m_files m) cs vs us
  | StopContainers x =>
      MkMachine (m_files m) (List.filter (fun c => negb (like x c)) (m_containers m)) (m_volumes m) (m_unit m)
  | VolumeRm v =>
      if volume_used (m_containers m) v then m
      else MkMachine (m_files m) (m_containers m) (List.filter (fun w => negb (bool_decide (w = v))) (m_volumes m)) (m_unit m)
  | _ => m
  end.

Definition unit_text (st : str * str * str) : str :=
  let '(a, s, p) := st in
  lines_text [js "ActiveState=" ++ a; js "SubState=" ++ s; js "ExecMainPID=" ++ p].

(** The exit code and the output; the outputs that are only written to the log are left out. *)
Definition answer (c : command) (m : Machine) : Z * str :=
  let fs := m_files m in
  match c with
  | FragmentPath u => (0, fragment u ++ [10])
  | CopyKeep a _ | CopyForce a _ | MoveFile a _ => (ok_if (exists_file a fs) 1, [])
  | Edit c => (edit_code c fs, [])
  | SedDelete _ f => (ok_if (exists_file f fs) 1, [])
  | Contains p f => (ok_if (has_line p f fs) 1, [])
  | HashFile f => (0, match fs !! f with Some ls => hash_of ls ++ [10] | None => [] end)
  | ShowUnit u => (0, unit_text (m_unit m u))
  | IsActive u => (0, (m_unit m u).1.1 ++ [10])
  | ContainersLike x => (0, lines_text (List.filter (like x) (m_containers m)))
  | VolumeNames => (0, lines_text (m_volumes m))
  | GrepLines ps f =>
      (0, match fs !! f with Some ls => lines_text (numbered_lines (has_pattern ps) ls) | None => [] end)
  | ListUnits => (0, lines_text service_units)
  | FirstUnit => (0, lines_text (take 1 service_units))
  | TestFile p => (0, (if exists_file p fs then js "OK" else js "NO") ++ [10])
  | _ => (0, [])
  end.
End machine.

(** ** Command lines that are read back *)

(** A name that stands for itself in a command line *)
Definition bare (s : str) : Prop := s <> [] /\ Forall bare_unit s.

(** An expression that matches itself, also between the slashes of sed *)
Definition plain (s : str) : Prop := s <> [] /\ Forall (fun c => rx_special c = false /\ c <> 47 /\ c <> 10) s.

Definition one_line (s : str) : Prop := Forall (fun c => c <> 10) s.

Definition pattern_ok (p : pattern) : Prop := match p with PRaw s => plain s | PToken s | PMarker s | PContains s => one_line s end.

Definition edit_ok (c : edit_command) : Prop :=
  match c with
  | WriteSed content _ => Forall one_line content
  | VerifyMarker p _ => pattern_ok p
  | _ => True
  end.

Definition cmd_ok (c : command) : Prop :=
  match c with
  | FragmentPath s | MakeDir s | RemoveDir s | RestartUnit s | HashFile s | Remount s | IsActive s | VolumeRm s | TestFile s => bare s
  | CopyKeep a b | MoveFile a b | CopyForce a b | RemoveTmp a b => bare a /\ bare b
  | Edit c => edit_ok c
  | SedDelete ps _ => Forall plain ps
  | Contains p _ => pattern_ok p
  | ContainersLike x | StopContainers x => plain x
  | GrepLines ps f => Forall (fun p => bare p /\ plain p) ps /\ bare f
  | _ => True
  end.

(** ** Devices *)

(** A connection to a device: what [connectionManager.run] gives for a command, and the
    clock of the machine that sends it *)
Class Device (D : Type) := {
  d_exec : command -> D -> D * js_result (option Z * str);
  d_clock : D -> Z;
  d_sleep : Z -> D -> D;
}.

(** sed does with the script what [sed_insert] says, and a hash is a word. *)
Class ProgramsLaws (PG : Programs) := {
  sed_inserts line ls : one_line line -> run_sed (sedContent line) ls = sed_insert line ls;
  hash_word ls : hash_of ls <> [] /\ Forall (fun c => is_ws c = false) (hash_of ls);
}.

Class DeviceLaws (D : Type) (DV : Device D) (PG : Programs) := {
  machine : D -> Machine;
  healthy : D -> Prop;
  exec_healthy c d :
    healthy d -> cmd_ok c ->
    exists d', d_exec c d = (d', Ok (Some (answer c (machine d)).1, (answer c (machine d)).2)) /\
      healthy d' /\ machine d' = effect c (machine d);
  sleep_healthy t d : healthy d -> healthy (d_sleep t d) /\ machine (d_sleep t d) = machine d;
  clock_exec c d : d_clock d <= d_clock (d_exec c d).1;
  clock_sleep t d : 0 <= t -> d_clock d + t <= d_clock (d_sleep t d);
}.

(** ** The state and the calls of a task *)

(** src/core/config/userconfig.ts *)
Record HomeyUserConfig := MkCfg {
  homey_service_file_path : option str;
  homey_service_file_name : option str;
  homey_service_name : option str;
}.

Definition empty_cfg : HomeyUserConfig := MkCfg None None None.

(** [ctx.bag] of a workflow *)
Record Bag := MkBag {
  svcPath : str;
  workPath : str;
  tokens : list str;
  existed : list (str * bool);
  insertLines : list str;
  hashBefore : str;
  dryRun : list str;
  backupPath : str;
  volumes : list str;
  token_exists : bool;
}.

Definition empty_bag : Bag := MkBag [] [] [] [] [] [] [] [] [] false.

(** The workdir of the [ServiceFilePatcher], the bag, the configuration file of the
    extension context and the one of the workspace; a file that cannot be read or parsed reads
    as the empty configuration.  There may be no context, and the workspace of a context may
    not be known ([Throws]). *)
Record Host (D : Type) := MkHost {
  h_dev : D;
  h_workdir : option str;
  h_bag : Bag;
  h_ctx : option (js_result HomeyUserConfig);
  h_loose : HomeyUserConfig;
}.
Arguments MkHost {D} _ _ _ _ _.
Arguments h_dev {D} _.
Arguments h_workdir {D} _.
Arguments h_bag {D} _.
Arguments h_ctx {D} _.
Arguments h_loose {D} _.

Section monad.
Context {D : Type} {DV : Device D}.

Definition set_dev (d : D) (s : Host D) : Host D := MkHost d (h_workdir s) (h_bag s) (h_ctx s) (h_loose s).
Definition set_workdir (w : option str) (s : Host D) : Host D := MkHost (h_dev s) w (h_bag s) (h_ctx s) (h_loose s).
Definition set_bag (b : Bag) (s : Host D) : Host D := MkHost (h_dev s) (h_workdir s) b (h_ctx s) (h_loose s).
Definition set_ctx (c : option (js_result HomeyUserConfig)) (s : Host D) : Host D := MkHost (h_dev s) (h_workdir s) (h_bag s) c (h_loose s).

#[export] Instance Host_timed : Timed (Host D) := {
  clock s := d_clock (h_dev s);
  sleep t s := set_dev (d_sleep t (h_dev s)) s;
}.

Definition M (A : Type) : Type := Host D -> Host D * js_result A.

Definition ret {A} (a : A) : M A := fun s => (s, Ok a).
Definition throw {A} : M A := fun s => (s, Throws).
Definition bind {A B} (m : M A) (k : A -> M B) : M B := fun s =>
  match m s with (s1, Ok a) => k a s1 | (s1, Throws) => (s1, Throws) end.

(** [try { m } catch { h }] *)
Definition try_catch {A} (m h : M A) : M A := fun s =>
  match m s with (s1, Throws) => h s1 | r => r end.

(** [try { m } finally { f }], where [f] does not throw *)
Definition try_finally {A} (m : M A) (f : M unit) : M A := fun s =>
  let '(s1, r) := m s in ((f s1).1, r).

Definition get {A} (f : Host D -> A) : M A := fun s => (s, Ok (f s)).
Definition modify (f : Host D -> Host D) : M unit := fun s => (f s, Ok tt).

(** [connectionManager.run] *)
Definition run (c : command) : M (option Z * str) := fun s =>
  let '(d, r) := d_exec c (h_dev s) in (set_dev d s, r).

(** [Date.now()] *)
Definition now : M Z := get clock.

Definition pause (t : Z) : M unit := modify (sleep t).

(** A loop over an array *)
Fixpoint each {A} (f : A -> M unit) (l : list A) : M unit :=
  match l with [] => ret tt | x :: l' => bind (f x) (fun _ => each f l') end.
End monad.
Arguments M D A : clear implicits.

Notation "'let*' x := m 'in' k" := (bind m (fun x => k))
  (at level 10, x pattern, m at level 100, k at level 200) : edge_scope.
Notation "m ;; k" := (bind m (fun _ => k)) (at level 100, k at level 200, right associativity) : edge_scope.

(** ** Reasoning about calls *)

Section wp.
Context {D : Type} {DV : Device D}.
#[local] Open Scope edge_scope.

(** [m] started in [s] ends with a result and a state in [Q]. *)
Definition wp {A} (s : Host D) (m : M D A) (Q : js_result A -> Host D -> Prop) : Prop := Q (m s).2 (m s).1.

Lemma wp_ret {A} s (a : A) (Q : js_result A -> Host D -> Prop) : Q (Ok a) s -> wp s (ret a) Q.
Proof. done. Qed.

Lemma wp_throw {A} s (Q : js_result A -> Host D -> Prop) : Q Throws s -> wp s throw Q.
Proof. done. Qed.

Lemma wp_bind {A B} s (m : M D A) (k : A -> M D B) Q :
  wp s m (fun r s1 => match r with Ok a => wp s1 (k a) Q | Throws => Q Throws s1 end) -> wp s (bind m k) Q.
Proof. unfold wp, bind. by destruct (m s) as [s1 [a|]]. Qed.

Lemma wp_get {A} s (f : Host D -> A) Q : Q (Ok (f s)) s -> wp s (get f) Q.
Proof. done. Qed.

Lemma wp_modify s f (Q : js_result unit -> Host D -> Prop) : Q (Ok tt) (f s) -> wp s (modify f) Q.
Proof. done. Qed.

Lemma wp_catch {A} s (m h : M D A) Q :
  wp s m (fun r s1 => match r with Ok a => Q (Ok a) s1 | Throws => wp s1 h Q end) -> wp s (try_catch m h) Q.
Proof. unfold wp, try_catch. by destruct (m s) as [s1 [a|]]. Qed.

Lemma wp_finally {A} s (m : M D A) f Q :
  wp s m (fun r s1 => wp s1 f (fun _ s2 => Q r s2)) -> wp s (try_finally m f) Q.
Proof. unfold wp, try_finally. by destruct (m s) as [s1 r]. Qed.

Lemma wp_mono {A} s (m : M D A) (Q R : js_result A -> Host D -> Prop) :
  wp s m Q -> (forall r s1, Q r s1 -> R r s1) -> wp s m R.
Proof. unfold wp. auto. Qed.

(** The part of the state that is not on the device *)
Definition side (s : Host D) := (h_workdir s, h_bag s, h_ctx s, h_loose s).

Context {PG : Programs} {DL : DeviceLaws D DV PG}.

(** A state with a healthy device in a known condition *)
Definition at_ (s : Host D) (m : Machine) sd : Prop :=
  healthy (h_dev s) /\ machine (h_dev s) = m /\ side s = sd.

Lemma run_at s m sd c Q :
  at_ s m sd -> cmd_ok c ->
  (forall s1, at_ s1 (effect c m) sd -> Q (Ok (Some (answer c m).1, (answer c m).2)) s1) -> wp s (run c) Q.
Proof.
  intros (Hh & <- & <-) Hc HQ. destruct (exec_healthy c (h_dev s) Hh Hc) as (d' & E & Hh' & Hm).
  unfold wp, run. rewrite E. by apply HQ.
Qed.

Lemma pause_at s m sd t (Q : js_result unit -> Host D -> Prop) :
  at_ s m sd -> (forall s1, at_ s1 m sd -> Q (Ok tt) s1) -> wp s (pause t) Q.
Proof.
  intros (Hh & <- & <-) HQ. destruct (sleep_healthy t (h_dev s) Hh) as [Hh' Hm]. by apply HQ.
Qed.

Lemma side_eq (s : Host D) w b c l :
  side s = (w, b, c, l) -> h_workdir s = w /\ h_bag s = b /\ h_ctx s = c /\ h_loose s = l.
Proof. unfold side. intros E. by simplify_eq. Qed.
End wp.

(** One step of a symbolic run, up to the next command *)
Ltac wp_step :=
  cbv beta iota zeta;
  lazymatch goal with
  | |- wp _ (bind _ _) _ => apply wp_bind
  | |- wp _ (ret _) _ => apply wp_ret
  | |- wp _ throw _ => apply wp_throw
  | |- wp _ (try_catch _ _) _ => apply wp_catch
  | |- wp _ (try_finally _ _) _ => apply wp_finally
  | |- wp _ (get _) _ => apply wp_get
  | |- wp _ now _ => apply wp_get
  | |- wp _ (modify _) _ => apply wp_modify
  end; cbv beta iota zeta.

Ltac wp_steps := repeat wp_step.

(** ** Waiting

    [while (Date.now() < deadline) { if (await body()) return true; await sleep(pollMs); }
    return false;]  *)

Section waiting.
Context {D : Type} {DV : Device D}.
#[local] Open Scope edge_scope.

(** The loop: a run of the source's [while], without a bound on its length *)
Inductive waits (deadline pollMs : Z) (body : M D bool) : Host D -> Host D * js_result bool -> Prop :=
  | waits_over s : deadline <= clock s -> waits deadline pollMs body s (s, Ok false)
  | waits_true s s1 : clock s < deadline -> body s = (s1, Ok true) -> waits deadline pollMs body s (s1, Ok true)
  | waits_throws s s1 : clock s < deadline -> body s = (s1, Throws) -> waits deadline pollMs body s (s1, Throws)
  | waits_again s s1 r :
      clock s < deadline -> body s = (s1, Ok false) -> waits deadline pollMs body (sleep pollMs s1) r ->
      waits deadline pollMs body s r.

Fixpoint wait_loop (fuel : nat) (deadline pollMs : Z) (body : M D bool) : M D bool := fun s =>
  match fuel with
  | O => (s, Ok false)
  | S fuel' =>
      if clock s <? deadline then
        match body s with
        | (s1, Ok true) => (s1, Ok true)
        | (s1, Throws) => (s1, Throws)
        | (s1, Ok false) => wait_loop fuel' deadline pollMs body (sleep pollMs s1)
        end
      else (s, Ok false)
  end.

(** Each round lasts [pollMs] at least. *)
Definition wait_fuel (timeoutMs pollMs : Z) : nat := S (S (Z.to_nat (timeoutMs / pollMs))).

Definition wait_until (timeoutMs pollMs : Z) (body : M D bool) : M D bool := fun s =>
  wait_loop (wait_fuel timeoutMs pollMs) (clock s + timeoutMs) pollMs body s.
End waiting.

Section waiting_ends.
Context {D : Type} {DV : Device D} {PG : Programs} {DL : DeviceLaws D DV PG}.

(** A body that only runs commands does not turn the clock back. *)
Definition forward {A} (body : M D A) : Prop := forall s, clock s <= clock (body s).1.

Lemma forward_run c : forward (run c).
Proof.
  intros s. unfold run. assert (H := clock_exec c (h_dev s)). destruct (d_exec c (h_dev s)) as [d r].
  exact H.
Qed.

Lemma forward_ret {A} (a : A) : forward (ret a).
Proof. intros s. simpl. lia. Qed.

Lemma forward_bind {A B} (m : M D A) (k : A -> M D B) : forward m -> (forall a, forward (k a)) -> forward (bind m k).
Proof.
  intros Hm Hk s. unfold bind. assert (H := Hm s). destruct (m s) as [s1 [a|]]; cbn [fst] in *; [|done].
  etrans; [exact H|apply Hk].
Qed.

Lemma wait_loop_runs deadline pollMs body fuel s :
  0 < pollMs -> forward body -> deadline - clock s <= Z.of_nat fuel * pollMs - pollMs ->
  waits deadline pollMs body s (wait_loop fuel deadline pollMs body s).
Proof.
  intros Hp Hb. revert s. induction fuel as [|fuel IH]; intros s Hf; [apply waits_over; lia|].
  cbn [wait_loop]. destruct (Z.ltb_spec (clock s) deadline) as [Hlt|Hge]; [|by apply waits_over].
  assert (Hc := Hb s). destruct (body s) as [s1 [[]|]] eqn:E; cbn [fst] in Hc.
  - by apply waits_true.
  - eapply waits_again; [done|done|]. apply IH.
    assert (Hs := clock_sleep pollMs (h_dev s1) ltac:(lia)).
    change (d_clock (d_sleep pollMs (h_dev s1))) with (clock (sleep pollMs s1)) in Hs.
    change (d_clock (h_dev s1)) with (clock s1) in Hs. lia.
  - by apply waits_throws.
Qed.

(** Every wait of the guard ends: a loop that sleeps between its polls is over after
    [timeoutMs / pollMs + 1] rounds at most, whatever the polls answer, so the bounded loop of
    the model is a complete run of the unbounded one. *)
Theorem wait_ends timeoutMs pollMs body s :
  0 < pollMs -> 0 <= timeoutMs -> forward body ->
  waits (clock s + timeoutMs) pollMs body s (wait_until timeoutMs pollMs body s).
Proof.
  intros Hp Ht Hb. apply wait_loop_runs; [done|done|]. unfold wait_fuel.
  assert (H := Z.mul_succ_div_gt timeoutMs pollMs Hp). assert (H0 := Z.div_pos timeoutMs pollMs Ht Hp). nia.
Qed.

(** A poll that keeps the device as it is *)
Lemma wait_loop_at fuel deadline pollMs body s m sd (Q : js_result bool -> Host D -> Prop) :
  at_ s m sd ->
  (forall s0, at_ s0 m sd -> exists b s1, body s0 = (s1, Ok b) /\ at_ s1 m sd) ->
  (forall b s1, at_ s1 m sd -> Q (Ok b) s1) -> wp s (wait_loop fuel deadline pollMs body) Q.
Proof.
  intros Hs Hb HQ. revert s Hs. induction fuel as [|fuel IH]; intros s Hs; [by apply HQ|].
  unfold wp. cbn [wait_loop]. destruct (_ <? _); [|by apply HQ].
  destruct (Hb s Hs) as (b & s1 & -> & H1). destruct b; [by apply HQ|].
  apply IH. destruct H1 as (Hh & <- & <-). destruct (sleep_healthy pollMs (h_dev s1) Hh) as [Hh' Hm]. by split_and!.
Qed.

Lemma wait_until_at timeoutMs pollMs body s m sd (Q : js_result bool -> Host D -> Prop) :
  at_ s m sd ->
  (forall s0, at_ s0 m sd -> exists b s1, body s0 = (s1, Ok b) /\ at_ s1 m sd) ->
  (forall b s1, at_ s1 m sd -> Q (Ok b) s1) -> wp s (wait_until timeoutMs pollMs body) Q.
Proof. intros Hs Hb HQ. by apply (wait_loop_at _ _ _ _ s m sd). Qed.

(** A poll that succeeds at once *)
Lemma wait_until_now timeoutMs pollMs body s s1 :
  0 < timeoutMs -> body s = (s1, Ok true) -> wait_until timeoutMs pollMs body s = (s1, Ok true).
Proof.
  intros Ht Hb. unfold wait_until, wait_fuel. cbn [wait_loop].
  destruct (Z.ltb_spec (clock s) (clock s + timeoutMs)); [|lia]. by rewrite Hb.
Qed.
End waiting_ends.

(** ** The outputs of commands *)

(** [String(stdout).split(/\r?\n/).map((s) => s.trim()).filter(Boolean)] *)
Definition listed (out : str) : list str := List.filter nonempty (map trim (split_crlf out)).

Definition word (s : str) : Prop := s <> [] /\ Forall (fun c => is_ws c = false) s.

Lemma drop_while_none p s : Forall (fun c => p c = false) s -> drop_while p s = s.
Proof. by intros [|c t Hc _]; cbn [drop_while]; rewrite ?Hc. Qed.

Lemma trim_words s : Forall (fun c => is_ws c = false) s -> trim s = s.
Proof.
  intros H. unfold trim, trim_end, trim_start. rewrite (drop_while_none _ s), drop_while_none; [apply rev_involutive| |done].
  by apply Forall_rev.
Qed.

Lemma trim_line s : Forall (fun c => is_ws c = false) s -> trim (s ++ [10]) = s.
Proof.
  intros H. unfold trim, trim_end, trim_start. destruct s as [|c s]; [done|].
  assert (Hc : is_ws c = false) by (by apply Forall_cons in H as [H' _]).
  cbn [app]. rewrite (drop_while_head is_ws c) by done. change (c :: s ++ [10]) with ((c :: s) ++ [10]).
  rewrite rev_app_distr. cbn [rev app drop_while].
  change (is_ws 10) with true. cbn iota. change (rev s ++ [c]) with (rev (c :: s)).
  rewrite drop_while_none by (by apply Forall_rev). apply rev_involutive.
Qed.

Lemma word_unit (P : Z -> Prop) s : (forall c, is_ws c = false -> P c) -> word s -> Forall P s.
Proof. intros HP [_ H]. eapply Forall_impl; [exact H|]. apply HP. Qed.

Lemma split_lines_text ls : Forall word ls -> split_crlf (lines_text ls) = ls ++ [[]].
Proof.
  intros H. rewrite split_crlf_spec.
  assert (E : split_on 10 (lines_text ls) = ls ++ [[]]).
  { unfold lines_text. induction H as [|l ls Hl _ IH]; [done|]. rewrite bind_cons, <- app_assoc. cbn [app].
    rewrite split_on_app_sep, IH, split_on_none; [done|]. apply word_unit; [|done]. intros c Hc ->. by vm_compute in Hc. }
  rewrite E, strip_init_app by done. cbn [strip_init]. f_equal.
  assert (Hs : Forall (fun l => strip_cr l = l) ls).
  { eapply Forall_impl; [exact H|]. intros l Hl. unfold strip_cr.
    destruct Hl as [Hn Hl]. destruct (exists_last Hn) as (l' & c & ->). apply Forall_app in Hl as [_ Hl].
    apply Forall_cons in Hl as [Hc _]. rewrite last_snoc. destruct (Z.eqb_spec c 13) as [->|]; [|done]. by vm_compute in Hc. }
  clear -Hs. induction Hs as [|l ls Hl _ IH]; [done|]. cbn [map]. by rewrite Hl, IH.
Qed.

Lemma listed_lines ls : Forall word ls -> listed (lines_text ls) = ls.
Proof.
  intros H. unfold listed. rewrite split_lines_text by done. rewrite map_app, List.filter_app. cbn. rewrite app_nil_r.
  induction H as [|l ls [Hn Hl] _ IH]; [done|]. cbn [map List.filter]. rewrite trim_words by done.
  destruct l; [done|]. cbn [nonempty]. by rewrite IH.
Qed.

(** ** A device that satisfies the laws *)

Module Sim.

Fixpoint unesc (s : str) : str :=
  match s with
  | [] => []
  | c :: t => if c =? 92 then match t with _ :: t' => 92 :: unesc t' | [] => [92] end else c :: unesc t
  end.

Definition sim_sed (script ls : list str) : list str :=
  match script with
  | [_; _; a] => sed_insert (unesc (take (length a - 4) (drop 1 a))) ls
  | _ => ls
  end.

Definition sim_hash (ls : list str) : str := js "h" ++ List.filter (fun c => negb (is_ws c)) (mjoin ls).

Definition sim_word (v : str) : bool := nonempty v && forallb (fun c => negb (is_ws c)) v.

#[export] Instance sim_programs : Programs := {
  hash_of := sim_hash;
  run_sed := sim_sed;
  restarted u m := (m_containers m, List.filter sim_word (m_volumes m), fun _ => (js "active", js "running", js "42"));
  volume_used _ _ := false;
  fragment u := js "/lib/systemd/system/homey-pro@.service";
  service_units := [js "homey-pro@edge.service"];
}.

#[export] Instance sim_device : Device (Machine * Z) := {
  d_exec c d := ((effect c d.1, d.2 + 1), Ok (Some (answer c d.1).1, (answer c d.1).2));
  d_clock d := d.2;
  d_sleep t d := (d.1, d.2 + Z.max 0 t);
}.

Lemma unesc_esc s : unesc (esc s) = s.
Proof.
  induction s as [|c s IH]; [done|]. unfold esc, replace_all in *. rewrite bind_cons.
  destruct (Z.eqb_spec c 92) as [->|Hc]; cbn [app unesc]; [by rewrite IH|].
  destruct (Z.eqb_spec c 92); [done|]. by rewrite IH.
Qed.

#[export] Instance sim_programs_laws : ProgramsLaws sim_programs.
Proof.
  split.
  - intros line ls _. cbn [run_sed sim_programs sim_sed sedContent].
    unfold appendLine. change ([32] ++ esc line ++ js " \\") with (32 :: esc line ++ js " \\").
    cbn [length drop]. rewrite length_app. change (length (js " \\")) with 3%nat.
    replace (S (length (esc line) + 3) - 4)%nat with (length (esc line)) by lia.
    by rewrite drop_0, take_app_length, unesc_esc.
  - intros ls. split; [done|]. cbn [hash_of sim_programs]. unfold sim_hash. constructor; [done|].
    apply Forall_forall. intros c Hc. apply list_elem_of_In, filter_In in Hc as [_ Hc].
    by destruct (is_ws c).
Qed.

#[export] Instance sim_device_laws : DeviceLaws (Machine * Z) sim_device sim_programs.
Proof.
  refine (Build_DeviceLaws (Machine * Z) sim_device sim_programs fst (fun _ => True) _ _ _ _).
  - intros c [m t] _ _. by eexists.
  - done.
  - intros c [m t]. cbn. lia.
  - intros t [m u] Ht. cbn. lia.
Defined.
End Sim.
