(* ===== verification/Discovery.v ===== *)
(** * Finding the service of a device

    src/core/service/serviceDiscovery.ts, and src/core/config/userconfig.ts for the user's
    configuration.  The dialogs of VS Code are parameters: what the user picks or enters. *)

From stdpp Require Import base list gmap strings.
From Stdlib Require Import ZArith Lia.
From S2P Require Import Prelude JsString Regex Shell Paths UnitFile Workflow Device.

#[local] Open Scope edge_scope.

(** ** The user configuration *)

(** [a || b] on a string that may be missing *)
Definition or_text (o : option str) (d : str) : str :=
  match o with Some ((_ :: _) as s) => s | _ => d end.

Definition has_text (o : option str) : bool := match o with Some s => nonempty s | None => false end.

Definition resolveServiceFilePath (cfg : HomeyUserConfig) : str :=
  let base := replace_all 92 [47] (or_text (homey_service_file_path cfg) (js "/lib/systemd/system/")) in
  let name := or_text (homey_service_file_name cfg) (js "homey-pro@.service") in
  posix_join (if bool_decide (last base = Some 47) then base else base ++ [47]) name.

Section discovery.
Context {D : Type} {DV : Device D}.

(** [readUserHomeyConfig] of the context, which is there *)
Definition readUserHomeyConfig : M D HomeyUserConfig := fun s =>
  (s, match h_ctx s with Some r => r | None => Throws end).

Definition readUserHomeyConfigLoose : M D HomeyUserConfig := get h_loose.

(** [writeUserHomeyConfig(ctx, { homey_service_name })] *)
Definition writeServiceName (name : str) : M D unit :=
  let* cfg := readUserHomeyConfig in
  modify (set_ctx (Some (Ok (MkCfg (homey_service_file_path cfg) (homey_service_file_name cfg) (Some name))))).

(** ** The unit *)

Definition ANSI_COLOR_RE : re :=
  sq [chr 27; chr 91; star (Cls (fun c => is_digit c || (c =? 59))); chr 109].

Definition sanitizeUnit (s : str) : str :=
  let line := or_else (head (split_on 10 (replace_all 13 [] (remove_all ANSI_COLOR_RE s)))) [] in
  or_else (head (split_ws (trim line))) [].

(** [/^homey-(pro|bridge).*\.service$/] *)
Definition UNIT_RX : re :=
  sq [Bol; lit (js "homey-"); Grp 1 (Alt (lit (js "pro")) (lit (js "bridge"))); star dot; lit (js ".service"); Eol].

Definition detectHomeyUnit : M D str :=
  let* r := run FirstUnit in
  let unit_ := sanitizeUnit (snd r) in
  if rx_test UNIT_RX unit_ then ret unit_ else throw.

Definition isUnitValid (unit_ : str) : M D bool :=
  let* r := run (FragmentPath unit_) in
  ret (nonempty (trim (snd r))).

(** [cfg.homey_service_name] when it is there and not blank *)
Definition stored_name (cfg : HomeyUserConfig) : option str :=
  match homey_service_name cfg with
  | Some name => if nonempty (trim name) then Some (trim name) else None
  | None => None
  end.

(** [pick] is what the user chooses from the list. *)
Definition discoverHomeyServiceName (pick : list str -> option str) : M D (option str) :=
  let* cfg := readUserHomeyConfig in
  match stored_name cfg with
  | Some name => ret (Some name)
  | None =>
      let* r := run ListUnits in
      match listed (snd r) with
      | [] => ret None
      | [x] => writeServiceName x ;; ret (Some x)
      | l => match pick l with
             | Some ((_ :: _) as x) => writeServiceName x ;; ret (Some x)
             | _ => ret None
             end
      end
  end.

(** The cached unit, if there is a context and the unit still exists *)
Definition cached_unit (pick : list str -> option str) : M D (option str) :=
  let* ctx := get h_ctx in
  match ctx with
  | None => ret None
  | Some _ =>
      let* cached := discoverHomeyServiceName pick in
      match cached with
      | Some ((_ :: _) as u) => let* valid := isUnitValid u in ret (if valid then Some u else None)
      | _ => ret None
      end
  end.

Definition resolveHomeyUnit (pick : list str -> option str) : M D str :=
  let* cached := try_catch (cached_unit pick) (ret None) in
  match cached with
  | Some u => ret u
  | None =>
      let* detected := detectHomeyUnit in
      let* ctx := get h_ctx in
      try_catch (match ctx with Some _ => writeServiceName detected | None => ret tt end) (ret tt) ;;
      ret detected
  end.

(** ** The service file *)

(** What the user does when the file is not there: one choice, then one text *)
Inductive fix_answer :=
  | FixPath (text : option str)
  | FixFile (text : option str)
  | FixCancel.

Definition full_path (path file : str) : str :=
  path ++ (if bool_decide (last path = Some 47) then [] else [47]) ++ file.

(** The loop, for the answers that the user has given so far; [None] while the dialog waits
    for the next one. *)
Fixpoint checkServiceFileExists (answers : list fix_answer) (path file : str) : M D (option (option (str * str))) :=
  let* r := run (TestFile (full_path path file)) in
  if bool_decide (trim (snd r) = js "OK") then ret (Some (Some (path, file)))
  else match answers with
  | [] => ret None
  | FixCancel :: _ => ret (Some None)
  | FixPath (Some ((_ :: _) as np)) :: rest => checkServiceFileExists rest (trim np) file
  | FixFile (Some ((_ :: _) as nf)) :: rest => checkServiceFileExists rest path (trim nf)
  | _ :: rest => checkServiceFileExists rest path file
  end.
End discovery.

(** ** Theorems *)

Section theorems.
Context {D : Type} {DV : Device D} {PG : Programs} {PL : ProgramsLaws PG} {DL : DeviceLaws D DV PG}.

(** A unit name of the kind that systemd lists: no white space, no escape unit *)
Definition unit_name (u : str) : Prop :=
  bare u /\ rx_test UNIT_RX u = true /\ Forall (fun c => is_ws c = false /\ c <> 27) u.

Lemma remove_all_absent r c0 s :
  (forall pv t z, rmatch r (Mst pv t []) (fun y => Some y) = Some z -> exists t', t = c0 :: t') ->
  Forall (fun c => c <> c0) s -> remove_all r s = s.
Proof.
  intros Hr H. unfold remove_all. cbn [remove_all_from].
  assert (E : forall i pv, exec_from r i pv s = None); [|by rewrite E].
  induction H as [|c s Hc _ IH]; intros i pv; cbn [exec_from].
  - destruct (rmatch _ _ _) as [z|] eqn:E; [|done]. by apply Hr in E as (t' & ?).
  - destruct (rmatch _ _ _) as [z|] eqn:E; [|apply IH]. apply Hr in E as (t' & [= ? ?]). done.
Qed.

Lemma remove_color_absent s : Forall (fun c => c <> 27) s -> remove_all ANSI_COLOR_RE s = s.
Proof.
  apply remove_all_absent. intros pv t z. unfold ANSI_COLOR_RE. cbn [sq]. rewrite rm_sq. intros E.
  apply rmatch_sound in E as (u & y & E & D1 & _). apply den_chr in D1 as ->. cbn in E. by eexists.
Qed.

Lemma replace_all_absent c w s : Forall (fun d => d <> c) s -> replace_all c w s = s.
Proof.
  unfold replace_all. induction 1 as [|d s Hd _ IH]; [done|]. rewrite bind_cons, IH.
  by destruct (Z.eqb_spec d c).
Qed.

Lemma split_ws_word s : Forall (fun c => is_ws c = false) s -> split_ws s = [s].
Proof.
  unfold split_ws. induction 1 as [|c s Hc _ IH]; [done|]. cbn [split_ws_aux]. by rewrite Hc, IH.
Qed.

(** The name that is printed on a line is read back. *)
Lemma sanitizeUnit_line u : Forall (fun c => is_ws c = false /\ c <> 27) u -> sanitizeUnit (u ++ [10]) = u.
Proof.
  intros H. assert (Hw : Forall (fun c => is_ws c = false) u) by (eapply Forall_impl; [exact H|]; by intros c [? ?]).
  assert (Hn : forall k, is_ws k = true -> Forall (fun c => c <> k) u).
  { intros k Hk. eapply Forall_impl; [exact Hw|]. intros c Hc ->. congruence. }
  unfold sanitizeUnit. rewrite remove_color_absent.
  2:{ apply Forall_app. split; [|by repeat constructor]. eapply Forall_impl; [exact H|]. by intros c [? ?]. }
  rewrite replace_all_absent.
  2:{ apply Forall_app. split; [by apply Hn|by repeat constructor]. }
  rewrite split_on_app_sep, split_on_none by (by apply Hn). cbn [app head or_else].
  by rewrite trim_words, split_ws_word.
Qed.

Lemma detect_at s m sd u rest Q :
  at_ s m sd -> service_units = u :: rest -> unit_name u ->
  (forall s1, at_ s1 m sd -> Q (Ok u) s1) -> wp s detectHomeyUnit Q.
Proof.
  intros Hs Hu (Hb & Hrx & Hw) HQ. unfold detectHomeyUnit. wp_step. apply (run_at s m sd); [done|done|].
  intros s1 H1. cbn [answer snd effect] in *. rewrite Hu. cbn [take lines_text mbind list_bind].
  rewrite app_nil_r, sanitizeUnit_line by done. rewrite Hrx. by apply HQ.
Qed.

Lemma ctx_at s m w b c l : at_ s m (w, b, c, l) -> h_ctx s = c.
Proof. intros (_ & _ & Hs). by apply side_eq in Hs as (_ & _ & ? & _). Qed.

Lemma read_config_at s m w b cfg l Q :
  at_ s m (w, b, Some (Ok cfg), l) -> Q (Ok cfg) s -> wp s readUserHomeyConfig Q.
Proof. intros Hs HQ. unfold wp, readUserHomeyConfig. by rewrite (ctx_at _ _ _ _ _ _ Hs). Qed.

Lemma write_name_at s m w b cfg l u Q :
  at_ s m (w, b, Some (Ok cfg), l) ->
  (forall s1, at_ s1 m (w, b, Some (Ok (MkCfg (homey_service_file_path cfg) (homey_service_file_name cfg) (Some u))), l) ->
    Q (Ok tt) s1) -> wp s (writeServiceName u) Q.
Proof.
  intros Hs HQ. unfold writeServiceName. wp_step. apply (read_config_at s m w b cfg l); [done|]. wp_step. apply HQ.
  destruct Hs as (H & <- & Hs). apply side_eq in Hs as (<- & <- & _ & <-). by split_and!.
Qed.

(** The unit of a task is the stored one as long as the device knows it; the configuration
    stays as it is. *)
Theorem stored_unit_used s m w b cfg l u pick :
  at_ s m (w, b, Some (Ok cfg), l) -> homey_service_name cfg = Some u ->
  word u -> bare u -> word (fragment u) ->
  wp s (resolveHomeyUnit pick) (fun r s1 => r = Ok u /\ at_ s1 m (w, b, Some (Ok cfg), l)).
Proof.
  intros Hs Hn [Hne Hu] Hb [Hf1 Hf2]. unfold resolveHomeyUnit, cached_unit, discoverHomeyServiceName, isUnitValid.
  wp_steps. rewrite (ctx_at _ _ _ _ _ _ Hs). wp_steps. apply (read_config_at s m w b cfg l); [done|].
  unfold stored_name. rewrite Hn, trim_words by done. destruct u as [|c u]; [done|]. cbn [nonempty]. wp_steps.
  apply (run_at s m (w, b, Some (Ok cfg), l)); [done|done|].
  intros s1 H1. cbn [answer snd effect] in *. rewrite trim_line by done.
  destruct (fragment (c :: u)); [done|]. cbn [nonempty]. by wp_steps.
Qed.

(** Otherwise it is the first service that the device lists, and it is stored. *)
Theorem detected_unit_stored s m w b cfg l u rest pick :
  at_ s m (w, b, Some (Ok cfg), l) -> stored_name cfg = None ->
  service_units = u :: rest -> rest <> [] -> Forall word (u :: rest) -> pick (u :: rest) = None -> unit_name u ->
  wp s (resolveHomeyUnit pick) (fun r s1 => r = Ok u /\
    at_ s1 m (w, b, Some (Ok (MkCfg (homey_service_file_path cfg) (homey_service_file_name cfg) (Some u))), l)).
Proof.
  intros Hs Hn Hl Hr Hws Hp Hu. unfold resolveHomeyUnit, cached_unit, discoverHomeyServiceName.
  wp_steps. rewrite (ctx_at _ _ _ _ _ _ Hs). wp_steps. apply (read_config_at s m w b cfg l); [done|].
  rewrite Hn. wp_steps. apply (run_at s m (w, b, Some (Ok cfg), l)); [done|done|]. intros s1 H1. cbn [answer snd effect] in *.
  rewrite Hl, listed_lines by done. destruct rest as [|v rest]; [done|]. rewrite Hp. wp_steps.
  apply (detect_at s1 m (w, b, Some (Ok cfg), l) u (v :: rest)); [done|done|done|]. intros s2 H2.
  wp_steps. rewrite (ctx_at _ _ _ _ _ _ H2). wp_steps. apply (write_name_at s2 m w b cfg l); [done|]. intros s3 H3. by wp_steps.
Qed.

(** A device without such a service, and nothing stored: the task does not start. *)
Theorem no_unit_throws s m w b l pick :
  at_ s m (w, b, None, l) -> service_units = [] ->
  wp s (resolveHomeyUnit pick) (fun r s1 => r = Throws /\ at_ s1 m (w, b, None, l)).
Proof.
  intros Hs Hl. unfold resolveHomeyUnit, cached_unit. wp_steps. rewrite (ctx_at _ _ _ _ _ _ Hs). unfold detectHomeyUnit. wp_steps.
  apply (run_at s m (w, b, None, l)); [done|done|].
  intros s1 H1. cbn [answer snd effect] in *. rewrite Hl. by wp_steps.
Qed.

Lemma resolve_at s m w b l u rest pick Q :
  at_ s m (w, b, None, l) -> service_units = u :: rest -> unit_name u ->
  (forall s1, at_ s1 m (w, b, None, l) -> Q (Ok u) s1) -> wp s (resolveHomeyUnit pick) Q.
Proof.
  intros Hs Hu Hn HQ. unfold resolveHomeyUnit, cached_unit. wp_steps. rewrite (ctx_at _ _ _ _ _ _ Hs). wp_steps.
  apply (detect_at s m (w, b, None, l) u rest); [done|done|done|]. intros s1 H1. wp_steps.
  rewrite (ctx_at _ _ _ _ _ _ H1). wp_steps. by apply HQ.
Qed.

(** The texts that the user enters are names that a shell reads back. *)
Definition answer_ok (a : fix_answer) : Prop :=
  match a with FixPath (Some ((_ :: _) as t)) | FixFile (Some ((_ :: _) as t)) => bare (trim t) | _ => True end.

Lemma full_path_bare p f : bare p -> bare f -> bare (full_path p f).
Proof.
  intros [Hp1 Hp2] [Hf1 Hf2]. unfold full_path. split; [by destruct p|].
  apply Forall_app. split; [done|]. apply Forall_app. split; [|done].
  case_bool_decide; by repeat constructor.
Qed.

(** Whatever the user enters, a service file that is accepted exists on the device. *)
Theorem accepted_file_exists s m sd answers path file :
  at_ s m sd -> Forall answer_ok answers -> bare path -> bare file ->
  wp s (checkServiceFileExists answers path file) (fun r s1 => at_ s1 m sd /\
    forall p f, r = Ok (Some (Some (p, f))) -> exists_file (full_path p f) (m_files m) = true).
Proof.
  intros Hs Ha. revert s path file Hs. induction Ha as [|a answers Ha _ IH]; intros s path file Hs Hp Hf;
    cbn [checkServiceFileExists]; apply wp_bind; (apply (run_at s m sd); [done|by apply full_path_bare|]); intros s1 H1;
    cbn [answer snd effect] in *.
  all: destruct (exists_file (full_path path file) (m_files m)) eqn:E;
    [rewrite bool_decide_true by done; apply wp_ret; split; [done|]; intros p f Hpf; by simplify_eq|
     rewrite bool_decide_false by done].
  - apply wp_ret. split; [done|]. intros p f Hpf. by simplify_eq.
  - destruct a as [[[|c t]|]|[[|c t]|]|]; try (by apply IH). apply wp_ret. split; [done|]. intros p f Hpf. by simplify_eq.
Qed.
End theorems.
