(* ===== verification/Patcher.v ===== *)
(** * The patcher of the service file

    src/core/service/ServiceFilePatcher.ts: the service file is copied to a work directory on
    the device, edited there and moved back.  Each method is a call in the monad of the tasks;
    the specifications ([..._at]) say what it does on a healthy device. *)

From stdpp Require Import base list gmap strings.
From Stdlib Require Import ZArith Lia.
From S2P Require Import Prelude JsString Regex Shell UnitFile Workflow Device Discovery.

#[local] Open Scope edge_scope.

Section patcher.
Context {D : Type} {DV : Device D}.

Definition svcPathGuess : str := js "/lib/systemd/system/homey-pro@.service".

(** The path of a configuration that names a path or a file *)
Definition configured_path (cfg : HomeyUserConfig) : option str :=
  if has_text (homey_service_file_path cfg) || has_text (homey_service_file_name cfg)
  then Some (resolveServiceFilePath cfg) else None.

(** The configuration of the context, then the one of the workspace *)
Definition user_path : M D (option str) :=
  let* ctx := get h_ctx in
  let* first := match ctx with
                | Some _ => let* cfg := readUserHomeyConfig in ret (configured_path cfg)
                | None => ret None
                end in
  match first with
  | Some p => ret (Some p)
  | None => let* loose := readUserHomeyConfigLoose in ret (configured_path loose)
  end.

Definition resolveServicePath (unit_ : str) : M D str :=
  let* user := try_catch user_path (ret None) in
  match user with
  | Some p => ret p
  | None =>
      let* p := try_catch (let* r := run (FragmentPath unit_) in ret (trim (snd r))) (ret []) in
      ret (if nonempty p then p else svcPathGuess)
  end.

(** [unit.replace(/[^a-zA-Z0-9_.@-]/g, '_')] *)
Definition safe_unit_char (c : Z) : bool := is_word c || existsb (Z.eqb c) [46; 64; 45].
Definition safeUnit (unit_ : str) : str := map (fun c => if safe_unit_char c then c else 95) unit_.

Definition workdir_name (unit_ : str) (ts : Z) : str :=
  js "/tmp/edgetool-" ++ safeUnit unit_ ++ [45] ++ print_int ts.

Definition makeWorkdir (unit_ : str) : M D str :=
  let* w := get h_workdir in
  match w with
  | Some dir => ret dir
  | None =>
      let* ts := now in
      let dir := workdir_name unit_ ts in
      run (MakeDir dir) ;; modify (set_workdir (Some dir)) ;; ret dir
  end.

Definition stageToWorkCopy (unit_ origFile : str) : M D str :=
  let* dir := makeWorkdir unit_ in
  let work := dir ++ js "/homey.service.work" in
  run (CopyKeep origFile work) ;; ret work.

Definition computeHash (file : str) : M D str :=
  let* r := run (HashFile file) in ret (trim (snd r)).

Definition replaceOriginalWith (origFile workFile : str) : M D unit :=
  try_catch
    (try_catch (computeHash origFile) (ret []) ;;
     try_catch (computeHash workFile) (ret []) ;;
     run (MoveFile workFile origFile) ;;
     try_catch (computeHash origFile) (ret []) ;;
     ret tt)
    (run (MoveFile workFile origFile) ;; ret tt).

Definition cleanupWorkdir : M D unit :=
  let* w := get h_workdir in
  match w with
  | None => ret tt
  | Some dir => modify (set_workdir None) ;; run (RemoveDir dir) ;; ret tt
  end.

Definition backup (file : str) : M D str :=
  let* ts := now in
  let bak := file ++ js ".bak." ++ print_int ts in
  run (CopyForce file bak) ;; ret bak.

Definition restore (file backupPath : str) : M D unit := run (CopyForce backupPath file) ;; ret tt.

Definition contains (file : str) (markerRe : pattern) : M D bool :=
  let* r := run (Contains markerRe file) in ret (or_else (fst r) 1 =? 0).

(** [run] of [insertAfterExecStart] *)
Definition run_edit (c : edit_command) : M D unit :=
  let* r := run (Edit c) in
  if or_else (fst r) 0 =? 0 then ret tt else throw.

Definition insertAfterExecStart (file line : str) : M D unit :=
  let* already := try_catch (contains file (PContains line)) (ret false) in
  if already then ret tt
  else
    let tmp := file ++ js ".tmp" in
    let* ts := now in
    let sedScript := file ++ js ".sed." ++ print_int ts in
    run_edit (WriteSed (sedContent line) sedScript) ;;
    try_finally
      (run_edit (StatFile file) ;;
       run_edit (GrepBefore file) ;;
       run_edit (ApplySed sedScript file tmp) ;;
       run_edit (FixEol tmp) ;;
       run_edit (CheckTmp tmp) ;;
       run_edit (GrepAfter tmp) ;;
       run_edit (VerifyMarker (PMarker line) tmp) ;;
       run_edit (Replace tmp file) ;;
       run_edit (StatFile file))
      (try_catch (run (RemoveTmp sedScript tmp) ;; ret tt) (ret tt)).

Definition deleteByRegexPatterns (file : str) (patterns : list str) : M D unit :=
  if nonempty patterns then run (SedDelete patterns file) ;; ret tt else ret tt.

Definition daemonReload : M D unit := run DaemonReload ;; ret tt.

Definition restart (unit_ : str) : M D unit := run (RestartUnit unit_) ;; ret tt.
End patcher.

(** ** Names *)

Ltac unit_cases :=
  cbn [existsb]; repeat match goal with |- context [?a =? ?b] => destruct (Z.eqb_spec a b); [lia|] end; try done.

Lemma safe_bare c : safe_unit_char c = true -> bare_unit c.
Proof.
  intros H.
  assert (Hc : (48 <= c <= 57) \/ (65 <= c <= 90) \/ (97 <= c <= 122) \/ c = 95 \/ c = 46 \/ c = 64 \/ c = 45).
  { unfold safe_unit_char, is_word, is_digit, is_upper, is_lower in H. cbn [existsb] in H.
    rewrite !orb_true_iff, !andb_true_iff, !Z.leb_le, !Z.eqb_eq in H. intuition lia. }
  unfold bare_unit, sh_special, sh_blank. split_and!; try lia.
  change (js "|&;<>()$*?[]#~{}!" ++ [10; 96]) with
    [124; 38; 59; 60; 62; 40; 41; 36; 42; 63; 91; 93; 35; 126; 123; 125; 33; 10; 96]. unit_cases.
Qed.

Lemma safeUnit_bare u : Forall bare_unit (safeUnit u).
Proof.
  induction u as [|c u IH]; constructor; [|done]. destruct (safe_unit_char c) eqn:E; by apply safe_bare.
Qed.

Lemma digit_bare c : is_digit c = true -> bare_unit c.
Proof. intros H. apply safe_bare. unfold safe_unit_char, is_word. by rewrite H. Qed.

Lemma print_int_bare n : Forall bare_unit (print_int n).
Proof.
  assert (H : forall k, 0 <= k -> Forall bare_unit (print_nat k)).
  { intros k Hk. destruct (print_nat_spec k Hk) as (_ & Hd & _). eapply Forall_impl; [exact Hd|]. apply digit_bare. }
  unfold print_int. destruct (Z.ltb_spec n 0); [|by apply H]. constructor; [by apply safe_bare|apply H; lia].
Qed.

Lemma bare_app a b : bare a -> Forall bare_unit b -> bare (a ++ b).
Proof. intros [Hn Ha] Hb. split; [by destruct a|]. by apply Forall_app. Qed.

Lemma js_bare (w : str) : forallb safe_unit_char (List.filter (fun c => negb (c =? 47)) w) = true -> Forall bare_unit w.
Proof.
  induction w as [|c w IH]; [done|]. cbn [List.filter]. destruct (Z.eqb_spec c 47) as [->|Hc]; cbn [negb].
  - intros H. constructor; [done|by apply IH].
  - cbn [forallb]. intros [H1 H2]%andb_true_iff. constructor; [by apply safe_bare|by apply IH].
Qed.

Lemma workdir_bare u ts : bare (workdir_name u ts).
Proof.
  unfold workdir_name. split; [done|]. repeat (apply Forall_app; split).
  - by apply js_bare.
  - apply safeUnit_bare.
  - by apply js_bare.
  - apply print_int_bare.
Qed.

(** The work copy in a work directory *)
Definition work_file (dir : str) : str := dir ++ js "/homey.service.work".

Lemma work_bare u ts : bare (work_file (workdir_name u ts)).
Proof. apply bare_app; [apply workdir_bare|by apply js_bare]. Qed.

Lemma app_ne (a b : str) : b <> [] -> a ++ b <> a.
Proof. intros Hb E. apply Hb. apply (app_inv_head a). by rewrite app_nil_r. Qed.

(** ** What the methods do on a healthy device *)

Section specs.
Context {D : Type} {DV : Device D} {PG : Programs} {PL : ProgramsLaws PG} {DL : DeviceLaws D DV PG}.

(** A machine with these files *)
Definition mk (fs : gmap str (list str)) (e : Machine) : Machine := MkMachine fs (m_containers e) (m_volumes e) (m_unit e).

(** The commands that change files only *)
Definition file_effect (c : command) (fs : gmap str (list str)) : option (gmap str (list str)) :=
  match c with
  | CopyKeep a b | CopyForce a b => Some (copy_file a b fs)
  | MoveFile a b => Some (move_file a b fs)
  | RemoveDir d => Some (remove_dir d fs)
  | Edit c => Some (edit_effect c fs)
  | RemoveTmp script tmp => Some (delete script (delete tmp fs))
  | SedDelete ps f => Some (update_file f (sed_delete ps) fs)
  | RestartUnit _ | StopContainers _ | VolumeRm _ => None
  | _ => Some fs
  end.

Lemma effect_mk c fs fs' e : file_effect c fs = Some fs' -> effect c (mk fs e) = mk fs' e.
Proof. by destruct c; intros [= <-]. Qed.

Lemma run_files_at s fs fs' e sd c Q :
  at_ s (mk fs e) sd -> cmd_ok c -> file_effect c fs = Some fs' ->
  (forall s1, at_ s1 (mk fs' e) sd -> Q (Ok (Some (answer c (mk fs e)).1, (answer c (mk fs e)).2)) s1) -> wp s (run c) Q.
Proof. intros Hs Hc Hf HQ. apply (run_at s _ _ _ _ Hs Hc). by rewrite (effect_mk _ _ _ _ Hf). Qed.

Lemma workdir_at s m w b c l : at_ s m (w, b, c, l) -> h_workdir s = w.
Proof. intros (_ & _ & Hs). by apply side_eq in Hs as (? & _). Qed.

Lemma set_workdir_at s m w b c l w' : at_ s m (w, b, c, l) -> at_ (set_workdir w' s) m (w', b, c, l).
Proof. intros (H & Hm & Hs). apply side_eq in Hs as (<- & <- & <- & <-). by split_and!. Qed.

(** The path of the service file: the configuration of the workspace, else the device's *)
Definition service_path (l : HomeyUserConfig) (u : str) : str :=
  match configured_path l with
  | Some p => p
  | None => if nonempty (fragment u) then fragment u else svcPathGuess
  end.

Lemma resolve_path_at s m w b l u Q :
  at_ s m (w, b, None, l) -> bare u -> Forall (fun c => is_ws c = false) (fragment u) ->
  (forall s1, at_ s1 m (w, b, None, l) -> Q (Ok (service_path l u)) s1) -> wp s (resolveServicePath u) Q.
Proof.
  intros Hs Hu Hf HQ. unfold resolveServicePath, user_path. wp_steps. rewrite (ctx_at _ _ _ _ _ _ Hs).
  unfold readUserHomeyConfigLoose. wp_steps.
  assert (Hl : h_loose s = l) by (destruct Hs as (_ & _ & Hs); by apply side_eq in Hs as (_ & _ & _ & ?)). rewrite Hl.
  unfold service_path in HQ. destruct (configured_path l); [by apply HQ|]. wp_steps.
  apply (run_at s m (w, b, None, l)); [done|done|]. intros s1 H1. cbn [answer snd effect] in *. wp_steps.
  rewrite trim_line by done. wp_steps. by apply HQ.
Qed.

Lemma stage_at s fs e b c l u orig ls Q :
  at_ s (mk fs e) (None, b, c, l) -> bare orig -> fs !! orig = Some ls ->
  (forall ts s1, let dir := workdir_name u ts in
    at_ s1 (mk (<[work_file dir := ls]> fs) e) (Some dir, b, c, l) -> Q (Ok (work_file dir)) s1) ->
  wp s (stageToWorkCopy u orig) Q.
Proof.
  intros Hs Hb Hf HQ. unfold stageToWorkCopy, makeWorkdir. wp_steps. rewrite (workdir_at _ _ _ _ _ _ Hs). wp_steps.
  apply (run_files_at s fs fs e _ _ _ Hs); [apply workdir_bare|done|]. intros s1 H1. wp_steps.
  apply (set_workdir_at _ _ _ _ _ _ (Some (workdir_name u (clock s)))) in H1.
  eapply run_files_at; [exact H1|split; [done|apply work_bare]|cbn [file_effect]; unfold copy_file; by rewrite Hf|].
  intros s2 H2. wp_steps. by apply HQ.
Qed.

Lemma hash_at s fs e sd f ls Q :
  at_ s (mk fs e) sd -> bare f -> fs !! f = Some ls ->
  (forall s1, at_ s1 (mk fs e) sd -> Q (Ok (hash_of ls)) s1) -> wp s (computeHash f) Q.
Proof.
  intros Hs Hb Hf HQ. unfold computeHash. wp_steps. apply (run_files_at s fs fs e _ _ _ Hs); [done|done|]. intros s1 H1.
  cbn [answer fst snd m_files mk]. rewrite Hf, trim_line by apply hash_word. wp_steps. by apply HQ.
Qed.

Lemma contains_at s fs e sd p f Q :
  at_ s (mk fs e) sd -> pattern_ok p ->
  (forall s1, at_ s1 (mk fs e) sd -> Q (Ok (has_line p f fs)) s1) -> wp s (contains f p) Q.
Proof.
  intros Hs Hp HQ. unfold contains. wp_steps. apply (run_files_at s fs fs e _ _ _ Hs); [done|done|]. intros s1 H1.
  cbn [answer fst snd m_files mk or_else]. wp_steps.
  replace (ok_if _ 1 =? 0) with (has_line p f fs) by (by destruct (has_line p f fs)). by apply HQ.
Qed.

Lemma replace_at s fs e sd orig work lo lw Q :
  at_ s (mk fs e) sd -> bare orig -> bare work -> fs !! orig = Some lo -> fs !! work = Some lw ->
  (forall s1, at_ s1 (mk (<[orig := lw]> (delete work fs)) e) sd -> Q (Ok tt) s1) ->
  wp s (replaceOriginalWith orig work) Q.
Proof.
  intros Hs Ho Hw Hfo Hfw HQ. unfold replaceOriginalWith. wp_steps.
  apply (hash_at s fs e sd orig lo); [done..|]. intros s1 H1. wp_steps.
  apply (hash_at s1 fs e sd work lw); [done..|]. intros s2 H2. wp_steps.
  eapply run_files_at; [exact H2|done|cbn [file_effect]; unfold move_file; by rewrite Hfw|]. intros s3 H3. wp_steps.
  apply (hash_at s3 (<[orig := lw]> (delete work fs)) e sd orig lw); [done|done|by rewrite lookup_insert_eq|].
  intros s4 H4. wp_steps. by apply HQ.
Qed.

Lemma cleanup_at s fs e dir b c l Q :
  at_ s (mk fs e) (Some dir, b, c, l) -> bare dir ->
  (forall s1, at_ s1 (mk (remove_dir dir fs) e) (None, b, c, l) -> Q (Ok tt) s1) -> wp s cleanupWorkdir Q.
Proof.
  intros Hs Hb HQ. unfold cleanupWorkdir. wp_steps. rewrite (workdir_at _ _ _ _ _ _ Hs). wp_steps.
  apply (set_workdir_at _ _ _ _ _ _ None) in Hs. eapply run_files_at; [exact Hs|done|done|]. intros s1 H1. wp_steps. by apply HQ.
Qed.

Lemma backup_at s fs e sd f ls Q :
  at_ s (mk fs e) sd -> bare f -> fs !! f = Some ls ->
  (forall ts s1, let bak := f ++ js ".bak." ++ print_int ts in at_ s1 (mk (<[bak := ls]> fs) e) sd -> Q (Ok bak) s1) ->
  wp s (backup f) Q.
Proof.
  intros Hs Hb Hf HQ. unfold backup. wp_steps. eapply run_files_at; [exact Hs| |cbn [file_effect]; unfold copy_file; by rewrite Hf|].
  { split; [done|]. apply bare_app; [done|]. apply Forall_app. split; [by apply js_bare|apply print_int_bare]. }
  intros s1 H1. wp_steps. by apply HQ.
Qed.

Lemma sed_delete_none ls : sed_delete [] ls = ls.
Proof. unfold sed_delete. induction ls as [|l ls IH]; [done|]. rewrite filter_cons_True by done. by rewrite IH. Qed.

Lemma delete_at s fs e sd ps f ls Q :
  at_ s (mk fs e) sd -> Forall plain ps -> fs !! f = Some ls ->
  (forall s1, at_ s1 (mk (<[f := sed_delete ps ls]> fs) e) sd -> Q (Ok tt) s1) -> wp s (deleteByRegexPatterns f ps) Q.
Proof.
  intros Hs Hp Hf HQ. unfold deleteByRegexPatterns. destruct ps as [|p ps]; cbn [nonempty].
  - wp_steps. apply HQ. by rewrite sed_delete_none, insert_id.
  - wp_steps. eapply run_files_at; [exact Hs|done|cbn [file_effect]; unfold update_file; by rewrite Hf|]. intros s1 H1.
    wp_steps. by apply HQ.
Qed.

Lemma run_edit_at s fs e sd c Q :
  at_ s (mk fs e) sd -> edit_ok c ->
  (forall s1, at_ s1 (mk (edit_effect c fs) e) sd -> Q (if edit_code c fs =? 0 then Ok tt else Throws) s1) ->
  wp s (run_edit c) Q.
Proof.
  intros Hs Hc HQ. unfold run_edit. wp_steps. eapply run_files_at; [exact Hs|done|done|]. intros s1 H1.
  specialize (HQ s1 H1). cbn [answer fst snd m_files mk or_else]. destruct (edit_code c fs =? 0); by wp_steps.
Qed.

(** ** Inserting a line *)

Definition tmp_file (file : str) : str := file ++ js ".tmp".
Definition script_file (file : str) (ts : Z) : str := file ++ js ".sed." ++ print_int ts.

(** The files without the two temporary ones *)
Definition without_tmp (file : str) (ts : Z) (fs : gmap str (list str)) : gmap str (list str) :=
  delete (script_file file ts) (delete (tmp_file file) fs).

Lemma tmp_names file ts :
  tmp_file file <> file /\ script_file file ts <> file /\ script_file file ts <> tmp_file file.
Proof. split_and!; [by apply app_ne..|]. unfold script_file, tmp_file. intros E. by apply app_inv_head in E. Qed.

Lemma esc_one_line line : one_line line -> one_line (esc line).
Proof.
  unfold one_line, esc, replace_all. induction 1 as [|c s Hc _ IH]; [constructor|]. rewrite bind_cons.
  apply Forall_app. split; [|done]. destruct (c =? 92); by repeat constructor.
Qed.

Lemma sedContent_ok line : one_line line -> Forall one_line (sedContent line).
Proof.
  intros H. unfold sedContent. constructor; [by repeat constructor|]. constructor; [by repeat constructor|].
  constructor; [|constructor]. unfold appendLine. apply Forall_app. split; [by repeat constructor|].
  apply Forall_app. split; [by apply esc_one_line|by repeat constructor].
Qed.

(** The steps from the script to the marker: afterwards [tmp] holds the new lines. *)
Definition edit_steps (file line : str) (ts : Z) : M D unit :=
  run_edit (StatFile file) ;;
  run_edit (GrepBefore file) ;;
  run_edit (ApplySed (script_file file ts) file (tmp_file file)) ;;
  run_edit (FixEol (tmp_file file)) ;;
  run_edit (CheckTmp (tmp_file file)) ;;
  run_edit (GrepAfter (tmp_file file)) ;;
  run_edit (VerifyMarker (PMarker line) (tmp_file file)) ;;
  run_edit (Replace (tmp_file file) file) ;;
  run_edit (StatFile file).

Lemma edit_steps_at s fs e sd file line ts ls Q :
  at_ s (mk (<[script_file file ts := sedContent line]> fs) e) sd -> fs !! file = Some ls -> ls <> [] -> one_line line ->
  (forall s1,
    at_ s1 (mk (if grep (marker_rx line) (insert_line line ls)
                then <[file := insert_line line ls]> (delete (tmp_file file) (<[script_file file ts := sedContent line]> fs))
                else <[tmp_file file := insert_line line ls]> (<[script_file file ts := sedContent line]> fs)) e) sd ->
    Q (if grep (marker_rx line) (insert_line line ls) then Ok tt else Throws) s1) ->
  wp s (edit_steps file line ts) Q.
Proof.
  intros Hs Hf Hne Hl HQ. destruct (tmp_names file ts) as (N1 & N2 & N3). unfold edit_steps.
  set (f1 := <[script_file file ts := sedContent line]> fs) in *.
  assert (E1 : f1 !! script_file file ts = Some (sedContent line)) by apply lookup_insert_eq.
  assert (E2 : f1 !! file = Some ls) by (unfold f1; by rewrite lookup_insert_ne).
  assert (Hnew : exists x xs, insert_line line ls = x :: xs).
  { destruct ls as [|x ls]; [done|]. unfold insert_line, sed_insert. rewrite bind_cons.
    destruct (exec_start x); cbn [app map]; eauto. }
  wp_step. apply (run_edit_at s f1 e sd); [done|done|]. intros s1 H1. cbn [edit_code edit_effect Z.eqb] in *. wp_step.
  apply (run_edit_at s1 f1 e sd); [done|done|]. intros s2 H2. cbn [edit_code edit_effect Z.eqb] in *. wp_step.
  apply (run_edit_at s2 f1 e sd); [done|done|]. intros s3 H3. cbn [edit_code edit_effect] in *. unfold exists_file.
  rewrite E1, E2 in *. cbn [andb ok_if Z.eqb]. rewrite sed_inserts in H3 by done. wp_step.
  set (f2 := <[tmp_file file := insert_line line ls]> f1) in *.
  assert (E3 : f2 !! tmp_file file = Some (insert_line line ls)) by apply lookup_insert_eq.
  apply (run_edit_at s3 _ e sd _ _ H3); [done|]. intros s4 H4. cbn [edit_code edit_effect] in *. unfold exists_file, update_file in *.
  rewrite lookup_insert_eq in *. rewrite insert_insert_eq in H4. cbn [ok_if Z.eqb]. wp_step.
  apply (run_edit_at s4 f2 e sd); [done|done|]. intros s5 H5. cbn [edit_code edit_effect] in *. rewrite E3.
  destruct Hnew as (x & xs & Hx). rewrite Hx. cbn [ok_if Z.eqb]. wp_step.
  apply (run_edit_at s5 f2 e sd); [done|done|]. intros s6 H6. cbn [edit_code edit_effect Z.eqb] in *. wp_step.
  apply (run_edit_at s6 f2 e sd); [done|done|]. intros s7 H7. cbn [edit_code edit_effect] in *. unfold has_line. rewrite E3.
  cbn [pattern_re]. destruct (grep (marker_rx line) (insert_line line ls)); cbn [ok_if Z.eqb]; [|by apply HQ]. wp_step.
  apply (run_edit_at s7 f2 e sd); [done|done|]. intros s8 H8. cbn [edit_code edit_effect] in *. unfold exists_file, move_file in *.
  rewrite E3 in *. cbn [ok_if Z.eqb]. unfold f2 in H8. rewrite delete_insert_eq in H8.
  apply (run_edit_at s8 _ e sd _ _ H8); [done|]. intros s9 H9. cbn [edit_code edit_effect Z.eqb] in *. by apply HQ.
Qed.

Lemma insert_unfold file line :
  insertAfterExecStart file line =
  (let* already := try_catch (contains file (PContains line)) (ret false) in
   if already then ret tt
   else let* ts := now in
     run_edit (WriteSed (sedContent line) (script_file file ts)) ;;
     try_finally (edit_steps file line ts)
       (try_catch (run (RemoveTmp (script_file file ts) (tmp_file file)) ;; ret tt) (ret tt))) :> M D unit.
Proof. done. Qed.

Lemma insert_at s fs e sd file line ls Q :
  at_ s (mk fs e) sd -> bare file -> fs !! file = Some ls -> ls <> [] -> one_line line ->
  (forall ts s1,
    at_ s1 (mk (if grep (contains_rx line) ls then fs
                else without_tmp file ts
                  (if grep (marker_rx line) (insert_line line ls) then <[file := insert_line line ls]> fs else fs)) e) sd ->
    Q (if grep (contains_rx line) ls || grep (marker_rx line) (insert_line line ls) then Ok tt else Throws) s1) ->
  wp s (insertAfterExecStart file line) Q.
Proof.
  intros Hs Hb Hf Hne Hl HQ. rewrite insert_unfold. wp_step. wp_step.
  apply (contains_at s fs e sd); [done|done|]. intros s1 H1. unfold has_line. rewrite Hf. cbn [pattern_re]. cbv beta iota.
  destruct (grep (contains_rx line) ls) eqn:Eg; cbn [orb] in HQ; [wp_steps; by apply (HQ 0)|].
  wp_step. wp_step. wp_step. apply (run_edit_at s1 fs e sd); [done|by apply sedContent_ok|]. intros s2 H2.
  cbn [edit_code edit_effect Z.eqb] in *. wp_step. apply (edit_steps_at s2 fs e sd file line (clock s1) ls); [done..|].
  intros s3 H3. wp_steps. destruct (tmp_names file (clock s1)) as (N1 & N2 & N3).
  eapply run_files_at; [exact H3| |done|].
  { split; (apply bare_app; [done|]); [|by apply js_bare]. apply Forall_app. split; [by apply js_bare|apply print_int_bare]. }
  intros s4 H4. wp_steps. apply (HQ (clock s1)). unfold without_tmp.
  destruct (grep (marker_rx line) (insert_line line ls)).
  - replace (delete _ (delete _ (<[file:=_]> fs))) with
      (delete (script_file file (clock s1)) (delete (tmp_file file)
        (<[file:=insert_line line ls]> (delete (tmp_file file) (<[script_file file (clock s1):=sedContent line]> fs))))); [done|].
    apply map_eq. intros k. by destruct (decide (k = file)), (decide (k = tmp_file file)), (decide (k = script_file file (clock s1)));
      subst; simplify_map_eq.
  - replace (delete _ (delete _ fs)) with
      (delete (script_file file (clock s1)) (delete (tmp_file file)
        (<[tmp_file file:=insert_line line ls]> (<[script_file file (clock s1):=sedContent line]> fs)))); [done|].
    apply map_eq. intros k. by destruct (decide (k = file)), (decide (k = tmp_file file)), (decide (k = script_file file (clock s1)));
      subst; simplify_map_eq.
Qed.
End specs.
