(* ===== verification/Guard.v ===== *)
(** * The guard

    src/core/tasks/guards/HostStateGuard.ts: waiting for units, containers, volumes and files
    of a device, and removing containers and volumes with retries.  The loops are
    [wait_until] of the file Device, which is shown to end. *)

From stdpp Require Import base list gmap strings.
From Stdlib Require Import ZArith Lia.
From S2P Require Import Prelude JsString Regex Shell UnitFile Workflow Device.

#[local] Open Scope edge_scope.

(** A key without an equals sign, the sign and the rest of the line *)
Definition KV_RX : re :=
  sq [Bol; Grp 1 (plus (Cls (fun c => negb (c =? 61)))); chr 61; Grp 2 (star dot); Eol].

(** [map[m[1]] = m[2]] for each line; a later line wins. *)
Definition kv_line (ln : str) : option (str * str) :=
  match exec KV_RX ln with
  | Some x => Some (or_else (cap x 1) [], or_else (cap x 2) [])
  | None => None
  end.

Definition kv_lookup (key : str) (out : str) : option str :=
  fold_left (fun acc ln =>
    match kv_line ln with
    | Some (k, v) => if bool_decide (k = key) then Some v else acc
    | None => acc
    end) (split_crlf (trim out)) None.

(** [pid > 0] for [pid = Number(text)]; systemd prints a number in decimal digits. *)
Definition pid_positive (text : option str) : bool :=
  let t := trim (or_else text []) in
  nonempty t && forallb is_digit t && (0 <? digits_value 0 t).

Record WaitOpts := MkOpts {
  acceptExited : bool;
  acceptListening : bool;
  fallbackIsActive : bool;
  requirePid : bool;
}.

Definition default_opts : WaitOpts := MkOpts true true true false.

(** Whether the output of [systemctl show] counts as active *)
Definition shows_active (o : WaitOpts) (out : str) : bool :=
  let sub := trim <$> kv_lookup (js "SubState") out in
  let pid := pid_positive (kv_lookup (js "ExecMainPID") out) in
  let subOk := bool_decide (sub = Some (js "running")) ||
               (acceptExited o && bool_decide (sub = Some (js "exited"))) ||
               (acceptListening o && bool_decide (sub = Some (js "listening"))) in
  bool_decide (trim <$> kv_lookup (js "ActiveState") out = Some (js "active")) &&
  ((subOk && (negb (requirePid o) || pid)) || (negb (requirePid o) && pid)).

Section guard.
Context {D : Type} {DV : Device D}.

Definition poll_active (o : WaitOpts) (unit_ : str) : M D bool :=
  let* r := run (ShowUnit unit_) in
  if shows_active o (snd r) then ret true
  else if fallbackIsActive o then
    let* r2 := run (IsActive unit_) in
    ret (bool_decide (trim (snd r2) = js "active"))
  else ret false.

Definition waitForUnitActive (unit_ : str) (timeoutMs pollMs : Z) : M D bool :=
  wait_until timeoutMs pollMs (poll_active default_opts unit_).

Definition poll_no_containers (match_ : str) : M D bool :=
  let* r := run (ContainersLike match_) in ret (negb (nonempty (trim (snd r)))).

Definition waitForNoContainers (match_ : str) (timeoutMs pollMs : Z) : M D bool :=
  wait_until timeoutMs pollMs (poll_no_containers match_).

Definition ensureFsRemountRW (root : str) : M D bool :=
  try_catch (run (Remount root) ;; ret true) (ret false).

(** The loop of [stopContainersByMatch]: [left] tries remain, this one is number [i]. *)
Fixpoint stop_tries (match_ : str) (backoffMs : Z) (left : nat) (i : Z) : M D bool :=
  match left with
  | O => ret false
  | S left' =>
      run (StopContainers match_) ;;
      let* ok := waitForNoContainers match_ backoffMs 500 in
      if ok then ret true
      else pause (backoffMs * (i + 1)) ;; stop_tries match_ backoffMs left' (i + 1)
  end.

Definition stopContainersByMatch (match_ : str) (tries : nat) (backoffMs : Z) : M D bool :=
  stop_tries match_ backoffMs tries 0.

Definition poll_volumes_gone (names : list str) : M D bool :=
  let* r := run VolumeNames in
  ret (negb (existsb (fun n => bool_decide (n ∈ listed (snd r))) names)).

Definition waitForVolumesGone (names : list str) (timeoutMs pollMs : Z) : M D bool :=
  wait_until timeoutMs pollMs (poll_volumes_gone names).

Fixpoint remove_tries (vols : list str) (backoffMs : Z) (left : nat) (i : Z) : M D bool :=
  match left with
  | O => ret false
  | S left' =>
      each (fun v => run (VolumeRm v) ;; ret tt) vols ;;
      let* ok := waitForVolumesGone vols backoffMs 400 in
      if ok then ret true
      else pause (backoffMs * (i + 1)) ;; remove_tries vols backoffMs left' (i + 1)
  end.

(** [Array.from(new Set(names.filter(Boolean)))] *)
Fixpoint distinct (seen : list str) (names : list str) : list str :=
  match names with
  | [] => []
  | n :: rest => if decide (n ∈ seen) then distinct seen rest else n :: distinct (n :: seen) rest
  end.

Definition removeVolumesByNames (names : list str) (tries : nat) (backoffMs : Z) : M D bool :=
  let vols := distinct [] (List.filter nonempty names) in
  if nonempty vols then remove_tries vols backoffMs tries 0 else ret true.

Definition file_hash (file : str) : M D str :=
  let* r := run (HashFile file) in ret (trim (snd r)).

Definition poll_changed (file before : str) : M D bool :=
  let* now_ := file_hash file in
  ret (nonempty now_ && nonempty before && negb (bool_decide (now_ = before))).

Definition waitForServiceFileChange (file : str) (timeoutMs pollMs : Z) (beforeHash : option str) : M D bool :=
  let* before := match beforeHash with Some h => ret h | None => file_hash file end in
  wait_until timeoutMs pollMs (poll_changed file before).
End guard.
