(* ===== verification/Tasks.v ===== *)
(** * The tasks

    src/core/tasks: mounting and unmounting the volumes of an app, toggling a variable of the
    service and restarting it, each a workflow of the file Workflow over the patcher and the
    guard; and src/core/state/DeviceState.ts, which reads back what they did. *)

From stdpp Require Import base list gmap strings.
From Stdlib Require Import ZArith Lia.
From S2P Require Import Prelude JsString Regex Shell UnitFile Workflow Device Discovery Patcher Guard.

#[local] Open Scope edge_scope.

Inductive Mode := ModePro | ModeCore | ModeSdk | ModeBridge.

Definition homey_app : str := js "homey-app".
Definition homey_node : str := js "homey-node".

(** [buildLines] *)
Definition app_line : str := js "--volume=" ++ dquote ++ js "homey-app:/app:rw" ++ dquote.
Definition node_line : str := js "--volume=" ++ dquote ++ js "homey-node:/node_modules:rw" ++ dquote.
Definition buildLines (modes : list Mode) : list str := [app_line; node_line].

Definition markerTokensForModes (modes : list Mode) : list str := [homey_app; homey_node].

(** Writing the bag *)
Definition bag_svcPath v b := MkBag v (workPath b) (tokens b) (existed b) (insertLines b) (hashBefore b) (dryRun b) (backupPath b) (volumes b) (token_exists b).
Definition bag_workPath v b := MkBag (svcPath b) v (tokens b) (existed b) (insertLines b) (hashBefore b) (dryRun b) (backupPath b) (volumes b) (token_exists b).
Definition bag_tokens v b := MkBag (svcPath b) (workPath b) v (existed b) (insertLines b) (hashBefore b) (dryRun b) (backupPath b) (volumes b) (token_exists b).
Definition bag_existed v b := MkBag (svcPath b) (workPath b) (tokens b) v (insertLines b) (hashBefore b) (dryRun b) (backupPath b) (volumes b) (token_exists b).
Definition bag_insertLines v b := MkBag (svcPath b) (workPath b) (tokens b) (existed b) v (hashBefore b) (dryRun b) (backupPath b) (volumes b) (token_exists b).
Definition bag_hashBefore v b := MkBag (svcPath b) (workPath b) (tokens b) (existed b) (insertLines b) v (dryRun b) (backupPath b) (volumes b) (token_exists b).
Definition bag_dryRun v b := MkBag (svcPath b) (workPath b) (tokens b) (existed b) (insertLines b) (hashBefore b) v (backupPath b) (volumes b) (token_exists b).
Definition bag_backup v b := MkBag (svcPath b) (workPath b) (tokens b) (existed b) (insertLines b) (hashBefore b) (dryRun b) v (volumes b) (token_exists b).
Definition bag_volumes v b := MkBag (svcPath b) (workPath b) (tokens b) (existed b) (insertLines b) (hashBefore b) (dryRun b) (backupPath b) v (token_exists b).
Definition bag_exists v b := MkBag (svcPath b) (workPath b) (tokens b) (existed b) (insertLines b) (hashBefore b) (dryRun b) (backupPath b) (volumes b) v.

(** [ctx.bag.existed[t]] *)
Fixpoint existed_token (l : list (str * bool)) (t : str) : bool :=
  match l with
  | [] => false
  | (k, v) :: rest => if bool_decide (k = t) then v else existed_token rest t
  end.

(** The lines that are missing *)
Definition to_insert (toks : list str) (ex : list (str * bool)) (lines : list str) : list str :=
  let needApp := bool_decide (homey_app ∈ toks) && negb (existed_token ex homey_app) in
  let needNode := bool_decide (homey_node ∈ toks) && negb (existed_token ex homey_node) in
  lines ≫= fun ln =>
    (if includes ln homey_app && needApp then [ln] else []) ++
    (if includes ln homey_node && needNode then [ln] else []).

Section tasks.
Context {D : Type} {DV : Device D}.

Definition put (f : Bag -> Bag) : M D unit := modify (fun s => set_bag (f (h_bag s)) s).
Definition bag {A} (f : Bag -> A) : M D A := get (fun s => f (h_bag s)).

Definition step (name : str) (body : M D StepResult) : Step (Host D) := plain_step name body.

(** A step with [maxIterations] *)
Definition retry_step (name : str) (n : Z) (body : M D StepResult) : Step (Host D) :=
  MkStep name None (Some n) body None false.

(** [new ServiceFilePatcher(unit)] and [new WorkflowEngine(steps).runAll(...)] *)
Definition run_workflow (steps : list (Step (Host D))) : M D unit := fun s =>
  match runAll steps None (S (length steps)) (set_bag empty_bag (set_workdir None s)) with
  | Some r => r
  | None => (s, Throws)
  end.

Definition init_step : Step (Host D) := step (js "INIT") (run Id ;; ret StepOk).

Definition backup_step : Step (Host D) := step (js "BACKUP")
  (ensureFsRemountRW [47] ;;
   let* path := bag svcPath in
   let* bak := backup path in
   put (bag_backup bak) ;; ret StepOk).

Definition reload_step : Step (Host D) := step (js "DAEMON_RELOAD") (daemonReload ;; ret StepOk).

Definition restart_body (unit_ : str) (timeoutMs : Z) (failed : StepResult) : M D StepResult :=
  restart unit_ ;;
  let* ok := waitForUnitActive unit_ timeoutMs 1500 in
  ret (if ok then StepOk else failed).

Definition restart_step (unit_ : str) : Step (Host D) :=
  step (js "RESTART_SERVICE") (restart_body unit_ 30000 StepFail).

Definition cleanup_step : Step (Host D) := step (js "CLEANUP") (cleanupWorkdir ;; ret StepOk).

(** ** MountTaskRunner *)

(** The tokens that the work copy has already *)
Fixpoint read_existed (work : str) (toks : list str) : M D (list (str * bool)) :=
  match toks with
  | [] => ret []
  | t :: rest =>
      let* b := contains work (PToken t) in
      let* l := read_existed work rest in
      ret ((t, b) :: l)
  end.

Definition mount_read (modes : list Mode) (unit_ : str) : M D StepResult :=
  let* path := resolveServicePath unit_ in
  put (bag_svcPath path) ;;
  let* work := stageToWorkCopy unit_ path in
  put (bag_workPath work) ;;
  put (bag_tokens (markerTokensForModes modes)) ;;
  let* ex := read_existed work (markerTokensForModes modes) in
  put (bag_existed ex) ;;
  put (bag_insertLines (buildLines modes)) ;;
  let* h := computeHash path in
  put (bag_hashBefore h) ;; ret StepOk.

Definition mount_dry_run : M D StepResult :=
  let* l := bag (fun b => to_insert (tokens b) (existed b) (insertLines b)) in
  put (bag_dryRun l) ;; ret StepOk.

Definition mount_apply : M D StepResult :=
  ensureFsRemountRW [47] ;;
  let* path := bag svcPath in
  let* work := bag workPath in
  let* lines := bag dryRun in
  each (insertAfterExecStart work) lines ;;
  replaceOriginalWith path work ;;
  let* h := bag hashBefore in
  waitForServiceFileChange path 8000 500 (Some h) ;;
  ret StepOk.

Definition mount_verify : M D StepResult :=
  let* path := bag svcPath in
  let* toks := bag tokens in
  each (fun t => let* ok := contains path (PToken t) in if ok then ret tt else throw) toks ;;
  ret StepOk.

Definition mount_steps (modes : list Mode) (unit_ : str) : list (Step (Host D)) :=
  [init_step;
   step (js "READ_SERVICE_FILE") (mount_read modes unit_);
   step (js "DRY_RUN_DIFF") mount_dry_run;
   backup_step;
   step (js "APPLY_PATCH") mount_apply;
   reload_step;
   restart_step unit_;
   step (js "POST_VERIFY") mount_verify;
   cleanup_step].

Definition MountTaskRunner (pick : list str -> option str) (modes : list Mode) : M D unit :=
  let* unit_ := resolveHomeyUnit pick in run_workflow (mount_steps modes unit_).

(** ** UnmountTaskRunner *)

Definition DEFAULT_PATTERNS : list str := [homey_app; homey_node].

Definition unmount_read (pats : list str) (unit_ : str) : M D StepResult :=
  let* p := resolveServicePath unit_ in
  put (bag_svcPath p) ;;
  let* work := stageToWorkCopy unit_ p in
  put (bag_workPath work) ;;
  let* h := computeHash p in
  put (bag_hashBefore h) ;;
  put (bag_volumes pats) ;; ret StepOk.

(** The lines are counted for the log only. *)
Definition unmount_dry_run (pats : list str) : M D StepResult :=
  let* path := bag workPath in
  run (GrepLines pats path) ;; ret StepOk.

Definition unmount_stop : M D StepResult :=
  stopContainersByMatch (js "homey") 3 2000 ;;
  let* ok := waitForNoContainers (js "homey") 15000 1000 in
  ret (if ok then StepOk else StepRetry).

Definition unmount_apply (pats : list str) : M D StepResult :=
  ensureFsRemountRW [47] ;;
  let* path := bag svcPath in
  let* work := bag workPath in
  deleteByRegexPatterns work pats ;;
  replaceOriginalWith path work ;;
  let* h := bag hashBefore in
  waitForServiceFileChange path 8000 500 (Some h) ;;
  ret StepOk.

Definition unmount_volumes : M D StepResult :=
  let* vs := bag volumes in
  let vols := List.filter nonempty vs in
  if nonempty vols then
    let* ok := removeVolumesByNames vols 3 1500 in
    ret (if ok then StepOk else StepRetry)
  else ret StepOk.

Definition unmount_verify (pats : list str) : M D StepResult :=
  let* path := bag svcPath in
  each (fun rx => let* still := contains path (PRaw rx) in if still then throw else ret tt) pats ;;
  ret StepOk.

Definition unmount_steps (pats : list str) (unit_ : str) : list (Step (Host D)) :=
  [init_step;
   step (js "READ_SERVICE_FILE") (unmount_read pats unit_);
   step (js "DRY_RUN_DIFF") (unmount_dry_run pats);
   backup_step;
   retry_step (js "STOP_AND_REMOVE_CONTAINERS") 2 unmount_stop;
   step (js "APPLY_PATCH") (unmount_apply pats);
   retry_step (js "REMOVE_VOLUMES") 2 unmount_volumes;
   reload_step;
   restart_step unit_;
   step (js "POST_VERIFY") (unmount_verify pats);
   cleanup_step].

Definition UnmountTaskRunner (pick : list str -> option str) (pats : list str) : M D unit :=
  let* unit_ := resolveHomeyUnit pick in run_workflow (unmount_steps pats unit_).

(** ** ToggleTaskRunner *)

Inductive toggle_var := HOMEY_APP_LOG | HOMEY_DEV_TOKEN.

Definition var_name (v : toggle_var) : str :=
  match v with HOMEY_APP_LOG => js "HOMEY_APP_LOG" | HOMEY_DEV_TOKEN => js "HOMEY_DEV_TOKEN" end.

Definition toggle_line (v : toggle_var) : str := js "--env=" ++ dquote ++ var_name v ++ js "=1" ++ dquote.

Definition toggle_read (v : toggle_var) (unit_ : str) : M D StepResult :=
  let* p := resolveServicePath unit_ in
  put (bag_svcPath p) ;;
  let* work := stageToWorkCopy unit_ p in
  put (bag_workPath work) ;;
  let* ex := contains work (PRaw (var_name v)) in
  put (bag_exists ex) ;;
  let* h := computeHash p in
  put (bag_hashBefore h) ;; ret StepOk.

Definition toggle_apply (v : toggle_var) (enable : bool) : M D StepResult :=
  let* path := bag svcPath in
  let* work := bag workPath in
  let* ex := bag token_exists in
  (if enable then (if ex then ret tt else insertAfterExecStart work (toggle_line v))
   else deleteByRegexPatterns work [var_name v]) ;;
  ensureFsRemountRW [47] ;;
  replaceOriginalWith path work ;;
  let* h := bag hashBefore in
  let* changed := waitForServiceFileChange path 8000 500 (Some h) in
  if changed then ret StepOk else throw.

Definition toggle_verify (v : toggle_var) (enable : bool) : M D StepResult :=
  let* path := bag svcPath in
  let* now_ := contains path (PRaw (var_name v)) in
  if (if enable then now_ else negb now_) then ret StepOk else throw.

Definition toggle_steps (v : toggle_var) (enable : bool) (unit_ : str) : list (Step (Host D)) :=
  [step (js "INIT") (ret StepOk);
   step (js "READ_SERVICE_FILE") (toggle_read v unit_);
   step (js "DRY_RUN_DIFF") (ret StepOk);
   backup_step;
   step (js "APPLY_PATCH") (toggle_apply v enable);
   reload_step;
   restart_step unit_;
   step (js "POST_VERIFY") (toggle_verify v enable);
   cleanup_step].

Definition ToggleTaskRunner (pick : list str -> option str) (v : toggle_var) (enable : bool) : M D unit :=
  let* unit_ := resolveHomeyUnit pick in run_workflow (toggle_steps v enable unit_).

(** ** RestartTaskRunner *)

Definition restart_steps (unit_ : str) : list (Step (Host D)) :=
  [step (js "INIT") (ret StepOk);
   retry_step (js "RESTART_SERVICE") 3 (restart_body unit_ 35000 StepRetry);
   step (js "POST_VERIFY") (ret StepOk)].

Definition RestartTaskRunner (pick : list str -> option str) : M D unit :=
  let* unit_ := resolveHomeyUnit pick in run_workflow (restart_steps unit_).

(** ** DeviceState *)

Inductive MountState := Mounted | Unmounted | Unknown.

Definition getMountState (connected : bool) : M D MountState :=
  try_catch
    (if connected then
       let* r := run VolumeNames in
       ret (if existsb (fun n => bool_decide (n ∈ listed (snd r))) [homey_app; homey_node] then Mounted else Unmounted)
     else ret Unknown)
    (ret Unknown).

Definition getEnvToggleEnabled (pick : list str -> option str) (connected : bool) (v : toggle_var) : M D bool :=
  try_catch
    (if connected then
       let* unit_ := resolveHomeyUnit pick in
       let* path := resolveServicePath unit_ in
       contains path (PRaw (var_name v))
     else ret false)
    (ret false).

(** ** HomeyController and CommandHandlersHomey

    [before] is whether a connection is active when the handler starts, [after] whether one is
    active after [connectionManager.connect()]. *)

Definition ensureConnected (after : bool) : M D unit := if after then ret tt else throw.

Definition controller_restart (after : bool) (pick : list str -> option str) : M D unit :=
  ensureConnected after ;; RestartTaskRunner pick.
Definition controller_mount (after : bool) (pick : list str -> option str) : M D unit :=
  ensureConnected after ;; MountTaskRunner pick [ModePro; ModeCore].
Definition controller_unmount (after : bool) (pick : list str -> option str) : M D unit :=
  ensureConnected after ;; UnmountTaskRunner pick DEFAULT_PATTERNS.
Definition controller_toggle (after : bool) (pick : list str -> option str) (v : toggle_var) (enable : bool) : M D unit :=
  ensureConnected after ;; ToggleTaskRunner pick v enable.

Definition homeyRestart (after : bool) (pick : list str -> option str) : M D unit :=
  try_catch (controller_restart after pick) (ret tt).

Definition homeyVolumeToggle (before after : bool) (pick : list str -> option str) : M D unit :=
  try_catch
    (let* state := getMountState before in
     match state with Mounted => controller_unmount after pick | _ => controller_mount after pick end)
    (ret tt).

Definition homeyEnvToggle (before after : bool) (pick : list str -> option str) (v : toggle_var) : M D unit :=
  try_catch
    (let* enabled := getEnvToggleEnabled pick before v in controller_toggle after pick v (negb enabled))
    (ret tt).
End tasks.
