(* ===== verification/TasksSpec.v ===== *)
(** * What the tasks do

    The workflows of the file Tasks on a healthy device: the service file afterwards, its
    backup, the files that are not touched, the containers and volumes that are gone, and the
    cases in which a task fails. *)

From stdpp Require Import base list gmap strings.
From Stdlib Require Import ZArith Lia.
From S2P Require Import Prelude JsString Regex Shell UnitFile Workflow Device Discovery Patcher Guard Tasks.

#[local] Open Scope edge_scope.

(** ** Files outside the work directories *)

Definition outside (f : str) : Prop := starts_with (js "/tmp/edgetool-") f = false.

Lemma starts_with_app w a b : starts_with (w ++ a) b = true -> starts_with w b = true.
Proof. intros (t & ->)%starts_with_spec. apply starts_with_spec. exists (a ++ t). by rewrite <- app_assoc. Qed.

Lemma starts_with_dot w p x : 46 ∉ w -> starts_with w (p ++ 46 :: x) = true -> starts_with w p = true.
Proof.
  revert w. induction p as [|c p IH]; intros [|d w] Hw; cbn [starts_with app]; try done.
  - destruct (Z.eqb_spec d 46) as [->|]; [|done]. intros _. exfalso. apply Hw. by left.
  - destruct (d =? c); [|done]. cbn [andb]. apply IH. intros H. apply Hw. by right.
Qed.

Lemma outside_backup p x : outside p -> outside (p ++ js ".bak." ++ x).
Proof.
  unfold outside. rewrite <- !not_true_iff_false. intros H E. apply H. apply (starts_with_dot _ p (js "bak." ++ x)); [|done].
  vm_compute. intros Hin. repeat (apply elem_of_cons in Hin as [Hin|Hin]; [discriminate Hin|]). by apply not_elem_of_nil in Hin.
Qed.

Lemma outside_not_in_dir u ts x f : outside f -> f <> workdir_name u ts ++ x.
Proof.
  unfold outside, workdir_name. intros Ho ->. rewrite <- !app_assoc in Ho.
  assert (E : starts_with (js "/tmp/edgetool-") (js "/tmp/edgetool-" ++ safeUnit u ++ [45] ++ print_int ts ++ x) = true)
    by (apply starts_with_spec; by eexists).
  congruence.
Qed.

Lemma remove_dir_outside u ts fs f : outside f -> remove_dir (workdir_name u ts) fs !! f = fs !! f.
Proof.
  intros Ho. unfold remove_dir. destruct (fs !! f) as [ls|] eqn:E.
  - apply map_lookup_filter_Some. split; [done|]. cbn [fst]. apply not_true_iff_false.
    intros (t & ->)%starts_with_spec. rewrite <- app_assoc in Ho. by apply (outside_not_in_dir u ts ([47] ++ t) _ Ho).
  - apply map_lookup_filter_None. by left.
Qed.

Lemma without_tmp_outside u ts fs ts' f :
  outside f -> without_tmp (work_file (workdir_name u ts)) ts' fs !! f = fs !! f.
Proof.
  intros Ho. unfold without_tmp. rewrite !lookup_delete_ne; [done|..]; intros <-; unfold script_file, tmp_file, work_file in Ho;
    rewrite <- !app_assoc in Ho; by eapply outside_not_in_dir in Ho.
Qed.

(** ** Workflows *)

Section workflow.
Context {D : Type} {DV : Device D}.

Lemma wp_workflow s steps Q :
  no_jumps steps -> wp (set_bag empty_bag (set_workdir None s)) (in_order steps) Q -> wp s (run_workflow steps) Q.
Proof. intros Hn H. unfold wp, run_workflow. by rewrite workflow_in_order. Qed.

Lemma wp_done s (Q : js_result unit -> Host D -> Prop) : Q (Ok tt) s -> wp s (in_order []) Q.
Proof. done. Qed.

Lemma wp_next s name (body : M D StepResult) rest Q :
  wp s body (fun r s1 => match r with
                         | Ok StepOk | Ok StepSkip => wp s1 (in_order rest) Q
                         | _ => Q Throws s1
                         end) ->
  wp s (in_order (step name body :: rest)) Q.
Proof.
  unfold wp. cbn [in_order]. unfold step. rewrite run_plain_step. by destruct (body s) as [s1 [[]|]].
Qed.

Lemma wp_next_retry s name n (body : M D StepResult) rest Q :
  wp s body (fun r s1 => r = Ok StepOk /\ wp s1 (in_order rest) Q) -> wp s (in_order (retry_step name n body :: rest)) Q.
Proof.
  unfold wp. cbn [in_order]. unfold retry_step, run_step.
  assert (Hm : exists k, Z.to_nat (max_iterations (MkStep name None (Some n) body None false)) = S k).
  { exists (Z.to_nat (max_iterations (MkStep name None (Some n) body None false) - 1)). unfold max_iterations. lia. }
  destruct Hm as (k & ->). cbn [attempts]. unfold withTimeout. cbn [sp_timeoutMs sp_run].
  destruct (body s) as [s1 r]. intros [E H]. cbn [fst snd] in *. by subst r.
Qed.

Lemma wp_call {A} s (body : M D A) (P : A -> Host D -> Prop) :
  wp s body (fun r s1 => exists a, r = Ok a /\ P a s1) -> exists a s1, body s = (s1, Ok a) /\ P a s1.
Proof. unfold wp. destruct (body s) as [s1 r]. cbn. intros (a & -> & H). eauto. Qed.
End workflow.

(** ** Steps *)

Section steps.
Context {D : Type} {DV : Device D} {PG : Programs} {PL : ProgramsLaws PG} {DL : DeviceLaws D DV PG}.

Lemma put_at s m w b c l f : at_ s m (w, b, c, l) -> at_ (set_bag (f (h_bag s)) s) m (w, f b, c, l).
Proof. intros (H & Hm & Hs). apply side_eq in Hs as (<- & <- & <- & <-). by split_and!. Qed.

Lemma bag_at s m w b c l : at_ s m (w, b, c, l) -> h_bag s = b.
Proof. intros (_ & _ & Hs). by apply side_eq in Hs as (_ & ? & _). Qed.

Lemma remount_at s m sd (Q : js_result bool -> Host D -> Prop) :
  at_ s m sd -> (forall s1, at_ s1 m sd -> Q (Ok true) s1) -> wp s (ensureFsRemountRW [47]) Q.
Proof.
  intros Hs HQ. unfold ensureFsRemountRW. wp_steps. apply (run_at s _ _ _ _ Hs); [by repeat constructor|].
  intros s1 H1. cbn [effect] in H1. wp_steps. by apply HQ.
Qed.

(** Waiting for a change of the file does not change anything. *)
Lemma wait_change_at s fs e sd p h ls Q :
  at_ s (mk fs e) sd -> bare p -> fs !! p = Some ls ->
  (forall b s1, at_ s1 (mk fs e) sd -> Q (Ok b) s1) -> wp s (waitForServiceFileChange p 8000 500 (Some h)) Q.
Proof.
  intros Hs Hb Hf HQ. unfold waitForServiceFileChange. wp_steps. apply (wait_until_at _ _ _ s (mk fs e) sd); [done| |done].
  intros s0 H0. apply wp_call. unfold poll_changed. wp_steps. apply (hash_at s0 fs e sd p ls); [done..|].
  intros s1 H1. wp_steps. eauto.
Qed.

(** It sees a new content at once, when the hashes tell the two contents apart. *)
Lemma wait_changed_at s fs e sd p old ls Q :
  at_ s (mk fs e) sd -> bare p -> fs !! p = Some ls -> hash_of ls <> hash_of old ->
  (forall s1, at_ s1 (mk fs e) sd -> Q (Ok true) s1) -> wp s (waitForServiceFileChange p 8000 500 (Some (hash_of old))) Q.
Proof.
  intros Hs Hb Hf Hh HQ. unfold waitForServiceFileChange. wp_steps.
  destruct (wp_call s (poll_changed p (hash_of old)) (fun a s1 => a = true /\ at_ s1 (mk fs e) sd)) as (a & s1 & E & -> & H1).
  { unfold poll_changed. wp_steps. apply (hash_at s fs e sd p ls); [done..|]. intros s1 H1. wp_steps. eexists. split; [done|].
    split; [|done]. destruct (hash_word ls) as [H2 _], (hash_word old) as [H3 _].
    rewrite bool_decide_false by done. by destruct (hash_of ls), (hash_of old). }
  unfold wp. rewrite (wait_until_now 8000 500 _ s s1) by done. by apply HQ.
Qed.

(** It gives up on an unchanged content. *)
Lemma poll_unchanged fs e sd p ls s0 :
  at_ s0 (mk fs e) sd -> bare p -> fs !! p = Some ls ->
  exists s1, poll_changed p (hash_of ls) s0 = (s1, Ok false) /\ at_ s1 (mk fs e) sd.
Proof.
  intros H0 Hb Hf. destruct (wp_call s0 (poll_changed p (hash_of ls)) (fun a s1 => a = false /\ at_ s1 (mk fs e) sd))
    as (a & s1 & E & -> & H1); [|eauto].
  unfold poll_changed. wp_steps. apply (hash_at s0 fs e sd p ls); [done..|]. intros s1 H1. wp_steps. eexists. split; [done|].
  rewrite bool_decide_true by done. cbn [negb]. by rewrite andb_false_r.
Qed.

Lemma wait_unchanged_at s fs e sd p ls Q :
  at_ s (mk fs e) sd -> bare p -> fs !! p = Some ls ->
  (forall s1, at_ s1 (mk fs e) sd -> Q (Ok false) s1) -> wp s (waitForServiceFileChange p 8000 500 (Some (hash_of ls))) Q.
Proof.
  intros Hs Hb Hf HQ. unfold waitForServiceFileChange. wp_steps. unfold wp, wait_until.
  generalize (wait_fuel 8000 500) as fuel. generalize (clock s + 8000) as dl. intros dl fuel. revert s Hs.
  induction fuel as [|fuel IH]; intros s Hs; cbn [wait_loop]; [by apply HQ|].
  destruct (_ <? _); [|by apply HQ]. destruct (poll_unchanged fs e sd p ls s Hs Hb Hf) as (s1 & -> & H1).
  apply IH. destruct H1 as (Hh & <- & <-). destruct (sleep_healthy 500 (h_dev s1) Hh) as [Hh' Hm]. by split_and!.
Qed.

(** The service starts: after a restart systemd shows the unit as active. *)
Definition starts (u : str) (e : Machine) : Prop :=
  forall fs, shows_active default_opts (unit_text ((restarted u (mk fs e)).2 u)) = true.

Lemma restart_at s fs e sd u timeoutMs failed Q :
  at_ s (mk fs e) sd -> bare u -> starts u e -> 0 < timeoutMs ->
  (forall s1, let '(cs, vs, us) := restarted u (mk fs e) in at_ s1 (MkMachine fs cs vs us) sd -> Q (Ok StepOk) s1) ->
  wp s (restart_body u timeoutMs failed) Q.
Proof.
  intros Hs Hu Hst Ht HQ. unfold restart_body, restart. wp_steps. apply (run_at s _ _ _ _ Hs); [done|]. intros s1 H1.
  cbn [effect] in H1. specialize (Hst fs). destruct (restarted u (mk fs e)) as [[cs vs] us]. cbn [snd] in Hst.
  change (m_files (mk fs e)) with fs in H1. wp_steps.
  destruct (wp_call s1 (poll_active default_opts u) (fun a s2 => a = true /\ at_ s2 (MkMachine fs cs vs us) sd))
    as (a & s2 & E & -> & H2).
  { unfold poll_active. wp_steps. apply (run_at s1 _ _ _ _ H1); [done|]. intros s2 H2. cbn [effect answer fst snd m_unit] in *.
    rewrite Hst. wp_steps. eauto. }
  unfold wp at 1, waitForUnitActive. rewrite (wait_until_now timeoutMs 1500 _ s1 s2) by done. cbn [fst snd]. wp_steps. by apply HQ.
Qed.

Lemma backup_step_at s fs e w b l p ls rest Q :
  at_ s (mk fs e) (w, b, None, l) -> svcPath b = p -> bare p -> fs !! p = Some ls ->
  (forall ts s1, let bak := p ++ js ".bak." ++ print_int ts in
    at_ s1 (mk (<[bak := ls]> fs) e) (w, bag_backup bak b, None, l) -> wp s1 (in_order rest) Q) ->
  wp s (in_order (backup_step :: rest)) Q.
Proof.
  intros Hs Hp Hb Hf HQ. apply wp_next. wp_steps. apply (remount_at s _ _ _ Hs). intros s1 H1. wp_steps.
  unfold bag. wp_steps. rewrite (bag_at _ _ _ _ _ _ H1), Hp. apply (backup_at s1 fs e (w, b, None, l) p ls); [done..|].
  intros ts s2 bak H2. unfold put. wp_steps. apply (HQ ts). by apply put_at.
Qed.

Lemma reload_step_at s m sd rest Q :
  at_ s m sd -> (forall s1, at_ s1 m sd -> wp s1 (in_order rest) Q) -> wp s (in_order (reload_step :: rest)) Q.
Proof.
  intros Hs HQ. apply wp_next. unfold daemonReload. wp_steps. apply (run_at s _ _ _ _ Hs); [done|]. intros s1 H1. wp_steps. by apply HQ.
Qed.

Lemma restart_step_at s fs e sd u rest Q :
  at_ s (mk fs e) sd -> bare u -> starts u e ->
  (forall e' s1, restarted u (mk fs e) = (m_containers e', m_volumes e', m_unit e') -> at_ s1 (mk fs e') sd ->
    wp s1 (in_order rest) Q) ->
  wp s (in_order (restart_step u :: rest)) Q.
Proof.
  intros Hs Hu Hst HQ. apply wp_next. apply (restart_at s fs e sd); [done..|]. intros s1.
  destruct (restarted u (mk fs e)) as [[cs vs] us]. intros H1. by apply (HQ (MkMachine fs cs vs us)).
Qed.

Lemma cleanup_step_at s fs e u ts b l Q :
  at_ s (mk fs e) (Some (workdir_name u ts), b, None, l) ->
  (forall s1, at_ s1 (mk (remove_dir (workdir_name u ts) fs) e) (None, b, None, l) -> Q (Ok tt) s1) ->
  wp s (in_order [cleanup_step]) Q.
Proof.
  intros Hs HQ. apply wp_next. wp_step. apply (cleanup_at s fs e (workdir_name u ts) b None l); [done|apply workdir_bare|].
  intros s1 H1. wp_steps. apply wp_done. by apply HQ.
Qed.
End steps.

(** ** The three tasks that change the service file *)

Section service_file.
Context {D : Type} {DV : Device D} {PG : Programs} {PL : ProgramsLaws PG} {DL : DeviceLaws D DV PG}.

(** A device with one service, whose file has a name that a shell reads back *)
Record ready (u : str) (l : HomeyUserConfig) (p : str) : Prop := MkReady {
  ready_units : exists rest, service_units = u :: rest;
  ready_name : unit_name u;
  ready_fragment : Forall (fun c => is_ws c = false) (fragment u);
  ready_path : service_path l u = p;
  ready_bare : bare p;
  ready_outside : outside p;
}.

Definition marked (mark : str) (ls : list str) : bool := existsb (has_pattern [mark]) ls.

Lemma plain_mark w : plain w -> forall ls, grep (lit w) ls = marked w ls.
Proof. intros [Hw _] ls. by apply grep_lit. Qed.

Lemma work_ne u ts p : outside p -> work_file (workdir_name u ts) <> p.
Proof. intros Ho E. symmetry in E. by apply outside_not_in_dir in E. Qed.

(** The files during a task: the work copy and the service file are known, and the files
    outside the work directories are those of [fs0]. *)
Definition staged (fs0 fs : gmap str (list str)) (dir p : str) (lw lo : list str) : Prop :=
  fs !! work_file dir = Some lw /\ fs !! p = Some lo /\ forall f, outside f -> f <> p -> fs !! f = fs0 !! f.

Lemma staged_without_tmp fs0 fs u ts p lw lo x ts' :
  outside p -> staged fs0 fs (workdir_name u ts) p lw lo ->
  staged fs0 (without_tmp (work_file (workdir_name u ts)) ts' (<[work_file (workdir_name u ts) := x]> fs))
    (workdir_name u ts) p x lo.
Proof.
  intros Ho (H1 & H2 & H3). destruct (tmp_names (work_file (workdir_name u ts)) ts') as (N1 & N2 & N3).
  assert (Hw := work_ne u ts p Ho). split_and!.
  - unfold without_tmp. by simplify_map_eq.
  - rewrite without_tmp_outside by done. by simplify_map_eq.
  - intros f Hf Hne. rewrite without_tmp_outside, lookup_insert_ne by (done || by apply work_ne). by apply H3.
Qed.

(** Inserting a line that the file does not have, when there is a command *)
Lemma insert_fresh_at s fs0 fs e sd u ts p line mark lw lo Q :
  at_ s (mk fs e) sd -> outside p -> staged fs0 fs (workdir_name u ts) p lw lo ->
  one_line line -> searchable line -> includes line mark = true ->
  marked mark lw = false -> existsb exec_start lw = true ->
  (forall fs' s1, at_ s1 (mk fs' e) sd -> staged fs0 fs' (workdir_name u ts) p (insert_line line lw) lo -> Q (Ok tt) s1) ->
  wp s (insertAfterExecStart (work_file (workdir_name u ts)) line) Q.
Proof.
  intros Hs Ho Hst Hl Hsr Hi Hn He HQ.
  apply (insert_at s fs e sd _ line lw); [done|apply work_bare|by destruct Hst|by intros ->|done|].
  intros ts' s1. rewrite (contains_rx_no line mark), marker_found by done. cbn [orb]. intros H1.
  eapply HQ; [exact H1|]. by eapply staged_without_tmp.
Qed.

(** and when there is none *)
Lemma insert_hopeless_at s fs0 fs e sd u ts p line mark lw lo Q :
  at_ s (mk fs e) sd -> outside p -> staged fs0 fs (workdir_name u ts) p lw lo -> lw <> [] ->
  one_line line -> mark_ok mark -> includes line mark = true ->
  marked mark lw = false -> existsb exec_start lw = false ->
  (forall fs' s1, at_ s1 (mk fs' e) sd -> staged fs0 fs' (workdir_name u ts) p lw lo -> Q Throws s1) ->
  wp s (insertAfterExecStart (work_file (workdir_name u ts)) line) Q.
Proof.
  intros Hs Ho Hst Hne Hl Hm Hi Hn He HQ.
  apply (insert_at s fs e sd _ line lw); [done|apply work_bare|by destruct Hst|done|done|].
  intros ts' s1. rewrite (contains_rx_no line mark), (marker_absent line mark) by done. cbn [orb]. intros H1.
  eapply HQ; [exact H1|]. rewrite <- (insert_id fs (work_file (workdir_name u ts)) lw) by (by destruct Hst).
  by eapply staged_without_tmp.
Qed.

(** Moving the work copy over the service file *)
Lemma replace_staged_at s fs0 fs e sd u ts p lw lo Q :
  at_ s (mk fs e) sd -> bare p -> outside p -> staged fs0 fs (workdir_name u ts) p lw lo ->
  (forall fs' s1, at_ s1 (mk fs' e) sd -> fs' !! p = Some lw -> (forall f, outside f -> f <> p -> fs' !! f = fs0 !! f) -> Q (Ok tt) s1) ->
  wp s (replaceOriginalWith p (work_file (workdir_name u ts))) Q.
Proof.
  intros Hs Hb Ho (H1 & H2 & H3) HQ. apply (replace_at s fs e sd p _ lo lw); [done|done|apply work_bare|done|done|].
  intros s1 Hs1. eapply HQ; [exact Hs1|by simplify_map_eq|]. intros f Hf Hne.
  rewrite lookup_insert_ne, lookup_delete_ne by (done || by apply work_ne). by apply H3.
Qed.

(** The step that reads the service file *)
Lemma read_at s fs e w b l u p (Q : js_result str -> Host D -> Prop) :
  at_ s (mk fs e) (w, b, None, l) -> ready u l p ->
  (forall s1, at_ s1 (mk fs e) (w, b, None, l) -> Q (Ok p) s1) -> wp s (resolveServicePath u) Q.
Proof.
  intros Hs [_ [Hu _] Hf <- _ _] HQ. by apply (resolve_path_at s (mk fs e) w b l u).
Qed.

Lemma stage_staged_at s fs e b l u p ls Q :
  at_ s (mk fs e) (None, b, None, l) -> ready u l p -> fs !! p = Some ls ->
  (forall ts fs' s1, at_ s1 (mk fs' e) (Some (workdir_name u ts), b, None, l) ->
    staged fs fs' (workdir_name u ts) p ls ls -> Q (Ok (work_file (workdir_name u ts))) s1) ->
  wp s (stageToWorkCopy u p) Q.
Proof.
  intros Hs [_ _ _ _ Hb Ho] Hf HQ. apply (stage_at s fs e b None l u p ls); [done..|]. intros ts s1 dir H1.
  apply (HQ ts _ s1 H1). split_and!; [by simplify_map_eq|by rewrite lookup_insert_ne by (by apply work_ne)|].
  intros f Hfo _. by rewrite lookup_insert_ne by (by apply work_ne).
Qed.

(** The end of a task: the file has its new content, the backup the old one, and nothing else
    outside the work directories has changed. *)
Definition patched (fs fs' : gmap str (list str)) (p : str) (old new : list str) : Prop :=
  fs' !! p = Some new /\
  exists ts, let bak := p ++ js ".bak." ++ print_int ts in
    fs' !! bak = Some old /\ forall f, outside f -> f <> p -> f <> bak -> fs' !! f = fs !! f.

(** The steps after the patch *)
Lemma finish_at s fs e u ts b l p rest Q :
  at_ s (mk fs e) (Some (workdir_name u ts), b, None, l) -> ready u l p -> starts u e ->
  (forall e' s1, restarted u (mk fs e) = (m_containers e', m_volumes e', m_unit e') ->
    at_ s1 (mk fs e') (Some (workdir_name u ts), b, None, l) -> wp s1 (in_order rest) Q) ->
  wp s (in_order (reload_step :: restart_step u :: rest)) Q.
Proof.
  intros Hs [_ [Hu _] _ _ _ _] Hst HQ. apply (reload_step_at s _ _ _ _ Hs). intros s1 H1.
  by apply (restart_step_at s1 fs e (Some (workdir_name u ts), b, None, l)).
Qed.

(** ** Mounting *)

(** The two lines, each where its token is not there yet *)
Definition mounted (ls : list str) : list str :=
  let l1 := if marked homey_app ls then ls else insert_line app_line ls in
  if marked homey_node ls then l1 else insert_line node_line l1.

Definition missing (ls : list str) : list str :=
  (if marked homey_app ls then [] else [app_line]) ++ (if marked homey_node ls then [] else [node_line]).

Definition mount_bag (p dir : str) (ls : list str) (bak : str) (dry : list str) : Bag :=
  MkBag p (work_file dir) [homey_app; homey_node]
    [(homey_app, marked homey_app ls); (homey_node, marked homey_node ls)]
    [app_line; node_line] (hash_of ls) dry bak [] false.

Lemma to_insert_missing p dir ls bak dry :
  to_insert (tokens (mount_bag p dir ls bak dry)) (existed (mount_bag p dir ls bak dry))
    (insertLines (mount_bag p dir ls bak dry)) = missing ls.
Proof.
  unfold missing. cbn [mount_bag tokens existed insertLines].
  destruct (marked homey_app ls), (marked homey_node ls); by vm_compute.
Qed.

Lemma app_plain : plain homey_app /\ plain homey_node.
Proof. split; (split; [done|by repeat constructor]). Qed.

Lemma app_marks : mark_ok homey_app /\ mark_ok homey_node.
Proof. split; (split; [done|by repeat constructor]). Qed.

Lemma lines_ok : one_line app_line /\ one_line node_line /\ searchable app_line /\ searchable node_line.
Proof. split_and!; by repeat constructor. Qed.

Lemma mount_read_at s fs e l u p ls modes rest Q :
  at_ s (mk fs e) (None, empty_bag, None, l) -> ready u l p -> fs !! p = Some ls ->
  (forall ts fs' s1,
    at_ s1 (mk fs' e) (Some (workdir_name u ts), mount_bag p (workdir_name u ts) ls [] [], None, l) ->
    staged fs fs' (workdir_name u ts) p ls ls -> wp s1 (in_order rest) Q) ->
  wp s (in_order (step (js "READ_SERVICE_FILE") (mount_read modes u) :: rest)) Q.
Proof.
  intros Hs Hr Hf HQ. apply wp_next. unfold mount_read. wp_step.
  apply (read_at s fs e None empty_bag l u p); [done..|]. intros s1 H1. unfold put. wp_steps.
  apply (put_at _ _ _ _ _ _ (bag_svcPath p)) in H1. eapply stage_staged_at; [exact H1|exact Hr|exact Hf|].
  intros ts fs' s2 H2 Hst. wp_steps. apply (put_at _ _ _ _ _ _ (bag_workPath (work_file (workdir_name u ts)))) in H2.
  apply (put_at _ _ _ _ _ _ (bag_tokens (markerTokensForModes modes))) in H2.
  destruct Hst as (Hw & Hp & Hfr). cbn [read_existed markerTokensForModes]. wp_steps.
  eapply contains_at; [exact H2|by repeat constructor|]. intros s3 H3. unfold has_line. rewrite Hw. cbn [pattern_re].
  rewrite plain_mark by apply app_plain. wp_steps.
  eapply contains_at; [exact H3|by repeat constructor|]. intros s4 H4. unfold has_line. rewrite Hw. cbn [pattern_re].
  rewrite plain_mark by apply app_plain. wp_steps.
  apply (put_at _ _ _ _ _ _ (bag_existed [(homey_app, marked homey_app ls); (homey_node, marked homey_node ls)])) in H4.
  apply (put_at _ _ _ _ _ _ (bag_insertLines (buildLines modes))) in H4.
  eapply hash_at; [exact H4|by destruct Hr|exact Hp|]. intros s5 H5. wp_steps.
  apply (put_at _ _ _ _ _ _ (bag_hashBefore (hash_of ls))) in H5. by apply (HQ ts fs').
Qed.

Lemma inserts_at s fs0 fs e sd u ts p ls lo Q :
  at_ s (mk fs e) sd -> outside p -> staged fs0 fs (workdir_name u ts) p ls lo ->
  existsb exec_start ls = true \/ missing ls = [] ->
  (forall fs' s1, at_ s1 (mk fs' e) sd -> staged fs0 fs' (workdir_name u ts) p (mounted ls) lo -> Q (Ok tt) s1) ->
  wp s (each (insertAfterExecStart (work_file (workdir_name u ts))) (missing ls)) Q.
Proof.
  intros Hs Ho Hst He HQ. destruct lines_ok as (L1 & L2 & L3 & L4). unfold missing, mounted in *.
  destruct (marked homey_app ls) eqn:Ea; destruct (marked homey_node ls) eqn:En; cbn [app each] in *.
  - apply wp_ret. by apply (HQ fs s).
  - destruct He as [He|]; [|done]. wp_step. apply (insert_fresh_at s fs0 fs e sd u ts p node_line homey_node ls lo); [done..|].
    intros fs1 s1 H1 Hst1. wp_steps. by apply (HQ fs1 s1).
  - destruct He as [He|]; [|done]. wp_step. apply (insert_fresh_at s fs0 fs e sd u ts p app_line homey_app ls lo); [done..|].
    intros fs1 s1 H1 Hst1. wp_steps. by apply (HQ fs1 s1).
  - destruct He as [He|]; [|done]. wp_step. apply (insert_fresh_at s fs0 fs e sd u ts p app_line homey_app ls lo); [done..|].
    intros fs1 s1 H1 Hst1. wp_step.
    assert (En' : marked homey_node (insert_line app_line ls) = false).
    { unfold marked. rewrite marked_insert by apply app_marks. fold (marked homey_node ls). rewrite En, He. by vm_compute. }
    apply (insert_fresh_at s1 fs0 fs1 e sd u ts p node_line homey_node (insert_line app_line ls) lo); [done..|by apply exec_start_insert|].
    intros fs2 s2 H2 Hst2. wp_steps. by apply (HQ fs2 s2).
Qed.

Lemma marked_mounted ls t :
  existsb exec_start ls = true \/ missing ls = [] -> t = homey_app \/ t = homey_node -> marked t (mounted ls) = true.
Proof.
  intros He Ht. destruct app_marks as [Ma Mn].
  assert (Hm : mark_ok t) by (by destruct Ht as [-> | ->]).
  unfold mounted, missing in *.
  destruct (marked homey_app ls) eqn:Ea; destruct (marked homey_node ls) eqn:En; cbn [app] in He;
    unfold marked in *; rewrite ?marked_insert by done; (destruct He as [He|]; [rewrite ?He, ?exec_start_insert by done|try done]);
    destruct Ht as [-> | ->]; by rewrite ?Ea, ?En.
Qed.

Lemma start_at s m w b l steps Q :
  at_ s m (w, b, None, l) -> no_jumps steps ->
  (forall s1, at_ s1 m (None, empty_bag, None, l) -> wp s1 (in_order steps) Q) -> wp s (run_workflow steps) Q.
Proof.
  intros (H & Hm & Hs) Hn HQ. apply wp_workflow; [done|]. apply HQ. apply side_eq in Hs as (<- & <- & Hc & <-).
  split_and!; [done|done|]. unfold side. cbn. by rewrite Hc.
Qed.

Lemma task_at s m w b l u p pick steps Q :
  at_ s m (w, b, None, l) -> ready u l p -> no_jumps (steps u) ->
  (forall s1, at_ s1 m (None, empty_bag, None, l) -> wp s1 (in_order (steps u)) Q) ->
  wp s (let* unit_ := resolveHomeyUnit pick in run_workflow (steps unit_)) Q.
Proof.
  intros Hs Hr Hn HQ. destruct Hr as [[rest Hu] Hname _ _ _ _]. wp_step.
  apply (resolve_at s m w b l u rest); [done..|]. intros s1 H1. by eapply start_at.
Qed.

Lemma init_at s m sd rest Q :
  at_ s m sd -> (forall s1, at_ s1 m sd -> wp s1 (in_order rest) Q) -> wp s (in_order (init_step :: rest)) Q.
Proof.
  intros Hs HQ. apply wp_next. wp_step. apply (run_at s _ _ _ _ Hs); [done|]. intros s1 H1. wp_steps. by apply HQ.
Qed.

Lemma staged_backup fs0 fs u ts p lw ls ts' :
  outside p -> staged fs0 fs (workdir_name u ts) p lw ls ->
  let bak := p ++ js ".bak." ++ print_int ts' in
  staged (<[bak := ls]> fs0) (<[bak := ls]> fs) (workdir_name u ts) p lw ls.
Proof.
  intros Ho (H1 & H2 & H3) bak. assert (Hb : bak <> p) by (by apply app_ne).
  assert (Hbo : outside bak) by (by apply outside_backup). split_and!.
  - rewrite lookup_insert_ne; [done|]. intros E. symmetry in E. by apply (work_ne u ts bak).
  - by rewrite lookup_insert_ne.
  - intros f Hf Hne. destruct (decide (f = bak)) as [->|]; [by rewrite !lookup_insert_eq|]. rewrite !lookup_insert_ne by done. by apply H3.
Qed.

Lemma mount_apply_at s fs0 fs e w b l u ts p ls lo rest Q :
  at_ s (mk fs e) (w, b, None, l) -> ready u l p -> staged fs0 fs (workdir_name u ts) p ls lo ->
  svcPath b = p -> workPath b = work_file (workdir_name u ts) -> dryRun b = missing ls ->
  existsb exec_start ls = true \/ missing ls = [] ->
  (forall fs' s1, at_ s1 (mk fs' e) (w, b, None, l) -> fs' !! p = Some (mounted ls) ->
    (forall f, outside f -> f <> p -> fs' !! f = fs0 !! f) -> wp s1 (in_order rest) Q) ->
  wp s (in_order (step (js "APPLY_PATCH") mount_apply :: rest)) Q.
Proof.
  intros Hs Hr Hst Hp Hw Hd He HQ. destruct Hr as [_ _ _ _ Hb Ho]. apply wp_next. unfold mount_apply. wp_step.
  apply (remount_at s _ _ _ Hs). intros s1 H1. unfold bag. wp_steps. rewrite (bag_at _ _ _ _ _ _ H1), Hp, Hw, Hd.
  eapply inserts_at; [exact H1|exact Ho|exact Hst|exact He|]. intros fs2 s2 H2 Hst2. wp_steps.
  eapply replace_staged_at; [exact H2|exact Hb|exact Ho|exact Hst2|]. intros fs3 s3 H3 Hf3 Hfr3. wp_steps.
  rewrite (bag_at _ _ _ _ _ _ H3). eapply wait_change_at; [exact H3|exact Hb|exact Hf3|]. intros bb s4 H4. wp_steps.
  by apply (HQ fs3).
Qed.

Lemma mount_verify_at s fs e w b l p ls rest Q :
  at_ s (mk fs e) (w, b, None, l) -> svcPath b = p -> tokens b = [homey_app; homey_node] -> fs !! p = Some ls ->
  marked homey_app ls = true -> marked homey_node ls = true ->
  (forall s1, at_ s1 (mk fs e) (w, b, None, l) -> wp s1 (in_order rest) Q) ->
  wp s (in_order (step (js "POST_VERIFY") mount_verify :: rest)) Q.
Proof.
  intros Hs Hp Ht Hf Ha Hn HQ. apply wp_next. unfold mount_verify, bag. wp_steps. rewrite (bag_at _ _ _ _ _ _ Hs), Hp, Ht.
  cbn [each]. wp_steps. eapply contains_at; [exact Hs|by repeat constructor|]. intros s1 H1. unfold has_line. rewrite Hf.
  cbn [pattern_re]. rewrite plain_mark, Ha by apply app_plain. wp_steps.
  eapply contains_at; [exact H1|by repeat constructor|]. intros s2 H2. unfold has_line. rewrite Hf.
  cbn [pattern_re]. rewrite plain_mark, Hn by apply app_plain. wp_steps. by apply HQ.
Qed.

Lemma patched_end fs0 fs u ts p old new ts' :
  outside p -> fs !! p = Some new ->
  (forall f, outside f -> f <> p -> fs !! f = <[p ++ js ".bak." ++ print_int ts' := old]> fs0 !! f) ->
  patched fs0 (remove_dir (workdir_name u ts) fs) p old new.
Proof.
  intros Ho Hf Hfr. set (bak := p ++ js ".bak." ++ print_int ts') in *.
  assert (Hb : bak <> p) by (by apply app_ne). assert (Hbo : outside bak) by (by apply outside_backup).
  split; [by rewrite remove_dir_outside|]. exists ts'. split.
  - rewrite remove_dir_outside, Hfr by done. apply lookup_insert_eq.
  - intros f Hfo Hp Hk. rewrite remove_dir_outside, Hfr by done. by apply lookup_insert_ne.
Qed.

Lemma mount_at s fs e w b l u p ls pick modes Q :
  at_ s (mk fs e) (w, b, None, l) -> ready u l p -> fs !! p = Some ls -> starts u e ->
  existsb exec_start ls = true \/ missing ls = [] ->
  (forall fs1 fs' e' b' s1, at_ s1 (mk fs' e') (None, b', None, l) -> patched fs fs' p ls (mounted ls) ->
    restarted u (mk fs1 e) = (m_containers e', m_volumes e', m_unit e') -> Q (Ok tt) s1) ->
  wp s (MountTaskRunner pick modes) Q.
Proof.
  intros Hs Hr Hf Hst He HQ. unfold MountTaskRunner. eapply (task_at _ _ _ _ _ _ _ _ (mount_steps modes)); [exact Hs|exact Hr|by repeat constructor|].
  intros s1 H1. apply (init_at s1 _ _ _ _ H1). intros s2 H2.
  eapply mount_read_at; [exact H2|exact Hr|exact Hf|]. intros ts fs3 s3 H3 Hst3.
  assert (Ho : outside p) by (by destruct Hr). assert (Hb : bare p) by (by destruct Hr).
  apply wp_next. unfold mount_dry_run, bag. wp_steps. rewrite (bag_at _ _ _ _ _ _ H3), to_insert_missing. unfold put. wp_steps.
  apply (put_at _ _ _ _ _ _ (bag_dryRun (missing ls))) in H3.
  eapply backup_step_at; [exact H3|done|exact Hb|by destruct Hst3 as (_ & ? & _)|]. intros ts4 s4 bak H4.
  apply (staged_backup _ _ _ _ _ _ _ ts4 Ho) in Hst3. fold bak in Hst3.
  eapply mount_apply_at; [exact H4|exact Hr|exact Hst3|done|done|done|exact He|]. intros fs5 s5 H5 Hf5 Hfr5.
  eapply finish_at; [exact H5|exact Hr|exact Hst|]. intros e6 s6 He6 H6.
  eapply mount_verify_at; [exact H6|done|done|exact Hf5|apply marked_mounted; auto|apply marked_mounted; auto|]. intros s7 H7.
  eapply cleanup_step_at; [exact H7|]. intros s8 H8. eapply HQ; [exact H8| |exact He6]. by eapply patched_end.
Qed.

(** A file that starts no command: the first missing line cannot be inserted. *)
Lemma inserts_fail_at s fs0 fs e sd u ts p ls lo Q :
  at_ s (mk fs e) sd -> outside p -> staged fs0 fs (workdir_name u ts) p ls lo -> ls <> [] ->
  existsb exec_start ls = false -> missing ls <> [] ->
  (forall fs' s1, at_ s1 (mk fs' e) sd -> staged fs0 fs' (workdir_name u ts) p ls lo -> Q Throws s1) ->
  wp s (each (insertAfterExecStart (work_file (workdir_name u ts))) (missing ls)) Q.
Proof.
  intros Hs Ho Hst Hne He Hm HQ. destruct lines_ok as (L1 & L2 & _). destruct app_marks as [M1 M2]. unfold missing in *.
  destruct (marked homey_app ls) eqn:Ea; [destruct (marked homey_node ls) eqn:En; [done|]|]; cbn [app each]; wp_step.
  - by apply (insert_hopeless_at s fs0 fs e sd u ts p node_line homey_node ls lo).
  - by apply (insert_hopeless_at s fs0 fs e sd u ts p app_line homey_app ls lo).
Qed.

Lemma mount_fails_at s fs e w b l u p ls pick modes Q :
  at_ s (mk fs e) (w, b, None, l) -> ready u l p -> fs !! p = Some ls -> ls <> [] ->
  existsb exec_start ls = false -> missing ls <> [] ->
  (forall fs' sd s1, at_ s1 (mk fs' e) sd -> patched fs fs' p ls ls -> Q Throws s1) ->
  wp s (MountTaskRunner pick modes) Q.
Proof.
  intros Hs Hr Hf Hne He Hm HQ. unfold MountTaskRunner. eapply (task_at _ _ _ _ _ _ _ _ (mount_steps modes)); [exact Hs|exact Hr|by repeat constructor|].
  intros s1 H1. apply (init_at s1 _ _ _ _ H1). intros s2 H2.
  eapply mount_read_at; [exact H2|exact Hr|exact Hf|]. intros ts fs3 s3 H3 Hst3.
  assert (Ho : outside p) by (by destruct Hr). assert (Hb : bare p) by (by destruct Hr).
  apply wp_next. unfold mount_dry_run, bag. wp_steps. rewrite (bag_at _ _ _ _ _ _ H3), to_insert_missing. unfold put. wp_steps.
  apply (put_at _ _ _ _ _ _ (bag_dryRun (missing ls))) in H3.
  eapply backup_step_at; [exact H3|done|exact Hb|by destruct Hst3 as (_ & ? & _)|]. intros ts4 s4 bak H4.
  apply (staged_backup _ _ _ _ _ _ _ ts4 Ho) in Hst3. fold bak in Hst3.
  apply wp_next. unfold mount_apply, bag. wp_step. apply (remount_at s4 _ _ _ H4). intros s5 H5. wp_steps.
  rewrite (bag_at _ _ _ _ _ _ H5). eapply inserts_fail_at; [exact H5|exact Ho|exact Hst3|done|done|done|].
  intros fs6 s6 H6 (_ & Hp6 & Hfr6). eapply HQ; [exact H6|]. split; [done|]. exists ts4. split.
  - rewrite Hfr6; [apply lookup_insert_eq|by apply outside_backup|by apply app_ne].
  - intros f Hfo Hfp Hfb. rewrite Hfr6 by done. by apply lookup_insert_ne.
Qed.

(** ** Unmounting *)

Lemma unmount_read_at s fs e l u p ls pats rest Q :
  at_ s (mk fs e) (None, empty_bag, None, l) -> ready u l p -> fs !! p = Some ls ->
  (forall ts fs' s1 b,
    at_ s1 (mk fs' e) (Some (workdir_name u ts), b, None, l) ->
    svcPath b = p -> workPath b = work_file (workdir_name u ts) -> volumes b = pats -> hashBefore b = hash_of ls ->
    staged fs fs' (workdir_name u ts) p ls ls -> wp s1 (in_order rest) Q) ->
  wp s (in_order (step (js "READ_SERVICE_FILE") (unmount_read pats u) :: rest)) Q.
Proof.
  intros Hs Hr Hf HQ. apply wp_next. unfold unmount_read. wp_step.
  apply (read_at s fs e None empty_bag l u p); [done..|]. intros s1 H1. unfold put. wp_steps.
  apply (put_at _ _ _ _ _ _ (bag_svcPath p)) in H1. eapply stage_staged_at; [exact H1|exact Hr|exact Hf|].
  intros ts fs' s2 H2 Hst. wp_steps. apply (put_at _ _ _ _ _ _ (bag_workPath (work_file (workdir_name u ts)))) in H2.
  eapply hash_at; [exact H2|by destruct Hr|by destruct Hst as (_ & ? & _)|]. intros s3 H3. wp_steps.
  apply (put_at _ _ _ _ _ _ (bag_hashBefore (hash_of ls))) in H3. apply (put_at _ _ _ _ _ _ (bag_volumes pats)) in H3.
  by eapply (HQ ts fs').
Qed.

(** The containers that stay *)
Definition without_containers (x : str) (e : Machine) : Machine :=
  MkMachine (m_files e) (List.filter (fun c => negb (like x c)) (m_containers e)) (m_volumes e) (m_unit e).

Lemma no_containers_now s fs e sd x t poll :
  at_ s (mk fs (without_containers x e)) sd -> plain x -> 0 < t ->
  exists s1, waitForNoContainers x t poll s = (s1, Ok true) /\ at_ s1 (mk fs (without_containers x e)) sd.
Proof.
  intros Hs Hx Ht.
  destruct (wp_call s (poll_no_containers x) (fun a s1 => a = true /\ at_ s1 (mk fs (without_containers x e)) sd))
    as (a & s1 & E & -> & H1).
  { unfold poll_no_containers. wp_step. apply (run_at s _ _ _ _ Hs); [done|]. intros s1 H1.
    cbn [effect answer fst snd mk m_containers without_containers] in *.
    assert (E : List.filter (like x) (List.filter (fun c => negb (like x c)) (m_containers e)) = []).
    { induction (m_containers e) as [|c cs IH]; [done|]. cbn [List.filter]. destruct (like x c) eqn:El; cbn [negb List.filter]; [done|].
      by rewrite El. }
    rewrite E. wp_steps. eauto. }
  exists s1. split; [|done]. unfold waitForNoContainers. by rewrite (wait_until_now t poll _ s s1).
Qed.

Lemma unmount_stop_at s fs e sd rest Q :
  at_ s (mk fs e) sd ->
  (forall s1, at_ s1 (mk fs (without_containers (js "homey") e)) sd -> wp s1 (in_order rest) Q) ->
  wp s (in_order (retry_step (js "STOP_AND_REMOVE_CONTAINERS") 2 unmount_stop :: rest)) Q.
Proof.
  intros Hs HQ. assert (Hx : plain (js "homey")) by (split; [done|by repeat constructor]).
  apply wp_next_retry. unfold unmount_stop, stopContainersByMatch. cbn [stop_tries]. wp_steps.
  apply (run_at s _ _ _ _ Hs); [done|]. intros s1 H1. cbn [effect] in H1.
  change (MkMachine _ _ _ _) with (mk fs (without_containers (js "homey") e)) in H1. wp_steps.
  destruct (no_containers_now s1 fs e sd (js "homey") 2000 500 H1 Hx ltac:(lia)) as (s2 & E2 & H2).
  unfold wp at 1. rewrite E2. cbn [fst snd]. wp_steps.
  destruct (no_containers_now s2 fs e sd (js "homey") 15000 1000 H2 Hx ltac:(lia)) as (s3 & E3 & H3).
  unfold wp at 1. rewrite E3. cbn [fst snd]. wp_steps. split; [done|]. by apply HQ.
Qed.

Lemma unmount_apply_at s fs0 fs e w b l u ts p ls lo pats rest Q :
  at_ s (mk fs e) (w, b, None, l) -> ready u l p -> staged fs0 fs (workdir_name u ts) p ls lo ->
  svcPath b = p -> workPath b = work_file (workdir_name u ts) -> Forall plain pats ->
  (forall fs' s1, at_ s1 (mk fs' e) (w, b, None, l) -> fs' !! p = Some (sed_delete pats ls) ->
    (forall f, outside f -> f <> p -> fs' !! f = fs0 !! f) -> wp s1 (in_order rest) Q) ->
  wp s (in_order (step (js "APPLY_PATCH") (unmount_apply pats) :: rest)) Q.
Proof.
  intros Hs Hr Hst Hp Hw Hpl HQ. destruct Hr as [_ _ _ _ Hb Ho]. apply wp_next. unfold unmount_apply. wp_step.
  apply (remount_at s _ _ _ Hs). intros s1 H1. unfold bag. wp_steps. rewrite (bag_at _ _ _ _ _ _ H1), Hp, Hw.
  eapply delete_at; [exact H1|exact Hpl|by destruct Hst|]. intros s2 H2. wp_steps.
  eapply (replace_staged_at _ fs0); [exact H2|exact Hb|exact Ho| |].
  { destruct Hst as (Hw1 & Hw2 & Hw3). split_and!; [by simplify_map_eq|by rewrite lookup_insert_ne by (by apply work_ne)|].
    intros f Hf Hne. rewrite lookup_insert_ne by (by apply work_ne). by apply Hw3. }
  intros fs3 s3 H3 Hf3 Hfr3. wp_steps.
  rewrite (bag_at _ _ _ _ _ _ H3). eapply wait_change_at; [exact H3|exact Hb|exact Hf3|]. intros bb s4 H4. wp_steps.
  by apply (HQ fs3).
Qed.

(** The volumes that stay *)
Definition without_volumes (vols : list str) (e : Machine) : Machine :=
  MkMachine (m_files e) (m_containers e) (List.filter (fun w => negb (bool_decide (w ∈ vols))) (m_volumes e)) (m_unit e).

Lemma without_volumes_cons v vols e :
  without_volumes vols (without_volumes [v] e) = without_volumes (v :: vols) e.
Proof.
  unfold without_volumes. cbn [m_files m_containers m_volumes m_unit]. f_equal.
  induction (m_volumes e) as [|w ws IH]; [done|]. cbn [List.filter].
  destruct (decide (w = v)) as [->|Hne].
  - rewrite (bool_decide_true (v ∈ [v])), (bool_decide_true (v ∈ v :: vols)) by (by left). cbn [negb]. exact IH.
  - rewrite (bool_decide_false (w ∈ [v])) by set_solver. cbn [negb List.filter]. rewrite IH.
    by rewrite (bool_decide_ext (w ∈ v :: vols) (w ∈ vols)) by set_solver.
Qed.

Lemma remove_all_at s fs e sd vols Q :
  at_ s (mk fs e) sd -> Forall (fun v => bare v /\ volume_used (m_containers e) v = false) vols ->
  (forall s1, at_ s1 (mk fs (without_volumes vols e)) sd -> Q (Ok tt) s1) ->
  wp s (each (fun v => run (VolumeRm v) ;; ret tt) vols) Q.
Proof.
  revert s e. induction vols as [|v vols IH]; intros s e Hs Hv HQ; cbn [each].
  - wp_step. apply HQ. replace (mk fs (without_volumes [] e)) with (mk fs e); [done|]. unfold mk, without_volumes.
    cbn. f_equal. induction (m_volumes e) as [|w ws IHw]; [done|]. cbn. by f_equal.
  - apply Forall_cons in Hv as [[Hb Hu] Hv]. wp_step. wp_step. apply (run_at s _ _ _ _ Hs); [done|]. intros s1 H1.
    cbn [effect] in H1. change (m_containers (mk fs e)) with (m_containers e) in H1. rewrite Hu in H1.
    replace (MkMachine _ _ _ _) with (mk fs (without_volumes [v] e)) in H1.
    2:{ unfold mk, without_volumes. cbn. f_equal. apply filter_ext. intros w. f_equal. apply bool_decide_ext. set_solver. }
    wp_steps. apply (IH s1 (without_volumes [v] e)); [done|done|]. intros s2 H2. apply HQ. by rewrite without_volumes_cons in H2.
Qed.

Lemma distinct_elem seen l x : x ∈ distinct seen l <-> x ∈ l /\ x ∉ seen.
Proof.
  revert seen. induction l as [|y l IH]; intros seen; cbn [distinct]; [set_solver|].
  destruct (decide (y ∈ seen)); rewrite ?elem_of_cons, IH; destruct (decide (x = y)); set_solver.
Qed.

Lemma filter_words (f : str -> bool) ls : Forall word ls -> Forall word (List.filter f ls).
Proof. induction 1 as [|l ls Hl _ IH]; cbn; [constructor|]. destruct (f l); [by constructor|done]. Qed.

Lemma volumes_gone_now s fs e sd vols t poll :
  at_ s (mk fs (without_volumes vols e)) sd -> Forall word (m_volumes e) -> 0 < t ->
  exists s1, waitForVolumesGone vols t poll s = (s1, Ok true) /\ at_ s1 (mk fs (without_volumes vols e)) sd.
Proof.
  intros Hs Hw Ht.
  destruct (wp_call s (poll_volumes_gone vols) (fun a s1 => a = true /\ at_ s1 (mk fs (without_volumes vols e)) sd))
    as (a & s1 & E & -> & H1).
  { unfold poll_volumes_gone. wp_step. apply (run_at s _ _ _ _ Hs); [done|]. intros s1 H1.
    cbn [effect answer fst snd mk m_volumes without_volumes] in *. wp_steps. eexists. split; [done|]. split; [|done].
    apply negb_true_iff, not_true_iff_false. intros (v & Hv & Hin)%existsb_exists. apply bool_decide_eq_true in Hin.
    rewrite listed_lines in Hin by (by apply filter_words). apply list_elem_of_In, filter_In in Hin as [_ Hin].
    rewrite bool_decide_true in Hin by (by apply list_elem_of_In). done. }
  exists s1. split; [|done]. unfold waitForVolumesGone. by rewrite (wait_until_now t poll _ s s1).
Qed.

Lemma unmount_volumes_at s fs e w b l rest Q :
  at_ s (mk fs e) (w, b, None, l) -> volumes b <> [] ->
  Forall (fun v => bare v /\ volume_used (m_containers e) v = false) (volumes b) -> Forall word (m_volumes e) ->
  (forall s1, at_ s1 (mk fs (without_volumes (volumes b) e)) (w, b, None, l) -> wp s1 (in_order rest) Q) ->
  wp s (in_order (retry_step (js "REMOVE_VOLUMES") 2 unmount_volumes :: rest)) Q.
Proof.
  intros Hs Hne Hv Hw HQ. apply wp_next_retry. unfold unmount_volumes, bag. wp_steps. rewrite (bag_at _ _ _ _ _ _ Hs).
  assert (Hf : List.filter nonempty (volumes b) = volumes b).
  { clear Hne HQ. induction Hv as [|v vs [[Hvn _] _] _ IH]; [done|]. destruct v as [|c v]; [done|]. cbn [List.filter nonempty]. by rewrite IH. }
  rewrite Hf. unfold removeVolumesByNames. rewrite Hf. destruct (volumes b) as [|v0 vs] eqn:Ev; [done|].
  set (vols := distinct [] (v0 :: vs)). change (nonempty (v0 :: vs)) with true. cbv iota.
  change (nonempty vols) with true. cbv iota. cbn [remove_tries]. wp_steps.
  assert (Hd : forall x, x ∈ vols <-> x ∈ v0 :: vs) by (intros x; unfold vols; rewrite distinct_elem; set_solver).
  eapply remove_all_at; [exact Hs| |].
  { apply Forall_forall. intros x Hx. apply Hd in Hx. rewrite Forall_forall in Hv. by apply Hv. }
  intros s1 H1. wp_steps. destruct (volumes_gone_now s1 fs e _ vols 1500 400 H1 Hw ltac:(lia)) as (s2 & E2 & H2).
  unfold wp at 1. rewrite E2. cbn [fst snd]. wp_steps. split; [done|]. apply HQ.
  replace (without_volumes (v0 :: vs) e) with (without_volumes vols e); [done|]. unfold without_volumes. f_equal.
  apply filter_ext. intros x. f_equal. apply bool_decide_ext, Hd.
Qed.

Lemma deleted_unmarked pats ls rx : rx ∈ pats -> marked rx (sed_delete pats ls) = false.
Proof.
  intros Hin. unfold marked, sed_delete. apply not_true_iff_false. intros (x & Hx & Hp)%existsb_exists.
  apply list_elem_of_In, list_elem_of_filter in Hx as [Hx _]. unfold has_pattern in *. cbn [existsb] in Hp. rewrite orb_false_r in Hp.
  assert (Ht : existsb (fun q => includes x q) pats = true); [|congruence]. apply existsb_exists. exists rx.
  split; [by apply list_elem_of_In|done].
Qed.

Lemma unmount_verify_at s fs e w b l p ls pats rest Q :
  at_ s (mk fs e) (w, b, None, l) -> svcPath b = p -> fs !! p = Some ls -> Forall plain pats ->
  Forall (fun rx => marked rx ls = false) pats ->
  (forall s1, at_ s1 (mk fs e) (w, b, None, l) -> wp s1 (in_order rest) Q) ->
  wp s (in_order (step (js "POST_VERIFY") (unmount_verify pats) :: rest)) Q.
Proof.
  intros Hs Hp Hf Hpl Hm HQ. apply wp_next. unfold unmount_verify, bag. wp_steps. rewrite (bag_at _ _ _ _ _ _ Hs), Hp.
  revert s Hs Hpl. induction Hm as [|rx pats Hrx _ IH]; intros s Hs Hpl; cbn [each]; [wp_steps; by apply HQ|].
  apply Forall_cons in Hpl as [Hx Hpl]. wp_step. wp_step. eapply contains_at; [exact Hs|exact Hx|]. intros s1 H1. unfold has_line. rewrite Hf.
  cbn [pattern_re]. rewrite plain_mark, Hrx by done. wp_steps. by apply IH.
Qed.

Lemma unmount_at s fs e w b l u p ls pats pick Q :
  at_ s (mk fs e) (w, b, None, l) -> ready u l p -> fs !! p = Some ls ->
  pats <> [] -> Forall (fun x => bare x /\ plain x) pats ->
  let e1 := without_volumes pats (without_containers (js "homey") e) in
  Forall (fun v => volume_used (m_containers e1) v = false) pats -> Forall word (m_volumes e) -> starts u e1 ->
  (forall fs1 fs' e' b' s1, at_ s1 (mk fs' e') (None, b', None, l) -> patched fs fs' p ls (sed_delete pats ls) ->
    restarted u (mk fs1 e1) = (m_containers e', m_volumes e', m_unit e') -> Q (Ok tt) s1) ->
  wp s (UnmountTaskRunner pick pats) Q.
Proof.
  intros Hs Hr Hf Hne Hpl e1 Hun Hvw Hst HQ.
  assert (Hpl2 : Forall plain pats) by (eapply Forall_impl; [exact Hpl|]; by intros x [? ?]).
  assert (Ho : outside p) by (by destruct Hr). assert (Hb : bare p) by (by destruct Hr).
  unfold UnmountTaskRunner. eapply (task_at _ _ _ _ _ _ _ _ (unmount_steps pats)); [exact Hs|exact Hr|by repeat constructor|].
  intros s1 H1. apply (init_at s1 _ _ _ _ H1). intros s2 H2.
  eapply unmount_read_at; [exact H2|exact Hr|exact Hf|]. intros ts fs3 s3 b3 H3 Hb1 Hb2 Hb3 Hb4 Hst3.
  apply wp_next. unfold unmount_dry_run, bag. wp_steps. rewrite (bag_at _ _ _ _ _ _ H3), Hb2.
  apply (run_at s3 _ _ _ _ H3); [split; [done|apply work_bare]|]. intros s4 H4. cbn [effect] in H4. wp_steps.
  eapply backup_step_at; [exact H4|exact Hb1|exact Hb|by destruct Hst3 as (_ & ? & _)|]. intros ts5 s5 bak H5.
  apply (staged_backup _ _ _ _ _ _ _ ts5 Ho) in Hst3. fold bak in Hst3.
  eapply unmount_stop_at; [exact H5|]. intros s6 H6.
  eapply unmount_apply_at; [exact H6|exact Hr|exact Hst3|done|done|exact Hpl2|]. intros fs7 s7 H7 Hf7 Hfr7.
  eapply unmount_volumes_at; [exact H7|by rewrite <- Hb3 in Hne| |exact Hvw|].
  { cbn [bag_backup volumes]. rewrite Hb3. rewrite Forall_forall in Hun, Hpl. apply Forall_forall. intros v Hv.
    split; [by apply Hpl|by apply Hun]. }
  cbn [bag_backup volumes]. rewrite Hb3. fold e1. intros s8 H8.
  eapply finish_at; [exact H8|exact Hr|exact Hst|]. intros e9 s9 He9 H9.
  eapply unmount_verify_at; [exact H9|done|exact Hf7|exact Hpl2| |].
  { apply Forall_forall. intros rx Hrx. by apply deleted_unmarked. }
  intros s10 H10. eapply cleanup_step_at; [exact H10|]. intros s11 H11. eapply HQ; [exact H11| |exact He9]. by eapply patched_end.
Qed.

(** ** Toggling a variable *)

Definition toggled (v : toggle_var) (enable : bool) (ls : list str) : list str :=
  if enable then (if marked (var_name v) ls then ls else insert_line (toggle_line v) ls)
  else sed_delete [var_name v] ls.

(** A line is only inserted after the start of a command. *)
Definition toggle_possible (v : toggle_var) (enable : bool) (ls : list str) : Prop :=
  enable = true -> marked (var_name v) ls = false -> existsb exec_start ls = true.

Lemma var_plain v : plain (var_name v) /\ mark_ok (var_name v).
Proof. destruct v; (split; (split; [done|by repeat constructor])). Qed.

Lemma toggle_line_ok v : one_line (toggle_line v) /\ searchable (toggle_line v) /\ includes (toggle_line v) (var_name v) = true.
Proof. destruct v; split_and!; by repeat constructor. Qed.

Lemma toggled_marked v enable ls : toggle_possible v enable ls -> marked (var_name v) (toggled v enable ls) = enable.
Proof.
  intros Hp. unfold toggled. destruct enable.
  - destruct (marked (var_name v) ls) eqn:E; [done|]. unfold marked. rewrite marked_insert by apply var_plain.
    rewrite (Hp eq_refl E). destruct (toggle_line_ok v) as (_ & _ & ->). by rewrite orb_true_r.
  - apply deleted_unmarked. by left.
Qed.

Lemma toggle_read_at s fs e l u p ls v rest Q :
  at_ s (mk fs e) (None, empty_bag, None, l) -> ready u l p -> fs !! p = Some ls ->
  (forall ts fs' s1 b,
    at_ s1 (mk fs' e) (Some (workdir_name u ts), b, None, l) ->
    svcPath b = p -> workPath b = work_file (workdir_name u ts) -> token_exists b = marked (var_name v) ls ->
    hashBefore b = hash_of ls -> staged fs fs' (workdir_name u ts) p ls ls -> wp s1 (in_order rest) Q) ->
  wp s (in_order (step (js "READ_SERVICE_FILE") (toggle_read v u) :: rest)) Q.
Proof.
  intros Hs Hr Hf HQ. destruct (var_plain v) as [Hv _]. apply wp_next. unfold toggle_read. wp_step.
  apply (read_at s fs e None empty_bag l u p); [done..|]. intros s1 H1. unfold put. wp_steps.
  apply (put_at _ _ _ _ _ _ (bag_svcPath p)) in H1. eapply stage_staged_at; [exact H1|exact Hr|exact Hf|].
  intros ts fs' s2 H2 Hst. wp_steps. apply (put_at _ _ _ _ _ _ (bag_workPath (work_file (workdir_name u ts)))) in H2.
  eapply contains_at; [exact H2|exact Hv|]. intros s3 H3. unfold has_line. destruct Hst as (Hw & Hp & Hfr). rewrite Hw. cbn [pattern_re].
  rewrite plain_mark by done. wp_steps. apply (put_at _ _ _ _ _ _ (bag_exists (marked (var_name v) ls))) in H3.
  eapply hash_at; [exact H3|by destruct Hr|exact Hp|]. intros s4 H4. wp_steps.
  apply (put_at _ _ _ _ _ _ (bag_hashBefore (hash_of ls))) in H4. by eapply (HQ ts fs').
Qed.

(** The edit of the work copy and the move *)
Lemma toggle_edit_at s fs0 fs e w b l u ts p ls lo v enable (Q : js_result unit -> Host D -> Prop) :
  at_ s (mk fs e) (w, b, None, l) -> ready u l p -> staged fs0 fs (workdir_name u ts) p ls lo ->
  toggle_possible v enable ls ->
  (forall fs' s1, at_ s1 (mk fs' e) (w, b, None, l) -> staged fs0 fs' (workdir_name u ts) p (toggled v enable ls) lo -> Q (Ok tt) s1) ->
  wp s (if enable then (if marked (var_name v) ls then ret tt
                        else insertAfterExecStart (work_file (workdir_name u ts)) (toggle_line v))
        else deleteByRegexPatterns (work_file (workdir_name u ts)) [var_name v]) Q.
Proof.
  intros Hs Hr Hst Hp HQ. destruct Hr as [_ _ _ _ Hb Ho]. destruct (toggle_line_ok v) as (L1 & L2 & L3). destruct (var_plain v) as [Hv _].
  unfold toggled in HQ. destruct enable.
  - destruct (marked (var_name v) ls) eqn:E; [wp_step; by apply (HQ fs s)|].
    apply (insert_fresh_at s fs0 fs e (w, b, None, l) u ts p (toggle_line v) (var_name v) ls lo); [done..|by apply Hp|done].
  - eapply delete_at; [exact Hs|by apply Forall_singleton|by destruct Hst|]. intros s1 H1. eapply HQ; [exact H1|].
    destruct Hst as (Hw1 & Hw2 & Hw3). split_and!; [by simplify_map_eq|by rewrite lookup_insert_ne by (by apply work_ne)|].
    intros f Hf Hne. rewrite lookup_insert_ne by (by apply work_ne). by apply Hw3.
Qed.

Lemma toggle_apply_at s fs0 fs e w b l u ts p ls v enable rest Q :
  at_ s (mk fs e) (w, b, None, l) -> ready u l p -> staged fs0 fs (workdir_name u ts) p ls ls ->
  svcPath b = p -> workPath b = work_file (workdir_name u ts) -> token_exists b = marked (var_name v) ls ->
  hashBefore b = hash_of ls -> toggle_possible v enable ls ->
  hash_of (toggled v enable ls) <> hash_of ls \/ toggled v enable ls = ls ->
  (forall fs' s1, at_ s1 (mk fs' e) (w, b, None, l) -> fs' !! p = Some (toggled v enable ls) ->
    (forall f, outside f -> f <> p -> fs' !! f = fs0 !! f) ->
    if decide (toggled v enable ls = ls) then Q Throws s1 else wp s1 (in_order rest) Q) ->
  wp s (in_order (step (js "APPLY_PATCH") (toggle_apply v enable) :: rest)) Q.
Proof.
  intros Hs Hr Hst Hp Hw Hx Hh Hpo Hhash HQ. apply wp_next. unfold toggle_apply, bag. wp_steps.
  rewrite (bag_at _ _ _ _ _ _ Hs), Hp, Hw, Hx. eapply toggle_edit_at; [exact Hs|exact Hr|exact Hst|exact Hpo|].
  intros fs1 s1 H1 Hst1. destruct Hr as [_ _ _ _ Hb Ho]. wp_steps. apply (remount_at s1 _ _ _ H1). intros s2 H2. wp_steps.
  eapply replace_staged_at; [exact H2|exact Hb|exact Ho|exact Hst1|]. intros fs3 s3 H3 Hf3 Hfr3. wp_steps.
  rewrite (bag_at _ _ _ _ _ _ H3), Hh. destruct Hhash as [Hhash|Hsame].
  - eapply wait_changed_at; [exact H3|exact Hb|exact Hf3|done|]. intros s4 H4. wp_steps. specialize (HQ fs3 s4 H4 Hf3 Hfr3).
    destruct (decide (toggled v enable ls = ls)) as [E|]; [by rewrite E in Hhash|done].
  - assert (Hf3' := Hf3). rewrite Hsame in Hf3. eapply wait_unchanged_at; [exact H3|exact Hb|exact Hf3|]. intros s4 H4. wp_steps.
    specialize (HQ fs3 s4 H4 Hf3' Hfr3). by destruct (decide (toggled v enable ls = ls)).
Qed.

Lemma toggle_verify_at s fs e w b l p ls v enable rest Q :
  at_ s (mk fs e) (w, b, None, l) -> svcPath b = p -> fs !! p = Some ls -> marked (var_name v) ls = enable ->
  (forall s1, at_ s1 (mk fs e) (w, b, None, l) -> wp s1 (in_order rest) Q) ->
  wp s (in_order (step (js "POST_VERIFY") (toggle_verify v enable) :: rest)) Q.
Proof.
  intros Hs Hp Hf Hm HQ. destruct (var_plain v) as [Hv _]. apply wp_next. unfold toggle_verify, bag. wp_steps.
  rewrite (bag_at _ _ _ _ _ _ Hs), Hp. eapply contains_at; [exact Hs|exact Hv|]. intros s1 H1. unfold has_line. rewrite Hf.
  cbn [pattern_re]. rewrite plain_mark, Hm by done. destruct enable; wp_steps; by apply HQ.
Qed.

Lemma toggle_at s fs e w b l u p ls pick v enable Q :
  at_ s (mk fs e) (w, b, None, l) -> ready u l p -> fs !! p = Some ls -> starts u e ->
  toggle_possible v enable ls -> hash_of (toggled v enable ls) <> hash_of ls \/ toggled v enable ls = ls ->
  (forall fs' e' sd s1, at_ s1 (mk fs' e') sd -> patched fs fs' p ls (toggled v enable ls) ->
    Q (if decide (toggled v enable ls = ls) then Throws else Ok tt) s1) ->
  wp s (ToggleTaskRunner pick v enable) Q.
Proof.
  intros Hs Hr Hf Hst Hpo Hh HQ.
  assert (Ho : outside p) by (by destruct Hr). assert (Hb : bare p) by (by destruct Hr).
  unfold ToggleTaskRunner. eapply (task_at _ _ _ _ _ _ _ _ (toggle_steps v enable)); [exact Hs|exact Hr|by repeat constructor|].
  intros s1 H1. apply wp_next. wp_step. eapply toggle_read_at; [exact H1|exact Hr|exact Hf|].
  intros ts fs3 s3 b3 H3 Hb1 Hb2 Hb3 Hb4 Hst3. apply wp_next. wp_step.
  eapply backup_step_at; [exact H3|exact Hb1|exact Hb|by destruct Hst3 as (_ & ? & _)|]. intros ts5 s5 bak H5.
  apply (staged_backup _ _ _ _ _ _ _ ts5 Ho) in Hst3. fold bak in Hst3.
  eapply toggle_apply_at; [exact H5|exact Hr|exact Hst3|done|done|done|done|exact Hpo|exact Hh|]. intros fs6 s6 H6 Hf6 Hfr6.
  destruct (decide (toggled v enable ls = ls)) as [Hsame|Hdiff].
  - apply (HQ fs6 e _ s6 H6). split; [done|]. exists ts5. fold bak. split.
    + rewrite Hfr6; [apply lookup_insert_eq|by apply outside_backup|by apply app_ne].
    + intros f Hfo Hfp Hfb. rewrite Hfr6 by done. by apply lookup_insert_ne.
  - eapply finish_at; [exact H6|exact Hr|exact Hst|]. intros e7 s7 _ H7.
    eapply toggle_verify_at; [exact H7|done|exact Hf6|by apply toggled_marked|]. intros s8 H8.
    eapply cleanup_step_at; [exact H8|]. intros s9 H9. eapply HQ; [exact H9|]. by eapply patched_end.
Qed.
End service_file.

(** ** Theorems *)

Section theorems.
Context {D : Type} {DV : Device D} {PG : Programs} {PL : ProgramsLaws PG} {DL : DeviceLaws D DV PG}.

(** Mounting ends without an error, and the service file then has the line for the app and
    the line for the modules after the start of its command, each unless its token was there
    already; the backup has the old content, the work directory is gone and no other file has
    changed. *)
Theorem mount_patches s fs e w b l u p ls pick modes :
  at_ s (mk fs e) (w, b, None, l) -> ready u l p -> fs !! p = Some ls -> starts u e ->
  existsb exec_start ls = true \/ missing ls = [] ->
  wp s (MountTaskRunner pick modes) (fun r s1 => r = Ok tt /\
    exists fs' e' b', at_ s1 (mk fs' e') (None, b', None, l) /\ patched fs fs' p ls (mounted ls)).
Proof. intros Hs Hr Hf Hst He. eapply mount_at; [done..|]. intros fs1 fs' e' b' s1 H1 Hp _. split; [done|]. eauto. Qed.

(** A service file without a command cannot be patched: mounting throws, and the file is as it
    was, with a backup of the same content beside it. *)
Theorem mount_without_command s fs e w b l u p ls pick modes :
  at_ s (mk fs e) (w, b, None, l) -> ready u l p -> fs !! p = Some ls -> ls <> [] ->
  existsb exec_start ls = false -> missing ls <> [] ->
  wp s (MountTaskRunner pick modes) (fun r s1 => r = Throws /\
    exists fs' sd, at_ s1 (mk fs' e) sd /\ patched fs fs' p ls ls).
Proof. intros Hs Hr Hf Hne He Hm. eapply mount_fails_at; [done..|]. intros fs' sd s1 H1 Hp. split; [done|]. eauto. Qed.

(** Unmounting ends without an error: the lines with the tokens are gone from the service
    file, and when the service is started again no container of its name is there and the
    volumes are removed. *)
Theorem unmount_restores s fs e w b l u p ls pats pick :
  at_ s (mk fs e) (w, b, None, l) -> ready u l p -> fs !! p = Some ls ->
  pats <> [] -> Forall (fun x => bare x /\ plain x) pats ->
  let e1 := without_volumes pats (without_containers (js "homey") e) in
  Forall (fun v => volume_used (m_containers e1) v = false) pats -> Forall word (m_volumes e) -> starts u e1 ->
  wp s (UnmountTaskRunner pick pats) (fun r s1 => r = Ok tt /\
    exists fs1 fs' e' b', at_ s1 (mk fs' e') (None, b', None, l) /\ patched fs fs' p ls (sed_delete pats ls) /\
      restarted u (mk fs1 e1) = (m_containers e', m_volumes e', m_unit e')).
Proof.
  intros Hs Hr Hf Hne Hpl e1 Hu Hw Hst. eapply unmount_at; [done..|]. intros fs1 fs' e' b' s1 H1 Hp Hre.
  split; [done|]. by exists fs1, fs', e', b'.
Qed.

Lemma sed_delete_none_marked pats ls : Forall (fun l => has_pattern pats l = false) ls -> sed_delete pats ls = ls.
Proof. unfold sed_delete. induction 1 as [|l ls Hl _ IH]; [done|]. by rewrite filter_cons_True, IH. Qed.

Lemma delete_bind pats ls (f : str -> list str) :
  Forall (fun l => has_pattern pats l = false) ls ->
  (forall l, exists t, f l = l :: t /\ Forall (fun x => has_pattern pats x = true) t) ->
  sed_delete pats (ls ≫= f) = ls.
Proof.
  intros H Hf. unfold sed_delete. induction H as [|l ls Hl _ IH]; [done|]. rewrite bind_cons.
  destruct (Hf l) as (t & -> & Ht). cbn [app]. rewrite filter_cons_True, filter_app, IH by done. f_equal.
  replace (filter _ t) with (@nil str); [done|]. clear -Ht. induction Ht as [|x t Hx _ IH]; [done|].
  rewrite filter_cons_False; [done|]. by rewrite Hx.
Qed.

Lemma bind_bind_exec (f g : str -> list str) ls :
  (ls ≫= f) ≫= g = ls ≫= fun l => f l ≫= g.
Proof. induction ls as [|l ls IH]; [done|]. by rewrite !bind_cons, bind_app, IH. Qed.

(** Both lines go when both tokens are deleted. *)
Lemma unmount_mounted ls :
  Forall tidy ls -> Forall (fun l => has_pattern DEFAULT_PATTERNS l = false) ls ->
  sed_delete DEFAULT_PATTERNS (mounted ls) = ls.
Proof.
  intros Ht Hn. assert (Ha : marked homey_app ls = false /\ marked homey_node ls = false).
  { unfold marked. split; apply not_true_iff_false; intros (x & Hx & Hp)%existsb_exists; apply list_elem_of_In in Hx;
      rewrite Forall_forall in Hn; apply Hn in Hx; unfold has_pattern, DEFAULT_PATTERNS in *; cbn [existsb] in *;
      rewrite orb_false_r in *; apply orb_false_iff in Hx as [? ?]; congruence. }
  destruct Ha as [Ha Hb]. unfold mounted. rewrite Ha, Hb. clear Ha Hb.
  assert (Ht2 : Forall tidy (insert_line app_line ls)).
  { rewrite insert_line_tidy by done. clear Hn. induction Ht as [|l ls Hl _ IH]; [constructor|]. rewrite bind_cons.
    apply Forall_app. split; [|done]. assert (Hp : tidy (appended app_line)) by (split; by vm_compute).
    destruct (exec_start l); repeat apply Forall_cons_2; done || apply Forall_nil_2. }
  rewrite (insert_line_tidy node_line), (insert_line_tidy app_line) by done. rewrite bind_bind_exec.
  apply delete_bind; [done|]. intros l. destruct (exec_start l) eqn:E.
  - exists [appended node_line; appended app_line]. split; [|by repeat constructor].
    rewrite !bind_cons, E. by vm_compute.
  - exists []. rewrite bind_cons, E. split; [done|constructor].
Qed.

(** The device starts the service whatever else runs on it, its volumes have names without
    blanks, and only containers of the service use the two volumes. *)
Record serves (u : str) : Prop := MkServes {
  serves_starts : forall e, starts u e;
  serves_volumes : forall m, Forall word (restarted u m).1.2;
  serves_unused : forall cs v, v ∈ DEFAULT_PATTERNS -> Forall (fun c => like (js "homey") c = false) cs -> volume_used cs v = false;
}.

Lemma others_left e : Forall (fun c => like (js "homey") c = false) (m_containers (without_containers (js "homey") e)).
Proof.
  cbn [without_containers m_containers]. induction (m_containers e) as [|c cs IH]; [constructor|]. cbn [List.filter].
  destruct (like (js "homey") c) eqn:E; cbn [negb]; [done|]. by constructor.
Qed.

Lemma default_patterns_ok : Forall (fun x => bare x /\ plain x) DEFAULT_PATTERNS.
Proof. repeat (apply Forall_cons; split; [split; (split; [done|by repeat constructor])|]). by apply Forall_nil. Qed.


(** Toggling a variable sets it, unless it was set like this already: then the file keeps its
    content and the task throws. *)
Theorem toggle_outcome s fs e w b l u p ls pick v enable :
  at_ s (mk fs e) (w, b, None, l) -> ready u l p -> fs !! p = Some ls -> starts u e ->
  toggle_possible v enable ls -> hash_of (toggled v enable ls) <> hash_of ls \/ toggled v enable ls = ls ->
  wp s (ToggleTaskRunner pick v enable) (fun r s1 =>
    r = (if decide (toggled v enable ls = ls) then Throws else Ok tt) /\
    exists fs' e' sd, at_ s1 (mk fs' e') sd /\ patched fs fs' p ls (toggled v enable ls) /\
      marked (var_name v) (toggled v enable ls) = enable).
Proof.
  intros Hs Hr Hf Hst Hpo Hh. eapply toggle_at; [done..|]. intros fs' e' sd s1 H1 Hp. split; [done|].
  exists fs', e', sd. split_and!; [done|done|]. by apply toggled_marked.
Qed.

(** The restart task ends without an error when the service comes up, with the files as they
    were. *)
Theorem restart_outcome s fs e w b l u p pick :
  at_ s (mk fs e) (w, b, None, l) -> ready u l p -> starts u e ->
  wp s (RestartTaskRunner pick) (fun r s1 => r = Ok tt /\
    exists e', at_ s1 (mk fs e') (None, empty_bag, None, l) /\ restarted u (mk fs e) = (m_containers e', m_volumes e', m_unit e')).
Proof.
  intros Hs Hr Hst. unfold RestartTaskRunner. eapply (task_at _ _ _ _ _ _ _ _ restart_steps); [exact Hs|exact Hr|by repeat constructor|].
  intros s1 H1. apply wp_next. wp_step. apply wp_next_retry.
  assert (Hu : bare u) by (by destruct Hr as [_ [? _] _ _ _ _]).
  apply (restart_at s1 fs e (None, empty_bag, None, l)); [done|done|done|lia|]. intros s2.
  destruct (restarted u (mk fs e)) as [[cs vs] us]. intros H2. split; [done|].
  apply wp_next. wp_step. apply wp_done. split; [done|]. by exists (MkMachine fs cs vs us).
Qed.

Lemma mount_state_at s m sd Q :
  at_ s m sd -> Forall word (m_volumes m) ->
  (forall s1, at_ s1 m sd -> Q (Ok (if decide (homey_app ∈ m_volumes m \/ homey_node ∈ m_volumes m) then Mounted else Unmounted)) s1) ->
  wp s (getMountState true) Q.
Proof.
  intros Hs Hw HQ. unfold getMountState. wp_steps. apply (run_at s _ _ _ _ Hs); [done|]. intros s1 H1. cbn [effect answer snd] in *.
  wp_steps. rewrite listed_lines by done. specialize (HQ s1 H1). cbn [existsb].
  destruct (decide (_ \/ _)) as [[H|H]|H].
  - by rewrite (bool_decide_true (homey_app ∈ _)).
  - by rewrite (bool_decide_true (homey_node ∈ _)), orb_true_r.
  - rewrite !bool_decide_false by tauto. done.
Qed.

(** The state that is shown for the mounts is that of the two volumes: mounted when one of
    them exists. *)
Theorem mount_state_exact s m sd :
  at_ s m sd -> Forall word (m_volumes m) ->
  wp s (getMountState true) (fun r s1 =>
    r = Ok (if decide (homey_app ∈ m_volumes m \/ homey_node ∈ m_volumes m) then Mounted else Unmounted) /\ at_ s1 m sd).
Proof. intros Hs Hw. by apply (mount_state_at s m sd). Qed.

(** C11: The button of the volumes: when none of the two volumes exists it mounts, otherwise it
    unmounts, and it never throws. *)
Theorem volume_toggle s fs e w b l u p ls pick :
  at_ s (mk fs e) (w, b, None, l) -> ready u l p -> fs !! p = Some ls -> Forall word (m_volumes e) ->
  existsb exec_start ls = true \/ missing ls = [] ->
  let e1 := without_volumes DEFAULT_PATTERNS (without_containers (js "homey") e) in
  starts u e -> starts u e1 -> Forall (fun v => volume_used (m_containers e1) v = false) DEFAULT_PATTERNS ->
  let is_mounted := homey_app ∈ m_volumes e \/ homey_node ∈ m_volumes e in
  wp s (homeyVolumeToggle true true pick) (fun r s1 => r = Ok tt /\
    exists fs' e' b', at_ s1 (mk fs' e') (None, b', None, l) /\
      patched fs fs' p ls (if decide is_mounted then sed_delete DEFAULT_PATTERNS ls else mounted ls)).
Proof.
  intros Hs Hr Hf Hw He e1 Hst Hst1 Hu is_mounted. unfold homeyVolumeToggle. wp_step. wp_step.
  eapply (mount_state_at s (mk fs e)); [exact Hs|exact Hw|]. intros s1 H1.
  cbn [m_volumes mk]. fold is_mounted. cbv beta iota. destruct (decide is_mounted).
  - unfold controller_unmount, ensureConnected. wp_steps.
    eapply unmount_at; [exact H1|exact Hr|exact Hf|done|apply default_patterns_ok|exact Hu|exact Hw|exact Hst1|].
    intros fs1 fs' e' b' s2 H2 Hp _. split; [done|]. eauto.
  - unfold controller_mount, ensureConnected. wp_steps. eapply mount_at; [exact H1|exact Hr|exact Hf|exact Hst|exact He|].
    intros fs1 fs' e' b' s2 H2 Hp _. split; [done|]. eauto.
Qed.
End theorems.

(** ** A device *)

Module Demo.
Import Sim.

Definition demo_unit : str := js "homey-pro@edge.service".
Definition demo_path : str := js "/lib/systemd/system/homey-pro@.service".

Definition demo_machine (ls : list str) : Machine :=
  MkMachine {[ demo_path := ls ]} [js "homey-pro"; js "mosquitto"] [js "homey-app"; js "data"]
    (fun _ => (js "inactive", js "dead", js "0")).

Definition demo_host (ls : list str) : Host (Machine * Z) :=
  MkHost (demo_machine ls, 1000) None empty_bag None empty_cfg.

Definition no_pick (l : list str) : option str := None.

Lemma demo_at ls : at_ (demo_host ls) (mk {[ demo_path := ls ]} (demo_machine ls)) (None, empty_bag, None, empty_cfg).
Proof. by split_and!. Qed.

Lemma demo_bare_path : bare demo_path.
Proof. split; [done|]. by apply js_bare. Qed.

Lemma demo_bare_unit : bare demo_unit.
Proof. split; [done|]. by apply js_bare. Qed.

Lemma demo_ready : ready demo_unit empty_cfg demo_path.
Proof.
  split.
  - by exists [].
  - split_and!; [apply demo_bare_unit|by vm_compute|by repeat constructor].
  - by repeat constructor.
  - by vm_compute.
  - apply demo_bare_path.
  - by vm_compute.
Qed.

Lemma demo_starts e : starts demo_unit e.
Proof. intros fs. by vm_compute. Qed.

Lemma demo_file ls : ({[ demo_path := ls ]} : gmap str (list str)) !! demo_path = Some ls.
Proof. apply lookup_singleton_eq. Qed.

(** The sim keeps the names of the volumes it has, and they are words. *)
Lemma demo_words ls : Forall word (m_volumes (demo_machine ls)).
Proof. repeat (apply Forall_cons; split; [split; [done|by repeat constructor]|]). by apply Forall_nil. Qed.

Lemma demo_serves : serves demo_unit.
Proof.
  split; [apply demo_starts| |done].
  intros m. cbn [restarted sim_programs fst snd]. apply Forall_forall. intros v Hv. apply list_elem_of_In, filter_In in Hv as [_ Hv].
  unfold sim_word in Hv. apply andb_true_iff in Hv as [H1 H2]. split; [by destruct v|]. apply Forall_forall. intros c Hc.
  rewrite forallb_forall in H2. apply list_elem_of_In, H2 in Hc. by destruct (is_ws c).
Qed.
End Demo.
Import Sim.


Lemma mount_patches_witness :
  wp (Demo.demo_host sample_unit) (MountTaskRunner Demo.no_pick [ModePro]) (fun r s1 => r = Ok tt /\
    exists fs' e' b', at_ s1 (mk fs' e') (None, b', None, empty_cfg) /\
      patched {[ Demo.demo_path := sample_unit ]} fs' Demo.demo_path sample_unit (mounted sample_unit)).
Proof.
  apply (mount_patches (Demo.demo_host sample_unit) _ _ _ _ empty_cfg Demo.demo_unit Demo.demo_path sample_unit Demo.no_pick [ModePro]
    (Demo.demo_at sample_unit) Demo.demo_ready (Demo.demo_file sample_unit) (Demo.demo_starts _)).
  left. by vm_compute.
Defined.

Lemma mount_without_command_witness :
  wp (Demo.demo_host [js "[Service]"]) (MountTaskRunner Demo.no_pick [ModePro]) (fun r s1 => r = Throws /\
    exists fs' sd, at_ s1 (mk fs' (Demo.demo_machine [js "[Service]"])) sd /\
      patched {[ Demo.demo_path := [js "[Service]"] ]} fs' Demo.demo_path [js "[Service]"] [js "[Service]"]).
Proof.
  apply (mount_without_command (Demo.demo_host [js "[Service]"]) _ _ _ _ empty_cfg Demo.demo_unit Demo.demo_path _ Demo.no_pick [ModePro]
    (Demo.demo_at _) Demo.demo_ready (Demo.demo_file _)); by vm_compute.
Defined.

Lemma unmount_restores_witness :
  wp (Demo.demo_host (mounted sample_unit)) (UnmountTaskRunner Demo.no_pick DEFAULT_PATTERNS) (fun r s1 => r = Ok tt /\
    exists fs1 fs' e' b', at_ s1 (mk fs' e') (None, b', None, empty_cfg) /\
      patched {[ Demo.demo_path := mounted sample_unit ]} fs' Demo.demo_path (mounted sample_unit)
        (sed_delete DEFAULT_PATTERNS (mounted sample_unit)) /\
      restarted Demo.demo_unit (mk fs1 (without_volumes DEFAULT_PATTERNS
        (without_containers (js "homey") (Demo.demo_machine (mounted sample_unit))))) = (m_containers e', m_volumes e', m_unit e')).
Proof.
  apply (unmount_restores (Demo.demo_host (mounted sample_unit)) _ _ _ _ empty_cfg Demo.demo_unit Demo.demo_path _ DEFAULT_PATTERNS
    Demo.no_pick (Demo.demo_at _) Demo.demo_ready (Demo.demo_file _)).
  - done.
  - apply default_patterns_ok.
  - by repeat constructor.
  - apply Demo.demo_words.
  - apply Demo.demo_starts.
Defined.

Lemma toggle_outcome_witness :
  wp (Demo.demo_host sample_unit) (ToggleTaskRunner Demo.no_pick HOMEY_APP_LOG true) (fun r s1 =>
    r = (if decide (toggled HOMEY_APP_LOG true sample_unit = sample_unit) then Throws else Ok tt) /\
    exists fs' e' sd, at_ s1 (mk fs' e') sd /\
      patched {[ Demo.demo_path := sample_unit ]} fs' Demo.demo_path sample_unit (toggled HOMEY_APP_LOG true sample_unit) /\
      marked (var_name HOMEY_APP_LOG) (toggled HOMEY_APP_LOG true sample_unit) = true).
Proof.
  apply (toggle_outcome (Demo.demo_host sample_unit) _ _ _ _ empty_cfg Demo.demo_unit Demo.demo_path _ Demo.no_pick HOMEY_APP_LOG true
    (Demo.demo_at _) Demo.demo_ready (Demo.demo_file _) (Demo.demo_starts _)).
  - intros _ _. by vm_compute.
  - left. by vm_compute.
Defined.

Lemma volume_toggle_witness :
  wp (Demo.demo_host sample_unit) (homeyVolumeToggle true true Demo.no_pick) (fun r s1 => r = Ok tt /\
    exists fs' e' b', at_ s1 (mk fs' e') (None, b', None, empty_cfg) /\
      patched {[ Demo.demo_path := sample_unit ]} fs' Demo.demo_path sample_unit
        (if decide (homey_app ∈ m_volumes (Demo.demo_machine sample_unit) \/ homey_node ∈ m_volumes (Demo.demo_machine sample_unit))
         then sed_delete DEFAULT_PATTERNS sample_unit else mounted sample_unit)).
Proof.
  apply (volume_toggle (Demo.demo_host sample_unit) _ _ _ _ empty_cfg Demo.demo_unit Demo.demo_path _ Demo.no_pick
    (Demo.demo_at _) Demo.demo_ready (Demo.demo_file _)).
  - apply Demo.demo_words.
  - left. by vm_compute.
  - apply Demo.demo_starts.
  - apply Demo.demo_starts.
  - by repeat constructor.
Defined.
