(* ===== verification/Connection.v ===== *)
(** * Connections

    src/core/connection: running a local command with a timeout and an abort signal
    (ExecRunner.ts, as a state machine over the events of the child process), splitting the
    output of a stream into lines (adbClient.ts, sshClient.ts), and the manager that sends
    commands over the active connection (ConnectionManager.ts).  src/core/config/
    connection-config.ts: the list of known connections.  The adb and ssh clients and the
    child process are parameters. *)

From stdpp Require Import base list sorting strings.
From Stdlib Require Import ZArith Lia.
From S2P Require Import Prelude JsString Regex Shell.

(** ** ExecRunner *)

Module ExecRunner.

Inductive kill_signal := SigTerm | SigKill.       (* taskkill /T /F on Windows *)

Inductive exec_outcome :=
  | Resolved (code : option Z) (stdout stderr : str)
  | Rejected.

(** The variables of [runCommandLine]; a timer that was replaced by a newer one still runs
    ([strayGraces]). *)
Record exec := MkExec {
  finished : bool;
  stdoutBuf : str;
  stderrBuf : str;
  timeoutTimer : bool;
  termGraceTimer : bool;
  strayGraces : nat;
  listening : bool;
  signals : list kill_signal;
  outcome : option exec_outcome;
}.

Record ExecOptions := MkExecOptions { timeoutMs : option Z; signal : bool }.

Definition start (o : ExecOptions) : exec :=
  MkExec false [] [] (match timeoutMs o with Some t => 0 <? t | None => false end) false 0 (signal o) [] None.

Inductive exec_event :=
  | OnStdout (b : list Z)
  | OnStderr (b : list Z)
  | OnError
  | OnClose (code : option Z)
  | OnTimeout
  | OnGrace
  | OnStrayGrace
  | OnAbort.

(** The first outcome settles the promise. *)
Definition settled (s : exec) (o : exec_outcome) : option exec_outcome :=
  match outcome s with Some o' => Some o' | None => Some o end.

Definition cleanup (s : exec) : exec :=
  MkExec (finished s) (stdoutBuf s) (stderrBuf s) false false (strayGraces s) false (signals s) (outcome s).

Definition settle (code : option Z) (s : exec) : exec :=
  if finished s then s
  else
    let s1 := cleanup (MkExec true (stdoutBuf s) (stderrBuf s) (timeoutTimer s) (termGraceTimer s) (strayGraces s)
                         (listening s) (signals s) (outcome s)) in
    MkExec (finished s1) (stdoutBuf s1) (stderrBuf s1) (timeoutTimer s1) (termGraceTimer s1) (strayGraces s1)
      (listening s1) (signals s1) (settled s1 (Resolved code (stdoutBuf s1) (stderrBuf s1))).

Definition send (x : kill_signal) (s : exec) : exec :=
  MkExec (finished s) (stdoutBuf s) (stderrBuf s) (timeoutTimer s) (termGraceTimer s) (strayGraces s) (listening s)
    (signals s ++ [x]) (outcome s).

Definition terminateWithFallback (s : exec) : exec :=
  if finished s then s
  else
    let s1 := send SigTerm s in
    MkExec (finished s1) (stdoutBuf s1) (stderrBuf s1) (timeoutTimer s1) true
      (strayGraces s1 + (if termGraceTimer s1 then 1 else 0)) (listening s1) (signals s1) (outcome s1).

(** The callback of a grace timer *)
Definition force (s : exec) : exec := if finished s then s else send SigKill s.

(** The event of a timer or a listener that is not there does nothing. *)
Definition step (e : exec_event) (s : exec) : exec :=
  match e with
  | OnStdout b =>
      MkExec (finished s) (stdoutBuf s ++ utf8_decode b) (stderrBuf s) (timeoutTimer s) (termGraceTimer s)
        (strayGraces s) (listening s) (signals s) (outcome s)
  | OnStderr b =>
      MkExec (finished s) (stdoutBuf s) (stderrBuf s ++ utf8_decode b) (timeoutTimer s) (termGraceTimer s)
        (strayGraces s) (listening s) (signals s) (outcome s)
  | OnError =>
      if finished s then s
      else
        let s1 := cleanup s in
        MkExec (finished s1) (stdoutBuf s1) (stderrBuf s1) (timeoutTimer s1) (termGraceTimer s1) (strayGraces s1)
          (listening s1) (signals s1) (settled s1 Rejected)
  | OnClose code => settle code s
  | OnTimeout =>
      if timeoutTimer s then
        terminateWithFallback (MkExec (finished s) (stdoutBuf s) (stderrBuf s) false (termGraceTimer s) (strayGraces s)
                                 (listening s) (signals s) (outcome s))
      else s
  | OnGrace =>
      if termGraceTimer s then
        force (MkExec (finished s) (stdoutBuf s) (stderrBuf s) (timeoutTimer s) false (strayGraces s)
                 (listening s) (signals s) (outcome s))
      else s
  | OnStrayGrace =>
      match strayGraces s with
      | O => s
      | S k => force (MkExec (finished s) (stdoutBuf s) (stderrBuf s) (timeoutTimer s) (termGraceTimer s) k
                        (listening s) (signals s) (outcome s))
      end
  | OnAbort => if listening s then terminateWithFallback s else s
  end.

Definition steps (es : list exec_event) (s : exec) : exec := fold_left (fun s e => step e s) es s.

(** ** Theorems *)

Definition is_kill (x : kill_signal) : bool := match x with SigKill => true | SigTerm => false end.

(** The forced ends so far, with those that wait, are not more than the polite requests; and
    a finished command is settled. *)
Definition exec_inv (s : exec) : Prop :=
  (length (List.filter is_kill (signals s)) + strayGraces s + (if termGraceTimer s then 1 else 0)
    <= length (List.filter (fun x => negb (is_kill x)) (signals s)))%nat /\
  (finished s = true -> outcome s <> None).

Lemma inv_send_term s : exec_inv s -> exec_inv (terminateWithFallback s).
Proof.
  intros Hi. unfold terminateWithFallback. destruct (finished s) eqn:E; [exact Hi|]. destruct Hi as [H1 H2]. unfold exec_inv. cbn.
  rewrite !List.filter_app, !length_app. cbn. split; [destruct (termGraceTimer s); lia|by rewrite E].
Qed.

Lemma inv_step e s : exec_inv s -> exec_inv (step e s).
Proof.
  intros Hi. destruct e; cbn [step]; try done.
  - destruct (finished s) eqn:E; [done|]. destruct Hi as [H1 H2]. unfold exec_inv. cbn.
    split; [destruct (termGraceTimer s); lia|]. by rewrite E.
  - unfold settle. destruct (finished s) eqn:E; [done|]. destruct Hi as [H1 H2]. unfold exec_inv, settled. cbn.
    split; [destruct (termGraceTimer s); lia|]. by destruct (outcome s).
  - destruct (timeoutTimer s); [|done]. by apply inv_send_term.
  - destruct (termGraceTimer s) eqn:Eg; [|done]. destruct Hi as [H1 H2]. rewrite Eg in H1. unfold force, exec_inv. cbn.
    destruct (finished s) eqn:E; cbn; rewrite ?E, ?List.filter_app, ?length_app; cbn; split; (lia || done || tauto || by rewrite E).
  - destruct (strayGraces s) eqn:Eg; [done|]. destruct Hi as [H1 H2]. rewrite Eg in H1. unfold force, exec_inv. cbn.
    destruct (finished s) eqn:E; cbn; rewrite ?E, ?List.filter_app, ?length_app; cbn; split; (lia || done || tauto || by rewrite E).
  - destruct (listening s); [|done]. by apply inv_send_term.
Qed.

Lemma inv_steps es s : exec_inv s -> exec_inv (steps es s).
Proof. revert s. induction es as [|e es IH]; intros s Hs; [done|]. apply IH. by apply inv_step. Qed.

Lemma step_signals e s : exists l, signals (step e s) = signals s ++ l.
Proof.
  destruct e; cbn [step]; unfold settle, terminateWithFallback, force;
    repeat (match goal with |- context [if ?b then _ else _] => destruct b | |- context [match ?n with O => _ | S _ => _ end] => destruct n end);
    cbn; eauto; by exists []; rewrite app_nil_r.
Qed.

Lemma steps_signals es s : exists l, signals (steps es s) = signals s ++ l.
Proof.
  revert s. induction es as [|e es IH]; intros s; [by exists []; rewrite app_nil_r|]. cbn [steps fold_left].
  destruct (IH (step e s)) as (l & E). destruct (step_signals e s) as (l' & E'). exists (l' ++ l). unfold steps in E.
  by rewrite E, E', app_assoc.
Qed.

(** Nothing is sent to the child after the command has ended, and its result stays. *)
Lemma finished_step e s : finished s = true ->
  finished (step e s) = true /\ signals (step e s) = signals s /\ (outcome s <> None -> outcome (step e s) = outcome s).
Proof.
  intros Hf. destruct e; cbn [step]; unfold settle, terminateWithFallback, force; rewrite ?Hf; cbn; try done.
  - by destruct (timeoutTimer s); cbn; rewrite ?Hf.
  - by destruct (termGraceTimer s); cbn; rewrite ?Hf.
  - by destruct (strayGraces s); cbn; rewrite ?Hf.
  - by destruct (listening s).
Qed.

Lemma finished_steps es s : finished s = true -> outcome s <> None ->
  signals (steps es s) = signals s /\ outcome (steps es s) = outcome s.
Proof.
  revert s. induction es as [|e es IH]; intros s Hf Ho; [done|]. destruct (finished_step e s Hf) as (H1 & H2 & H3).
  specialize (H3 Ho). cbn [steps fold_left]. destruct (IH (step e s) H1) as [H4 H5]; [by rewrite H3|].
  unfold steps in *. by rewrite H4, H5, H2, H3.
Qed.

(** The decoded output of the events *)
Definition out_text (es : list exec_event) : str := es ≫= fun e => match e with OnStdout b => utf8_decode b | _ => [] end.
Definition err_text (es : list exec_event) : str := es ≫= fun e => match e with OnStderr b => utf8_decode b | _ => [] end.

Definition no_end (es : list exec_event) : Prop := Forall (fun e => match e with OnError | OnClose _ => False | _ => True end) es.

Lemma running_steps es s : no_end es -> finished s = false -> outcome s = None ->
  finished (steps es s) = false /\ outcome (steps es s) = None /\
  stdoutBuf (steps es s) = stdoutBuf s ++ out_text es /\ stderrBuf (steps es s) = stderrBuf s ++ err_text es.
Proof.
  intros Hn. revert s. induction Hn as [|e es He _ IH]; intros s Hf Ho.
  - cbn. by rewrite !app_nil_r.
  - assert (H : finished (step e s) = false /\ outcome (step e s) = None /\
      stdoutBuf (step e s) = stdoutBuf s ++ out_text [e] /\ stderrBuf (step e s) = stderrBuf s ++ err_text [e]).
    { destruct e; try done; cbn [step]; unfold terminateWithFallback, force, out_text, err_text; cbn; rewrite ?Hf, ?app_nil_r; try done.
      - destruct (timeoutTimer s); cbn; rewrite ?Hf; done.
      - destruct (termGraceTimer s); cbn; rewrite ?Hf; done.
      - destruct (strayGraces s); cbn; rewrite ?Hf; done.
      - destruct (listening s); cbn; rewrite ?Hf; done. }
    destruct H as (H1 & H2 & H3 & H4). destruct (IH (step e s) H1 H2) as (H5 & H6 & H7 & H8).
    cbn [steps fold_left]. unfold steps in *. split_and!; [done|done| |].
    + rewrite H7, H3. unfold out_text. rewrite !bind_cons, <- app_assoc. by rewrite app_nil_r.
    + rewrite H8, H4. unfold err_text. rewrite !bind_cons, <- app_assoc. by rewrite app_nil_r.
Qed.

(** C31: A command whose process closes gives the exit code and all of its output, whatever timers
    and aborts come before, and keeps that result whatever comes after; once it has ended the
    process gets no signal any more, and every forced end was preceded by a polite one. *)
Theorem exec_result o es code later :
  no_end es ->
  let s := steps (es ++ OnClose code :: later) (start o) in
  outcome s = Some (Resolved code (out_text es) (err_text es)) /\
  signals s = signals (steps es (start o)) /\
  (length (List.filter is_kill (signals s)) <= length (List.filter (fun x => negb (is_kill x)) (signals s)))%nat.
Proof.
  intros Hn. cbv zeta. set (s0 := steps es (start o)).
  destruct (running_steps es (start o) Hn eq_refl eq_refl) as (H1 & H2 & H3 & H4). fold s0 in H1, H2, H3, H4.
  assert (E : steps (es ++ OnClose code :: later) (start o) = steps later (settle code s0))
    by (unfold steps, s0; by rewrite fold_left_app).
  rewrite E. assert (Hs : finished (settle code s0) = true /\ signals (settle code s0) = signals s0 /\
    outcome (settle code s0) = Some (Resolved code (out_text es) (err_text es))).
  { unfold settle. rewrite H1. cbn. unfold settled. cbn. by rewrite H2, H3, H4. }
  destruct Hs as (Hs1 & Hs2 & Hs3). destruct (finished_steps later (settle code s0) Hs1) as [Hl1 Hl2]; [by rewrite Hs3|].
  rewrite Hl1, Hl2, Hs2, Hs3. split_and!; [done|done|].
  assert (Hi : exec_inv s0) by (apply inv_steps; split; [cbn; lia|done]). destruct Hi as [Hi _]. lia.
Qed.

Lemma exec_result_witness :
  outcome (steps ([OnStdout [104; 105]; OnTimeout; OnAbort; OnGrace] ++ OnClose None :: [OnStrayGrace])
    (start (MkExecOptions (Some 10) true))) = Some (Resolved None [104; 105] []).
Proof.
  apply (exec_result (MkExecOptions (Some 10) true) [OnStdout [104; 105]; OnTimeout; OnAbort; OnGrace] None [OnStrayGrace]).
  by repeat constructor.
Defined.
End ExecRunner.

(** ** Streams *)

(** The [data] handler of [adbStream] and [sshStream]: the lines it gives, and the rest *)
Definition on_data (residual : str) (b : list Z) : list str * str :=
  let parts := split_crlf (residual ++ utf8_decode b) in
  (removelast parts, List.last parts []).

(** All the chunks of a stream *)
Fixpoint stream_lines (residual : str) (chunks : list (list Z)) : list str * str :=
  match chunks with
  | [] => ([], residual)
  | b :: rest =>
      let '(lines, r) := on_data residual b in
      let '(more, r') := stream_lines r rest in
      (lines ++ more, r')
  end.

(** What [onLine] gets until the stream ends: adb gives the last line, ssh does not. *)
Definition adbStream (chunks : list (list Z)) : list str :=
  let '(lines, r) := stream_lines [] chunks in
  lines ++ (if nonempty r then [r] else []).

Definition sshStream (chunks : list (list Z)) : list str := (stream_lines [] chunks).1.

Lemma split_crlf_single t w : split_crlf t = [w] -> w = t.
Proof.
  revert w. induction t as [|d t IH]; intros w H; cbn [split_crlf] in H; [by simplify_eq|].
  assert (Hc : match split_crlf t with [] => [[d]] | w0 :: ws => (d :: w0) :: ws end = [w] -> w = d :: t).
  { destruct (split_crlf t) as [|w0 [|w1 ws]] eqn:E; [by apply split_crlf_not_nil in E| |done].
    intros [= <-]. f_equal. by apply IH. }
  destruct (d =? 10).
  { destruct (split_crlf t) eqn:E; [by apply split_crlf_not_nil in E|done]. }
  destruct (d =? 13); [|by apply Hc]. destruct t as [|e t]; [by apply Hc|]. destruct (Z.eqb_spec e 10) as [->|]; [|by apply Hc].
  exfalso. cbn [split_crlf] in H. change (10 =? 10) with true in H. cbn iota in H.
  destruct (split_crlf t) eqn:E; [by apply split_crlf_not_nil in E|done].
Qed.

(** Splitting can go on where it stopped. *)
Lemma split_crlf_app s c ls r :
  split_crlf s = ls ++ [r] -> split_crlf (s ++ c) = ls ++ split_crlf (r ++ c).
Proof.
  revert ls r. induction s as [|d t IH]; intros ls r H.
  - destruct ls as [|x ls]; cbn in H; [by simplify_eq|]. simplify_eq. by destruct ls.
  - destruct ls as [|x ls]; [cbn [app] in H; apply split_crlf_single in H; by subst r|].
    assert (Hc : match split_crlf t with [] => [[d]] | w0 :: ws => (d :: w0) :: ws end = (x :: ls) ++ [r] ->
      match split_crlf (t ++ c) with [] => [[d]] | w0 :: ws => (d :: w0) :: ws end = (x :: ls) ++ split_crlf (r ++ c)).
    { destruct (split_crlf t) as [|w0 ws] eqn:E; [by apply split_crlf_not_nil in E|]. intros [= <- ->].
      by rewrite (IH (w0 :: ls) r). }
    cbn [split_crlf app] in *. destruct (d =? 10); [injection H as <- H; by rewrite (IH ls r)|].
    destruct (d =? 13); [|by apply Hc]. destruct t as [|e t]; [|cbn [app] in *; destruct (e =? 10); [by apply (IH (x :: ls) r)|by apply Hc]].
    injection H as <- H. by destruct ls.
Qed.

Lemma removelast_snoc_last (l : list str) : l <> [] -> l = removelast l ++ [List.last l []].
Proof. apply app_removelast_last. Qed.

Lemma stream_lines_split residual chunks lines r :
  stream_lines residual chunks = (lines, r) ->
  split_crlf (residual ++ (chunks ≫= utf8_decode)) = lines ++ split_crlf r.
Proof.
  revert residual lines r. induction chunks as [|b chunks IH]; intros residual lines r; cbn [stream_lines].
  - intros [= <- <-]. by rewrite app_nil_r.
  - unfold on_data. destruct (stream_lines _ chunks) as [more r'] eqn:E. intros [= <- <-].
    apply IH in E. rewrite bind_cons, app_assoc.
    rewrite (split_crlf_app _ _ _ _ (removelast_snoc_last _ (split_crlf_not_nil _))). by rewrite E, app_assoc.
Qed.

Lemma stream_rest_single residual chunks lines r :
  split_crlf residual = [residual] -> stream_lines residual chunks = (lines, r) -> split_crlf r = [r].
Proof.
  revert residual lines r. induction chunks as [|b chunks IH]; intros residual lines r Hr; cbn [stream_lines].
  - by intros [= <- <-].
  - unfold on_data. destruct (stream_lines _ chunks) as [more r'] eqn:E. intros [= <- <-].
    eapply IH; [|exact E]. clear. set (s := residual ++ utf8_decode b). clearbody s. clear.
    assert (H := removelast_snoc_last _ (split_crlf_not_nil s)).
    assert (H2 := split_crlf_app s [] _ _ H). rewrite !app_nil_r in H2. rewrite H in H2 at 1. apply app_inv_head in H2. done.
Qed.

(** However a stream is cut into chunks, its lines are those of the whole text: the last line
    too when adb reads it, whereas ssh drops a last line that has no line end.  The text is the
    decoded chunks; a character that straddles two chunks is not decoded. *)
Theorem stream_exact chunks :
  let parts := split_crlf (chunks ≫= utf8_decode) in
  sshStream chunks = removelast parts /\
  adbStream chunks = removelast parts ++ (if nonempty (List.last parts []) then [List.last parts []] else []).
Proof.
  cbv zeta. unfold sshStream, adbStream. destruct (stream_lines [] chunks) as [lines r] eqn:E.
  assert (Hr := stream_rest_single [] chunks lines r eq_refl E). apply stream_lines_split in E. cbn [app] in E.
  rewrite E, Hr. rewrite removelast_last, last_last. done.
Qed.

(** ** ConnectionManager *)

Inductive ConnectionDetails :=
  | AdbDetails (deviceID : str)
  | SshDetails (host user : str) (port : Z) (password : option str).

Record ConnectionInfo := MkInfo {
  ci_id : str;
  ci_alias : option str;
  ci_details : ConnectionDetails;       (* the type follows from the details *)
  ci_lastUsed : str;
}.

Record manager := MkManager {
  connected : bool;
  active : option ConnectionInfo;
  cm_healthy : option bool;
  lastCheckedAt : option Z;
  recentLoader : option (js_result (option ConnectionInfo));     (* what the loader will give *)
}.

Definition setActive (info : ConnectionInfo) (cm : manager) : manager :=
  MkManager true (Some info) None None (recentLoader cm).

Definition isConnected (cm : manager) : bool := match active cm with Some _ => true | None => false end.

Definition dispose (cm : manager) : manager := MkManager false None None None (recentLoader cm).

(** The clients: the state of an adb device, whether ssh runs [true], and what a command
    prints; a call may throw. *)
Class Clients := {
  adbGetState : str -> js_result str;
  adb_raw : str -> str -> js_result str;                                  (* serial, composed command *)
  ssh_exec : ConnectionDetails -> str -> js_result (option Z * str * str);  (* code, stdout, stderr *)
}.

Section manager_calls.
Context `{CL : Clients}.

(** [sshRun]: a missing exit code counts as 0. *)
Definition sshRun (d : ConnectionDetails) (cmd : str) : js_result (option Z * str * str) :=
  match ssh_exec d cmd with
  | Ok (code, out, err) => Ok (Some (or_else code 0), out, err)
  | Throws => Throws
  end.

Definition execQuickCheck (d : ConnectionDetails) : bool :=
  match sshRun d (js "true") with Ok (code, _, _) => or_else code 0 =? 0 | Throws => false end.

Definition adbShell (serial cmd : str) : js_result (option Z * str * str) :=
  match adb_raw serial (wrapWithExitCode cmd) with
  | Ok out => let '(code, stdout) := adb_result out in Ok (code, stdout, [])
  | Throws => Throws
  end.

(** [checkHealth]: the state is only written when the check does not throw. *)
Definition checkHealth (info : option ConnectionInfo) (now : Z) (cm : manager) : manager * js_result bool :=
  match (match info with Some i => Some i | None => active cm end) with
  | None => (cm, Ok false)
  | Some target =>
      let r := match ci_details target with
               | AdbDetails serial =>
                   if nonempty serial then
                     match adbGetState serial with Ok st => Ok (bool_decide (st = js "device")) | Throws => Throws end
                   else Ok false
               | d => Ok (execQuickCheck d)
               end in
      match r with
      | Ok ok => (MkManager (connected cm) (active cm) (Some ok) (Some now) (recentLoader cm), Ok ok)
      | Throws => (cm, Throws)
      end
  end.

Definition connect (now : Z) (cm : manager) : manager :=
  let cm1 := match active cm, recentLoader cm with
             | None, Some (Ok (Some recent)) => setActive recent cm
             | _, _ => cm
             end in
  match active cm1 with
  | Some _ =>
      let '(cm2, r) := checkHealth None now cm1 in
      MkManager true (active cm2) (Some (catch r false)) (lastCheckedAt cm2) (recentLoader cm2)
  | None => MkManager false (active cm1) (cm_healthy cm1) (lastCheckedAt cm1) (recentLoader cm1)
  end.

(** [run(cmd, args)] *)
Definition run_on (cm : manager) (cmd : str) (args : list str) : js_result (option Z * str * str) :=
  let full := trim (join [32] (cmd :: args)) in
  match active cm with
  | None => Throws
  | Some info =>
      match ci_details info with
      | AdbDetails serial => adbShell serial full
      | d => sshRun d full
      end
  end.

(** A device on adb that runs the command it is given: it prints the output of the script and
    then, on a line of its own, the mark with the exit code. *)
Definition runs_on_adb (serial : str) (composed out : str) (code : Z) : Prop :=
  exists W, Forall (fun c => is_ws c = true) W /\
    adb_raw serial composed = Ok (out ++ 10 :: code_mark ++ print_nat code ++ W).

(** The manager is connected exactly when there is an active connection; it gets the recent
    one when there is none, keeps the one it has, and never throws. *)
Theorem connect_state now cm :
  isConnected (connect now cm) = connected (connect now cm) /\
  active (connect now cm) = match active cm with
                            | Some i => Some i
                            | None => match recentLoader cm with Some (Ok r) => r | _ => None end
                            end /\
  (connected (connect now cm) = true -> cm_healthy (connect now cm) <> None).
Proof.
  unfold connect, isConnected.
  assert (Hc : forall c, active (checkHealth None now c).1 = active c).
  { intros c. unfold checkHealth. destruct (active c) as [i|] eqn:Ea; [|exact Ea].
    by destruct (ci_details i); [destruct (nonempty _); [destruct (adbGetState _)|]|]. }
  destruct (active cm) as [i|] eqn:Ea.
  - rewrite Ea. assert (H := Hc cm). destruct (checkHealth None now cm) as [cm2 r]. cbn in *. by rewrite H, Ea.
  - destruct (recentLoader cm) as [[[i|]|]|]; [|rewrite Ea; by split_and!..].
    assert (H := Hc (setActive i cm)). cbn [setActive active] in *. destruct (checkHealth None now _) as [cm2 r]. cbn in *. by rewrite H.
Qed.

(** A command over adb gives the output and the exit code of the script as they are. *)
Theorem run_over_adb cm info serial cmd args out code :
  active cm = Some info -> ci_details info = AdbDetails serial -> 0 <= code ->
  runs_on_adb serial (wrapWithExitCode (trim (join [32] (cmd :: args)))) out code ->
  run_on cm cmd args = Ok (Some code, out, []).
Proof.
  intros Ha Hd Hc (W & HW & E). unfold run_on, adbShell. rewrite Ha, Hd, E. by rewrite adb_result_exact.
Qed.
End manager_calls.

(** ** The list of connections *)

Section connection_config.
(** [new Date(text).getTime()] for the texts that are stored *)
Context (time_of : str -> Z).

Record ConnectionConfigFile := MkConfig {
  recent : option str;
  connections : list ConnectionInfo;
}.

Definition MAX_CONNECTIONS : Z := 5.

Definition by_lastUsed (a b : ConnectionInfo) : Z := time_of (ci_lastUsed b) - time_of (ci_lastUsed a).

(** [{ ...prev, ...entry, id: prev.id, type: prev.type }]; the entries of the callers always
    have the member [alias], so that an [undefined] one replaces that of [prev]. *)
Definition merge_info (prev entry : ConnectionInfo) : ConnectionInfo :=
  MkInfo (ci_id prev) (ci_alias entry) (ci_details entry) (ci_lastUsed entry).

(** The first connection with this id is replaced. *)
Fixpoint update_first (id : str) (f : ConnectionInfo -> ConnectionInfo) (l : list ConnectionInfo) : option (list ConnectionInfo) :=
  match l with
  | [] => None
  | c :: rest =>
      if decide (ci_id c = id) then Some (f c :: rest)
      else match update_first id f rest with Some rest' => Some (c :: rest') | None => None end
  end.

Definition upsertConnection (cfg : ConnectionConfigFile) (entry : ConnectionInfo) : ConnectionConfigFile :=
  let l := match update_first (ci_id entry) (fun prev => merge_info prev entry) (connections cfg) with
           | Some l => l
           | None => entry :: connections cfg
           end in
  let sorted := array_sort by_lastUsed l in
  MkConfig (Some (ci_id entry)) (if MAX_CONNECTIONS <? zlen sorted then slice sorted 0 MAX_CONNECTIONS else sorted).

Definition markRecent (cfg : ConnectionConfigFile) (id now_text : str) : ConnectionConfigFile :=
  match update_first id (fun c => MkInfo (ci_id c) (ci_alias c) (ci_details c) now_text) (connections cfg) with
  | Some l => MkConfig (Some id) (array_sort by_lastUsed l)
  | None => cfg
  end.

(** [readConnectionConfig] and [saveConnectionConfig] on the text of the file; a text that
    cannot be parsed is replaced by an empty configuration. *)
Context (parse : str -> option ConnectionConfigFile) (stringify : ConnectionConfigFile -> str).

Definition fresh_config : ConnectionConfigFile := MkConfig None [].

Definition readConnectionConfig (file : option str) : option str * ConnectionConfigFile :=
  match file with
  | Some raw =>
      match parse raw with
      | Some cfg => (file, cfg)
      | None => (Some (stringify fresh_config), fresh_config)
      end
  | None => (Some (stringify fresh_config), fresh_config)
  end.

Definition saveConnectionConfig (cfg : ConnectionConfigFile) : option str := Some (stringify cfg).

Definition ids (l : list ConnectionInfo) : list str := map ci_id l.

(** At most five connections, no id twice, the last used first *)
Definition config_ok (cfg : ConnectionConfigFile) : Prop :=
  NoDup (ids (connections cfg)) /\ zlen (connections cfg) <= MAX_CONNECTIONS /\
  StronglySorted (fun a b => time_of (ci_lastUsed b) <= time_of (ci_lastUsed a)) (connections cfg).

Lemma by_lastUsed_sorted l :
  StronglySorted (fun a b => time_of (ci_lastUsed b) <= time_of (ci_lastUsed a)) (array_sort by_lastUsed l).
Proof.
  apply (array_sort_sorted by_lastUsed); [unfold by_lastUsed; intros; lia..|]. intros a b c. lia.
Qed.

Lemma update_first_ids id f l l' :
  (forall c, ci_id (f c) = ci_id c) -> update_first id f l = Some l' -> ids l' = ids l /\ length l' = length l.
Proof.
  intros Hf. revert l'. induction l as [|c l IH]; intros l' E; cbn [update_first] in E; [done|].
  destruct (decide (ci_id c = id)); [simplify_eq; cbn; by rewrite Hf|].
  destruct (update_first id f l) as [l1|] eqn:E1; [|done]. simplify_eq. destruct (IH l1 eq_refl) as [H1 H2]. unfold ids in *. cbn. by rewrite H1, H2.
Qed.

Lemma update_first_none id f l : update_first id f l = None -> id ∉ ids l.
Proof.
  induction l as [|c l IH]; cbn [update_first ids map]; [by intros _ ?%not_elem_of_nil|]. destruct (decide (ci_id c = id)); [done|].
  destruct (update_first id f l); [done|]. intros _. apply not_elem_of_cons. split; [done|]. by apply IH.
Qed.

Lemma ids_perm l l' : l ≡ₚ l' -> ids l ≡ₚ ids l'.
Proof. intros H. unfold ids. by rewrite H. Qed.

Lemma sorted_take {A} (R : A -> A -> Prop) (n : nat) l : StronglySorted R l -> StronglySorted R (take n l).
Proof.
  intros H. revert n. induction H as [|x l Hl IH Hx]; intros [|n]; cbn; try constructor; [apply IH|]. by apply Forall_take.
Qed.

(** Adding or using a connection keeps the list in order: at most five, none twice, the last
    used first; and the connection is the recent one. *)
Theorem connections_ok cfg entry id now_text :
  config_ok cfg ->
  (config_ok (upsertConnection cfg entry) /\ recent (upsertConnection cfg entry) = Some (ci_id entry)) /\
  config_ok (markRecent cfg id now_text).
Proof.
  intros (Hn & Hl & Hs). split; [split; [|done]|].
  - assert (Hd : NoDup (ids (match update_first (ci_id entry) (fun prev => merge_info prev entry) (connections cfg) with
      | Some l => l | None => entry :: connections cfg end))).
    { destruct (update_first _ _ _) as [l|] eqn:E.
      - apply update_first_ids in E as [-> _]; [done|by intros c].
      - cbn. constructor; [by eapply update_first_none|done]. }
    unfold upsertConnection. set (l := match update_first _ _ _ with Some _ => _ | None => _ end) in *. clearbody l.
    assert (Hp := array_sort_perm by_lastUsed l). apply ids_perm in Hp.
    assert (Hd2 : NoDup (ids (array_sort by_lastUsed l))) by (by rewrite Hp).
    assert (Hs2 := by_lastUsed_sorted l). unfold config_ok. cbn [connections]. unfold MAX_CONNECTIONS, zlen, slice in *.
    destruct (Z.ltb_spec 5 (Z.of_nat (length (array_sort by_lastUsed l)))).
    + rewrite drop_0. split_and!.
      * unfold ids in *. rewrite <- (firstn_map ci_id). apply (NoDup_app (take _ (map ci_id _)) (drop (Z.to_nat 5 - Z.to_nat 0) (map ci_id (array_sort by_lastUsed l)))).
        by rewrite take_drop.
      * rewrite length_take. lia.
      * by apply sorted_take.
    + by split_and!.
  - unfold markRecent. destruct (update_first _ _ _) as [l|] eqn:E; [|done].
    apply update_first_ids in E as [E1 E2]; [|done]. assert (Hp := array_sort_perm by_lastUsed l).
    split_and!; cbn [connections].
    + apply ids_perm in Hp. rewrite Hp, E1. done.
    + unfold zlen in *. rewrite array_sort_length, E2. done.
    + apply by_lastUsed_sorted.
Qed.

(** A saved list is read back. *)
Theorem config_roundtrip cfg :
  (forall c, parse (stringify c) = Some c) -> readConnectionConfig (saveConnectionConfig cfg) = (saveConnectionConfig cfg, cfg).
Proof. intros H. unfold readConnectionConfig, saveConnectionConfig. by rewrite H. Qed.
End connection_config.

(** A connection whose date is older than those of five others is cut off at once, although
    the list names it as the recent one. *)
Example recent_cut_off :
  let conn n := MkInfo (js "adb:" ++ print_nat n) None (AdbDetails (print_nat n)) (print_nat n) in
  let time s := digits_value 0 s in
  let cfg := upsertConnection time (MkConfig None (map conn [9; 8; 7; 6; 5])) (conn 1) in
  recent cfg = Some (js "adb:1") /\ map ci_id (connections cfg) = map (fun n => js "adb:" ++ print_nat n) [9; 8; 7; 6; 5].
Proof. by vm_compute. Qed.
