(* ===== verification/Transfer.v ===== *)
(** * File transfer

    src/core/transfer/FileTransferService.ts and src/core/controller/HostController.ts: which
    entries are handed to tar, the commands that carry an archive to a device and the text
    that carries it back, and where the files of the workspace belong on the device.  Buffer's
    base64 is defined here; tar, the adb file commands and the local file system are
    parameters. *)

From stdpp Require Import base list gmap strings.
From Stdlib Require Import ZArith Lia.
From S2P Require Import Prelude JsString Regex Shell Paths Device Connection.

(** ** Base64 *)

Definition b64_char (n : Z) : Z :=
  if n <? 26 then 65 + n else if n <? 52 then 71 + n else if n <? 62 then n - 4 else if n =? 62 then 43 else 47.

Definition b64_value (c : Z) : option Z :=
  if (65 <=? c) && (c <=? 90) then Some (c - 65)
  else if (97 <=? c) && (c <=? 122) then Some (c - 71)
  else if (48 <=? c) && (c <=? 57) then Some (c + 4)
  else if c =? 43 then Some 62 else if c =? 47 then Some 63 else None.

(** [buf.toString('base64')] *)
Fixpoint b64_encode (bs : list Z) : str :=
  match bs with
  | [] => []
  | [a] => [b64_char (a / 4); b64_char (a mod 4 * 16); 61; 61]
  | [a; b] => [b64_char (a / 4); b64_char (a mod 4 * 16 + b / 16); b64_char (b mod 16 * 4); 61]
  | a :: b :: c :: rest =>
      b64_char (a / 4) :: b64_char (a mod 4 * 16 + b / 16) :: b64_char (b mod 16 * 4 + c / 64) :: b64_char (c mod 64) ::
      b64_encode rest
  end.

(** The bytes of the values of the units; a group that is cut short gives the bytes it has. *)
Fixpoint b64_bytes (vs : list Z) : list Z :=
  match vs with
  | a :: b :: c :: d :: rest => (a * 4 + b / 16) :: (b mod 16 * 16 + c / 4) :: (c mod 4 * 64 + d) :: b64_bytes rest
  | [a; b; c] => [a * 4 + b / 16; b mod 16 * 16 + c / 4]
  | [a; b] => [a * 4 + b / 16]
  | _ => []
  end.

(** [Buffer.from(text, 'base64')]: units that are not part of the alphabet are skipped; the
    text ends at the padding. *)
Fixpoint b64_values (s : str) : list Z :=
  match s with
  | [] => []
  | c :: t =>
      if c =? 61 then []
      else match b64_value c with Some v => v :: b64_values t | None => b64_values t end
  end.

Definition b64_decode (s : str) : list Z := b64_bytes (b64_values s).

(** ** FileTransferService *)

(** [sq] *)
Definition sq_text (s : str) : str := replace_all 39 quote_escape s.

(** [wrap], which HostController has too *)
Definition ft_wrap (adb : bool) (cmd : str) : str :=
  let flat := trim (replace_all 10 [32] cmd) in
  if adb then flat else js "sh -lc '" ++ sq_text flat ++ [39].

Fixpoint chunk_from (fuel : nat) (s : str) (chunkLen : nat) : list str :=
  match fuel, s with
  | _, [] => []
  | O, _ => [s]
  | S fuel', _ => take chunkLen s :: chunk_from fuel' (drop chunkLen s) chunkLen
  end.

(** [chunkString]; the fuel is enough for any positive length. *)
Definition chunkString (s : str) (chunkLen : nat) : list str := chunk_from (length s) s chunkLen.

Definition UPLOAD_CHUNK : nat := 48 * 1024.

(** The commands of an upload *)
Inductive up_command :=
  | MkdirP (dir : str)
  | Truncate (file : str)
  | AppendText (file payload : str)
  | Extract (file dir : str).

Definition up_text (c : up_command) : str :=
  match c with
  | MkdirP dir => js "mkdir -p '" ++ sq_text dir ++ [39]
  | Truncate f => js ": > '" ++ sq_text f ++ [39]
  | AppendText f payload => js "printf %s '" ++ sq_text payload ++ js "' >> '" ++ sq_text f ++ [39]
  | Extract f dir =>
      js "base64 -d '" ++ sq_text f ++ js "' | tar -C '" ++ sq_text dir ++ js "' -xpf - && rm -f '" ++ sq_text f ++ [39]
  end.

(** The commands that [uploadViaTarBase64] sends for an archive *)
Definition upload_commands (remoteDir : str) (now : Z) (tar : list Z) : list up_command :=
  let remoteTmp := js "/tmp/edge-upload-" ++ print_int now ++ js ".b64" in
  [MkdirP remoteDir; Truncate remoteTmp] ++
  map (AppendText remoteTmp) (chunkString (b64_encode tar) UPLOAD_CHUNK) ++
  [Extract remoteTmp remoteDir].

(** Adding to a [Set] *)
Definition add_new (x : str) (out : list str) : list str := if decide (x ∈ out) then out else out ++ [x].

(** The end of both list builders: the dot stands for everything. *)
Definition tar_entries (out : list str) : list str :=
  match out with
  | [] => [js "."]
  | _ => if decide (js "." ∈ out) then [js "."] else out
  end.

(** [rel.replace(/^\.\/+/, '')] *)
Definition strip_dot_slash (s : str) : str :=
  if starts_with (js "./") s then drop_slashes (drop 1 s) else s.

Fixpoint local_entries (localDir : str) (paths out : list str) : js_result (list str) :=
  match paths with
  | [] => Ok out
  | raw :: rest =>
      let t := trim raw in
      if nonempty t then
        let rel := toPosix (path_relative localDir t) in
        if negb (nonempty rel) || bool_decide (rel = js ".") then local_entries localDir rest (add_new (js ".") out)
        else if starts_with (js "..") rel || existsb (fun seg => bool_decide (seg = js "..")) (split_on 47 rel) then Throws
        else
          let rel' := strip_dot_slash rel in
          local_entries localDir rest (if nonempty rel' then add_new rel' out else out)
      else local_entries localDir rest out
  end.

Definition buildLocalTarList (localDir : str) (paths : list str) : js_result (list str) :=
  match paths with
  | [] => Ok [js "."]
  | _ => match local_entries localDir paths [] with Ok out => Ok (tar_entries out) | Throws => Throws end
  end.

(** The segments of a remote path; a parent segment is an error. *)
Fixpoint remote_segments (segs : list str) : js_result (list str) :=
  match segs with
  | [] => Ok []
  | seg :: rest =>
      if negb (nonempty seg) || bool_decide (seg = js ".") then remote_segments rest
      else if bool_decide (seg = js "..") then Throws
      else match remote_segments rest with Ok parts => Ok (seg :: parts) | Throws => Throws end
  end.

(** [t.replace(/^\.\//, '')] *)
Definition strip_one_dot_slash (s : str) : str := if starts_with (js "./") s then drop 2 s else s.

Fixpoint remote_entries (paths out : list str) : js_result (list str) :=
  match paths with
  | [] => Ok out
  | raw :: rest =>
      let t := trim raw in
      if nonempty t then
        match remote_segments (split_on 47 (strip_one_dot_slash (drop_slashes (toPosix t)))) with
        | Throws => Throws
        | Ok [] => remote_entries rest (add_new (js ".") out)
        | Ok parts => remote_entries rest (add_new (join [47] parts) out)
        end
      else remote_entries rest out
  end.

Definition buildRemoteTarList (paths : list str) : js_result (list str) :=
  match paths with
  | [] => Ok [js "."]
  | _ => match remote_entries paths [] with Ok out => Ok (tar_entries out) | Throws => Throws end
  end.

Definition quoteListPosix (l : list str) : str := join [32] (map (fun p => [39] ++ sq_text p ++ [39]) l).

Definition quoteListLocal (l : list str) : str := join [32] (map (fun p => [34] ++ replace_all 34 [92; 34] p ++ [34]) l).

(** The command and the reading of [downloadViaTarBase64]: the lines that arrive, joined *)
Definition download_text (remoteDir : str) (entries : list str) : str :=
  js "tar -C '" ++ sq_text remoteDir ++ js "' -cf - " ++ quoteListPosix entries ++ js " | base64".

Definition download_archive (lines : list str) : option (list Z) :=
  let b64 := mjoin (List.filter nonempty (map trim lines)) in
  if nonempty b64 then Some (b64_decode b64) else None.

(** ** What is sent over adb *)

(** A local directory tree without symbolic links, as [fsp.readdir] gives it *)
Inductive tree := TFile | TOther | TDir (entries : list (str * tree)).

(** [walk(absDir, base)]: the files below a directory, relative to [base]; [prefix] is
    [path.relative(base, absDir)]. *)
Fixpoint walk (prefix : list str) (t : tree) : list (list str) :=
  match t with
  | TDir entries =>
      (fix go (l : list (str * tree)) : list (list str) :=
         match l with
         | [] => []
         | (name, TFile) :: rest => (prefix ++ [name]) :: go rest
         | (name, TOther) :: rest => go rest
         | (name, d) :: rest => walk (prefix ++ [name]) d ++ go rest
         end) entries
  | _ => []
  end.

Fixpoint find_tree (segs : list str) (t : tree) : option tree :=
  match segs, t with
  | [], _ => Some t
  | s :: rest, TDir entries =>
      (fix go (l : list (str * tree)) : option tree :=
         match l with
         | [] => None
         | (name, u) :: l' => if bool_decide (name = s) then find_tree rest u else go l'
         end) entries
  | _, _ => None
  end.

(** The relative files of [uploadViaAdb] for the entries of the safe list; a directory is
    walked relative to itself. *)
Fixpoint adb_rel_files (root : tree) (entries : list (list str)) : js_result (list (list str)) :=
  match entries with
  | [] => Ok []
  | e :: rest =>
      match find_tree e root with
      | None => Throws                      (* fsp.stat *)
      | Some t =>
          match adb_rel_files root rest with
          | Throws => Throws
          | Ok more =>
              Ok (match t with TDir _ => walk [] t | TFile => [e] | TOther => [] end ++ more)
          end
      end
  end.

(** The files that are sent *)
Definition adb_upload_files (root : tree) (safeList : list (list str)) : js_result (list (list str)) :=
  match safeList with
  | [[d]] => if bool_decide (d = js ".") then Ok (walk [] root) else adb_rel_files root safeList
  | _ => adb_rel_files root safeList
  end.

Inductive adb_action := AMkdir (dir : str) | APush (localFs remoteFs : str) | APull (remoteFs localFs : str).

(** The sends of [uploadViaAdb]: the directory, then each file into its own one *)
Definition uploadViaAdb (root : tree) (localDir remoteDir : str) (paths : list str) : js_result (list adb_action) :=
  match buildLocalTarList localDir paths with
  | Throws => Throws
  | Ok safeList =>
      match adb_upload_files root (map (split_on 47) safeList) with
      | Throws => Throws
      | Ok relFiles =>
          Ok (AMkdir remoteDir ::
              flat_map (fun rel =>
                let remoteFs := posix_join remoteDir (join [47] rel) in
                [AMkdir (posix_dirname remoteFs); APush (posix_join localDir (join [47] rel)) remoteFs]) relFiles)
      end
  end.

(** [downloadViaAdb]: what the device says of an entry, and its list of the files below a
    directory, are arguments. *)
Definition expand_remote (kind : str -> str) (listRec : str -> list str) (remoteDir rel : str) : list str :=
  let rp := drop_slashes_end remoteDir ++ [47] ++ rel in
  let k := trim (kind rp) in
  if bool_decide (k = js "FILE") then [rel]
  else if bool_decide (k = js "DIR") then map (fun s => toPosix (posix_join rel s)) (listRec rp)
  else [].

Definition downloadViaAdb (kind : str -> str) (listRec : str -> list str) (remoteDir localDir : str) (paths : list str)
    : js_result (list adb_action) :=
  match buildRemoteTarList paths with
  | Throws => Throws
  | Ok safe =>
      let relFiles := match safe with
                      | [d] => if bool_decide (d = js ".") then listRec remoteDir
                               else flat_map (expand_remote kind listRec remoteDir) safe
                      | _ => flat_map (expand_remote kind listRec remoteDir) safe
                      end in
      Ok (map (fun rel => APull (posix_join remoteDir rel) (posix_join localDir rel)) relFiles)
  end.

(** ** HostController *)

(** The text before and after the first occurrence of [pat] *)
Fixpoint cut_sub (pat s : str) : option (str * str) :=
  if starts_with pat s then Some ([], drop (length pat) s)
  else match s with
       | [] => None
       | c :: t => match cut_sub pat t with Some (a, b) => Some (c :: a, b) | None => None end
       end.

Inductive stat_kind := KFile | KDir | KNone.

(** [statType] of the output *)
Definition stat_of (out : str) : stat_kind :=
  let t := trim out in
  if bool_decide (t = js "FILE") then KFile else if bool_decide (t = js "DIR") then KDir else KNone.

Definition dq (s : str) : str := [34] ++ s ++ [34].

Definition stat_script (rp : str) : str :=
  js "if [ -d " ++ dq rp ++ js " ]; then echo DIR; " ++
  js "elif [ -f " ++ dq rp ++ js " ] || [ -L " ++ dq rp ++ js " ] || [ -h " ++ dq rp ++ js " ] || [ -c " ++ dq rp ++
  js " ] || [ -b " ++ dq rp ++ js " ] || [ -p " ++ dq rp ++ js " ] || [ -S " ++ dq rp ++ js " ]; then echo FILE; " ++
  js "else echo NONE; fi".

(** [getDockerRoot] of the output *)
Definition docker_root (out : str) : str :=
  match listed out with
  | t :: _ => if bool_decide (t = js "null") then js "/lg_rw/var/lib/docker" else t
  | [] => js "/lg_rw/var/lib/docker"
  end.

Inductive homey_kind := KPro | KCore | KSdk | KBridge.

Definition resolveHomeyPath (dockerRoot : str) (k : homey_kind) : str :=
  posix_join dockerRoot (match k with
                         | KPro => js "volumes/homey-app/_data"
                         | KCore => js "volumes/homey-node/_data/@athombv/homey-core/dist"
                         | KSdk => js "volumes/homey-node/_data/@athombv/homey-apps-sdk-v3"
                         | KBridge => js "volumes/homey-node/_data/@athombv/homey-bridge"
                         end).

(** [s.replace(/^[\\/]+/, '')] *)
Definition drop_any_slashes (s : str) : str := drop_while (fun c => (c =? 47) || (c =? 92)) s.

(** [path.join(ws, 'host_sync', rel)] *)
Definition toLocalFromHost (ws absHostPath : str) : str :=
  let rel := toPosix (drop_any_slashes absHostPath) in
  posix_normalize (ws ++ js "/host_sync" ++ (if nonempty rel then 47 :: rel else [])).

(** [norm.replace(/^\.?\/*/, '')] *)
Definition drop_dot_slashes (s : str) : str :=
  drop_slashes (match s with c :: t => if c =? 46 then t else s | [] => [] end).

Definition toHostFromLocalHostSync (localPath : str) : str :=
  let norm := toPosix localPath in
  match cut_sub (js "/host_sync/") norm with
  | Some (_, rest) => 47 :: rest
  | None => 47 :: drop_dot_slashes norm
  end.

(** [pushFile]: the directory and the entry that are uploaded, and where to; [pullFile]: the
    directory and the entry that are downloaded. *)
Definition push_request (localFs absHost : str) : str * str * str :=
  (posix_dirname localFs, posix_dirname absHost, posix_basename absHost).

Definition pull_request (absHost : str) : str * str := (posix_dirname absHost, posix_basename absHost).

(** ** Lemmas *)

Lemma b64_value_char n : 0 <= n < 64 -> b64_value (b64_char n) = Some n /\ b64_char n <> 61.
Proof.
  intros H. unfold b64_char, b64_value.
  destruct (Z.ltb_spec n 26); [|destruct (Z.ltb_spec n 52); [|destruct (Z.ltb_spec n 62); [|destruct (Z.eqb_spec n 62)]]].
  - replace ((65 <=? 65 + n) && (65 + n <=? 90)) with true by lia. split; [f_equal; lia|lia].
  - replace ((65 <=? 71 + n) && (71 + n <=? 90)) with false by lia.
    replace ((97 <=? 71 + n) && (71 + n <=? 122)) with true by lia. split; [f_equal; lia|lia].
  - replace ((65 <=? n - 4) && (n - 4 <=? 90)) with false by lia. replace ((97 <=? n - 4) && (n - 4 <=? 122)) with false by lia.
    replace ((48 <=? n - 4) && (n - 4 <=? 57)) with true by lia. split; [f_equal; lia|lia].
  - subst. done.
  - assert (n = 63) as -> by lia. done.
Qed.

Lemma b64_values_char n t : 0 <= n < 64 -> b64_values (b64_char n :: t) = n :: b64_values t.
Proof.
  intros H. destruct (b64_value_char n H) as [E Hn]. cbn [b64_values]. rewrite E. by destruct (Z.eqb_spec (b64_char n) 61).
Qed.

Definition bytes (bs : list Z) : Prop := Forall (fun b => 0 <= b < 256) bs.

Ltac b64_range := Z.to_euclidean_division_equations; lia.

(** An archive survives the encoding. *)
Theorem b64_roundtrip bs : bytes bs -> b64_decode (b64_encode bs) = bs.
Proof.
  unfold b64_decode. remember (length bs) as n eqn:En. revert bs En. induction n as [n IH] using lt_wf_ind. intros bs -> Hb.
  destruct bs as [|a [|b [|c rest]]]; cbn [b64_encode]; [done|..].
  - apply Forall_cons in Hb as [Ha _]. rewrite !b64_values_char by b64_range. cbn. f_equal. b64_range.
  - apply Forall_cons in Hb as [Ha Hb]. apply Forall_cons in Hb as [Hb _]. rewrite !b64_values_char by b64_range. cbn.
    repeat f_equal; b64_range.
  - apply Forall_cons in Hb as [Ha Hb]. apply Forall_cons in Hb as [Hb Hc]. apply Forall_cons in Hc as [Hc Hr].
    rewrite !b64_values_char by b64_range. cbn [b64_bytes]. rewrite (IH (length rest)) by (cbn; done || lia).
    repeat f_equal; b64_range.
Qed.

Lemma b64_roundtrip_witness : b64_decode (b64_encode [0; 255; 16; 7]) = [0; 255; 16; 7].
Proof. apply (b64_roundtrip [0; 255; 16; 7]). repeat constructor; lia. Defined.

Lemma chunk_from_spec n fuel s :
  (0 < n)%nat -> (length s <= fuel)%nat ->
  mjoin (chunk_from fuel s n) = s /\ Forall (fun c => 0 < length c <= n)%nat (chunk_from fuel s n).
Proof.
  intros Hn. revert s. induction fuel as [|fuel IH]; intros [|c s] Hl; cbn [length] in Hl; try (cbn; split; [done|constructor]); try lia.
  cbn [chunk_from]. destruct (IH (drop n (c :: s))) as [H1 H2]; [rewrite length_drop; cbn [length]; lia|].
  split.
  - change (mjoin (?x :: ?y)) with (x ++ mjoin y). rewrite H1. apply take_drop.
  - constructor; [|done]. rewrite length_take. cbn [length]. lia.
Qed.

(** ** Uploading *)

(** The texts of the files on a device, and what the commands of an upload do to them; the
    archives that are unpacked are collected. *)
Record remote := MkRemote { r_text : gmap str str; r_unpacked : list (str * list Z) }.

Definition up_effect (c : up_command) (r : remote) : remote :=
  match c with
  | MkdirP _ => r
  | Truncate f => MkRemote (<[f := []]> (r_text r)) (r_unpacked r)
  | AppendText f p => MkRemote (<[f := or_else (r_text r !! f) [] ++ p]> (r_text r)) (r_unpacked r)
  | Extract f dir =>
      MkRemote (delete f (r_text r)) (r_unpacked r ++ [(dir, b64_decode (or_else (r_text r !! f) []))])
  end.

Definition up_run (cs : list up_command) (r : remote) : remote := fold_left (fun r c => up_effect c r) cs r.

Lemma up_append f parts r text :
  r_text r !! f = Some text ->
  r_text (up_run (map (AppendText f) parts) r) !! f = Some (text ++ mjoin parts) /\
  delete f (r_text (up_run (map (AppendText f) parts) r)) = delete f (r_text r) /\
  r_unpacked (up_run (map (AppendText f) parts) r) = r_unpacked r.
Proof.
  revert r text. induction parts as [|p parts IH]; intros r text H; cbn [map up_run fold_left].
  - split_and!; [|done|done]. by rewrite H, app_nil_r.
  - destruct (IH (up_effect (AppendText f p) r) (text ++ p)) as (H1 & H2 & H3).
    { cbn. rewrite H. cbn. apply lookup_insert_eq. }
    unfold up_run in *. rewrite H1, H2, H3. cbn [up_effect r_text r_unpacked]. split_and!; [|by rewrite delete_insert_eq|done].
    by rewrite <- app_assoc.
Qed.



(** No command carries more than 48 KiB of the archive. *)
Lemma upload_pieces s : Forall (fun c => (length c <= UPLOAD_CHUNK)%nat) (chunkString s UPLOAD_CHUNK).
Proof.
  destruct (chunk_from_spec UPLOAD_CHUNK (length s) s) as [_ H]; [unfold UPLOAD_CHUNK; lia|done|].
  eapply Forall_impl; [exact H|]. intros c [_ ?]. done.
Qed.

(** Over ssh a command reaches the shell as it is, with its line ends as blanks; *)
Lemma ft_wrap_words cmd : sh_words (ft_wrap false cmd) = Some [js "sh"; js "-lc"; trim (replace_all 10 [32] cmd)].
Proof.
  unfold ft_wrap. set (flat := trim (replace_all 10 [32] cmd)).
  change (js "sh -lc '" ++ sq_text flat ++ [39]) with (js "sh -lc " ++ q flat).
  unfold sh_words. rewrite lex_sh_lc. by rewrite <- (app_nil_r (q flat)), lex_q.
Qed.

(** and the shell reads the piece of the archive as one word. *)
Theorem append_command_words f payload :
  sh_words (ft_wrap false (up_text (AppendText f payload))) =
    Some [js "sh"; js "-lc"; trim (replace_all 10 [32] (up_text (AppendText f payload)))] /\
  sh_words (js "printf %s '" ++ sq_text payload ++ [39]) = Some [js "printf"; js "%s"; payload].
Proof.
  split; [apply ft_wrap_words|]. unfold sh_words. change (js "printf %s '" ++ sq_text payload ++ [39]) with (js "printf %s " ++ q payload).
  change (sh_lex Bare None (js "printf %s " ++ q payload)) with
    ((fun ws => js "printf" :: ws) <$> ((fun ws => js "%s" :: ws) <$> sh_lex Bare None (q payload))).
  by rewrite <- (app_nil_r (q payload)), lex_q.
Qed.

(** ** Downloading *)

Lemma trim_words_map ls : Forall word ls -> List.filter nonempty (map trim ls) = ls.
Proof.
  induction 1 as [|l ls [Hn Hw] _ IH]; [done|]. cbn [map List.filter]. rewrite trim_words by done.
  destruct l; [done|]. cbn [nonempty]. by rewrite IH.
Qed.

(** The archive that the device prints in base64, in lines of any length, is read back
    however the connection cuts the text into chunks. *)
Theorem download_exact chunks ls tar :
  chunks ≫= utf8_decode = lines_text ls -> Forall word ls -> mjoin ls = b64_encode tar -> bytes tar -> tar <> [] ->
  download_archive (sshStream chunks) = Some tar /\ download_archive (adbStream chunks) = Some tar.
Proof.
  intros Ht Hw Hj Hb Hne. destruct (stream_exact chunks) as [E1 E2]. rewrite Ht, split_lines_text in E1, E2 by done.
  rewrite removelast_last in E1. rewrite removelast_last, last_last, app_nil_r in E2.
  assert (H : download_archive ls = Some tar).
  { unfold download_archive. rewrite trim_words_map by done. rewrite Hj, b64_roundtrip by done.
    destruct tar as [|a [|b [|c tar]]]; done. }
  by rewrite E1, E2.
Qed.

Lemma download_exact_witness :
  download_archive (sshStream [b64_encode [1; 2; 3; 4]; [10]]) = Some [1; 2; 3; 4] /\
  download_archive (adbStream [b64_encode [1; 2; 3; 4]; [10]]) = Some [1; 2; 3; 4].
Proof.
  apply (download_exact [b64_encode [1; 2; 3; 4]; [10]] [b64_encode [1; 2; 3; 4]] [1; 2; 3; 4]);
    [by vm_compute|constructor; [split; [done|by repeat constructor]|constructor]|by vm_compute|repeat constructor; lia|done].
Defined.

(** ** Entries *)

(** An entry that stays below its directory *)
Definition safe_entry (e : str) : Prop :=
  e = js "." \/ exists segs, e = join [47] segs /\ segs <> [] /\ Forall clean_segment segs.

Lemma add_new_forall P x l : P x -> Forall P l -> Forall P (add_new x l).
Proof. intros Hx Hl. unfold add_new. destruct (decide (x ∈ l)); [done|]. apply Forall_app. by split; [|constructor]. Qed.

Lemma tar_entries_forall P l : P (js ".") -> Forall P l -> Forall P (tar_entries l).
Proof. intros Hd Hl. unfold tar_entries. destruct l; [by constructor|]. destruct (decide _); [by constructor|done]. Qed.

Lemma remote_segments_clean segs parts : remote_segments segs = Ok parts -> Forall clean_segment parts.
Proof.
  revert parts. induction segs as [|x segs IH]; intros parts H; cbn [remote_segments] in H; [simplify_eq; constructor|].
  destruct x as [|c x]; cbn [nonempty negb orb] in H; [by apply IH|].
  case_bool_decide as E1; [by apply IH|]. case_bool_decide as E2; [done|].
  destruct (remote_segments segs) as [l|] eqn:E; [|done]. simplify_eq. constructor; [by split_and!|]. by apply IH.
Qed.

(** Whatever paths are asked for, the entries that tar gets on the device name things below
    the directory: none is absolute or has a parent segment. *)
Theorem remote_entries_safe paths l : buildRemoteTarList paths = Ok l -> l <> [] /\ Forall safe_entry l.
Proof.
  assert (H : forall ps out out', Forall safe_entry out -> remote_entries ps out = Ok out' -> Forall safe_entry out').
  { induction ps as [|raw ps IH]; intros out out' Ho E; cbn [remote_entries] in E; [by simplify_eq|].
    destruct (nonempty (trim raw)); [|by eapply IH].
    destruct (remote_segments _) as [[|p parts]|] eqn:Er; [| |done].
    - eapply IH; [|exact E]. apply add_new_forall; [by left|done].
    - eapply IH; [|exact E]. apply add_new_forall; [|done]. right. exists (p :: parts). split_and!; [done|done|].
      by eapply remote_segments_clean. }
  intros E. unfold buildRemoteTarList in E. destruct paths as [|p ps]; [simplify_eq; split; [done|by repeat constructor; left]|].
  destruct (remote_entries (p :: ps) []) as [out|] eqn:Er; [|done]. simplify_eq. split.
  - unfold tar_entries. destruct out; [done|]. by destruct (decide _).
  - apply tar_entries_forall; [by left|]. eapply H; [|exact Er]. constructor.
Qed.

Lemma remote_entries_safe_witness :
  [js "lib/a"; js "b"] <> [] /\ Forall safe_entry [js "lib/a"; js "b"].
Proof. apply (remote_entries_safe [js "/lib//./a"; js "./b"]). by vm_compute. Defined.

(** ** Files over adb *)

Section tree_ind.
  Context (P : tree -> Prop) (HF : P TFile) (HO : P TOther).
  Context (HD : forall es, Forall (fun e => P e.2) es -> P (TDir es)).

Fixpoint tree_all (t : tree) : P t :=
    match t with
    | TFile => HF
    | TOther => HO
    | TDir es => HD es ((fix go l : Forall (fun e => P e.2) l :=
                           match l with [] => List.Forall_nil _ | (n, u) :: l' => List.Forall_cons _ (n, u) l' (tree_all u) (go l') end) es)
    end.
End tree_ind.

(** The names in a directory are distinct. *)
Inductive tree_ok : tree -> Prop :=
  | ok_file : tree_ok TFile
  | ok_other : tree_ok TOther
  | ok_dir es : NoDup (map fst es) -> Forall (fun e => tree_ok e.2) es -> tree_ok (TDir es).

Lemma walk_dir prefix es :
  walk prefix (TDir es) =
    flat_map (fun e => match e.2 with TFile => [prefix ++ [e.1]] | TOther => [] | d => walk (prefix ++ [e.1]) d end) es.
Proof. induction es as [|[n []] es IH]; [done|..]; cbn [flat_map fst snd]; rewrite <- IH; done. Qed.

Lemma find_dir s rest es :
  NoDup (map fst es) ->
  forall t, find_tree (s :: rest) (TDir es) = Some t <-> exists u, (s, u) ∈ es /\ find_tree rest u = Some t.
Proof.
  induction es as [|[n u] es IH]; intros Hd t.
  - split; [done|]. intros (? & H & _). by apply elem_of_nil in H.
  - apply NoDup_cons in Hd as [Hn Hd]. cbn [find_tree]. case_bool_decide as E.
    + subst n. split; [intros; exists u; split; [by left|done]|].
      intros (u' & [[= <-]|H]%elem_of_cons & Hf); [done|]. exfalso. apply Hn. apply list_elem_of_fmap. by exists (s, u').
    + change ((find_tree (s :: rest) (TDir es) = Some t) <-> exists u0, (s, u0) ∈ (n, u) :: es /\ find_tree rest u0 = Some t).
      rewrite (IH Hd t). split; intros (u' & H & Hf); exists u'; split; try done; [by right|].
      apply elem_of_cons in H as [[= -> ->]|H]; [done|done].
Qed.

(** The walk of a directory finds exactly the files below it. *)
Lemma walk_files t prefix p :
  tree_ok t -> p ∈ walk prefix t <-> exists rel, p = prefix ++ rel /\ rel <> [] /\ find_tree rel t = Some TFile.
Proof.
  revert prefix p. induction t as [| |es IH] using tree_all; intros prefix p Hok.
  1,2: split; [intros H; by apply elem_of_nil in H|]; intros ([|] & _ & Hn & Hf); done.
  inversion Hok as [| |? Hd Hes]; subst. rewrite walk_dir. rewrite list_elem_of_In, in_flat_map. split.
  - intros ([n u] & Hin & Hp). apply list_elem_of_In in Hin. apply list_elem_of_In in Hp. cbn [fst snd] in Hp.
    rewrite Forall_forall in IH, Hes. specialize (IH _ Hin). specialize (Hes _ Hin). cbn [snd] in IH, Hes.
    destruct u as [| |es'].
    + apply list_elem_of_singleton in Hp. exists [n]. split_and!; [done|done|]. apply find_dir; [done|]. by exists TFile.
    + by apply elem_of_nil in Hp.
    + apply IH in Hp; [|done]. destruct Hp as (rel & -> & Hn & Hf). exists (n :: rel). rewrite <- app_assoc. split_and!; [done|done|].
      apply find_dir; [done|]. by exists (TDir es').
  - intros ([|n rel] & -> & Hn & Hf); [done|]. apply find_dir in Hf; [|done]. destruct Hf as (u & Hin & Hf).
    rewrite Forall_forall in IH, Hes. specialize (IH _ Hin). specialize (Hes _ Hin). cbn [snd] in IH, Hes.
    exists (n, u). split; [by apply list_elem_of_In|]. cbn [fst snd]. apply list_elem_of_In. destruct u as [| |es'].
    + destruct rel; [|done]. by left.
    + by destruct rel.
    + apply IH; [done|]. exists rel. rewrite <- app_assoc. split_and!; [done| |done]. by intros ->.
Qed.

(** A whole directory sends exactly its files, each to its place below the remote one. *)
Theorem adb_upload_complete root localDir remoteDir paths acts :
  tree_ok root -> buildLocalTarList localDir paths = Ok [js "."] -> uploadViaAdb root localDir remoteDir paths = Ok acts ->
  forall l r, APush l r ∈ acts <->
    exists rel, rel <> [] /\ find_tree rel root = Some TFile /\
      l = posix_join localDir (join [47] rel) /\ r = posix_join remoteDir (join [47] rel).
Proof.
  intros Hok Hl. unfold uploadViaAdb. rewrite Hl. intros [= <-] l r. rewrite elem_of_cons, list_elem_of_In, in_flat_map.
  setoid_rewrite <- list_elem_of_In. setoid_rewrite (walk_files root []); [|done]. split.
  - intros [?|(p & (rel & -> & Hn & Hf) & [?|[[= -> ->]|H%elem_of_nil]%elem_of_cons]%elem_of_cons)]; [done|done| |done].
    by exists rel.
  - intros (rel & Hn & Hf & -> & ->). right. exists rel. split; [by exists rel|]. right. by left.
Qed.

Definition demo_tree : tree := TDir [(js "a.txt", TFile); (js "lib", TDir [(js "b.js", TFile); (js "c.js", TFile)])].

Lemma demo_tree_ok : tree_ok demo_tree.
Proof.
  assert (H : forall ws : list str, bool_decide (NoDup ws) = true -> NoDup ws) by (intros ws ?; by eapply bool_decide_eq_true).
  repeat first [apply H; by vm_compute|constructor].
Qed.

Lemma adb_upload_complete_witness :
  forall l r, APush l r ∈ or_else (match uploadViaAdb demo_tree (js "/w") (js "/r") [] with Ok a => Some a | Throws => None end) [] <->
    exists rel, rel <> [] /\ find_tree rel demo_tree = Some TFile /\
      l = posix_join (js "/w") (join [47] rel) /\ r = posix_join (js "/r") (join [47] rel).
Proof. apply (adb_upload_complete demo_tree (js "/w") (js "/r") []); [apply demo_tree_ok|by vm_compute|by vm_compute]. Defined.

(** A directory that is named in the list is walked relative to itself: its files are looked
    for, and would be put, one level too high. *)
Example adb_directory_prefix_lost :
  uploadViaAdb demo_tree (js "/w") (js "/r") [js "lib"] =
    Ok [AMkdir (js "/r"); AMkdir (js "/r"); APush (js "/w/b.js") (js "/r/b.js");
        AMkdir (js "/r"); APush (js "/w/c.js") (js "/r/c.js")] /\
  find_tree [js "b.js"] demo_tree = None.
Proof. by vm_compute. Qed.

(** The same list over adb from the device keeps the directory. *)
Example adb_download_keeps_directory :
  downloadViaAdb (fun rp => if bool_decide (rp = js "/r/lib") then js "DIR" else js "NONE")
      (fun rp => if bool_decide (rp = js "/r/lib") then [js "b.js"] else []) (js "/r") (js "/w") [js "lib"; js "gone"] =
    Ok [APull (js "/r/lib/b.js") (js "/w/lib/b.js")].
Proof. by vm_compute. Qed.

(** ** Safe entries of the local list *)

Lemma starts_with_dotdot segs : starts_with (js "..") (join [47] (js ".." :: segs)) = true.
Proof. by destruct segs. Qed.

Lemma resolve_clean base p : Forall clean_segment (resolve_segments base p).
Proof. apply normalize_result_clean. constructor. Qed.

(** A local path that is accepted lies in the directory. *)
Lemma local_inside dir p :
  starts_with (js "..") (path_relative dir p) = false ->
  exists rest, resolve_segments dir p = resolve_segments dir [] ++ rest /\ path_relative dir p = join [47] rest /\
    Forall clean_segment rest.
Proof.
  unfold path_relative. intros H.
  destruct (relative_cases (resolve_segments dir []) (resolve_segments dir p)) as [(rest & E & Er)|(t & E)].
  - exists rest. rewrite Er. split_and!; [done|done|]. pose proof (resolve_clean dir p) as Hc. rewrite E in Hc. by apply Forall_app in Hc as [_ ?].
  - rewrite E in H. by rewrite starts_with_dotdot in H.
Qed.

Lemma toPosix_id s : Forall (fun c => c <> 92) s -> toPosix s = s.
Proof. intros H. unfold toPosix, replace_all. induction H as [|d s Hd _ IH]; [done|]. rewrite bind_cons, IH. by destruct (Z.eqb_spec d 92). Qed.

(** ** Host paths *)

Lemma starts_with_prefix p s t : (length p <= length s)%nat -> starts_with p (s ++ t) = starts_with p s.
Proof.
  revert s. induction p as [|c p IH]; intros s H; [done|]. destruct s as [|d s]; [cbn in H; lia|].
  cbn [starts_with app]. rewrite IH by (cbn in H; lia). done.
Qed.

Lemma cut_sub_here pat rest : cut_sub pat (pat ++ rest) = Some ([], rest).
Proof.
  assert (H : starts_with pat (pat ++ rest) = true) by (apply starts_with_spec; by eexists).
  destruct (pat ++ rest) eqn:E; cbn [cut_sub]; rewrite H, <- E, drop_app_length; done.
Qed.

(** The first occurrence does not depend on what follows it. *)
Lemma cut_sub_extend pat a rest :
  pat <> [] -> cut_sub pat (a ++ pat) = Some (a, []) -> cut_sub pat (a ++ pat ++ rest) = Some (a, rest).
Proof.
  intros Hp. induction a as [|c a IH]; intros H; cbn [app]; [apply cut_sub_here|]. cbn [app cut_sub] in *.
  destruct (starts_with pat (c :: a ++ pat)) eqn:E; [done|].
  replace (c :: a ++ pat ++ rest) with ((c :: a ++ pat) ++ rest) by (cbn; by rewrite <- app_assoc).
  rewrite starts_with_prefix by (cbn; rewrite length_app; lia). rewrite E.
  destruct (cut_sub pat (a ++ pat)) as [[a' b']|] eqn:E'; [|done]. simplify_eq. by rewrite IH.
Qed.

Lemma join_app_ne c (a b : list str) : a <> [] -> b <> [] -> join [c] (a ++ b) = join [c] a ++ c :: join [c] b.
Proof.
  intros Ha Hb. induction a as [|x a IH]; [done|]. destruct a as [|y a].
  - cbn [app]. by destruct b.
  - change (join [c] ((x :: y :: a) ++ b)) with (x ++ [c] ++ join [c] ((y :: a) ++ b)). rewrite IH by done.
    change (join [c] (x :: y :: a)) with (x ++ [c] ++ join [c] (y :: a)). by rewrite <- !app_assoc.
Qed.

(** A segment that a path can have *)
Definition name_segment (x : str) : Prop := clean_segment x /\ Forall (fun c => c <> 47) x /\ Forall (fun c => c <> 92) x.

Definition abs_path (segs : list str) : str := 47 :: join [47] segs.

Lemma join_last_not_slash segs : segs <> [] -> Forall name_segment segs -> last (join [47] segs) <> Some 47.
Proof.
  intros Hn H. induction H as [|x segs ((Hx & _) & Hs & _) H IH]; [done|]. destruct segs as [|y segs].
  - cbn [join]. intros E. apply last_Some_elem_of in E. rewrite Forall_forall in Hs. by apply (Hs 47).
  - change (join [47] (x :: y :: segs)) with (x ++ [47] ++ join [47] (y :: segs)). rewrite !last_app.
    specialize (IH ltac:(done)). destruct (last (join [47] (y :: segs))) eqn:E; [done|].
    apply last_None in E. inversion H as [|? ? ((Hy & _) & _) _]; subst. destruct y; [done|]. by destruct segs.
Qed.

Lemma normalize_abs segs : segs <> [] -> Forall name_segment segs -> posix_normalize (abs_path segs) = abs_path segs.
Proof.
  intros Hn H. unfold posix_normalize, abs_path. change (is_absolute (47 :: join [47] segs)) with true. cbn [negb].
  replace (ends_with_slash (47 :: join [47] segs)) with false.
  2:{ symmetry. unfold ends_with_slash. apply bool_decide_false. pose proof (join_last_not_slash segs Hn H) as Hl.
      destruct (join [47] segs) eqn:E; [|by rewrite last_cons_cons]. destruct segs as [|x segs]; [done|].
      inversion H as [|? ? ((Hx & _) & _) _]; subst. destruct x; [done|]. by destruct segs. }
  change (split_on 47 (47 :: join [47] segs)) with ([] :: split_on 47 (join [47] segs)).
  rewrite (split_join 47 segs); [|done|eapply Forall_impl; [exact H|]; by intros x (_ & ? & _)].
  change (normalize_segments false [] ([] :: segs)) with (normalize_segments false [] segs).
  rewrite normalize_clean by (eapply Forall_impl; [exact H|]; by intros x (? & _)). cbn [rev app].
  destruct (join [47] segs) eqn:E; [|by rewrite app_nil_r]. destruct segs as [|x segs]; [done|].
  inversion H as [|? ? ((Hx & _) & _) _]; subst. destruct x; [done|]. by destruct segs.
Qed.

Lemma join_no_backslash segs : Forall name_segment segs -> Forall (fun c => c <> 92) (join [47] segs).
Proof.
  induction 1 as [|x segs (_ & _ & Hx) H IH]; [constructor|]. destruct segs as [|y segs]; [done|].
  change (join [47] (x :: y :: segs)) with (x ++ [47] ++ join [47] (y :: segs)). by repeat (apply Forall_app; split; [|]; [done||by repeat constructor|]).
Qed.

(** A file of the device has a place below host_sync in the workspace, and the place gives
    the file back, as long as the first directory of that name on the way is the mirror. *)
Theorem host_sync_roundtrip W P :
  W <> [] -> P <> [] -> Forall name_segment W -> Forall name_segment P ->
  cut_sub (js "/host_sync/") (abs_path W ++ js "/host_sync/") = Some (abs_path W, []) ->
  toLocalFromHost (abs_path W) (abs_path P) = abs_path (W ++ [js "host_sync"] ++ P) /\
  toHostFromLocalHostSync (toLocalFromHost (abs_path W) (abs_path P)) = abs_path P.
Proof.
  intros HW HP Hw Hp Hcut.
  assert (Hall : Forall name_segment (W ++ [js "host_sync"] ++ P)).
  { apply Forall_app; split; [done|]. apply Forall_app; split; [|done]. by repeat constructor. }
  assert (Hj : abs_path (W ++ [js "host_sync"] ++ P) = abs_path W ++ js "/host_sync/" ++ join [47] P).
  { unfold abs_path. rewrite !join_app_ne by (done || by destruct P). cbn [join app]. done. }
  assert (HL : toLocalFromHost (abs_path W) (abs_path P) = abs_path (W ++ [js "host_sync"] ++ P)).
  { unfold toLocalFromHost. assert (Hd : drop_any_slashes (abs_path P) = join [47] P).
    { unfold drop_any_slashes, abs_path. cbn [drop_while Z.eqb orb]. destruct P as [|[|c x] P]; [done|by inversion Hp as [|? ? ((? & _) & _)]|].
      inversion Hp as [|? ? (_ & H1 & H2) _]; subst. inversion H1; inversion H2; subst.
      change (drop_while (fun c => (c =? 47) || (c =? 92)) (join [47] ((c :: x) :: P)) = join [47] ((c :: x) :: P)).
      assert (E : exists t, join [47] ((c :: x) :: P) = c :: t) by (destruct P; eauto). destruct E as [t ->].
      apply drop_while_head. by destruct (Z.eqb_spec c 47), (Z.eqb_spec c 92). }
    rewrite Hd, toPosix_id by by apply join_no_backslash.
    replace (nonempty (join [47] P)) with true.
    2:{ destruct P as [|[|c x] P]; [done|by inversion Hp as [|? ? ((? & _) & _)]|by destruct P]. }
    rewrite <- (normalize_abs (W ++ [js "host_sync"] ++ P)) by (done || by destruct W). rewrite Hj. done. }
  rewrite HL. split; [done|]. unfold toHostFromLocalHostSync. rewrite toPosix_id.
  - rewrite Hj, cut_sub_extend by done. done.
  - constructor; [done|]. by apply join_no_backslash.
Qed.

Lemma host_sync_roundtrip_witness :
  toLocalFromHost (js "/home/u/ws") (js "/etc/a.conf") = js "/home/u/ws/host_sync/etc/a.conf" /\
  toHostFromLocalHostSync (toLocalFromHost (js "/home/u/ws") (js "/etc/a.conf")) = js "/etc/a.conf".
Proof.
  apply (host_sync_roundtrip [js "home"; js "u"; js "ws"] [js "etc"; js "a.conf"]); [done|done|by repeat constructor|by repeat constructor|by vm_compute].
Defined.

(** Outside the mirror the path of the workspace itself is taken for a path on the device. *)
Example outside_mirror_is_host : toHostFromLocalHostSync (js "/home/u/ws/notes.txt") = js "/home/u/ws/notes.txt".
Proof. by vm_compute. Qed.

(** A file that is pushed under another name is looked for under the remote name. *)
Example push_renamed :
  push_request (js "/w/host_sync/local.txt") (js "/etc/remote.txt") = (js "/w/host_sync", js "/etc", js "remote.txt").
Proof. by vm_compute. Qed.
