(* ===== verification/Git.v ===== *)
(** * Git

    src/core/controller/GitController.ts: the parser of the status, what a pull fetches and a
    push sends and where to, and the arguments of a push. Git, the file system and the
    device's answers are inputs. *)

From stdpp Require Import base list strings.
From Stdlib Require Import ZArith Lia.
From S2P Require Import Prelude JsString Shell Paths Device Transfer.

(** ** Status *)

Record GitLiteItem := MkItem { gi_path : str; gi_code : str }.

Record GitLite := MkLite {
  gl_staged : list GitLiteItem;
  gl_modified : list GitLiteItem;
  gl_untracked : list GitLiteItem;
  gl_conflicts : nat;
  gl_clean : bool;
  gl_repo : bool;
  gl_branch : option str }.

Definition EMPTY_LITE : GitLite := MkLite [] [] [] 0 true false None.

Definition A_ := 65.
Definition C_ := 67.
Definition D_ := 68.
Definition M_ := 77.
Definition R_ := 82.
Definition U_ := 85.
Definition BLANK := 32.
Definition QUEST := 63.
Definition BANG := 33.

(** [X in { A: 1, M: 1, D: 1, R: 1, C: 1 } ? X : 'M'] *)
Definition item_code (x : Z) : str := if bool_decide (x ∈ [A_; M_; D_; R_; C_]) then [x] else [M_].

Definition is_conflict (X Y : Z) : bool :=
  (X =? U_) || (Y =? U_) || ((X =? A_) && (Y =? A_)) || ((X =? D_) && (Y =? D_)) ||
  ((X =? A_) && (Y =? D_)) || ((X =? D_) && (Y =? A_)).

Definition is_rename (X Y : Z) : bool := (X =? R_) || (X =? C_) || (Y =? R_) || (Y =? C_).

Definition arrow : str := [32; 8594; 32].

(** One record of the loop over the parts *)
Definition add_record (X Y : Z) (displayPath : str) (r : GitLite) : GitLite :=
  let push code := [MkItem displayPath code] in
  if (X =? BANG) && (Y =? BANG) then r
  else if is_conflict X Y then
    MkLite (gl_staged r) (gl_modified r) (gl_untracked r) (gl_conflicts r + 1) (gl_clean r) (gl_repo r) (gl_branch r)
  else if negb (X =? BLANK) && negb (X =? QUEST) then
    MkLite (gl_staged r ++ push (item_code X)) (gl_modified r) (gl_untracked r) (gl_conflicts r) (gl_clean r) (gl_repo r) (gl_branch r)
  else if (X =? QUEST) && (Y =? QUEST) then
    MkLite (gl_staged r) (gl_modified r) (gl_untracked r ++ push [QUEST; QUEST]) (gl_conflicts r) (gl_clean r) (gl_repo r) (gl_branch r)
  else if negb (Y =? BLANK) && negb (Y =? QUEST) then
    MkLite (gl_staged r) (gl_modified r ++ push (item_code Y)) (gl_untracked r) (gl_conflicts r) (gl_clean r) (gl_repo r) (gl_branch r)
  else r.

(** The loop; [skip] is set when the part has been taken as the old path of a rename. *)
Fixpoint status_loop (skip : bool) (parts : list str) (r : GitLite) : GitLite :=
  match parts with
  | [] => r
  | rec :: more =>
      if skip then status_loop false more r
      else
        match rec with
        | X :: Y :: _ :: rest =>
            if is_rename X Y then
              match more with
              | oldPath :: _ =>
                  if nonempty oldPath then status_loop true more (add_record X Y (oldPath ++ arrow ++ rest) r)
                  else status_loop false more (add_record X Y rest r)
              | [] => status_loop false more (add_record X Y rest r)
              end
            else status_loop false more (add_record X Y rest r)
        | _ => status_loop false more r
        end
  end.

Definition no_changes (r : GitLite) : bool :=
  match gl_staged r, gl_modified r, gl_untracked r, gl_conflicts r with [], [], [], O => true | _, _, _, _ => false end.

(** [getStatusLiteFromDir] of the outputs of the three git commands; [None] where the command fails *)
Definition is_true_text (out : str) : bool :=
  match trim out with
  | a :: b :: c :: d :: _ => bool_decide (map lower_unit [a; b; c; d] = js "true")
  | _ => false
  end.

Definition getStatusLiteFromDir (is_repo branch status : option str) : GitLite :=
  match is_repo with
  | Some out =>
      if is_true_text out then
        let b := match branch with Some o => if nonempty (trim o) then Some (trim o) else None | None => None end in
        match status with
        | Some stdout =>
            let r := status_loop false (List.filter nonempty (split_on 0 stdout)) (MkLite [] [] [] 0 true true b) in
            MkLite (gl_staged r) (gl_modified r) (gl_untracked r) (gl_conflicts r) (no_changes r) true b
        | None => EMPTY_LITE
        end
      else EMPTY_LITE
  | None => EMPTY_LITE
  end.

(** [printStatusSummary]: the staged, unstaged and untracked files of the plain format *)
Definition summary_line (acc : list str * list str * list str) (ln : str) : list str * list str * list str :=
  let '(staged, unstaged, untracked) := acc in
  let file := drop 3 ln in
  match take 2 ln with
  | a :: b :: _ =>
      if is_upper a && (b =? 32) then (staged ++ [file], unstaged, untracked)
      else if (a =? 32) && is_upper b then (staged, unstaged ++ [file], untracked)
      else if (a =? QUEST) && (b =? QUEST) then (staged, unstaged, untracked ++ [file])
      else acc
  | _ => acc
  end.

Definition printStatusSummary (stdout : str) : list str * list str * list str :=
  fold_left summary_line (List.filter nonempty (split_crlf (trim stdout))) ([], [], []).

(** ** Pull *)

Inductive PullTarget := THomey (k : homey_kind) | THost.

Definition kind_name (k : homey_kind) : str :=
  match k with KPro => js "pro" | KCore => js "core" | KSdk => js "sdk" | KBridge => js "bridge" end.

Definition pull_message (t : PullTarget) : str :=
  js "[Do not push] download " ++ match t with THomey k => js "homey_" ++ kind_name k | THost => js "host_sync" end.

Inductive pull_action := PullFile (remote local : str) | PullDir (remote local : str).

(** What is fetched, and the message of the commit that follows; [Throws] where the source does *)
Definition pull (ws dockerRoot : str) (statType : str -> stat_kind) (t : PullTarget) (hostAbsPath localPath : option str)
    : js_result (pull_action * str) :=
  match t with
  | THost =>
      match hostAbsPath with
      | Some ((_ :: _) as remoteBase) =>
          let localBase := match localPath with Some ((_ :: _) as l) => l | _ => toLocalFromHost ws remoteBase end in
          match statType remoteBase with
          | KFile => Ok (PullFile remoteBase localBase, pull_message t)
          | KDir => Ok (PullDir remoteBase localBase, pull_message t)
          | KNone => Throws
          end
      | _ => Throws
      end
  | THomey k =>
      let remoteBase := resolveHomeyPath dockerRoot k in
      let localBase := posix_join ws (js "homey_" ++ kind_name k) in
      match statType remoteBase with
      | KDir => Ok (PullDir remoteBase localBase, pull_message t)
      | _ => Throws
      end
  end.

(** ** Push *)

Definition is_hex (c : Z) : bool := ((48 <=? c) && (c <=? 57)) || ((65 <=? c) && (c <=? 70)) || ((97 <=? c) && (c <=? 102)).

(** [/^[0-9a-f]{5,40}$/i] *)
Definition commit_like (arg : str) : bool := (5 <=? length arg)%nat && (length arg <=? 40)%nat && forallb is_hex arg.

(** [getFilesSince] and [getAllCommitFiles] of the output of git *)
Definition getFilesSince (ws out : str) : list str := map (posix_join ws) (listed out).

Definition getAllCommitFiles (ws out : str) : list str :=
  fold_left (fun acc f => add_new (posix_join ws f) acc) (listed out) [].

Definition inferFilesFromArg (ws : str) (diff : str -> str) (exists_ : str -> bool) (arg : str) : list str :=
  if commit_like arg then getFilesSince ws (diff arg)
  else
    let abs := if is_absolute arg then arg else posix_join ws arg in
    if exists_ abs then [abs] else [].

Definition M_PRO := js "/homey_pro/".
Definition M_CORE := js "/homey_core/".
Definition M_SDK := js "/homey_sdk/".
Definition M_SDK3 := js "/homey-apps-sdk-v3/".
Definition M_BRIDGE := js "/homey_bridge/".
Definition M_BRIDGE2 := js "/homey-bridge/".
Definition M_HOST := js "/host_sync/".

(** The bucket of a file *)
Definition bucket_of (f : str) : option PullTarget :=
  let norm := toPosix f in
  if includes norm M_PRO then Some (THomey KPro)
  else if includes norm M_CORE then Some (THomey KCore)
  else if includes norm M_SDK3 || includes norm M_SDK then Some (THomey KSdk)
  else if includes norm M_BRIDGE2 || includes norm M_BRIDGE then Some (THomey KBridge)
  else if includes norm M_HOST then Some THost
  else None.

#[export] Instance homey_kind_eq_dec : EqDecision homey_kind.
Proof. solve_decision. Defined.

#[export] Instance target_eq_dec : EqDecision PullTarget.
Proof. solve_decision. Defined.

Definition bucket (t : PullTarget) (files : list str) : list str :=
  List.filter (fun f => bool_decide (bucket_of f = Some t)) files.

(** [norm.split(marker)[1]] *)
Definition split_second (pat s : str) : option str :=
  match cut_sub pat s with
  | None => None
  | Some (_, r) => match cut_sub pat r with Some (a, _) => Some a | None => Some r end
  end.

Definition marker (k : homey_kind) : str := [47] ++ js "homey_" ++ kind_name k ++ [47].

Definition relUnder (abs : str) (k : homey_kind) : str :=
  match split_second (marker k) (toPosix abs) with
  | Some ((_ :: _) as p) => p
  | _ => posix_basename abs
  end.

(** The files that are pushed and where to, in order *)
Definition pushFilesByCategory (dockerRoot : str) (files : list str) (hostPath : option str) : list (str * str) :=
  map (fun f => (f, match hostPath with Some ((_ :: _) as p) => p | _ => toHostFromLocalHostSync f end)) (bucket THost files) ++
  flat_map (fun k => map (fun f => (f, posix_join (resolveHomeyPath dockerRoot k) (relUnder f k))) (bucket (THomey k) files))
    [KPro; KCore; KSdk; KBridge].

(** [push]: [None] is a cancelled input box *)
Definition push (ws dockerRoot : str) (log : str) (diff : str -> str) (exists_ : str -> bool)
    (arg : option str) (hostPath : option str) : list (str * str) :=
  match arg with
  | None => []
  | Some a =>
      let files := match a with [] => getAllCommitFiles ws log | _ => inferFilesFromArg ws diff exists_ a end in
      pushFilesByCategory dockerRoot files hostPath
  end.

(** ** What git prints *)

(** An entry of the status with the documented letters *)
Record change := MkChange { ch_x : Z; ch_y : Z; ch_path : str; ch_old : str }.

Definition T_ := 84.

(** The seven unmerged states of the manual *)
Definition unmerged : list (Z * Z) :=
  [(D_, D_); (A_, U_); (U_, D_); (U_, A_); (D_, U_); (A_, A_); (U_, U_)].

Definition index_letters : list Z := [M_; T_; A_; D_; R_; C_].

(** The ordinary states: a letter for the index, a letter for the work tree; a file that is
    added to the index and deleted from the work tree is left out. *)
Definition ordinary : list (Z * Z) :=
  flat_map (fun x => map (fun y => (x, y)) [BLANK; M_; T_; D_; R_; C_]) [M_; T_; R_; C_] ++
  map (fun y => (A_, y)) [BLANK; M_; T_; R_; C_] ++
  map (fun y => (BLANK, y)) index_letters ++ map (fun y => (D_, y)) [BLANK; M_; T_; R_; C_].

Definition states : list (Z * Z) := ordinary ++ unmerged ++ [(QUEST, QUEST); (BANG, BANG)].

Definition xy (c : change) : Z * Z := (ch_x c, ch_y c).

Definition no_nul (s : str) : Prop := s <> [] /\ Forall (fun d => d <> 0) s.

Definition change_ok (c : change) : Prop :=
  xy c ∈ states /\ no_nul (ch_path c) /\ (if is_rename (ch_x c) (ch_y c) then no_nul (ch_old c) else ch_old c = []).

Definition parts_of (c : change) : list str :=
  ([ch_x c; ch_y c; 32] ++ ch_path c) :: (if is_rename (ch_x c) (ch_y c) then [ch_old c] else []).

(** [git status --porcelain=v1 -z] *)
Definition porcelain (cs : list change) : str := flat_map (fun p => p ++ [0]) (flat_map parts_of cs).

Definition shown (c : change) : str :=
  if is_rename (ch_x c) (ch_y c) then ch_old c ++ arrow ++ ch_path c else ch_path c.

Definition is_unmerged (c : change) : bool := bool_decide (xy c ∈ unmerged).
Definition is_staged (c : change) : bool := bool_decide (xy c ∈ ordinary) && bool_decide (ch_x c ∈ index_letters).
Definition is_modified (c : change) : bool := bool_decide (xy c ∈ ordinary) && bool_decide (ch_x c = BLANK).
Definition is_untracked (c : change) : bool := bool_decide (xy c = (QUEST, QUEST)).

(** ** Lemmas *)

Lemma split_parts ps : Forall (Forall (fun d => d <> 0)) ps -> split_on 0 (flat_map (fun p => p ++ [0]) ps) = ps ++ [[]].
Proof.
  induction 1 as [|p ps Hp _ IH]; [done|]. cbn [flat_map]. rewrite <- app_assoc. cbn [app].
  by rewrite split_on_app_sep, (split_on_none 0 p Hp), IH.
Qed.

Lemma states_letters c : change_ok c -> ch_x c <> 0 /\ ch_y c <> 0.
Proof.
  intros (H & _). assert (Hall : Forall (fun p => p.1 <> 0 /\ p.2 <> 0) states) by by repeat constructor.
  rewrite Forall_forall in Hall. by apply (Hall (xy c)).
Qed.

Lemma parts_ok c : change_ok c -> Forall (fun p => p <> [] /\ Forall (fun d => d <> 0) p) (parts_of c).
Proof.
  intros Hc. destruct (states_letters c Hc) as [Hx Hy]. destruct Hc as (_ & [_ Hp] & Ho). unfold parts_of. constructor.
  - split; [done|]. by repeat constructor.
  - destruct (is_rename _ _); [|constructor]. by constructor.
Qed.

Lemma filter_all_nonempty (ps : list str) : Forall (fun p => p <> []) ps -> List.filter nonempty (ps ++ [[]]) = ps.
Proof. induction 1 as [|[|c p] ps Hp _ IH]; [done|done|]. cbn [app List.filter nonempty]. by rewrite IH. Qed.

Lemma parts_of_porcelain cs : Forall change_ok cs -> List.filter nonempty (split_on 0 (porcelain cs)) = flat_map parts_of cs.
Proof.
  intros H. assert (Hp : Forall (fun p => p <> [] /\ Forall (fun d => d <> 0) p) (flat_map parts_of cs)).
  { induction H as [|c cs Hc _ IH]; [constructor|]. cbn [flat_map]. apply Forall_app. split; [by apply parts_ok|done]. }
  unfold porcelain. rewrite split_parts by (eapply Forall_impl; [exact Hp|]; by intros ? []).
  apply filter_all_nonempty. eapply Forall_impl; [exact Hp|]. by intros ? [].
Qed.

(** One entry is read as a record, whatever follows. *)
Lemma status_loop_entry c more r :
  change_ok c -> status_loop false (parts_of c ++ more) r = status_loop false more (add_record (ch_x c) (ch_y c) (shown c) r).
Proof.
  intros (_ & _ & Ho). unfold parts_of, shown. cbn [app status_loop]. destruct (is_rename _ _); [|done].
  cbn [app]. destruct Ho as [Hn _]. destruct (ch_old c) eqn:E; [done|]. rewrite <- E. cbn [nonempty]. by rewrite E.
Qed.

Definition item_x (c : change) : GitLiteItem := MkItem (shown c) (item_code (ch_x c)).
Definition item_y (c : change) : GitLiteItem := MkItem (shown c) (item_code (ch_y c)).
Definition item_new (c : change) : GitLiteItem := MkItem (shown c) [QUEST; QUEST].

Definition on_list {A} (b : bool) (x : A) : list A := if b then [x] else [].

(** Decided propositions on closed terms *)
Ltac eval_decisions :=
  repeat match goal with |- context [bool_decide ?P] => let b := eval vm_compute in (bool_decide P) in change (bool_decide P) with b end.

(** The branch that a documented state takes *)
Lemma add_record_state c r :
  xy c ∈ states ->
  add_record (ch_x c) (ch_y c) (shown c) r =
    MkLite (gl_staged r ++ on_list (is_staged c) (item_x c)) (gl_modified r ++ on_list (is_modified c) (item_y c))
      (gl_untracked r ++ on_list (is_untracked c) (item_new c)) (gl_conflicts r + length (on_list (is_unmerged c) tt))
      (gl_clean r) (gl_repo r) (gl_branch r).
Proof.
  destruct c as [x y p o], r as [s m u n cl rp b]. unfold item_x, item_y, item_new, is_staged, is_modified, is_untracked, is_unmerged, xy.
  cbn [ch_x ch_y gl_staged gl_modified gl_untracked gl_conflicts gl_clean gl_repo gl_branch]. generalize (shown (MkChange x y p o)) as d.
  intros d H.
  assert (Hall : Forall (fun q : Z * Z => forall d s m u n,
    add_record q.1 q.2 d (MkLite s m u n cl rp b) =
    MkLite (s ++ on_list (bool_decide (q ∈ ordinary) && bool_decide (q.1 ∈ index_letters)) (MkItem d (item_code q.1)))
      (m ++ on_list (bool_decide (q ∈ ordinary) && bool_decide (q.1 = BLANK)) (MkItem d (item_code q.2)))
      (u ++ on_list (bool_decide (q = (QUEST, QUEST))) (MkItem d [QUEST; QUEST]))
      (n + length (on_list (bool_decide (q ∈ unmerged)) tt)) cl rp b) states).
  { clear. let l := eval vm_compute in states in change states with l.
    repeat (apply Forall_cons_2; [intros; unfold item_code; eval_decisions; cbv -[app Nat.add]; rewrite ?app_nil_r, ?Nat.add_0_r; reflexivity|]).
    apply Forall_nil_2. }
  rewrite Forall_forall in Hall. specialize (Hall (x, y) H). cbn [fst snd] in Hall. apply Hall.
Qed.

Lemma status_loop_spec cs r :
  Forall change_ok cs ->
  status_loop false (flat_map parts_of cs) r =
    MkLite (gl_staged r ++ map item_x (List.filter is_staged cs)) (gl_modified r ++ map item_y (List.filter is_modified cs))
      (gl_untracked r ++ map item_new (List.filter is_untracked cs)) (gl_conflicts r + length (List.filter is_unmerged cs))
      (gl_clean r) (gl_repo r) (gl_branch r).
Proof.
  intros H. revert r. induction H as [|c cs Hc _ IH]; intros r.
  - cbn. rewrite !app_nil_r, Nat.add_0_r. by destruct r.
  - cbn [flat_map]. rewrite status_loop_entry by done. rewrite IH. rewrite add_record_state by apply Hc.
    cbn [gl_staged gl_modified gl_untracked gl_conflicts gl_clean gl_repo gl_branch List.filter].
    destruct (is_staged c), (is_modified c), (is_untracked c), (is_unmerged c);
      cbn [on_list map length]; rewrite <- ?app_assoc, ?app_nil_r; cbn [app]; f_equal; lia.
Qed.

(** ** Theorems *)



(** A file that is staged and changed again is in the staged list only; an added file that was
    deleted again counts as a conflict. *)
Example both_changed_is_staged_only :
  getStatusLiteFromDir (Some (js "true")) (Some (js "main")) (Some (js "MM a.c" ++ [0] ++ js "AD b.c" ++ [0])) =
    MkLite [MkItem (js "a.c") (js "M")] [] [] 1 false true (Some (js "main")).
Proof. by vm_compute. Qed.

(** The summary trims the output before it cuts it into lines: a first file that is changed
    but not staged is listed as staged, without the first letter of its name. *)
Example summary_first_line :
  printStatusSummary (js " M main.c" ++ [10] ++ js " M util.c" ++ [10]) = ([js "ain.c"], [js "util.c"], []).
Proof. by vm_compute. Qed.

(** ** Markers in paths *)

(** A path as its segments with their slashes *)
Definition pre (segs : list str) : str := flat_map (fun x => 47 :: x) segs.

Lemma pre_app a b : pre (a ++ b) = pre a ++ pre b.
Proof. unfold pre. apply flat_map_app. Qed.

Lemma abs_pre segs : segs <> [] -> abs_path segs = pre segs.
Proof.
  intros H. unfold abs_path, pre. induction segs as [|x segs IH]; [done|]. destruct segs as [|y segs]; [cbn; by rewrite app_nil_r|].
  change (join [47] (x :: y :: segs)) with (x ++ 47 :: join [47] (y :: segs)). rewrite IH by done. done.
Qed.

Definition slashed (m : str) : str := 47 :: m ++ [47].

Definition no_slash (x : str) : Prop := Forall (fun c => c <> 47) x.

Lemma cut_sub_skip m x t : no_slash x -> cut_sub (slashed m) (x ++ t) = (fun '(a, b) => (x ++ a, b)) <$> cut_sub (slashed m) t.
Proof.
  induction 1 as [|c x Hc _ IH]; cbn [app].
  - by destruct (cut_sub _ t) as [[]|].
  - cbn [cut_sub]. replace (starts_with (slashed m) (c :: x ++ t)) with false.
    2:{ unfold slashed. cbn [starts_with]. by destruct (Z.eqb_spec 47 c); [congruence|]. }
    rewrite IH. by destruct (cut_sub _ t) as [[]|].
Qed.

(** A mark begins a path only as its first segment. *)
Lemma starts_mark m x segs :
  no_slash m -> no_slash x -> starts_with (slashed m) (pre (x :: segs)) = bool_decide (m = x) && bool_decide (segs <> []).
Proof.
  intros Hm Hx. unfold slashed. cbn [pre flat_map]. change (flat_map (fun x0 => 47 :: x0) segs) with (pre segs). cbn [starts_with app].
  rewrite Z.eqb_refl. cbn [andb]. revert x Hx. induction Hm as [|c m Hc _ IH]; intros x Hx; cbn [app].
  - destruct Hx as [|d x Hd _]; cbn [app].
    + rewrite (bool_decide_true ([] = [])) by done. destruct segs; [done|]. done.
    + cbn [starts_with]. destruct (Z.eqb_spec 47 d); [congruence|]. done.
  - destruct Hx as [|d x Hd Hx]; cbn [app].
    + rewrite (bool_decide_false (c :: m = [])) by done. destruct segs as [|y segs]; [done|]. cbn [pre flat_map app starts_with].
      by destruct (Z.eqb_spec c 47).
    + cbn [starts_with]. rewrite IH by done. destruct (Z.eqb_spec c d) as [->|Hn]; cbn [andb].
      * f_equal. apply bool_decide_ext. naive_solver.
      * symmetry. apply andb_false_iff. left. apply bool_decide_false. congruence.
Qed.

(** The first mark of a path, and its absence *)
Lemma cut_sub_mark m A b B :
  no_slash m -> Forall no_slash A -> m ∉ A -> cut_sub (slashed m) (pre (A ++ m :: b :: B)) = Some (pre A, b ++ pre B).
Proof.
  intros Hm HA Hin. induction HA as [|x A Hx _ IH].
  - replace (pre ([] ++ m :: b :: B)) with (slashed m ++ b ++ pre B) by (unfold pre, slashed; cbn; by rewrite <- app_assoc).
    apply cut_sub_here.
  - apply not_elem_of_cons in Hin as [Hmx Hin]. cbn [app]. pose proof (starts_mark m x (A ++ m :: b :: B) Hm Hx) as Hs.
    rewrite (bool_decide_false (m = x)) in Hs by done. cbn [pre flat_map app] in *. cbn [cut_sub]. rewrite Hs. cbn [andb].
    change (flat_map (fun x0 => 47 :: x0) (A ++ m :: b :: B)) with (pre (A ++ m :: b :: B)). rewrite cut_sub_skip, IH by done. done.
Qed.

Lemma cut_sub_no_mark m segs : no_slash m -> Forall no_slash segs -> m ∉ segs -> cut_sub (slashed m) (pre segs) = None.
Proof.
  intros Hm HA Hin. induction HA as [|x A Hx _ IH]; [done|]. apply not_elem_of_cons in Hin as [Hmx Hin].
  pose proof (starts_mark m x A Hm Hx) as Hs. rewrite (bool_decide_false (m = x)) in Hs by done.
  cbn [pre flat_map app] in *. cbn [cut_sub]. rewrite Hs. cbn [andb].
  change (flat_map (fun x0 => 47 :: x0) A) with (pre A). by rewrite cut_sub_skip, IH.
Qed.

Lemma includes_cut s p : includes s p = bool_decide (is_Some (cut_sub p s)).
Proof.
  induction s as [|c s IH]; cbn [includes cut_sub].
  - destruct (starts_with p []); [symmetry; by apply bool_decide_true|]. symmetry. apply bool_decide_false. by intros [].
  - destruct (starts_with p (c :: s)); [symmetry; by apply bool_decide_true|]. cbn [orb]. rewrite IH.
    apply bool_decide_ext. destruct (cut_sub p s) as [[]|]; split; intros []; done.
Qed.

Definition category_names : list str :=
  [js "homey_pro"; js "homey_core"; js "homey-apps-sdk-v3"; js "homey_sdk"; js "homey-bridge"; js "homey_bridge"].

Lemma includes_none segs m : m ∈ js "host_sync" :: category_names -> Forall no_slash segs -> m ∉ segs -> includes (pre segs) (slashed m) = false.
Proof.
  intros Hm Hs Hn. rewrite includes_cut, cut_sub_no_mark; [done| |done|done].
  assert (H : Forall no_slash (js "host_sync" :: category_names)) by by repeat constructor. rewrite Forall_forall in H. by apply H.
Qed.

Lemma marks :
  M_PRO = slashed (js "homey_pro") /\ M_CORE = slashed (js "homey_core") /\ M_SDK3 = slashed (js "homey-apps-sdk-v3") /\
  M_SDK = slashed (js "homey_sdk") /\ M_BRIDGE2 = slashed (js "homey-bridge") /\ M_BRIDGE = slashed (js "homey_bridge").
Proof. done. Qed.

(** The local name of a volume *)
Definition volume (k : homey_kind) : str := js "homey_" ++ kind_name k.

Lemma marker_mark k : marker k = slashed (volume k).
Proof. by destruct k. Qed.

Lemma volume_in k : volume k ∈ category_names.
Proof. destruct k; cbv; repeat first [left; reflexivity|right]. Qed.

Lemma volume_segment k : name_segment (volume k).
Proof. destruct k; by repeat constructor. Qed.

Lemma pre_no_backslash segs : Forall name_segment segs -> Forall (fun c => c <> 92) (pre segs).
Proof. induction 1 as [|x segs (_ & _ & Hx) _ IH]; [constructor|]. cbn [pre flat_map]. constructor; [done|]. by apply Forall_app. Qed.

(** What is pulled from a volume goes back to where it came from: below the volume's directory
    in the workspace every file is put in the volume's bucket, and the path under the marker
    is the path in the volume. *)
Theorem push_returns root W k P :
  P <> [] -> Forall name_segment W -> Forall name_segment P -> (forall m, m ∈ category_names -> (m ∉ W) /\ (m ∉ P)) ->
  let f := abs_path (W ++ volume k :: P) in
  pushFilesByCategory root [f] None = [(f, posix_join (resolveHomeyPath root k) (join [47] P))].
Proof.
  intros HP HW Hp Hno f. assert (Hf : f = pre (W ++ volume k :: P)) by (apply abs_pre; by destruct W).
  assert (Hall : Forall name_segment (W ++ volume k :: P)) by (apply Forall_app; split; [done|]; constructor; [apply volume_segment|done]).
  assert (Hns : Forall no_slash (W ++ volume k :: P)) by (eapply Forall_impl; [exact Hall|]; by intros x (_ & ? & _)).
  assert (Hpos : toPosix f = f) by (rewrite Hf; apply toPosix_id; by apply pre_no_backslash).
  destruct P as [|b B]; [done|].
  assert (Hcut : cut_sub (marker k) f = Some (pre W, join [47] (b :: B))).
  { rewrite Hf, marker_mark, cut_sub_mark.
    - f_equal. f_equal. assert (E := abs_pre (b :: B)). unfold abs_path, pre in E. cbn [flat_map app] in E.
      specialize (E ltac:(done)). by simplify_eq.
    - by destruct (volume_segment k) as (_ & ? & _).
    - by apply Forall_app in Hns as [? _].
    - by apply Hno, volume_in. }
  assert (Hrest : cut_sub (marker k) (join [47] (b :: B)) = None).
  { assert (E := abs_pre (b :: B) ltac:(done)). unfold abs_path in E.
    assert (Hn : cut_sub (slashed (volume k)) (pre (b :: B)) = None).
    { apply cut_sub_no_mark; [by destruct (volume_segment k) as (_ & ? & _)| |by apply Hno, volume_in].
      eapply Forall_impl; [exact Hp|]. by intros x (_ & ? & _). }
    rewrite <- E in Hn. rewrite <- marker_mark in Hn. cbn [cut_sub] in Hn.
    destruct (starts_with (marker k) _); [done|]. by destruct (cut_sub (marker k) (join [47] (b :: B))) as [[]|]. }
  assert (Hb : bucket_of f = Some (THomey k)).
  { unfold bucket_of. rewrite Hpos. destruct marks as (-> & -> & -> & -> & -> & ->).
    assert (Hinc : forall m, m ∈ category_names -> includes f (slashed m) = bool_decide (m = volume k)).
    { intros m Hm. case_bool_decide as E; [by rewrite E, includes_cut, <- marker_mark, Hcut|].
      rewrite Hf. apply includes_none; [by right|done|]. destruct (Hno m Hm) as [H1 H2].
      intros [?|[?|?]%elem_of_cons]%elem_of_app; done. }
    rewrite !Hinc by (cbv; repeat first [left; reflexivity|right]). by destruct k. }
  unfold pushFilesByCategory, bucket. cbn [List.filter flat_map]. rewrite !Hb.
  assert (Hne : exists c t, join [47] (b :: B) = c :: t).
  { inversion Hp as [|? ? ((Hb0 & _) & _) _]; subst. destruct b as [|c b]; [done|]. destruct B; by eexists _, _. }
  destruct Hne as (c & t & Hne).
  destruct k; eval_decisions; cbn [map app]; unfold relUnder, split_second; rewrite Hpos, Hcut, Hrest, Hne; done.
Qed.

Lemma push_returns_witness :
  pushFilesByCategory (js "/var/lib/docker") [js "/home/u/ws/homey_core/lib/a.js"] None =
    [(js "/home/u/ws/homey_core/lib/a.js", js "/var/lib/docker/volumes/homey-node/_data/@athombv/homey-core/dist/lib/a.js")].
Proof.
  apply (push_returns (js "/var/lib/docker") [js "home"; js "u"; js "ws"] KCore [js "lib"; js "a.js"]); [done|by repeat constructor|by repeat constructor|].
  intros m Hm. assert (H : Forall (fun m => (m ∉ [js "home"; js "u"; js "ws"]) /\ (m ∉ [js "lib"; js "a.js"])) category_names).
  { repeat constructor; apply (bool_decide_unpack _); by vm_compute. }
  rewrite Forall_forall in H. by apply H.
Defined.

(** Every file of a known category is sent, once; no other file is. *)
Theorem push_partition root files hostPath :
  Permutation (map fst (pushFilesByCategory root files hostPath)) (List.filter (fun f => bool_decide (bucket_of f <> None)) files).
Proof.
  unfold pushFilesByCategory. rewrite map_app, map_map. cbn [fst flat_map app]. rewrite !map_app, !map_map, app_nil_r. cbn [fst map].
  rewrite !map_id. induction files as [|f files IH]; [done|]. unfold bucket in *. cbn [List.filter].
  destruct (bucket_of f) as [[[]|]|]; eval_decisions; cbn [app]; rewrite <- ?IH, <- ?Permutation_middle; done.
Qed.

(** The two other names of the volumes are recognised, but the path below them is not: the
    directories are lost. *)
Example other_names_lose_directories :
  pushFilesByCategory (js "/d") [js "/ws/homey-bridge/lib/a.js"] None =
    [(js "/ws/homey-bridge/lib/a.js", js "/d/volumes/homey-node/_data/@athombv/homey-bridge/a.js")].
Proof. by vm_compute. Qed.

(** A path that has the marker twice is cut at the second one. *)
Example second_marker_cuts :
  pushFilesByCategory (js "/d") [js "/ws/homey_pro/test/homey_pro/a.js"] None =
    [(js "/ws/homey_pro/test/homey_pro/a.js", js "/d/volumes/homey-app/_data/test")].
Proof. by vm_compute. Qed.
