(* ===== verification/UserData.v ===== *)
(** * User data

    src/core/config/userdata.ts: the settings file of the extension, the workspace it points
    to, the list of devices, the state of the panel, the preferences of the log viewer, and
    the list of file patterns of a parser configuration. A file is its text, or [None] when
    it cannot be read; writing a file succeeds. The order of the members of an object is the
    order in which they were set. *)

From stdpp Require Import base list strings.
From Stdlib Require Import ZArith Lia.
From S2P Require Import Prelude JsString Regex Json Manifest Shell Paths.

(** ** Objects *)

(** [obj[k] = v] *)
Definition oset (k : str) (v : json) (l : list (str * json)) : list (str * json) :=
  match jget k l with
  | Some _ => map (fun p => if bool_decide (p.1 = k) then (k, v) else p) l
  | None => l ++ [(k, v)]
  end.

(** [{ ...l, ...patch }] *)
Definition spread (l patch : list (str * json)) : list (str * json) :=
  fold_left (fun acc p => oset p.1 p.2 acc) patch l.

(** The members that [...v] copies *)
Definition members (v : json) : list (str * json) :=
  match v with
  | JObj m => m
  | JArr l => imap (fun i x => (print_int (Z.of_nat i), x)) l
  | JStr s => imap (fun i c => (print_int (Z.of_nat i), JStr [c])) s
  | _ => []
  end.

(** [v.k] of a value that is not null *)
Definition get_prop (k : str) (v : json) : option json := match v with JObj m => jget k m | _ => None end.

(** [v?.k], where a null is undefined for what follows *)
Definition opt_prop (k : str) (o : option json) : option json := o ≫= get_prop k.

(** [v.k = x]: an array does not print the member, a primitive value throws. *)
Definition set_prop (k : str) (x v : json) : js_result json :=
  match v with
  | JObj m => Ok (JObj (oset k x m))
  | JArr l => Ok (JArr l)
  | _ => Throws
  end.

(** [o ?? d] *)
Definition nullish (o : option json) (d : json) : json := match o with Some JNull | None => d | Some v => v end.

(** ** Files *)

Record storage := MkStorage { st_config : option str; st_devices : option str }.

Definition safeParseJson (text : str) : option json := JSON_parse text.

Definition readJsonFile (file : option str) : option json := file ≫= safeParseJson.

(** [writeJson(uri, obj)] *)
Definition writeJson (v : json) : option str := Some (print_pretty 0 v).

Definition readAppConfig (s : storage) : json := nullish (readJsonFile (st_config s)) (JObj []).

Definition writeAppConfig (v : json) (s : storage) : storage := MkStorage (writeJson v) (st_devices s).

(** ** Workspace *)

Inductive ws_source := FromUser | FromDefault.

Record WorkspaceInfo := MkInfo { wi_base : str; wi_ws : str; wi_source : ws_source }.

Definition DIR_WORKSPACE := js "workspace".

(** The directories that are ensured on the way are named by the result. *)
Definition resolveWorkspaceInfo (storageDir : str) (s : storage) : js_result WorkspaceInfo :=
  let default_ := MkInfo storageDir (posix_join storageDir DIR_WORKSPACE) FromDefault in
  match get_prop (js "workspace_dir") (readAppConfig s) with
  | None | Some JNull => Ok default_
  | Some (JStr w) =>
      let base := trim w in
      if nonempty base && is_absolute base then Ok (MkInfo base (posix_join base DIR_WORKSPACE) FromUser)
      else Ok default_
  | Some _ => Throws                        (* trim of a value that is not a string *)
  end.

Definition changeWorkspaceBaseDir (storageDir absoluteBaseDir : str) (s : storage) : js_result (WorkspaceInfo * storage) :=
  if negb (nonempty absoluteBaseDir) || negb (is_absolute absoluteBaseDir) then Throws
  else match set_prop (js "workspace_dir") (JStr absoluteBaseDir) (readAppConfig s) with
       | Throws => Throws
       | Ok cfg =>
           let s' := writeAppConfig cfg s in
           match resolveWorkspaceInfo storageDir s' with Ok info => Ok (info, s') | Throws => Throws end
       end.

(** ** Devices *)

Definition readDeviceList (s : storage) : json := nullish (readJsonFile (st_devices s)) (JArr []).

Definition writeDeviceList (list : json) (s : storage) : storage :=
  MkStorage (st_config s) (writeJson (match list with JArr _ => list | _ => JArr [] end)).

Definition addDevice (entry : json) (s : storage) : js_result storage :=
  match readDeviceList s with
  | JArr l => Ok (writeDeviceList (JArr (l ++ [entry])) s)
  | _ => Throws
  end.

(** [(d.id ?? '') === id] *)
Definition has_id (id : str) (d : json) : js_result bool :=
  match d with
  | JNull => Throws
  | _ => Ok (match nullish (get_prop (js "id") d) (JStr []) with JStr t => bool_decide (t = id) | _ => false end)
  end.

Fixpoint without_id (id : str) (l : list json) : js_result (list json) :=
  match l with
  | [] => Ok []
  | d :: rest =>
      match has_id id d, without_id id rest with
      | Ok b, Ok rest' => Ok (if b then rest' else d :: rest')
      | _, _ => Throws
      end
  end.

Definition removeDeviceById (id : str) (s : storage) : js_result storage :=
  match readDeviceList s with
  | JArr l => match without_id id l with Ok l' => Ok (writeDeviceList (JArr l') s) | Throws => Throws end
  | _ => Throws
  end.

(** The list with the first device of that id updated, or [None] *)
Fixpoint update_device (id : str) (patch : list (str * json)) (l : list json) : js_result (option (list json)) :=
  match l with
  | [] => Ok None
  | d :: rest =>
      match has_id id d with
      | Throws => Throws
      | Ok true => Ok (Some (JObj (spread (spread [] (members d)) patch) :: rest))
      | Ok false =>
          match update_device id patch rest with
          | Ok (Some l') => Ok (Some (d :: l'))
          | r => r
          end
      end
  end.

Definition updateDeviceById (id : str) (patch : list (str * json)) (s : storage) : js_result storage :=
  match readDeviceList s with
  | JArr l =>
      match update_device id patch l with
      | Ok (Some l') => Ok (writeDeviceList (JArr l') s)
      | Ok None => Ok s
      | Throws => Throws
      end
  | _ => Throws
  end.

(** ** Panel state and preferences *)

Record PanelState := MkPanelState {
  ps_showExplorer : json;
  ps_showLogs : json;
  ps_controlHeight : option json;
  ps_splitterPosition : option json }.

Definition readEdgePanelState (s : storage) : PanelState :=
  let p := get_prop (js "panelState") (readAppConfig s) in
  MkPanelState
    (nullish (opt_prop (js "showExplorer") p) (JBool true))
    (nullish (opt_prop (js "showLogs") p) (JBool false))
    (opt_prop (js "controlHeight") p)
    (opt_prop (js "splitterPosition") p).

Definition spread_opt (o : option json) : list (str * json) := match o with Some v => members v | None => [] end.

Definition writeEdgePanelState (state : list (str * json)) (s : storage) : js_result storage :=
  let config := readAppConfig s in
  match set_prop (js "panelState")
          (JObj (spread (spread [] (spread_opt (get_prop (js "panelState") config))) state)) config with
  | Ok c => Ok (writeAppConfig c s)
  | Throws => Throws
  end.

Definition DEFAULT_LOGVIEWER_PREFS : list (str * json) :=
  [(js "showTime", JBool true); (js "showProc", JBool true); (js "showPid", JBool true); (js "showMsg", JBool true);
   (js "wrapMode", JBool false); (js "bookmarksOpen", JBool false); (js "highlightWords", JArr []); (js "columnWidths", JArr [])].

Definition readLogViewerPrefs (s : storage) : list (str * json) :=
  spread DEFAULT_LOGVIEWER_PREFS (spread_opt (get_prop (js "logViewer") (readAppConfig s))).

Definition writeLogViewerPrefs (patch : list (str * json)) (s : storage) : js_result storage :=
  let config := readAppConfig s in
  match set_prop (js "logViewer") (JObj (spread (readLogViewerPrefs s) patch)) config with
  | Ok c => Ok (writeAppConfig c s)
  | Throws => Throws
  end.

(** ** Parser configuration *)

Definition readParserConfigJson (file : option str) : option (list json) :=
  match readJsonFile file with
  | Some v => match get_prop (js "parser") v with Some (JArr l) => Some l | _ => None end
  | None => None
  end.

(** The rotations that a file token can ask for *)
Inductive rotation := RAny | RUpTo (k : nat) | ROne (k : nat).

Definition rx_meta (c : Z) : bool := existsb (Z.eqb c) (js ".*+?^${}()|[]\").

Definition escape_base (s : str) : str := s ≫= fun c => if rx_meta c then [92; c] else [c].

(** [parseInt] of a run of digits *)
Definition rotation_number (s : str) : nat := Z.to_nat (fold_left (fun n c => 10 * n + (c - 48)) s 0).

Definition digit_run (s : str) : bool := nonempty s && forallb is_digit s.

Definition rotation_of (spec : str) : option rotation :=
  if bool_decide (spec = js "n") then Some RAny
  else match spec with
       | c :: t => if (c =? 58) && digit_run t then Some (RUpTo (rotation_number t))
                   else if digit_run spec then Some (ROne (rotation_number spec)) else None
       | [] => None
       end.

Definition nat_text (n : nat) : str := print_int (Z.of_nat n).

Definition rotation_text (base : str) (r : rotation) : str :=
  let b := escape_base base in
  match r with
  | RAny => js "^" ++ b ++ js "(?:\.\d+)?$"
  | RUpTo O | ROne O => js "^" ++ b ++ js "$"
  | RUpTo k => js "^" ++ b ++ js "(?:\.(?:" ++ join [124] (map nat_text (seq 1 k)) ++ js "))?$"
  | ROne k => js "^" ++ b ++ js "\." ++ nat_text k ++ js "$"
  end.

(** What the text means as a regular expression *)
Definition rotation_re (base : str) (r : rotation) : re :=
  match r with
  | RAny => sq [Bol; lit base; opt (Sq (chr 46) (plus (Cls is_digit))); Eol]
  | RUpTo O | ROne O => sq [Bol; lit base; Eol]
  | RUpTo k => sq [Bol; lit base; opt (Sq (chr 46) (alts (map (fun n => lit (nat_text n)) (seq 1 k)))); Eol]
  | ROne k => sq [Bol; lit base; chr 46; lit (nat_text k); Eol]
  end.

(** [/^(.+)\.\{([^}]+)\}$/] *)
Definition TOKEN_RX : re :=
  sq [Bol; Grp 1 (plus (Cls (fun c => negb (existsb (Z.eqb c) [10; 13; 8232; 8233])))); lit (js ".{");
      Grp 2 (plus (Cls (fun c => negb (c =? 125)))); chr 125; Eol].

Definition tokenToWhitelist (token : str) : list str :=
  let t := trim token in
  match t with
  | [] => []
  | c :: _ =>
      if c =? 94 then [t]
      else match exec TOKEN_RX t with
           | None => [t]
           | Some mt =>
               match rotation_of (or_else (cap mt 2) []) with
               | Some r => [rotation_text (or_else (cap mt 1) []) r]
               | None => []
               end
           end
  end.

(** A truthy token that is not a text has no [trim]. *)
Definition rule_tokens (rule : json) : js_result (list str) :=
  match get_prop (js "need") rule with
  | Some (JBool false) => Ok []
  | _ =>
      match get_prop (js "file") rule with
      | None | Some JNull | Some (JBool false) | Some (JNum 0) | Some (JStr []) => Ok []
      | Some (JStr t) => Ok (tokenToWhitelist t)
      | Some _ => Throws
      end
  end.

Fixpoint rules_tokens (rules : list json) (acc : list str) : js_result (list str) :=
  match rules with
  | [] => Ok acc
  | r :: rest =>
      match rule_tokens r with
      | Throws => Throws
      | Ok gs => rules_tokens rest (fold_left (fun acc g => if bool_decide (g ∈ acc) then acc else acc ++ [g]) gs acc)
      end
  end.

Definition readParserWhitelistGlobs (file : option str) : js_result (list str) :=
  match readParserConfigJson file with
  | None => Ok []
  | Some rules => rules_tokens rules []
  end.

(** ** Lemmas on objects *)

Lemma jget_app k a b : jget k (a ++ b) = match jget k b with Some v => Some v | None => jget k a end.
Proof.
  induction a as [|[k' v] a IH]; cbn [app jget]; [by destruct (jget k b)|]. rewrite IH. by destruct (jget k b).
Qed.

Lemma jget_replace k k' v l :
  jget k' (map (fun p => if bool_decide (p.1 = k) then (k, v) else p) l) =
    (if bool_decide (k' = k) then (fun _ => v) <$> jget k l else jget k' l).
Proof.
  induction l as [|[a x] l IH]; cbn [map jget fst]; [by case_bool_decide|].
  destruct (decide (a = k)) as [->|Ha]; [rewrite (bool_decide_true (k = k)) by done|rewrite (bool_decide_false (a = k)) by done]; cbn [jget]; rewrite IH.
  - destruct (decide (k' = k)) as [->|Hn].
    + rewrite !bool_decide_true by done. by destruct (jget k l).
    + rewrite !bool_decide_false by done. done.
  - destruct (decide (k' = k)) as [->|Hn].
    + rewrite (bool_decide_true (k = k)), (bool_decide_false (k = a)) by congruence. by destruct (jget k l).
    + by rewrite (bool_decide_false (k' = k)).
Qed.

Lemma jget_oset k k' v l : jget k' (oset k v l) = if bool_decide (k' = k) then Some v else jget k' l.
Proof.
  unfold oset. destruct (jget k l) eqn:E.
  - rewrite jget_replace, E. by case_bool_decide.
  - rewrite jget_app. cbn [jget]. case_bool_decide as Ek; [done|done].
Qed.

(** The later members win. *)
Lemma jget_spread k l patch : jget k (spread l patch) = match jget k patch with Some v => Some v | None => jget k l end.
Proof.
  unfold spread. revert l. induction patch as [|[a x] patch IH]; intros l; cbn [fold_left fst snd]; [done|].
  rewrite IH, jget_oset. cbn [jget]. destruct (jget k patch); [done|]. by case_bool_decide.
Qed.

Lemma read_written v s : v <> JNull -> readAppConfig (writeAppConfig v s) = v.
Proof.
  intros Hv. unfold readAppConfig, writeAppConfig, readJsonFile, safeParseJson, writeJson. cbn [st_config mbind option_bind].
  rewrite JSON_parse_pretty. by destruct v.
Qed.

Lemma devices_written l s : readDeviceList (writeDeviceList (JArr l) s) = JArr l.
Proof.
  unfold readDeviceList, writeDeviceList, readJsonFile, safeParseJson, writeJson. cbn [st_devices mbind option_bind].
  by rewrite JSON_parse_pretty.
Qed.

(** The settings of a storage whose file holds an object, or nothing that can be read *)
Definition setting (k : str) (s : storage) : option json := get_prop k (readAppConfig s).

Definition config_object (s : storage) : Prop := exists m, readAppConfig s = JObj m.

(** ** Theorems *)

(** A new base directory is in force at once and after a restart, and no other setting moves. *)
Theorem workspace_changed storageDir dir s :
  config_object s -> is_absolute dir = true -> trim dir = dir ->
  exists s', changeWorkspaceBaseDir storageDir dir s = Ok (MkInfo dir (posix_join dir DIR_WORKSPACE) FromUser, s') /\
    resolveWorkspaceInfo storageDir s' = Ok (MkInfo dir (posix_join dir DIR_WORKSPACE) FromUser) /\
    st_devices s' = st_devices s /\ config_object s' /\
    forall k, k <> js "workspace_dir" -> setting k s' = setting k s.
Proof.
  intros [m Hm] Ha Ht. assert (Hne : nonempty dir = true) by by destruct dir.
  set (s' := writeAppConfig (JObj (oset (js "workspace_dir") (JStr dir) m)) s).
  assert (Hr : readAppConfig s' = JObj (oset (js "workspace_dir") (JStr dir) m)) by by apply read_written.
  assert (Hi : resolveWorkspaceInfo storageDir s' = Ok (MkInfo dir (posix_join dir DIR_WORKSPACE) FromUser)).
  { unfold resolveWorkspaceInfo. rewrite Hr. cbn [get_prop]. rewrite jget_oset, bool_decide_true, Ht, Hne, Ha by done. done. }
  exists s'. split_and!; [|done|done|by eexists|].
  - unfold changeWorkspaceBaseDir. rewrite Hne, Ha, Hm. cbn [negb orb set_prop]. fold s'. by rewrite Hi.
  - intros k Hk. unfold setting. rewrite Hr, Hm. cbn [get_prop]. by rewrite jget_oset, bool_decide_false.
Qed.

Lemma workspace_changed_witness :
  exists s', changeWorkspaceBaseDir (js "/st") (js "/data") (MkStorage None None) =
      Ok (MkInfo (js "/data") (posix_join (js "/data") DIR_WORKSPACE) FromUser, s') /\
    resolveWorkspaceInfo (js "/st") s' = Ok (MkInfo (js "/data") (posix_join (js "/data") DIR_WORKSPACE) FromUser) /\
    st_devices s' = None /\ config_object s' /\
    forall k, k <> js "workspace_dir" -> setting k s' = setting k (MkStorage None None).
Proof. apply (workspace_changed (js "/st") (js "/data") (MkStorage None None)); [by eexists|done|done]. Defined.

(** The preferences that are saved are read back; those that are not keep their value or
    their default, and no other setting moves. *)
Theorem prefs_saved patch s :
  config_object s ->
  exists s', writeLogViewerPrefs patch s = Ok s' /\ config_object s' /\
    (forall k, jget k (readLogViewerPrefs s') = match jget k patch with Some v => Some v | None => jget k (readLogViewerPrefs s) end) /\
    (forall k, k <> js "logViewer" -> setting k s' = setting k s).
Proof.
  intros [m Hm]. unfold writeLogViewerPrefs. rewrite Hm. cbn [set_prop].
  set (prefs := spread (readLogViewerPrefs s) patch). set (s' := writeAppConfig _ s).
  assert (Hr : readAppConfig s' = JObj (oset (js "logViewer") (JObj prefs) m)) by by apply read_written.
  exists s'. split_and!; [done|by eexists| |].
  - intros k. unfold readLogViewerPrefs at 1. rewrite Hr. cbn [get_prop]. rewrite jget_oset, bool_decide_true by done.
    cbn [spread_opt members]. rewrite jget_spread. unfold prefs. rewrite jget_spread. unfold readLogViewerPrefs. rewrite jget_spread.
    destruct (jget k patch); [done|]. by repeat destruct (jget k _).
  - intros k Hk. unfold setting. rewrite Hr, Hm. cbn [get_prop]. by rewrite jget_oset, bool_decide_false.
Qed.

Lemma prefs_saved_witness :
  exists s', writeLogViewerPrefs [(js "wrapMode", JBool true)] (MkStorage None None) = Ok s' /\ config_object s' /\
    (forall k, jget k (readLogViewerPrefs s') =
       match jget k [(js "wrapMode", JBool true)] with Some v => Some v | None => jget k (readLogViewerPrefs (MkStorage None None)) end) /\
    (forall k, k <> js "logViewer" -> setting k s' = setting k (MkStorage None None)).
Proof. apply (prefs_saved [(js "wrapMode", JBool true)] (MkStorage None None)). by eexists. Defined.

(** The state of the panel is merged in the same way. *)
Theorem panel_state_saved state s :
  config_object s ->
  exists s', writeEdgePanelState state s = Ok s' /\ config_object s' /\
    (forall k, jget k (spread_opt (setting (js "panelState") s')) =
       match jget k state with Some v => Some v | None => jget k (spread_opt (setting (js "panelState") s)) end) /\
    (forall k, k <> js "panelState" -> setting k s' = setting k s).
Proof.
  intros [m Hm]. unfold writeEdgePanelState. rewrite Hm. cbn [set_prop]. set (s' := writeAppConfig _ s).
  assert (Hr : readAppConfig s' = JObj (oset (js "panelState")
      (JObj (spread (spread [] (spread_opt (get_prop (js "panelState") (JObj m)))) state)) m)) by by apply read_written.
  exists s'. split_and!; [done|by eexists| |].
  - intros k. unfold setting. rewrite Hr, Hm. cbn [get_prop]. rewrite jget_oset, bool_decide_true by done. cbn [spread_opt members].
    rewrite !jget_spread. destruct (jget k state); [done|]. by destruct (jget k (spread_opt _)).
  - intros k Hk. unfold setting. rewrite Hr, Hm. cbn [get_prop]. by rewrite jget_oset, bool_decide_false.
Qed.

(** ** Devices *)

Definition id_matches (id : str) (d : json) : bool :=
  match nullish (get_prop (js "id") d) (JStr []) with JStr t => bool_decide (t = id) | _ => false end.

Lemma without_id_filter id l :
  Forall (fun d => d <> JNull) l -> without_id id l = Ok (List.filter (fun d => negb (id_matches id d)) l).
Proof.
  induction 1 as [|d l Hd _ IH]; [done|]. cbn [without_id List.filter]. rewrite IH.
  replace (has_id id d) with (Ok (id_matches id d)) by by destruct d. by destruct (id_matches id d).
Qed.

Lemma update_device_spec id patch l :
  Forall (fun d => d <> JNull) l ->
  update_device id patch l =
    Ok (match list_find (fun d => id_matches id d = true) l with
        | Some (i, d) => Some (<[i := JObj (spread (spread [] (members d)) patch)]> l)
        | None => None
        end).
Proof.
  induction 1 as [|d l Hd _ IH]; [done|]. cbn [update_device list_find].
  replace (has_id id d) with (Ok (id_matches id d)) by by destruct d.
  destruct (id_matches id d); [by rewrite decide_True|]. rewrite decide_False by done. rewrite IH.
  by destruct (list_find _ l) as [[i e]|].
Qed.

(** The list of devices: an added device is last, a removed id is gone and the rest keeps its
    order, an update touches the first device of the id only and changes its members as the
    patch says; each is what the next reading of the file gives. *)
Theorem devices_edited id patch entry l s :
  readDeviceList s = JArr l -> Forall (fun d => d <> JNull) l ->
  (exists s1, addDevice entry s = Ok s1 /\ readDeviceList s1 = JArr (l ++ [entry])) /\
  (exists s2, removeDeviceById id s = Ok s2 /\ readDeviceList s2 = JArr (List.filter (fun d => negb (id_matches id d)) l)) /\
  (exists s3 l3, updateDeviceById id patch s = Ok s3 /\ readDeviceList s3 = JArr l3 /\ length l3 = length l /\
     forall i d, l !! i = Some d -> exists d', l3 !! i = Some d' /\
       (if bool_decide (fst <$> list_find (fun d => id_matches id d = true) l = Some i)
        then forall k, get_prop k d' = match jget k patch with Some v => Some v | None => jget k (members d) end
        else d' = d)).
Proof.
  intros Hl Hn. split_and!.
  - eexists. unfold addDevice. rewrite Hl. split; [done|]. apply devices_written.
  - eexists. unfold removeDeviceById. rewrite Hl, without_id_filter by done. split; [done|]. apply devices_written.
  - unfold updateDeviceById. rewrite Hl, update_device_spec by done.
    destruct (list_find _ l) as [[j e]|] eqn:Ef; cbn [fmap option_fmap option_map fst].
    + apply list_find_Some in Ef as (Hj & _ & _). eexists _, _. split_and!; [done|apply devices_written|by rewrite length_insert|].
      intros i d Hi. case_bool_decide as E.
      * simplify_eq. eexists. rewrite list_lookup_insert_eq by (by eapply lookup_lt_Some). split; [done|]. intros k. cbn [get_prop].
        rewrite !jget_spread. destruct (jget k patch); [done|]. by destruct (jget k (members _)).
      * exists d. rewrite list_lookup_insert_ne by congruence. done.
    + exists s, l. split_and!; [done|done|done|]. intros i d Hi. exists d. by rewrite bool_decide_false.
Qed.

Definition demo_devices : storage :=
  MkStorage None (Some (print_pretty 0 (JArr [JObj [(js "id", JStr (js "a")); (js "port", JNum 22)]; JObj [(js "name", JStr (js "b"))]]))).

Lemma devices_edited_witness :
  exists s2, removeDeviceById (js "a") demo_devices = Ok s2 /\ readDeviceList s2 = JArr [JObj [(js "name", JStr (js "b"))]].
Proof.
  apply (devices_edited (js "a") [] JNull [JObj [(js "id", JStr (js "a")); (js "port", JNum 22)]; JObj [(js "name", JStr (js "b"))]] demo_devices);
    [by vm_compute|by repeat constructor].
Defined.

(** An empty id removes every device that has none. *)
Example empty_id_removes_nameless :
  match removeDeviceById [] demo_devices with Ok s => readDeviceList s | Throws => JNull end =
    JArr [JObj [(js "id", JStr (js "a")); (js "port", JNum 22)]].
Proof. by vm_compute. Qed.

(** ** File patterns *)

Lemma rx_test_bounded r1 r2 s :
  unanchored r1 = true -> unanchored r2 = true -> rx_test (sq [Bol; r1; r2; Eol]) s = true <-> exists u v, s = u ++ v /\ den r1 u /\ den r2 v.
Proof.
  intros H1 H2. rewrite <- den_sq_inv, <- rx_test_whole by (cbn [unanchored]; by rewrite H1, H2).
  unfold rx_test. cbn [sq]. rewrite !exec_anchored. by cbn [rmatch].
Qed.

Lemma unanchored_lit w : unanchored (lit w) = true.
Proof. unfold lit. induction w as [|c w IH]; [done|]. cbn [map sq]. by destruct w. Qed.

Lemma unanchored_alts l : Forall (fun r => unanchored r = true) l -> unanchored (alts l) = true.
Proof. induction 1 as [|r l Hr _ IH]; [done|]. cbn [alts]. destruct l; [done|]. cbn [unanchored]. by rewrite Hr, IH. Qed.

(** The names a rotation stands for *)
Definition rotated (base : str) (r : rotation) (name : str) : Prop :=
  match r with
  | RAny => name = base \/ exists ds, name = base ++ [46] ++ ds /\ ds <> [] /\ Forall (fun c => is_digit c = true) ds
  | RUpTo k => name = base \/ exists n, (1 <= n <= k)%nat /\ name = base ++ [46] ++ nat_text n
  | ROne O => name = base
  | ROne k => name = base ++ [46] ++ nat_text k
  end.

Lemma den_dot r s : den (Sq (chr 46) r) s <-> exists v, s = 46 :: v /\ den r v.
Proof.
  rewrite den_sq_inv. split.
  - intros (u & v & -> & ->%den_chr & ?). by exists v.
  - intros (v & -> & ?). exists [46], v. split_and!; [done|by apply den_cls|done].
Qed.

Lemma den_base base v : (exists u w, v = u ++ w /\ den (lit base) u /\ den Eps w) <-> v = base.
Proof.
  split; [by intros (u & w & -> & ->%den_lit & ->%den_eps_inv); rewrite app_nil_r|].
  intros ->. exists base, []. rewrite app_nil_r. split_and!; [done|apply den_lit_self|constructor].
Qed.

(** A token of the parser configuration selects the file and its rotations, and nothing else. *)
Theorem rotation_exact base r name : rx_test (rotation_re base r) name = true <-> rotated base r name.
Proof.
  assert (Hopt : forall q, unanchored q = true ->
    rx_test (sq [Bol; lit base; opt (Sq (chr 46) q); Eol]) name = true <-> name = base \/ exists ds, name = base ++ [46] ++ ds /\ den q ds).
  { intros q Hq. rewrite rx_test_bounded; [|apply unanchored_lit|cbn; by rewrite Hq]. unfold opt. split.
    - intros (u & v & -> & ->%den_lit & [H | ->%den_eps_inv]%den_alt_inv); [right|left; by rewrite app_nil_r].
      apply den_dot in H as (w & -> & ?). by exists w.
    - intros [->|(ds & -> & H)]; [exists base, []|exists base, (46 :: ds)].
      + rewrite app_nil_r. split_and!; [done|apply den_lit_self|]. apply den_alt_r. constructor.
      + split_and!; [done|apply den_lit_self|]. apply den_alt_l. apply den_dot. by exists ds. }
  assert (Hbase : rx_test (sq [Bol; lit base; Eol]) name = true <-> name = base).
  { change (sq [Bol; lit base; Eol]) with (Sq Bol (Sq (lit base) Eol)). rewrite rx_test_whole by apply unanchored_lit.
    split; [apply den_lit|]. intros ->. apply den_lit_self. }
  destruct r as [|[|k]|[|k]]; cbn [rotation_re rotated].
  - rewrite Hopt by done. setoid_rewrite den_plus_cls_iff. done.
  - rewrite Hbase. split; [by left|]. intros [?|(n & ? & _)]; [done|lia].
  - rewrite Hopt.
    2:{ apply unanchored_alts. apply Forall_forall. intros q Hq. apply list_elem_of_fmap in Hq as (n & -> & _). apply unanchored_lit. }
    apply or_iff_compat_l. split.
    + intros (ds & -> & (q & Hq & H)%den_alts). apply list_elem_of_fmap in Hq as (n & -> & Hn%elem_of_seq). apply den_lit in H as ->.
      exists n. split; [lia|done].
    + intros (n & Hn & ->). exists (nat_text n). split; [done|]. apply den_alts. exists (lit (nat_text n)). split; [|apply den_lit_self].
      apply list_elem_of_fmap. exists n. split; [done|]. apply elem_of_seq. lia.
  - exact Hbase.
  - change (sq [Bol; lit base; chr 46; lit (nat_text (S k)); Eol]) with (sq [Bol; lit base; Sq (chr 46) (Sq (lit (nat_text (S k))) Eol)]).
    transitivity (rx_test (sq [Bol; lit base; Sq (chr 46) (lit (nat_text (S k))); Eol]) name = true).
    { unfold rx_test. cbn [sq]. rewrite !exec_anchored. by cbn [rmatch]. }
    rewrite rx_test_bounded; [|apply unanchored_lit|cbn; apply unanchored_lit]. split.
    + intros (u & v & -> & ->%den_lit & (w & -> & ->%den_lit)%den_dot). done.
    + intros ->. exists base, (46 :: nat_text (S k)). split_and!; [done|apply den_lit_self|]. apply den_dot.
      exists (nat_text (S k)). split; [done|apply den_lit_self].
Qed.

(** Tokens, with the texts that reach the merger *)
Example tokens_of_a_configuration :
  map tokenToWhitelist [js "system.log.{n}"; js "kernel.log.{:2}"; js "a+b.log.{3}"; js "plain.log"; js "^own$"; js "x.{bad}"; js " "] =
    [[js "^system\.log(?:\.\d+)?$"]; [js "^kernel\.log(?:\.(?:1|2))?$"]; [js "^a\+b\.log\.3$"]; [js "plain.log"]; [js "^own$"]; []; []].
Proof. by vm_compute. Qed.
