(* ===== verification/Explorer.v ===== *)
(** * Explorer

    src/extension/panels/explorerBridge.ts: the coalescer of refreshes, the watchers, the
    handling of file events and of the webview's requests, and the scaffold of a workspace.
    What the file system and git answer are inputs. *)

From stdpp Require Import base list strings gmap gmultiset sets.
From Stdlib Require Import ZArith Lia.
From S2P Require Import Prelude JsString Shell Paths Device Transfer Git.

(** ** The coalescer *)

Definition DEBOUNCE_MS := 100.

(** [co_again] holds the timers of 0 ms; [co_running] the calls of [run] that have not ended. *)
Record coalescer := MkCo {
  co_timers : gmap str Z;
  co_again : gmultiset str;
  co_inflight : gset str;
  co_pending : gset str;
  co_running : gmultiset str }.

Definition co_init : coalescer := MkCo ∅ ∅ ∅ ∅ ∅.

Definition schedule (now : Z) (scope : str) (c : coalescer) : coalescer :=
  if bool_decide (scope ∈ co_inflight c) then
    MkCo (co_timers c) (co_again c) (co_inflight c) ({[scope]} ∪ co_pending c) (co_running c)
  else MkCo (<[scope := now + DEBOUNCE_MS]> (co_timers c)) (co_again c) (co_inflight c) (co_pending c) (co_running c).

(** [execute] up to the call of [run] *)
Definition execute (scope : str) (c : coalescer) : coalescer :=
  if bool_decide (scope ∈ co_inflight c) then
    MkCo (co_timers c) (co_again c) (co_inflight c) ({[scope]} ∪ co_pending c) (co_running c)
  else MkCo (co_timers c) (co_again c) ({[scope]} ∪ co_inflight c) (co_pending c) ({[+ scope +]} ⊎ co_running c).

(** The rest of [execute], when [run] has ended, well or not *)
Definition executed (scope : str) (c : coalescer) : coalescer :=
  let running := co_running c ∖ {[+ scope +]} in
  let inflight := co_inflight c ∖ {[scope]} in
  if bool_decide (scope ∈ co_pending c) then
    MkCo (co_timers c) ({[+ scope +]} ⊎ co_again c) inflight (co_pending c ∖ {[scope]}) running
  else MkCo (co_timers c) (co_again c) inflight (co_pending c) running.

(** The timer of [schedule], and the one of 0 ms *)
Definition timer_fires (scope : str) (c : coalescer) : coalescer :=
  execute scope (MkCo (delete scope (co_timers c)) (co_again c) (co_inflight c) (co_pending c) (co_running c)).

Definition again_fires (scope : str) (c : coalescer) : coalescer :=
  execute scope (MkCo (co_timers c) (co_again c ∖ {[+ scope +]}) (co_inflight c) (co_pending c) (co_running c)).

(** What happens in the event loop: a call of [schedule], and the steps of the coalescer *)
Inductive co_event := CSchedule (now : Z) (scope : str) | CTimer (scope : str) | CAgain (scope : str) | CEnds (scope : str).

Inductive co_step : coalescer -> co_event -> coalescer -> Prop :=
  | co_schedule c now scope : co_step c (CSchedule now scope) (schedule now scope c)
  | co_timer c scope d : co_timers c !! scope = Some d -> co_step c (CTimer scope) (timer_fires scope c)
  | co_again_fires c scope : scope ∈ co_again c -> co_step c (CAgain scope) (again_fires scope c)
  | co_ends c scope : scope ∈ co_running c -> co_step c (CEnds scope) (executed scope c).

Inductive co_steps : coalescer -> list co_event -> coalescer -> Prop :=
  | co_none c : co_steps c [] c
  | co_more c e c1 es c2 : co_step c e c1 -> co_steps c1 es c2 -> co_steps c (e :: es) c2.

(** ** Watchers *)

(** The watchers that exist, each with the directory it was made for *)
Inductive watcher_kind := WRoot | WGit.

Record watchers := MkWatchers {
  w_root : option str;
  w_git : option str;
  w_info : option str;
  w_timer : bool;
  w_disposed : bool }.

Definition w_init : watchers := MkWatchers None None None true false.

Definition addRootWatcher (base : str) (w : watchers) : watchers :=
  if w_disposed w || bool_decide (is_Some (w_root w)) then w
  else MkWatchers (Some base) (w_git w) (w_info w) (w_timer w) (w_disposed w).

Definition addGitWatcher (base : str) (w : watchers) : watchers :=
  if w_disposed w || bool_decide (is_Some (w_git w)) then w
  else MkWatchers (w_root w) (Some base) (w_info w) (w_timer w) (w_disposed w).

Definition ensureWatchers (w : watchers) : watchers :=
  match w_info w with
  | Some base =>
      if w_disposed w then w
      else addGitWatcher base (addRootWatcher base (MkWatchers None (w_git w) (w_info w) (w_timer w) (w_disposed w)))
  | None => w
  end.

(** [ensureInfo], where the workspace is at [resolved] *)
Definition ensureInfo (resolved : str) (w : watchers) : watchers :=
  match w_info w with
  | Some _ => w
  | None => ensureWatchers (MkWatchers (w_root w) (w_git w) (Some resolved) (w_timer w) (w_disposed w))
  end.

Definition watchers_cleanup (w : watchers) : watchers := ensureWatchers w.

Definition watchers_dispose (w : watchers) : watchers := MkWatchers None None (w_info w) false true.

(** [refreshWorkspaceRoot] up to the scaffold *)
Definition refreshRoot (resolved : str) (w : watchers) : watchers :=
  ensureInfo resolved (MkWatchers (w_root w) (w_git w) None (w_timer w) (w_disposed w)).

Inductive w_event := WEnsure (resolved : str) | WCleanup | WRefresh (resolved : str) | WDispose.

Definition w_do (w : watchers) (e : w_event) : watchers :=
  match e with
  | WEnsure r => ensureInfo r w
  | WCleanup => watchers_cleanup w
  | WRefresh r => refreshRoot r w
  | WDispose => watchers_dispose w
  end.

(** ** Entries and paths *)

Definition HIDE_DIRS : list str := [js ".git"; js "node_modules"; js ".svn"; js ".hg"].
Definition HIDE_FILES : list str := [js ".DS_Store"; js "Thumbs.db"].

Inductive entry_type := EFile | EFolder | EOther.

Definition shouldHideEntry (name : str) (folder : bool) : bool :=
  if folder then bool_decide (name ∈ HIDE_DIRS) else bool_decide (name ∈ HIDE_FILES).

(** The items that [list] posts, with whether each is a folder *)
Definition list_items (entries : list (str * entry_type)) : list (str * bool) :=
  flat_map (fun '(name, t) =>
    match t with
    | EOther => []
    | EFolder => if shouldHideEntry name true then [] else [(name, true)]
    | EFile => if shouldHideEntry name false then [] else [(name, false)]
    end) entries.

(** [toChildUri]: the segments that are joined to the base, and the path that [Uri.joinPath] gives *)
Definition child_segments (rel : str) : list str := List.filter nonempty (split_on 47 (toPosix (drop_any_slashes rel))).

Definition toChildUri (base rel : str) : str := posix_normalize (base ++ flat_map (fun x => 47 :: x) (child_segments rel)).

(** ** Events and requests *)

Inductive fs_event := FCreate | FChange | FDelete.

(** What [handleFsEvent] asks for: a refresh of a scope, and of the status *)
Record refresh := MkRefresh { rf_scope : option str; rf_git : bool }.

Definition top_segment (dir rel : str) : str :=
  match List.filter nonempty (split_on 47 dir) with
  | x :: _ => x
  | [] => match List.filter nonempty (split_on 47 rel) with x :: _ => x | [] => [] end
  end.

Definition handleFsEvent (base path : str) (e : fs_event) : refresh :=
  let rel := relFromBase base path in
  let top := top_segment (parentDir rel) rel in
  if bool_decide (top ∈ HIDE_DIRS) then MkRefresh None false
  else match e with
       | FChange => MkRefresh None true
       | _ => MkRefresh (Some (parentDir rel)) true
       end.

Inductive explorer_request :=
  | ReqList (path : str) | ReqRefresh (path : str) | ReqOpen (path : str)
  | ReqCreateFile (path : str) | ReqCreateFolder (path : str) | ReqDelete (path : str) (recursive useTrash : bool)
  | ReqOther.

(** The calls of the file system, with the absolute path *)
Inductive fs_call :=
  | ReadDirectory (p : str) | OpenDocument (p : str) | WriteEmpty (p : str) | CreateDirectory (p : str)
  | DeletePath (p : str) (recursive useTrash : bool).

Inductive fs_answer := Entries (es : list (str * entry_type)) | Done | Failed (message : str).

Inductive explorer_op := OpList | OpOpen | OpCreateFile | OpCreateFolder | OpDelete.

Inductive explorer_msg :=
  | ListResult (path : str) (items : list (str * bool))
  | ExplorerOk (op : explorer_op) (path : str)
  | ExplorerError (op : explorer_op) (message : str).

Definition call_of (base : str) (r : explorer_request) : option (fs_call * explorer_op * str) :=
  match r with
  | ReqList p | ReqRefresh p => Some (ReadDirectory (toChildUri base p), OpList, p)
  | ReqOpen p => Some (OpenDocument (toChildUri base p), OpOpen, p)
  | ReqCreateFile p => Some (WriteEmpty (toChildUri base p), OpCreateFile, p)
  | ReqCreateFolder p => Some (CreateDirectory (toChildUri base p), OpCreateFolder, p)
  | ReqDelete p rec trash => Some (DeletePath (toChildUri base p) rec trash, OpDelete, p)
  | ReqOther => None
  end.

(** [handleMessage] with what the call answers: whether the message was taken, and the post *)
Definition handleMessage (base : str) (fs : fs_call -> fs_answer) (r : explorer_request) : bool * list explorer_msg :=
  match call_of base r with
  | None => (false, [])
  | Some (c, op, p) =>
      (true, [match fs c with
              | Failed m => ExplorerError op m
              | Entries es => match op with OpList => ListResult p (list_items es) | _ => ExplorerOk op p end
              | Done => match op with OpList => ListResult p [] | _ => ExplorerOk op p end
              end])
  end.

(** ** Scaffold *)

Definition GITIGNORE_TEMPLATE_REL := js "media/resources/.gitignore.template".
Definition PARSER_CONFIG_REL := js ".config/custom_log_parser.json".
Definition PARSER_README_REL := js ".config/custom_log_parser_readme.md".
Definition PARSER_TEMPLATE_REL := js "media/resources/custom_log_parser.template.v1.json".
Definition PARSER_README_TEMPLATE_REL := js "doc/logging-0-parser.md".

(** The files of the workspace by their path in it; [None] of a template is one that cannot be
    read, [writable] says where a write succeeds. *)
Section scaffold.
  Context (template : str -> option str) (writable : str -> bool).

Definition writeFromTemplate (relTarget embeddedRel : str) (files : gmap str str) : bool * gmap str str :=
    match files !! relTarget with
    | Some _ => (false, files)
    | None =>
        match template embeddedRel with
        | Some buf => if writable relTarget then (true, <[relTarget := buf]> files) else (false, files)
        | None => (false, files)
        end
    end.

Definition GIT_PROBE := js "git rev-parse --is-inside-work-tree".

  (** The commands that run, where [git] gives the output of a command or [None] when it fails *)
Definition ensureGitInitAddCommit (git : str -> option str) : list str :=
    let isRepo := match git GIT_PROBE with Some out => is_true_text out | None => false end in
    let add := js "git add .gitignore" in
    let rest := add :: match git add with
                       | Some _ => [js "git commit -m " ++ [34] ++ js "[Do not push] add gitignore" ++ [34]]
                       | None => []
                       end in
    GIT_PROBE ::
      (if isRepo then rest else js "git init" :: match git (js "git init") with Some _ => rest | None => [] end).

Definition ensureWorkspaceScaffold (git : str -> option str) (forceCommit : bool) (files : gmap str str)
      : gmap str str * list str :=
    let '(created, f1) := writeFromTemplate (js ".gitignore") GITIGNORE_TEMPLATE_REL files in
    let '(_, f2) := writeFromTemplate PARSER_CONFIG_REL PARSER_TEMPLATE_REL f1 in
    let '(_, f3) := writeFromTemplate PARSER_README_REL PARSER_README_TEMPLATE_REL f2 in
    (f3, if created || forceCommit then ensureGitInitAddCommit git else []).
End scaffold.

(** ** Lemmas on the coalescer *)

Record co_ok (c : coalescer) : Prop := {
  ok_running : forall s, multiplicity s (co_running c) = if bool_decide (s ∈ co_inflight c) then 1%nat else 0%nat;
  ok_pending : co_pending c ⊆ co_inflight c }.

Lemma co_init_ok : co_ok co_init.
Proof. split; [|done]. intros s. cbn. rewrite multiplicity_empty. by rewrite bool_decide_false by set_solver. Qed.

Lemma execute_ok s c : co_ok c -> co_ok (execute s c).
Proof.
  intros [H1 H2]. unfold execute. case_bool_decide as E; split; cbn [co_running co_inflight co_pending]; [done|set_solver| |set_solver].
  intros s'. rewrite multiplicity_disj_union, H1, multiplicity_singleton. destruct (decide (s' = s)) as [->|Hn].
  - rewrite (bool_decide_false (s ∈ co_inflight c)), bool_decide_true by set_solver. done.
  - by rewrite (bool_decide_ext (s' ∈ {[s]} ∪ co_inflight c) (s' ∈ co_inflight c)) by set_solver.
Qed.

Lemma executed_ok s c : co_ok c -> s ∈ co_running c -> co_ok (executed s c).
Proof.
  intros [H1 H2] Hs. assert (Hin : s ∈ co_inflight c).
  { rewrite elem_of_multiplicity, H1 in Hs. case_bool_decide; [done|lia]. }
  assert (Hr : forall s', multiplicity s' (co_running c ∖ {[+ s +]}) = if bool_decide (s' ∈ co_inflight c ∖ {[s]}) then 1%nat else 0%nat).
  { intros s'. rewrite multiplicity_difference, H1, multiplicity_singleton. destruct (decide (s' = s)) as [->|Hn].
    - rewrite bool_decide_true, (bool_decide_false (s ∈ _ ∖ _)) by set_solver. done.
    - rewrite (bool_decide_ext (s' ∈ co_inflight c ∖ {[s]}) (s' ∈ co_inflight c)) by set_solver. by case_bool_decide. }
  unfold executed. case_bool_decide as E; split; cbn [co_running co_inflight co_pending]; [done| |done|]; set_solver.
Qed.

Lemma co_step_ok c e c' : co_ok c -> co_step c e c' -> co_ok c'.
Proof.
  intros Hc H. destruct H as [c now s|c s d _|c s _|c s Hs].
  - destruct Hc as [H1 H2]. unfold schedule. case_bool_decide; split; cbn; [done|set_solver|done|done].
  - apply execute_ok. destruct Hc. by split.
  - apply execute_ok. destruct Hc. by split.
  - by apply executed_ok.
Qed.

Lemma co_steps_ok c es c' : co_ok c -> co_steps c es c' -> co_ok c'.
Proof. intros Hc H. induction H as [|c e c1 es c2 Hs _ IH]; [done|]. apply IH. by eapply co_step_ok. Qed.

(** A refresh is owed for a scope. *)
Definition owed (s : str) (c : coalescer) : Prop := is_Some (co_timers c !! s) \/ s ∈ co_again c \/ s ∈ co_pending c.

(** An event that starts a listing of a scope *)
Definition starts (s : str) (c : coalescer) (e : co_event) : Prop :=
  (s ∉ co_inflight c) /\ (e = CTimer s \/ e = CAgain s).

Ltac co_simpl := cbn [co_timers co_again co_inflight co_pending co_running].

Lemma schedule_owed now s c : owed s (schedule now s c).
Proof. unfold schedule, owed. case_bool_decide; co_simpl; [right; right; set_solver|left; by rewrite lookup_insert_eq]. Qed.

Lemma execute_owed s s' c : owed s c -> owed s (execute s' c).
Proof.
  unfold owed, execute. case_bool_decide; co_simpl; [|done]. intros [?|[?|?]]; [by left|by right; left|right; right; set_solver].
Qed.

Lemma owed_kept s c e c' : co_step c e c' -> owed s c -> owed s c' \/ starts s c e.
Proof.
  intros H Ho. destruct H as [c now s'|c s' d Hd|c s' Ha|c s' Hr].
  - left. unfold schedule, owed in *. case_bool_decide; co_simpl.
    + destruct Ho as [?|[?|?]]; [by left|by right; left|right; right; set_solver].
    + destruct (decide (s' = s)) as [->|Hn]; [left; by rewrite lookup_insert_eq|]. by rewrite lookup_insert_ne.
  - destruct (decide (s' = s)) as [->|Hn].
    + unfold starts. destruct (decide (s ∈ co_inflight c)); [left|right; naive_solver].
      unfold timer_fires, execute, owed. co_simpl. rewrite bool_decide_true by done. co_simpl. right. right. set_solver.
    + left. apply execute_owed. unfold owed in *. co_simpl. by rewrite lookup_delete_ne.
  - destruct (decide (s' = s)) as [->|Hn].
    + unfold starts. destruct (decide (s ∈ co_inflight c)); [left|right; naive_solver].
      unfold again_fires, execute, owed. co_simpl. rewrite bool_decide_true by done. co_simpl. right. right. set_solver.
    + left. apply execute_owed. unfold owed in *. co_simpl. destruct Ho as [?|[?|?]]; [by left|right; left|by right; right]. multiset_solver.
  - left. unfold executed, owed in *. case_bool_decide as E; co_simpl.
    + destruct Ho as [?|[?|?]]; [by left|right; left; multiset_solver|]. right. destruct (decide (s' = s)) as [->|]; [left; multiset_solver|right; set_solver].
    + destruct Ho as [?|[?|?]]; [by left|by right; left|by right; right].
Qed.

(** Nothing is left to happen. *)
Definition quiet (c : coalescer) : Prop := co_timers c = ∅ /\ co_again c = ∅ /\ co_running c = ∅.

Lemma quiet_owed s c : co_ok c -> quiet c -> ~ owed s c.
Proof.
  intros [H1 H2] (Ht & Ha & Hr) [Ho|[Ho|Ho]].
  - rewrite Ht, lookup_empty in Ho. by destruct Ho.
  - rewrite Ha in Ho. multiset_solver.
  - assert (Hi : s ∈ co_inflight c) by set_solver. specialize (H1 s). rewrite Hr, multiplicity_empty, bool_decide_true in H1 by done. done.
Qed.

Definition is_schedule (e : co_event) : bool := match e with CSchedule _ _ => true | _ => false end.

(** Each step of the coalescer itself uses this up. *)
Definition work (c : coalescer) : nat :=
  3 * size (co_timers c) + 3 * size (co_again c) + 2 * size (co_running c) + 2 * size (co_pending c).

Lemma pending_size (s : str) (X : gset str) : (size ({[s]} ∪ X) <= S (size X))%nat.
Proof. pose proof (size_union_alt ({[s]} : gset str) X) as H. rewrite size_singleton in H. assert (size (X ∖ {[s]}) <= size X)%nat by (apply subseteq_size; set_solver). lia. Qed.

Lemma execute_work s c : (work (execute s c) <= work c + 2)%nat.
Proof.
  unfold execute, work. case_bool_decide; cbn [co_timers co_again co_running co_pending].
  - pose proof (pending_size s (co_pending c)). lia.
  - rewrite gmultiset_size_disj_union, gmultiset_size_singleton. lia.
Qed.

Lemma remove_size (s : str) (X : gmultiset str) : s ∈ X -> size X = S (size (X ∖ {[+ s +]})).
Proof.
  intros H. assert (E : X = {[+ s +]} ⊎ X ∖ {[+ s +]}) by multiset_solver.
  rewrite E at 1. by rewrite gmultiset_size_disj_union, gmultiset_size_singleton.
Qed.

Lemma co_step_work c e c' : co_step c e c' -> is_schedule e = false -> (work c' < work c)%nat.
Proof.
  intros H He. destruct H as [c now s|c s d Hd|c s Ha|c s Hr]; [done| | |].
  - eapply Nat.le_lt_trans; [apply execute_work|]. unfold work. cbn [co_timers co_again co_running co_pending].
    rewrite map_size_delete, Hd. assert (size (co_timers c) <> 0)%nat by (apply (map_size_ne_0_lookup_2 _ s); by eexists). lia.
  - eapply Nat.le_lt_trans; [apply execute_work|]. unfold work. cbn [co_timers co_again co_running co_pending].
    pose proof (remove_size s _ Ha). lia.
  - pose proof (remove_size s _ Hr). unfold executed, work. case_bool_decide as E; cbn [co_timers co_again co_running co_pending]; [|lia].
    rewrite gmultiset_size_disj_union, gmultiset_size_singleton, size_difference, size_singleton by set_solver.
    assert (size (co_pending c) <> 0)%nat by (apply size_non_empty_iff; set_solver). lia.
Qed.

Lemma quiet_or_step c : quiet c \/ exists e c', is_schedule e = false /\ co_step c e c'.
Proof.
  destruct (decide (co_timers c = ∅)) as [Ht|Ht].
  - destruct (gmultiset_choose_or_empty (co_again c)) as [[s Hs]|Ha]; [right; by exists (CAgain s), (again_fires s c); split; [|constructor]|].
    destruct (gmultiset_choose_or_empty (co_running c)) as [[s Hs]|Hr]; [right; by exists (CEnds s), (executed s c); split; [|constructor]|].
    by left.
  - right. apply map_choose in Ht as (s & d & Hd). exists (CTimer s), (timer_fires s c). split; [done|]. by econstructor.
Qed.

(** ** Theorems on the coalescer *)

(** At any time at most one listing of a scope is running, and a request that is kept for
    later belongs to one that is. *)
Theorem one_listing_per_scope es c :
  co_steps co_init es c ->
  forall s, (multiplicity s (co_running c) <= 1)%nat /\ (s ∈ co_pending c -> multiplicity s (co_running c) = 1%nat).
Proof.
  intros H s. destruct (co_steps_ok _ _ _ co_init_ok H) as [H1 H2]. rewrite H1. split; [case_bool_decide; lia|].
  intros Hs. rewrite bool_decide_true by set_solver. done.
Qed.

Definition demo_scope := js "raw".

Lemma demo_steps : exists c, co_steps co_init [CSchedule 0 demo_scope; CTimer demo_scope; CSchedule 200 demo_scope] c.
Proof.
  eexists. econstructor; [constructor|]. econstructor; [eapply co_timer; by vm_compute|]. econstructor; [constructor|]. constructor.
Qed.

Lemma one_listing_per_scope_witness :
  exists c, forall s, (multiplicity s (co_running c) <= 1)%nat /\ (s ∈ co_pending c -> multiplicity s (co_running c) = 1%nat).
Proof. destruct demo_steps as [c H]. exists c. exact (one_listing_per_scope _ c H). Defined.

Lemma owed_until_start s c es c' :
  co_steps c es c' -> owed s c ->
  owed s c' \/ exists es1 e es2 c1, es = es1 ++ e :: es2 /\ co_steps c es1 c1 /\ starts s c1 e.
Proof.
  intros H. induction H as [|c e c1 es c2 Hs _ IH]; intros Ho; [by left|].
  destruct (owed_kept s c e c1 Hs Ho) as [Ho1|Hst].
  - destruct (IH Ho1) as [?|(es1 & e1 & es2 & c3 & -> & H1 & H2)]; [by left|right].
    exists (e :: es1), e1, es2, c3. split_and!; [done|by econstructor|done].
  - right. exists [], e, es, c. split_and!; [done|constructor|done].
Qed.

(** C17: No refresh is lost: when everything has come to rest, a listing of the scope has been
    started after the request, whatever else happened in between; *)
Theorem refresh_not_lost es0 c now s es c' :
  co_steps co_init es0 c -> co_steps (schedule now s c) es c' -> quiet c' ->
  exists es1 e es2 c1, es = es1 ++ e :: es2 /\ co_steps (schedule now s c) es1 c1 /\ starts s c1 e.
Proof.
  intros H0 H Hq. assert (Hok : co_ok c') by (eapply co_steps_ok; [|exact H]; eapply co_step_ok; [|constructor]; by eapply co_steps_ok; [apply co_init_ok|]).
  destruct (owed_until_start s _ _ _ H (schedule_owed now s c)) as [Ho|?]; [|done]. by apply quiet_owed in Ho.
Qed.

(** C18: and rest is reached: without new requests the steps that are left are bounded, and as long
    as something is left a step can be made. *)
Theorem refreshes_come_to_rest c es c' :
  co_steps c es c' -> Forall (fun e => is_schedule e = false) es ->
  (length es + work c' <= work c)%nat /\ (quiet c' \/ exists e c2, is_schedule e = false /\ co_step c' e c2).
Proof.
  intros H He. split; [|apply quiet_or_step]. induction H as [|c e c1 es c2 Hs _ IH]; [cbn; lia|].
  apply Forall_cons in He as [He Hes]. pose proof (co_step_work _ _ _ Hs He). specialize (IH Hes). cbn [length]. lia.
Qed.

(** A burst of requests within the window leaves one timer, set by the last one. *)
Theorem burst_is_one_timer s c times :
  times <> [] -> (s ∉ co_inflight c) ->
  fold_left (fun c t => schedule t s c) times c =
    MkCo (<[s := or_else (last times) 0 + DEBOUNCE_MS]> (co_timers c)) (co_again c) (co_inflight c) (co_pending c) (co_running c).
Proof.
  intros Hn Hs. induction times as [|t times IH] using rev_ind; [done|]. rewrite fold_left_app, last_snoc. cbn [fold_left or_else].
  destruct times as [|t0 times].
  - cbn [fold_left]. unfold schedule. by rewrite bool_decide_false.
  - rewrite IH by done. unfold schedule at 1. co_simpl. rewrite bool_decide_false by done. by rewrite insert_insert_eq.
Qed.

Lemma rest_of_demo :
  exists c c', co_steps co_init [CSchedule 0 demo_scope; CTimer demo_scope] c /\
    co_steps (schedule 200 demo_scope c) [CEnds demo_scope; CAgain demo_scope; CEnds demo_scope] c' /\ quiet c'.
Proof.
  eexists (timer_fires demo_scope (schedule 0 demo_scope co_init)), _. split_and!.
  - econstructor; [constructor|]. econstructor; [eapply co_timer; by vm_compute|]. constructor.
  - econstructor; [apply co_ends; apply (bool_decide_unpack _); by vm_compute|].
    econstructor; [apply co_again_fires; apply (bool_decide_unpack _); by vm_compute|].
    econstructor; [apply co_ends; apply (bool_decide_unpack _); by vm_compute|]. constructor.
  - by vm_compute.
Qed.

Lemma refresh_not_lost_witness :
  exists c es1 e es2 c1, [CEnds demo_scope; CAgain demo_scope; CEnds demo_scope] = es1 ++ e :: es2 /\
    co_steps (schedule 200 demo_scope c) es1 c1 /\ starts demo_scope c1 e.
Proof.
  destruct rest_of_demo as (c & c' & H0 & H & Hq). exists c. exact (refresh_not_lost _ c 200 demo_scope _ c' H0 H Hq).
Defined.

Lemma refreshes_come_to_rest_witness :
  exists c c', (length [CEnds demo_scope; CAgain demo_scope; CEnds demo_scope] + work c' <= work c)%nat /\
    (quiet c' \/ exists e c2, is_schedule e = false /\ co_step c' e c2).
Proof.
  destruct rest_of_demo as (c & c' & _ & H & _). exists (schedule 200 demo_scope c), c'.
  apply (refreshes_come_to_rest _ _ _ H). by repeat constructor.
Defined.

Lemma burst_is_one_timer_witness :
  co_timers (fold_left (fun c t => schedule t (js "raw") c) [0; 40; 90] co_init) = {[js "raw" := 190]}.
Proof. rewrite (burst_is_one_timer (js "raw") co_init [0; 40; 90]); [by vm_compute|done|apply (bool_decide_unpack _); by vm_compute]. Defined.

(** ** Theorems on the watchers *)

Record w_ok (w : watchers) : Prop := {
  w_ok_live : w_disposed w = false -> w_root w = w_info w /\ w_timer w = true /\ (is_Some (w_git w) <-> is_Some (w_info w));
  w_ok_dead : w_disposed w = true -> w_root w = None /\ w_git w = None /\ w_timer w = false }.

Lemma ensureInfo_ok r w :
  (w_disposed w = false -> w_timer w = true) -> (w_disposed w = true -> w_root w = None /\ w_git w = None /\ w_timer w = false) ->
  (is_Some (w_info w) -> w_ok w) -> w_ok (ensureInfo r w).
Proof.
  destruct w as [ro g i t d]. unfold ensureInfo. cbn [w_info w_disposed w_timer w_root w_git]. intros Hl Hd Hi. destruct i as [i|]; [by apply Hi|].
  destruct d; [destruct (Hd eq_refl) as (-> & -> & ->); by split|]. rewrite (Hl eq_refl).
  unfold ensureWatchers, addGitWatcher, addRootWatcher. cbn. destruct g; cbn; (split; [|done]); intros _; split_and!; done.
Qed.

(** In every state that is reached the tree of the workspace in force is watched by one
    watcher, and after the end by none, however the calls are ordered. *)
Theorem watchers_follow es : w_ok (fold_left w_do es w_init).
Proof.
  induction es as [|e es IH] using rev_ind; [by split|].
  rewrite fold_left_app. cbn [fold_left]. generalize dependent (fold_left w_do es w_init). intros w [Hl Hd]. destruct e as [r| |r|]; cbn [w_do].
  - apply ensureInfo_ok; [intros H; by apply Hl|done|by split].
  - unfold watchers_cleanup, ensureWatchers. destruct w as [ro g i t d]. cbn in *. destruct i as [i|]; [|by split].
    destruct d; [by split|]. destruct (Hl eq_refl) as (-> & -> & Hg).
    unfold addGitWatcher, addRootWatcher. cbn. destruct g; cbn; (split; [|done]); intros _; split_and!; done.
  - unfold refreshRoot. apply ensureInfo_ok; cbn; [intros H; by apply Hl|done|by intros []].
  - split; done.
Qed.

(** A new root leaves the watcher of the repository where it was. *)
Example git_watcher_stays :
  fold_left w_do [WEnsure (js "/old"); WRefresh (js "/new"); WCleanup] w_init =
    MkWatchers (Some (js "/new")) (Some (js "/old")) (Some (js "/new")) true false.
Proof. by vm_compute. Qed.

(** ** Theorems on events and requests *)

Lemma split_segments segs : segs <> [] -> Forall name_segment segs -> split_on 47 (join [47] segs) = segs.
Proof. intros Hn H. apply split_join; [done|]. eapply Forall_impl; [exact H|]. by intros x (_ & ? & _). Qed.

Lemma filter_segments segs : Forall name_segment segs -> List.filter nonempty segs = segs.
Proof. induction 1 as [|[|c x] segs ((Hx & _) & _) _ IH]; [done|done|]. cbn [List.filter nonempty]. by rewrite IH. Qed.

Lemma join_nonempty segs : segs <> [] -> Forall name_segment segs -> exists c t, join [47] segs = c :: t /\ c <> 47.
Proof.
  intros Hn H. destruct H as [|[|c x] segs ((Hx & _) & Hs & _) _]; [done|done|]. inversion Hs; subst.
  destruct segs; by eexists _, _.
Qed.

Lemma parent_of dirs name :
  Forall name_segment dirs -> name_segment name -> parentDir (join [47] (dirs ++ [name])) = join [47] dirs.
Proof.
  intros Hd Hn. unfold parentDir. rewrite toPosix_id by (apply join_no_backslash, Forall_app; by split; [|constructor]).
  destruct dirs as [|d0 dirs].
  - cbn [app join]. destruct Hn as (_ & Hs & _). apply cut_last_absent in Hs. by rewrite Hs.
  - rewrite join_app_ne by done. cbn [join]. rewrite cut_last_app; [done|]. by destruct Hn as (_ & ? & _).
Qed.

(** A file that appears or goes refreshes the list of its own directory and the status; a
    changed file the status only; what lies in a hidden directory nothing. *)
Theorem event_refreshes_directory base dirs name e :
  Forall (fun c => c <> 92) base -> last base <> Some 47 -> Forall name_segment dirs -> name_segment name ->
  handleFsEvent base (base ++ 47 :: join [47] (dirs ++ [name])) e =
    if bool_decide (or_else (head dirs) name ∈ HIDE_DIRS) then MkRefresh None false
    else MkRefresh (match e with FChange => None | _ => Some (join [47] dirs) end) true.
Proof.
  intros Hb Hl Hd Hn. assert (Hall : Forall name_segment (dirs ++ [name])) by (apply Forall_app; by split; [|constructor]).
  assert (Hne : dirs ++ [name] <> []) by by destruct dirs.
  destruct (join_nonempty _ Hne Hall) as (c & t & Ej & Hc). unfold handleFsEvent.
  rewrite relFromBase_inside; [|by rewrite Ej|apply Forall_app; split; [done|by apply join_no_backslash]| |done].
  2:{ rewrite Ej. cbn [starts_with]. by destruct (Z.eqb_spec 47 c); [congruence|]. }
  rewrite parent_of by done. unfold top_segment.
  assert (Ht : match List.filter nonempty (split_on 47 (join [47] dirs)) with
               | [] => match List.filter nonempty (split_on 47 (join [47] (dirs ++ [name]))) with [] => [] | x :: _ => x end
               | x :: _ => x
               end = or_else (head dirs) name).
  { rewrite (split_segments (dirs ++ [name])) by done. rewrite (filter_segments (dirs ++ [name])) by done.
    destruct dirs as [|d0 dirs]; [done|]. rewrite split_segments, filter_segments by done. done. }
  rewrite Ht. case_bool_decide; [done|]. by destruct e.
Qed.

Lemma event_refreshes_directory_witness :
  handleFsEvent (js "/home/u/ws") (js "/home/u/ws/raw/merge_log/part-1.ndjson") FCreate = MkRefresh (Some (js "raw/merge_log")) true.
Proof.
  apply (event_refreshes_directory (js "/home/u/ws") [js "raw"; js "merge_log"] (js "part-1.ndjson") FCreate);
    [by repeat constructor|done|by repeat constructor|by repeat constructor].
Defined.

(** A path that a request names without dot segments stays below the workspace: the file
    that is touched is the workspace's own. *)
Theorem request_inside W P :
  W <> [] -> Forall name_segment W -> Forall name_segment P ->
  toChildUri (abs_path W) (join [47] P) = abs_path (W ++ P).
Proof.
  intros HW Hw Hp. unfold toChildUri, child_segments.
  assert (Hc : List.filter nonempty (split_on 47 (toPosix (drop_any_slashes (join [47] P)))) = P).
  { destruct P as [|p P]; [done|]. destruct (join_nonempty (p :: P) ltac:(done) Hp) as (c & t & Ej & Hc).
    assert (Hb : Forall (fun c => c <> 92) (join [47] (p :: P))) by by apply join_no_backslash.
    assert (Hd : drop_any_slashes (join [47] (p :: P)) = join [47] (p :: P)).
    { unfold drop_any_slashes. rewrite Ej. apply drop_while_head. rewrite Ej in Hb. inversion Hb; subst.
      by destruct (Z.eqb_spec c 47), (Z.eqb_spec c 92). }
    by rewrite Hd, toPosix_id, split_segments, filter_segments. }
  rewrite Hc. change (flat_map (fun x => 47 :: x) P) with (pre P). rewrite abs_pre by done. rewrite <- pre_app, <- abs_pre by by destruct W.
  apply normalize_abs; [by destruct W|]. by apply Forall_app.
Qed.

Lemma request_inside_witness : toChildUri (js "/home/u/ws") (js "raw/a.log") = js "/home/u/ws/raw/a.log".
Proof. apply (request_inside [js "home"; js "u"; js "ws"] [js "raw"; js "a.log"]); [done|by repeat constructor|by repeat constructor]. Defined.

(** A parent segment is not refused: a request can delete a file outside. *)
Example request_escapes :
  call_of (js "/home/u/ws") (ReqDelete (js "../../secret") true false) =
    Some (DeletePath (js "/home/secret") true false, OpDelete, js "../../secret").
Proof. by vm_compute. Qed.

(** ** Theorems on the scaffold *)

Lemma writeFromTemplate_keeps template writable t e files created files' :
  writeFromTemplate template writable t e files = (created, files') ->
  (forall p v, files !! p = Some v -> files' !! p = Some v) /\ (created = true <-> files !! t = None /\ is_Some (files' !! t)) /\
  (is_Some (template e) -> writable t = true -> is_Some (files' !! t)).
Proof.
  unfold writeFromTemplate. destruct (files !! t) as [v|] eqn:E.
  - intros [= <- <-]. split_and!; [done|split; [done|naive_solver]|by rewrite E].
  - destruct (template e) as [b|]; [destruct (writable t)|]; intros [= <- <-].
    + split_and!; [|split; [|done]|].
      * intros p v Hp. rewrite lookup_insert_ne by congruence. done.
      * intros _. by rewrite lookup_insert_eq.
      * intros _ _. by rewrite lookup_insert_eq.
    + split_and!; [done|split; [done|]|done]. intros [_ H]. rewrite E in H. by destruct H.
    + split_and!; [done|split; [done|]|by intros []]. intros [_ H]. rewrite E in H. by destruct H.
Qed.

(** The scaffold never changes a file that is there; with the templates readable and the
    places writable all three files are there afterwards, and doing it again changes nothing
    and runs git only when that is asked for. *)
Theorem scaffold_safe template writable git force files :
  (forall e, is_Some (template e)) -> (forall t, writable t = true) ->
  let '(files', cmds) := ensureWorkspaceScaffold template writable git force files in
  (forall p v, files !! p = Some v -> files' !! p = Some v) /\
  Forall (fun t => is_Some (files' !! t)) [js ".gitignore"; PARSER_CONFIG_REL; PARSER_README_REL] /\
  (cmds <> [] <-> files !! js ".gitignore" = None \/ force = true) /\
  ensureWorkspaceScaffold template writable git false files' = (files', []).
Proof.
  intros Ht Hw. unfold ensureWorkspaceScaffold.
  destruct (writeFromTemplate template writable (js ".gitignore") _ files) as [c1 f1] eqn:E1.
  destruct (writeFromTemplate template writable PARSER_CONFIG_REL _ f1) as [c2 f2] eqn:E2.
  destruct (writeFromTemplate template writable PARSER_README_REL _ f2) as [c3 f3] eqn:E3.
  destruct (writeFromTemplate_keeps _ _ _ _ _ _ _ E1) as (K1 & C1 & S1). destruct (writeFromTemplate_keeps _ _ _ _ _ _ _ E2) as (K2 & _ & S2).
  destruct (writeFromTemplate_keeps _ _ _ _ _ _ _ E3) as (K3 & _ & S3).
  destruct (S1 (Ht _) (Hw _)) as [v1 V1]. destruct (S2 (Ht _) (Hw _)) as [v2 V2]. destruct (S3 (Ht _) (Hw _)) as [v3 V3].
  assert (F1 := K3 _ _ (K2 _ _ V1)). assert (F2 := K3 _ _ V2). split_and!.
  - auto.
  - by repeat constructor.
  - assert (Hg : forall l, GIT_PROBE :: l <> []) by done. unfold ensureGitInitAddCommit. destruct c1; cbn [orb].
    + split; [intros _; left; by apply C1|intros _; apply Hg].
    + destruct force; [split; [by right|intros _; apply Hg]|]. split; [done|]. intros [H|H]; [|done].
      destruct C1 as [_ C1]. by rewrite V1 in C1; discriminate C1.
  - assert (Hs : forall t e v, f3 !! t = Some v -> writeFromTemplate template writable t e f3 = (false, f3)) by (intros t e v H; unfold writeFromTemplate; by rewrite H).
    by rewrite (Hs _ _ _ F1), (Hs _ _ _ F2), (Hs _ _ _ V3).
Qed.

Lemma scaffold_safe_witness :
  let '(files', cmds) := ensureWorkspaceScaffold (fun e => Some e) (fun _ => true) (fun _ => Some []) false {[js ".gitignore" := js "mine"]} in
  (forall p v, ({[js ".gitignore" := js "mine"]} : gmap str str) !! p = Some v -> files' !! p = Some v) /\
  Forall (fun t => is_Some (files' !! t)) [js ".gitignore"; PARSER_CONFIG_REL; PARSER_README_REL] /\
  (cmds <> [] <-> ({[js ".gitignore" := js "mine"]} : gmap str str) !! js ".gitignore" = None \/ false = true) /\
  ensureWorkspaceScaffold (fun e => Some e) (fun _ => true) (fun _ => Some []) false files' = (files', []).
Proof. apply (scaffold_safe (fun e => Some e) (fun _ => true) (fun _ => Some []) false {[js ".gitignore" := js "mine"]}); [by eexists|done]. Defined.
