(* ===== verification/EdgePanel.v ===== *)
(** * Edge panel

    The webview of the panel: src/webviewers/edge-panel/app (reducer, store and the handler of
    the host's messages), the tree of the explorer with its selection in the document, the
    context menu and the bread crumbs. Nodes are objects that the root, the registry by path,
    the selection and the document share, so they live in a heap; an element of the document
    is named by its node. [localeCompare] is an argument. Layout, colours and focus are left
    out. *)

From stdpp Require Import base list strings gmap sets.
From Stdlib Require Import ZArith Lia.
From S2P Require Import Prelude JsString Shell Paths Device Transfer Git.

Definition DEBUG_LOG_MEMORY_MAX : nat := 2000.

Record node := MkNode {
  nd_path : str;
  nd_name : str;
  nd_folder : bool;
  nd_parent : option nat;
  nd_children : list nat;
  nd_expanded : bool;
  nd_loaded : bool;
  nd_el : bool }.                         (* [el] is set *)

(** The store and the part of the document that the code reads back: the children of the
    tree's element, the elements of class selected, and the view's own fields *)
Record panel := MkPanel {
  pn_heap : gmap nat node;
  pn_next : nat;
  pn_showLogs : bool;
  pn_showExplorer : bool;
  pn_explorerPath : str;
  pn_root : option nat;
  pn_byPath : gmap str nat;
  pn_selected : list nat;
  pn_logs : list str;
  pn_top : list nat;
  pn_class : gset nat;
  pn_selectedEl : option nat;
  pn_crumb : str;
  pn_git : gmap str (str * bool) }.

Definition createInitialState : panel := MkPanel ∅ 0 false true [] None ∅ [] [] [] ∅ None [] ∅.

(** Field updates *)
Definition set_heap f p := MkPanel (f (pn_heap p)) (pn_next p) (pn_showLogs p) (pn_showExplorer p) (pn_explorerPath p) (pn_root p) (pn_byPath p) (pn_selected p) (pn_logs p) (pn_top p) (pn_class p) (pn_selectedEl p) (pn_crumb p) (pn_git p).
Definition set_logs l p := MkPanel (pn_heap p) (pn_next p) (pn_showLogs p) (pn_showExplorer p) (pn_explorerPath p) (pn_root p) (pn_byPath p) (pn_selected p) l (pn_top p) (pn_class p) (pn_selectedEl p) (pn_crumb p) (pn_git p).
Definition set_shown lo ex p := MkPanel (pn_heap p) (pn_next p) lo ex (pn_explorerPath p) (pn_root p) (pn_byPath p) (pn_selected p) (pn_logs p) (pn_top p) (pn_class p) (pn_selectedEl p) (pn_crumb p) (pn_git p).
Definition set_path s p := MkPanel (pn_heap p) (pn_next p) (pn_showLogs p) (pn_showExplorer p) s (pn_root p) (pn_byPath p) (pn_selected p) (pn_logs p) (pn_top p) (pn_class p) (pn_selectedEl p) (pn_crumb p) (pn_git p).
Definition set_selected l p := MkPanel (pn_heap p) (pn_next p) (pn_showLogs p) (pn_showExplorer p) (pn_explorerPath p) (pn_root p) (pn_byPath p) l (pn_logs p) (pn_top p) (pn_class p) (pn_selectedEl p) (pn_crumb p) (pn_git p).
Definition set_byPath f p := MkPanel (pn_heap p) (pn_next p) (pn_showLogs p) (pn_showExplorer p) (pn_explorerPath p) (pn_root p) (f (pn_byPath p)) (pn_selected p) (pn_logs p) (pn_top p) (pn_class p) (pn_selectedEl p) (pn_crumb p) (pn_git p).
Definition set_root r p := MkPanel (pn_heap p) (pn_next p) (pn_showLogs p) (pn_showExplorer p) (pn_explorerPath p) r (pn_byPath p) (pn_selected p) (pn_logs p) (pn_top p) (pn_class p) (pn_selectedEl p) (pn_crumb p) (pn_git p).
Definition set_top l p := MkPanel (pn_heap p) (pn_next p) (pn_showLogs p) (pn_showExplorer p) (pn_explorerPath p) (pn_root p) (pn_byPath p) (pn_selected p) (pn_logs p) l (pn_class p) (pn_selectedEl p) (pn_crumb p) (pn_git p).
Definition set_class f o p := MkPanel (pn_heap p) (pn_next p) (pn_showLogs p) (pn_showExplorer p) (pn_explorerPath p) (pn_root p) (pn_byPath p) (pn_selected p) (pn_logs p) (pn_top p) (f (pn_class p)) o (pn_crumb p) (pn_git p).
Definition set_crumb s p := MkPanel (pn_heap p) (pn_next p) (pn_showLogs p) (pn_showExplorer p) (pn_explorerPath p) (pn_root p) (pn_byPath p) (pn_selected p) (pn_logs p) (pn_top p) (pn_class p) (pn_selectedEl p) s (pn_git p).
Definition set_git g p := MkPanel (pn_heap p) (pn_next p) (pn_showLogs p) (pn_showExplorer p) (pn_explorerPath p) (pn_root p) (pn_byPath p) (pn_selected p) (pn_logs p) (pn_top p) (pn_class p) (pn_selectedEl p) (pn_crumb p) g.

(** [l.splice(l.indexOf(x), 1)] *)
Fixpoint remove_first (x : nat) (l : list nat) : list nat :=
  match l with [] => [] | y :: l' => if bool_decide (x = y) then l' else y :: remove_first x l' end.

Definition alloc (n : node) (p : panel) : nat * panel :=
  (pn_next p, MkPanel (<[pn_next p := n]> (pn_heap p)) (S (pn_next p)) (pn_showLogs p) (pn_showExplorer p) (pn_explorerPath p)
    (pn_root p) (pn_byPath p) (pn_selected p) (pn_logs p) (pn_top p) (pn_class p) (pn_selectedEl p) (pn_crumb p) (pn_git p)).

Definition upd (i : nat) (f : node -> node) (p : panel) : panel := set_heap (alter f i) p.

(** ** The reducer *)

Inductive action :=
  | INIT (logs : option (list str))
  | TOGGLE_LOGS
  | TOGGLE_EXPLORER
  | LOG_APPEND (text : str)
  | LOG_PREPEND (lines : list str)
  | LOG_RESET (lines : option (list str))
  | EXPLORER_SET_ROOT
  | EXPLORER_SELECT (n : nat) (multi : bool)
  | EXPLORER_EXPANDED (n : nat) (expanded : bool)
  | EXPLORER_CLEAR_SELECTION.

(** [lines.slice(-DEBUG_LOG_MEMORY_MAX)] *)
Definition newest (lines : list str) : list str := drop (length lines - DEBUG_LOG_MEMORY_MAX) lines.

Definition root_node : node := MkNode [] (js "workspace") true None [] true false false.

(** [state.selected.forEach((x) => x.el?.classList.remove('selected'))] *)
Definition unmark (ids : list nat) (p : panel) : panel :=
  set_class (fun c => c ∖ list_to_set (List.filter (fun i => match pn_heap p !! i with Some n => nd_el n | None => false end) ids))
    (pn_selectedEl p) p.

(** [explorerPath] follows a selection of one folder. *)
Definition follow_selection (p : panel) : panel :=
  match pn_selected p with
  | [i] => match pn_heap p !! i with Some n => if nd_folder n then set_path (nd_path n) p else p | None => p end
  | _ => p
  end.

Definition reducer (p : panel) (a : action) : panel :=
  match a with
  | INIT (Some logs) => set_logs (newest logs) p
  | INIT None => p
  | TOGGLE_LOGS => set_shown (negb (pn_showLogs p)) (pn_showExplorer p) p
  | TOGGLE_EXPLORER => set_shown (pn_showLogs p) (negb (pn_showExplorer p)) p
  | LOG_APPEND text => set_logs (newest (pn_logs p ++ [text])) p
  | LOG_PREPEND lines => set_logs (newest (lines ++ pn_logs p)) p
  | LOG_RESET (Some lines) => set_logs (newest lines) p
  | LOG_RESET None => set_logs [] p
  | EXPLORER_SET_ROOT => let '(i, p') := alloc root_node p in set_byPath (<[[] := i]>) (set_root (Some i) p')
  | EXPLORER_SELECT n multi =>
      follow_selection
        (if multi then
           set_selected (if bool_decide (n ∈ pn_selected p) then remove_first n (pn_selected p) else pn_selected p ++ [n]) p
         else set_selected [n] (unmark (pn_selected p) p))
  | EXPLORER_EXPANDED n e => upd n (fun x => MkNode (nd_path x) (nd_name x) (nd_folder x) (nd_parent x) (nd_children x) e (nd_loaded x) (nd_el x)) p
  | EXPLORER_CLEAR_SELECTION => set_selected [] (unmark (pn_selected p) p)
  end.

(** ** The tree *)

Section tree.
  Context (name_cmp : str -> str -> Z).

  (** [items.sort]: folders first, each kind by name *)
Definition item_cmp (a b : str * bool) : Z :=
    if Bool.eqb (snd a) (snd b) then name_cmp (fst a) (fst b) else if snd a then -1 else 1.

Definition mountNode (top : bool) (i : nat) (p : panel) : panel :=
    let p' := upd i (fun x => MkNode (nd_path x) (nd_name x) (nd_folder x) (nd_parent x) (nd_children x) (nd_expanded x) (nd_loaded x) true) p in
    if top then set_top (pn_top p' ++ [i]) p' else p'.

  (** [new Map(children.map((c) => [c.name, c]))] *)
Definition child_named (p : panel) (ids : list nat) (name : str) : option nat :=
    last (List.filter (fun i => match pn_heap p !! i with Some n => bool_decide (nd_name n = name) | None => false end) ids).

Definition child_path (parent name : str) : str := (if nonempty parent then parent ++ [47] else []) ++ name.

  (** One item of the list: the child of that name, or a new one that is registered *)
Definition render_item (i : nat) (parent : str) (existing : list nat) (it : str * bool) (p : panel) : nat * panel :=
    match child_named p existing (fst it) with
    | Some c => (c, mountNode false c p)
    | None =>
        let n := MkNode (child_path parent (fst it)) (fst it) (snd it) (Some i) [] false false false in
        let '(c, p1) := alloc n p in
        (c, mountNode false c (set_byPath (<[nd_path n := c]>) p1))
    end.

Fixpoint render_items (i : nat) (parent : str) (existing : list nat) (items : list (str * bool)) (p : panel) : list nat * panel :=
    match items with
    | [] => ([], p)
    | it :: rest =>
        let '(c, p1) := render_item i parent existing it p in
        let '(cs, p2) := render_items i parent existing rest p1 in
        (c :: cs, p2)
    end.

Definition renderChildren (i : nat) (items : list (str * bool)) (p : panel) : panel :=
    match pn_heap p !! i with
    | None => p
    | Some n =>
        let p1 := if nd_el n then p else mountNode true i p in
        if nd_folder n then
          let '(cs, p2) := render_items i (nd_path n) (nd_children n) (array_sort item_cmp items) p1 in
          upd i (fun x => MkNode (nd_path x) (nd_name x) (nd_folder x) (nd_parent x) cs true true (nd_el x)) p2
        else p1
    end.

  (** [querySelectorAll('.tree-node')]: the elements below the tree's one, in document order *)
Fixpoint preorder (fuel : nat) (p : panel) (i : nat) : list nat :=
    match fuel with
    | O => []
    | S f => i :: match pn_heap p !! i with Some n => flat_map (preorder f p) (nd_children n) | None => [] end
    end.

Definition tree_elements (p : panel) : list nat := flat_map (preorder (S (pn_next p)) p) (pn_top p).

  (** [setSelected(el)] *)
Definition setSelected (i : nat) (p : panel) : panel :=
    if bool_decide (pn_selectedEl p = Some i) then p
    else set_class (fun c => {[i]} ∪ (match pn_selectedEl p with Some j => c ∖ {[j]} | None => c end)) (Some i) p.

  (** A click on the element of a node: the node is looked up by its path. *)
Definition tree_click (el : nat) (multi : bool) (p : panel) : panel :=
    match pn_heap p !! el with
    | Some n =>
        match pn_byPath p !! nd_path n with
        | Some i => reducer (setSelected el p) (EXPLORER_SELECT i multi)
        | None => p
        end
    | None => p
    end.

Inductive w2h :=
  | PostReady | PostRequestButtons | PostEnsureWorkspace | PostGitStatus
  | PostList (path : str) | PostOpen (path : str) | PostCreateFile (path : str) | PostCreateFolder (path : str)
  | PostDelete (path : str) (recursive useTrash : bool) | PostButton (id : str)
  | PostLoadOlder | PostClear | PostCopy | Alert (message : str).

  (** The callback for a toggled folder *)
Definition onToggle (i : nat) (p : panel) : list w2h :=
    match pn_heap p !! i with
    | Some n =>
        if negb (nd_folder n) then []
        else if nonempty (nd_path n) then (if nd_expanded n && negb (nd_loaded n) then [PostList (nd_path n)] else [])
        else if nd_loaded n then [] else [PostList []]
    | None => []
    end.

Definition flip_expanded (i : nat) (p : panel) : panel :=
    upd i (fun x => MkNode (nd_path x) (nd_name x) (nd_folder x) (nd_parent x) (nd_children x) (negb (nd_expanded x)) (nd_loaded x) (nd_el x)) p.

Definition tree_dblclick (el : nat) (p : panel) : panel * list w2h :=
    match pn_heap p !! el with
    | Some n0 =>
        match pn_byPath p !! nd_path n0 with
        | Some i =>
            let p1 := setSelected el p in
            match pn_heap p1 !! i with
            | Some n =>
                if nd_folder n then
                  (if nonempty (nd_path n) then let p2 := flip_expanded i p1 in (p2, onToggle i p2) else (p1, []))
                else (p1, [PostOpen (nd_path n)])
            | None => (p1, [])
            end
        | None => (p, [])
        end
    | None => (p, [])
    end.

  (** [onDelete]: one message per node *)
Definition onDelete (ids : list nat) (p : panel) : list w2h :=
    flat_map (fun i => match pn_heap p !! i with Some n => [PostDelete (nd_path n) (nd_folder n) true] | None => [] end) ids.

Inductive key := ArrowDown | ArrowUp | Enter | Delete.

Definition selected_index (p : panel) : Z :=
    match list_find (fun i => i ∈ pn_class p) (tree_elements p) with Some (k, _) => Z.of_nat k | None => -1 end.

Definition item_at (l : list nat) (k : Z) : option nat := if k <? 0 then None else l !! Z.to_nat k.

Definition tree_key (k : key) (p : panel) : panel * list w2h :=
    let items := tree_elements p in
    let idx := selected_index p in
    let click o := match o with Some el => tree_click el false p | None => p end in
    match k with
    | ArrowDown => (click (item_at items (Z.min (zlen items - 1) (idx + 1))), [])
    | ArrowUp => (click (item_at items (Z.max 0 (idx - 1))), [])
    | Enter => (p, [])                    (* the event that is dispatched does not bubble to the tree's listener *)
    | Delete =>
        let nodes := omap (fun el => n ← pn_heap p !! el; pn_byPath p !! nd_path n) (List.filter (fun el => bool_decide (el ∈ pn_class p)) items) in
        (p, onDelete nodes p)
    end.

  (** [clearExplorerSelection] removes the class from the elements of the document. *)
Definition clearExplorerSelection (p : panel) : panel :=
    set_class (fun c => c ∖ list_to_set (tree_elements p)) (pn_selectedEl p) p.

Definition resetExplorerTree (p : panel) : panel := clearExplorerSelection (set_top [] p).

  (** Losing the focus, a click outside and Escape *)
Definition clear_selection (p : panel) : panel := reducer (clearExplorerSelection p) EXPLORER_CLEAR_SELECTION.

(** ** Git marks *)

Definition code_rank (c : str) : Z :=
    if bool_decide (c = js "D") then 6 else if bool_decide (c = js "R") then 5 else if bool_decide (c = js "C") then 4
    else if bool_decide (c = js "A") then 3 else if bool_decide (c = js "M") then 2 else 1.

  (** The path after the arrow of a rename *)
Definition normalizeKey (path : str) : str :=
    trim (match cut_sub [8594] path with Some (_, new) => new | None => path end).

Definition put_git (raw codeRaw : str) (staged : bool) (m : gmap str (str * bool)) : gmap str (str * bool) :=
    let key := normalizeKey raw in
    let code := if bool_decide (codeRaw = js "??") then js "U" else codeRaw in
    match m !! key with
    | None => <[key := (code, staged)]> m
    | Some (c, s) => <[key := (if code_rank c <? code_rank code then code else c, s || staged)]> m
    end.

Definition updateGitStatusMap (s : GitLite) : gmap str (str * bool) :=
    let m1 := fold_left (fun m x => put_git (gi_path x) (gi_code x) true m) (gl_staged s) ∅ in
    let m2 := fold_left (fun m x => put_git (gi_path x) (gi_code x) false m) (gl_modified s) m1 in
    fold_left (fun m x => put_git (gi_path x) (js "??") false m) (gl_untracked s) m2.

(** ** Messages of the host *)

Inductive h2w :=
  | InitState (logs : list str)
  | DebugLogPage (lines : list str)
  | DebugLogCleared
  | GitStatusResponse (s : GitLite)
  | ToggleLogs | ToggleExplorer
  | ListResultMsg (path : str) (items : list (str * bool))
  | ExplorerOkMsg (path : str)
  | FsChanged (path : str)
  | RootChanged
  | ClearSelection
  | ExplorerErrorMsg (message : str).

  (** [path.includes('/') ? path.slice(0, path.lastIndexOf('/')) : ''] *)
Definition parent_of_path (path : str) : str := match cut_last 47 path with Some (a, _) => a | None => [] end.

Definition list_result (path : str) (items : list (str * bool)) (p : panel) : panel :=
    match (if nonempty path then pn_byPath p !! path else pn_root p) with
    | None => p
    | Some i =>
        let p1 := renderChildren i items p in
        if bool_decide (pn_root p1 = Some i) && bool_decide (pn_selected p1 = []) then
          let p2 := reducer p1 (EXPLORER_SELECT i false) in set_crumb (pn_explorerPath p2) p2
        else p1
    end.

Definition on_message (m : h2w) (p : panel) : panel * list w2h :=
    match m with
    | InitState logs =>
        let p1 := reducer (resetExplorerTree p) (INIT (Some logs)) in
        (reducer p1 EXPLORER_SET_ROOT, [PostRequestButtons; PostList []])
    | DebugLogPage lines => (match lines with [] => p | _ => reducer p (LOG_PREPEND lines) end, [])
    | DebugLogCleared => (reducer p (LOG_RESET (Some [])), [])
    | GitStatusResponse s => (set_git (updateGitStatusMap s) p, [])
    | ToggleLogs => (reducer p TOGGLE_LOGS, [PostRequestButtons])
    | ToggleExplorer =>
        let p1 := reducer p TOGGLE_EXPLORER in
        if pn_showExplorer p1 then
          let p2 := match pn_root p1 with
                    | Some _ => p1
                    | None => reducer (set_byPath (fun _ => ∅) (resetExplorerTree p1)) EXPLORER_SET_ROOT
                    end in
          (p2, [PostEnsureWorkspace; PostList []; PostRequestButtons])
        else (p1, [PostRequestButtons])
    | ListResultMsg path items => (list_result path items p, [])
    | ExplorerOkMsg path | FsChanged path => (p, [PostList (parent_of_path path)])
    | RootChanged =>
        let p1 := reducer (set_byPath (fun _ => ∅) (resetExplorerTree p)) EXPLORER_SET_ROOT in
        (set_crumb [] p1, [PostList []])
    | ClearSelection => (clear_selection p, [])
    | ExplorerErrorMsg e => (p, [Alert e])
    end.

(** ** Bread crumbs *)

  (** The crumbs of a path, with the list that a click on each asks for: the listeners share
      the variable that the loop adds to, so each sees its last value. *)
Definition crumb_step (acc seg : str) : str := squeeze (join [47] (List.filter nonempty [acc; seg])).

Definition breadcrumb (path : str) : list (str * str) :=
    let segs := List.filter nonempty (split_on 47 path) in
    let acc := fold_left crumb_step segs [] in
    (js "workspace", []) :: map (fun seg => (seg, acc)) segs.

(** ** Context menu *)

Inductive menu_mode := MenuList | NewFile | NewFolder.

Record menu := MkMenu { mn_open : bool; mn_target : option nat; mn_mode : menu_mode }.

Inductive menu_event := MenuOpen (target : option nat) | MenuOpenItem | MenuNew (file : bool) | MenuDelete | MenuSubmit (text : str) | MenuCancel | MenuClose.

Definition menu_closed (m : menu) : menu := MkMenu false None (mn_mode m).

Definition baseDir (m : menu) (p : panel) : str :=
    match mn_target m ≫= fun i => pn_heap p !! i with
    | None => []
    | Some n =>
        if nd_folder n then nd_path n
        else match nd_parent n ≫= fun j => pn_heap p !! j with Some q => nd_path q | None => [] end
    end.

Definition menu_do (e : menu_event) (p : panel) (m : menu) : menu * list w2h :=
    match e with
    | MenuOpen t => (MkMenu true t MenuList, [])
    | MenuOpenItem =>
        match mn_target m with
        | Some i => (menu_closed m, match pn_heap p !! i with Some n => [PostOpen (nd_path n)] | None => [] end)
        | None => (m, [])
        end
    | MenuNew file => (MkMenu (mn_open m) (mn_target m) (if file then NewFile else NewFolder), [])
    | MenuDelete => (menu_closed m, match mn_target m with Some i => onDelete [i] p | None => [] end)
    | MenuSubmit text =>
        let nm := trim text in
        if nonempty nm then
          let full := squeeze (join [47] (List.filter nonempty [baseDir m p; nm])) in
          (menu_closed m, [match mn_mode m with NewFile => PostCreateFile full | _ => PostCreateFolder full end])
        else (m, [])
    | MenuCancel => (MkMenu (mn_open m) (mn_target m) MenuList, [])
    | MenuClose => (menu_closed m, [])
    end.
End tree.
