(* ===== verification/EdgePanelSpec.v ===== *)
(** * Edge panel: theorems

    The debug log keeps the newest lines; the tree shows exactly what the last listing said,
    keeps the nodes it had and finds every node it shows by its path; the marks of git; and
    what goes wrong with the selection. *)

From stdpp Require Import base list strings gmap sets.
From Stdlib Require Import ZArith Lia.
From S2P Require Import Prelude JsString Shell Paths Device Transfer Git Explorer EdgePanel.

(** ** The log *)

(** The log as it would be without a limit *)
Definition full_log (l : list str) (a : action) : list str :=
  match a with
  | INIT (Some logs) | LOG_RESET (Some logs) => logs
  | LOG_RESET None => []
  | LOG_APPEND t => l ++ [t]
  | LOG_PREPEND lines => lines ++ l
  | _ => l
  end.

Lemma newest_app_r l t : newest (newest l ++ t) = newest (l ++ t).
Proof.
  unfold newest. rewrite !length_app, length_drop. destruct (le_lt_dec (length l) DEBUG_LOG_MEMORY_MAX).
  - replace (length l - DEBUG_LOG_MEMORY_MAX)%nat with 0%nat by lia. cbn [drop]. by rewrite Nat.sub_0_r.
  - rewrite !drop_app, drop_drop, length_drop. f_equal; f_equal; lia.
Qed.

Lemma newest_app_l l t : newest (t ++ newest l) = newest (t ++ l).
Proof.
  unfold newest. rewrite !length_app, length_drop. destruct (le_lt_dec (length l) DEBUG_LOG_MEMORY_MAX).
  - replace (length l - DEBUG_LOG_MEMORY_MAX)%nat with 0%nat by lia. cbn [drop]. by rewrite Nat.sub_0_r.
  - rewrite !drop_app, drop_drop. rewrite !(drop_ge t) by lia. cbn [app]. f_equal. lia.
Qed.

Lemma newest_idem l : newest (newest l) = newest l.
Proof. pose proof (newest_app_r l []) as H. by rewrite !app_nil_r in H. Qed.

Lemma reducer_logs p a : pn_logs (reducer p a) = match a with
  | INIT (Some l) | LOG_RESET (Some l) => newest l
  | LOG_RESET None => []
  | LOG_APPEND t => newest (pn_logs p ++ [t])
  | LOG_PREPEND ls => newest (ls ++ pn_logs p)
  | _ => pn_logs p end.
Proof.
  destruct a as [[]| | | | |[]| |n []| |]; try done; cbn [reducer].
  all: unfold follow_selection; cbn; destruct (if bool_decide _ then _ else _) as [|i []] || idtac; cbn; try done.
  all: destruct (_ !! _) as [x|]; [destruct (nd_folder x)|]; done.
Qed.

(** Whatever the actions are, the log holds at most 2000 lines, the newest ones, in order. *)
Theorem log_keeps_newest acts :
  let p := fold_left reducer acts createInitialState in
  (length (pn_logs p) <= DEBUG_LOG_MEMORY_MAX)%nat /\ pn_logs p = newest (fold_left full_log acts []).
Proof.
  intros p. assert (E : pn_logs p = newest (fold_left full_log acts [])).
  { unfold p. clear p. induction acts as [|a acts IH] using rev_ind; [done|]. rewrite !fold_left_app. cbn [fold_left].
    rewrite reducer_logs, IH. destruct a as [[]| | | | |[]| | | |]; cbn [full_log]; try done; [apply newest_app_r|apply newest_app_l]. }
  split; [|done]. rewrite E. unfold newest. rewrite length_drop. lia.
Qed.

(** ** The tree *)

Definition mounted (n : node) : node :=
  MkNode (nd_path n) (nd_name n) (nd_folder n) (nd_parent n) (nd_children n) (nd_expanded n) (nd_loaded n) true.

Definition new_node (i : nat) (parent : str) (it : str * bool) : node :=
  MkNode (child_path parent it.1) it.1 it.2 (Some i) [] false false true.

(** A name that a directory can have *)
Definition item_name (s : str) : Prop := s <> [] /\ Forall (fun c => c <> 47) s.

Lemma child_path_inj q1 n1 q2 n2 :
  item_name n1 -> item_name n2 -> child_path q1 n1 = child_path q2 n2 -> q1 = q2 /\ n1 = n2.
Proof.
  intros [Hn1 H1] [Hn2 H2] E.
  assert (Hc : forall q n, Forall (fun c => c <> 47) n -> cut_last 47 (child_path q n) = match q with [] => None | _ => Some (q, n) end).
  { intros [|c q] n Hn; cbn [child_path nonempty app]; [by apply cut_last_absent|]. unfold child_path. cbn [nonempty].
    rewrite <- app_assoc. cbn [app]. by apply (cut_last_app 47 (c :: q)). }
  pose proof (Hc q1 n1 H1) as C1. pose proof (Hc q2 n2 H2) as C2. rewrite E, C2 in C1.
  destruct q1, q2; simplify_eq; [|done]. done.
Qed.

Lemma child_path_not_nil q n : item_name n -> child_path q n <> [].
Proof. intros [Hn _]. unfold child_path. destruct q, n; done. Qed.

(** Links between the nodes of a heap *)
Record heap_ok (p : panel) : Prop := {
  hp_next : forall j, is_Some (pn_heap p !! j) -> (j < pn_next p)%nat;
  hp_child : forall i n c, pn_heap p !! i = Some n -> c ∈ nd_children n ->
    exists m, pn_heap p !! c = Some m /\ nd_parent m = Some i /\ nd_path m = child_path (nd_path n) (nd_name m) /\ item_name (nd_name m) /\ nd_el m = true;
  hp_names : forall i n, pn_heap p !! i = Some n -> NoDup (omap (fun c => nd_name <$> pn_heap p !! c) (nd_children n)) }.

(** The nodes that are shown *)
Inductive live (p : panel) : nat -> Prop :=
  | live_root r : pn_root p = Some r -> live p r
  | live_child i n c : live p i -> pn_heap p !! i = Some n -> c ∈ nd_children n -> live p c.

Record tree_ok (p : panel) : Prop := {
  tr_heap : heap_ok p;
  tr_root : forall r, pn_root p = Some r -> exists n, pn_heap p !! r = Some n /\ nd_path n = [] /\ nd_folder n = true;
  tr_sound : forall q i, pn_byPath p !! q = Some i -> exists n, pn_heap p !! i = Some n /\ nd_path n = q;
  tr_live : forall i n, live p i -> pn_heap p !! i = Some n -> pn_byPath p !! nd_path n = Some i }.

(** What the loop over the items does *)
Record rendered (i : nat) (parent : str) (ex : list nat) (items : list (str * bool)) (p : panel) (cs : list nat) (p' : panel) : Prop := {
  rd_next : (pn_next p <= pn_next p')%nat;
  rd_old : forall j, (j < pn_next p)%nat -> pn_heap p' !! j = pn_heap p !! j \/ pn_heap p' !! j = mounted <$> pn_heap p !! j;
  rd_kept : forall c, c ∈ cs -> (c < pn_next p)%nat -> pn_heap p' !! c = mounted <$> pn_heap p !! c;
  rd_new : forall j, (pn_next p <= j)%nat -> is_Some (pn_heap p' !! j) -> exists it, it ∈ items /\
    pn_heap p' !! j = Some (new_node i parent it) /\ child_named p ex it.1 = None /\ (j < pn_next p')%nat;
  rd_by : forall q, pn_byPath p' !! q = pn_byPath p !! q \/ exists it, it ∈ items /\ q = child_path parent it.1 /\ child_named p ex it.1 = None;
  rd_cs : Forall2 (fun it c => child_named p ex it.1 = Some c \/
    (child_named p ex it.1 = None /\ (pn_next p <= c)%nat /\ pn_heap p' !! c = Some (new_node i parent it) /\
     pn_byPath p' !! child_path parent it.1 = Some c)) items cs;
  rd_rest : pn_root p' = pn_root p /\ pn_selected p' = pn_selected p /\ pn_top p' = pn_top p /\ pn_class p' = pn_class p /\
    pn_selectedEl p' = pn_selectedEl p /\ pn_explorerPath p' = pn_explorerPath p }.

Lemma mounted_fields n : nd_name (mounted n) = nd_name n /\ nd_path (mounted n) = nd_path n.
Proof. done. Qed.

(** Names are found in any heap that agrees on the old nodes. *)
Lemma child_named_same p p' ex name :
  (forall c, c ∈ ex -> nd_name <$> pn_heap p' !! c = nd_name <$> pn_heap p !! c) -> child_named p' ex name = child_named p ex name.
Proof.
  intros H. unfold child_named. f_equal. induction ex as [|c ex IH]; [done|]. cbn [List.filter].
  assert (E := H c ltac:(by left)). rewrite IH by (intros d Hd; apply H; by right).
  destruct (pn_heap p' !! c) as [n'|], (pn_heap p !! c) as [n|]; cbn in E; simplify_eq; [by rewrite E|done].
Qed.

Lemma child_named_some p ex name c :
  child_named p ex name = Some c -> c ∈ ex /\ exists n, pn_heap p !! c = Some n /\ nd_name n = name.
Proof.
  unfold child_named. intros H. apply last_Some_elem_of in H. apply list_elem_of_In, filter_In in H as [H1 H2].
  apply list_elem_of_In in H1. split; [done|]. destruct (pn_heap p !! c) as [n|]; [|done]. exists n. by apply bool_decide_eq_true in H2.
Qed.

Lemma child_named_none p ex name c n :
  child_named p ex name = None -> c ∈ ex -> pn_heap p !! c = Some n -> nd_name n <> name.
Proof.
  unfold child_named. intros H Hc Hn E. apply last_None in H.
  assert (Hin : c ∈ List.filter (fun i => match pn_heap p !! i with Some n => bool_decide (nd_name n = name) | None => false end) ex).
  { apply list_elem_of_In, filter_In. split; [by apply list_elem_of_In|]. rewrite Hn. by apply bool_decide_eq_true. }
  rewrite H in Hin. by apply elem_of_nil in Hin.
Qed.

Lemma heap_upd i f p j : pn_heap (upd i f p) !! j = if decide (i = j) then f <$> pn_heap p !! j else pn_heap p !! j.
Proof. unfold upd. cbn. destruct (decide (i = j)) as [->|]; [by rewrite lookup_alter_eq|by rewrite lookup_alter_ne]. Qed.

Lemma heap_mount c p j : pn_heap (mountNode false c p) !! j = if decide (c = j) then mounted <$> pn_heap p !! j else pn_heap p !! j.
Proof. unfold mountNode. cbv zeta iota. apply heap_upd. Qed.

Lemma mounted_twice (o : option node) : mounted <$> (mounted <$> o) = mounted <$> o.
Proof. by destruct o. Qed.

Lemma rendered_kept i parent ex it items p c cs p' :
  child_named p ex it.1 = Some c -> rendered i parent ex items (mountNode false c p) cs p' ->
  (forall d, d ∈ ex -> (d < pn_next p)%nat) -> rendered i parent ex (it :: items) p (c :: cs) p'.
Proof.
  intros Hc [R1 R2 R3 R4 R5 R6 R7] Hex. assert (Hm := heap_mount c p).
  assert (Hn : forall name, child_named (mountNode false c p) ex name = child_named p ex name).
  { intros name. apply child_named_same. intros d _. rewrite Hm. destruct (decide _); [|done]. by destruct (pn_heap p !! d). }
  assert (Hlt : (c < pn_next p)%nat) by (apply child_named_some in Hc as [? _]; by apply Hex).
  split; [done| | | | | |done].
  - intros j Hj. specialize (R2 j Hj). rewrite Hm in R2. destruct (decide (c = j)); rewrite ?mounted_twice in R2; naive_solver.
  - intros d Hd Hlt'. destruct (decide (d ∈ cs)) as [Hin|Hin].
    + rewrite (R3 d Hin Hlt'), Hm. destruct (decide _); [|done]. apply mounted_twice.
    + apply elem_of_cons in Hd as [->|]; [|done]. destruct (R2 c Hlt) as [->| ->]; rewrite Hm, decide_True by done; [done|apply mounted_twice].
  - intros j Hj Hs. destruct (R4 j Hj Hs) as (it' & Hin & E & E' & ?). rewrite Hn in E'. exists it'. split_and!; [by right|done|done|done].
  - intros q. destruct (R5 q) as [?|(it' & Hin & E & E')]; [by left|]. rewrite Hn in E'. right. exists it'. split_and!; [by right|done|done].
  - constructor; [by left|]. eapply Forall2_impl; [exact R6|]. intros it' d. cbv beta. by rewrite Hn.
Qed.

Definition create_child (i : nat) (parent : str) (it : str * bool) (p : panel) : panel :=
  mountNode false (pn_next p)
    (set_byPath (<[child_path parent it.1 := pn_next p]>)
       (alloc (MkNode (child_path parent it.1) it.1 it.2 (Some i) [] false false false) p).2).

Lemma heap_create i parent it p j :
  pn_heap (create_child i parent it p) !! j = if decide (pn_next p = j) then Some (new_node i parent it) else pn_heap p !! j.
Proof.
  unfold create_child. rewrite heap_mount. cbn [alloc snd set_byPath pn_heap]. destruct (decide _) as [<-|Hn].
  - by rewrite lookup_insert_eq.
  - by rewrite lookup_insert_ne.
Qed.

Lemma rendered_new i parent ex it items p cs p' :
  child_named p ex it.1 = None -> rendered i parent ex items (create_child i parent it p) cs p' ->
  (forall d, d ∈ ex -> (d < pn_next p)%nat) -> (forall j, is_Some (pn_heap p !! j) -> (j < pn_next p)%nat) ->
  it.1 ∉ map fst items -> item_name it.1 -> Forall item_name (map fst items) ->
  rendered i parent ex (it :: items) p (pn_next p :: cs) p'.
Proof.
  intros Hc [R1 R2 R3 R4 R5 R6 R7] Hex Hb Hdup Hit Hitems. assert (Hm := heap_create i parent it p).
  change (pn_next (create_child i parent it p)) with (S (pn_next p)) in *.
  assert (Hn : forall name, child_named (create_child i parent it p) ex name = child_named p ex name).
  { intros name. apply child_named_same. intros d Hd. rewrite Hm. destruct (decide _) as [E|]; [|done]. specialize (Hex d Hd). lia. }
  assert (Hself : pn_heap p' !! pn_next p = Some (new_node i parent it)).
  { destruct (R2 (pn_next p) ltac:(lia)) as [->| ->]; by rewrite Hm, decide_True. }
  assert (Hother : forall it', it' ∈ items -> child_path parent it'.1 <> child_path parent it.1).
  { intros it' Hin E. apply child_path_inj in E as [_ E]; [| |done].
    - apply Hdup. rewrite <- E. apply list_elem_of_fmap. by exists it'.
    - rewrite Forall_forall in Hitems. apply Hitems. apply list_elem_of_fmap. by exists it'. }
  split; [lia| | | | | |done].
  - intros j Hj. specialize (R2 j ltac:(lia)). rewrite Hm, decide_False in R2 by lia. done.
  - intros d Hd Hlt. apply elem_of_cons in Hd as [->|Hd]; [lia|]. rewrite (R3 d Hd) by lia. by rewrite Hm, decide_False by lia.
  - intros j Hj Hs. destruct (decide (j = pn_next p)) as [->|Hne].
    + exists it. split_and!; [by left|done|done|lia].
    + destruct (R4 j ltac:(lia) Hs) as (it' & Hin & E & E' & ?). rewrite Hn in E'. exists it'. split_and!; [by right|done|done|done].
  - intros q. destruct (R5 q) as [E|(it' & Hin & E & E')].
    + change (pn_byPath (create_child i parent it p)) with (<[child_path parent it.1 := pn_next p]> (pn_byPath p)) in E.
      destruct (decide (q = child_path parent it.1)) as [->|Hq]; [right; exists it; split_and!; [by left|done|done]|].
      rewrite lookup_insert_ne in E by done. by left.
    + rewrite Hn in E'. right. exists it'. split_and!; [by right|done|done].
  - constructor.
    + right. split_and!; [done|lia|done|]. destruct (R5 (child_path parent it.1)) as [E|(it' & Hin & E & _)]; [|by destruct (Hother it' Hin)].
      rewrite E. apply lookup_insert_eq.
    + eapply Forall2_impl; [exact R6|]. intros it' d. cbv beta. rewrite Hn. intros [?|(? & ? & ? & ?)]; [by left|right]. split_and!; [done|lia|done|done].
Qed.

Lemma render_items_rendered i parent ex items p cs p' :
  (forall j, is_Some (pn_heap p !! j) -> (j < pn_next p)%nat) -> (forall d, d ∈ ex -> (d < pn_next p)%nat) ->
  NoDup (map fst items) -> Forall item_name (map fst items) ->
  render_items i parent ex items p = (cs, p') -> rendered i parent ex items p cs p'.
Proof.
  revert p cs p'. induction items as [|it items IH]; intros p cs p' Hb Hex Hd Hi E; cbn [render_items] in E.
  { simplify_eq. split; [done|by left|intros c Hc; by apply elem_of_nil in Hc| |by left|constructor|by split_and!].
    intros j Hj Hs. apply Hb in Hs. lia. }
  apply NoDup_cons in Hd as [Hd1 Hd2]. apply Forall_cons in Hi as [Hi1 Hi2]. unfold render_item in E.
  destruct (child_named p ex it.1) as [c|] eqn:Ec.
  - destruct (render_items i parent ex items (mountNode false c p)) as [cs1 p1] eqn:E1. simplify_eq. apply rendered_kept; [done| |done].
    apply IH; [|done|done|done|done]. intros j. rewrite heap_mount. destruct (decide _); [|apply Hb]. intros [n H]. apply Hb.
    by destruct (pn_heap p !! j).
  - change ((let '(cs2, p2) := render_items i parent ex items (create_child i parent it p) in (pn_next p :: cs2, p2)) = (cs, p')) in E.
    destruct (render_items i parent ex items (create_child i parent it p)) as [cs1 p1] eqn:E1. simplify_eq.
    apply rendered_new; [done| |done|done|done|done|done]. apply IH; [| |done|done|exact E1];
      change (pn_next (create_child i parent it p)) with (S (pn_next p)).
    + intros j. rewrite heap_create. destruct (decide _); [lia|]. intros H. apply Hb in H. lia.
    + intros d H. apply Hex in H. lia.
Qed.

(** A node keeps what the tree is made of. *)
Definition same_place (m m' : node) : Prop :=
  nd_path m' = nd_path m /\ nd_name m' = nd_name m /\ nd_parent m' = nd_parent m /\ nd_folder m' = nd_folder m /\
  (nd_el m = true -> nd_el m' = true).

Lemma same_place_refl m : same_place m m.
Proof. by split_and!. Qed.

Section render.
  Context (i : nat) (n : node) (items : list (str * bool)) (p p2 p3 : panel) (cs : list nat).
  Context (Hok : tree_ok p) (Hi : pn_heap p !! i = Some n) (Hby : pn_byPath p !! nd_path n = Some i).
  Context (HR : rendered i (nd_path n) (nd_children n) items p cs p2).
  Context (Hnames : Forall item_name (map fst items)) (Hdup : NoDup (map fst items)).
  Context (Hf3 : pn_next p3 = pn_next p2 /\ pn_root p3 = pn_root p2 /\ pn_byPath p3 = pn_byPath p2).
  Context (heap3 : forall j, pn_heap p3 !! j = if decide (i = j) then
    (fun x => MkNode (nd_path x) (nd_name x) (nd_folder x) (nd_parent x) cs true true (nd_el x)) <$> pn_heap p2 !! j else pn_heap p2 !! j).

Lemma render_i_old : (i < pn_next p)%nat.
Proof. apply (hp_next _ (tr_heap _ Hok)). by eexists. Qed.

Lemma render_cs c : c ∈ cs -> exists it, it ∈ items /\
    (child_named p (nd_children n) it.1 = Some c \/
     (child_named p (nd_children n) it.1 = None /\ (pn_next p <= c)%nat /\ pn_heap p2 !! c = Some (new_node i (nd_path n) it) /\
      pn_byPath p2 !! child_path (nd_path n) it.1 = Some c)).
Proof.
  intros Hc. apply list_elem_of_lookup in Hc as [k Hk]. destruct (Forall2_lookup_r _ _ _ _ _ (rd_cs _ _ _ _ _ _ _ HR) Hk) as (it & Hit & H).
  exists it. split; [by eapply list_elem_of_lookup_2|done].
Qed.

  (** The old nodes are where they were, all but one with the children they had. *)
Lemma render_old j m : pn_heap p !! j = Some m -> exists m', pn_heap p3 !! j = Some m' /\ same_place m m' /\ (j <> i -> nd_children m' = nd_children m).
Proof.
  intros Hj. assert (Hlt : (j < pn_next p)%nat) by (apply (hp_next _ (tr_heap _ Hok)); by eexists).
  rewrite heap3. destruct (rd_old _ _ _ _ _ _ _ HR j Hlt) as [E|E]; rewrite E, Hj; destruct (decide (i = j)); cbn;
    eexists; (split; [reflexivity|]); by split_and!.
Qed.

Lemma render_inv j m' : pn_heap p3 !! j = Some m' ->
    (exists m, pn_heap p !! j = Some m /\ same_place m m' /\ (j <> i -> nd_children m' = nd_children m)) \/
    ((pn_next p <= j)%nat /\ exists it, it ∈ items /\ m' = new_node i (nd_path n) it).
Proof.
  intros Hj. destruct (le_lt_dec (pn_next p) j) as [Hge|Hlt].
  - right. split; [done|]. pose proof render_i_old. rewrite heap3, decide_False in Hj by lia.
    destruct (rd_new _ _ _ _ _ _ _ HR j Hge ltac:(by eexists)) as (it & Hin & E & _). exists it. split; [done|congruence].
  - left. destruct (pn_heap p !! j) as [m|] eqn:E.
    + destruct (render_old j m E) as (m2 & E2 & H). simplify_eq. by exists m.
    + exfalso. rewrite heap3 in Hj. destruct (rd_old _ _ _ _ _ _ _ HR j Hlt) as [E'|E']; rewrite E', E in Hj; by destruct (decide _).
Qed.

Lemma heap3_children m' : pn_heap p3 !! i = Some m' -> nd_children m' = cs.
Proof. rewrite heap3, decide_True by done. destruct (pn_heap p2 !! i); [|done]. by intros [= <-]. Qed.

Lemma child_not_parent c m : c ∈ nd_children n -> pn_heap p !! c = Some m -> c <> i.
Proof.
  intros Hc _ ->. destruct (hp_child _ (tr_heap _ Hok) i n i Hi Hc) as (m' & E & _ & Hp & Hn & _). rewrite Hi in E. injection E as <-.
  assert (Hl : (length (nd_path n) < length (child_path (nd_path n) (nd_name n)))%nat).
  { unfold child_path. rewrite length_app. destruct Hn as [Hn _]. destruct (nd_name n); [done|].
    destruct (nd_path n) as [|c0 q]; cbn [nonempty length]; [lia|]. rewrite !length_app. cbn [length]. lia. }
  rewrite <- Hp in Hl. lia.
Qed.

  (** The children that are shown *)
Lemma render_child c : c ∈ cs -> exists m', pn_heap p3 !! c = Some m' /\ nd_parent m' = Some i /\
    nd_path m' = child_path (nd_path n) (nd_name m') /\ item_name (nd_name m') /\ nd_el m' = true.
Proof.
  intros Hc. destruct (render_cs c Hc) as (it & Hin & [H|(H1 & H2 & H3 & H4)]).
  - apply child_named_some in H as [Hex (m & Hm & En)].
    destruct (hp_child _ (tr_heap _ Hok) i n c Hi Hex) as (m0 & Em & Hp & Hq & Hn & He). rewrite Hm in Em. injection Em as <-.
    destruct (render_old c m Hm) as (m' & E & (S1 & S2 & S3 & _ & S5) & _). exists m'. rewrite S1, S2, S3. split_and!; try done. by apply S5.
  - pose proof render_i_old. exists (new_node i (nd_path n) it). rewrite heap3, decide_False by lia. split_and!; try done.
    rewrite Forall_forall in Hnames. apply Hnames. apply list_elem_of_fmap. by exists it.
Qed.

  (** Their names are those of the items. *)
Lemma render_names : omap (fun c => nd_name <$> pn_heap p3 !! c) cs = map fst items.
Proof.
  assert (H : Forall2 (fun it c => nd_name <$> pn_heap p3 !! c = Some it.1) items cs).
  { eapply Forall2_impl; [exact (rd_cs _ _ _ _ _ _ _ HR)|]. intros it c [H|(H1 & H2 & H3 & H4)].
    - apply child_named_some in H as [_ (m & Hm & <-)]. destruct (render_old c m Hm) as (m' & -> & (_ & S2 & _) & _). cbn. by rewrite S2.
    - pose proof render_i_old. rewrite heap3, decide_False by lia. by rewrite H3. }
  clear -H. induction H as [|it c its cs' Hc _ IH]; [done|]. cbn [omap list_omap map]. rewrite Hc. f_equal. exact IH.
Qed.

Lemma render_heap_ok : heap_ok p3.
Proof.
  split.
  - intros j [m' Hm]. destruct Hf3 as (-> & _). destruct (render_inv j m' Hm) as [(m & Hm0 & _)|(Hge & _)].
    + pose proof (rd_next _ _ _ _ _ _ _ HR). assert ((j < pn_next p)%nat) by (apply (hp_next _ (tr_heap _ Hok)); by eexists). lia.
    + pose proof render_i_old. rewrite heap3, decide_False in Hm by lia.
      by destruct (rd_new _ _ _ _ _ _ _ HR j Hge ltac:(by eexists)) as (? & _ & _ & _ & ?).
  - intros j m' c Hj Hc. destruct (decide (j = i)) as [->|Hne].
    + assert (E : nd_children m' = cs /\ nd_path m' = nd_path n).
      { split; [by apply heap3_children|]. destruct (render_old i n Hi) as (m2 & E2 & (S1 & _) & _). rewrite E2 in Hj. by injection Hj as <-. }
      destruct E as [E1 E2]. rewrite E1 in Hc. rewrite E2. by apply render_child.
    + destruct (render_inv j m' Hj) as [(m & Hm & (S1 & _) & Hch)|(_ & it & _ & ->)]; [|by apply elem_of_nil in Hc].
      rewrite (Hch Hne) in Hc. destruct (hp_child _ (tr_heap _ Hok) j m c Hm Hc) as (mc & Emc & Hp & Hq & Hn & He).
      destruct (render_old c mc Emc) as (mc' & E & (T1 & T2 & T3 & _ & T5) & _). exists mc'. rewrite T1, T2, T3, S1. split_and!; try done. by apply T5.
  - intros j m' Hj. destruct (decide (j = i)) as [->|Hne].
    + assert (E := heap3_children m' Hj).
      by rewrite E, render_names.
    + destruct (render_inv j m' Hj) as [(m & Hm & _ & Hch)|(_ & it & _ & ->)]; [|constructor]. rewrite (Hch Hne).
      replace (omap (fun c => nd_name <$> pn_heap p3 !! c) (nd_children m)) with (omap (fun c => nd_name <$> pn_heap p !! c) (nd_children m)).
      { by apply (hp_names _ (tr_heap _ Hok) j). }
      apply list_omap_ext. apply Forall_Forall2_diag, Forall_forall. intros c Hc.
      destruct (hp_child _ (tr_heap _ Hok) j m c Hm Hc) as (mc & Emc & _). destruct (render_old c mc Emc) as (mc' & E & (_ & T2 & _) & _).
      rewrite Emc, E. cbn. by rewrite T2.
Qed.

Lemma render_live k : live p3 k -> live p k \/ (k ∈ cs /\ (pn_next p <= k)%nat).
Proof.
  induction 1 as [r Hr|j m' c Hl IH Hj Hc].
  - left. constructor. destruct Hf3 as (_ & Er & _). destruct (rd_rest _ _ _ _ _ _ _ HR) as (E & _). by rewrite <- E, <- Er.
  - destruct (render_inv j m' Hj) as [(m & Hm & _ & Hch)|(_ & it & _ & ->)]; [|by apply elem_of_nil in Hc].
    assert (Hlj : live p j).
    { destruct IH as [|[_ Hge]]; [done|]. assert ((j < pn_next p)%nat) by (apply (hp_next _ (tr_heap _ Hok)); by eexists). lia. }
    destruct (decide (j = i)) as [->|Hne].
    + assert (E := heap3_children m' Hj).
      rewrite E in Hc. destruct (render_cs c Hc) as (it & _ & [H|(_ & H & _)]); [left|by right].
      apply child_named_some in H as [H _]. by apply (live_child p i n).
    + rewrite (Hch Hne) in Hc. left. by eapply live_child.
Qed.

Lemma render_tree_ok : tree_ok p3.
Proof.
  pose proof render_i_old as Hio. destruct Hok as [Hheap Hroot Hsound Hlive]. split; [apply render_heap_ok| | |].
  - intros r Hr. destruct Hf3 as (_ & Er & _). destruct (rd_rest _ _ _ _ _ _ _ HR) as (E & _). rewrite Er, E in Hr.
    destruct (Hroot r Hr) as (m & Hm & H1 & H2). destruct (render_old r m Hm) as (m' & E' & (S1 & _ & _ & S4 & _) & _).
    exists m'. by rewrite S1, S4.
  - intros q k Hq. destruct Hf3 as (_ & _ & Eb). rewrite Eb in Hq. destruct (rd_by _ _ _ _ _ _ _ HR q) as [E|(it & Hin & -> & Hnone)].
    + rewrite E in Hq. destruct (Hsound q k Hq) as (m & Hm & Hpm). destruct (render_old k m Hm) as (m' & E' & (S1 & _) & _).
      exists m'. by rewrite S1.
    + apply list_elem_of_lookup in Hin as [z Hz]. destruct (Forall2_lookup_l _ _ _ _ _ (rd_cs _ _ _ _ _ _ _ HR) Hz) as (c & _ & [H|(_ & Hge & Hc & Hb)]); [congruence|].
      simplify_eq. exists (new_node i (nd_path n) it). rewrite heap3, decide_False by lia. done.
  - intros k m' Hl Hk. destruct Hf3 as (_ & _ & Eb). rewrite Eb. destruct (render_live k Hl) as [Hlk|[Hc Hge]].
    + destruct (render_inv k m' Hk) as [(m & Hm & (S1 & _) & _)|(Hge & _)].
      2:{ exfalso. assert (is_Some (pn_heap p !! k)) as Hs.
          { inversion Hlk as [r Hr|j mj c Hlj Hmj Hcj]; subst; [destruct (Hroot k Hr) as (? & ? & _); by eexists|].
            destruct (hp_child _ Hheap j mj k Hmj Hcj) as (? & ? & _). by eexists. }
          apply (hp_next _ Hheap) in Hs. lia. }
      rewrite S1. destruct (rd_by _ _ _ _ _ _ _ HR (nd_path m)) as [->|(it & Hin & Eq & Hnone)]; [by apply Hlive|]. exfalso.
      assert (Hit : item_name it.1) by (rewrite Forall_forall in Hnames; apply Hnames; apply list_elem_of_fmap; by exists it).
      inversion Hlk as [r Hr|j mj c Hlj Hmj Hcj]; subst.
      * destruct (Hroot k Hr) as (m0 & Hm0 & Hnil & _). simplify_eq. rewrite Hnil in Eq. by apply (child_path_not_nil (nd_path n) it.1).
      * destruct (hp_child _ Hheap j mj k Hmj Hcj) as (m0 & Hm0 & _ & Hq & Hn & _). simplify_eq. rewrite Hq in Eq.
        apply child_path_inj in Eq as [Eq1 Eq2]; [|done|done]. assert (Hj := Hlive j mj Hlj Hmj). rewrite Eq1, Hby in Hj. simplify_eq.
        by eapply child_named_none.
    + destruct (render_cs k Hc) as (it & _ & [H|(_ & _ & Hh & Hb)]).
      * apply child_named_some in H as [_ (m & Hm & _)]. assert ((k < pn_next p)%nat) by (apply (hp_next _ Hheap); by eexists). lia.
      * rewrite heap3, decide_False in Hk by lia. simplify_eq. done.
Qed.
End render.

(** ** The panel as a whole *)

(** The tree does not depend on the rest. *)
Lemma tree_ok_same p p' :
  pn_heap p' = pn_heap p -> pn_next p' = pn_next p -> pn_root p' = pn_root p -> pn_byPath p' = pn_byPath p -> tree_ok p -> tree_ok p'.
Proof.
  intros E1 E2 E3 E4 [[H1 H2 H3] T2 T3 T4].
  assert (Hl : forall k, live p' k -> live p k).
  { induction 1 as [r Hr|j m c _ IH Hj Hc]; [constructor; by rewrite <- E3|]. rewrite E1 in Hj. by eapply live_child. }
  split; [split; rewrite E1, ?E2; done| | |]; rewrite ?E1, ?E3, ?E4; try done. intros i n Hli. apply T4. by apply Hl.
Qed.

(** Changes of single nodes that leave them in their place *)
Lemma tree_ok_upd i f p :
  (forall m, same_place m (f m) /\ nd_children (f m) = nd_children m) -> tree_ok p -> tree_ok (upd i f p).
Proof.
  intros Hf Hok.
  assert (Hfw : forall j m, pn_heap p !! j = Some m -> exists m', pn_heap (upd i f p) !! j = Some m' /\ same_place m m' /\ nd_children m' = nd_children m).
  { intros j m Hm. rewrite heap_upd, Hm. destruct (decide (i = j)); cbn; eexists; (split; [reflexivity|]); [apply Hf|]. split; [apply same_place_refl|done]. }
  assert (Hbw : forall j m', pn_heap (upd i f p) !! j = Some m' -> exists m, pn_heap p !! j = Some m /\ same_place m m' /\ nd_children m' = nd_children m).
  { intros j m' Hm'. destruct (pn_heap p !! j) as [m|] eqn:Em; [|rewrite heap_upd, Em in Hm'; by destruct (decide _)].
    destruct (Hfw j m Em) as (m2 & E2 & H). rewrite E2 in Hm'. injection Hm' as <-. by exists m. }
  assert (Hl : forall k, live (upd i f p) k -> live p k).
  { induction 1 as [r Hr|j m c _ IH Hj Hc]; [by constructor|]. destruct (Hbw j m Hj) as (m0 & E & _ & Ec). rewrite Ec in Hc. by eapply live_child. }
  destruct Hok as [[H1 H2 H3] T2 T3 T4]. split; [split| | |].
  - intros j [m' Hm']. destruct (Hbw j m' Hm') as (m & E & _). apply H1. by eexists.
  - intros j m' c Hm' Hc. destruct (Hbw j m' Hm') as (m & E & (S1 & _) & Ec). rewrite Ec in Hc. destruct (H2 j m c E Hc) as (mc & Emc & P1 & P2 & P3 & P4).
    destruct (Hfw c mc Emc) as (mc' & E' & (T1 & T2' & T3' & _ & T5) & _). exists mc'. rewrite T1, T2', T3', S1. split_and!; try done. by apply T5.
  - intros j m' Hm'. destruct (Hbw j m' Hm') as (m & E & _ & Ec). rewrite Ec.
    replace (omap (fun c => nd_name <$> pn_heap (upd i f p) !! c) (nd_children m)) with (omap (fun c => nd_name <$> pn_heap p !! c) (nd_children m)); [by apply (H3 j)|].
    apply list_omap_ext. apply Forall_Forall2_diag, Forall_forall. intros c Hc. destruct (H2 j m c E Hc) as (mc & Emc & _).
    destruct (Hfw c mc Emc) as (mc' & E' & (_ & T2' & _) & _). rewrite Emc, E'. cbn. by rewrite T2'.
  - intros r Hr. destruct (T2 r Hr) as (m & Hm & P1 & P2). destruct (Hfw r m Hm) as (m' & E' & (S1 & _ & _ & S4 & _) & _). exists m'. by rewrite S1, S4.
  - intros q k Hq. destruct (T3 q k Hq) as (m & Hm & P1). destruct (Hfw k m Hm) as (m' & E' & (S1 & _) & _). exists m'. by rewrite S1.
  - intros k m' Hlk Hm'. destruct (Hbw k m' Hm') as (m & E & (S1 & _) & _). rewrite S1. by apply T4; [apply Hl|].
Qed.

Lemma tree_ok_mount top i p : tree_ok p -> tree_ok (mountNode top i p).
Proof.
  intros H. unfold mountNode. assert (Hu := tree_ok_upd i mounted p ltac:(by intros m; split_and!) H). destruct top; [|done].
  eapply tree_ok_same; [..|exact Hu]; done.
Qed.

(** A new root: nothing is shown below it. *)
Lemma tree_ok_set_root p :
  heap_ok p -> (forall q i, pn_byPath p !! q = Some i -> exists n, pn_heap p !! i = Some n /\ nd_path n = q) -> tree_ok (reducer p EXPLORER_SET_ROOT).
Proof.
  intros [H1 H2 H3] Hs. set (p' := reducer p EXPLORER_SET_ROOT).
  assert (Hh : forall j, pn_heap p' !! j = if decide (pn_next p = j) then Some root_node else pn_heap p !! j).
  { intros j. unfold p'. cbn. destruct (decide _) as [<-|]; [by rewrite lookup_insert_eq|by rewrite lookup_insert_ne]. }
  assert (Hfresh : forall j m, pn_heap p !! j = Some m -> j <> pn_next p) by (intros j m Hm; specialize (H1 j ltac:(by eexists)); lia).
  assert (Hl : forall k, live p' k -> k = pn_next p).
  { induction 1 as [r Hr|j m c _ IH Hj Hc]; [unfold p' in Hr; cbn in Hr; by simplify_eq|]. subst j. rewrite Hh, decide_True in Hj by done.
    injection Hj as <-. by apply elem_of_nil in Hc. }
  split; [split| | |].
  - intros j Hj. change (pn_next p') with (S (pn_next p)). rewrite Hh in Hj. destruct (decide _); [lia|]. apply H1 in Hj. lia.
  - intros j m c Hj Hc. rewrite Hh in Hj. destruct (decide _); [injection Hj as <-; by apply elem_of_nil in Hc|].
    destruct (H2 j m c Hj Hc) as (mc & Emc & ?). exists mc. rewrite Hh, decide_False by (symmetry; by eapply Hfresh). done.
  - intros j m Hj. rewrite Hh in Hj. destruct (decide _); [injection Hj as <-; constructor|].
    replace (omap (fun c => nd_name <$> pn_heap p' !! c) (nd_children m)) with (omap (fun c => nd_name <$> pn_heap p !! c) (nd_children m)); [by apply (H3 j)|].
    apply list_omap_ext. apply Forall_Forall2_diag, Forall_forall. intros c Hc. destruct (H2 j m c Hj Hc) as (mc & Emc & _).
    rewrite Hh, decide_False by (symmetry; by eapply Hfresh). done.
  - intros r Hr. unfold p' in Hr. cbn in Hr. injection Hr as <-. exists root_node. by rewrite Hh, decide_True.
  - intros q k Hq. change (pn_byPath p') with (<[[] := pn_next p]> (pn_byPath p)) in Hq. destruct (decide (q = [])) as [->|Hne].
    + rewrite lookup_insert_eq in Hq. injection Hq as <-. exists root_node. by rewrite Hh, decide_True.
    + rewrite lookup_insert_ne in Hq by done. destruct (Hs q k Hq) as (m & Hm & Hp). exists m. rewrite Hh, decide_False by (symmetry; by eapply Hfresh). done.
  - intros k m Hlk Hm. rewrite (Hl k Hlk) in *. rewrite Hh, decide_True in Hm by done. injection Hm as <-.
    change (pn_byPath p') with (<[[] := pn_next p]> (pn_byPath p)). apply lookup_insert_eq.
Qed.

Lemma names_unique p i n c c' m m' :
  tree_ok p -> pn_heap p !! i = Some n -> c ∈ nd_children n -> c' ∈ nd_children n ->
  pn_heap p !! c = Some m -> pn_heap p !! c' = Some m' -> nd_name m = nd_name m' -> c = c'.
Proof.
  intros Hok Hi Hc Hc' Hm Hm' E. assert (Hd := hp_names _ (tr_heap _ Hok) i n Hi). revert Hc Hc' Hd. generalize (nd_children n) as l.
  induction l as [|d l IH]; intros Hc Hc' Hd; [by apply elem_of_nil in Hc|]. cbn [omap list_omap] in Hd.
  assert (Hin : forall a ma, a ∈ l -> pn_heap p !! a = Some ma -> nd_name ma ∈ omap (fun c => nd_name <$> pn_heap p !! c) l).
  { intros a ma Ha Hma. apply list_elem_of_omap. exists a. split; [done|]. by rewrite Hma. }
  apply elem_of_cons in Hc as [->|Hc], Hc' as [->|Hc']; [done| | |].
  - rewrite Hm in Hd. cbn in Hd. apply NoDup_cons in Hd as [Hn _]. exfalso. apply Hn. rewrite E. by eapply Hin.
  - rewrite Hm' in Hd. cbn in Hd. apply NoDup_cons in Hd as [Hn _]. exfalso. apply Hn. rewrite <- E. by eapply Hin.
  - apply IH; [done|done|]. destruct (nd_name <$> pn_heap p !! d); [by apply NoDup_cons in Hd as [_ ?]|done].
Qed.

Lemma heap_ok_same p p' : pn_heap p' = pn_heap p -> pn_next p' = pn_next p -> heap_ok p -> heap_ok p'.
Proof. intros E1 E2 [H1 H2 H3]. split; rewrite E1, ?E2; done. Qed.

Section panel.
  Context (name_cmp : str -> str -> Z).

(** A listing of a directory: distinct names that a directory can have *)
Definition listing (items : list (str * bool)) : Prop := NoDup (map fst items) /\ Forall item_name (map fst items).

Lemma listing_sorted items : listing items -> listing (array_sort (item_cmp name_cmp) items).
Proof.
  intros [H1 H2]. assert (Hp := array_sort_perm (item_cmp name_cmp) items). split.
  - rewrite Hp. done.
  - rewrite Hp. done.
Qed.

(** What a listing does to the folder it is for *)
Lemma renderChildren_spec i n items p :
  tree_ok p -> pn_heap p !! i = Some n -> nd_folder n = true -> pn_byPath p !! nd_path n = Some i -> listing items ->
  let p' := renderChildren name_cmp i items p in
  tree_ok p' /\ pn_root p' = pn_root p /\ pn_selected p' = pn_selected p /\
  exists n', pn_heap p' !! i = Some n' /\ nd_path n' = nd_path n /\ nd_expanded n' = true /\ nd_loaded n' = true /\
    omap (fun c => nd_name <$> pn_heap p' !! c) (nd_children n') = map fst (array_sort (item_cmp name_cmp) items) /\
    (forall c m, c ∈ nd_children n -> pn_heap p !! c = Some m -> nd_name m ∈ map fst items -> c ∈ nd_children n').
Proof.
  intros Hok Hi Hf Hby Hls p'. destruct (listing_sorted _ Hls) as [Hd Hn]. unfold p', renderChildren. rewrite Hi, Hf.
  set (p1 := if nd_el n then p else mountNode true i p).
  assert (Hok1 : tree_ok p1) by (unfold p1; destruct (nd_el n); [done|by apply tree_ok_mount]).
  assert (Hh1 : exists n1, pn_heap p1 !! i = Some n1 /\ nd_path n1 = nd_path n /\ nd_children n1 = nd_children n).
  { unfold p1. destruct (nd_el n); [by exists n|]. exists (mounted n). cbn. rewrite lookup_alter_eq, Hi. done. }
  destruct Hh1 as (n1 & Hi1 & Ep & Ec).
  assert (Hr1 : pn_root p1 = pn_root p /\ pn_selected p1 = pn_selected p /\ pn_byPath p1 = pn_byPath p) by (unfold p1; by destruct (nd_el n)).
  assert (Hnm : forall c m, pn_heap p !! c = Some m -> exists m1, pn_heap p1 !! c = Some m1 /\ nd_name m1 = nd_name m).
  { intros c m Hm. unfold p1. destruct (nd_el n); [by exists m|]. cbn. destruct (decide (i = c)) as [->|Hne];
      [rewrite lookup_alter_eq, Hm; by eexists|rewrite lookup_alter_ne by done; by eexists]. }
  rewrite <- Ep, <- Ec. destruct (render_items i (nd_path n1) (nd_children n1) (array_sort (item_cmp name_cmp) items) p1) as [cs p2] eqn:E.
  destruct Hr1 as (Er & Es & Eb).
  assert (HR : rendered i (nd_path n1) (nd_children n1) (array_sort (item_cmp name_cmp) items) p1 cs p2).
  { apply render_items_rendered; [apply (hp_next _ (tr_heap _ Hok1))| |done|done|done].
    intros d Hdc. destruct (hp_child _ (tr_heap _ Hok1) i n1 d Hi1 Hdc) as (m & Hm & _). apply (hp_next _ (tr_heap _ Hok1)). by eexists. }
  set (p3 := upd i _ p2).
  assert (H3 := heap_upd i (fun x => MkNode (nd_path x) (nd_name x) (nd_folder x) (nd_parent x) cs true true (nd_el x)) p2). fold p3 in H3.
  assert (Hby1 : pn_byPath p1 !! nd_path n1 = Some i) by by rewrite Eb, Ep.
  destruct (rd_rest _ _ _ _ _ _ _ HR) as (R1 & R2 & _). split_and!.
  - by eapply (render_tree_ok i n1 _ p1 p2 p3 cs).
  - change (pn_root p3) with (pn_root p2). congruence.
  - change (pn_selected p3) with (pn_selected p2). congruence.
  - destruct (rd_old _ _ _ _ _ _ _ HR i (hp_next _ (tr_heap _ Hok1) i ltac:(by eexists))) as [E2|E2]; rewrite Hi1 in E2;
      (eexists; split; [rewrite H3, decide_True, E2 by done; reflexivity|]; cbn [nd_path nd_expanded nd_loaded nd_children mounted];
       split_and!; [done|done|done|by eapply (render_names i n1 _ p1 p2 p3 cs)|]).
    all: intros c m Hc Hm Hin; destruct (Hnm c m Hm) as (m1 & Hm1 & En).
    all: rewrite <- (array_sort_perm (item_cmp name_cmp) items) in Hin; apply list_elem_of_fmap in Hin as (it & Eit & Hin).
    all: apply list_elem_of_lookup in Hin as [z Hz]; destruct (Forall2_lookup_l _ _ _ _ _ (rd_cs _ _ _ _ _ _ _ HR) Hz) as (c' & Hc' & [H|(H & _)]).
    all: try (exfalso; eapply (child_named_none p1 (nd_children n1) it.1 c m1); [done|done|done|congruence]).
    all: replace c with c'; [by eapply list_elem_of_lookup_2|]; apply child_named_some in H as [Hex (m' & Hm' & En')].
    all: eapply (names_unique p1 i n1); [done|exact Hi1|done|done|exact Hm'|exact Hm1|congruence].
Qed.
(** What can happen in the webview *)
Inductive panel_event :=
  | Message (m : h2w)
  | Click (el : nat) (multi : bool) | DblClick (el : nat) | Key (k : key) | Chevron (el : nat)
  | LosesFocus.

Definition panel_do (p : panel) (e : panel_event) : panel :=
  match e with
  | Message m => fst (on_message name_cmp m p)
  | Click el multi => tree_click el multi p
  | DblClick el => fst (tree_dblclick el p)
  | Key k => fst (tree_key k p)
  | Chevron el => flip_expanded el p
  | LosesFocus => clear_selection p
  end.

(** The listings of the host are listings of directories. *)
Definition event_ok (e : panel_event) : Prop :=
  match e with Message (ListResultMsg _ items) => listing items | _ => True end.

Lemma tree_ok_select p i multi : tree_ok p -> tree_ok (reducer p (EXPLORER_SELECT i multi)).
Proof.
  intros H. cbn [reducer]. unfold follow_selection. destruct multi; cbn [pn_selected set_selected unmark set_class].
  - destruct (if bool_decide _ then _ else _) as [|k []]; [by eapply tree_ok_same; [..|exact H]| |by eapply tree_ok_same; [..|exact H]].
    change (pn_heap (set_selected [k] p)) with (pn_heap p). destruct (pn_heap p !! k) as [m|]; [destruct (nd_folder m)|]; by eapply tree_ok_same; [..|exact H].
  - match goal with |- context [pn_heap ?q !! i] => change (pn_heap q) with (pn_heap p) end. destruct (pn_heap p !! i) as [m|]; [destruct (nd_folder m)|]; by eapply tree_ok_same; [..|exact H].
Qed.

Lemma tree_ok_setSelected i p : tree_ok p -> tree_ok (setSelected i p).
Proof. intros H. unfold setSelected. case_bool_decide; [done|]. by eapply tree_ok_same; [..|exact H]. Qed.

Lemma tree_ok_click el multi p : tree_ok p -> tree_ok (tree_click el multi p).
Proof.
  intros H. unfold tree_click. destruct (pn_heap p !! el) as [m|]; [|done]. destruct (pn_byPath p !! nd_path m) as [i|]; [|done].
  by apply tree_ok_select, tree_ok_setSelected.
Qed.

Lemma tree_ok_flip i p : tree_ok p -> tree_ok (flip_expanded i p).
Proof. intros H. apply tree_ok_upd; [|done]. by intros m; split_and!. Qed.

Lemma tree_ok_dblclick el p : tree_ok p -> tree_ok (fst (tree_dblclick el p)).
Proof.
  intros H. unfold tree_dblclick. destruct (pn_heap p !! el) as [m|]; [|done]. destruct (pn_byPath p !! nd_path m) as [i|]; [|done].
  assert (Hs := tree_ok_setSelected el p H). destruct (pn_heap (setSelected el p) !! i) as [n|]; [|done].
  destruct (nd_folder n); [|done]. destruct (nonempty (nd_path n)); [by apply tree_ok_flip|done].
Qed.

Lemma tree_ok_list path items p : tree_ok p -> listing items -> tree_ok (list_result name_cmp path items p).
Proof.
  intros Hok Hls. unfold list_result. destruct (if nonempty path then _ else _) as [i|] eqn:Ei; [|done].
  assert (Hn : exists n, pn_heap p !! i = Some n /\ pn_byPath p !! nd_path n = Some i).
  { destruct (nonempty path).
    - destruct (tr_sound _ Hok path i Ei) as (n & Hn & <-). by exists n.
    - destruct (tr_root _ Hok i Ei) as (n & Hn & _). exists n. split; [done|]. apply (tr_live _ Hok); [by constructor|done]. }
  destruct Hn as (n & Hn & Hby).
  assert (H : tree_ok (renderChildren name_cmp i items p)).
  { destruct (nd_folder n) eqn:Ef; [by eapply renderChildren_spec|]. unfold renderChildren. rewrite Hn, Ef. destruct (nd_el n); [done|by apply tree_ok_mount]. }
  destruct (_ && _); [|done]. assert (Hs := tree_ok_select _ i false H). by eapply tree_ok_same; [..|exact Hs].
Qed.

Lemma sound_of p : tree_ok p -> forall q i, pn_byPath p !! q = Some i -> exists n, pn_heap p !! i = Some n /\ nd_path n = q.
Proof. apply tr_sound. Qed.

Lemma tree_ok_message m p : tree_ok p -> event_ok (Message m) -> tree_ok (fst (on_message name_cmp m p)).
Proof.
  intros H He. assert (Hcleared : tree_ok (reducer (set_byPath (fun _ => ∅) (resetExplorerTree p)) EXPLORER_SET_ROOT)).
  { apply tree_ok_set_root; [by apply (heap_ok_same p); [..|apply tr_heap]|]. intros q i Hq. cbn in Hq. by rewrite lookup_empty in Hq. }
  destruct m as [logs|lines| |s| | |path items|path|path| | |e]; cbn [on_message fst]; try done.
  - apply tree_ok_set_root; [by apply (heap_ok_same p); [..|apply tr_heap]|]. exact (tr_sound _ H).
  - destruct lines; [done|]. by eapply tree_ok_same; [..|exact H].
  - by eapply tree_ok_same; [..|exact H].
  - by eapply tree_ok_same; [..|exact H].
  - by eapply tree_ok_same; [..|exact H].
  - destruct (pn_showExplorer (reducer p TOGGLE_EXPLORER)); [|by eapply tree_ok_same; [..|exact H]].
    cbn [fst]. destruct (pn_root (reducer p TOGGLE_EXPLORER)); [by eapply tree_ok_same; [..|exact H]|].
    apply tree_ok_set_root; [by apply (heap_ok_same p); [..|apply tr_heap]|]. intros q i Hq. cbn in Hq. by rewrite lookup_empty in Hq.
  - by apply tree_ok_list.
  - by eapply tree_ok_same; [..|exact Hcleared].
  - by eapply tree_ok_same; [..|exact H].
Qed.

Lemma panel_do_ok p e : tree_ok p -> event_ok e -> tree_ok (panel_do p e).
Proof.
  intros H He. destruct e as [m|el multi|el|k|el|]; cbn [panel_do]; [by apply tree_ok_message|by apply tree_ok_click|by apply tree_ok_dblclick| |by apply tree_ok_flip|].
  - destruct k; cbn [tree_key fst]; try done; destruct (item_at _ _); try done; by apply tree_ok_click.
  - by eapply tree_ok_same; [..|exact H].
Qed.

Lemma tree_ok_initial : tree_ok createInitialState.
Proof.
  split; [split| | |].
  - intros j []. cbn in *. by rewrite lookup_empty in *.
  - intros i n c Hn. cbn in Hn. by rewrite lookup_empty in Hn.
  - intros i n Hn. cbn in Hn. by rewrite lookup_empty in Hn.
  - done.
  - intros q i Hq. cbn in Hq. by rewrite lookup_empty in Hq.
  - intros i n _ Hn. cbn in Hn. by rewrite lookup_empty in Hn.
Qed.

Lemma panel_run_ok es : Forall event_ok es -> tree_ok (fold_left panel_do es createInitialState).
Proof.
  induction es as [|e es IH] using rev_ind; intros H; [apply tree_ok_initial|]. apply Forall_app in H as [H1 H2].
  rewrite fold_left_app. cbn [fold_left]. apply panel_do_ok; [by apply IH|]. by apply Forall_cons in H2 as [? _].
Qed.

(** ** Theorems on the tree *)

(** C15: In every state that messages and gestures can lead to, a node that is shown is the one
    its path is registered for, and it lies where its parent and its name say. *)
Theorem panel_tree_invariant es :
  Forall event_ok es ->
  let p := fold_left panel_do es createInitialState in
  (forall i n, live p i -> pn_heap p !! i = Some n -> pn_byPath p !! nd_path n = Some i) /\
  (forall i n c, pn_heap p !! i = Some n -> c ∈ nd_children n ->
     exists m, pn_heap p !! c = Some m /\ nd_parent m = Some i /\ nd_path m = child_path (nd_path n) (nd_name m)).
Proof.
  intros H p. assert (Hok := panel_run_ok es H). split; [apply (tr_live _ Hok)|].
  intros i n c Hn Hc. destruct (hp_child _ (tr_heap _ Hok) i n c Hn Hc) as (m & ? & ? & ? & _). by exists m.
Qed.

End panel.

(** ** Witnesses *)

Definition by_length (a b : str) : Z := zlen a - zlen b.

Definition demo_events : list panel_event :=
  [Message (InitState []); Message (ListResultMsg [] [(js "raw", true); (js "a.txt", false)]);
   Message (ListResultMsg (js "raw") [(js "one.log", false)])].

Lemma listing_dec items : bool_decide (NoDup (map fst items)) = true -> forallb (fun s => nonempty s && forallb (fun c => negb (c =? 47)) s) (map fst items) = true -> listing items.
Proof.
  intros H1 H2. split; [by eapply bool_decide_eq_true|]. apply Forall_forall. intros s Hs. rewrite forallb_forall in H2.
  specialize (H2 s ltac:(by apply list_elem_of_In)). apply andb_true_iff in H2 as [Hn Hf]. split; [by destruct s|].
  apply Forall_forall. intros c Hc. rewrite forallb_forall in Hf. specialize (Hf c ltac:(by apply list_elem_of_In)). by destruct (Z.eqb_spec c 47).
Qed.

Lemma demo_events_ok : Forall event_ok demo_events.
Proof. unfold demo_events. repeat (apply Forall_cons_2; [first [done|apply listing_dec; by vm_compute]|]). apply Forall_nil_2. Qed.

Lemma panel_tree_invariant_witness :
  let p := fold_left (panel_do by_length) demo_events createInitialState in
  pn_byPath p !! js "raw" = Some 1%nat /\ (forall i n, live p i -> pn_heap p !! i = Some n -> pn_byPath p !! nd_path n = Some i).
Proof. split; [by vm_compute|]. apply (panel_tree_invariant by_length demo_events demo_events_ok). Defined.


(** ** The marks of git *)

(** The items of a status, with the code that is shown and whether they are staged *)
Definition git_items (s : GitLite) : list (str * str * bool) :=
  map (fun x => (gi_path x, gi_code x, true)) (gl_staged s) ++ map (fun x => (gi_path x, gi_code x, false)) (gl_modified s) ++
  map (fun x => (gi_path x, js "??", false)) (gl_untracked s).

Definition shown_code (c : str) : str := if bool_decide (c = js "??") then js "U" else c.

Definition put_item (m : gmap str (str * bool)) (x : str * str * bool) : gmap str (str * bool) := put_git x.1.1 x.1.2 x.2 m.

Lemma update_as_fold s : updateGitStatusMap s = fold_left put_item (git_items s) ∅.
Proof.
  unfold updateGitStatusMap, git_items. rewrite !fold_left_app.
  assert (Hm : forall (f : GitLiteItem -> str * str * bool) l m, fold_left put_item (map f l) m = fold_left (fun m x => put_item m (f x)) l m).
  { intros f l. induction l as [|x l IH]; intros m; [done|]. cbn [map fold_left]. apply IH. }
  by rewrite !Hm.
Qed.

Definition items_of (k : str) (l : list (str * str * bool)) : list (str * str * bool) :=
  List.filter (fun x => bool_decide (normalizeKey x.1.1 = k)) l.

(** A file carries the strongest code that git gives it, and the mark of the index when any of
    its changes is staged; a file without a change carries none. *)
Theorem git_marks_exact s k :
  match updateGitStatusMap s !! k with
  | None => items_of k (git_items s) = []
  | Some (c, staged) =>
      c ∈ map (fun x => shown_code x.1.2) (items_of k (git_items s)) /\
      (forall x, x ∈ items_of k (git_items s) -> code_rank (shown_code x.1.2) <= code_rank c) /\
      staged = existsb (fun x => x.2) (items_of k (git_items s))
  end.
Proof.
  rewrite update_as_fold. generalize (git_items s) as l. intros l. induction l as [|x l IH] using rev_ind; [done|].
  rewrite fold_left_app. cbn [fold_left]. unfold items_of in *. rewrite List.filter_app. cbn [List.filter].
  unfold put_item at 1, put_git. fold (shown_code x.1.2). destruct (decide (normalizeKey x.1.1 = k)) as [<-|Hk].
  - rewrite bool_decide_true by done. destruct (fold_left put_item l ∅ !! normalizeKey x.1.1) as [[c b]|].
    + destruct IH as (I1 & I2 & I3). rewrite lookup_insert_eq. rewrite map_app, existsb_app. cbn [map existsb]. rewrite orb_false_r, <- I3. split_and!; [| |done].
      * destruct (Z.ltb_spec (code_rank c) (code_rank (shown_code x.1.2))); apply elem_of_app; [right; by left|by left].
      * intros y Hy. apply elem_of_app in Hy as [Hy|Hy]; [apply I2 in Hy|apply list_elem_of_singleton in Hy as ->];
          destruct (Z.ltb_spec (code_rank c) (code_rank (shown_code x.1.2))); lia.
    + rewrite lookup_insert_eq, IH. cbn. split_and!; [by left| |by rewrite orb_false_r].
      intros y Hy. apply list_elem_of_singleton in Hy as ->. lia.
  - rewrite bool_decide_false, app_nil_r by done.
    destruct (fold_left put_item l ∅ !! normalizeKey x.1.1) as [[c b]|]; rewrite lookup_insert_ne by done; exact IH.
Qed.

(** A renamed file is marked under its new name. *)
Example rename_marks_new :
  updateGitStatusMap (MkLite [MkItem (js "a.txt" ++ arrow ++ js "b.txt") (js "R")] [] [] 0 false true None) =
    {[js "b.txt" := (js "R", true)]}.
Proof. by vm_compute. Qed.

(** ** What goes wrong *)

Definition run (es : list panel_event) : panel := fold_left (panel_do by_length) es createInitialState.

(** A click on the file that is selected takes its mark away and leaves it selected: Delete
    then finds nothing. The same follows a double click. *)
Example second_click_unmarks :
  let p := run (demo_events ++ [Click 2 false; Click 2 false]) in
  pn_selected p = [2%nat] /\ pn_class p = ∅ /\ snd (tree_key Delete p) = [] /\
  snd (tree_key Delete (run (demo_events ++ [Click 2 false]))) = [PostDelete (js "a.txt") false true].
Proof. by vm_compute. Qed.

(** After the focus has been lost, a click on the same file selects it without a mark. *)
Example mark_lost_with_focus :
  let p := run (demo_events ++ [Click 2 false; LosesFocus; Click 2 false]) in
  pn_selected p = [2%nat] /\ pn_class p = ∅ /\ snd (tree_key Delete p) = [].
Proof. by vm_compute. Qed.

(** Of two files selected together Delete removes the last one only. *)
Example delete_takes_one_of_two :
  let p := run (demo_events ++ [Click 1 false; Click 2 true]) in
  pn_selected p = [1%nat; 2%nat] /\ snd (tree_key Delete p) = [PostDelete (js "a.txt") false true].
Proof. by vm_compute. Qed.

(** The crumbs of a path all list the deepest folder. *)
Example crumbs_share_path : breadcrumb (js "a/b/c") = [(js "workspace", []); (js "a", js "a/b/c"); (js "b", js "a/b/c"); (js "c", js "a/b/c")].
Proof. by vm_compute. Qed.

(** A file that was replaced by a folder of the same name stays a file. *)
Example kind_is_stale :
  let p := run (demo_events ++ [Message (ListResultMsg [] [(js "a.txt", true)])]) in
  nd_folder <$> pn_heap p !! 2%nat = Some false /\ nd_children <$> pn_heap p !! 0%nat = Some [2%nat].
Proof. by vm_compute. Qed.

(** A new root leaves the old selection, and the path that it set, in place. *)
Example selection_survives_root :
  let p := run (demo_events ++ [Click 1 false; Message RootChanged; Message (ListResultMsg [] [])]) in
  pn_selected p = [1%nat] /\ pn_explorerPath p = js "raw" /\ pn_root p = Some 4%nat.
Proof. by vm_compute. Qed.

(** Deleting the root node asks the host to delete the workspace directory itself. *)
Example delete_of_root_deletes_workspace :
  let p := run (demo_events ++ [Click 2 false; Click 0 false]) in
  snd (tree_key Delete p) = [PostDelete [] true true] /\
  snd (menu_do MenuDelete p (MkMenu true (Some 0%nat) MenuList)) = [PostDelete [] true true] /\
  call_of (js "/home/u/ws") (ReqDelete [] true true) = Some (DeletePath (js "/home/u/ws") true true, OpDelete, []).
Proof. by vm_compute. Qed.

(** A path without empty segments has no runs of slashes. *)
Lemma squeeze_clean s : (exists segs, s = join [47] segs /\ Forall (fun x => x <> [] /\ Forall (fun c => c <> 47) x) segs) -> squeeze s = s.
Proof.
  intros (segs & -> & H).
  assert (Hx : forall x t, Forall (fun c => c <> 47) x -> squeeze (x ++ t) = x ++ squeeze t).
  { intros x t Hx. induction Hx as [|c x Hc _ IH]; [done|]. cbn [app squeeze]. destruct (x ++ t) as [|e u] eqn:E.
    - apply app_eq_nil in E as [-> ->]. done.
    - destruct (Z.eqb_spec c 47); [done|]. cbn [andb]. by rewrite IH. }
  induction H as [|x segs [Hn Hs] H IH]; [done|]. destruct segs as [|y segs].
  - cbn [join]. rewrite <- (app_nil_r x), Hx by done. done.
  - change (join [47] (x :: y :: segs)) with (x ++ 47 :: join [47] (y :: segs)). rewrite Hx by done. f_equal.
    inversion H as [|? ? [Hy Hys] _]; subst. destruct y as [|c y]; [done|]. inversion Hys; subst.
    assert (E : exists t, join [47] ((c :: y) :: segs) = c :: t) by (destruct segs; eauto). destruct E as [t E]. rewrite E in *.
    change (squeeze (47 :: c :: t)) with (if (47 =? 47) && (c =? 47) then squeeze (c :: t) else 47 :: squeeze (c :: t)).
    destruct (Z.eqb_spec c 47); [done|]. rewrite andb_false_r. by rewrite IH.
Qed.

(** What is typed in the context menu is created below the folder of the node. *)
Theorem menu_creates_below i n name p m :
  pn_heap p !! i = Some n -> nd_folder n = true -> mn_target m = Some i -> Forall name_segment (split_on 47 (nd_path n)) -> name_segment name ->
  trim name = name ->
  menu_do (MenuSubmit name) p (MkMenu (mn_open m) (mn_target m) NewFile) =
    (MkMenu false None NewFile, [PostCreateFile (nd_path n ++ 47 :: name)]).
Proof.
  intros Hn Hf Ht Hs Hname Htr. unfold menu_do. rewrite Htr. destruct Hname as ((Hne & _) & Hsl & _). destruct name as [|c0 name]; [done|]. cbn [nonempty].
  unfold baseDir. cbn [mn_target mn_mode]. rewrite Ht. cbn [mbind option_bind]. rewrite Hn, Hf. unfold menu_closed. cbn [mn_mode].
  assert (Hq : nd_path n <> []). { intros E. rewrite E in Hs. inversion Hs as [|? ? ((H & _) & _)]; done. }
  destruct (nd_path n) as [|c q] eqn:Eq; [done|]. cbn [List.filter nonempty join]. do 3 f_equal.
  apply squeeze_clean. exists (split_on 47 (c :: q) ++ [c0 :: name]). split.
  - rewrite join_app_ne by (done || apply split_on_not_nil). by rewrite join_split_on.
  - apply Forall_app. split; [|constructor; [by split|constructor]].
    eapply Forall_impl; [exact Hs|]. intros x ((? & _) & ? & _). by split.
Qed.

Lemma menu_creates_below_witness :
  menu_do (MenuSubmit (js "new.txt")) (run demo_events) (MkMenu true (Some 1%nat) NewFile) = (MkMenu false None NewFile, [PostCreateFile (js "raw/new.txt")]).
Proof.
  apply (menu_creates_below 1 (MkNode (js "raw") (js "raw") true (Some 0%nat) [3%nat] true true true) (js "new.txt") (run demo_events) (MkMenu true (Some 1%nat) NewFile));
    [by vm_compute|done|done|by repeat constructor|by repeat constructor|by vm_compute].
Defined.
