(* ===== verification/EdgeLayout.v ===== *)
(** * Edge panel: the debug log and the splitters

    src/webviewers/edge-panel/services/LogService.ts, and the sizes that
    views/Layout/Splitter.ts and views/AppView.ts compute. Sizes of the document are rational
    numbers; the time that the local clock gives to an hour of today is an argument. *)

From stdpp Require Import base list strings.
From Stdlib Require Import ZArith Lia QArith Qminmax Qround Lqa.
From S2P Require Import Prelude JsString Regex Shell EdgePanel.
Local Open Scope Z_scope.

(** ** LogService *)

Record log_line := MkLine { ln_text : str; ln_seg : bool; ln_error : bool }.

Record log_view := MkLogView {
  lv_lines : list log_line;
  lv_loadingOlder : bool;
  lv_lastTs : option Z;
  lv_seg : bool }.

Definition lv_init : log_view := MkLogView [] false None false.

Definition GAP_MS := 10000.

(** [/^\[(\d{2}):(\d{2}):(\d{2})(?:\.(\d{1,3}))?\]/] *)
Definition CLOCK_RX : re :=
  sq [Bol; chr 91; Grp 1 (times 2 d); chr 58; Grp 2 (times 2 d); chr 58; Grp 3 (times 2 d);
      opt (Sq (chr 46) (Grp 4 (Sq d (upto 2 d)))); chr 93].

Definition cap_int (m : rx_match) (k : nat) : Z := fold_left (fun n c => 10 * n + (c - 48)) (or_else (cap m k) []) 0.

(** [m[4] ? parseInt(m[4].padEnd(3, '0').slice(0, 3), 10) : 0] *)
Definition cap_millis (m : rx_match) : Z :=
  match cap m 4 with
  | Some s => fold_left (fun n c => 10 * n + (c - 48)) (take 3 (s ++ replicate (3 - length s) 48)) 0
  | None => 0
  end.

Section clock.
  Context (today : Z -> Z -> Z -> Z -> Z).        (* [new Date(y, m, d, hh, mm, ss, ms).getTime()] of today *)

Definition parseClockTs (line : str) : option Z :=
    match exec CLOCK_RX line with
    | None => None
    | Some m => Some (today (cap_int m 1) (cap_int m 2) (cap_int m 3) (cap_millis m))
    end.

Definition pickSegment (now : Z) (line : str) (v : log_view) : bool * log_view :=
    let ts := or_else (parseClockTs line) now in
    let seg := match lv_lastTs v with
               | None => lv_seg v
               | Some last => if GAP_MS <=? ts - last then negb (lv_seg v) else lv_seg v
               end in
    (seg, MkLogView (lv_lines v) (lv_loadingOlder v) (Some ts) seg).

Definition make_line (seg : bool) (line : str) : log_line := MkLine line seg (includes line (js "[E]")).

Definition append (now : Z) (line : str) (v : log_view) : log_view :=
    let '(seg, v1) := pickSegment now line v in
    MkLogView (lv_lines v1 ++ [make_line seg line]) (lv_loadingOlder v1) (lv_lastTs v1) (lv_seg v1).

Definition log_reset (now : Z) (lines : list str) (v : log_view) : log_view :=
    fold_left (fun v l => append now l v) lines (MkLogView [] (lv_loadingOlder v) None false).

Fixpoint prepend_lines (now : Z) (lines : list str) (v : log_view) : list log_line * log_view :=
    match lines with
    | [] => ([], v)
    | l :: rest =>
        let '(seg, v1) := pickSegment now l v in
        let '(ls, v2) := prepend_lines now rest v1 in
        (make_line seg l :: ls, v2)
    end.

Definition prepend (now : Z) (lines : list str) (v : log_view) : log_view :=
    match lines with
    | [] => MkLogView (lv_lines v) false (lv_lastTs v) (lv_seg v)
    | _ =>
        let '(ls, v1) := prepend_lines now lines v in
        MkLogView (ls ++ lv_lines v1) false (lv_lastTs v1) (lv_seg v1)
    end.

  (** The scroll handler at the top *)
Definition scrolled_to_top (v : log_view) : log_view * list w2h :=
    if lv_loadingOlder v then (v, []) else (MkLogView (lv_lines v) true (lv_lastTs v) (lv_seg v), [PostLoadOlder]).

  (** What reaches the log: the messages of the host as the panel passes them on, and scrolling *)
Inductive log_event := LogInit (logs : list str) | LogAppend (text : str) | LogPage (lines : list str) | LogCleared | LogScroll.

Definition log_do (now : Z) (e : log_event) (v : log_view) : log_view * list w2h :=
    match e with
    | LogInit logs => (log_reset now logs v, [])
    | LogAppend t => (append now t v, [])
    | LogPage [] => (v, [])
    | LogPage lines => (prepend now lines v, [])
    | LogCleared => (log_reset now [] v, [])
    | LogScroll => scrolled_to_top v
    end.

Fixpoint log_run (now : Z) (es : list log_event) (v : log_view) : log_view * list w2h :=
    match es with
    | [] => (v, [])
    | e :: rest => let '(v1, o1) := log_do now e v in let '(v2, o2) := log_run now rest v1 in (v2, o1 ++ o2)
    end.

(** ** Theorems on the log *)

Lemma append_text now l v : map ln_text (lv_lines (append now l v)) = map ln_text (lv_lines v) ++ [l].
Proof. unfold append, pickSegment. cbn [lv_lines]. by rewrite map_app. Qed.

Lemma append_loading now l v : lv_loadingOlder (append now l v) = lv_loadingOlder v.
Proof. done. Qed.

Lemma reset_text now ls v : map ln_text (lv_lines (log_reset now ls v)) = ls /\ lv_loadingOlder (log_reset now ls v) = lv_loadingOlder v.
Proof.
  unfold log_reset. assert (H : forall ls v, map ln_text (lv_lines (fold_left (fun v l => append now l v) ls v)) = map ln_text (lv_lines v) ++ ls /\
    lv_loadingOlder (fold_left (fun v l => append now l v) ls v) = lv_loadingOlder v).
  { clear. induction ls as [|l ls IH]; intros v; cbn [fold_left]; [by rewrite app_nil_r|]. destruct (IH (append now l v)) as [-> ->].
    by rewrite append_text, append_loading, <- app_assoc. }
  destruct (H ls (MkLogView [] (lv_loadingOlder v) None false)) as [-> ->]. done.
Qed.

Lemma prepend_lines_spec now ls v : forall o v', prepend_lines now ls v = (o, v') -> map ln_text o = ls /\ lv_lines v' = lv_lines v.
Proof.
  revert v. induction ls as [|l ls IH]; intros v o v' E; cbn [prepend_lines] in E; [by simplify_eq|].
  unfold pickSegment in E. cbv zeta in E. destruct (prepend_lines now ls _) as [o1 v1] eqn:E1. simplify_eq. destruct (IH _ _ _ E1) as [H1 H2].
  cbn [map make_line ln_text lv_lines] in *. by rewrite H1.
Qed.

(** The lines that an event leaves *)
Definition lines_after (ls : list str) (e : log_event) : list str :=
  match e with
  | LogInit logs => logs
  | LogAppend t => ls ++ [t]
  | LogPage old => old ++ ls
  | LogCleared => []
  | LogScroll => ls
  end.

Lemma log_do_text now e v : map ln_text (lv_lines (fst (log_do now e v))) = lines_after (map ln_text (lv_lines v)) e.
Proof.
  destruct e as [logs|t|[|l old]| |]; cbn [log_do fst lines_after].
  - apply reset_text.
  - apply append_text.
  - done.
  - unfold prepend. destruct (prepend_lines now (l :: old) v) as [o v1] eqn:E. destruct (prepend_lines_spec _ _ _ _ _ E) as [H1 H2].
    cbn [lv_lines]. by rewrite map_app, H1, H2.
  - apply reset_text.
  - unfold scrolled_to_top. by destruct (lv_loadingOlder v).
Qed.

(** The log on the screen holds what came in, in its order: new lines below, older pages
    above, and nothing is ever dropped from it. *)
Theorem log_shows_lines now es v :
  map ln_text (lv_lines (fst (log_run now es v))) = fold_left lines_after es (map ln_text (lv_lines v)).
Proof.
  revert v. induction es as [|e es IH]; intros v; [done|]. cbn [log_run fold_left]. pose proof (log_do_text now e v) as He.
  destruct (log_do now e v) as [v1 o1]. pose proof (IH v1) as H1. destruct (log_run now es v1) as [v2 o2]. cbn [fst] in *. by rewrite H1, He.
Qed.

(** When the host has no older lines the panel never asks again, not even after the log has
    been cleared and filled: only a page with lines in it would take the mark back. *)
Theorem older_lines_asked_once now es v :
  lv_loadingOlder v = true -> Forall (fun e => match e with LogPage (_ :: _) => False | _ => True end) es -> snd (log_run now es v) = [].
Proof.
  intros Hv H. revert v Hv. induction H as [|e es He _ IH]; intros v Hv; [done|]. cbn [log_run].
  assert (H : lv_loadingOlder (fst (log_do now e v)) = true /\ snd (log_do now e v) = []).
  { destruct e as [logs|t|[|l old]| |]; cbn [log_do fst snd]; try done; try (split; [|done]; rewrite <- Hv; apply reset_text).
    unfold scrolled_to_top. by rewrite Hv. }
  destruct (log_do now e v) as [v1 o1]. destruct H as [H1 H2]. cbn [fst snd] in *. specialize (IH v1 H1).
  destruct (log_run now es v1) as [v2 o2]. cbn [snd] in *. by rewrite H2, IH.
Qed.

(** Lines that are appended change the shade exactly where ten seconds have passed. *)
Theorem shade_marks_gaps now l v last :
  lv_lastTs v = Some last ->
  let ts := or_else (parseClockTs l) now in
  exists e, lv_lines (append now l v) = lv_lines v ++ [MkLine l (xorb (lv_seg v) (GAP_MS <=? ts - last)) e] /\ lv_lastTs (append now l v) = Some ts.
Proof.
  intros Hl ts. unfold append, pickSegment. rewrite Hl. fold ts. cbn [lv_lines lv_lastTs make_line]. eexists. split; [|done]. f_equal.
  destruct (GAP_MS <=? ts - last), (lv_seg v); done.
Qed.
End clock.

Definition plain_clock (h m s ms : Z) : Z := ((h * 60 + m) * 60 + s) * 1000 + ms.

Lemma older_lines_asked_once_witness :
  snd (log_run plain_clock 0 [LogPage []; LogCleared; LogAppend (js "x"); LogScroll] (fst (log_run plain_clock 0 [LogScroll] lv_init))) = [].
Proof. apply (older_lines_asked_once plain_clock 0); [done|by repeat constructor]. Defined.

Lemma shade_marks_gaps_witness :
  exists e, lv_lines (append plain_clock 0 (js "[10:00:30] b") (append plain_clock 0 (js "[10:00:00.5] a") lv_init)) =
    lv_lines (append plain_clock 0 (js "[10:00:00.5] a") lv_init) ++ [MkLine (js "[10:00:30] b") true e] /\
    lv_lastTs (append plain_clock 0 (js "[10:00:30] b") (append plain_clock 0 (js "[10:00:00.5] a") lv_init)) = Some 36030000.
Proof.
  apply (shade_marks_gaps plain_clock 0 (js "[10:00:30] b") (append plain_clock 0 (js "[10:00:00.5] a") lv_init) 36000500). by vm_compute.
Defined.

(** Older lines move the clock of the shading back: the next line after a page looks late. *)
Example older_page_shifts_shade :
  map ln_seg (lv_lines (append plain_clock 0 (js "[10:00:01] c")
    (prepend plain_clock 0 [js "[09:00:00] a"] (append plain_clock 0 (js "[10:00:00] b") lv_init)))) = [false; false; true].
Proof. by vm_compute. Qed.

(** ** Splitters *)

Module Splitter.
Local Open Scope Q_scope.

Definition MIN_TOP : Q := 80.
Definition MIN_BOTTOM : Q := 80.

Definition floor (x : Q) : Q := inject_Z (Qfloor x).

(** [`${Math.max(0, Math.floor(px))}px`] *)
Definition row_px (x : Q) : Q := Qmax 0 (floor x).

(** [reflowAfterCtrlMove]: the rows for a usable height, keeping the height of the log *)
Definition reflow (usable desiredBottom : Q) : Q * Q :=
  let upper := Qmax 0 (usable - MIN_TOP) in
  let lower := Qmax 0 (Qmin MIN_BOTTOM upper) in
  let bottomPx := Qmax lower (Qmin desiredBottom upper) in
  (row_px (usable - bottomPx), row_px bottomPx).

(** What a drag of the middle splitter remembers from its start *)
Record drag := MkDrag { dg_top : Q; dg_height : Q; dg_splitter : Q; dg_minTop : Q; dg_minBottom : Q }.

Definition usable_of (height splitter : Q) : Q := Qmax 0 (height - splitter).

(** [onPointerDown] *)
Definition pointer_down (contentTop contentHeight splitterH minTop minBottom : Q) : drag :=
  let usable := usable_of contentHeight splitterH in
  let minSum := minTop + minBottom in
  if Qlt_le_dec usable minSum then
    let s := usable / minSum in
    if Qlt_le_dec 0 minSum then MkDrag contentTop contentHeight splitterH (row_px (minTop * s)) (row_px (minBottom * s))
    else MkDrag contentTop contentHeight splitterH minTop minBottom
  else MkDrag contentTop contentHeight splitterH minTop minBottom.

(** [onPointerMove] *)
Definition pointer_move (g : drag) (pointerY : Q) : Q * Q :=
  let topPx := pointerY - dg_top g - dg_splitter g / 2 in
  let usable := usable_of (dg_height g) (dg_splitter g) in
  let maxTop := Qmax (dg_minTop g) (usable - dg_minBottom g) in
  let top := Qmin (Qmax topPx (dg_minTop g)) maxTop in
  (top, usable - top).

(** The sizes at the end of the drag *)
Definition pointer_up (g : drag) (top bottom : Q) : Q * Q := (Qmax top (dg_minTop g), Qmax bottom (dg_minBottom g)).

(** The upper splitter: the height of the controls after a move *)
Definition ctrl_height (innerHeight cur dy : Q) : Q := Qmin (Qmax (cur + dy) 120) (floor (innerHeight * (1 # 2))).

(** ** Theorems on the splitters *)

Lemma floor_bounds x : floor x <= x /\ x < floor x + 1.
Proof.
  unfold floor. split; [apply Qfloor_le|]. pose proof (Qlt_floor x) as H. rewrite inject_Z_plus in H. exact H.
Qed.

Lemma row_px_bounds x : 0 <= x -> row_px x <= x /\ x < row_px x + 1 /\ 0 <= row_px x.
Proof.
  intros H. unfold row_px. destruct (floor_bounds x) as [H1 H2]. pose proof (Q.le_max_l 0 (floor x)). pose proof (Q.le_max_r 0 (floor x)).
  destruct (Q.max_spec 0 (floor x)) as [[? E]|[? E]]; rewrite E in *; split_and!; lra.
Qed.

(** The rows after a change of the height fill it to less than two pixels, and none is negative. *)
Theorem reflow_fits usable desired :
  0 <= usable ->
  0 <= fst (reflow usable desired) /\ 0 <= snd (reflow usable desired) /\
  fst (reflow usable desired) + snd (reflow usable desired) <= usable /\
  usable < fst (reflow usable desired) + snd (reflow usable desired) + 2.
Proof.
  intros Hu. unfold reflow. cbn [fst snd]. set (b := Qmax _ _).
  assert (Hb : 0 <= b /\ b <= usable).
  { set (upper := Qmax 0 (usable - MIN_TOP)) in b. set (lower := Qmax 0 (Qmin MIN_BOTTOM upper)) in b.
    assert (Hup : 0 <= upper /\ upper <= usable) by (unfold upper, MIN_TOP; split; [apply Q.le_max_l|apply Q.max_lub; lra]).
    assert (Hlo : 0 <= lower /\ lower <= upper).
    { unfold lower. split; [apply Q.le_max_l|]. apply Q.max_lub; [apply Hup|]. apply Q.le_min_r. }
    split; [eapply Qle_trans; [apply Hlo|apply Q.le_max_l]|]. eapply Qle_trans; [|apply Hup].
    apply Q.max_lub; [apply Hlo|apply Q.le_min_r]. }
  destruct Hb as [Hb1 Hb2]. destruct (row_px_bounds b Hb1) as (B1 & B2 & B3).
  destruct (row_px_bounds (usable - b)) as (T1 & T2 & T3); [lra|]. split_and!; lra.
Qed.

Lemma reflow_fits_witness : fst (reflow 500 120) + snd (reflow 500 120) <= 500.
Proof. apply (reflow_fits 500 120). lra. Defined.

(** The log keeps its height while both parts have their minimum. *)
Theorem reflow_keeps_log usable px :
  80 <= inject_Z px -> inject_Z px + 80 <= usable -> snd (reflow usable (inject_Z px)) == inject_Z px.
Proof.
  intros H1 H2. unfold reflow, MIN_TOP, MIN_BOTTOM. cbn [snd].
  assert (E : Qmax (Qmax 0 (Qmin 80 (Qmax 0 (usable - 80)))) (Qmin (inject_Z px) (Qmax 0 (usable - 80))) == inject_Z px).
  { rewrite (Q.max_r 0 (usable - 80)), (Q.min_l 80), (Q.max_r 0 80), (Q.min_l (inject_Z px)), (Q.max_r 80) by lra. reflexivity. }
  unfold row_px, floor. rewrite E, Qfloor_Z. destruct (Q.max_spec 0 (inject_Z px)) as [[? ->]|[? ->]]; lra.
Qed.

Lemma reflow_keeps_log_witness : snd (reflow 500 (inject_Z 200)) == inject_Z 200.
Proof. apply (reflow_keeps_log 500 200); vm_compute; discriminate. Defined.

(** The minima that a drag remembers fit together into the height. *)
Lemma drag_minima top height sh minTop minBottom :
  0 <= minTop -> 0 <= minBottom ->
  let g := pointer_down top height sh minTop minBottom in
  0 <= dg_minTop g /\ 0 <= dg_minBottom g /\ dg_minTop g + dg_minBottom g <= usable_of height sh /\
  dg_height g = height /\ dg_splitter g = sh.
Proof.
  intros Ht Hb g. unfold g, pointer_down. assert (Hu : 0 <= usable_of height sh) by apply Q.le_max_l.
  destruct (Qlt_le_dec (usable_of height sh) (minTop + minBottom)) as [Hlt|Hle]; [|by split_and!].
  destruct (Qlt_le_dec 0 (minTop + minBottom)) as [Hs|Hs]; cbn [dg_minTop dg_minBottom dg_height dg_splitter]; [|exfalso; lra].
  set (s := usable_of height sh / (minTop + minBottom)).
  assert (Hs0 : 0 <= s) by (unfold s; apply Qle_shift_div_l; [done|]; lra).
  destruct (row_px_bounds (minTop * s)) as (A1 & _ & A3); [by apply Qmult_le_0_compat|].
  destruct (row_px_bounds (minBottom * s)) as (B1 & _ & B3); [by apply Qmult_le_0_compat|].
  assert (E : minTop * s + minBottom * s == usable_of height sh) by (unfold s; field; lra).
  split_and!; [done|done|lra|done|done].
Qed.

(** C39: While the middle splitter is dragged the two parts fill the height and neither is smaller
    than its minimum, wherever the pointer goes. *)
Theorem drag_within_bounds top height sh minTop minBottom y :
  0 <= minTop -> 0 <= minBottom ->
  let g := pointer_down top height sh minTop minBottom in
  let '(a, b) := pointer_move g y in
  a + b == usable_of height sh /\ dg_minTop g <= a /\ dg_minBottom g <= b.
Proof.
  intros Ht Hb g. destruct (drag_minima top height sh minTop minBottom Ht Hb) as (M1 & M2 & M3 & E1 & E2). fold g in M1, M2, M3, E1, E2.
  unfold pointer_move. rewrite E1, E2. set (t := y - _ - _). generalize t. clear t. intros t.
  set (u := usable_of height sh) in *. set (mx := Qmax (dg_minTop g) (u - dg_minBottom g)).
  assert (Hmx : mx <= u - dg_minBottom g /\ dg_minTop g <= mx) by (unfold mx; split; [apply Q.max_lub; lra|apply Q.le_max_l]).
  assert (Ha : dg_minTop g <= Qmin (Qmax t (dg_minTop g)) mx) by (apply Q.min_glb; [apply Q.le_max_r|apply Hmx]).
  pose proof (Q.le_min_r (Qmax t (dg_minTop g)) mx). split; [ring|]. split; lra.
Qed.

Lemma drag_within_bounds_witness :
  let '(a, b) := pointer_move (pointer_down 100 400 6 80 80) 1000 in
  a + b == usable_of 400 6 /\ dg_minTop (pointer_down 100 400 6 80 80) <= a /\ dg_minBottom (pointer_down 100 400 6 80 80) <= b.
Proof. apply (drag_within_bounds 100 400 6 80 80 1000); lra. Defined.

(** The controls never take more than half of the window. *)
Theorem controls_at_most_half innerHeight cur dy :
  ctrl_height innerHeight cur dy <= innerHeight * (1 # 2) /\ (240 <= innerHeight -> 120 <= ctrl_height innerHeight cur dy).
Proof.
  unfold ctrl_height. destruct (floor_bounds (innerHeight * (1 # 2))) as [H1 H2]. split.
  - eapply Qle_trans; [apply Q.le_min_r|exact H1].
  - intros Hh. apply Q.min_glb; [apply Q.le_max_r|]. unfold floor. change 120 with (inject_Z 120). rewrite <- Zle_Qle.
    rewrite <- (Qfloor_Z 120). apply Qfloor_resp_le. change (inject_Z 120) with 120. lra.
Qed.

Lemma controls_at_most_half_witness : 120 <= ctrl_height 800 150 (- 500 # 1).
Proof. apply (controls_at_most_half 800 150 (- 500 # 1)). lra. Defined.
End Splitter.
