(* ===== verification/Seeding.v ===== *)
(** * Seeding

    src/extension/setup/parserConfigSeeder.ts and userConfigSeeder.ts, the handlers of
    src/extension/commands/CommandHandlersWorkspace.ts that change and initialise the workspace,
    and the steps of [activate] (src/extension/main.ts) that prepare it.  The file system of the
    editor is behind the class [FileSystem], what it is relied on for is [FileSystemLaws], and a
    finite map of paths implements both.  [git] is an argument. *)

From stdpp Require Import base list strings gmap sets.
From Stdlib Require Import ZArith Lia.
From S2P Require Import Prelude JsString Paths Transfer Explorer UserData.

(** ** The file system *)

(** A [vscode.Uri], as the segments of its path *)
Abbreviation uri := (list str).

Inductive FileType := FtFile | FtDirectory | FtOther.

#[export] Instance FileType_eq_dec : EqDecision FileType.
Proof. solve_decision. Defined.

(** [fs_mkdir], [fs_write] and [fs_delete] tell whether the call succeeded. *)
Class FileSystem (F : Type) := {
  fs_stat : uri -> F -> option FileType;
  fs_read : uri -> F -> option str;
  fs_list : uri -> F -> option (list (str * FileType));
  fs_mkdir : uri -> F -> bool * F;
  fs_write : uri -> str -> F -> bool * F;
  fs_delete : uri -> F -> bool * F }.

(** No part of the path is a file. *)
Definition clear_path `{FileSystem F} (p : uri) (f : F) : Prop :=
  forall q, q `prefix_of` p -> fs_stat q f = None \/ fs_stat q f = Some FtDirectory.

(** [createDirectory] makes the parents too, [writeFile] makes the parents and the file,
    [delete] is recursive; none touches anything else, and none fails where its path allows it. *)
Class FileSystemLaws (F : Type) `{FileSystem F} : Prop := {
  read_is_file p f b : fs_read p f = Some b -> fs_stat p f = Some FtFile;
  file_is_read p f : fs_stat p f = Some FtFile -> is_Some (fs_read p f);
  list_exact p f es : fs_list p f = Some es ->
    NoDup (map fst es) /\ forall n k, (n, k) ∈ es <-> fs_stat (p ++ [n]) f = Some k;
  list_works p f : fs_stat p f = Some FtDirectory -> is_Some (fs_list p f);
  mkdir_works p f : clear_path p f -> (fs_mkdir p f).1 = true;
  mkdir_made p f : (fs_mkdir p f).1 = true -> fs_stat p (fs_mkdir p f).2 = Some FtDirectory;
  mkdir_read p f q : fs_read q (fs_mkdir p f).2 = fs_read q f;
  mkdir_stat p f q : fs_stat q (fs_mkdir p f).2 = fs_stat q f \/
    (q `prefix_of` p /\ fs_stat q f = None /\ fs_stat q (fs_mkdir p f).2 = Some FtDirectory);
  write_works p n b f : clear_path p f -> fs_stat (p ++ [n]) f <> Some FtDirectory -> (fs_write (p ++ [n]) b f).1 = true;
  write_made p b f : (fs_write p b f).1 = true -> fs_read p (fs_write p b f).2 = Some b;
  write_read p b f q : q <> p -> fs_read q (fs_write p b f).2 = fs_read q f;
  write_stat p b f q : q <> p -> fs_stat q (fs_write p b f).2 = fs_stat q f \/
    (q `prefix_of` p /\ fs_stat q f = None /\ fs_stat q (fs_write p b f).2 = Some FtDirectory);
  delete_works p f : fs_stat p f <> None -> (fs_delete p f).1 = true;
  delete_gone p f q : (fs_delete p f).1 = true -> p `prefix_of` q -> fs_stat q (fs_delete p f).2 = None;
  delete_stat p f q : ~ p `prefix_of` q -> fs_stat q (fs_delete p f).2 = fs_stat q f;
  delete_read p f q : ~ p `prefix_of` q -> fs_read q (fs_delete p f).2 = fs_read q f }.

(** ** Calls that may fail *)

(** [None]: the promise was rejected; what was done before stays done. *)
Definition io (F A : Type) := F -> option A * F.

Definition io_ret {F A} (a : A) : io F A := fun f => (Some a, f).

Definition io_bind {F A B} (m : io F A) (k : A -> io F B) : io F B :=
  fun f => match m f with (Some a, f') => k a f' | (None, f') => (None, f') end.

(** [try { ... } catch {}] *)
Definition attempt {F A} (m : io F A) : io F (option A) := fun f => let '(r, f') := m f in (Some r, f').

Notation "'do!' x <- m 'in' k" := (io_bind m (fun x => k))
  (at level 10, x name, m at level 100, k at level 200) : edge_scope.
Notation "'run!' m 'then' k" := (io_bind m (fun _ => k))
  (at level 10, m at level 100, k at level 200) : edge_scope.
#[local] Open Scope edge_scope.

Section calls.
Context `{FileSystem F}.

Definition exists_ (p : uri) : io F bool := fun f => (Some (match fs_stat p f with Some _ => true | None => false end), f).
Definition readFile (p : uri) : io F str := fun f => (fs_read p f, f).
Definition readDirectory (p : uri) : io F (list (str * FileType)) := fun f => (fs_list p f, f).
Definition done_or_fail (r : bool * F) : option unit * F := (if r.1 then Some () else None, r.2).
Definition createDirectory (p : uri) : io F unit := fun f => done_or_fail (fs_mkdir p f).
Definition writeFile (p : uri) (b : str) : io F unit := fun f => done_or_fail (fs_write p b f).
Definition delete_ (p : uri) : io F unit := fun f => done_or_fail (fs_delete p f).

End calls.

(** [Uri.joinPath(base, ...rel.split('/'))] for the relative paths of the constants *)
Definition joinPath (base : uri) (rel : str) : uri := base ++ split_on 47 rel.

(** [vscode.Uri.file] of an absolute path *)
Definition uri_file (p : str) : uri := List.filter nonempty (split_on 47 p).

Definition USERCFG_REL := js ".config/custom_user_config.json".
Definition USERCFG_TEMPLATE_REL := js "media/resources/custom_user_config.template.json".
Definition RAW_DIR_NAME := js "raw".
Definition CONFIG_DIR := js ".config".

(** [rel.split('/').slice(-1)] *)
Definition last_segment (rel : str) : list str :=
  let segs := split_on 47 rel in drop (length segs - 1) segs.

(** ** Seeders *)

Section seeders.
Context `{FileSystem F}.

(** [ensureParserConfigExists] for the workspace at [ws] *)
Definition ensureParserConfigExists (extensionUri ws : uri) : io F unit :=
  let cfgUri := joinPath ws PARSER_CONFIG_REL in
  let readmeUri := joinPath ws PARSER_README_REL in
  do! cfgExists <- exists_ cfgUri in
  do! readmeExists <- exists_ readmeUri in
  run! attempt (createDirectory (ws ++ [CONFIG_DIR])) then
  run! (if cfgExists then io_ret ()
        else do! buf <- readFile (joinPath extensionUri PARSER_TEMPLATE_REL) in writeFile cfgUri buf) then
  if readmeExists then io_ret ()
  else do! md <- readFile (joinPath extensionUri PARSER_README_TEMPLATE_REL) in writeFile readmeUri md.

Definition ensureUserConfigExists (extensionUri ws : uri) : io F unit :=
  let cfgUri := joinPath ws USERCFG_REL in
  do! ex <- exists_ cfgUri in
  run! attempt (createDirectory (ws ++ [CONFIG_DIR])) then
  if ex then io_ret ()
  else do! buf <- readFile (joinPath extensionUri USERCFG_TEMPLATE_REL) in writeFile cfgUri buf.

(** The loop of [copyDir] over the entries, with the recursive call *)
Fixpoint copy_entries (rec : uri -> uri -> io F unit) (src dest : uri) (es : list (str * FileType)) : io F unit :=
  match es with
  | [] => io_ret ()
  | (name, type) :: es' =>
      run! (match type with
            | FtDirectory => run! createDirectory (dest ++ [name]) then rec (src ++ [name]) (dest ++ [name])
            | FtFile => do! buf <- readFile (src ++ [name]) in writeFile (dest ++ [name]) buf
            | FtOther => io_ret ()
            end) then
      copy_entries rec src dest es'
  end.

(** The fuel bounds the depth of the tree. *)
Fixpoint copyDir (fuel : nat) (src dest : uri) : io F unit :=
  match fuel with
  | O => fun f => (None, f)
  | S fuel' => do! entries <- readDirectory src in copy_entries (copyDir fuel') src dest entries
  end.

Definition migrateParserConfigIfNeeded (fuel : nat) (oldWs newWs extensionUri : uri) : io F unit :=
  let oldDir := oldWs ++ [CONFIG_DIR] in
  let newDir := newWs ++ [CONFIG_DIR] in
  do! newExists <- exists_ newDir in
  do! oldExists <- exists_ oldDir in
  run! createDirectory newDir then
  run! (if newExists then io_ret ()
        else if oldExists then copyDir fuel oldDir newDir
        else do! buf <- readFile (joinPath extensionUri PARSER_TEMPLATE_REL) in
             run! writeFile (newDir ++ last_segment PARSER_CONFIG_REL) buf then
             do! mdBuf <- readFile (joinPath extensionUri PARSER_README_TEMPLATE_REL) in
             writeFile (newDir ++ last_segment PARSER_README_REL) mdBuf) then
  if oldExists && negb (bool_decide (oldDir = newDir)) then
    run! attempt (delete_ oldDir) then io_ret ()
  else io_ret ().

Definition migrateUserConfigIfNeeded (oldWs newWs extensionUri : uri) : io F unit :=
  let oldCfg := joinPath oldWs USERCFG_REL in
  let newCfg := joinPath newWs USERCFG_REL in
  do! newExists <- exists_ newCfg in
  if newExists then io_ret ()
  else
    do! migrated <- attempt (do! buf <- readFile oldCfg in
                             run! createDirectory (newWs ++ [CONFIG_DIR]) then
                             writeFile newCfg buf) in
    match migrated with
    | Some _ => io_ret ()
    | None =>
        do! buf <- readFile (joinPath extensionUri USERCFG_TEMPLATE_REL) in
        run! createDirectory (newWs ++ [CONFIG_DIR]) then
        writeFile newCfg buf
    end.

End seeders.

(** ** Handlers *)

(** The fields of [CommandHandlersWorkspace], the settings and the file system *)
Record wstate (F : Type) := MkW {
  w_cache : option WorkspaceInfo;
  w_expiry : Z;
  w_storage : storage;
  w_fs : F }.
Arguments MkW {F} _ _ _ _.
Arguments w_cache {F} _.
Arguments w_expiry {F} _.
Arguments w_storage {F} _.
Arguments w_fs {F} _.

Definition CACHE_DURATION := 30000.

Definition wsUri (i : WorkspaceInfo) : uri := uri_file (wi_ws i).

(** A call that touches only the file system *)
Definition on_fs {F A} (m : io F A) : io (wstate F) A :=
  fun w => let '(r, f) := m (w_fs w) in (r, MkW (w_cache w) (w_expiry w) (w_storage w) f).

Section handlers.
Context `{FileSystem F}.
Variable storageDir : str.
Variable extensionUri : uri.

(** [execFile('git', args, { cwd })] *)
Variable git : uri -> list str -> F -> bool * F.

Definition run_git (cwd : uri) (args : list str) : io F unit := fun f => done_or_fail (git cwd args f).

(** [resolveWorkspaceInfo] with the directories it ensures *)
Definition resolve_info : io (wstate F) WorkspaceInfo :=
  run! on_fs (createDirectory (uri_file storageDir)) then
  fun w => match resolveWorkspaceInfo storageDir (w_storage w) with
           | Throws => (None, w)
           | Ok i => (run! on_fs (createDirectory (uri_file (wi_base i))) then
                      run! on_fs (createDirectory (wsUri i)) then io_ret i) w
           end.

(** [changeWorkspaceBaseDir] with the directories it ensures *)
Definition change_base (dir : str) : io (wstate F) unit :=
  fun w => match changeWorkspaceBaseDir storageDir dir (w_storage w) with
           | Throws => (None, w)
           | Ok (_, s) => (run! on_fs (createDirectory (uri_file storageDir)) then
                           run! (fun w1 => (Some (), MkW (w_cache w1) (w_expiry w1) s (w_fs w1))) then
                           run! resolve_info then io_ret ()) w
           end.

Definition getCachedWorkspaceInfo (now : Z) : io (wstate F) WorkspaceInfo :=
  fun w => match w_cache w with
           | Some i => if w_expiry w <? now then
                         (do! i <- resolve_info in
                          fun w' => (Some i, MkW (Some i) (now + CACHE_DURATION) (w_storage w') (w_fs w'))) w
                       else (Some i, w)
           | None => (do! i <- resolve_info in
                      fun w' => (Some i, MkW (Some i) (now + CACHE_DURATION) (w_storage w') (w_fs w'))) w
           end.

Definition git_dir (baseDir : str) : str :=
  if bool_decide (ascii_lower (posix_basename baseDir) = js "workspace") then baseDir
  else posix_join baseDir (js "workspace").

Definition ensureGitInitAsync (baseDir : str) : io F unit :=
  let wsDir := uri_file (git_dir baseDir) in
  do! there <- exists_ (wsDir ++ [js ".git"]) in
  if there then io_ret ()
  else run! attempt (run! createDirectory wsDir then run_git wsDir [js "init"]) then io_ret ().

(** The base directory a picked folder stands for *)
Definition baseForConfig (picked : str) : str :=
  if bool_decide (ascii_lower (posix_basename picked) = js "workspace") then posix_dirname picked else picked.

(** What follows the change of the settings: the raw folder of the new workspace is removed and
    the two configurations are migrated, each failure being caught. *)
Definition move_config (fuel : nat) (prev next : WorkspaceInfo) : io F unit :=
  run! attempt (delete_ (wsUri next ++ [RAW_DIR_NAME])) then
  run! attempt (migrateUserConfigIfNeeded (wsUri prev) (wsUri next) extensionUri) then
  run! attempt (migrateParserConfigIfNeeded fuel (wsUri prev) (wsUri next) extensionUri) then
  io_ret ().

(** [picked] is what the dialog answers; [t1], [t2] and [t3] the clock at the three look-ups.
    The two calls of [Promise.all] touch different files. *)
Definition changeWorkspaceQuick (fuel : nat) (t1 t2 t3 : Z) (picked : option str) : io (wstate F) unit :=
  do! prev <- getCachedWorkspaceInfo t1 in
  run! getCachedWorkspaceInfo t2 then
  match picked with
  | None => io_ret ()
  | Some dir =>
      do! changed <- attempt (change_base (baseForConfig dir)) in
      run! on_fs (ensureGitInitAsync (baseForConfig dir)) then
      match changed with
      | None => fun w => (None, w)
      | Some _ =>
          run! (fun w => (Some (), MkW None (w_expiry w) (w_storage w) (w_fs w))) then
          do! next <- getCachedWorkspaceInfo t3 in
          on_fs (move_config fuel prev next)
      end
  end.

(** Up to the opening of the editors *)
Definition initWorkspace : io (wstate F) unit :=
  do! info <- resolve_info in
  let ws := wsUri info in
  on_fs (
    run! attempt (createDirectory (ws ++ [CONFIG_DIR])) then
    do! json <- readFile (joinPath extensionUri PARSER_TEMPLATE_REL) in
    run! writeFile (joinPath ws PARSER_CONFIG_REL) json then
    do! md <- readFile (joinPath extensionUri PARSER_README_TEMPLATE_REL) in
    run! writeFile (joinPath ws PARSER_README_REL) md then
    do! there <- exists_ (ws ++ [js ".gitignore"]) in
    do! created <- (if there then io_ret false
                    else do! r <- attempt (do! gi <- readFile (joinPath extensionUri GITIGNORE_TEMPLATE_REL) in
                                           writeFile (ws ++ [js ".gitignore"]) gi) in
                         io_ret (match r with Some _ => true | None => false end)) in
    run! attempt (run! ensureGitInitAsync (wi_ws info) then
                  if created then
                    run! run_git ws [js "add"; js ".gitignore"] then
                    run! attempt (run_git ws [js "commit"; js "-m"; js "[Do not push] add gitignore"]) then io_ret ()
                  else io_ret ()) then
    run! attempt (ensureUserConfigExists extensionUri ws) then
    io_ret ()).

(** The preparation of the workspace in [activate] *)
Definition activate_workspace : io (wstate F) unit :=
  do! info <- resolve_info in
  run! on_fs (attempt (delete_ (wsUri info ++ [RAW_DIR_NAME]))) then
  on_fs (run! ensureParserConfigExists extensionUri (wsUri info) then
         ensureUserConfigExists extensionUri (wsUri info)).

End handlers.

(** ** A file system in memory *)

Inductive content := CFile (b : str) | CFolder.

Abbreviation memory := (gmap uri content).

Definition mem_stat (p : uri) (m : memory) : option FileType :=
  match m !! p with Some (CFile _) => Some FtFile | Some CFolder => Some FtDirectory | None => None end.

Fixpoint inits (p : uri) : list uri := [] :: match p with [] => [] | x :: p' => map (cons x) (inits p') end.

Definition mem_clear (p : uri) (m : memory) : bool :=
  forallb (fun q => match m !! q with Some (CFile _) => false | _ => true end) (inits p).

Definition mem_mkdir (p : uri) (m : memory) : bool * memory :=
  if mem_clear p m then (true, fold_left (fun m q => <[q := CFolder]> m) (inits p) m) else (false, m).

Definition mem_write (p : uri) (b : str) (m : memory) : bool * memory :=
  match rev p with
  | [] => (false, m)
  | _ :: r =>
      if mem_clear (rev r) m && negb (bool_decide (mem_stat p m = Some FtDirectory)) then
        (true, <[p := CFile b]> (mem_mkdir (rev r) m).2)
      else (false, m)
  end.

Definition mem_delete (p : uri) (m : memory) : bool * memory :=
  match m !! p with None => (false, m) | Some _ => (true, filter (fun e => ~ p `prefix_of` e.1) m) end.

Definition mem_list (p : uri) (m : memory) : option (list (str * FileType)) :=
  match mem_stat p m with
  | Some FtDirectory =>
      Some (omap (fun e => match rev e.1 with
                           | n :: r => if bool_decide (rev r = p) then k ← mem_stat e.1 m; Some (n, k) else None
                           | [] => None
                           end) (map_to_list m))
  | _ => None
  end.

#[export] Instance memory_fs : FileSystem memory := {
  fs_stat := mem_stat;
  fs_read p m := match m !! p with Some (CFile b) => Some b | _ => None end;
  fs_list := mem_list;
  fs_mkdir := mem_mkdir;
  fs_write := mem_write;
  fs_delete := mem_delete }.

Lemma elem_of_inits q p : q ∈ inits p <-> q `prefix_of` p.
Proof.
  revert q. induction p as [|x p IH]; intros q; cbn [inits].
  - rewrite list_elem_of_singleton. split; [by intros ->|apply prefix_nil_inv].
  - rewrite elem_of_cons, list_elem_of_fmap. setoid_rewrite IH. split.
    + intros [-> | (y & -> & Hy)]; [apply prefix_nil|by apply prefix_cons].
    + destruct q as [|y q]; [by left|]. intros Hp. right. exists q. apply prefix_cons_inv_1 in Hp as E.
      apply prefix_cons_inv_2 in Hp. by subst.
Qed.

Lemma mem_clear_spec p m : mem_clear p m = true <-> forall q, q `prefix_of` p -> mem_stat q m = None \/ mem_stat q m = Some FtDirectory.
Proof.
  unfold mem_clear, mem_stat. rewrite forallb_forall. split; intros Hq q Hp.
  - specialize (Hq q (proj1 (list_elem_of_In _ _) (proj2 (elem_of_inits _ _) Hp))). destruct (m !! q) as [[]|]; [done|by right|by left].
  - apply list_elem_of_In, elem_of_inits, Hq in Hp. destruct (m !! q) as [[]|]; [by destruct Hp as [Hp | Hp]|done|done].
Qed.

Lemma folders_lookup (l : list uri) (m : memory) (q : uri) :
  fold_left (fun m q => <[q := CFolder]> m) l m !! q = if bool_decide (q ∈ l) then Some CFolder else m !! q.
Proof.
  revert m. induction l as [|x l IH]; intros m; [by rewrite bool_decide_false by apply not_elem_of_nil|].
  cbn [fold_left]. rewrite IH. destruct (decide (q ∈ l)) as [Hq|Hq].
  - rewrite !bool_decide_true; [done|by right|done].
  - rewrite (bool_decide_false _ Hq). destruct (decide (q = x)) as [->|Hne].
    + by rewrite lookup_insert_eq, bool_decide_true by left.
    + rewrite lookup_insert_ne by done. rewrite bool_decide_false; [done|]. by rewrite elem_of_cons; intros [|].
Qed.

Lemma mkdir_lookup (p : uri) (m : memory) (q : uri) :
  (mem_mkdir p m).2 !! q = if mem_clear p m && bool_decide (q `prefix_of` p) then Some CFolder else m !! q.
Proof.
  unfold mem_mkdir. destruct (mem_clear p m); [|done]. cbn [snd andb]. rewrite folders_lookup.
  by rewrite (bool_decide_ext _ _ (elem_of_inits q p)).
Qed.

Lemma write_lookup (p : uri) (n b : str) (m : memory) (q : uri) :
  (mem_write (p ++ [n]) b m).2 !! q =
    if mem_clear p m && negb (bool_decide (mem_stat (p ++ [n]) m = Some FtDirectory)) then
      if bool_decide (q = p ++ [n]) then Some (CFile b) else if bool_decide (q `prefix_of` p) then Some CFolder else m !! q
    else m !! q.
Proof.
  unfold mem_write. rewrite rev_app_distr. cbn [rev app]. rewrite rev_involutive.
  destruct (mem_clear p m) eqn:Ec; [|done]. cbn [andb].
  destruct (bool_decide (mem_stat _ m = _)); [done|]. cbn [negb snd].
  destruct (decide (q = p ++ [n])) as [->|Hne]; [by rewrite lookup_insert_eq, bool_decide_true|].
  rewrite lookup_insert_ne, (bool_decide_false (q = _)), mkdir_lookup, Ec by done. done.
Qed.

Lemma prefix_snoc (q p : uri) n : q `prefix_of` p ++ [n] <-> q = p ++ [n] \/ q `prefix_of` p.
Proof.
  split.
  - intros [t E]. destruct t as [|x t _] using rev_ind; [left; by rewrite app_nil_r in E|].
    right. rewrite app_assoc in E. apply app_inj_tail in E as [-> _]. by eexists.
  - intros [-> | Hp]; [done|by apply prefix_app_r].
Qed.

Lemma mem_list_exact (p : uri) (m : memory) es :
  mem_list p m = Some es -> NoDup (map fst es) /\ forall n k, (n, k) ∈ es <-> mem_stat (p ++ [n]) m = Some k.
Proof.
  unfold mem_list. destruct (mem_stat p m) as [[]|]; try done. intros E. injection E as <-.
  set (g := fun e : uri * content => _).
  assert (Hg : forall e n k, g e = Some (n, k) <-> e.1 = p ++ [n] /\ mem_stat e.1 m = Some k).
  { intros [q c] n k. unfold g. cbn [fst]. destruct (rev q) as [|n' r] eqn:Er.
    - split; [done|]. intros [-> _]. by rewrite rev_app_distr in Er.
    - assert (Hq : q = rev r ++ [n']) by by rewrite <- (rev_involutive q), Er.
      case_bool_decide as Hp; cbn [mbind option_bind].
      + destruct (mem_stat q m) as [k'|]; [|by split; [|intros []]]. subst q p. split.
        * intros E. by injection E as <- <-.
        * intros [E1 E2]. apply app_inj_tail in E1 as [_ ->]. by injection E2 as ->.
      + split; [done|]. intros [E _]. rewrite Hq in E. by apply app_inj_tail in E as [E _]. }
  clearbody g. split.
  - pose proof (NoDup_fst_map_to_list m) as Hd. induction (map_to_list m) as [|e l IH]; [constructor|].
    cbn [map] in Hd. apply NoDup_cons in Hd as [Hn Hd]. cbn [omap list_omap].
    destruct (g e) as [[n k]|] eqn:Eg; [|by apply IH]. cbn [map fst]. constructor; [|by apply IH].
    intros Hin. apply Hn. apply list_elem_of_fmap in Hin as ([n' k'] & E & Hin). cbn [fst] in E. subst n'.
    apply list_elem_of_omap in Hin as (e' & He' & Eg'). apply Hg in Eg as [E1 _], Eg' as [E2 _].
    apply list_elem_of_fmap. exists e'. split; [by rewrite E1, E2|done].
  - intros n k. rewrite list_elem_of_omap. split.
    + intros (e & He & Eg). by apply Hg in Eg as [<- ?].
    + intros Hs. unfold mem_stat in Hs. destruct (m !! (p ++ [n])) as [c|] eqn:El; [|done].
      exists (p ++ [n], c). split; [by apply elem_of_map_to_list|]. apply Hg. split; [done|].
      cbn [fst]. unfold mem_stat. by rewrite El.
Qed.

Lemma delete_lookup (p : uri) (m : memory) (q : uri) :
  (mem_delete p m).2 !! q = if (mem_delete p m).1 && bool_decide (p `prefix_of` q) then None else m !! q.
Proof.
  unfold mem_delete. destruct (m !! p); [|done]. cbn [fst snd andb]. case_bool_decide as Hp.
  - apply map_lookup_filter_None. right. intros c0 _ Hn. by apply Hn.
  - destruct (m !! q) as [c0|] eqn:E.
    + by apply map_lookup_filter_Some.
    + apply map_lookup_filter_None. by left.
Qed.

Lemma mem_stat_write_cases (p : uri) (b : str) (m : memory) (q : uri) :
  q <> p -> (mem_write p b m).2 !! q = m !! q \/
    (q `prefix_of` p /\ mem_stat q m <> Some FtFile /\ (mem_write p b m).2 !! q = Some CFolder).
Proof.
  destruct p as [|n p _] using rev_ind; [by left|]. intros Hne. rewrite write_lookup.
  destruct (mem_clear p m) eqn:Ec; [|by left]. cbn [andb].
  destruct (negb _); [|by left]. rewrite (bool_decide_false _ Hne). case_bool_decide as Hp; [|by left].
  right. split_and!; [by apply prefix_app_r| |done]. apply (proj1 (mem_clear_spec p m) Ec) in Hp as [-> | ->]; done.
Qed.

#[export] Instance memory_laws : FileSystemLaws memory.
Proof.
  split; cbn [fs_stat fs_read fs_list fs_mkdir fs_write fs_delete memory_fs].
  - intros p m b. unfold mem_stat. by destruct (m !! p) as [[]|].
  - intros p m. unfold mem_stat. destruct (m !! p) as [[]|]; [by eexists|done|done].
  - apply mem_list_exact.
  - intros p m E. unfold mem_list. rewrite E. by eexists.
  - intros p m Hc. unfold mem_mkdir. by rewrite (proj2 (mem_clear_spec p m) Hc).
  - intros p m Hm. unfold mem_stat. rewrite mkdir_lookup, bool_decide_true by done. unfold mem_mkdir in Hm. by destruct (mem_clear p m).
  - intros p m q. rewrite mkdir_lookup. destruct (mem_clear p m) eqn:Ec; [|done]. case_bool_decide as Hp; [|done].
    apply (proj1 (mem_clear_spec p m) Ec) in Hp. unfold mem_stat in Hp. cbn [andb]. by destruct (m !! q) as [[]|]; destruct Hp.
  - intros p m q. unfold mem_stat. rewrite mkdir_lookup. destruct (mem_clear p m) eqn:Ec; [|by left].
    case_bool_decide as Hp; [|by left]. pose proof (proj1 (mem_clear_spec p m) Ec q Hp) as Hc. unfold mem_stat in Hc.
    cbn [andb]. destruct (m !! q) as [[]|]; [by destruct Hc|by left|by right].
  - intros p n b m Hc Hd. unfold mem_write. rewrite rev_app_distr. cbn [rev app]. rewrite rev_involutive.
    rewrite (proj2 (mem_clear_spec p m) Hc), bool_decide_false by done. done.
  - intros p b m Hw. destruct p as [|n p _] using rev_ind; [done|]. rewrite write_lookup.
    unfold mem_write in Hw. rewrite rev_app_distr in Hw. cbn [rev app] in Hw. rewrite rev_involutive in Hw.
    destruct (mem_clear p m && _); [by rewrite bool_decide_true|done].
  - intros p b m q Hne. destruct (mem_stat_write_cases p b m q Hne) as [-> | (_ & Hs & ->)]; [done|].
    unfold mem_stat in Hs. by destruct (m !! q) as [[]|].
  - intros p b m q Hne. unfold mem_stat. destruct (mem_stat_write_cases p b m q Hne) as [-> | (Hp & Hs & ->)]; [by left|].
    unfold mem_stat in Hs. destruct (m !! q) as [[]|]; [done|by left|by right].
  - intros p m Hs. unfold mem_delete. unfold mem_stat in Hs. by destruct (m !! p).
  - intros p m q Hd Hp. unfold mem_stat. by rewrite delete_lookup, Hd, bool_decide_true.
  - intros p m q Hp. unfold mem_stat. by rewrite delete_lookup, bool_decide_false, andb_false_r.
  - intros p m q Hp. by rewrite delete_lookup, bool_decide_false, andb_false_r.
Qed.

(** ** What a call leaves alone *)

Section frames.
Context `{Hlaws : FileSystemLaws F}.
Implicit Types (f : F) (p q src dest : uri).

(** Only [p], what is below it, and missing folders above it have changed. *)
Definition step_under p f f' : Prop :=
  forall q, ~ p `prefix_of` q ->
    fs_read q f' = fs_read q f /\
    (fs_stat q f' = fs_stat q f \/ (q `prefix_of` p /\ fs_stat q f = None /\ fs_stat q f' = Some FtDirectory)).

Lemma step_refl p f : step_under p f f.
Proof. intros q _. auto. Qed.

Lemma step_trans p f1 f2 f3 : step_under p f1 f2 -> step_under p f2 f3 -> step_under p f1 f3.
Proof.
  intros H12 H23 q Hq. destruct (H12 q Hq) as [R1 S1], (H23 q Hq) as [R2 S2]. split; [congruence|].
  destruct S1 as [S1 | (P & N & D)], S2 as [S2 | (P' & N' & D')]; [left; congruence|right; split_and!; congruence| |congruence].
  right. split_and!; congruence.
Qed.

Lemma step_below p p' f f' : p `prefix_of` p' -> step_under p' f f' -> step_under p f f'.
Proof.
  intros Hp Hs q Hq. destruct (Hs q) as [R S]; [intros Hq'; apply Hq; by trans p'|]. split; [done|].
  destruct S as [S | (P & N & D)]; [by left|]. right. split_and!; [|done|done].
  by destruct (prefix_weak_total q p p' P Hp).
Qed.

Lemma mkdir_under p f : step_under p f (fs_mkdir p f).2.
Proof. intros q Hq. split; [apply mkdir_read|apply mkdir_stat]. Qed.

Lemma write_under p b f : step_under p f (fs_write p b f).2.
Proof.
  intros q Hq. assert (q <> p) by by intros ->. split; [by apply write_read|by apply write_stat].
Qed.

Lemma clear_kept p r f f' : step_under p f f' -> ~ p `prefix_of` r -> clear_path r f -> clear_path r f'.
Proof.
  intros Hs Hr Hc q Hq. destruct (Hs q) as [_ S]; [intros Hq'; apply Hr; by trans q|].
  destruct S as [-> | (_ & _ & ->)]; [by apply Hc|by right].
Qed.

Lemma read_none p f : fs_stat p f <> Some FtFile -> fs_read p f = None.
Proof. intros Hs. destruct (fs_read p f) eqn:E; [|done]. by apply read_is_file in E. Qed.

Lemma not_below p (x : list str) : x <> [] -> ~ p ++ x `prefix_of` p.
Proof. intros Hx Hp. apply prefix_length in Hp. rewrite length_app in Hp. destruct x; [done|cbn in Hp; lia]. Qed.

(** Two paths that are apart: changes below one cannot be seen below the other. *)
Definition apart src dest : Prop := ~ src `prefix_of` dest /\ ~ dest `prefix_of` src.

Lemma apart_below src dest x : apart src dest -> ~ dest `prefix_of` src ++ x.
Proof.
  intros [H1 H2] Hp. destruct (prefix_weak_total src dest (src ++ x)) as [Hc|Hc]; [by eexists|done|done|done].
Qed.

Lemma apart_sym src dest : apart src dest -> apart dest src.
Proof. by intros []. Qed.

Lemma apart_more src dest x y : apart src dest -> apart (src ++ x) (dest ++ y).
Proof.
  intros Ha. split; intros Hp.
  - apply (apart_below dest src y); [by apply apart_sym|]. by trans (src ++ x); [eexists|].
  - apply (apart_below src dest x Ha). by trans (dest ++ y); [eexists|].
Qed.

Lemma unseen src dest f f' x : apart src dest -> step_under dest f f' ->
  fs_read (src ++ x) f' = fs_read (src ++ x) f /\ fs_stat (src ++ x) f' = fs_stat (src ++ x) f.
Proof.
  intros Ha Hs. destruct (Hs (src ++ x) (apart_below src dest x Ha)) as [R [S | (P & _)]]; [done|].
  exfalso. destruct Ha as [Ha _]. apply Ha. by trans (src ++ x); [eexists|].
Qed.

(** ** Copying a directory *)

(** Every entry lies in a directory. *)
Definition tree src f : Prop :=
  forall x n, fs_stat (src ++ x ++ [n]) f <> None -> fs_stat (src ++ x) f = Some FtDirectory.

Lemma tree_leaf src f x y : tree src f -> fs_stat (src ++ x) f <> Some FtDirectory -> y <> [] -> fs_stat (src ++ x ++ y) f = None.
Proof.
  intros Ht Hx. induction y as [|n y IH] using rev_ind; [done|]. intros _.
  destruct (fs_stat (src ++ x ++ y ++ [n]) f) eqn:E; [|done]. exfalso.
  assert (Hd : fs_stat (src ++ x ++ y) f = Some FtDirectory) by (apply (Ht _ n); rewrite <- app_assoc; by rewrite E).
  destruct y as [|y0 y]; [by rewrite app_nil_r in Hd|]. by rewrite IH in Hd.
Qed.

Record copyable (n : nat) src dest f : Prop := {
  c_tree : tree src f;
  c_src : fs_stat src f = Some FtDirectory;
  c_depth x : fs_stat (src ++ x) f <> None -> (length x < n)%nat;
  c_clear : clear_path dest f;
  c_fresh x : x <> [] -> fs_stat (dest ++ x) f = None;
  c_apart : apart src dest }.

Definition copies (rec : uri -> uri -> io F unit) (n : nat) : Prop :=
  forall src dest f, copyable n src dest f ->
  exists f', rec src dest f = (Some (), f') /\ step_under dest f f' /\
    forall x, fs_read (dest ++ x) f' = fs_read (src ++ x) f.

Definition copy_entry (rec : uri -> uri -> io F unit) src dest (e : str * FileType) : io F unit :=
  match e.2 with
  | FtDirectory => run! createDirectory (dest ++ [e.1]) then rec (src ++ [e.1]) (dest ++ [e.1])
  | FtFile => do! buf <- readFile (src ++ [e.1]) in writeFile (dest ++ [e.1]) buf
  | FtOther => io_ret ()
  end.

(** What the loop over the entries needs of the state it starts from *)
Record copying (n : nat) src dest (es : list (str * FileType)) f : Prop := {
  g_tree : tree src f;
  g_names : NoDup (map fst es);
  g_types m k : (m, k) ∈ es -> fs_stat (src ++ [m]) f = Some k;
  g_depth x : fs_stat (src ++ x) f <> None -> (length x < S n)%nat;
  g_clear : clear_path dest f;
  g_fresh m x : m ∈ map fst es -> fs_stat (dest ++ m :: x) f = None;
  g_apart : apart src dest }.

Lemma cons_snoc (p : uri) m x : p ++ m :: x = (p ++ [m]) ++ x.
Proof. by rewrite <- app_assoc. Qed.

Lemma subdir_copyable n src dest m es f :
  copying n src dest ((m, FtDirectory) :: es) f ->
  (fs_mkdir (dest ++ [m]) f).1 = true /\ copyable n (src ++ [m]) (dest ++ [m]) (fs_mkdir (dest ++ [m]) f).2.
Proof.
  intros [Ht Hn Hk Hd Hc Hf Ha].
  assert (Hcm : clear_path (dest ++ [m]) f).
  { intros q [-> | Hq]%prefix_snoc; [|by apply Hc]. left. apply Hf. by left. }
  assert (Hok := mkdir_works _ _ Hcm). split; [done|].
  pose proof (mkdir_under (dest ++ [m]) f) as Hu. set (f1 := (fs_mkdir (dest ++ [m]) f).2) in *.
  assert (Hsame : forall x, fs_stat (src ++ x) f1 = fs_stat (src ++ x) f).
  { intros x. apply (unseen src dest f f1 x Ha). eapply step_below; [|exact Hu]. by eexists. }
  split.
  - intros x k. rewrite <- !(app_assoc src), !Hsame. apply (Ht ([m] ++ x)).
  - rewrite Hsame. apply Hk. by left.
  - intros x. rewrite <- app_assoc, Hsame. intros Hx. apply Hd in Hx. cbn in Hx. lia.
  - intros q [-> | Hq]%prefix_snoc; [right; by apply mkdir_made|].
    eapply (clear_kept _ dest); [exact Hu| |exact Hc|exact Hq]. by apply not_below.
  - intros x Hx. destruct (mkdir_stat (dest ++ [m]) f ((dest ++ [m]) ++ x)) as [E | (Hp & _)].
    + fold f1 in E. rewrite E, <- cons_snoc. apply Hf. by left.
    + by apply not_below in Hp.
  - by apply apart_more.
Qed.

Lemma copy_entry_ok rec n src dest m k es f :
  copies rec n -> copying n src dest ((m, k) :: es) f ->
  exists f1, copy_entry rec src dest (m, k) f = (Some (), f1) /\ step_under (dest ++ [m]) f f1 /\
    forall x, fs_read (dest ++ m :: x) f1 = fs_read (src ++ m :: x) f.
Proof.
  intros Hrec Hg. pose proof Hg as [Ht Hn Hk Hd Hc Hf Ha].
  assert (Hkm : fs_stat (src ++ [m]) f = Some k) by (apply Hk; by left).
  assert (Hleaf : k <> FtDirectory -> forall y x, fs_read (src ++ m :: y :: x) f = None).
  { intros Hkd y x. apply read_none. change (m :: y :: x) with ([m] ++ y :: x).
    rewrite (tree_leaf src f [m] (y :: x)); [done|done| |done]. rewrite Hkm. by intros [=]. }
  assert (Hnew : forall x, fs_read (dest ++ m :: x) f = None) by (intros x; apply read_none; rewrite Hf; [done|by left]).
  unfold copy_entry. cbn [fst snd]. destruct k.
  - destruct (file_is_read _ _ Hkm) as [b Hb].
    assert (Hw : (fs_write (dest ++ [m]) b f).1 = true) by (apply write_works; [done|rewrite Hf; [done|by left]]).
    exists (fs_write (dest ++ [m]) b f).2. unfold io_bind, readFile, writeFile, done_or_fail. rewrite Hb, Hw.
    split_and!; [done|apply write_under|]. intros [|y x].
    + by rewrite Hb; apply write_made.
    + rewrite write_read by (intros [=]%app_inv_head). by rewrite Hnew, Hleaf.
  - destruct (subdir_copyable _ _ _ _ _ _ Hg) as [Hok Hcp]. destruct (Hrec _ _ _ Hcp) as (f' & Er & Hu & Hx).
    pose proof (mkdir_under (dest ++ [m]) f) as Hu1.
    exists f'. unfold io_bind, createDirectory, done_or_fail. rewrite Hok. cbn [fst snd].
    split_and!; [done|by eapply step_trans|]. intros x. rewrite (cons_snoc dest m x), Hx, <- cons_snoc.
    apply (unseen src dest f (fs_mkdir (dest ++ [m]) f).2 ([m] ++ x) Ha). eapply step_below; [|exact Hu1]. by eexists.
  - exists f. split_and!; [done|apply step_refl|]. intros [|y x]; [|by rewrite Hnew, Hleaf].
    rewrite Hnew, read_none; [done|]. by rewrite Hkm.
Qed.

(** The state after one entry, for the rest of the loop *)
Lemma copying_rest n src dest m k es f f1 :
  copying n src dest ((m, k) :: es) f -> step_under (dest ++ [m]) f f1 -> copying n src dest es f1.
Proof.
  intros [Ht Hn Hk Hd Hc Hf Ha] Hu. cbn [map fst] in Hn. apply NoDup_cons in Hn as [Hm Hn].
  assert (Hsame : forall x, fs_stat (src ++ x) f1 = fs_stat (src ++ x) f).
  { intros x. apply (unseen src dest f f1 x Ha). eapply step_below; [|exact Hu]. by eexists. }
  split; [| done | | | | | done].
  - intros x c. rewrite !Hsame. apply Ht.
  - intros m' k' Hin. rewrite Hsame. apply Hk. by right.
  - intros x. rewrite Hsame. apply Hd.
  - eapply clear_kept; [exact Hu| |exact Hc]. by apply not_below.
  - intros m' x Hin. assert (Hne : m <> m') by by intros ->.
    destruct (Hu (dest ++ m' :: x)) as [_ [-> | (Hp & _)]].
    + intros Hp. apply prefix_app_inv, prefix_cons_inv_1 in Hp. done.
    + apply Hf. by right.
    + apply prefix_app_inv, prefix_cons_inv_1 in Hp. by subst.
Qed.

Lemma copy_entries_ok rec n src dest : copies rec n -> forall es f, copying n src dest es f ->
  exists f', copy_entries rec src dest es f = (Some (), f') /\ step_under dest f f' /\
    fs_read dest f' = fs_read dest f /\
    forall (m : str) (x : uri), fs_read (dest ++ m :: x) f' =
      if bool_decide (m ∈ map fst es) then fs_read (src ++ m :: x) f else fs_read (dest ++ m :: x) f.
Proof.
  intros Hrec. induction es as [|[m k] es IH]; intros f Hg.
  - exists f. split_and!; [done|apply step_refl|done|]. intros m x. by rewrite bool_decide_false by apply not_elem_of_nil.
  - destruct (copy_entry_ok _ _ _ _ _ _ _ _ Hrec Hg) as (f1 & E1 & U1 & R1).
    destruct (IH f1 (copying_rest _ _ _ _ _ _ _ _ Hg U1)) as (f' & E2 & U2 & D2 & R2).
    destruct Hg as [Ht Hn Hk Hd Hc Hf Ha]. cbn [map fst] in Hn. apply NoDup_cons in Hn as [Hm Hn].
    assert (Hu : step_under dest f f1) by (eapply step_below; [|exact U1]; by eexists).
    exists f'. split_and!; [|by eapply step_trans| |].
    + cbn [copy_entries]. unfold io_bind at 1. unfold copy_entry in E1. cbn [fst snd] in E1. by rewrite E1.
    + rewrite D2. apply (U1 dest). by apply not_below.
    + intros m' x. rewrite R2. cbn [map fst]. destruct (decide (m' = m)) as [->|Hne].
      * rewrite bool_decide_false, bool_decide_true by (done || by left). apply R1.
      * rewrite (bool_decide_ext (m' ∈ m :: map fst es) (m' ∈ map fst es)).
        2:{ rewrite elem_of_cons. split; [by intros [|]|by right]. }
        case_bool_decide; [apply (unseen src dest f f1 _ Ha Hu)|].
        apply (U1 (dest ++ m' :: x)). intros Hp. by apply prefix_app_inv, prefix_cons_inv_1 in Hp.
Qed.

Lemma copyDir_ok n : copies (copyDir n) n.
Proof.
  induction n as [|n IH]; intros src dest f [Ht Hs Hd Hc Hf Ha].
  { specialize (Hd []). rewrite app_nil_r, Hs in Hd. by apply Nat.nlt_0_r in Hd. }
  destruct (list_works _ _ Hs) as [es Hes]. destruct (list_exact _ _ _ Hes) as [Hn He].
  destruct (copy_entries_ok (copyDir n) n src dest IH es f) as (f' & E & U & D & R).
  { split; [done|done|by intros; apply He|done|done|by intros; apply Hf|done]. }
  exists f'. split_and!; [|done|].
  - cbn [copyDir]. unfold io_bind at 1, readDirectory. by rewrite Hes.
  - intros [|m x].
    + rewrite !app_nil_r, D, !read_none; [done|by rewrite Hs|]. by destruct (Hc dest) as [-> | ->].
    + rewrite R. case_bool_decide as Hm; [done|].
      rewrite !read_none; [done| |by rewrite Hf].
      assert (Hnone : fs_stat (src ++ [m]) f = None).
      { destruct (fs_stat (src ++ [m]) f) as [k|] eqn:Ek; [|done]. apply He in Ek. destruct Hm. by apply (list_elem_of_fmap_2 fst) in Ek. }
      destruct x as [|y x]; [by rewrite Hnone|]. change (m :: y :: x) with ([m] ++ y :: x).
      rewrite (tree_leaf src f [m] (y :: x)); [done|done|by rewrite Hnone|done].
Qed.

End frames.

(** ** Paths of the workspace *)

Lemma uri_file_abs segs : segs <> [] -> Forall name_segment segs -> uri_file (abs_path segs) = segs.
Proof.
  intros Hn H. unfold uri_file, abs_path. change (split_on 47 (47 :: join [47] segs)) with ([] :: split_on 47 (join [47] segs)).
  rewrite split_segments by done. cbn [List.filter nonempty]. by apply filter_segments.
Qed.

Lemma name_workspace : name_segment (js "workspace").
Proof. repeat split; try done; repeat constructor; done. Qed.

Lemma join_workspace segs : segs <> [] -> Forall name_segment segs ->
  posix_join (abs_path segs) (js "workspace") = abs_path (segs ++ [js "workspace"]).
Proof.
  intros Hn H. unfold posix_join. replace (abs_path segs ++ [47] ++ js "workspace") with (abs_path (segs ++ [js "workspace"])).
  - apply normalize_abs; [by destruct segs|]. apply Forall_app. split; [done|]. constructor; [apply name_workspace|constructor].
  - unfold abs_path. rewrite join_app_ne by done. done.
Qed.

(** ** Theorems on the seeders *)

Section seeding.
Context `{Hlaws : FileSystemLaws F}.
Implicit Types (f : F) (p q : uri).

Lemma createDirectory_ok p f : clear_path p f ->
  createDirectory p f = (Some (), (fs_mkdir p f).2) /\ step_under p f (fs_mkdir p f).2 /\
  fs_stat p (fs_mkdir p f).2 = Some FtDirectory.
Proof.
  intros Hc. pose proof (mkdir_works p f Hc) as Hok. split_and!; [|apply mkdir_under|by apply mkdir_made].
  unfold createDirectory, done_or_fail. by rewrite Hok.
Qed.

Lemma writeFile_ok p n b f : clear_path p f -> fs_stat (p ++ [n]) f <> Some FtDirectory ->
  exists f', writeFile (p ++ [n]) b f = (Some (), f') /\ step_under (p ++ [n]) f f' /\
    fs_read (p ++ [n]) f' = Some b /\ forall q, q <> p ++ [n] -> fs_read q f' = fs_read q f.
Proof.
  intros Hc Hd. pose proof (write_works p n b f Hc Hd) as Hok. exists (fs_write (p ++ [n]) b f).2.
  split_and!; [|apply write_under|by apply write_made|by intros; apply write_read].
  unfold writeFile, done_or_fail. by rewrite Hok.
Qed.

Lemma deleted_read p f q : (fs_delete p f).1 = true -> p `prefix_of` q -> fs_read q (fs_delete p f).2 = None.
Proof. intros Hd Hp. apply read_none. by rewrite delete_gone. Qed.

(** The clear path of a folder, for a state where the folder has been made *)
Lemma clear_made p f f' : step_under p f f' -> clear_path p f -> fs_stat p f' = Some FtDirectory -> clear_path p f'.
Proof.
  intros Hu Hc Hd q Hq. destruct (decide (p `prefix_of` q)) as [Hp|Hp].
  - right. assert (q = p) as -> by (apply (anti_symm prefix); done). done.
  - destruct (Hu q Hp) as [_ [-> | (_ & _ & ->)]]; [by apply Hc|by right].
Qed.


Lemma usercfg_path ws : joinPath ws USERCFG_REL = (ws ++ [CONFIG_DIR]) ++ [js "custom_user_config.json"].
Proof. unfold joinPath. by rewrite <- app_assoc. Qed.

Lemma parser_path ws : joinPath ws PARSER_CONFIG_REL = (ws ++ [CONFIG_DIR]) ++ [js "custom_log_parser.json"].
Proof. unfold joinPath. by rewrite <- app_assoc. Qed.

Lemma readme_path ws : joinPath ws PARSER_README_REL = (ws ++ [CONFIG_DIR]) ++ [js "custom_log_parser_readme.md"].
Proof. unfold joinPath. by rewrite <- app_assoc. Qed.

(** The configuration of the user is taken over, and its directory exists from then on. *)
Lemma user_migration_ok oldWs newWs ext f u :
  clear_path (newWs ++ [CONFIG_DIR]) f -> fs_stat (joinPath newWs USERCFG_REL) f = None ->
  fs_read (joinPath oldWs USERCFG_REL) f = Some u ->
  exists f', migrateUserConfigIfNeeded oldWs newWs ext f = (Some (), f') /\
    step_under (newWs ++ [CONFIG_DIR]) f f' /\
    fs_read (joinPath newWs USERCFG_REL) f' = Some u /\
    fs_stat (newWs ++ [CONFIG_DIR]) f' = Some FtDirectory /\
    (forall q, q <> joinPath newWs USERCFG_REL -> fs_read q f' = fs_read q f).
Proof.
  intros Hc Hn Ho. unfold migrateUserConfigIfNeeded, io_bind, exists_, attempt, readFile. rewrite Hn, Ho.
  destruct (createDirectory_ok _ _ Hc) as (E1 & U1 & D1). rewrite E1. set (f1 := (fs_mkdir _ f).2) in *.
  rewrite usercfg_path in *. set (dir := newWs ++ [CONFIG_DIR]) in *.
  destruct (writeFile_ok dir (js "custom_user_config.json") u f1) as (f2 & E2 & U2 & R2 & K2).
  - by apply (clear_made dir f).
  - destruct (mkdir_stat dir f (dir ++ [js "custom_user_config.json"])) as [E | (Hp & _)];
      [unfold f1; by rewrite E, Hn|by apply not_below in Hp].
  - exists f2. rewrite E2. split_and!; [done| |done| |].
    + eapply step_trans; [exact U1|]. eapply step_below; [|exact U2]. by eexists.
    + destruct (U2 dir) as [_ [S | (_ & S & _)]]; [by apply not_below|congruence|congruence].
    + intros q Hq. rewrite K2 by done. apply mkdir_read.
Qed.

(** With the directory there, the migration of the parser configuration copies nothing and
    removes the old directory. *)
Lemma parser_migration_skips fuel oldWs newWs ext f :
  let oldDir := oldWs ++ [CONFIG_DIR] in
  let newDir := newWs ++ [CONFIG_DIR] in
  clear_path newDir f -> fs_stat newDir f = Some FtDirectory -> fs_stat oldDir f = Some FtDirectory -> apart oldDir newDir ->
  exists f', migrateParserConfigIfNeeded fuel oldWs newWs ext f = (Some (), f') /\
    (forall x, fs_read (oldDir ++ x) f' = None) /\
    (forall q, ~ oldDir `prefix_of` q -> fs_read q f' = fs_read q f).
Proof.
  intros oldDir newDir Hc Hn Ho Ha. destruct (createDirectory_ok newDir f Hc) as (E1 & U1 & D1).
  set (f1 := (fs_mkdir newDir f).2) in *.
  assert (Ho1 : fs_stat oldDir f1 = Some FtDirectory).
  { destruct (unseen oldDir newDir f f1 [] Ha U1) as [_ E]. rewrite !app_nil_r in E. congruence. }
  assert (Hdel : (fs_delete oldDir f1).1 = true) by (apply delete_works; by rewrite Ho1).
  exists (fs_delete oldDir f1).2. split_and!.
  - unfold migrateParserConfigIfNeeded. fold oldDir newDir. unfold exists_, io_bind, attempt, delete_, done_or_fail, io_ret.
    rewrite Hn, Ho, E1. cbn [andb]. rewrite bool_decide_false; [done|]. intros E. rewrite E in Ha. by destruct Ha.
  - intros x. apply deleted_read; [done|by eexists].
  - intros q Hq. rewrite delete_read by done. apply mkdir_read.
Qed.

(** So the two migrations in the order of the handler lose the rules of the parser. *)
Lemma move_config_loses ext fuel prev next f u :
  let old := wsUri prev in
  let new := wsUri next in
  clear_path (new ++ [CONFIG_DIR]) f -> apart (old ++ [CONFIG_DIR]) new ->
  fs_stat (old ++ [CONFIG_DIR]) f = Some FtDirectory -> fs_read (joinPath old USERCFG_REL) f = Some u ->
  fs_stat (joinPath new USERCFG_REL) f = None -> fs_read (joinPath new PARSER_CONFIG_REL) f = None ->
  exists f', move_config ext fuel prev next f = (Some (), f') /\
    fs_read (joinPath new USERCFG_REL) f' = Some u /\
    fs_read (joinPath new PARSER_CONFIG_REL) f' = None /\
    forall x, fs_read (old ++ [CONFIG_DIR] ++ x) f' = None.
Proof.
  intros old new Hc Ha Ho Hu Hn Hp.
  assert (Hin : forall a b r, a <> r -> ~ new ++ [r] `prefix_of` (new ++ [a]) ++ b).
  { intros a b r Hne Hpre. rewrite <- app_assoc in Hpre. by apply prefix_app_inv, prefix_cons_inv_1 in Hpre. }
  assert (Hraw : CONFIG_DIR <> RAW_DIR_NAME) by done.
  set (f0 := (fs_delete (new ++ [RAW_DIR_NAME]) f).2).
  assert (Hold : forall x, ~ new ++ [RAW_DIR_NAME] `prefix_of` (old ++ [CONFIG_DIR]) ++ x).
  { intros x Hpre. apply (apart_below _ _ x Ha). by trans (new ++ [RAW_DIR_NAME]); [eexists|]. }
  assert (Hclear : clear_path (new ++ [CONFIG_DIR]) f0).
  { intros q Hq. unfold f0. rewrite delete_stat; [by apply Hc|]. intros Hpre.
    apply (Hin CONFIG_DIR [] RAW_DIR_NAME Hraw). rewrite app_nil_r. by trans q. }
  pose proof (Hold []) as Hold0. rewrite app_nil_r in Hold0.
  destruct (user_migration_ok old new ext f0 u) as (f1 & E1 & U1 & R1 & D1 & K1).
  - done.
  - unfold f0. rewrite usercfg_path in *. rewrite delete_stat by by apply Hin. done.
  - unfold f0. rewrite usercfg_path in *. by rewrite delete_read by apply Hold.
  - assert (Ha' : apart (old ++ [CONFIG_DIR]) (new ++ [CONFIG_DIR])).
    { rewrite <- (app_nil_r (old ++ [CONFIG_DIR])). by apply apart_more. }
    destruct (parser_migration_skips fuel old new ext f1) as (f2 & E2 & G2 & K2).
    + by apply (clear_made _ f0).
    + done.
    + destruct (unseen _ _ f0 f1 [] Ha' U1) as [_ E]. rewrite !app_nil_r in E. rewrite E. unfold f0. by rewrite delete_stat.
    + done.
    + exists f2. split_and!.
      * unfold move_config, io_bind, attempt, delete_, done_or_fail, io_ret. fold old new f0. by rewrite E1, E2.
      * rewrite K2; [done|]. rewrite usercfg_path. apply apart_below, apart_sym, Ha'.
      * rewrite K2 by (rewrite parser_path; apply apart_below, apart_sym, Ha'). rewrite K1 by (rewrite usercfg_path, parser_path; intros [=]%app_inv_head).
        unfold f0. rewrite parser_path in *. by rewrite delete_read by by apply Hin.
      * intros x. rewrite app_assoc. apply G2.
Qed.

End seeding.

(** ** Theorems on the seeds *)

Section seeds.
Context `{Hlaws : FileSystemLaws F}.
Implicit Types (f : F) (p q : uri).

Lemma seed_file_ok dir n t f b ex :
  clear_path dir f -> fs_read t f = Some b -> (ex = false -> fs_stat (dir ++ [n]) f = None) ->
  exists f', (if ex then io_ret () else do! buf <- readFile t in writeFile (dir ++ [n]) buf) f = (Some (), f') /\
    step_under (dir ++ [n]) f f' /\ fs_read (dir ++ [n]) f' = (if ex then fs_read (dir ++ [n]) f else Some b) /\
    forall q, q <> dir ++ [n] -> fs_read q f' = fs_read q f.
Proof.
  intros Hc Ht Hex. destruct ex; [exists f; split_and!; [done|apply step_refl|done|done]|].
  destruct (writeFile_ok dir n b f Hc) as (f' & E & U & R & K); [by rewrite Hex|].
  exists f'. split_and!; [|done|done|done]. unfold io_bind, readFile. by rewrite Ht.
Qed.

(** The folder of the configuration is made first; what is read stays, and what is missing in
    it stays missing. *)
Lemma config_folder_ok ws f : clear_path (ws ++ [CONFIG_DIR]) f ->
  exists f1, attempt (createDirectory (ws ++ [CONFIG_DIR])) f = (Some (Some ()), f1) /\
    clear_path (ws ++ [CONFIG_DIR]) f1 /\ (forall q, fs_read q f1 = fs_read q f) /\
    forall n, fs_stat ((ws ++ [CONFIG_DIR]) ++ [n]) f1 = fs_stat ((ws ++ [CONFIG_DIR]) ++ [n]) f.
Proof.
  intros Hc. destruct (createDirectory_ok _ _ Hc) as (E & U & D). exists (fs_mkdir (ws ++ [CONFIG_DIR]) f).2.
  split_and!; [unfold attempt; by rewrite E|by apply (clear_made _ f)|intros q; apply mkdir_read|].
  intros n. destruct (mkdir_stat (ws ++ [CONFIG_DIR]) f ((ws ++ [CONFIG_DIR]) ++ [n])) as [S | (P & _)]; [done|by apply not_below in P].
Qed.

(** What a seeded file holds afterwards *)
Definition kept_or p f (b : str) : option str :=
  match fs_stat p f with Some _ => fs_read p f | None => Some b end.

(** The seeds of the parser: the two files are there afterwards, a file that was there keeps its
    content, a missing one is the template of the extension, and no other file changes. *)
Theorem parser_seeded ext ws f tpl md :
  clear_path (ws ++ [CONFIG_DIR]) f ->
  fs_read (joinPath ext PARSER_TEMPLATE_REL) f = Some tpl -> fs_read (joinPath ext PARSER_README_TEMPLATE_REL) f = Some md ->
  exists f', ensureParserConfigExists ext ws f = (Some (), f') /\
    fs_read (joinPath ws PARSER_CONFIG_REL) f' = kept_or (joinPath ws PARSER_CONFIG_REL) f tpl /\
    fs_read (joinPath ws PARSER_README_REL) f' = kept_or (joinPath ws PARSER_README_REL) f md /\
    forall q, q <> joinPath ws PARSER_CONFIG_REL -> q <> joinPath ws PARSER_README_REL -> fs_read q f' = fs_read q f.
Proof.
  intros Hc Ht Hm. destruct (config_folder_ok ws f Hc) as (f1 & E1 & C1 & R1 & S1).
  unfold ensureParserConfigExists, kept_or. rewrite parser_path, readme_path. set (dir := ws ++ [CONFIG_DIR]) in *.
  set (cfg := js "custom_log_parser.json"). set (doc := js "custom_log_parser_readme.md").
  unfold io_bind at 1, exists_ at 1. unfold io_bind at 1, exists_ at 1. unfold io_bind at 1. rewrite E1.
  set (ex1 := match fs_stat (dir ++ [cfg]) f with Some _ => true | None => false end).
  set (ex2 := match fs_stat (dir ++ [doc]) f with Some _ => true | None => false end).
  destruct (seed_file_ok dir cfg (joinPath ext PARSER_TEMPLATE_REL) f1 tpl ex1) as (f2 & E2 & U2 & R2 & K2).
  - done.
  - by rewrite R1.
  - rewrite S1. unfold ex1. by destruct (fs_stat (dir ++ [cfg]) f).
  - assert (Hne : dir ++ [doc] <> dir ++ [cfg]) by by intros [=]%app_inv_head.
    destruct (seed_file_ok dir doc (joinPath ext PARSER_README_TEMPLATE_REL) f2 md ex2) as (f3 & E3 & _ & R3 & K3).
    + eapply clear_kept; [exact U2|by apply not_below|done].
    + destruct (decide (joinPath ext PARSER_README_TEMPLATE_REL = dir ++ [cfg])) as [E|E]; [|by rewrite K2, R1].
      unfold ex1 in R2. rewrite E. rewrite E in Hm. apply read_is_file in Hm as Hs. rewrite Hs in R2. by rewrite R2, R1.
    + intros He. destruct (U2 (dir ++ [doc])) as [_ [-> | (P & _)]].
      * intros P. by apply prefix_app_inv, prefix_cons_inv_1 in P.
      * rewrite S1. unfold ex2 in He. by destruct (fs_stat (dir ++ [doc]) f).
      * by apply prefix_app_inv, prefix_cons_inv_1 in P.
    + exists f3. unfold io_bind at 1. rewrite E2, E3. split_and!; [done| | |].
      * rewrite K3, R2, R1 by by apply not_eq_sym. unfold ex1. by destruct (fs_stat (dir ++ [cfg]) f).
      * rewrite R3, K2, R1 by done. unfold ex2. by destruct (fs_stat (dir ++ [doc]) f).
      * intros q Hq1 Hq2. by rewrite K3, K2, R1.
Qed.

(** The configuration of the user, likewise *)
Theorem user_seeded ext ws f tpl :
  clear_path (ws ++ [CONFIG_DIR]) f -> fs_read (joinPath ext USERCFG_TEMPLATE_REL) f = Some tpl ->
  exists f', ensureUserConfigExists ext ws f = (Some (), f') /\
    fs_read (joinPath ws USERCFG_REL) f' = kept_or (joinPath ws USERCFG_REL) f tpl /\
    forall q, q <> joinPath ws USERCFG_REL -> fs_read q f' = fs_read q f.
Proof.
  intros Hc Ht. destruct (config_folder_ok ws f Hc) as (f1 & E1 & C1 & R1 & S1).
  unfold ensureUserConfigExists, kept_or. rewrite usercfg_path. set (dir := ws ++ [CONFIG_DIR]) in *.
  set (cfg := js "custom_user_config.json"). unfold io_bind at 1, exists_ at 1. unfold io_bind at 1. rewrite E1.
  set (ex := match fs_stat (dir ++ [cfg]) f with Some _ => true | None => false end).
  destruct (seed_file_ok dir cfg (joinPath ext USERCFG_TEMPLATE_REL) f1 tpl ex) as (f2 & E2 & _ & R2 & K2).
  - done.
  - by rewrite R1.
  - rewrite S1. unfold ex. by destruct (fs_stat (dir ++ [cfg]) f).
  - exists f2. rewrite E2. split_and!; [done| |intros q Hq; by rewrite K2, R1].
    rewrite R2, R1. unfold ex. by destruct (fs_stat (dir ++ [cfg]) f).
Qed.

End seeds.

(** ** Theorems on the change of the workspace *)

Section changing.
Context `{Hlaws : FileSystemLaws F}.
Implicit Types (f : F) (p q : uri).

(** The storage directory of the extension and the base directory that is picked *)
Context (st base : uri) (Hst0 : st <> []) (Hst : Forall name_segment st).
Context (Hbase0 : base <> []) (Hbase : Forall name_segment base).

Context (extensionUri : uri) (git : uri -> list str -> F -> bool * F).
Hypothesis git_stays : forall cwd args f, step_under (cwd ++ [js ".git"]) f (git cwd args f).2.

Abbreviation new := (base ++ [js "workspace"]).
Abbreviation storageDir := (abs_path st).

Context (Hapart : apart st new).

(** Before the configurations are moved, folders are made and [git] runs in the new workspace. *)
Definition prepared f f' : Prop :=
  forall q, ~ new ++ [js ".git"] `prefix_of` q ->
    fs_read q f' = fs_read q f /\
    (fs_stat q f' = fs_stat q f \/ ((q `prefix_of` new \/ q `prefix_of` st) /\ fs_stat q f = None /\ fs_stat q f' = Some FtDirectory)).

Lemma prepared_refl f : prepared f f.
Proof. intros q _. auto. Qed.

Lemma prepared_trans f1 f2 f3 : prepared f1 f2 -> prepared f2 f3 -> prepared f1 f3.
Proof.
  intros H12 H23 q Hq. destruct (H12 q Hq) as [R1 S1], (H23 q Hq) as [R2 S2]. split; [congruence|].
  destruct S1 as [S1 | (P & N & D)], S2 as [S2 | (P' & N' & D')]; [left; congruence|right; split_and!; congruence| |congruence].
  right. split_and!; congruence.
Qed.

Lemma prepared_clear r f f' : prepared f f' -> ~ new ++ [js ".git"] `prefix_of` r -> clear_path r f -> clear_path r f'.
Proof.
  intros Hs Hr Hc q Hq. destruct (Hs q) as [_ S]; [intros Hq'; apply Hr; by trans q|].
  destruct S as [-> | (_ & _ & ->)]; [by apply Hc|by right].
Qed.

Lemma clear_prefix p r f : p `prefix_of` r -> clear_path r f -> clear_path p f.
Proof. intros Hp Hc q Hq. apply Hc. by trans p. Qed.

Lemma git_not_in_new : ~ new ++ [js ".git"] `prefix_of` new.
Proof. by apply not_below. Qed.

Lemma git_not_in_st : ~ new ++ [js ".git"] `prefix_of` st.
Proof. intros Hp. destruct Hapart as [_ Ha]. apply Ha. by trans (new ++ [js ".git"]); [eexists|]. Qed.

(** Making one of the folders above the two directories *)
Lemma prepare_mkdir p f : p `prefix_of` new \/ p `prefix_of` st -> clear_path new f -> clear_path st f ->
  exists f', createDirectory p f = (Some (), f') /\ prepared f f' /\ clear_path new f' /\ clear_path st f'.
Proof.
  intros Hp Hn Hs. assert (Hc : clear_path p f) by (destruct Hp; by eapply clear_prefix).
  destruct (createDirectory_ok p f Hc) as (E & _ & _). exists (fs_mkdir p f).2.
  assert (Hpr : prepared f (fs_mkdir p f).2).
  { intros q _. split; [apply mkdir_read|]. destruct (mkdir_stat p f q) as [S | (P & S)]; [by left|right].
    split; [|done]. destruct Hp; [left|right]; by trans p. }
  split_and!; [done|done| |]; (eapply prepared_clear; [done| |done]); [apply git_not_in_new|apply git_not_in_st].
Qed.

Lemma resolve_info_ok w i :
  resolveWorkspaceInfo storageDir (w_storage w) = Ok i -> uri_file (wi_base i) = base -> wsUri i = new ->
  clear_path new (w_fs w) -> clear_path st (w_fs w) ->
  exists f', resolve_info storageDir w = (Some i, MkW (w_cache w) (w_expiry w) (w_storage w) f') /\
    prepared (w_fs w) f' /\ clear_path new f' /\ clear_path st f'.
Proof.
  intros Hr Hb Hw Hn Hs. destruct w as [c e s f]. cbn [w_storage w_fs w_cache w_expiry] in *.
  destruct (prepare_mkdir st f) as (f1 & E1 & P1 & N1 & S1); [by right|done|done|].
  destruct (prepare_mkdir base f1) as (f2 & E2 & P2 & N2 & S2); [left; by eexists|done|done|].
  destruct (prepare_mkdir new f2) as (f3 & E3 & P3 & N3 & S3); [by left|done|done|].
  exists f3. split_and!; [|by eapply prepared_trans; [|eapply prepared_trans]|done|done].
  unfold resolve_info, io_bind, on_fs. rewrite uri_file_abs by done. cbn [w_fs w_storage w_cache w_expiry].
  rewrite E1. cbn [w_fs w_storage w_cache w_expiry]. rewrite Hr, Hb. cbn [w_fs w_storage w_cache w_expiry].
  rewrite E2. cbn [w_fs w_storage w_cache w_expiry]. by rewrite Hw, E3.
Qed.

Lemma ensureGitInit_ok f : git_dir (abs_path base) = abs_path new -> clear_path new f -> clear_path st f ->
  exists f', ensureGitInitAsync git (abs_path base) f = (Some (), f') /\ prepared f f' /\ clear_path new f' /\ clear_path st f'.
Proof.
  intros Hg Hn Hs. unfold ensureGitInitAsync. rewrite Hg, uri_file_abs; [|by destruct base|].
  2:{ apply Forall_app. split; [done|]. constructor; [apply name_workspace|constructor]. }
  unfold io_bind, exists_. destruct (fs_stat (new ++ [js ".git"]) f); [exists f; split_and!; [done|apply prepared_refl|done|done]|].
  destruct (prepare_mkdir new f) as (f1 & E1 & P1 & N1 & S1); [by left|done|done|].
  unfold attempt. rewrite E1. unfold run_git, done_or_fail.
  assert (Hpr : prepared f1 (git new [js "init"] f1).2).
  { intros q Hq. destruct (git_stays new [js "init"] f1 q Hq) as [R [S | (P & S)]]; [by split; [|left]|].
    split; [done|]. right. split; [|done]. left. apply prefix_snoc in P as [-> | P]; [done|done]. }
  exists (git new [js "init"] f1).2. split_and!; [done|by eapply prepared_trans| |];
    (eapply prepared_clear; [exact Hpr| |done]); [apply git_not_in_new|apply git_not_in_st].
Qed.

(** The settings point to the new workspace when the configurations are moved, and until then
    only folders have been made, and [git] has run. *)
Lemma change_reaches_move fuel t1 t2 t3 w prev :
  w_cache w = Some prev -> t1 <= w_expiry w -> t2 <= w_expiry w -> config_object (w_storage w) ->
  trim (abs_path base) = abs_path base -> ascii_lower (posix_basename (abs_path base)) <> js "workspace" ->
  clear_path new (w_fs w) -> clear_path st (w_fs w) ->
  exists next s f', wsUri next = new /\ prepared (w_fs w) f' /\
    resolveWorkspaceInfo storageDir s = Ok next /\
    changeWorkspaceQuick storageDir extensionUri git fuel t1 t2 t3 (Some (abs_path base)) w =
      on_fs (move_config extensionUri fuel prev next) (MkW (Some next) (t3 + CACHE_DURATION) s f').
Proof.
  intros Hcache H1 H2 Hcfg Htrim Hname Hn Hs. destruct w as [c e s f]. cbn [w_cache w_expiry w_storage w_fs] in *. subst c.
  destruct (workspace_changed storageDir (abs_path base) s Hcfg eq_refl Htrim) as (s' & Ec & Er & _).
  unfold DIR_WORKSPACE in *. rewrite (join_workspace base Hbase0 Hbase) in *.
  set (next := MkInfo (abs_path base) (abs_path new) FromUser) in *.
  assert (Hnew : wsUri next = new).
  { apply uri_file_abs; [by destruct base|]. apply Forall_app. split; [done|]. constructor; [apply name_workspace|constructor]. }
  assert (Hb : uri_file (wi_base next) = base) by by apply uri_file_abs.
  assert (Hbc : baseForConfig (abs_path base) = abs_path base) by (unfold baseForConfig; by rewrite bool_decide_false).
  assert (Hg : git_dir (abs_path base) = abs_path new) by (unfold git_dir; rewrite bool_decide_false by done; by apply join_workspace).
  destruct (prepare_mkdir st f) as (f1 & E1 & P1 & N1 & S1); [by right|done|done|].
  destruct (resolve_info_ok (MkW (Some prev) e s' f1) next) as (f2 & E2 & P2 & N2 & S2); try done.
  cbn [w_cache w_expiry w_storage w_fs] in *.
  destruct (ensureGitInit_ok f2 Hg N2 S2) as (f3 & E3 & P3 & N3 & S3).
  destruct (resolve_info_ok (MkW None e s' f3) next) as (f4 & E4 & P4 & N4 & S4); try done.
  cbn [w_cache w_expiry w_storage w_fs] in *.
  exists next, s', f4. split_and!; [done|by do 3 (eapply prepared_trans; [eassumption|])|done|].
  unfold changeWorkspaceQuick, io_bind at 1. unfold getCachedWorkspaceInfo at 1. cbn [w_cache w_expiry].
  rewrite (proj2 (Z.ltb_ge e t1)) by lia. unfold io_bind at 1. unfold getCachedWorkspaceInfo at 1. cbn [w_cache w_expiry].
  rewrite (proj2 (Z.ltb_ge e t2)) by lia. rewrite Hbc. unfold io_bind at 1, attempt, change_base. cbn [w_storage].
  rewrite Ec. unfold io_bind at 1, on_fs at 1. rewrite uri_file_abs by done. cbn [w_fs w_cache w_expiry w_storage]. rewrite E1.
  unfold io_bind at 1. cbn [w_fs w_cache w_expiry w_storage]. unfold io_bind at 1. rewrite E2. cbn [io_ret].
  unfold io_ret. unfold io_bind at 1, on_fs at 1. cbn [w_fs w_cache w_expiry w_storage]. rewrite E3.
  unfold io_bind at 1. cbn [w_fs w_cache w_expiry w_storage]. unfold io_bind at 1, getCachedWorkspaceInfo. cbn [w_cache].
  unfold io_bind. rewrite E4. done.
Qed.

(** C20: Choosing a new workspace loses the rules of the parser: the first migration creates the
    configuration directory, so the second one copies nothing and removes the old directory.
    The configuration of the user arrives; the rules are neither in the new nor in the old
    workspace. *)
Theorem workspace_change_loses_rules fuel t1 t2 t3 w prev u :
  w_cache w = Some prev -> t1 <= w_expiry w -> t2 <= w_expiry w -> config_object (w_storage w) ->
  trim (abs_path base) = abs_path base -> ascii_lower (posix_basename (abs_path base)) <> js "workspace" ->
  let f := w_fs w in
  let old := wsUri prev in
  clear_path (new ++ [CONFIG_DIR]) f -> clear_path st f -> apart (old ++ [CONFIG_DIR]) new ->
  fs_stat (old ++ [CONFIG_DIR]) f = Some FtDirectory -> fs_read (joinPath old USERCFG_REL) f = Some u ->
  is_Some (fs_read (joinPath old PARSER_CONFIG_REL) f) ->
  fs_stat (joinPath new USERCFG_REL) f = None -> fs_read (joinPath new PARSER_CONFIG_REL) f = None ->
  exists w', changeWorkspaceQuick storageDir extensionUri git fuel t1 t2 t3 (Some (abs_path base)) w = (Some (), w') /\
    fs_read (joinPath new USERCFG_REL) (w_fs w') = Some u /\
    fs_read (joinPath new PARSER_CONFIG_REL) (w_fs w') = None /\
    fs_read (joinPath old PARSER_CONFIG_REL) (w_fs w') = None.
Proof.
  intros Hcache H1 H2 Hcfg Htrim Hname f old Hc Hs Ha Ho Hu _ Hn Hp.
  assert (Hcn : clear_path new f) by (eapply clear_prefix; [|exact Hc]; by eexists).
  destruct (change_reaches_move fuel t1 t2 t3 w prev Hcache H1 H2 Hcfg Htrim Hname Hcn Hs) as (next & s & f' & Hw & Hpr & _ & E).
  fold f in Hpr.
  assert (Hcfgn : forall x, ~ new ++ [js ".git"] `prefix_of` (new ++ [CONFIG_DIR]) ++ x).
  { intros x Hpre. rewrite <- (app_assoc new) in Hpre. by apply prefix_app_inv, prefix_cons_inv_1 in Hpre. }
  assert (Hold : forall x, ~ new ++ [js ".git"] `prefix_of` (old ++ [CONFIG_DIR]) ++ x).
  { intros x Hpre. apply (apart_below _ _ x Ha). by trans (new ++ [js ".git"]); [eexists|]. }
  destruct (move_config_loses extensionUri fuel prev next f' u) as (f2 & E2 & Ru & Rp & Rold); rewrite ?Hw.
  - eapply prepared_clear; [exact Hpr| |exact Hc]. specialize (Hcfgn []). by rewrite app_nil_r in Hcfgn.
  - done.
  - specialize (Hold []). rewrite app_nil_r in Hold. destruct (Hpr _ Hold) as [_ [S | (_ & S & _)]]; fold old; congruence.
  - fold old. rewrite usercfg_path in *. by destruct (Hpr _ (Hold [js "custom_user_config.json"])) as [-> _].
  - rewrite usercfg_path in *. destruct (Hpr _ (Hcfgn [js "custom_user_config.json"])) as [_ [S | ([P | P] & _)]]; [congruence| |].
    + exfalso. rewrite <- (app_assoc new) in P. by apply not_below in P.
    + exfalso. destruct Hapart as [_ Ha']. apply Ha'. rewrite <- (app_assoc new) in P. by trans (new ++ [CONFIG_DIR] ++ [js "custom_user_config.json"]); [eexists|].
  - rewrite parser_path in *. by destruct (Hpr _ (Hcfgn [js "custom_log_parser.json"])) as [-> _].
  - rewrite Hw in Ru, Rp. exists (MkW (Some next) (t3 + CACHE_DURATION) s f2). rewrite E. unfold on_fs. cbn [w_fs w_cache w_expiry w_storage].
    rewrite E2. split_and!; [done|done|done|]. rewrite parser_path, <- app_assoc. apply Rold.
Qed.

End changing.

Definition demo_files : memory :=
  {[ [js "st"] := CFolder; [js "st"; js "workspace"] := CFolder; [js "st"; js "workspace"; js ".config"] := CFolder;
     [js "st"; js "workspace"; js ".config"; js "custom_user_config.json"] := CFile (js "mine");
     [js "st"; js "workspace"; js ".config"; js "custom_log_parser.json"] := CFile (js "rules") ]}.

Definition demo_prev : WorkspaceInfo := MkInfo (js "/st") (js "/st/workspace") FromDefault.

Definition demo_w : wstate memory := MkW (Some demo_prev) 100 (MkStorage None None) demo_files.

Ltac clear_path_tac :=
  let q := fresh in let Hq := fresh in
  intros q Hq; apply elem_of_inits in Hq; vm_compute in Hq;
  repeat (apply elem_of_cons in Hq as [-> | Hq]; [first [by left | by right]|]); by apply not_elem_of_nil in Hq.

Ltac apart_tac := split; intros [? [=]].

Lemma workspace_change_loses_rules_witness :
  exists w', changeWorkspaceQuick (abs_path [js "st"]) [js "ext"] (fun _ _ f => (true, f)) 5 0 0 0 (Some (abs_path [js "data"])) demo_w = (Some (), w') /\
    fs_read (joinPath ([js "data"] ++ [js "workspace"]) USERCFG_REL) (w_fs w') = Some (js "mine") /\
    fs_read (joinPath ([js "data"] ++ [js "workspace"]) PARSER_CONFIG_REL) (w_fs w') = None /\
    fs_read (joinPath (wsUri demo_prev) PARSER_CONFIG_REL) (w_fs w') = None.
Proof.
  apply (workspace_change_loses_rules [js "st"] [js "data"]); try done.
  - repeat constructor; done.
  - repeat constructor; done.
  - intros cwd args f. apply step_refl.
  - apart_tac.
  - by eexists.
  - clear_path_tac.
  - clear_path_tac.
  - apart_tac.
Defined.

Lemma mem_stat_listed (q : uri) (m : memory) : mem_stat q m <> None -> q ∈ map fst (map_to_list m).
Proof.
  unfold mem_stat. destruct (m !! q) as [c|] eqn:E; [|done]. intros _. apply list_elem_of_fmap.
  exists (q, c). split; [done|]. by apply elem_of_map_to_list.
Qed.

Ltac listed_tac Hq :=
  apply mem_stat_listed in Hq; vm_compute in Hq;
  repeat (apply elem_of_cons in Hq as [Hq | Hq]; [|]); [..|by apply not_elem_of_nil in Hq].

Lemma demo_below x : fs_stat ([js "st"; js "workspace"; js ".config"] ++ x) demo_files <> None ->
  x ∈ [[]; [js "custom_user_config.json"]; [js "custom_log_parser.json"]].
Proof.
  intros Hq. listed_tac Hq; cbn [app] in Hq; try discriminate Hq; injection Hq as ->; repeat first [by left | right].
Qed.


Definition demo_ext : memory :=
  <[joinPath [js "ext"] PARSER_TEMPLATE_REL := CFile (js "template")]>
    (<[joinPath [js "ext"] PARSER_README_TEMPLATE_REL := CFile (js "manual")]>
      (<[joinPath [js "ext"] USERCFG_TEMPLATE_REL := CFile (js "usertemplate")]> demo_files)).

Lemma parser_seeded_witness :
  exists f', ensureParserConfigExists [js "ext"] [js "st"; js "workspace"] demo_ext = (Some (), f') /\
    fs_read (joinPath [js "st"; js "workspace"] PARSER_CONFIG_REL) f' = kept_or (joinPath [js "st"; js "workspace"] PARSER_CONFIG_REL) demo_ext (js "template") /\
    fs_read (joinPath [js "st"; js "workspace"] PARSER_README_REL) f' = kept_or (joinPath [js "st"; js "workspace"] PARSER_README_REL) demo_ext (js "manual") /\
    forall q, q <> joinPath [js "st"; js "workspace"] PARSER_CONFIG_REL -> q <> joinPath [js "st"; js "workspace"] PARSER_README_REL ->
      fs_read q f' = fs_read q demo_ext.
Proof. apply (parser_seeded [js "ext"] [js "st"; js "workspace"] demo_ext); [clear_path_tac|done|done]. Defined.

Lemma user_seeded_witness :
  exists f', ensureUserConfigExists [js "ext"] [js "data"] demo_ext = (Some (), f') /\
    fs_read (joinPath [js "data"] USERCFG_REL) f' = kept_or (joinPath [js "data"] USERCFG_REL) demo_ext (js "usertemplate") /\
    forall q, q <> joinPath [js "data"] USERCFG_REL -> fs_read q f' = fs_read q demo_ext.
Proof. apply (user_seeded [js "ext"] [js "data"] demo_ext); [clear_path_tac|done]. Defined.

(** Changing the workspace and activating the extension again: the rules of the user have become
    the template. *)
Example rules_become_template :
  let run := changeWorkspaceQuick (js "/st") [js "ext"] (fun _ _ f => (true, f)) 5 0 0 0 (Some (js "/data"))
               (MkW (Some demo_prev) 100 (MkStorage None None) demo_ext) in
  let again := activate_workspace (js "/st") [js "ext"] run.2 in
  fs_read (joinPath [js "st"; js "workspace"] PARSER_CONFIG_REL) demo_ext = Some (js "rules") /\
  again.1 = Some () /\
  fs_read (joinPath [js "data"; js "workspace"] PARSER_CONFIG_REL) (w_fs again.2) = Some (js "template") /\
  fs_read (joinPath [js "data"; js "workspace"] USERCFG_REL) (w_fs again.2) = Some (js "mine") /\
  fs_read (joinPath [js "st"; js "workspace"] PARSER_CONFIG_REL) (w_fs again.2) = None.
Proof. by vm_compute. Qed.

(** Initialising the workspace overwrites the rules and keeps the configuration of the user and
    an existing ignore file. *)
Example init_overwrites_rules :
  let f := <[[js "st"; js "workspace"; js ".gitignore"] := CFile (js "raw")]> demo_ext in
  let run := initWorkspace (js "/st") [js "ext"] (fun _ _ f => (true, f)) (MkW None 0 (MkStorage None None) f) in
  run.1 = Some () /\
  fs_read (joinPath [js "st"; js "workspace"] PARSER_CONFIG_REL) (w_fs run.2) = Some (js "template") /\
  fs_read (joinPath [js "st"; js "workspace"] USERCFG_REL) (w_fs run.2) = Some (js "mine") /\
  fs_read [js "st"; js "workspace"; js ".gitignore"] (w_fs run.2) = Some (js "raw").
Proof. by vm_compute. Qed.
