(* ===== verification/PanelHost.v ===== *)
(** * PanelHost

    The side of the edge panel that runs in the extension: the logger with its sinks
    (src/core/logging/extension-logger.ts), the provider that keeps the ring of log lines and
    serves the view (src/extension/panels/extensionPanel.ts), the buttons
    (src/extension/commands/edgepanel.buttons.ts), their router
    (src/extension/panels/EdgePanelActionRouter.ts) and the table of commands
    (src/extension/commands/commandHandlers.ts). *)

From stdpp Require Import base list strings.
From Stdlib Require Import ZArith Lia.
From S2P Require Import Prelude JsString EdgePanel.

(** ** Logger *)

Definition LOG_MAX_BUFFER : nat := 500.

Inductive LogLevel := LvDebug | LvInfo | LvWarn | LvError.

Definition LEVEL_ORDER (l : LogLevel) : Z :=
  match l with LvDebug => 10 | LvInfo => 20 | LvWarn => 30 | LvError => 40 end.

Definition shortLevel (l : LogLevel) : str :=
  match l with LvDebug => js "D" | LvInfo => js "I" | LvWarn => js "W" | LvError => js "E" end.

(** An argument of a log call: an [Error], an object with what [JSON.stringify] and [String] make
    of it, any other value as [String] prints it *)
Inductive log_arg := ArgError (stack message : str) | ArgObject (json : option str) (text : str) | ArgOther (text : str).

Definition arg_text (a : log_arg) : str :=
  match a with
  | ArgError stack message => if nonempty stack then stack else message
  | ArgObject json text => or_else json text
  | ArgOther text => text
  end.

Definition log_text (ts : str) (level : LogLevel) (scope : str) (args : list log_arg) : str :=
  js "[" ++ ts ++ js "] [" ++ shortLevel level ++ js "] [" ++ scope ++ js "] " ++ join (js " ") (map arg_text args).

(** [lg_sinks] is the set of the sinks in the order of their insertion, a sink being a number;
    [lg_channel] is what the output channel has been given. *)
Record logger := MkLogger {
  lg_level : LogLevel;
  lg_channel : list str;
  lg_sinks : list nat;
  lg_buffer : list str;
  lg_pending : list str;
  lg_timer : bool }.

Definition lg_init : logger := MkLogger LvDebug [] [] [] [] false.

(** [a.splice(0, a.length - n)] when [a] is longer *)
Definition keep_last {A} (n : nat) (l : list A) : list A := drop (length l - n) l.

(** The calls of the sinks, in order *)
Abbreviation calls := (list (nat * str)).

Definition setLevel (l : LogLevel) (g : logger) : logger :=
  MkLogger l (lg_channel g) (lg_sinks g) (lg_buffer g) (lg_pending g) (lg_timer g).

Definition addSink (k : nat) (g : logger) : logger * calls :=
  (MkLogger (lg_level g) (lg_channel g) (if bool_decide (k ∈ lg_sinks g) then lg_sinks g else lg_sinks g ++ [k])
            (lg_buffer g) (lg_pending g) (lg_timer g),
   map (pair k) (drop (length (lg_buffer g) - LOG_MAX_BUFFER) (lg_buffer g))).

Definition removeSink (k : nat) (g : logger) : logger :=
  MkLogger (lg_level g) (lg_channel g) (List.filter (fun k' => negb (Nat.eqb k' k)) (lg_sinks g)) (lg_buffer g) (lg_pending g) (lg_timer g).

Definition emit (level : LogLevel) (line : str) (g : logger) : logger :=
  if LEVEL_ORDER level <? LEVEL_ORDER (lg_level g) then g
  else
    let sinks := nonempty (lg_sinks g) in
    MkLogger (lg_level g) (lg_channel g ++ [line]) (lg_sinks g) (keep_last LOG_MAX_BUFFER (lg_buffer g ++ [line]))
             (if sinks then lg_pending g ++ [line] else lg_pending g)
             (if sinks then true else lg_timer g).

(** The callback of the timer that [scheduleFlush] starts *)
Definition flush_sinks (g : logger) : logger * calls :=
  (MkLogger (lg_level g) (lg_channel g) (lg_sinks g) (lg_buffer g) [] false,
   flat_map (fun k => map (pair k) (lg_pending g)) (lg_sinks g)).

Inductive log_op := LgLevel (l : LogLevel) | LgAdd (k : nat) | LgRemove (k : nat) | LgEmit (l : LogLevel) (line : str) | LgFlush.

Definition log_step (g : logger) (e : log_op) : logger * calls :=
  match e with
  | LgLevel l => (setLevel l g, [])
  | LgAdd k => addSink k g
  | LgRemove k => (removeSink k g, [])
  | LgEmit l line => (emit l line g, [])
  | LgFlush => if lg_timer g then flush_sinks g else (g, [])
  end.

Fixpoint log_run (g : logger) (es : list log_op) : logger * calls :=
  match es with
  | [] => (g, [])
  | e :: es' => let '(g1, c1) := log_step g e in let '(g2, c2) := log_run g1 es' in (g2, c1 ++ c2)
  end.

Definition LOG_IGNORE_KEYWORDS : list str :=
  [js "copilot-chat"; js "copilot"; js "undici"; js "typescript-language-features"].

(** A call of a patched [console] method: what is logged, if anything *)
Definition console_line (args : list str) : option (list log_arg) :=
  if existsb (includes (join (js " ") args)) LOG_IGNORE_KEYWORDS then None else Some (map ArgOther args).

(** ** Provider *)

(** What a view is sent *)
Inductive panel_post :=
  | PostAppend (text : str)
  | PostInit (logs : list str)
  | PostUpdateVisible (visible : bool)
  | PostCleared
  | PostCopied (text : str) (lines : nat)
  | PostClearSelection.

(** Views are numbered; so is the sink of a view.  The closure of the sink ([pending], its
    timer and the view it sends to) is [pv_batch], [pv_batch_timer] and [pv_batch_view]. *)
Record provider := MkProvider {
  pv_log : logger;
  pv_view : option nat;
  pv_ring : list str;
  pv_sink : option nat;
  pv_sinkBound : bool;
  pv_tracked : list nat;          (* the sinks that the tracked disposables remove *)
  pv_batch : list str;
  pv_batch_timer : bool;
  pv_batch_view : nat;
  pv_lastInit : Z;
  pv_update : bool }.

Definition pv_init (g : logger) (update : bool) : provider := MkProvider g None [] None false [] [] false 0 0 update.

Abbreviation posts := (list (nat * panel_post)).

(** The sink *)
Definition sink (line : str) (p : provider) : provider :=
  MkProvider (pv_log p) (pv_view p) (keep_last DEBUG_LOG_MEMORY_MAX (pv_ring p ++ [line])) (pv_sink p) (pv_sinkBound p)
             (pv_tracked p) (pv_batch p ++ [line]) true (pv_batch_view p) (pv_lastInit p) (pv_update p).

Definition with_log (g : logger) (p : provider) : provider :=
  MkProvider g (pv_view p) (pv_ring p) (pv_sink p) (pv_sinkBound p) (pv_tracked p) (pv_batch p) (pv_batch_timer p)
             (pv_batch_view p) (pv_lastInit p) (pv_update p).

(** The calls of the logger that reach the sink of the provider *)
Definition deliver (cs : calls) (p : provider) : provider :=
  fold_left (fun p c => if pv_sinkBound p && Nat.eqb c.1 (pv_batch_view p) then sink c.2 p else p) cs p.

(** [resolveWebviewView] for view [v], the HTML being there *)
Definition resolveWebviewView (v : nat) (p : provider) : provider :=
  let p1 := MkProvider (pv_log p) (Some v) (pv_ring p) (pv_sink p) (pv_sinkBound p) (pv_tracked p) (pv_batch p)
                       (pv_batch_timer p) (pv_batch_view p) 0 (pv_update p) in
  if pv_sinkBound p then p1
  else
    let '(g, cs) := addSink v (pv_log p) in
    deliver cs (MkProvider g (Some v) (pv_ring p) (Some v) true (v :: pv_tracked p) [] false v 0 (pv_update p)).

(** The handler of [onDidDispose]: the tracked disposables run, then the sink is removed. *)
Definition panel_dispose (p : provider) : provider :=
  let g := fold_left (fun g k => removeSink k g) (pv_tracked p) (pv_log p) in
  let g' := match pv_sink p with Some k => removeSink k g | None => g end in
  MkProvider g' None (pv_ring p) None (pv_sinkBound p) [] (pv_batch p) (pv_batch_timer p) (pv_batch_view p) (pv_lastInit p) (pv_update p).

(** The callback of the timer of 50 ms *)
Definition flush_batch (p : provider) : provider * posts :=
  (MkProvider (pv_log p) (pv_view p) (pv_ring p) (pv_sink p) (pv_sinkBound p) (pv_tracked p) [] false
              (pv_batch_view p) (pv_lastInit p) (pv_update p),
   map (fun ln => (pv_batch_view p, PostAppend ln)) (pv_batch p)).

(** The guard and the messages of [sendInitIfNotRecent]; the buttons are separate. *)
Definition sendInitIfNotRecent (v : nat) (now : Z) (p : provider) : provider * posts :=
  if now - pv_lastInit p <? 300 then (p, [])
  else (MkProvider (pv_log p) (pv_view p) (pv_ring p) (pv_sink p) (pv_sinkBound p) (pv_tracked p) (pv_batch p)
                   (pv_batch_timer p) (pv_batch_view p) now (pv_update p),
        [(v, PostInit (keep_last DEBUG_LOG_MEMORY_MAX (pv_ring p))); (v, PostUpdateVisible (pv_update p))]).

Definition clear_ring (p : provider) : provider :=
  MkProvider (pv_log p) (pv_view p) [] (pv_sink p) (pv_sinkBound p) (pv_tracked p) (pv_batch p) (pv_batch_timer p)
             (pv_batch_view p) (pv_lastInit p) (pv_update p).

Inductive panel_op :=
  | PoResolve (v : nat)
  | PoDispose
  | PoLog (e : log_op)             (* the rest of the extension logs, or the logger's timer fires *)
  | PoBatch                        (* the timer of the sink fires *)
  | PoReady (now : Z)              (* ui.ready *)
  | PoVisible (now : Z) (visible : bool)
  | PoClear                        (* debuglog.clear *)
  | PoCopy                         (* debuglog.copy *)
  | PoEditor.                      (* the active editor or terminal changes, or the window loses the focus *)

(** Messages and view events come from the view that is open. *)
Definition panel_step (p : provider) (e : panel_op) : provider * posts :=
  match e, pv_view p with
  | PoResolve v, _ => (resolveWebviewView v p, [])
  | PoDispose, Some _ => (panel_dispose p, [])
  | PoLog e, _ => let '(g, cs) := log_step (pv_log p) e in (deliver cs (with_log g p), [])
  | PoBatch, _ => if pv_batch_timer p then flush_batch p else (p, [])
  | PoReady now, Some v => sendInitIfNotRecent v now p
  | PoVisible now visible, Some v => if visible then sendInitIfNotRecent v now p else (p, [(v, PostClearSelection)])
  | PoClear, Some v => (clear_ring p, [(v, PostCleared)])
  | PoCopy, Some v => (p, [(v, PostCopied (join [10] (pv_ring p)) (length (pv_ring p)))])
  | PoEditor, Some v => (p, [(v, PostClearSelection)])
  | _, None => (p, [])
  end.

Fixpoint panel_run (p : provider) (es : list panel_op) : provider * posts :=
  match es with
  | [] => (p, [])
  | e :: es' => let '(p1, o1) := panel_step p e in let '(p2, o2) := panel_run p1 es' in (p2, o1 ++ o2)
  end.

(** ** Buttons *)

(** The labels of [UI_STR] *)
Inductive label :=
  | BTN_PANEL_TOGGLE_EXPLORER | BTN_PANEL_TOGGLE_LOGS | BTN_UPDATE_NOW | BTN_CONNECT_DEVICE | BTN_OPEN_HOST_SHELL
  | BTN_GIT_FLOW | BTN_LOGGING_LIVE | BTN_LOGGING_FILE | BTN_HOMEY_RESTART | BTN_VOLUME_MOUNT | BTN_VOLUME_UNMOUNT
  | BTN_APPLOG_ENABLE | BTN_APPLOG_DISABLE | BTN_DEVTOKEN_ENABLE | BTN_DEVTOKEN_DISABLE | BTN_WORKSPACE_CHANGE
  | BTN_OPEN_WORKSPACE | BTN_OPEN_WORKSPACE_SHELL | BTN_INIT_WORKSPACE | BTN_PERF_MONITOR | BTN_RELOAD_VSCODE | BTN_HELP.

Inductive mount_state := Mounted | Unmounted | UnknownMount.

Record ButtonContext := MkBtnCtx {
  bc_updateAvailable : bool;
  bc_updateUrl : option str;
  bc_busyLock : bool;
  bc_isConnected : bool;
  bc_mountState : mount_state;
  bc_appLogEnabled : bool;
  bc_devTokenEnabled : bool }.

Inductive ButtonOp := OpVscode (command : str) | OpPost (event : str) | OpHandler (name : str).

(** [bt_when] is [None] where the field is missing. *)
Record ButtonDef := MkButton {
  bt_id : str;
  bt_label : label;
  bt_op : ButtonOp;
  bt_when : option (ButtonContext -> bool) }.

Record SectionDef := MkSection { sc_id : str; sc_items : list ButtonDef }.

Definition BUSY_LOCK_BUTTON_IDS : list str := [js "cmd.volumeToggle"; js "cmd.appLogToggle"; js "cmd.devTokenToggle"].

Definition DEVICE_BUTTON_IDS : list str :=
  [js "cmd.openHostShell"; js "cmd.gitFlow"; js "cmd.homeyLoggingLive"; js "cmd.homeyRestart"; js "cmd.volumeToggle";
   js "cmd.appLogToggle"; js "cmd.devTokenToggle"].

Definition truthy_url (o : option str) : bool := match o with Some u => nonempty u | None => false end.

Definition handler_button (id : str) (l : label) (name : str) : ButtonDef := MkButton id l (OpHandler name) None.

Definition getSections : list SectionDef :=
  [ MkSection (js "panel")
      [ MkButton (js "panel.toggleExplorer") BTN_PANEL_TOGGLE_EXPLORER (OpPost (js "ui.toggleExplorer")) None;
        MkButton (js "panel.toggleLogs") BTN_PANEL_TOGGLE_LOGS (OpPost (js "ui.toggleLogs")) None;
        MkButton (js "panel.updateNow") BTN_UPDATE_NOW (OpHandler (js "updateNow"))
                 (Some (fun ctx => bc_updateAvailable ctx && truthy_url (bc_updateUrl ctx))) ];
    MkSection (js "device")
      [ handler_button (js "cmd.connectDevice") BTN_CONNECT_DEVICE (js "connectDevice");
        handler_button (js "cmd.openHostShell") BTN_OPEN_HOST_SHELL (js "openHostShell");
        handler_button (js "cmd.gitFlow") BTN_GIT_FLOW (js "gitFlow");
        handler_button (js "cmd.homeyLoggingLive") BTN_LOGGING_LIVE (js "homeyLoggingLive");
        handler_button (js "cmd.homeyLoggingFile") BTN_LOGGING_FILE (js "homeyLoggingFile");
        handler_button (js "cmd.homeyRestart") BTN_HOMEY_RESTART (js "homeyRestart");
        handler_button (js "cmd.volumeToggle") BTN_VOLUME_MOUNT (js "homeyVolumeToggle");
        handler_button (js "cmd.appLogToggle") BTN_APPLOG_ENABLE (js "homeyAppLogToggle");
        handler_button (js "cmd.devTokenToggle") BTN_DEVTOKEN_ENABLE (js "homeyDevTokenToggle") ];
    MkSection (js "workspace")
      [ handler_button (js "cmd.changeWorkspace") BTN_WORKSPACE_CHANGE (js "changeWorkspaceQuick");
        handler_button (js "cmd.openWorkspace") BTN_OPEN_WORKSPACE (js "openWorkspace");
        handler_button (js "cmd.openWorkspaceShell") BTN_OPEN_WORKSPACE_SHELL (js "openWorkspaceShell");
        handler_button (js "cmd.initWorkspace") BTN_INIT_WORKSPACE (js "initWorkspace") ];
    MkSection (js "help")
      [ handler_button (js "cmd.performanceMonitor") BTN_PERF_MONITOR (js "togglePerformanceMonitoring");
        MkButton (js "panel.reload") BTN_RELOAD_VSCODE (OpVscode (js "workbench.action.reloadWindow")) None;
        handler_button (js "cmd.help") BTN_HELP (js "openHelp") ] ].

Record ItemDTO := MkItem { it_id : str; it_label : label; it_disabled : bool }.

Definition mem_id (id : str) (ids : list str) : bool := existsb (fun x => bool_decide (x = id)) ids.

Definition item_disabled (ctx : ButtonContext) (id : str) : bool :=
  if mem_id id BUSY_LOCK_BUTTON_IDS && bc_busyLock ctx then true
  else negb (bc_isConnected ctx) && mem_id id DEVICE_BUTTON_IDS.

Definition shown (ctx : ButtonContext) (b : ButtonDef) : bool := match bt_when b with None => true | Some w => w ctx end.

Definition toSectionDTO (sections : list SectionDef) (ctx : ButtonContext) : list (str * list ItemDTO) :=
  List.filter (fun s => nonempty s.2)
    (map (fun sec => (sc_id sec,
            map (fun b => MkItem (bt_id b) (bt_label b) (item_disabled ctx (bt_id b))) (List.filter (shown ctx) (sc_items sec))))
         sections).

Fixpoint findButtonById (sections : list SectionDef) (id : str) : option ButtonDef :=
  match sections with
  | [] => None
  | s :: rest => match find (fun b => bool_decide (bt_id b = id)) (sc_items s) with
                 | Some b => Some b
                 | None => findButtonById rest id
                 end
  end.

(** The labels that [sendButtonSections] replaces *)
Definition dynamic_label (ctx : ButtonContext) (b : ButtonDef) : ButtonDef :=
  let relabel l := MkButton (bt_id b) l (bt_op b) (bt_when b) in
  if bool_decide (bt_id b = js "cmd.volumeToggle") then
    relabel (match bc_mountState ctx with Mounted => BTN_VOLUME_UNMOUNT | _ => BTN_VOLUME_MOUNT end)
  else if bool_decide (bt_id b = js "cmd.appLogToggle") then
    relabel (if bc_appLogEnabled ctx then BTN_APPLOG_DISABLE else BTN_APPLOG_ENABLE)
  else if bool_decide (bt_id b = js "cmd.devTokenToggle") then
    relabel (if bc_devTokenEnabled ctx then BTN_DEVTOKEN_DISABLE else BTN_DEVTOKEN_ENABLE)
  else b.

(** [sendButtonSections] with the answers of its look-ups; [None]: the look-up failed. *)
Definition sendButtonSections (updateAvailable : bool) (updateUrl : option str) (busyLock isConnected : bool)
    (mount : option mount_state) (appLog devToken : option bool) : list (str * list ItemDTO) :=
  let ctx := MkBtnCtx updateAvailable updateUrl busyLock isConnected (or_else mount UnknownMount)
               (isConnected && or_else appLog false) (isConnected && or_else devToken false) in
  toSectionDTO (map (fun sec => MkSection (sc_id sec) (map (dynamic_label ctx) (sc_items sec))) getSections) ctx.

(** ** Commands *)

Inductive command :=
  | CHelp | CStartRealtime | CStartFileMerge | CHomeyRestart | CVolumeToggle | CAppLogToggle | CDevTokenToggle
  | COpenHostShell | CChangeWorkspaceQuick | COpenWorkspace | COpenWorkspaceShell | CTogglePerf | CGitFlow
  | CUpdateNow | COpenHelp | CInitWorkspace | CConnectDevice.

Definition ROUTES : list (str * command) :=
  [ (js "help", CHelp); (js "h", CHelp); (js "homeyLoggingLive", CStartRealtime); (js "homeyLoggingFile", CStartFileMerge);
    (js "homeyRestart", CHomeyRestart); (js "homeyVolumeToggle", CVolumeToggle); (js "homeyAppLogToggle", CAppLogToggle);
    (js "homeyDevTokenToggle", CDevTokenToggle); (js "openHostShell", COpenHostShell);
    (js "changeWorkspaceQuick", CChangeWorkspaceQuick); (js "openWorkspace", COpenWorkspace);
    (js "openWorkspaceShell", COpenWorkspaceShell); (js "togglePerformanceMonitoring", CTogglePerf); (js "gitFlow", CGitFlow);
    (js "updateNow", CUpdateNow); (js "openHelp", COpenHelp); (js "initWorkspace", CInitWorkspace);
    (js "connectDevice", CConnectDevice) ].

(** [None]: unknown, only logged *)
Definition route (raw : str) : option command :=
  match find (fun r => bool_decide (r.1 = trim raw)) ROUTES with Some r => Some r.2 | None => None end.

(** ** Router *)

(** The clicks whose command has not ended, each with a number *)
Record router := MkRouter { rt_busy : bool; rt_running : list (nat * str); rt_next : nat }.

Definition rt_init : router := MkRouter false [] 0.

Inductive router_msg := MsgLock | MsgUnlock | MsgSections | MsgInvoke (op : ButtonOp).

Definition setBusyLock (on : bool) (r : router) : router * list router_msg :=
  if Bool.eqb (rt_busy r) on then (r, [])
  else (MkRouter on (rt_running r) (rt_next r), [MsgSections; if on then MsgLock else MsgUnlock]).

(** [dispatchButton] up to the call of [invoke], whose promise is pending then *)
Definition dispatchButton (id : str) (r : router) : router * list router_msg :=
  match findButtonById getSections id with
  | None => (r, [])
  | Some btn =>
      let isLockTarget := mem_id id BUSY_LOCK_BUTTON_IDS in
      if isLockTarget && rt_busy r then (r, [])
      else
        let '(r1, ms) := if isLockTarget then setBusyLock true r else (r, []) in
        (MkRouter (rt_busy r1) (rt_running r1 ++ [(rt_next r1, id)]) (S (rt_next r1)), ms ++ [MsgInvoke (bt_op btn)])
  end.

(** The [finally] of the click with number [i], after [invoke] ended or threw *)
Definition dispatch_ends (i : nat) (r : router) : router * list router_msg :=
  match find (fun c => Nat.eqb c.1 i) (rt_running r) with
  | None => (r, [])
  | Some c =>
      let r1 := MkRouter (rt_busy r) (List.filter (fun c => negb (Nat.eqb c.1 i)) (rt_running r)) (rt_next r) in
      let '(r2, ms) := if mem_id c.2 BUSY_LOCK_BUTTON_IDS then setBusyLock false r1 else (r1, []) in
      (r2, ms ++ [MsgSections])
  end.

Inductive router_op := RoClick (id : str) | RoEnds (i : nat).

Definition router_step (r : router) (e : router_op) : router * list router_msg :=
  match e with RoClick id => dispatchButton id r | RoEnds i => dispatch_ends i r end.

Fixpoint router_run (r : router) (es : list router_op) : router * list router_msg :=
  match es with
  | [] => (r, [])
  | e :: es' => let '(r1, m1) := router_step r e in let '(r2, m2) := router_run r1 es' in (r2, m1 ++ m2)
  end.

(** ** Lemmas on the logger *)

Lemma keep_last_app {A} n (l t : list A) : keep_last n (keep_last n l ++ t) = keep_last n (l ++ t).
Proof.
  unfold keep_last. rewrite !length_app, length_drop. destruct (le_lt_dec (length l) n) as [Hl|Hl].
  - replace (length l - n)%nat with 0%nat by lia. rewrite drop_0. f_equal. lia.
  - rewrite <- (drop_app_le l t (length l - n)) by lia. rewrite drop_drop. f_equal. lia.
Qed.

Lemma keep_last_short {A} n (l : list A) : (length l <= n)%nat -> keep_last n l = l.
Proof. intros Hl. unfold keep_last. replace (length l - n)%nat with 0%nat by lia. done. Qed.

Lemma keep_last_length {A} n (l : list A) : (length (keep_last n l) <= n)%nat.
Proof. unfold keep_last. rewrite length_drop. lia. Qed.

(** What the sink [k] is called with *)
Definition got (k : nat) (cs : calls) : list str := map snd (List.filter (fun c => Nat.eqb c.1 k) cs).

Lemma got_app k a b : got k (a ++ b) = got k a ++ got k b.
Proof. unfold got. by rewrite List.filter_app, map_app. Qed.

Lemma got_pairs k k' ls : got k (map (pair k') ls) = if Nat.eqb k' k then ls else [].
Proof.
  unfold got. induction ls as [|l ls IH]; [by destruct (Nat.eqb k' k)|]. cbn [map List.filter fst].
  destruct (Nat.eqb k' k); cbn [map snd]; by rewrite IH.
Qed.

(** The lines that pass the level in force *)
Fixpoint lines_of (lvl : LogLevel) (es : list log_op) : list str :=
  match es with
  | [] => []
  | LgLevel l :: es' => lines_of l es'
  | LgEmit l line :: es' => (if LEVEL_ORDER l <? LEVEL_ORDER lvl then [] else [line]) ++ lines_of lvl es'
  | _ :: es' => lines_of lvl es'
  end.

Definition not_add (e : log_op) : Prop := match e with LgAdd _ => False | _ => True end.
Definition untouched (k : nat) (e : log_op) : Prop := match e with LgAdd k' | LgRemove k' => k' <> k | _ => True end.

Record lg_ok (k : nat) (g : logger) : Prop := {
  lo_sinks : NoDup (lg_sinks g);
  lo_in : k ∈ lg_sinks g;
  lo_timer : lg_timer g = false -> lg_pending g = [] }.

Lemma got_flush k g : lg_ok k g -> got k (flush_sinks g).2 = lg_pending g.
Proof.
  intros [Hn Hin _]. cbn [flush_sinks snd]. induction (lg_sinks g) as [|k' ks IH]; [by apply not_elem_of_nil in Hin|].
  cbn [flat_map]. rewrite got_app, got_pairs. apply NoDup_cons in Hn as [Hk Hn].
  apply elem_of_cons in Hin as [-> | Hin].
  - rewrite Nat.eqb_refl. rewrite <- (app_nil_r (lg_pending g)) at 2. f_equal.
    clear -Hk. induction ks as [|k'' ks IH]; [done|]. cbn [flat_map]. rewrite got_app, got_pairs.
    apply not_elem_of_cons in Hk as [Hne Hk]. rewrite (proj2 (Nat.eqb_neq k'' k')) by done. by apply IH.
  - rewrite (proj2 (Nat.eqb_neq k' k)) by by intros ->. by apply IH.
Qed.

(** One step: what the sink gets and what waits for it *)
Lemma log_step_ok k g e : lg_ok k g -> untouched k e ->
  let '(g', cs) := log_step g e in
  lg_ok k g' /\ lg_level g' = (match e with LgLevel l => l | _ => lg_level g end) /\
  got k cs ++ lg_pending g' = lg_pending g ++ lines_of (lg_level g) [e].
Proof.
  intros Hg He. pose proof Hg as [Hn Hin Ht]. destruct e as [l|k'|k'|l line|]; cbn [log_step lines_of untouched] in *.
  - by rewrite app_nil_r.
  - unfold addSink. split_and!; [|done|by rewrite got_pairs, (proj2 (Nat.eqb_neq k' k)), app_nil_r].
    split; cbn [lg_sinks lg_timer lg_pending]; [| |done]; case_bool_decide; [done| |done|by apply elem_of_app; left].
    apply NoDup_app. split_and!; [done| |apply NoDup_singleton]. by intros x Hx ->%list_elem_of_singleton.
  - split_and!; [|done|by rewrite app_nil_r]. split; cbn [removeSink lg_sinks lg_timer lg_pending]; [|apply list_elem_of_In, List.filter_In; split; [by apply list_elem_of_In|]|done].
    + apply NoDup_ListNoDup. by apply List.NoDup_filter, NoDup_ListNoDup.
    + apply negb_true_iff, Nat.eqb_neq. by apply not_eq_sym.
  - unfold emit. destruct (LEVEL_ORDER l <? LEVEL_ORDER (lg_level g)); [by rewrite !app_nil_r|].
    assert (Hs : nonempty (lg_sinks g) = true) by (destruct (lg_sinks g); [by apply not_elem_of_nil in Hin|done]).
    rewrite Hs. by split_and!.
  - rewrite app_nil_r. destruct (lg_timer g) eqn:Et; [|done]. pose proof (got_flush k g Hg) as Hf.
    destruct (flush_sinks g) as [g' cs] eqn:E. injection E as <- <-. cbn [snd] in Hf. rewrite Hf, app_nil_r. by split_and!.
Qed.

Lemma log_run_ok k : forall es g, lg_ok k g -> Forall (untouched k) es ->
  lg_ok k (log_run g es).1 /\ got k (log_run g es).2 ++ lg_pending (log_run g es).1 = lg_pending g ++ lines_of (lg_level g) es.
Proof.
  induction es as [|e es IH]; intros g Hg Hes; [by rewrite app_nil_r|]. inversion_clear Hes as [|? ? He Hes'].
  cbn [log_run]. pose proof (log_step_ok k g e Hg He) as Hs. destruct (log_step g e) as [g1 c1]. destruct Hs as (H1 & Hl & E1).
  destruct (IH g1 H1 Hes') as [H2 E2]. destruct (log_run g1 es) as [g2 c2]. cbn [fst snd] in *.
  split; [done|]. rewrite got_app, <- app_assoc, E2, app_assoc, E1, <- app_assoc, Hl. f_equal.
  destruct e; cbn [lines_of app]; rewrite ?app_nil_r; done.
Qed.

(** Without a sink only the buffer is filled. *)
Lemma log_run_quiet : forall es g, lg_sinks g = [] -> lg_pending g = [] -> lg_timer g = false -> Forall not_add es ->
  let g' := (log_run g es).1 in
  lg_sinks g' = [] /\ lg_pending g' = [] /\ lg_timer g' = false /\
  keep_last LOG_MAX_BUFFER (lg_buffer g') = keep_last LOG_MAX_BUFFER (lg_buffer g ++ lines_of (lg_level g) es).
Proof.
  induction es as [|e es IH]; intros g Hs Hp Ht Hes; [by rewrite app_nil_r|]. inversion_clear Hes as [|? ? He Hes'].
  cbn [log_run]. destruct (log_step g e) as [g1 c1] eqn:E.
  assert (H1 : lg_sinks g1 = [] /\ lg_pending g1 = [] /\ lg_timer g1 = false /\
    lg_level g1 = (match e with LgLevel l => l | _ => lg_level g end) /\
    keep_last LOG_MAX_BUFFER (lg_buffer g1) = keep_last LOG_MAX_BUFFER (lg_buffer g ++ lines_of (lg_level g) [e])).
  { destruct e as [l|k|k|l line|]; cbn [log_step lines_of not_add] in *; [| done | | |].
    - injection E as <- <-. by rewrite app_nil_r.
    - injection E as <- <-. cbn [removeSink lg_sinks lg_pending lg_timer lg_level lg_buffer]. by rewrite Hs, app_nil_r.
    - injection E as <- <-. unfold emit. destruct (_ <? _); [by rewrite app_nil_r|]. cbn [lg_sinks lg_pending lg_timer lg_level lg_buffer].
      rewrite Hs. cbn [nonempty]. split_and!; try done. pose proof (keep_last_app LOG_MAX_BUFFER (lg_buffer g ++ [line]) []) as Hk.
      rewrite !app_nil_r in Hk. rewrite ?app_nil_r. exact Hk.
    - rewrite Ht in E. injection E as <- <-. by rewrite app_nil_r. }
  destruct H1 as (Hs1 & Hp1 & Ht1 & Hl1 & Hb1). pose proof (IH g1 Hs1 Hp1 Ht1 Hes') as (R1 & R2 & R3 & R4).
  destruct (log_run g1 es) as [g2 c2]. cbn [fst] in *. split_and!; try done.
  rewrite R4, <- keep_last_app, Hb1, keep_last_app, <- app_assoc, Hl1. f_equal. f_equal.
  destruct e; cbn [lines_of app]; rewrite ?app_nil_r; done.
Qed.

(** The first sink of the logger gets the newest lines from before it was added and then every
    line that passes the level, each once and in order; what it has not got yet is waiting. *)
Theorem first_sink_complete es0 k es :
  Forall not_add es0 -> Forall (untouched k) es ->
  let g0 := (log_run lg_init es0).1 in
  let g2 := log_run (addSink k g0).1 es in
  got k ((addSink k g0).2 ++ g2.2) ++ lg_pending g2.1 =
    keep_last LOG_MAX_BUFFER (lines_of LvDebug es0) ++ lines_of (lg_level g0) es.
Proof.
  intros H0 Hes g0 g2. destruct (log_run_quiet es0 lg_init eq_refl eq_refl eq_refl H0) as (Hs & Hp & Ht & Hb). fold g0 in Hs, Hp, Ht, Hb.
  cbn [lg_init lg_buffer lg_level app] in Hb.
  assert (Hg : lg_ok k (addSink k g0).1).
  { split; cbn [addSink fst lg_sinks lg_timer lg_pending]; rewrite ?Hs, ?Hp; [| |done];
      rewrite bool_decide_false by apply not_elem_of_nil; [apply NoDup_singleton|by left]. }
  destruct (log_run_ok k es _ Hg Hes) as [_ E]. fold g2 in E.
  rewrite got_app, <- app_assoc, E. cbn [addSink fst snd lg_pending lg_level]. rewrite Hp, got_pairs, Nat.eqb_refl.
  cbn [app]. f_equal. unfold keep_last in Hb at 1. exact Hb.
Qed.

Lemma first_sink_complete_witness :
  let g0 := (log_run lg_init [LgEmit LvInfo (js "a")]).1 in
  let g2 := log_run (addSink 0 g0).1 [LgEmit LvInfo (js "b"); LgFlush; LgLevel LvWarn; LgEmit LvInfo (js "c")] in
  got 0 ((addSink 0 g0).2 ++ g2.2) ++ lg_pending g2.1 =
    keep_last LOG_MAX_BUFFER (lines_of LvDebug [LgEmit LvInfo (js "a")]) ++
    lines_of (lg_level g0) [LgEmit LvInfo (js "b"); LgFlush; LgLevel LvWarn; LgEmit LvInfo (js "c")].
Proof. apply (first_sink_complete [LgEmit LvInfo (js "a")] 0); repeat constructor; done. Defined.

(** A second sink that is added while lines wait gets them twice: from the buffer and from the
    waiting lines. *)
Example second_sink_twice :
  let run := log_run lg_init [LgAdd 0; LgEmit LvInfo (js "a"); LgAdd 1; LgFlush] in
  got 0 run.2 = [js "a"] /\ got 1 run.2 = [js "a"; js "a"].
Proof. by vm_compute. Qed.

(** ** Lemmas on the provider *)

Lemma deliver_spec cs p : pv_sinkBound p = true ->
  let ls := got (pv_batch_view p) cs in
  deliver cs p = MkProvider (pv_log p) (pv_view p) (fold_left (fun r l => keep_last DEBUG_LOG_MEMORY_MAX (r ++ [l])) ls (pv_ring p))
    (pv_sink p) true (pv_tracked p) (pv_batch p ++ ls) (nonempty ls || pv_batch_timer p) (pv_batch_view p) (pv_lastInit p) (pv_update p).
Proof.
  revert p. induction cs as [|[k l] cs IH]; intros p Hb.
  - destruct p. cbn in *. subst. by rewrite app_nil_r.
  - unfold deliver. cbn [fold_left]. rewrite Hb. unfold got. cbn [List.filter fst].
    destruct (Nat.eqb k (pv_batch_view p)); cbn [andb].
    + fold (deliver cs (sink l p)). rewrite IH by done. cbn [sink pv_log pv_view pv_ring pv_sink pv_tracked pv_batch pv_batch_timer pv_batch_view pv_lastInit pv_update map snd fold_left].
      fold (got (pv_batch_view p) cs). f_equal; [by rewrite <- app_assoc|]. by destruct (got (pv_batch_view p) cs).
    + fold (deliver cs p). by rewrite IH.
Qed.

Lemma ring_fold (ls r R : list str) : r = keep_last DEBUG_LOG_MEMORY_MAX R ->
  fold_left (fun r l => keep_last DEBUG_LOG_MEMORY_MAX (r ++ [l])) ls r = keep_last DEBUG_LOG_MEMORY_MAX (R ++ ls).
Proof.
  revert r R. induction ls as [|l ls IH]; intros r R ->; [by rewrite app_nil_r|]. cbn [fold_left].
  rewrite (IH _ (R ++ [l])); [by rewrite <- app_assoc|]. apply keep_last_app.
Qed.

(** The lines that a view has been sent one by one *)
Definition appended (v : nat) (ps : posts) : list str :=
  flat_map (fun p => match p.2 with PostAppend t => if Nat.eqb p.1 v then [t] else [] | _ => [] end) ps.

Lemma appended_app v a b : appended v (a ++ b) = appended v a ++ appended v b.
Proof. apply flat_map_app. Qed.

Lemma appended_batch v w ls : appended v (map (fun ln => (w, PostAppend ln)) ls) = if Nat.eqb w v then ls else [].
Proof.
  unfold appended. induction ls as [|l ls IH]; [by destruct (Nat.eqb w v)|]. cbn [map flat_map fst snd]. rewrite IH. by destruct (Nat.eqb w v).
Qed.

(** The log operations among the events *)
Definition log_ops (es : list panel_op) : list log_op := omap (fun e => match e with PoLog e => Some e | _ => None end) es.

(** Events while view [v] stays open *)
Definition steady (v : nat) (e : panel_op) : Prop :=
  match e with PoResolve _ | PoDispose => False | PoLog e => untouched v e | _ => True end.

Definition not_clear (e : panel_op) : Prop := match e with PoClear => False | _ => True end.

(** The provider while view [v] is open: what the logger and the batch still hold *)
Record pv_ok (v : nat) (p : provider) : Prop := {
  po_log : lg_ok v (pv_log p);
  po_bound : pv_sinkBound p = true;
  po_batch_view : pv_batch_view p = v;
  po_timer : pv_batch_timer p = false -> pv_batch p = [] }.

Definition waiting (p : provider) : list str := pv_batch p ++ lg_pending (pv_log p).

Lemma panel_step_ok v p e : pv_ok v p -> steady v e ->
  let '(p', o) := panel_step p e in
  pv_ok v p' /\ lg_level (pv_log p') = (match e with PoLog (LgLevel l) => l | _ => lg_level (pv_log p) end) /\
  appended v o ++ waiting p' = waiting p ++ lines_of (lg_level (pv_log p)) (log_ops [e]) /\
  (not_clear e -> forall R, pv_ring p = keep_last DEBUG_LOG_MEMORY_MAX (R ++ pv_batch p) ->
     pv_ring p' = keep_last DEBUG_LOG_MEMORY_MAX (R ++ appended v o ++ pv_batch p')).
Proof.
  intros Hp He. pose proof Hp as [Hl Hb Hv Ht].
  assert (Hid : pv_ok v p /\ lg_level (pv_log p) = lg_level (pv_log p) /\ waiting p = waiting p ++ [] /\
     forall R, pv_ring p = keep_last DEBUG_LOG_MEMORY_MAX (R ++ pv_batch p) -> pv_ring p = keep_last DEBUG_LOG_MEMORY_MAX (R ++ pv_batch p))
    by (by rewrite app_nil_r).
  destruct Hid as (I1 & I2 & I3 & I4).
  destruct e as [w| |e| |now|now vis| | |]; cbn [steady not_clear] in He; try done; cbn [panel_step log_ops omap list_omap lines_of];
    try (destruct (pv_view p); [|by split_and!]).
  - pose proof (log_step_ok v (pv_log p) e Hl He) as Hs. destruct (log_step (pv_log p) e) as [g cs]. destruct Hs as (H1 & H2 & H3).
    assert (Ep := deliver_spec cs (with_log g p) Hb). cbn [with_log pv_log pv_view pv_ring pv_sink pv_tracked pv_batch pv_batch_timer pv_batch_view pv_lastInit pv_update] in Ep.
    rewrite Hv in Ep. rewrite Ep. unfold waiting. cbn [pv_log pv_batch pv_ring appended flat_map app]. split_and!.
    + split; cbn; [done|done|done|]. destruct (got v cs); [by rewrite app_nil_r|done].
    + by destruct e.
    + by rewrite <- !app_assoc, H3.
    + intros _ R HR. rewrite (ring_fold _ _ _ HR). by rewrite <- app_assoc.
  - destruct (pv_batch_timer p) eqn:Et; [|by split_and!]. cbn [flush_batch]. rewrite appended_batch, Hv, Nat.eqb_refl.
    unfold waiting. cbn [pv_log pv_batch pv_ring]. split_and!; [by split|done|by rewrite !app_nil_r|]. intros _ R HR. by rewrite app_nil_r.
  - unfold sendInitIfNotRecent. destruct (_ <? 300); by split_and!.
  - destruct vis; [|by split_and!]. unfold sendInitIfNotRecent. destruct (_ <? 300); by split_and!.
  - by split_and!.
  - by split_and!.
  - by split_and!.
Qed.

Lemma provider_run_ok v : forall es p, pv_ok v p -> Forall (steady v) es ->
  let r := panel_run p es in
  pv_ok v r.1 /\
  appended v r.2 ++ waiting r.1 = waiting p ++ lines_of (lg_level (pv_log p)) (log_ops es) /\
  (Forall not_clear es -> forall R, pv_ring p = keep_last DEBUG_LOG_MEMORY_MAX (R ++ pv_batch p) ->
     pv_ring r.1 = keep_last DEBUG_LOG_MEMORY_MAX (R ++ appended v r.2 ++ pv_batch r.1)).
Proof.
  induction es as [|e es IH]; intros p Hp Hes; [by rewrite app_nil_r|]. inversion_clear Hes as [|? ? He Hes'].
  cbn [panel_run]. pose proof (panel_step_ok v p e Hp He) as Hs. destruct (panel_step p e) as [p1 o1]. destruct Hs as (H1 & Hl & E1 & R1).
  destruct (IH p1 H1 Hes') as (H2 & E2 & R2). destruct (panel_run p1 es) as [p2 o2]. cbn [fst snd] in *.
  split_and!; [done| |].
  - rewrite appended_app, <- app_assoc, E2, app_assoc, E1, <- app_assoc, Hl. f_equal.
    destruct e as [w| |[]| |now|now vis| | |]; cbn [log_ops omap list_omap lines_of app]; rewrite ?app_nil_r; done.
  - intros Hn R HR. inversion_clear Hn as [|? ? Hn1 Hn2]. pose proof (R1 Hn1 R HR) as HR1. rewrite app_assoc in HR1.
    rewrite (R2 Hn2 _ HR1), appended_app, !app_assoc. done.
Qed.

Lemma first_resolve_ok es0 v update : Forall not_add es0 ->
  let g0 := (log_run lg_init es0).1 in
  let p0 := resolveWebviewView v (pv_init g0 update) in
  pv_ok v p0 /\ lg_level (pv_log p0) = lg_level g0 /\
  waiting p0 = keep_last LOG_MAX_BUFFER (lines_of LvDebug es0) /\
  pv_ring p0 = keep_last DEBUG_LOG_MEMORY_MAX (pv_batch p0) /\ pv_sink p0 = Some v /\ pv_view p0 = Some v.
Proof.
  intros H0 g0 p0. destruct (log_run_quiet es0 lg_init eq_refl eq_refl eq_refl H0) as (Hs & Hp & Ht & Hb).
  fold g0 in Hs, Hp, Ht, Hb. cbn [lg_init lg_buffer lg_level app] in Hb.
  unfold p0, resolveWebviewView. cbn [pv_init pv_sinkBound pv_log pv_ring pv_tracked pv_update].
  destruct (addSink v g0) as [g cs] eqn:Ea. unfold addSink in Ea. injection Ea as <- <-.
  rewrite deliver_spec by done. cbn [pv_log pv_view pv_ring pv_sink pv_tracked pv_batch pv_batch_timer pv_batch_view pv_lastInit pv_update].
  rewrite got_pairs, Nat.eqb_refl. unfold waiting. cbn [pv_log pv_batch pv_ring lg_pending lg_level pv_sink pv_view].
  rewrite Hp, app_nil_r. cbn [app]. split_and!; [|done|exact Hb|by apply (ring_fold _ [] [])|done|done].
  split; cbn [pv_log pv_sinkBound pv_batch_view pv_batch_timer pv_batch]; [|done|done|].
  - split; cbn [lg_sinks lg_timer lg_pending]; rewrite ?Hs; [| |done];
      rewrite bool_decide_false by apply not_elem_of_nil; [apply NoDup_singleton|by left].
  - by destruct (drop _ _).
Qed.


Definition demo_panel : list panel_op :=
  [PoReady 1000; PoLog (LgEmit LvInfo (js "b")); PoLog LgFlush; PoBatch; PoLog (LgEmit LvInfo (js "c"))].


(** ** The panel after its view was closed *)

(** The sink is not registered, and will not be. *)
Record unplugged (v : nat) (p : provider) : Prop := {
  un_bound : pv_sinkBound p = true;
  un_view : pv_batch_view p = v;
  un_sinks : v ∉ lg_sinks (pv_log p) }.

Lemma remove_not_in k g : k ∉ lg_sinks (removeSink k g).
Proof. cbn [removeSink lg_sinks]. rewrite list_elem_of_In, List.filter_In, Nat.eqb_refl. by intros []. Qed.

Lemma remove_keeps_out k k' g : (k ∉ lg_sinks g) -> k ∉ lg_sinks (removeSink k' g).
Proof. cbn [removeSink lg_sinks]. rewrite !list_elem_of_In, List.filter_In. by intros H []. Qed.

Lemma unplugged_log v g e : (v ∉ lg_sinks g) -> untouched v e ->
  (v ∉ lg_sinks (log_step g e).1) /\ got v (log_step g e).2 = [].
Proof.
  intros Hv He. destruct e as [l|k|k|l line|]; cbn [log_step untouched] in *.
  - done.
  - unfold addSink. cbn [fst snd lg_sinks]. split; [|by rewrite got_pairs, (proj2 (Nat.eqb_neq k v))].
    case_bool_decide; [done|]. rewrite elem_of_app, list_elem_of_singleton. by intros [? | ->].
  - split; [by apply remove_keeps_out|done].
  - unfold emit. by destruct (_ <? _).
  - destruct (lg_timer g); [|done]. cbn [flush_sinks fst snd lg_sinks]. split; [done|].
    clear He. induction (lg_sinks g) as [|k ks IH]; [done|]. apply not_elem_of_cons in Hv as [Hne Hv].
    cbn [flat_map]. rewrite got_app, got_pairs, (proj2 (Nat.eqb_neq k v)) by by apply not_eq_sym. by apply IH.
Qed.

(** No event but the user's own sinks' *)
Definition foreign (v : nat) (e : panel_op) : Prop := match e with PoLog e => untouched v e | PoResolve w => w <> v | _ => True end.

Lemma unplugged_step v p e w : unplugged v p -> pv_sink p <> Some v -> (v ∉ pv_tracked p) -> foreign v e -> w <> v ->
  let '(p', o) := panel_step p e in
  unplugged v p' /\ pv_sink p' <> Some v /\ (v ∉ pv_tracked p') /\ appended w o = [] /\ (pv_ring p' = pv_ring p \/ pv_ring p' = []).
Proof.
  intros Hu Hk Ht He Hw. pose proof Hu as [Hb Hv Hs].
  assert (Hid : unplugged v p /\ pv_sink p <> Some v /\ (v ∉ pv_tracked p) /\ appended w [] = [] /\ (pv_ring p = pv_ring p \/ pv_ring p = []))
    by (split_and!; [done|done|done|done|by left]).
  destruct e as [w'| |e| |now|now vis| | |]; cbn [panel_step foreign] in *; try (destruct (pv_view p); [|exact Hid]).
  - unfold resolveWebviewView. rewrite Hb. split_and!; [by split|done|done|done|by left].
  - split_and!; [split; [done|done|]|done|by apply not_elem_of_nil|done|by left]. cbn [panel_dispose pv_log].
    assert (Hout : v ∉ lg_sinks (fold_left (fun g k => removeSink k g) (pv_tracked p) (pv_log p))).
    { clear Hid. generalize (pv_log p), Hs. induction (pv_tracked p) as [|k ks IH]; intros g Hg; [done|]. cbn [fold_left].
      apply IH; [by apply not_elem_of_cons in Ht as []|by apply remove_keeps_out]. }
    destruct (pv_sink p); [by apply remove_keeps_out|done].
  - destruct (unplugged_log v (pv_log p) e Hs He) as [H1 H2]. destruct (log_step (pv_log p) e) as [g cs]. cbn [fst snd] in *.
    rewrite (deliver_spec cs (with_log g p)) by done.
    cbn [with_log pv_log pv_view pv_ring pv_sink pv_tracked pv_batch pv_batch_timer pv_batch_view pv_lastInit pv_update].
    rewrite Hv, H2. by split_and!; [split| | | |left].
  - destruct (pv_batch_timer p); [|exact Hid]. cbn [flush_batch]. rewrite appended_batch, Hv, (proj2 (Nat.eqb_neq v w)) by by apply not_eq_sym.
    by split_and!; [split| | | |left].
  - unfold sendInitIfNotRecent. destruct (_ <? 300); [exact Hid|]. by split_and!; [split| | | |left].
  - destruct vis; [|exact Hid]. unfold sendInitIfNotRecent. destruct (_ <? 300); [exact Hid|]. by split_and!; [split| | | |left].
  - by split_and!; [split| | | |right].
  - by split_and!; [split| | | |left].
  - by split_and!; [split| | | |left].
Qed.

Lemma unplugged_run v w : w <> v -> forall es p, unplugged v p -> pv_sink p <> Some v -> (v ∉ pv_tracked p) -> Forall (foreign v) es ->
  appended w (panel_run p es).2 = [] /\ (pv_ring (panel_run p es).1 = pv_ring p \/ pv_ring (panel_run p es).1 = []).
Proof.
  intros Hw. induction es as [|e es IH]; intros p Hu Hk Ht Hes; [by split; [|left]|]. inversion_clear Hes as [|? ? He Hes'].
  cbn [panel_run]. pose proof (unplugged_step v p e w Hu Hk Ht He Hw) as Hs. destruct (panel_step p e) as [p1 o1].
  destruct Hs as (U1 & K1 & T1 & A1 & R1). destruct (IH p1 U1 K1 T1 Hes') as [A2 R2].
  destruct (panel_run p1 es) as [p2 o2]. cbn [fst snd] in *. rewrite appended_app, A1, A2.
  split; [done|]. destruct R2 as [-> | ->]; [done|by right].
Qed.

Lemma steady_keeps v : forall es p, Forall (steady v) es ->
  let p' := (panel_run p es).1 in pv_sink p' = pv_sink p /\ pv_tracked p' = pv_tracked p /\ pv_view p' = pv_view p.
Proof.
  induction es as [|e es IH]; intros p Hes; [done|]. inversion_clear Hes as [|? ? He Hes'].
  cbn [panel_run]. destruct (panel_step p e) as [p1 o1] eqn:E. specialize (IH p1 Hes'). destruct (panel_run p1 es) as [p2 o2].
  cbn [fst] in *. destruct IH as (-> & -> & ->).
  assert (Hd : forall cs q, pv_sink (deliver cs q) = pv_sink q /\ pv_tracked (deliver cs q) = pv_tracked q /\ pv_view (deliver cs q) = pv_view q).
  { induction cs as [|c cs IHc]; intros q; [done|]. unfold deliver. cbn [fold_left]. fold (deliver cs (if pv_sinkBound q && Nat.eqb c.1 (pv_batch_view q) then sink c.2 q else q)).
    rewrite !(proj1 (IHc _)), !(proj1 (proj2 (IHc _))), !(proj2 (proj2 (IHc _))). by destruct (pv_sinkBound q && _). }
  destruct e as [w'| |e| |now|now vis| | |]; cbn [panel_step steady] in *; try done;
    try (destruct (pv_view p) eqn:Ev; [|by injection E as <- <-]).
  - destruct (log_step (pv_log p) e) as [g cs]. injection E as <- <-. by destruct (Hd cs (with_log g p)) as (-> & -> & ->).
  - destruct (pv_batch_timer p); by injection E as <- <-.
  - unfold sendInitIfNotRecent in E. destruct (_ <? 300); by injection E as <- <-.
  - destruct vis; [|by injection E as <- <-]. unfold sendInitIfNotRecent in E. destruct (_ <? 300); by injection E as <- <-.
  - by injection E as <- <-.
  - by injection E as <- <-.
  - by injection E as <- <-.
Qed.

(** Once the first view has been closed, a view that is opened later is never sent a log line,
    and the ring does not grow any more: the sink was removed, and the flag that says it is
    bound was not reset. *)
Theorem reopened_view_is_silent es0 v update es es' w :
  Forall not_add es0 -> Forall (steady v) es -> Forall (foreign v) es' -> w <> v ->
  let g0 := (log_run lg_init es0).1 in
  let p1 := (panel_run (resolveWebviewView v (pv_init g0 update)) es).1 in
  let r := panel_run (panel_dispose p1) es' in
  appended w r.2 = [] /\ (pv_ring r.1 = pv_ring p1 \/ pv_ring r.1 = []).
Proof.
  intros H0 Hes Hes' Hw g0 p1 r. destruct (first_resolve_ok es0 v update H0) as (Hp & _ & _ & _ & Hk & _). fold g0 in Hp, Hk.
  destruct (provider_run_ok v es _ Hp Hes) as ([_ Hb Hv _] & _). fold p1 in Hb, Hv.
  destruct (steady_keeps v es (resolveWebviewView v (pv_init g0 update)) Hes) as (Hk1 & _). fold p1 in Hk1.
  apply (unplugged_run v w Hw es' (panel_dispose p1)); [|done|by apply not_elem_of_nil|done].
  split; [done|done|]. cbn [panel_dispose pv_log]. rewrite Hk1, Hk. apply remove_not_in.
Qed.

Lemma reopened_view_is_silent_witness :
  let g0 := (log_run lg_init [LgEmit LvInfo (js "a")]).1 in
  let p1 := (panel_run (resolveWebviewView 0 (pv_init g0 false)) demo_panel).1 in
  let r := panel_run (panel_dispose p1) [PoResolve 1; PoReady 5000; PoLog (LgEmit LvError (js "d")); PoLog LgFlush; PoBatch] in
  appended 1 r.2 = [] /\ (pv_ring r.1 = pv_ring p1 \/ pv_ring r.1 = []).
Proof. apply (reopened_view_is_silent [LgEmit LvInfo (js "a")] 0 false demo_panel); repeat constructor; done. Defined.

(** A line that waits in the batch when the view reports itself ready is sent twice: in the
    initial state and then by the batch. *)
Example init_repeats_batch :
  let run := panel_run (pv_init (log_run lg_init [LgEmit LvInfo (js "a")]).1 false) [PoResolve 0; PoReady 1000; PoBatch] in
  run.2 = [(0%nat, PostInit [js "a"]); (0%nat, PostUpdateVisible false); (0%nat, PostAppend (js "a"))].
Proof. by vm_compute. Qed.

(** ** Theorems on the buttons *)

(** Every button is found by its identifier, and every button that names a command names one
    the table has. *)
Theorem every_button_routed :
  Forall (fun s => Forall (fun b =>
    findButtonById getSections (bt_id b) = Some b /\
    match bt_op b with OpHandler name => is_Some (route name) | _ => True end) (sc_items s)) getSections.
Proof. repeat constructor; by eexists. Qed.

Definition is_lock (c : nat * str) : bool := mem_id c.2 BUSY_LOCK_BUTTON_IDS.

Definition count_msg (f : router_msg -> bool) (ms : list router_msg) : nat := length (List.filter f ms).

Definition is_lock_msg (m : router_msg) : bool := match m with MsgLock => true | _ => false end.
Definition is_unlock_msg (m : router_msg) : bool := match m with MsgUnlock => true | _ => false end.

Definition one_if (b : bool) : nat := if b then 1 else 0.

Record rt_ok (r : router) : Prop := {
  ro_locks : length (List.filter is_lock (rt_running r)) = one_if (rt_busy r);
  ro_nodup : NoDup (map fst (rt_running r));
  ro_below : Forall (fun c => (c.1 < rt_next r)%nat) (rt_running r) }.

Lemma count_msg_app f a b : count_msg f (a ++ b) = (count_msg f a + count_msg f b)%nat.
Proof. unfold count_msg. by rewrite List.filter_app, length_app. Qed.

Lemma removed_locks i (l : list (nat * str)) c :
  NoDup (map fst l) -> find (fun c => Nat.eqb c.1 i) l = Some c ->
  (length (List.filter is_lock (List.filter (fun c => negb (Nat.eqb c.1 i)) l)) + one_if (is_lock c) = length (List.filter is_lock l))%nat.
Proof.
  induction l as [|x l IH]; [done|]. cbn [map find List.filter]. intros Hn Hf. apply NoDup_cons in Hn as [Hx Hn].
  destruct (Nat.eqb_spec x.1 i) as [Hi|Hi]; cbn [negb].
  - injection Hf as <-. assert (E : List.filter (fun c => negb (Nat.eqb c.1 i)) l = l).
    { clear IH Hn. induction l as [|y l IHl]; [done|]. cbn [map] in Hx. apply not_elem_of_cons in Hx as [Hy Hx].
      cbn [List.filter]. rewrite (proj2 (Nat.eqb_neq y.1 i)) by congruence. cbn [negb]. by rewrite IHl. }
    rewrite E. destruct (is_lock x); cbn [one_if length]; lia.
  - cbn [List.filter]. specialize (IH Hn Hf). destruct (is_lock x); cbn [length]; lia.
Qed.

Lemma router_step_ok r e : rt_ok r ->
  let '(r', ms) := router_step r e in
  rt_ok r' /\ (count_msg is_lock_msg ms + one_if (rt_busy r) = count_msg is_unlock_msg ms + one_if (rt_busy r'))%nat.
Proof.
  intros Hr. pose proof Hr as [Hl Hn Hb]. destruct e as [id|i]; cbn [router_step].
  - unfold dispatchButton. destruct (findButtonById getSections id) as [btn|]; [|done].
    destruct (mem_id id BUSY_LOCK_BUTTON_IDS) eqn:Em; cbn [andb].
    + destruct (rt_busy r) eqn:Eb; [by rewrite Eb|]. unfold setBusyLock. rewrite Eb. cbn [Bool.eqb]. split; [|done].
      split; cbn [rt_running rt_busy rt_next].
      * rewrite List.filter_app, length_app, Hl. cbn [List.filter]. unfold is_lock at 1. cbn [snd]. rewrite Em. done.
      * rewrite map_app. apply NoDup_app. split_and!; [done| |apply NoDup_singleton]. intros x Hx ->%list_elem_of_singleton.
        apply list_elem_of_fmap in Hx as (c & E & Hc). rewrite Forall_forall in Hb. apply Hb in Hc. cbn in E. lia.
      * apply Forall_app. split; [eapply Forall_impl; [exact Hb|]; cbn; lia|repeat constructor].
    + split; [|done]. split; cbn [rt_running rt_busy rt_next].
      * rewrite List.filter_app, length_app, Hl. cbn [List.filter]. unfold is_lock at 1. cbn [snd]. rewrite Em. cbn. lia.
      * rewrite map_app. apply NoDup_app. split_and!; [done| |apply NoDup_singleton]. intros x Hx ->%list_elem_of_singleton.
        apply list_elem_of_fmap in Hx as (c & E & Hc). rewrite Forall_forall in Hb. apply Hb in Hc. cbn in E. lia.
      * apply Forall_app. split; [eapply Forall_impl; [exact Hb|]; cbn; lia|repeat constructor].
  - unfold dispatch_ends. destruct (find _ (rt_running r)) as [c|] eqn:Ef; [|done].
    pose proof (removed_locks i _ _ Hn Ef) as Hc.
    assert (Hn' : NoDup (map fst (List.filter (fun c => negb (Nat.eqb c.1 i)) (rt_running r)))).
    { clear -Hn. induction (rt_running r) as [|x l IH]; [constructor|]. cbn [map] in Hn. apply NoDup_cons in Hn as [Hx Hn].
      cbn [List.filter]. destruct (negb _); [|by apply IH]. cbn [map]. constructor; [|by apply IH].
      intros Hin. apply Hx. apply list_elem_of_fmap in Hin as (y & E & Hy). apply list_elem_of_fmap. exists y. split; [done|].
      apply list_elem_of_In, List.filter_In in Hy as [Hy _]. by apply list_elem_of_In. }
    assert (Hb' : Forall (fun c => (c.1 < rt_next r)%nat) (List.filter (fun c => negb (Nat.eqb c.1 i)) (rt_running r))).
    { apply Forall_forall. intros x Hx. apply list_elem_of_In, List.filter_In in Hx as [Hx _]. rewrite Forall_forall in Hb. by apply Hb, list_elem_of_In. }
    change (mem_id c.2 BUSY_LOCK_BUTTON_IDS) with (is_lock c). destruct (is_lock c) eqn:El; cbn [one_if] in Hc.
    + unfold setBusyLock. cbn [rt_busy]. destruct (rt_busy r) eqn:Eb; cbn [one_if] in *; [|lia]. cbn [Bool.eqb].
      split; [|done]. split; cbn [rt_running rt_busy rt_next one_if]; [lia|done|done].
    + split; [|done]. split; cbn [rt_running rt_busy rt_next]; [lia|done|done].
Qed.

Lemma router_run_ok : forall es r, rt_ok r ->
  let x := router_run r es in
  rt_ok x.1 /\ (count_msg is_lock_msg x.2 + one_if (rt_busy r) = count_msg is_unlock_msg x.2 + one_if (rt_busy x.1))%nat.
Proof.
  induction es as [|e es IH]; intros r Hr; [done|]. cbn [router_run]. pose proof (router_step_ok r e Hr) as Hs.
  destruct (router_step r e) as [r1 m1]. destruct Hs as [H1 E1]. destruct (IH r1 H1) as [H2 E2].
  destruct (router_run r1 es) as [r2 m2]. cbn [fst snd] in *. split; [done|]. rewrite !count_msg_app. lia.
Qed.

(** C23: At most one of the toggles runs at any time: clicks on a toggle while one runs are dropped.
    The buttons are locked exactly while one runs, whether its command ends or throws, and the
    view has been told so. *)
Theorem one_toggle_at_a_time es :
  let x := router_run rt_init es in
  length (List.filter is_lock (rt_running x.1)) = one_if (rt_busy x.1) /\
  (count_msg is_lock_msg x.2 = count_msg is_unlock_msg x.2 + one_if (rt_busy x.1))%nat.
Proof.
  intros x. destruct (router_run_ok es rt_init) as [[Hl _ _] Hc]; [by repeat constructor|]. fold x in Hl, Hc.
  split; [done|]. cbn [rt_init rt_busy one_if] in Hc. lia.
Qed.

(** Two toggles and a restart: the second toggle is dropped, the restart is not. *)
Example second_toggle_dropped :
  map snd (rt_running (router_run rt_init [RoClick (js "cmd.volumeToggle"); RoClick (js "cmd.appLogToggle"); RoClick (js "cmd.homeyRestart")]).1)
    = [js "cmd.volumeToggle"; js "cmd.homeyRestart"].
Proof. by vm_compute. Qed.

Definition find_item (id : str) (dto : list (str * list ItemDTO)) : option ItemDTO :=
  find (fun i => bool_decide (it_id i = id)) (flat_map snd dto).

(** Whatever the state, the button that connects a device is there and can be clicked, and the
    toggles show the state that was found and can be clicked exactly when a device is connected
    and none of them runs. *)
Theorem toggles_follow_state upd url busy conn mount appLog devToken :
  let dto := sendButtonSections upd url busy conn mount appLog devToken in
  let off := busy || negb conn in
  find_item (js "cmd.connectDevice") dto = Some (MkItem (js "cmd.connectDevice") BTN_CONNECT_DEVICE false) /\
  find_item (js "cmd.volumeToggle") dto =
    Some (MkItem (js "cmd.volumeToggle") (match mount with Some Mounted => BTN_VOLUME_UNMOUNT | _ => BTN_VOLUME_MOUNT end) off) /\
  find_item (js "cmd.appLogToggle") dto =
    Some (MkItem (js "cmd.appLogToggle") (if conn && or_else appLog false then BTN_APPLOG_DISABLE else BTN_APPLOG_ENABLE) off) /\
  find_item (js "cmd.devTokenToggle") dto =
    Some (MkItem (js "cmd.devTokenToggle") (if conn && or_else devToken false then BTN_DEVTOKEN_DISABLE else BTN_DEVTOKEN_ENABLE) off).
Proof.
  unfold sendButtonSections. generalize (or_else appLog false), (or_else devToken false). intros a d.
  destruct upd; [destruct url as [[|c u]|]|]; destruct busy, conn; destruct mount as [[]|]; destruct a, d; by vm_compute.
Qed.
