(* ===== verification/FilterDialog.v ===== *)
(** * FilterDialog

    src/webviewers/log-viewer/react/components/FilterDialog.tsx: the text of a field as
    alternatives of words, the edits of the dialog and what it applies.  What the dialog sends
    is compared with the filter of the pages (LogFilter). *)

From stdpp Require Import base list strings.
From Stdlib Require Import ZArith Lia.
From S2P Require Import Prelude JsString LogEntry LogFilter.

(** ** Groups *)

Definition dlg_parseGroups (s : str) : list (list str) :=
  if negb (nonempty (trim s)) then []
  else map (fun g => List.filter nonempty (map trim (split_ws g)))
         (List.filter nonempty (map trim (split_on 44 s))).

Definition mem_str (t : str) (l : list str) : bool := existsb (fun x => bool_decide (x = t)) l.

Definition uniq (g : list str) : list str :=
  fold_left (fun u t => if nonempty t && negb (mem_str t u) then u ++ [t] else u) g [].

Definition serializeGroups (groups : list (list str)) : str :=
  join (js ", ") (List.filter nonempty (map (fun g => join (js " ") (uniq g)) groups)).

Definition clean (s : str) : str := serializeGroups (dlg_parseGroups s).

Definition normalizeAll (f : log_filter) : log_filter :=
  Filter (clean (f_pid f)) (clean (f_src f)) (clean (f_proc f)) (clean (f_msg f)).

(** ** Edits *)

Inductive field := FPid | FSrc | FProc | FMsg.

Definition get_field (k : field) (f : log_filter) : str :=
  match k with FPid => f_pid f | FSrc => f_src f | FProc => f_proc f | FMsg => f_msg f end.

Definition set_field (k : field) (v : str) (f : log_filter) : log_filter :=
  match k with
  | FPid => Filter v (f_src f) (f_proc f) (f_msg f)
  | FSrc => Filter (f_pid f) v (f_proc f) (f_msg f)
  | FProc => Filter (f_pid f) (f_src f) v (f_msg f)
  | FMsg => Filter (f_pid f) (f_src f) (f_proc f) v
  end.

Definition setGroupsFor (k : field) (groups : list (list str)) (f : log_filter) : log_filter :=
  set_field k (serializeGroups groups) f.

(** [groups.splice(i, 1)] *)
Definition splice1 {A} (i : nat) (l : list A) : list A := take i l ++ drop (S i) l.

Definition removeTokenAt (k : field) (gIdx : nat) (token : str) (f : log_filter) : log_filter :=
  let groups := dlg_parseGroups (get_field k f) in
  match groups !! gIdx with
  | None => f
  | Some g =>
      let g' := List.filter (fun t => negb (bool_decide (t = token))) g in
      setGroupsFor k (if nonempty g' then <[gIdx := g']> groups else splice1 gIdx groups) f
  end.

Definition removeGroup (k : field) (gIdx : nat) (f : log_filter) : log_filter :=
  setGroupsFor k (splice1 gIdx (dlg_parseGroups (get_field k f))) f.

Definition clearField (k : field) (f : log_filter) : log_filter := setGroupsFor k [] f.

Definition addOrGroup (k : field) (f : log_filter) : log_filter :=
  let next := trim_end (get_field k f) in
  set_field k (if nonempty next then next ++ js ", " else js ", ") f.

(** The dialog: the text being edited, whether it is open and the filters it has applied *)
Record dialog := MkDialog { dl_open : bool; dl_local : log_filter; dl_applied : list log_filter }.

Inductive dialog_op :=
  | DoOpen (stored : log_filter)
  | DoType (k : field) (v : str)
  | DoBlur (k : field)
  | DoEnter (k : field) (v : str)
  | DoRemoveToken (k : field) (i : nat) (t : str)
  | DoRemoveGroup (k : field) (i : nat)
  | DoClear (k : field)
  | DoAddOr (k : field)
  | DoApply
  | DoCancel.

Definition dialog_apply (f : log_filter) (d : dialog) : dialog :=
  let cleaned := normalizeAll f in MkDialog false cleaned (dl_applied d ++ [normalizeAll cleaned]).

Definition dialog_do (d : dialog) (e : dialog_op) : dialog :=
  let with_local f := MkDialog (dl_open d) f (dl_applied d) in
  match e with
  | DoOpen stored => MkDialog true stored (dl_applied d)
  | DoType k v => with_local (set_field k v (dl_local d))
  | DoBlur k =>
      let v := clean (get_field k (dl_local d)) in
      if bool_decide (v = get_field k (dl_local d)) then d else with_local (set_field k v (dl_local d))
  | DoEnter k v => dialog_apply (set_field k v (dl_local d)) d
  | DoRemoveToken k i t => with_local (removeTokenAt k i t (dl_local d))
  | DoRemoveGroup k i => with_local (removeGroup k i (dl_local d))
  | DoClear k => with_local (clearField k (dl_local d))
  | DoAddOr k => with_local (addOrGroup k (dl_local d))
  | DoApply => dialog_apply (dl_local d) d
  | DoCancel => MkDialog false (dl_local d) (dl_applied d)
  end.

(** ** Words *)

(** The words of a text: what splitting at white space leaves, without the empty pieces *)
Definition words (s : str) : list str := List.filter nonempty (split_ws s).

Definition word (t : str) : Prop := t <> [] /\ Forall (fun c => is_ws c = false) t.

Lemma words_in_sep s : List.filter nonempty (split_ws_aux true s) = List.filter nonempty (split_ws_aux false s).
Proof. destruct s as [|d t]; [done|]. cbn [split_ws_aux]. by destruct (is_ws d). Qed.

Lemma words_ws c t : is_ws c = true -> words (c :: t) = words t.
Proof. intros Hc. unfold words, split_ws. cbn [split_ws_aux]. rewrite Hc. cbn [List.filter nonempty]. apply words_in_sep. Qed.

Lemma split_ws_not_nil b s : split_ws_aux b s <> [].
Proof. revert b. induction s as [|d t IH]; intros b; cbn [split_ws_aux]; [done|]. repeat case_match; try done. Qed.

Lemma words_head c t : is_ws c = false -> exists w ws, words (c :: t) = (c :: w) :: ws.
Proof.
  intros Hc. unfold words, split_ws. cbn [split_ws_aux]. rewrite Hc. destruct (split_ws_aux false t) as [|w ws] eqn:E; [by apply split_ws_not_nil in E|].
  cbn [List.filter nonempty]. eauto.
Qed.

Lemma split_ws_snoc c s b : is_ws c = true ->
  exists tl, (tl = [] \/ tl = [[]]) /\ split_ws_aux b (s ++ [c]) = split_ws_aux b s ++ tl.
Proof.
  intros Hc. revert b. induction s as [|d s IH]; intros b; cbn [app split_ws_aux].
  - rewrite Hc. destruct b; [exists []; auto|exists [[]]; auto].
  - destruct (is_ws d).
    + destruct (IH true) as (tl & Ht & E). exists tl. split; [done|]. destruct b; [done|]. by rewrite E.
    + destruct (IH false) as (tl & Ht & E). exists tl. split; [done|]. rewrite E.
      destruct (split_ws_aux false s) eqn:E'; [by apply split_ws_not_nil in E'|done].
Qed.

Lemma words_snoc c s : is_ws c = true -> words (s ++ [c]) = words s.
Proof.
  intros Hc. unfold words, split_ws. destruct (split_ws_snoc c s false Hc) as (tl & [-> | ->] & ->);
    rewrite List.filter_app; by rewrite app_nil_r.
Qed.

Lemma words_trim s : words (trim s) = words s.
Proof.
  assert (H1 : forall s, words (trim_start s) = words s).
  { clear s. intros s. unfold trim_start. induction s as [|c s IH]; [done|]. cbn [drop_while].
    destruct (is_ws c) eqn:E; [|done]. by rewrite words_ws. }
  assert (H2 : forall s, words (trim_end s) = words s).
  { clear s. intros s. unfold trim_end. induction s as [|c s IH] using rev_ind; [done|]. rewrite rev_app_distr. cbn [rev app drop_while].
    destruct (is_ws c) eqn:E; [by rewrite words_snoc|]. by rewrite <- (rev_involutive s) at 2. }
  unfold trim. by rewrite H2, H1.
Qed.

Lemma trim_has_words s : nonempty (trim s) = nonempty (words s).
Proof.
  rewrite <- words_trim. destruct (trim s) as [|c t] eqn:E; [done|].
  assert (Hc : is_ws c = false).
  { unfold trim, trim_start in E. destruct (drop_while_cases is_ws s) as [Ed | (c' & t' & Ed & Hc)]; rewrite Ed in E; [done|].
    destruct (trim_head c' t' Hc) as [t'' Et]. unfold trim, trim_start in Et. rewrite drop_while_head in Et by done. rewrite Et in E. by injection E as <- _. }
  destruct (words_head c t Hc) as (w & ws & ->). done.
Qed.

Lemma split_ws_words b s : Forall (Forall (fun c => is_ws c = false)) (split_ws_aux b s).
Proof.
  revert b. induction s as [|d t IH]; intros b; cbn [split_ws_aux]; [by repeat constructor|].
  destruct (is_ws d) eqn:Ed; [destruct b; [apply IH|constructor; [constructor|apply IH]]|].
  specialize (IH false). destruct (split_ws_aux false t) as [|w ws]; [by repeat constructor|].
  inversion_clear IH. repeat (constructor; try done).
Qed.

Lemma words_are_words s : Forall word (words s).
Proof.
  unfold words. pose proof (split_ws_words false s) as H. unfold split_ws.
  induction H as [|w ws Hw _ IH]; [constructor|]. cbn [List.filter]. destruct w; [done|]. cbn [nonempty]. by constructor.
Qed.

Lemma trim_word t : Forall (fun c => is_ws c = false) t -> trim t = t.
Proof.
  intros H. unfold trim, trim_start, trim_end.
  assert (E : forall l, Forall (fun c => is_ws c = false) l -> drop_while is_ws l = l)
    by (intros l [|c l' Hc _]; cbn [drop_while]; [done|by rewrite Hc]).
  rewrite (E t H), E by by apply Forall_rev. apply rev_involutive.
Qed.

Lemma words_trimmed g : List.filter nonempty (map trim (split_ws g)) = words g.
Proof.
  unfold words. f_equal. rewrite <- (map_id (split_ws g)) at 2. apply map_ext_in. intros t Ht.
  apply trim_word. pose proof (split_ws_words false g) as H. rewrite Forall_forall in H. apply H. by apply list_elem_of_In.
Qed.

(** The groups of a text: the words of the pieces between commas *)
Definition groups (s : str) : list (list str) := List.filter nonempty (map words (split_on 44 s)).

Lemma groups_spec s : map (fun g => List.filter nonempty (map trim (split_ws g))) (List.filter nonempty (map trim (split_on 44 s))) = groups s.
Proof.
  unfold groups. induction (split_on 44 s) as [|g gs IH]; [done|]. cbn [map List.filter].
  rewrite trim_has_words. destruct (nonempty (words g)) eqn:E; [|done]. cbn [map]. by rewrite IH, words_trimmed, words_trim.
Qed.

Lemma groups_blank s : nonempty (trim s) = false -> groups s = [].
Proof.
  rewrite trim_has_words. intros Hw. unfold groups. rewrite split_on_none.
  - cbn [map List.filter]. by rewrite Hw.
  - induction s as [|c s IH]; [constructor|]. destruct (is_ws c) eqn:Ec.
    + rewrite words_ws in Hw by done. constructor; [|by apply IH]. intros ->. done.
    + by destruct (words_head c s Ec) as (w & ws & E); rewrite E in Hw.
Qed.

Lemma dlg_parseGroups_groups s : dlg_parseGroups s = groups s.
Proof. unfold dlg_parseGroups. destruct (nonempty (trim s)) eqn:E; [apply groups_spec|by rewrite groups_blank]. Qed.

Lemma filter_list_filter {A} (l : list (list A)) : filter (fun t => nonempty t = true) l = List.filter nonempty l.
Proof.
  induction l as [|x l IH]; [done|]. rewrite filter_cons. cbn [List.filter].
  destruct (nonempty x) eqn:E; [rewrite decide_True by done|rewrite decide_False by done]; by rewrite IH.
Qed.

Lemma parseGroups_groups lower q : parseGroups lower q = groups (lower q).
Proof.
  unfold parseGroups. destruct (nonempty (trim (lower q))) eqn:E; [|by rewrite groups_blank]. cbn [negb].
  rewrite <- groups_spec, filter_list_filter. apply map_ext. intros g. apply filter_list_filter.
Qed.

(** ** Printing and reading groups *)

Definition token (t : str) : Prop := word t /\ Forall (fun c => c <> 44) t.

Lemma split_on_pieces c s : Forall (Forall (fun d => d <> c)) (split_on c s).
Proof.
  induction s as [|d t IH]; cbn [split_on]; [by repeat constructor|]. destruct (Z.eqb_spec d c); [by constructor|].
  destruct (split_on c t) as [|w ws]; [by repeat constructor|]. inversion_clear IH. repeat (constructor; try done).
Qed.

Lemma words_sub (P : Z -> Prop) s : Forall P s -> Forall (Forall P) (words s).
Proof.
  intros Hs. assert (H : forall b, Forall (Forall P) (split_ws_aux b s)).
  { induction Hs as [|d t Hd _ IH]; intros b; cbn [split_ws_aux]; [by repeat constructor|].
    destruct (is_ws d); [destruct b; [apply IH|constructor; [constructor|apply IH]]|].
    specialize (IH false). destruct (split_ws_aux false t) as [|w ws]; [by repeat constructor|].
    inversion_clear IH. repeat (constructor; try done). }
  unfold words, split_ws. specialize (H false). induction H as [|w ws Hw _ IH]; [constructor|].
  cbn [List.filter]. destruct (nonempty w); [by constructor|done].
Qed.

Lemma groups_tokens s : Forall (fun g => g <> [] /\ Forall token g) (groups s).
Proof.
  unfold groups. pose proof (split_on_pieces 44 s) as H. induction H as [|p ps Hp _ IH]; [constructor|].
  cbn [map List.filter]. destruct (nonempty (words p)) eqn:E; [|done]. constructor; [|done]. split; [by intros E'; rewrite E' in E|].
  pose proof (words_are_words p) as H1. pose proof (words_sub _ _ Hp) as H2. rewrite Forall_forall in H1, H2 |- *.
  intros t Ht. split; [by apply H1|by apply H2].
Qed.

Lemma split_ws_char d s b : is_ws d = false ->
  split_ws_aux b (d :: s) = match split_ws_aux false s with [] => [[d]] | w :: ws => (d :: w) :: ws end.
Proof. intros Hd. cbn [split_ws_aux]. by rewrite Hd. Qed.

Lemma words_word t r c : word t -> is_ws c = true -> words (t ++ c :: r) = t :: words r.
Proof.
  intros [Hne Ht] Hc. destruct Ht as [|d t Hd Ht]; [done|]. clear Hne.
  assert (E : forall b, split_ws_aux b ((d :: t) ++ c :: r) = (d :: t) :: split_ws_aux true r).
  { revert d Hd. induction Ht as [|e t He Ht IH]; intros d Hd b.
    - cbn [app]. rewrite split_ws_char by done. cbn [split_ws_aux]. by rewrite Hc.
    - change ((d :: e :: t) ++ c :: r) with (d :: ((e :: t) ++ c :: r)). by rewrite split_ws_char, (IH e He). }
  unfold words, split_ws. rewrite E. cbn [List.filter nonempty]. f_equal. apply words_in_sep.
Qed.

Lemma words_one t : word t -> words t = [t].
Proof.
  intros [Hne Ht]. unfold words, split_ws.
  assert (E : forall b, split_ws_aux b t = [t]).
  { destruct Ht as [|d t Hd Ht]; [done|]. clear Hne. revert d Hd. induction Ht as [|e t He Ht IH]; intros d Hd b; rewrite split_ws_char by done; [done|].
    by rewrite (IH e He). }
  rewrite E. by destruct t.
Qed.

Lemma words_join ts : Forall word ts -> words (join (js " ") ts) = ts.
Proof.
  induction 1 as [|t ts Ht Hts IH]; [done|]. destruct ts as [|t' ts]; [by apply words_one|].
  change (join (js " ") (t :: t' :: ts)) with (t ++ 32 :: join (js " ") (t' :: ts)). by rewrite words_word, IH.
Qed.

Lemma uniq_spec_aux g u : Forall (fun t => t <> []) g ->
  let r := fold_left (fun u t => if nonempty t && negb (mem_str t u) then u ++ [t] else u) g u in
  (forall t, t ∈ r <-> t ∈ u \/ t ∈ g) /\ (NoDup u -> NoDup r).
Proof.
  intros Hg. revert u. induction Hg as [|x g Hx _ IH]; intros u; cbn [fold_left].
  - split; [|done]. intros t. rewrite elem_of_nil. tauto.
  - destruct (IH (if nonempty x && negb (mem_str x u) then u ++ [x] else u)) as [IH1 IH2].
    assert (Hm : mem_str x u = true <-> x ∈ u).
    { unfold mem_str. rewrite existsb_exists. setoid_rewrite bool_decide_eq_true. setoid_rewrite <- list_elem_of_In. split; [by intros (y & Hy & ->)|by exists x]. }
    assert (Hn : nonempty x = true) by by destruct x. rewrite Hn in *. cbn [andb] in *.
    destruct (mem_str x u) eqn:Em; cbn [negb] in *.
    + split; [|done]. intros t. rewrite IH1, elem_of_cons. pose proof (proj1 Hm eq_refl) as Hx'. split; [tauto|]. intros [Ht | [-> | Ht]]; tauto.
    + split.
      * intros t. rewrite IH1, elem_of_app, list_elem_of_singleton, elem_of_cons. tauto.
      * intros Hu. apply IH2. apply NoDup_app. split_and!; [done| |apply NoDup_singleton].
        intros y Hy ->%list_elem_of_singleton. apply Hm in Hy. done.
Qed.

Lemma uniq_elem g t : Forall (fun t => t <> []) g -> t ∈ uniq g <-> t ∈ g.
Proof. intros Hg. unfold uniq. rewrite (proj1 (uniq_spec_aux g [] Hg)), elem_of_nil. tauto. Qed.

Lemma uniq_nodup g : Forall (fun t => t <> []) g -> NoDup (uniq g).
Proof. intros Hg. apply (proj2 (uniq_spec_aux g [] Hg)). constructor. Qed.

Lemma uniq_id_aux g u : NoDup (u ++ g) -> Forall (fun t => t <> []) g ->
  fold_left (fun u t => if nonempty t && negb (mem_str t u) then u ++ [t] else u) g u = u ++ g.
Proof.
  intros Hn Hg. revert u Hn. induction Hg as [|x g Hx _ IH]; intros u Hn; cbn [fold_left]; [by rewrite app_nil_r|].
  assert (Hm : mem_str x u = false).
  { unfold mem_str. apply not_true_iff_false. rewrite existsb_exists. intros (y & Hy & E). apply bool_decide_eq_true in E as ->.
    apply NoDup_app in Hn as (_ & Hd & _). apply (Hd x); [by apply list_elem_of_In|by left]. }
  destruct x as [|c x]; [done|]. rewrite Hm. cbn [nonempty andb negb]. rewrite IH; [by rewrite <- app_assoc|by rewrite <- app_assoc].
Qed.

Lemma uniq_id g : NoDup g -> Forall (fun t => t <> []) g -> uniq g = g.
Proof. apply (uniq_id_aux g []). Qed.

Lemma tokens_ne g : Forall token g -> Forall (fun t => t <> []) g.
Proof. intros H. eapply Forall_impl; [exact H|]. by intros t ((? & _) & _). Qed.

Lemma uniq_tokens g : Forall token g -> Forall token (uniq g).
Proof. intros H. pose proof (tokens_ne g H) as Hn. rewrite Forall_forall in H |- *. intros t Ht. apply H. by apply (uniq_elem g t Hn). Qed.

Lemma join_no_comma ts : Forall token ts -> Forall (fun c => c <> 44) (join (js " ") ts).
Proof.
  induction 1 as [|t ts [_ Ht] Hts IH]; [constructor|]. destruct ts as [|t' ts]; [done|].
  cbn [join]. apply Forall_app. split; [done|]. apply Forall_app. split; [by repeat constructor|exact IH].
Qed.

Lemma groups_join ps : Forall (fun p => Forall (fun c => c <> 44) p) ps -> groups (join (js ", ") ps) = List.filter nonempty (map words ps).
Proof.
  intros H. unfold groups. destruct H as [|p ps Hp Hps]; [done|].
  assert (E : forall ps p, Forall (fun c => c <> 44) p -> Forall (fun p => Forall (fun c => c <> 44) p) ps ->
    split_on 44 (join (js ", ") (p :: ps)) = p :: map (cons 32) ps).
  { clear. induction ps as [|q ps IH]; intros p Hp Hps; [by apply split_on_none|]. inversion_clear Hps as [|? ? Hq Hps'].
    change (join (js ", ") (p :: q :: ps)) with (p ++ 44 :: 32 :: join (js ", ") (q :: ps)). rewrite split_on_app_sep, split_on_none by done.
    cbn [app map]. f_equal. change (32 :: join (js ", ") (q :: ps)) with ([32] ++ join (js ", ") (q :: ps)).
    cbn [app split_on]. change (32 =? 44) with false. cbv iota. by rewrite (IH q Hq Hps'). }
  rewrite E by done. cbn [map List.filter]. rewrite map_map.
  rewrite (map_ext (fun x => words (32 :: x)) words) by (intros x; by apply words_ws). done.
Qed.

(** Reading what was printed gives the groups back, without repeated words and empty groups. *)
Lemma groups_serialize gs : Forall (Forall token) gs -> groups (serializeGroups gs) = List.filter nonempty (map uniq gs).
Proof.
  intros H. unfold serializeGroups. rewrite groups_join.
  - induction H as [|g gs Hg _ IH]; [done|]. cbn [map List.filter]. pose proof (uniq_tokens g Hg) as Hu.
    assert (Hw : words (join (js " ") (uniq g)) = uniq g) by (apply words_join; eapply Forall_impl; [exact Hu|]; by intros t []).
    destruct (join (js " ") (uniq g)) as [|c j] eqn:E; cbn [nonempty].
    + destruct (uniq g); [done|]. by rewrite IH.
    + cbn [map List.filter]. rewrite Hw, IH. done.
  - induction H as [|g gs Hg _ IH]; [constructor|]. cbn [map List.filter]. destruct (nonempty _); [|done].
    constructor; [|done]. by apply join_no_comma, uniq_tokens.
Qed.

Lemma uniq_nonempty g : g <> [] -> Forall token g -> uniq g <> [].
Proof.
  intros Hne Hg E. destruct g as [|t g]; [done|]. assert (Ht : t ∈ uniq (t :: g)) by (apply uniq_elem; [by apply tokens_ne|by left]).
  rewrite E in Ht. by apply not_elem_of_nil in Ht.
Qed.

Lemma groups_clean s : groups (clean s) = map uniq (groups s).
Proof.
  unfold clean. rewrite dlg_parseGroups_groups. pose proof (groups_tokens s) as H. rewrite groups_serialize.
  - induction H as [|g gs [Hg Ht] _ IH]; [done|]. cbn [map List.filter]. rewrite IH.
    pose proof (uniq_nonempty g Hg Ht). by destruct (uniq g).
  - eapply Forall_impl; [exact H|]. by intros g [].
Qed.

(** ** The meaning of a filter *)

Lemma lower_ws c : is_ws (lower_unit c) = is_ws c.
Proof.
  unfold lower_unit. destruct (is_upper c) eqn:E; [|done]. unfold is_upper in E.
  assert (Hc : 65 <= c <= 90) by lia. unfold is_ws. cbn [existsb]. lia.
Qed.

Lemma lower_comma c : (lower_unit c =? 44) = (c =? 44).
Proof. unfold lower_unit. destruct (is_upper c) eqn:E; [|done]. unfold is_upper in E. lia. Qed.

Lemma split_on_lower s : split_on 44 (ascii_lower s) = map ascii_lower (split_on 44 s).
Proof.
  unfold ascii_lower. induction s as [|c s IH]; [done|]. cbn [map split_on]. rewrite lower_comma, IH.
  destruct (c =? 44); [done|]. by destruct (split_on 44 s).
Qed.

Lemma words_lower s : words (ascii_lower s) = map ascii_lower (words s).
Proof.
  unfold words, split_ws. assert (E : forall b, split_ws_aux b (ascii_lower s) = map ascii_lower (split_ws_aux b s)).
  { unfold ascii_lower. induction s as [|c s IH]; intros b; [done|]. cbn [map split_ws_aux]. rewrite lower_ws, !IH.
    destruct (is_ws c); [by destruct b|]. by destruct (split_ws_aux false s). }
  rewrite E. induction (split_ws_aux false s) as [|w ws IH]; [done|]. cbn [map List.filter]. destruct w; [done|]. cbn [ascii_lower map nonempty]. by rewrite IH.
Qed.

Lemma groups_lower s : groups (ascii_lower s) = map (map ascii_lower) (groups s).
Proof.
  unfold groups. rewrite split_on_lower. induction (split_on 44 s) as [|p ps IH]; [done|]. cbn [map List.filter].
  rewrite words_lower. destruct (words p); [done|]. cbn [map nonempty]. by rewrite IH.
Qed.

Lemma forallb_elem {A} (p : A -> bool) (l1 l2 : list A) : (forall x, x ∈ l1 <-> x ∈ l2) -> forallb p l1 = forallb p l2.
Proof.
  intros H. apply eq_true_iff_eq. rewrite !forallb_forall. setoid_rewrite <- list_elem_of_In. setoid_rewrite H. done.
Qed.

(** A group matches as the group without repetitions. *)
Lemma group_uniq p g : Forall token g -> forallb p (map ascii_lower (uniq g)) = forallb p (map ascii_lower g).
Proof.
  intros Hg. apply forallb_elem. intros x. rewrite !list_elem_of_fmap. setoid_rewrite (uniq_elem g _ (tokens_ne g Hg)). done.
Qed.

Lemma clean_groups_match (p : list str -> bool) s :
  (forall g, Forall token g -> p (map ascii_lower (uniq g)) = p (map ascii_lower g)) ->
  existsb p (groups (ascii_lower (clean s))) = existsb p (groups (ascii_lower s)).
Proof.
  intros Hp. rewrite !groups_lower, groups_clean. pose proof (groups_tokens s) as H.
  induction H as [|g gs [_ Hg] _ IH]; [done|]. cbn [map existsb]. by rewrite IH, Hp.
Qed.

Lemma clean_groups_nonempty s : nonempty (groups (ascii_lower (clean s))) = nonempty (groups (ascii_lower s)).
Proof. rewrite !groups_lower, groups_clean. by destruct (groups s). Qed.

Lemma clean_text_match h s : matchTextByGroups ascii_lower h (clean s) = matchTextByGroups ascii_lower h s.
Proof.
  unfold matchTextByGroups. rewrite !parseGroups_groups, clean_groups_nonempty. destruct (negb _); [done|].
  apply clean_groups_match. intros g Hg. by apply group_uniq.
Qed.

Lemma existsb_ext_eq {A} (p q : A -> bool) l : (forall x, p x = q x) -> existsb p l = existsb q l.
Proof. intros H. induction l as [|x l IH]; [done|]. cbn [existsb]. by rewrite H, IH. Qed.

Lemma clean_any_match cs s : matchAnyCandidateByGroups ascii_lower cs (clean s) = matchAnyCandidateByGroups ascii_lower cs s.
Proof.
  unfold matchAnyCandidateByGroups. rewrite !parseGroups_groups, clean_groups_nonempty. destruct (negb _); [done|].
  destruct (negb _); [done|]. apply clean_groups_match. intros g Hg. apply existsb_ext_eq. intros c. by apply group_uniq.
Qed.

(** A field that has text but no word excludes nothing, like an empty field. *)
Lemma has_irrelevant s m : (groups (ascii_lower s) = [] -> m = true) -> nonempty (trim s) && negb m = negb m.
Proof.
  intros H. destruct (nonempty (trim s)) eqn:E; [done|]. rewrite H; [done|]. by rewrite groups_lower, groups_blank.
Qed.

Lemma text_no_groups h s : groups (ascii_lower s) = [] -> matchTextByGroups ascii_lower h s = true.
Proof. intros E. unfold matchTextByGroups. by rewrite parseGroups_groups, E. Qed.

Lemma any_no_groups cs s : groups (ascii_lower s) = [] -> matchAnyCandidateByGroups ascii_lower cs s = true.
Proof. intros E. unfold matchAnyCandidateByGroups. by rewrite parseGroups_groups, E. Qed.

Lemma filter_meaning f e : matchesFilter ascii_lower (Some (normalizeAll f)) e = matchesFilter ascii_lower (Some f) e.
Proof.
  unfold matchesFilter, normalizeAll. cbn [f_pid f_src f_proc f_msg].
  rewrite !(has_irrelevant (clean _)) by (intros E; (by apply text_no_groups) || (by apply any_no_groups)).
  rewrite !(has_irrelevant (f_msg f)), !(has_irrelevant (f_proc f)), !(has_irrelevant (f_pid f)), !(has_irrelevant (f_src f))
    by (intros E; (by apply text_no_groups) || (by apply any_no_groups)).
  by rewrite !clean_text_match, clean_any_match.
Qed.

Lemma clean_idem s : clean (clean s) = clean s.
Proof.
  unfold clean at 1. rewrite dlg_parseGroups_groups, groups_clean. unfold clean. rewrite dlg_parseGroups_groups.
  unfold serializeGroups. f_equal. f_equal. rewrite map_map. apply map_ext_in. intros g Hin.
  pose proof (groups_tokens s) as H. rewrite Forall_forall in H. apply list_elem_of_In, H in Hin as [_ Hg].
  f_equal. apply uniq_id; [by apply uniq_nodup, tokens_ne|by apply tokens_ne, uniq_tokens].
Qed.

Definition dialog_init (f : log_filter) : dialog := MkDialog false f [].

(** C34: What the dialog applies is what was typed: whatever was edited before, applying adds one
    filter, which accepts exactly the entries the text accepts, is in normal form, and is what
    the dialog shows afterwards. *)
Theorem dialog_applies_text es f0 :
  let d := fold_left dialog_do es (dialog_init f0) in
  let d' := dialog_do d DoApply in
  exists g, dl_applied d' = dl_applied d ++ [g] /\ normalizeAll g = g /\ dl_local d' = g /\ dl_open d' = false /\
    forall e, matchesFilter ascii_lower (Some g) e = matchesFilter ascii_lower (Some (dl_local d)) e.
Proof.
  intros d d'. assert (Hi : forall f, normalizeAll (normalizeAll f) = normalizeAll f) by (intros f; unfold normalizeAll; cbn; by rewrite !clean_idem).
  exists (normalizeAll (dl_local d)). cbn [d' dialog_do dialog_apply dl_applied dl_local dl_open]. unfold d'. cbn [dialog_do dialog_apply dl_applied dl_local dl_open].
  rewrite Hi. split_and!; try done. intros e. apply filter_meaning.
Qed.

(** Removing a word of a group removes it from that group alone, and the group with it when no
    word is left; the other fields keep their text. *)
Theorem token_removed k i t f :
  let gs := groups (get_field k f) in
  let f' := removeTokenAt k i t f in
  (is_Some (gs !! i) -> groups (get_field k f') = List.filter nonempty (map uniq (alter (List.filter (fun x => negb (bool_decide (x = t)))) i gs))) /\
  (gs !! i = None -> f' = f) /\
  forall k', k' <> k -> get_field k' f' = get_field k' f.
Proof.
  intros gs f'. unfold f', removeTokenAt. rewrite dlg_parseGroups_groups. fold gs. split_and!.
  - intros [g Hg]. rewrite Hg. unfold setGroupsFor. set (h := List.filter _ g).
    assert (Ht : Forall (Forall token) gs) by (eapply Forall_impl; [apply groups_tokens|]; by intros ? []).
    assert (Hh : Forall token h).
    { unfold h. rewrite Forall_forall in Ht. apply list_elem_of_lookup_2 in Hg as Hin. specialize (Ht g Hin). rewrite Forall_forall in Ht |- *.
      intros x Hx. apply list_elem_of_In, List.filter_In in Hx as [Hx _]. by apply Ht, list_elem_of_In. }
    assert (Hget : forall v, get_field k (set_field k v f) = v) by by destruct k. rewrite Hget.
    assert (Ha : alter (List.filter (fun x => negb (bool_decide (x = t)))) i gs = <[i := h]> gs).
    { apply list_eq. intros j. destruct (decide (j = i)) as [->|Hne].
      - rewrite list_lookup_alter_eq, Hg, list_lookup_insert_eq; [done|]. by apply lookup_lt_Some in Hg.
      - by rewrite list_lookup_alter_ne, list_lookup_insert_ne by done. }
    rewrite Ha. destruct h as [|x h'] eqn:Eh; cbn [nonempty].
    + rewrite groups_serialize.
      * rewrite insert_take_drop by by apply lookup_lt_Some in Hg. unfold splice1. rewrite !map_app, !List.filter_app. done.
      * unfold splice1. apply Forall_app. split; [by apply Forall_take|by apply Forall_drop].
    + apply groups_serialize. by apply Forall_insert.
  - intros Hn. by rewrite Hn.
  - intros k' Hk. destruct (gs !! i); [|done]. unfold setGroupsFor. by destruct k, k'.
Qed.

(** A pause after a comma: leaving the field removes the group that was just begun. *)
Example blur_drops_new_group :
  let d := fold_left dialog_do [DoType FMsg (js "wlan host"); DoAddOr FMsg; DoBlur FMsg] (dialog_init (Filter [] [] [] [])) in
  f_msg (dl_local d) = js "wlan host".
Proof. by vm_compute. Qed.
