(* ===== verification/Perf.v ===== *)
(** * Perf

    The profiler of src/core/logging/perf.ts: the hooks it installs on the file functions, what a
    capture collects, and the analysis of a capture.  Times are rational numbers of milliseconds;
    the arrays of a capture live in a store because the result of a capture shares them. *)

From stdpp Require Import base list strings gmap.
From Stdlib Require Import ZArith QArith Lqa Lia.
From S2P Require Import Prelude JsString.
#[local] Open Scope Z_scope.

(** ** Hooks *)

(** A function of [fs.promises], of [fs] or of [vscode.workspace.fs]; [Bound] is the result of
    [bind], [Wrapped] records the call and passes it on, [Auto] does so while the profiler is on. *)
Inductive impl := Original | Bound (i : impl) | Wrapped (i : impl) | Auto (i : impl).

Inductive hook := HPromise (op : str) | HFs (op : str) | HVscode (op : str).

#[export] Instance hook_eq_dec : EqDecision hook.
Proof. solve_decision. Defined.

Definition PROMISE_OPS : list str :=
  [js "readFile"; js "writeFile"; js "appendFile"; js "readdir"; js "stat"; js "unlink"; js "mkdir"; js "rmdir"; js "rm";
   js "copyFile"; js "rename"].
Definition FS_OPS : list str := [js "readFile"; js "writeFile"; js "createReadStream"; js "createWriteStream"].
Definition VSCODE_OPS : list str :=
  [js "readFile"; js "writeFile"; js "stat"; js "readDirectory"; js "createDirectory"; js "delete"; js "copy"; js "rename"].

Definition AUTO_OPS : list str :=
  [js "readFile"; js "writeFile"; js "appendFile"; js "readdir"; js "stat"; js "lstat"; js "open"; js "unlink"; js "mkdir";
   js "rmdir"; js "rm"; js "copyFile"; js "rename"; js "readlink"; js "symlink"].

(** [hk_patched] are the functions of [fs] that could be replaced; [hk_origV] is [origVscodeFs],
    [hk_auto] is [_fsPatched]. *)
Record hooks := MkHooks {
  hk_table : hook -> impl;
  hk_installed : bool;
  hk_patched : list str;
  hk_origV : option (str -> impl);
  hk_auto : bool }.

Definition hk_init : hooks := MkHooks (fun _ => Original) false [] None false.

Definition mem_op (op : str) (l : list str) : bool := existsb (fun x => bool_decide (x = op)) l.

Section hooks.
(** Which functions the runtime has, and which of [fs] it lets the code replace *)
Context (has_promise writable has_vscode : str -> bool) (vscode_there : bool).

Definition installHooks (h : hooks) : hooks :=
  if hk_installed h then h
  else
    let patched := List.filter writable FS_OPS in
    let origV := if vscode_there then Some (fun op => Bound (hk_table h (HVscode op))) else hk_origV h in
    MkHooks
      (fun k => match k with
                | HPromise op => if mem_op op PROMISE_OPS && has_promise op then Wrapped Original else hk_table h k
                | HFs op => if mem_op op patched then Wrapped Original else hk_table h k
                | HVscode op => if vscode_there && mem_op op VSCODE_OPS && has_vscode op then Wrapped (Bound (hk_table h k)) else hk_table h k
                end)
      true patched origV (hk_auto h).

Definition uninstallHooks (h : hooks) : hooks :=
  if negb (hk_installed h) then h
  else
    MkHooks
      (fun k => match k with
                | HPromise op => if mem_op op PROMISE_OPS && has_promise op then Original else hk_table h k
                | HFs op => if mem_op op (hk_patched h) then Original else hk_table h k
                | HVscode op => match hk_origV h with
                                | Some orig => if vscode_there && mem_op op VSCODE_OPS && has_vscode op then orig op else hk_table h k
                                | None => hk_table h k
                                end
                end)
      false [] (hk_origV h) (hk_auto h).

Definition auto_op (k : hook) : bool := match k with HPromise op => mem_op op AUTO_OPS && has_promise op | _ => false end.

(** [enableAutoFsIOMeasure] *)
Definition enableAutoFsIOMeasure (h : hooks) : hooks :=
  if hk_auto h then h
  else MkHooks (fun k => if auto_op k then Auto (hk_table h k) else hk_table h k) (hk_installed h) (hk_patched h) (hk_origV h) true.

(** A capture of the monitor starts and stops. *)
Definition hook_toggle (h : hooks) (on : bool) : hooks :=
  if on then installHooks (enableAutoFsIOMeasure h) else uninstallHooks h.

(** How many recordings a call makes *)
Fixpoint records (on : bool) (i : impl) : nat :=
  match i with
  | Original => 0
  | Bound i => records on i
  | Wrapped i => S (records on i)
  | Auto i => (if on then 1 else 0) + records on i
  end.

Fixpoint bound_depth (i : impl) : nat :=
  match i with Original => 0 | Bound i => S (bound_depth i) | Wrapped i | Auto i => bound_depth i end.

Definition hooked (k : hook) : bool :=
  match k with
  | HPromise op => mem_op op PROMISE_OPS && has_promise op
  | HFs op => mem_op op (List.filter writable FS_OPS)
  | HVscode op => vscode_there && mem_op op VSCODE_OPS && has_vscode op
  end.
End hooks.

(** ** Streams *)

Inductive stream_event := SData (bytes : nat) | SEnd | SFinish | SClose | SError (message : str).

(** A recorded operation: how many bytes, or the error *)
Record io_metric := MkIo { io_op : str; io_duration : Q; io_bytes : option nat; io_error : option str }.

Definition stream_metric (op : str) (bytes : nat) (err : option str) : io_metric :=
  match err with None => MkIo op 0%Q (Some bytes) None | Some e => MkIo op 0%Q None (Some e) end.

(** The listeners on a read stream: [finalize] has a guard. *)
Fixpoint read_stream (bytes : nat) (finalized : bool) (es : list stream_event) : list io_metric :=
  let op := js "fs.readStream" in
  match es with
  | [] => []
  | SData n :: es' => read_stream (bytes + n) finalized es'
  | SEnd :: es' | SClose :: es' => (if finalized then [] else [stream_metric op bytes None]) ++ read_stream bytes true es'
  | SError m :: es' => (if finalized then [] else [stream_metric op bytes (Some m)]) ++ read_stream bytes true es'
  | SFinish :: es' => read_stream bytes finalized es'
  end.

(** The listeners on a write stream; [SData] is a call of [write]. *)
Fixpoint write_stream (bytes : nat) (es : list stream_event) : list io_metric :=
  let op := js "fs.writeStream" in
  match es with
  | [] => []
  | SData n :: es' => write_stream (bytes + n) es'
  | SFinish :: es' | SClose :: es' => stream_metric op bytes None :: write_stream bytes es'
  | SError m :: es' => stream_metric op bytes (Some m) :: write_stream bytes es'
  | SEnd :: es' => write_stream bytes es'
  end.

(** ** Wrapped functions *)

(** [Buffer.byteLength(s, 'utf8')] *)
Fixpoint byteLength (s : str) : nat :=
  match s with
  | [] => 0
  | u :: s' =>
      if u <? 128 then S (byteLength s')
      else if u <? 2048 then 2 + byteLength s'
      else if (55296 <=? u) && (u <? 56320) then
        match s' with
        | v :: s'' => if (56320 <=? v) && (v <? 57344) then 4 + byteLength s'' else 3 + byteLength s'
        | [] => 3
        end
      else 3 + byteLength s'
  end.

(** What a file is written with: a buffer, a text, or something that may have a length *)
Inductive io_data := IoBuffer (n : nat) | IoText (s : str) | IoOther (len : option nat).

Definition data_bytes (d : io_data) : option nat :=
  match d with IoBuffer n => Some n | IoText s => Some (byteLength s) | IoOther len => len end.

(** A wrapped function of [fs.promises]: [ret] is the length of what it gives, or [Throws], with
    the message [e]; the call is recorded and ends as it would have. *)
Definition wrapP (op : str) (ret : js_result (option nat)) (data : io_data) (e : str) (t0 t1 : Q) : js_result (option nat) * io_metric :=
  let name := js "fs." ++ op in
  match ret with
  | Ok len =>
      let bytes := if bool_decide (op = js "writeFile") || bool_decide (op = js "appendFile") then data_bytes data
                   else if bool_decide (op = js "readFile") then len else None in
      (ret, MkIo name (t1 - t0)%Q bytes None)
  | Throws => (ret, MkIo name (t1 - t0)%Q None (Some e))
  end.

(** ** Analysis *)

Record fcall := MkCall { fc_name : str; fc_start : Q; fc_duration : Q }.

Record fstats := MkStats { fs_count : nat; fs_total : Q; fs_avg : Q; fs_max : Q }.

Definition qof (n : nat) : Q := inject_Z (Z.of_nat n).

Definition Qmx (a b : Q) : Q := if Qle_bool a b then b else a.

Definition add_to (c : fcall) (s : fstats) : fstats :=
  let n := S (fs_count s) in
  let t := (fs_total s + fc_duration c)%Q in
  MkStats n t (t / qof n)%Q (Qmx (fs_max s) (fc_duration c)).

(** An object as its members in the order of their creation *)
Fixpoint add_call (acc : list (str * fstats)) (c : fcall) : list (str * fstats) :=
  match acc with
  | [] => [(fc_name c, add_to c (MkStats 0 0%Q 0%Q 0%Q))]
  | (n, s) :: acc' => if bool_decide (n = fc_name c) then (n, add_to c s) :: acc' else (n, s) :: add_call acc' c
  end.

Definition functionSummary (calls : list fcall) : list (str * fstats) := fold_left add_call calls [].

Definition Qsum (l : list Q) : Q := fold_left Qplus l 0%Q.

(** [Math.max] and [Math.min] of a list that is not empty *)
Definition Qmax_of (l : list Q) : Q := match l with [] => 0%Q | x :: l' => fold_left Qmx l' x end.
Definition Qmn (a b : Q) : Q := if Qle_bool a b then a else b.
Definition Qmin_of (l : list Q) : Q := match l with [] => 0%Q | x :: l' => fold_left Qmn l' x end.

(** The mean of a list, and what the code gives for an empty one *)
Definition Qmean (l : list Q) : Q := match l with [] => 0%Q | _ => (Qsum l / qof (length l))%Q end.

Record op_summary := MkSummary { os_count : nat; os_avg : Q; os_max : Q; os_total : Q; os_errors : nat; os_bytes : nat }.

Definition summarize (ops : list io_metric) : op_summary :=
  let total := Qsum (map io_duration ops) in
  MkSummary (length ops) (total / qof (Nat.max 1 (length ops)))%Q (Qmax_of (map io_duration ops)) total
    (length (List.filter (fun o => match io_error o with Some e => nonempty e | None => false end) ops))
    (fold_left Nat.add (map (fun o => or_else (io_bytes o) 0%nat) ops) 0%nat).

Fixpoint group_op (acc : list (str * list io_metric)) (m : io_metric) : list (str * list io_metric) :=
  match acc with
  | [] => [(io_op m, [m])]
  | (op, l) :: acc' => if bool_decide (op = io_op m) then (op, l ++ [m]) :: acc' else (op, l) :: group_op acc' m
  end.

Definition perOp (ms : list io_metric) : list (str * op_summary) :=
  map (fun g => (g.1, summarize g.2)) (fold_left group_op ms []).

Definition Qlt_bool (a b : Q) : bool := negb (Qle_bool b a).

(** [analyzeIOMetrics] *)
Record io_analysis := MkIoAnalysis { ia_perOp : list (str * op_summary); ia_total : nat; ia_time : Q }.

Definition analyzeIOMetrics (ms : list io_metric) : io_analysis :=
  match ms with [] => MkIoAnalysis [] 0 0%Q | _ => MkIoAnalysis (perOp ms) (length ms) (Qsum (map io_duration ms)) end.

(** [slowFunctions] of [detectBottlenecks] *)
Definition slowFunctions (summary : list (str * fstats)) : list str :=
  let avgs := map (fun e => fs_avg e.2) summary in
  let overall := Qmean avgs in
  map fst (List.filter (fun e => Qlt_bool (overall * 2)%Q (fs_avg e.2)) summary).

Definition slowIO (ops : list (str * op_summary)) : bool := existsb (fun e => Qlt_bool 100%Q (os_avg e.2)) ops.

Record bottlenecks := MkBn { bn_slowFunctions : list str; bn_highMemory : bool; bn_slowIO : bool }.

Definition detectBottlenecks (summary : list (str * fstats)) (memory : list Q) (io : io_analysis) : bottlenecks :=
  MkBn (slowFunctions summary) (Qlt_bool (Qmean memory * (3 # 2))%Q (Qmax_of memory)) (slowIO (ia_perOp io)).

(** A sample of the interval: when it was taken, the processor times so far in microseconds and
    the size of the heap *)
Record psample := MkSample { sm_time : Q; sm_user : Z; sm_system : Z; sm_heap : Z }.

(** The texts of the insights, by what they say *)
Inductive insight :=
  | IoShare (percent : Q)
  | IoErrors (ops : list str)
  | SlowFunctions (names : list str)
  | HighMemory
  | SlowIO
  | SlowOps (ops : list (str * Q))
  | ManyCalls.

Definition LOG_TOTAL_CALLS_THRESHOLD : nat := 1000.

Definition when {A} (b : bool) (x : A) : list A := if b then [x] else [].

Definition span_of (samples : list psample) (summary : list (str * fstats)) : Q :=
  match samples with
  | [] => Qsum (map (fun e => fs_total e.2) summary)
  | first :: _ => (sm_time (List.last samples first) - sm_time first)%Q
  end.

Definition generateInsights (samples : list psample) (summary : list (str * fstats)) (b : bottlenecks) (io : io_analysis) : list insight :=
  let totalTime := span_of samples summary in
  let ioPct := if Qlt_bool 0%Q totalTime then (ia_time io / totalTime * 100)%Q else 0%Q in
  let errOps := map fst (List.filter (fun e => (0 <? os_errors e.2)%nat) (ia_perOp io)) in
  let slowOps := map (fun e => (e.1, os_avg e.2)) (List.filter (fun e => Qlt_bool 100%Q (os_avg e.2)) (ia_perOp io)) in
  let totalCalls := fold_left Nat.add (map (fun e => fs_count e.2) summary) 0%nat in
  when (0 <? ia_total io)%nat (IoShare ioPct) ++
  when (nonempty errOps) (IoErrors errOps) ++
  when (nonempty (bn_slowFunctions b)) (SlowFunctions (bn_slowFunctions b)) ++
  when (bn_highMemory b) HighMemory ++
  when (bn_slowIO b) SlowIO ++
  when (nonempty slowOps) (SlowOps slowOps) ++
  when (LOG_TOTAL_CALLS_THRESHOLD <? totalCalls)%nat ManyCalls.

(** The differences of successive samples, in milliseconds *)
Fixpoint deltas (f : psample -> Z) (l : list psample) : list Q :=
  match l with
  | prev :: ((curr :: _) as l') => (inject_Z (f curr - f prev) / 1000)%Q :: deltas f l'
  | _ => []
  end.

Record analysis := MkAnalysis {
  an_samples : nat;
  an_avgCpuUser : Q; an_avgCpuSystem : Q; an_maxCpuUser : Q; an_maxCpuSystem : Q;
  an_avgMemory : Q; an_maxMemory : Q; an_minMemory : Q;
  an_functions : list (str * fstats);
  an_ioMetrics : list io_metric;
  an_io : io_analysis;
  an_bottlenecks : bottlenecks;
  an_insights : list insight }.

(** [analyzeSamples]: an empty object without a sample *)
Definition analyzeSamples (samples : list psample) (calls : list fcall) (io : list io_metric) : option analysis :=
  match samples with
  | [] => None
  | _ =>
      let user := deltas sm_user samples in
      let system := deltas sm_system samples in
      let memory := map (fun s => inject_Z (sm_heap s)) samples in
      let summary := functionSummary calls in
      let ioAnalysis := analyzeIOMetrics io in
      let b := detectBottlenecks summary memory ioAnalysis in
      Some (MkAnalysis (length samples) (Qmean user) (Qmean system) (Qmax_of user) (Qmax_of system)
              (Qmean memory) (Qmax_of memory) (Qmin_of memory) summary io ioAnalysis b
              (generateInsights samples summary b ioAnalysis))
  end.

(** ** Captures *)

(** What [stopCapture] returns: the array of calls is named by its number *)
Record capture := MkCapture { ca_duration : Q; ca_samples : list psample; ca_calls : nat; ca_analysis : option analysis }.

(** The arrays of function calls, by the number of the capture that made them; [cp_result] is
    [lastCaptureResult] *)
Record profiler := MkProf {
  cp_enabled : bool;
  cp_capturing : bool;
  cp_store : gmap nat (list fcall);
  cp_calls : nat;                       (* the array [this.functionCalls] *)
  cp_next : nat;
  cp_start : Q;
  cp_samples : list psample;
  cp_io : list io_metric;
  cp_result : option capture }.

Definition cp_init : profiler := MkProf false false {[0%nat := []]} 0 1 0%Q [] [] None.

Definition array_of (a : nat) (p : profiler) : list fcall := or_else (cp_store p !! a) [].

(** [this.functionCalls.push] *)
Definition push_call (c : fcall) (p : profiler) : profiler :=
  MkProf (cp_enabled p) (cp_capturing p) (<[cp_calls p := array_of (cp_calls p) p ++ [c]]> (cp_store p)) (cp_calls p)
         (cp_next p) (cp_start p) (cp_samples p) (cp_io p) (cp_result p).

Definition recordFunctionCall (c : fcall) (p : profiler) : profiler := if negb (cp_enabled p) then p else push_call c p.

Definition recordIOMetrics (m : io_metric) (p : profiler) : profiler :=
  if cp_capturing p
  then MkProf (cp_enabled p) true (cp_store p) (cp_calls p) (cp_next p) (cp_start p) (cp_samples p) (cp_io p ++ [m]) (cp_result p)
  else p.

Definition startCapture (now : Q) (p : profiler) : profiler :=
  if cp_capturing p || negb (cp_enabled p) then p
  else MkProf (cp_enabled p) true (<[cp_next p := []]> (cp_store p)) (cp_next p) (S (cp_next p)) now [] [] (cp_result p).

(** The interval pushes a sample. *)
Definition sample (s : psample) (p : profiler) : profiler :=
  if cp_capturing p
  then MkProf (cp_enabled p) true (cp_store p) (cp_calls p) (cp_next p) (cp_start p) (cp_samples p ++ [s]) (cp_io p) (cp_result p)
  else p.

Definition stopCapture (now : Q) (p : profiler) : profiler :=
  if negb (cp_capturing p) then p
  else
    let result := MkCapture (now - cp_start p)%Q (cp_samples p) (cp_calls p)
                    (analyzeSamples (cp_samples p) (array_of (cp_calls p) p) (cp_io p)) in
    MkProf (cp_enabled p) false (cp_store p) (cp_calls p) (cp_next p) (cp_start p) (cp_samples p) (cp_io p) (Some result).

Definition set_enabled (on : bool) (p : profiler) : profiler :=
  MkProf on (cp_capturing p) (cp_store p) (cp_calls p) (cp_next p) (cp_start p) (cp_samples p) (cp_io p) (cp_result p).

Inductive prof_op :=
  | PrEnable | PrDisable | PrCall (c : fcall) | PrIo (m : io_metric) | PrStart (now : Q) | PrSample (s : psample) | PrStop (now : Q).

Definition prof_do (p : profiler) (e : prof_op) : profiler :=
  match e with
  | PrEnable => set_enabled true p
  | PrDisable => set_enabled false p
  | PrCall c => recordFunctionCall c p
  | PrIo m => recordIOMetrics m p
  | PrStart now => startCapture now p
  | PrSample s => sample s p
  | PrStop now => stopCapture now p
  end.

(** [getLastCaptureResult().functionCalls] *)
Definition last_calls (p : profiler) : list fcall := match cp_result p with Some c => array_of (ca_calls c) p | None => [] end.

(** ** Measuring *)

(** [measured] and [measuredAsync]: [on] is whether the profiler was on when the function was
    called, [r] is how the function ends, at [t1], and [p] is the profiler then. *)
Definition measured {A} (on : bool) (name : str) (t0 t1 : Q) (r : js_result A) (p : profiler) : js_result A * profiler :=
  if negb on then (r, p) else (r, recordFunctionCall (MkCall name t0 (t1 - t0)%Q) p).

(** The decorator [@measure(name)] of a method *)
Definition measure {A} (name : option str) (key : str) (on : bool) (t0 t1 : Q) (r : js_result A) (p : profiler) : js_result A * profiler :=
  let funcName := match name with Some n => if nonempty n then n else key | None => key end in
  if negb on then (r, p) else (r, recordFunctionCall (MkCall funcName t0 (t1 - t0)%Q) p).

(** [measureBlock] *)
Definition measureBlock {A} (on : bool) (name : str) (t0 t1 : Q) (r : js_result A) (p : profiler) : js_result A * profiler :=
  if negb on then (r, p)
  else match r with
       | Ok a => (Ok a, recordFunctionCall (MkCall name t0 (t1 - t0)%Q) p)
       | Throws => (Throws, recordFunctionCall (MkCall name t0 (t1 - t0)%Q) p)
       end.

(** [measureFunction] asks whether the profiler is on at the beginning only. *)
Definition measureFunction {A} (on : bool) (name : str) (t0 t1 : Q) (r : js_result A) (p : profiler) : js_result A * profiler :=
  if negb on then (r, p) else (r, push_call (MkCall name t0 (t1 - t0)%Q) p).

(** [measureIO]: [e] is the message of the error, when the function throws *)
Definition measureIO {A} (on : bool) (op : str) (t0 t1 : Q) (r : js_result A) (e : str) (p : profiler) : js_result A * profiler :=
  if negb on then (r, p)
  else match r with
       | Ok a => (Ok a, recordIOMetrics (MkIo op (t1 - t0)%Q None None) p)
       | Throws => (Throws, recordIOMetrics (MkIo op (t1 - t0)%Q None (Some e)) p)
       end.

(** [measureAllMethods] and [measureAllExports]: which members of an object are wrapped, and
    under what name their calls are recorded *)
Definition measured_name (prefix member : str) : str := prefix ++ js "." ++ member.

Definition measureAllMethods (prefix : str) (members : list (str * bool)) : list (str * option str) :=
  map (fun m : str * bool => (m.1, if m.2 && negb (bool_decide (m.1 = js "constructor")) then Some (measured_name prefix m.1) else None)) members.

Definition measureAllExports (prefix : str) (exclude : list str) (members : list (str * bool)) : list (str * option str) :=
  map (fun m : str * bool => (m.1, if mem_op m.1 exclude then None else if m.2 then Some (measured_name prefix m.1) else None)) members.

(** ** Theorems on the hooks *)

Section hooks_ok.
Context (has_promise writable has_vscode : str -> bool) (vscode_there : bool).
Abbreviation install := (installHooks has_promise writable has_vscode vscode_there).
Abbreviation uninstall := (uninstallHooks has_promise has_vscode vscode_there).
Abbreviation toggle := (hook_toggle has_promise writable has_vscode vscode_there).
Abbreviation is_hooked := (hooked has_promise writable has_vscode vscode_there).

Abbreviation automatic := (auto_op has_promise).

(** The state after [n] installations *)
Record hooks_ok (n : nat) (h : hooks) : Prop := {
  ho_rest k : is_hooked k = false -> hk_table h k = if automatic k && hk_auto h then Auto Original else Original;
  ho_promise op : is_hooked (HPromise op) = true -> hk_table h (HPromise op) = if hk_installed h then Wrapped Original else Original;
  ho_fs op : is_hooked (HFs op) = true -> hk_table h (HFs op) = if hk_installed h then Wrapped Original else Original;
  ho_patched : hk_patched h = if hk_installed h then List.filter writable FS_OPS else [];
  ho_auto : hk_installed h = true -> hk_auto h = true;
  ho_vscode op : is_hooked (HVscode op) = true ->
    exists i, records false i = 0%nat /\ records true i = 0%nat /\ bound_depth i = n /\
      hk_table h (HVscode op) = (if hk_installed h then Wrapped i else i) /\
      (hk_installed h = true -> exists f, hk_origV h = Some f /\ f op = i) }.

Lemma auto_table h k :
  hk_table (enableAutoFsIOMeasure has_promise h) k = if automatic k && negb (hk_auto h) then Auto (hk_table h k) else hk_table h k.
Proof. unfold enableAutoFsIOMeasure. destruct (hk_auto h); cbn [hk_table negb]; [by rewrite andb_false_r|by rewrite andb_true_r]. Qed.

Lemma auto_fields h :
  hk_installed (enableAutoFsIOMeasure has_promise h) = hk_installed h /\ hk_auto (enableAutoFsIOMeasure has_promise h) = true.
Proof. unfold enableAutoFsIOMeasure. by destruct (hk_auto h) eqn:E. Qed.

Lemma install_ok n h : hk_installed h = false -> hooks_ok n h -> hooks_ok (S n) (toggle h true).
Proof.
  intros Hi [Hr Hp Hf Hpt Hau Hv]. cbn [hook_toggle]. destruct (auto_fields h) as [F1 F2]. unfold installHooks. rewrite F1, Hi in *.
  split; cbn [hk_table hk_installed hk_patched hk_origV hk_auto]; rewrite ?F2.
  - intros k Hk. assert (E : hk_table (enableAutoFsIOMeasure has_promise h) k = if automatic k && true then Auto Original else Original).
    { rewrite auto_table, (Hr k Hk). by destruct (automatic k), (hk_auto h). }
    destruct k as [op|op|op]; cbn [hooked] in Hk; rewrite Hk; exact E.
  - intros op Hk. cbn [hooked] in Hk. by rewrite Hk.
  - intros op Hk. cbn [hooked] in Hk. by rewrite Hk.
  - done.
  - done.
  - intros op Hk. destruct (Hv op Hk) as (i & R1 & R2 & B & T & _). cbn [hooked] in Hk. rewrite Hk, auto_table, T. cbn [auto_op andb].
    exists (Bound i). split_and!; [done|done|by rewrite <- B|done|]. intros _. destruct vscode_there; [|done].
    eexists. split; [done|]. cbv beta. by rewrite auto_table, T.
Qed.

Lemma install_again n h : hk_installed h = true -> hooks_ok n h -> toggle h true = h.
Proof. intros Hi Hh. cbn [hook_toggle]. unfold enableAutoFsIOMeasure. rewrite (ho_auto _ _ Hh Hi). unfold installHooks. by rewrite Hi. Qed.

Lemma uninstall_ok n h : hk_installed h = true -> hooks_ok n h -> hooks_ok n (uninstall h).
Proof.
  intros Hi [Hr Hp Hf Hpt Hau Hv]. unfold uninstallHooks. rewrite Hi in *. cbn [negb].
  split; cbn [hk_table hk_installed hk_patched hk_origV hk_auto].
  - intros [op|op|op] Hk; pose proof (Hr _ Hk) as E; cbn [hooked] in Hk.
    + by rewrite Hk.
    + by rewrite Hpt, Hk.
    + destruct (hk_origV h); by rewrite ?Hk.
  - intros op Hk. cbn [hooked] in Hk. by rewrite Hk.
  - intros op Hk. cbn [hooked] in Hk. by rewrite Hpt, Hk.
  - done.
  - done.
  - intros op Hk. destruct (Hv op Hk) as (i & R1 & R2 & B & T & O). destruct (O eq_refl) as (f & -> & E). cbn [hooked] in Hk.
    rewrite Hk, E. exists i. by split_and!.
Qed.

(** How often the hooks are really installed *)
Fixpoint installs (on : bool) (ts : list bool) : nat :=
  match ts with
  | [] => 0
  | true :: ts' => (if on then 0 else 1) + installs true ts'
  | false :: ts' => installs false ts'
  end.

Lemma last_toggle (on b : bool) (ts : list bool) : List.last (on :: ts) b = List.last ts on.
Proof. destruct ts as [|t ts]; [done|]. cbn [List.last]. revert t. induction ts as [|t' ts IH]; intros t; [done|apply (IH t')]. Qed.

Lemma toggles_ok : forall ts n h, hooks_ok n h ->
  hooks_ok (n + installs (hk_installed h) ts) (fold_left toggle ts h) /\
  hk_installed (fold_left toggle ts h) = List.last ts (hk_installed h).
Proof.
  induction ts as [|on ts IH]; intros n h Hh; [split; [by rewrite Nat.add_0_r|done]|]. cbn [fold_left installs]. rewrite last_toggle.
  destruct on.
  - destruct (hk_installed h) eqn:Hi.
    + rewrite (install_again n h Hi Hh). destruct (IH n h Hh) as [H1 H2]. rewrite Hi in *. by split.
    + destruct (IH (S n) (toggle h true) (install_ok n h Hi Hh)) as [H1 H2].
      assert (E : hk_installed (toggle h true) = true) by (cbn [hook_toggle]; unfold installHooks; rewrite (proj1 (auto_fields h)), Hi; done).
      rewrite E in *. split; [|done]. by replace (n + (1 + installs true ts))%nat with (S n + installs true ts)%nat by lia.
  - change (toggle h false) with (uninstall h). destruct (hk_installed h) eqn:Hi.
    + destruct (IH n (uninstall h) (uninstall_ok n h Hi Hh)) as [H1 H2].
      assert (E : hk_installed (uninstall h) = false) by (unfold uninstallHooks; by rewrite Hi). rewrite E in *. by split.
    + replace (uninstall h) with h by (unfold uninstallHooks; by rewrite Hi). destruct (IH n h Hh) as [H1 H2]. rewrite Hi in *. by split.
Qed.

Lemma init_hooks_ok : hooks_ok 0 hk_init.
Proof.
  split; cbn [hk_init hk_table hk_installed hk_patched hk_auto]; try done; [intros k _; by rewrite andb_false_r|].
  intros op _. by exists Original.
Qed.

(** Whatever the order in which captures start and stop, a file function that one or both of the
    two mechanisms have replaced records a call once while a capture is on and not at all while
    none is; but every time the hooks are installed the functions of the editor get one more
    layer of binding, which is never removed. *)
Theorem hooks_exact ts k :
  let h := fold_left toggle ts hk_init in
  let on := hk_installed h in
  records on (hk_table h k) = (if on && (is_hooked k || automatic k) then 1 else 0)%nat /\
  on = List.last ts false /\
  bound_depth (hk_table h k) = match k with HVscode _ => if is_hooked k then installs false ts else 0 | _ => 0 end%nat.
Proof.
  intros h on. destruct (toggles_ok ts 0 hk_init init_hooks_ok) as [[Hr Hp Hf Hpt Hau Hv] Hl].
  fold h in Hr, Hp, Hf, Hpt, Hau, Hv, Hl. unfold on in *. cbn [hk_init hk_installed Nat.add] in *.
  split_and!; [|done|].
  - destruct (is_hooked k) eqn:Hk; cbn [orb].
    + rewrite andb_true_r. destruct k as [op|op|op]; [rewrite (Hp op Hk)|rewrite (Hf op Hk)|destruct (Hv op Hk) as (i & R1 & R2 & B & -> & _)];
        destruct (hk_installed h); cbn [records]; lia.
    + rewrite (Hr k Hk). destruct (hk_installed h); [rewrite (Hau eq_refl)|]; destruct (automatic k), (hk_auto h); done.
  - destruct (is_hooked k) eqn:Hk.
    + destruct k as [op|op|op]; [rewrite (Hp op Hk)|rewrite (Hf op Hk)|destruct (Hv op Hk) as (i & R1 & R2 & B & -> & _)]; destruct (hk_installed h); cbn [bound_depth]; done.
    + rewrite (Hr k Hk). destruct (automatic k && hk_auto h); by destruct k.
Qed.

End hooks_ok.

(** ** Theorems on the streams *)

Definition data_events (ns : list nat) : list stream_event := map SData ns.

Lemma read_data ns b fin es : read_stream b fin (data_events ns ++ es) = read_stream (fold_left Nat.add ns b) fin es.
Proof. revert b. induction ns as [|n ns IH]; intros b; [done|]. cbn [data_events map app read_stream fold_left]. apply IH. Qed.

Lemma write_data ns b es : write_stream b (data_events ns ++ es) = write_stream (fold_left Nat.add ns b) es.
Proof. revert b. induction ns as [|n ns IH]; intros b; [done|]. cbn [data_events map app write_stream fold_left]. apply IH. Qed.

(** A read stream is recorded once with all its bytes; a write stream, which finishes and then
    closes, is recorded twice with all its bytes. *)
Theorem streams_recorded ns :
  let total := fold_left Nat.add ns 0%nat in
  read_stream 0 false (data_events ns ++ [SEnd; SClose]) = [stream_metric (js "fs.readStream") total None] /\
  write_stream 0 (data_events ns ++ [SFinish; SClose]) =
    [stream_metric (js "fs.writeStream") total None; stream_metric (js "fs.writeStream") total None].
Proof. intros total. by rewrite read_data, write_data. Qed.

(** ** Theorems on the analysis *)

Lemma Qsum_acc l a : (fold_left Qplus l a == a + Qsum l)%Q.
Proof.
  revert a. induction l as [|x l IH]; intros a; unfold Qsum; cbn [fold_left]; [ring|]. rewrite IH, (IH (0 + x)%Q). ring.
Qed.

Lemma Qsum_cons x l : (Qsum (x :: l) == x + Qsum l)%Q.
Proof. unfold Qsum at 1. cbn [fold_left]. rewrite Qsum_acc. ring. Qed.

Lemma Qsum_app a b : (Qsum (a ++ b) == Qsum a + Qsum b)%Q.
Proof. unfold Qsum at 1. rewrite fold_left_app, Qsum_acc. done. Qed.

Lemma Qsum_one x : (Qsum [x] == x)%Q.
Proof. unfold Qsum. cbn [fold_left]. ring. Qed.

Definition named (n : str) (calls : list fcall) : list fcall := List.filter (fun c => bool_decide (fc_name c = n)) calls.

Definition get_stats (n : str) (acc : list (str * fstats)) : option fstats :=
  match find (fun e => bool_decide (e.1 = n)) acc with Some e => Some e.2 | None => None end.

Lemma get_add_call n acc c :
  get_stats n (add_call acc c) =
    if bool_decide (fc_name c = n) then Some (add_to c (or_else (get_stats n acc) (MkStats 0 0%Q 0%Q 0%Q))) else get_stats n acc.
Proof.
  unfold get_stats. induction acc as [|[m s] acc IH]; cbn [add_call find fst snd].
  - case_bool_decide; done.
  - destruct (decide (m = fc_name c)) as [->|Hm].
    + rewrite (bool_decide_true (fc_name c = fc_name c)) by done. cbn [find fst]. case_bool_decide; done.
    + rewrite (bool_decide_false (m = fc_name c)) by done. cbn [find fst]. destruct (decide (m = n)) as [->|Hn].
      * rewrite !(bool_decide_true (n = n)) by done. rewrite bool_decide_false by congruence. done.
      * rewrite !(bool_decide_false (m = n)) by done. exact IH.
Qed.

(** What the summary of one function should be *)
Record stats_of (calls : list fcall) (s : fstats) : Prop := {
  so_count : fs_count s = length calls;
  so_total : (fs_total s == Qsum (map fc_duration calls))%Q;
  so_avg : (fs_avg s == Qsum (map fc_duration calls) / qof (length calls))%Q;
  so_max : fs_max s = fold_left Qmx (map fc_duration calls) 0%Q }.

Lemma add_to_stats calls s c : stats_of calls s -> stats_of (calls ++ [c]) (add_to c s).
Proof.
  intros [Hc Ht _ Hm]. split; cbn [add_to fs_count fs_total fs_avg fs_max]; rewrite ?length_app, ?map_app; cbn [length map].
  - lia.
  - by rewrite Qsum_app, Ht, Qsum_one.
  - rewrite Hc. replace (length calls + 1)%nat with (S (length calls)) by lia.
    by rewrite Ht, Qsum_app, Qsum_one.
  - by rewrite fold_left_app, Hm.
Qed.

Lemma empty_stats : stats_of [] (MkStats 0 0%Q 0%Q 0%Q).
Proof. by split. Qed.

(** The summary of the functions: each function that was called has its number of calls, the sum
    and the mean of their durations and the longest; the others are not in it. *)
Theorem function_summary_exact calls n :
  match get_stats n (functionSummary calls) with
  | Some s => named n calls <> [] /\ stats_of (named n calls) s
  | None => named n calls = []
  end.
Proof.
  induction calls as [|c calls IH] using rev_ind; [done|]. unfold functionSummary in *. rewrite fold_left_app. cbn [fold_left].
  rewrite get_add_call. unfold named in *. rewrite List.filter_app. cbn [List.filter]. case_bool_decide as Hn.
  - split; [by destruct (List.filter _ calls)|]. apply add_to_stats. destruct (get_stats n _); [by destruct IH|].
    rewrite IH. apply empty_stats.
  - by rewrite app_nil_r.
Qed.

Definition total_of (acc : list (str * list io_metric)) : Q := Qsum (map (fun g => Qsum (map io_duration g.2)) acc).
Definition count_of (acc : list (str * list io_metric)) : nat := fold_right Nat.add 0%nat (map (fun g => length g.2) acc).

Lemma group_total acc m : (total_of (group_op acc m) == total_of acc + io_duration m)%Q.
Proof.
  unfold total_of. induction acc as [|[op l] acc IH]; cbn [group_op map fst snd].
  - rewrite !Qsum_one. unfold Qsum. cbn [fold_left]. ring.
  - case_bool_decide; cbn [map snd]; rewrite !Qsum_cons; [rewrite map_app, Qsum_app; cbn [map]; rewrite Qsum_one; ring|].
    rewrite IH. ring.
Qed.

Lemma group_count acc m : count_of (group_op acc m) = S (count_of acc).
Proof.
  unfold count_of. induction acc as [|[op l] acc IH]; cbn [group_op map fst snd fold_right length]; [done|].
  case_bool_decide; cbn [map snd fold_right]; [rewrite length_app; cbn [length]; lia|]. rewrite IH. lia.
Qed.

(** The summary of the file operations loses nothing: the counts of the operations add up to the
    number of records and their times to the time of all records. *)
Theorem io_summary_total ms :
  fold_right Nat.add 0%nat (map (fun e => os_count e.2) (perOp ms)) = length ms /\
  (Qsum (map (fun e => os_total e.2) (perOp ms)) == Qsum (map io_duration ms))%Q.
Proof.
  unfold perOp. rewrite !map_map. cbn [snd summarize os_count os_total].
  change (count_of (fold_left group_op ms []) = length ms /\ (total_of (fold_left group_op ms []) == Qsum (map io_duration ms))%Q).
  induction ms as [|m ms IH] using rev_ind; [done|]. rewrite fold_left_app. cbn [fold_left]. destruct IH as [IH1 IH2].
  rewrite group_count, group_total, IH1, IH2, length_app, map_app, Qsum_app. cbn [length map]. rewrite Qsum_one.
  split; [lia|done].
Qed.

(** With one or two functions none is reported as slow, however slow it is: the mean is taken
    over the functions themselves. *)
Theorem slow_needs_three summary :
  (length summary <= 2)%nat -> Forall (fun e => (0 <= fs_avg e.2)%Q) summary -> slowFunctions summary = [].
Proof.
  intros Hl Hp. unfold slowFunctions. destruct summary as [|[n1 a] [|[n2 b] [|]]]; [done| | |cbn in Hl; lia].
  - inversion_clear Hp as [|? ? Ha _]. cbn [snd] in Ha. cbn [map snd length List.filter Qmean]. unfold Qlt_bool.
    assert (E : Qle_bool (fs_avg a) (Qsum [fs_avg a] / qof 1 * 2) = true).
    { apply Qle_bool_iff. assert (Hsum : (Qsum [fs_avg a] / qof 1 * 2 == fs_avg a + fs_avg a)%Q).
      { rewrite Qsum_one. unfold qof. change (inject_Z (Z.of_nat 1)) with 1%Q. field. }
      rewrite Hsum. lra. }
    by rewrite E.
  - inversion_clear Hp as [|? ? Ha Hp']. inversion_clear Hp' as [|? ? Hb _]. cbn [snd] in Ha, Hb. cbn [map snd length List.filter Qmean]. unfold Qlt_bool.
    assert (Hsum : (Qsum [fs_avg a; fs_avg b] / qof 2 * 2 == fs_avg a + fs_avg b)%Q).
    { unfold Qsum, qof. cbn [fold_left]. change (inject_Z (Z.of_nat 2)) with 2%Q. field. }
    assert (E1 : Qle_bool (fs_avg a) (Qsum [fs_avg a; fs_avg b] / qof 2 * 2) = true) by (apply Qle_bool_iff; rewrite Hsum; lra).
    assert (E2 : Qle_bool (fs_avg b) (Qsum [fs_avg a; fs_avg b] / qof 2 * 2) = true) by (apply Qle_bool_iff; rewrite Hsum; lra).
    by rewrite E1, E2.
Qed.

Lemma slow_needs_three_witness :
  slowFunctions (functionSummary [MkCall (js "fast") 0%Q 1%Q; MkCall (js "slow") 0%Q 1000%Q]) = [].
Proof. apply (slow_needs_three (functionSummary [MkCall (js "fast") 0%Q 1%Q; MkCall (js "slow") 0%Q 1000%Q])); [by apply Nat.leb_le|vm_compute; repeat constructor; done]. Defined.

(** ** Theorems on the captures *)

Definition during (e : prof_op) : Prop := match e with PrCall _ | PrIo _ | PrSample _ => True | _ => False end.

Definition calls_in (es : list prof_op) : list fcall := omap (fun e => match e with PrCall c => Some c | _ => None end) es.
Definition io_in (es : list prof_op) : list io_metric := omap (fun e => match e with PrIo m => Some m | _ => None end) es.
Definition samples_in (es : list prof_op) : list psample := omap (fun e => match e with PrSample s => Some s | _ => None end) es.

(** The profiler during a capture: what it has collected in its arrays *)
Record collecting (t0 : Q) (calls : list fcall) (io : list io_metric) (samples : list psample) (p : profiler) : Prop := {
  co_enabled : cp_enabled p = true;
  co_capturing : cp_capturing p = true;
  co_calls : array_of (cp_calls p) p = calls;
  co_io : cp_io p = io;
  co_samples : cp_samples p = samples;
  co_start : cp_start p = t0 }.

Lemma during_step t0 calls io samples p e :
  collecting t0 calls io samples p -> during e ->
  collecting t0 (calls ++ calls_in [e]) (io ++ io_in [e]) (samples ++ samples_in [e]) (prof_do p e).
Proof.
  intros [He Hc Ha Hi Hs Ht] Hd. destruct e; try done; cbn [prof_do calls_in io_in samples_in omap list_omap]; rewrite ?app_nil_r.
  - unfold recordFunctionCall, push_call. rewrite He. cbn [negb]. split; try done. unfold array_of at 1. cbn [cp_store cp_calls].
    by rewrite lookup_insert_eq, Ha.
  - unfold recordIOMetrics. rewrite Hc. split; try done. cbn [cp_io]. by rewrite Hi.
  - unfold sample. rewrite Hc. split; try done. cbn [cp_samples]. by rewrite Hs.
Qed.

Lemma during_run t0 : forall es calls io samples p,
  collecting t0 calls io samples p -> Forall during es ->
  collecting t0 (calls ++ calls_in es) (io ++ io_in es) (samples ++ samples_in es) (fold_left prof_do es p).
Proof.
  induction es as [|e es IH]; intros calls io samples p Hp Hes; [by rewrite !app_nil_r|]. inversion_clear Hes as [|? ? Hd Hes'].
  cbn [fold_left]. pose proof (IH _ _ _ _ (during_step _ _ _ _ _ _ Hp Hd) Hes') as R. rewrite <- !app_assoc in R.
  by destruct e.
Qed.

(** A capture: the result holds the calls and the samples between start and stop, how long it
    took, and their analysis; a capture that is too short for a sample has no analysis at all. *)
Theorem capture_exact p es t0 t1 :
  cp_enabled p = true -> cp_capturing p = false -> Forall during es ->
  let p' := fold_left prof_do (PrStart t0 :: es ++ [PrStop t1]) p in
  last_calls p' = calls_in es /\
  exists a, cp_result p' = Some (MkCapture (t1 - t0)%Q (samples_in es) a
                                   (analyzeSamples (samples_in es) (calls_in es) (io_in es))).
Proof.
  intros He Hc Hes p'. unfold p'. cbn [fold_left prof_do]. rewrite fold_left_app. cbn [fold_left prof_do].
  assert (H0 : collecting t0 [] [] [] (startCapture t0 p)).
  { unfold startCapture. rewrite Hc, He. cbn [orb negb]. split; try done. unfold array_of. cbn [cp_store cp_calls]. by rewrite lookup_insert_eq. }
  destruct (during_run t0 es _ _ _ _ H0 Hes) as [R1 R2 R3 R4 R5 R6]. cbn [app] in *. set (p1 := fold_left prof_do es _) in *.
  unfold stopCapture. rewrite R2, R4, R5, R6. cbn [negb]. split.
  - unfold last_calls. cbn [cp_result ca_calls]. exact R3.
  - exists (cp_calls p1). cbn [cp_result]. by rewrite R3.
Qed.

Lemma capture_exact_witness :
  let es := [PrCall (MkCall (js "f") 0%Q 2%Q); PrSample (MkSample 1%Q 5 6 7)] in
  let p' := fold_left prof_do (PrStart 0%Q :: es ++ [PrStop 9%Q]) (set_enabled true cp_init) in
  last_calls p' = calls_in es /\
  exists a, cp_result p' = Some (MkCapture (9 - 0)%Q (samples_in es) a
                                   (analyzeSamples (samples_in es) (calls_in es) (io_in es))).
Proof.
  apply (capture_exact (set_enabled true cp_init) [PrCall (MkCall (js "f") 0%Q 2%Q); PrSample (MkSample 1%Q 5 6 7)] 0%Q 9%Q);
    [done|done|by repeat constructor].
Defined.

(** The result of a capture shares its array with the profiler: a call made after the capture
    has ended still appears among its calls, but not in its analysis. *)
Example ended_capture_grows :
  let f := MkCall (js "f") 0%Q 2%Q in
  let p := fold_left prof_do [PrEnable; PrStart 0%Q; PrCall f; PrSample (MkSample 1%Q 5 6 7); PrStop 2%Q] cp_init in
  let p' := prof_do p (PrCall (MkCall (js "g") 5%Q 1%Q)) in
  map fc_name (last_calls p) = [js "f"] /\ map fc_name (last_calls p') = [js "f"; js "g"] /\ cp_result p' = cp_result p.
Proof. by vm_compute. Qed.

(** A function that ends after the capture is recorded by [measureFunction], in the result that
    was given out, and not by the others. *)
Example late_function :
  let p := fold_left prof_do [PrEnable; PrStart 0%Q; PrStop 2%Q; PrDisable] cp_init in
  let seen (f : profiler -> js_result unit * profiler) := map fc_name (last_calls (snd (f p))) in
  seen (measured true (js "g") 1%Q 3%Q (Ok tt)) = [] /\
  seen (measureBlock true (js "g") 1%Q 3%Q (Ok tt)) = [] /\
  seen (measureFunction true (js "g") 1%Q 3%Q (Ok tt)) = [js "g"].
Proof. by vm_compute. Qed.

(** ** Theorems on the samples *)

Lemma deltas_length f l : length (deltas f l) = pred (length l).
Proof. induction l as [|a [|b l] IH]; [done|done|]. change (deltas f (a :: b :: l)) with ((inject_Z (f b - f a) / 1000)%Q :: deltas f (b :: l)). cbn [length] in *. lia. Qed.

Lemma last_default {A} (l : list A) c a b : List.last (c :: l) a = List.last (c :: l) b.
Proof. revert c. induction l as [|d l IH]; intros c; [done|]. exact (IH d). Qed.

Lemma deltas_sum f a l : (Qsum (deltas f (a :: l)) * 1000 == inject_Z (f (List.last (a :: l) a) - f a))%Q.
Proof.
  revert a. induction l as [|b l IH]; intros a; [cbn; by rewrite Z.sub_diag|].
  change (deltas f (a :: b :: l)) with ((inject_Z (f b - f a) / 1000)%Q :: deltas f (b :: l)).
  rewrite Qsum_cons, Qmult_plus_distr_l, IH.
  replace (List.last (a :: b :: l) a) with (List.last (b :: l) b) by (symmetry; apply (last_default l b)).
  assert (E : (inject_Z (f b - f a) / 1000 * 1000 == inject_Z (f b - f a))%Q) by (field; done).
  rewrite E, <- inject_Z_plus. by replace (f b - f a + (f (List.last (b :: l) b) - f b)) with (f (List.last (b :: l) b) - f a) by lia.
Qed.

Lemma qof_pos n : (0 < n)%nat -> (0 < qof n)%Q.
Proof. intros Hn. unfold qof, Qlt. cbn. lia. Qed.

Lemma Qmx_ub a b : (a <= Qmx a b)%Q /\ (b <= Qmx a b)%Q.
Proof. unfold Qmx. destruct (Qle_bool a b) eqn:E; [apply Qle_bool_iff in E; split; lra|]. split; [lra|]. destruct (Qlt_le_dec b a); [lra|]. apply Qle_bool_iff in q. congruence. Qed.

Lemma Qmn_lb a b : (Qmn a b <= a)%Q /\ (Qmn a b <= b)%Q.
Proof. unfold Qmn. destruct (Qle_bool a b) eqn:E; [apply Qle_bool_iff in E; split; lra|]. destruct (Qlt_le_dec b a); [split; lra|]. apply Qle_bool_iff in q. congruence. Qed.

Lemma fold_mx l a : (a <= fold_left Qmx l a)%Q /\ Forall (fun x => (x <= fold_left Qmx l a)%Q) l.
Proof.
  revert a. induction l as [|x l IH]; intros a; cbn [fold_left]; [split; [lra|constructor]|]. destruct (IH (Qmx a x)) as [H1 H2].
  destruct (Qmx_ub a x). split; [lra|]. constructor; [lra|done].
Qed.

Lemma fold_mn l a : (fold_left Qmn l a <= a)%Q /\ Forall (fun x => (fold_left Qmn l a <= x)%Q) l.
Proof.
  revert a. induction l as [|x l IH]; intros a; cbn [fold_left]; [split; [lra|constructor]|]. destruct (IH (Qmn a x)) as [H1 H2].
  destruct (Qmn_lb a x). split; [lra|]. constructor; [lra|done].
Qed.

Lemma qof_S n : (qof (S n) == qof n + 1)%Q.
Proof. unfold qof. rewrite Nat2Z.inj_succ. unfold Z.succ. by rewrite inject_Z_plus. Qed.

Lemma Qsum_bounds l lo hi :
  Forall (fun x => (lo <= x)%Q) l -> Forall (fun x => (x <= hi)%Q) l -> (lo * qof (length l) <= Qsum l /\ Qsum l <= hi * qof (length l))%Q.
Proof.
  induction l as [|x l IH]; intros Hl Hh; [change (qof (length [])) with 0%Q; change (Qsum []) with 0%Q; split; lra|]. inversion_clear Hl as [|? ? H1 H2]. inversion_clear Hh as [|? ? H3 H4].
  destruct (IH H2 H4) as [A B]. cbn [length]. rewrite Qsum_cons, qof_S. lra.
Qed.

Lemma Qmean_nonempty l : l <> [] -> Qmean l = (Qsum l / qof (length l))%Q.
Proof. by destruct l. Qed.

Lemma mean_between l : l <> [] -> (Qmin_of l <= Qmean l /\ Qmean l <= Qmax_of l)%Q.
Proof.
  destruct l as [|x l]; [done|]. intros _. cbn [Qmin_of Qmax_of Qmean].
  destruct (fold_mx l x) as [X1 X2]. destruct (fold_mn l x) as [N1 N2].
  destruct (Qsum_bounds (x :: l) (fold_left Qmn l x) (fold_left Qmx l x)) as [A B]; [by constructor|by constructor|].
  assert (P : (0 < qof (length (x :: l)))%Q) by (apply qof_pos; cbn; lia).
  split; [by apply Qle_shift_div_l|by apply Qle_shift_div_r].
Qed.

(** The figures of an analysis: the mean processor times are those of the whole capture divided
    by the number of intervals, and the mean size of the heap lies between the least and the
    greatest. *)
Theorem analysis_figures samples calls io a first :
  analyzeSamples samples calls io = Some a -> samples !! 0%nat = Some first -> (2 <= length samples)%nat ->
  let final := List.last samples first in
  (an_avgCpuUser a * qof (length samples - 1) * 1000 == inject_Z (sm_user final - sm_user first))%Q /\
  (an_avgCpuSystem a * qof (length samples - 1) * 1000 == inject_Z (sm_system final - sm_system first))%Q /\
  (an_minMemory a <= an_avgMemory a /\ an_avgMemory a <= an_maxMemory a)%Q.
Proof.
  destruct samples as [|s samples]; [done|]. intros [= <-] [= ->] Hl. cbn [an_avgCpuUser an_avgCpuSystem an_minMemory an_avgMemory an_maxMemory].
  assert (M : forall f, (Qmean (deltas f (first :: samples)) * qof (length (first :: samples) - 1) * 1000 ==
                         inject_Z (f (List.last (first :: samples) first) - f first))%Q).
  { intros f. rewrite <- deltas_sum. pose proof (deltas_length f (first :: samples)) as L.
    rewrite Qmean_nonempty by (intros E; rewrite E in L; cbn [length] in *; lia). rewrite L.
    replace (pred (length (first :: samples))) with (length (first :: samples) - 1)%nat by lia.
    assert (P : (0 < qof (length (first :: samples) - 1))%Q) by (apply qof_pos; lia). field. lra. }
  split; [apply M|]. split; [apply M|].
  by apply (mean_between (map (fun s => inject_Z (sm_heap s)) (first :: samples))).
Qed.

Lemma analysis_figures_witness :
  let samples := [MkSample 0%Q 1000 500 100; MkSample 100%Q 4000 600 300; MkSample 200%Q 9000 600 200] in
  exists a, analyzeSamples samples [] [] = Some a /\
  (an_avgCpuUser a * qof 2 * 1000 == inject_Z (9000 - 1000))%Q /\
  (an_avgCpuSystem a * qof 2 * 1000 == inject_Z (600 - 500))%Q /\
  (an_minMemory a <= an_avgMemory a /\ an_avgMemory a <= an_maxMemory a)%Q.
Proof.
  eexists. split; [reflexivity|].
  refine (analysis_figures [MkSample 0%Q 1000 500 100; MkSample 100%Q 4000 600 300; MkSample 200%Q 9000 600 200] [] [] _
            (MkSample 0%Q 1000 500 100) _ _ _); [reflexivity|reflexivity|cbn; lia].
Defined.
