(* ===== verification/Commands.v ===== *)
(** * Commands

    src/extension/update/updater.ts with src/extension/commands/CommandHandlersUpdate.ts, the
    connecting of devices in src/extension/commands/CommandHandlersConnect.ts, and the picker of
    src/extension/panels/LogConnectionPicker.ts.  The network, the hash, the dialogs and the
    clients of the devices are arguments. *)

From stdpp Require Import base countable list strings.
From Stdlib Require Import ZArith Lia.
From S2P Require Import Prelude JsString Json Connection UserData.

(** ** Updates *)

(** [v.split('.').map((n) => parseInt(n || '0', 10))], a part that is not a number counting as 0 *)
Definition version_parts (v : str) : list Z := map (fun n => or_else (parse_int n) 0) (split_on 46 v).

(** The loop over the parts from the [i]-th on; a missing part counts as 0. *)
Fixpoint newer_from (fuel i : nat) (a b : list Z) : bool :=
  match fuel with
  | O => false
  | S fuel' =>
      let diff := nth i a 0 - nth i b 0 in
      if 0 <? diff then true else if diff <? 0 then false else newer_from fuel' (S i) a b
  end.

Definition newer_parts (a b : list Z) : bool := newer_from (Nat.max (length a) (length b)) 0 a b.

Definition isNewerVersion (latest current : str) : bool := newer_parts (version_parts latest) (version_parts current).

(** latest.json; a missing field is [None]. *)
Record LatestJson := MkLatest { lj_version : option str; lj_url : option str; lj_sha256 : option str }.

Record UpdateInfo := MkUpdate { up_hasUpdate : bool; up_url : option str; up_sha256 : option str }.

Definition no_update : UpdateInfo := MkUpdate false None None.

(** [fetched]: what the download of latest.json gives *)
Definition checkLatestVersion (fetched : js_result LatestJson) (current : str) : UpdateInfo :=
  match fetched with
  | Throws => no_update
  | Ok data =>
      let latest := trim (or_else (lj_version data) []) in
      let url := trim (or_else (lj_url data) []) in
      let sha256 := trim (or_else (lj_sha256 data) []) in
      let hasUpdate := nonempty latest && isNewerVersion latest current in
      if hasUpdate && negb (nonempty url) then no_update
      else MkUpdate hasUpdate (Some url) (if nonempty sha256 then Some sha256 else None)
  end.

(** What the installation does, in order *)
Inductive update_effect :=
  | MakeTempDir | Download (url : str) | Install (package : str) | AskReload | Reload | RemoveTempDir.

Section update.
Context (hash : str -> str) (fetch : str -> js_result str) (install : str -> js_result unit) (reload : bool).

(** [None]: it threw *)
Definition downloadAndInstall (url sha256 : str) : option unit * list update_effect :=
  match fetch url with
  | Throws => (None, [MakeTempDir; Download url])
  | Ok package =>
      if negb (bool_decide (hash package = sha256)) then (None, [MakeTempDir; Download url])
      else match install package with
           | Throws => (None, [MakeTempDir; Download url; Install package])
           | Ok _ => (Some (), [MakeTempDir; Download url; Install package; AskReload] ++ (if reload then [Reload] else []) ++ [RemoveTempDir])
           end
  end.

Definition truthy (o : option str) : option str := match o with Some (c :: s) => Some (c :: s) | _ => None end.

Definition updateNow (fetched : js_result LatestJson) (current : str) : list update_effect :=
  let latest := checkLatestVersion fetched current in
  match up_hasUpdate latest, truthy (up_url latest), truthy (up_sha256 latest) with
  | true, Some url, Some sha => (downloadAndInstall url sha).2
  | _, _, _ => []
  end.
End update.

(** ** Connecting *)

Section connecting.
Context (time_of : str -> Z) (parse : str -> option ConnectionConfigFile) (stringify : ConnectionConfigFile -> str).

(** The loader that the handler registers with the connection manager *)
Definition recent_entry (file : option str) : option ConnectionInfo :=
  let cfg := (readConnectionConfig parse stringify file).2 in
  match recent cfg with
  | None => None
  | Some id => find (fun c => bool_decide (ci_id c = id)) (connections cfg)
  end.

(** The end of [_newAdb] and [_newSsh]: the entry is stored, and made the active one. *)
Definition save_new (entry : ConnectionInfo) (cfg : ConnectionConfigFile) (cm : manager) : option str * manager :=
  (saveConnectionConfig stringify (upsertConnection time_of cfg entry), setActive entry cm).

Definition alias_of (alias : option str) : option str := truthy alias.

Definition newAdb (deviceID now_text : str) (alias : option str) : ConnectionInfo :=
  Connection.MkInfo (js "adb:" ++ deviceID) (alias_of alias) (AdbDetails deviceID) now_text.

Definition newSsh (host user : str) (port : Z) (password now_text : str) (alias : option str) : ConnectionInfo :=
  Connection.MkInfo (js "ssh:" ++ user ++ js "@" ++ host ++ js ":" ++ print_int port) (alias_of alias)
    (SshDetails host user port (Some password)) now_text.

End connecting.

(** ** The picker of devices *)

Definition DEFAULT_SSH_PORT := 22.

(** [addSshConnection] on the settings: the entry replaces the device with the same id. *)
Definition ssh_entry (host user : str) (port : option Z) (friendly : option str) : str * json :=
  let id := host ++ js ":" ++ print_int (or_else port DEFAULT_SSH_PORT) in
  let name := let n := trim (or_else friendly []) in if nonempty n then n else id in
  (id, JObj ([(js "id", JStr id); (js "type", JStr (js "ssh")); (js "name", JStr name); (js "host", JStr host)]
             ++ match port with Some p => [(js "port", JNum p)] | None => [] end ++ [(js "user", JStr user)])).

(** What a caller of the picker gets; a port that was not entered is missing. *)
Inductive HostConfig :=
  | HostSsh (id host : str) (port : option Z) (user : str)
  | HostAdb (id serial : str).

Definition addSshConnection (host user : str) (port : option Z) (friendly : option str) (s : storage) : js_result (HostConfig * storage) :=
  let '(id, entry) := ssh_entry host user port friendly in
  let config := HostSsh id host port user in
  let stored := match readDeviceList s with JArr l => res_map (has_id id) l | _ => Throws end in
  match stored with
  | Throws => Throws
  | Ok found =>
      match (if existsb (fun b => b) found then updateDeviceById id (members entry) s else addDevice entry s) with
      | Ok s' => Ok (config, s')
      | Throws => Throws
      end
  end.

(** [String(v ?? '')] of the strings and numbers that the picker stores *)
Definition text_prop (k : str) (d : json) : str :=
  match get_prop k d with Some (JStr t) => t | Some (JNum n) => print_int n | _ => [] end.

(** [deviceEntryToHostConfig] of an entry with an id *)
Definition deviceEntryToHostConfig (d : json) : HostConfig :=
  match get_prop (js "type") d with
  | Some (JStr t) =>
      if bool_decide (t = js "ssh") then
        HostSsh (text_prop (js "id") d) (text_prop (js "host") d)
          (Some (match get_prop (js "port") d with Some (JNum p) => p | _ => DEFAULT_SSH_PORT end))
          (match get_prop (js "user") d with Some (JStr u) => u | _ => js "root" end)
      else HostAdb (text_prop (js "id") d) (let serial := text_prop (js "serial") d in
                                            match get_prop (js "serial") d with Some _ => serial | None => text_prop (js "id") d end)
  | _ => HostAdb (text_prop (js "id") d) (text_prop (js "id") d)
  end.

(** ** Theorems on updates *)

(** [a] comes after [b] at the first part where they differ. *)
Definition after (a b : list Z) : Prop := exists i, (forall j, (j < i)%nat -> nth j a 0 = nth j b 0) /\ nth i b 0 < nth i a 0.

Lemma newer_from_spec fuel i a b :
  (forall j, (j < i)%nat -> nth j a 0 = nth j b 0) -> (Nat.max (length a) (length b) <= i + fuel)%nat ->
  newer_from fuel i a b = true <-> after a b.
Proof.
  revert i. induction fuel as [|fuel IH]; intros i He Hl; cbn [newer_from].
  - split; [done|]. intros (k & Hk & Hd). exfalso. destruct (le_lt_dec i k) as [Hi|Hi].
    + rewrite !nth_overflow in Hd by lia. lia.
    + rewrite (He k Hi) in Hd. lia.
  - destruct (Z.ltb_spec 0 (nth i a 0 - nth i b 0)) as [H1|H1].
    + split; [|done]. intros _. exists i. split; [done|lia].
    + destruct (Z.ltb_spec (nth i a 0 - nth i b 0) 0) as [H2|H2].
      * split; [done|]. intros (k & Hk & Hd). exfalso. destruct (lt_eq_lt_dec i k) as [[Hi|Hi]|Hi].
        -- specialize (Hk i Hi). lia.
        -- subst k. lia.
        -- rewrite (He k Hi) in Hd. lia.
      * apply IH; [|lia]. intros j Hj. destruct (decide (j = i)) as [->|Hne]; [lia|]. apply He. lia.
Qed.

Lemma newer_parts_spec a b : newer_parts a b = true <-> after a b.
Proof. apply newer_from_spec; [intros j Hj; lia|lia]. Qed.

Lemma after_irrefl a : ~ after a a.
Proof. intros (i & _ & H). lia. Qed.

Lemma after_trans a b c : after a b -> after b c -> after a c.
Proof.
  intros (i & Hi & Di) (k & Hk & Dk). exists (Nat.min i k). split.
  - intros j Hj. rewrite Hi by lia. apply Hk. lia.
  - destruct (lt_eq_lt_dec i k) as [[H|H]|H].
    + rewrite Nat.min_l by lia. rewrite <- (Hk i H). done.
    + subst k. rewrite Nat.min_id. lia.
    + rewrite Nat.min_r by lia. rewrite (Hi k H). done.
Qed.

(** The comparison of versions: the first part that differs decides, missing parts and parts
    that are not numbers counting as 0; so no version is newer than itself and the relation is
    transitive. *)
Theorem newer_version_order :
  (forall a b, isNewerVersion a b = true <-> after (version_parts a) (version_parts b)) /\
  (forall a, isNewerVersion a a = false) /\
  (forall a b c, isNewerVersion a b = true -> isNewerVersion b c = true -> isNewerVersion a c = true).
Proof.
  unfold isNewerVersion. split_and!.
  - intros a b. apply newer_parts_spec.
  - intros a. apply not_true_iff_false. rewrite newer_parts_spec. apply after_irrefl.
  - intros a b c. rewrite !newer_parts_spec. apply after_trans.
Qed.

(** [Install package] among the effects: it is the one that is listed. *)
Ltac installed_tac :=
  cbn [snd app]; let Hin := fresh in intros Hin;
  repeat (apply elem_of_cons in Hin as [Hin | Hin]; [first [discriminate Hin | injection Hin as ->; done]|]);
  by apply not_elem_of_nil in Hin.

(** C32: A package is installed only if it was announced for a newer version and its hash is the
    announced one; it was downloaded from the announced address. *)
Theorem only_verified_installs hash fetch install reload fetched current package :
  Install package ∈ updateNow hash fetch install reload fetched current ->
  exists data version url, fetched = Ok data /\ lj_version data = Some version /\ isNewerVersion (trim version) current = true /\
    trim (or_else (lj_url data) []) = url /\ url <> [] /\ fetch url = Ok package /\ hash package = trim (or_else (lj_sha256 data) []).
Proof.
  unfold updateNow. destruct fetched as [data|]; [|by rewrite elem_of_nil]. cbn [checkLatestVersion].
  set (version := trim (or_else (lj_version data) [])). set (url := trim (or_else (lj_url data) [])). set (sha := trim (or_else (lj_sha256 data) [])).
  destruct (nonempty version && isNewerVersion version current) eqn:Eh; cbn [andb].
  2:{ cbn [up_hasUpdate]. by rewrite elem_of_nil. }
  apply andb_true_iff in Eh as [Hv Hnew]. destruct url as [|c u] eqn:Eu; [cbn; by rewrite elem_of_nil|]. cbn [negb nonempty up_hasUpdate up_url truthy].
  destruct sha as [|d s] eqn:Es; cbn [nonempty up_sha256 truthy]; [by rewrite elem_of_nil|].
  unfold downloadAndInstall. destruct (fetch (c :: u)) as [pk|] eqn:Ef; [|by installed_tac].
  destruct (bool_decide (hash pk = d :: s)) eqn:Eb; cbn [negb]; [|by installed_tac].
  apply bool_decide_eq_true in Eb. intros Hin. assert (E : package = pk).
  { revert Hin. destruct (install pk); [destruct reload|]; by installed_tac. }
  subst pk version. destruct (lj_version data) as [v|] eqn:Ev; cbn [or_else] in Hv, Hnew; [|done].
  exists data, v, (c :: u). split_and!; try done. by rewrite Eb.
Qed.

Definition demo_latest : LatestJson := MkLatest (Some (js "1.10.0")) (Some (js "https://host/x.vsix")) (Some (js "abc")).

Lemma only_verified_installs_witness :
  exists data version url, Ok demo_latest = Ok data /\ lj_version data = Some version /\ isNewerVersion (trim version) (js "1.9.3") = true /\
    trim (or_else (lj_url data) []) = url /\ url <> [] /\ (fun _ : str => Ok (js "bytes")) url = Ok (js "bytes") /\
    (fun _ : str => js "abc") (js "bytes") = trim (or_else (lj_sha256 data) []).
Proof.
  apply (only_verified_installs (fun _ => js "abc") (fun _ => Ok (js "bytes")) (fun _ => Ok tt) false (Ok demo_latest) (js "1.9.3") (js "bytes")).
  vm_compute. right. right. left.
Defined.

(** A package with the wrong hash is not installed, but its directory stays. *)
Example failed_update_leaves_files :
  updateNow (fun _ => js "other") (fun _ => Ok (js "bytes")) (fun _ => Ok tt) true (Ok demo_latest) (js "1.9.3")
    = [MakeTempDir; Download (js "https://host/x.vsix")].
Proof. by vm_compute. Qed.

(** ** Theorems on connecting *)

Lemma find_by_id (l : list ConnectionInfo) c : NoDup (ids l) -> c ∈ l -> find (fun x => bool_decide (ci_id x = ci_id c)) l = Some c.
Proof.
  unfold ids. induction l as [|x l IH]; intros Hn Hc; [by apply not_elem_of_nil in Hc|]. cbn [map] in Hn. inversion_clear Hn as [|? ? Hx Hn'].
  cbn [find]. apply elem_of_cons in Hc as [-> | Hc]; [by rewrite bool_decide_true|].
  rewrite bool_decide_false; [by apply IH|]. intros E. apply Hx. rewrite E. by apply list_elem_of_fmap_2.
Qed.

Lemma update_first_in id f l l' : update_first id f l = Some l' -> exists c, c ∈ l /\ ci_id c = id /\ f c ∈ l'.
Proof.
  revert l'. induction l as [|c l IH]; intros l' E; cbn [update_first] in E; [done|].
  destruct (decide (ci_id c = id)); [injection E as <-; exists c; split_and!; [by left|done|by left]|].
  destruct (update_first id f l) as [l1|]; [|done]. injection E as <-. destruct (IH l1 eq_refl) as (x & Hx & Hi & Hf).
  exists x. split_and!; [by right|done|by right].
Qed.

(** The entry of a new connection is among the stored ones when it is the last used. *)
Lemma upsert_in time_of cfg entry :
  config_ok time_of cfg -> Forall (fun c => time_of (ci_lastUsed c) <= time_of (ci_lastUsed entry)) (connections cfg) ->
  exists c, c ∈ connections (upsertConnection time_of cfg entry) /\ ci_id c = ci_id entry /\ ci_details c = ci_details entry.
Proof.
  intros (Hn & Hl & _) Ht. unfold upsertConnection. cbn [connections].
  destruct (update_first _ _ _) as [l|] eqn:E.
  - assert (Hlen : zlen (array_sort (by_lastUsed time_of) l) <= MAX_CONNECTIONS).
    { unfold zlen in *. rewrite (Permutation_length (array_sort_perm (by_lastUsed time_of) l)).
      apply update_first_ids in E as [_ ->]; [done|done]. }
    destruct (Z.ltb_spec MAX_CONNECTIONS (zlen (array_sort (by_lastUsed time_of) l))); [lia|].
    destruct (update_first_in _ _ _ _ E) as (prev & _ & Hid & Hin). exists (merge_info prev entry).
    split_and!; [by rewrite array_sort_perm|done|done].
  - exists entry. split_and!; [|done|done]. cbn [array_sort].
    assert (Hhead : exists rest, sort_insert (by_lastUsed time_of) entry (array_sort (by_lastUsed time_of) (connections cfg)) = entry :: rest).
    { destruct (array_sort (by_lastUsed time_of) (connections cfg)) as [|y rest] eqn:Es; [by eexists|]. cbn [sort_insert].
      assert (Hy : y ∈ connections cfg) by (rewrite <- (array_sort_perm (by_lastUsed time_of) (connections cfg)), Es; by left).
      rewrite Forall_forall in Ht. apply Ht in Hy. unfold by_lastUsed at 1. destruct (Z.leb_spec (time_of (ci_lastUsed y) - time_of (ci_lastUsed entry)) 0); [by eexists|lia]. }
    destruct Hhead as [rest ->]. destruct (MAX_CONNECTIONS <? _); [|by left]. by left.
Qed.

(** A device that was added comes back after a restart: what the handler stores makes the loader
    find the entry, with the id and the details of the active connection, and connecting without
    an active connection activates it. *)
Theorem connection_comes_back `{Clients} time_of parse stringify cfg entry cm now cm2 :
  (forall c, parse (stringify c) = Some c) -> config_ok time_of cfg ->
  Forall (fun c => time_of (ci_lastUsed c) <= time_of (ci_lastUsed entry)) (connections cfg) ->
  let r := save_new time_of stringify entry cfg cm in
  active cm2 = None -> recentLoader cm2 = Some (Ok (recent_entry parse stringify r.1)) ->
  active r.2 = Some entry /\
  exists c, active (connect now cm2) = Some c /\ ci_id c = ci_id entry /\ ci_details c = ci_details entry.
Proof.
  intros Hp Hok Ht r Ha Hr. split; [done|]. destruct (upsert_in time_of cfg entry Hok Ht) as (c & Hin & Hid & Hd).
  exists c. split_and!; [|done|done].
  assert (Hrec : recent_entry parse stringify r.1 = Some c).
  { unfold recent_entry, r, save_new, saveConnectionConfig. cbn [fst readConnectionConfig]. rewrite Hp. cbn [snd].
    destruct (connections_ok time_of cfg entry [] [] Hok) as [[(Hn & _) Hre] _]. rewrite Hre, <- Hid. by apply find_by_id. }
  unfold connect. rewrite Ha, Hr, Hrec. cbn [setActive active]. unfold checkHealth. cbn [active setActive].
  by repeat case_match; simplify_eq.
Qed.

(** A way to write a configuration as text, for the witness: its code as a single number *)
#[local] Instance details_eq_dec : EqDecision ConnectionDetails.
Proof. solve_decision. Defined.
#[local] Instance details_countable : Countable ConnectionDetails.
Proof.
  refine (inj_countable' (fun d => match d with AdbDetails s => inl s | SshDetails h u p w => inr (h, u, p, w) end)
    (fun x => match x with inl s => AdbDetails s | inr (h, u, p, w) => SshDetails h u p w end) _).
  by intros [].
Defined.
#[local] Instance info_eq_dec : EqDecision ConnectionInfo.
Proof. solve_decision. Defined.
#[local] Instance info_countable : Countable ConnectionInfo.
Proof.
  refine (inj_countable' (fun c => (ci_id c, ci_alias c, ci_details c, ci_lastUsed c))
    (fun x => let '(i, a, d, l) := x in Connection.MkInfo i a d l) _).
  by intros [].
Defined.
#[local] Instance config_eq_dec : EqDecision ConnectionConfigFile.
Proof. solve_decision. Defined.
#[local] Instance config_countable : Countable ConnectionConfigFile.
Proof. refine (inj_countable' (fun c => (recent c, connections c)) (fun x => MkConfig x.1 x.2) _). by intros []. Defined.

Definition coded (c : ConnectionConfigFile) : str := [Z.pos (encode c)].
Definition decoded (s : str) : option ConnectionConfigFile := match s with [Z.pos p] => decode p | _ => None end.

Lemma coded_decoded c : decoded (coded c) = Some c.
Proof. apply decode_encode. Qed.

Definition demo_clients : Clients := {|
  adbGetState := fun _ => Ok (js "device");
  adb_raw := fun _ _ => Ok [];
  ssh_exec := fun _ _ => Ok (Some 0, [], []) |}.

Lemma connection_comes_back_witness :
  let entry := newAdb (js "X1") (js "7") None in
  let cm0 := MkManager false None None None None in
  let r := save_new (digits_value 0) coded entry fresh_config cm0 in
  let cm2 := MkManager false None None None (Some (Ok (recent_entry decoded coded r.1))) in
  active r.2 = Some entry /\
  exists c, active (@connect demo_clients 5 cm2) = Some c /\ ci_id c = ci_id entry /\ ci_details c = ci_details entry.
Proof.
  apply (@connection_comes_back demo_clients (digits_value 0) decoded coded fresh_config (newAdb (js "X1") (js "7") None)
    (MkManager false None None None None) 5
    (MkManager false None None None (Some (Ok (recent_entry decoded coded
       (save_new (digits_value 0) coded (newAdb (js "X1") (js "7") None) fresh_config (MkManager false None None None None)).1))))).
  - apply coded_decoded.
  - split_and!; [constructor|done|constructor].
  - constructor.
  - done.
  - done.
Defined.

(** Adding a known device again without a name removes the name it had. *)
Example readding_drops_alias :
  let cfg := upsertConnection (digits_value 0) fresh_config (newAdb (js "X1") (js "7") (Some (js "bench"))) in
  let cfg' := upsertConnection (digits_value 0) cfg (newAdb (js "X1") (js "8") None) in
  map ci_alias (connections cfg) = [Some (js "bench")] /\ map ci_alias (connections cfg') = [None].
Proof. by vm_compute. Qed.

(** ** Examples on the picker *)

Definition saved_configs (s : storage) : list HostConfig :=
  match readDeviceList s with JArr l => map deviceEntryToHostConfig l | _ => [] end.

(** A second user on the same host and port replaces the first: the id does not name the user. *)
Example second_user_replaces :
  match addSshConnection (js "10.0.0.5") (js "root") (Some 22) None (MkStorage None None) with
  | Ok (_, s) =>
      match addSshConnection (js "10.0.0.5") (js "admin") (Some 22) None s with
      | Ok (_, s') => saved_configs s = [HostSsh (js "10.0.0.5:22") (js "10.0.0.5") (Some 22) (js "root")] /\
                      saved_configs s' = [HostSsh (js "10.0.0.5:22") (js "10.0.0.5") (Some 22) (js "admin")]
      | Throws => False
      end
  | Throws => False
  end.
Proof. by vm_compute. Qed.

(** Without a port the connection that is returned has none, and the one that is stored has the
    default. *)
Example missing_port_differs :
  match addSshConnection (js "10.0.0.5") (js "root") None None (MkStorage None None) with
  | Ok (c, s) => c = HostSsh (js "10.0.0.5:22") (js "10.0.0.5") None (js "root") /\
                 saved_configs s = [HostSsh (js "10.0.0.5:22") (js "10.0.0.5") (Some 22) (js "root")]
  | Throws => False
  end.
Proof. by vm_compute. Qed.
