(* ===== verification/PerfMonitor.v ===== *)
(** * PerfMonitor

    The performance monitor: the panel of the host with its captures and exports
    (src/extension/editors) and the view (src/webviewers/perf-monitor/app.js).  The profiler is
    that of Perf.  Numbers that the texts round to two digits are kept exact, and a document is
    represented by what it shows; the chart library and the formats of local times are left out. *)

From stdpp Require Import base list strings gmap.
From Stdlib Require Import ZArith QArith Lia.
From S2P Require Import Prelude JsString Paths Seeding PanelHost Perf.
#[local] Open Scope Z_scope.
#[local] Open Scope edge_scope.

(** [push] followed by [shift] when the array has become longer than [n] *)
Definition push_shift {A} (n : nat) (x : A) (l : list A) : list A :=
  let l' := l ++ [x] in if (n <? length l')%nat then drop 1 l' else l'.

(** ** Captures *)

(** [PerfData]: a sample of the panel's interval *)
Record pdata := MkPd { pd_time : Z; pd_user : Z; pd_system : Z; pd_heap : Z }.

(** [PerfMonitorCaptureManager]; [cm_interval] is the timer it knows of *)
Record cmgr := MkMgr {
  cm_interval : option nat;
  cm_data : list pdata;
  cm_capturing : bool;
  cm_webview : list (str * Q) }.

Definition cm_init : cmgr := MkMgr None [] false [].

(** What is posted to a panel *)
Inductive mpost :=
  | CaptureStarted
  | UpdateData (data : list pdata)
  | CaptureStopped (duration : Q) (calls : list fcall) (a : option analysis).

(** The panel [mo_panel] that is open, the managers of all panels there have been, the timers that
    run, each with the manager whose function it calls, and the profiler they share.
    [mo_current] is [_captureManager]. *)
Record monitor := MkMon {
  mo_prof : profiler;
  mo_mgrs : gmap nat cmgr;
  mo_panel : option nat;
  mo_current : option nat;
  mo_timers : list (nat * nat);
  mo_next : nat }.

Definition mo_init : monitor := MkMon cp_init ∅ None None [] 0.

Definition mgr_of (i : nat) (s : monitor) : cmgr := or_else (mo_mgrs s !! i) cm_init.

Definition set_mgr (i : nat) (m : cmgr) (s : monitor) : monitor :=
  MkMon (mo_prof s) (<[i := m]> (mo_mgrs s)) (mo_panel s) (mo_current s) (mo_timers s) (mo_next s).

Definition set_prof (p : profiler) (s : monitor) : monitor :=
  MkMon p (mo_mgrs s) (mo_panel s) (mo_current s) (mo_timers s) (mo_next s).

(** A message to a panel that is closed is not delivered. *)
Definition post_to (i : nat) (m : mpost) (s : monitor) : list (nat * mpost) :=
  if bool_decide (mo_panel s = Some i) then [(i, m)] else [].

Definition mgr_start (now : Q) (i : nat) (s : monitor) : monitor * list (nat * mpost) :=
  let prof := startCapture now (set_enabled true (mo_prof s)) in
  let timer := mo_next s in
  (MkMon prof (<[i := MkMgr (Some timer) [] true []]> (mo_mgrs s)) (mo_panel s) (mo_current s)
         (mo_timers s ++ [(timer, i)]) (S timer),
   post_to i CaptureStarted s).

(** The function of the interval *)
Definition mgr_tick (i : nat) (d : pdata) (s : monitor) : monitor * list (nat * mpost) :=
  let m := mgr_of i s in
  if cm_capturing m then
    let data := push_shift 100 d (cm_data m) in
    (set_mgr i (MkMgr (cm_interval m) data (cm_capturing m) (cm_webview m)) s, post_to i (UpdateData data) s)
  else (s, []).

Definition clear_timer (t : option nat) (l : list (nat * nat)) : list (nat * nat) :=
  match t with Some t => List.filter (fun x => negb (Nat.eqb x.1 t)) l | None => l end.

(** What [stopCapture] of the profiler returned *)
Definition stop_result (p : profiler) : Q * list fcall * option analysis :=
  match cp_result p with Some c => (ca_duration c, array_of (ca_calls c) p, ca_analysis c) | None => (0%Q, [], None) end.

Definition mgr_stop (now : Q) (i : nat) (s : monitor) : monitor * list (nat * mpost) :=
  let m := mgr_of i s in
  let prof := stopCapture now (mo_prof s) in
  let '(duration, calls, a) := stop_result prof in
  let combined := calls ++ map (fun d => MkCall d.1 0%Q d.2) (cm_webview m) in
  (MkMon (set_enabled false prof) (<[i := MkMgr None (cm_data m) false (cm_webview m)]> (mo_mgrs s)) (mo_panel s) (mo_current s)
         (clear_timer (cm_interval m) (mo_timers s)) (mo_next s),
   post_to i (CaptureStopped duration combined a) s).

Definition addWebviewPerfData (i : nat) (name : str) (d : Q) (s : monitor) : monitor :=
  let m := mgr_of i s in set_mgr i (MkMgr (cm_interval m) (cm_data m) (cm_capturing m) (cm_webview m ++ [(name, d)])) s.

Definition mgr_dispose (i : nat) (s : monitor) : monitor :=
  let m := mgr_of i s in
  MkMon (mo_prof s) (<[i := MkMgr None (cm_data m) (cm_capturing m) (cm_webview m)]> (mo_mgrs s)) (mo_panel s) (mo_current s)
        (clear_timer (cm_interval m) (mo_timers s)) (mo_next s).

(** ** The panel *)

Definition createPanel (s : monitor) : monitor :=
  match mo_panel s with
  | Some _ => s
  | None =>
      let i := mo_next s in
      MkMon (mo_prof s) (<[i := cm_init]> (mo_mgrs s)) (Some i) (Some i) (mo_timers s) (S i)
  end.

(** [dispose], which the closing of the panel calls too *)
Definition monitor_dispose (s : monitor) : monitor :=
  let s1 := match mo_current s with Some i => mgr_dispose i s | None => s end in
  MkMon (mo_prof s1) (mo_mgrs s1) None (mo_current s1) (mo_timers s1) (mo_next s1).

(** The messages of the view that reach [handleMessage] *)
Inductive mmsg := MStart (now : Q) | MStop (now : Q) | MMeasure (name : str) (d : Q) | MExportJson | MExportHtml (html : str).

(** [i] is the manager of the panel the message comes from. *)
Definition handleMessage (i : nat) (m : mmsg) (s : monitor) : monitor * list (nat * mpost) :=
  match m with
  | MStart now => mgr_start now i s
  | MStop now => mgr_stop now i s
  | MMeasure name d => (addWebviewPerfData i name d s, [])
  | MExportJson | MExportHtml _ => (s, [])
  end.

Inductive mon_event :=
  | Open
  | Close
  | Receive (m : mmsg)
  | Timer (t : nat) (d : pdata)
  | Program (e : prof_op).

Definition mon_do (s : monitor) (e : mon_event) : monitor * list (nat * mpost) :=
  match e with
  | Open => (createPanel s, [])
  | Close => (monitor_dispose s, [])
  | Receive m => match mo_panel s with Some i => handleMessage i m s | None => (s, []) end
  | Timer t d =>
      match find (fun x => Nat.eqb x.1 t) (mo_timers s) with Some (_, i) => mgr_tick i d s | None => (s, []) end
  | Program e => (set_prof (prof_do (mo_prof s) e) s, [])
  end.

Fixpoint mon_run (s : monitor) (es : list mon_event) : monitor * list (nat * mpost) :=
  match es with
  | [] => (s, [])
  | e :: es' => let '(s1, out) := mon_do s e in let '(s2, out') := mon_run s1 es' in (s2, out ++ out')
  end.

(** ** The report *)

Record report := MkReport {
  rp_seconds : Q;
  rp_samples : nat;
  rp_avgCpuUserMs : Q;
  rp_avgMemoryMB : Q;
  rp_insights : list insight;
  rp_rows : list (bool * (str * fstats));         (* marked as a bottleneck; function *)
  rp_io : option (list (str * op_summary)) }.

(** [generateHtmlReport] *)
Definition generateHtmlReport (duration : Q) (a : option analysis) : report :=
  match a with
  | None => MkReport (duration / 1000)%Q 0 0%Q 0%Q [] [] None
  | Some a =>
      MkReport (duration / 1000)%Q (an_samples a) (an_avgCpuUser a / 1000)%Q (an_avgMemory a / 1024 / 1024)%Q (an_insights a)
        (map (fun e => (existsb (fun n => bool_decide (n = e.1)) (bn_slowFunctions (an_bottlenecks a)), e)) (an_functions a))
        (if (0 <? ia_total (an_io a))%nat then Some (ia_perOp (an_io a)) else None)
  end.

(** ** Exports *)

(** [now.toISOString().replace(/[:.]/g, '-').slice(0, 19)] *)
Definition stamp (iso : str) : str := take 19 (map (fun u => if (u =? 58) || (u =? 46) then 45 else u) iso).

Definition json_name (iso : str) : str := js "perf-monitor-" ++ stamp iso ++ js ".json".
Definition html_name (iso : str) : str := js "perf-monitor-" ++ stamp iso ++ js "-report.html".

(** The part of [exportJson] and [exportDisplayedHtml] that writes the file *)
Section exports.
Context `{FileSystem F}.

Definition export_file (folder : uri) (name text : str) : io F unit :=
  do! there <- exists_ folder in
  run! (if there then io_ret () else createDirectory folder) then
  writeFile (folder ++ [name]) text.

(** Errors are caught and shown. *)
Definition exportJson (ws : uri) (iso text : str) : io F unit :=
  run! attempt (export_file (ws ++ [js ".debug"; js "perf"]) (json_name iso) text) then io_ret ().

Definition exportDisplayedHtml (ws : uri) (iso html : str) : io F unit :=
  run! attempt (export_file (ws ++ [js "out"; js "perf"]) (html_name iso) html) then io_ret ().
End exports.

(** The figures of the exported file; [None] is an infinite number, which is printed as null.
    [ex_data] and [ex_webview] are the fields of [PerfMonitorExportManager]. *)
Record exporter := MkExp { ex_data : list pdata; ex_webview : list (str * Q) }.

Definition ex_init : exporter := MkExp [] [].

Record export_summary := MkSum {
  su_samples : nat; su_duration : Q; su_avgCpuUser : Q; su_avgCpuSystem : Q;
  su_maxMemory : option Z; su_minMemory : option Z; su_ioOperations : nat; su_ioTime : Q }.

Definition zmax_of (l : list Z) : option Z := match l with [] => None | x :: l' => Some (fold_left Z.max l' x) end.
Definition zmin_of (l : list Z) : option Z := match l with [] => None | x :: l' => Some (fold_left Z.min l' x) end.

Definition export_values (x : exporter) (p : profiler) : list fcall * export_summary :=
  let '(duration, calls, a) := stop_result p in
  let d := ex_data x in
  (calls ++ map (fun d => MkCall d.1 0%Q d.2) (ex_webview x),
   MkSum (length d) duration (Qmean (map (fun s => inject_Z (pd_user s)) d)) (Qmean (map (fun s => inject_Z (pd_system s)) d))
     (zmax_of (map pd_heap d)) (zmin_of (map pd_heap d))
     (match a with Some a => ia_total (an_io a) | None => 0%nat end)
     (match a with Some a => ia_time (an_io a) | None => 0%Q end)).

(** ** The view *)

(** A message with the changes since the last one *)
Record delta := MkDelta { dl_time : Z; dl_op : str; dl_duration : option Q; dl_cpu : option (Q * Q); dl_mem : option (Q * Q) }.

Record chart := MkChart { ch_labels : list Z; ch_user : list Q; ch_system : list Q; ch_memory : list Q }.

(** [vi_stop]: the button says that it stops; [vi_rows] are the rows of the list of timings *)
Record view := MkView {
  vi_chart : option chart;
  vi_scheduled : bool;
  vi_pending : option (list pdata);
  vi_stop : bool;
  vi_export : option report;
  vi_report : option report;
  vi_cpu : list (Z * (Q * Q));
  vi_mem : list (Z * (Q * Q));
  vi_timings : list (Z * str * option Q);
  vi_rows : list (Z * str * option Q) }.

Definition vi_init : view := MkView None false None false None None [] [] [] [].

Definition MAX_POINTS : nat := 1000.

Definition trim_points {A} (l : list A) : list A := if (MAX_POINTS <? length l)%nat then drop (length l - MAX_POINTS) l else l.

Definition updateChartNow (data : list pdata) : chart :=
  MkChart (map pd_time data)
    (trim_points (map (fun d => (inject_Z (pd_user d) / 1000)%Q) data))
    (trim_points (map (fun d => (inject_Z (pd_system d) / 1000)%Q) data))
    (trim_points (map (fun d => (inject_Z (pd_heap d) / 1024 / 1024)%Q) data)).

(** [checkChart]: the attempt, of 50 at most, at which the library is there, if any; [loaded k] is
    whether it is there at the [k]-th one *)
Definition maxRetries : nat := 50.

Fixpoint checkChart (left : nat) (loaded : nat -> bool) (retryCount : nat) : option nat :=
  let k := S retryCount in
  if loaded k then Some k
  else match left with O => None | S left' => checkChart left' loaded k end.

Definition initChart (loaded : nat -> bool) : option nat := checkChart (pred maxRetries) loaded 0.

(** The new chart, once the library is there *)
Definition chart_ready (v : view) : view :=
  match vi_chart v with
  | Some _ => v
  | None => MkView (Some (MkChart [] [] [] [])) (vi_scheduled v) (vi_pending v) (vi_stop v) (vi_export v) (vi_report v)
              (vi_cpu v) (vi_mem v) (vi_timings v) (vi_rows v)
  end.

Definition scheduleChartUpdate (data : list pdata) (v : view) : view :=
  MkView (vi_chart v) true (Some data) (vi_stop v) (vi_export v) (vi_report v) (vi_cpu v) (vi_mem v) (vi_timings v) (vi_rows v).

(** The timer of [scheduleChartUpdate] *)
Definition chart_timer (v : view) : view :=
  if vi_scheduled v then
    MkView (match vi_chart v, vi_pending v with Some _, Some data => Some (updateChartNow data) | c, _ => c end)
      false (vi_pending v) (vi_stop v) (vi_export v) (vi_report v) (vi_cpu v) (vi_mem v) (vi_timings v) (vi_rows v)
  else v.

Definition updateDisplay (d : delta) (v : view) : view :=
  let cpu := match dl_cpu d with Some c => push_shift 10 (dl_time d, c) (vi_cpu v) | None => vi_cpu v end in
  let mem := match dl_mem d with Some c => push_shift 10 (dl_time d, c) (vi_mem v) | None => vi_mem v end in
  let timings := push_shift 20 (dl_time d, dl_op d, dl_duration d) (vi_timings v) in
  MkView (vi_chart v) (vi_scheduled v) (vi_pending v) (vi_stop v) (vi_export v) (vi_report v) cpu mem timings
    (map (fun e => (e.1.1, e.1.2, dl_duration d)) timings).

(** The handler of the host's messages *)
Definition view_message (m : mpost) (v : view) : view :=
  match m with
  | UpdateData data => scheduleChartUpdate data v
  | CaptureStarted =>
      MkView (vi_chart v) (vi_scheduled v) (vi_pending v) true (vi_export v) (vi_report v) (vi_cpu v) (vi_mem v) (vi_timings v) (vi_rows v)
  | CaptureStopped duration _ a =>
      let r := generateHtmlReport duration a in
      MkView (vi_chart v) (vi_scheduled v) (vi_pending v) false (Some r) (Some r) (vi_cpu v) (vi_mem v) (vi_timings v) (vi_rows v)
  end.

(** The button that starts and stops *)
Definition capture_click (now : Q) (v : view) : mmsg := if vi_stop v then MStop now else MStart now.

Inductive view_event := VPost (m : mpost) | VDelta (d : delta) | VChartReady | VTimer.

Definition view_do (v : view) (e : view_event) : view :=
  match e with
  | VPost m => view_message m v
  | VDelta d => updateDisplay d v
  | VChartReady => chart_ready v
  | VTimer => chart_timer v
  end.

(** ** The data manager and the log of the editor provider *)

Definition PERF_DATA_MAX : nat := 1000.

(** [PerfMonitorDataManager], the open panel of [PerfMonitorWebviewManager] and [_perfLogPath];
    [ed_files] are the lines of the log files *)
Inductive log_item := LogStart | LogEntryOf (d : delta) | LogEnd (total : nat).

Record editor := MkEditor {
  ed_mode : bool;
  ed_data : list delta;
  ed_open : bool;
  ed_path : option nat;
  ed_files : gmap nat (list log_item);
  ed_reads : list (nat * list log_item * delta) }.   (* updates that have read the file *)

Definition ed_init : editor := MkEditor false [] false None ∅ [].

Definition addPerfData (d : delta) (s : editor) : editor :=
  if ed_mode s then MkEditor (ed_mode s) (push_shift PERF_DATA_MAX d (ed_data s)) (ed_open s) (ed_path s) (ed_files s) (ed_reads s) else s.

Definition lines_at (f : nat) (s : editor) : list log_item := or_else (ed_files s !! f) [].

(** [updatePanel] *)
Definition updatePanel (s : editor) : list (list delta) :=
  if ed_open s && ed_mode s && nonempty (ed_data s) then [ed_data s] else [].

(** [updatePerf] up to the reading of the file *)
Definition update_read (d : delta) (s : editor) : editor * list (list delta) :=
  let s1 := addPerfData d s in
  match ed_path s1 with
  | Some f => (MkEditor (ed_mode s1) (ed_data s1) (ed_open s1) (ed_path s1) (ed_files s1) (ed_reads s1 ++ [(f, lines_at f s1, d)]), [])
  | None => (s1, updatePanel s1)
  end.

(** The oldest update that has read writes the file and tells the panel. *)
Definition update_write (s : editor) : editor * list (list delta) :=
  match ed_reads s with
  | [] => (s, [])
  | (f, old, d) :: rest =>
      let s1 := MkEditor (ed_mode s) (ed_data s) (ed_open s) (ed_path s) (<[f := old ++ [LogEntryOf d]]> (ed_files s)) rest in
      (s1, updatePanel s1)
  end.

(** [setPerfMode]: a new log file, or the end of the one there is *)
Definition setPerfMode (on : bool) (fresh : nat) (s : editor) : editor :=
  if on then MkEditor true (ed_data s) true (Some fresh) (<[fresh := [LogStart]]> (ed_files s)) (ed_reads s)
  else match ed_path s with
       | Some f => MkEditor false (ed_data s) (ed_open s) None (<[f := lines_at f s ++ [LogEnd (length (ed_data s))]]> (ed_files s)) (ed_reads s)
       | None => MkEditor false (ed_data s) (ed_open s) None (ed_files s) (ed_reads s)
       end.

(** The command: what the user picks, if anything *)
Definition openPerfMonitor (choice : option bool) (s : editor) : editor :=
  match choice with
  | None => s
  | Some on => MkEditor on (ed_data s) on (ed_path s) (ed_files s) (ed_reads s)
  end.

(** ** Theorems on the captures *)

Lemma push_shift_keep {A} n (x : A) l : (length l <= n)%nat -> push_shift n x l = keep_last n (l ++ [x]).
Proof.
  intros Hl. unfold push_shift, keep_last. rewrite length_app. cbn [length].
  destruct (n <? length l + 1)%nat eqn:E; [apply Nat.ltb_lt in E|apply Nat.ltb_ge in E].
  - by replace (length l + 1 - n)%nat with 1%nat by lia.
  - by replace (length l + 1 - n)%nat with 0%nat by lia.
Qed.

Lemma push_shift_length {A} n (x : A) l : (length l <= n)%nat -> (length (push_shift n x l) <= n)%nat.
Proof. intros Hl. rewrite push_shift_keep by done. apply keep_last_length. Qed.

Lemma mon_run_app s a b :
  mon_run s (a ++ b) = let '(s1, o1) := mon_run s a in let '(s2, o2) := mon_run s1 b in (s2, o1 ++ o2).
Proof.
  revert s. induction a as [|e a IH]; intros s; cbn [mon_run app]; [by destruct (mon_run s b)|].
  destruct (mon_do s e) as [s1 o1]. rewrite IH. destruct (mon_run s1 a) as [s2 o2], (mon_run s2 b) as [s3 o3]. by rewrite app_assoc.
Qed.

(** No message to stop; the program calls functions and reads files, and samples are taken. *)
Definition running (e : mon_event) : Prop :=
  match e with Receive (MStop _) => False | Program e => during e | _ => True end.

Definition program_of (es : list mon_event) : list prof_op := omap (fun e => match e with Program e => Some e | _ => None end) es.

Lemma restart_collecting t0 calls io samples now p :
  collecting t0 calls io samples p -> collecting t0 calls io samples (startCapture now (set_enabled true p)).
Proof. intros [He Hc Ha Hi Hs Ht]. unfold startCapture. cbn [set_enabled cp_capturing cp_enabled]. rewrite Hc. cbn [orb]. by split. Qed.

Lemma program_cons e es : program_of (e :: es) = program_of [e] ++ program_of es.
Proof. unfold program_of. by rewrite <- omap_app. Qed.

Lemma running_step t0 calls io samples s e :
  collecting t0 calls io samples (mo_prof s) -> running e ->
  collecting t0 (calls ++ calls_in (program_of [e])) (io ++ io_in (program_of [e])) (samples ++ samples_in (program_of [e])) (mo_prof (mon_do s e).1).
Proof.
  intros Hp He. destruct e as [| |m|t d|e]; cbn [program_of omap list_omap calls_in io_in samples_in]; rewrite ?app_nil_r.
  - cbn [mon_do fst]. unfold createPanel. by destruct (mo_panel s).
  - cbn [mon_do fst]. unfold monitor_dispose, mgr_dispose. by destruct (mo_current s).
  - cbn [mon_do]. destruct (mo_panel s) as [i|]; [|done]. destruct m; try done. cbn [handleMessage mgr_start fst mo_prof].
    by apply restart_collecting.
  - cbn [mon_do]. destruct (find _ _) as [[? i]|]; [|done]. unfold mgr_tick. by destruct (cm_capturing _).
  - cbn [mon_do fst set_prof mo_prof]. by apply during_step.
Qed.

Lemma running_run t0 : forall es calls io samples s,
  collecting t0 calls io samples (mo_prof s) -> Forall running es ->
  collecting t0 (calls ++ calls_in (program_of es)) (io ++ io_in (program_of es)) (samples ++ samples_in (program_of es))
    (mo_prof (mon_run s es).1).
Proof.
  induction es as [|e es IH]; intros calls io samples s Hp Hes; [by rewrite !app_nil_r|]. inversion_clear Hes as [|? ? He Hes'].
  pose proof (IH _ _ _ _ (running_step _ _ _ _ _ _ Hp He) Hes') as R. cbn [mon_run]. destruct (mon_do s e) as [s1 o1] eqn:E.
  cbn [fst] in R. destruct (mon_run s1 es) as [s2 o2]. cbn [fst] in *. rewrite <- !app_assoc in R. rewrite (program_cons e es).
  unfold calls_in, io_in, samples_in in *. by rewrite !omap_app.
Qed.

Lemma started_collecting t0 i s : cp_capturing (mo_prof s) = false -> collecting t0 [] [] [] (mo_prof (mgr_start t0 i s).1).
Proof.
  intros Hc. cbn [mgr_start fst mo_prof]. unfold startCapture. cbn [set_enabled cp_capturing cp_enabled]. rewrite Hc. cbn [orb negb].
  split; try done. unfold array_of. cbn [cp_store cp_calls]. by rewrite lookup_insert_eq.
Qed.

Lemma mgr_stop_reports t0 t1 calls io samples i s :
  collecting t0 calls io samples (mo_prof s) -> mo_panel s = Some i ->
  let '(s', out) := mgr_stop t1 i s in
  out = [(i, CaptureStopped (t1 - t0)%Q (calls ++ map (fun d => MkCall d.1 0%Q d.2) (cm_webview (mgr_of i s))) (analyzeSamples samples calls io))] /\
  cp_enabled (mo_prof s') = false /\ cp_capturing (mo_prof s') = false.
Proof.
  intros [He Hc Ha Hi Hs Ht] Hp. unfold mgr_stop, stop_result, stopCapture. rewrite Hc. cbn [negb cp_result ca_duration ca_calls ca_analysis].
  unfold post_to. rewrite bool_decide_true by done. rewrite Ha, Hi, Hs, Ht.
  change (array_of (cp_calls (mo_prof s)) (MkProf _ _ _ _ _ _ _ _ _)) with (array_of (cp_calls (mo_prof s)) (mo_prof s)). by rewrite Ha.
Qed.


(** Closing the panel does not end a capture: as long as no message stops it, the profiler stays
    on and goes on collecting. *)
Theorem closing_keeps_profiling s i es t0 :
  mo_panel s = Some i -> cp_capturing (mo_prof s) = false -> Forall running es ->
  let s' := (mon_run s (Receive (MStart t0) :: Close :: es)).1 in
  cp_enabled (mo_prof s') = true /\ cp_capturing (mo_prof s') = true /\
  array_of (cp_calls (mo_prof s')) (mo_prof s') = calls_in (program_of es).
Proof.
  intros Hp Hc Hes s'. assert (Hr : collecting t0 (calls_in (program_of es)) (io_in (program_of es)) (samples_in (program_of es)) (mo_prof s')).
  { assert (Hes' : Forall running (Close :: es)) by by constructor. unfold s'.
    change (program_of es) with (program_of (Close :: es)). revert Hes'. generalize (Close :: es). intros es' Hes'.
    cbn [mon_run mon_do]. rewrite Hp. cbn [handleMessage]. pose proof (started_collecting t0 i s Hc) as H0.
    destruct (mgr_start t0 i s) as [s1 o1]. cbn [fst] in H0. pose proof (running_run t0 es' _ _ _ _ H0 Hes') as R.
    destruct (mon_run s1 es') as [s2 o2]. exact R. }
  destruct Hr as [R1 R2 R3 _ _ _]. done.
Qed.

Definition demo_open : monitor := (mon_do mo_init Open).1.

Definition demo_capture : list mon_event :=
  [Program (PrCall (MkCall (js "f") 1%Q 2%Q)); Receive (MMeasure (js "ui") 3%Q); Timer 1 (MkPd 0 1 1 1); Program (PrSample (MkSample 4%Q 1 1 1))].


Lemma closing_keeps_profiling_witness :
  let s' := (mon_run demo_open (Receive (MStart 0%Q) :: Close :: demo_capture)).1 in
  cp_enabled (mo_prof s') = true /\ cp_capturing (mo_prof s') = true /\
  array_of (cp_calls (mo_prof s')) (mo_prof s') = [MkCall (js "f") 1%Q 2%Q].
Proof. refine (closing_keeps_profiling demo_open 0 demo_capture 0%Q _ _ _); [reflexivity|reflexivity|by repeat constructor]. Defined.

(** Two clicks before the answer start two timers; the manager knows of the last one only, so
    the first one runs on after the capture, and until then every sample is taken twice. *)
Example double_start_leaks_timer :
  let r := mon_run demo_open [Receive (MStart 0%Q); Receive (MStart 1%Q); Timer 1 (MkPd 0 1 1 1); Timer 2 (MkPd 0 1 1 1)] in
  let r' := mon_run r.1 [Receive (MStop 2%Q)] in
  List.last (map snd r.2) CaptureStarted = UpdateData [MkPd 0 1 1 1; MkPd 0 1 1 1] /\ mo_timers r'.1 = [(1, 0)]%nat.
Proof. by vm_compute. Qed.

(** ** Theorems on the view *)

(** No manager keeps more than 100 samples, and none is posted more. *)
Definition small_map (ms : gmap nat cmgr) : Prop := forall i m, ms !! i = Some m -> (length (cm_data m) <= 100)%nat.

Abbreviation small_mgrs s := (small_map (mo_mgrs s)).

Lemma small_mgr_of s i : small_mgrs s -> (length (cm_data (mgr_of i s)) <= 100)%nat.
Proof. intros Hs. unfold mgr_of. destruct (mo_mgrs s !! i) as [m|] eqn:E; [by apply (Hs i)|cbn; lia]. Qed.

Lemma small_insert (ms : gmap nat cmgr) i m :
  small_map ms -> (length (cm_data m) <= 100)%nat -> small_map (<[i := m]> ms).
Proof.
  intros Hms Hm j k. destruct (decide (i = j)) as [->|Hne]; [rewrite lookup_insert_eq; by intros [= <-]|].
  rewrite lookup_insert_ne by done. apply Hms.
Qed.

Lemma small_step s e : small_mgrs s ->
  small_mgrs (mon_do s e).1 /\ forall i data, (i, UpdateData data) ∈ (mon_do s e).2 -> (length data <= 100)%nat.
Proof.
  assert (Hnil : forall i (data : list pdata), (i, UpdateData data) ∈ ([] : list (nat * mpost)) -> (length data <= 100)%nat) by (intros i data Hin; by apply elem_of_nil in Hin).
  assert (Hpost : forall i m s0 j (data : list pdata), (j, UpdateData data) ∈ post_to i m s0 -> m = UpdateData data).
  { intros i m s0 j data. unfold post_to. case_bool_decide; [|intros Hin; by apply elem_of_nil in Hin].
    intros Hin. apply list_elem_of_singleton in Hin. congruence. }
  intros Hs. destruct e as [| |m|t d|e]; cbn [mon_do].
  - split; [|exact Hnil]. cbn [fst]. unfold createPanel. destruct (mo_panel s); [done|]. apply small_insert; [done|cbn; lia].
  - split; [|exact Hnil]. cbn [fst]. unfold monitor_dispose. destruct (mo_current s) as [i|]; [|done].
    apply small_insert; [done|by apply small_mgr_of].
  - destruct (mo_panel s) as [i|]; [|split; [done|exact Hnil]]. destruct m as [now|now|name d| |html]; cbn [handleMessage].
    + cbn [mgr_start fst snd]. split; [apply small_insert; [done|cbn; lia]|]. intros j data Hin. by apply Hpost in Hin.
    + unfold mgr_stop. destruct (stop_result _) as [[dur calls] a]. cbn [fst snd].
      split; [apply small_insert; [done|by apply small_mgr_of]|]. intros j data Hin. by apply Hpost in Hin.
    + cbn [fst snd]. split; [|exact Hnil]. unfold addWebviewPerfData. apply small_insert; [done|by apply small_mgr_of].
    + by split.
    + by split.
  - destruct (find _ _) as [[? i]|]; [|by split]. unfold mgr_tick. destruct (cm_capturing _); [|by split]. cbn [fst snd].
    assert (Hl : (length (push_shift 100 d (cm_data (mgr_of i s))) <= 100)%nat) by (apply push_shift_length; by apply small_mgr_of).
    split; [by apply small_insert|]. intros j data Hin. apply Hpost in Hin. by injection Hin as <-.
  - by split.
Qed.

Lemma small_run es s : small_mgrs s ->
  forall i data, (i, UpdateData data) ∈ (mon_run s es).2 -> (length data <= 100)%nat.
Proof.
  revert s. induction es as [|e es IH]; intros s Hs i data; cbn [mon_run]; [intros Hin; by apply elem_of_nil in Hin|].
  destruct (small_step s e Hs) as [H1 H2]. destruct (mon_do s e) as [s1 o1]. cbn [fst snd] in *. pose proof (IH s1 H1 i data) as H3.
  destruct (mon_run s1 es) as [s2 o2]. cbn [snd] in *. rewrite elem_of_app. intros [Hin|Hin]; [by apply (H2 i)|by apply H3].
Qed.

(** Whatever the panel is sent, the chart that is drawn of it has a label and three values for
    every sample, in the order of the samples. *)
Theorem chart_aligned es i data :
  (i, UpdateData data) ∈ (mon_run mo_init es).2 ->
  updateChartNow data =
    MkChart (map pd_time data) (map (fun d => (inject_Z (pd_user d) / 1000)%Q) data)
      (map (fun d => (inject_Z (pd_system d) / 1000)%Q) data) (map (fun d => (inject_Z (pd_heap d) / 1024 / 1024)%Q) data).
Proof.
  intros Hin. assert (Hl : (length data <= 100)%nat) by (apply (small_run es mo_init) in Hin; [done|by intros j m]).
  assert (Ht : forall A (f : pdata -> A), trim_points (map f data) = map f data).
  { intros A f. unfold trim_points. rewrite length_map. destruct (MAX_POINTS <? length data)%nat eqn:E; [|done].
    apply Nat.ltb_lt in E. unfold MAX_POINTS in E. lia. }
  unfold updateChartNow. by rewrite !Ht.
Qed.

Lemma chart_aligned_witness :
  updateChartNow [MkPd 7 1000 2000 1048576] = MkChart [7] [(1000 / 1000)%Q] [(2000 / 1000)%Q] [(1048576 / 1024 / 1024)%Q].
Proof.
  apply (chart_aligned [Open; Receive (MStart 0%Q); Timer 1 (MkPd 7 1000 2000 1048576)] 0).
  apply list_elem_of_lookup. exists 1%nat. reflexivity.
Defined.

(** With more than 1000 samples the values would be cut and the labels not. *)
Example labels_not_trimmed :
  let ch := updateChartNow (repeat (MkPd 0 1 1 1) 1001) in length (ch_labels ch) = 1001%nat /\ length (ch_user ch) = 1000%nat.
Proof. by vm_compute. Qed.

Lemma checkChart_spec loaded : forall left n k,
  checkChart left loaded n = Some k <-> (n < k <= n + S left)%nat /\ loaded k = true /\ forall j, (n < j < k)%nat -> loaded j = false.
Proof.
  induction left as [|left IH]; intros n k; cbn [checkChart]; destruct (loaded (S n)) eqn:E.
  - split; [intros [= <-]; split; [lia|split; [done|lia]]|]. intros (H1 & H2 & H3). f_equal. destruct (decide (k = S n)) as [->|]; [done|]. rewrite (H3 (S n)) in E by lia. discriminate.
  - split; [done|]. intros (H1 & H2 & _). assert (k = S n) as -> by lia. congruence.
  - split; [intros [= <-]; split; [lia|split; [done|lia]]|]. intros (H1 & H2 & H3). f_equal. destruct (decide (k = S n)) as [->|]; [done|]. rewrite (H3 (S n)) in E by lia. discriminate.
  - rewrite IH. split.
    + intros (H1 & H2 & H3). split; [lia|split; [done|]]. intros j Hj. destruct (decide (j = S n)) as [->|]; [done|]. apply H3. lia.
    + intros (H1 & H2 & H3). destruct (decide (k = S n)) as [->|]; [congruence|]. split; [lia|split; [done|]]. intros j Hj. apply H3. lia.
Qed.

(** The chart is made at the first of 50 attempts at which the library is there; it is given up
    only when all 50 have failed. *)
Theorem chart_retries loaded :
  (forall k, initChart loaded = Some k <-> (1 <= k <= maxRetries)%nat /\ loaded k = true /\ forall j, (1 <= j < k)%nat -> loaded j = false) /\
  (initChart loaded = None <-> forall k, (1 <= k <= maxRetries)%nat -> loaded k = false).
Proof.
  unfold initChart, maxRetries. cbn [pred]. assert (H : forall k, checkChart 49 loaded 0 = Some k <->
    (1 <= k <= 50)%nat /\ loaded k = true /\ forall j, (1 <= j < k)%nat -> loaded j = false).
  { intros k. rewrite checkChart_spec. split; intros (H1 & H2 & H3); (split; [lia|split; [done|]]); intros j Hj; apply H3; lia. }
  split; [done|]. split.
  - intros Hn. assert (Hall : forall n k, (k <= n)%nat -> (1 <= k <= 50)%nat -> loaded k = false).
    { induction n as [|n IH]; intros k Hk Hk'; [lia|]. destruct (decide (k = S n)) as [->|]; [|apply IH; lia].
      destruct (loaded (S n)) eqn:E; [|done]. assert (checkChart 49 loaded 0 = Some (S n)) as E'; [|congruence].
      apply H. split; [lia|split; [done|]]. intros j Hj. apply IH; lia. }
    intros k Hk. by apply (Hall k).
  - intros Hall. destruct (checkChart 49 loaded 0) as [k|]; [|done]. destruct (proj1 (H k) eq_refl) as (H1 & H2 & _). rewrite (Hall k H1) in H2. discriminate.
Qed.

(** The samples of the last message *)
Definition latest (es : list view_event) : option (list pdata) :=
  fold_left (fun r e => match e with VPost (UpdateData data) => Some data | _ => r end) es None.

(** Once the chart is there it shows, when no update is waiting, the samples of the last message;
    an update that waits is for the samples of the last message. *)
Theorem chart_shows_latest es :
  let v := fold_left view_do es (chart_ready vi_init) in
  if vi_scheduled v then vi_pending v = latest es /\ is_Some (latest es)
  else vi_chart v = Some (match latest es with Some data => updateChartNow data | None => MkChart [] [] [] [] end).
Proof.
  intros v. assert (H : is_Some (vi_chart v) /\ vi_pending v = latest es /\
    if vi_scheduled v then is_Some (latest es)
    else vi_chart v = Some (match latest es with Some data => updateChartNow data | None => MkChart [] [] [] [] end)).
  { unfold v, latest. induction es as [|e es IH] using rev_ind; [done|]. rewrite !fold_left_app. cbn [fold_left].
    set (w := fold_left view_do es (chart_ready vi_init)) in *. set (l := fold_left _ es None) in *. destruct IH as (H1 & H2 & H3).
    destruct e as [[| |]| | |]; cbn [view_do view_message scheduleChartUpdate vi_chart vi_pending vi_scheduled]; try done.
    - assert (E : chart_ready w = w) by (unfold chart_ready; destruct H1 as [c Hc]; by rewrite Hc). by rewrite E.
    - unfold chart_timer. destruct (vi_scheduled w) eqn:Es; [|by rewrite Es]. cbn [vi_chart vi_pending vi_scheduled].
      destruct H1 as [c Hc], H3 as [data Hd]. rewrite Hc, H2, Hd. by split_and!. }
  destruct H as (_ & H2 & H3). by destruct (vi_scheduled v).
Qed.

(** An update that fires before the chart library is there is lost. *)
Example early_update_lost :
  let v := fold_left view_do [VPost (UpdateData [MkPd 0 1 1 1]); VTimer; VChartReady] vi_init in
  vi_scheduled v = false /\ vi_chart v = Some (MkChart [] [] [] []).
Proof. by vm_compute. Qed.

(** The lists of the view keep the newest entries; but every row of the list of timings shows
    the duration of the newest one. *)
Theorem timings_show_latest ds d v :
  vi_timings v = [] -> vi_cpu v = [] ->
  let v' := fold_left (fun v d => updateDisplay d v) (ds ++ [d]) v in
  vi_timings v' = keep_last 20 (map (fun d => (dl_time d, dl_op d, dl_duration d)) (ds ++ [d])) /\
  vi_cpu v' = keep_last 10 (omap (fun d => (fun c => (dl_time d, c)) <$> dl_cpu d) (ds ++ [d])) /\
  Forall (fun row => row.2 = dl_duration d) (vi_rows v').
Proof.
  intros Ht Hc v'. assert (H : forall es, let w := fold_left (fun v d => updateDisplay d v) es v in
    vi_timings w = keep_last 20 (map (fun d => (dl_time d, dl_op d, dl_duration d)) es) /\
    vi_cpu w = keep_last 10 (omap (fun d => (fun c => (dl_time d, c)) <$> dl_cpu d) es)).
  { intros es. induction es as [|e es IH] using rev_ind; [cbn; by rewrite Ht, Hc|]. cbn zeta in *. rewrite fold_left_app. cbn [fold_left].
    set (w := fold_left _ es v) in *. destruct IH as [I1 I2]. cbn [updateDisplay vi_timings vi_cpu]. split.
    - rewrite I1, push_shift_keep by apply keep_last_length. by rewrite keep_last_app, map_app.
    - rewrite omap_app. cbn [omap list_omap]. destruct (dl_cpu e) as [c|]; cbn [fmap option_fmap option_map].
      + rewrite I2, push_shift_keep by apply keep_last_length. by rewrite keep_last_app.
      + by rewrite app_nil_r. }
  destruct (H (ds ++ [d])) as [H1 H2]. split_and!; [exact H1|exact H2|].
  unfold v'. rewrite fold_left_app. cbn [fold_left updateDisplay vi_rows]. apply Forall_map, Forall_true. done.
Qed.

Lemma timings_show_latest_witness :
  let a := MkDelta 1 (js "a") (Some 5%Q) None None in
  let b := MkDelta 2 (js "b") (Some 7%Q) (Some (1%Q, 2%Q)) None in
  let v' := fold_left (fun v d => updateDisplay d v) ([a] ++ [b]) vi_init in
  vi_timings v' = [(1, js "a", Some 5%Q); (2, js "b", Some 7%Q)] /\ vi_cpu v' = [(2, (1%Q, 2%Q))] /\
  Forall (fun row => row.2 = Some 7%Q) (vi_rows v').
Proof.
  exact (timings_show_latest [MkDelta 1 (js "a") (Some 5%Q) None None] (MkDelta 2 (js "b") (Some 7%Q) (Some (1%Q, 2%Q)) None) vi_init eq_refl eq_refl).
Defined.

(** While one panel is open, the view that has got all messages shows on its button what the host
    does, so that a click sends the message that changes it. *)
Definition in_panel (e : mon_event) : Prop := match e with Open | Close => False | _ => True end.

Definition shown_to (i : nat) (out : list (nat * mpost)) (v : view) : view :=
  fold_left (fun v x => if Nat.eqb x.1 i then view_message x.2 v else v) out v.

Lemma shown_app i a b v : shown_to i (a ++ b) v = shown_to i b (shown_to i a v).
Proof. unfold shown_to. apply fold_left_app. Qed.

Lemma in_panel_step s e i v :
  mo_panel s = Some i -> in_panel e -> vi_stop v = cm_capturing (mgr_of i s) ->
  mo_panel (mon_do s e).1 = Some i /\ vi_stop (shown_to i (mon_do s e).2 v) = cm_capturing (mgr_of i (mon_do s e).1).
Proof.
  intros Hp He Hv. destruct e as [| |m|t d|e]; try done; cbn [mon_do].
  - rewrite Hp. destruct m as [now|now|name d| |html]; cbn [handleMessage]; [| | |by split|by split].
    + cbn [mgr_start fst snd mo_panel]. split; [done|]. unfold post_to, mgr_of. rewrite bool_decide_true by done. cbn [mo_mgrs shown_to fold_left fst snd].
      by rewrite Nat.eqb_refl, lookup_insert_eq.
    + unfold mgr_stop. destruct (stop_result _) as [[dur calls] a]. cbn [fst snd mo_panel]. split; [done|].
      unfold post_to, mgr_of. rewrite bool_decide_true by done. cbn [mo_mgrs shown_to fold_left fst snd].
      by rewrite Nat.eqb_refl, lookup_insert_eq.
    + cbn [fst snd]. split; [done|]. unfold addWebviewPerfData, mgr_of at 1. cbn [set_mgr mo_mgrs]. by rewrite lookup_insert_eq.
  - destruct (find _ _) as [[t' k]|]; [|by split]. unfold mgr_tick. destruct (cm_capturing (mgr_of k s)) eqn:Ec; [|by split].
    cbn [fst snd set_mgr mo_panel]. split; [done|]. unfold post_to. rewrite Hp.
    assert (E : cm_capturing (mgr_of i (set_mgr k (MkMgr (cm_interval (mgr_of k s)) (push_shift 100 d (cm_data (mgr_of k s))) true (cm_webview (mgr_of k s))) s)) = cm_capturing (mgr_of i s)).
    { unfold mgr_of at 1. cbn [set_mgr mo_mgrs]. destruct (decide (k = i)) as [->|Hne]; [by rewrite lookup_insert_eq|]. by rewrite lookup_insert_ne. }
    rewrite E. case_bool_decide; cbn [shown_to fold_left fst snd]; [|done]. destruct (Nat.eqb k i); done.
Qed.

Theorem button_follows es s i v :
  mo_panel s = Some i -> Forall in_panel es -> vi_stop v = cm_capturing (mgr_of i s) ->
  let r := mon_run s es in
  let v' := shown_to i r.2 v in
  vi_stop v' = cm_capturing (mgr_of i r.1) /\
  forall now, capture_click now v' = if cm_capturing (mgr_of i r.1) then MStop now else MStart now.
Proof.
  intros Hp Hes Hv r v'. assert (H : vi_stop v' = cm_capturing (mgr_of i r.1)).
  { unfold v', r. clear r v'. revert s v Hp Hv Hes. induction es as [|e es IH]; intros s v Hp Hv Hes; [done|]. inversion_clear Hes as [|? ? He Hes'].
    destruct (in_panel_step s e i v Hp He Hv) as [H1 H2]. cbn [mon_run]. destruct (mon_do s e) as [s1 o1]. cbn [fst snd] in *.
    pose proof (IH s1 _ H1 H2 Hes') as H3. destruct (mon_run s1 es) as [s2 o2]. cbn [fst snd] in *. by rewrite shown_app. }
  split; [done|]. intros now. unfold capture_click. by rewrite H.
Qed.

Lemma button_follows_witness :
  let r := mon_run demo_open [Receive (MStart 0%Q)] in
  let v' := shown_to 0 r.2 vi_init in
  vi_stop v' = true /\ forall now, capture_click now v' = MStop now.
Proof. exact (button_follows [Receive (MStart 0%Q)] demo_open 0 vi_init eq_refl ltac:(by repeat constructor) eq_refl). Defined.

(** ** Theorems on the report and the exports *)

(** The processor time that the report shows as milliseconds is in seconds: the analysis has
    divided by 1000 already. *)
Theorem report_cpu_in_seconds samples calls io a first duration :
  analyzeSamples samples calls io = Some a -> samples !! 0%nat = Some first -> (2 <= length samples)%nat ->
  (rp_avgCpuUserMs (generateHtmlReport duration (Some a)) * qof (length samples - 1) * 1000000 ==
     inject_Z (sm_user (List.last samples first) - sm_user first))%Q.
Proof.
  intros Ha Hf Hl. destruct (analysis_figures samples calls io a first Ha Hf Hl) as (H & _ & _). cbn [generateHtmlReport rp_avgCpuUserMs].
  rewrite <- H. field.
Qed.

Lemma report_cpu_in_seconds_witness :
  exists a, analyzeSamples [MkSample 0%Q 0 0 1; MkSample 100%Q 50000 0 1] [] [] = Some a /\
  (rp_avgCpuUserMs (generateHtmlReport 100%Q (Some a)) * qof 1 * 1000000 == inject_Z (50000 - 0))%Q.
Proof.
  eexists. split; [reflexivity|].
  refine (report_cpu_in_seconds [MkSample 0%Q 0 0 1; MkSample 100%Q 50000 0 1] [] [] _ (MkSample 0%Q 0 0 1) 100%Q _ _ _); [reflexivity|reflexivity|cbn; lia].
Defined.

Section exported.
Context `{Hlaws : FileSystemLaws F}.
Implicit Types (f : F).

Lemma export_file_ok (folder : uri) name text f :
  clear_path folder f -> fs_stat (folder ++ [name]) f <> Some FtDirectory ->
  exists f', export_file folder name text f = (Some (), f') /\ fs_read (folder ++ [name]) f' = Some text /\
    forall q, q <> folder ++ [name] -> fs_read q f' = fs_read q f.
Proof.
  intros Hc Hd. unfold export_file, io_bind, exists_. destruct (fs_stat folder f) as [k|] eqn:E.
  - cbn [io_ret]. destruct (writeFile_ok folder name text f Hc Hd) as (f' & H1 & _ & H2 & H3). exists f'. by rewrite H1.
  - destruct (createDirectory_ok folder f Hc) as (H1 & H2 & H3). rewrite H1.
    assert (Hc' : clear_path folder (fs_mkdir folder f).2) by (by apply (clear_made folder f)).
    destruct (writeFile_ok folder name text (fs_mkdir folder f).2 Hc') as (f' & H4 & _ & H5 & H6).
    { destruct (mkdir_stat folder f (folder ++ [name])) as [-> | (Hp & _)]; [done|].
      exfalso. by apply (not_below folder [name]). }
    exists f'. rewrite H4. split_and!; [done|done|]. intros q Hq. by rewrite H6, mkdir_read.
Qed.

(** An export: where the folders can be made, the file is there afterwards with the text, and no
    other file has changed; the JSON file and the report go to different folders. *)
Theorem exports_written (ws : uri) iso text f :
  let json := (ws ++ [js ".debug"; js "perf"]) ++ [json_name iso] in
  let html := (ws ++ [js "out"; js "perf"]) ++ [html_name iso] in
  clear_path (ws ++ [js ".debug"; js "perf"]) f -> clear_path (ws ++ [js "out"; js "perf"]) f ->
  fs_stat json f <> Some FtDirectory -> fs_stat html f <> Some FtDirectory ->
  (exists f', exportJson ws iso text f = (Some (), f') /\ fs_read json f' = Some text /\ forall q, q <> json -> fs_read q f' = fs_read q f) /\
  (exists f', exportDisplayedHtml ws iso text f = (Some (), f') /\ fs_read html f' = Some text /\ forall q, q <> html -> fs_read q f' = fs_read q f).
Proof.
  intros json html Hj Hh Dj Dh. split.
  - destruct (export_file_ok _ (json_name iso) text f Hj Dj) as (f' & H1 & H2 & H3). exists f'.
    unfold exportJson, io_bind, attempt. by rewrite H1.
  - destruct (export_file_ok _ (html_name iso) text f Hh Dh) as (f' & H1 & H2 & H3). exists f'.
    unfold exportDisplayedHtml, io_bind, attempt. by rewrite H1.
Qed.
End exported.

Lemma exports_written_witness :
  let f : memory := {[ [] := CFolder ]} in
  let iso := js "2025-11-03T08:15:59.123Z" in
  exists f', exportJson [js "w"] iso (js "{}") f = (Some (), f') /\
    fs_read [js "w"; js ".debug"; js "perf"; js "perf-monitor-2025-11-03T08-15-59.json"] f' = Some (js "{}").
Proof.
  destruct (exports_written [js "w"] (js "2025-11-03T08:15:59.123Z") (js "{}") ({[ [] := CFolder ]} : memory)) as [(f' & H1 & H2 & _) _].
  - intros q. apply mem_clear_spec. reflexivity.
  - intros q. apply mem_clear_spec. reflexivity.
  - by vm_compute.
  - by vm_compute.
  - exists f'. by split.
Defined.

(** Two exports in the same second have the same name, so the second one replaces the first. *)
Example exports_collide : json_name (js "2025-11-03T08:15:59.123Z") = json_name (js "2025-11-03T08:15:59.987Z").
Proof. by vm_compute. Qed.

(** Nothing sets the data of the exporter: an export has no samples of the panel and no calls of
    the view, and its extreme sizes of the heap are infinite. *)
Example export_lacks_monitoring p :
  fst (export_values ex_init p) = last_calls p /\
  su_samples (snd (export_values ex_init p)) = 0%nat /\ su_maxMemory (snd (export_values ex_init p)) = None.
Proof. unfold export_values, stop_result, last_calls. destruct (cp_result p); cbn; by rewrite ?app_nil_r. Qed.

(** ** Theorems on the log of the editor provider *)

(** Updates that do not overlap: the log has the start, every update in order, and the end with
    the number of entries that are kept. *)
Definition update (s : editor) (d : delta) : editor := (update_write (update_read d s).1).1.

Theorem perf_log_complete ds s fresh :
  ed_reads s = [] -> ed_data s = [] ->
  let s' := setPerfMode false 0 (fold_left update ds (setPerfMode true fresh s)) in
  lines_at fresh s' = LogStart :: map LogEntryOf ds ++ [LogEnd (Nat.min PERF_DATA_MAX (length ds))] /\ ed_path s' = None.
Proof.
  intros Hr Hd s'. assert (H : let w := fold_left update ds (setPerfMode true fresh s) in
    ed_mode w = true /\ ed_path w = Some fresh /\ ed_reads w = [] /\ ed_data w = keep_last PERF_DATA_MAX ds /\
    lines_at fresh w = LogStart :: map LogEntryOf ds).
  { induction ds as [|d ds IH] using rev_ind.
    - cbn. unfold lines_at. cbn [ed_files]. by rewrite Hr, Hd, lookup_insert_eq.
    - cbn zeta in *. rewrite fold_left_app. cbn [fold_left]. set (w := fold_left update ds _) in *. destruct IH as (I1 & I2 & I3 & I4 & I5).
      unfold update, update_read, addPerfData, update_write. rewrite I1. cbn [ed_path ed_reads fst]. rewrite I2. cbn [ed_reads fst]. rewrite I3. cbn [app fst ed_mode ed_path ed_reads ed_data].
      unfold lines_at. cbn [ed_files]. fold (lines_at fresh w). rewrite lookup_insert_eq. cbn [or_else].
      split_and!; try done; [|by rewrite I5, map_app].
      rewrite I4, push_shift_keep by apply keep_last_length. by rewrite keep_last_app. }
  unfold s'. set (w := fold_left update ds _) in *. cbn zeta in H. destruct H as (I1 & I2 & I3 & I4 & I5).
  unfold setPerfMode at 1. unfold setPerfMode. rewrite I2. cbn [ed_path]. split; [|done].
  unfold lines_at at 1. cbn [ed_files]. rewrite lookup_insert_eq. cbn [or_else]. rewrite I5, I4. cbn [app]. f_equal. f_equal. f_equal. f_equal.
  unfold keep_last. rewrite length_drop. lia.
Qed.

Lemma perf_log_complete_witness :
  let d := MkDelta 1 (js "a") None None None in
  let s' := setPerfMode false 0 (fold_left update [d; d] (setPerfMode true 3 ed_init)) in
  lines_at 3 s' = [LogStart; LogEntryOf d; LogEntryOf d; LogEnd 2] /\ ed_path s' = None.
Proof. exact (perf_log_complete [MkDelta 1 (js "a") None None None; MkDelta 1 (js "a") None None None] ed_init 3 eq_refl eq_refl). Defined.

(** Two updates that overlap read the same lines; the one that writes last wins. *)
Example overlapping_updates_lose_one :
  let a := MkDelta 1 (js "a") None None None in
  let b := MkDelta 2 (js "b") None None None in
  let s := setPerfMode true 3 ed_init in
  let s' := (update_write (update_write (update_read b (update_read a s).1).1).1).1 in
  lines_at 3 s' = [LogStart; LogEntryOf b] /\ ed_data s' = [a; b].
Proof. by vm_compute. Qed.
