(* ===== verification/Terminals.v ===== *)
(** * Terminals

    The shells on a device: src/extension/terminals/SshTerminal.ts and AdbTerminal.ts, and the
    command that opens them (src/extension/commands/CommandHandlersHost.ts).  A terminal is a
    state machine over the events of the editor, of the ssh client or of the adb process; what it
    does is a list of effects.  The texts of errors are left out. *)

From stdpp Require Import base list strings.
From Stdlib Require Import ZArith Lia.
From S2P Require Import Prelude JsString Shell Connection.
#[local] Open Scope Z_scope.

(** Columns and rows *)
Abbreviation dims := (Z * Z)%type.

Inductive effect :=
  | Show (text : str)                     (* what the user sees *)
  | ShowError
  | CloseTerminal                         (* the event that tells the editor *)
  | Connect (host user : str) (port : Z)
  | OpenShell (d : dims)
  | SetWindow (d : dims)
  | Send (data : str)
  | EndChannel
  | EndConnection
  | Spawn (args : list str)
  | EndInput
  | Kill.

(** ** ssh *)

Record ssh_details := MkSsh { sd_host : str; sd_user : str; sd_port : Z }.

(** [getActiveSsh] *)
Definition getActiveSsh (cm : manager) : option ssh_details :=
  match active cm with
  | Some info =>
      match ci_details info with
      | SshDetails host user port _ => if nonempty host && nonempty user then Some (MkSsh host user port) else None
      | AdbDetails _ => None
      end
  | None => None
  end.

(** [sp_conn] and [sp_chan]: the client and the channel exist *)
Record ssh_pty := MkPty {
  sp_details : option ssh_details;
  sp_conn : bool;
  sp_chan : bool;
  sp_disposed : bool;
  sp_dims : option dims }.

Definition ssh_new (d : option ssh_details) : ssh_pty := MkPty d false false false None.

Definition ssh_close (t : ssh_pty) : ssh_pty * list effect :=
  if sp_disposed t then (t, [])
  else (MkPty (sp_details t) (sp_conn t) (sp_chan t) true (sp_dims t),
        (if sp_chan t then [EndChannel] else []) ++ (if sp_conn t then [EndConnection] else []) ++ [CloseTerminal]).

Definition port_suffix (port : Z) : str := if port =? 0 then [] else js ":" ++ print_int port.

Definition welcome (d : ssh_details) : str :=
  js "[SSH] Connected: " ++ sd_user d ++ js "@" ++ sd_host d ++ port_suffix (sd_port d) ++ [13; 10].

Inductive ssh_event :=
  | Open (d : option dims)
  | Ready
  | ShellOpened (ok : bool)
  | Data (bytes : list Z)
  | ChannelClosed
  | ConnectionError
  | ConnectionEnd
  | Close
  | Input (data : str)
  | Resize (d : dims).

Definition DEFAULT_DIMS : dims := (120, 30).

Definition and_close (t : ssh_pty) (out : list effect) : ssh_pty * list effect := let '(t', o) := ssh_close t in (t', out ++ o).

(** [fallback] is what [getActiveSsh] gives when the terminal opens. *)
Definition ssh_step (fallback : option ssh_details) (t : ssh_pty) (e : ssh_event) : ssh_pty * list effect :=
  match e with
  | Open d =>
      match match sp_details t with Some x => Some x | None => fallback end with
      | None => and_close t [ShowError]
      | Some x => (MkPty (Some x) true (sp_chan t) (sp_disposed t) (match d with Some _ => d | None => sp_dims t end),
                   [Connect (sd_host x) (sd_user x) (sd_port x)])
      end
  | Ready => (t, [OpenShell (or_else (sp_dims t) DEFAULT_DIMS)])
  | ShellOpened false => and_close t [ShowError]
  | ShellOpened true =>
      (MkPty (sp_details t) (sp_conn t) true (sp_disposed t) (sp_dims t),
       match sp_details t with Some x => [Show (welcome x)] | None => [] end)
  | Data bytes => (t, [Show (utf8_decode bytes)])
  | ChannelClosed | ConnectionEnd | Close => ssh_close t
  | ConnectionError => and_close t [ShowError]
  | Input data => (t, if sp_chan t then [Send data] else [])
  | Resize d =>
      (MkPty (sp_details t) (sp_conn t) (sp_chan t) (sp_disposed t) (Some d), if sp_chan t then [SetWindow d] else [])
  end.

Fixpoint ssh_run (fallback : option ssh_details) (t : ssh_pty) (es : list ssh_event) : ssh_pty * list effect :=
  match es with
  | [] => (t, [])
  | e :: es' => let '(t1, o1) := ssh_step fallback t e in let '(t2, o2) := ssh_run fallback t1 es' in (t2, o1 ++ o2)
  end.

(** ** adb *)

(** [data.replace(/\r\n/g, '\n')] *)
Fixpoint replace_crlf (s : str) : str :=
  match s with
  | 13 :: 10 :: s' => 10 :: replace_crlf s'
  | u :: s' => u :: replace_crlf s'
  | [] => []
  end.

Definition normalize_input (data : str) : str := replace_all 13 [10] (replace_crlf data).

(** [ap_proc]: the process exists *)
Record adb_pty := MkAdb { ap_serial : str; ap_proc : bool; ap_disposed : bool }.

Definition adb_args (serial : str) : list str := if nonempty serial then [js "-s"; serial; js "shell"] else [js "shell"].

Definition adb_welcome (serial : str) : str :=
  js "[ADB] Connected " ++ (if nonempty serial then js "(serial=" ++ serial ++ js ")" else []) ++ [13; 10].

Definition adb_close (t : adb_pty) : adb_pty * list effect :=
  if ap_disposed t then (t, [])
  else (MkAdb (ap_serial t) (ap_proc t) true, (if ap_proc t then [EndInput; Kill] else []) ++ [CloseTerminal]).

Inductive adb_event := AOpen (spawned : bool) | AData (bytes : list Z) | AExit | AError | AClose | AInput (data : str).

Definition adb_step (t : adb_pty) (e : adb_event) : adb_pty * list effect :=
  match e with
  | AOpen true => (MkAdb (ap_serial t) true (ap_disposed t), [Spawn (adb_args (ap_serial t)); Show (adb_welcome (ap_serial t))])
  | AOpen false => let '(t', o) := adb_close t in (t', ShowError :: o)
  | AData bytes => (t, [Show (utf8_decode bytes)])
  | AExit | AError => let '(t', o) := adb_close t in (t', ShowError :: o)
  | AClose => adb_close t
  | AInput data => (t, if ap_proc t then [Send (normalize_input data)] else [])
  end.

Fixpoint adb_run (t : adb_pty) (es : list adb_event) : adb_pty * list effect :=
  match es with
  | [] => (t, [])
  | e :: es' => let '(t1, o1) := adb_step t e in let '(t2, o2) := adb_run t1 es' in (t2, o1 ++ o2)
  end.

(** ** The command *)

Inductive shell := AdbShell (serial title : str) | SshShell (d : ssh_details) (title : str) | NoShell.

Definition openHostShell (cm : manager) : shell :=
  match active cm with
  | None => NoShell
  | Some info =>
      match ci_details info with
      | AdbDetails serial =>
          AdbShell serial (js "Host Shell (adb:" ++ (if nonempty serial then serial else js "default") ++ js ")")
      | SshDetails _ _ _ _ =>
          match getActiveSsh cm with
          | Some d => SshShell d (js "Host Shell (ssh:" ++ sd_user d ++ js "@" ++ sd_host d ++ port_suffix (sd_port d) ++ js ")")
          | None => NoShell
          end
      end
  end.

(** ** Theorems *)

Definition is_close (e : effect) : bool := match e with CloseTerminal => true | _ => false end.

Definition closes (out : list effect) : nat := length (List.filter is_close out).

Lemma closes_app a b : closes (a ++ b) = (closes a + closes b)%nat.
Proof. unfold closes. by rewrite List.filter_app, length_app. Qed.

Definition sent (out : list effect) : list str := omap (fun e => match e with Send s => Some s | _ => None end) out.
Definition shown (out : list effect) : list str := omap (fun e => match e with Show s => Some s | _ => None end) out.

Lemma sent_app a b : sent (a ++ b) = sent a ++ sent b.
Proof. apply omap_app. Qed.

Lemma ssh_close_closes t :
  let '(t', o) := ssh_close t in sp_disposed t' = true /\ (Nat.b2n (sp_disposed t) + closes o = 1)%nat /\ sent o = [] /\ sp_chan t' = sp_chan t.
Proof. unfold ssh_close. destruct t as [d c h [] m]; cbn; [done|]. by destruct h, c. Qed.

Lemma ssh_step_closes f t e :
  let '(t', o) := ssh_step f t e in (Nat.b2n (sp_disposed t) + closes o = Nat.b2n (sp_disposed t'))%nat.
Proof.
  pose proof (ssh_close_closes t) as Hc. destruct (ssh_close t) as [t1 o1] eqn:E. destruct Hc as (H1 & H2 & _ & _).
  assert (Hand : forall out, closes out = 0%nat -> let '(t', o) := and_close t out in
    (Nat.b2n (sp_disposed t) + closes o = Nat.b2n (sp_disposed t'))%nat).
  { intros out Ho. unfold and_close. rewrite E, closes_app, Ho, H1. cbn. lia. }
  assert (Hclose : let '(t', o) := ssh_close t in (Nat.b2n (sp_disposed t) + closes o = Nat.b2n (sp_disposed t'))%nat) by (rewrite E, H1; cbn; lia).
  destruct e as [d| |[]|b| | | | |data|d]; cbn [ssh_step]; try done; try (by apply Hand); try (cbn; lia).
  - destruct (match sp_details t with Some x => Some x | None => f end); [cbn; lia|by apply Hand].
  - destruct (sp_details t); cbn; lia.
  - destruct (sp_chan t); cbn; lia.
  - destruct (sp_chan t); cbn; lia.
Qed.

(** However the events come, the editor is told of the end exactly once, and by the time the
    terminal is disposed of. *)
Theorem ssh_closes_once f d es :
  let '(t, out) := ssh_run f (ssh_new d) es in closes out = Nat.b2n (sp_disposed t).
Proof.
  assert (H : forall t, let '(t', out) := ssh_run f t es in (Nat.b2n (sp_disposed t) + closes out = Nat.b2n (sp_disposed t'))%nat).
  { induction es as [|e es IH]; intros t; cbn [ssh_run]; [cbn; lia|]. pose proof (ssh_step_closes f t e) as H1.
    destruct (ssh_step f t e) as [t1 o1]. pose proof (IH t1) as H2. destruct (ssh_run f t1 es) as [t2 o2]. rewrite closes_app. lia. }
  pose proof (H (ssh_new d)) as H1. destruct (ssh_run f (ssh_new d) es). exact H1.
Qed.

(** What is typed once the channel is there *)
Fixpoint typed_after (chan : bool) (es : list ssh_event) : list str :=
  match es with
  | [] => []
  | Input s :: es' => (if chan then [s] else []) ++ typed_after chan es'
  | ShellOpened true :: es' => typed_after true es'
  | _ :: es' => typed_after chan es'
  end.

Definition received (es : list ssh_event) : list str := omap (fun e => match e with Data b => Some (utf8_decode b) | _ => None end) es.

Definition is_opening (e : ssh_event) : bool := match e with ShellOpened true | Open _ => true | _ => false end.

Lemma ssh_step_sent f t e : let '(t', o) := ssh_step f t e in
  sent o = (match e with Input s => if sp_chan t then [s] else [] | _ => [] end) /\
  sp_chan t' = (sp_chan t || match e with ShellOpened true => true | _ => false end).
Proof.
  pose proof (ssh_close_closes t) as Hc. destruct (ssh_close t) as [t1 o1] eqn:E. destruct Hc as (_ & _ & H3 & H4).
  destruct e as [d| |[]|b| | | | |data|d]; cbn [ssh_step]; unfold and_close; rewrite ?E, ?sent_app, ?H3, ?H4, ?orb_false_r; try done.
  - destruct (match sp_details t with Some x => Some x | None => f end); [done|]. by rewrite sent_app, H3, H4.
  - rewrite orb_true_r. by destruct (sp_details t).
  - by destruct (sp_chan t).
  - by destruct (sp_chan t).
Qed.

(** Everything that is typed once the channel is open goes to the device unchanged and in order;
    what was typed before is dropped. *)
Theorem ssh_input_exact f d es : sent (ssh_run f (ssh_new d) es).2 = typed_after false es.
Proof.
  assert (H : forall t, sent (ssh_run f t es).2 = typed_after (sp_chan t) es); [|apply (H (ssh_new d))].
  induction es as [|e es IH]; intros t; [done|]. cbn [ssh_run]. pose proof (ssh_step_sent f t e) as H1.
  destruct (ssh_step f t e) as [t1 o1]. destruct H1 as [H1 H2]. pose proof (IH t1) as H3. destruct (ssh_run f t1 es) as [t2 o2]. cbn [snd] in *.
  rewrite sent_app, H1, H3, H2. destruct e as [x| |[]|b| | | | |data|x]; cbn [typed_after]; rewrite ?orb_false_r, ?orb_true_r; done.
Qed.

(** The size of the shell on the device: the one it was opened with or was set to last *)
Definition remote_size (out : list effect) : option dims :=
  fold_left (fun r e => match e with OpenShell d | SetWindow d => Some d | _ => r end) out None.

(** A change of the size between the request for the shell and its opening is lost. *)
Example resize_lost_while_opening :
  let '(t, out) := ssh_run None (ssh_new (Some (MkSsh (js "h") (js "u") 22))) [Open (Some (80, 24)); Ready; Resize (100, 40); ShellOpened true] in
  sp_dims t = Some (100, 40) /\ remote_size out = Some (80, 24).
Proof. by vm_compute. Qed.

(** *** adb *)

Lemma adb_step_closes t e :
  let '(t', o) := adb_step t e in (Nat.b2n (ap_disposed t) + closes o = Nat.b2n (ap_disposed t'))%nat.
Proof. destruct t as [s [] []], e as [[]|b| | | |data]; done. Qed.

Theorem adb_closes_once serial es :
  let '(t, out) := adb_run (MkAdb serial false false) es in closes out = Nat.b2n (ap_disposed t).
Proof.
  assert (H : forall t, let '(t', out) := adb_run t es in (Nat.b2n (ap_disposed t) + closes out = Nat.b2n (ap_disposed t'))%nat).
  { induction es as [|e es IH]; intros t; cbn [adb_run]; [cbn; lia|]. pose proof (adb_step_closes t e) as H1.
    destruct (adb_step t e) as [t1 o1]. pose proof (IH t1) as H2. destruct (adb_run t1 es) as [t2 o2]. rewrite closes_app. lia. }
  pose proof (H (MkAdb serial false false)) as H1. destruct (adb_run (MkAdb serial false false) es). exact H1.
Qed.

(** The keys of a line end, in one pass: a carriage return with the line feed after it, if any *)
Fixpoint unix_lines (s : str) : str :=
  match s with
  | [] => []
  | u :: s' =>
      if u =? 13 then 10 :: match s' with 10 :: s'' => unix_lines s'' | _ => unix_lines s' end
      else u :: unix_lines s'
  end.

Lemma replace_crlf_cons u s : replace_crlf (u :: s) =
  match s with v :: s' => if (u =? 13) && (v =? 10) then 10 :: replace_crlf s' else u :: replace_crlf s | [] => u :: replace_crlf s end.
Proof.
  destruct (Z.eqb_spec u 13) as [->|Hu].
  - destruct s as [|v s]; [done|]. destruct (Z.eqb_spec v 10) as [->|Hv]; [done|]. cbn [andb].
    destruct v as [|p|p]; [done| |done]. do 5 (try destruct p as [p|p|]; try done).
  - cbn [andb]. assert (E : replace_crlf (u :: s) = u :: replace_crlf s); [|by destruct s].
    destruct u as [|p|p]; [done| |done]. do 5 (try destruct p as [p|p|]; try done).
Qed.

Lemma unix_lines_cr s : unix_lines (13 :: s) = 10 :: match s with v :: s' => if v =? 10 then unix_lines s' else unix_lines s | [] => [] end.
Proof.
  cbn [unix_lines Z.eqb Pos.eqb]. f_equal. destruct s as [|v s]; [done|]. destruct (Z.eqb_spec v 10) as [->|Hv]; [done|].
  destruct v as [|p|p]; [done| |done]. do 5 (try destruct p as [p|p|]; try done).
Qed.

(** The two replacements are the one pass, and nothing that is sent has a carriage return. *)
Theorem adb_input_lines s : normalize_input s = unix_lines s /\ 13 ∉ normalize_input s.
Proof.
  assert (E : normalize_input s = unix_lines s).
  { unfold normalize_input. remember (length s) as n eqn:Hn. assert (Hl : (length s <= n)%nat) by lia. clear Hn. revert s Hl.
    induction n as [|n IH]; intros s Hl; [by destruct s; [|cbn in Hl; lia]|]. destruct s as [|u s]; [done|]. cbn [length] in Hl.
    rewrite replace_crlf_cons. destruct (Z.eqb_spec u 13) as [->|Hu].
    - rewrite unix_lines_cr. destruct s as [|v s]; [done|]. cbn [andb length] in *. destruct (v =? 10).
      + change (replace_all 13 [10] (10 :: replace_crlf s)) with (10 :: replace_all 13 [10] (replace_crlf s)). f_equal. apply IH. lia.
      + change (replace_all 13 [10] (13 :: replace_crlf (v :: s))) with (10 :: replace_all 13 [10] (replace_crlf (v :: s))). f_equal. apply IH. cbn. lia.
    - assert (Hr : replace_all 13 [10] (u :: replace_crlf s) = u :: replace_all 13 [10] (replace_crlf s)).
      { unfold replace_all at 1. rewrite bind_cons. apply Z.eqb_neq in Hu as ->. done. }
      assert (Hu' : unix_lines (u :: s) = u :: unix_lines s) by (cbn [unix_lines]; apply Z.eqb_neq in Hu as ->; done).
      rewrite Hu'. destruct s as [|v s']; cbn [andb]; rewrite Hr; (f_equal; apply IH; cbn in *; lia). }
  split; [done|]. unfold normalize_input, replace_all. rewrite list_elem_of_bind. intros (d & Hd & _).
  destruct (Z.eqb_spec d 13) as [Hd'|Hne]; apply list_elem_of_singleton in Hd; [discriminate|by apply Hne].
Qed.

(** A line end that comes in two pieces becomes two line ends. *)
Example split_line_end : normalize_input [13] ++ normalize_input [10] = [10; 10] /\ normalize_input [13; 10] = [10].
Proof. done. Qed.

(** *** The command *)

(** The shell is the one of the active connection: over adb with its device, over ssh with its
    host and user, and none when there is no connection or the ssh one has no host or user. *)
Theorem shell_follows_connection cm :
  match openHostShell cm with
  | AdbShell serial _ => exists info, active cm = Some info /\ ci_details info = AdbDetails serial
  | SshShell d _ => exists info pw, active cm = Some info /\ ci_details info = SshDetails (sd_host d) (sd_user d) (sd_port d) pw /\
                      sd_host d <> [] /\ sd_user d <> []
  | NoShell => active cm = None \/ getActiveSsh cm = None
  end.
Proof.
  unfold openHostShell, getActiveSsh. destruct (active cm) as [info|] eqn:Ea; [|by left]. destruct (ci_details info) as [serial|host user port pw] eqn:Ed.
  - by exists info.
  - destruct host as [|x host]; [by right|]. destruct user as [|y user]; [by right|]. cbn [nonempty andb]. exists info, pw. by rewrite Ed.
Qed.
