(* ===== verification/Flows.v ===== *)
(** * Flows

    Commands that ask the user and then act: the git flow
    (src/extension/commands/CommandHandlersGit.ts), the log commands
    (src/extension/commands/CommandHandlersLogging.ts and the end of
    src/extension/panels/extensionPanel.ts), the input boxes (src/shared/ui-input.ts), and the
    handler of the edge panel's messages (src/extension/panels/extensionPanel.ts).  What the
    user answers is an argument, and so is what the device says. *)

From stdpp Require Import base list strings.
From Stdlib Require Import ZArith QArith Lia.
From S2P Require Import Prelude JsString Json Paths Transfer Git UserData.
#[local] Open Scope Z_scope.

(** ** The git flow *)

Inductive git_op := OpPull | OpPush.
Inductive pull_area := AreaHomey | AreaHost.

(** The answers of the dialogs, [None] where one is closed *)
Record git_answers := MkAnswers {
  ga_op : option git_op;
  ga_arg : option str;
  ga_hostPath : option str;
  ga_area : option pull_area;
  ga_mountNow : bool;
  ga_absPath : option str;
  ga_localPath : option str;
  ga_picks : option (list homey_kind) }.

Inductive git_step := Mounted | Fetched (a : pull_action) (commit : str) | Sent (local remote : str).

Section git_flow.
(** The workspace, the root of docker, and what is at a path of the device before and after a
    mount; [mount] is whether the mount succeeds. *)
Context (dockerRoot : str) (stat_before stat_after : str -> stat_kind) (mount : js_result unit).
(** The inputs of a push *)
Context (log : str) (diff : str -> str) (exists_ : str -> bool).

Definition HOMEY_KINDS : list homey_kind := [KPro; KCore; KSdk; KBridge].

Definition isAnyMounted : bool :=
  existsb (fun k => match stat_before (resolveHomeyPath dockerRoot k) with KDir => true | _ => false end) HOMEY_KINDS.

(** The loop over the picked volumes: one that fails ends it. *)
Fixpoint pull_kinds (ws : str) (statType : str -> stat_kind) (ks : list homey_kind) : list git_step * js_result unit :=
  match ks with
  | [] => ([], Ok tt)
  | k :: ks' =>
      match pull ws dockerRoot statType (THomey k) None None with
      | Throws => ([], Throws)
      | Ok (a, msg) => let '(rest, r) := pull_kinds ws statType ks' in (Fetched a msg :: rest, r)
      end
  end.

Definition pull_homey (ws : str) (statType : str -> stat_kind) (ga : git_answers) : list git_step * js_result unit :=
  match ga_picks ga with
  | None | Some [] => ([], Ok tt)
  | Some ks => pull_kinds ws statType ks
  end.

Definition gitFlow (workspace : option str) (connected : bool) (ga : git_answers) : list git_step * js_result unit :=
  match workspace with
  | Some ((_ :: _) as ws) =>
      if negb connected then ([], Ok tt)
      else match ga_op ga with
      | None => ([], Ok tt)
      | Some OpPush =>
          let arg := trim <$> ga_arg ga in
          let hostPath := match ga_hostPath ga with Some ((_ :: _) as h) => Some h | _ => None end in
          (map (fun x => Sent x.1 x.2) (push ws dockerRoot log diff exists_ arg hostPath), Ok tt)
      | Some OpPull =>
          match ga_area ga with
          | None => ([], Ok tt)
          | Some AreaHost =>
              match ga_absPath ga, ga_localPath ga with
              | Some ((_ :: _) as abs), Some local =>
                  match pull ws dockerRoot stat_before THost (Some abs) (Some local) with
                  | Ok (a, msg) => ([Fetched a msg], Ok tt)
                  | Throws => ([], Throws)
                  end
              | _, _ => ([], Ok tt)
              end
          | Some AreaHomey =>
              if isAnyMounted then pull_homey ws stat_before ga
              else if ga_mountNow ga then
                match mount with
                | Throws => ([], Throws)
                | Ok _ => let '(rest, r) := pull_homey ws stat_after ga in (Mounted :: rest, r)
                end
              else ([], Ok tt)
          end
      end
  | _ => ([], Ok tt)
  end.
End git_flow.

(** ** The log commands *)

Inductive log_mode := Realtime | FileMerge.

(** What the log viewer is told to do *)
Inductive log_action := OpenViewer | StartRealtime (filter : option json) | StartFileMerge (dir : str) | StopLogging.

(** [homey.logging.openViewer] *)
Definition openViewer (pick : option log_mode) (filter : option str) (picked : option str) : list log_action :=
  match pick with
  | None => []
  | Some Realtime => [StartRealtime (JStr <$> filter)]
  | Some FileMerge => match picked with Some dir => [StartFileMerge dir] | None => [] end
  end.

(** [homey.logging.startFileMerge] *)
Definition startFileMerge_command (dir : option str) (picked : option str) : list log_action :=
  match dir with
  | Some ((_ :: _) as d) => [StartFileMerge d]
  | _ => match picked with Some d => [StartFileMerge d] | None => [] end
  end.

(** The handlers of the buttons; without the provider they do nothing *)
Definition handler_startRealtime (provider : bool) : list log_action := if provider then [StartRealtime None] else [].

Definition handler_startFileMerge (provider : bool) (picked : option str) : list log_action :=
  if provider then OpenViewer :: match picked with Some dir => [StartFileMerge dir] | None => [] end else [].

(** ** Input boxes *)

(** Options of an input box: [io_validate] is [validateInput] of the caller *)
Record input_opts := MkInput {
  io_min : option Q;
  io_max : option Q;
  io_validate : option (str -> option str) }.

Section inputs.
(** [showInputBox] with its test, which gives a message for an input it rejects; [number] is
    [Number] of a text when it is finite *)
Context (showInputBox : (str -> option str) -> option str) (number : str -> option Q).

Definition promptText : option str := trim <$> showInputBox (fun _ => None).

Definition promptSecret : option str := showInputBox (fun _ => None).

(** The test that [promptNumber] makes *)
Definition number_test (o : input_opts) (v : str) : option str :=
  match number v with
  | None => Some (js "number")
  | Some n =>
      if match io_min o with Some m => negb (Qle_bool m n) | None => false end then Some (js "min")
      else if match io_max o with Some m => negb (Qle_bool n m) | None => false end then Some (js "max")
      else match io_validate o with Some f => f v | None => None end
  end.

(** The options of the caller are spread over the others, so a test of the caller replaces the
    one above. *)
Definition promptNumber (o : input_opts) : option Q :=
  match showInputBox (match io_validate o with Some f => f | None => number_test o end) with
  | None => None
  | Some raw => number raw
  end.
End inputs.

(** [confirm]: the button that was chosen *)
Inductive button := BtnOk | BtnCancel.
Definition confirm (r : option button) : bool := match r with Some BtnOk => true | _ => false end.

(** [pickFolder] and [pickFile]: the first of what was selected *)
Definition pick_first {A} (sel : option (list A)) : option A := sel ≫= head.

(** ** The messages of the edge panel *)

Inductive panel_action :=
  | ByExplorer
  | RefreshRoot
  | SendButtons
  | GitStatus
  | UiLog (level text source : str)
  | UiReady
  | SavePanelState (state : json)
  | ReloadWindow
  | ClickButton (id : str)
  | Logging (a : log_action)
  | MissingDir
  | ClearLog
  | CopyLog
  | CaughtError
  | Nothing.

Definition is_str (s : string) (o : option json) : bool := match o with Some (JStr t) => bool_decide (t = js s) | _ => false end.

(** [msg?.type === t && msg?.v === 1] *)
Definition typed (t : string) (msg : json) : bool :=
  is_str t (get_prop (js "type") msg) && match get_prop (js "v") msg with Some (JNum 1) => true | _ => false end.

Definition payload (msg : json) : option json := get_prop (js "payload") msg.

(** [msg.payload?.k] *)
Definition payload_prop (k : string) (msg : json) : option json := opt_prop (js k) (payload msg).

(** [String(x ?? d)] of a text; other values are printed by [text_of] *)
Definition string_or (text_of : json -> str) (d : str) (o : option json) : str :=
  match o with None | Some JNull => d | Some (JStr s) => s | Some v => text_of v end.

(** [String(x || '')] *)
Definition truthy_text (text_of : json -> str) (o : option json) : str :=
  match o with
  | None | Some JNull | Some (JBool false) | Some (JNum 0) => []
  | Some (JStr s) => s
  | Some v => text_of v
  end.

(** [explorer] is whether the explorer has taken the message; [text_of] prints other values.
    A member of an absent payload throws, which is caught. *)
Definition dispatch (explorer : bool) (text_of : json -> str) (msg : json) : panel_action :=
  if explorer then ByExplorer
  else if typed "workspace.ensure" msg then RefreshRoot
  else if typed "ui.requestButtons" msg then SendButtons
  else if typed "git.status.request" msg then GitStatus
  else if typed "ui.log" msg then
    UiLog (string_or text_of (js "info") (payload_prop "level" msg)) (string_or text_of [] (payload_prop "text" msg))
      (string_or text_of (js "ui.edgePanel") (payload_prop "source" msg))
  else if typed "ui.ready" msg then UiReady
  else if typed "ui.savePanelState" msg then
    match payload msg with None | Some JNull => CaughtError | Some p => SavePanelState (or_else (get_prop (js "panelState") p) JNull) end
  else if is_str "reloadWindow" (get_prop (js "command") msg) then ReloadWindow
  else if typed "button.click" msg then
    match payload msg with
    | None | Some JNull => CaughtError
    | Some p => match get_prop (js "id") p with Some (JStr id) => ClickButton id | _ => Nothing end
    end
  else if typed "logging.startRealtime" msg then Logging (StartRealtime (payload_prop "filter" msg))
  else if typed "logging.startFileMerge" msg then
    match truthy_text text_of (payload_prop "dir" msg) with
    | [] => MissingDir
    | dir => Logging (StartFileMerge dir)
    end
  else if typed "logging.stop" msg then Logging StopLogging
  else if typed "debuglog.clear" msg then ClearLog
  else if typed "debuglog.copy" msg then CopyLog
  else Nothing.

(** ** Theorems *)

Section git_theorems.
Context (dockerRoot : str) (stat_before stat_after : str -> stat_kind) (mount : js_result unit).
Context (log : str) (diff : str -> str) (exists_ : str -> bool).
Abbreviation flow := (gitFlow dockerRoot stat_before stat_after mount log diff exists_).

(** One of the questions that the chosen way asks was closed without an answer: which operation,
    what to push, where to pull from, the path of the device, where to put it, the volumes. *)
Definition unanswered (ga : git_answers) : Prop :=
  match ga_op ga with
  | None => True
  | Some OpPush => ga_arg ga = None
  | Some OpPull =>
      match ga_area ga with
      | None => True
      | Some AreaHost => ga_absPath ga = None \/ ga_localPath ga = None
      | Some AreaHomey => ga_picks ga = None
      end
  end.

Definition transfers (s : git_step) : bool := match s with Mounted => false | _ => true end.

(** A dialog that is closed cancels: nothing is sent and nothing is fetched. *)
Theorem closed_dialog_transfers_nothing ws connected ga :
  unanswered ga -> List.filter transfers (flow ws connected ga).1 = [].
Proof.
  unfold unanswered, gitFlow. destruct ws as [[|c w]|]; [done| |done]. destruct connected; [|done]. cbn [negb].
  destruct (ga_op ga) as [[]|]; [| |done].
  - destruct (ga_area ga) as [[]|]; [| |done].
    + intros Hp. unfold pull_homey. rewrite Hp. destruct (isAnyMounted _ _); [done|]. destruct (ga_mountNow ga); [|done]. by destruct mount.
    + intros [-> | Hl]; [done|]. rewrite Hl. by destruct (ga_absPath ga) as [[]|].
  - intros ->. done.
Qed.

(** The steps that fetch the volumes *)
Definition fetched (ws : str) (k : homey_kind) : git_step :=
  Fetched (PullDir (resolveHomeyPath dockerRoot k) (posix_join ws (js "homey_" ++ kind_name k))) (pull_message (THomey k)).

Lemma pull_kinds_all ws st ks :
  Forall (fun k => st (resolveHomeyPath dockerRoot k) = KDir) ks -> pull_kinds dockerRoot ws st ks = (map (fetched ws) ks, Ok tt).
Proof.
  induction ks as [|k ks IH]; intros Hks; [done|]. inversion_clear Hks as [|? ? Hk Hks']. cbn [pull_kinds pull map]. rewrite Hk.
  by rewrite (IH Hks').
Qed.

(** Pulling volumes: when none of the four is there, the user is asked to mount them, and without
    that nothing happens; otherwise every volume that was picked is fetched to its directory of
    the workspace and committed, in the order of the picks. *)
Theorem volumes_are_pulled c ws ga ks :
  ga_op ga = Some OpPull -> ga_area ga = Some AreaHomey -> ga_picks ga = Some ks ->
  let w := c :: ws in
  let mounted := isAnyMounted dockerRoot stat_before in
  (mounted = true -> Forall (fun k => stat_before (resolveHomeyPath dockerRoot k) = KDir) ks ->
     flow (Some w) true ga = (map (fetched w) ks, Ok tt)) /\
  (mounted = false -> ga_mountNow ga = false -> flow (Some w) true ga = ([], Ok tt)) /\
  (mounted = false -> ga_mountNow ga = true -> mount = Ok tt -> Forall (fun k => stat_after (resolveHomeyPath dockerRoot k) = KDir) ks ->
     flow (Some w) true ga = (Mounted :: map (fetched w) ks, Ok tt)).
Proof.
  intros Ho Ha Hp w mounted. unfold mounted. unfold gitFlow, w. rewrite Ho, Ha. cbn [negb].
  assert (Hh : forall st, Forall (fun k => st (resolveHomeyPath dockerRoot k) = KDir) ks ->
    pull_homey dockerRoot (c :: ws) st ga = (map (fetched (c :: ws)) ks, Ok tt)).
  { intros st Hst. unfold pull_homey. rewrite Hp. destruct ks; [done|]. by apply pull_kinds_all. }
  split; [|split].
  - intros -> Hks. by apply Hh.
  - by intros -> ->.
  - intros -> -> -> Hks. by rewrite (Hh stat_after Hks).
Qed.
End git_theorems.

Definition demo_answers : git_answers := MkAnswers (Some OpPull) None None (Some AreaHomey) true None None (Some [KCore; KPro]).

Lemma closed_dialog_transfers_nothing_witness :
  List.filter transfers (gitFlow [] (fun _ => KNone) (fun _ => KDir) (Ok tt) [] (fun _ => []) (fun _ => true) (Some (js "/w")) true
    (MkAnswers (Some OpPull) None None (Some AreaHomey) true None None None)).1 = [].
Proof.
  apply (closed_dialog_transfers_nothing [] (fun _ => KNone) (fun _ => KDir) (Ok tt) [] (fun _ => []) (fun _ => true) (Some (js "/w")) true
    (MkAnswers (Some OpPull) None None (Some AreaHomey) true None None None)). reflexivity.
Defined.

Lemma volumes_are_pulled_witness :
  gitFlow (js "/d") (fun _ => KNone) (fun _ => KDir) (Ok tt) [] (fun _ => []) (fun _ => true) (Some (js "/w")) true demo_answers =
    (Mounted :: map (fetched (js "/d") (js "/w")) [KCore; KPro], Ok tt).
Proof.
  refine (proj2 (proj2 (volumes_are_pulled (js "/d") (fun _ => KNone) (fun _ => KDir) (Ok tt) [] (fun _ => []) (fun _ => true) 47 (js "w")
    demo_answers [KCore; KPro] eq_refl eq_refl eq_refl)) _ _ _ _); [reflexivity|reflexivity|reflexivity|by repeat constructor].
Defined.

(** One volume that is there is enough for the flow to go on: the pull of a missing one then
    fails after the others have been fetched and committed. *)
Example missing_volume_fails_late :
  let there s := if bool_decide (s = resolveHomeyPath (js "/d") KCore) then KDir else KNone in
  let r := gitFlow (js "/d") there there (Ok tt) [] (fun _ => []) (fun _ => true) (Some (js "/w")) true demo_answers in
  length r.1 = 1%nat /\ r.2 = Throws.
Proof. by vm_compute. Qed.

Section input_theorems.
Context (showInputBox : (str -> option str) -> option str) (number : str -> option Q).

(** The editor gives an input only when the test of the box has no objection to it. *)
Hypothesis box_tests : forall test v, showInputBox test = Some v -> test v = None.

(** A number that was asked for without a test of the caller lies between the bounds. *)
Theorem number_within_bounds lo hi n :
  promptNumber showInputBox number (MkInput (Some lo) (Some hi) None) = Some n -> (lo <= n /\ n <= hi)%Q.
Proof.
  unfold promptNumber. cbn [io_validate]. destruct (showInputBox _) as [raw|] eqn:E; [|done]. apply box_tests in E. intros Hn.
  unfold number_test in E. rewrite Hn in E. cbn [io_min io_max io_validate] in E.
  destruct (Qle_bool lo n) eqn:E1; [|done]. destruct (Qle_bool n hi) eqn:E2; [|done]. split; by apply Qle_bool_iff.
Qed.
End input_theorems.

(** A box that gives a fixed text when the test allows it *)
Definition demo_box (v : str) (test : str -> option str) : option str := match test v with None => Some v | Some _ => None end.

Definition demo_number (s : str) : option Q := inject_Z <$> parse_int s.

Lemma demo_box_tests v test w : demo_box v test = Some w -> test w = None.
Proof. unfold demo_box. destruct (test v) eqn:E; [done|]. by intros [= <-]. Qed.

Lemma number_within_bounds_witness :
  promptNumber (demo_box (js "22")) demo_number (MkInput (Some (inject_Z 1)) (Some (inject_Z 65535)) None) = Some (inject_Z 22) /\
  (inject_Z 1 <= inject_Z 22 /\ inject_Z 22 <= inject_Z 65535)%Q.
Proof.
  split; [reflexivity|].
  apply (number_within_bounds (demo_box (js "22")) demo_number (demo_box_tests (js "22")) (inject_Z 1) (inject_Z 65535) (inject_Z 22)).
  reflexivity.
Defined.

(** A test of the caller replaces the test of the bounds: the number is out of them. *)
Example caller_test_drops_bounds :
  promptNumber (demo_box (js "70000")) demo_number (MkInput (Some (inject_Z 1)) (Some (inject_Z 65535)) (Some (fun _ => None))) =
    Some (inject_Z 70000).
Proof. reflexivity. Qed.

(** The panel acts only on messages of version 1 that the explorer has not taken; the request to
    reload the window carries no version. *)
Theorem unversioned_messages_ignored text_of msg :
  match get_prop (js "v") msg with Some (JNum 1) => False | _ => True end ->
  dispatch false text_of msg = if is_str "reloadWindow" (get_prop (js "command") msg) then ReloadWindow else Nothing.
Proof.
  intros Hv. assert (Ht : forall t, typed t msg = false).
  { intros t. unfold typed. destruct (get_prop (js "v") msg) as [[| |[|[| |]|]| | |]|]; try done; apply andb_false_r. }
  unfold dispatch. by rewrite !Ht.
Qed.

Lemma unversioned_messages_ignored_witness :
  dispatch false (fun _ => []) (JObj [(js "type", JStr (js "debuglog.clear"))]) = Nothing.
Proof. apply (unversioned_messages_ignored (fun _ => []) (JObj [(js "type", JStr (js "debuglog.clear"))])). exact I. Defined.

(** A log is merged only from a directory that was named; everything else of that message ends in
    the warning. *)
Theorem merge_needs_directory text_of msg dir :
  dispatch false text_of msg = Logging (StartFileMerge dir) -> dir <> [] /\ truthy_text text_of (payload_prop "dir" msg) = dir.
Proof.
  unfold dispatch. repeat (case_match; try done). by intros [= <-].
Qed.

Lemma merge_needs_directory_witness :
  js "/logs" <> [] /\ truthy_text (fun _ => []) (Some (JStr (js "/logs"))) = js "/logs".
Proof.
  apply (merge_needs_directory (fun _ => []) (JObj [(js "v", JNum 1); (js "type", JStr (js "logging.startFileMerge"));
    (js "payload", JObj [(js "dir", JStr (js "/logs"))])]) (js "/logs")). reflexivity.
Defined.
