(* ===== verification/ViewerPanel.v ===== *)
(** * ViewerPanel

    The life of the log viewer's panel (src/extension/panels/LogViewerPanelManager.ts): opening
    and closing the web view, the bridge, the sessions that are started and disposed of, and the
    timer that samples the memory.  A call runs up to its next await; the calls that wait are
    kept in the state and resume in any order.  [Panel.v] has what a merge sends. *)

From stdpp Require Import base list.
From Stdlib Require Import ZArith Lia.
From S2P Require Import Prelude.
#[local] Open Scope Z_scope.

(** The three calls: [handleHomeyLoggingCommand], [startRealtime], [startFileMerge] *)
Inductive mcall := COpen | CRealtime | CMerge.

(** Where a call waits: for the HTML of the viewer, for the workspace root, for the two
    configurations of the parser *)
Inductive waiting := AwaitHtml (c : mcall) | AwaitRoot | AwaitConfig.

(** A bridge holds the panel it was made with, which is missing when the panel was closed while
    its HTML was read. *)
Inductive bridge := OnPanel (p : Z) | OnNothing.

(** A session at work *)
Inductive run_kind := RunRealtime | RunMerge.
Record run := MkRun { rn_id : Z; rn_session : Z; rn_kind : run_kind }.

Inductive note := MemoryNote | BatchNote (r : Z).

Record mgr := MkMgr {
  mg_panel : option Z;
  mg_bridge : option bridge;
  mg_session : option Z;
  mg_memTimer : option Z;
  mg_memPeriodMs : Z;
  mg_initialSent : bool;
  mg_intervals : list Z;        (* the intervals that run *)
  mg_runs : list run;           (* the runs that are not over *)
  mg_waiting : list waiting;
  mg_next : Z;                  (* for fresh panels, sessions, timers and runs *)
  mg_sent : list (Z * note) }.  (* what was posted, with the panel *)

Definition MEM_FAST_MS : Z := 2000.
Definition MEM_SLOW_MS : Z := 60000.

Definition mg_init : mgr := MkMgr None None None None 60000 false [] [] [] 0 [].

(** [_send] *)
Definition send (n : note) (m : mgr) : mgr :=
  match mg_bridge m with
  | Some (OnPanel p) =>
      MkMgr (mg_panel m) (mg_bridge m) (mg_session m) (mg_memTimer m) (mg_memPeriodMs m) (mg_initialSent m) (mg_intervals m)
        (mg_runs m) (mg_waiting m) (mg_next m) (mg_sent m ++ [(p, n)])
  | _ => m
  end.

(** [clearInterval(this.memTimer)] and the field cleared *)
Definition clear_timer (m : mgr) : mgr :=
  match mg_memTimer m with
  | None => m
  | Some t =>
      MkMgr (mg_panel m) (mg_bridge m) (mg_session m) None (mg_memPeriodMs m) (mg_initialSent m) (filter (.≠ t) (mg_intervals m))
        (mg_runs m) (mg_waiting m) (mg_next m) (mg_sent m)
  end.

Definition set_period (ms : Z) (m : mgr) : mgr :=
  MkMgr (mg_panel m) (mg_bridge m) (mg_session m) (mg_memTimer m) ms (mg_initialSent m) (mg_intervals m)
    (mg_runs m) (mg_waiting m) (mg_next m) (mg_sent m).

Definition start_timer (m : mgr) : mgr :=
  MkMgr (mg_panel m) (mg_bridge m) (mg_session m) (Some (mg_next m)) (mg_memPeriodMs m) (mg_initialSent m) (mg_next m :: mg_intervals m)
    (mg_runs m) (mg_waiting m) (mg_next m + 1) (mg_sent m).

(** [_setMemPeriod] *)
Definition setMemPeriod (ms : Z) (m : mgr) : mgr :=
  if mg_memPeriodMs m =? ms then m else start_timer (send MemoryNote (set_period ms (clear_timer m))).

(** [this.session = ...] with the runs that are left *)
Definition put_session (s : option Z) (runs : list run) (next : Z) (m : mgr) : mgr :=
  MkMgr (mg_panel m) (mg_bridge m) s (mg_memTimer m) (mg_memPeriodMs m) (mg_initialSent m) (mg_intervals m)
    runs (mg_waiting m) next (mg_sent m).

Definition set_waiting (ws : list waiting) (m : mgr) : mgr :=
  MkMgr (mg_panel m) (mg_bridge m) (mg_session m) (mg_memTimer m) (mg_memPeriodMs m) (mg_initialSent m) (mg_intervals m)
    (mg_runs m) ws (mg_next m) (mg_sent m).

Definition set_initialSent (b : bool) (m : mgr) : mgr :=
  MkMgr (mg_panel m) (mg_bridge m) (mg_session m) (mg_memTimer m) (mg_memPeriodMs m) b (mg_intervals m)
    (mg_runs m) (mg_waiting m) (mg_next m) (mg_sent m).

(** [LogSessionManager.stopAll]: it aborts what is realtime; a merge has no signal *)
Definition stops (s : Z) (r : run) : bool := match rn_kind r with RunRealtime => rn_session r =? s | RunMerge => false end.
Definition stopAll (s : option Z) (runs : list run) : list run :=
  match s with Some s => List.filter (fun r => negb (stops s r)) runs | None => runs end.

(** [this.session?.dispose(); this.session = new LogSessionManager()] *)
Definition new_session (m : mgr) : mgr := put_session (Some (mg_next m)) (stopAll (mg_session m) (mg_runs m)) (mg_next m + 1) m.

(** A session starts to work; without a session the call throws. *)
Definition start_run (k : run_kind) (m : mgr) : mgr :=
  match mg_session m with
  | Some s => put_session (Some s) (mg_runs m ++ [MkRun (mg_next m) s k]) (mg_next m + 1) m
  | None => m
  end.

(** What follows in a call once there is a panel *)
Definition continue_call (c : mcall) (m : mgr) : mgr :=
  match c with
  | COpen => m
  | CRealtime => start_run RunRealtime (setMemPeriod MEM_SLOW_MS (new_session (set_initialSent true m)))
  | CMerge => let m1 := set_initialSent false m in set_waiting (mg_waiting m1 ++ [AwaitRoot]) m1
  end.

(** A call up to its first await *)
Definition begin_call (c : mcall) (m : mgr) : mgr :=
  match mg_panel m with
  | Some _ => continue_call c m
  | None =>
      MkMgr (Some (mg_next m)) (mg_bridge m) (mg_session m) (mg_memTimer m) (mg_memPeriodMs m) (mg_initialSent m) (mg_intervals m)
        (mg_runs m) (mg_waiting m ++ [AwaitHtml c]) (mg_next m + 1) (mg_sent m)
  end.

Definition set_bridge (b : option bridge) (m : mgr) : mgr :=
  MkMgr (mg_panel m) b (mg_session m) (mg_memTimer m) (mg_memPeriodMs m) (mg_initialSent m) (mg_intervals m)
    (mg_runs m) (mg_waiting m) (mg_next m) (mg_sent m).

(** The HTML is there: the bridge is made with the panel of now.  Starting it without a panel
    throws, and the call ends. *)
Definition html_ready (c : mcall) (m : mgr) : mgr :=
  match mg_panel m with
  | None => set_bridge (Some OnNothing) m
  | Some p => continue_call c (setMemPeriod MEM_SLOW_MS (clear_timer (set_bridge (Some (OnPanel p)) m)))
  end.

Definition resume (w : waiting) (m : mgr) : mgr :=
  match w with
  | AwaitHtml c => html_ready c m
  | AwaitRoot => let m1 := setMemPeriod MEM_FAST_MS (new_session m) in set_waiting (mg_waiting m1 ++ [AwaitConfig]) m1
  | AwaitConfig => start_run RunMerge m
  end.

(** [onDidDispose] of the panel *)
Definition panel_closed (m : mgr) : mgr :=
  clear_timer (MkMgr None None (mg_session m) (mg_memTimer m) (mg_memPeriodMs m) (mg_initialSent m) (mg_intervals m)
    (mg_runs m) (mg_waiting m) (mg_next m) (mg_sent m)).

Inductive event :=
  | ECall (c : mcall)                     (* a command of the user *)
  | EResume (i : nat)                     (* what the i-th waiting call awaits is there *)
  | EClose                                (* the user closes the panel *)
  | EStop                                 (* [stop] *)
  | EDispose                              (* [dispose] *)
  | EBatch (r : Z)                        (* [onBatch] of a run *)
  | EProgress (r : Z) (active : bool)     (* [onProgress] of a merge; [onRefresh] is not active *)
  | EFinish (r : Z)                       (* a run comes to its end *)
  | ETick (t : Z).                        (* an interval fires *)

Definition find_run (r : Z) (m : mgr) : option run := List.find (fun x => rn_id x =? r) (mg_runs m).

Definition mgr_step (m : mgr) (e : event) : mgr :=
  match e with
  | ECall c => begin_call c m
  | EResume i =>
      match mg_waiting m !! i with
      | Some w => resume w (set_waiting (delete i (mg_waiting m)) m)
      | None => m
      end
  | EClose => match mg_panel m with Some _ => panel_closed m | None => m end
  | EStop => put_session (mg_session m) (stopAll (mg_session m) (mg_runs m)) (mg_next m) m
  | EDispose =>
      let m1 := put_session None (stopAll (mg_session m) (mg_runs m)) (mg_next m) m in
      match mg_panel m with Some _ => panel_closed m1 | None => m1 end
  | EBatch r =>
      match rn_kind <$> find_run r m with
      | Some RunRealtime => send (BatchNote r) m
      | Some RunMerge => if mg_initialSent m then m else set_initialSent true (send (BatchNote r) m)
      | None => m
      end
  | EProgress r active =>
      match rn_kind <$> find_run r m with
      | Some RunMerge => setMemPeriod (if active then MEM_FAST_MS else MEM_SLOW_MS) m
      | _ => m
      end
  | EFinish r => put_session (mg_session m) (List.filter (fun x => negb (rn_id x =? r)) (mg_runs m)) (mg_next m) m
  | ETick t => if bool_decide (t ∈ mg_intervals m) then send MemoryNote m else m
  end.

Definition mgr_run (evs : list event) (m : mgr) : mgr := fold_left mgr_step evs m.

(** ** Theorems *)

(** The bridge is that of the open panel, at most one interval runs and it is the one the manager
    knows, and a realtime run belongs to the current session. *)
Record mgr_ok (m : mgr) : Prop := {
  ok_bridge : forall p, mg_bridge m = Some (OnPanel p) -> mg_panel m = Some p;
  ok_timer : mg_intervals m = match mg_memTimer m with Some t => [t] | None => [] end;
  ok_runs : Forall (fun r => rn_kind r = RunRealtime -> mg_session m = Some (rn_session r)) (mg_runs m) }.

Lemma ok_init : mgr_ok mg_init. Proof. by split. Qed.

Lemma ok_same m m' :
  mg_panel m' = mg_panel m -> mg_bridge m' = mg_bridge m -> mg_session m' = mg_session m -> mg_memTimer m' = mg_memTimer m ->
  mg_intervals m' = mg_intervals m -> mg_runs m' = mg_runs m -> mgr_ok m -> mgr_ok m'.
Proof. intros E1 E2 E3 E4 E5 E6 [H1 H2 H3]. split; rewrite ?E1, ?E2, ?E3, ?E4, ?E5, ?E6; done. Qed.

Lemma ok_send n m : mgr_ok m -> mgr_ok (send n m).
Proof. intros Hok. unfold send. destruct (mg_bridge m) as [[p|]|] eqn:E; [by apply (ok_same m)|done|done]. Qed.

Lemma ok_clear m : mgr_ok m -> mgr_ok (clear_timer m).
Proof.
  intros [H1 H2 H3]. unfold clear_timer. destruct (mg_memTimer m) as [t|] eqn:E; split; cbn; try done.
  - rewrite H2. by rewrite filter_cons_False by tauto.
  - by rewrite E.
Qed.

Lemma clear_no_timer m : mg_memTimer (clear_timer m) = None.
Proof. unfold clear_timer. by destruct (mg_memTimer m) eqn:E. Qed.

Lemma send_timer n m : mg_memTimer (send n m) = mg_memTimer m.
Proof. unfold send. by destruct (mg_bridge m) as [[]|]. Qed.

Lemma ok_start_timer m : mgr_ok m -> mg_memTimer m = None -> mgr_ok (start_timer m).
Proof. intros [H1 H2 H3] Ht. split; cbn; try done. by rewrite H2, Ht. Qed.

Lemma ok_setMemPeriod ms m : mgr_ok m -> mgr_ok (setMemPeriod ms m).
Proof.
  intros Hok. unfold setMemPeriod. destruct (_ =? _); [done|]. apply ok_start_timer.
  - apply ok_send. by apply (ok_same (clear_timer m)), ok_clear.
  - rewrite send_timer. apply clear_no_timer.
Qed.

Lemma ok_fewer (keep : run -> bool) m next :
  mgr_ok m -> mgr_ok (put_session (mg_session m) (List.filter keep (mg_runs m)) next m).
Proof.
  intros [H1 H2 H3]. split; cbn; try done. apply Forall_forall. intros r Hr. apply list_elem_of_In, filter_In in Hr as [Hr _].
  apply list_elem_of_In in Hr. by apply (proj1 (Forall_forall _ _) H3).
Qed.

(** Stopping the current session leaves no realtime run. *)
Lemma stopAll_merges m : mgr_ok m -> Forall (fun r => rn_kind r = RunMerge) (stopAll (mg_session m) (mg_runs m)).
Proof.
  intros [_ _ H3]. apply Forall_forall. intros r Hr. destruct (rn_kind r) eqn:Ek; [|done].
  unfold stopAll in Hr. destruct (mg_session m) as [s|] eqn:Es.
  - apply list_elem_of_In, filter_In in Hr as [Hr Hk]. apply list_elem_of_In in Hr.
    pose proof (proj1 (Forall_forall _ _) H3 r Hr Ek) as [= ->]. unfold stops in Hk. rewrite Ek, Z.eqb_refl in Hk. done.
  - pose proof (proj1 (Forall_forall _ _) H3 r Hr Ek). done.
Qed.

Lemma ok_other_session s next m : mgr_ok m -> mgr_ok (put_session s (stopAll (mg_session m) (mg_runs m)) next m).
Proof.
  intros Hok. pose proof (stopAll_merges m Hok) as Hm. destruct Hok as [H1 H2 H3]. split; cbn; try done.
  eapply Forall_impl; [exact Hm|]. cbn. congruence.
Qed.

Lemma ok_start_run k m : mgr_ok m -> mgr_ok (start_run k m).
Proof.
  intros [H1 H2 H3]. unfold start_run. destruct (mg_session m) as [s|] eqn:Es; split; cbn; try done; [|by rewrite Es].
  apply Forall_app. split; [done|]. by repeat constructor.
Qed.

Lemma ok_continue c m : mgr_ok m -> mgr_ok (continue_call c m).
Proof.
  intros Hok. destruct c; cbn; [done| |].
  - apply ok_start_run, ok_setMemPeriod, (ok_other_session _ _ (set_initialSent true m)). by apply (ok_same m).
  - by apply (ok_same m).
Qed.

Lemma ok_set_bridge p m : mgr_ok m -> mg_panel m = Some p -> mgr_ok (set_bridge (Some (OnPanel p)) m).
Proof. intros [H1 H2 H3] Hp. split; cbn; try done. by intros q [= <-]. Qed.

Lemma ok_resume w m : mgr_ok m -> mgr_ok (resume w m).
Proof.
  intros Hok. destruct w as [c| |]; cbn.
  - unfold html_ready. destruct (mg_panel m) as [p|] eqn:E.
    + by apply ok_continue, ok_setMemPeriod, ok_clear, ok_set_bridge.
    + destruct Hok as [H1 H2 H3]. by split.
  - apply (ok_same (setMemPeriod MEM_FAST_MS (new_session m))); try done. by apply ok_setMemPeriod, ok_other_session.
  - by apply ok_start_run.
Qed.

Lemma ok_closed m : mgr_ok m -> mgr_ok (panel_closed m).
Proof. intros [H1 H2 H3]. apply ok_clear. by split. Qed.

Lemma ok_step m e : mgr_ok m -> mgr_ok (mgr_step m e).
Proof.
  intros Hok. destruct e as [c|i| | | |r|r a|r|t]; cbn.
  - unfold begin_call. destruct (mg_panel m) eqn:E; [by apply ok_continue|]. destruct Hok as [H1 H2 H3]. split; cbn; try done.
    intros p Hp. pose proof (H1 p Hp). congruence.
  - destruct (_ !! i); [|done]. apply ok_resume. by apply (ok_same m).
  - destruct (mg_panel m); [by apply ok_closed|done].
  - by apply ok_other_session.
  - destruct (mg_panel m); [apply ok_closed|]; by apply ok_other_session.
  - destruct (rn_kind <$> _) as [[]|]; [by apply ok_send| |done]. destruct (mg_initialSent m); [done|].
    by apply (ok_same (send (BatchNote r) m)), ok_send.
  - destruct (rn_kind <$> _) as [[]|]; [done| |done]. by apply ok_setMemPeriod.
  - by apply ok_fewer.
  - case_bool_decide; [by apply ok_send|done].
Qed.


(** The memory notes among what was sent *)
Definition is_memory (x : Z * note) : bool := match snd x with MemoryNote => true | _ => false end.

(** The sampler is off: the period is the slow one, as it is from the start, and no interval runs. *)
Definition unsampled (m : mgr) : Prop :=
  mg_memPeriodMs m = MEM_SLOW_MS /\ mg_memTimer m = None /\ mg_intervals m = [] /\ List.filter is_memory (mg_sent m) = [] /\
  Forall (fun w => exists c, w = AwaitHtml c /\ c <> CMerge) (mg_waiting m) /\ Forall (fun r => rn_kind r = RunRealtime) (mg_runs m).

Lemma slow_unsampled m : unsampled m -> setMemPeriod MEM_SLOW_MS m = m.
Proof. intros (H & _). unfold setMemPeriod. by rewrite H. Qed.

Lemma unsampled_clear m : unsampled m -> clear_timer m = m.
Proof. intros (_ & H & _). unfold clear_timer. by rewrite H. Qed.

Lemma unsampled_fewer s keep next m : unsampled m -> unsampled (put_session s (List.filter keep (mg_runs m)) next m).
Proof.
  intros (H1 & H2 & H3 & H4 & H5 & H6). split_and!; try done. apply Forall_forall. cbn. intros r Hr.
  apply list_elem_of_In, filter_In in Hr as [Hr _]. apply list_elem_of_In in Hr. by apply (proj1 (Forall_forall _ _) H6).
Qed.

Lemma unsampled_stop s next m : unsampled m -> unsampled (put_session s (stopAll (mg_session m) (mg_runs m)) next m).
Proof. intros Hm. unfold stopAll. destruct (mg_session m); [by apply unsampled_fewer|done]. Qed.

Lemma unsampled_continue c m : unsampled m -> c <> CMerge -> unsampled (continue_call c m).
Proof.
  intros Hm Hc. destruct c; [done| |done]. cbn. assert (H0 : unsampled (set_initialSent true m)) by done.
  pose proof (unsampled_stop (Some (mg_next m)) (mg_next m + 1) _ H0) as H1. change (put_session _ _ _ _) with (new_session (set_initialSent true m)) in H1.
  rewrite (slow_unsampled _ H1). unfold start_run. cbn [mg_session new_session put_session].
  destruct H1 as (H1 & H2 & H3 & H4 & H5 & H6). split_and!; try done. apply Forall_app. split; [done|]. by repeat constructor.
Qed.

Lemma filter_snoc_other x l : is_memory x = false -> List.filter is_memory l = [] -> List.filter is_memory (l ++ [x]) = [].
Proof. intros Hx Hl. rewrite List.filter_app, Hl. cbn. by rewrite Hx. Qed.

Lemma unsampled_begin c m : unsampled m -> c <> CMerge -> unsampled (begin_call c m).
Proof.
  intros Hm Hc. unfold begin_call. destruct (mg_panel m); [by apply unsampled_continue|].
  destruct Hm as (H1 & H2 & H3 & H4 & H5 & H6). split_and!; try done. apply Forall_app. split; [done|]. repeat constructor. by exists c.
Qed.

Lemma unsampled_resume i w m :
  unsampled m -> mg_waiting m !! i = Some w -> unsampled (resume w (set_waiting (delete i (mg_waiting m)) m)).
Proof.
  intros Hm Hw. assert (H0 : unsampled (set_waiting (delete i (mg_waiting m)) m)).
  { destruct Hm as (H1 & H2 & H3 & H4 & H5 & H6). split_and!; try done. by apply Forall_delete. }
  pose proof Hm as (_ & _ & _ & _ & H5 & _). destruct (Forall_lookup_1 _ _ _ _ H5 Hw) as (c & -> & Hc). cbn [resume].
  revert H0. generalize (set_waiting (delete i (mg_waiting m)) m). clear -Hc. intros m Hm. unfold html_ready. destruct (mg_panel m) as [p|]; [|done].
  assert (H1 : unsampled (set_bridge (Some (OnPanel p)) m)) by done.
  rewrite (unsampled_clear _ H1), (slow_unsampled _ H1). by apply unsampled_continue.
Qed.

Lemma unsampled_send_batch r m : unsampled m -> unsampled (send (BatchNote r) m).
Proof.
  intros (H1 & H2 & H3 & H4 & H5 & H6). unfold send. destruct (mg_bridge m) as [[p|]|]; split_and!; try done. by apply filter_snoc_other.
Qed.

Lemma find_run_realtime r m x : unsampled m -> find_run r m = Some x -> rn_kind x = RunRealtime.
Proof.
  intros (_ & _ & _ & _ & _ & H6) Hx. apply find_some in Hx as [Hx _]. apply list_elem_of_In in Hx. by apply (proj1 (Forall_forall _ _) H6).
Qed.

Lemma unsampled_step m e : unsampled m -> e <> ECall CMerge -> unsampled (mgr_step m e).
Proof.
  intros Hm He. destruct e as [c|i| | | |r|r a|r|t]; cbn.
  - apply unsampled_begin; [done|]. by intros ->.
  - destruct (_ !! i) eqn:E; [|done]. by apply unsampled_resume.
  - destruct (mg_panel m); [|done]. unfold panel_closed. by rewrite unsampled_clear.
  - by apply unsampled_stop.
  - pose proof (unsampled_stop None (mg_next m) m Hm) as H0. destruct (mg_panel m); [|done]. unfold panel_closed. by rewrite unsampled_clear.
  - destruct (find_run r m) as [x|] eqn:E; [|done]. cbn. rewrite (find_run_realtime _ _ _ Hm E). by apply unsampled_send_batch.
  - destruct (find_run r m) as [x|] eqn:E; [|done]. cbn. by rewrite (find_run_realtime _ _ _ Hm E).
  - by apply unsampled_fewer.
  - rewrite bool_decide_eq_false_2; [done|]. destruct Hm as (_ & _ & -> & _). apply not_elem_of_nil.
Qed.

(** The slow sampling of the memory that opening the viewer is to start never starts: the period
    has that value from the beginning, so setting it changes nothing.  Until a merge is started
    no interval runs and no use of memory is sent. *)
Theorem memory_not_sampled_before_merge evs :
  Forall (fun e => e <> ECall CMerge) evs ->
  let m := mgr_run evs mg_init in mg_intervals m = [] /\ List.filter is_memory (mg_sent m) = [].
Proof.
  intros Hev. assert (H : unsampled (mgr_run evs mg_init)).
  { unfold mgr_run. assert (H0 : unsampled mg_init) by done. revert H0. generalize mg_init.
    induction Hev as [|e evs He Hev IH]; intros m Hm; [done|]. cbn [fold_left]. by apply IH, unsampled_step. }
  destruct H as (_ & _ & H3 & H4 & _). done.
Qed.

Definition demo_realtime : list event := [ECall CRealtime; EResume 0; ETick 1; EBatch 2].

Lemma memory_not_sampled_before_merge_witness :
  mg_intervals (mgr_run demo_realtime mg_init) = [] /\ List.filter is_memory (mg_sent (mgr_run demo_realtime mg_init)) = [].
Proof. apply (memory_not_sampled_before_merge demo_realtime). repeat constructor; discriminate. Defined.

(** A merge cannot be stopped: whatever happens, it works on until it comes to its end. *)
Lemma merge_kept_stopAll s x runs : x ∈ runs -> rn_kind x = RunMerge -> x ∈ stopAll s runs.
Proof.
  intros Hx Hk. destruct s as [s|]; [|done]. apply list_elem_of_In, filter_In. split; [by apply list_elem_of_In|].
  unfold stops. by rewrite Hk.
Qed.

Lemma send_runs n m : mg_runs (send n m) = mg_runs m.
Proof. unfold send. by destruct (mg_bridge m) as [[]|]. Qed.
Lemma clear_runs m : mg_runs (clear_timer m) = mg_runs m.
Proof. unfold clear_timer. by destruct (mg_memTimer m). Qed.
Lemma setMemPeriod_runs ms m : mg_runs (setMemPeriod ms m) = mg_runs m.
Proof. unfold setMemPeriod. destruct (_ =? _); [done|]. cbn. rewrite send_runs. cbn. apply clear_runs. Qed.

Lemma start_run_keeps k x m : x ∈ mg_runs m -> x ∈ mg_runs (start_run k m).
Proof. intros Hx. unfold start_run. destruct (mg_session m); [|done]. cbn. apply elem_of_app. by left. Qed.

Lemma continue_keeps c x m : x ∈ mg_runs m -> rn_kind x = RunMerge -> x ∈ mg_runs (continue_call c m).
Proof.
  intros Hx Hk. destruct c; [done| |done]. cbn. apply start_run_keeps. rewrite setMemPeriod_runs. by apply merge_kept_stopAll.
Qed.

Lemma resume_keeps w x m : x ∈ mg_runs m -> rn_kind x = RunMerge -> x ∈ mg_runs (resume w m).
Proof.
  intros Hx Hk. destruct w; cbn.
  - unfold html_ready. destruct (mg_panel m); [|done]. apply continue_keeps; [|done]. by rewrite setMemPeriod_runs, clear_runs.
  - rewrite setMemPeriod_runs. by apply merge_kept_stopAll.
  - by apply start_run_keeps.
Qed.

Theorem merges_cannot_be_stopped m e x :
  x ∈ mg_runs m -> rn_kind x = RunMerge -> e <> EFinish (rn_id x) -> x ∈ mg_runs (mgr_step m e).
Proof.
  intros Hx Hk He. destruct e as [c|i| | | |r|r a|r|t]; cbn.
  - unfold begin_call. destruct (mg_panel m); [by apply continue_keeps|done].
  - destruct (_ !! i); [by apply resume_keeps|done].
  - destruct (mg_panel m); [|done]. unfold panel_closed. by rewrite clear_runs.
  - by apply merge_kept_stopAll.
  - pose proof (merge_kept_stopAll (mg_session m) x _ Hx Hk). destruct (mg_panel m); [|done]. unfold panel_closed. by rewrite clear_runs.
  - destruct (rn_kind <$> _) as [[]|]; [by rewrite send_runs| |done]. destruct (mg_initialSent m); [done|]. cbn. by rewrite send_runs.
  - destruct (rn_kind <$> _) as [[]|]; [done| |done]. by rewrite setMemPeriod_runs.
  - apply list_elem_of_In, filter_In. split; [by apply list_elem_of_In|]. apply negb_true_iff, Z.eqb_neq. congruence.
  - case_bool_decide; [by rewrite send_runs|done].
Qed.

(** A merge is started, and its run is at work *)
Definition demo_merge : list event := [ECall CMerge; EResume 0; EResume 0; EResume 0].

Lemma merges_cannot_be_stopped_witness :
  MkRun 3 1 RunMerge ∈ mg_runs (mgr_run demo_merge mg_init) /\ MkRun 3 1 RunMerge ∈ mg_runs (mgr_step (mgr_run demo_merge mg_init) EStop).
Proof.
  assert (H : MkRun 3 1 RunMerge ∈ mg_runs (mgr_run demo_merge mg_init)) by (vm_compute; left).
  split; [exact H|]. apply (merges_cannot_be_stopped (mgr_run demo_merge mg_init) EStop (MkRun 3 1 RunMerge) H); [reflexivity|discriminate].
Defined.

(** While a panel stays open, a realtime run that goes on has each of its batches shown there. *)
Definition quiet (e : event) : bool :=
  match e with EBatch _ | EProgress _ _ | ETick _ => true | _ => false end.

Definition batches_of (r : Z) (evs : list event) : list event :=
  List.filter (fun e => match e with EBatch x => x =? r | _ => false end) evs.

Definition is_batch_of (r : Z) (x : Z * note) : bool := match snd x with BatchNote y => y =? r | MemoryNote => false end.

Lemma send_bridge n m : mg_bridge (send n m) = mg_bridge m.
Proof. unfold send. by destruct (mg_bridge m) as [[]|] eqn:E. Qed.

Lemma setMemPeriod_quiet ms r m :
  mg_bridge (setMemPeriod ms m) = mg_bridge m /\
  List.filter (is_batch_of r) (mg_sent (setMemPeriod ms m)) = List.filter (is_batch_of r) (mg_sent m).
Proof.
  unfold setMemPeriod. destruct (_ =? _); [done|]. unfold start_timer, send, set_period, clear_timer. cbn.
  destruct (mg_memTimer m), (mg_bridge m) as [[]|] eqn:E; cbn; rewrite ?E, ?List.filter_app; cbn; rewrite ?app_nil_r; done.
Qed.

Lemma quiet_step e r p x m :
  quiet e = true -> mg_bridge m = Some (OnPanel p) -> find_run r m = Some x -> rn_kind x = RunRealtime ->
  let m' := mgr_step m e in
  mg_bridge m' = Some (OnPanel p) /\ find_run r m' = Some x /\
  List.filter (is_batch_of r) (mg_sent m') =
    List.filter (is_batch_of r) (mg_sent m) ++ map (fun _ => (p, BatchNote r)) (batches_of r [e]).
Proof.
  intros Hq Hb Hx Hk. destruct e as [c|i| | | |y|y a|y|t]; try done; cbn.
  - destruct (y =? r) eqn:Ey.
    + apply Z.eqb_eq in Ey as ->. rewrite Hx. cbn. rewrite Hk. unfold send. rewrite Hb. cbn. rewrite List.filter_app. cbn. by rewrite Z.eqb_refl.
    + cbn. rewrite app_nil_r. destruct (rn_kind <$> find_run y m) as [[]|]; [| |done].
      * unfold send. rewrite Hb. cbn. rewrite List.filter_app. cbn. by rewrite Ey, app_nil_r.
      * destruct (mg_initialSent m); [done|]. unfold send. rewrite Hb. cbn. rewrite List.filter_app. cbn. by rewrite Ey, app_nil_r.
  - rewrite app_nil_r. destruct (rn_kind <$> find_run y m) as [[]|]; [done| |done].
    destruct (setMemPeriod_quiet (if a then MEM_FAST_MS else MEM_SLOW_MS) r m) as [-> ->]. unfold find_run. by rewrite setMemPeriod_runs.
  - rewrite app_nil_r. case_bool_decide; [|done]. unfold send. rewrite Hb. cbn. rewrite List.filter_app. cbn. by rewrite app_nil_r.
Qed.

Lemma batches_cons r e evs : batches_of r (e :: evs) = batches_of r [e] ++ batches_of r evs.
Proof. unfold batches_of. by rewrite <- List.filter_app. Qed.

(** A realtime run that goes on while its panel is open: the viewer gets every batch of it, once
    each, whatever other runs and timers do. *)
Theorem realtime_batches_shown evs r p x m :
  mg_bridge m = Some (OnPanel p) -> find_run r m = Some x -> rn_kind x = RunRealtime -> forallb quiet evs = true ->
  List.filter (is_batch_of r) (mg_sent (mgr_run evs m)) =
    List.filter (is_batch_of r) (mg_sent m) ++ map (fun _ => (p, BatchNote r)) (batches_of r evs).
Proof.
  revert m. induction evs as [|e evs IH]; intros m Hb Hx Hk Hq; [by rewrite app_nil_r|].
  apply andb_prop in Hq as [He Hq]. destruct (quiet_step e r p x m He Hb Hx Hk) as (Hb' & Hx' & Hs). cbn [mgr_run fold_left].
  change (fold_left mgr_step evs (mgr_step m e)) with (mgr_run evs (mgr_step m e)). rewrite (IH _ Hb' Hx' Hk Hq), Hs, (batches_cons r e evs).
  by rewrite map_app, app_assoc.
Qed.

Definition demo_open : mgr := mgr_run [ECall CRealtime; EResume 0] mg_init.

Lemma realtime_batches_shown_witness :
  List.filter (is_batch_of 2) (mg_sent (mgr_run [EBatch 2; ETick 0; EBatch 2] demo_open)) = [(0, BatchNote 2); (0, BatchNote 2)].
Proof.
  exact (realtime_batches_shown [EBatch 2; ETick 0; EBatch 2] 2 0 (MkRun 2 1 RunRealtime) demo_open eq_refl eq_refl eq_refl eq_refl).
Defined.

(** A merge that still works when the next one starts gives the viewer its batch as the first one
    of the new merge, whose own first batch is then held back. *)
Example old_merge_fills_viewer :
  let m1 := mgr_run demo_merge mg_init in
  let m2 := mgr_run [EBatch 3; ECall CMerge; EResume 0; EResume 0] m1 in
  map rn_id (mg_runs m2) = [3; 5] /\
  List.filter (is_batch_of 3) (mg_sent (mgr_run [EBatch 3; EBatch 5] m2)) = [(0, BatchNote 3); (0, BatchNote 3)] /\
  List.filter (is_batch_of 5) (mg_sent (mgr_run [EBatch 3; EBatch 5] m2)) = [].
Proof. by vm_compute. Qed.

(** A merge that waits for its configuration starts on whatever session is current then: with a
    realtime start in between both work on one session. *)
Example merge_joins_realtime_session :
  mg_runs (mgr_run [ECall CMerge; EResume 0; EResume 0; ECall CRealtime; EResume 0] mg_init) = [MkRun 5 3 RunRealtime; MkRun 6 3 RunMerge].
Proof. by vm_compute. Qed.

(** The end of a merge whose panel was closed starts the slow sampling with no panel to send to;
    opening the viewer again ends that sampling and starts no other. *)
Example sampling_without_panel :
  let m := mgr_run (demo_merge ++ [EClose; EProgress 3 false]) mg_init in
  mg_panel m = None /\ length (mg_intervals m) = 1%nat /\
  let m' := mgr_run [ECall COpen; EResume 0] m in mg_bridge m' <> None /\ mg_intervals m' = [].
Proof. by vm_compute. Qed.

(** Closing the panel leaves the realtime session at work, with nothing to show it. *)
Example session_survives_close :
  let m := mgr_run [EClose; EBatch 2] demo_open in length (mg_runs m) = 1%nat /\ mg_bridge m = None /\ mg_sent m = mg_sent demo_open.
Proof. by vm_compute. Qed.

(** A panel that is closed while its HTML is read leaves a bridge that has no panel. *)
Example closed_while_opening :
  let m := mgr_run [ECall COpen; EClose; EResume 0] mg_init in mg_panel m = None /\ mg_bridge m = Some OnNothing.
Proof. by vm_compute. Qed.
