(* ===== verification/ViewerParts.v ===== *)
(** * ViewerParts

    The parts of the log viewer around the grid (src/webviewers/log-viewer/react/components):
    Toolbar.tsx, SearchDialog.tsx, SearchPanel.tsx, MessageDialog.tsx, HighlightPopover.tsx and
    Bookmarks.tsx, as operations on the store of [Viewer.v] and on what the parts keep
    themselves.  The markup is left out, apart from the text of a search hit. *)

From stdpp Require Import base list gmap strings.
From Stdlib Require Import ZArith Lia Sorted.
From S2P Require Import Prelude JsString LogEntry LogFilter Pagination Messages Viewer Grid GridSpec.
#[local] Open Scope Z_scope.

(** ** The tool bar *)

Definition no_prefs : viewer_prefs := ViewerPrefs None None None None None None.

(** [{ [prefKey(id)]: v }] *)
Definition col_pref (id : ColumnId) (v : bool) : viewer_prefs :=
  match id with
  | ColTime => ViewerPrefs (Some v) None None None None None
  | ColProc => ViewerPrefs None (Some v) None None None None
  | ColPid => ViewerPrefs None None (Some v) None None None
  | ColSrc => ViewerPrefs None None None (Some v) None None
  | ColMsg => ViewerPrefs None None None None (Some v) None
  end.

(** [activeCount]: the fields of the filter that are set *)
Definition activeCount (f : log_filter) : Z :=
  zlen (List.filter (fun t => nonempty (trim t)) [f_pid f; f_src f; f_proc f; f_msg f]).

(** The badge of new lines, when there is one *)
Definition new_badge (w : view) : option str :=
  if (0 <? v_newSincePause w) && negb (v_follow w)
  then Some (if 99 <? v_newSincePause w then js "99+" else print_int (v_newSincePause w))
  else None.

(** The badge of memory: the sum of the known figures *)
Definition memory_badge (t : settings) : option Z :=
  match st_hostMemMB t, st_webMemMB t with
  | None, None => None
  | h, w => Some (or_else h 0 + or_else w 0)
  end.

(** What the tool bar keeps beside the store: whether its dialogs are open *)
Record toolbar := MkToolbar { tb_filterOpen : bool; tb_searchDlgOpen : bool }.

Inductive toolbar_event :=
  | TColumn (id : ColumnId) (on : bool)
  | TSearchButton
  | TSearch (q : str)            (* [onSearch] of the search dialog *)
  | TSearchCancel
  | TFilterButton
  | TFilterClose
  | TBookmarks
  | TFollow.

Definition toolbar_do (e : toolbar_event) (tb : toolbar) (s : viewer) : toolbar * viewer * list w2h :=
  match e with
  | TColumn id on => (tb, toggleColumn id on s, [PrefsSave (col_pref id on)])
  | TSearchButton => (MkToolbar (tb_filterOpen tb) true, s, [])
  | TSearch q =>
      let query := trim q in
      (MkToolbar (tb_filterOpen tb) false, openSearchPanel (setSearch query s),
       if nonempty query then [SearchQuery query (SearchOpts false None None)] else [])
  | TSearchCancel => (MkToolbar (tb_filterOpen tb) false, s, [])
  | TFilterButton => (MkToolbar true (tb_searchDlgOpen tb), s, [])
  | TFilterClose => (MkToolbar false (tb_searchDlgOpen tb), s, [])
  | TBookmarks =>
      let s1 := toggleBookmarksPane s in
      (tb, s1, [PrefsSave (ViewerPrefs None None None None None (Some (negb (st_showBookmarks (vt s1)))))])
  | TFollow =>
      let next := negb (v_follow (vw s)) in
      let s1 := setFollow next s in
      (tb, if next then clearNewSincePause s1 else s1, [])
  end.

(** ** The search dialog *)

Record search_dialog := MkSearchDialog { sd_open : bool; sd_q : str }.

Inductive dialog_key := KeyEscape | KeyEnter | KeyOther.

(** What a key asks of the tool bar; while the dialog is closed nothing listens. *)
Definition search_key (k : dialog_key) (d : search_dialog) : option toolbar_event :=
  if sd_open d then
    match k with KeyEscape => Some TSearchCancel | KeyEnter => Some (TSearch (sd_q d)) | KeyOther => None end
  else None.

(** The effect on [open] and [initialQuery] *)
Definition search_opened (open : bool) (initialQuery : str) (d : search_dialog) : search_dialog :=
  if open then MkSearchDialog true initialQuery else MkSearchDialog false (sd_q d).

Definition search_typed (q : str) (d : search_dialog) : search_dialog := MkSearchDialog (sd_open d) q.

(** ** The search panel *)

Section snippets.
Context (canon : Z -> Z).

Definition plain_mark (m : str) : str := js "<mark>" ++ m ++ js "</mark>".

(** The replacement of a query, every character of which stands for itself; [n] units at most are
    read. *)
Fixpoint mark_query (n : nat) (q s : str) : str :=
  match n, s with
  | S n', c :: s' =>
      match match_word canon q s with
      | Some rest => plain_mark (take (length s - length rest) s) ++ mark_query n' q rest
      | None => c :: mark_query n' q s'
      end
  | _, _ => s
  end.

(** The markup of a hit *)
Definition snippet_html (q snippet : str) : str :=
  let html := escapeHtml snippet in
  match q with [] => html | _ => mark_query (length html) q html end.
End snippets.

(** A click on a hit, and on the button that closes the panel *)
Definition hit_click (idx : Z) (s : viewer) : viewer := if 0 <? idx then jumpToIdx idx s else s.
Definition search_close_click (s : viewer) : viewer * list w2h := (closeSearch s, [SearchClear]).

(** ** The header of the grid *)

(** The pointer moves over a handle that was pressed at [last]: each move resizes by the way since
    the one before. *)
Fixpoint header_drag (col : ColumnId) (last : Z) (xs : list Z) (s : viewer) : viewer :=
  match xs with
  | [] => s
  | x :: xs' => header_drag col x xs' (resizeColumn col (x - last) s)
  end.

(** ** The bookmarks *)

Definition by_idx (a b : BookmarkItem) : Z := bm_idx a - bm_idx b.

Definition bookmark_list (s : viewer) : list BookmarkItem := array_sort by_idx (snd <$> map_to_list (v_bookmarks (vw s))).

Definition bookmark_selected (s : viewer) (r : BookmarkItem) : bool :=
  match v_selectedRowId (vw s) with
  | None => false
  | Some id =>
      match List.find (fun row => lr_id row =? id) (v_rows (vw s)) with
      | Some row => has_idx (bm_idx r) row
      | None => false
      end
  end.

(** A click on a bookmark: an identifier that is zero is none. *)
Definition bookmark_click (r : BookmarkItem) (s : viewer) : viewer :=
  let s1 := match List.find (has_idx (bm_idx r)) (v_rows (vw s)) with
            | Some row => if lr_id row =? 0 then s else jumpToRow (lr_id row) s
            | None => s
            end in
  jumpToIdx (bm_idx r) s1.

Definition bookmark_star_click (r : BookmarkItem) (s : viewer) : viewer := toggleBookmarkByIdx (bm_idx r) s.

(** ** The highlight rules *)

Definition blank_rule : HighlightRule := Highlight [] (Some 1).

(** [base] with the current rules put over it *)
Fixpoint overlay (base current : list HighlightRule) : list HighlightRule :=
  match current, base with
  | [], _ => base
  | r :: current', [] => Highlight (hl_text r) (Some (or_else (hl_color r) 1)) :: overlay [] current'
  | r :: current', _ :: base' => Highlight (hl_text r) (Some (or_else (hl_color r) 1)) :: overlay base' current'
  end.

Definition popover_init (s : viewer) : list HighlightRule := overlay (replicate 5 blank_rule) (st_highlights (vt s)).

Definition popover_setText (i : nat) (v : str) (rules : list HighlightRule) : list HighlightRule :=
  imap (fun j r => if Nat.eqb j i then Highlight v (hl_color r) else r) rules.

Definition popover_pick (i : nat) (c : Z) (rules : list HighlightRule) : list HighlightRule :=
  imap (fun j r => if Nat.eqb j i then Highlight (hl_text r) (Some c) else r) rules.

Definition popover_reset : list HighlightRule := replicate 5 blank_rule.

Definition popover_apply (rules : list HighlightRule) (s : viewer) : viewer := setHighlights rules s.

(** ** The message dialog *)

Definition IGNORE_BACKDROP_MS : Z := 220.

Record drag := MkDrag { dg_active : bool; dg_startX : Z; dg_startY : Z; dg_baseX : Z; dg_baseY : Z }.

Record message_dialog := MkMessageDialog {
  md_row : option LogRow;        (* the row, when the dialog is open *)
  md_openedAt : option Z;
  md_x : Z;
  md_y : Z;
  md_drag : drag;
  md_copied : bool;
  md_timers : nat }.             (* timers that will take the mark of copying away *)

Definition md_init : message_dialog := MkMessageDialog None None 0 0 (MkDrag false 0 0 0 0) false 0.

(** The text that is shown and copied; [raw] is a field of every row. *)
Definition message_text (r : LogRow) : str := lr_raw r.

Inductive message_event :=
  | DShow (r : LogRow) (now : Z)          (* opened, or given another row *)
  | DHide
  | DKey (k : dialog_key) (now : Z)
  | DCopy (ok : bool)                     (* whether the clipboard takes it *)
  | DCopyTimer
  | DPointerDown (x y : Z)
  | DPointerMove (x y : Z)
  | DPointerUp.

Definition set_drag (g : drag) (d : message_dialog) : message_dialog :=
  MkMessageDialog (md_row d) (md_openedAt d) (md_x d) (md_y d) g (md_copied d) (md_timers d).

(** The state after an event, the text put on the clipboard, and whether [onClose] is called.  The
    title bar is there only while the dialog is open. *)
Definition message_do (e : message_event) (d : message_dialog) : message_dialog * option str * bool :=
  let g := md_drag d in
  let keep := (d, None, false) in
  match e with
  | DShow r now => (MkMessageDialog (Some r) (Some now) 0 0 g (md_copied d) (md_timers d), None, false)
  | DHide => (MkMessageDialog None None (md_x d) (md_y d) g (md_copied d) (md_timers d), None, false)
  | DCopyTimer =>
      match md_timers d with
      | O => keep
      | S n => (MkMessageDialog (md_row d) (md_openedAt d) (md_x d) (md_y d) g false n, None, false)
      end
  | _ =>
      match md_row d with
      | None => keep
      | Some r =>
          match e with
          | DKey KeyEscape now =>
              match md_openedAt d with
              | Some t => if now - t <? IGNORE_BACKDROP_MS then keep else (d, None, true)
              | None => (d, None, true)
              end
          | DCopy ok =>
              if ok then (MkMessageDialog (md_row d) (md_openedAt d) (md_x d) (md_y d) g true (S (md_timers d)), Some (message_text r), false)
              else keep
          | DPointerDown x y => (set_drag (MkDrag true x y (md_x d) (md_y d)) d, None, false)
          | DPointerMove x y =>
              if dg_active g
              then (MkMessageDialog (md_row d) (md_openedAt d) (dg_baseX g + (x - dg_startX g)) (dg_baseY g + (y - dg_startY g))
                      g (md_copied d) (md_timers d), None, false)
              else keep
          | DPointerUp =>
              (set_drag (MkDrag false (dg_startX g) (dg_startY g) (dg_baseX g) (dg_baseY g)) d, None, false)
          | _ => keep
          end
      end
  end.

Definition message_run (evs : list message_event) (d : message_dialog) : message_dialog :=
  fold_left (fun d e => (message_do e d).1.1) evs d.

(** ** Theorems on the tool bar *)

(** [{...old, ...patch}] *)
Definition spread_prefs (old patch : viewer_prefs) : viewer_prefs :=
  let pick (f : viewer_prefs -> option bool) := match f patch with Some b => Some b | None => f old end in
  ViewerPrefs (pick vp_showTime) (pick vp_showProc) (pick vp_showPid) (pick vp_showSrc) (pick vp_showMsg) (pick vp_bookmarksOpen).

Definition saved (out : list w2h) (p : viewer_prefs) : viewer_prefs :=
  fold_left (fun p m => match m with PrefsSave patch => spread_prefs p patch | _ => p end) out p.

(** A run of the tool bar with the preferences that the host keeps *)
Definition toolbar_run (evs : list toolbar_event) (tb : toolbar) (s : viewer) (p : viewer_prefs) : toolbar * viewer * viewer_prefs :=
  fold_left (fun st e => let '(tb, s, p) := st in let '(tb', s', out) := toolbar_do e tb s in (tb', s', saved out p)) evs (tb, s, p).

Definition same_columns (s s' : viewer) : Prop := forall c, st_showCols (vt s) c = st_showCols (vt s') c.

Definition pref_of (p : viewer_prefs) (c : ColumnId) : option bool :=
  match c with
  | ColTime => vp_showTime p | ColProc => vp_showProc p | ColPid => vp_showPid p | ColSrc => vp_showSrc p | ColMsg => vp_showMsg p
  end.

Lemma on_prefs_columns p s c : st_showCols (vt (on_prefs p s)) c = or_else (pref_of p c) (st_showCols (vt s) c).
Proof.
  destruct p as [p1 p2 p3 p4 p5 p6]. transitivity (st_showCols (vt (on_prefs (ViewerPrefs p1 p2 p3 p4 p5 None) s)) c); [by destruct p6|].
  destruct c; cbn [pref_of vp_showTime vp_showProc vp_showPid vp_showSrc vp_showMsg];
    unfold on_prefs; cbn [vp_showTime vp_showProc vp_showPid vp_showSrc vp_showMsg vp_bookmarksOpen];
    destruct p1; destruct p2; destruct p3; destruct p4; destruct p5; reflexivity.
Qed.

Lemma pref_of_spread old patch c : pref_of (spread_prefs old patch) c = match pref_of patch c with Some b => Some b | None => pref_of old c end.
Proof. by destruct c. Qed.

Lemma toolbar_columns e tb s0 s p :
  same_columns (on_prefs p s0) s -> same_columns (on_prefs (saved (toolbar_do e tb s).2 p) s0) (toolbar_do e tb s).1.2.
Proof.
  intros H c. specialize (H c). rewrite on_prefs_columns in H. rewrite on_prefs_columns.
  destruct e as [id on| |q| | | | |]; try exact H; unfold saved; cbn [toolbar_do fst snd fold_left].
  - rewrite pref_of_spread. cbn. destruct (decide (c = id)) as [->|Hc]; [by destruct id|].
    rewrite <- H. destruct id, c; try done; by destruct Hc.
  - replace (fold_left _ _ p) with p by (by destruct (nonempty (trim q))). rewrite H. unfold setSearch. by destruct (nonempty (trim (trim q))).
  - rewrite H. by destruct (v_follow _).
Qed.

(** The columns that are shown survive a reload: whatever is done with the tool bar, a viewer that
    is loaded with the saved preferences shows the same columns. *)
Theorem columns_persist evs tb s0 s p :
  same_columns (on_prefs p s0) s ->
  let '(_, s', p') := toolbar_run evs tb s p in same_columns (on_prefs p' s0) s'.
Proof.
  unfold toolbar_run. revert tb s p. induction evs as [|e evs IH]; intros tb s p H; [done|]. cbn [fold_left].
  pose proof (toolbar_columns e tb s0 s p H) as H'. destruct (toolbar_do e tb s) as [[tb' s'] out]. by apply IH.
Qed.

Lemma columns_persist_witness :
  let '(_, s', p') := toolbar_run [TColumn ColPid false; TBookmarks; TFollow; TColumn ColTime false; TColumn ColPid true]
    (MkToolbar false false) viewer_init no_prefs in same_columns (on_prefs p' viewer_init) s'.
Proof.
  exact (columns_persist [TColumn ColPid false; TBookmarks; TFollow; TColumn ColTime false; TColumn ColPid true]
    (MkToolbar false false) viewer_init viewer_init no_prefs (fun _ => eq_refl)).
Defined.

(** The pane of bookmarks does not: what is saved is the opposite of what is shown, so a viewer
    with bookmarks that loads it shows the opposite. *)
Theorem bookmarks_pane_saved_inverted tb s s0 p :
  v_bookmarks (vw s0) <> ∅ ->
  let '(_, s', out) := toolbar_do TBookmarks tb s in
  st_showBookmarks (vt (on_prefs (saved out p) s0)) = negb (st_showBookmarks (vt s')).
Proof.
  intros Hb. destruct p as [p1 p2 p3 p4 p5 p6]. cbn [toolbar_do saved fold_left spread_prefs vp_bookmarksOpen]. unfold on_prefs.
  cbn [vp_bookmarksOpen]. set (s1 := match _ with Some b => toggleColumn ColMsg b _ | None => _ end).
  assert (E : v_bookmarks (vw s1) = v_bookmarks (vw s0)) by (by destruct p1, p2, p3, p4, p5).
  cbn [setBookmarksPane with_settings vt st_showBookmarks]. rewrite E. rewrite bool_decide_false by done. apply andb_true_r.
Qed.

Definition demo_bookmarked : viewer := with_view (View [] 1 0 1 None None {[ 7 := Bookmark 7 [] [] [] ]} true 0) viewer_init.

Lemma bookmarks_pane_saved_inverted_witness :
  let '(_, s', out) := toolbar_do TBookmarks (MkToolbar false false) demo_bookmarked in
  st_showBookmarks (vt (on_prefs (saved out no_prefs) demo_bookmarked)) = negb (st_showBookmarks (vt s')).
Proof. apply (bookmarks_pane_saved_inverted (MkToolbar false false) demo_bookmarked demo_bookmarked no_prefs). discriminate. Defined.

(** A search with a word in it: the panel is open with the trimmed query, the host is asked once,
    and the hits it sends are shown.  A blank search asks nothing and opens the panel empty. *)
Theorem search_shows_hits q tb s hits :
  let '(tb', s', out) := toolbar_do (TSearch q) tb s in
  tb_searchDlgOpen tb' = false /\
  (nonempty (trim q) = true ->
     out = [SearchQuery (trim q) (SearchOpts false None None)] /\
     vs (receive (SearchResults hits (Some (trim q))) s').1 = SearchPane (trim q) true hits) /\
  (nonempty (trim q) = false -> out = [] /\ vs s' = SearchPane [] true []).
Proof.
  cbn [toolbar_do tb_searchDlgOpen]. split; [done|]. split.
  - intros Hq. rewrite Hq. split; [done|]. unfold setSearch. by rewrite trim_trim, Hq.
  - intros Hq. rewrite Hq. destruct (trim q); [|done]. done.
Qed.

Lemma search_shows_hits_witness :
  let '(_, s', out) := toolbar_do (TSearch (js " err ")) (MkToolbar false true) viewer_init in
  out = [SearchQuery (js "err") (SearchOpts false None None)] /\
  vs (receive (SearchResults [Hit 3 (js "an err")] (Some (js "err"))) s').1 = SearchPane (js "err") true [Hit 3 (js "an err")].
Proof.
  refine (proj1 (proj2 (search_shows_hits (js " err ") (MkToolbar false true) viewer_init [Hit 3 (js "an err")])) _). reflexivity.
Defined.

(** Enter searches wherever the focus is, on the button that cancels too: the key comes first. *)
Example enter_on_cancel_searches :
  search_key KeyEnter (search_typed (js "err") (search_opened true [] (MkSearchDialog false []))) = Some (TSearch (js "err")).
Proof. reflexivity. Qed.

(** ** Theorems on hits, bookmarks and highlight rules *)

Section snippet_theorems.
Context (canon : Z -> Z).

Lemma html_text_plain_mark m t : Forall plain m -> html_text (plain_mark m ++ t) = m ++ html_text t.
Proof.
  intros Hm. unfold plain_mark. rewrite <- !app_assoc. change (html_text_in None (js "mark" ++ 62 :: m ++ js "</mark>" ++ t) = m ++ html_text t).
  rewrite html_text_skip by (by repeat constructor). by rewrite html_text_app.
Qed.

Lemma mark_query_text n q s : Forall plain s -> html_text (mark_query canon n q s) = s.
Proof.
  revert s. induction n as [|n IH]; intros s Hs; cbn [mark_query].
  - rewrite <- (app_nil_r s) at 1. by rewrite html_text_app, app_nil_r.
  - destruct s as [|c s]; [done|]. destruct (match_word canon q (c :: s)) as [rest|] eqn:E.
    + assert (Es := match_word_suffix _ _ _ _ E). rewrite <- Es in Hs. apply Forall_app in Hs as [H1 H2].
      by rewrite html_text_plain_mark, IH.
    + apply Forall_cons in Hs as [H1 H2]. by rewrite html_text_plain, IH.
Qed.

(** The reader of a hit sees its text: without a query whatever it is, with a query if it has none
    of the characters that are escaped. *)
Theorem snippet_shown q snippet : q = [] \/ Forall plain snippet -> html_text (snippet_html canon q snippet) = snippet.
Proof.
  unfold snippet_html. intros [->|Hs]; [apply escaped_text_shown|]. rewrite escape_plain by done. destruct q.
  - rewrite <- (app_nil_r snippet) at 1. by rewrite html_text_app, app_nil_r.
  - by apply mark_query_text.
Qed.
End snippet_theorems.

Lemma snippet_shown_witness : html_text (snippet_html lower_unit (js "ERR") (js "an error")) = js "an error".
Proof. apply (snippet_shown lower_unit (js "ERR") (js "an error")). right. by repeat constructor. Defined.

(** A query that matches inside an entity breaks it, and one with an escaped character marks
    nothing. *)
Example snippet_breaks :
  html_text (snippet_html lower_unit (js "amp") (js "a&b")) = js "a&amp;b" /\
  snippet_html lower_unit (js "<") (js "a<b") = js "a&lt;b".
Proof. by vm_compute. Qed.

(** The column of row numbers is as wide as the number of rows needs, between 48 and 120 pixels. *)
Theorem index_column_fits totalRows :
  48 <= idxWidthPx totalRows <= 120 /\
  (1 <= totalRows -> zlen (print_int totalRows) <= 13 -> 14 + 8 * zlen (print_int totalRows) <= idxWidthPx totalRows).
Proof. unfold idxWidthPx. split; [lia|]. intros Hd Ht. rewrite (Z.max_r 1 totalRows) by lia. lia. Qed.

Lemma index_column_fits_witness : 14 + 8 * zlen (print_int 1234567) <= idxWidthPx 1234567.
Proof. refine (proj2 (index_column_fits 1234567) _ _); vm_compute; discriminate. Defined.

(** The bookmarks are listed once each, in the order of their rows. *)
Theorem bookmarks_listed s :
  (forall k b, v_bookmarks (vw s) !! k = Some b -> bm_idx b = k) ->
  (forall b, b ∈ bookmark_list s <-> v_bookmarks (vw s) !! bm_idx b = Some b) /\
  StronglySorted (fun a b => bm_idx a < bm_idx b) (bookmark_list s).
Proof.
  intros Hk. assert (Hp : bookmark_list s ≡ₚ snd <$> map_to_list (v_bookmarks (vw s))) by apply array_sort_perm. split.
  - intros b. rewrite Hp, list_elem_of_fmap. split.
    + intros ([k b'] & -> & Hin). apply elem_of_map_to_list in Hin. cbn. by rewrite (Hk k b' Hin).
    + intros Hb. exists (bm_idx b, b). by rewrite elem_of_map_to_list.
  - assert (Hs : StronglySorted (fun a b => bm_idx a <= bm_idx b) (bookmark_list s)).
    { apply array_sort_sorted; [unfold by_idx; intros; lia|unfold by_idx; intros; lia|]. intros a b c; lia. }
    assert (Hn : NoDup (map bm_idx (bookmark_list s))).
    { rewrite Hp. change (map bm_idx (snd <$> ?l)) with (bm_idx <$> (snd <$> l)). rewrite <- list_fmap_compose.
      replace ((bm_idx ∘ snd) <$> _) with ((map_to_list (v_bookmarks (vw s))).*1); [apply NoDup_fst_map_to_list|].
      apply list_fmap_ext. intros i [k b] Hi. symmetry. apply list_elem_of_lookup_2, elem_of_map_to_list in Hi. exact (Hk k b Hi). }
    revert Hn. clear Hp. induction Hs as [|a l Hs IH Ha]; intros Hn; [constructor|]. cbn in Hn. apply NoDup_cons in Hn as [Hni Hn].
    constructor; [by apply IH|]. rewrite Forall_forall in Ha |- *. intros b Hb. pose proof (Ha b Hb).
    assert (bm_idx a <> bm_idx b); [|lia]. intros E. apply Hni. rewrite E. apply list_elem_of_fmap. by exists b.
Qed.

Definition demo_two : viewer :=
  with_view (View [] 1 0 1 None None {[ 9 := Bookmark 9 [] [] []; 7 := Bookmark 7 [] [] [] ]} true 0) viewer_init.

Lemma bookmarks_listed_witness :
  map bm_idx (bookmark_list demo_two) = [7; 9] /\ StronglySorted (fun a b => bm_idx a < bm_idx b) (bookmark_list demo_two).
Proof.
  split; [by vm_compute|]. apply (bookmarks_listed demo_two). cbn [demo_two with_view vw v_bookmarks].
  intros k b. rewrite lookup_insert_Some, lookup_singleton_Some. by intros [[<- <-]|[_ [<- <-]]].
Defined.

(** A click on a bookmark asks the grid for its row and stops following; the row is selected at
    once when it is among the loaded ones. *)
Theorem bookmark_click_jumps r s :
  let s' := bookmark_click r s in
  v_pendingJumpIdx (vw s') = Some (Z.max 1 (to_int32 (bm_idx r))) /\ v_follow (vw s') = false /\ v_rows (vw s') = v_rows (vw s) /\
  (forall row, List.find (has_idx (bm_idx r)) (v_rows (vw s)) = Some row -> lr_id row <> 0 -> v_selectedRowId (vw s') = Some (lr_id row)).
Proof.
  unfold bookmark_click. split_and!; [done|done| |].
  - destruct (List.find _ _) as [row|]; [|done]. by destruct (_ =? 0).
  - intros row -> Hid. apply Z.eqb_neq in Hid. by rewrite Hid.
Qed.

(** The star of a bookmark takes it away, and of the rows only its own loses the mark. *)
Theorem bookmark_star_removes r s :
  is_Some (v_bookmarks (vw s) !! bm_idx r) ->
  let s' := bookmark_star_click r s in
  v_bookmarks (vw s') = delete (bm_idx r) (v_bookmarks (vw s)) /\
  v_rows (vw s') = map (fun row => if has_idx (bm_idx r) row then set_bookmarked false row else row) (v_rows (vw s)).
Proof.
  intros [b Hb]. unfold bookmark_star_click, toggleBookmarkByIdx. rewrite Hb. cbn [with_view vw v_bookmarks v_rows]. split; [done|].
  rewrite lookup_delete_eq. by rewrite bool_decide_false by (by intros [? ?]).
Qed.

Lemma bookmark_star_removes_witness :
  let s' := bookmark_star_click (Bookmark 9 [] [] []) demo_two in
  v_bookmarks (vw s') = delete 9 (v_bookmarks (vw demo_two)) /\
  v_rows (vw s') = map (fun row => if has_idx 9 row then set_bookmarked false row else row) (v_rows (vw demo_two)).
Proof. apply (bookmark_star_removes (Bookmark 9 [] [] []) demo_two). by eexists. Defined.

(** The rules as the store keeps them *)
Definition rule_ok (r : HighlightRule) : Prop := nonempty (hl_text r) = true /\ trim (hl_text r) = hl_text r /\ is_Some (hl_color r).

Lemma stored_rules_ok rules s :
  let hs := st_highlights (vt (setHighlights rules s)) in Forall rule_ok hs /\ (length hs <= 5)%nat.
Proof.
  unfold setHighlights. cbn [with_settings vt st_highlights]. split.
  - apply Forall_fmap, Forall_forall. intros r Hr. unfold rule_ok. cbn [compose hl_text hl_color]. rewrite trim_trim. split; [|split; [done|by eexists]].
    change (slice ?l 0 5) with (take 5 (drop 0 l)) in Hr. rewrite drop_0 in Hr. apply elem_of_take in Hr as (i & Hi & _).
    by apply list_elem_of_lookup_2, list_elem_of_filter in Hi as [Hi _].
  - rewrite length_map. unfold slice. rewrite length_take. lia.
Qed.

Lemma overlay_ok hs base :
  Forall rule_ok hs -> (length hs <= length base)%nat -> overlay base hs = hs ++ drop (length hs) base.
Proof.
  revert base. induction hs as [|r hs IH]; intros base Hr Hl; [by rewrite drop_0|]. destruct base as [|b base]; [cbn in Hl; lia|].
  inversion_clear Hr as [|? ? (_ & _ & [c Hc]) Hr']. cbn in *. rewrite IH by (done || lia). destruct r as [t o]. cbn in Hc. by subst o.
Qed.

Lemma filter_blank n : filter (fun r => nonempty (trim (hl_text r)) = true) (replicate n blank_rule) = [].
Proof. induction n; [done|]. cbn [replicate]. by rewrite filter_cons_False. Qed.

(** Opening the highlight rules and applying them as they are changes none of them. *)
Theorem highlights_reapplied rules s :
  let s1 := setHighlights rules s in st_highlights (vt (popover_apply (popover_init s1) s1)) = st_highlights (vt s1).
Proof.
  intros s1. destruct (stored_rules_ok rules s) as [Hok Hl]. fold s1 in Hok, Hl. unfold popover_apply, popover_init.
  rewrite overlay_ok by (done || by rewrite length_replicate). set (hs := st_highlights (vt s1)) in *.
  unfold setHighlights. cbn [with_settings vt st_highlights].
  rewrite drop_replicate, filter_app, filter_blank, app_nil_r.
  assert (Hf : filter (fun r => nonempty (trim (hl_text r)) = true) hs = hs).
  { clear Hl. induction Hok as [|r hs' (H1 & H2 & _) _ IH]; [done|]. rewrite filter_cons_True by (by rewrite H2). by rewrite IH. }
  rewrite Hf. change (slice hs 0 5) with (take 5 (drop 0 hs)). rewrite drop_0, take_ge by lia.
  clear Hl Hf. induction Hok as [|r hs' (_ & H2 & [c Hc]) _ IH]; [done|]. cbn. rewrite IH, H2. destruct r as [t o]. cbn in Hc. by subst o.
Qed.

(** ** Theorems on the message dialog *)

(** Events between the opening of the dialog and the next change of it *)
Definition inside (e : message_event) : bool := match e with DShow _ _ | DHide => false | _ => true end.

Lemma inside_step e d :
  inside e = true -> let d' := (message_do e d).1.1 in md_row d' = md_row d /\ md_openedAt d' = md_openedAt d.
Proof.
  intros He. destruct d as [[r|] [t|] x0 y0 g cp n]; destruct e as [| |[]|[]| |x y|x y|]; try done; cbn; repeat case_match; done.
Qed.

Lemma inside_run evs d :
  forallb inside evs = true -> md_row (message_run evs d) = md_row d /\ md_openedAt (message_run evs d) = md_openedAt d.
Proof.
  revert d. induction evs as [|e evs IH]; intros d He; [done|]. apply andb_prop in He as [He1 He2].
  destruct (inside_step e d He1) as [H1 H2]. cbn [message_run fold_left]. destruct (IH (message_do e d).1.1 He2) as [H3 H4].
  split; [exact (eq_trans H3 H1)|exact (eq_trans H4 H2)].
Qed.

(** Escape closes the dialog exactly when 220 milliseconds have gone by since it was opened,
    whatever has been done in it; no other key closes it, and what is copied is the shown line. *)
Theorem escape_closes r t d evs k now ok :
  forallb inside evs = true ->
  let d' := message_run (DShow r t :: evs) d in
  ((message_do (DKey k now) d').2 = true <-> k = KeyEscape /\ t + IGNORE_BACKDROP_MS <= now) /\
  (message_do (DCopy ok) d').1.2 = if ok then Some (message_text r) else None.
Proof.
  intros He d'. destruct (inside_run evs (message_do (DShow r t) d).1.1 He) as [Hr Ho].
  change (message_run evs _) with d' in Hr, Ho. cbn in Hr, Ho. split.
  - cbn. rewrite Hr. destruct k; cbn; [|by split; [|intros [? _]]|by split; [|intros [? _]]]. rewrite Ho.
    unfold IGNORE_BACKDROP_MS. destruct (Z.ltb_spec (now - t) 220); cbn; split; try done; [lia|]. split; [done|lia].
  - cbn. rewrite Hr. by destruct ok.
Qed.

Definition demo_row : LogRow := LRow 1 (Some 1) [] [] [] [] [] (js "line") false.

Lemma escape_closes_witness :
  let d' := message_run [DShow demo_row 1000; DPointerDown 5 5; DCopy true] md_init in
  ((message_do (DKey KeyEscape 1220) d').2 = true <-> KeyEscape = KeyEscape /\ 1000 + IGNORE_BACKDROP_MS <= 1220) /\
  (message_do (DCopy true) d').1.2 = Some (js "line").
Proof. exact (escape_closes demo_row 1000 md_init [DPointerDown 5 5; DCopy true] KeyEscape 1220 true eq_refl). Defined.

Definition moves (ps : list (Z * Z)) : list message_event := map (fun p => DPointerMove p.1 p.2) ps.

Lemma moves_follow ps p d :
  is_Some (md_row d) -> dg_active (md_drag d) = true ->
  let d' := message_run (moves (ps ++ [p])) d in
  md_x d' = dg_baseX (md_drag d) + (p.1 - dg_startX (md_drag d)) /\ md_y d' = dg_baseY (md_drag d) + (p.2 - dg_startY (md_drag d)).
Proof.
  revert d. induction ps as [|q ps IH]; intros d [r Hr] Ha; unfold moves; cbn [app map message_run fold_left].
  - cbn. by rewrite Hr, Ha.
  - set (d1 := (message_do (DPointerMove q.1 q.2) d).1.1).
    assert (E : md_drag d1 = md_drag d /\ md_row d1 = md_row d) by (unfold d1; cbn; rewrite Hr, Ha; done).
    destruct E as [E1 E2]. destruct (IH d1) as [H1 H2]; [rewrite E2; by eexists|by rewrite E1|]. rewrite E1 in H1, H2. done.
Qed.

(** Dragging the dialog moves it by as much as the pointer has moved since it was pressed, by
    whatever way. *)
Theorem drag_follows_pointer d r x0 y0 ps p :
  md_row d = Some r ->
  let d' := message_run (DPointerDown x0 y0 :: moves (ps ++ [p])) d in
  md_x d' - md_x d = p.1 - x0 /\ md_y d' - md_y d = p.2 - y0.
Proof.
  intros Hr d'. unfold d'. cbn [message_run fold_left]. cbn. rewrite Hr.
  set (d1 := set_drag (MkDrag true x0 y0 (md_x d) (md_y d)) d).
  destruct (moves_follow ps p d1) as [H1 H2]; [by exists r|done|]. unfold message_run in H1, H2. cbn [fst]. rewrite H1, H2. cbn. lia.
Qed.

Lemma drag_follows_pointer_witness :
  let d := message_run [DShow demo_row 0] md_init in
  let d' := message_run (DPointerDown 10 10 :: moves ([(50, 0)] ++ [(13, 14)])) d in
  md_x d' - md_x d = 13 - 10 /\ md_y d' - md_y d = 14 - 10.
Proof. exact (drag_follows_pointer (message_run [DShow demo_row 0] md_init) demo_row 10 10 [(50, 0)] (13, 14) eq_refl). Defined.

(** A dialog that is closed while it is dragged is still dragged when it is opened again. *)
Example drag_survives_close :
  let d := message_run [DShow demo_row 0; DPointerDown 10 10; DHide; DShow demo_row 900; DPointerMove 30 40] md_init in
  (md_x d, md_y d) = (20, 30).
Proof. reflexivity. Qed.

(** Copying again does not keep the mark: the timer of the first copy takes it away. *)
Example copied_mark_cut_short :
  md_copied (message_run [DShow demo_row 0; DCopy true; DCopy true; DCopyTimer] md_init) = false /\
  md_timers (message_run [DShow demo_row 0; DCopy true; DCopy true; DCopyTimer] md_init) = 1%nat.
Proof. by split. Qed.

(** ** Theorems on the header *)

(** Dragging the handle of a column: as long as the width would stay at 60 or more, the column
    follows the pointer; the other columns keep their widths. *)
Theorem header_drag_follows col x0 xs x s :
  let w := st_colW (vt s) col in
  60 <= w -> Forall (fun y => 60 <= w + (y - x0)) (xs ++ [x]) ->
  let s' := header_drag col x0 (xs ++ [x]) s in
  st_colW (vt s') col = w + (x - x0) /\ forall c, c <> col -> st_colW (vt s') c = st_colW (vt s) c.
Proof.
  cbn zeta. revert x0 s. induction xs as [|y xs IH]; intros x0 s Hw Hx; inversion_clear Hx as [|? ? H1 H2]; cbn [app header_drag].
  - cbn. rewrite decide_True by done. destruct (Z.eqb_spec (st_colW (vt s) col) 0); [lia|]. split; [lia|]. intros c Hc. by rewrite decide_False.
  - assert (Ew : st_colW (vt (resizeColumn col (y - x0) s)) col = st_colW (vt s) col + (y - x0)).
    { cbn. rewrite decide_True by done. destruct (Z.eqb_spec (st_colW (vt s) col) 0); lia. }
    destruct (IH y (resizeColumn col (y - x0) s)) as [H3 H4]; rewrite ?Ew; [lia| |].
    + eapply Forall_impl; [exact H2|]. cbn. intros z Hz. lia.
    + rewrite H3, Ew. split; [lia|]. intros c Hc. rewrite (H4 c Hc). cbn. by rewrite decide_False.
Qed.

Lemma header_drag_follows_witness :
  st_colW (vt (header_drag ColProc 300 ([250; 280] ++ [310]) viewer_init)) ColProc = 170 /\
  forall c, c <> ColProc -> st_colW (vt (header_drag ColProc 300 ([250; 280] ++ [310]) viewer_init)) c = st_colW (vt viewer_init) c.
Proof.
  apply (header_drag_follows ColProc 300 [250; 280] 310 viewer_init); [vm_compute; discriminate|]. repeat constructor; vm_compute; discriminate.
Defined.

(** Beyond the smallest width the column no longer follows: after a drag to the left and back to
    where it began it is wider than before. *)
Example header_drag_drifts :
  st_colW (vt viewer_init) ColPid = 80 /\ st_colW (vt (header_drag ColPid 300 [200; 300] viewer_init)) ColPid = 160.
Proof. by vm_compute. Qed.
