(* ===== verification/HostRequests.v ===== *)
(** * HostRequests

    The other half of the host's bridge (src/extension/messaging/hostWebviewBridge.ts): the test
    of incoming messages, the handlers that are registered for their types, the requests of the
    host, which wait for an acknowledgement or an error of the web view, and the sampling of the
    bridge's own log.  [HostBridge.v] has the messages that the bridge answers itself. *)

From stdpp Require Import base list gmap strings.
From Stdlib Require Import ZArith Lia.
From S2P Require Import Prelude JsString Json UserData UiBridge.
#[local] Open Scope Z_scope.

(** ** Incoming messages *)

(** [validateIncoming]: the type and the message *)
Definition validateIncoming (raw : json) : option (str * json) :=
  match raw with
  | JObj _ | JArr _ =>
      match get_prop (js "v") raw, get_prop (js "type") raw with
      | Some (JNum 1), Some (JStr t) =>
          match get_prop (js "payload") raw with
          | None | Some JNull | Some (JObj _) | Some (JArr _) => Some (t, raw)
          | Some _ => None
          end
      | _, _ => None
      end
  | _ => None
  end.

(** The types that the bridge answers itself *)
Definition BUILTIN : list str :=
  map js ["viewer.ready"; "ui.log"; "logs.page.request"; "logs.filter.set"; "search.query"; "search.clear"; "prefs.load"; "prefs.save";
    "logs.search"; "logs.bookmarks.load"; "logs.bookmarks.save"; "logs.bookmarks.toggle"; "logs.bookmarks.clear"; "logs.follow";
    "logs.jump"; "logs.capacity"]%string.

Definition inReplyTo (msg : json) : option json := opt_prop (js "inReplyTo") (get_prop (js "payload") msg).

(** [payload?.inReplyTo === id] *)
Definition replies (msg : json) (id : str) : bool :=
  match inReplyTo msg with Some (JStr t) => bool_decide (t = id) | _ => false end.

(** ** Handlers *)

(** A handler of a client, and the two that a request registers *)
Inductive handler := UserH (k : Z) | AckH (id : str) | ErrH (id : str).

#[export] Instance handler_eq_dec : EqDecision handler.
Proof. solve_decision. Defined.

Inductive outcome := Resolved (payload : option json) | Rejected (payload : option json).

(** What a client's handler does: it ends, throws, or gives a promise that is rejected. *)
Inductive ending := Ends | ThrowsNow | RejectsLater.

Inductive posted := PostedRequest (id : str) | PostedError (reply : option json).

(** The registered handlers in the order of registration, with their types: the set of a type is
    the part of the list with that type.  [hs_settled] are the calls of resolve and reject. *)
Record hosts := MkHosts {
  hs_seq : Z;
  hs_handlers : list (str * handler);
  hs_settled : list (str * outcome);
  hs_posted : list posted }.

Definition hs_init : hosts := MkHosts 0 [] [] [].

(** [on] *)
Definition on (t : str) (h : handler) (s : hosts) : hosts :=
  if decide ((t, h) ∈ hs_handlers s) then s
  else MkHosts (hs_seq s) (hs_handlers s ++ [(t, h)]) (hs_settled s) (hs_posted s).

(** [dispose] of what [on] gives *)
Definition off (t : str) (h : handler) (s : hosts) : hosts :=
  MkHosts (hs_seq s) (filter (.≠ (t, h)) (hs_handlers s)) (hs_settled s) (hs_posted s).

Definition handlers_of (t : str) (s : hosts) : list handler := snd <$> filter (fun p => fst p = t) (hs_handlers s).

(** [cleanup(dAck, dErr)] and the settling of the promise *)
Definition settle_request (id : str) (o : outcome) (s : hosts) : hosts :=
  let s1 := off (js "error") (ErrH id) (off (js "ack") (AckH id) s) in
  MkHosts (hs_seq s1) (hs_handlers s1) (hs_settled s1 ++ [(id, o)]) (hs_posted s1).

(** [request] *)
Definition host_request (now : Z) (s : hosts) : hosts :=
  let seq := hs_seq s + 1 in
  let id := request_id now seq in
  let s1 := MkHosts seq (hs_handlers s) (hs_settled s) (hs_posted s) in
  let s2 := on (js "error") (ErrH id) (on (js "ack") (AckH id) s1) in
  MkHosts (hs_seq s2) (hs_handlers s2) (hs_settled s2) (hs_posted s2 ++ [PostedRequest id]).

Section deliver.
(** What the handlers of the clients do with a message *)
Context (user : Z -> json -> ending).

(** The handlers of a message, one after the other; [true] when one has failed.  One that throws
    ends the round. *)
Fixpoint run_handlers (hs : list handler) (msg : json) (s : hosts) : hosts * bool :=
  match hs with
  | [] => (s, false)
  | UserH k :: hs' =>
      match user k msg with
      | Ends => run_handlers hs' msg s
      | ThrowsNow => (s, true)
      | RejectsLater => ((run_handlers hs' msg s).1, true)
      end
  | AckH id :: hs' =>
      let s1 := if replies msg id then settle_request id (Resolved (get_prop (js "payload") msg)) s else s in
      run_handlers hs' msg s1
  | ErrH id :: hs' =>
      let s1 := if replies msg id then settle_request id (Rejected (get_prop (js "payload") msg)) s else s in
      run_handlers hs' msg s1
  end.

Definition post_error (reply : option json) (s : hosts) : hosts :=
  MkHosts (hs_seq s) (hs_handlers s) (hs_settled s) (hs_posted s ++ [PostedError reply]).

(** A message that the bridge does not answer itself *)
Definition incoming (raw : json) (s : hosts) : hosts :=
  match validateIncoming raw with
  | None => s
  | Some (t, msg) =>
      if decide (t ∈ BUILTIN) then s
      else let '(s1, failed) := run_handlers (handlers_of t s) msg s in
           if failed then post_error (get_prop (js "id") msg) s1 else s1
  end.

Inductive host_event :=
  | HRequest (now : Z)
  | HIncoming (raw : json)
  | HOn (t : str) (k : Z)
  | HOff (t : str) (k : Z)
  | HDispose.

Definition host_step (s : hosts) (e : host_event) : hosts :=
  match e with
  | HRequest now => host_request now s
  | HIncoming raw => incoming raw s
  | HOn t k => on t (UserH k) s
  | HOff t k => off t (UserH k) s
  | HDispose => MkHosts (hs_seq s) [] (hs_settled s) (hs_posted s)
  end.

Definition host_run (evs : list host_event) (s : hosts) : hosts := fold_left host_step evs s.
End deliver.

(** ** The sampling of the log *)

Record log_gate := MkGate { lg_lastTs : gmap str Z; lg_lastPayload : gmap str str }.

(** [shouldLog] *)
Definition shouldLog (key : str) (ms : Z) (payload : option str) (now : Z) (g : log_gate) : log_gate * bool :=
  let p := match payload with Some ((_ :: _) as p) => Some p | _ => None end in
  if match p with Some p => bool_decide (lg_lastPayload g !! key = Some p) | None => false end then (g, false)
  else if match lg_lastTs g !! key with Some last => now - last <? ms | None => false end then (g, false)
  else (MkGate (<[key := now]> (lg_lastTs g)) (match p with Some p => <[key := p]> (lg_lastPayload g) | None => lg_lastPayload g end), true).

(** ** Theorems *)

(** The request that a handler serves *)
Definition serves (h : handler) : option str := match h with AckH id | ErrH id => Some id | UserH _ => None end.

(** A request whose two handlers are registered *)
Definition waits (id : str) (s : hosts) : Prop :=
  (js "ack", AckH id) ∈ hs_handlers s /\ (js "error", ErrH id) ∈ hs_handlers s.

(** The handlers of requests come in pairs under their types, no request that waits is settled,
    none is settled twice, and the ids are those of the requests so far. *)
Record hosts_ok (s : hosts) : Prop := {
  ok_pairs : forall t h id, (t, h) ∈ hs_handlers s -> serves h = Some id -> waits id s /\ t = (match h with AckH _ => js "ack" | _ => js "error" end);
  ok_fresh : forall id, waits id s -> id ∉ (hs_settled s).*1;
  ok_nodup : NoDup (hs_handlers s);
  ok_once : NoDup (hs_settled s).*1;
  ok_seq : forall id, waits id s \/ id ∈ (hs_settled s).*1 -> exists now k, id = request_id now k /\ k <= hs_seq s }.

Lemma elem_off x t h s : x ∈ hs_handlers (off t h s) <-> x <> (t, h) /\ x ∈ hs_handlers s.
Proof. cbn. by rewrite list_elem_of_filter. Qed.

Lemma elem_on x t h s : x ∈ hs_handlers (on t h s) <-> x = (t, h) \/ x ∈ hs_handlers s.
Proof.
  unfold on. destruct (decide _) as [Hin|Hin]; cbn; [|rewrite elem_of_app, list_elem_of_singleton; tauto].
  split; [by right|]. intros [->|?]; done.
Qed.

Lemma on_nodup t h s : NoDup (hs_handlers s) -> NoDup (hs_handlers (on t h s)).
Proof.
  intros Hn. unfold on. destruct (decide _); [done|]. cbn. apply NoDup_app. split; [done|]. split; [|apply NoDup_singleton].
  intros x Hx Hin. apply list_elem_of_singleton in Hin as ->. done.
Qed.

Lemma elem_settle x id o s :
  x ∈ hs_handlers (settle_request id o s) <-> x <> (js "ack", AckH id) /\ x <> (js "error", ErrH id) /\ x ∈ hs_handlers s.
Proof. cbn. rewrite !list_elem_of_filter. tauto. Qed.

Lemma waits_settle id' id o s : waits id' (settle_request id o s) <-> id' <> id /\ waits id' s.
Proof.
  unfold waits. rewrite !elem_settle. split.
  - intros [(H1 & H2 & H3) (H4 & H5 & H6)]. split; [|done]. intros ->. done.
  - intros (Hne & H1 & H2). split_and!; try done; congruence.
Qed.

Lemma ok_settle id o s : hosts_ok s -> waits id s -> hosts_ok (settle_request id o s).
Proof.
  intros [H1 H2 H3 H4 H5] Hw. split.
  - intros t h id' Hin Hs. apply elem_settle in Hin as (Ha & He & Hin). destruct (H1 t h id' Hin Hs) as [Hw' ->]. split; [|done].
    apply waits_settle. split; [|done]. intros ->. destruct h as [|i|i]; cbn in Hs; [done| |]; injection Hs as ->; [by apply Ha|by apply He].
  - intros id' Hid'. apply waits_settle in Hid' as [Hne Hid']. cbn. rewrite fmap_app, elem_of_app. intros [Hin|Hin]; [by eapply H2|].
    apply list_elem_of_singleton in Hin. done.
  - cbn. by do 2 apply NoDup_filter.
  - cbn. rewrite fmap_app. apply NoDup_app. split; [done|]. split; [|apply NoDup_singleton].
    intros x Hx Hin. apply list_elem_of_singleton in Hin as ->. by apply (H2 id).
  - intros id' [Hid'|Hid'].
    + apply waits_settle in Hid' as [_ Hid']. apply H5. by left.
    + cbn in Hid'. rewrite fmap_app in Hid'. apply elem_of_app in Hid' as [Hid'|Hid']; [apply H5; by right|].
      apply list_elem_of_singleton in Hid' as ->. apply H5. by left.
Qed.

Lemma NoDup_omap_inj (l : list handler) :
  NoDup l -> (forall h1 h2 id, h1 ∈ l -> h2 ∈ l -> serves h1 = Some id -> serves h2 = Some id -> h1 = h2) -> NoDup (omap serves l).
Proof.
  induction 1 as [|h l Hh Hn IH]; intros Hi; [constructor|]. cbn. destruct (serves h) as [id|] eqn:E.
  - constructor; [|apply IH; intros; eapply Hi; eauto; by right]. intros Hin. apply list_elem_of_omap in Hin as (h' & Hin & Es).
    assert (h = h') as <- by (eapply Hi; eauto; [by left|by right]). done.
  - apply IH. intros; eapply Hi; eauto; by right.
Qed.

Lemma handlers_of_elem t h s : h ∈ handlers_of t s <-> (t, h) ∈ hs_handlers s.
Proof.
  unfold handlers_of. rewrite list_elem_of_fmap. split.
  - intros ([t' h'] & -> & Hin). apply list_elem_of_filter in Hin as [Ht Hin]. cbn in *. by subst t'.
  - intros Hin. exists (t, h). split; [done|]. by apply list_elem_of_filter.
Qed.

Lemma handlers_of_nodup t s : NoDup (hs_handlers s) -> NoDup (handlers_of t s).
Proof.
  intros Hn. unfold handlers_of. apply NoDup_fmap_2_strong; [|by apply NoDup_filter].
  intros [t1 h1] [t2 h2] H1 H2 E. apply list_elem_of_filter in H1 as [H1 _], H2 as [H2 _]. cbn in *. congruence.
Qed.

Lemma handlers_of_serves t s : hosts_ok s -> NoDup (omap serves (handlers_of t s)) /\ forall id, id ∈ omap serves (handlers_of t s) -> waits id s.
Proof.
  intros Hok. split.
  - apply NoDup_omap_inj; [by apply handlers_of_nodup, ok_nodup|]. intros h1 h2 id H1 H2 E1 E2. apply handlers_of_elem in H1, H2.
    destruct (ok_pairs _ Hok _ _ _ H1 E1) as [_ T1], (ok_pairs _ Hok _ _ _ H2 E2) as [_ T2].
    destruct h1, h2; cbn in E1, E2; try done; try congruence; by rewrite T1 in T2.
  - intros id Hid. apply list_elem_of_omap in Hid as (h & Hin & Es). apply handlers_of_elem in Hin. by apply (ok_pairs _ Hok _ _ _ Hin Es).
Qed.

Section deliver_theorems.
Context (user : Z -> json -> ending).

Lemma run_handlers_ok hs msg s :
  hosts_ok s -> NoDup (omap serves hs) -> (forall id, id ∈ omap serves hs -> waits id s) -> hosts_ok (run_handlers user hs msg s).1.
Proof.
  revert s. induction hs as [|h hs IH]; intros s Hok Hn Hw; [done|].
  assert (Hstep : forall id o, serves h = Some id -> hosts_ok (run_handlers user hs msg (if replies msg id then settle_request id o s else s)).1).
  { intros id o Es. cbn in Hn, Hw. rewrite Es in Hn, Hw. apply NoDup_cons in Hn as [Hni Hn]. destruct (replies msg id).
    - apply IH; [apply ok_settle; [done|apply Hw; by left]|done|]. intros id' Hid'. apply waits_settle. split; [by intros ->|].
      apply Hw. by right.
    - apply IH; [done|done|]. intros id' Hid'. apply Hw. by right. }
  destruct h as [k|id|id]; cbn; [|by apply Hstep|by apply Hstep].
  destruct (user k msg); [by apply IH|done|by apply IH].
Qed.

Lemma incoming_ok raw s : hosts_ok s -> hosts_ok (incoming user raw s).
Proof.
  intros Hok. unfold incoming. destruct (validateIncoming raw) as [[t msg]|]; [|done]. destruct (decide _); [done|].
  destruct (handlers_of_serves t s Hok) as [Hn Hw]. pose proof (run_handlers_ok (handlers_of t s) msg s Hok Hn Hw) as H.
  destruct (run_handlers _ _ _ _) as [s1 failed]. destruct failed; [|done]. destruct H as [H1 H2 H3 H4 H5]. by split.
Qed.

Lemma on_ok t h s : serves h = None -> hosts_ok s -> hosts_ok (on t h s).
Proof.
  intros Hs [H1 H2 H3 H4 H5]. assert (Hw : forall id, waits id (on t h s) <-> waits id s).
  { intros id. unfold waits. rewrite !elem_on. split; [|tauto]. intros [[E|?] [E'|?]]; simplify_eq; done. }
  assert (Es : hs_settled (on t h s) = hs_settled s /\ hs_seq (on t h s) = hs_seq s) by (unfold on; by destruct (decide _)). destruct Es as [Es1 Es2].
  split; rewrite ?Es1, ?Es2; try done.
  - intros t' h' id Hin Hs'. apply elem_on in Hin as [[= -> ->]|Hin]; [congruence|]. rewrite Hw. by apply (H1 t' h' id).
  - intros id Hid. apply H2. by apply Hw.
  - by apply on_nodup.
  - intros id Hid. apply H5. rewrite Hw in Hid. done.
Qed.

Lemma off_user_ok t k s : hosts_ok s -> hosts_ok (off t (UserH k) s).
Proof.
  intros [H1 H2 H3 H4 H5]. assert (Hw : forall id, waits id (off t (UserH k) s) <-> waits id s).
  { intros id. unfold waits. rewrite !elem_off. split; [tauto|]. intros [? ?]. by split_and!. }
  split; try done.
  - intros t' h' id Hin Hs'. apply elem_off in Hin as [_ Hin]. rewrite Hw. by apply (H1 t' h' id).
  - intros id Hid. apply H2. by apply Hw.
  - cbn. by apply NoDup_filter.
  - intros id Hid. apply H5. rewrite Hw in Hid. done.
Qed.

Lemma host_request_ok now s : hosts_ok s -> hosts_ok (host_request now s).
Proof.
  intros Hok. pose proof Hok as [H1 H2 H3 H4 H5]. set (id := request_id now (hs_seq s + 1)).
  assert (Hnew : ~ waits id s /\ id ∉ (hs_settled s).*1).
  { split; intros Hin; destruct (H5 id) as (n & k & E & Hk); [by left| |by right|]; apply request_id_inj in E; lia. }
  assert (Hnoh : forall t h, (t, h) ∈ hs_handlers s -> serves h <> Some id).
  { intros t h Hin Es. destruct (H1 t h id Hin Es) as [Hw _]. tauto. }
  assert (Hin : forall x, x ∈ hs_handlers (host_request now s) <-> x = (js "ack", AckH id) \/ x = (js "error", ErrH id) \/ x ∈ hs_handlers s).
  { intros x. unfold host_request. cbn [hs_handlers]. rewrite !elem_on. fold id. cbn [hs_handlers]. tauto. }
  assert (Hw : forall id', waits id' (host_request now s) <-> id' = id \/ waits id' s).
  { intros id'. unfold waits. rewrite !Hin. split.
    - intros [[E|[E|?]] [E'|[E'|?]]]; simplify_eq; tauto.
    - intros [->|[? ?]]; tauto. }
  assert (Hs : hs_settled (host_request now s) = hs_settled s /\ hs_seq (host_request now s) = hs_seq s + 1).
  { unfold host_request, on. cbn. by repeat case_decide. }
  destruct Hs as [Hs1 Hs2]. split; rewrite ?Hs1, ?Hs2.
  - intros t h id' Hh Es. apply Hin in Hh as [[= -> ->]|[[= -> ->]|Hh]]; rewrite Hw; cbn in Es; simplify_eq; [tauto|tauto|].
    destruct (H1 t h id' Hh Es). tauto.
  - intros id' Hid'. apply Hw in Hid' as [->|Hid']; [tauto|by apply H2].
  - cbn [host_request hs_handlers]. by do 2 apply on_nodup.
  - done.
  - intros id' Hid'. assert (id' = id \/ (waits id' s \/ id' ∈ (hs_settled s).*1)) as [->|Ho] by (rewrite Hw in Hid'; tauto).
    + exists now, (hs_seq s + 1). split; [done|lia].
    + destruct (H5 id' Ho) as (n & k & E & Hk). exists n, k. split; [done|lia].
Qed.

Lemma ok_no_handlers s :
  NoDup (hs_settled s).*1 -> (forall id, id ∈ (hs_settled s).*1 -> exists now k, id = request_id now k /\ k <= hs_seq s) ->
  hosts_ok (MkHosts (hs_seq s) [] (hs_settled s) (hs_posted s)).
Proof.
  intros Hn Hs. assert (Hw : forall id, ~ waits id (MkHosts (hs_seq s) [] (hs_settled s) (hs_posted s))).
  { intros id [Hw _]. by apply not_elem_of_nil in Hw. }
  split; cbn.
  - intros t h id Hin. by apply not_elem_of_nil in Hin.
  - intros id Hid. by apply Hw in Hid.
  - apply NoDup_nil_2.
  - done.
  - intros id [Hid|Hid]; [by apply Hw in Hid|by apply Hs].
Qed.

Lemma host_run_ok evs : hosts_ok (host_run user evs hs_init).
Proof.
  unfold host_run. pose proof (ok_no_handlers hs_init (NoDup_nil_2) (fun id H => False_ind _ (not_elem_of_nil id H))) as H0.
  change (MkHosts _ _ _ _) with hs_init in H0. revert H0. generalize hs_init.
  induction evs as [|e evs IH]; intros s Hs; [done|]. cbn [fold_left]. apply IH. destruct e; cbn.
  - by apply host_request_ok.
  - by apply incoming_ok.
  - by apply on_ok.
  - by apply off_user_ok.
  - apply ok_no_handlers; [by apply ok_once|]. intros id Hid. apply (ok_seq _ Hs). by right.
Qed.

(** Whatever messages come, whatever the handlers of clients do: the promise of a request of the
    host is settled at most once, its two handlers are registered until then and not longer. *)
Theorem host_requests_settled_once evs :
  let s := host_run user evs hs_init in
  NoDup (hs_settled s).*1 /\
  (forall t h id, (t, h) ∈ hs_handlers s -> serves h = Some id -> waits id s /\ id ∉ (hs_settled s).*1).
Proof.
  pose proof (host_run_ok evs) as H.
  intros s. split; [by apply ok_once|]. intros t h id Hin Hs. destruct (ok_pairs _ H t h id Hin Hs) as [Hw _]. split; [done|]. by apply (ok_fresh _ H).
Qed.

Lemma answers_not_builtin : js "ack" ∉ BUILTIN /\ js "error" ∉ BUILTIN.
Proof. split; apply (bool_decide_unpack _); vm_compute; exact I. Qed.

Lemma replies_one msg id id' : replies msg id = true -> replies msg id' = bool_decide (id = id').
Proof.
  unfold replies. destruct (inReplyTo msg) as [[| | |t| |]|]; try done. rewrite bool_decide_eq_true. by intros ->.
Qed.

Lemma run_without hs msg id s :
  replies msg id = true -> id ∉ omap serves hs -> hs_settled (run_handlers user hs msg s).1 = hs_settled s.
Proof.
  intros Hr. revert s. induction hs as [|h hs IH]; intros s Hn; [done|]. destruct h as [k|i|i]; cbn in Hn |- *.
  - destruct (user k msg); [by apply IH|done|by apply IH].
  - rewrite (replies_one msg id i Hr). apply not_elem_of_cons in Hn as [Hne Hn]. rewrite bool_decide_false by done. by apply IH.
  - rewrite (replies_one msg id i Hr). apply not_elem_of_cons in Hn as [Hne Hn]. rewrite bool_decide_false by done. by apply IH.
Qed.

Definition answer (h : handler) (payload : option json) : outcome := match h with AckH _ => Resolved payload | _ => Rejected payload end.

Lemma run_settles hs msg h id s :
  replies msg id = true -> (forall k, user k msg <> ThrowsNow) -> h ∈ hs -> serves h = Some id -> NoDup (omap serves hs) ->
  hs_settled (run_handlers user hs msg s).1 = hs_settled s ++ [(id, answer h (get_prop (js "payload") msg))].
Proof.
  intros Hr Hu. revert s. induction hs as [|h' hs IH]; intros s Hin Hs Hn; [by apply not_elem_of_nil in Hin|].
  apply elem_of_cons in Hin as [<-|Hin].
  - cbn in Hn. rewrite Hs in Hn. apply NoDup_cons in Hn as [Hni _].
    destruct h as [k|i|i]; cbn in Hs; [done| |]; injection Hs as ->; cbn; rewrite Hr; by rewrite (run_without hs msg id).
  - destruct h' as [k|i|i]; cbn in Hn |- *.
    + pose proof (Hu k). destruct (user k msg); [by apply IH|done|by apply IH].
    + apply NoDup_cons in Hn as [Hni Hn]. rewrite (replies_one msg id i Hr). rewrite bool_decide_false; [by apply IH|].
      intros ->. apply Hni. apply list_elem_of_omap. by exists h.
    + apply NoDup_cons in Hn as [Hni Hn]. rewrite (replies_one msg id i Hr). rewrite bool_decide_false; [by apply IH|].
      intros ->. apply Hni. apply list_elem_of_omap. by exists h.
Qed.

(** The answer to a request that waits settles it, with the payload of the answer, and nothing
    else: an acknowledgement resolves it and an error rejects it, unless a client's handler of
    that type throws first. *)
Theorem answer_settles evs raw t msg h id :
  let s := host_run user evs hs_init in
  waits id s -> serves h = Some id -> t = (match h with AckH _ => js "ack" | _ => js "error" end) ->
  validateIncoming raw = Some (t, msg) -> replies msg id = true -> (forall k, user k msg <> ThrowsNow) ->
  hs_settled (incoming user raw s) = hs_settled s ++ [(id, answer h (get_prop (js "payload") msg))].
Proof.
  intros s [Ha He] Hs Ht Hv Hr Hu. unfold incoming. rewrite Hv.
  assert (Hin : h ∈ handlers_of t s).
  { apply handlers_of_elem. rewrite Ht. destruct h; cbn in Hs; [done| |]; by injection Hs as ->. }
  rewrite decide_False; [|rewrite Ht; destruct answers_not_builtin; by destruct h].
  destruct (handlers_of_serves t s (host_run_ok evs)) as [Hn _].
  pose proof (run_settles (handlers_of t s) msg h id s Hr Hu Hin Hs Hn) as H. destruct (run_handlers _ _ _ _) as [s1 failed]. by destruct failed.
Qed.
End deliver_theorems.

Definition demo_ack : json :=
  JObj [(js "v", JNum 1); (js "type", JStr (js "ack")); (js "payload", JObj [(js "inReplyTo", JStr (request_id 5 1))])].

Lemma answer_settles_witness :
  hs_settled (incoming (fun _ _ => Ends) demo_ack (host_run (fun _ _ => Ends) [HOn (js "ack") 1; HRequest 5; HRequest 6] hs_init)) =
    [(request_id 5 1, Resolved (Some (JObj [(js "inReplyTo", JStr (request_id 5 1))])))].
Proof.
  refine (answer_settles (fun _ _ => Ends) [HOn (js "ack") 1; HRequest 5; HRequest 6] demo_ack (js "ack") demo_ack (AckH (request_id 5 1))
    (request_id 5 1) _ _ _ _ _ _); [|reflexivity|reflexivity|reflexivity|by vm_compute|discriminate].
  split; apply (bool_decide_unpack _); vm_compute; exact I.
Defined.

(** A request has no timer: without an answer, and after the bridge was disposed of even with one,
    its promise stays open. *)
Example disposed_request_never_settles :
  hs_settled (host_run (fun _ _ => Ends) [HRequest 5; HDispose; HIncoming demo_ack] hs_init) = [].
Proof. by vm_compute. Qed.

(** A client's handler of acknowledgements that throws, registered earlier, takes the answer of a
    request away. *)
Example throwing_handler_loses_answer :
  let s := host_run (fun _ _ => ThrowsNow) [HOn (js "ack") 1; HRequest 5; HIncoming demo_ack] hs_init in
  hs_settled s = [] /\ hs_posted s = [PostedRequest (request_id 5 1); PostedError None].
Proof. by vm_compute. Qed.

(** Two lines of one kind in the bridge's log are at least the given time apart, and not the same
    one after the other. *)
Theorem log_lines_apart key ms p1 p2 t1 t2 g g1 g2 :
  shouldLog key ms p1 t1 g = (g1, true) -> shouldLog key ms p2 t2 g1 = (g2, true) ->
  t1 + ms <= t2 /\ (p1 = p2 -> p1 = None \/ p1 = Some []).
Proof.
  unfold shouldLog. intros H1 H2. destruct (match match p1 with Some ((_ :: _) as p) => Some p | _ => None end with Some _ => _ | None => _ end) eqn:E1; [done|].
  destruct (match lg_lastTs g !! key with Some _ => _ | None => _ end); [done|]. injection H1 as <-. cbn [lg_lastTs lg_lastPayload] in H2.
  rewrite lookup_insert_eq in H2. destruct (match match p2 with Some ((_ :: _) as p) => Some p | _ => None end with Some _ => _ | None => _ end) eqn:E2; [done|].
  destruct (Z.ltb_spec (t2 - t1) ms); [done|]. split; [lia|]. intros <-. destruct p1 as [[|c p]|]; [by right| |by left].
  rewrite lookup_insert_eq, bool_decide_true in E2 by done. done.
Qed.

Lemma log_lines_apart_witness :
  exists g1 g2, shouldLog (js "k") 300 (Some (js "a")) 1000 (MkGate ∅ ∅) = (g1, true) /\
    shouldLog (js "k") 300 (Some (js "b")) 1300 g1 = (g2, true) /\ 1000 + 300 <= 1300.
Proof.
  eexists _, _. split; [reflexivity|]. split; [reflexivity|].
  refine (proj1 (log_lines_apart (js "k") 300 (Some (js "a")) (Some (js "b")) 1000 1300 (MkGate ∅ ∅) _ _ _ _)); reflexivity.
Defined.
