(* ===== verification/TransferFlow.v ===== *)
(** * TransferFlow

    A whole transfer over ssh (src/core/transfer/FileTransferService.ts uploadViaTarBase64 and
    downloadViaTarBase64, src/core/controller/HostController.ts pullFile, pullDir, pushFile and
    pushDir): temporary directories, the programs that are run on either side, errors and clean
    up.  [Transfer.v] has the lists of entries and the commands; what the programs and the
    connection do are arguments. *)

From stdpp Require Import base list gmap strings.
From Stdlib Require Import ZArith Lia.
From S2P Require Import Prelude JsString Shell Paths LineReaders Device Connection Transfer.
#[local] Open Scope Z_scope.

(** The files of the local machine by their paths *)
Abbreviation files := (gmap str (list Z)).

Definition below (d p : str) : bool := starts_with (d ++ [47]) p.

(** [fsp.rm(d, {recursive: true, force: true})] *)
Definition rm_rf (d : str) (f : files) : files := filter (fun kv => below d kv.1 = false) f.

(** What an archive puts below a directory *)
Definition extract_into (d : str) (l : list (str * list Z)) (f : files) : files :=
  fold_left (fun f x => <[d ++ [47] ++ x.1 := x.2]> f) l f.

Section flow.
(** [stream] runs a command on the device and gives its lines; [remote] runs one and gives the
    exit code; either throws when the connection fails.  [tar_run] is the local tar that makes an
    archive of entries of a directory: it throws when it cannot be run, and otherwise leaves an
    archive or none; [untar_run] is the local tar that unpacks. *)
Context (stream : str -> js_result (list str)) (remote : str -> js_result (option Z)).
Context (tar_run : str -> list str -> files -> js_result (option (list Z))).
Context (untar_run : list Z -> js_result (list (str * list Z))).

(** [downloadViaTarBase64] over ssh; [tmp] is what [mkdtemp] gives. *)
Definition downloadViaTarBase64 (tmp : js_result str) (remoteDir localDir : str) (paths : list str) (f : files) : files * js_result unit :=
  match buildRemoteTarList paths with
  | Throws => (f, Throws)
  | Ok safeList =>
      match stream (ft_wrap false (download_text remoteDir safeList)) with
      | Throws => (f, Throws)
      | Ok lines =>
          match download_archive lines with
          | None => (f, Ok tt)
          | Some archive =>
              match tmp with
              | Throws => (f, Throws)
              | Ok t =>
                  let f1 := <[t ++ js "/payload.tar" := archive]> f in
                  match untar_run archive with
                  | Throws => (rm_rf t f1, Throws)
                  | Ok l => (rm_rf t (extract_into localDir l f1), Ok tt)
                  end
              end
          end
      end
  end.

(** The remote runs of an upload: the commands that were sent, up to one that throws.  The exit
    codes are not looked at. *)
Fixpoint send_commands (cs : list up_command) : list up_command * js_result unit :=
  match cs with
  | [] => ([], Ok tt)
  | c :: cs' =>
      match remote (ft_wrap false (up_text c)) with
      | Throws => ([c], Throws)
      | Ok _ => let '(sent, r) := send_commands cs' in (c :: sent, r)
      end
  end.

(** [uploadViaTarBase64] over ssh *)
Definition uploadViaTarBase64 (tmp : js_result str) (now : Z) (localDir remoteDir : str) (paths : list str) (f : files)
    : files * list up_command * js_result unit :=
  match buildLocalTarList localDir paths with
  | Throws => (f, [], Throws)
  | Ok safeList =>
      match tmp with
      | Throws => (f, [], Throws)
      | Ok t =>
          match tar_run localDir safeList f with
          | Throws => (rm_rf t f, [], Throws)
          | Ok None => (rm_rf t f, [], Throws)
          | Ok (Some archive) =>
              let f1 := <[t ++ js "/payload.tar" := archive]> f in
              let '(sent, r) := send_commands (upload_commands remoteDir now archive) in (rm_rf t f1, sent, r)
          end
      end
  end.

(** [pullFile]: [tmp] is its own temporary directory, [tmp2] that of the download *)
Definition pullFile (tmp tmp2 : js_result str) (absHost localFs : str) (f : files) : files * js_result unit :=
  match tmp with
  | Throws => (f, Throws)
  | Ok t =>
      let '(f1, r) := downloadViaTarBase64 tmp2 (posix_dirname absHost) t [posix_basename absHost] f in
      match r with
      | Throws => (rm_rf t f1, Throws)
      | Ok _ =>
          match f1 !! (t ++ [47] ++ posix_basename absHost) with
          | None => (rm_rf t f1, Throws)
          | Some buf => (rm_rf t (<[localFs := buf]> f1), Ok tt)
          end
      end
  end.

Definition pullDir (tmp : js_result str) (absHostDir localDir : str) (f : files) : files * js_result unit :=
  downloadViaTarBase64 tmp absHostDir localDir [] f.

Definition pushFile (tmp : js_result str) (now : Z) (localFs absHost : str) (f : files) : files * list up_command * js_result unit :=
  uploadViaTarBase64 tmp now (posix_dirname localFs) (posix_dirname absHost) [posix_basename absHost] f.

Definition pushDir (tmp : js_result str) (now : Z) (localDir absHostDir : str) (f : files) : files * list up_command * js_result unit :=
  uploadViaTarBase64 tmp now localDir absHostDir [] f.
End flow.

(** ** Theorems *)

Lemma rm_rf_lookup d f p : rm_rf d f !! p = if below d p then None else f !! p.
Proof.
  unfold rm_rf. destruct (below d p) eqn:E.
  - apply map_lookup_filter_None. right. intros x _. cbn. by rewrite E.
  - destruct (f !! p) as [x|] eqn:Ef.
    + apply map_lookup_filter_Some. by split.
    + apply map_lookup_filter_None. by left.
Qed.

Lemma below_join d x : below d (d ++ [47] ++ x) = true.
Proof. unfold below. apply starts_with_spec. exists x. by rewrite <- app_assoc. Qed.

(** A directory that [mkdtemp] has just made *)
Definition fresh_dir (d : str) (f : files) : Prop := forall p, below d p = true -> f !! p = None.

Lemma rm_fresh d f : fresh_dir d f -> rm_rf d f = f.
Proof. intros Hd. apply map_eq. intros p. rewrite rm_rf_lookup. destruct (below d p) eqn:E; [by rewrite Hd|done]. Qed.

Lemma rm_insert d x v f : rm_rf d (<[d ++ [47] ++ x := v]> f) = rm_rf d f.
Proof.
  apply map_eq. intros p. rewrite !rm_rf_lookup. destruct (below d p) eqn:E; [done|]. rewrite lookup_insert_ne; [done|].
  intros <-. by rewrite below_join in E.
Qed.

Section flow_theorems.
Context (stream : str -> js_result (list str)) (remote : str -> js_result (option Z)).
Context (tar_run : str -> list str -> files -> js_result (option (list Z))).
Context (untar_run : list Z -> js_result (list (str * list Z))).

Lemma send_all cs : (forall c, remote c <> Throws) -> send_commands remote cs = (cs, Ok tt).
Proof. intros H. induction cs as [|c cs IH]; [done|]. cbn. pose proof (H (ft_wrap false (up_text c))). destruct (remote _); [|done]. by rewrite IH. Qed.

Lemma send_prefix cs : exists rest, cs = (send_commands remote cs).1 ++ rest /\ ((send_commands remote cs).2 = Ok tt -> rest = []).
Proof.
  induction cs as [|c cs IH]; [by exists []|]. cbn. destruct (remote _); [|exists cs; done]. destruct IH as (rest & E & Hr).
  destruct (send_commands remote cs) as [sent r]. cbn in *. exists rest. split; [by rewrite E at 1|done].
Qed.

#[local] Ltac nothing_sent := split; [reflexivity|split; [left; reflexivity|discriminate]].

(** An upload leaves the local files as they were, whatever fails; what it has sent is a beginning
    of the commands for the archive, and all of them when it says that it has succeeded. *)
Theorem upload_leaves_nothing tmp now localDir remoteDir paths f :
  (forall t, tmp = Ok t -> fresh_dir t f) ->
  let '(f', sent, r) := uploadViaTarBase64 remote tar_run tmp now localDir remoteDir paths f in
  f' = f /\
  (sent = [] \/ exists archive rest, upload_commands remoteDir now archive = sent ++ rest) /\
  (r = Ok tt -> exists safeList archive, buildLocalTarList localDir paths = Ok safeList /\
     tar_run localDir safeList f = Ok (Some archive) /\ sent = upload_commands remoteDir now archive).
Proof.
  intros Ht. unfold uploadViaTarBase64. destruct (buildLocalTarList localDir paths) as [safe|]; [|nothing_sent].
  destruct tmp as [t|]; [|nothing_sent]. specialize (Ht t eq_refl).
  destruct (tar_run localDir safe f) as [[archive|]|] eqn:Et; [|rewrite rm_fresh by exact Ht; nothing_sent..].
  destruct (send_prefix (upload_commands remoteDir now archive)) as (rest & E & Hr).
  destruct (send_commands remote _) as [sent r]. cbn [fst snd] in E, Hr.
  change (t ++ js "/payload.tar") with (t ++ [47] ++ js "payload.tar"). rewrite rm_insert, rm_fresh by exact Ht. split; [reflexivity|]. split.
  - right. exists archive, rest. exact E.
  - intros ->. exists safe, archive. split; [reflexivity|]. split; [exact Et|]. rewrite E, (Hr eq_refl). symmetry. apply app_nil_r.
Qed.

(** The exit codes of the device do not count: as long as the connection holds, an upload says that
    it has succeeded, even if every command has failed. *)
Theorem upload_ignores_exit_codes t now localDir remoteDir paths f safeList archive :
  (forall c, remote c <> Throws) -> buildLocalTarList localDir paths = Ok safeList -> tar_run localDir safeList f = Ok (Some archive) ->
  (uploadViaTarBase64 remote tar_run (Ok t) now localDir remoteDir paths f).2 = Ok tt.
Proof. intros Hr Hl Ht. unfold uploadViaTarBase64. rewrite Hl, Ht, send_all by exact Hr. reflexivity. Qed.

Lemma remote_one x : name_segment x -> trim x = x -> buildRemoteTarList [x] = Ok [x].
Proof.
  intros ((Hn & Hd & Hdd) & Hs & Hb) Ht. unfold buildRemoteTarList. cbn [remote_entries]. rewrite Ht. destruct x as [|c x]; [done|].
  cbn [nonempty]. assert (E1 : toPosix (c :: x) = c :: x).
  { unfold toPosix, replace_all. clear -Hb. induction Hb as [|d l Hd _ IH]; [done|]. cbn. destruct (Z.eqb_spec d 92); [done|]. cbn. by f_equal. }
  rewrite E1. assert (E2 : drop_slashes (c :: x) = c :: x).
  { apply drop_while_head. inversion Hs; subst. unfold is_slash. by apply Z.eqb_neq. }
  rewrite E2. assert (E3 : strip_one_dot_slash (c :: x) = c :: x).
  { unfold strip_one_dot_slash. destruct (starts_with (js "./") (c :: x)) eqn:E; [|done]. apply starts_with_spec in E as (t & E).
    rewrite E in Hs. inversion_clear Hs as [|? ? _ Hs']. by inversion Hs'. }
  rewrite E3, split_on_none by done. cbn [remote_segments nonempty negb orb]. rewrite !bool_decide_false by done.
  change (join [47] [c :: x]) with (c :: x). unfold add_new. rewrite decide_False by apply not_elem_of_nil. cbn [app tar_entries].
  by rewrite decide_False by (rewrite list_elem_of_singleton; congruence).
Qed.

(** A file of the device that is pulled arrives as it is: the device prints the archive of the one
    entry in base64, in lines that the connection may cut anywhere, and the local tar unpacks that
    entry.  Both temporary directories are gone, and no other file has changed. *)
Theorem pull_file_exact f t t2 absHost localFs content archive ls chunks :
  let base := posix_basename absHost in
  name_segment base -> trim base = base ->
  fresh_dir t f -> fresh_dir t2 f -> below t localFs = false -> below t2 (t ++ [47] ++ base) = false ->
  stream (ft_wrap false (download_text (posix_dirname absHost) [base])) = Ok (sshStream chunks) ->
  chunks ≫= utf8_decode = lines_text ls -> Forall word ls -> mjoin ls = b64_encode archive -> bytes archive -> archive <> [] ->
  untar_run archive = Ok [(base, content)] ->
  pullFile stream untar_run (Ok t) (Ok t2) absHost localFs f = (<[localFs := content]> f, Ok tt).
Proof.
  intros base Hb Htr Hf Hf2 Hl Hne Hs Hc Hw Hj Hby Hn Hu. unfold pullFile, downloadViaTarBase64. fold base. rewrite (remote_one base Hb Htr), Hs.
  destruct (download_exact chunks ls archive Hc Hw Hj Hby Hn) as [Hd _]. rewrite Hd, Hu. cbn [extract_into fold_left fst snd].
  change (t2 ++ js "/payload.tar") with (t2 ++ [47] ++ js "payload.tar").
  rewrite rm_rf_lookup, Hne, lookup_insert_eq. f_equal.
  apply map_eq. intros p. rewrite rm_rf_lookup. destruct (below t p) eqn:Ep.
  - rewrite lookup_insert_ne by congruence. by rewrite Hf.
  - destruct (decide (p = localFs)) as [->|Hp]; [by rewrite !lookup_insert_eq|]. rewrite !(lookup_insert_ne _ localFs p) by congruence.
    rewrite rm_rf_lookup. destruct (below t2 p) eqn:Ep2; [by rewrite Hf2|].
    rewrite lookup_insert_ne by (intros <-; by rewrite below_join in Ep). rewrite lookup_insert_ne; [done|]. intros <-. by rewrite below_join in Ep2.
Qed.

(** An archive that is empty is no error of the download, but the pull of a file then fails, and
    nothing is written. *)
Theorem pull_empty_fails f t t2 absHost localFs lines :
  buildRemoteTarList [posix_basename absHost] = Ok [posix_basename absHost] -> fresh_dir t f ->
  stream (ft_wrap false (download_text (posix_dirname absHost) [posix_basename absHost])) = Ok lines -> Forall (fun l => trim l = []) lines ->
  pullFile stream untar_run (Ok t) t2 absHost localFs f = (f, Throws).
Proof.
  intros Hb Hf Hs Hl. unfold pullFile, downloadViaTarBase64. rewrite Hb, Hs.
  assert (E : download_archive lines = None).
  { unfold download_archive. assert (E : List.filter nonempty (map trim lines) = []); [|by rewrite E].
    clear Hs. induction Hl as [|l ls H _ IH]; [done|]. cbn [map List.filter]. rewrite H. exact IH. }
  rewrite E, Hf by apply below_join. by rewrite rm_fresh.
Qed.
End flow_theorems.

(** A device with one file, whose archive is made of three units, and a local tar that undoes it *)
Definition demo_stream (_ : str) : js_result (list str) := Ok (sshStream [b64_encode [7; 8; 9]; [10]]).
Definition demo_untar (a : list Z) : js_result (list (str * list Z)) := Ok [(js "config.json", a)].

Lemma pull_file_exact_witness :
  pullFile demo_stream demo_untar (Ok (js "/tmp/a")) (Ok (js "/tmp/b")) (js "/etc/homey/config.json") (js "/w/config.json") ∅ =
    (<[js "/w/config.json" := [7; 8; 9]]> ∅, Ok tt).
Proof.
  apply (pull_file_exact demo_stream demo_untar ∅ (js "/tmp/a") (js "/tmp/b") (js "/etc/homey/config.json") (js "/w/config.json") [7; 8; 9] [7; 8; 9]
    [b64_encode [7; 8; 9]] [b64_encode [7; 8; 9]; [10]]); try reflexivity; try discriminate.
  - repeat constructor; discriminate.
  - intros p _. apply lookup_empty.
  - intros p _. apply lookup_empty.
  - repeat constructor; discriminate.
  - repeat constructor; discriminate.
Defined.

Lemma upload_leaves_nothing_witness :
  let '(f', sent, r) := uploadViaTarBase64 (fun _ => Ok (Some 1)) (fun _ _ _ => Ok (Some [1; 2; 3])) (Ok (js "/tmp/a")) 5 (js "/w") (js "/d") [] ∅ in
  f' = ∅ /\ (sent = [] \/ exists archive rest, upload_commands (js "/d") 5 archive = sent ++ rest) /\
  (r = Ok tt -> exists safeList archive, buildLocalTarList (js "/w") [] = Ok safeList /\
     (fun _ _ _ => Ok (Some [1; 2; 3])) (js "/w") safeList (∅ : files) = Ok (Some archive) /\ sent = upload_commands (js "/d") 5 archive).
Proof.
  apply (upload_leaves_nothing (fun _ => Ok (Some 1)) (fun _ _ _ => Ok (Some [1; 2; 3])) (Ok (js "/tmp/a")) 5 (js "/w") (js "/d") [] ∅).
  intros t _ p _. apply lookup_empty.
Defined.

Lemma upload_ignores_exit_codes_witness :
  (uploadViaTarBase64 (fun _ => Ok (Some 1)) (fun _ _ _ => Ok (Some [1; 2; 3])) (Ok (js "/tmp/a")) 5 (js "/w") (js "/d") [] ∅).2 = Ok tt.
Proof.
  apply (upload_ignores_exit_codes (fun _ => Ok (Some 1)) (fun _ _ _ => Ok (Some [1; 2; 3])) (js "/tmp/a") 5 (js "/w") (js "/d") [] ∅ [js "."] [1; 2; 3]);
    [discriminate|reflexivity|reflexivity].
Defined.

Lemma pull_empty_fails_witness :
  pullFile (fun _ => Ok [[32]]) demo_untar (Ok (js "/tmp/a")) (Ok (js "/tmp/b")) (js "/etc/none") (js "/w/none") ∅ = (∅, Throws).
Proof.
  apply (pull_empty_fails (fun _ => Ok [[32]]) demo_untar ∅ (js "/tmp/a") (Ok (js "/tmp/b")) (js "/etc/none") (js "/w/none") [[32]]);
    [by vm_compute|intros p _; apply lookup_empty|reflexivity|by repeat constructor].
Defined.
