(* ===== verification/ExplorerStatus.v ===== *)
(** * ExplorerStatus

    The git status of the explorer (src/extension/panels/explorerBridge.ts: handleGitEvent,
    scheduleGitStatus, postGitStatus, refreshWorkspaceRoot, ensureWorkspaceScaffoldAndCommit):
    the timer that gathers the changes of a burst, and the reads of the status, which end in any
    order.  [Explorer.v] has the rest of the bridge, [Git.v] the status itself. *)

From stdpp Require Import base list.
From Stdlib Require Import ZArith Lia Sorted.
From S2P Require Import Prelude.
#[local] Open Scope Z_scope.

Definition GIT_DELAY : Z := 150.

(** A read of the status sees the repository as it is when it starts; [st_version] counts the
    changes of it. *)
Record status_state := MkStatus {
  st_version : Z;
  st_due : option Z;              (* when the timer fires *)
  st_reading : list Z;            (* what the reads under way have seen *)
  st_posted : list (option Z);    (* the statuses posted, [None] for an error *)
  st_root : nat }.                (* how often the change of the root was posted *)

Definition status_init : status_state := MkStatus 0 None [] [] 0.

(** The start of [postGitStatus] *)
Definition postGitStatus (s : status_state) : status_state :=
  MkStatus (st_version s) (st_due s) (st_reading s ++ [st_version s]) (st_posted s) (st_root s).

Inductive status_event :=
  | GChange (now : Z)               (* the repository changes, and the watcher says so *)
  | GTimer (now : Z)                (* time goes by *)
  | GReadDone (i : nat) (ok : bool) (* a read ends *)
  | GRootChanged.                   (* the end of [refreshWorkspaceRoot], after its read *)

Definition status_step (s : status_state) (e : status_event) : status_state :=
  match e with
  | GChange now => MkStatus (st_version s + 1) (Some (now + GIT_DELAY)) (st_reading s) (st_posted s) (st_root s)
  | GTimer now =>
      match st_due s with
      | Some due => if due <=? now then postGitStatus (MkStatus (st_version s) None (st_reading s) (st_posted s) (st_root s)) else s
      | None => s
      end
  | GReadDone i ok =>
      match st_reading s !! i with
      | Some v => MkStatus (st_version s) (st_due s) (delete i (st_reading s)) (st_posted s ++ [if ok then Some v else None]) (st_root s)
      | None => s
      end
  | GRootChanged => MkStatus (st_version s) (st_due s) (st_reading s) (st_posted s) (S (st_root s))
  end.

Definition status_run (evs : list status_event) (s : status_state) : status_state := fold_left status_step evs s.

(** [refreshWorkspaceRoot]: the status is read and posted before the root is said to have
    changed. *)
Definition refreshWorkspaceRoot (ok : bool) (s : status_state) : status_state :=
  let s1 := postGitStatus s in
  status_run [GReadDone (length (st_reading s)) ok; GRootChanged] s1.

(** ** Theorems *)

(** A burst of changes, less than the delay apart, with the time going by in between *)
Definition burst (ts : list Z) : list status_event := flat_map (fun t => [GTimer t; GChange t]) ts.

Fixpoint close_together (t : Z) (ts : list Z) : Prop :=
  match ts with [] => True | u :: ts' => t <= u < t + GIT_DELAY /\ close_together u ts' end.

(** The time of the last change *)
Fixpoint latest (t : Z) (ts : list Z) : Z := match ts with [] => t | u :: ts' => latest u ts' end.

Lemma burst_waits t ts s :
  st_due s = Some (t + GIT_DELAY) -> close_together t ts ->
  let s' := status_run (burst ts) s in
  st_due s' = Some (latest t ts + GIT_DELAY) /\ st_version s' = st_version s + Z.of_nat (length ts) /\
  st_reading s' = st_reading s /\ st_posted s' = st_posted s.
Proof.
  revert t s. induction ts as [|u ts IH]; intros t s Hd Hc.
  - cbn. split_and!; try done. lia.
  - destruct Hc as [Hu Hc].
    assert (E : status_run (burst (u :: ts)) s = status_run (burst ts) (status_step s (GChange u))).
    { cbn. rewrite Hd. destruct (Z.leb_spec (t + GIT_DELAY) u); [lia|done]. }
    cbn zeta. rewrite E. destruct (IH u (status_step s (GChange u)) eq_refl Hc) as (H1 & H2 & H3 & H4).
    rewrite H1, H2, H3, H4.
    cbn. split_and!; try done. lia.
Qed.

(** A burst of changes is read once: 150 milliseconds after its last change, with all of the
    changes seen; nothing is read before. *)
Theorem burst_read_once t ts s now :
  st_due s = None -> close_together t ts -> latest t ts + GIT_DELAY <= now ->
  let s1 := status_run (burst (t :: ts)) s in
  let s2 := status_step s1 (GTimer now) in
  st_reading s1 = st_reading s /\
  st_reading s2 = st_reading s ++ [st_version s + 1 + Z.of_nat (length ts)] /\ st_version s2 = st_version s + 1 + Z.of_nat (length ts) /\ st_due s2 = None.
Proof.
  intros Hd Hc Hn. cbn zeta.
  assert (E : status_run (burst (t :: ts)) s = status_run (burst ts) (status_step s (GChange t))) by (cbn; by rewrite Hd).
  rewrite E. destruct (burst_waits t ts (status_step s (GChange t)) eq_refl Hc) as (H1 & H2 & H3 & _).
  revert H1 H2 H3. generalize (status_run (burst ts) (status_step s (GChange t))). intros s1 H1 H2 H3.
  split; [by rewrite H3|]. cbn [status_step]. rewrite H1. destruct (Z.leb_spec (latest t ts + GIT_DELAY) now); [|lia].
  cbn [postGitStatus st_reading st_version st_due]. rewrite H2, H3. done.
Qed.

Lemma burst_read_once_witness :
  st_reading (status_step (status_run (burst [1000; 1100; 1200]) status_init) (GTimer 1350)) = [3].
Proof.
  refine (proj1 (proj2 (burst_read_once 1000 [1100; 1200] status_init 1350 eq_refl _ _))); [cbn; unfold GIT_DELAY; lia|cbn; unfold GIT_DELAY; lia].
Defined.

(** A refresh of the root posts the status of now, and then the change of the root. *)
Theorem refresh_posts_current ok s :
  let s' := refreshWorkspaceRoot ok s in
  st_posted s' = st_posted s ++ [if ok then Some (st_version s) else None] /\ st_root s' = S (st_root s) /\ st_reading s' = st_reading s.
Proof.
  unfold refreshWorkspaceRoot. cbn. rewrite list_lookup_middle by done. cbn. split_and!; try done.
  rewrite delete_middle. apply app_nil_r.
Qed.

(** Two reads that overlap may end in the other order: the status of the older state is then the
    one that stays on the screen. *)
Example older_status_wins :
  st_posted (status_run [GChange 0; GTimer 150; GChange 200; GTimer 350; GReadDone 1 true; GReadDone 0 true] status_init) = [Some 2; Some 1].
Proof. reflexivity. Qed.
