(* ===== verification/Shared.v ===== *)
(** * Shared

    Small parts that the others use: the store of the edge panel
    (src/webviewers/edge-panel/app/store.ts), the logger and the measuring wrapper of the web
    views (src/webviewers/shared/utils.ts), the console logger
    (src/core/logging/console-logger.ts) and the two modes (src/shared/env.ts,
    src/core/logging/test-mode.ts). *)

From stdpp Require Import base list gmap strings.
From Stdlib Require Import ZArith QArith Lia.
From S2P Require Import Prelude JsString.
#[local] Open Scope Z_scope.

(** ** The store *)

Section store.
Context {State Action : Type} (reduce : State -> Action -> State).

(** The state, the listeners in the order of subscription, and what each of them was told *)
Record store := MkStore { so_state : State; so_listeners : list Z; so_told : list (Z * State * Action) }.

Definition createStore (initial : State) : store := MkStore initial [] [].

(** [dispatch]: the listeners see the new state *)
Definition dispatch (a : Action) (s : store) : store :=
  let st := reduce (so_state s) a in
  MkStore st (so_listeners s) (so_told s ++ map (fun l => (l, st, a)) (so_listeners s)).

(** [subscribe], a set, and what it gives *)
Definition subscribe (l : Z) (s : store) : store :=
  MkStore (so_state s) (if decide (l ∈ so_listeners s) then so_listeners s else so_listeners s ++ [l]) (so_told s).
Definition unsubscribe (l : Z) (s : store) : store :=
  MkStore (so_state s) (filter (.≠ l) (so_listeners s)) (so_told s).

Inductive store_op := Dispatch (a : Action) | Subscribe (l : Z) | Unsubscribe (l : Z).

Definition store_do (s : store) (o : store_op) : store :=
  match o with Dispatch a => dispatch a s | Subscribe l => subscribe l s | Unsubscribe l => unsubscribe l s end.
End store.

(** ** The web views *)

Inductive level := Debug_ | Info_ | Warn_ | Error_.

(** [createUiLog]: a message to the host, or a line of the console when posting throws *)
Inductive ui_line := Posted (lv : level) (text source : str) | Console (lv : level) (tag text : str).

Definition ui_log (posts : bool) (source : str) (lv : level) (text : str) : ui_line :=
  if posts then Posted lv text source else Console lv (js "[ui.log:" ++ source ++ [93]) text.

(** [createUiMeasure]: the options with their defaults, the counter, and the calls posted *)
Record ui_measure := MkUiMeasure { um_enabled : bool; um_minMs : Q; um_sampleEvery : Z; um_counter : Z; um_posted : list (str * Q) }.

Definition createUiMeasure (enabled : option bool) (minMs : option Q) (sampleEvery : option Z) : ui_measure :=
  let m := or_else minMs 0%Q in
  MkUiMeasure (or_else enabled false) (if Qle_bool 0 m then m else 0%Q) (Z.max 1 (or_else sampleEvery 1)) 0 [].

(** A call that took [dt] *)
Definition measureUi (name : str) (dt : Q) (u : ui_measure) : ui_measure :=
  if um_enabled u && Qle_bool (um_minMs u) dt then
    let c := um_counter u + 1 in
    MkUiMeasure (um_enabled u) (um_minMs u) (um_sampleEvery u) c
      (if c mod um_sampleEvery u =? 0 then um_posted u ++ [(name, dt)] else um_posted u)
  else u.

Definition measure_all (calls : list (str * Q)) (u : ui_measure) : ui_measure := fold_left (fun u c => measureUi c.1 c.2 u) calls u.

(** ** The console logger *)

Definition levelRank (lv : level) : Z := match lv with Debug_ => 10 | Info_ => 20 | Warn_ => 30 | Error_ => 40 end.

(** [levelRank[currentLevel]] for the text of a level *)
Definition rank_of (t : str) : option Z :=
  if bool_decide (t = js "debug") then Some 10
  else if bool_decide (t = js "info") then Some 20
  else if bool_decide (t = js "warn") then Some 30
  else if bool_decide (t = js "error") then Some 40 else None.

(** A comparison with undefined is false. *)
Definition level_enabled (currentLevel : str) (lv : level) : bool :=
  match rank_of currentLevel with Some r => r <=? levelRank lv | None => false end.

(** Whether a call of the logger writes a line: to a file in tests, otherwise to the console, where
    only the level debug is tested. *)
Definition console_writes (isTest : bool) (currentLevel : str) (lv : level) : bool :=
  if isTest then level_enabled currentLevel lv
  else match lv with Debug_ => level_enabled currentLevel Debug_ | _ => true end.

(** ** Modes *)

(** [IS_ESD]: what webpack defines, else what the environment says, else no *)
Definition IS_ESD (define : option bool) (env : option (option str * option str)) : bool :=
  match define with
  | Some b => b
  | None =>
      match env with
      | Some (extMode, nodeEnv) => bool_decide (extMode = Some (js "esd")) || bool_decide (nodeEnv = Some (js "development"))
      | None => false
      end
  end.

Definition IS_PROD define env : bool := negb (IS_ESD define env).

(** [isTestMode] *)
Definition isTestMode (lifecycle toConsole nodeEnv vitest jestWorker : option str) : bool :=
  if bool_decide (toConsole = Some (js "1")) then true
  else bool_decide (ascii_lower (or_else lifecycle []) = js "test") || bool_decide (nodeEnv = Some (js "test")) ||
       nonempty (or_else vitest []) || nonempty (or_else jestWorker []).

(** ** Theorems *)

Section store_theorems.
Context {State Action : Type} (reduce : State -> Action -> State).

Definition actions_of (os : list (store_op (Action := Action))) : list Action :=
  os ≫= fun o => match o with Dispatch a => [a] | _ => [] end.

(** The state is that of the actions, in their order, whoever subscribes meanwhile; a listener
    that stays subscribed is told every action once, in order, with the state after it. *)
Theorem store_state os s : so_state (fold_left (store_do reduce) os s) = fold_left reduce (actions_of os) (so_state s).
Proof. revert s. induction os as [|o os IH]; intros s; [done|]. cbn [fold_left]. rewrite IH. by destruct o. Qed.

Fixpoint states_after (st : State) (acts : list Action) : list (State * Action) :=
  match acts with [] => [] | a :: acts' => (reduce st a, a) :: states_after (reduce st a) acts' end.

Definition told_to (l : Z) (s : store) : list (State * Action) :=
  map (fun x => (x.1.2, x.2)) (List.filter (fun x : Z * State * Action => x.1.1 =? l) (so_told s)).

Lemma told_once l st (a : Action) ls :
  NoDup ls -> l ∈ ls ->
  map (fun x : Z * State * Action => (x.1.2, x.2)) (List.filter (fun x => x.1.1 =? l) (map (fun k => (k, st, a)) ls)) = [(st, a)].
Proof.
  induction 1 as [|k ls Hk Hn IH]; intros Hl; [by apply not_elem_of_nil in Hl|]. cbn. destruct (Z.eqb_spec k l) as [->|Hne].
  - cbn. f_equal. clear IH Hn Hl. induction ls as [|j ls IH]; [done|]. apply not_elem_of_cons in Hk as [Hj Hk]. cbn.
    destruct (Z.eqb_spec j l); [congruence|]. by apply IH.
  - apply elem_of_cons in Hl as [->|Hl]; [done|]. by apply IH.
Qed.

Theorem listener_told os l s :
  NoDup (so_listeners s) -> l ∈ so_listeners s -> Forall (fun o => o <> Unsubscribe l) os ->
  told_to l (fold_left (store_do reduce) os s) = told_to l s ++ states_after (so_state s) (actions_of os).
Proof.
  revert s. induction os as [|o os IH]; intros s Hn Hl Ho; [by rewrite app_nil_r|]. inversion_clear Ho as [|? ? Ho1 Ho2].
  cbn [fold_left]. destruct o as [a|k|k].
  - rewrite IH by done. unfold told_to at 1. cbn. rewrite List.filter_app, map_app, told_once by done. by rewrite <- app_assoc.
  - rewrite IH; [done| |cbn|done].
    + cbn. destruct (decide (k ∈ so_listeners s)); [done|]. apply NoDup_app. split; [done|]. split; [|apply NoDup_singleton].
      intros x Hx Hin. apply list_elem_of_singleton in Hin as ->. done.
    + destruct (decide (k ∈ so_listeners s)); [done|]. apply elem_of_app. by left.
  - rewrite IH; [done|by apply NoDup_filter| |done]. apply list_elem_of_filter. split; [|done]. intros ->. by apply Ho1.
Qed.
End store_theorems.

Lemma listener_told_witness :
  told_to 1 (fold_left (store_do Z.add) [Dispatch 5; Subscribe 2; Dispatch 7; Unsubscribe 2] (subscribe 1 (createStore 0))) = [(5, 5); (12, 7)].
Proof.
  refine (listener_told Z.add [Dispatch 5; Subscribe 2; Dispatch 7; Unsubscribe 2] 1 (subscribe 1 (createStore 0)) _ _ _).
  - apply NoDup_singleton.
  - by apply list_elem_of_singleton.
  - repeat constructor; discriminate.
Defined.

(** The calls that are slow enough to count *)
Definition slow_calls (u : ui_measure) (calls : list (str * Q)) : list (str * Q) := List.filter (fun c => Qle_bool (um_minMs u) c.2) calls.

(** Of the slow calls every [sampleEvery]-th is posted, and nothing when measuring is off. *)
Theorem sampled_posts calls u :
  0 < um_sampleEvery u -> 0 <= um_counter u ->
  zlen (um_posted (measure_all calls u)) =
    zlen (um_posted u) + (if um_enabled u then (um_counter u + zlen (slow_calls u calls)) / um_sampleEvery u - um_counter u / um_sampleEvery u else 0).
Proof.
  revert u. induction calls as [|[name dt] calls IH]; intros u Hk Hc.
  - cbn. unfold zlen at 3. cbn. rewrite Z.add_0_r. destruct (um_enabled u); lia.
  - cbn [measure_all fold_left]. change (fold_left _ calls ?v) with (measure_all calls v). unfold measureUi, slow_calls. cbn [fst snd List.filter].
    destruct (um_enabled u) eqn:Ee; cbn [andb].
    2:{ rewrite IH by done. by rewrite Ee. }
    destruct (Qle_bool (um_minMs u) dt) eqn:Em.
    2:{ rewrite IH by done. by rewrite Ee. }
    rewrite IH by (cbn; lia). unfold slow_calls. cbn [um_enabled um_minMs um_sampleEvery um_counter um_posted].
    set (n := zlen (List.filter _ calls)). set (k := um_sampleEvery u) in *. set (c := um_counter u) in *.
    replace (zlen (_ :: _)) with (n + 1) by (unfold n, zlen; cbn [length]; lia). replace (c + (n + 1)) with (c + 1 + n) by lia.
    assert (Hd : (c + 1) / k = c / k + (if (c + 1) mod k =? 0 then 1 else 0)).
    { destruct (Z.eqb_spec ((c + 1) mod k) 0) as [E|E]; pose proof (Z.div_mod (c + 1) k); pose proof (Z.div_mod c k);
        pose proof (Z.mod_pos_bound c k); pose proof (Z.mod_pos_bound (c + 1) k); nia. }
    rewrite Hd. destruct ((c + 1) mod k =? 0); [|lia]. unfold zlen. rewrite length_app. cbn [length]. lia.
Qed.

Lemma sampled_posts_witness :
  zlen (um_posted (measure_all (replicate 7 (js "f", 5%Q)) (createUiMeasure (Some true) (Some 2%Q) (Some 3)))) = 2.
Proof. rewrite (sampled_posts (replicate 7 (js "f", 5%Q)) (createUiMeasure (Some true) (Some 2%Q) (Some 3))); [reflexivity|reflexivity|discriminate]. Defined.

(** By default the web views measure nothing. *)
Theorem default_measures_nothing calls minMs every : um_posted (measure_all calls (createUiMeasure None minMs every)) = [].
Proof.
  assert (H : forall u, um_enabled u = false -> measure_all calls u = u); [|by rewrite H].
  induction calls as [|c calls IH]; intros u Hu; [done|]. cbn [measure_all fold_left]. unfold measureUi. rewrite Hu. by apply IH.
Qed.

(** In tests a level that is no level turns the log off, while outside them it turns off the level
    debug only; a known level is respected in tests and, apart from debug, not outside them. *)
Theorem console_levels isTest current lv :
  console_writes isTest current lv =
    match rank_of current with
    | None => negb isTest && negb (bool_decide (levelRank lv = 10))
    | Some r => (r <=? levelRank lv) || (negb isTest && negb (bool_decide (levelRank lv = 10)))
    end.
Proof.
  unfold console_writes, level_enabled. destruct isTest, lv, (rank_of current) as [r|]; cbn; try done; by rewrite ?orb_false_r, ?orb_true_r.
Qed.
