(* ===== verification/PanelLayout.v ===== *)
(** * PanelLayout

    The frame of the edge panel (src/webviewers/edge-panel/views/AppView.ts): the buttons, which
    parts are visible and in which order, the rows of the content, the height of the controls,
    and what is saved of them.  Heights that the browser measures are arguments; fractions are
    exact.  [EdgeLayout.v] has the splitters. *)

From stdpp Require Import base list strings.
From Stdlib Require Import ZArith QArith Qround Qminmax Lqa Lia.
From S2P Require Import Prelude JsString EdgeLayout.
Import Splitter.
#[local] Open Scope Q_scope.

(** ** The buttons *)

Record shown_button := MkShown { sb_id : str; sb_text : str; sb_title : str; sb_disabled : bool; sb_on : bool }.

(** [b.title = it.desc || it.label] *)
Definition title_of (desc : option str) (label : str) : str := match desc with Some ((_ :: _) as d) => d | _ => label end.

(** One item of a section with its identifier, label, description and state *)
Definition render_button (showLogs showExplorer : bool) (id label : str) (desc : option str) (disabled : bool) : shown_button :=
  MkShown id label (title_of desc label) disabled
    ((bool_decide (id = js "panel.toggleLogs") && showLogs) || (bool_decide (id = js "panel.toggleExplorer") && showExplorer)).

(** ** The content *)

(** The children of the content element *)
Inductive child := CExplorer | CSplitter | CLogs | COther (n : Z).

#[export] Instance child_eq_dec : EqDecision child.
Proof. solve_decision. Defined.

Fixpoint nextSibling (x : child) (l : list child) : option child :=
  match l with
  | [] => None
  | y :: l' => if decide (y = x) then head l' else nextSibling x l'
  end.

(** [insertBefore(x, y)]: [x] is taken from its place. *)
Fixpoint insert_at (x y : child) (l : list child) : list child :=
  match l with
  | [] => []
  | z :: l' => if decide (z = y) then x :: z :: l' else z :: insert_at x y l'
  end.
Definition insertBefore (x y : child) (l : list child) : list child := insert_at x y (filter (.≠ x) l).

Record frame := MkFrame {
  fr_showExplorer : bool;            (* the classes of the root *)
  fr_showLogs : bool;
  fr_children : list child;
  fr_explorerShown : bool;           (* what is displayed *)
  fr_logsShown : bool;
  fr_splitterShown : bool;
  fr_bound : bool;                   (* contentSplitterBound *)
  fr_bindings : nat;                 (* how often the splitter was bound *)
  fr_rows : option (Q * Q);          (* gridTemplateRows *)
  fr_lastBottom : option Q;
  fr_saved : option (option Q);      (* splitterPosition of __edgePanelState *)
  fr_ctrl : Q;                       (* --ctrl-h *)
  fr_userAdjusted : bool }.

(** What is measured: the content, the splitter, the explorer and the log, the content of the
    controls and the window *)
Record sizes := MkSizes { sz_content : Q; sz_splitter : Q; sz_explorer : Q; sz_logs : Q; sz_sections : Q; sz_window : Q }.

Definition usable (z : sizes) : Q := usable_of (sz_content z) (sz_splitter z).

(** [setContentRows] without a commit *)
Definition setContentRows (topPx bottomPx : Q) (f : frame) : frame :=
  MkFrame (fr_showExplorer f) (fr_showLogs f) (fr_children f) (fr_explorerShown f) (fr_logsShown f) (fr_splitterShown f) (fr_bound f)
    (fr_bindings f) (Some (row_px topPx, row_px bottomPx)) (Some (row_px bottomPx)) (fr_saved f) (fr_ctrl f) (fr_userAdjusted f).

(** [reflowAfterCtrlMove(false)] *)
Definition reflowAfterCtrlMove (z : sizes) (f : frame) : frame :=
  if bool_decide (CLogs ∈ fr_children f) && (fr_showExplorer f && fr_showLogs f) then
    let desired := match fr_lastBottom f with Some b => b | None => sz_logs z end in
    let r := reflow (usable z) desired in setContentRows (fst r) (snd r) f
  else f.

(** [ensureCtrlContentFit] *)
Definition ensureCtrlContentFit (z : sizes) (f : frame) : frame :=
  if fr_userAdjusted f then f
  else MkFrame (fr_showExplorer f) (fr_showLogs f) (fr_children f) (fr_explorerShown f) (fr_logsShown f) (fr_splitterShown f) (fr_bound f)
    (fr_bindings f) (fr_rows f) (fr_lastBottom f) (fr_saved f) (Qmin (sz_sections z + 32) (floor (sz_window z * (1 # 2)))) false.

(** The log element is made when it is to be shown for the first time. *)
Definition ensure_logs (showLogs : bool) (l : list child) : list child :=
  if showLogs && negb (bool_decide (CLogs ∈ l)) then l ++ [CLogs] else l.

(** The order of the three parts *)
Definition fix_order (l : list child) : list child :=
  if bool_decide (CLogs ∈ l) then
    let l1 := if bool_decide (nextSibling CSplitter l = Some CLogs) then l else insertBefore CSplitter CLogs l in
    if bool_decide (nextSibling CExplorer l1 = Some CSplitter) then l1 else insertBefore CExplorer CSplitter l1
  else l.

(** The first time both parts are shown: the splitter is bound and the rows are set, from the
    position that was saved in this window, or from the sizes. *)
Definition bind_once (z : sizes) (f : frame) : frame :=
  if fr_showExplorer f && fr_showLogs f && negb (fr_bound f) then
    let f1 := MkFrame (fr_showExplorer f) (fr_showLogs f) (fr_children f) (fr_explorerShown f) (fr_logsShown f) (fr_splitterShown f) true
                (S (fr_bindings f)) (fr_rows f) (fr_lastBottom f) (fr_saved f) (fr_ctrl f) (fr_userAdjusted f) in
    match fr_saved f with
    | Some (Some ratio) =>
        let u := sz_content z - sz_splitter z in
        let topPx := Qmax 0 (u * ratio) in setContentRows topPx (Qmax 0 (u - topPx)) f1
    | _ =>
        if Qlt_le_dec (sz_explorer z + sz_logs z) 8 then
          let half := floor (usable z / 2) in setContentRows (Qmax MIN_TOP half) (Qmax MIN_BOTTOM (usable z - half)) f1
        else setContentRows (sz_explorer z) (sz_logs z) f1
    end
  else f.

(** [applyLayout] *)
Definition applyLayout (showExplorer showLogs : bool) (z : sizes) (f : frame) : frame :=
  let children := fix_order (ensure_logs showLogs (fr_children f)) in
  let logs := bool_decide (CLogs ∈ children) in
  let f1 := MkFrame showExplorer showLogs children showExplorer (if logs then showLogs else fr_logsShown f) (showExplorer && showLogs)
              (fr_bound f) (fr_bindings f) (fr_rows f) (fr_lastBottom f) (fr_saved f) (fr_ctrl f) (fr_userAdjusted f) in
  let f2 := bind_once z f1 in
  let f3 := if showExplorer && showLogs then f2
            else MkFrame (fr_showExplorer f2) (fr_showLogs f2) (fr_children f2) (fr_explorerShown f2) (fr_logsShown f2) (fr_splitterShown f2)
                   (fr_bound f2) (fr_bindings f2) None (fr_lastBottom f2) (fr_saved f2) (fr_ctrl f2) (fr_userAdjusted f2) in
  reflowAfterCtrlMove z (ensureCtrlContentFit z f3).

(** [getSplitterPosition] *)
Definition getSplitterPosition (z : sizes) (f : frame) : option Q :=
  if bool_decide (CExplorer ∈ fr_children f) && bool_decide (CLogs ∈ fr_children f) then
    if Qlt_le_dec 0 (sz_explorer z + sz_logs z) then Some (sz_explorer z / (sz_explorer z + sz_logs z)) else None
  else None.

(** The state that is saved, and [savePanelState] with it *)
Record panel_state := MkPanelState { ps_showExplorer : bool; ps_showLogs : bool; ps_controlHeight : Q; ps_splitterPosition : option Q }.

Definition savePanelState (z : sizes) (f : frame) : frame * panel_state :=
  let p := getSplitterPosition z f in
  (MkFrame (fr_showExplorer f) (fr_showLogs f) (fr_children f) (fr_explorerShown f) (fr_logsShown f) (fr_splitterShown f) (fr_bound f)
     (fr_bindings f) (fr_rows f) (fr_lastBottom f) (Some p) (fr_ctrl f) (fr_userAdjusted f),
   MkPanelState (fr_showExplorer f) (fr_showLogs f) (fr_ctrl f) p).

(** A move of the upper splitter that is committed; [z'] are the sizes after it.  Where the rows are
    set as well, the same state is saved before. *)
Definition ctrl_move (dy : Q) (z z' : sizes) (f : frame) : frame * panel_state :=
  let f1 := MkFrame (fr_showExplorer f) (fr_showLogs f) (fr_children f) (fr_explorerShown f) (fr_logsShown f) (fr_splitterShown f) (fr_bound f)
              (fr_bindings f) (fr_rows f) (fr_lastBottom f) (fr_saved f) (ctrl_height (sz_window z) (fr_ctrl f) dy) true in
  savePanelState z' (reflowAfterCtrlMove z f1).

(** The frame of a new window *)
Definition frame_init : frame := MkFrame false false [CExplorer; CSplitter] true true true false 0 None None None 0 false.

Inductive frame_event :=
  | FLayout (showExplorer showLogs : bool) (z : sizes)
  | FResize (z : sizes)
  | FCtrl (dy : Q) (z z' : sizes)
  | FSave (z : sizes).

Definition frame_step (f : frame) (e : frame_event) : frame :=
  match e with
  | FLayout a b z => applyLayout a b z f
  | FResize z => reflowAfterCtrlMove z (ensureCtrlContentFit z f)
  | FCtrl dy z z' => (ctrl_move dy z z' f).1
  | FSave z => (savePanelState z f).1
  end.

Definition frame_run (evs : list frame_event) (f : frame) : frame := fold_left frame_step evs f.

(** ** Theorems *)

Lemma next_spec x y l : nextSibling x l = Some y -> exists a b, l = a ++ x :: y :: b.
Proof.
  induction l as [|z l IH]; [done|]. cbn. destruct (decide (z = x)) as [->|Hz].
  - destruct l as [|w l]; [done|]. intros [= ->]. by exists [], l.
  - intros H. destruct (IH H) as (a & b & ->). by exists (z :: a), b.
Qed.

Lemma insert_at_spec x y a b : y ∉ a -> insert_at x y (a ++ y :: b) = a ++ x :: y :: b.
Proof.
  induction a as [|z a IH]; intros Hy; cbn; [by rewrite decide_True|]. apply not_elem_of_cons in Hy as [Hz Ha].
  rewrite decide_False by done. by rewrite IH.
Qed.

Lemma insertBefore_spec x y a b :
  x <> y -> NoDup (a ++ y :: b) -> insertBefore x y (a ++ y :: b) = filter (.≠ x) a ++ x :: y :: filter (.≠ x) b.
Proof.
  intros Hxy Hn. unfold insertBefore. rewrite filter_app, filter_cons_True by done. apply insert_at_spec.
  intros Hin. apply list_elem_of_filter in Hin as [_ Hin]. apply NoDup_app in Hn as (_ & Hn & _). apply (Hn y Hin). by left.
Qed.

Lemma nodup_split (x : child) a b a' b' : NoDup (a ++ x :: b) -> a ++ x :: b = a' ++ x :: b' -> b = b'.
Proof.
  revert a'. induction a as [|z a IH]; intros a' Hn E.
  - destruct a' as [|w a']; cbn in E; simplify_eq; [done|]. apply NoDup_cons in Hn as [Hn _]. exfalso. apply Hn.
    apply elem_of_app. right. by left.
  - destruct a' as [|w a']; cbn in E; simplify_eq.
    + apply NoDup_cons in Hn as [Hn _]. exfalso. apply Hn. apply elem_of_app. right. by left.
    + apply NoDup_cons in Hn as [_ Hn]. by eapply IH.
Qed.

Lemma insertBefore_nodup x y a b : x <> y -> NoDup (a ++ y :: b) -> NoDup (insertBefore x y (a ++ y :: b)).
Proof.
  intros Hxy Hn. rewrite insertBefore_spec by done.
  assert (Hf : NoDup (filter (.≠ x) (a ++ y :: b))) by (by apply NoDup_filter). rewrite filter_app, filter_cons_True in Hf by done.
  rewrite <- Permutation_middle. apply NoDup_cons. split; [|done]. intros Hin. apply elem_of_app in Hin as [Hin|Hin].
  - by apply list_elem_of_filter in Hin as [? _].
  - apply elem_of_cons in Hin as [?|Hin]; [done|]. by apply list_elem_of_filter in Hin as [? _].
Qed.

(** Wherever the browser has put them, after a layout with a log the explorer, the splitter and the
    log follow one another. *)
Theorem parts_in_order l :
  NoDup l -> CExplorer ∈ l -> CSplitter ∈ l -> CLogs ∈ l -> exists a b, fix_order l = a ++ [CExplorer; CSplitter; CLogs] ++ b.
Proof.
  intros Hn He Hs Hl. unfold fix_order. rewrite bool_decide_true by done.
  set (l1 := if bool_decide _ then l else _).
  assert (H1 : exists a b, l1 = a ++ CSplitter :: CLogs :: b /\ NoDup l1).
  { unfold l1. case_bool_decide as Hb.
    - destruct (next_spec _ _ _ Hb) as (a & b & E). exists a, b. by split.
    - apply list_elem_of_split in Hl as (a & b & ->). eexists _, _. split; [by apply insertBefore_spec|by apply insertBefore_nodup]. }
  destruct H1 as (a & b & E1 & Hn1). rewrite E1 in *. case_bool_decide as Hb.
  - destruct (next_spec _ _ _ Hb) as (a' & b' & E). exists a', b. rewrite E. f_equal. cbn.
    replace (a' ++ CExplorer :: CSplitter :: b') with ((a' ++ [CExplorer]) ++ CSplitter :: b') in E by (by rewrite <- app_assoc).
    by rewrite (nodup_split CSplitter a (CLogs :: b) (a' ++ [CExplorer]) b' Hn1 E).
  - rewrite insertBefore_spec by done. rewrite filter_cons_True by done. by eexists _, _.
Qed.

Lemma parts_in_order_witness :
  exists a b, fix_order [COther 1; CLogs; CSplitter; COther 2; CExplorer] = a ++ [CExplorer; CSplitter; CLogs] ++ b.
Proof.
  apply (parts_in_order [COther 1; CLogs; CSplitter; COther 2; CExplorer]); apply (bool_decide_unpack _); vm_compute; exact I.
Defined.

Lemma insert_at_elem x y z l : z ∈ l -> z ∈ insert_at x y l.
Proof.
  induction l as [|w l IH]; intros Hz; [done|]. cbn. destruct (decide (w = y)) as [->|]; [by right|].
  apply elem_of_cons in Hz as [->|Hz]; [by left|]. right. by apply IH.
Qed.

Lemma insertBefore_elem x y z l : z <> x -> z ∈ l -> z ∈ insertBefore x y l.
Proof. intros Hne Hz. apply insert_at_elem. by apply list_elem_of_filter. Qed.

Lemma fix_order_logs l : CLogs ∈ l -> CLogs ∈ fix_order l.
Proof.
  intros Hl. unfold fix_order. rewrite bool_decide_true by done.
  assert (H : CLogs ∈ (if bool_decide (nextSibling CSplitter l = Some CLogs) then l else insertBefore CSplitter CLogs l))
    by (case_bool_decide; [done|by apply insertBefore_elem]).
  revert H. generalize (if bool_decide (nextSibling CSplitter l = Some CLogs) then l else insertBefore CSplitter CLogs l).
  intros l1 H. case_bool_decide; [done|by apply insertBefore_elem].
Qed.

Lemma ensure_logs_elem l : CLogs ∈ ensure_logs true l.
Proof. unfold ensure_logs. case_bool_decide; cbn; [done|]. apply elem_of_app. right. by apply list_elem_of_singleton. Qed.

Lemma layout_has_logs l : CLogs ∈ fix_order (ensure_logs true l).
Proof. apply fix_order_logs, ensure_logs_elem. Qed.

Lemma row_px_int x n : x == inject_Z n -> (0 <= n)%Z -> row_px x = inject_Z n.
Proof.
  intros E Hn. unfold row_px, floor. assert (Ef : Qfloor x = n) by (rewrite E; apply Qfloor_Z). rewrite Ef. unfold Qmax, GenericMinMax.gmax.
  destruct (0 ?= inject_Z n) eqn:Ec; [|done|].
  { apply Qeq_alt in Ec. unfold Qeq in Ec. cbn in Ec. by replace n with 0%Z by lia. }
  exfalso. apply Qgt_alt in Ec. unfold Qlt in Ec. cbn in Ec. lia.
Qed.

Lemma row_px_nat x : exists n, row_px x = inject_Z n /\ (0 <= n)%Z.
Proof.
  unfold row_px, floor, Qmax, GenericMinMax.gmax. destruct (0 ?= inject_Z (Qfloor x)) eqn:E.
  - by exists 0%Z.
  - exists (Qfloor x). split; [done|]. apply Qlt_alt in E. unfold Qlt in E. cbn in E. lia.
  - by exists 0%Z.
Qed.

Lemma row_px_idem x : row_px (row_px x) = row_px x.
Proof. destruct (row_px_nat x) as (n & -> & Hn). by apply row_px_int. Qed.

(** The fields that the rows and the heights leave alone *)
Definition same_parts (f f' : frame) : Prop :=
  fr_showExplorer f' = fr_showExplorer f /\ fr_showLogs f' = fr_showLogs f /\ fr_children f' = fr_children f /\
  fr_explorerShown f' = fr_explorerShown f /\ fr_logsShown f' = fr_logsShown f /\ fr_splitterShown f' = fr_splitterShown f.

Lemma bind_parts z f : same_parts f (bind_once z f).
Proof.
  unfold bind_once. destruct (fr_showExplorer f && fr_showLogs f && negb (fr_bound f)); [|done].
  destruct (fr_saved f) as [[r|]|]; [done| |]; by destruct (Qlt_le_dec _ 8).
Qed.

Lemma fit_parts z f :
  same_parts f (ensureCtrlContentFit z f) /\ fr_rows (ensureCtrlContentFit z f) = fr_rows f /\
  fr_lastBottom (ensureCtrlContentFit z f) = fr_lastBottom f.
Proof. unfold ensureCtrlContentFit. by destruct (fr_userAdjusted f). Qed.

Lemma reflow_parts z f : same_parts f (reflowAfterCtrlMove z f).
Proof. unfold reflowAfterCtrlMove. by destruct (bool_decide _ && (fr_showExplorer f && fr_showLogs f)). Qed.

Lemma reflow_rows z f :
  fr_showExplorer f = true -> fr_showLogs f = true -> CLogs ∈ fr_children f ->
  let r := reflow (usable z) (or_else (fr_lastBottom f) (sz_logs z)) in
  fr_rows (reflowAfterCtrlMove z f) = Some (row_px (fst r), row_px (snd r)).
Proof. intros H2 H3 H4. unfold reflowAfterCtrlMove. by rewrite bool_decide_true, H2, H3. Qed.

Lemma reflow_not_both z f : fr_showExplorer f && fr_showLogs f = false -> reflowAfterCtrlMove z f = f.
Proof. intros H. unfold reflowAfterCtrlMove. by rewrite H, andb_false_r. Qed.

(** The frame at the end of a layout, before the controls and the rows are fitted *)
Definition laid_out (a b : bool) (z : sizes) (f : frame) : frame :=
  let children := fix_order (ensure_logs b (fr_children f)) in
  let f2 := bind_once z (MkFrame a b children a (if bool_decide (CLogs ∈ children) then b else fr_logsShown f) (a && b)
              (fr_bound f) (fr_bindings f) (fr_rows f) (fr_lastBottom f) (fr_saved f) (fr_ctrl f) (fr_userAdjusted f)) in
  if a && b then f2
  else MkFrame (fr_showExplorer f2) (fr_showLogs f2) (fr_children f2) (fr_explorerShown f2) (fr_logsShown f2) (fr_splitterShown f2)
         (fr_bound f2) (fr_bindings f2) None (fr_lastBottom f2) (fr_saved f2) (fr_ctrl f2) (fr_userAdjusted f2).

Lemma applyLayout_eq a b z f : applyLayout a b z f = reflowAfterCtrlMove z (ensureCtrlContentFit z (laid_out a b z f)).
Proof. done. Qed.

Lemma laid_out_parts a b z f :
  let children := fix_order (ensure_logs b (fr_children f)) in
  same_parts (MkFrame a b children a (if bool_decide (CLogs ∈ children) then b else fr_logsShown f) (a && b)
              (fr_bound f) (fr_bindings f) (fr_rows f) (fr_lastBottom f) (fr_saved f) (fr_ctrl f) (fr_userAdjusted f)) (laid_out a b z f).
Proof. cbn zeta. unfold laid_out. set (f1 := MkFrame a b _ _ _ _ _ _ _ _ _ _ _). pose proof (bind_parts z f1) as H. case (a && b); exact H. Qed.

Lemma same_trans f g h : same_parts f g -> same_parts g h -> same_parts f h.
Proof. intros (A1 & A2 & A3 & A4 & A5 & A6) (B1 & B2 & B3 & B4 & B5 & B6). split_and!; congruence. Qed.

(** What a layout shows: the explorer and the log as the state says, the splitter when both are
    shown; rows are fixed exactly then, and fill the height to less than two pixels. *)
Theorem layout_shows a b z f :
  let f' := applyLayout a b z f in
  fr_explorerShown f' = a /\ fr_splitterShown f' = a && b /\ (b = true -> fr_logsShown f' = true) /\
  (a && b = false -> fr_rows f' = None) /\
  (a && b = true -> exists top bottom, fr_rows f' = Some (top, bottom) /\ 0 <= top /\ 0 <= bottom /\
     top + bottom <= usable z /\ usable z < top + bottom + 2).
Proof.
  cbn zeta. rewrite applyLayout_eq. destruct (fit_parts z (laid_out a b z f)) as (Hf & Hr & _).
  pose proof (same_trans _ _ _ (laid_out_parts a b z f) Hf) as Hs. set (f3 := ensureCtrlContentFit z (laid_out a b z f)) in *.
  pose proof (same_trans _ _ _ Hs (reflow_parts z f3)) as (_ & _ & _ & S4 & S5 & S6). destruct Hs as (S1 & S2 & S3 & _).
  cbn [fr_showExplorer fr_showLogs fr_children fr_explorerShown fr_logsShown fr_splitterShown] in *.
  split; [exact S4|]. split; [exact S6|]. split; [|split].
  - intros ->. rewrite S5. by rewrite bool_decide_true by apply layout_has_logs.
  - intros Hab. rewrite reflow_not_both by (by rewrite S1, S2). rewrite Hr. unfold laid_out. by rewrite Hab.
  - intros [-> ->]%andb_prop. rewrite reflow_rows; [|done|done|rewrite S3; apply layout_has_logs]. set (d := or_else _ _).
    destruct (reflow_fits (usable z) d (Q.le_max_l _ _)) as (R1 & R2 & R3 & R4). eexists _, _. split; [reflexivity|].
    unfold reflow in *. cbn [fst snd] in *. rewrite !row_px_idem. done.
Qed.

Definition bound_once (f : frame) : Prop := fr_bindings f = if fr_bound f then 1%nat else 0%nat.

Lemma reflow_bound z f : bound_once f -> bound_once (reflowAfterCtrlMove z f).
Proof. unfold reflowAfterCtrlMove. by destruct (_ && _). Qed.

Lemma fit_bound z f : bound_once f -> bound_once (ensureCtrlContentFit z f).
Proof. unfold ensureCtrlContentFit. by destruct (fr_userAdjusted f). Qed.

Lemma bind_bound z f : bound_once f -> bound_once (bind_once z f).
Proof.
  unfold bound_once, bind_once. intros H. destruct (fr_bound f) eqn:E; cbn [negb]; [by rewrite andb_false_r, E|].
  rewrite andb_true_r. destruct (fr_showExplorer f && fr_showLogs f); [|by rewrite E].
  destruct (fr_saved f) as [[r|]|]; [| |]; cbn; rewrite ?H; try done; by destruct (Qlt_le_dec _ 8); cbn; rewrite ?H.
Qed.

Lemma step_bound f e : bound_once f -> bound_once (frame_step f e).
Proof.
  intros H. destruct e as [a b z|z|dy z z'|z]; cbn [frame_step].
  - unfold applyLayout. cbn zeta. apply reflow_bound, fit_bound. set (f1 := MkFrame a b _ _ _ _ _ _ _ _ _ _ _).
    pose proof (bind_bound z f1 H) as Hb. by destruct (a && b).
  - by apply reflow_bound, fit_bound.
  - set (f1 := MkFrame (fr_showExplorer f) (fr_showLogs f) (fr_children f) (fr_explorerShown f) (fr_logsShown f) (fr_splitterShown f) (fr_bound f)
      (fr_bindings f) (fr_rows f) (fr_lastBottom f) (fr_saved f) (ctrl_height (sz_window z) (fr_ctrl f) dy) true).
    exact (reflow_bound z f1 H).
  - exact H.
Qed.

(** The middle splitter is bound at most once, however often the parts are shown and hidden. *)
Theorem splitter_bound_once evs : (fr_bindings (frame_run evs frame_init) <= 1)%nat.
Proof.
  assert (H : bound_once (frame_run evs frame_init)).
  { unfold frame_run. assert (H0 : bound_once frame_init) by done. revert H0. generalize frame_init.
    induction evs as [|e evs IH]; intros f Hf; [done|]. cbn [fold_left]. by apply IH, step_bound. }
  rewrite H. destruct (fr_bound _); lia.
Qed.

(** A control height that the user has set stays, whatever is shown and however the window
    changes, until the user sets another. *)
Definition no_ctrl (e : frame_event) : bool := match e with FCtrl _ _ _ => false | _ => true end.

Lemma reflow_ctrl z f : fr_userAdjusted (reflowAfterCtrlMove z f) = fr_userAdjusted f /\ fr_ctrl (reflowAfterCtrlMove z f) = fr_ctrl f.
Proof. unfold reflowAfterCtrlMove. by destruct (bool_decide _ && (fr_showExplorer f && fr_showLogs f)). Qed.

Lemma bind_ctrl z f : fr_userAdjusted (bind_once z f) = fr_userAdjusted f /\ fr_ctrl (bind_once z f) = fr_ctrl f.
Proof.
  unfold bind_once. destruct (fr_showExplorer f && fr_showLogs f && negb (fr_bound f)); [|done].
  destruct (fr_saved f) as [[r|]|]; [done| |]; by destruct (Qlt_le_dec _ 8).
Qed.

Lemma kept_step f e : no_ctrl e = true -> fr_userAdjusted f = true -> fr_userAdjusted (frame_step f e) = true /\ fr_ctrl (frame_step f e) = fr_ctrl f.
Proof.
  intros He Hu. destruct e as [a b z|z|dy z z'|z]; [| |done|by split]; cbn [frame_step].
  - unfold applyLayout. set (f1 := MkFrame a b _ _ _ _ _ _ _ _ _ _ _). cbn zeta.
    assert (H2 : fr_userAdjusted (bind_once z f1) = true /\ fr_ctrl (bind_once z f1) = fr_ctrl f).
    { destruct (bind_ctrl z f1) as [-> ->]. split; [exact Hu|reflexivity]. }
    destruct H2 as [H2 H3]. set (f3 := if a && b then _ else _).
    assert (H4 : fr_userAdjusted f3 = true /\ fr_ctrl f3 = fr_ctrl f) by (unfold f3; clearbody f1; case (a && b); split; [exact H2|exact H3|exact H2|exact H3]). destruct H4 as [H4 H5].
    clearbody f3.
    unfold ensureCtrlContentFit. rewrite H4. destruct (reflow_ctrl z f3) as [-> ->]. done.
  - unfold ensureCtrlContentFit. rewrite Hu. destruct (reflow_ctrl z f) as [-> ->]. done.
Qed.

Theorem control_height_kept evs dy z z' f :
  forallb no_ctrl evs = true ->
  fr_ctrl (frame_run (FCtrl dy z z' :: evs) f) = ctrl_height (sz_window z) (fr_ctrl f) dy.
Proof.
  intros Hev. cbn [frame_run fold_left].
  assert (H0 : fr_userAdjusted (frame_step f (FCtrl dy z z')) = true /\ fr_ctrl (frame_step f (FCtrl dy z z')) = ctrl_height (sz_window z) (fr_ctrl f) dy).
  { unfold frame_step, ctrl_move, savePanelState. cbn [fst fr_userAdjusted fr_ctrl]. set (f1 := MkFrame _ _ _ _ _ _ _ _ _ _ _ _ true).
    destruct (reflow_ctrl z f1) as [-> ->]. done. }
  destruct H0 as [Hu <-]. revert Hu. generalize (frame_step f (FCtrl dy z z')). clear f. induction evs as [|e evs IH]; intros f Hu; [done|].
  apply andb_prop in Hev as [He Hev]. destruct (kept_step f e He Hu) as [Hu' Ec]. cbn [fold_left]. rewrite <- Ec. by apply IH.
Qed.

Definition demo_sizes : sizes := MkSizes 506 6 300 200 90 900.

Lemma control_height_kept_witness :
  fr_ctrl (frame_run [FCtrl 200 demo_sizes demo_sizes; FLayout true true demo_sizes; FResize demo_sizes] frame_init) = ctrl_height 900 0 200.
Proof. exact (control_height_kept [FLayout true true demo_sizes; FResize demo_sizes] 200 demo_sizes demo_sizes frame_init eq_refl). Defined.

Lemma restored_rows e l u :
  (80 <= e)%Z -> (80 <= l)%Z -> u == inject_Z e + inject_Z l ->
  row_px (fst (reflow u (inject_Z l))) = inject_Z e /\ row_px (snd (reflow u (inject_Z l))) = inject_Z l.
Proof.
  intros He Hl Eu. assert (He' : 80 <= inject_Z e) by (unfold Qle; cbn; lia). assert (Hl' : 80 <= inject_Z l) by (unfold Qle; cbn; lia).
  unfold reflow, MIN_TOP, MIN_BOTTOM. cbn [fst snd]. rewrite !row_px_idem.
  assert (E : Qmax (Qmax 0 (Qmin 80 (Qmax 0 (u - 80)))) (Qmin (inject_Z l) (Qmax 0 (u - 80))) == inject_Z l).
  { rewrite Eu, (Q.max_r 0 (inject_Z e + inject_Z l - 80)), (Q.min_l 80), (Q.max_r 0 80), (Q.min_l (inject_Z l)), (Q.max_r 80) by lra. reflexivity. }
  split; apply row_px_int; [rewrite E, Eu; lra|lia|exact E|lia].
Qed.

(** A position that was saved in this window is restored the first time both parts are shown: in a
    content of the same height they get the heights they had. *)
Theorem saved_position_restored e l z0 z f :
  (80 <= e)%Z -> (80 <= l)%Z -> CExplorer ∈ fr_children f -> CLogs ∈ fr_children f -> fr_bound f = false ->
  sz_explorer z0 == inject_Z e -> sz_logs z0 == inject_Z l -> sz_content z - sz_splitter z == inject_Z (e + l) ->
  fr_rows (applyLayout true true z (savePanelState z0 f).1) = Some (inject_Z e, inject_Z l).
Proof.
  intros He Hl Hce Hcl Hb Ee El Eu.
  assert (He' : 80 <= inject_Z e) by (unfold Qle; cbn; lia). assert (Hl' : 80 <= inject_Z l) by (unfold Qle; cbn; lia).
  assert (Eu' : sz_content z - sz_splitter z == inject_Z e + inject_Z l) by (rewrite Eu, inject_Z_plus; reflexivity).
  assert (Ez : usable z == inject_Z e + inject_Z l).
  { unfold usable, usable_of. rewrite Q.max_r by (rewrite Eu'; lra). exact Eu'. }
  unfold savePanelState, getSplitterPosition. rewrite !bool_decide_true by done. cbn [andb].
  destruct (Qlt_le_dec 0 (sz_explorer z0 + sz_logs z0)) as [Hp|Hp]; [|exfalso; rewrite Ee, El in Hp; lra].
  set (ratio := sz_explorer z0 / (sz_explorer z0 + sz_logs z0)).
  assert (Er : ratio == inject_Z e / (inject_Z e + inject_Z l)) by (unfold ratio; by rewrite Ee, El).
  assert (Et : Qmax 0 ((sz_content z - sz_splitter z) * ratio) == inject_Z e).
  { rewrite Er, Eu'. assert (E : (inject_Z e + inject_Z l) * (inject_Z e / (inject_Z e + inject_Z l)) == inject_Z e) by (field; lra).
    rewrite E. apply Q.max_r. lra. }
  assert (Eb : row_px (Qmax 0 ((sz_content z - sz_splitter z) - Qmax 0 ((sz_content z - sz_splitter z) * ratio))) = inject_Z l).
  { apply row_px_int; [|lia]. rewrite Et, Eu'. rewrite Q.max_r by lra. lra. }
  rewrite applyLayout_eq. set (f0 := fst _). destruct (fit_parts z (laid_out true true z f0)) as (Hf & _ & Hlast).
  pose proof (same_trans _ _ _ (laid_out_parts true true z f0) Hf) as (S1 & S2 & S3 & _).
  rewrite reflow_rows; [|exact S1|exact S2|rewrite S3; apply layout_has_logs]. rewrite Hlast.
  assert (El2 : fr_lastBottom (laid_out true true z f0) = Some (inject_Z l)).
  { unfold laid_out, bind_once, f0. cbn. rewrite Hb. cbn. by rewrite Eb. }
  rewrite El2. cbn [or_else]. destruct (restored_rows e l (usable z) He Hl Ez) as [-> ->]. reflexivity.
Qed.

(** A frame in which the log was shown alone before *)
Definition demo_frame : frame := frame_run [FLayout false true demo_sizes] frame_init.

Lemma saved_position_restored_witness :
  fr_rows (applyLayout true true demo_sizes (savePanelState demo_sizes demo_frame).1) = Some (inject_Z 300, inject_Z 200).
Proof.
  apply (saved_position_restored 300 200 demo_sizes demo_sizes demo_frame); try lia; try reflexivity;
    apply (bool_decide_unpack _); vm_compute; exact I.
Defined.

(** A window that is opened anew has no position: the rows come from the measured heights, whatever
    was saved before. *)
Example position_lost_on_reload :
  fr_rows (applyLayout true true (MkSizes 506 6 100 400 90 900) frame_init) = Some (inject_Z 100, inject_Z 400).
Proof. by vm_compute. Qed.
