(* ===== verification/ConnectFlow.v ===== *)
(** * ConnectFlow

    Connecting a device: the dialogs of src/extension/commands/CommandHandlersConnect.ts and the
    devices that adb lists (resolveSerial, listDevices and getState of
    src/core/connection/adbClient.ts).  The answers of the user are arguments, as are the list of
    adb and the quick check of ssh.  [Commands.v] has the entries and [Connection.v] the stored
    configuration. *)

From stdpp Require Import base list strings.
From Stdlib Require Import ZArith Lia.
From S2P Require Import Prelude JsString Connection Commands.
#[local] Open Scope Z_scope.

(** ** Devices of adb *)

(** What the client of adb lists *)
Record adb_device := MkDevice { ad_id : str; ad_type : option str; ad_state : option str }.

(** [d.type ?? d.state] *)
Definition state_of (d : adb_device) : option str := match ad_type d with Some t => Some t | None => ad_state d end.

Definition online (d : adb_device) : bool := bool_decide (state_of d = Some (js "device")).

(** [resolveSerial] *)
Definition resolveSerial (serial : option str) (devices : js_result (list adb_device)) : js_result str :=
  match serial with
  | Some ((_ :: _) as s) => Ok s
  | _ =>
      match devices with
      | Throws => Throws
      | Ok l => match List.filter online l with [d] => Ok (ad_id d) | _ => Throws end
      end
  end.

(** [listDevices]: the ids with their states *)
Definition listDevices (devices : js_result (list adb_device)) : js_result (list (str * option str)) :=
  match devices with Ok l => Ok (List.map (fun d => (ad_id d, state_of d)) l) | Throws => Throws end.

(** [getState] *)
Definition getState (serial : str) (devices : js_result (list adb_device)) : js_result str :=
  match devices with
  | Throws => Throws
  | Ok l =>
      Ok (match List.find (fun d => bool_decide (ad_id d = serial)) l with
          | Some d => or_else (state_of d) (js "unknown")
          | None => js "unknown"
          end)
  end.

(** ** The dialogs *)

Inductive connect_way := Existing | NewDevice.
Inductive branch := BranchAdb | BranchSsh.

(** The answers, [None] where a dialog is closed *)
Record connect_answers := MkConnectAnswers {
  ca_pick : option connect_way;
  ca_chosen : option str;         (* the id of a stored connection *)
  ca_branch : option branch;
  ca_device : option str;
  ca_host : option str;
  ca_user : option str;
  ca_port : option str;
  ca_password : option str;
  ca_alias : option str }.

(** What adb lists and whether ssh answers, at one moment *)
Record moment := MkMoment {
  w_devices : js_result (list adb_device);
  w_ssh : ConnectionDetails -> bool }.

(** [markRecent] sets [lastUsed] of the stored connection, which is the object that is made the
    active one. *)
Definition touched (c : ConnectionInfo) (now_text : str) : ConnectionInfo :=
  Connection.MkInfo (ci_id c) (ci_alias c) (ci_details c) now_text.

(** Whether a stored connection answers; listing the devices may throw. *)
Definition check_entry (w : moment) (c : ConnectionInfo) : js_result bool :=
  match ci_details c with
  | AdbDetails d => match getState d (w_devices w) with Ok st => Ok (bool_decide (st = js "device")) | Throws => Throws end
  | d => Ok (w_ssh w d)
  end.

(** The file and the connection manager after a call, and whether it throws *)
Abbreviation connect_outcome := (option str * manager * js_result unit)%type.

Section flow.
Context (time_of : str -> Z) (parse : str -> option ConnectionConfigFile) (stringify : ConnectionConfigFile -> str).
(** [Number] of the text of a port, and the time *)
Context (number : str -> Z) (now_text : str).
(** The moment when the lists are made, and the one when all dialogs have been answered *)
Context (w1 w2 : moment).

(** [_newAdb]: what throws is shown and ends the dialog. *)
Definition newAdb_flow (ca : connect_answers) (cfg : ConnectionConfigFile) (file : option str) (cm : manager) : connect_outcome :=
  match listDevices (w_devices w1) with
  | Throws => (file, cm, Ok tt)
  | Ok l =>
      match List.filter (fun d => bool_decide (d.2 = Some (js "device"))) l, ca_device ca with
      | _ :: _, Some deviceID =>
          (save_new time_of stringify (newAdb deviceID now_text (ca_alias ca)) cfg cm, Ok tt)
      | _, _ => (file, cm, Ok tt)
      end
  end.

(** [_newSsh] *)
Definition newSsh_flow (ca : connect_answers) (cfg : ConnectionConfigFile) (file : option str) (cm : manager) : connect_outcome :=
  match truthy (ca_host ca), truthy (ca_user ca), truthy (ca_port ca), ca_password ca with
  | Some host, Some user, Some portStr, Some password =>
      let port := number portStr in
      if w_ssh w2 (SshDetails host user port (Some password))
      then (save_new time_of stringify (newSsh host user port password now_text (ca_alias ca)) cfg cm, Ok tt)
      else (file, cm, Ok tt)
  | _, _, _, _ => (file, cm, Ok tt)
  end.

(** [_pickNew] *)
Definition pickNew (ca : connect_answers) (cfg : ConnectionConfigFile) (file : option str) (cm : manager) : connect_outcome :=
  match ca_branch ca with
  | None => (file, cm, Ok tt)
  | Some BranchAdb => newAdb_flow ca cfg file cm
  | Some BranchSsh => newSsh_flow ca cfg file cm
  end.

(** The rest of [_pickExisting], for the connection that is chosen *)
Definition activate (selected : ConnectionInfo) (cfg : ConnectionConfigFile) (file : option str) (cm : manager) : connect_outcome :=
  match check_entry w2 selected with
  | Throws => (file, cm, Throws)
  | Ok false => (file, cm, Ok tt)
  | Ok true =>
      (saveConnectionConfig stringify (markRecent time_of cfg (ci_id selected) now_text), setActive (touched selected now_text) cm, Ok tt)
  end.

(** [_pickExisting]: all stored connections are asked first, for the list that is shown. *)
Definition pickExisting (ca : connect_answers) (cfg : ConnectionConfigFile) (file : option str) (cm : manager) : connect_outcome :=
  match connections cfg with
  | [] => pickNew ca cfg file cm
  | _ =>
      match res_map (check_entry w1) (connections cfg) with
      | Throws => (file, cm, Throws)
      | Ok _ =>
          match ca_chosen ca with
          | None => (file, cm, Ok tt)
          | Some id =>
              match List.find (fun c => bool_decide (ci_id c = id)) (connections cfg) with
              | None => (file, cm, Ok tt)
              | Some selected => activate selected cfg file cm
              end
          end
      end
  end.

(** [connectDevice], for a workspace that is known or not *)
Definition connectDevice (workspace : option str) (ca : connect_answers) (file : option str) (cm : manager) : connect_outcome :=
  match truthy workspace with
  | None => (file, cm, Ok tt)
  | Some _ =>
      let '(file', cfg) := readConnectionConfig parse stringify file in
      match ca_pick ca with
      | None => (file', cm, Ok tt)
      | Some Existing => pickExisting ca cfg file' cm
      | Some NewDevice => pickNew ca cfg file' cm
      end
  end.

(** ** Theorems *)

(** A device that answers: adb lists it as one, or ssh runs a command on it. *)
Definition answers (w : moment) (d : ConnectionDetails) : Prop :=
  match d with
  | AdbDetails id => exists l x, w_devices w = Ok l /\ x ∈ l /\ ad_id x = id /\ online x = true
  | _ => w_ssh w d = true
  end.

(** The picker of adb devices gives one of those it was shown. *)
Definition picks_shown (ca : connect_answers) : Prop :=
  forall l id, w_devices w1 = Ok l -> ca_device ca = Some id -> exists x, x ∈ l /\ ad_id x = id /\ online x = true.

(** Nothing is connected, or a device that answered has become the active one and the stored
    configuration names it as the recent one. *)
Definition sound (cm : manager) (o : connect_outcome) : Prop :=
  o.1.2 = cm \/
  exists c cfg', o = (Some (stringify cfg'), setActive c cm, Ok tt) /\ recent cfg' = Some (ci_id c) /\
    ci_lastUsed c = now_text /\ (answers w1 (ci_details c) \/ answers w2 (ci_details c)).

Lemma check_answers w c : check_entry w c = Ok true -> answers w (ci_details c).
Proof.
  unfold check_entry, answers, getState. destruct (ci_details c) as [id|]; [|by intros [= ->]].
  destruct (w_devices w) as [l|]; [|done]. destruct (List.find _ l) as [x|] eqn:E; [|done]. apply find_some in E as [Hin Hid].
  apply bool_decide_eq_true in Hid. intros [= H]. apply bool_decide_eq_true in H. exists l, x. split_and!; try done.
  - by apply list_elem_of_In.
  - unfold online. apply bool_decide_eq_true. destruct (state_of x) as [t|]; cbn [or_else] in H; [by rewrite H|discriminate H].
Qed.

Lemma pickNew_sound ca cfg file cm : picks_shown ca -> sound cm (pickNew ca cfg file cm).
Proof.
  intros Hp. unfold pickNew. destruct (ca_branch ca) as [[]|]; [| |by left].
  - unfold newAdb_flow, listDevices. destruct (w_devices w1) as [l|] eqn:El; [|by left]. destruct (List.filter _ _); [by left|].
    destruct (ca_device ca) as [id|] eqn:Ed; [|by left]. right. do 2 eexists. split; [reflexivity|]. split_and!; try done. left. cbn.
    destruct (Hp l id El Ed) as (x & H1 & H2 & H3). by exists l, x.
  - unfold newSsh_flow. destruct (truthy (ca_host ca)); [|by left]. destruct (truthy (ca_user ca)); [|by left].
    destruct (truthy (ca_port ca)); [|by left]. destruct (ca_password ca); [|by left].
    destruct (w_ssh w2 _) eqn:E; [|by left]. right. do 2 eexists. split; [reflexivity|]. split_and!; try done. by right.
Qed.

Lemma find_update id f l c :
  List.find (fun c => bool_decide (ci_id c = id)) l = Some c -> is_Some (update_first id f l).
Proof.
  induction l as [|d l IH]; [done|]. cbn. destruct (decide (ci_id d = id)) as [E|E]; [by eexists|].
  rewrite bool_decide_eq_false_2 by done. intros H. destruct (IH H) as [l' ->]. by eexists.
Qed.

Lemma activate_sound id selected cfg file cm :
  List.find (fun c => bool_decide (ci_id c = id)) (connections cfg) = Some selected ->
  sound cm (activate selected cfg file cm).
Proof.
  intros Hf. unfold activate. destruct (check_entry w2 selected) as [[]|] eqn:E; [|by left|by left]. right.
  pose proof (find_some _ _ Hf) as [_ Hid]. apply bool_decide_eq_true in Hid. rewrite Hid.
  exists (touched selected now_text), (markRecent time_of cfg id now_text). split_and!; [done| |done|right; by apply check_answers].
  unfold markRecent. destruct (find_update id (fun c => Connection.MkInfo (ci_id c) (ci_alias c) (ci_details c) now_text) _ _ Hf) as [l' ->].
  cbn. by rewrite Hid.
Qed.

(** Whatever the user answers, only a device that answered while the dialogs were open becomes
    the active one, and it is then stored as the recent one with the time of the connection;
    otherwise the connection stays as it was. *)
Theorem only_reachable_devices workspace ca file cm :
  picks_shown ca -> sound cm (connectDevice workspace ca file cm).
Proof.
  intros Hp. unfold connectDevice. destruct (truthy workspace); [|by left]. destruct (readConnectionConfig _ _ _) as [file' cfg].
  destruct (ca_pick ca) as [[]|]; [|by apply pickNew_sound|by left]. unfold pickExisting.
  destruct (connections cfg) as [|c0 cs] eqn:Ec; [by apply pickNew_sound|]. destruct (res_map _ _); [|by left].
  destruct (ca_chosen ca) as [id|]; [|by left]. destruct (List.find _ _) as [sel|] eqn:Hf; [|by left].
  apply (activate_sound id). by rewrite Ec.
Qed.

(** When one stored connection cannot be asked, none can be chosen: the list is never shown,
    even for a connection over ssh. *)
Lemma one_throw_blocks_all workspace ca file cm c :
  truthy workspace <> None -> ca_pick ca = Some Existing ->
  c ∈ connections (readConnectionConfig parse stringify file).2 -> check_entry w1 c = Throws ->
  (connectDevice workspace ca file cm).1.2 = cm /\ (connectDevice workspace ca file cm).2 = Throws.
Proof.
  intros Hw Hp Hin Hc. unfold connectDevice. destruct (truthy workspace); [|done]. destruct (readConnectionConfig _ _ _) as [file' cfg].
  rewrite Hp. unfold pickExisting. cbn in Hin. enough (H : res_map (check_entry w1) (connections cfg) = Throws).
  { destruct (connections cfg); [by apply not_elem_of_nil in Hin|]. by rewrite H. }
  clear Hp. induction (connections cfg) as [|d rest IH]; [by apply not_elem_of_nil in Hin|]. cbn.
  apply elem_of_cons in Hin as [<-|Hin]; [by rewrite Hc|]. destruct (check_entry w1 d); [|done]. cbn. by rewrite IH.
Qed.
End flow.

(** Without a serial, a command goes to a device exactly when it is the only one that is online. *)
Theorem resolveSerial_unique l s :
  NoDup l ->
  resolveSerial None (Ok l) = Ok s <->
  exists d, d ∈ l /\ online d = true /\ ad_id d = s /\ forall x, x ∈ l -> online x = true -> x = d.
Proof.
  intros Hnd. unfold resolveSerial.
  assert (Hin : forall x, In x (List.filter online l) <-> x ∈ l /\ online x = true)
    by (intros x; rewrite filter_In; by rewrite list_elem_of_In).
  assert (Hf : List.NoDup (List.filter online l)) by (apply List.NoDup_filter; by apply NoDup_ListNoDup).
  destruct (List.filter online l) as [|d [|d' r]]; split.
  - done.
  - intros (x & H1 & H2 & _). destruct (proj2 (Hin x) (conj H1 H2)).
  - intros [= <-]. exists d. destruct (proj1 (Hin d)) as [H1 H2]; [by left|]. split_and!; try done.
    intros x Hx Ho. destruct (proj2 (Hin x)) as [<-|[]]; done.
  - intros (x & H1 & H2 & <- & _). by destruct (proj2 (Hin x)) as [<-|[]].
  - done.
  - intros (x & _ & _ & _ & H). apply List.NoDup_cons_iff in Hf as [Hf _]. exfalso. apply Hf. left.
    transitivity x; [|symmetry]; apply H; apply Hin; (by left) || (right; by left).
Qed.

(** *** A connection over ssh that is stored, chosen again, and found *)
Definition demo_ssh : ConnectionInfo := newSsh (js "h") (js "u") 22 (js "p") (js "5") None.
Definition demo_config : ConnectionConfigFile := Connection.MkConfig None [demo_ssh].
Definition demo_connect : connect_answers :=
  MkConnectAnswers (Some Existing) (Some (ci_id demo_ssh)) None None None None None None None.
Definition demo_moment : moment := MkMoment Throws (fun _ => true).

(** The active connection has the new time of use, and adb, which throws, is not asked. *)
Lemma stored_connection_chosen :
  let o := connectDevice (fun _ => 0) (fun _ => Some demo_config) (fun _ => js "saved") (fun _ => 22) (js "9") demo_moment demo_moment
             (Some (js "/ws")) demo_connect (Some (js "file")) (Connection.MkManager false None None None None) in
  o.1.1 = Some (js "saved") /\ active o.1.2 = Some (touched demo_ssh (js "9")) /\ o.2 = Ok tt.
Proof. vm_compute. auto. Qed.
